(* ===== verification/_CoqProject ===== *)
-Q . S2P
Prelude.v
Wire.v
MlRange.v
Approach.v
ApproachFacts.v
ApproachProps.v
Fusion.v
Satellite.v
Side.v
SideProps.v
SideLog.v
Latch.v
LatchProps.v
LatchBlob.v
Door.v
Slam.v
RssiGate.v
WitnessMsg.v
Link.v
WitnessCore.v
WitnessPick.v
MatterStatus.v
MatterBtp.v
MatterBtpProps.v
MatterMrp.v
MatterMsg.v
MatterTlv.v
MatterTlvSafety.v
MatterTlvWriter.v
MatterTlvRound.v
MatterCrypto.v
MatterExchange.v
MatterExchangeTypes.v
MatterExchangeProps.v
MatterExchangeNonce.v
MatterTxPool.v
Dfu.v
DfuProps.v
DfuRun.v
DfuHost.v
Prov.v
ProvProps.v
ProvBlob.v
ProvSafety.v
Cbor.v
StepupParse.v
StepupParseProps.v
Hash.v
CredCrypto.v
CredTlv.v
StepupWire.v
Stepup.v
CredApdu.v
Device.v
ReaderState.v
Reader.v
ReaderHost.v
ReaderFacts.v
ReaderGrant.v
ReaderFeed.v
ReaderCalm.v
ReaderRun.v
Handshake.v
ReaderRevoke.v
ReaderProps.v
UwbMsg.v
CccKdf.v
CccMac.v
FiraRange.v
CccRx.v
CccRxProps.v
CccKeyProps.v
UwbCherry.v
UwbSession.v
UwbRun.v
UwbSetup.v
SatJoin.v
