(* ===== verification/Prelude.v ===== *)
(** * UltraWideLock: a verification library for the lock's portable core

    ** The program

    UltraWideLock is firmware for a door lock that opens for an authenticated
    phone as it walks up.  Its portable C modules have no allocation and no
    threads of their own; applications and ports around them drive radios,
    storage and protocol stacks and call in.  Paths below are under
    [src/modules/], the prefix [ultrawidelock_] of files and functions is left
    out where the name stays clear.

    - Credentials ([ultrawidelock_cred/src]).  A phone and the reader of the lock
      run an access protocol over BLE: AUTH0 exchanges ephemeral keys, the fast
      phase recognises a phone by a key both kept ([reader.c], [crypto.c],
      [hash.c]), AUTH1 by a signature, and a phone nobody knows may bring a
      document an issuer signed ([stepup.c], [stepup_parse.c],
      [stepup_verify.c]).  The keys and issuers live in the provisioning store
      ([prov.c]), which an administrator fills and clears through the reader.
      EXCHANGE ends the transaction and both sides range under the same key.
      [apdu.c], [device_apdu.c], [cred_tlv.c] are the codecs, [device.c] the
      phone's side.
    - Approach ([ultrawidelock_cred/src/ultrawidelock_approach.c]).  UWB distances
      and clock ticks become unlock and relock actions; [ultrawidelock_ml/src]
      corrects distances, [rssi_gate.c] decides when ranging is worth its power.
    - Side of the door ([ultrawidelock_anchor/src]).  Witnesses summarise what
      they hear and send it over a sealed link; the lock picks the label that
      moves with the phone and classifies the side; a second anchor's reports are
      paired and fused; a persistent latch keeps a phone that is inside from
      unlocking; the swing of the door and blows to it are judged as well.
    - Ranging ([ultrawidelock_uwb/src]).  Phone and lock agree on a session in
      four messages ([cred/uwb_msg.c], [uwb_session.c]; the phone's side is
      [device_uwb.c]); the lock then answers the phone's ranging rounds, with
      keys derived per round from the ranging key ([ccc/ccc_kdf.c], [ccc_mac.c],
      [ccc_shim.c]), in radio callbacks ([ccc_shim_rx.c]) that end in a distance
      in the range store ([fira/fira_session.c]).  A second anchor, the
      satellite, takes the session over from what the lock hands it
      ([src/apps/satellite]).
    - Matter ([ultrawidelock_matter/src]).  Fragments over BLE, message headers,
      TLV, AES-CCM, reliable delivery with a replay window, exchanges with an
      outbound slot pool.
    - Firmware update ([ultrawidelock_dfu/src]).  A framed protocol stages a
      signed image in a flash partition.

    A passive unlock happens when an authenticated session ranges, the approach
    controller asks for one, and the side gate, the satellites and the latch all
    permit it.

    ** The library

    Each component has a file with its data, operations and first properties; a
    longer proof has a file of its own, required by the next.

    - [Prelude]: record update, machine integers, big-endian fields, sorted lists, the
      hint base [uwl] and the tactics [zdiv] and [zcmp_cases].  [Wire]: byte buffers.
    - [MlRange] (with IEEE single precision as C [float] computes), [Approach],
      [ApproachFacts], [ApproachProps]: range correction and approach controller;
      the feed function is given in its stages, composed by [feed_one].
    - [Fusion], [Satellite]: two-anchor fusion and satellite pairing; the class
      [EvidenceGate] states what a set of evidence promises its clients.
      [Side], [SideProps], [SideLog]: the side gate.  [Latch], [LatchProps],
      [LatchBlob]: the latch.  [Door], [Slam], [RssiGate]: swing, blows, power.
    - [WitnessMsg], [Link], [WitnessCore], [WitnessPick]: message codecs, sealed
      link (the crypto is the class [Psa] with the laws [PsaLaws]), witness
      window, label pick.
    - [MatterStatus], [MatterBtp], [MatterBtpProps], [MatterMrp], [MatterMsg],
      [MatterTlv] with [MatterTlvSafety] (the reader), [MatterTlvWriter] (the
      writer) and [MatterTlvRound] (both), [MatterCrypto], [MatterExchange] with
      [MatterExchangeTypes], [MatterExchangeProps] and [MatterExchangeNonce],
      [MatterTxPool]: the Matter layers from the fragment to the exchange.
    - [Dfu], [DfuProps], [DfuRun], [DfuHost]: the update receiver, its flash as a
      list of bytes, runs of frames from several transports, an honest host.
    - [Prov], [ProvProps], [ProvBlob], [ProvSafety]: the provisioning store as the
      C arrays, the abstract store it implements ([astore], [refines]), the
      persistent blob.
    - [Cbor], [StepupParse], [StepupParseProps], [StepupWire], [Stepup]: document
      parser over an explicit memory, envelopes and session data, verifier.
    - [Hash], [CredCrypto], [CredTlv]: SHA-256 with its streaming interface and
      what is built on it, the key schedule, both ends of the secure channels
      (AES-GCM is the class [Gcm], its laws [GcmLaws]), the strict TLV reader.
    - [CredApdu], [Device]: codecs of the access protocol; the elliptic-curve
      primitives (class [Ec], laws [EcLaws]) and the phone's session machine.
    - [ReaderState], [Reader], [ReaderHost]: the reader.  Its state is the record
      [reader]: what the locks guard, the session table, the collection buffer,
      the presence state, the ranging session, and a log of everything it asked
      of its surroundings.  The surroundings answer through the class [World], a
      function of that log for each kind of question, so a theorem over every
      [World] covers every interleaving of failures.  [Reader] has one definition
      per handler of the transaction, [ReaderHost] the entries of the BLE host,
      ticks, presence and housekeeping, and every administrative entry.
    - [ReaderFacts], [ReaderGrant], [ReaderFeed], [ReaderCalm], [ReaderRun],
      [ReaderProps]: what a step may change ([moved]), what a message proves
      ([grant_evidence]), operations that grant nothing ([calm]), the runs
      ([move], [reach]) and the invariant over them.  [Handshake] joins reader and
      device, [ReaderRevoke] treats removals.
    - [UwbMsg]: ranging messages as attribute lists and the device's half of the
      setup.  [CccKdf], [CccMac], [CccKeyProps]: key schedule and caches, frames
      and slots, STS keys (the AES block function is the class [BlockCipher], its
      laws [BlockCipherLaws]).  [FiraRange]: the range store.  [CccRx]: the
      receive path and the callbacks: an event carries what the code reads of the
      radio, a callback gives the engine and the list of commands to the radio;
      [CccRxProps] treats rounds.
    - [UwbCherry], [UwbSession]: the session and the seam beneath it in a state
      and failure monad [M]: the heap has the session and the seam's object, and
      an access to one that has been freed is a computation without a result.
      Which allocations fail is part of the state.  [UwbRun] has the rules for
      postconditions ([runs]), the invariant [coherent], the operations and their
      runs, [UwbSetup] the four messages, [SatJoin] the satellite.

    ** How the model reads

    A C function is a definition of the same name; a struct is a record with its
    fields; a call that changes a struct takes the record and gives the new one,
    with the return value beside it.  A pointer that may be null is an [option]
    where the function accepts null.  A [w]-bit value is the integer it denotes;
    [wrap] and [swrap] are written where the source converts, narrows or lets an
    unsigned type or a [size_t] (32 bits) wrap; C division is [Z.quot] where operands may be negative.  A handler
    is cut at the points where the C function returns early or composes helpers,
    and the pieces are mapped to their lines.

    Loops over arrays are structural recursions over the list.  Loops with fuel,
    and why it is enough: [acos_search] halves an interval of 180 in 8 steps
    ([Door] shows the bracket has closed); [newton] gets a + b steps
    ([resolution_root_exact]); the Matter TLV scan one step per byte left and one
    more ([tlv_scan_terminates]), the BTP sender one per byte and two more, the
    CCM loops one per block; the DFU patch loop one per byte of the frame; the
    document parser one turn per byte left, the skipper 21 levels as in the code
    ([stepup_parser_safe], [cb_skip_exact]); the padding and block loops of the
    hash and the output loops of the derivations the length ([hash_standards]);
    [find_loop] one per byte ([apdu_understood]); the ENVELOPE sender one per
    byte ([envelopes_reassemble]); the attribute loops of the ranging messages
    one per byte ([for_attributes_over]), the CMAC and CCM loops one per block or
    byte of their input; [feed_loop] one per byte received, each
    envelope having four; [remove_cred_loop] one per anchor and one more
    ([revocation_fails_closed]).

    ** What is shown

    - The reader ([ReaderProps], [Handshake], [ReaderRevoke]): in every reachable
      state an established session was granted access during that session by
      evidence, under the key of that evidence; nobody is recorded without
      evidence; reader and a device it trusts always complete the handshake with
      one key; a revocation is in force at once whatever the store answers.
    - Documents: a valid verdict means all six steps hold of the bytes; the parser
      stays in bounds on any input; SessionData has one encoding.
    - Keys: the hash functions are the standards'; the reader never encrypts twice
      under one nonce; both ends of a channel understand each other; the salt
      binds its fields; a stored fast-path key belongs to its credential through every removal and eviction.
    - Approach, side, satellites, latch: an unlock follows an observed approach; a
      permitted passive unlock looks back on agreeing OUTSIDE windows; verdicts
      pair measurements of one round; a permit of the latch is backed by an
      approach from afar.
    - Ranging ([UwbRun], [UwbSetup], [CccRxProps], [CccKeyProps], [FiraRange],
      [SatJoin]): sessions never touch a freed object while allocations succeed
      and the radio listens exactly while they range; the setup ends with the
      same configuration on both sides; a distance is believed only from a frame
      under the key of the round it belongs to, at most one per response; an
      honest round within 30 m gives the true distance; no STS index serves two
      slots; the caches are invisible; a range is trusted exactly after enough agreeing
      ones; satellite and lock compute the same keys.
    - Link: no report is believed twice, no nonce repeats.
    - Matter: a framed message is delivered unchanged, and once while the counters
      have not gone round ([window_wraps_round]); forged bytes leave the
      exchange as it was; codecs round-trip; reader and pool confined to their
      buffers; window and pool refine their abstract counterparts.
    - Update: a staged image is exactly a signed stream, unless an erase that was
      commanded failed since the receiver was last idle; an honest transfer
      completes whatever strangers send; strangers change nothing.
    - Behaviours that contradict the source's own comments are lemmas beside the
      properties: [replay_lowers_floor], [stale_entry_shadows_fresh],
      [impossible_distance_accepted], [ml_los_range_true_cm_wraps],
      [tlv_next_after_end], [replayed_request_moves_exchange],
      [dfu_abort_unsigned], [dfu_abort_failure_committable],
      [ex_two_issuer_auths], [msg_seal_oversize], [dev_counter_wraps],
      [trust_clear_keeps_issuers], [import_keeps_sessions],
      [destroy_without_room], [refused_m2_changes_session], [no_common_slot],
      [exhaustion_wraps], [far_tof_reads_near], [ds_twr_overflow],
      [put_string_room_wraps].

    ** What is not modelled

    Signed overflow (undefined in C) is outside the model: signed arithmetic is
    exact, but for the two sums a peer's timestamps can drive past their type,
    [ds_twr_tof_signed] and [distance_mm], which give the two's-complement value
    ([ds_twr_in_range], [distance_mm_true] say where that is the exact one).
    Uninitialised memory is a parameter.  Locks are not modelled: an
    operation of the reader is one step, which is what [s_store_lock] and
    [s_prov_lock] and the single host task make of it.  The reader's start-up of
    tasks, its console printing and its step-up worker queue are left out, the
    job itself is an event of the log.  Cryptographic primitives, flash, clocks
    and random sources are parameters with documented laws; no secrecy is
    claimed of them.  The inference of the channel classifier is an input.  Not
    modelled: the assertion verifier, Matter fabrics, commissioning and the
    handshakes PASE and CASE, the patch applier of the boot loader.  Of the
    ranging engine the branches for ESP32, the lock sweep, the substitution of
    STS vectors under the vendor's MAC, latency histograms, impulse-response
    diagnostics and the flight recorder are left out.  Out of scope: radio and NFC
    drivers, BLE glue, C++ session objects, applications, ports and vendored
    code. *)

From Stdlib Require Import ZArith Lia Sorting.Permutation Sorting.Sorted.
From stdpp Require Import base list numbers sorting.

Local Open Scope Z_scope.

Declare Scope uwl_scope.
Delimit Scope uwl_scope with uwl.

(** ** Field update of records

    A C assignment [p->f = v] is [p <| f := v |>].  A record type declares
    its eta-expansion once ([Eta]); the update of any of its fields is then
    derived by replacing that projection in the eta-expansion. *)

Class Eta (R : Type) := eta : R -> R.

Class FieldSet {R E : Type} (proj : R -> E) := field_set : E -> R -> R.
Arguments field_set {R E} proj {_} v r.

Ltac derive_field_set :=
  lazymatch goal with
  | |- @FieldSet ?R ?E ?proj =>
      let inst := constr:(_ : Eta R) in
      let body := eval hnf in inst in
      lazymatch eval pattern proj in body with
      | ?F _ =>
          let upd := eval cbv beta in (fun (v : E) (r : R) => F (fun _ : R => v) r) in
          exact upd
      end
  end.

#[global] Hint Extern 1 (FieldSet _) => derive_field_set : typeclass_instances.

Notation "r <| f := v |>" := (field_set f v r)
  (at level 1, f at next level, left associativity,
   format "r  <| f  :=  v |>") : uwl_scope.

Open Scope uwl_scope.

#[global] Arguments Nat.modulo : simpl never.

(** ** Automation *)

(** Linear arithmetic with division and remainder by constants. *)
Ltac zdiv := Z.to_euclidean_division_equations; lia.

(** Case analysis on every integer comparison of the goal and of what the
    analysis leaves in the hypotheses. *)
Ltac zcmp_cases :=
  cbv zeta;
  repeat (match goal with
          | |- context [?a <? ?b] => destruct (Z.ltb_spec a b)
          | |- context [?a <=? ?b] => destruct (Z.leb_spec a b)
          | |- context [?a =? ?b] => destruct (Z.eqb_spec a b)
          | H : context [?a <? ?b] |- _ => destruct (Z.ltb_spec a b)
          | H : context [?a <=? ?b] |- _ => destruct (Z.leb_spec a b)
          | H : context [?a =? ?b] |- _ => destruct (Z.eqb_spec a b)
          end; simpl in *; try lia).

(** ** Machine integers

    A value of a [w]-bit C integer type is the [Z] it denotes.  Conversion
    to an unsigned type reduces modulo [2^w]; conversion to a signed type is
    the two's-complement reinterpretation.  Signed arithmetic is carried out
    in [Z]: it denotes what the C expression computes whenever the result is
    representable (signed overflow has no defined meaning in C). *)

Definition wrap (w z : Z) : Z := z mod 2 ^ w.

Definition swrap (w z : Z) : Z := (z + 2 ^ (w - 1)) mod 2 ^ w - 2 ^ (w - 1).

Abbreviation u8 := (wrap 8).
Abbreviation u16 := (wrap 16).
Abbreviation u32 := (wrap 32).
Abbreviation u64 := (wrap 64).
Abbreviation i8 := (swrap 8).
Abbreviation i16 := (swrap 16).
Abbreviation i32 := (swrap 32).
Abbreviation i64 := (swrap 64).

Definition in_u (w z : Z) : Prop := 0 <= z < 2 ^ w.

Definition in_i (w z : Z) : Prop := - 2 ^ (w - 1) <= z < 2 ^ (w - 1).

Definition INT16_MIN : Z := - 2 ^ 15.
Definition INT32_MIN : Z := - 2 ^ 31.
Definition INT32_MAX : Z := 2 ^ 31 - 1.
Definition UINT32_MAX : Z := 2 ^ 32 - 1.

Lemma wrap_range w z : 0 <= w -> in_u w (wrap w z).
Proof. intros. apply Z.mod_pos_bound. lia. Qed.

Lemma wrap_id w z : in_u w z -> wrap w z = z.
Proof. apply Z.mod_small. Qed.

Lemma in_u_ones w a : 0 <= w -> in_u w a -> Z.land a (Z.ones w) = a.
Proof. intros Hw Ha. rewrite Z.land_ones by done. by apply Z.mod_small. Qed.

Lemma ones_in_u w a : 0 <= w -> Z.land a (Z.ones w) = a -> in_u w a.
Proof. intros Hw H. rewrite <- H, Z.land_ones by done. by apply wrap_range. Qed.

Lemma lor_in_u w a b : 0 <= w -> in_u w a -> in_u w b -> in_u w (Z.lor a b).
Proof. intros Hw Ha Hb. apply ones_in_u; [done|]. by rewrite Z.land_lor_distr_l, !in_u_ones. Qed.

Lemma land_in_u w a b : 0 <= w -> in_u w b -> in_u w (Z.land a b).
Proof. intros Hw Hb. apply ones_in_u; [done|]. by rewrite <- Z.land_assoc, in_u_ones. Qed.

Lemma swrap_id w z : 0 < w -> in_i w z -> swrap w z = z.
Proof.
  unfold in_i, swrap. intros Hw [Hl Hu].
  assert (2 ^ w = 2 * 2 ^ (w - 1)).
  { rewrite <- Z.pow_succ_r by lia. f_equal. lia. }
  rewrite Z.mod_small; lia.
Qed.

Lemma swrap_range w z : 0 < w -> in_i w (swrap w z).
Proof.
  unfold in_i, swrap. intros Hw.
  assert (2 ^ w = 2 * 2 ^ (w - 1)).
  { rewrite <- Z.pow_succ_r by lia. f_equal. lia. }
  pose proof (Z.mod_pos_bound (z + 2 ^ (w - 1)) (2 ^ w)). lia.
Qed.

(** Converting a signed value to the unsigned type of the same width and
    back gives the value again: how [int32_t] fields travel on the wire. *)
Lemma swrap_wrap w z : 0 < w -> in_i w z -> swrap w (wrap w z) = z.
Proof.
  intros Hw Hz. rewrite <- (swrap_id w z) at 2 by done.
  unfold swrap, wrap. f_equal.
  now rewrite Zplus_mod_idemp_l.
Qed.

(** ** Big-endian byte strings

    A byte is a [Z] between 0 and 255.  [put_be n v] is the [n] bytes a
    [put_uN] helper stores; [get_be] reads them back. *)

Definition byte_ok (b : Z) : Prop := 0 <= b < 256.

Fixpoint put_be (n : nat) (v : Z) : list Z :=
  match n with
  | O => []
  | S m => u8 (Z.shiftr v (8 * Z.of_nat m)) :: put_be m v
  end.

Definition get_be (l : list Z) : Z :=
  fold_left (fun acc b => Z.lor (Z.shiftl acc 8) b) l 0.

Lemma length_put_be n v : length (put_be n v) = n.
Proof. induction n; simpl; congruence. Qed.

Lemma put_be_bytes n v : Forall byte_ok (put_be n v).
Proof.
  induction n; simpl; constructor; [|done].
  apply (wrap_range 8); lia.
Qed.

Lemma lor_shiftl_add a b k :
  0 <= k -> 0 <= b < 2 ^ k -> Z.lor (Z.shiftl a k) b = a * 2 ^ k + b.
Proof.
  intros Hk Hb. rewrite Z.shiftl_mul_pow2 by done.
  symmetry. apply Z.add_nocarry_lor, Z.bits_inj'. intros i Hi.
  rewrite Z.land_spec, Z.bits_0.
  destruct (Z.ltb_spec i k).
  - rewrite Z.mul_pow2_bits_low by lia. reflexivity.
  - assert (Z.testbit b i = false) as ->; [|apply andb_false_r].
    destruct (Z.eq_dec b 0) as [->|]; [apply Z.bits_0|].
    apply Z.bits_above_log2; [lia|].
    assert (Z.log2 b < k) by (apply Z.log2_lt_pow2; lia). lia.
Qed.

(** Accumulating the bytes of [v] onto [acc] shifts [acc] up and adds [v]. *)
Lemma fold_put_be n v acc :
  fold_left (fun a b => Z.lor (Z.shiftl a 8) b) (put_be n v) acc
  = acc * 2 ^ (8 * Z.of_nat n) + v mod 2 ^ (8 * Z.of_nat n).
Proof.
  revert acc. induction n as [|n IH]; intros acc; cbn [put_be fold_left].
  { change (2 ^ (8 * Z.of_nat 0)) with 1. rewrite Z.mod_1_r. lia. }
  rewrite IH. rewrite lor_shiftl_add by (try apply (wrap_range 8); lia).
  unfold wrap. rewrite Z.shiftr_div_pow2 by lia.
  replace (8 * Z.of_nat (S n)) with (8 * Z.of_nat n + 8) by lia.
  rewrite Z.pow_add_r by lia. change (2 ^ 8) with 256.
  assert (0 < 2 ^ (8 * Z.of_nat n)) by (apply Z.pow_pos_nonneg; lia).
  rewrite (Z.rem_mul_r v (2 ^ (8 * Z.of_nat n)) 256) by lia. lia.
Qed.

Lemma get_put_be n v : get_be (put_be n v) = v mod 2 ^ (8 * Z.of_nat n).
Proof. unfold get_be. rewrite fold_put_be. lia. Qed.

Lemma get_put_be_id n v : in_u (8 * Z.of_nat n) v -> get_be (put_be n v) = v.
Proof. intros. rewrite get_put_be. now apply Z.mod_small. Qed.

(** A sequence of fixed-width fields at the head of a buffer is read back
    with [take] and [drop]. *)
Lemma take_put_be n v l : take n (put_be n v ++ l) = put_be n v.
Proof. rewrite take_app_length' by (symmetry; apply length_put_be). done. Qed.

Lemma drop_put_be n v l : drop n (put_be n v ++ l) = l.
Proof. rewrite drop_app_length' by (symmetry; apply length_put_be). done. Qed.

Lemma get_be_range l : Forall byte_ok l -> in_u (8 * Z.of_nat (length l)) (get_be l).
Proof.
  unfold get_be.
  assert (forall l acc m, Forall byte_ok l -> 0 <= m -> in_u m acc ->
    in_u (m + 8 * Z.of_nat (length l)) (fold_left (fun a b => Z.lor (Z.shiftl a 8) b) l acc))
    as Hg.
  { clear l. induction l as [|b l IH]; intros acc m Hl Hm Ha; cbn [fold_left length].
    { replace (m + 8 * Z.of_nat 0) with m by lia. done. }
    apply Forall_cons in Hl as [Hb Hl].
    replace (m + 8 * Z.of_nat (S (length l))) with ((m + 8) + 8 * Z.of_nat (length l)) by lia.
    apply IH; [done|lia|]. rewrite lor_shiftl_add by (unfold byte_ok in Hb; lia).
    unfold in_u, byte_ok in *. rewrite Z.pow_add_r by lia. change (2 ^ 8) with 256. lia. }
  intros Hl. specialize (Hg l 0 0 Hl ltac:(lia)). apply Hg. unfold in_u. simpl. lia.
Qed.

(** Reading a buffer and writing it again: [put_be] inverts [get_be] on
    bytes, so a codec whose decoder checks the length is canonical. *)
Lemma put_get_be l : Forall byte_ok l -> put_be (length l) (get_be l) = l.
Proof.
  induction l as [|b l IH] using rev_ind; intros Hl; [done|].
  apply Forall_app in Hl as [Hl Hb]. apply Forall_cons in Hb as [Hb _].
  assert (get_be (l ++ [b]) = get_be l * 256 + b) as ->.
  { unfold get_be. rewrite fold_left_app. cbn [fold_left].
    rewrite lor_shiftl_add by (unfold byte_ok in Hb; lia). done. }
  rewrite length_app. cbn [length].
  assert (forall n v w, 0 <= w < 256 ->
    put_be (n + 1) (v * 256 + w) = put_be n v ++ [w]) as Hs; [|by rewrite Hs, IH].
  clear. induction n as [|n IH]; intros v w Hw; cbn [put_be Nat.add app].
  - f_equal. unfold wrap. rewrite Z.shiftr_0_r. change (2 ^ 8) with 256.
    rewrite Z.add_comm, Z.mod_add, Z.mod_small; lia.
  - rewrite IH by done. f_equal. f_equal.
    replace (8 * Z.of_nat (n + 1)) with (8 + 8 * Z.of_nat n) by lia.
    rewrite <- Z.shiftr_shiftr by lia. f_equal.
    rewrite Z.shiftr_div_pow2 by lia. change (2 ^ 8) with 256.
    rewrite Z.div_add_l, Z.div_small; lia.
Qed.

(** ** Reading fields off a moving pointer

    [rd n p] is [get_uN(p)] followed by [p += N]. *)

Definition rd (n : nat) (p : list Z) : Z * list Z := (get_be (take n p), drop n p).

Lemma rd_put n v l : in_u (8 * Z.of_nat n) v -> rd n (put_be n v ++ l) = (v, l).
Proof. intros. unfold rd. by rewrite take_put_be, drop_put_be, get_put_be_id. Qed.

Lemma put_rd n p : Forall byte_ok p -> (n <= length p)%nat ->
  put_be n (rd n p).1 ++ (rd n p).2 = p.
Proof.
  intros Hp Hn. unfold rd. cbn [fst snd].
  assert (length (take n p) = n) as Hl by (rewrite length_take; lia).
  assert (put_be n (get_be (take n p)) = take n p) as ->; [|apply take_drop].
  rewrite <- Hl at 1. apply put_get_be. by apply Forall_take.
Qed.

Lemma rd_range n p : Forall byte_ok p -> in_u (8 * Z.of_nat n) (rd n p).1.
Proof.
  intros Hp. unfold rd. cbn [fst].
  pose proof (get_be_range (take n p) (Forall_take _ n _ Hp)) as [H0 H1].
  split; [done|]. eapply Z.lt_le_trans; [exact H1|].
  apply Z.pow_le_mono_r; [lia|]. rewrite length_take. lia.
Qed.

Lemma rd_rest n p : Forall byte_ok p -> Forall byte_ok (rd n p).2.
Proof. apply Forall_drop. Qed.

Lemma length_rd n p : length (rd n p).2 = (length p - n)%nat.
Proof. apply length_drop. Qed.

(** ** Hints

    [uwl] closes the range and byte side conditions of the codecs;
    the rewrite base of the same name computes the lengths of what they write. *)

Create HintDb uwl.
Create Rewrite HintDb uwl.
#[export] Hint Resolve put_be_bytes rd_range rd_rest : uwl.
#[export] Hint Extern 1 (in_u _ (wrap _ _)) => apply wrap_range; lia : uwl.
#[export] Hint Extern 1 (in_i _ (swrap _ _)) => apply swrap_range; lia : uwl.
#[export] Hint Rewrite length_put_be length_rd @length_app @length_replicate : uwl.

(** ** Sorted lists and majorities *)

(** How many entries of [t] are at most [r]. *)
Definition count_le (r : Z) (t : list Z) : nat := length (List.filter (fun x => x <=? r) t).

(** How many entries of [t] are at least [r]. *)
Definition count_ge (r : Z) (t : list Z) : nat := length (List.filter (fun x => r <=? x) t).

Lemma filter_perm {A} (p : A -> bool) l l' :
  Permutation l l' -> Permutation (List.filter p l) (List.filter p l').
Proof.
  induction 1; simpl; try done.
  - case_match; [by constructor|done].
  - do 2 case_match; try done. constructor.
  - by etrans.
Qed.

Lemma count_le_perm r t t' : Permutation t t' -> count_le r t = count_le r t'.
Proof. intros H. apply Permutation_length, filter_perm, H. Qed.

Lemma count_ge_perm r t t' : Permutation t t' -> count_ge r t = count_ge r t'.
Proof. intros H. apply Permutation_length, filter_perm, H. Qed.

Lemma filter_length_all {A} (p : A -> bool) l :
  Forall (fun x => p x = true) l -> length (List.filter p l) = length l.
Proof. induction 1 as [|x l Hx _ IH]; simpl; [done|]. rewrite Hx. simpl. congruence. Qed.

Lemma sorted_nth_le s i j :
  StronglySorted Z.le s -> (i <= j < length s)%nat -> nth i s 0 <= nth j s 0.
Proof.
  intros Hs. revert i j. induction Hs as [|x s _ IH Hx]; intros i j Hij.
  { simpl in Hij. lia. }
  destruct i, j; simpl in *; try lia.
  - rewrite Forall_forall in Hx. apply Hx, list_elem_of_In, nth_In. lia.
  - apply IH. lia.
Qed.

(** If entry [k] of a sorted list is at most [r], so are the [k] before it. *)
Lemma sorted_count_le s k r :
  StronglySorted Z.le s -> (k < length s)%nat -> nth k s 0 <= r -> (k < count_le r s)%nat.
Proof.
  intros Hs Hk Hr. unfold count_le.
  rewrite <- (take_drop (S k) s), List.filter_app, length_app.
  rewrite filter_length_all.
  { rewrite length_take. lia. }
  apply Forall_forall. intros x Hx. apply Z.leb_le.
  apply list_elem_of_lookup in Hx as [i Hi].
  apply lookup_take_Some in Hi as [Hi Hlt].
  rewrite <- (nth_lookup_Some s i 0 x Hi).
  etrans; [|exact Hr]. apply sorted_nth_le; [done|lia].
Qed.

(** If entry [k] is at least [r], so are all the entries from it on. *)
Lemma sorted_count_ge s k r :
  StronglySorted Z.le s -> (k < length s)%nat -> r <= nth k s 0 ->
  (length s - k <= count_ge r s)%nat.
Proof.
  intros Hs Hk Hr. unfold count_ge.
  rewrite <- (take_drop k s) at 2. rewrite List.filter_app, length_app.
  rewrite (filter_length_all _ (drop k s)).
  { rewrite length_drop. lia. }
  apply Forall_forall. intros x Hx. apply Z.leb_le.
  apply list_elem_of_lookup in Hx as [i Hi].
  rewrite lookup_drop in Hi.
  rewrite <- (nth_lookup_Some s (k + i) 0 x Hi).
  etrans; [exact Hr|]. apply sorted_nth_le; [done|].
  apply lookup_lt_Some in Hi. lia.
Qed.

Lemma StronglySorted_rev {A} (R : A -> A -> Prop) l :
  StronglySorted R l -> StronglySorted (fun a b => R b a) (rev l).
Proof.
  induction 1 as [|x l _ IH Hx]; simpl; [constructor|].
  apply StronglySorted_app_2; [|done|repeat constructor].
  intros a b Ha Hb. apply list_elem_of_singleton in Hb as ->.
  rewrite Forall_forall in Hx. apply Hx.
  apply list_elem_of_In, in_rev. by apply list_elem_of_In.
Qed.

Lemma StronglySorted_weaken {A} (R S : A -> A -> Prop) l :
  (forall a b, R a b -> S a b) -> StronglySorted R l -> StronglySorted S l.
Proof.
  intros HRS. induction 1; constructor; [done|].
  eapply Forall_impl; [eassumption|]. auto.
Qed.
