(* ===== verification/Wire.v ===== *)
(** * Little-endian fields, memory regions and wire codecs

    What the Matter, UWB and update protocols share: the [n]-byte
    little-endian field, [memcpy] into a region, reads by offset, and the class
    [WireCodec] that states what a message codec promises its clients: decoding
    inverts encoding in front of any further bytes, and nothing but an encoding
    is accepted. *)

From Stdlib Require Import ZArith Lia.
From stdpp Require Import base list numbers.
From S2P Require Import Prelude.

Local Open Scope Z_scope.

(** A [size_t] of the 32-bit target. *)
Abbreviation usize := (wrap 32).

(** Number of bytes of a buffer, as the C code sees it. *)
Definition zlen {A} (l : list A) : Z := Z.of_nat (length l).

(** [p[i]]; an index outside the buffer reads 0. *)
Definition byte_at (p : list Z) (i : Z) : Z := nth (Z.to_nat i) p 0.

(** Testing one bit with a mask. *)
Lemma land_bit x k : 0 <= k -> (Z.land x (Z.shiftl 1 k) =? 0) = negb (Z.testbit x k).
Proof.
  intros Hk. rewrite Z.shiftl_mul_pow2, Z.mul_1_l by done.
  destruct (Z.testbit x k) eqn:Hb; simpl.
  - apply Z.eqb_neq. intros H. apply (f_equal (fun z => Z.testbit z k)) in H.
    rewrite Z.land_spec, Hb, Z.pow2_bits_true, Z.bits_0 in H by done. done.
  - apply Z.eqb_eq. apply Z.bits_inj'. intros i Hi. rewrite Z.land_spec, Z.bits_0.
    destruct (Z.eq_dec i k) as [->|]; [by rewrite Hb|].
    rewrite Z.pow2_bits_false by lia. apply andb_false_r.
Qed.

(** ** Little-endian fields *)

Fixpoint put_le (n : nat) (v : Z) : list Z :=
  match n with O => [] | S m => u8 v :: put_le m (Z.shiftr v 8) end.

Fixpoint get_le (l : list Z) : Z :=
  match l with [] => 0 | b :: r => Z.lor b (Z.shiftl (get_le r) 8) end.

Lemma length_put_le n v : length (put_le n v) = n.
Proof. revert v. induction n; intros; simpl; congruence. Qed.

Lemma put_le_bytes n v : Forall byte_ok (put_le n v).
Proof.
  revert v. induction n; intros; simpl; constructor; [|done].
  apply (wrap_range 8). lia.
Qed.

Lemma get_le_cons b l : byte_ok b -> get_le (b :: l) = b + 256 * get_le l.
Proof.
  intros Hb. cbn [get_le]. rewrite Z.lor_comm, lor_shiftl_add; [lia|lia|exact Hb].
Qed.

Lemma pow_8S n : 2 ^ (8 * Z.of_nat (S n)) = 256 * 2 ^ (8 * Z.of_nat n).
Proof.
  replace (8 * Z.of_nat (S n)) with (8 + 8 * Z.of_nat n) by lia.
  rewrite Z.pow_add_r by lia. done.
Qed.

Lemma get_put_le n v : get_le (put_le n v) = v mod 2 ^ (8 * Z.of_nat n).
Proof.
  revert v. induction n as [|n IH]; intros v; cbn [put_le].
  { change (2 ^ (8 * Z.of_nat 0)) with 1. by rewrite Z.mod_1_r. }
  rewrite get_le_cons by (apply (wrap_range 8); lia).
  rewrite IH, pow_8S, Z.shiftr_div_pow2 by lia. unfold wrap. change (2 ^ 8) with 256.
  assert (0 < 2 ^ (8 * Z.of_nat n)) by (apply Z.pow_pos_nonneg; lia).
  rewrite Z.rem_mul_r by lia. lia.
Qed.

Lemma get_put_le_id n v : in_u (8 * Z.of_nat n) v -> get_le (put_le n v) = v.
Proof. intros. rewrite get_put_le. by apply Z.mod_small. Qed.

Lemma get_le_range l : Forall byte_ok l -> in_u (8 * Z.of_nat (length l)) (get_le l).
Proof.
  induction 1 as [|b l Hb _ IH].
  { unfold in_u. simpl. lia. }
  rewrite get_le_cons by done. cbn [length]. unfold in_u in *.
  rewrite pow_8S. unfold byte_ok in Hb. lia.
Qed.

Lemma put_get_le l : Forall byte_ok l -> put_le (length l) (get_le l) = l.
Proof.
  induction 1 as [|b l Hb Hl IH]; [done|].
  rewrite get_le_cons by done. cbn [length put_le]. unfold byte_ok in Hb.
  f_equal.
  - unfold wrap. change (2 ^ 8) with 256.
    rewrite Z.mul_comm, Z.mod_add, Z.mod_small; lia.
  - etrans; [|exact IH]. f_equal. rewrite Z.shiftr_div_pow2 by lia.
    change (2 ^ 8) with 256. rewrite Z.mul_comm, Z.div_add, Z.div_small; lia.
Qed.

Lemma take_put_le n v l : take n (put_le n v ++ l) = put_le n v.
Proof. rewrite take_app_length' by (symmetry; apply length_put_le). done. Qed.

Lemma drop_put_le n v l : drop n (put_le n v ++ l) = l.
Proof. rewrite drop_app_length' by (symmetry; apply length_put_le). done. Qed.

(** ** Reading fields off a moving pointer *)

Definition rdl (n : nat) (p : list Z) : Z * list Z := (get_le (take n p), drop n p).

Lemma rdl_put n v l : in_u (8 * Z.of_nat n) v -> rdl n (put_le n v ++ l) = (v, l).
Proof. intros. unfold rdl. by rewrite take_put_le, drop_put_le, get_put_le_id. Qed.

Lemma put_rdl n p : Forall byte_ok p -> (n <= length p)%nat ->
  put_le n (rdl n p).1 ++ (rdl n p).2 = p.
Proof.
  intros Hp Hn. unfold rdl. cbn [fst snd].
  assert (length (take n p) = n) as Hl by (rewrite length_take; lia).
  assert (put_le n (get_le (take n p)) = take n p) as ->; [|apply take_drop].
  rewrite <- Hl at 1. apply put_get_le. by apply Forall_take.
Qed.

Lemma rdl_range n p : Forall byte_ok p -> in_u (8 * Z.of_nat n) (rdl n p).1.
Proof.
  intros Hp. unfold rdl. cbn [fst].
  pose proof (get_le_range (take n p) (Forall_take _ n _ Hp)) as [H0 H1].
  split; [done|]. eapply Z.lt_le_trans; [exact H1|].
  apply Z.pow_le_mono_r; [lia|]. rewrite length_take. lia.
Qed.

Lemma rdl_rest n p : Forall byte_ok p -> Forall byte_ok (rdl n p).2.
Proof. apply Forall_drop. Qed.

Lemma length_rdl n p : length (rdl n p).2 = (length p - n)%nat.
Proof. apply length_drop. Qed.

(** ** Reading fields by offset

    The [n]-byte little-endian field at [&p[off]]. *)

Definition field (n : nat) (p : list Z) (off : Z) : Z := get_le (take n (drop (Z.to_nat off) p)).

Lemma field_app n v a r :
  in_u (8 * Z.of_nat n) v -> field n (a ++ put_le n v ++ r) (Z.of_nat (length a)) = v.
Proof.
  intros Hv. unfold field. rewrite Nat2Z.id, drop_app_length, take_put_le. by apply get_put_le_id.
Qed.

(** Writing a field back in front of what follows it. *)
Lemma put_field n p off off' :
  Forall byte_ok p -> 0 <= off -> off' = off + Z.of_nat n -> off' <= zlen p ->
  put_le n (field n p off) ++ drop (Z.to_nat off') p = drop (Z.to_nat off) p.
Proof.
  unfold zlen. intros Hp Ho -> Hn. unfold field.
  assert (length (take n (drop (Z.to_nat off) p)) = n) as Hl
    by (rewrite length_take, length_drop; lia).
  rewrite <- Hl at 1. rewrite put_get_le by (by apply Forall_take, Forall_drop).
  replace (Z.to_nat (off + Z.of_nat n)) with (Z.to_nat off + n)%nat by lia.
  rewrite <- drop_drop. apply take_drop.
Qed.

Lemma put_byte_at p off off' :
  0 <= off -> off' = off + 1 -> off' <= zlen p ->
  byte_at p off :: drop (Z.to_nat off') p = drop (Z.to_nat off) p.
Proof.
  unfold zlen. intros Ho -> Hn. unfold byte_at. destruct (lookup_lt_is_Some_2 p (Z.to_nat off)) as [x Hx]; [lia|].
  rewrite (nth_lookup_Some p _ 0 x Hx). replace (Z.to_nat (off + 1)) with (S (Z.to_nat off)) by lia.
  symmetry. by apply drop_S.
Qed.

Lemma field_range n p off : Forall byte_ok p -> in_u (8 * Z.of_nat n) (field n p off).
Proof.
  intros Hp. unfold field. pose proof (get_le_range _ (Forall_take _ n _ (Forall_drop _ (Z.to_nat off) _ Hp))) as [H0 H1].
  split; [done|]. eapply Z.lt_le_trans; [exact H1|]. apply Z.pow_le_mono_r; [lia|]. rewrite length_take. lia.
Qed.

Lemma byte_at_ok p i : Forall byte_ok p -> byte_ok (byte_at p i).
Proof.
  intros Hp. unfold byte_at. destruct (nth_in_or_default (Z.to_nat i) p 0) as [Hin| ->].
  - rewrite List.Forall_forall in Hp. by apply Hp.
  - unfold byte_ok. lia.
Qed.

Lemma zlen_nonneg {A} (l : list A) : 0 <= zlen l.
Proof. unfold zlen. lia. Qed.

Lemma zlen_app {A} (l k : list A) : zlen (l ++ k) = zlen l + zlen k.
Proof. unfold zlen. rewrite length_app. lia. Qed.

Lemma zlen_cons {A} (x : A) l : zlen (x :: l) = 1 + zlen l.
Proof. unfold zlen. cbn [length]. lia. Qed.

Lemma zlen_put_be n v : zlen (put_be n v) = Z.of_nat n.
Proof. unfold zlen. by rewrite length_put_be. Qed.

Lemma zlen_replicate {A} n (x : A) : zlen (replicate n x) = Z.of_nat n.
Proof. unfold zlen. by rewrite length_replicate. Qed.

(** Ranges of concrete values, by evaluation. *)
Lemma in_u_all w l : forallb (fun c => (0 <=? c) && (c <? 2 ^ w)) l = true -> Forall (in_u w) l.
Proof.
  intros H. apply List.Forall_forall. intros c Hc. rewrite forallb_forall in H.
  specialize (H c Hc). unfold in_u. lia.
Qed.

Lemma bytes_all l : forallb (fun c => (0 <=? c) && (c <? 256)) l = true -> Forall byte_ok l.
Proof. apply (in_u_all 8). Qed.

(** ** [memcpy(&mem[off], data, len)] *)

Definition mem_write (off : Z) (data mem : list Z) : list Z :=
  take (Z.to_nat off) mem ++ data ++ drop (Z.to_nat off + length data) mem.

Lemma length_mem_write off data mem :
  0 <= off -> off + zlen data <= zlen mem ->
  length (mem_write off data mem) = length mem.
Proof.
  unfold mem_write, zlen. intros. rewrite !length_app, length_take, length_drop. lia.
Qed.

(** What was in front of the written range stays, and the range holds the data. *)
Lemma take_mem_write off data mem :
  0 <= off -> off + zlen data <= zlen mem ->
  take (Z.to_nat (off + zlen data)) (mem_write off data mem)
  = take (Z.to_nat off) mem ++ data.
Proof.
  unfold mem_write, zlen. intros. rewrite app_assoc. apply take_app_length'.
  rewrite length_app, length_take. lia.
Qed.

Lemma drop_mem_write off data mem n :
  0 <= off -> off + zlen data <= zlen mem -> off + zlen data <= Z.of_nat n ->
  drop n (mem_write off data mem) = drop n mem.
Proof.
  unfold mem_write, zlen. intros Ho Hm Hn. rewrite app_assoc.
  rewrite drop_app_ge by (rewrite length_app, length_take; lia).
  rewrite drop_drop. f_equal. rewrite length_app, length_take. lia.
Qed.

#[export] Hint Resolve put_le_bytes rdl_range rdl_rest byte_at_ok field_range get_le_range : uwl.
#[export] Hint Rewrite length_put_le length_rdl : uwl.

(** ** Codecs

    [wire_dec] reads one value from the head of a byte string and gives back
    what follows it. *)

Class WireCodec (A : Type) := {
  wire_ok : A -> Prop;
  wire_enc : A -> list Z;
  wire_dec : list Z -> option (A * list Z);
  wire_enc_bytes : forall a, wire_ok a -> Forall byte_ok (wire_enc a);
  wire_dec_enc : forall a rest, wire_ok a -> wire_dec (wire_enc a ++ rest) = Some (a, rest);
  wire_enc_dec : forall p a rest, Forall byte_ok p -> wire_dec p = Some (a, rest) ->
    wire_ok a /\ p = wire_enc a ++ rest;
}.

(** A codec's encodings are prefix-free: two of them that start the same
    string are the same. *)
Lemma wire_enc_inj `{WireCodec A} a b p q :
  wire_ok a -> wire_ok b -> wire_enc a ++ p = wire_enc b ++ q -> a = b /\ p = q.
Proof.
  intros Ha Hb He. pose proof (wire_dec_enc a p Ha) as H1.
  rewrite He, (wire_dec_enc b q Hb) in H1. by simplify_eq.
Qed.
