(* ===== verification/MlRange.v ===== *)
(** * Single-precision arithmetic and range correction

    The approach controller ([ultrawidelock_approach.c]) estimates distance
    and speed in C [float].  [f32] is IEEE-754 binary32 with round to nearest
    even, by the executable reference arithmetic of the Standard Library
    ([SpecFloat] at precision 24, maximal exponent 128).  Every operation
    rounds once, in the order the source writes them; a compiler that
    contracts [a * b + c] into a fused operation is outside the model. *)

From Stdlib Require Import ZArith Lia SpecFloat.
From stdpp Require Import base decidable tactics.
From S2P Require Import Prelude.

Local Open Scope Z_scope.

Definition f32 : Type := spec_float.

Definition prec32 : Z := 24.
Definition emax32 : Z := 128.

Definition f32_of_Z (z : Z) : f32 := binary_normalize prec32 emax32 z 0 false.

Definition fadd : f32 -> f32 -> f32 := SFadd prec32 emax32.
Definition fsub : f32 -> f32 -> f32 := SFsub prec32 emax32.
Definition fmul : f32 -> f32 -> f32 := SFmul prec32 emax32.
Definition fdiv : f32 -> f32 -> f32 := SFdiv prec32 emax32.
Definition fneg : f32 -> f32 := SFopp.

(** Comparisons are false on a NaN, as in C. *)
Definition flt (a b : f32) : bool := SFltb a b.
Definition fle (a b : f32) : bool := SFleb a b.
Definition fgt (a b : f32) : bool := SFltb b a.
Definition fge (a b : f32) : bool := SFleb b a.

Definition f32_zero : f32 := S754_zero false.

(** The literal [m * 2^e]. *)
Definition f32_lit (m : positive) (e : Z) : f32 := S754_finite false m e.

(** Conversion to [int32_t]: truncation towards zero.  C leaves the
    conversion of an unrepresentable value undefined; the model takes what
    the boards' VCVT instruction does, which saturates and maps NaN to 0. *)
Definition f32_trunc (x : f32) : Z :=
  match x with
  | S754_zero _ => 0
  | S754_infinity s => if s then INT32_MIN else INT32_MAX
  | S754_nan => 0
  | S754_finite s m e =>
      let mag := if 0 <=? e then Z.pos m * 2 ^ e else Z.pos m / 2 ^ (- e) in
      let z := if s then - mag else mag in
      Z.max INT32_MIN (Z.min INT32_MAX z)
  end.

Lemma f32_trunc_range x : in_i 32 (f32_trunc x).
Proof.
  unfold in_i. change (2 ^ (32 - 1)) with 2147483648.
  destruct x as [s|s| |s m e]; simpl; try lia.
  - destruct s; unfold INT32_MIN, INT32_MAX; lia.
  - unfold INT32_MIN, INT32_MAX. lia.
Qed.

(** A non-negative quotient of floats truncates to a non-negative integer. *)
Lemma f32_trunc_nonneg m e : 0 <= f32_trunc (S754_finite false m e).
Proof.
  simpl. unfold INT32_MIN, INT32_MAX.
  destruct (Z.leb_spec 0 e).
  - assert (0 < 2 ^ e) by (apply Z.pow_pos_nonneg; lia). lia.
  - assert (0 < 2 ^ (- e)) by (apply Z.pow_pos_nonneg; lia).
    pose proof (Z.div_pos (Z.pos m) (2 ^ (- e))). lia.
Qed.

(** Literals of [ultrawidelock_approach.c]: [0.001f] and [2.61f] are the
    nearest binary32 values. *)
Definition f32_0_001 : f32 := f32_lit 8589935 (-33).
Definition f32_2_61 : f32 := f32_lit 10947133 (-22).

Example f32_0_001_ok : fdiv (f32_of_Z 1) (f32_of_Z 1000) = f32_0_001.
Proof. reflexivity. Qed.

Example f32_2_61_ok : fdiv (f32_of_Z 261) (f32_of_Z 100) = f32_2_61.
Proof. reflexivity. Qed.

Example f32_half_ok : fdiv (f32_of_Z 1) (f32_of_Z 2) = f32_lit 8388608 (-24).
Proof. reflexivity. Qed.

(** * Range correction of the channel classifier

    Models [ultrawidelock_ml_los_range_true_cm] of
    [modules/ultrawidelock_ml/src/ultrawidelock_ml_range.c]: the antenna
    offset every reading carries and the body bias an obstructed one does. *)

Local Open Scope Z_scope.

(** [enum ultrawidelock_ml_los_class]. *)
Inductive ml_los_class := ML_LOS_CLEAR | ML_LOS_OBSTRUCTED.

#[export] Instance ml_los_class_eq_dec : EqDecision ml_los_class.
Proof. solve_decision. Defined.

Definition ANTENNA_OFFSET_MM : Z := 255.
Definition NLOS_BIAS_MM : Z := 845.

Definition ml_los_range_true_cm (reported_cm : Z) (c : ml_los_class) : Z :=
  let mm := reported_cm * 10 + ANTENNA_OFFSET_MM in
  let mm := match c with
            | ML_LOS_OBSTRUCTED => mm - NLOS_BIAS_MM
            | ML_LOS_CLEAR => mm
            end in
  let mm := if mm <? 0 then 0 else mm in
  u16 (Z.quot (mm + 5) 10).

(** The corrected value is the offset reading rounded to a centimetre and
    clamped at zero, for every reading below 65510 cm. *)
Lemma ml_los_range_true_cm_exact reported c :
  0 <= reported < 65510 ->
  ml_los_range_true_cm reported c
  = match c with
    | ML_LOS_CLEAR => reported + 26
    | ML_LOS_OBSTRUCTED => Z.max 0 (reported - 59)
    end.
Proof.
  unfold ml_los_range_true_cm, ANTENNA_OFFSET_MM, NLOS_BIAS_MM. intros H.
  destruct c; cbn zeta.
  - destruct (Z.ltb_spec (reported * 10 + 255) 0); [lia|].
    assert (Z.quot (reported * 10 + 255 + 5) 10 = reported + 26) as ->
      by zdiv.
    apply wrap_id. unfold in_u. lia.
  - destruct (Z.ltb_spec (reported * 10 + 255 - 845) 0).
    + change (Z.quot (0 + 5) 10) with 0. rewrite wrap_id by (unfold in_u; lia). lia.
    + assert (Z.quot (reported * 10 + 255 - 845 + 5) 10 = reported - 59) as ->
        by zdiv.
      rewrite wrap_id by (unfold in_u; lia). lia.
Qed.

(** An obstructed reading is never corrected to more than a clear one. *)
Lemma ml_los_range_true_cm_obstructed_le reported :
  0 <= reported < 65510 ->
  ml_los_range_true_cm reported ML_LOS_OBSTRUCTED
  <= ml_los_range_true_cm reported ML_LOS_CLEAR.
Proof. intros. rewrite !ml_los_range_true_cm_exact by done. lia. Qed.

(** At the top of the [uint16_t] range the conversion back to 16 bits wraps:
    the farthest readings are corrected to the nearest ones. *)
Lemma ml_los_range_true_cm_wraps reported :
  65510 <= reported < 65536 ->
  ml_los_range_true_cm reported ML_LOS_CLEAR = reported - 65510.
Proof.
  unfold ml_los_range_true_cm, ANTENNA_OFFSET_MM. intros H. cbn zeta.
  destruct (Z.ltb_spec (reported * 10 + 255) 0); [lia|].
  assert (Z.quot (reported * 10 + 255 + 5) 10 = reported + 26) as -> by zdiv.
  unfold wrap. change (2 ^ 16) with 65536.
  symmetry. apply (Z.mod_unique _ _ 1); lia.
Qed.
