(* ===== verification/Approach.v ===== *)
(** * The approach controller

    Models [modules/ultrawidelock_cred/src/ultrawidelock_approach.c] and its
    header: the median/dwell presence path, the constant-velocity Kalman
    filter, the predictive open and its supervision, the trajectory gate and
    the departure rules.  One definition per C function; the feed body is
    given in the four stages its comments name.  [CONFIG_ML_LOS] is the build
    option CONFIG_ULTRAWIDELOCK_ML_LOS: with it unset, no carry class is
    filed and the unlock radius is never widened. *)

From Stdlib Require Import ZArith Lia.
From stdpp Require Import base list numbers.
From S2P Require Import Prelude MlRange.

Local Open Scope Z_scope.

Definition MEDIAN_N : nat := 5.
Definition CARRY_CLEAR : Z := 0.
Definition CARRY_HAND : Z := 1.
Definition CARRY_POCKET : Z := 2.
Definition CARRY_BAG : Z := 3.
Definition CARRY_N : Z := 4.

Definition KF_R_CM2 : f32 := f32_of_Z 900.
Definition KF_QA : f32 := f32_of_Z 22500.
Definition KF_GATE_CM : f32 := f32_of_Z 100.
Definition KF_REJECT_MAX : Z := 3.
Definition KF_STALE_MS : Z := 1000.
Definition KF_VINIT_CM2S2 : f32 := f32_of_Z 40000.
Definition KF_MIN_SAMPLES : Z := 6.
Definition PRED_DWELL_N : Z := 2.
Definition PRED_GRACE_MS : Z := 1800.
Definition MEDIAN_STALE_MS : Z := 2500.
Definition BAND_SILENCE_MS : Z := 2500.
Definition NLOS_VOTES_N : nat := (MEDIAN_N / 2) + 1.

(** [enum ultrawidelock_approach_action]. *)
Inductive action :=
  | HOLD
  | UNLOCK_PREDICT
  | UNLOCK_THRESHOLD
  | RELOCK_DEPART
  | RELOCK_ABORT.

#[export] Instance action_eq_dec : EqDecision action.
Proof. solve_decision. Defined.

(** [struct ultrawidelock_approach_cfg]. *)
Record approach_cfg := mk_approach_cfg {
  cfg_unlock_cm : Z;
  cfg_relock_cm : Z;
  cfg_near_dwell : Z;
  cfg_far_dwell : Z;
  cfg_motor_ms : Z;
  cfg_margin_ms : Z;
  cfg_vmin_cm_s : Z;
  cfg_far_silence_ms : Z;
  cfg_approach_cm : Z;
  cfg_range_correct_en : bool;
  cfg_nlos_conf_min : f32;
  cfg_nlos_widen_cm : Z;
  cfg_nlos_widen_class_cm : list Z;
  cfg_predict_en : bool;
}.

#[export] Instance approach_cfg_eta : Eta approach_cfg := fun c =>
  mk_approach_cfg (cfg_unlock_cm c) (cfg_relock_cm c) (cfg_near_dwell c)
    (cfg_far_dwell c) (cfg_motor_ms c) (cfg_margin_ms c) (cfg_vmin_cm_s c)
    (cfg_far_silence_ms c) (cfg_approach_cm c) (cfg_range_correct_en c)
    (cfg_nlos_conf_min c) (cfg_nlos_widen_cm c) (cfg_nlos_widen_class_cm c)
    (cfg_predict_en c).

(** [struct ultrawidelock_approach].  The four arrays of [MEDIAN_N] entries
    are lists; [carry_win] is only written when the classifier is built in. *)
Record approach := mk_approach {
  ap_cfg : approach_cfg;
  ap_locked : bool;
  ap_win : list Z;
  ap_win_ms : list Z;
  ap_ch_win : list bool;
  ap_carry_win : list Z;
  ap_wlen : nat;
  ap_wpos : nat;
  ap_near_dwell : Z;
  ap_far_dwell : Z;
  ap_kf_init : bool;
  ap_accepted : Z;
  ap_rejects : Z;
  ap_last_ms : Z;
  ap_d : f32;
  ap_v : f32;
  ap_p00 : f32;
  ap_p01 : f32;
  ap_p11 : f32;
  ap_pred_dwell : Z;
  ap_pred_open : bool;
  ap_pred_deadline_ms : Z;
  ap_eta_ms : Z;
  ap_approach_armed : bool;
  ap_last_cm : Z;
  ap_last_feed_ms : Z;
}.

#[export] Instance approach_eta : Eta approach := fun a =>
  mk_approach (ap_cfg a) (ap_locked a) (ap_win a) (ap_win_ms a) (ap_ch_win a)
    (ap_carry_win a) (ap_wlen a) (ap_wpos a) (ap_near_dwell a) (ap_far_dwell a)
    (ap_kf_init a) (ap_accepted a) (ap_rejects a) (ap_last_ms a) (ap_d a)
    (ap_v a) (ap_p00 a) (ap_p01 a) (ap_p11 a) (ap_pred_dwell a)
    (ap_pred_open a) (ap_pred_deadline_ms a) (ap_eta_ms a)
    (ap_approach_armed a) (ap_last_cm a) (ap_last_feed_ms a).

(** ** The estimator *)

Definition kf_rebase (ap : approach) (now_ms cm : Z) : approach :=
  ap <| ap_kf_init := true |>
     <| ap_accepted := 1 |>
     <| ap_rejects := 0 |>
     <| ap_last_ms := now_ms |>
     <| ap_d := f32_of_Z cm |>
     <| ap_v := f32_zero |>
     <| ap_p00 := KF_R_CM2 |>
     <| ap_p01 := f32_zero |>
     <| ap_p11 := KF_VINIT_CM2S2 |>
     <| ap_pred_dwell := 0 |>
     <| ap_eta_ms := -1 |>.

(** The time update: [x = F x], [P = F P F' + Q]. *)
Definition kf_predict (ap : approach) (now_ms : Z) : approach :=
  let dt0 := fdiv (f32_of_Z (now_ms - ap_last_ms ap)) (f32_of_Z 1000) in
  let dt := if flt dt0 f32_0_001 then f32_0_001 else dt0 in
  let dt2 := fmul dt dt in
  let p00 := ap_p00 ap in
  let p01 := ap_p01 ap in
  let p11 := ap_p11 ap in
  ap <| ap_last_ms := now_ms |>
     <| ap_d := fadd (ap_d ap) (fmul (ap_v ap) dt) |>
     <| ap_p00 := fadd p00 (fadd (fadd (fmul dt (fadd p01 p01)) (fmul dt2 p11))
                                 (fdiv (fmul (fmul KF_QA dt2) dt2) (f32_of_Z 4))) |>
     <| ap_p01 := fadd p01 (fadd (fmul dt p11)
                                 (fdiv (fmul (fmul KF_QA dt2) dt) (f32_of_Z 2))) |>
     <| ap_p11 := fadd p11 (fmul KF_QA dt2) |>.

(** The measurement update with innovation [y]. *)
Definition kf_correct (ap : approach) (y : f32) : approach :=
  let p00 := ap_p00 ap in
  let p01 := ap_p01 ap in
  let p11 := ap_p11 ap in
  let s := fadd p00 KF_R_CM2 in
  let k0 := fdiv p00 s in
  let k1 := fdiv p01 s in
  let ap := ap <| ap_rejects := 0 |>
               <| ap_d := fadd (ap_d ap) (fmul k0 y) |>
               <| ap_v := fadd (ap_v ap) (fmul k1 y) |>
               <| ap_p11 := fsub p11 (fmul k1 p01) |>
               <| ap_p01 := fsub p01 (fmul k0 p01) |>
               <| ap_p00 := fsub p00 (fmul k0 p00) |> in
  if ap_accepted ap <? KF_MIN_SAMPLES
  then ap <| ap_accepted := ap_accepted ap + 1 |>
  else ap.

Definition kf_update (ap : approach) (now_ms cm : Z) : approach * bool :=
  if negb (ap_kf_init ap) || (KF_STALE_MS <? now_ms - ap_last_ms ap)
  then (kf_rebase ap now_ms cm, true)
  else
    let ap := kf_predict ap now_ms in
    let y := fsub (f32_of_Z cm) (ap_d ap) in
    let ay := if flt y f32_zero then fneg y else y in
    if fgt ay KF_GATE_CM then
      let ap := ap <| ap_rejects := ap_rejects ap + 1 |> in
      if KF_REJECT_MAX <=? ap_rejects ap
      then (kf_rebase ap now_ms cm, true)
      else (ap, false)
    else (kf_correct ap y, true).

(** ** The median window *)

(** One step of the insertion sort: [rp] is the sorted prefix [t[0..i-1]]
    with its highest index first, the order the [while] loop scans it in. *)
Fixpoint shift_in (v : Z) (rp : list Z) : list Z :=
  match rp with
  | [] => [v]
  | x :: r => if v <? x then x :: shift_in v r else v :: x :: r
  end.

Definition insertion_sort (t : list Z) : list Z :=
  rev (fold_left (fun rp v => shift_in v rp) t []).

Definition range_median (t : list Z) : Z :=
  nth (length t / 2) (insertion_sort t) 0.

(** Is window entry [i] young enough to vote? *)
Definition fresh_at (ap : approach) (now_ms : Z) (i : nat) : bool :=
  now_ms - nth i (ap_win_ms ap) 0 <=? MEDIAN_STALE_MS.

Definition fresh_samples (ap : approach) (now_ms : Z) : list Z :=
  map (fun i => nth i (ap_win ap) 0)
      (List.filter (fresh_at ap now_ms) (seq 0 (ap_wlen ap))).

Definition range_median_fresh (ap : approach) (now_ms : Z) : Z :=
  match fresh_samples ap now_ms with
  | [] => nth ((ap_wpos ap + MEDIAN_N - 1) mod MEDIAN_N) (ap_win ap) 0
  | t => range_median t
  end.

(** ** Configuration *)

Definition approach_defaults : approach_cfg := {|
  cfg_unlock_cm := 100;
  cfg_relock_cm := 250;
  cfg_near_dwell := 2;
  cfg_far_dwell := 3;
  cfg_motor_ms := 500;
  cfg_margin_ms := 250;
  cfg_vmin_cm_s := 30;
  cfg_far_silence_ms := 750;
  cfg_approach_cm := 180;
  cfg_range_correct_en := false;
  cfg_nlos_conf_min := f32_2_61;
  cfg_nlos_widen_cm := 0;
  cfg_nlos_widen_class_cm := replicate (Z.to_nat CARRY_N) 0;
  cfg_predict_en := true;
|}.

(** The pair of clamps every widening gets: no negative one, and none that
    brings the unlock radius to [approach_cm]. *)
Definition clamp_widen (unlock_cm approach_cm w : Z) : Z :=
  let w := if w <? 0 then 0 else w in
  if (0 <? approach_cm) && (approach_cm <=? unlock_cm + w)
  then approach_cm - unlock_cm - 1
  else w.

(** [approach_cm] pulled strictly inside (unlock_cm, relock_cm). *)
Definition clamp_approach_cm (c : approach_cfg) : Z :=
  if (0 <? cfg_approach_cm c) &&
     ((cfg_approach_cm c <=? cfg_unlock_cm c) || (cfg_relock_cm c <=? cfg_approach_cm c))
  then cfg_unlock_cm c + Z.quot (cfg_relock_cm c - cfg_unlock_cm c) 2
  else cfg_approach_cm c.

Section Build.
  Variable CONFIG_ML_LOS : bool.

Definition init_cfg (c : approach_cfg) : approach_cfg :=
  let c := c <| cfg_approach_cm := clamp_approach_cm c |> in
  let c := c <| cfg_nlos_widen_cm :=
                 clamp_widen (cfg_unlock_cm c) (cfg_approach_cm c) (cfg_nlos_widen_cm c) |> in
  if CONFIG_ML_LOS
  then c <| cfg_nlos_widen_class_cm :=
             map (clamp_widen (cfg_unlock_cm c) (cfg_approach_cm c))
                 (cfg_nlos_widen_class_cm c) |>
  else c.

Definition approach_init (cfg : option approach_cfg) : approach := {|
  ap_cfg := init_cfg (default approach_defaults cfg);
  ap_locked := true;
  ap_win := replicate MEDIAN_N 0;
  ap_win_ms := replicate MEDIAN_N 0;
  ap_ch_win := replicate MEDIAN_N false;
  ap_carry_win := replicate MEDIAN_N 0;
  ap_wlen := 0;
  ap_wpos := 0;
  ap_near_dwell := 0;
  ap_far_dwell := 0;
  ap_kf_init := false;
  ap_accepted := 0;
  ap_rejects := 0;
  ap_last_ms := 0;
  ap_d := f32_zero;
  ap_v := f32_zero;
  ap_p00 := f32_zero;
  ap_p01 := f32_zero;
  ap_p11 := f32_zero;
  ap_pred_dwell := 0;
  ap_pred_open := false;
  ap_pred_deadline_ms := 0;
  ap_eta_ms := -1;
  ap_approach_armed := false;
  ap_last_cm := 0;
  ap_last_feed_ms := 0;
|}.

Definition pred_abort (ap : approach) : approach * action :=
  let ap := ap <| ap_locked := true |>
               <| ap_pred_open := false |>
               <| ap_pred_dwell := 0 |> in
  let keep := ap_kf_init ap && (0 <? cfg_approach_cm (ap_cfg ap)) &&
              fle (ap_d ap) (f32_of_Z (cfg_approach_cm (ap_cfg ap))) in
  (if keep then ap else ap <| ap_approach_armed := false |>, RELOCK_ABORT).

Definition approach_session_up (ap : approach) : approach :=
  ap <| ap_approach_armed := true |>.

(** ** The channel vote and the unlock radius *)

Definition votes_at (ap : approach) (now_ms : Z) (i : nat) : bool :=
  nth i (ap_ch_win ap) false && fresh_at ap now_ms i.

Definition nlos_blocked (ap : approach) (now_ms : Z) : bool :=
  if CONFIG_ML_LOS then
    let votes := length (List.filter (votes_at ap now_ms) (seq 0 (ap_wlen ap))) in
    (MEDIAN_N <=? ap_wlen ap)%nat && (NLOS_VOTES_N <=? votes)%nat
  else false.

Definition widen_for_class (ap : approach) (c : Z) : Z :=
  let per_class := nth (Z.to_nat c) (cfg_nlos_widen_class_cm (ap_cfg ap)) 0 in
  if 0 <? per_class then per_class else cfg_nlos_widen_cm (ap_cfg ap).

(** [votes[c]] after the scan of the window. *)
Definition class_votes (ap : approach) (now_ms c : Z) : nat :=
  length (List.filter
            (fun i => votes_at ap now_ms i && (nth i (ap_carry_win ap) 0 =? c))
            (seq 0 (ap_wlen ap))).

Definition nlos_carry_class (ap : approach) (now_ms : Z) : Z :=
  fold_left
    (fun best c =>
       let vc := class_votes ap now_ms c in
       let vb := class_votes ap now_ms best in
       if (vb <? vc)%nat ||
          ((vc =? vb)%nat && (widen_for_class ap c <? widen_for_class ap best))
       then c else best)
    [CARRY_HAND; CARRY_POCKET; CARRY_BAG] CARRY_HAND.

Definition effective_unlock_cm (ap : approach) (now_ms : Z) : Z :=
  if nlos_blocked ap now_ms
  then cfg_unlock_cm (ap_cfg ap) + widen_for_class ap (nlos_carry_class ap now_ms)
  else cfg_unlock_cm (ap_cfg ap).

Definition pred_arrived (ap : approach) (now_ms : Z) : bool :=
  let eff := effective_unlock_cm ap now_ms in
  (ap_kf_init ap && fle (ap_d ap) (f32_of_Z eff)) ||
  (negb (ap_last_feed_ms ap =? 0) && (ap_last_cm ap <=? eff)).

Definition channel_correct (ap : approach) (now_ms median_cm : Z) : Z :=
  if CONFIG_ML_LOS && cfg_range_correct_en (ap_cfg ap) && (0 <=? median_cm)
  then ml_los_range_true_cm (u16 median_cm)
         (if nlos_blocked ap now_ms then ML_LOS_OBSTRUCTED else ML_LOS_CLEAR)
  else median_cm.

(** ** The feed body *)

(** Stage 1: estimator and ETA.  Returns the state, whether the sample
    updated the estimate, and the closing speed. *)
Definition feed_estimate (ap : approach) (now_ms cm : Z) : approach * bool * f32 :=
  let '(ap, est_fresh) := kf_update ap now_ms (channel_correct ap now_ms cm) in
  let closing := fneg (ap_v ap) in
  let radius_pre := effective_unlock_cm ap now_ms in
  let ap :=
    if cfg_predict_en (ap_cfg ap) && est_fresh && (KF_MIN_SAMPLES <=? ap_accepted ap) &&
       fge closing (f32_of_Z (cfg_vmin_cm_s (ap_cfg ap))) &&
       fgt (ap_d ap) (f32_of_Z radius_pre)
    then ap <| ap_eta_ms :=
                f32_trunc (fdiv (fmul (fsub (ap_d ap) (f32_of_Z radius_pre)) (f32_of_Z 1000))
                                closing) |>
    else ap <| ap_eta_ms := -1 |> <| ap_pred_dwell := 0 |> in
  (ap, est_fresh, closing).

(** Stage 2: file the sample in the window. *)
Definition feed_file (ap : approach) (now_ms cm carry : Z) (confidence : f32) : approach :=
  let w := ap_wpos ap in
  ap <| ap_last_cm := cm |>
     <| ap_last_feed_ms := now_ms |>
     <| ap_win := <[w := cm]> (ap_win ap) |>
     <| ap_win_ms := <[w := now_ms]> (ap_win_ms ap) |>
     <| ap_ch_win := <[w := negb (carry =? 0) &&
                            fge confidence (cfg_nlos_conf_min (ap_cfg ap))]> (ap_ch_win ap) |>
     <| ap_carry_win := if CONFIG_ML_LOS
                        then <[w := if carry <? CARRY_N then carry else CARRY_HAND]>
                               (ap_carry_win ap)
                        else ap_carry_win ap |>
     <| ap_wpos := ((w + 1) mod MEDIAN_N)%nat |>
     <| ap_wlen := if (ap_wlen ap <? MEDIAN_N)%nat then S (ap_wlen ap) else ap_wlen ap |>.

(** The corrected median the presence path and the trajectory gate read. *)
Definition feed_median (ap : approach) (now_ms : Z) : Z :=
  channel_correct ap now_ms (range_median_fresh ap now_ms).

(** Stage 3a: arm the trajectory gate on the median. *)
Definition feed_arm (ap : approach) (f : Z) : approach :=
  if (0 <? cfg_approach_cm (ap_cfg ap)) && (cfg_approach_cm (ap_cfg ap) <=? f)
  then ap <| ap_approach_armed := true |>
  else ap.

Definition approached (ap : approach) : bool :=
  (cfg_approach_cm (ap_cfg ap) <=? 0) || ap_approach_armed ap.

(** Stage 3b: the presence path; [Some] is its early return. *)
Definition feed_presence (ap : approach) (now_ms f : Z) : approach * option action :=
  if f <=? effective_unlock_cm ap now_ms then
    let ap := ap <| ap_far_dwell := 0 |> <| ap_pred_open := false |> in
    if ap_locked ap && approached ap then
      let ap := ap <| ap_near_dwell := ap_near_dwell ap + 1 |> in
      if cfg_near_dwell (ap_cfg ap) <=? ap_near_dwell ap
      then (ap <| ap_locked := false |>, Some UNLOCK_THRESHOLD)
      else (ap, None)
    else (ap, None)
  else if cfg_relock_cm (ap_cfg ap) <=? f then
    let ap := ap <| ap_near_dwell := 0 |> in
    if negb (ap_locked ap) then
      let ap := ap <| ap_far_dwell := ap_far_dwell ap + 1 |> in
      if cfg_far_dwell (ap_cfg ap) <=? ap_far_dwell ap
      then (ap <| ap_locked := true |>
               <| ap_pred_open := false |>
               <| ap_pred_dwell := 0 |>
               <| ap_approach_armed := false |>, Some RELOCK_DEPART)
      else (ap, None)
    else (ap, None)
  else (ap <| ap_near_dwell := 0 |> <| ap_far_dwell := 0 |>, None).

(** Stage 4: supervise a predictive open, or decide one. *)
Definition feed_predict (ap : approach) (now_ms : Z) (est_fresh : bool) (closing : f32)
    : approach * action :=
  if ap_pred_open ap then
    if pred_arrived ap now_ms then
      (ap <| ap_pred_open := false |> <| ap_pred_dwell := 0 |>, HOLD)
    else if ap_pred_deadline_ms ap <=? now_ms then pred_abort ap
    else if est_fresh && (KF_MIN_SAMPLES <=? ap_accepted ap) then
      if flt closing (fdiv (f32_of_Z (cfg_vmin_cm_s (ap_cfg ap))) (f32_of_Z 2))
      then pred_abort ap
      else (ap <| ap_pred_deadline_ms := now_ms + PRED_GRACE_MS |>, HOLD)
    else (ap, HOLD)
  else if ap_locked ap && approached ap && (0 <=? ap_eta_ms ap) &&
          (ap_eta_ms ap <=? cfg_motor_ms (ap_cfg ap) + cfg_margin_ms (ap_cfg ap)) then
    let ap := ap <| ap_pred_dwell := ap_pred_dwell ap + 1 |> in
    if PRED_DWELL_N <=? ap_pred_dwell ap
    then (ap <| ap_locked := false |>
             <| ap_pred_open := true |>
             <| ap_pred_dwell := 0 |>
             <| ap_pred_deadline_ms := now_ms + ap_eta_ms ap + PRED_GRACE_MS |>,
          UNLOCK_PREDICT)
    else (ap, HOLD)
  else (ap <| ap_pred_dwell := 0 |>, HOLD).

Definition feed_one (ap : approach) (now_ms cm carry : Z) (confidence : f32)
    : approach * action :=
  let '(ap, est_fresh, closing) := feed_estimate ap now_ms cm in
  let ap := feed_file ap now_ms cm carry confidence in
  let f := feed_median ap now_ms in
  let ap := feed_arm ap f in
  match feed_presence ap now_ms f with
  | (ap, Some a) => (ap, a)
  | (ap, None) => feed_predict ap now_ms est_fresh closing
  end.

Definition approach_feed_channel (ap : approach) (now_ms cm : Z)
    (obstructed : bool) (confidence : f32) : approach * action :=
  feed_one ap now_ms cm (if obstructed then CARRY_HAND else CARRY_CLEAR) confidence.

Definition approach_feed (ap : approach) (now_ms cm : Z) : approach * action :=
  approach_feed_channel ap now_ms cm false f32_zero.

Definition approach_feed_carry (ap : approach) (now_ms cm carry : Z) (confidence : f32)
    : approach * action :=
  feed_one ap now_ms cm (u8 carry) confidence.

(** ** The other entry points *)

Definition approach_observe_departure (ap : approach) (now_ms cm : Z) : approach :=
  if cm <? cfg_relock_cm (ap_cfg ap) then ap
  else ap <| ap_last_cm := cm |>
          <| ap_last_feed_ms := now_ms |>
          <| ap_approach_armed := true |>.

(** How long the silence must be for [tick] to read it as a departure. *)
Definition silence_need_ms (ap : approach) : Z :=
  let need := cfg_far_silence_ms (ap_cfg ap) in
  if (ap_last_cm ap <? cfg_relock_cm (ap_cfg ap)) && (need <? BAND_SILENCE_MS)
  then BAND_SILENCE_MS else need.

Definition approach_tick (ap : approach) (now_ms : Z) : approach * action :=
  if ap_pred_open ap && (ap_pred_deadline_ms ap <=? now_ms) then
    if pred_arrived ap now_ms
    then (ap <| ap_pred_open := false |> <| ap_pred_dwell := 0 |>, HOLD)
    else pred_abort ap
  else if negb (ap_locked ap) && negb (ap_pred_open ap) &&
          (0 <? cfg_far_silence_ms (ap_cfg ap)) && negb (ap_last_feed_ms ap =? 0) &&
          (effective_unlock_cm ap now_ms <? ap_last_cm ap) &&
          (silence_need_ms ap <=? now_ms - ap_last_feed_ms ap) then
    let ap := ap <| ap_locked := true |>
                 <| ap_near_dwell := 0 |>
                 <| ap_far_dwell := 0 |>
                 <| ap_pred_open := false |>
                 <| ap_pred_dwell := 0 |> in
    (if cfg_relock_cm (ap_cfg ap) <=? ap_last_cm ap
     then ap <| ap_approach_armed := false |> else ap, RELOCK_DEPART)
  else (ap, HOLD).

Definition approach_gone (ap : approach) : approach * action :=
  (approach_init (Some (ap_cfg ap)), if ap_locked ap then HOLD else RELOCK_DEPART).

Definition approach_veto (ap : approach) : approach :=
  if ap_locked ap then ap
  else ap <| ap_locked := true |>
          <| ap_pred_open := false |>
          <| ap_pred_dwell := 0 |>
          <| ap_eta_ms := -1 |>.

(** ** Trace accessors *)

Definition approach_est_cm (ap : approach) : Z :=
  if ap_kf_init ap
  then f32_trunc (fadd (ap_d ap) (if flt (ap_d ap) f32_zero
                                  then fneg (f32_lit 8388608 (-24))
                                  else f32_lit 8388608 (-24)))
  else -1.

Definition approach_vel_cm_s (ap : approach) : Z :=
  if ap_kf_init ap
  then let c := fneg (ap_v ap) in
       f32_trunc (fadd c (if flt c f32_zero then fneg (f32_lit 8388608 (-24))
                          else f32_lit 8388608 (-24)))
  else 0.

Definition approach_nlos_carry (ap : approach) (now_ms : Z) : Z :=
  if nlos_blocked ap now_ms then nlos_carry_class ap now_ms else CARRY_CLEAR.

End Build.
