(* ===== verification/ApproachFacts.v ===== *)
(** * Properties of the approach controller

    The median filter, the frame of each stage of the feed body, the
    well-formedness invariant, the bolt mirror, the trajectory gate over
    whole runs, the dwell rule, the supervision of a predictive open and the
    departure rules of [Approach]. *)

From Stdlib Require Import ZArith Lia Sorting.Permutation Sorting.Sorted.
From stdpp Require Import base list numbers sorting.
From S2P Require Import Prelude MlRange Approach.

Local Open Scope Z_scope.

(** ** The insertion sort and the median *)

Lemma shift_in_perm v rp : Permutation (shift_in v rp) (v :: rp).
Proof.
  induction rp as [|x r IH]; simpl; [done|].
  case_match; [|done]. rewrite IH. constructor.
Qed.

Lemma shift_in_sorted v rp : StronglySorted Z.ge rp -> StronglySorted Z.ge (shift_in v rp).
Proof.
  induction 1 as [|x r Hr IH Hx]; simpl; [repeat constructor|].
  destruct (Z.ltb_spec v x).
  - constructor; [done|]. rewrite shift_in_perm. constructor; [lia|done].
  - constructor; [by constructor|]. constructor; [lia|].
    eapply Forall_impl; [exact Hx|]. simpl. lia.
Qed.

Lemma fold_shift_in t rp :
  StronglySorted Z.ge rp ->
  StronglySorted Z.ge (fold_left (fun rp v => shift_in v rp) t rp) /\
  Permutation (fold_left (fun rp v => shift_in v rp) t rp) (t ++ rp).
Proof.
  revert rp. induction t as [|v t IH]; intros rp Hrp; simpl; [done|].
  destruct (IH (shift_in v rp)) as [Hs Hp]; [by apply shift_in_sorted|].
  split; [done|]. rewrite Hp, shift_in_perm. by rewrite <- Permutation_middle.
Qed.

Lemma insertion_sort_perm t : Permutation (insertion_sort t) t.
Proof.
  unfold insertion_sort. rewrite <- Permutation_rev.
  destruct (fold_shift_in t []) as [_ Hp]; [constructor|].
  by rewrite app_nil_r in Hp.
Qed.

Lemma insertion_sort_sorted t : StronglySorted Z.le (insertion_sort t).
Proof.
  destruct (fold_shift_in t []) as [Hs _]; [constructor|].
  apply StronglySorted_rev in Hs. unfold insertion_sort.
  eapply StronglySorted_weaken; [|exact Hs]. simpl. lia.
Qed.

Lemma length_insertion_sort t : length (insertion_sort t) = length t.
Proof. apply Permutation_length, insertion_sort_perm. Qed.

Lemma half_lt n : (0 < n)%nat -> (n / 2 < n)%nat.
Proof. intros. apply Nat.div_lt; lia. Qed.

(** A median inside a radius is carried by a strict majority. *)
Lemma range_median_le_majority t r :
  t <> [] -> range_median t <= r -> (length t < 2 * count_le r t)%nat.
Proof.
  intros Ht Hr. rewrite <- (count_le_perm r _ _ (insertion_sort_perm t)).
  assert (0 < length t)%nat by (destruct t; [done|simpl; lia]).
  assert (length t / 2 < count_le r (insertion_sort t))%nat.
  { apply sorted_count_le; [apply insertion_sort_sorted| |done].
    rewrite length_insertion_sort. by apply half_lt. }
  pose proof (Nat.div_mod_eq (length t) 2).
  pose proof (Nat.mod_upper_bound (length t) 2). lia.
Qed.

(** A median at or beyond a radius is carried by at least half. *)
Lemma range_median_ge_half t r :
  t <> [] -> r <= range_median t -> (length t <= 2 * count_ge r t)%nat.
Proof.
  intros Ht Hr. rewrite <- (count_ge_perm r _ _ (insertion_sort_perm t)).
  assert (0 < length t)%nat by (destruct t; [done|simpl; lia]).
  assert (length (insertion_sort t) - length t / 2 <= count_ge r (insertion_sort t))%nat.
  { apply sorted_count_ge; [apply insertion_sort_sorted| |done].
    rewrite length_insertion_sort. by apply half_lt. }
  rewrite length_insertion_sort in *.
  pose proof (Nat.div_mod_eq (length t) 2).
  pose proof (Nat.mod_upper_bound (length t) 2). lia.
Qed.

Lemma range_median_in t : t <> [] -> In (range_median t) t.
Proof.
  intros Ht. eapply Permutation_in; [apply insertion_sort_perm|].
  apply nth_In. rewrite length_insertion_sort. apply half_lt.
  destruct t; [done|simpl; lia].
Qed.

(** ** Frames

    [control] is what the decisions read and write; [window] is the median
    window with its labels.  The estimator touches neither. *)

Definition control (ap : approach) :=
  (ap_cfg ap, ap_locked ap, ap_pred_open ap, ap_approach_armed ap,
   (ap_near_dwell ap, ap_far_dwell ap, ap_pred_deadline_ms ap)).

Definition window (ap : approach) :=
  (ap_win ap, ap_win_ms ap, ap_ch_win ap, ap_carry_win ap, (ap_wlen ap, ap_wpos ap)).

Lemma kf_update_frame ap now cm :
  control (kf_update ap now cm).1 = control ap /\
  window (kf_update ap now cm).1 = window ap.
Proof. unfold kf_update, kf_correct. repeat case_match; done. Qed.

Section Build.
  Context (ml : bool).

Lemma feed_estimate_frame ap now cm :
  control (feed_estimate ml ap now cm).1.1 = control ap /\
  window (feed_estimate ml ap now cm).1.1 = window ap.
Proof.
  unfold feed_estimate.
  pose proof (kf_update_frame ap now (channel_correct ml ap now cm)) as [Hc Hw].
  destruct (kf_update _ _ _) as [ap1 e]. simpl in *.
  case_match; done.
Qed.

(** Everything the window decides is a function of the window and the
    configuration. *)
Ltac by_window :=
  match goal with
  | a : approach, b : approach |- _ =>
      destruct a, b; unfold window in *; simpl in *; simplify_eq; reflexivity
  end.

Lemma effective_unlock_cm_ext a b now :
  window a = window b -> ap_cfg a = ap_cfg b ->
  effective_unlock_cm ml a now = effective_unlock_cm ml b now.
Proof. intros. by_window. Qed.

Lemma feed_median_ext a b now :
  window a = window b -> ap_cfg a = ap_cfg b -> feed_median ml a now = feed_median ml b now.
Proof. intros. by_window. Qed.

Lemma fresh_samples_ext a b now :
  window a = window b -> fresh_samples a now = fresh_samples b now.
Proof. intros. by_window. Qed.

Lemma feed_arm_frame ap f :
  window (feed_arm ap f) = window ap /\
  control (feed_arm ap f) =
  (ap_cfg ap, ap_locked ap, ap_pred_open ap,
   ap_approach_armed ap ||
     ((0 <? cfg_approach_cm (ap_cfg ap)) && (cfg_approach_cm (ap_cfg ap) <=? f)),
   (ap_near_dwell ap, ap_far_dwell ap, ap_pred_deadline_ms ap)).
Proof.
  unfold feed_arm. case_match; unfold control; simpl.
  - by rewrite orb_true_r.
  - by rewrite orb_false_r.
Qed.

(** The state the presence path sees: estimator run, sample filed, gate
    armed.  [feed_window] is the window it has then. *)
Definition feed_filed (ap : approach) (now cm carry : Z) (conf : f32) : approach :=
  feed_file ml (feed_estimate ml ap now cm).1.1 now cm carry conf.

Definition feed_prep (ap : approach) (now cm carry : Z) (conf : f32) : approach :=
  let ap := feed_filed ap now cm carry conf in feed_arm ap (feed_median ml ap now).

(** The median this sample produces. *)
Definition sample_median (ap : approach) (now cm carry : Z) (conf : f32) : Z :=
  feed_median ml (feed_filed ap now cm carry conf) now.

(** The unlock radius in force for this sample. *)
Definition sample_radius (ap : approach) (now cm carry : Z) (conf : f32) : Z :=
  effective_unlock_cm ml (feed_filed ap now cm carry conf) now.

Definition arms (c : approach_cfg) (f : Z) : bool :=
  (0 <? cfg_approach_cm c) && (cfg_approach_cm c <=? f).

Lemma feed_filed_control ap now cm carry conf :
  control (feed_filed ap now cm carry conf) = control ap.
Proof.
  unfold feed_filed. destruct (feed_estimate_frame ap now cm) as [Hc _].
  rewrite <- Hc. reflexivity.
Qed.

Lemma feed_prep_control ap now cm carry conf :
  control (feed_prep ap now cm carry conf) =
  (ap_cfg ap, ap_locked ap, ap_pred_open ap,
   ap_approach_armed ap || arms (ap_cfg ap) (sample_median ap now cm carry conf),
   (ap_near_dwell ap, ap_far_dwell ap, ap_pred_deadline_ms ap)).
Proof.
  unfold feed_prep. destruct (feed_arm_frame (feed_filed ap now cm carry conf)
    (feed_median ml (feed_filed ap now cm carry conf) now)) as [_ ->].
  pose proof (feed_filed_control ap now cm carry conf) as H.
  unfold control in H. unfold arms, sample_median. by simplify_eq; repeat match goal with H : _ = _ |- _ => rewrite H end.
Qed.

Lemma feed_prep_window ap now cm carry conf :
  window (feed_prep ap now cm carry conf) = window (feed_filed ap now cm carry conf).
Proof. unfold feed_prep. apply feed_arm_frame. Qed.

Lemma feed_prep_radius ap now cm carry conf :
  effective_unlock_cm ml (feed_prep ap now cm carry conf) now =
  sample_radius ap now cm carry conf.
Proof.
  unfold sample_radius. apply effective_unlock_cm_ext; [apply feed_prep_window|].
  pose proof (feed_prep_control ap now cm carry conf).
  pose proof (feed_filed_control ap now cm carry conf).
  unfold control in *. congruence.
Qed.

(** The feed body is the presence path on the prepared state, then the
    prediction path when it did not return. *)
Lemma feed_one_eq ap now cm carry conf :
  feed_one ml ap now cm carry conf =
  match feed_presence ml (feed_prep ap now cm carry conf) now
          (sample_median ap now cm carry conf) with
  | (ap', Some a) => (ap', a)
  | (ap', None) => feed_predict ml ap' now (feed_estimate ml ap now cm).1.2
                                          (feed_estimate ml ap now cm).2
  end.
Proof.
  unfold feed_one, feed_prep, sample_median, feed_filed.
  by destruct (feed_estimate ml ap now cm) as [[ap1 e] c].
Qed.

(** ** Events and runs *)

Inductive event :=
  | EvFeed (now cm carry : Z) (conf : f32)
  | EvSessionUp
  | EvDeparture (now cm : Z)
  | EvTick (now : Z)
  | EvGone
  | EvVeto.

Definition step (ap : approach) (e : event) : approach * action :=
  match e with
  | EvFeed now cm carry conf => approach_feed_carry ml ap now cm carry conf
  | EvSessionUp => (approach_session_up ap, HOLD)
  | EvDeparture now cm => (approach_observe_departure ap now cm, HOLD)
  | EvTick now => approach_tick ml ap now
  | EvGone => approach_gone ml ap
  | EvVeto => (approach_veto ap, HOLD)
  end.

(** A run from initialisation, newest entry first; each entry holds the
    state the event met, the event, the action returned and the state left. *)
Definition entry : Type := approach * event * action * approach.

Inductive reach (c : option approach_cfg) : list entry -> approach -> Prop :=
  | reach_init : reach c [] (approach_init ml c)
  | reach_step h ap e ap' a :
      reach c h ap -> step ap e = (ap', a) -> reach c ((ap, e, a, ap') :: h) ap'.

(** ** The configuration after initialisation *)

Definition widen_ok (c : approach_cfg) (w : Z) : Prop :=
  0 <= w /\ cfg_unlock_cm c + w < cfg_approach_cm c.

(** The trajectory gate has room: it arms strictly beyond every radius it
    can fire at, and strictly inside the departure radius. *)
Record cfg_gate (c : approach_cfg) : Prop := {
  cg_band : cfg_unlock_cm c < cfg_approach_cm c < cfg_relock_cm c;
  cg_widen : widen_ok c (cfg_nlos_widen_cm c);
  cg_class : ml = true -> Forall (widen_ok c) (cfg_nlos_widen_class_cm c);
}.

Lemma clamp_widen_ok u a w :
  u < a -> 0 < a -> 0 <= clamp_widen u a w /\ u + clamp_widen u a w < a.
Proof.
  intros Hu Ha. unfold clamp_widen.
  destruct (Z.ltb_spec w 0), (Z.ltb_spec 0 a); simpl; try lia;
    (match goal with |- context [?x <=? ?y] => destruct (Z.leb_spec x y) end); lia.
Qed.

Lemma clamp_approach_band c :
  cfg_unlock_cm c + 1 < cfg_relock_cm c -> 0 <= cfg_unlock_cm c -> 0 < cfg_approach_cm c ->
  cfg_unlock_cm c < clamp_approach_cm c < cfg_relock_cm c.
Proof.
  intros Hb Hu Ha. unfold clamp_approach_cm.
  assert (Z.quot (cfg_relock_cm c - cfg_unlock_cm c) 2 =
          (cfg_relock_cm c - cfg_unlock_cm c) / 2) as Hq
    by (apply Z.quot_div_nonneg; lia).
  destruct (Z.ltb_spec 0 (cfg_approach_cm c)); [|lia].
  destruct (Z.leb_spec (cfg_approach_cm c) (cfg_unlock_cm c)),
           (Z.leb_spec (cfg_relock_cm c) (cfg_approach_cm c)); simpl; rewrite ?Hq; zdiv.
Qed.

Lemma init_cfg_gate c :
  cfg_unlock_cm c + 1 < cfg_relock_cm c -> 0 <= cfg_unlock_cm c -> 0 < cfg_approach_cm c ->
  cfg_gate (init_cfg ml c).
Proof.
  intros Hb Hu Ha. pose proof (clamp_approach_band c Hb Hu Ha) as Hband.
  assert (forall w, widen_ok (c <| cfg_approach_cm := clamp_approach_cm c |>)
                     (clamp_widen (cfg_unlock_cm c) (clamp_approach_cm c) w)) as Hw.
  { intros w. unfold widen_ok; simpl. apply clamp_widen_ok; lia. }
  unfold init_cfg. destruct ml eqn:Hml; constructor; simpl; try done; try apply Hw.
  - intros _. apply Forall_map, Forall_true, Hw.
  - congruence.
Qed.

(** Re-initialising with a configuration the gate accepts changes nothing,
    so [approach_gone] keeps the configuration. *)
Lemma clamp_widen_id c w : cfg_gate c -> widen_ok c w ->
  clamp_widen (cfg_unlock_cm c) (cfg_approach_cm c) w = w.
Proof.
  intros _ [Hw Hu]. unfold clamp_widen.
  destruct (Z.ltb_spec w 0); [lia|].
  destruct (Z.leb_spec (cfg_approach_cm c) (cfg_unlock_cm c + w)); [lia|].
  by rewrite andb_false_r.
Qed.

Lemma init_cfg_id c : cfg_gate c -> init_cfg ml c = c.
Proof.
  intros Hg. pose proof Hg as [Hband Hwiden Hclass].
  assert (clamp_approach_cm c = cfg_approach_cm c) as Ha.
  { unfold clamp_approach_cm.
    destruct (Z.leb_spec (cfg_approach_cm c) (cfg_unlock_cm c)); [lia|].
    destruct (Z.leb_spec (cfg_relock_cm c) (cfg_approach_cm c)); [lia|].
    by rewrite andb_false_r. }
  unfold init_cfg. cbn -[clamp_approach_cm clamp_widen]. rewrite Ha, clamp_widen_id by done.
  assert (ml = true -> map (clamp_widen (cfg_unlock_cm c) (cfg_approach_cm c))
                        (cfg_nlos_widen_class_cm c) = cfg_nlos_widen_class_cm c) as Hm.
  { intros Hml. specialize (Hclass Hml). induction Hclass as [|w l Hw _ IH]; simpl; [done|].
    by rewrite clamp_widen_id, IH by done. }
  destruct ml; [rewrite Hm by done|]; by destruct c.
Qed.

(** ** Well-formedness *)

Record wf (ap : approach) : Prop := {
  wf_win : length (ap_win ap) = MEDIAN_N;
  wf_win_ms : length (ap_win_ms ap) = MEDIAN_N;
  wf_ch : length (ap_ch_win ap) = MEDIAN_N;
  wf_carry : length (ap_carry_win ap) = MEDIAN_N;
  wf_carry_range : Forall (fun c => 0 <= c < CARRY_N) (ap_carry_win ap);
  wf_wpos : (ap_wpos ap < MEDIAN_N)%nat;
  wf_ring : ap_wlen ap = MEDIAN_N \/ (ap_wlen ap = ap_wpos ap /\ (ap_wlen ap < MEDIAN_N)%nat);
  wf_pred : ap_pred_open ap = true -> ap_locked ap = false;
  wf_accepted : 0 <= ap_accepted ap <= KF_MIN_SAMPLES;
  wf_rejects : 0 <= ap_rejects ap < KF_REJECT_MAX;
  wf_pred_dwell : 0 <= ap_pred_dwell ap < PRED_DWELL_N;
  wf_near : 0 <= ap_near_dwell ap;
  wf_far : 0 <= ap_far_dwell ap;
  wf_eta : in_i 32 (ap_eta_ms ap);
}.

(** Goals about single fields of updated states. *)
Ltac wf_fields :=
  constructor; simpl; rewrite ?length_insert; auto;
  unfold in_i, KF_MIN_SAMPLES, KF_REJECT_MAX, PRED_DWELL_N, MEDIAN_N, CARRY_N in *;
  simpl in *; try lia; try congruence.

Lemma wf_init c : wf (approach_init ml c).
Proof.
  wf_fields. repeat constructor; lia.
Qed.

Lemma wf_kf_update ap now cm : wf ap -> wf (kf_update ap now cm).1.
Proof.
  intros []. unfold kf_update, kf_correct. repeat case_match; wf_fields.
Qed.

Lemma wf_feed_estimate ap now cm : wf ap -> wf (feed_estimate ml ap now cm).1.1.
Proof.
  intros H. unfold feed_estimate.
  pose proof (wf_kf_update ap now (channel_correct ml ap now cm) H) as Hk.
  destruct (kf_update _ _ _) as [ap1 e]. simpl in Hk |- *.
  destruct Hk. case_match; wf_fields; apply f32_trunc_range.
Qed.

Lemma wf_feed_file ap now cm carry conf :
  wf ap -> 0 <= carry -> wf (feed_file ml ap now cm carry conf).
Proof.
  intros [] Hc. unfold MEDIAN_N in *.
  assert ((ap_wpos ap + 1) mod 5 < 5)%nat by (apply Nat.mod_upper_bound; lia).
  unfold feed_file; constructor; simpl; rewrite ?length_insert; auto.
  - destruct ml; rewrite ?length_insert; auto.
  - destruct ml; [|done]. apply Forall_insert; [done|].
    unfold CARRY_N, CARRY_HAND in *. case_match; lia.
  - unfold MEDIAN_N. destruct (Nat.ltb_spec (ap_wlen ap) 5); [|lia].
    destruct (decide (ap_wlen ap = 4%nat)) as [He|He]; [lia|right].
    rewrite Nat.mod_small by lia. lia.
Qed.

Lemma wf_feed_arm ap f : wf ap -> wf (feed_arm ap f).
Proof. intros []. unfold feed_arm. case_match; wf_fields. Qed.

Lemma wf_feed_prep ap now cm carry conf :
  wf ap -> 0 <= carry -> wf (feed_prep ap now cm carry conf).
Proof.
  intros. apply wf_feed_arm, wf_feed_file; [|done]. by apply wf_feed_estimate.
Qed.

Lemma wf_feed_presence ap now f : wf ap -> wf (feed_presence ml ap now f).1.
Proof.
  intros []. unfold feed_presence. repeat case_match; wf_fields.
Qed.

Lemma wf_pred_abort ap : wf ap -> wf (pred_abort ap).1.
Proof. intros []. unfold pred_abort. case_match; wf_fields. Qed.

Lemma wf_feed_predict ap now e c : wf ap -> wf (feed_predict ml ap now e c).1.
Proof.
  intros H. pose proof (wf_pred_abort ap H). destruct H.
  unfold feed_predict. repeat (case_match; simpl; try done); wf_fields.
Qed.

Lemma wf_step ap e : wf ap -> wf (step ap e).1.
Proof.
  intros H. destruct e as [now cm carry conf| |now cm|now| |]; simpl.
  - unfold approach_feed_carry. rewrite feed_one_eq.
    pose proof (wf_feed_presence _ now (sample_median ap now cm (u8 carry) conf)
      (wf_feed_prep ap now cm (u8 carry) conf H (proj1 (wrap_range 8 carry ltac:(lia))))) as Hp.
    destruct (feed_presence _ _ _ _) as [ap' [a|]]; [done|]. by apply wf_feed_predict.
  - destruct H. wf_fields.
  - unfold approach_observe_departure. case_match; [done|]. destruct H. wf_fields.
  - pose proof (wf_pred_abort ap H). destruct H. unfold approach_tick.
    repeat (case_match; simpl; try done); wf_fields.
  - apply wf_init.
  - unfold approach_veto. case_match; [done|]. destruct H. wf_fields.
Qed.

Lemma wf_reach c h ap : reach c h ap -> wf ap.
Proof.
  induction 1 as [|h ap e ap' a _ IH Hs]; [apply wf_init|].
  pose proof (wf_step ap e IH) as H. by rewrite Hs in H.
Qed.

(** No stage of the decision writes the configuration or the window. *)
Lemma feed_presence_frame ap now f :
  ap_cfg (feed_presence ml ap now f).1 = ap_cfg ap /\
  window (feed_presence ml ap now f).1 = window ap.
Proof. unfold feed_presence. repeat case_match; done. Qed.

Lemma pred_abort_frame ap :
  ap_cfg (pred_abort ap).1 = ap_cfg ap /\ window (pred_abort ap).1 = window ap.
Proof. unfold pred_abort. repeat case_match; done. Qed.

Lemma feed_predict_frame ap now e c :
  ap_cfg (feed_predict ml ap now e c).1 = ap_cfg ap /\
  window (feed_predict ml ap now e c).1 = window ap.
Proof.
  pose proof (pred_abort_frame ap). unfold feed_predict. repeat (case_match; simpl; try done).
Qed.

Lemma feed_one_frame ap now cm carry conf :
  ap_cfg (feed_one ml ap now cm carry conf).1 = ap_cfg ap /\
  window (feed_one ml ap now cm carry conf).1 = window (feed_filed ap now cm carry conf).
Proof.
  rewrite feed_one_eq, <- feed_prep_window.
  pose proof (feed_prep_control ap now cm carry conf) as Hc. unfold control in Hc.
  pose proof (feed_presence_frame (feed_prep ap now cm carry conf) now
                (sample_median ap now cm carry conf)) as [Hpc Hpw].
  destruct (feed_presence _ _ _ _) as [ap' [a|]]; simpl in *; [split; congruence|].
  destruct (feed_predict_frame ap' now (feed_estimate ml ap now cm).1.2
              (feed_estimate ml ap now cm).2). split; congruence.
Qed.

(** The configuration a run works with is the clamped one, all along. *)
Lemma cfg_step ap e : cfg_gate (ap_cfg ap) -> ap_cfg (step ap e).1 = ap_cfg ap.
Proof.
  intros Hg. destruct e as [now cm carry conf| |now cm|now| |]; simpl; try done.
  - apply feed_one_frame.
  - unfold approach_observe_departure. by case_match.
  - unfold approach_tick, pred_abort. repeat (case_match; simpl); done.
  - by apply init_cfg_id.
  - unfold approach_veto. by case_match.
Qed.

Definition usable (c : option approach_cfg) : Prop :=
  let c := default approach_defaults c in
  cfg_unlock_cm c + 1 < cfg_relock_cm c /\ 0 <= cfg_unlock_cm c /\ 0 < cfg_approach_cm c.

Lemma cfg_reach c h ap :
  usable c -> reach c h ap -> ap_cfg ap = init_cfg ml (default approach_defaults c).
Proof.
  intros (Hb & Hu & Ha) H. pose proof (init_cfg_gate _ Hb Hu Ha) as Hg.
  induction H as [|h ap e ap' a _ IH Hs]; [done|].
  rewrite <- IH in Hg. pose proof (cfg_step ap e Hg) as Hc. rewrite Hs in Hc. simpl in Hc.
  congruence.
Qed.

Lemma cfg_gate_reach c h ap : usable c -> reach c h ap -> cfg_gate (ap_cfg ap).
Proof.
  intros Hc Hr. rewrite (cfg_reach _ _ _ Hc Hr). destruct Hc as (? & ? & ?).
  by apply init_cfg_gate.
Qed.

Lemma cfg_pos_reach c h ap : usable c -> reach c h ap -> 0 < cfg_approach_cm (ap_cfg ap).
Proof.
  intros Hc Hr. destruct (cfg_gate_reach _ _ _ Hc Hr) as [Hb _ _].
  pose proof (cfg_reach _ _ _ Hc Hr) as He. destruct Hc as (_ & Hu & _).
  enough (cfg_unlock_cm (ap_cfg ap) = cfg_unlock_cm (default approach_defaults c)) by lia.
  rewrite He. unfold init_cfg. by destruct ml.
Qed.

(** ** The bolt mirror *)

Definition unlocks (a : action) : Prop := a = UNLOCK_PREDICT \/ a = UNLOCK_THRESHOLD.

Definition bolt_effect (a : action) (locked locked' : bool) : Prop :=
  match a with
  | HOLD => locked' = locked
  | UNLOCK_PREDICT | UNLOCK_THRESHOLD => locked = true /\ locked' = false
  | RELOCK_DEPART | RELOCK_ABORT => locked = false /\ locked' = true
  end.

Lemma feed_presence_bolt ap now f :
  bolt_effect (default HOLD (feed_presence ml ap now f).2)
    (ap_locked ap) (ap_locked (feed_presence ml ap now f).1).
Proof.
  unfold feed_presence. destruct (ap_locked ap) eqn:Hl;
    repeat (case_match; simpl in *); rewrite ?Hl in *; simpl in *; try done; congruence.
Qed.

Lemma pred_abort_bolt ap :
  ap_locked ap = false -> bolt_effect (pred_abort ap).2 (ap_locked ap) (ap_locked (pred_abort ap).1).
Proof. intros Hl. unfold pred_abort. simpl. rewrite Hl. by case_match. Qed.

Lemma feed_predict_bolt ap now e c :
  wf ap -> bolt_effect (feed_predict ml ap now e c).2
             (ap_locked ap) (ap_locked (feed_predict ml ap now e c).1).
Proof.
  intros [_ _ _ _ _ _ _ Hp]. unfold feed_predict.
  destruct (ap_pred_open ap).
  - specialize (Hp eq_refl). pose proof (pred_abort_bolt ap Hp).
    repeat (case_match; simpl; try done).
  - destruct (ap_locked ap) eqn:Hl; simpl; [|done].
    repeat (case_match; simpl in *; try done).
Qed.

(** When the presence path does not return, the bolt state is untouched. *)
Lemma feed_presence_none ap now f :
  (feed_presence ml ap now f).2 = None ->
  ap_locked (feed_presence ml ap now f).1 = ap_locked ap.
Proof.
  intros H. pose proof (feed_presence_bolt ap now f) as Hb. by rewrite H in Hb.
Qed.

Lemma feed_prep_locked ap now cm carry conf :
  ap_locked (feed_prep ap now cm carry conf) = ap_locked ap.
Proof.
  pose proof (feed_prep_control ap now cm carry conf) as H. unfold control in H. congruence.
Qed.

Lemma feed_one_bolt ap now cm carry conf :
  wf ap -> 0 <= carry ->
  bolt_effect (feed_one ml ap now cm carry conf).2
    (ap_locked ap) (ap_locked (feed_one ml ap now cm carry conf).1).
Proof.
  intros Hwf Hc. rewrite feed_one_eq.
  rewrite <- (feed_prep_locked ap now cm carry conf).
  set (p := feed_prep ap now cm carry conf). set (f := sample_median _ _ _ _ _).
  pose proof (feed_presence_bolt p now f) as Hb.
  pose proof (feed_presence_none p now f) as Hn.
  pose proof (wf_feed_presence p now f (wf_feed_prep _ _ _ _ _ Hwf Hc)) as Hw.
  destruct (feed_presence ml p now f) as [ap' [a|]]; [done|].
  simpl in *. rewrite <- Hn by done. by apply feed_predict_bolt.
Qed.

Lemma step_bolt ap e :
  wf ap -> e <> EvVeto ->
  bolt_effect (step ap e).2 (ap_locked ap) (ap_locked (step ap e).1).
Proof.
  intros Hwf Hv. destruct e as [now cm carry conf| |now cm|now| |]; simpl; try done.
  - apply feed_one_bolt; [done|]. apply (wrap_range 8); lia.
  - unfold approach_observe_departure. by case_match.
  - unfold approach_tick. destruct Hwf as [_ _ _ _ _ _ _ Hp].
    destruct (ap_pred_open ap); simpl.
    + specialize (Hp eq_refl). pose proof (pred_abort_bolt ap Hp).
      repeat (case_match; simpl; try done).
    + destruct (ap_locked ap) eqn:Hl; simpl; try done.
      repeat (case_match; simpl; try done).
  - by destruct (ap_locked ap).
Qed.

(** ** The trajectory gate over runs *)

(** The controller relocks after a prediction with the estimate already
    inside [approach_cm]: the one abort that keeps the gate armed. *)
Definition abort_keeps (ap : approach) : bool :=
  ap_kf_init ap && (0 <? cfg_approach_cm (ap_cfg ap)) &&
  fle (ap_d ap) (f32_of_Z (cfg_approach_cm (ap_cfg ap))).

(** Entries after which a fresh approach has to be earned. *)
Definition disarming (x : entry) : Prop :=
  let '(ap, e, a, ap') := x in
  match e, a with
  | EvGone, _ => True
  | EvFeed _ _ _ _, RELOCK_DEPART => True
  | EvTick _, RELOCK_DEPART => cfg_relock_cm (ap_cfg ap) <= ap_last_cm ap
  | _, RELOCK_ABORT => abort_keeps ap' = false
  | _, _ => False
  end.

(** Entries that are evidence of an approach: a median at or beyond
    [approach_cm], a new ranging session, or a range seen beyond
    [relock_cm]. *)
Definition arming (x : entry) : Prop :=
  let '(ap, e, a, ap') := x in
  match e with
  | EvFeed now cm carry conf =>
      arms (ap_cfg ap) (sample_median ap now cm (u8 carry) conf) = true
  | EvSessionUp => True
  | EvDeparture _ cm => cfg_relock_cm (ap_cfg ap) <= cm
  | _ => False
  end.

(** The run has evidence of an approach since the last disarming entry. *)
Fixpoint armed_since (h : list entry) : Prop :=
  match h with
  | [] => False
  | x :: h => ~ disarming x /\ (arming x \/ armed_since h)
  end.

Lemma feed_presence_armed ap now f :
  ap_approach_armed (feed_presence ml ap now f).1 = true ->
  ap_approach_armed ap = true /\ (feed_presence ml ap now f).2 <> Some RELOCK_DEPART /\
  (feed_presence ml ap now f).2 <> Some RELOCK_ABORT.
Proof. unfold feed_presence. repeat case_match; simpl; done. Qed.

Lemma pred_abort_armed ap :
  ap_approach_armed (pred_abort ap).1 = true ->
  ap_approach_armed ap = true /\ abort_keeps (pred_abort ap).1 = true.
Proof. unfold pred_abort, abort_keeps. case_match; simpl in *; done. Qed.

Lemma feed_predict_armed ap now e c :
  ap_approach_armed (feed_predict ml ap now e c).1 = true ->
  ap_approach_armed ap = true /\ (feed_predict ml ap now e c).2 <> RELOCK_DEPART /\
  ((feed_predict ml ap now e c).2 = RELOCK_ABORT ->
   abort_keeps (feed_predict ml ap now e c).1 = true).
Proof.
  pose proof (pred_abort_armed ap) as Ha. unfold feed_predict.
  repeat (case_match; simpl; try done); intros; destruct Ha; done.
Qed.

Lemma feed_prep_armed ap now cm carry conf :
  ap_approach_armed (feed_prep ap now cm carry conf) = true <->
  ap_approach_armed ap = true \/
  arms (ap_cfg ap) (sample_median ap now cm carry conf) = true.
Proof.
  pose proof (feed_prep_control ap now cm carry conf) as H. unfold control in H.
  assert (ap_approach_armed (feed_prep ap now cm carry conf) =
          ap_approach_armed ap || arms (ap_cfg ap) (sample_median ap now cm carry conf))
    as -> by congruence.
  apply orb_true_iff.
Qed.

Lemma feed_one_armed ap now cm carry conf :
  let r := feed_one ml ap now cm carry conf in
  ap_approach_armed r.1 = true ->
  r.2 <> RELOCK_DEPART /\ (r.2 = RELOCK_ABORT -> abort_keeps r.1 = true) /\
  (arms (ap_cfg ap) (sample_median ap now cm carry conf) = true \/
   ap_approach_armed ap = true).
Proof.
  intros r. unfold r. rewrite feed_one_eq.
  pose proof (feed_presence_armed (feed_prep ap now cm carry conf) now
    (sample_median ap now cm carry conf)) as Hp.
  destruct (feed_presence _ _ _ _) as [ap' [a|]]; simpl in *; intros Harm.
  - destruct (Hp Harm) as (Hprep & ? & ?). apply feed_prep_armed in Hprep.
    repeat split; try congruence. tauto.
  - destruct (feed_predict_armed _ _ _ _ Harm) as (Harm' & ? & ?).
    destruct (Hp Harm') as (Hprep & _ & _). apply feed_prep_armed in Hprep.
    repeat split; try done. tauto.
Qed.

(** One step: a gate left armed was not disarmed here, and was armed either
    here or before. *)
Lemma step_armed ap e ap' a :
  step ap e = (ap', a) -> ap_approach_armed ap' = true ->
  ~ disarming (ap, e, a, ap') /\ (arming (ap, e, a, ap') \/ ap_approach_armed ap = true).
Proof.
  intros Hs Harm. destruct e as [now cm carry conf| |now cm|now| |]; simpl in *.
  - pose proof (feed_one_armed ap now cm (u8 carry) conf) as H.
    unfold approach_feed_carry in Hs. rewrite Hs in H. simpl in H.
    destruct (H Harm) as (? & Hk & ?). split; [|done].
    intros Hd. destruct a; try done. rewrite Hk in Hd; done.
  - simplify_eq. auto.
  - simplify_eq. unfold approach_observe_departure in *.
    destruct (Z.ltb_spec cm (cfg_relock_cm (ap_cfg ap))); auto.
  - pose proof (pred_abort_armed ap) as Ha. unfold approach_tick in Hs.
    assert ((pred_abort ap).2 = RELOCK_ABORT) as Hr by done.
    destruct (pred_abort ap) as [pa ra]. simpl in Ha, Hr. subst ra.
    repeat case_match; simplify_eq; simpl in *; auto; try done.
    + destruct (Ha Harm) as [? ->]. auto.
    + split; [lia|auto].
  - unfold approach_gone in Hs. simplify_eq.
  - simplify_eq. unfold approach_veto in Harm. destruct (ap_locked ap); auto.
Qed.

Lemma armed_reach c h ap : reach c h ap -> ap_approach_armed ap = true -> armed_since h.
Proof.
  induction 1 as [|h ap e ap' a _ IH Hs]; [done|]. intros Harm.
  destruct (step_armed _ _ _ _ Hs Harm) as [? [?|?]]; simpl; auto.
Qed.

(** The two ways to unlock, as the state the presence path starts from. *)
Lemma feed_presence_threshold ap now f :
  (feed_presence ml ap now f).2 = Some UNLOCK_THRESHOLD ->
  f <= effective_unlock_cm ml ap now /\ approached ap = true /\
  cfg_near_dwell (ap_cfg ap) <= ap_near_dwell ap + 1.
Proof.
  unfold feed_presence.
  destruct (Z.leb_spec f (effective_unlock_cm ml ap now)); [|repeat case_match; done].
  change (approached (ap <| ap_far_dwell := 0 |> <| ap_pred_open := false |>))
    with (approached ap). simpl.
  destruct (ap_locked ap), (approached ap); simpl; try done.
  destruct (Z.leb_spec (cfg_near_dwell (ap_cfg ap)) (ap_near_dwell ap + 1)); done.
Qed.

Lemma feed_presence_not_predict ap now f :
  (feed_presence ml ap now f).2 <> Some UNLOCK_PREDICT.
Proof. unfold feed_presence. repeat case_match; done. Qed.

Lemma feed_presence_none_armed ap now f :
  (feed_presence ml ap now f).2 = None ->
  ap_approach_armed (feed_presence ml ap now f).1 = ap_approach_armed ap.
Proof. unfold feed_presence. repeat case_match; done. Qed.

Lemma feed_predict_unlock ap now e c :
  unlocks (feed_predict ml ap now e c).2 ->
  (feed_predict ml ap now e c).2 = UNLOCK_PREDICT /\ approached ap = true /\
  0 <= ap_eta_ms ap <= cfg_motor_ms (ap_cfg ap) + cfg_margin_ms (ap_cfg ap).
Proof.
  unfold feed_predict, unlocks, pred_abort.
  destruct (ap_pred_open ap).
  { repeat case_match; simpl; intros [|]; done. }
  destruct (approached ap); [|rewrite andb_false_r; simpl; intros [|]; done].
  rewrite andb_true_r.
  destruct (ap_locked ap && (0 <=? ap_eta_ms ap) && _) eqn:Hc; [|intros [|]; done].
  case_match; [|intros [|]; done]. intros _. simpl. repeat split; try done; lia.
Qed.

Lemma feed_one_threshold ap now cm carry conf :
  (feed_one ml ap now cm carry conf).2 = UNLOCK_THRESHOLD ->
  sample_median ap now cm carry conf <= sample_radius ap now cm carry conf /\
  approached (feed_prep ap now cm carry conf) = true /\
  cfg_near_dwell (ap_cfg ap) <= ap_near_dwell ap + 1.
Proof.
  rewrite feed_one_eq. intros H.
  pose proof (feed_presence_threshold (feed_prep ap now cm carry conf) now
    (sample_median ap now cm carry conf)) as Ht.
  rewrite feed_prep_radius in Ht.
  pose proof (feed_prep_control ap now cm carry conf) as Hc. unfold control in Hc.
  assert (ap_cfg (feed_prep ap now cm carry conf) = ap_cfg ap) as Hcfg by congruence.
  assert (ap_near_dwell (feed_prep ap now cm carry conf) = ap_near_dwell ap) as Hn
    by congruence.
  rewrite Hcfg, Hn in Ht.
  destruct (feed_presence _ _ _ _) as [ap' [a|]]; simpl in *.
  - apply Ht. congruence.
  - destruct (feed_predict_unlock ap' now (feed_estimate ml ap now cm).1.2
      (feed_estimate ml ap now cm).2); [by right|congruence].
Qed.

(** Any unlock finds the gate armed, by this sample or before it. *)
Lemma feed_one_unlock_armed ap now cm carry conf :
  unlocks (feed_one ml ap now cm carry conf).2 -> 0 < cfg_approach_cm (ap_cfg ap) ->
  arms (ap_cfg ap) (sample_median ap now cm carry conf) = true \/
  ap_approach_armed ap = true.
Proof.
  intros Hu Ha.
  enough (ap_approach_armed (feed_prep ap now cm carry conf) = true) as Hp
    by (apply feed_prep_armed in Hp; tauto).
  rewrite feed_one_eq in Hu.
  set (p := feed_prep ap now cm carry conf) in *.
  set (f := sample_median ap now cm carry conf) in *.
  assert (ap_cfg p = ap_cfg ap) as Hcfg.
  { pose proof (feed_prep_control ap now cm carry conf) as Hc. unfold control in Hc.
    unfold p. congruence. }
  pose proof (feed_presence_threshold p now f) as Ht.
  pose proof (feed_presence_not_predict p now f) as Hnp.
  pose proof (feed_presence_none_armed p now f) as Hna.
  pose proof (feed_presence_frame p now f) as [Hfc _].
  assert (forall q, ap_cfg q = ap_cfg ap -> approached q = true ->
                    ap_approach_armed q = true) as Happ.
  { intros q Hq. unfold approached. rewrite Hq.
    destruct (Z.leb_spec (cfg_approach_cm (ap_cfg ap)) 0); [lia|done]. }
  destruct (feed_presence ml p now f) as [ap' [a|]]; simpl in *.
  - destruct Hu as [->| ->]; [done|]. apply Happ; [done|]. by apply Ht.
  - rewrite <- Hna by done. apply Happ; [congruence|].
    by apply feed_predict_unlock in Hu as (_ & ? & _).
Qed.

(** Every radius the controller can fire at is inside [approach_cm]. *)
Lemma effective_unlock_cm_lt ap now :
  cfg_gate (ap_cfg ap) -> effective_unlock_cm ml ap now < cfg_approach_cm (ap_cfg ap).
Proof.
  intros [Hb [Hw1 Hw2] Hcl]. unfold effective_unlock_cm.
  destruct (nlos_blocked ml ap now) eqn:Hblk; [|lia].
  assert (ml = true) as Hml by (unfold nlos_blocked in Hblk; by destruct ml).
  specialize (Hcl Hml). rewrite Forall_forall in Hcl.
  unfold widen_for_class.
  match goal with |- context [nth ?i ?l 0] => set (n := i); set (tbl := l) in * end.
  destruct (Z.ltb_spec 0 (nth n tbl 0)); [|lia].
  destruct (decide (n < length tbl)%nat) as [Hn|Hn].
  - destruct (Hcl (nth n tbl 0)); [|lia]. apply list_elem_of_In. by apply nth_In.
  - rewrite nth_overflow in * by lia. lia.
Qed.

(** ** Dwell *)

(** How many of the newest consecutive samples had their median inside the
    radius in force for them. *)
Fixpoint near_run (h : list entry) : Z :=
  match h with
  | [] => 0
  | (ap, EvFeed now cm carry conf, _, _) :: h =>
      if sample_median ap now cm (u8 carry) conf <=? sample_radius ap now cm (u8 carry) conf
      then 1 + near_run h else 0
  | _ :: h => near_run h
  end.

Lemma feed_predict_near ap now e c :
  ap_near_dwell (feed_predict ml ap now e c).1 = ap_near_dwell ap.
Proof. unfold feed_predict, pred_abort. repeat (case_match; simpl; try done). Qed.

Lemma feed_presence_near ap now f :
  ap_near_dwell (feed_presence ml ap now f).1 <=
  if f <=? effective_unlock_cm ml ap now then ap_near_dwell ap + 1 else 0.
Proof. unfold feed_presence. repeat (case_match; simpl; try lia). Qed.

Lemma feed_one_near ap now cm carry conf :
  ap_near_dwell (feed_one ml ap now cm carry conf).1 <=
  if sample_median ap now cm carry conf <=? sample_radius ap now cm carry conf
  then ap_near_dwell ap + 1 else 0.
Proof.
  rewrite feed_one_eq.
  pose proof (feed_presence_near (feed_prep ap now cm carry conf) now
    (sample_median ap now cm carry conf)) as Hn.
  rewrite feed_prep_radius in Hn.
  pose proof (feed_prep_control ap now cm carry conf) as Hc. unfold control in Hc.
  assert (ap_near_dwell (feed_prep ap now cm carry conf) = ap_near_dwell ap) as Hp
    by congruence.
  rewrite Hp in Hn.
  destruct (feed_presence _ _ _ _) as [ap' [a|]]; [done|]. by rewrite feed_predict_near.
Qed.

Lemma near_reach c h ap : reach c h ap -> ap_near_dwell ap <= near_run h.
Proof.
  induction 1 as [|h ap e ap' a Hr IH Hs]; [simpl; lia|].
  pose proof (wf_near _ (wf_reach _ _ _ Hr)) as Hpos.
  destruct e as [now cm carry conf| |now cm|now| |]; simpl in *.
  - pose proof (feed_one_near ap now cm (u8 carry) conf) as Hn.
    unfold approach_feed_carry in Hs. rewrite Hs in Hn. simpl in Hn. case_match; lia.
  - simplify_eq. done.
  - simplify_eq. unfold approach_observe_departure. by case_match.
  - unfold approach_tick, pred_abort in Hs. repeat case_match; simplify_eq; simpl; lia.
  - unfold approach_gone in Hs. simplify_eq. simpl. lia.
  - simplify_eq. unfold approach_veto. by case_match.
Qed.

(** ** The window after filing *)

Lemma fresh_filed ap now cm carry conf :
  wf ap -> fresh_samples (feed_filed ap now cm carry conf) now <> [].
Proof.
  intros Hwf. apply (wf_feed_estimate ap now cm) in Hwf.
  unfold feed_filed. set (q := (feed_estimate ml ap now cm).1.1) in *.
  destruct Hwf as [_ Hms _ _ _ Hp Hring].
  enough (In (ap_wpos q) (List.filter (fresh_at (feed_file ml q now cm carry conf) now)
           (seq 0 (ap_wlen (feed_file ml q now cm carry conf))))) as Hin.
  { unfold fresh_samples. intros Hnil. apply map_eq_nil in Hnil. rewrite Hnil in Hin. done. }
  apply filter_In. split.
  - apply in_seq. simpl. unfold MEDIAN_N in *.
    destruct (Nat.ltb_spec (ap_wlen q) 5); lia.
  - unfold fresh_at, MEDIAN_STALE_MS. simpl.
    rewrite (nth_lookup_Some _ _ 0 now); [|apply list_lookup_insert_eq; lia].
    apply Z.leb_le. lia.
Qed.

Lemma sample_median_uncorrected ap now cm carry conf :
  cfg_range_correct_en (ap_cfg ap) = false -> wf ap ->
  sample_median ap now cm carry conf =
  range_median (fresh_samples (feed_filed ap now cm carry conf) now).
Proof.
  intros Hc Hwf. unfold sample_median, feed_median, channel_correct.
  assert (ap_cfg (feed_filed ap now cm carry conf) = ap_cfg ap) as ->.
  { pose proof (feed_filed_control ap now cm carry conf) as H. unfold control in H.
    congruence. }
  rewrite Hc, andb_false_r. simpl. unfold range_median_fresh.
  pose proof (fresh_filed ap now cm carry conf Hwf). by case_match.
Qed.

(** ** Predictive opens *)

Definition pred_window_ms (c : approach_cfg) : Z :=
  Z.max 0 (cfg_motor_ms c + cfg_margin_ms c) + PRED_GRACE_MS.

Lemma feed_presence_pred ap now f :
  ap_pred_open (feed_presence ml ap now f).1 = true ->
  ap_pred_open ap = true /\
  ap_pred_deadline_ms (feed_presence ml ap now f).1 = ap_pred_deadline_ms ap.
Proof. unfold feed_presence. repeat (case_match; simpl); done. Qed.

Lemma feed_predict_deadline ap now e c :
  ap_pred_open (feed_predict ml ap now e c).1 = true ->
  (ap_pred_open ap = true /\
   ap_pred_deadline_ms (feed_predict ml ap now e c).1 = ap_pred_deadline_ms ap) \/
  ap_pred_deadline_ms (feed_predict ml ap now e c).1 <= now + pred_window_ms (ap_cfg ap).
Proof.
  unfold feed_predict, pred_abort, pred_window_ms.
  repeat (case_match; simpl; auto; try done); intros; try congruence; right; simpl in *; lia.
Qed.

Lemma feed_one_deadline ap now cm carry conf :
  let r := feed_one ml ap now cm carry conf in
  ap_pred_open r.1 = true ->
  (ap_pred_open ap = true /\ ap_pred_deadline_ms r.1 = ap_pred_deadline_ms ap) \/
  ap_pred_deadline_ms r.1 <= now + pred_window_ms (ap_cfg ap).
Proof.
  intros r. unfold r. rewrite feed_one_eq.
  set (p := feed_prep ap now cm carry conf).
  pose proof (feed_prep_control ap now cm carry conf) as Hc. fold p in Hc.
  unfold control in Hc.
  assert (ap_cfg p = ap_cfg ap) as Hcfg by congruence.
  assert (ap_pred_open p = ap_pred_open ap) as Ho by congruence.
  assert (ap_pred_deadline_ms p = ap_pred_deadline_ms ap) as Hd by congruence.
  pose proof (feed_presence_pred p now (sample_median ap now cm carry conf)) as Hp.
  pose proof (feed_presence_frame p now (sample_median ap now cm carry conf)) as [Hf _].
  rewrite Hcfg in Hf. rewrite Ho, Hd in Hp.
  destruct (feed_presence _ _ _ _) as [ap' [a|]]; simpl in *; [by left; auto|].
  intros Hopen. pose proof (feed_predict_deadline _ _ _ _ Hopen) as Hpd. rewrite Hf in Hpd.
  destruct Hpd as [[Ho' Hd']|]; [|by right]. left. destruct (Hp Ho'). split; congruence.
Qed.

Definition feeds_before (T : Z) (x : entry) : Prop :=
  match x with (_, EvFeed now _ _ _, _, _) => now <= T | _ => True end.

Lemma deadline_reach c h ap T :
  usable c -> reach c h ap -> Forall (feeds_before T) h -> ap_pred_open ap = true ->
  ap_pred_deadline_ms ap <= T + pred_window_ms (ap_cfg ap).
Proof.
  intros Hc. induction 1 as [|h ap e ap' a Hr IH Hs]; [done|].
  intros HT Hopen. inversion HT as [|x l Hx HT' E]; subst. specialize (IH HT').
  pose proof (cfg_gate_reach _ _ _ Hc Hr) as Hg.
  pose proof (cfg_step ap e Hg) as Hcfg. rewrite Hs in Hcfg. simpl in Hcfg. rewrite Hcfg.
  destruct e as [now cm carry conf| |now cm|now| |]; simpl in *.
  - pose proof (feed_one_deadline ap now cm (u8 carry) conf) as Hd.
    unfold approach_feed_carry in Hs. rewrite Hs in Hd. simpl in Hd.
    destruct (Hd Hopen) as [[? ->]|]; [auto|lia].
  - simplify_eq. auto.
  - simplify_eq. unfold approach_observe_departure in *. case_match; auto.
  - unfold approach_tick, pred_abort in Hs. repeat case_match; simplify_eq; simpl in *; auto; done.
  - unfold approach_gone in Hs. simplify_eq.
  - simplify_eq. unfold approach_veto in *. case_match; simpl in *; auto; done.
Qed.

(** ** Offering an unlock *)

(** What a threshold unlock leaves behind. *)
Lemma feed_presence_leaves ap now f ap' :
  feed_presence ml ap now f = (ap', Some UNLOCK_THRESHOLD) ->
  ap_locked ap' = false /\ approached ap' = true /\
  cfg_near_dwell (ap_cfg ap') <= ap_near_dwell ap'.
Proof.
  unfold feed_presence. destruct (f <=? _); [|repeat case_match; intros; simplify_eq].
  change (approached (ap <| ap_far_dwell := 0 |> <| ap_pred_open := false |>))
    with (approached ap).
  destruct (approached ap) eqn:Ha; [|rewrite andb_false_r; intros; simplify_eq].
  simpl. destruct (ap_locked ap); simpl; [|intros; simplify_eq].
  destruct (Z.leb_spec (cfg_near_dwell (ap_cfg ap)) (ap_near_dwell ap + 1));
    intros; simplify_eq. simpl. repeat split; [exact Ha|lia].
Qed.

Lemma threshold_leaves ap now cm carry conf ap' :
  feed_one ml ap now cm carry conf = (ap', UNLOCK_THRESHOLD) ->
  ap_locked ap' = false /\ approached ap' = true /\
  cfg_near_dwell (ap_cfg ap') <= ap_near_dwell ap'.
Proof.
  rewrite feed_one_eq. destruct (feed_presence _ _ _ _) as [q [a|]] eqn:Hp.
  - intros [= -> ->]. by eapply feed_presence_leaves.
  - generalize (feed_estimate ml ap now cm). intros [[? e] cl] H.
    simpl in H. pose proof (feed_predict_unlock q now e cl) as Hu. rewrite H in Hu.
    destruct Hu as [He _]; [by right|]. discriminate He.
Qed.

(** A thrown bolt, an armed gate and a full dwell: a median inside the
    radius unlocks. *)
Lemma feed_presence_offers ap now f :
  ap_locked ap = true -> approached ap = true ->
  cfg_near_dwell (ap_cfg ap) <= ap_near_dwell ap + 1 ->
  f <= effective_unlock_cm ml ap now ->
  (feed_presence ml ap now f).2 = Some UNLOCK_THRESHOLD.
Proof.
  intros Hl Ha Hn Hm. unfold feed_presence.
  destruct (Z.leb_spec f (effective_unlock_cm ml ap now)); [|lia].
  change (approached (ap <| ap_far_dwell := 0 |> <| ap_pred_open := false |>))
    with (approached ap). simpl. rewrite Hl, Ha. simpl.
  destruct (Z.leb_spec (cfg_near_dwell (ap_cfg ap)) (ap_near_dwell ap + 1)); [done|lia].
Qed.

Lemma feed_one_reoffer ap now cm carry conf :
  ap_locked ap = true -> approached ap = true ->
  cfg_near_dwell (ap_cfg ap) <= ap_near_dwell ap + 1 ->
  sample_median ap now cm carry conf <= sample_radius ap now cm carry conf ->
  (feed_one ml ap now cm carry conf).2 = UNLOCK_THRESHOLD.
Proof.
  intros Hl Ha Hn Hm. rewrite feed_one_eq. rewrite <- feed_prep_radius in Hm.
  pose proof (feed_prep_control ap now cm carry conf) as Hc. unfold control in Hc.
  pose proof (feed_prep_armed ap now cm carry conf) as Harm.
  generalize dependent (feed_prep ap now cm carry conf). intros p Hm Hc Harm.
  assert (ap_cfg p = ap_cfg ap) as Hcfg by congruence.
  assert ((feed_presence ml p now (sample_median ap now cm carry conf)).2
          = Some UNLOCK_THRESHOLD) as Ho.
  { apply feed_presence_offers; [congruence| | |exact Hm].
    - unfold approached in *. rewrite Hcfg. apply orb_true_iff in Ha as [->|Ha]; [reflexivity|].
      apply orb_true_iff. right. apply Harm. by left.
    - assert (ap_near_dwell p = ap_near_dwell ap) as -> by congruence. by rewrite Hcfg. }
  destruct (feed_presence _ _ _ _) as [q o]. simpl in Ho. by subst o.
Qed.

(** Running a list of events, oldest first. *)
Definition exec_from (s : list entry * approach) (evs : list event) : list entry * approach :=
  fold_left (fun s e => ((s.2, e, (step s.2 e).2, (step s.2 e).1) :: s.1, (step s.2 e).1))
    evs s.

Definition exec (c : option approach_cfg) (evs : list event) : list entry * approach :=
  exec_from ([], approach_init ml c) evs.

Lemma reach_exec_from c evs s :
  reach c s.1 s.2 -> reach c (exec_from s evs).1 (exec_from s evs).2.
Proof.
  revert s. induction evs as [|e evs IH]; intros [h ap] H; cbn [exec_from fold_left]; [done|].
  apply IH. cbn [fst snd] in *. apply reach_step; [done|]. by destruct (step ap e).
Qed.

Lemma reach_exec c evs : reach c (exec c evs).1 (exec c evs).2.
Proof. apply reach_exec_from. constructor. Qed.

End Build.
