(* ===== verification/ApproachProps.v ===== *)
(** * Correctness of the approach controller

    The properties of whole runs of [Approach] (trajectory gate, dwell,
    majority, supervision of predictive opens, departure, veto), stated on
    [reach] and [step] of [ApproachFacts], and the irrelevance of the channel
    labels in a build without the classifier. *)

From Stdlib Require Import ZArith Lia.
From stdpp Require Import base list numbers.
From S2P Require Import Prelude MlRange Approach ApproachFacts.

Local Open Scope Z_scope.

Section Build.
  Context (ml : bool).

(** C2: the trajectory gate.  In every run of a usable configuration, a step
    that unlocks, on either path, comes after evidence of an approach (a
    median at or beyond approach_cm, a new session, a range beyond
    relock_cm) that nothing has cancelled since. *)
Theorem unlock_needs_approach c h ap e ap' a :
  usable c -> reach ml c h ap -> step ml ap e = (ap', a) -> unlocks a ->
  armed_since ml ((ap, e, a, ap') :: h).
Proof.
  intros Hc Hr Hs Hu. pose proof (cfg_pos_reach _ _ _ _ Hc Hr) as Hpos.
  destruct e as [now cm carry conf| |now cm|now| |]; simpl in Hs.
  - pose proof (feed_one_unlock_armed ml ap now cm (u8 carry) conf) as H.
    unfold approach_feed_carry in Hs. rewrite Hs in H.
    split; [destruct Hu; subst; tauto|].
    destruct (H Hu Hpos); [by left|right]. by eapply armed_reach.
  - destruct Hu; simplify_eq.
  - destruct Hu; simplify_eq.
  - exfalso. unfold approach_tick, pred_abort in Hs.
    destruct Hu; repeat case_match; simplify_eq.
  - exfalso. unfold approach_gone in Hs. destruct Hu; case_match; simplify_eq.
  - destruct Hu; simplify_eq.
Qed.


(** A threshold unlock needs its dwell.  The sample that opens is the
    last of at least near_dwell consecutive samples whose medians were each
    inside the unlock radius in force for them. *)
Theorem threshold_unlock_dwell c h ap now cm carry conf ap' :
  reach ml c h ap ->
  step ml ap (EvFeed now cm carry conf) = (ap', UNLOCK_THRESHOLD) ->
  cfg_near_dwell (ap_cfg ap) <=
  near_run ml ((ap, EvFeed now cm carry conf, UNLOCK_THRESHOLD, ap') :: h).
Proof.
  intros Hr Hs. pose proof (near_reach _ _ _ _ Hr).
  simpl in Hs. unfold approach_feed_carry in Hs.
  pose proof (feed_one_threshold ml ap now cm (u8 carry) conf) as Ht. rewrite Hs in Ht.
  destruct (Ht eq_refl) as (Hm & _ & ?). simpl.
  destruct (Z.leb_spec (sample_median ml ap now cm (u8 carry) conf)
              (sample_radius ml ap now cm (u8 carry) conf)); lia.
Qed.

(** No outlier opens the bolt.  Without range correction, a threshold
    unlock has a strict majority of the samples young enough to vote inside
    the unlock radius in force. *)
Theorem threshold_unlock_majority c h ap now cm carry conf ap' :
  reach ml c h ap -> cfg_range_correct_en (ap_cfg ap) = false ->
  step ml ap (EvFeed now cm carry conf) = (ap', UNLOCK_THRESHOLD) ->
  let voters := fresh_samples (feed_filed ml ap now cm (u8 carry) conf) now in
  (length voters < 2 * count_le (sample_radius ml ap now cm (u8 carry) conf) voters)%nat.
Proof.
  intros Hr Hc Hs voters. simpl in Hs. unfold approach_feed_carry in Hs.
  pose proof (feed_one_threshold ml ap now cm (u8 carry) conf) as Ht. rewrite Hs in Ht.
  destruct (Ht eq_refl) as (Hm & _ & _). apply wf_reach in Hr.
  rewrite sample_median_uncorrected in Hm by done.
  apply range_median_le_majority; [|done]. by apply fresh_filed.
Qed.

(** A predictive open is always resolved.  If the last sample came no
    later than T, a tick from T + motor_ms + margin_ms + 1800 ms on leaves no
    predictive open behind: it is handed to the presence rules when the
    phone arrived, and relocked with RELOCK_ABORT when it did not. *)
Theorem predictive_open_resolved c h ap T now :
  usable c -> reach ml c h ap -> Forall (feeds_before T) h ->
  T + pred_window_ms (ap_cfg ap) <= now ->
  let r := step ml ap (EvTick now) in
  ap_pred_open r.1 = false /\
  (ap_pred_open ap = true -> pred_arrived ml ap now = false ->
   r.2 = RELOCK_ABORT /\ ap_locked r.1 = true) /\
  (ap_pred_open ap = true -> pred_arrived ml ap now = true ->
   r.2 = HOLD /\ ap_locked r.1 = false).
Proof.
  intros Hc Hr HT Hnow r. pose proof (deadline_reach _ _ _ _ _ Hc Hr HT) as Hd.
  pose proof (wf_pred _ (wf_reach _ _ _ _ Hr)) as Hl.
  unfold r. simpl. unfold approach_tick.
  destruct (ap_pred_open ap) eqn:Ho; simpl.
  - specialize (Hd eq_refl).
    destruct (Z.leb_spec (ap_pred_deadline_ms ap) now); [|lia].
    destruct (pred_arrived ml ap now); simpl.
    { repeat split; try done. by apply Hl. }
    unfold pred_abort. case_match; simpl; repeat split; done.
  - repeat split; try done. repeat (case_match; simpl; try done).
Qed.

(** The bolt mirror is exact.  In every run, apart from the caller's
    veto, an unlock is returned only with the bolt thrown and leaves it
    drawn, a relock only with the bolt drawn and leaves it thrown, and HOLD
    moves nothing; the veto leaves the bolt thrown. *)
Theorem bolt_mirror c h ap e :
  reach ml c h ap ->
  (e <> EvVeto ->
   bolt_effect (step ml ap e).2 (ap_locked ap) (ap_locked (step ml ap e).1)) /\
  (e = EvVeto -> (step ml ap e).2 = HOLD /\ ap_locked (step ml ap e).1 = true).
Proof.
  intros Hr. apply wf_reach in Hr. split; [by apply step_bolt|].
  intros ->. simpl. split; [done|]. unfold approach_veto. by case_match.
Qed.

(** Silence inside the radius is not a departure.  With no predictive
    open to supervise, a tick at any time after a last sample inside the
    unlock radius in force changes nothing, however long the silence. *)
Theorem tick_inside_holds ap now :
  ap_pred_open ap = false -> ap_last_cm ap <= effective_unlock_cm ml ap now ->
  step ml ap (EvTick now) = (ap, HOLD).
Proof.
  intros Hp Hl. simpl. unfold approach_tick. rewrite Hp. simpl.
  destruct (Z.ltb_spec (effective_unlock_cm ml ap now) (ap_last_cm ap)); [lia|].
  rewrite !andb_false_r. done.
Qed.

(** Silence beyond the departure radius is a departure.  In every run
    of a usable configuration with the silence rule on, a drawn bolt whose
    last sample was at or beyond relock_cm is thrown by the first tick at
    least far_silence_ms later, and the next unlock has to be approached
    for again. *)
Theorem tick_departed_relocks c h ap now :
  usable c -> reach ml c h ap ->
  ap_locked ap = false -> ap_pred_open ap = false -> ap_last_feed_ms ap <> 0 ->
  cfg_relock_cm (ap_cfg ap) <= ap_last_cm ap ->
  0 < cfg_far_silence_ms (ap_cfg ap) <= now - ap_last_feed_ms ap ->
  let r := step ml ap (EvTick now) in
  r.2 = RELOCK_DEPART /\ ap_locked r.1 = true /\ ap_approach_armed r.1 = false.
Proof.
  intros Hc Hr Hl Hp Hf Hd Hs r.
  pose proof (cfg_gate_reach _ _ _ _ Hc Hr) as Hg.
  pose proof (effective_unlock_cm_lt ml ap now Hg) as He. destruct Hg as [Hb _ _].
  unfold r. simpl. unfold approach_tick, silence_need_ms. rewrite Hp, Hl. simpl.
  assert ((0 <? cfg_far_silence_ms (ap_cfg ap)) = true) as -> by lia.
  assert ((ap_last_feed_ms ap =? 0) = false) as -> by lia.
  assert ((effective_unlock_cm ml ap now <? ap_last_cm ap) = true) as -> by lia.
  assert ((ap_last_cm ap <? cfg_relock_cm (ap_cfg ap)) = false) as -> by lia.
  cbn [andb].
  assert ((cfg_far_silence_ms (ap_cfg ap) <=? now - ap_last_feed_ms ap) = true) as -> by lia.
  simpl. assert ((cfg_relock_cm (ap_cfg ap) <=? ap_last_cm ap) = true) as -> by lia. done.
Qed.

(** A vetoed unlock is offered again.  When the caller vetoes a
    threshold unlock, the next sample whose median is inside the radius in
    force offers it again at once: the veto costs neither dwell nor the
    approach already earned. *)
Theorem veto_reoffers c h ap now cm carry conf ap1 now2 cm2 carry2 conf2 :
  usable c -> reach ml c h ap ->
  step ml ap (EvFeed now cm carry conf) = (ap1, UNLOCK_THRESHOLD) ->
  let ap2 := approach_veto ap1 in
  sample_median ml ap2 now2 cm2 (u8 carry2) conf2 <=
    sample_radius ml ap2 now2 cm2 (u8 carry2) conf2 ->
  (step ml ap2 (EvFeed now2 cm2 carry2 conf2)).2 = UNLOCK_THRESHOLD.
Proof.
  intros Hc Hr Hs ap2 Hm.
  pose proof (cfg_step ml ap (EvFeed now cm carry conf) (cfg_gate_reach _ _ _ _ Hc Hr)) as Hcfg.
  rewrite Hs in Hcfg. simpl in Hcfg.
  destruct (threshold_leaves ml ap now cm (u8 carry) conf ap1 Hs) as (Hl & Ha & Hn).
  simpl. unfold approach_feed_carry. apply feed_one_reoffer; [..|done].
  - unfold ap2, approach_veto. by rewrite Hl.
  - unfold ap2, approach_veto. rewrite Hl. exact Ha.
  - unfold ap2, approach_veto. rewrite Hl. simpl. lia.
Qed.

End Build.

(** ** Witnesses: a walk up to the door and a walk past it *)

Definition quiet (now cm : Z) : event := EvFeed now cm 0 f32_zero.

(** Four samples 192 ms apart, ending inside the unlock radius. *)
Definition walk_up : list event := [quiet 1000 200; quiet 1192 90; quiet 1384 80].

Definition at_door : approach := (exec false None walk_up).2.
Definition at_door_log : list entry := (exec false None walk_up).1.

(** The default configuration satisfies the side conditions. *)
Lemma defaults_usable : usable None.
Proof. vm_compute. repeat split; discriminate. Defined.

Lemma unlock_needs_approach_witness :
  unlocks (step false at_door (quiet 1576 70)).2 /\
  armed_since false
    ((at_door, quiet 1576 70, UNLOCK_THRESHOLD, (step false at_door (quiet 1576 70)).1)
       :: at_door_log).
Proof.
  split; [right; vm_compute; reflexivity|].
  apply (unlock_needs_approach false None);
    [exact defaults_usable|apply reach_exec|vm_compute; reflexivity|right; reflexivity].
Defined.


Lemma threshold_unlock_dwell_witness :
  cfg_near_dwell (ap_cfg at_door) <=
  near_run false ((at_door, quiet 1576 70, UNLOCK_THRESHOLD,
                   (step false at_door (quiet 1576 70)).1) :: at_door_log).
Proof.
  apply (threshold_unlock_dwell false None); [apply reach_exec|vm_compute; reflexivity].
Defined.

Lemma threshold_unlock_majority_witness :
  let voters := fresh_samples (feed_filed false at_door 1576 70 (u8 0) f32_zero) 1576 in
  (length voters < 2 * count_le (sample_radius false at_door 1576 70 (u8 0) f32_zero) voters)%nat.
Proof.
  eapply (threshold_unlock_majority false None);
    [apply reach_exec|reflexivity|vm_compute; reflexivity].
Defined.

(** A brisk approach that opens predictively, then goes silent. *)
Definition brisk : list event :=
  map (fun k => quiet (1000 + 192 * k) (600 - 30 * k)) (map Z.of_nat (seq 0 15)).

Definition predicted : approach := (exec false None brisk).2.

Lemma predictive_open_resolved_witness :
  ap_pred_open predicted = true /\
  let r := step false predicted (EvTick (5000 + 2550)) in
  ap_pred_open r.1 = false /\ r.2 = RELOCK_ABORT.
Proof.
  split; [vm_compute; reflexivity|].
  destruct (predictive_open_resolved false None (exec false None brisk).1 predicted 5000
              (5000 + 2550)) as (Hp & Ha & _).
  - exact defaults_usable.
  - apply reach_exec.
  - vm_compute. repeat constructor; discriminate.
  - vm_compute. discriminate.
  - split; [exact Hp|]. apply Ha; vm_compute; reflexivity.
Defined.

Lemma bolt_mirror_witness :
  (step false at_door (quiet 1576 70)).2 = UNLOCK_THRESHOLD /\
  bolt_effect (step false at_door (quiet 1576 70)).2
    (ap_locked at_door) (ap_locked (step false at_door (quiet 1576 70)).1).
Proof.
  split; [vm_compute; reflexivity|].
  apply (bolt_mirror false None at_door_log at_door (quiet 1576 70));
    [apply reach_exec|discriminate].
Defined.

Definition opened : approach := (exec false None (walk_up ++ [quiet 1576 70])).2.

Lemma tick_inside_holds_witness : step false opened (EvTick 999999) = (opened, HOLD).
Proof. apply (tick_inside_holds false); vm_compute; [reflexivity|discriminate]. Defined.

(** Opened, then one sample beyond the departure radius. *)
Definition walked_off : list event := walk_up ++ [quiet 1576 70; quiet 1768 400].

Lemma tick_departed_relocks_witness :
  (step false (exec false None walked_off).2 (EvTick 2600)).2 = RELOCK_DEPART.
Proof.
  refine (proj1 (tick_departed_relocks false None (exec false None walked_off).1
            (exec false None walked_off).2 2600 defaults_usable
            (reach_exec false None walked_off) _ _ _ _ _));
    vm_compute; first [reflexivity | discriminate | split; [reflexivity|discriminate]].
Defined.

Lemma veto_reoffers_witness :
  (step false (approach_veto opened) (quiet 1768 75)).2 = UNLOCK_THRESHOLD.
Proof.
  apply (veto_reoffers false None at_door_log at_door 1576 70 0 f32_zero opened 1768 75 0 f32_zero);
    [exact defaults_usable|apply reach_exec|vm_compute; reflexivity|vm_compute; discriminate].
Defined.

(** ** A build without the classifier *)

Section NoClassifier.

(** The state without the labels of its samples. *)
Definition erase (ap : approach) : approach := ap <| ap_ch_win := [] |>.

(** States that differ in the labels alone. *)
Definition unlabelled (a b : approach) : Prop := erase a = erase b.

#[local] Instance unlabelled_equiv : Equivalence unlabelled.
Proof.
  split; unfold unlabelled; [intros ?; reflexivity|intros ?? ->; reflexivity|].
  intros ??? -> ->. reflexivity.
Qed.

(** Events that agree on all but the channel verdict. *)
Definition same_reading (e e' : event) : Prop :=
  match e, e' with
  | EvFeed now cm _ _, EvFeed now' cm' _ _ => now = now' /\ cm = cm'
  | _, _ => e = e'
  end.

Lemma kf_predict_erase ap now : kf_predict (erase ap) now = erase (kf_predict ap now).
Proof. by destruct ap. Qed.

Lemma kf_correct_erase ap y : kf_correct (erase ap) y = erase (kf_correct ap y).
Proof.
  unfold kf_correct. change (ap_accepted (erase ap)) with (ap_accepted ap). simpl.
  by destruct (ap_accepted ap <? KF_MIN_SAMPLES).
Qed.

Lemma kf_update_erase ap now cm :
  kf_update (erase ap) now cm = (erase (kf_update ap now cm).1, (kf_update ap now cm).2).
Proof.
  unfold kf_update. rewrite kf_predict_erase.
  change (ap_kf_init (erase ap)) with (ap_kf_init ap).
  change (ap_last_ms (erase ap)) with (ap_last_ms ap).
  destruct (_ || _); [done|]. generalize (kf_predict ap now). intros q.
  change (ap_d (erase q)) with (ap_d q).
  change (ap_rejects (erase q)) with (ap_rejects q).
  cbv zeta. rewrite !kf_correct_erase. cbn [fst snd].
  destruct (fgt _ _); [|cbn [fst snd]; reflexivity].
  change (ap_rejects ((erase q) <| ap_rejects := ap_rejects q + 1 |>))
    with (ap_rejects q + 1).
  change (ap_rejects (q <| ap_rejects := ap_rejects q + 1 |>)) with (ap_rejects q + 1).
  by destruct (KF_REJECT_MAX <=? ap_rejects q + 1).
Qed.

Lemma feed_estimate_erase ap now cm :
  feed_estimate false (erase ap) now cm =
  (erase (feed_estimate false ap now cm).1.1, (feed_estimate false ap now cm).1.2,
   (feed_estimate false ap now cm).2).
Proof.
  unfold feed_estimate. cbn [channel_correct andb]. rewrite kf_update_erase.
  destruct (kf_update ap now cm) as [q e]. unfold effective_unlock_cm, nlos_blocked.
  destruct q. simpl. by case_match.
Qed.

Lemma feed_file_erase ap now cm k k' f f' :
  feed_file false (erase ap) now cm k' f' = erase (feed_file false ap now cm k f).
Proof. by destruct ap. Qed.

Lemma feed_presence_erase ap now m :
  feed_presence false (erase ap) now m =
  (erase (feed_presence false ap now m).1, (feed_presence false ap now m).2).
Proof.
  destruct ap. unfold feed_presence, effective_unlock_cm, approached, erase. simpl.
  repeat (case_match; simpl; try done).
Qed.

Lemma pred_abort_erase ap :
  pred_abort (erase ap) = (erase (pred_abort ap).1, (pred_abort ap).2).
Proof. destruct ap. unfold pred_abort, erase. simpl. by case_match. Qed.

Lemma feed_predict_erase ap now e c :
  feed_predict false (erase ap) now e c =
  (erase (feed_predict false ap now e c).1, (feed_predict false ap now e c).2).
Proof.
  pose proof (pred_abort_erase ap) as Ha.
  assert (pred_arrived false (erase ap) now = pred_arrived false ap now) as Hr by done.
  unfold feed_predict, approached in *. rewrite Hr, Ha.
  destruct (pred_abort ap). destruct ap. simpl.
  repeat (case_match; simpl; try done).
Qed.

(** Erasing the labels before or after a sample is the same, whatever the
    channel verdict filed with it. *)
Lemma feed_one_erase ap now cm k k' f f' :
  feed_one false (erase ap) now cm k' f' =
  (erase (feed_one false ap now cm k f).1, (feed_one false ap now cm k f).2).
Proof.
  unfold feed_one. rewrite feed_estimate_erase.
  destruct (feed_estimate false ap now cm) as [[q e] c]. simpl.
  rewrite (feed_file_erase q now cm k k' f f').
  set (q1 := feed_file false q now cm k f).
  assert (feed_median false (erase q1) now = feed_median false q1 now) as -> by done.
  set (m := feed_median false q1 now).
  assert (feed_arm (erase q1) m = erase (feed_arm q1 m)) as ->.
  { generalize m, q1. intros z []. unfold feed_arm, erase. simpl. by case_match. }
  rewrite feed_presence_erase.
  destruct (feed_presence false (feed_arm q1 m) now m) as [q2 [a|]]; simpl; [done|].
  apply feed_predict_erase.
Qed.

Lemma step_erase ap e e' :
  same_reading e e' ->
  unlabelled (step false (erase ap) e').1 (step false ap e).1 /\
  (step false (erase ap) e').2 = (step false ap e).2.
Proof.
  intros He.
  assert (e = e' \/ exists now cm k k' f f', e = EvFeed now cm k f /\ e' = EvFeed now cm k' f')
    as [<-|(now & cm & k & k' & f & f' & -> & ->)].
  { destruct e, e'; simpl in He; auto. destruct He as [<- <-]. eauto 10. }
  2: { simpl. unfold approach_feed_carry. by rewrite (feed_one_erase ap now cm (u8 k) _ f). }
  destruct e as [now cm k f| |now cm|now| |]; cbn [step].
  - unfold approach_feed_carry. by rewrite (feed_one_erase ap now cm (u8 k) _ f).
  - done.
  - unfold approach_observe_departure. simpl. by case_match.
  - assert (pred_arrived false (erase ap) now = pred_arrived false ap now) as Hr by done.
    unfold approach_tick. rewrite Hr, pred_abort_erase. destruct (pred_abort ap).
    unfold silence_need_ms, effective_unlock_cm, nlos_blocked. destruct ap. simpl.
    repeat (case_match; simpl in *; try done; try congruence).
  - done.
  - unfold approach_veto. simpl. by destruct (ap_locked ap).
Qed.

#[local] Instance step_proper :
  Proper (unlabelled ==> same_reading ==> (fun r r' => unlabelled r.1 r'.1 /\ r.2 = r'.2))
    (step false).
Proof.
  intros a b Hab e e' He.
  assert (same_reading e' e') as Hrefl by (by destruct e').
  destruct (step_erase a e e' He) as [H1 H1'], (step_erase b e' e' Hrefl) as [H2 H2'].
  unfold unlabelled in Hab. rewrite Hab in H1, H1'.
  split; [by etrans; [symmetry; exact H1|]|congruence].
Qed.

(** The actions of a run, newest first. *)
Definition actions (h : list entry) : list action := map (fun '(_, _, a, _) => a) h.

(** Without the classifier the channel verdict decides nothing.  Two
    runs fed the same distances at the same times, with arbitrary carry
    classes and confidences, return the same actions and end in the same
    state up to the labels. *)
Theorem channel_verdict_irrelevant c evs evs' :
  Forall2 same_reading evs evs' ->
  actions (exec false c evs).1 = actions (exec false c evs').1 /\
  unlabelled (exec false c evs).2 (exec false c evs').2.
Proof.
  unfold exec.
  assert (forall s s', actions s.1 = actions s'.1 -> unlabelled s.2 s'.2 ->
            Forall2 same_reading evs evs' ->
            actions (exec_from false s evs).1 = actions (exec_from false s' evs').1 /\
            unlabelled (exec_from false s evs).2 (exec_from false s' evs').2) as Hgen;
    [|by apply Hgen].
  intros s s' Ha Hu H. revert s s' Ha Hu.
  induction H as [|e e' evs evs' He _ IH]; intros s s' Ha Hu; [done|].
  destruct (step_proper _ _ Hu _ _ He) as [Hs1 Hs2].
  apply IH; [|exact Hs1]. exact (f_equal2 cons Hs2 Ha).
Qed.

Lemma channel_verdict_irrelevant_witness :
  actions (exec false None walk_up).1 =
  actions (exec false None [EvFeed 1000 200 3 f32_2_61; EvFeed 1192 90 2 f32_2_61;
                            EvFeed 1384 80 1 f32_2_61]).1.
Proof.
  apply (channel_verdict_irrelevant None walk_up). repeat constructor.
Defined.

End NoClassifier.
