(* ===== verification/Fusion.v ===== *)
(** * Two-anchor fusion

    Models [modules/ultrawidelock_anchor/src/ultrawidelock_fusion.c]: the
    side of the door from a pair of distances, the triangle gate and the two
    permissions read out of a verdict.  A pointer argument that may be NULL
    is an [option]. *)

From Stdlib Require Import ZArith Lia Bool.
From stdpp Require Import base list numbers.
From S2P Require Import Prelude.

Local Open Scope Z_scope.

(** [enum ultrawidelock_side]. *)
Inductive side := SIDE_UNKNOWN | SIDE_INSIDE | SIDE_OUTSIDE.

#[export] Instance side_eq_dec : EqDecision side.
Proof. solve_decision. Defined.

(** [struct ultrawidelock_fusion_cfg]. *)
Record fusion_cfg := mk_fusion_cfg {
  baseline_mm : Z;
  tol_mm : Z;
  deadband_mm : Z;
  boundary_bias_mm : Z;
}.

(** [struct ultrawidelock_fusion_verdict]. *)
Record fusion_verdict := mk_fusion_verdict {
  v_side : side;
  geometry_ok : bool;
  delta_mm : Z;
}.

#[export] Instance fusion_verdict_eq_dec : EqDecision fusion_verdict.
Proof. solve_decision. Defined.

(** The verdict of a pair that was not judged. *)
Definition no_verdict : fusion_verdict := mk_fusion_verdict SIDE_UNKNOWN false 0.

Definition fusion_eval (cfg : option fusion_cfg) (d_inside_mm d_outside_mm : Z)
    : fusion_verdict :=
  match cfg with
  | None => no_verdict
  | Some cfg =>
      if (baseline_mm cfg <=? 0) || (d_inside_mm <? 0) || (d_outside_mm <? 0)
      then no_verdict
      else
        let diff := d_inside_mm - d_outside_mm in
        let sum := d_inside_mm + d_outside_mm in
        let adiff := if diff <? 0 then - diff else diff in
        if sum <? baseline_mm cfg - tol_mm cfg
        then mk_fusion_verdict SIDE_UNKNOWN false diff
        else if baseline_mm cfg + tol_mm cfg <? adiff
        then mk_fusion_verdict SIDE_UNKNOWN false diff
        else
          let eff := diff + boundary_bias_mm cfg in
          let aeff := if eff <? 0 then - eff else eff in
          mk_fusion_verdict
            (if aeff <=? deadband_mm cfg then SIDE_UNKNOWN
             else if eff <? 0 then SIDE_INSIDE else SIDE_OUTSIDE)
            true diff
  end.

Definition fusion_may_predict (v : option fusion_verdict) : bool :=
  match v with
  | None => true
  | Some v => geometry_ok v && negb (bool_decide (v_side v = SIDE_OUTSIDE))
  end.

Definition fusion_may_passive_unlock (v : option fusion_verdict) : bool :=
  match v with
  | None => true
  | Some v => geometry_ok v && negb (bool_decide (v_side v = SIDE_INSIDE))
  end.

(** ** Properties *)

Definition opposite (s : side) : side :=
  match s with
  | SIDE_UNKNOWN => SIDE_UNKNOWN
  | SIDE_INSIDE => SIDE_OUTSIDE
  | SIDE_OUTSIDE => SIDE_INSIDE
  end.

(** A pair passes the triangle gate exactly when it closes on the baseline
    within the tolerance. *)
Lemma fusion_eval_geometry cfg i o :
  geometry_ok (fusion_eval (Some cfg) i o) = true <->
  0 < baseline_mm cfg /\ 0 <= i /\ 0 <= o /\
  baseline_mm cfg - tol_mm cfg <= i + o /\ Z.abs (i - o) <= baseline_mm cfg + tol_mm cfg.
Proof. unfold fusion_eval. zcmp_cases; split; intros; try done; lia. Qed.

(** The side of a pair that passed: the sign of the shifted difference,
    outside the dead band. *)
Lemma fusion_eval_side cfg i o :
  geometry_ok (fusion_eval (Some cfg) i o) = true ->
  let eff := i - o + boundary_bias_mm cfg in
  v_side (fusion_eval (Some cfg) i o) =
  if Z.abs eff <=? deadband_mm cfg then SIDE_UNKNOWN
  else if eff <? 0 then SIDE_INSIDE else SIDE_OUTSIDE.
Proof. unfold fusion_eval. zcmp_cases; intros; try done; lia. Qed.

(** A rejected pair names no side. *)
Lemma fusion_eval_rejected cfg i o :
  geometry_ok (fusion_eval cfg i o) = false -> v_side (fusion_eval cfg i o) = SIDE_UNKNOWN.
Proof. destruct cfg; [|done]. unfold fusion_eval. repeat case_match; done. Qed.

(** The triangle gate never rejects a phone.  For true distances of any
    position (they satisfy the triangle inequality with the baseline), two
    measured distances whose errors add up to at most the tolerance always
    pass the gate. *)
Theorem triangle_gate_complete cfg ti to_ mi mo :
  0 < baseline_mm cfg -> 0 <= mi -> 0 <= mo ->
  Z.abs (ti - to_) <= baseline_mm cfg <= ti + to_ ->
  Z.abs (mi - ti) + Z.abs (mo - to_) <= tol_mm cfg ->
  geometry_ok (fusion_eval (Some cfg) mi mo) = true.
Proof. intros. apply fusion_eval_geometry. lia. Qed.

Lemma triangle_gate_complete_witness :
  geometry_ok (fusion_eval (Some (mk_fusion_cfg 1000 300 200 0)) 2100 1250) = true.
Proof. apply (triangle_gate_complete (mk_fusion_cfg 1000 300 200 0) 2000 1200 2100 1250);
  simpl; lia. Defined.

(** The verdict is about the door and not about the wiring.  With the
    boundary on the bisector, exchanging the two distances gives the
    opposite side, the opposite difference and the same triangle answer;
    the predictive gate of one is the passive gate of the other. *)
Theorem fusion_mirror cfg i o :
  boundary_bias_mm cfg = 0 -> 0 <= deadband_mm cfg ->
  let v := fusion_eval (Some cfg) i o in
  let v' := fusion_eval (Some cfg) o i in
  v_side v' = opposite (v_side v) /\ geometry_ok v' = geometry_ok v /\
  delta_mm v' = - delta_mm v /\
  fusion_may_predict (Some v') = fusion_may_passive_unlock (Some v).
Proof.
  intros Hb Hd. cbv zeta. unfold fusion_eval, fusion_may_predict, fusion_may_passive_unlock.
  rewrite Hb. zcmp_cases; repeat split; try done; lia.
Qed.

Lemma fusion_mirror_witness :
  v_side (fusion_eval (Some (mk_fusion_cfg 1000 300 200 0)) 900 1800) = SIDE_INSIDE /\
  v_side (fusion_eval (Some (mk_fusion_cfg 1000 300 200 0)) 1800 900) = SIDE_OUTSIDE.
Proof.
  split; [reflexivity|].
  exact (proj1 (fusion_mirror (mk_fusion_cfg 1000 300 200 0) 900 1800 eq_refl ltac:(simpl; lia))).
Defined.
