(* ===== verification/Satellite.v ===== *)
(** * Satellite reports

    Models [modules/ultrawidelock_anchor/src/ultrawidelock_satellite.c]: the
    ring of this node's own measurements, the freshness gate around a second
    anchor's report, the exact-block pairing and the set of up to three
    satellites.  A pointer argument that may be NULL is an [option]. *)

From Stdlib Require Import ZArith Lia Bool.
From stdpp Require Import base list numbers.
From S2P Require Import Prelude Fusion.

Local Open Scope Z_scope.

Definition SATELLITE_STALE_MS_DEFAULT : Z := 1500.
Definition SATELLITE_RING : nat := 8.
Definition SATELLITE_MAX_ROLES : nat := 3.

(** [struct ultrawidelock_satellite_sample]. *)
Record sample := mk_sample { sm_block : Z; sm_mm : Z; sm_ms : Z; sm_have : bool }.

(** [struct ultrawidelock_satellite]. *)
Record satellite := mk_satellite {
  sat_cfg : fusion_cfg;
  sat_last_ms : Z;
  sat_peer_mm : Z;
  sat_peer_block : Z;
  sat_ring : list sample;
  sat_ring_next : nat;
  sat_stale_ms : Z;
  sat_self_is_inside : bool;
  sat_have : bool;
}.

#[export] Instance satellite_eta : Eta satellite := fun s =>
  mk_satellite (sat_cfg s) (sat_last_ms s) (sat_peer_mm s) (sat_peer_block s)
    (sat_ring s) (sat_ring_next s) (sat_stale_ms s) (sat_self_is_inside s) (sat_have s).

(** Initialisation of a struct whose [boundary_bias_mm] held [bias]: without
    a configuration that one field is not written. *)
Definition satellite_init (bias : Z) (cfg : option fusion_cfg) (stale_ms : Z)
    (self_is_inside : bool) : satellite := {|
  sat_cfg := default (mk_fusion_cfg 0 0 0 bias) cfg;
  sat_last_ms := 0;
  sat_peer_mm := 0;
  sat_peer_block := 0;
  sat_ring := replicate SATELLITE_RING (mk_sample 0 0 0 false);
  sat_ring_next := 0;
  sat_stale_ms := if stale_ms =? 0 then SATELLITE_STALE_MS_DEFAULT else stale_ms;
  sat_self_is_inside := self_is_inside;
  sat_have := false;
|}.

Definition satellite_observe (s : satellite) (self_mm self_block now_ms : Z) : satellite :=
  if self_mm <? 0 then s
  else s <| sat_ring := <[sat_ring_next s := mk_sample self_block self_mm now_ms true]>
                          (sat_ring s) |>
         <| sat_ring_next := ((sat_ring_next s + 1) mod SATELLITE_RING)%nat |>.

(** Does a ring entry hold [block]? *)
Definition holds (block : Z) (e : sample) : bool := sm_have e && (sm_block e =? block).

Definition ring_find (s : satellite) (block now_ms : Z) : option sample :=
  match List.find (holds block) (sat_ring s) with
  | None => None
  | Some e =>
      let age := now_ms - sm_ms e in
      if (age <? 0) || (sat_stale_ms s <? age) then None else Some e
  end.

Definition satellite_report (s : satellite) (peer_mm peer_block now_ms : Z) : satellite :=
  if peer_mm <? 0 then s
  else s <| sat_peer_mm := peer_mm |>
         <| sat_peer_block := peer_block |>
         <| sat_last_ms := now_ms |>
         <| sat_have := true |>.

Definition report_fresh (s : satellite) (now_ms : Z) : bool :=
  if negb (sat_have s) then false
  else
    let age := now_ms - sat_last_ms s in
    if age <? 0 then false else age <=? sat_stale_ms s.

Definition fresh (s : satellite) (now_ms : Z) : bool :=
  if baseline_mm (sat_cfg s) <=? 0 then false else report_fresh s now_ms.

Definition satellite_pair (s : satellite) (now_ms : Z) : option (Z * Z * Z) :=
  if negb (report_fresh s now_ms) then None
  else match ring_find s (sat_peer_block s) now_ms with
       | None => None
       | Some mine => Some (sm_mm mine, sat_peer_mm s, sat_peer_block s)
       end.

Definition satellite_verdict (s : satellite) (now_ms : Z) : fusion_verdict :=
  if negb (fresh s now_ms) then no_verdict
  else match ring_find s (sat_peer_block s) now_ms with
       | None => no_verdict
       | Some mine =>
           if sat_self_is_inside s
           then fusion_eval (Some (sat_cfg s)) (sm_mm mine) (sat_peer_mm s)
           else fusion_eval (Some (sat_cfg s)) (sat_peer_mm s) (sm_mm mine)
       end.

Definition satellite_peer_mm (s : satellite) (now_ms : Z) : Z :=
  if negb (fresh s now_ms) then -1 else sat_peer_mm s.

Definition satellite_may_predict (s : option satellite) (now_ms : Z) : bool :=
  match s with
  | None => true
  | Some s =>
      if negb (fresh s now_ms) then true
      else match ring_find s (sat_peer_block s) now_ms with
           | None => true
           | Some _ => fusion_may_predict (Some (satellite_verdict s now_ms))
           end
  end.

Definition satellite_may_passive_unlock (s : option satellite) (now_ms : Z) : bool :=
  match s with
  | None => true
  | Some s =>
      if negb (fresh s now_ms) then true
      else match ring_find s (sat_peer_block s) now_ms with
           | None => true
           | Some _ => fusion_may_passive_unlock (Some (satellite_verdict s now_ms))
           end
  end.

(** ** More than one satellite

    [struct ultrawidelock_satellite_set] is its [peer] array. *)

Definition satellite_set : Type := list satellite.

Definition satellite_set_init (bias : list Z) (cfg : option (list fusion_cfg))
    (stale_ms : Z) (self_is_inside : bool) : satellite_set :=
  map (fun i => satellite_init (nth i bias 0) (cfg ≫= fun l => l !! i) stale_ms self_is_inside)
      (seq 0 SATELLITE_MAX_ROLES).

Definition satellite_set_report (set : satellite_set)
    (role peer_mm peer_block now_ms : Z) : satellite_set :=
  if (role <? 1) || (Z.of_nat SATELLITE_MAX_ROLES <? role) then set
  else alter (fun s => satellite_report s peer_mm peer_block now_ms)
             (Z.to_nat (role - 1)) set.

Definition satellite_set_observe (set : satellite_set)
    (self_mm self_block now_ms : Z) : satellite_set :=
  map (fun s => satellite_observe s self_mm self_block now_ms) set.

(** The loop of the set verdict over the verdicts of the roles, with its
    [definite] and [abstain] variables. *)
Fixpoint set_verdict_loop (vs : list fusion_verdict)
    (definite abstain : option fusion_verdict) : fusion_verdict :=
  match vs with
  | [] => match definite with
          | Some d => d
          | None => default no_verdict abstain
          end
  | v :: vs =>
      if negb (geometry_ok v) then set_verdict_loop vs definite abstain
      else if bool_decide (v_side v = SIDE_UNKNOWN)
      then set_verdict_loop vs definite
             (match abstain with None => Some v | Some _ => abstain end)
      else match definite with
           | None => set_verdict_loop vs (Some v) abstain
           | Some d => if bool_decide (v_side v = v_side d)
                       then set_verdict_loop vs definite abstain
                       else no_verdict
           end
  end.

Definition satellite_set_verdict (set : option satellite_set) (now_ms : Z) : fusion_verdict :=
  match set with
  | None => no_verdict
  | Some set => set_verdict_loop (map (fun s => satellite_verdict s now_ms) set) None None
  end.

Definition satellite_set_may_predict (set : option satellite_set) (now_ms : Z) : bool :=
  match set with
  | None => true
  | Some set => forallb (fun s => satellite_may_predict (Some s) now_ms) set
  end.

Definition satellite_set_may_passive_unlock (set : option satellite_set) (now_ms : Z) : bool :=
  match set with
  | None => true
  | Some set => forallb (fun s => satellite_may_passive_unlock (Some s) now_ms) set
  end.

(** The first role with something fresh to say. *)
Definition satellite_set_peer_mm (set : option satellite_set) (now_ms : Z) : Z :=
  match set with
  | None => -1
  | Some set =>
      default (-1) (List.find (fun mm => 0 <=? mm)
                      (map (fun s => satellite_peer_mm s now_ms) set))
  end.

(** ** Well-formed satellites *)

Record sat_wf (s : satellite) : Prop := {
  sw_ring : length (sat_ring s) = SATELLITE_RING;
  sw_next : (sat_ring_next s < SATELLITE_RING)%nat;
  sw_samples : Forall (fun e => sm_have e = true -> 0 <= sm_mm e) (sat_ring s);
  sw_peer : sat_have s = true -> 0 <= sat_peer_mm s;
  sw_stale : 0 <= sat_stale_ms s;
}.

Lemma sat_wf_init b c st i : 0 <= st -> sat_wf (satellite_init b c st i).
Proof.
  intros. constructor; simpl; try done; try (unfold SATELLITE_RING; lia).
  - repeat constructor; done.
  - unfold SATELLITE_STALE_MS_DEFAULT. case_match; lia.
Qed.

Lemma sat_wf_observe s mm b t : sat_wf s -> sat_wf (satellite_observe s mm b t).
Proof.
  intros []. unfold satellite_observe. destruct (Z.ltb_spec mm 0); [done|].
  constructor; simpl; try done.
  - by rewrite length_insert.
  - apply Nat.mod_upper_bound. done.
  - by apply Forall_insert.
Qed.

Lemma sat_wf_report s mm b t : sat_wf s -> sat_wf (satellite_report s mm b t).
Proof.
  intros []. unfold satellite_report. destruct (Z.ltb_spec mm 0); [done|].
  by constructor.
Qed.

(** ** Pairing *)

Lemma find_holds block l e :
  List.find (holds block) l = Some e -> In e l /\ sm_have e = true /\ sm_block e = block.
Proof.
  intros H. apply find_some in H as [Hin Hh]. unfold holds in Hh.
  apply andb_true_iff in Hh as [? ?]. split; [done|]. split; [done|lia].
Qed.

(** What [ring_find] returns is a measurement of ours, of that block, young
    enough and not from the future. *)
Lemma ring_find_Some s block now e :
  ring_find s block now = Some e ->
  In e (sat_ring s) /\ sm_have e = true /\ sm_block e = block /\
  0 <= now - sm_ms e <= sat_stale_ms s.
Proof.
  unfold ring_find. destruct (List.find _ _) as [x|] eqn:Hf; [|done].
  apply find_holds in Hf as (? & ? & ?).
  destruct (Z.ltb_spec (now - sm_ms x) 0), (Z.ltb_spec (sat_stale_ms s) (now - sm_ms x));
    simpl; try done. intros [= <-]. auto with lia.
Qed.

Lemma report_fresh_iff s now :
  report_fresh s now = true <->
  sat_have s = true /\ 0 <= now - sat_last_ms s <= sat_stale_ms s.
Proof.
  unfold report_fresh. destruct (sat_have s); simpl; [|by split; [|intros [? _]]].
  zcmp_cases; intuition (try done; lia).
Qed.

Lemma fresh_iff s now :
  fresh s now = true <-> 0 < baseline_mm (sat_cfg s) /\ report_fresh s now = true.
Proof. unfold fresh. destruct (Z.leb_spec (baseline_mm (sat_cfg s)) 0); intuition (try done; lia). Qed.

(** The judged pair: this node's distance for the reported block, when both
    halves are fresh and a baseline is configured. *)
Definition judged (s : satellite) (now : Z) : option Z :=
  if fresh s now then sm_mm <$> ring_find s (sat_peer_block s) now else None.

(** The fusion of the judged pair, inside distance first. *)
Definition fuse (s : satellite) (self_mm : Z) : fusion_verdict :=
  if sat_self_is_inside s then fusion_eval (Some (sat_cfg s)) self_mm (sat_peer_mm s)
  else fusion_eval (Some (sat_cfg s)) (sat_peer_mm s) self_mm.

Lemma satellite_verdict_judged s now :
  satellite_verdict s now = match judged s now with Some d => fuse s d | None => no_verdict end.
Proof.
  unfold satellite_verdict, judged, fuse. destruct (fresh s now); simpl; [|done].
  by destruct (ring_find _ _ _).
Qed.

Lemma passive_judged s now :
  satellite_may_passive_unlock (Some s) now =
  fusion_may_passive_unlock (fuse s <$> judged s now).
Proof.
  unfold satellite_may_passive_unlock. rewrite satellite_verdict_judged.
  unfold judged. destruct (fresh s now); simpl; [|done]. by destruct (ring_find _ _ _).
Qed.

Lemma predict_judged s now :
  satellite_may_predict (Some s) now = fusion_may_predict (fuse s <$> judged s now).
Proof.
  unfold satellite_may_predict. rewrite satellite_verdict_judged.
  unfold judged. destruct (fresh s now); simpl; [|done]. by destruct (ring_find _ _ _).
Qed.

(** An entry written by [satellite_observe] is found unless an earlier slot
    holds the same block. *)
Lemma find_insert l i e block :
  (i < length l)%nat -> holds block e = true ->
  Forall (fun x => holds block x = false) (take i l) ->
  List.find (holds block) (<[i := e]> l) = Some e.
Proof.
  revert i. induction l as [|x l IH]; intros [|i] Hi He Hall; simpl in *; try lia.
  - by rewrite He.
  - inversion Hall as [|? ? Hx Hrest]; subst. rewrite Hx. apply IH; [lia|done|done].
Qed.

(** ** Evidence gates

    What a source of evidence about the phone promises to the decision that
    consults it: it may withhold only on evidence.  A collection of gates is
    a gate: one that withholds withholds for all. *)

Class EvidenceGate (G : Type) := {
  permits : G -> Z -> bool;
  silent : G -> Z -> bool;
  silent_permits : forall g now, silent g now = true -> permits g now = true;
}.

#[export] Program Instance gate_list {G} `{EvidenceGate G} : EvidenceGate (list G) := {|
  permits gs now := forallb (fun g => permits g now) gs;
  silent gs now := forallb (fun g => silent g now) gs;
|}.
Next Obligation.
  intros G HG gs now Hs. apply forallb_forall. intros g Hg.
  apply silent_permits. by apply (proj1 (forallb_forall _ _) Hs).
Qed.

(** Adding a silent gate to a collection changes nothing. *)
Lemma permits_add_silent {G} `{EvidenceGate G} (g : G) gs now :
  silent g now = true -> permits (g :: gs) now = permits gs now.
Proof. intros Hs. simpl. by rewrite silent_permits. Qed.

(** One gate that withholds cannot be outvoted. *)
Lemma permits_veto {G} `{EvidenceGate G} (g : G) gs now :
  In g gs -> permits g now = false -> permits gs now = false.
Proof.
  intros Hin Hf. apply not_true_iff_false. intros Hp.
  apply (proj1 (forallb_forall _ _) Hp) in Hin. congruence.
Qed.

(** A satellite as a gate of the passive unlock: silent when it has no
    pair to judge. *)
Definition satellite_silent (s : satellite) (now : Z) : bool := negb (bool_decide (is_Some (judged s now))).

Lemma satellite_silent_permits s now :
  satellite_silent s now = true -> satellite_may_passive_unlock (Some s) now = true.
Proof. rewrite passive_judged. unfold satellite_silent. by destruct (judged s now). Qed.

#[export] Instance passive_gate : EvidenceGate satellite := {|
  permits s now := satellite_may_passive_unlock (Some s) now;
  silent := satellite_silent;
  silent_permits := satellite_silent_permits;
|}.

(** ** Properties *)

(** C32: no verdict mixes ranging rounds.  A verdict that passed the triangle
    gate is the fusion of the reported distance with a measurement this node
    made in the very block the report names, each between 0 and stale_ms old
    at the time of the verdict. *)
Theorem verdict_same_round s now :
  geometry_ok (satellite_verdict s now) = true ->
  exists e, In e (sat_ring s) /\ sm_have e = true /\ sm_block e = sat_peer_block s /\
    0 <= now - sm_ms e <= sat_stale_ms s /\
    0 <= now - sat_last_ms s <= sat_stale_ms s /\ 0 < baseline_mm (sat_cfg s) /\
    satellite_verdict s now = fuse s (sm_mm e).
Proof.
  rewrite satellite_verdict_judged. unfold judged.
  destruct (fresh s now) eqn:Hf; [|done].
  apply fresh_iff in Hf as [? Hf]. apply report_fresh_iff in Hf as [_ ?].
  destruct (ring_find _ _ _) as [e|] eqn:He; [|done]. simpl.
  apply ring_find_Some in He as (? & ? & ? & ?). intros _. exists e. auto 10.
Qed.

(** A report meets the measurement it belongs to.  Observing a block and
    then receiving a report for it, with at most stale_ms between each and
    the query, yields exactly the fusion of the two distances, whatever was
    in the ring, provided no earlier slot still holds the same block. *)
Theorem observe_report_verdict s mm peer block t1 t2 now :
  sat_wf s -> 0 < baseline_mm (sat_cfg s) -> 0 <= mm -> 0 <= peer ->
  0 <= now - t1 <= sat_stale_ms s -> 0 <= now - t2 <= sat_stale_ms s ->
  Forall (fun x => holds block x = false) (take (sat_ring_next s) (sat_ring s)) ->
  let s' := satellite_report (satellite_observe s mm block t1) peer block t2 in
  satellite_verdict s' now = fuse s' mm /\ sat_peer_mm s' = peer.
Proof.
  intros [Hlen Hnext _ _ _] Hb Hmm Hp H1 H2 Hall s'.
  unfold s', satellite_report, satellite_observe.
  destruct (Z.ltb_spec mm 0); [lia|]. destruct (Z.ltb_spec peer 0); [lia|].
  split; [|done]. rewrite satellite_verdict_judged. unfold judged.
  match goal with |- context [fresh ?x now] => assert (fresh x now = true) as -> end.
  { apply fresh_iff. split; [done|]. by apply report_fresh_iff. }
  unfold ring_find. cbn [sat_ring sat_peer_block sat_stale_ms field_set].
  rewrite (find_insert _ _ (mk_sample block mm t1 true)); [|lia| |done].
  - simpl. destruct (Z.ltb_spec (now - t1) 0), (Z.ltb_spec (sat_stale_ms s) (now - t1));
      try lia. done.
  - unfold holds. simpl. lia.
Qed.

Definition demo_cfg : fusion_cfg := mk_fusion_cfg 1000 300 200 0.
Definition demo_sat : satellite := satellite_init 0 (Some demo_cfg) 0 true.

Lemma observe_report_verdict_witness :
  let s := satellite_report (satellite_observe demo_sat 900 7 1000) 1800 7 1100 in
  satellite_verdict s 1200 = fuse s 900 /\ v_side (satellite_verdict s 1200) = SIDE_INSIDE.
Proof.
  split; [|reflexivity].
  refine (proj1 (observe_report_verdict demo_sat 900 1800 7 1000 1100 1200 _ _ _ _ _ _ _));
    [apply sat_wf_init; lia|reflexivity|..|constructor]; vm_compute; repeat split; discriminate.
Defined.

Lemma verdict_same_round_witness :
  let s := satellite_report (satellite_observe demo_sat 900 7 1000) 1800 7 1100 in
  exists e, In e (sat_ring s) /\ sm_have e = true /\ sm_block e = sat_peer_block s /\
    0 <= 1200 - sm_ms e <= sat_stale_ms s /\
    0 <= 1200 - sat_last_ms s <= sat_stale_ms s /\ 0 < baseline_mm (sat_cfg s) /\
    satellite_verdict s 1200 = fuse s (sm_mm e).
Proof. apply verdict_same_round. reflexivity. Defined.

(** ** The set verdict *)

(** A role speaks for a side when it has a good pair on that side. *)
Definition says (x : side) (v : fusion_verdict) : bool :=
  geometry_ok v && bool_decide (v_side v = x).

(** The intended verdict of a set of roles: the first opinion when all
    opinions agree, nothing when two disagree, the first abstention when
    there is no opinion. *)
Definition consensus (vs : list fusion_verdict) : fusion_verdict :=
  match List.find (says SIDE_INSIDE) vs, List.find (says SIDE_OUTSIDE) vs with
  | Some _, Some _ => no_verdict
  | Some v, None | None, Some v => v
  | None, None => default no_verdict (List.find geometry_ok vs)
  end.

Lemma loop_definite vs x d a :
  x <> SIDE_UNKNOWN -> v_side d = x ->
  set_verdict_loop vs (Some d) a =
  match List.find (says (opposite x)) vs with Some _ => no_verdict | None => d end.
Proof.
  intros Hx Hd. revert a. induction vs as [|v vs IH]; intros a; [done|].
  simpl. unfold says at 1. destruct (geometry_ok v); simpl; [|apply IH].
  rewrite Hd. destruct x; [done|..]; destruct (v_side v) eqn:Hv; simpl; try apply IH; done.
Qed.

Lemma loop_consensus vs a :
  set_verdict_loop vs None a =
  match List.find (says SIDE_INSIDE) vs, List.find (says SIDE_OUTSIDE) vs with
  | Some _, Some _ => no_verdict
  | Some v, None | None, Some v => v
  | None, None => default no_verdict
                    (match a with Some _ => a | None => List.find geometry_ok vs end)
  end.
Proof.
  revert a. induction vs as [|v vs IH]; intros a; simpl; [by destruct a|].
  assert (forall x, says x v = geometry_ok v && bool_decide (v_side v = x)) as Hs by done.
  rewrite !Hs. destruct (geometry_ok v) eqn:Hg; simpl; [|apply IH].
  destruct (v_side v) eqn:Hv; simpl.
  - rewrite IH. by destruct a.
  - rewrite (loop_definite _ SIDE_INSIDE) by done. simpl. by destruct (List.find _ _).
  - rewrite (loop_definite _ SIDE_OUTSIDE) by done. simpl.
    by destruct (List.find (says SIDE_INSIDE) vs).
Qed.

(** The scan over the roles computes the consensus.  Silent roles and
    failed triangles do not count, an abstention never dissents, the first
    opinion stands when no role holds the opposite one, and two opposite
    opinions leave no verdict at all. *)
Theorem set_verdict_consensus set now :
  satellite_set_verdict (Some set) now =
  consensus (map (fun s => satellite_verdict s now) set).
Proof. simpl. rewrite loop_consensus. reflexivity. Qed.

(** The set releases a passive unlock exactly when every role that has a
    pair to judge judged it possible and not INSIDE: one role that sees the
    phone indoors, or an impossible pair, withholds for all, and roles with
    nothing to judge are ignored. *)
Theorem set_passive_unlock_iff set now :
  satellite_set_may_passive_unlock (Some set) now = true <->
  forall s d, In s set -> judged s now = Some d ->
    geometry_ok (fuse s d) = true /\ v_side (fuse s d) <> SIDE_INSIDE.
Proof.
  unfold satellite_set_may_passive_unlock. rewrite forallb_forall. split.
  - intros H s d Hin Hj. specialize (H s Hin). rewrite passive_judged, Hj in H. simpl in H.
    apply andb_true_iff in H as [? H]. split; [done|]. by case_bool_decide.
  - intros H s Hin. rewrite passive_judged.
    destruct (judged s now) as [d|] eqn:Hj; [|done]. simpl.
    destruct (H s d Hin Hj) as [-> ?]. by rewrite bool_decide_eq_false_2.
Qed.

(** The set as an instance of the gate interface. *)
Lemma set_permits set now :
  satellite_set_may_passive_unlock (Some set) now = permits set now.
Proof. done. Qed.

(** Installing a satellite that stays silent changes nothing.  Whatever
    the other roles say, a slot with no fresh, paired report leaves the
    decision of the set as it was. *)
Theorem silent_role_neutral s set now :
  satellite_silent s now = true ->
  satellite_set_may_passive_unlock (Some (s :: set)) now =
  satellite_set_may_passive_unlock (Some set) now.
Proof. intros. rewrite !set_permits. by apply permits_add_silent. Qed.

Lemma silent_role_neutral_witness :
  satellite_set_may_passive_unlock (Some [demo_sat; demo_sat]) 0 =
  satellite_set_may_passive_unlock (Some [demo_sat]) 0.
Proof. apply silent_role_neutral. reflexivity. Defined.

(** ** A stale entry shadows a fresh one *)

(** Two entries of one block, as after a session that restarted its block
    numbers: a stale one in slot 0, a fresh one behind it. *)
Definition shadowed : satellite :=
  satellite_report
    (satellite_observe (satellite_observe demo_sat 3000 5 1000) 900 5 9000) 1800 5 9100.

(** The scan stops at the first entry of a block even when it is stale.
    Here the node measured 900 mm in the reported block 200 ms ago and the
    pair is INSIDE, but a stale entry of the same block sits in an earlier
    slot, so the verdict is absent and the passive unlock is permitted;
    without that entry it is withheld. *)
Theorem stale_entry_shadows_fresh :
  satellite_verdict shadowed 9200 = no_verdict /\
  satellite_may_passive_unlock (Some shadowed) 9200 = true /\
  (exists e, In e (sat_ring shadowed) /\ holds 5 e = true /\
             0 <= 9200 - sm_ms e <= sat_stale_ms shadowed /\
             v_side (fuse shadowed (sm_mm e)) = SIDE_INSIDE) /\
  satellite_may_passive_unlock
    (Some (satellite_report (satellite_observe demo_sat 900 5 9000) 1800 5 9100)) 9200 = false.
Proof.
  repeat split. exists (mk_sample 5 900 9000 true).
  vm_compute. repeat split; try discriminate. auto.
Qed.
