(* ===== verification/Side.v ===== *)
(** * Side-of-door classifier, temporal filter and unlock gate

    Models [modules/ultrawidelock_anchor/src/ultrawidelock_side.c]: the
    differential-RSSI baseline, the filter that commits a side after
    agreement and dwell, and the fail-closed passive-unlock gate.  The feed
    is given in the stages of the C function: flags, classified window,
    candidate, commit, decision. *)

From Stdlib Require Import ZArith Lia Bool.
From stdpp Require Import base list numbers.
From S2P Require Import Prelude.

Local Open Scope Z_scope.

Definition RSSI_ABSENT : Z := INT16_MIN.
Definition VEL_UNKNOWN : Z := INT32_MIN.

(** [enum ultrawidelock_side_label]. *)
Inductive label := L_UNKNOWN | L_INSIDE | L_OUTSIDE | L_THRESHOLD.

#[export] Instance label_eq_dec : EqDecision label.
Proof. solve_decision. Defined.

Definition label_code (l : label) : Z :=
  match l with L_UNKNOWN => 0 | L_INSIDE => 1 | L_OUTSIDE => 2 | L_THRESHOLD => 3 end.

(** [enum ultrawidelock_side_motion]. *)
Inductive motion :=
  | MOTION_UNKNOWN | MOTION_OUTSIDE_FAR | MOTION_OUTSIDE_APPROACHING | MOTION_OUTSIDE_NEAR
  | MOTION_THRESHOLD | MOTION_INSIDE_NEAR | MOTION_INSIDE_FAR.

Definition ANCHOR_PRIMARY_UWB : Z := 1.
Definition ANCHOR_BLE_INSIDE : Z := 2.
Definition ANCHOR_BLE_OUTSIDE : Z := 4.
Definition ANCHOR_BLE_THRESHOLD : Z := 8.
Definition ANCHOR_UWB_SATELLITE : Z := 16.

Definition F_DEGRADED : Z := 0x01.
Definition F_MULTI_PHONE : Z := 0x02.
Definition F_SESSION_MISMATCH : Z := 0x04.
Definition F_REPLAY : Z := 0x08.
Definition F_VERSION_MISMATCH : Z := 0x10.
Definition F_INSIDE_CONTRADICT : Z := 0x20.
Definition F_EVIDENCE_STALE : Z := 0x40.
Definition F_QUORUM_FAIL : Z := 0x80.

(** [struct ultrawidelock_side_features]. *)
Record features := mk_features {
  ft_obs_session_id : Z;
  ft_seq : Z;
  ft_now_ms : Z;
  ft_uwb_range_mm : Z;
  ft_uwb_vel_mm_s : Z;
  ft_rssi_inside : Z;
  ft_rssi_outside : Z;
  ft_rssi_threshold : Z;
  ft_pkts_inside : Z;
  ft_pkts_outside : Z;
  ft_pkts_threshold : Z;
  ft_uwb_peer_mm : Z;
  ft_fusion_side : Z;
  ft_fusion_conf : Z;
  ft_classifier_ver : Z;
  ft_calibration_ver : Z;
  ft_anchor_health_mask : Z;
  ft_flags : Z;
}.

#[export] Instance features_eta : Eta features := fun f =>
  mk_features (ft_obs_session_id f) (ft_seq f) (ft_now_ms f) (ft_uwb_range_mm f)
    (ft_uwb_vel_mm_s f) (ft_rssi_inside f) (ft_rssi_outside f) (ft_rssi_threshold f)
    (ft_pkts_inside f) (ft_pkts_outside f) (ft_pkts_threshold f) (ft_uwb_peer_mm f)
    (ft_fusion_side f) (ft_fusion_conf f) (ft_classifier_ver f) (ft_calibration_ver f)
    (ft_anchor_health_mask f) (ft_flags f).

(** [struct ultrawidelock_side_cfg]. *)
Record side_cfg := mk_side_cfg {
  sc_outside_margin_db : Z;
  sc_threshold_band_db : Z;
  sc_min_pkts : Z;
  sc_quorum_mask : Z;
  sc_agree_windows : Z;
  sc_dwell_ms : Z;
  sc_evidence_fresh_ms : Z;
  sc_outside_hold_ms : Z;
  sc_confidence_min : Z;
  sc_classifier_ver : Z;
  sc_calibration_ver : Z;
}.

(** [struct ultrawidelock_side_raw]. *)
Record side_raw := mk_side_raw {
  raw_side : label;
  raw_confidence : Z;
  raw_contrib_mask : Z;
  raw_oi_db : Z;
  raw_ti_db : Z;
  raw_ot_db : Z;
}.

(** [struct ultrawidelock_side_decision]. *)
Record decision := mk_decision {
  dc_side : label;
  dc_motion : motion;
  dc_confidence : Z;
  dc_contrib_mask : Z;
  dc_flags : Z;
  dc_classifier_ver : Z;
  dc_calibration_ver : Z;
  dc_obs_session_id : Z;
  dc_seq : Z;
  dc_decided_ms : Z;
}.

(** [struct ultrawidelock_side_filter]. *)
Record filter := mk_filter {
  fl_cfg : side_cfg;
  fl_cand : label;
  fl_committed : label;
  fl_motion : motion;
  fl_cand_n : Z;
  fl_confidence : Z;
  fl_committed_conf : Z;
  fl_contrib_mask : Z;
  fl_flags : Z;
  fl_obs_session_id : Z;
  fl_last_seq : Z;
  fl_cand_since_ms : Z;
  fl_committed_ms : Z;
  fl_last_outside_ms : Z;
  fl_last_inside_ms : Z;
}.

#[export] Instance filter_eta : Eta filter := fun f =>
  mk_filter (fl_cfg f) (fl_cand f) (fl_committed f) (fl_motion f) (fl_cand_n f)
    (fl_confidence f) (fl_committed_conf f) (fl_contrib_mask f) (fl_flags f)
    (fl_obs_session_id f) (fl_last_seq f) (fl_cand_since_ms f) (fl_committed_ms f)
    (fl_last_outside_ms f) (fl_last_inside_ms f).

Definition side_defaults : side_cfg := {|
  sc_outside_margin_db := 6;
  sc_threshold_band_db := 3;
  sc_min_pkts := 3;
  sc_quorum_mask := Z.lor ANCHOR_BLE_INSIDE ANCHOR_BLE_OUTSIDE;
  sc_agree_windows := 3;
  sc_dwell_ms := 400;
  sc_evidence_fresh_ms := 4500;
  sc_outside_hold_ms := 8000;
  sc_confidence_min := 60;
  sc_classifier_ver := 1;
  sc_calibration_ver := 1;
|}.

Definition side_filter_init (cfg : option side_cfg) : filter := {|
  fl_cfg := default side_defaults cfg;
  fl_cand := L_UNKNOWN;
  fl_committed := L_UNKNOWN;
  fl_motion := MOTION_UNKNOWN;
  fl_cand_n := 0;
  fl_confidence := 0;
  fl_committed_conf := 0;
  fl_contrib_mask := 0;
  fl_flags := 0;
  fl_obs_session_id := 0;
  fl_last_seq := UINT32_MAX;
  fl_cand_since_ms := 0;
  fl_committed_ms := 0;
  fl_last_outside_ms := 0;
  fl_last_inside_ms := 0;
|}.

Definition side_transition_ok (from to : label) : bool :=
  match from, to with
  | L_INSIDE, L_OUTSIDE | L_OUTSIDE, L_INSIDE => false
  | _, _ => true
  end.

Definition rssi_present (rssi pkts min_pkts : Z) : bool :=
  negb (rssi =? RSSI_ABSENT) && (min_pkts <=? pkts).

Definition clamp_u8 (v : Z) : Z := if v <? 0 then 0 else if 100 <? v then 100 else v.

(** The flags that make a window unusable. *)
Definition RAW_FAULTS : Z :=
  Z.lor F_MULTI_PHONE (Z.lor F_SESSION_MISMATCH (Z.lor F_REPLAY
    (Z.lor F_VERSION_MISMATCH (Z.lor F_DEGRADED F_EVIDENCE_STALE)))).

(** The bits of [b] contributed when [c] holds. *)
Definition bit_if (c : bool) (b : Z) : Z := if c then b else 0.

(** The side the two-anchor fusion brings in, with its confidence. *)
Definition fusion_opinion (ft : features) : label * Z :=
  let conf := if 100 <? ft_fusion_conf ft then 100 else ft_fusion_conf ft in
  if ft_fusion_side ft =? label_code L_OUTSIDE then (L_OUTSIDE, conf)
  else if ft_fusion_side ft =? label_code L_INSIDE then (L_INSIDE, conf)
  else if ft_fusion_side ft =? label_code L_THRESHOLD then (L_THRESHOLD, conf)
  else (L_UNKNOWN, 0).

Definition in_band (v band : Z) : bool := (- band <? v) && (v <? band).

Definition side_classify_raw (cfg : option side_cfg) (feat : option features) : side_raw :=
  match feat with
  | None => mk_side_raw L_UNKNOWN 0 0 0 0 0
  | Some ft =>
      let c := default side_defaults cfg in
      if negb (Z.land (ft_flags ft) RAW_FAULTS =? 0) then mk_side_raw L_UNKNOWN 0 0 0 0 0
      else
        let have_in := rssi_present (ft_rssi_inside ft) (ft_pkts_inside ft) (sc_min_pkts c) in
        let have_out := rssi_present (ft_rssi_outside ft) (ft_pkts_outside ft) (sc_min_pkts c) in
        let have_th :=
          rssi_present (ft_rssi_threshold ft) (ft_pkts_threshold ft) (sc_min_pkts c) in
        let mask :=
          Z.lor (bit_if (0 <=? ft_uwb_range_mm ft) ANCHOR_PRIMARY_UWB)
            (Z.lor (bit_if have_in ANCHOR_BLE_INSIDE)
               (Z.lor (bit_if have_out ANCHOR_BLE_OUTSIDE)
                  (Z.lor (bit_if have_th ANCHOR_BLE_THRESHOLD)
                     (bit_if (0 <=? ft_uwb_peer_mm ft) ANCHOR_UWB_SATELLITE)))) in
        let '(side, conf) := fusion_opinion ft in
        if have_in && have_out then
          let oi := ft_rssi_outside ft - ft_rssi_inside ft in
          let ti := if have_th then ft_rssi_threshold ft - ft_rssi_inside ft else 0 in
          let ot := if have_th then ft_rssi_outside ft - ft_rssi_threshold ft else 0 in
          let result s cf := mk_side_raw s cf mask (i16 oi) (i16 ti) (i16 ot) in
          if have_th && in_band oi (sc_threshold_band_db c) && in_band ot (sc_threshold_band_db c)
          then result L_THRESHOLD (clamp_u8 (55 + (sc_threshold_band_db c - Z.abs oi) * 5))
          else if sc_outside_margin_db c <=? oi then
            if bool_decide (side = L_INSIDE) then result L_UNKNOWN 0
            else result L_OUTSIDE (clamp_u8 (60 + (oi - sc_outside_margin_db c) * 4))
          else if oi <=? - sc_outside_margin_db c then
            if bool_decide (side = L_OUTSIDE) then result L_UNKNOWN 0
            else result L_INSIDE (clamp_u8 (60 + (- oi - sc_outside_margin_db c) * 4))
          else if bool_decide (side = L_UNKNOWN) then result L_THRESHOLD 40
          else result side conf
        else if bool_decide (side = L_UNKNOWN) then mk_side_raw L_UNKNOWN 0 mask 0 0 0
        else mk_side_raw side conf mask 0 0 0
  end.

Definition motion_from (side : label) (vel_mm_s range_mm : Z) : motion :=
  let closing := negb (vel_mm_s =? VEL_UNKNOWN) && (vel_mm_s <? -100) in
  let far := (range_mm <? 0) || (1500 <? range_mm) in
  match side with
  | L_OUTSIDE =>
      if far then (if closing then MOTION_OUTSIDE_APPROACHING else MOTION_OUTSIDE_FAR)
      else if closing then MOTION_OUTSIDE_APPROACHING else MOTION_OUTSIDE_NEAR
  | L_INSIDE => if far then MOTION_INSIDE_FAR else MOTION_INSIDE_NEAR
  | L_THRESHOLD => MOTION_THRESHOLD
  | L_UNKNOWN => MOTION_UNKNOWN
  end.

(** ** The temporal filter *)

(** A change of observation session resets the agreement. *)
Definition feed_session (f : filter) (ft : features) : filter :=
  if negb (fl_obs_session_id f =? 0) && negb (ft_obs_session_id ft =? fl_obs_session_id f)
  then f <| fl_cand_n := 0 |> <| fl_cand := L_UNKNOWN |> <| fl_last_seq := UINT32_MAX |>
  else f.

(** The flags of the window, before the contradiction test. *)
Definition feed_flags (f : filter) (ft : features) : Z :=
  let flags := ft_flags ft in
  let flags := Z.lor flags
    (bit_if (negb (ft_classifier_ver ft =? sc_classifier_ver (fl_cfg f)) ||
             negb (ft_calibration_ver ft =? sc_calibration_ver (fl_cfg f)))
            F_VERSION_MISMATCH) in
  let f := feed_session f ft in
  let flags := Z.lor flags
    (bit_if (negb (fl_last_seq f =? UINT32_MAX) && negb (ft_seq ft =? 0) &&
             (ft_seq ft <=? fl_last_seq f)) F_REPLAY) in
  let healthy := Z.land (ft_anchor_health_mask ft) (sc_quorum_mask (fl_cfg f)) in
  Z.lor flags (bit_if (negb (healthy =? sc_quorum_mask (fl_cfg f))) F_QUORUM_FAIL).

(** The classified window: a fault leaves no side. *)
Definition feed_raw (f : filter) (ft : features) : side_raw :=
  let raw := side_classify_raw (Some (fl_cfg f)) (Some ft) in
  if negb (Z.land (feed_flags f ft) (Z.lor RAW_FAULTS F_QUORUM_FAIL) =? 0)
  then mk_side_raw L_UNKNOWN 0 (raw_contrib_mask raw) (raw_oi_db raw) (raw_ti_db raw)
         (raw_ot_db raw)
  else raw.

(** The flags with the contradiction bit, and the stamp of an INSIDE window. *)
Definition feed_final_flags (f : filter) (ft : features) : Z :=
  Z.lor (feed_flags f ft)
    (bit_if (bool_decide (raw_side (feed_raw f ft) = L_INSIDE) &&
             bool_decide (fl_committed f = L_OUTSIDE) &&
             negb (side_transition_ok (fl_committed f) (raw_side (feed_raw f ft))))
            F_INSIDE_CONTRADICT).

Definition feed_mark (f : filter) (ft : features) : filter :=
  let raw := feed_raw f ft in
  let flags := feed_final_flags f ft in
  let f := feed_session f ft in
  let f := if bool_decide (raw_side raw = L_INSIDE)
           then f <| fl_last_inside_ms := ft_now_ms ft |> else f in
  f <| fl_obs_session_id := ft_obs_session_id ft |>
    <| fl_last_seq := ft_seq ft |>
    <| fl_flags := flags |>
    <| fl_contrib_mask := raw_contrib_mask raw |>.

(** A window with too few packets and no fault is missing data. *)
Definition evidence_gap (raw : side_raw) (flags : Z) : bool :=
  bool_decide (raw_side raw = L_UNKNOWN) && (raw_confidence raw =? 0) && (flags =? 0).

Definition feed_candidate (f : filter) (raw : side_raw) (flags now_ms : Z) : filter :=
  if evidence_gap raw flags then f
  else
    let f :=
      if bool_decide (raw_side raw = fl_cand f) && negb (bool_decide (raw_side raw = L_UNKNOWN))
      then if fl_cand_n f <? 255 then f <| fl_cand_n := fl_cand_n f + 1 |> else f
      else f <| fl_cand := raw_side raw |>
             <| fl_cand_n := if bool_decide (raw_side raw = L_UNKNOWN) then 0 else 1 |>
             <| fl_cand_since_ms := now_ms |> in
    f <| fl_confidence := raw_confidence raw |>.

(** Commit on agreement and dwell, decay a stale commit, and the guard
    against a lone OUTSIDE window while committed INSIDE. *)
Definition feed_commit (f : filter) (raw : side_raw) (now_ms : Z) : filter :=
  let f :=
    if negb (bool_decide (raw_side raw = L_UNKNOWN)) &&
       (sc_agree_windows (fl_cfg f) <=? fl_cand_n f) &&
       (sc_dwell_ms (fl_cfg f) <=? now_ms - fl_cand_since_ms f)
    then
      let f := f <| fl_committed := raw_side raw |>
                 <| fl_committed_ms := now_ms |>
                 <| fl_committed_conf := raw_confidence raw |> in
      match raw_side raw with
      | L_OUTSIDE => f <| fl_last_outside_ms := now_ms |>
      | L_INSIDE => f <| fl_last_inside_ms := now_ms |>
      | _ => f
      end
    else if bool_decide (raw_side raw = L_UNKNOWN) &&
            negb (bool_decide (fl_committed f = L_UNKNOWN)) &&
            (sc_evidence_fresh_ms (fl_cfg f) <? now_ms - fl_committed_ms f)
    then f <| fl_committed := L_UNKNOWN |> <| fl_confidence := 0 |> <| fl_committed_conf := 0 |>
    else f in
  if bool_decide (fl_committed f = L_INSIDE) && bool_decide (raw_side raw = L_OUTSIDE) &&
     (fl_cand_n f <? sc_agree_windows (fl_cfg f))
  then f <| fl_committed := L_INSIDE |> else f.

(** A committed OUTSIDE is held across the dead band for a bounded time,
    unless something INSIDE was seen since. *)
Definition hold_outside (f : filter) (now_ms : Z) : bool :=
  negb (sc_outside_hold_ms (fl_cfg f) =? 0) && bool_decide (fl_committed f = L_OUTSIDE) &&
  (fl_last_inside_ms f <? fl_last_outside_ms f) &&
  (now_ms - fl_last_outside_ms f <=? sc_outside_hold_ms (fl_cfg f)).

Definition feed_decide (f : filter) (ft : features) : decision :=
  let expired :=
    negb (bool_decide (fl_committed f = L_UNKNOWN)) &&
    (sc_evidence_fresh_ms (fl_cfg f) <? ft_now_ms ft - fl_committed_ms f) &&
    negb (hold_outside f (ft_now_ms ft)) in {|
  dc_side := if expired then L_UNKNOWN else fl_committed f;
  dc_motion := fl_motion f;
  dc_confidence := if expired then 0
                   else if bool_decide (fl_committed f = L_UNKNOWN)
                   then fl_confidence f else fl_committed_conf f;
  dc_contrib_mask := fl_contrib_mask f;
  dc_flags := Z.lor (fl_flags f) (bit_if expired F_EVIDENCE_STALE);
  dc_classifier_ver := sc_classifier_ver (fl_cfg f);
  dc_calibration_ver := sc_calibration_ver (fl_cfg f);
  dc_obs_session_id := ft_obs_session_id ft;
  dc_seq := ft_seq ft;
  dc_decided_ms := ft_now_ms ft;
|}.

Definition side_filter_feed (f : filter) (ft : features) : filter * decision :=
  let raw := feed_raw f ft in
  let flags := feed_final_flags f ft in
  let f := feed_mark f ft in
  let f := feed_candidate f raw flags (ft_now_ms ft) in
  let f := feed_commit f raw (ft_now_ms ft) in
  let f := f <| fl_motion := motion_from (fl_committed f) (ft_uwb_vel_mm_s ft)
                               (ft_uwb_range_mm ft) |> in
  (f, feed_decide f ft).

(** The flags that close the gate. *)
Definition GATE_FAULTS : Z :=
  Z.lor F_DEGRADED (Z.lor F_MULTI_PHONE (Z.lor F_SESSION_MISMATCH (Z.lor F_REPLAY
    (Z.lor F_VERSION_MISMATCH (Z.lor F_INSIDE_CONTRADICT
      (Z.lor F_EVIDENCE_STALE F_QUORUM_FAIL)))))).

Definition side_may_passive_unlock (d : option decision) (cfg : option side_cfg) : bool :=
  match d with
  | None => false
  | Some d =>
      let c := default side_defaults cfg in
      if negb (bool_decide (dc_side d = L_OUTSIDE)) then false
      else if dc_confidence d <? sc_confidence_min c then false
      else Z.land (dc_flags d) GATE_FAULTS =? 0
  end.
