(* ===== verification/SideProps.v ===== *)
(** * Properties of the side classifier, filter and gate

    What the classifier needs to conclude OUTSIDE and its symmetry; over whole
    runs of the filter, what a released passive unlock looks back on and that
    every fault closes the gate. *)

From Stdlib Require Import ZArith Lia Bool Sorting.Sorted.
From stdpp Require Import base list numbers sorting.
From S2P Require Import Prelude Side.

Local Open Scope Z_scope.

(** ** Flag words *)

(** A word has no bit in common with a union of masks exactly when it has
    none in common with each. *)
Lemma land_lor_0 x a b : Z.land x (Z.lor a b) = 0 <-> Z.land x a = 0 /\ Z.land x b = 0.
Proof. rewrite Z.land_lor_distr_r, Z.lor_eq_0_iff. done. Qed.

Lemma lor_land_0 x y m : Z.land (Z.lor x y) m = 0 <-> Z.land x m = 0 /\ Z.land y m = 0.
Proof. rewrite Z.land_lor_distr_l, Z.lor_eq_0_iff. done. Qed.

(** A contributed bit that the mask sees was not contributed. *)
Lemma bit_if_clear c b m : Z.land b m <> 0 -> Z.land (bit_if c b) m = 0 -> c = false.
Proof. by destruct c. Qed.

(** ** The classifier *)

Definition have_inside (c : side_cfg) (ft : features) : bool :=
  rssi_present (ft_rssi_inside ft) (ft_pkts_inside ft) (sc_min_pkts c).
Definition have_outside (c : side_cfg) (ft : features) : bool :=
  rssi_present (ft_rssi_outside ft) (ft_pkts_outside ft) (sc_min_pkts c).
Definition have_threshold (c : side_cfg) (ft : features) : bool :=
  rssi_present (ft_rssi_threshold ft) (ft_pkts_threshold ft) (sc_min_pkts c).

(** How much stronger the outside witness hears the phone. *)
Definition outside_minus_inside (ft : features) : Z := ft_rssi_outside ft - ft_rssi_inside ft.

(** The same window heard from the other side of the door. *)
Definition mirrored (ft : features) : features :=
  ft <| ft_rssi_inside := ft_rssi_outside ft |>
     <| ft_rssi_outside := ft_rssi_inside ft |>
     <| ft_pkts_inside := ft_pkts_outside ft |>
     <| ft_pkts_outside := ft_pkts_inside ft |>
     <| ft_fusion_side := if ft_fusion_side ft =? 1 then 2
                          else if ft_fusion_side ft =? 2 then 1 else ft_fusion_side ft |>.

Definition flip (l : label) : label :=
  match l with L_INSIDE => L_OUTSIDE | L_OUTSIDE => L_INSIDE | l => l end.

(** The classifier away from the lintel: [both] says whether the two
    witnesses heard the phone, [side] and [conf] are the fusion's opinion. *)
Definition two_witness (m : Z) (both : bool) (side : label) (conf oi : Z) : label * Z :=
  if both then
    if m <=? oi then
      if bool_decide (side = L_INSIDE) then (L_UNKNOWN, 0)
      else (L_OUTSIDE, clamp_u8 (60 + (oi - m) * 4))
    else if oi <=? - m then
      if bool_decide (side = L_OUTSIDE) then (L_UNKNOWN, 0)
      else (L_INSIDE, clamp_u8 (60 + (- oi - m) * 4))
    else if bool_decide (side = L_UNKNOWN) then (L_THRESHOLD, 40) else (side, conf)
  else if bool_decide (side = L_UNKNOWN) then (L_UNKNOWN, 0) else (side, conf).

(** All three witnesses hear the phone about equally. *)
Definition at_lintel (c : side_cfg) (ft : features) : bool :=
  have_inside c ft && have_outside c ft && have_threshold c ft &&
  in_band (outside_minus_inside ft) (sc_threshold_band_db c) &&
  in_band (ft_rssi_outside ft - ft_rssi_threshold ft) (sc_threshold_band_db c).

Lemma classify_cases c ft :
  Z.land (ft_flags ft) RAW_FAULTS = 0 ->
  let r := side_classify_raw (Some c) (Some ft) in
  if at_lintel c ft then raw_side r = L_THRESHOLD
  else (raw_side r, raw_confidence r) =
       two_witness (sc_outside_margin_db c) (have_inside c ft && have_outside c ft)
         (fusion_opinion ft).1 (fusion_opinion ft).2 (outside_minus_inside ft).
Proof.
  intros Hf. unfold side_classify_raw, two_witness, at_lintel. rewrite Hf. simpl.
  fold (have_inside c ft) (have_outside c ft) (have_threshold c ft) (outside_minus_inside ft).
  destruct (fusion_opinion ft) as [side conf]. simpl.
  generalize (outside_minus_inside ft), (ft_rssi_outside ft - ft_rssi_threshold ft).
  intros oi ot. destruct (have_inside c ft && have_outside c ft); simpl; [|by case_match].
  destruct (have_threshold c ft); simpl.
  1: destruct (in_band oi _ && in_band ot _); [done|].
  all: repeat (case_match; simpl; try done).
Qed.

(** OUTSIDE is never invented.  A window is classified OUTSIDE only
    without fault flags, and only when both witnesses heard enough packets
    and the outside one is stronger by the margin while the fusion does not
    say INSIDE, or when the fusion says OUTSIDE and the witnesses do not say
    INSIDE. *)
Theorem outside_needs_evidence c ft :
  0 < sc_outside_margin_db c ->
  raw_side (side_classify_raw (Some c) (Some ft)) = L_OUTSIDE ->
  Z.land (ft_flags ft) RAW_FAULTS = 0 /\
  ((have_inside c ft && have_outside c ft = true /\
    sc_outside_margin_db c <= outside_minus_inside ft /\
    (fusion_opinion ft).1 <> L_INSIDE) \/
   ((fusion_opinion ft).1 = L_OUTSIDE /\
    (have_inside c ft && have_outside c ft = true ->
     - sc_outside_margin_db c < outside_minus_inside ft))).
Proof.
  intros Hm Hr.
  assert (Z.land (ft_flags ft) RAW_FAULTS = 0) as Hf.
  { unfold side_classify_raw in Hr.
    destruct (Z.eqb_spec (Z.land (ft_flags ft) RAW_FAULTS) 0); done. }
  split; [done|]. pose proof (classify_cases c ft Hf) as H. cbv zeta in H.
  rewrite Hr in H. destruct (at_lintel c ft); [done|]. revert H. unfold two_witness.
  destruct (have_inside c ft && have_outside c ft).
  - destruct (Z.leb_spec (sc_outside_margin_db c) (outside_minus_inside ft)).
    { case_bool_decide; [done|]. by left. }
    destruct (Z.leb_spec (outside_minus_inside ft) (- sc_outside_margin_db c)).
    { by case_bool_decide. }
    case_bool_decide; [done|]. intros [= <- _]. by right.
  - case_bool_decide; [done|]. intros [= <- _]. by right.
Qed.

Lemma two_witness_mirror m both side conf oi :
  0 < m ->
  two_witness m both (flip side) conf (- oi) =
  (flip (two_witness m both side conf oi).1, (two_witness m both side conf oi).2).
Proof.
  intros Hm. unfold two_witness. destruct both; [|by destruct side].
  destruct (Z.leb_spec m oi), (Z.leb_spec oi (- m)), (Z.leb_spec m (- oi)),
    (Z.leb_spec (- oi) (- m)); try lia; destruct side; simpl; try done;
    repeat f_equal; lia.
Qed.

Lemma fusion_opinion_mirror ft :
  fusion_opinion (mirrored ft) = (flip (fusion_opinion ft).1, (fusion_opinion ft).2).
Proof.
  unfold fusion_opinion, mirrored, label_code. simpl.
  destruct (Z.eqb_spec (ft_fusion_side ft) 1) as [H1|H1]; [by rewrite H1|].
  destruct (Z.eqb_spec (ft_fusion_side ft) 2) as [H2|H2]; [by rewrite ?H2|].
  rewrite (proj2 (Z.eqb_neq _ 2) H2), (proj2 (Z.eqb_neq _ 1) H1).
  by destruct (ft_fusion_side ft =? 3).
Qed.

Lemma classify_faulty c ft :
  Z.land (ft_flags ft) RAW_FAULTS <> 0 ->
  side_classify_raw c (Some ft) = mk_side_raw L_UNKNOWN 0 0 0 0 0.
Proof. intros H. apply Z.eqb_neq in H. unfold side_classify_raw. by rewrite H. Qed.

Lemma classify_away c ft :
  Z.land (ft_flags ft) RAW_FAULTS = 0 -> have_threshold c ft = false ->
  (raw_side (side_classify_raw (Some c) (Some ft)),
   raw_confidence (side_classify_raw (Some c) (Some ft))) =
  two_witness (sc_outside_margin_db c) (have_inside c ft && have_outside c ft)
    (fusion_opinion ft).1 (fusion_opinion ft).2 (outside_minus_inside ft).
Proof.
  intros Hf Ht. pose proof (classify_cases c ft Hf) as H. unfold at_lintel in H.
  rewrite Ht, andb_false_r in H. exact H.
Qed.

(** Neither side of the door is favoured.  Without a threshold witness,
    exchanging the two witnesses and the fusion polarity exchanges INSIDE
    and OUTSIDE and keeps the confidence. *)
Theorem classify_mirror c ft :
  0 < sc_outside_margin_db c -> have_threshold c ft = false ->
  let r := side_classify_raw (Some c) (Some ft) in
  let r' := side_classify_raw (Some c) (Some (mirrored ft)) in
  (raw_side r', raw_confidence r') = (flip (raw_side r), raw_confidence r).
Proof.
  intros Hm Ht. cbv zeta.
  destruct (decide (Z.land (ft_flags ft) RAW_FAULTS = 0)) as [Hf|Hf].
  2: by rewrite !classify_faulty.
  pose proof (classify_away c ft Hf Ht) as H.
  rewrite (classify_away c (mirrored ft) Hf Ht), fusion_opinion_mirror.
  replace (have_inside c (mirrored ft)) with (have_outside c ft) by done.
  replace (have_outside c (mirrored ft)) with (have_inside c ft) by done.
  replace (outside_minus_inside (mirrored ft)) with (- outside_minus_inside ft)
    by (unfold outside_minus_inside; simpl; lia).
  rewrite (andb_comm (have_outside c ft)). cbn [fst snd].
  rewrite two_witness_mirror by done. by rewrite <- H.
Qed.

(** ** The gate on one window *)

(** What a released passive unlock says about the window that released it. *)
Lemma gate_permits_iff d c :
  side_may_passive_unlock (Some d) (Some c) = true <->
  dc_side d = L_OUTSIDE /\ sc_confidence_min c <= dc_confidence d /\
  Z.land (dc_flags d) GATE_FAULTS = 0.
Proof.
  unfold side_may_passive_unlock, default, id. case_bool_decide; simpl; [|by split; [|intros [? _]]].
  destruct (Z.ltb_spec (dc_confidence d) (sc_confidence_min c)).
  - split; [done|intros (_ & ? & _); lia].
  - rewrite Z.eqb_eq. tauto.
Qed.

Definition is_replay (f : filter) (ft : features) : bool :=
  let last := fl_last_seq (feed_session f ft) in
  negb (last =? UINT32_MAX) && negb (ft_seq ft =? 0) && (ft_seq ft <=? last).

Lemma feed_session_cfg f ft : fl_cfg (feed_session f ft) = fl_cfg f.
Proof. unfold feed_session. by case_match. Qed.

(** Clean flags: each condition the flags stand for is absent. *)
Lemma feed_flags_clean f ft :
  Z.land (feed_flags f ft) (Z.lor RAW_FAULTS F_QUORUM_FAIL) = 0 ->
  Z.land (ft_flags ft) (Z.lor RAW_FAULTS F_QUORUM_FAIL) = 0 /\
  ft_classifier_ver ft = sc_classifier_ver (fl_cfg f) /\
  ft_calibration_ver ft = sc_calibration_ver (fl_cfg f) /\
  is_replay f ft = false /\
  Z.land (ft_anchor_health_mask ft) (sc_quorum_mask (fl_cfg f)) = sc_quorum_mask (fl_cfg f).
Proof.
  unfold feed_flags. cbv zeta. rewrite feed_session_cfg, !lor_land_0.
  intros [[[H1 H2] H3] H4].
  apply bit_if_clear in H2; [|done]. apply bit_if_clear in H3; [|done].
  apply bit_if_clear in H4; [|done]. split; [done|].
  apply orb_false_iff in H2 as [Ha Hb]. apply negb_false_iff in Ha, Hb, H4.
  repeat split; try lia. exact H3.
Qed.

(** No stage after the flags writes them, and the candidate and commit
    stages keep the configuration. *)
Lemma feed_mark_frame f ft :
  fl_cfg (feed_mark f ft) = fl_cfg f /\ fl_flags (feed_mark f ft) = feed_final_flags f ft /\
  fl_committed (feed_mark f ft) = fl_committed f.
Proof.
  unfold feed_mark. simpl. destruct (bool_decide _); simpl; unfold feed_session;
    case_match; done.
Qed.

Lemma feed_candidate_frame f raw fl now :
  fl_cfg (feed_candidate f raw fl now) = fl_cfg f /\
  fl_flags (feed_candidate f raw fl now) = fl_flags f /\
  fl_committed (feed_candidate f raw fl now) = fl_committed f /\
  fl_committed_ms (feed_candidate f raw fl now) = fl_committed_ms f /\
  fl_last_outside_ms (feed_candidate f raw fl now) = fl_last_outside_ms f /\
  fl_last_inside_ms (feed_candidate f raw fl now) = fl_last_inside_ms f.
Proof. unfold feed_candidate. repeat case_match; done. Qed.

Lemma feed_commit_frame f raw now :
  fl_cfg (feed_commit f raw now) = fl_cfg f /\ fl_flags (feed_commit f raw now) = fl_flags f /\
  fl_cand (feed_commit f raw now) = fl_cand f /\ fl_cand_n (feed_commit f raw now) = fl_cand_n f.
Proof. unfold feed_commit. repeat (case_match; simpl; try done). Qed.

(** The filter after a window, before the motion label. *)
Definition fed (f : filter) (ft : features) : filter :=
  feed_commit (feed_candidate (feed_mark f ft) (feed_raw f ft) (feed_final_flags f ft)
                 (ft_now_ms ft)) (feed_raw f ft) (ft_now_ms ft).

Lemma feed_fed f ft :
  exists m, side_filter_feed f ft =
    ((fed f ft) <| fl_motion := m |>, feed_decide ((fed f ft) <| fl_motion := m |>) ft).
Proof. unfold side_filter_feed. eauto. Qed.

Lemma fed_frame f ft :
  fl_cfg (fed f ft) = fl_cfg f /\ fl_flags (fed f ft) = feed_final_flags f ft.
Proof.
  unfold fed. set (g := feed_candidate _ _ _ _).
  destruct (feed_commit_frame g (feed_raw f ft) (ft_now_ms ft)) as (-> & -> & _). unfold g.
  destruct (feed_candidate_frame (feed_mark f ft) (feed_raw f ft) (feed_final_flags f ft)
              (ft_now_ms ft)) as (-> & -> & _).
  by destruct (feed_mark_frame f ft) as (-> & -> & _).
Qed.

(** The passive-unlock gate fails closed.  A window releases an unlock
    only when it carries none of the fault flags, its versions match, its
    sequence number is not a replay, every anchor of the quorum is healthy,
    and it does not itself say INSIDE against a committed OUTSIDE. *)
Theorem gate_fails_closed f ft :
  side_may_passive_unlock (Some (side_filter_feed f ft).2) (Some (fl_cfg f)) = true ->
  Z.land (ft_flags ft) (Z.lor RAW_FAULTS F_QUORUM_FAIL) = 0 /\
  ft_classifier_ver ft = sc_classifier_ver (fl_cfg f) /\
  ft_calibration_ver ft = sc_calibration_ver (fl_cfg f) /\
  is_replay f ft = false /\
  Z.land (ft_anchor_health_mask ft) (sc_quorum_mask (fl_cfg f)) = sc_quorum_mask (fl_cfg f) /\
  ~ (fl_committed f = L_OUTSIDE /\ raw_side (feed_raw f ft) = L_INSIDE).
Proof.
  destruct (feed_fed f ft) as [m ->]. rewrite gate_permits_iff. intros (_ & _ & Hfl).
  unfold feed_decide in Hfl. cbn [dc_flags snd] in Hfl. apply lor_land_0 in Hfl as [Hfl _].
  change (fl_flags ((fed f ft) <| fl_motion := m |>)) with (fl_flags (fed f ft)) in Hfl.
  rewrite (proj2 (fed_frame f ft)) in Hfl. unfold feed_final_flags in Hfl.
  apply lor_land_0 in Hfl as [Hfl Hc]. apply bit_if_clear in Hc; [|done].
  assert (GATE_FAULTS = Z.lor (Z.lor RAW_FAULTS F_QUORUM_FAIL) F_INSIDE_CONTRADICT) as Hg
    by done.
  rewrite Hg in Hfl. apply land_lor_0 in Hfl as [Hfl _].
  apply feed_flags_clean in Hfl as (? & ? & ? & ? & ?).
  repeat split; try done. intros [Hco Hraw]. by rewrite Hco, Hraw in Hc.
Qed.

(** ** Runs of the filter *)

(** A run, newest window first: the filter each window met, and the window. *)
Definition swindow : Type := filter * features.

Inductive sreach (c : side_cfg) : list swindow -> filter -> Prop :=
  | sreach_init : sreach c [] (side_filter_init (Some c))
  | sreach_feed h f ft :
      sreach c h f -> sreach c ((f, ft) :: h) (side_filter_feed f ft).1.

Definition w_side (w : swindow) : label := raw_side (feed_raw w.1 w.2).
Definition w_ms (w : swindow) : Z := ft_now_ms w.2.
Definition w_gap (w : swindow) : bool :=
  evidence_gap (feed_raw w.1 w.2) (feed_final_flags w.1 w.2).
Definition new_session (w : swindow) : bool :=
  negb (fl_obs_session_id w.1 =? 0) &&
  negb (ft_obs_session_id w.2 =? fl_obs_session_id w.1).

(** The newest windows of one session classified [s] in a row, windows that
    heard too little skipped. *)
Fixpoint agreeing (s : label) (h : list swindow) : Z :=
  match h with
  | [] => 0
  | w :: h =>
      let older := if new_session w then 0 else agreeing s h in
      if w_gap w then older else if bool_decide (w_side w = s) then 1 + older else 0
  end.

Lemma agreeing_nonneg s h : 0 <= agreeing s h.
Proof. induction h as [|w h IH]; simpl; [lia|]. repeat case_match; lia. Qed.

Lemma feed_mark_cand f ft :
  fl_cand (feed_mark f ft) = (if new_session (f, ft) then L_UNKNOWN else fl_cand f) /\
  fl_cand_n (feed_mark f ft) = (if new_session (f, ft) then 0 else fl_cand_n f).
Proof.
  unfold feed_mark, feed_session, new_session. simpl.
  destruct (bool_decide _); simpl; case_match; done.
Qed.

(** The candidate counter never exceeds the agreement of the run. *)
Definition cand_ok (f : filter) (h : list swindow) : Prop :=
  if bool_decide (fl_cand f = L_UNKNOWN) then fl_cand_n f = 0
  else fl_cand_n f <= agreeing (fl_cand f) h.

Lemma fed_cand f ft :
  fl_cand (fed f ft) = fl_cand (feed_candidate (feed_mark f ft) (feed_raw f ft)
                                  (feed_final_flags f ft) (ft_now_ms ft)) /\
  fl_cand_n (fed f ft) = fl_cand_n (feed_candidate (feed_mark f ft) (feed_raw f ft)
                                  (feed_final_flags f ft) (ft_now_ms ft)).
Proof. unfold fed. split; apply feed_commit_frame. Qed.

Lemma candidate_ok f ft h :
  cand_ok f h ->
  cand_ok (feed_candidate (feed_mark f ft) (feed_raw f ft) (feed_final_flags f ft)
             (ft_now_ms ft)) ((f, ft) :: h).
Proof.
  unfold cand_ok, feed_candidate. intros H.
  pose proof (agreeing_nonneg (w_side (f, ft)) h).
  destruct (feed_mark_cand f ft) as [Hc Hn]. revert Hc Hn.
  generalize (feed_mark f ft). intros g Hc Hn.
  cbn [agreeing]. change (evidence_gap _ _) with (w_gap (f, ft)).
  destruct (w_gap (f, ft)).
  { rewrite Hc, Hn. by destruct (new_session (f, ft)). }
  change (raw_side (feed_raw f ft)) with (w_side (f, ft)). rewrite Hc, Hn.
  destruct (bool_decide (w_side (f, ft) = _) && _) eqn:Hs; simpl.
  - apply andb_true_iff in Hs as [Hs Hu]. apply bool_decide_eq_true in Hs.
    destruct (new_session (f, ft)); [by rewrite Hs in Hu|].
    rewrite <- Hs in H. apply negb_true_iff in Hu. rewrite Hu in H.
    destruct (fl_cand_n f <? 255); simpl; rewrite Hc, <- Hs, Hu, ?Hn, bool_decide_eq_true_2 by done; lia.
  - destruct (bool_decide (w_side (f, ft) = L_UNKNOWN)); [done|].
    rewrite bool_decide_eq_true_2 by done. case_match; lia.
Qed.

(** A commit of OUTSIDE is backed by a window of the run. *)
Definition commit_backed (f : filter) (h : list swindow) : Prop :=
  exists recent w older, h = recent ++ w :: older /\
    w_side w = L_OUTSIDE /\ w_ms w = fl_committed_ms f /\
    sc_agree_windows (fl_cfg f) <= agreeing L_OUTSIDE (w :: older).

(** Every INSIDE window of the run is at most as late as [last_inside_ms]. *)
Definition inside_stamped (f : filter) (h : list swindow) : Prop :=
  Forall (fun w => w_side w = L_INSIDE -> w_ms w <= fl_last_inside_ms f) h.

Definition newest_first (h : list swindow) : Prop :=
  StronglySorted (fun w w' => w_ms w' <= w_ms w) h.

Record side_inv (c : side_cfg) (h : list swindow) (f : filter) : Prop := {
  si_cfg : fl_cfg f = c;
  si_cand : cand_ok f h;
  si_commit : fl_committed f = L_OUTSIDE ->
              fl_last_outside_ms f = fl_committed_ms f /\ commit_backed f h;
  si_inside : newest_first h -> inside_stamped f h;
}.

(** How the commit stage leaves OUTSIDE committed: it was, or it is now. *)
Lemma feed_commit_outside f raw now :
  fl_committed (feed_commit f raw now) = L_OUTSIDE ->
  (fl_committed f = L_OUTSIDE /\
   fl_committed_ms (feed_commit f raw now) = fl_committed_ms f /\
   fl_last_outside_ms (feed_commit f raw now) = fl_last_outside_ms f) \/
  (raw_side raw = L_OUTSIDE /\ sc_agree_windows (fl_cfg f) <= fl_cand_n f /\
   fl_committed_ms (feed_commit f raw now) = now /\
   fl_last_outside_ms (feed_commit f raw now) = now).
Proof.
  unfold feed_commit.
  destruct (negb (bool_decide (raw_side raw = L_UNKNOWN)) && _ && _) eqn:Hc.
  - apply andb_true_iff in Hc as [Hc _]. apply andb_true_iff in Hc as [_ Hc].
    apply Z.leb_le in Hc. destruct (raw_side raw); simpl; try done.
    intros _. right. auto.
  - intros H. left. revert H. repeat (case_match; simpl; try done).
Qed.

Lemma feed_commit_inside f raw now :
  fl_last_inside_ms (feed_commit f raw now) = fl_last_inside_ms f \/
  fl_last_inside_ms (feed_commit f raw now) = now.
Proof. unfold feed_commit. repeat (case_match; simpl; auto). Qed.

Lemma feed_mark_inside f ft :
  fl_last_inside_ms (feed_mark f ft) =
  if bool_decide (w_side (f, ft) = L_INSIDE) then ft_now_ms ft else fl_last_inside_ms f.
Proof.
  unfold feed_mark, w_side. simpl. destruct (bool_decide _); simpl; [done|].
  unfold feed_session. by case_match.
Qed.

Lemma feed_mark_commit f ft :
  fl_committed_ms (feed_mark f ft) = fl_committed_ms f /\
  fl_last_outside_ms (feed_mark f ft) = fl_last_outside_ms f.
Proof.
  unfold feed_mark. simpl. destruct (bool_decide _); simpl; unfold feed_session;
    case_match; done.
Qed.

(** A window with a side leaves that side the candidate. *)
Lemma candidate_side f raw flags now :
  raw_side raw <> L_UNKNOWN -> fl_cand (feed_candidate f raw flags now) = raw_side raw.
Proof.
  intros Hr. unfold feed_candidate, evidence_gap.
  rewrite (bool_decide_eq_false_2 (raw_side raw = L_UNKNOWN)) by done. simpl.
  destruct (bool_decide (raw_side raw = fl_cand f)) eqn:Hb; simpl; [|done].
  apply bool_decide_eq_true in Hb. by case_match.
Qed.

Lemma commit_backed_cons f g w h :
  fl_committed_ms g = fl_committed_ms f -> fl_cfg g = fl_cfg f ->
  commit_backed f h -> commit_backed g (w :: h).
Proof.
  intros Hm Hc (r & x & o & -> & ? & ? & ?). exists (w :: r), x, o.
  rewrite Hm, Hc. auto.
Qed.

Lemma fed_commit_ok f ft h :
  cand_ok f h ->
  (fl_committed f = L_OUTSIDE ->
   fl_last_outside_ms f = fl_committed_ms f /\ commit_backed f h) ->
  fl_committed (fed f ft) = L_OUTSIDE ->
  fl_last_outside_ms (fed f ft) = fl_committed_ms (fed f ft) /\
  commit_backed (fed f ft) ((f, ft) :: h).
Proof.
  intros Hcand Hold Hout. pose proof (candidate_ok f ft h Hcand) as Hc.
  pose proof (proj1 (fed_frame f ft)) as Hcfg. revert Hout Hcfg. unfold fed.
  destruct (feed_candidate_frame (feed_mark f ft) (feed_raw f ft) (feed_final_flags f ft)
              (ft_now_ms ft)) as (Hgc & _ & Hgco & Hgms & Hgo & _).
  destruct (feed_mark_frame f ft) as (Hmc & _ & Hmco).
  destruct (feed_mark_commit f ft) as [Hmms Hmo].
  pose proof (candidate_side (feed_mark f ft) (feed_raw f ft) (feed_final_flags f ft)
                (ft_now_ms ft)) as Hside.
  generalize dependent (feed_candidate (feed_mark f ft) (feed_raw f ft)
                          (feed_final_flags f ft) (ft_now_ms ft)).
  intros g Hc Hgc Hgco Hgms Hgo Hside Hout Hcfg.
  destruct (feed_commit_outside _ _ _ Hout) as [(Ho & Hms & Hlo)|(Hr & Ha & Hms & Hlo)].
  - destruct Hold as [Heq Hb]; [congruence|]. split; [congruence|].
    eapply commit_backed_cons; [|exact Hcfg|exact Hb]. congruence.
  - split; [congruence|]. exists [], (f, ft), h. split; [done|].
    unfold w_side, w_ms. cbn [fst snd]. split; [done|]. split; [done|].
    unfold cand_ok in Hc. rewrite Hside, Hr in Hc by congruence.
    rewrite bool_decide_eq_false_2 in Hc by done.
    rewrite Hcfg, <- Hmc, <- Hgc. etrans; [exact Ha|exact Hc].
Qed.

Lemma fed_inside_ok f ft h :
  (newest_first h -> inside_stamped f h) ->
  newest_first ((f, ft) :: h) -> inside_stamped (fed f ft) ((f, ft) :: h).
Proof.
  intros Hold Hs. inversion Hs as [|? ? Hs' Hall]; subst. specialize (Hold Hs').
  assert (fl_last_inside_ms (fed f ft) = ft_now_ms ft \/
          (w_side (f, ft) <> L_INSIDE /\
           fl_last_inside_ms (fed f ft) = fl_last_inside_ms f)) as Hl.
  { unfold fed.
    destruct (feed_candidate_frame (feed_mark f ft) (feed_raw f ft) (feed_final_flags f ft)
                (ft_now_ms ft)) as (_ & _ & _ & _ & _ & Hgi).
    rewrite feed_mark_inside in Hgi.
    destruct (feed_commit_inside (feed_candidate (feed_mark f ft) (feed_raw f ft)
      (feed_final_flags f ft) (ft_now_ms ft)) (feed_raw f ft) (ft_now_ms ft)) as [->| ->];
      [|by left].
    rewrite Hgi. case_bool_decide; auto. }
  unfold inside_stamped in *. rewrite Forall_forall in Hall.
  destruct Hl as [Hl|[Hn Hl]]; constructor; rewrite Hl.
  - intros _. unfold w_ms. simpl. lia.
  - apply Forall_forall. intros w Hw _. apply (Hall w Hw).
  - done.
  - done.
Qed.

Lemma side_inv_reach c h f : sreach c h f -> side_inv c h f.
Proof.
  induction 1 as [|h f ft _ [Hcfg Hcand Hcommit Hinside]].
  - constructor; try done. intros _. constructor.
  - destruct (feed_fed f ft) as [m ->]. cbn [fst]. constructor.
    + change (fl_cfg (fed f ft) = c). by rewrite (proj1 (fed_frame f ft)).
    + change (cand_ok (fed f ft) ((f, ft) :: h)). unfold cand_ok.
      destruct (fed_cand f ft) as [-> ->]. by apply candidate_ok.
    + intros H. exact (fed_commit_ok f ft h Hcand Hcommit H).
    + intros H. exact (fed_inside_ok f ft h Hinside H).
Qed.

(** C3: a passive unlock is backed by sustained agreement.  In every run
    with non-decreasing times, a window that releases an unlock looks back
    on a window, this one or an earlier one, that ended a series of at least
    agree_windows windows of one session all classified OUTSIDE with clean
    flags; it is no older than evidence_fresh_ms, or no older than
    outside_hold_ms with no INSIDE window at or after it. *)
Theorem permit_needs_agreement c h f ft :
  sreach c h f -> newest_first ((f, ft) :: h) ->
  side_may_passive_unlock (Some (side_filter_feed f ft).2) (Some c) = true ->
  exists recent w older,
    (f, ft) :: h = recent ++ w :: older /\
    w_side w = L_OUTSIDE /\
    sc_agree_windows c <= agreeing L_OUTSIDE (w :: older) /\
    (ft_now_ms ft - w_ms w <= sc_evidence_fresh_ms c \/
     (ft_now_ms ft - w_ms w <= sc_outside_hold_ms c /\
      Forall (fun w' => w_side w' <> L_INSIDE) recent)).
Proof.
  intros Hr Hs. pose proof (side_inv_reach _ _ _ Hr) as [Hcfg Hcand Hcommit Hinside].
  destruct (feed_fed f ft) as [m ->]. rewrite gate_permits_iff. intros (Hside & _ & _).
  pose proof (fed_commit_ok f ft h Hcand Hcommit) as Hback.
  pose proof (fed_inside_ok f ft h Hinside Hs) as Hin.
  pose proof (proj1 (fed_frame f ft)) as Hfc.
  generalize dependent (fed f ft). intros g Hside Hback Hin Hfc.
  unfold feed_decide, hold_outside in Hside. cbn [dc_side snd] in Hside.
  cbn [field_set fl_committed fl_cfg fl_committed_ms fl_last_outside_ms
       fl_last_inside_ms] in Hside.
  destruct (negb (bool_decide (fl_committed g = L_UNKNOWN)) && _ && _) eqn:He; [done|].
  destruct (Hback Hside) as [Hlo (recent & w & older & Heq & Hw & Hms & Ha)].
  exists recent, w, older. split; [done|]. split; [done|]. rewrite Hfc, Hcfg in *.
  split; [done|]. rewrite Hms.
  destruct (Z.ltb_spec (sc_evidence_fresh_ms c) (ft_now_ms ft - fl_committed_ms g));
    [right|by left].
  rewrite Hside in He. simpl in He. apply negb_false_iff in He.
  apply andb_true_iff in He as [He Hhold]. apply andb_true_iff in He as [_ Hlt].
  split; [lia|]. apply Forall_forall. intros w' Hw' Hwi.
  unfold inside_stamped in Hin. rewrite Forall_forall in Hin.
  assert (w' ∈ (f, ft) :: h) as Hel by (rewrite Heq; apply elem_of_app; by left).
  specialize (Hin w' Hel Hwi).
  rewrite Heq in Hs. unfold newest_first in Hs.
  enough (w_ms w <= w_ms w') by lia.
  eapply (StronglySorted_app_1_elem_of _ _ _ w' w Hs Hw'). apply list_elem_of_here.
Qed.

(** ** A replayed window moves the replay floor down *)

Definition session_mark (f : filter) : Z * Z := (fl_obs_session_id f, fl_last_seq f).

Lemma feed_candidate_session f raw fl now :
  session_mark (feed_candidate f raw fl now) = session_mark f.
Proof. unfold feed_candidate. repeat case_match; done. Qed.

Lemma feed_commit_session f raw now : session_mark (feed_commit f raw now) = session_mark f.
Proof. unfold feed_commit. repeat (case_match; simpl; try done). Qed.

Lemma fed_session f ft :
  fl_obs_session_id (fed f ft) = ft_obs_session_id ft /\ fl_last_seq (fed f ft) = ft_seq ft.
Proof.
  assert (session_mark (fed f ft) = session_mark (feed_mark f ft)) as H.
  { unfold fed. by rewrite feed_commit_session, feed_candidate_session. }
  unfold session_mark in H. by injection H.
Qed.

(** The replay check remembers the last sequence number it saw and not
    the highest.  After any window that was itself rejected as a replay, the
    next window of that session is accepted as new whenever its number
    exceeds the replayed one, however old it is. *)
Theorem replay_lowers_floor f ft ft' :
  is_replay f ft = true ->
  ft_obs_session_id ft <> 0 -> ft_obs_session_id ft' = ft_obs_session_id ft ->
  ft_seq ft < ft_seq ft' ->
  is_replay (side_filter_feed f ft).1 ft' = false.
Proof.
  intros _ Hs0 Hs Hq. destruct (feed_fed f ft) as [m ->]. cbn [fst].
  pose proof (fed_session f ft) as [Ho Hl].
  generalize dependent (fed f ft). intros g Ho Hl.
  unfold is_replay, feed_session. simpl. rewrite Ho, Hs, Z.eqb_refl, andb_false_r.
  simpl. rewrite Hl. apply andb_false_iff. right. lia.
Qed.

(** ** Witnesses *)

(** A clean window in which the outside witness is 10 dB stronger. *)
Definition outside_window (seq now : Z) : features :=
  mk_features 7 seq now 1200 (-300) (-70) (-60) RSSI_ABSENT 5 5 0 (-1) 0 0 1 1 6 0.

Definition run_side (fts : list features) : list swindow * filter :=
  fold_left (fun s ft => ((s.2, ft) :: s.1, (side_filter_feed s.2 ft).1)) fts
    ([], side_filter_init (Some side_defaults)).

Lemma run_side_reach fts : sreach side_defaults (run_side fts).1 (run_side fts).2.
Proof.
  unfold run_side.
  assert (forall s, sreach side_defaults s.1 s.2 ->
    let r := fold_left (fun s ft => ((s.2, ft) :: s.1, (side_filter_feed s.2 ft).1)) fts s in
    sreach side_defaults r.1 r.2) as Hgen; [|apply Hgen; constructor].
  induction fts as [|ft fts IH]; intros [h f] Hr; [done|].
  apply IH. by constructor.
Qed.

Definition two_windows : list features := [outside_window 1 1000; outside_window 2 3000].

Lemma outside_needs_evidence_witness :
  0 < sc_outside_margin_db side_defaults /\
  Z.land (ft_flags (outside_window 1 1000)) RAW_FAULTS = 0.
Proof.
  split; [reflexivity|].
  exact (proj1 (outside_needs_evidence side_defaults (outside_window 1 1000)
                  eq_refl eq_refl)).
Defined.

Lemma classify_mirror_witness :
  raw_side (side_classify_raw (Some side_defaults) (Some (mirrored (outside_window 1 1000))))
  = L_INSIDE.
Proof.
  exact (f_equal fst (classify_mirror side_defaults (outside_window 1 1000)
                        eq_refl eq_refl)).
Defined.

Lemma gate_fails_closed_witness :
  is_replay (run_side two_windows).2 (outside_window 3 5000) = false.
Proof.
  apply (gate_fails_closed (run_side two_windows).2 (outside_window 3 5000)).
  vm_compute. reflexivity.
Defined.

Lemma permit_needs_agreement_witness :
  exists recent w older,
    ((run_side two_windows).2, outside_window 3 5000) :: (run_side two_windows).1
      = recent ++ w :: older /\
    w_side w = L_OUTSIDE /\
    sc_agree_windows side_defaults <= agreeing L_OUTSIDE (w :: older) /\
    (5000 - w_ms w <= sc_evidence_fresh_ms side_defaults \/
     (5000 - w_ms w <= sc_outside_hold_ms side_defaults /\
      Forall (fun w' => w_side w' <> L_INSIDE) recent)).
Proof.
  apply (permit_needs_agreement side_defaults (run_side two_windows).1
           (run_side two_windows).2 (outside_window 3 5000)).
  - apply run_side_reach.
  - repeat constructor; vm_compute; discriminate.
  - vm_compute. reflexivity.
Defined.

Lemma replay_lowers_floor_witness :
  is_replay (run_side two_windows).2 (outside_window 1 5000) = true /\
  is_replay (side_filter_feed (run_side two_windows).2 (outside_window 1 5000)).1
    (outside_window 2 5100) = false.
Proof.
  split; [vm_compute; reflexivity|].
  apply replay_lowers_floor; vm_compute; first [reflexivity|discriminate].
Defined.
