(* ===== verification/SideLog.v ===== *)
(** * Checksummed side-decision records

    Models [modules/ultrawidelock_anchor/src/ultrawidelock_side_log.c]: the
    CRC-16 shared by the log records and the latch blob, and the 48-byte log
    record with its check.  The record is its little-endian byte image. *)

From Stdlib Require Import ZArith Lia Bool.
From stdpp Require Import base list numbers.
From S2P Require Import Prelude Wire Side.

Local Open Scope Z_scope.

(** ** The checksum *)

(** One shift of the inner loop. *)
Definition crc_shift (crc : Z) : Z :=
  if negb (Z.land crc 0x8000 =? 0) then u16 (Z.lxor (Z.shiftl crc 1) 0x1021)
  else u16 (Z.shiftl crc 1).

(** The eight shifts of one byte. *)
Definition crc_shifts (crc : Z) : Z := Nat.iter 8 crc_shift crc.

Definition crc_byte (crc b : Z) : Z := crc_shifts (Z.lxor crc (u16 (Z.shiftl b 8))).

Definition side_log_crc16 (data : list Z) : Z := fold_left crc_byte data 0xffff.

(** ** The record *)

Definition SIDE_LOG_MAGIC : Z := 0x5344.
Definition SIDE_LOG_VERSION : Z := 1.

Definition motion_code (m : motion) : Z :=
  match m with
  | MOTION_UNKNOWN => 0 | MOTION_OUTSIDE_FAR => 1 | MOTION_OUTSIDE_APPROACHING => 2
  | MOTION_OUTSIDE_NEAR => 3 | MOTION_THRESHOLD => 4 | MOTION_INSIDE_NEAR => 5
  | MOTION_INSIDE_FAR => 6
  end.

(** The bytes before the checksum. *)
Definition side_log_body (feat : features) (dec : decision) (raw : option side_raw) : list Z :=
  put_le 2 SIDE_LOG_MAGIC ++ put_le 1 SIDE_LOG_VERSION ++
  put_le 1 (label_code (dc_side dec)) ++ put_le 1 (motion_code (dc_motion dec)) ++
  put_le 1 (dc_confidence dec) ++ put_le 1 (dc_contrib_mask dec) ++ put_le 1 (dc_flags dec) ++
  put_le 4 (dc_obs_session_id dec) ++ put_le 4 (dc_seq dec) ++ put_le 4 (ft_now_ms feat) ++
  put_le 4 (ft_uwb_range_mm feat) ++ put_le 2 (ft_rssi_inside feat) ++
  put_le 2 (ft_rssi_outside feat) ++ put_le 2 (ft_rssi_threshold feat) ++
  put_le 2 (match raw with Some r => raw_oi_db r | None => 0 end) ++
  put_le 1 (dc_classifier_ver dec) ++ put_le 1 (dc_calibration_ver dec) ++
  put_le 1 (ft_pkts_inside feat) ++ put_le 1 (ft_pkts_outside feat) ++
  put_le 1 (ft_pkts_threshold feat) ++ put_le 1 0.

Definition side_log_pack (feat : features) (dec : decision) (raw : option side_raw) : list Z :=
  let body := side_log_body feat dec raw in
  body ++ put_le 2 (side_log_crc16 body) ++ replicate 8 0.

Definition get_le16 (rec : list Z) (i : nat) : Z := nth i rec 0 + 256 * nth (i + 1) rec 0.

(** [offsetof(struct ultrawidelock_side_log_rec, crc16)]. *)
Definition CRC_OFFSET : nat := 38.

Definition side_log_check (rec : list Z) : Z :=
  if negb (get_le16 rec 0 =? SIDE_LOG_MAGIC) || negb (nth 2 rec 0 =? SIDE_LOG_VERSION) then -1
  else if side_log_crc16 (take CRC_OFFSET rec) =? get_le16 rec CRC_OFFSET then 0 else -1.

(** ** The checksum detects any corruption of one byte *)

Lemma land_msb c : in_u 16 c -> (Z.land c 0x8000 =? 0) = (c <? 0x8000).
Proof.
  intros [H0 H1]. change 0x8000 with (2 ^ 15) at 1.
  destruct (Z.ltb_spec c 0x8000).
  - apply Z.eqb_eq. apply Z.bits_inj'. intros i Hi.
    rewrite Z.land_spec, Z.pow2_bits_eqb, Z.bits_0 by lia.
    destruct (Z.eqb_spec 15 i) as [<-|]; [|apply andb_false_r].
    rewrite andb_true_r. destruct (Z.eq_dec c 0) as [->|]; [done|].
    apply Z.bits_above_log2; [lia|]. apply Z.log2_lt_pow2; lia.
  - apply Z.eqb_neq. intros He. apply (f_equal (fun z => Z.testbit z 15)) in He.
    rewrite Z.land_spec, Z.pow2_bits_eqb, Z.bits_0, andb_true_r in He by lia.
    assert (Z.testbit c 15 = true); [|congruence].
    rewrite Z.testbit_true by lia. assert (c / 2 ^ 15 = 1) as -> by zdiv. done.
Qed.

Lemma u16_range z : in_u 16 (u16 z).
Proof. apply wrap_range. lia. Qed.

(** The feedback is visible in the low bit, so a shift loses nothing. *)
Lemma crc_shift_odd c : in_u 16 c -> Z.odd (crc_shift c) = negb (c <? 0x8000).
Proof.
  intros Hc. unfold crc_shift. rewrite land_msb by done.
  assert (forall z, Z.odd (u16 z) = Z.odd z) as Hw.
  { intros z. unfold wrap. rewrite <- !Z.bit0_odd. apply Z.mod_pow2_bits_low. lia. }
  destruct (c <? 0x8000); simpl; rewrite Hw.
  - rewrite Z.shiftl_mul_pow2 by lia. rewrite Z.odd_mul. apply andb_false_r.
  - rewrite <- Z.bit0_odd, Z.lxor_spec, Z.bit0_odd, Z.shiftl_mul_pow2 by lia.
    rewrite Z.odd_mul. by rewrite andb_false_r.
Qed.

Lemma u16_lxor a b : u16 (Z.lxor a b) = Z.lxor (u16 a) (u16 b).
Proof.
  apply Z.bits_inj'. intros i Hi. unfold wrap.
  destruct (Z.ltb_spec i 16).
  - by rewrite Z.lxor_spec, !Z.mod_pow2_bits_low, Z.lxor_spec by lia.
  - by rewrite Z.lxor_spec, !Z.mod_pow2_bits_high by lia.
Qed.

Lemma crc_shift_inj a b :
  in_u 16 a -> in_u 16 b -> crc_shift a = crc_shift b -> a = b.
Proof.
  intros Ha Hb He.
  assert ((a <? 0x8000) = (b <? 0x8000)) as Hm.
  { apply (f_equal Z.odd) in He. rewrite !crc_shift_odd in He by done.
    by destruct (a <? 0x8000), (b <? 0x8000). }
  assert (u16 (Z.shiftl a 1) = u16 (Z.shiftl b 1)) as Hs.
  { unfold crc_shift in He. rewrite !land_msb, Hm in He by done.
    destruct (b <? 0x8000); [done|]. simpl in He. rewrite !u16_lxor in He.
    apply (f_equal (fun z => Z.lxor z (u16 0x1021))) in He.
    by rewrite !Z.lxor_assoc, Z.lxor_nilpotent, !Z.lxor_0_r in He. }
  unfold wrap in Hs. rewrite !Z.shiftl_mul_pow2 in Hs by lia. unfold in_u in *.
  destruct (Z.ltb_spec a 0x8000), (Z.ltb_spec b 0x8000); try done; zdiv.
Qed.

Lemma crc_shift_range c : in_u 16 (crc_shift c).
Proof. unfold crc_shift. case_match; apply u16_range. Qed.

Lemma crc_shifts_inj a b :
  in_u 16 a -> in_u 16 b -> crc_shifts a = crc_shifts b -> a = b.
Proof.
  unfold crc_shifts. intros Ha Hb. generalize 8%nat. intros n. revert a b Ha Hb.
  induction n as [|n IH]; intros a b Ha Hb; [done|].
  rewrite !Nat.iter_succ_r. intros He. apply crc_shift_inj; [done|done|].
  apply IH; [apply crc_shift_range..|done].
Qed.

Lemma lxor_range a b : in_u 16 a -> in_u 16 b -> in_u 16 (Z.lxor a b).
Proof.
  intros Ha Hb. rewrite <- (wrap_id 16 a), <- (wrap_id 16 b), <- u16_lxor by done.
  apply u16_range.
Qed.

Lemma crc_shifts_range c : in_u 16 c -> in_u 16 (crc_shifts c).
Proof. intros _. unfold crc_shifts. simpl. apply crc_shift_range. Qed.

Lemma crc_byte_range c b : in_u 16 c -> in_u 16 (crc_byte c b).
Proof. intros. apply crc_shifts_range, lxor_range; [done|apply u16_range]. Qed.

Lemma crc_byte_inj_l c c' b :
  in_u 16 c -> in_u 16 c' -> crc_byte c b = crc_byte c' b -> c = c'.
Proof.
  intros Hc Hc' He. apply crc_shifts_inj in He; try (apply lxor_range; [done|apply u16_range]).
  apply (f_equal (fun z => Z.lxor z (u16 (Z.shiftl b 8)))) in He.
  by rewrite !Z.lxor_assoc, Z.lxor_nilpotent, !Z.lxor_0_r in He.
Qed.

Lemma crc_byte_inj_r c b b' :
  in_u 16 c -> byte_ok b -> byte_ok b' -> crc_byte c b = crc_byte c b' -> b = b'.
Proof.
  intros Hc Hb Hb' He. apply crc_shifts_inj in He; try (apply lxor_range; [done|apply u16_range]).
  apply (f_equal (Z.lxor c)) in He.
  rewrite <- !Z.lxor_assoc, Z.lxor_nilpotent, !Z.lxor_0_l in He.
  rewrite !Z.shiftl_mul_pow2 in He by lia. unfold wrap, byte_ok in *. zdiv.
Qed.

Lemma crc_fold_inj l c c' :
  in_u 16 c -> in_u 16 c' -> fold_left crc_byte l c = fold_left crc_byte l c' -> c = c'.
Proof.
  revert c c'. induction l as [|b l IH]; intros c c' Hc Hc' He; [done|].
  apply (crc_byte_inj_l c c' b); [done|done|].
  apply IH; [by apply crc_byte_range..|done].
Qed.

Lemma crc_fold_range l c : in_u 16 c -> in_u 16 (fold_left crc_byte l c).
Proof.
  revert c. induction l as [|b l IH]; intros c Hc; [done|]. apply IH, crc_byte_range, Hc.
Qed.

(** Two byte strings that differ in exactly one byte have different
    checksums. *)
Lemma crc16_one_byte pre post b b' :
  byte_ok b -> byte_ok b' -> b <> b' ->
  side_log_crc16 (pre ++ b :: post) <> side_log_crc16 (pre ++ b' :: post).
Proof.
  intros Hb Hb' Hne. unfold side_log_crc16. rewrite !fold_left_app. simpl. intros He.
  assert (in_u 16 (fold_left crc_byte pre 0xffff)) as Hr
    by (apply crc_fold_range; unfold in_u; lia).
  apply crc_fold_inj in He; [|by apply crc_byte_range..].
  by apply crc_byte_inj_r in He.
Qed.

(** Overwriting one byte with another changes the checksum. *)
Lemma crc16_insert l i b :
  Forall byte_ok l -> (i < length l)%nat -> byte_ok b -> l !! i <> Some b ->
  side_log_crc16 (<[i := b]> l) <> side_log_crc16 l.
Proof.
  intros Hl Hi Hb Hne. destruct (lookup_lt_is_Some_2 l i Hi) as [x Hx].
  assert (byte_ok x) by (rewrite Forall_lookup in Hl; eauto).
  rewrite insert_take_drop by lia. rewrite <- (take_drop_middle l i x Hx) at 3.
  apply crc16_one_byte; [done|done|]. congruence.
Qed.

Lemma crc16_range l : in_u 16 (side_log_crc16 l).
Proof. apply crc_fold_range. unfold in_u. lia. Qed.

(** ** The record round trip *)

Lemma length_body feat dec raw : length (side_log_body feat dec raw) = CRC_OFFSET.
Proof. unfold side_log_body. rewrite !length_app, !length_put_le. done. Qed.

Lemma side_log_pack_bytes feat dec raw : Forall byte_ok (side_log_pack feat dec raw).
Proof.
  unfold side_log_pack, side_log_body.
  repeat (apply Forall_app; split); try apply put_le_bytes.
  repeat constructor; unfold byte_ok; lia.
Qed.

(** The two checksum bytes read back. *)
Lemma get_le16_put (l rest : list Z) v :
  in_u 16 v -> get_le16 (l ++ put_le 2 v ++ rest) (length l) = v.
Proof.
  intros [H0 H1]. unfold get_le16. rewrite (app_nth2 l) by lia.
  rewrite (app_nth2 l) by lia. replace (length l - length l)%nat with 0%nat by lia.
  replace (length l + 1 - length l)%nat with 1%nat by lia. simpl.
  rewrite Z.shiftr_div_pow2 by lia. unfold wrap. zdiv.
Qed.

(** A changed body byte changes the checksum and not the stored one. *)
Lemma body_corrupt feat dec raw i b :
  (i < CRC_OFFSET)%nat -> byte_ok b -> side_log_pack feat dec raw !! i <> Some b ->
  side_log_crc16 (take CRC_OFFSET (<[i := b]> (side_log_pack feat dec raw))) <>
  get_le16 (<[i := b]> (side_log_pack feat dec raw)) CRC_OFFSET.
Proof.
  intros Hi Hb Hne. pose proof (length_body feat dec raw) as Hlen.
  pose proof (side_log_pack_bytes feat dec raw) as Hbytes.
  unfold side_log_pack in *. set (body := side_log_body feat dec raw) in *.
  rewrite insert_app_l by lia. rewrite take_app_length' by (rewrite length_insert; lia).
  rewrite <- Hlen, <- (length_insert body i b) at 1.
  rewrite get_le16_put by apply crc16_range.
  rewrite lookup_app_l in Hne by lia.
  apply crc16_insert; [|lia|done|done]. by apply Forall_app in Hbytes as [? _].
Qed.

(** A changed checksum byte no longer matches the body. *)
Lemma crc_corrupt feat dec raw i b :
  ~ (i < CRC_OFFSET)%nat -> (i < CRC_OFFSET + 2)%nat -> byte_ok b ->
  side_log_pack feat dec raw !! i <> Some b ->
  side_log_crc16 (take CRC_OFFSET (<[i := b]> (side_log_pack feat dec raw))) <>
  get_le16 (<[i := b]> (side_log_pack feat dec raw)) CRC_OFFSET.
Proof.
  intros Hge Hi Hb Hne. pose proof (length_body feat dec raw) as Hlen.
  unfold side_log_pack in *. set (body := side_log_body feat dec raw) in *.
  rewrite insert_app_r_alt by lia. rewrite take_app_length' by done.
  rewrite lookup_app_r in Hne by lia.
  pose proof (crc16_range body) as [Hr0 Hr1].
  unfold get_le16. rewrite !(app_nth2 body) by lia. rewrite Hlen in *.
  replace (CRC_OFFSET - CRC_OFFSET)%nat with 0%nat by lia.
  replace (CRC_OFFSET + 1 - CRC_OFFSET)%nat with 1%nat by lia.
  generalize dependent (side_log_crc16 body). intros v Hne Hr0 Hr1.
  assert (i - CRC_OFFSET = 0 \/ i - CRC_OFFSET = 1)%nat as [Hk|Hk] by lia;
    rewrite Hk in Hne |- *; simpl in *;
    rewrite Z.shiftr_div_pow2 in * by lia; unfold wrap, byte_ok in *;
    intros He; apply Hne; f_equal; zdiv.
Qed.

(** Every packed record checks, is exactly 48 bytes long, and rejects
    any change of a single byte before the padding: the checksum of two byte
    strings that differ in one byte is never the same. *)
Theorem side_log_detects feat dec raw :
  side_log_check (side_log_pack feat dec raw) = 0 /\
  length (side_log_pack feat dec raw) = 48%nat /\
  forall i b, (i < CRC_OFFSET + 2)%nat -> byte_ok b ->
    side_log_pack feat dec raw !! i <> Some b ->
    side_log_check (<[i := b]> (side_log_pack feat dec raw)) = -1.
Proof.
  set (body := side_log_body feat dec raw).
  assert (length body = CRC_OFFSET) as Hlen by apply length_body.
  assert (get_le16 (side_log_pack feat dec raw) CRC_OFFSET = side_log_crc16 body) as Hcrc.
  { rewrite <- Hlen. apply get_le16_put, crc16_range. }
  split; [|split].
  - unfold side_log_check. rewrite Hcrc.
    change (get_le16 (side_log_pack feat dec raw) 0) with SIDE_LOG_MAGIC.
    change (nth 2 (side_log_pack feat dec raw) 0) with SIDE_LOG_VERSION.
    assert (take CRC_OFFSET (side_log_pack feat dec raw) = body) as ->
      by (apply take_app_length'; exact Hlen).
    rewrite !Z.eqb_refl. reflexivity.
  - unfold side_log_pack. fold body. rewrite !length_app, Hlen, length_put_le, length_replicate.
    done.
  - intros i b Hi Hb Hne. unfold side_log_check.
    destruct (negb _ || negb _); [done|].
    destruct (Z.eqb_spec (side_log_crc16 (take CRC_OFFSET (<[i:=b]> (side_log_pack feat dec raw))))
                (get_le16 (<[i:=b]> (side_log_pack feat dec raw)) CRC_OFFSET)) as [He|];
      [exfalso|done].
    destruct (decide (i < CRC_OFFSET)%nat) as [Hlt|Hge].
    + by apply (body_corrupt feat dec raw i b).
    + by apply (crc_corrupt feat dec raw i b).
Qed.
