(* ===== verification/Latch.v ===== *)
(** * The inside veto

    Models [modules/ultrawidelock_anchor/src/ultrawidelock_latch.c]: the
    per-credential records, the run of agreeing windows, the passive-unlock
    question with its refusal reasons, and the persisted blob.  A pointer
    into the record array is an index. *)

From Stdlib Require Import ZArith Lia Bool.
From stdpp Require Import base list numbers.
From S2P Require Import Prelude Side SideLog.

Local Open Scope Z_scope.

Definition LATCH_BLOB_VER : Z := 1.
Definition LATCH_MAX_CREDS : nat := 8.
Definition LATCH_CRED_ANY : Z := 0xFFFFFFFF.
Definition LATCH_REC_LEN : nat := 21.
Definition LATCH_BLOB_LEN : nat := 2 + LATCH_MAX_CREDS * LATCH_REC_LEN + 2.

Definition R_NO_SESSION : Z := 0x01.
Definition R_NO_RECORD : Z := 0x02.
Definition R_NO_OPPORTUNITY : Z := 0x04.
Definition R_DWELL : Z := 0x08.
Definition R_WINDOWS : Z := 0x10.
Definition R_STALE : Z := 0x20.

Definition F_USED : Z := 0x01.
Definition F_OPPORTUNITY : Z := 0x02.

(** [struct ultrawidelock_latch_cfg]. *)
Record latch_cfg := mk_latch_cfg {
  lc_entry_dwell_ms : Z;
  lc_clear_windows : Z;
  lc_clear_min_mm : Z;
  lc_clear_valid_ms : Z;
  lc_opportunity_valid_ms : Z;
}.

(** [struct ultrawidelock_latch_rec]. *)
Record latch_rec := mk_rec {
  lr_cred_id : Z;
  lr_confirmed_inside_ms : Z;
  lr_opportunity_ms : Z;
  lr_flags : Z;
}.

#[export] Instance latch_rec_eta : Eta latch_rec := fun r =>
  mk_rec (lr_cred_id r) (lr_confirmed_inside_ms r) (lr_opportunity_ms r) (lr_flags r).

#[export] Instance latch_rec_eq_dec : EqDecision latch_rec.
Proof. solve_decision. Defined.

Definition zero_rec : latch_rec := mk_rec 0 0 0 0.

(** [struct ultrawidelock_latch]. *)
Record latch := mk_latch {
  la_cfg : latch_cfg;
  la_rec : list latch_rec;
  la_active : bool;
  la_active_cred : Z;
  la_agree_n : Z;
  la_last_outside_ms : Z;
}.

#[export] Instance latch_eta : Eta latch := fun l =>
  mk_latch (la_cfg l) (la_rec l) (la_active l) (la_active_cred l) (la_agree_n l)
    (la_last_outside_ms l).

Definition latch_defaults : latch_cfg := {|
  lc_entry_dwell_ms := 60000;
  lc_clear_windows := 3;
  lc_clear_min_mm := 3000;
  lc_clear_valid_ms := 10000;
  lc_opportunity_valid_ms := 0;
|}.

Definition latch_init (cfg : option latch_cfg) : latch := {|
  la_cfg := default latch_defaults cfg;
  la_rec := replicate LATCH_MAX_CREDS zero_rec;
  la_active := false;
  la_active_cred := 0;
  la_agree_n := 0;
  la_last_outside_ms := 0;
|}.

Definition used (r : latch_rec) : bool := negb (Z.land (lr_flags r) F_USED =? 0).

Definition is_cred (cred_id : Z) (r : latch_rec) : bool :=
  used r && (lr_cred_id r =? cred_id).

(** Index of the first record that satisfies [p]. *)
Fixpoint find_index {A} (p : A -> bool) (l : list A) : option nat :=
  match l with
  | [] => None
  | x :: l => if p x then Some O else S <$> find_index p l
  end.

Definition rec_find (recs : list latch_rec) (cred_id : Z) : option nat :=
  find_index (is_cred cred_id) recs.

(** The scan of [rec_alloc] from index [i] with the victim so far: it breaks
    at the first free slot, and keeps the stalest record otherwise. *)
Fixpoint victim_scan (recs : list latch_rec) (i : nat) (victim : option (nat * latch_rec))
    : option nat :=
  match recs with
  | [] => fst <$> victim
  | r :: recs =>
      if negb (used r) then Some i
      else
        let victim' :=
          match victim with
          | None => Some (i, r)
          | Some (j, v) =>
              if lr_confirmed_inside_ms r <? lr_confirmed_inside_ms v then Some (i, r)
              else Some (j, v)
          end in
        victim_scan recs (S i) victim'
  end.

Definition rec_alloc (recs : list latch_rec) (cred_id now_ms : Z)
    : option (nat * list latch_rec) :=
  match victim_scan recs 0 None with
  | None => None
  | Some i => Some (i, <[i := mk_rec cred_id now_ms 0 F_USED]> recs)
  end.

Definition latch_session_open (l : latch) (cred_id : Z) : latch :=
  l <| la_active := true |> <| la_active_cred := cred_id |>
    <| la_agree_n := 0 |> <| la_last_outside_ms := 0 |>.

Definition latch_session_close (l : latch) : latch :=
  l <| la_active := false |> <| la_active_cred := 0 |>
    <| la_agree_n := 0 |> <| la_last_outside_ms := 0 |>.

(** A crossing opportunity written into a used record. *)
Definition grant_opportunity (now_ms : Z) (r : latch_rec) : latch_rec :=
  r <| lr_flags := Z.lor (lr_flags r) F_OPPORTUNITY |> <| lr_opportunity_ms := now_ms |>.

(** The record of a credential, found or allocated. *)
Definition rec_get (recs : list latch_rec) (cred_id now_ms : Z)
    : option (nat * list latch_rec) :=
  match rec_find recs cred_id with
  | Some i => Some (i, recs)
  | None => rec_alloc recs cred_id now_ms
  end.

Definition latch_note_grant (l : latch) (cred_id now_ms : Z) : latch :=
  if cred_id =? LATCH_CRED_ANY then l
  else match rec_get (la_rec l) cred_id now_ms with
       | None => l
       | Some (i, recs) =>
           let recs := alter (fun r => r <| lr_confirmed_inside_ms := now_ms |>
                                         <| lr_opportunity_ms := now_ms |>
                                         <| lr_flags := Z.lor F_USED F_OPPORTUNITY |>) i recs in
           let recs := imap (fun j o => if (j =? i)%nat || negb (used o) then o
                                        else grant_opportunity now_ms o) recs in
           l <| la_rec := recs |> <| la_agree_n := 0 |> <| la_last_outside_ms := 0 |>
       end.

Definition latch_note_opportunity (l : latch) (cred_id now_ms : Z) : latch :=
  if cred_id =? LATCH_CRED_ANY
  then l <| la_rec := map (fun r => if negb (used r) then r else grant_opportunity now_ms r)
                          (la_rec l) |>
  else match rec_get (la_rec l) cred_id now_ms with
       | None => l
       | Some (i, recs) => l <| la_rec := alter (grant_opportunity now_ms) i recs |>
       end.

Definition latch_note_window (l : latch) (cred_id : Z) (side : label) (range_mm now_ms : Z)
    : latch :=
  if negb (la_active l) || negb (la_active_cred l =? cred_id) then l
  else match side with
       | L_INSIDE => l <| la_agree_n := 0 |> <| la_last_outside_ms := 0 |>
       | L_OUTSIDE =>
           if (la_agree_n l =? 0) &&
              ((range_mm <? 0) || (range_mm <? lc_clear_min_mm (la_cfg l)))
           then l
           else (if la_agree_n l <? 0xFF then l <| la_agree_n := la_agree_n l + 1 |> else l)
                  <| la_last_outside_ms := now_ms |>
       | _ => l
       end.

(** The refusal bits of the passive-unlock question; 0 permits. *)
Definition latch_reason (l : option latch) (cred_id now_ms : Z) : Z :=
  match l with
  | None => R_NO_SESSION
  | Some l =>
      let why := bit_if (negb (la_active l) || negb (la_active_cred l =? cred_id) ||
                         (cred_id =? LATCH_CRED_ANY)) R_NO_SESSION in
      let why := Z.lor why
        (match rec_find (la_rec l) cred_id with
         | None => R_NO_RECORD
         | Some i =>
             let r := nth i (la_rec l) zero_rec in
             let have_opp := negb (Z.land (lr_flags r) F_OPPORTUNITY =? 0) in
             let have_opp :=
               if have_opp && negb (lc_opportunity_valid_ms (la_cfg l) =? 0) &&
                  (lc_opportunity_valid_ms (la_cfg l) <? now_ms - lr_opportunity_ms r)
               then false else have_opp in
             let since_inside := now_ms - lr_confirmed_inside_ms r in
             Z.lor (bit_if (negb have_opp) R_NO_OPPORTUNITY)
                   (bit_if ((0 <=? since_inside) &&
                            (since_inside <? lc_entry_dwell_ms (la_cfg l))) R_DWELL)
         end) in
      Z.lor why
        (if la_agree_n l <? lc_clear_windows (la_cfg l) then R_WINDOWS
         else bit_if (negb (lc_clear_valid_ms (la_cfg l) =? 0) &&
                      (lc_clear_valid_ms (la_cfg l) <? now_ms - la_last_outside_ms l)) R_STALE)
  end.

Definition latch_may_passive_unlock (l : option latch) (cred_id now_ms : Z) : bool :=
  latch_reason l cred_id now_ms =? 0.

(** ** The blob *)

Definition put_i64 (v : Z) : list Z := put_be 8 (u64 v).
Definition get_i64 (p : list Z) : Z := i64 (get_be p).

Definition put_rec (r : latch_rec) : list Z :=
  put_be 4 (lr_cred_id r) ++ put_i64 (lr_confirmed_inside_ms r) ++
  put_i64 (lr_opportunity_ms r) ++ [lr_flags r].

Definition latch_serialize (l : latch) (cap : nat) : list Z :=
  if (cap <? LATCH_BLOB_LEN)%nat then []
  else
    let recs := List.filter used (la_rec l) in
    let body := [LATCH_BLOB_VER; Z.of_nat (length recs)] ++ concat (map put_rec recs) in
    body ++ put_be 2 (side_log_crc16 body).

Definition get_rec (p : list Z) : latch_rec :=
  mk_rec (get_be (take 4 p)) (get_i64 (take 8 (drop 4 p))) (get_i64 (take 8 (drop 12 p)))
    (Z.lor (Z.land (nth 20 p 0) (Z.lor F_USED F_OPPORTUNITY)) F_USED).

(** The [n] records from [p] on. *)
Fixpoint get_recs (n : nat) (p : list Z) : list latch_rec :=
  match n with
  | O => []
  | S n => get_rec p :: get_recs n (drop LATCH_REC_LEN p)
  end.

Definition latch_deserialize (cfg : option latch_cfg) (buf : option (list Z)) : latch * bool :=
  let l := latch_init cfg in
  match buf with
  | None => (l, false)
  | Some buf =>
      let len := length buf in
      if (len <? 4)%nat then (l, false)
      else if negb (nth 0 buf 0 =? LATCH_BLOB_VER) then (l, false)
      else
        let n := Z.to_nat (nth 1 buf 0) in
        if (LATCH_MAX_CREDS <? n)%nat then (l, false)
        else
          let need := (2 + n * LATCH_REC_LEN)%nat in
          if negb (len =? need + 2)%nat then (l, false)
          else
            let got := get_be (take 2 (drop need buf)) in
            let want := side_log_crc16 (take need buf) in
            if negb (got =? want) then (l, false)
            else (l <| la_rec := get_recs n (drop 2 buf) ++ drop n (la_rec l) |>, true)
  end.
