(* ===== verification/LatchProps.v ===== *)
(** * Properties of the inside veto

    The refusal word bit by bit; over whole runs from a boot ([lreach]), the
    evidence behind a permit, the dwell after a grant and the soundness of the
    record table. *)

From Stdlib Require Import ZArith Lia Bool.
From stdpp Require Import base list numbers.
From S2P Require Import Prelude Side SideLog Latch.

Local Open Scope Z_scope.

(** ** Records *)

Lemma find_index_Some {A} (p : A -> bool) l i d :
  find_index p l = Some i ->
  (i < length l)%nat /\ p (nth i l d) = true /\
  forall j, (j < i)%nat -> p (nth j l d) = false.
Proof.
  revert i. induction l as [|x l IH]; intros i H; [done|]. simpl in H.
  destruct (p x) eqn:Hp.
  - simplify_eq. simpl. repeat split; [lia|done|]. intros; lia.
  - destruct (find_index p l) as [k|] eqn:Hk; [|done]. simpl in H. simplify_eq.
    destruct (IH k eq_refl) as (? & ? & Hj). simpl. repeat split; [lia|done|].
    intros [|j] Hlt; [done|]. apply Hj. lia.
Qed.

Lemma find_index_None {A} (p : A -> bool) l :
  find_index p l = None <-> Forall (fun x => p x = false) l.
Proof.
  induction l as [|x l IH]; simpl; [by split|]. rewrite Forall_cons_iff. destruct (p x) eqn:Hp.
  - split; [done|]. by intros [? _].
  - destruct (find_index p l) as [k|]; simpl.
    + split; [done|]. intros [_ H]. by apply IH in H.
    + rewrite <- IH. tauto.
Qed.

(** The record a credential has, if any. *)
Definition record_of (recs : list latch_rec) (cred : Z) : option latch_rec :=
  (fun i => nth i recs zero_rec) <$> rec_find recs cred.

Lemma record_of_Some recs cred r :
  record_of recs cred = Some r -> In r recs /\ used r = true /\ lr_cred_id r = cred.
Proof.
  unfold record_of, rec_find. destruct (find_index _ _) as [i|] eqn:Hi; [|done].
  intros [= <-]. destruct (find_index_Some _ _ _ zero_rec Hi) as (? & Hc & _).
  unfold is_cred in Hc. apply andb_true_iff in Hc as [? ?].
  repeat split; [by apply nth_In|done|lia].
Qed.

(** ** The question *)

(** The question as a condition on the latch. *)
Lemma permits_spec l cred now :
  latch_may_passive_unlock (Some l) cred now = true <->
  la_active l = true /\ la_active_cred l = cred /\ cred <> LATCH_CRED_ANY /\
  (exists r, record_of (la_rec l) cred = Some r /\
     Z.land (lr_flags r) F_OPPORTUNITY <> 0 /\
     (lc_opportunity_valid_ms (la_cfg l) = 0 \/
      now - lr_opportunity_ms r <= lc_opportunity_valid_ms (la_cfg l)) /\
     ~ (0 <= now - lr_confirmed_inside_ms r < lc_entry_dwell_ms (la_cfg l))) /\
  lc_clear_windows (la_cfg l) <= la_agree_n l /\
  (lc_clear_valid_ms (la_cfg l) = 0 \/
   now - la_last_outside_ms l <= lc_clear_valid_ms (la_cfg l)).
Proof.
  unfold latch_may_passive_unlock, latch_reason. cbv zeta. rewrite Z.eqb_eq, !Z.lor_eq_0_iff.
  assert (forall b v, v <> 0 -> bit_if b v = 0 <-> b = false) as Hb.
  { intros [] v Hv; simpl; split; intros; done. }
  rewrite Hb by done. unfold record_of.
  assert ((if la_agree_n l <? lc_clear_windows (la_cfg l) then R_WINDOWS
           else bit_if (negb (lc_clear_valid_ms (la_cfg l) =? 0) &&
                        (lc_clear_valid_ms (la_cfg l) <? now - la_last_outside_ms l)) R_STALE) = 0
          <-> lc_clear_windows (la_cfg l) <= la_agree_n l /\
              (lc_clear_valid_ms (la_cfg l) = 0 \/
               now - la_last_outside_ms l <= lc_clear_valid_ms (la_cfg l))) as ->.
  { destruct (Z.ltb_spec (la_agree_n l) (lc_clear_windows (la_cfg l))).
    - split; [done|lia].
    - rewrite Hb, andb_false_iff, negb_false_iff by done. lia. }
  assert (negb (la_active l) || negb (la_active_cred l =? cred) || (cred =? LATCH_CRED_ANY)
          = false <-> la_active l = true /\ la_active_cred l = cred /\ cred <> LATCH_CRED_ANY)
    as ->.
  { rewrite !orb_false_iff, !negb_false_iff, Z.eqb_eq, Z.eqb_neq. tauto. }
  destruct (rec_find (la_rec l) cred) as [i|]; simpl.
  2: { split; [intros [[_ H] _]; done|]. intros (_ & _ & _ & (r & ? & _) & _). done. }
  set (r := nth i (la_rec l) zero_rec).
  rewrite Z.lor_eq_0_iff, !Hb, negb_false_iff, andb_false_iff by done.
  assert ((if negb (Z.land (lr_flags r) F_OPPORTUNITY =? 0) &&
              negb (lc_opportunity_valid_ms (la_cfg l) =? 0) &&
              (lc_opportunity_valid_ms (la_cfg l) <? now - lr_opportunity_ms r)
           then false else negb (Z.land (lr_flags r) F_OPPORTUNITY =? 0)) = true <->
          Z.land (lr_flags r) F_OPPORTUNITY <> 0 /\
          (lc_opportunity_valid_ms (la_cfg l) = 0 \/
           now - lr_opportunity_ms r <= lc_opportunity_valid_ms (la_cfg l))) as ->.
  { destruct (Z.eqb_spec (Z.land (lr_flags r) F_OPPORTUNITY) 0); simpl; [by split; [|intros [? _]]|].
    destruct (Z.eqb_spec (lc_opportunity_valid_ms (la_cfg l)) 0); simpl; [tauto|].
    destruct (Z.ltb_spec (lc_opportunity_valid_ms (la_cfg l)) (now - lr_opportunity_ms r));
      split; try done; lia. }
  split.
  - intros [[(? & ? & ?) [[? ?] ?]] [? ?]]. repeat split; try done. exists r.
    repeat split; try done. lia.
  - intros (? & ? & ? & (r' & [= <-] & ? & ? & ?) & ? & ?). repeat split; try done. lia.
Qed.

(** The refusal word from its six conditions. *)
Definition word (no_session no_record no_opp dwell few stale : bool) : Z :=
  Z.lor (Z.lor (bit_if no_session R_NO_SESSION)
               (if no_record then R_NO_RECORD
                else Z.lor (bit_if no_opp R_NO_OPPORTUNITY) (bit_if dwell R_DWELL)))
        (if few then R_WINDOWS else bit_if stale R_STALE).

Lemma word_bits s n o d f t :
  let w := word s n o d f t in
  Z.testbit w 0 = s /\ Z.testbit w 1 = n /\ Z.testbit w 2 = negb n && o /\
  Z.testbit w 3 = negb n && d /\ Z.testbit w 4 = f /\ Z.testbit w 5 = negb f && t.
Proof. destruct s, n, o, d, f, t; vm_compute; repeat split. Qed.

(** What a predicate says of the credential's record, if it has one. *)
Definition on_record (l : latch) (cred : Z) (P : latch_rec -> Prop) : Prop :=
  exists r, record_of (la_rec l) cred = Some r /\ P r.

(** Every refusal names its reasons and nothing else.  Bit by bit: no
    session of this credential, no record, no (unexpired) crossing
    opportunity, inside the post-entry dwell, too few agreeing windows, or
    enough windows that have aged out. *)
Theorem refusal_bits l cred now :
  let why := latch_reason (Some l) cred now in
  let c := la_cfg l in
  (Z.testbit why 0 = true <->
     la_active l = false \/ la_active_cred l <> cred \/ cred = LATCH_CRED_ANY) /\
  (Z.testbit why 1 = true <-> record_of (la_rec l) cred = None) /\
  (Z.testbit why 2 = true <-> on_record l cred (fun r =>
     Z.land (lr_flags r) F_OPPORTUNITY = 0 \/
     lc_opportunity_valid_ms c <> 0 /\
     lc_opportunity_valid_ms c < now - lr_opportunity_ms r)) /\
  (Z.testbit why 3 = true <-> on_record l cred (fun r =>
     0 <= now - lr_confirmed_inside_ms r < lc_entry_dwell_ms c)) /\
  (Z.testbit why 4 = true <-> la_agree_n l < lc_clear_windows c) /\
  (Z.testbit why 5 = true <->
     lc_clear_windows c <= la_agree_n l /\ lc_clear_valid_ms c <> 0 /\
     lc_clear_valid_ms c < now - la_last_outside_ms l).
Proof.
  intros why c. set (r := nth (default O (rec_find (la_rec l) cred)) (la_rec l) zero_rec).
  assert (why = word
    (negb (la_active l) || negb (la_active_cred l =? cred) || (cred =? LATCH_CRED_ANY))
    (match rec_find (la_rec l) cred with None => true | Some _ => false end)
    ((Z.land (lr_flags r) F_OPPORTUNITY =? 0) ||
     negb (lc_opportunity_valid_ms c =? 0) &&
     (lc_opportunity_valid_ms c <? now - lr_opportunity_ms r))
    ((0 <=? now - lr_confirmed_inside_ms r) &&
     (now - lr_confirmed_inside_ms r <? lc_entry_dwell_ms c))
    (la_agree_n l <? lc_clear_windows c)
    (negb (lc_clear_valid_ms c =? 0) &&
     (lc_clear_valid_ms c <? now - la_last_outside_ms l))) as Hw.
  { unfold why, latch_reason, word, c, r. destruct (rec_find (la_rec l) cred); simpl; [|done].
    destruct (Z.land _ F_OPPORTUNITY =? 0), (lc_opportunity_valid_ms (la_cfg l) =? 0),
      (lc_opportunity_valid_ms (la_cfg l) <? _); done. }
  rewrite Hw. match goal with |- context [word ?a ?b ?d ?e ?f ?g] =>
    destruct (word_bits a b d e f g) as (-> & -> & -> & -> & -> & ->) end.
  unfold on_record, record_of. unfold r. destruct (rec_find (la_rec l) cred) as [i|]; simpl;
    rewrite ?orb_true_iff, ?andb_true_iff, ?negb_true_iff, ?Z.eqb_eq, ?Z.eqb_neq, ?Z.leb_le,
      ?Z.ltb_lt, ?Z.ltb_ge.
  - repeat split; try tauto; try done; try lia; intros; eauto;
      try (match goal with H : exists _, _ |- _ => destruct H as (? & [= <-] & ?) end); tauto.
  - repeat split; try tauto; try done; try lia; intros (? & ? & _); done.
Qed.

(** ** Runs of the latch *)

Inductive levent :=
  | LOpen (cred : Z)
  | LClose
  | LGrant (cred now : Z)
  | LOpportunity (cred now : Z)
  | LWindow (cred : Z) (side : label) (range_mm now : Z).

Definition lstep (l : latch) (e : levent) : latch :=
  match e with
  | LOpen c => latch_session_open l c
  | LClose => latch_session_close l
  | LGrant c t => latch_note_grant l c t
  | LOpportunity c t => latch_note_opportunity l c t
  | LWindow c s r t => latch_note_window l c s r t
  end.

(** A run from boot, where the records come from storage or not; newest
    event first. *)
Inductive lreach (cfg : option latch_cfg) : list levent -> latch -> Prop :=
  | lreach_boot buf : lreach cfg [] (latch_deserialize cfg buf).1
  | lreach_step h l e : lreach cfg h l -> lreach cfg (e :: h) (lstep l e).

(** Events that discard the progress of a run of windows of [cred]. *)
Definition discards (cred : Z) (e : levent) : bool :=
  match e with
  | LOpen _ | LClose => true
  | LGrant c _ => negb (c =? LATCH_CRED_ANY)
  | LOpportunity _ _ => false
  | LWindow c s _ _ => (c =? cred) && bool_decide (s = L_INSIDE)
  end.

Definition outside_of (cred : Z) (e : levent) : bool :=
  match e with LWindow c s _ _ => (c =? cred) && bool_decide (s = L_OUTSIDE) | _ => false end.

Definition count_outside (cred : Z) (h : list levent) : Z :=
  Z.of_nat (length (List.filter (outside_of cred) h)).

Lemma count_outside_cons cred e h :
  count_outside cred (e :: h) = (if outside_of cred e then 1 else 0) + count_outside cred h.
Proof. unfold count_outside. cbn [List.filter]. case_match; cbn [length]; lia. Qed.

(** The evidence behind [n] agreeing windows whose last landed at [last]: a
    confident OUTSIDE window of the credential at or beyond [min] mm, and
    since then no discarding event and enough further OUTSIDE windows. *)
Definition evidence (min cred n last : Z) (h : list levent) : Prop :=
  exists recent range t older,
    h = recent ++ LWindow cred L_OUTSIDE range t :: older /\
    0 <= range /\ min <= range /\
    Forall (fun e => discards cred e = false) recent /\
    n <= 1 + count_outside cred recent /\
    exists side_ range_ pre post,
      h = pre ++ LWindow cred side_ range_ last :: post /\ side_ = L_OUTSIDE /\
      count_outside cred pre = 0.

Definition progress_ok (l : latch) (h : list levent) : Prop :=
  0 <= la_agree_n l /\
  (0 < la_agree_n l ->
   la_active l = true /\
   evidence (lc_clear_min_mm (la_cfg l)) (la_active_cred l) (la_agree_n l)
     (la_last_outside_ms l) h).

(** An event of no consequence for the credential keeps the evidence. *)
Lemma evidence_keep min cred n last e h :
  discards cred e = false -> outside_of cred e = false ->
  evidence min cred n last h -> evidence min cred n last (e :: h).
Proof.
  intros Hd Ho (rc & rg & t & od & -> & ? & ? & Hf & Hn & (s & r & pre & post & Heq & Hs & Hc)).
  exists (e :: rc), rg, t, od. repeat split; try done.
  - by constructor.
  - by rewrite count_outside_cons, Ho.
  - exists s, r, (e :: pre), post. rewrite Heq. repeat split; [done|].
    by rewrite count_outside_cons, Ho.
Qed.

(** A further OUTSIDE window extends it. *)
Lemma evidence_extend min cred n n' last range t h :
  n' <= n + 1 -> evidence min cred n last h ->
  evidence min cred n' t (LWindow cred L_OUTSIDE range t :: h).
Proof.
  intros Hn' (rc & rg & t0 & od & -> & ? & ? & Hf & Hn & _).
  assert (outside_of cred (LWindow cred L_OUTSIDE range t) = true) as Ho
    by (simpl; by rewrite Z.eqb_refl).
  exists (LWindow cred L_OUTSIDE range t :: rc), rg, t0, od. repeat split; try done.
  - constructor; [|done]. simpl. by rewrite Z.eqb_refl.
  - rewrite count_outside_cons, Ho. lia.
  - exists L_OUTSIDE, range, [], (rc ++ LWindow cred L_OUTSIDE rg t0 :: od). done.
Qed.

(** A first OUTSIDE window far enough out starts it. *)
Lemma evidence_start min cred range t h :
  0 <= range -> min <= range ->
  evidence min cred 1 t (LWindow cred L_OUTSIDE range t :: h).
Proof.
  intros. exists [], range, t, h. repeat split; try done.
  exists L_OUTSIDE, range, [], h. done.
Qed.

Lemma note_grant_cases l c t :
  latch_note_grant l c t = l /\ (c = LATCH_CRED_ANY \/ rec_get (la_rec l) c t = None) \/
  (c <> LATCH_CRED_ANY /\ la_agree_n (latch_note_grant l c t) = 0).
Proof.
  unfold latch_note_grant. destruct (Z.eqb_spec c LATCH_CRED_ANY); [by left; auto|].
  destruct (rec_get (la_rec l) c t) as [[i recs]|]; [right; done|left; auto].
Qed.

Lemma note_grant_frame l c t :
  la_cfg (latch_note_grant l c t) = la_cfg l /\
  la_active (latch_note_grant l c t) = la_active l /\
  la_active_cred (latch_note_grant l c t) = la_active_cred l.
Proof. unfold latch_note_grant. repeat case_match; done. Qed.

Lemma note_opportunity_frame l c t :
  la_cfg (latch_note_opportunity l c t) = la_cfg l /\
  la_active (latch_note_opportunity l c t) = la_active l /\
  la_active_cred (latch_note_opportunity l c t) = la_active_cred l /\
  la_agree_n (latch_note_opportunity l c t) = la_agree_n l /\
  la_last_outside_ms (latch_note_opportunity l c t) = la_last_outside_ms l.
Proof. unfold latch_note_opportunity. repeat case_match; done. Qed.

Lemma note_window_frame l c s r t :
  la_cfg (latch_note_window l c s r t) = la_cfg l /\
  la_active (latch_note_window l c s r t) = la_active l /\
  la_active_cred (latch_note_window l c s r t) = la_active_cred l /\
  la_rec (latch_note_window l c s r t) = la_rec l.
Proof. unfold latch_note_window. repeat (case_match; simpl; try done). Qed.

(** The record array keeps its size, so allocation always succeeds. *)
Lemma victim_scan_Some recs i v :
  recs <> [] \/ is_Some v -> is_Some (victim_scan recs i v).
Proof.
  revert i v. induction recs as [|r recs IH]; intros i v H; simpl.
  - destruct H as [|[[j x] ->]]; [done|]. by eexists.
  - destruct (negb (used r)); [by eexists|]. apply IH. right.
    destruct v as [[j x]|]; [case_match|]; by eexists.
Qed.

Lemma rec_get_Some recs c t : recs <> [] -> is_Some (rec_get recs c t).
Proof.
  intros Hr. unfold rec_get, rec_alloc. destruct (rec_find recs c); [by eexists|].
  destruct (victim_scan_Some recs 0 None) as [i ->]; [by left|]. by eexists.
Qed.

Lemma rec_get_length recs c t i recs' :
  rec_get recs c t = Some (i, recs') -> length recs' = length recs.
Proof.
  unfold rec_get, rec_alloc. repeat case_match; intros; simplify_eq; [done|].
  apply length_insert.
Qed.

Lemma lstep_length l e : length (la_rec (lstep l e)) = length (la_rec l).
Proof.
  destruct e as [c| |c t|c t|c s r t]; simpl; try done.
  - unfold latch_note_grant. destruct (c =? LATCH_CRED_ANY); [done|].
    destruct (rec_get _ _ _) as [[i recs]|] eqn:Hg; [|done]. simpl.
    rewrite length_imap, length_alter. by eapply rec_get_length.
  - unfold latch_note_opportunity. destruct (c =? LATCH_CRED_ANY).
    { simpl. apply length_map. }
    destruct (rec_get _ _ _) as [[i recs]|] eqn:Hg; [|done]. simpl.
    rewrite length_alter. by eapply rec_get_length.
  - by destruct (note_window_frame l c s r t) as (_ & _ & _ & ->).
Qed.

Lemma length_get_recs n p : length (get_recs n p) = n.
Proof. revert p. induction n; intros; simpl; auto. Qed.

(** What a boot leaves: the size of the array, no session and no progress. *)
Lemma boot_frame cfg buf :
  let l := (latch_deserialize cfg buf).1 in
  length (la_rec l) = LATCH_MAX_CREDS /\ la_active l = false /\ la_agree_n l = 0 /\
  la_cfg l = default latch_defaults cfg.
Proof.
  unfold latch_deserialize. destruct buf as [buf|]; [|done]. cbv zeta.
  repeat (case_match; simpl; try done). split; [|done].
  rewrite length_app, length_get_recs, length_drop.
  match goal with H : (LATCH_MAX_CREDS <? _)%nat = false |- _ => apply Nat.ltb_ge in H end.
  unfold LATCH_MAX_CREDS in *. simpl length. lia.
Qed.

Lemma lreach_length cfg h l : lreach cfg h l -> length (la_rec l) = LATCH_MAX_CREDS.
Proof.
  induction 1 as [buf|h l e _ IH]; [apply boot_frame|]. by rewrite lstep_length.
Qed.

Lemma window_progress l c s r t h :
  progress_ok l h -> progress_ok (latch_note_window l c s r t) (LWindow c s r t :: h).
Proof.
  intros [Hn Hev]. pose proof (note_window_frame l c s r t) as (Hc & Ha & Hac & _).
  unfold progress_ok. rewrite Hc, Ha, Hac. clear Hc Ha Hac. unfold latch_note_window.
  destruct (la_active l) eqn:Hact; simpl.
  2: { split; [done|]. intros Hp. by destruct (Hev Hp) as [? _]. }
  destruct (Z.eqb_spec (la_active_cred l) c) as [Heqc|Hne]; simpl.
  2: { split; [done|]. intros Hp. destruct (Hev Hp). split; [done|].
       apply evidence_keep; [| |done]; simpl; by rewrite (proj2 (Z.eqb_neq c (la_active_cred l))). }
  subst c. destruct s; simpl.
  - split; [done|]. intros Hp. destruct (Hev Hp). split; [done|].
    apply evidence_keep; [| |done]; simpl; by rewrite andb_false_r.
  - split; [lia|lia].
  - destruct (Z.eqb_spec (la_agree_n l) 0) as [Hz|Hz]; simpl.
    + destruct (Z.ltb_spec r 0); simpl; [split; lia|].
      destruct (Z.ltb_spec r (lc_clear_min_mm (la_cfg l))); simpl; [split; lia|].
      rewrite Hz. simpl. split; [lia|]. intros _. split; [done|].
      by apply evidence_start.
    + destruct Hev as [_ Hev]; [lia|].
      destruct (Z.ltb_spec (la_agree_n l) 255); simpl; (split; [lia|]); intros _;
        (split; [done|]); (eapply evidence_extend; [|exact Hev]); lia.
  - split; [done|]. intros Hp. destruct (Hev Hp). split; [done|].
    apply evidence_keep; [| |done]; simpl; by rewrite andb_false_r.
Qed.

Lemma progress_reach cfg h l : lreach cfg h l -> progress_ok l h.
Proof.
  induction 1 as [buf|h l e Hr IH].
  - destruct (boot_frame cfg buf) as (_ & _ & Hz & _). unfold progress_ok. rewrite Hz. lia.
  - destruct e as [c| |c t|c t|c s r t]; cbn [lstep].
    + split; simpl; lia.
    + split; simpl; lia.
    + destruct (note_grant_cases l c t) as [[-> Hc]|[_ Hz]].
      * assert (c = LATCH_CRED_ANY) as Hany.
        { destruct Hc as [|Hg]; [done|]. exfalso.
          destruct (rec_get_Some (la_rec l) c t) as [x Hx]; [|by rewrite Hx in Hg].
          intros Hnil. apply lreach_length in Hr. by rewrite Hnil in Hr. }
        destruct IH as [? IH]. split; [done|]. intros Hp. destruct (IH Hp). split; [done|].
        apply evidence_keep; [|done|done]. subst c. done.
      * unfold progress_ok. rewrite Hz. lia.
    + pose proof (note_opportunity_frame l c t) as (Hcf & Ha & Hac & Hn & Hl).
      unfold progress_ok. rewrite Hcf, Ha, Hac, Hn, Hl. destruct IH as [? IH].
      split; [done|]. intros Hp. destruct (IH Hp). split; [done|]. by apply evidence_keep.
    + by apply window_progress.
Qed.

(** C21: a passive unlock is proved by an approach.  In every run from a boot,
    with or without stored records, a permitted unlock is backed by a
    confident OUTSIDE window of this credential taken at or beyond
    clear_min_mm, with no session change, grant or INSIDE window since and
    enough OUTSIDE windows from it on, the newest of them within
    clear_valid_ms. *)
Theorem latch_permit_evidence cfg h l cred now :
  lreach cfg h l -> 0 < lc_clear_windows (la_cfg l) ->
  latch_may_passive_unlock (Some l) cred now = true ->
  evidence (lc_clear_min_mm (la_cfg l)) cred (lc_clear_windows (la_cfg l))
    (la_last_outside_ms l) h /\
  (lc_clear_valid_ms (la_cfg l) = 0 \/
   now - la_last_outside_ms l <= lc_clear_valid_ms (la_cfg l)).
Proof.
  intros Hr Hw Hp. apply permits_spec in Hp as (_ & <- & _ & _ & Hn & Hv). split; [|done].
  destruct (progress_reach _ _ _ Hr) as [_ Hev]. destruct Hev as [_ Hev]; [lia|].
  destruct Hev as (rc & rg & t & od & ? & ? & ? & ? & ? & ?).
  exists rc, rg, t, od. repeat split; try done. lia.
Qed.

(** ** The post-entry dwell *)

(** Used records name their credential uniquely. *)
Definition unique_creds (recs : list latch_rec) : Prop :=
  forall i j r r', recs !! i = Some r -> recs !! j = Some r' ->
    used r = true -> used r' = true -> lr_cred_id r = lr_cred_id r' -> i = j.

(** Every record of [c] was confirmed inside at [t0] or later. *)
Definition confirmed_since (c t0 : Z) (recs : list latch_rec) : Prop :=
  Forall (fun r => used r = true -> lr_cred_id r = c -> t0 <= lr_confirmed_inside_ms r) recs.

Lemma confirmed_since_alloc c t0 recs c' t i recs' :
  t0 <= t -> confirmed_since c t0 recs -> rec_get recs c' t = Some (i, recs') ->
  confirmed_since c t0 recs'.
Proof.
  intros Ht Hc. unfold rec_get, rec_alloc. repeat case_match; intros; simplify_eq; [done|].
  apply Forall_insert; [done|]. simpl. done.
Qed.

Lemma confirmed_since_alter c t0 f i recs :
  (forall r, t0 <= lr_confirmed_inside_ms (f r) \/
             (used (f r) = true -> used r = true) /\ lr_cred_id (f r) = lr_cred_id r /\
             lr_confirmed_inside_ms (f r) = lr_confirmed_inside_ms r) ->
  confirmed_since c t0 recs -> confirmed_since c t0 (alter f i recs).
Proof.
  intros Hf Hc. apply Forall_alter; [done|]. intros r _ Hr Hu Hcr.
  destruct (Hf r) as [|(H1 & H2 & H3)]; [done|]. rewrite H3. apply Hr; [auto|congruence].
Qed.

(** Granting an opportunity touches neither the name nor the stamp. *)
Lemma grant_opportunity_frame t r :
  lr_cred_id (grant_opportunity t r) = lr_cred_id r /\
  lr_confirmed_inside_ms (grant_opportunity t r) = lr_confirmed_inside_ms r /\
  used (grant_opportunity t r) = used r.
Proof.
  repeat split. unfold used, grant_opportunity. simpl.
  by rewrite Z.land_lor_distr_l, Z.lor_0_r.
Qed.

Definition levent_since (t0 : Z) (e : levent) : Prop :=
  match e with
  | LGrant _ t | LOpportunity _ t => t0 <= t
  | _ => True
  end.

Lemma confirmed_since_map c t0 (f : nat -> latch_rec -> latch_rec) recs :
  (forall j r, used (f j r) = used r /\ lr_cred_id (f j r) = lr_cred_id r /\
               lr_confirmed_inside_ms (f j r) = lr_confirmed_inside_ms r) ->
  confirmed_since c t0 recs -> confirmed_since c t0 (imap f recs).
Proof.
  intros Hf Hc. apply Forall_lookup. intros i r Hi.
  rewrite list_lookup_imap in Hi. destruct (recs !! i) as [x|] eqn:Hx; [|done].
  simpl in Hi. simplify_eq. destruct (Hf i x) as (-> & -> & ->).
  exact (proj1 (Forall_lookup _ _) Hc i x Hx).
Qed.

Lemma confirmed_since_step c t0 l e :
  levent_since t0 e -> confirmed_since c t0 (la_rec l) ->
  confirmed_since c t0 (la_rec (lstep l e)).
Proof.
  intros Ht Hc. destruct e as [c'| |c' t|c' t|c' s r t]; simpl in *; try done.
  - unfold latch_note_grant. destruct (c' =? LATCH_CRED_ANY); [done|].
    destruct (rec_get _ _ _) as [[i recs]|] eqn:Hg; [|done]. simpl.
    apply confirmed_since_map.
    { intros j r. cbv beta. destruct ((j =? i)%nat || negb (used r)); [done|].
      destruct (grant_opportunity_frame t r) as (? & ? & ?). auto. }
    apply confirmed_since_alter; [by left|].
    eapply confirmed_since_alloc; [|exact Hc|exact Hg]. done.
  - unfold latch_note_opportunity. destruct (c' =? LATCH_CRED_ANY).
    { simpl. apply Forall_map. eapply List.Forall_impl; [|exact Hc]. intros r Hr.
      destruct (negb (used r)); [exact Hr|].
      destruct (grant_opportunity_frame t r) as (-> & -> & ->). exact Hr. }
    destruct (rec_get _ _ _) as [[i recs]|] eqn:Hg; [|done]. simpl.
    apply confirmed_since_alter.
    { intros r. right. destruct (grant_opportunity_frame t r) as (? & ? & Hu).
      rewrite Hu. auto. }
    eapply confirmed_since_alloc; [|exact Hc|exact Hg]. done.
  - by destruct (note_window_frame l c' s r t) as (_ & _ & _ & ->).
Qed.

Lemma unique_find recs i r :
  unique_creds recs -> recs !! i = Some r -> used r = true ->
  rec_find recs (lr_cred_id r) = Some i.
Proof.
  intros Hu Hi Hr. unfold rec_find.
  destruct (find_index (is_cred (lr_cred_id r)) recs) as [k|] eqn:Hk.
  - destruct (find_index_Some _ _ _ zero_rec Hk) as (Hlt & Hc & _).
    unfold is_cred in Hc. apply andb_true_iff in Hc as [Hku Hkc].
    apply Z.eqb_eq in Hkc. f_equal.
    destruct (lookup_lt_is_Some_2 recs k Hlt) as [x Hx].
    rewrite (nth_lookup_Some _ _ _ _ Hx) in Hku, Hkc.
    apply (Hu k i x r); done.
  - apply find_index_None in Hk. rewrite Forall_lookup in Hk. specialize (Hk i r Hi).
    unfold is_cred in Hk. rewrite Hr, Z.eqb_refl in Hk. done.
Qed.

(** After a grant every record of the credential carries the grant's time. *)
Lemma grant_confirms l c t :
  la_rec l <> [] -> unique_creds (la_rec l) -> c <> LATCH_CRED_ANY ->
  confirmed_since c t (la_rec (latch_note_grant l c t)).
Proof.
  intros Hne Hu Hc. unfold latch_note_grant.
  destruct (Z.eqb_spec c LATCH_CRED_ANY); [done|].
  destruct (rec_get_Some (la_rec l) c t Hne) as [[i recs] Hg]. rewrite Hg. simpl.
  apply confirmed_since_map.
  { intros j r. cbv beta. destruct ((j =? i)%nat || negb (used r)); [done|].
    destruct (grant_opportunity_frame t r) as (? & ? & ?). auto. }
  apply Forall_lookup. intros j r Hj Hru Hrc.
  destruct (decide (j = i)) as [->|Hji].
  - rewrite list_lookup_alter_eq in Hj. destruct (recs !! i); [|done]. simplify_eq/=. lia.
  - rewrite list_lookup_alter_ne in Hj by done. exfalso. revert Hg.
    unfold rec_get, rec_alloc. destruct (rec_find (la_rec l) c) as [k|] eqn:Hk.
    + intros Hg. simplify_eq. rewrite (unique_find _ j r Hu Hj Hru) in Hk. congruence.
    + destruct (victim_scan _ _ _); [|done]. intros Hg. simplify_eq.
      rewrite list_lookup_insert_ne in Hj by done.
      rewrite (unique_find _ j r Hu Hj Hru) in Hk. done.
Qed.

Lemma lstep_cfg l e : la_cfg (lstep l e) = la_cfg l.
Proof.
  destruct e; simpl; try done.
  - apply note_grant_frame.
  - apply note_opportunity_frame.
  - apply note_window_frame.
Qed.

Lemma confirmed_since_run c t cfg evs l :
  Forall (levent_since t) evs -> confirmed_since c t (la_rec l) -> la_cfg l = cfg ->
  confirmed_since c t (la_rec (fold_left lstep evs l)) /\
  la_cfg (fold_left lstep evs l) = cfg.
Proof.
  intros Hevs. revert l. induction Hevs as [|e evs He _ IH]; intros l H0 H1; [done|].
  apply IH; [by apply confirmed_since_step|]. by rewrite lstep_cfg.
Qed.

(** The dwell after a grant cannot be shortened.  Whatever sessions,
    windows, opportunities and further grants follow a grant, the credential
    it was given to is refused at every time less than entry_dwell_ms after
    it that is not before the events themselves. *)
Theorem dwell_enforced l c t evs now :
  la_rec l <> [] -> unique_creds (la_rec l) -> c <> LATCH_CRED_ANY ->
  Forall (levent_since t) evs -> now - t < lc_entry_dwell_ms (la_cfg l) ->
  let l' := fold_left lstep evs (latch_note_grant l c t) in
  (forall r, record_of (la_rec l') c = Some r -> lr_confirmed_inside_ms r <= now) ->
  latch_may_passive_unlock (Some l') c now = false.
Proof.
  intros Hne Hu Hc Hevs Hnow l' Hpast. apply not_true_iff_false. intros Hp.
  apply permits_spec in Hp as (_ & _ & _ & (r & Hr & _ & _ & Hd) & _).
  assert (confirmed_since c t (la_rec l') /\ la_cfg l' = la_cfg l) as [Hs Hcfg].
  { destruct (confirmed_since_run c t (la_cfg l) evs (latch_note_grant l c t)); try done.
    - by apply grant_confirms.
    - apply note_grant_frame. }
  specialize (Hpast r Hr). apply record_of_Some in Hr as (Hin & Hru & Hrc).
  unfold confirmed_since in Hs. rewrite List.Forall_forall in Hs.
  specialize (Hs r Hin Hru Hrc). rewrite Hcfg in Hd. lia.
Qed.

(** ** Unique records and eviction *)

(** What uniqueness depends on. *)
Definition shape (recs : list latch_rec) : list (bool * Z) :=
  map (fun r => (used r, lr_cred_id r)) recs.

Lemma shape_lookup recs recs' i r :
  shape recs = shape recs' -> recs !! i = Some r ->
  exists r', recs' !! i = Some r' /\ used r' = used r /\ lr_cred_id r' = lr_cred_id r.
Proof.
  intros Hs Hi.
  assert (shape recs !! i = Some (used r, lr_cred_id r)) as H.
  { unfold shape. by rewrite list_lookup_fmap, Hi. }
  rewrite Hs in H. unfold shape in H. rewrite list_lookup_fmap in H.
  destruct (recs' !! i) as [r'|]; [|done]. simpl in H. simplify_eq. eauto.
Qed.

Lemma unique_shape recs recs' :
  shape recs = shape recs' -> unique_creds recs -> unique_creds recs'.
Proof.
  intros Hs Hu i j r r' Hi Hj Hr Hr' Hc. symmetry in Hs.
  destruct (shape_lookup _ _ _ _ Hs Hi) as (x & Hx & Hxu & Hxc).
  destruct (shape_lookup _ _ _ _ Hs Hj) as (y & Hy & Hyu & Hyc).
  apply (Hu i j x y); congruence.
Qed.

Lemma shape_imap f recs :
  (forall j r, used (f j r) = used r /\ lr_cred_id (f j r) = lr_cred_id r) ->
  shape (imap f recs) = shape recs.
Proof.
  intros Hf. unfold shape. apply list_eq. intros i.
  rewrite !list_lookup_fmap, list_lookup_imap.
  destruct (recs !! i) as [r|]; simpl; [|done]. by destruct (Hf i r) as [-> ->].
Qed.

Lemma shape_alter f i recs :
  (forall r, recs !! i = Some r -> used (f r) = used r /\ lr_cred_id (f r) = lr_cred_id r) ->
  shape (alter f i recs) = shape recs.
Proof.
  intros Hf. unfold shape. apply list_eq. intros j.
  rewrite !list_lookup_fmap. destruct (decide (i = j)) as [<-|Hij].
  - rewrite list_lookup_alter_eq. destruct (recs !! i) as [r|]; simpl; [|done].
    by destruct (Hf r eq_refl) as [-> ->].
  - by rewrite list_lookup_alter_ne.
Qed.

(** The record found or allocated is used and is the credential's. *)
Lemma rec_get_record recs c t i recs' r :
  rec_get recs c t = Some (i, recs') -> recs' !! i = Some r ->
  used r = true /\ lr_cred_id r = c.
Proof.
  unfold rec_get, rec_alloc. destruct (rec_find recs c) as [k|] eqn:Hk.
  - intros Hg Hi. simplify_eq. destruct (find_index_Some _ _ _ zero_rec Hk) as (_ & Hc & _).
    rewrite (nth_lookup_Some _ _ _ _ Hi) in Hc. unfold is_cred in Hc.
    apply andb_true_iff in Hc as [? ?]. split; [done|lia].
  - destruct (victim_scan recs 0 None) as [k|]; [|done]. intros Hg Hi. simplify_eq.
    apply list_lookup_insert_Some in Hi as [(_ & <- & _)|[? _]]; done.
Qed.

Lemma rec_get_unique recs c t i recs' :
  rec_get recs c t = Some (i, recs') -> unique_creds recs -> unique_creds recs'.
Proof.
  unfold rec_get, rec_alloc. destruct (rec_find recs c) as [k|] eqn:Hk.
  { intros; by simplify_eq. }
  destruct (victim_scan recs 0 None) as [k|]; [|done]. intros Hg Hu. simplify_eq.
  apply find_index_None in Hk. rewrite Forall_lookup in Hk.
  assert (forall j x, recs !! j = Some x -> used x = true -> lr_cred_id x <> c) as Hno.
  { intros j x Hj Hx He. specialize (Hk j x Hj). unfold is_cred in Hk.
    rewrite Hx, He, Z.eqb_refl in Hk. done. }
  intros a b x y Ha Hb Hx Hy Hc.
  apply list_lookup_insert_Some in Ha as [(-> & <- & _)|[Hia Ha]],
    Hb as [(-> & <- & _)|[Hib Hb]]; simpl in *; try done.
  - symmetry in Hc. by apply Hno in Hb.
  - by apply Hno in Ha.
  - by apply (Hu a b x y).
Qed.

Lemma unique_step l e : unique_creds (la_rec l) -> unique_creds (la_rec (lstep l e)).
Proof.
  intros Hu. destruct e as [c| |c t|c t|c s r t]; cbn [lstep]; try done.
  - unfold latch_note_grant. destruct (c =? LATCH_CRED_ANY); [done|].
    destruct (rec_get _ _ _) as [[i recs]|] eqn:Hg; [|done]. simpl.
    eapply unique_shape; [symmetry; apply shape_imap|].
    { intros j r. cbv beta. destruct ((j =? i)%nat || negb (used r)); [done|].
      destruct (grant_opportunity_frame t r) as (? & ? & ?). auto. }
    eapply unique_shape; [symmetry; apply shape_alter|by eapply rec_get_unique].
    intros r Hr. by destruct (rec_get_record _ _ _ _ _ _ Hg Hr) as [-> _].
  - unfold latch_note_opportunity. destruct (c =? LATCH_CRED_ANY).
    { simpl. eapply unique_shape; [|exact Hu]. unfold shape. rewrite map_map.
      apply map_ext. intros r. destruct (negb (used r)); [done|].
      by destruct (grant_opportunity_frame t r) as (-> & _ & ->). }
    destruct (rec_get _ _ _) as [[i recs]|] eqn:Hg; [|done]. simpl.
    eapply unique_shape; [symmetry; apply shape_alter|by eapply rec_get_unique].
    intros r _. by destruct (grant_opportunity_frame t r) as (-> & _ & ->).
  - by destruct (note_window_frame l c s r t) as (_ & _ & _ & ->).
Qed.

Lemma unique_init cfg : unique_creds (la_rec (latch_init cfg)).
Proof.
  intros i j r r' Hi _ Hr _ _. apply lookup_replicate in Hi as [-> _]. done.
Qed.

(** The scan: a free slot when there is one, the stalest record otherwise. *)
Lemma victim_scan_spec recs k v i :
  victim_scan recs k v = Some i ->
  (exists r, (k <= i)%nat /\ recs !! (i - k)%nat = Some r /\ used r = false) \/
  (Forall (fun r => used r = true) recs /\
   exists r, ((k <= i)%nat /\ recs !! (i - k)%nat = Some r \/ v = Some (i, r)) /\
     Forall (fun x => lr_confirmed_inside_ms r <= lr_confirmed_inside_ms x) recs /\
     (forall j x, v = Some (j, x) -> lr_confirmed_inside_ms r <= lr_confirmed_inside_ms x)).
Proof.
  revert k v. induction recs as [|x recs IH]; intros k v H; simpl in H.
  - destruct v as [[j y]|]; [|done]. simpl in H. simplify_eq. right. split; [done|].
    exists y. repeat split; auto. intros ?? [= <- <-]. lia.
  - destruct (used x) eqn:Hx; simpl in H.
    2: { simplify_eq. left. exists x. rewrite Nat.sub_diag. auto. }
    apply IH in H as [(r & Hk & Hr & Hu)|(Hall & r & Hr & Hle & Hv)].
    + left. exists r. split; [lia|]. split; [|done].
      replace (i - k)%nat with (S (i - S k)) by lia. done.
    + right. split; [by constructor|]. exists r.
      assert (lr_confirmed_inside_ms r <= lr_confirmed_inside_ms x /\
              forall j y, v = Some (j, y) -> lr_confirmed_inside_ms r <= lr_confirmed_inside_ms y)
        as [H1 H2].
      { destruct v as [[j y]|].
        - destruct (Z.ltb_spec (lr_confirmed_inside_ms x) (lr_confirmed_inside_ms y));
            specialize (Hv _ _ eq_refl); split; try lia; intros ?? [= <- <-]; lia.
        - specialize (Hv _ _ eq_refl). split; [lia|done]. }
      split; [|split; [by constructor|done]].
      destruct Hr as [[Hk Hr]|Hr].
      * left. split; [lia|]. replace (i - k)%nat with (S (i - S k)) by lia. done.
      * destruct v as [[j y]|].
        -- destruct (lr_confirmed_inside_ms x <? lr_confirmed_inside_ms y); simplify_eq;
             [left; rewrite Nat.sub_diag; auto|by right].
        -- simplify_eq. left. rewrite Nat.sub_diag. auto.
Qed.

(** The record table stays sound.  In every run from an empty table the
    used records have distinct credentials, and making room for a new
    credential takes a free slot when there is one and otherwise evicts a
    record whose confirmation is the oldest. *)
Theorem record_table_sound cfg evs cred now :
  let l := fold_left lstep evs (latch_init cfg) in
  unique_creds (la_rec l) /\
  (rec_find (la_rec l) cred = None ->
   exists i r, rec_alloc (la_rec l) cred now =
                 Some (i, <[i := mk_rec cred now 0 F_USED]> (la_rec l)) /\
     la_rec l !! i = Some r /\
     (used r = false \/
      Forall (fun x => used x = true /\
                lr_confirmed_inside_ms r <= lr_confirmed_inside_ms x) (la_rec l))).
Proof.
  intros l.
  assert (unique_creds (la_rec l) /\ length (la_rec l) = LATCH_MAX_CREDS) as [Hu Hlen].
  { unfold l. pose proof (unique_init cfg) as H0.
    assert (length (la_rec (latch_init cfg)) = LATCH_MAX_CREDS) as H1 by done.
    revert H0 H1. generalize (latch_init cfg).
    induction evs as [|e evs IH]; intros q H0 H1; [done|]. simpl. apply IH.
    - by apply unique_step.
    - by rewrite lstep_length. }
  split; [done|]. intros _. unfold rec_alloc.
  destruct (victim_scan_Some (la_rec l) 0 None) as [i Hi].
  { left. intros Hnil. by rewrite Hnil in Hlen. }
  rewrite Hi. apply victim_scan_spec in Hi as [(r & _ & Hr & Hf)|(Hall & r & Hr & Hle & _)].
  - rewrite Nat.sub_0_r in Hr. exists i, r. auto.
  - destruct Hr as [[_ Hr]|]; [|done]. rewrite Nat.sub_0_r in Hr. exists i, r.
    repeat split; try done. right. rewrite List.Forall_forall in *. auto.
Qed.
