(* ===== verification/LatchBlob.v ===== *)
(** * The persisted records of the latch

    Round trip of [latch_serialize] and [latch_deserialize], and the
    rejection of corrupted blobs. *)

From Stdlib Require Import ZArith Lia Bool.
From stdpp Require Import base list numbers.
From S2P Require Import Prelude Side SideLog Latch LatchProps.

Local Open Scope Z_scope.

(** A record whose fields fit their C types and whose flags are the defined
    ones. *)
Record rec_ok (r : latch_rec) : Prop := {
  ro_cred : in_u 32 (lr_cred_id r);
  ro_inside : in_i 64 (lr_confirmed_inside_ms r);
  ro_opp : in_i 64 (lr_opportunity_ms r);
  ro_flags : lr_flags r = F_USED \/ lr_flags r = Z.lor F_USED F_OPPORTUNITY;
}.

Lemma length_put_rec r : length (put_rec r) = LATCH_REC_LEN.
Proof. unfold put_rec, put_i64. rewrite !length_app, !length_put_be. done. Qed.

Lemma get_put_i64 v : in_i 64 v -> get_i64 (put_i64 v) = v.
Proof.
  intros Hv. unfold get_i64, put_i64. rewrite get_put_be_id by (apply wrap_range; lia).
  by apply swrap_wrap.
Qed.

(** A record is read back from the head of any buffer that starts with it. *)
Lemma get_put_rec r rest : rec_ok r -> get_rec (put_rec r ++ rest) = r.
Proof.
  intros [Hc Hi Ho Hf]. unfold get_rec, put_rec. rewrite <- !(assoc_L (++)).
  assert (forall v, length (put_i64 v) = 8%nat) as Hl64 by (intros; apply length_put_be).
  rewrite take_put_be, get_put_be_id by done. rewrite drop_put_be.
  rewrite take_app_length' by (symmetry; apply Hl64). rewrite get_put_i64 by done.
  assert (forall p : list Z, drop 12 p = drop 8 (drop 4 p)) as Hd by (intros; by rewrite drop_drop).
  rewrite Hd, drop_put_be.
  rewrite drop_app_length' by (symmetry; apply Hl64).
  rewrite take_app_length' by (symmetry; apply Hl64). rewrite get_put_i64 by done.
  assert (nth 20 (put_be 4 (lr_cred_id r) ++ put_i64 (lr_confirmed_inside_ms r) ++
            put_i64 (lr_opportunity_ms r) ++ [lr_flags r] ++ rest) 0 = lr_flags r) as ->.
  { rewrite app_nth2; rewrite length_put_be; [|lia].
    rewrite app_nth2; rewrite Hl64; [|lia]. rewrite app_nth2; rewrite Hl64; [|lia]. done. }
  destruct r; simpl in *. by destruct Hf as [-> | ->].
Qed.

Lemma get_recs_put recs rest :
  Forall rec_ok recs -> get_recs (length recs) (concat (map put_rec recs) ++ rest) = recs.
Proof.
  induction 1 as [|r recs Hr _ IH]; cbn [map concat length get_recs]; [done|].
  rewrite <- (assoc_L (++)).
  rewrite get_put_rec by done.
  rewrite drop_app_length' by (symmetry; apply length_put_rec). by rewrite IH.
Qed.

Lemma length_concat_recs recs :
  length (concat (map put_rec recs)) = (length recs * LATCH_REC_LEN)%nat.
Proof.
  induction recs as [|r recs IH]; cbn [map concat length]; [done|].
  rewrite length_app, length_put_rec, IH. lia.
Qed.

(** The blob of a list of used records. *)
Definition blob_body (recs : list latch_rec) : list Z :=
  [LATCH_BLOB_VER; Z.of_nat (length recs)] ++ concat (map put_rec recs).

Definition blob (recs : list latch_rec) : list Z :=
  blob_body recs ++ put_be 2 (side_log_crc16 (blob_body recs)).

Lemma serialize_blob l cap :
  (LATCH_BLOB_LEN <= cap)%nat -> latch_serialize l cap = blob (List.filter used (la_rec l)).
Proof.
  intros Hc. unfold latch_serialize. destruct (Nat.ltb_spec cap LATCH_BLOB_LEN); [lia|done].
Qed.

Lemma length_blob_body recs :
  length (blob_body recs) = (2 + length recs * LATCH_REC_LEN)%nat.
Proof. unfold blob_body. rewrite length_app, length_concat_recs. done. Qed.

Lemma length_blob recs : length (blob recs) = (2 + length recs * LATCH_REC_LEN + 2)%nat.
Proof. unfold blob. rewrite length_app, length_blob_body, length_put_be. done. Qed.

(** The records restored behind an empty per-approach state. *)
Definition restored (cfg : option latch_cfg) (recs : list latch_rec) : latch :=
  (latch_init cfg) <| la_rec := recs ++ replicate (LATCH_MAX_CREDS - length recs) zero_rec |>.

Lemma deserialize_blob cfg recs :
  Forall rec_ok recs -> (length recs <= LATCH_MAX_CREDS)%nat ->
  latch_deserialize cfg (Some (blob recs)) = (restored cfg recs, true).
Proof.
  intros Hok Hlen. unfold latch_deserialize. rewrite length_blob.
  destruct (Nat.ltb_spec (2 + length recs * LATCH_REC_LEN + 2) 4); [lia|].
  change (nth 0 (blob recs) 0) with LATCH_BLOB_VER. rewrite Z.eqb_refl. cbn [negb].
  change (nth 1 (blob recs) 0) with (Z.of_nat (length recs)). rewrite Nat2Z.id.
  destruct (Nat.ltb_spec LATCH_MAX_CREDS (length recs)); [lia|].
  rewrite Nat.eqb_refl. cbn [negb].
  assert (take (2 + length recs * LATCH_REC_LEN) (blob recs) = blob_body recs) as ->
    by (apply take_app_length'; by rewrite length_blob_body).
  assert (drop (2 + length recs * LATCH_REC_LEN) (blob recs)
          = put_be 2 (side_log_crc16 (blob_body recs))) as ->
    by (apply drop_app_length'; by rewrite length_blob_body).
  rewrite take_ge by (rewrite length_put_be; lia).
  rewrite get_put_be_id by apply crc16_range. rewrite Z.eqb_refl. cbn [negb].
  assert (drop 2 (blob recs) = concat (map put_rec recs) ++
            put_be 2 (side_log_crc16 (blob_body recs))) as -> by done.
  rewrite get_recs_put by done. unfold restored.
  change (la_rec (latch_init cfg)) with (replicate LATCH_MAX_CREDS zero_rec).
  by rewrite drop_replicate.
Qed.

(** Looking a credential up among the compacted records. *)
Lemma record_of_filter recs n cred :
  record_of (List.filter used recs ++ replicate n zero_rec) cred = record_of recs cred.
Proof.
  unfold record_of, rec_find. induction recs as [|r recs IH]; simpl.
  - induction n as [|n IHn]; simpl; [done|]. unfold is_cred at 1. simpl.
    destruct (find_index _ _); done.
  - assert (used r = false -> is_cred cred r = false) as Hno by (intros H; unfold is_cred; by rewrite H).
    destruct (used r) eqn:Hu; simpl.
    + destruct (is_cred cred r); simpl; [done|].
      destruct (find_index (is_cred cred) (List.filter used recs ++ _)),
        (find_index (is_cred cred) recs); simpl in *; congruence.
    + rewrite Hno by done. rewrite IH. by destruct (find_index (is_cred cred) recs).
Qed.

(** The records survive a reboot.  Serialising into a buffer of the
    advertised size and restoring gives every credential exactly the record
    it had, closes the session and discards all progress, so that nothing is
    permitted until a new approach has been proved. *)
Theorem latch_roundtrip cfg l cap :
  length (la_rec l) = LATCH_MAX_CREDS ->
  Forall (fun r => used r = true -> rec_ok r) (la_rec l) ->
  (LATCH_BLOB_LEN <= cap)%nat ->
  let '(l', ok) := latch_deserialize cfg (Some (latch_serialize l cap)) in
  ok = true /\ la_active l' = false /\ la_agree_n l' = 0 /\
  (forall cred, record_of (la_rec l') cred = record_of (la_rec l) cred) /\
  (forall cred now, latch_may_passive_unlock (Some l') cred now = false).
Proof.
  intros Hlen Hok Hcap. rewrite serialize_blob by done.
  assert (length (List.filter used (la_rec l)) <= LATCH_MAX_CREDS)%nat as Hle.
  { rewrite <- Hlen. apply filter_length_le. }
  rewrite deserialize_blob; [|  |done].
  2: { apply List.Forall_forall. intros r Hr. apply filter_In in Hr as [Hin Hu].
       rewrite List.Forall_forall in Hok. auto. }
  repeat split; try done.
  - intros cred. apply record_of_filter.
  - intros cred now. apply not_true_iff_false. intros Hp.
    apply permits_spec in Hp as (Ha & _). done.
Qed.

(** ** Corrupted blobs *)

Lemma put_rec_bytes r : rec_ok r -> Forall byte_ok (put_rec r).
Proof.
  intros [_ _ _ Hf]. unfold put_rec, put_i64. repeat (apply Forall_app; split);
    try apply put_be_bytes. constructor; [|constructor].
  unfold byte_ok. destruct Hf as [-> | ->]; [change F_USED with 1|change (Z.lor F_USED F_OPPORTUNITY) with 3];
    lia.
Qed.

Lemma blob_body_bytes recs :
  Forall rec_ok recs -> (length recs <= LATCH_MAX_CREDS)%nat ->
  Forall byte_ok (blob_body recs).
Proof.
  intros Hok Hlen. unfold blob_body. apply Forall_app. split.
  - unfold LATCH_MAX_CREDS, LATCH_BLOB_VER, byte_ok in *.
    constructor; [lia|]. constructor; [lia|constructor].
  - clear Hlen. induction Hok as [|r recs Hr _ IH]; cbn [map concat]; [constructor|].
    apply Forall_app. split; [by apply put_rec_bytes|done].
Qed.

(** The two checksum bytes determine the checksum. *)
Lemma crc_bytes_corrupt v j b :
  in_u 16 v -> (j < 2)%nat -> byte_ok b -> put_be 2 v !! j <> Some b ->
  get_be (<[j := b]> (put_be 2 v)) <> v.
Proof.
  intros [H0 H1] Hj Hb Hne.
  assert (exists hi lo, put_be 2 v = [hi; lo] /\ byte_ok hi /\ byte_ok lo /\ v = hi * 256 + lo)
    as (hi & lo & Hp & Hhi & Hlo & Hv).
  { exists (u8 (Z.shiftr v 8)), (u8 (Z.shiftr v 0)). split; [done|].
    rewrite Z.shiftr_0_r, Z.shiftr_div_pow2 by lia.
    unfold wrap, byte_ok. change (2 ^ 8) with 256. change (2 ^ 16) with 65536 in *.
    repeat split; zdiv. }
  rewrite Hp in *. unfold byte_ok in *.
  assert (forall x y, 0 <= y < 256 -> get_be [x; y] = x * 256 + y) as Hg.
  { intros x y Hy. unfold get_be. cbn [fold_left]. rewrite Z.shiftl_0_l, Z.lor_0_l.
    rewrite lor_shiftl_add by lia. done. }
  assert (j = 0 \/ j = 1)%nat as [-> | ->] by lia.
  - change (<[0%nat:=b]> [hi; lo]) with [b; lo]. rewrite Hg by lia.
    intros He. apply Hne. cbn. f_equal. lia.
  - change (<[1%nat:=b]> [hi; lo]) with [hi; b]. rewrite Hg by lia.
    intros He. apply Hne. cbn. f_equal. lia.
Qed.

Lemma blob_crc_mismatch recs i b :
  Forall rec_ok recs -> (length recs <= LATCH_MAX_CREDS)%nat ->
  (i < length (blob recs))%nat -> byte_ok b -> blob recs !! i <> Some b ->
  get_be (take 2 (drop (2 + length recs * LATCH_REC_LEN) (<[i := b]> (blob recs)))) <>
  side_log_crc16 (take (2 + length recs * LATCH_REC_LEN) (<[i := b]> (blob recs))).
Proof.
  intros Hok Hlen Hi Hb Hne. rewrite <- length_blob_body.
  pose proof (blob_body_bytes recs Hok Hlen) as Hbytes. rewrite length_blob in Hi.
  pose proof (length_blob_body recs) as Hbl. unfold blob in *.
  set (body := blob_body recs) in *. set (v := side_log_crc16 body) in *.
  assert (in_u 16 v) as Hv by apply crc16_range.
  destruct (decide (i < length body)%nat) as [Hlt|Hge].
  - rewrite insert_app_l by done.
    rewrite <- (length_insert body i b) at 1 2.
    rewrite drop_app_length, take_app_length.
    rewrite take_ge by (rewrite length_put_be; lia). rewrite get_put_be_id by exact Hv.
    rewrite lookup_app_l in Hne by done. intros He.
    by apply (crc16_insert body i b).
  - rewrite insert_app_r_alt by lia. rewrite drop_app_length, take_app_length.
    rewrite take_ge by (rewrite length_insert, length_put_be; lia).
    rewrite lookup_app_r in Hne by lia. apply crc_bytes_corrupt; [done|lia|done|done].
Qed.

(** A damaged blob restores nothing.  Changing any single byte of a
    serialised latch, be it the version, the count, a record or the
    checksum, is detected, and what is left is exactly a freshly
    initialised latch. *)
Theorem latch_blob_corruption cfg l cap i b :
  length (la_rec l) = LATCH_MAX_CREDS ->
  Forall (fun r => used r = true -> rec_ok r) (la_rec l) ->
  (LATCH_BLOB_LEN <= cap)%nat -> (i < length (latch_serialize l cap))%nat -> byte_ok b ->
  latch_serialize l cap !! i <> Some b ->
  latch_deserialize cfg (Some (<[i := b]> (latch_serialize l cap))) = (latch_init cfg, false).
Proof.
  intros Hlen Hok Hcap. rewrite serialize_blob by done. intros Hi Hb Hne.
  set (recs := List.filter used (la_rec l)) in *.
  assert (length recs <= LATCH_MAX_CREDS)%nat as Hle.
  { rewrite <- Hlen. apply filter_length_le. }
  assert (Forall rec_ok recs) as Hrec.
  { apply List.Forall_forall. intros r Hr. apply filter_In in Hr as [Hin Hu].
    rewrite List.Forall_forall in Hok. auto. }
  pose proof (blob_crc_mismatch recs i b Hrec Hle Hi Hb Hne) as Hcrc.
  unfold latch_deserialize. rewrite length_insert, length_blob.
  destruct (Nat.ltb_spec (2 + length recs * LATCH_REC_LEN + 2) 4); [lia|].
  destruct i as [|[|i]].
  - rewrite (nth_lookup_Some _ 0 0 b) by (apply list_lookup_insert_eq; exact Hi).
    destruct (Z.eqb_spec b LATCH_BLOB_VER) as [->|]; [by destruct Hne|done].
  - destruct (negb _); [done|]. cbv zeta.
    rewrite (nth_lookup_Some _ 1 0 b) by (apply list_lookup_insert_eq; exact Hi).
    destruct (Nat.ltb_spec LATCH_MAX_CREDS (Z.to_nat b)); [done|].
    destruct (Nat.eqb_spec (2 + length recs * LATCH_REC_LEN + 2)
                (2 + Z.to_nat b * LATCH_REC_LEN + 2)) as [He|]; [|done].
    exfalso. apply Hne. change (blob recs !! 1%nat) with (Some (Z.of_nat (length recs))).
    f_equal. unfold LATCH_REC_LEN, byte_ok in *. lia.
  - destruct (negb _); [done|]. cbv zeta.
    assert (nth 1 (<[S (S i) := b]> (blob recs)) 0 = Z.of_nat (length recs)) as -> by done.
    rewrite Nat2Z.id. destruct (LATCH_MAX_CREDS <? length recs)%nat; [done|].
    rewrite Nat.eqb_refl. cbn [negb].
    destruct (Z.eqb_spec
      (get_be (take 2 (drop (2 + length recs * LATCH_REC_LEN) (<[S (S i):=b]> (blob recs)))))
      (side_log_crc16 (take (2 + length recs * LATCH_REC_LEN) (<[S (S i):=b]> (blob recs)))));
      done.
Qed.

(** ** Witnesses *)

(** A grant, a minute indoors, a session from 4 m out with three OUTSIDE
    windows. *)
Definition approach_events : list levent :=
  [LGrant 7 1000; LOpen 7; LWindow 7 L_OUTSIDE 4000 70000; LWindow 7 L_THRESHOLD 3500 70500;
   LWindow 7 L_OUTSIDE 3000 71000; LWindow 7 L_OUTSIDE 1500 72000].

Definition booted : latch := (latch_deserialize None None).1.

Lemma approach_reach :
  lreach None (rev approach_events) (fold_left lstep approach_events booted).
Proof. repeat apply lreach_step. apply lreach_boot. Qed.

Lemma latch_permit_evidence_witness :
  let l := fold_left lstep approach_events booted in
  evidence (lc_clear_min_mm (la_cfg l)) 7 (lc_clear_windows (la_cfg l))
    (la_last_outside_ms l) (rev approach_events) /\
  (lc_clear_valid_ms (la_cfg l) = 0 \/ 75000 - la_last_outside_ms l <= lc_clear_valid_ms (la_cfg l)).
Proof.
  apply (latch_permit_evidence None);
    [exact approach_reach|vm_compute; reflexivity|vm_compute; reflexivity].
Defined.

Lemma dwell_enforced_witness :
  latch_may_passive_unlock
    (Some (fold_left lstep [LOpen 7; LWindow 7 L_OUTSIDE 4000 2000; LWindow 7 L_OUTSIDE 3000 3000;
                            LWindow 7 L_OUTSIDE 2000 4000] (latch_note_grant booted 7 1000)))
    7 5000 = false.
Proof.
  apply dwell_enforced; try (vm_compute; discriminate).
  - exact (unique_init None).
  - repeat constructor.
  - vm_compute. reflexivity.
  - vm_compute. intros r [= <-]. discriminate.
Defined.

Definition granted : latch := latch_note_grant booted 7 1000.

Lemma granted_ok :
  length (la_rec granted) = LATCH_MAX_CREDS /\
  Forall (fun r => used r = true -> rec_ok r) (la_rec granted).
Proof.
  split; [reflexivity|].
  let x := eval vm_compute in (la_rec granted) in change (la_rec granted) with x.
  constructor.
  - intros _. constructor; unfold in_u, in_i; simpl; [lia|lia|lia|by right].
  - repeat (constructor; [discriminate|]). constructor.
Defined.

Lemma latch_roundtrip_witness :
  let '(l', ok) := latch_deserialize None (Some (latch_serialize granted 172)) in
  ok = true /\ la_active l' = false /\ la_agree_n l' = 0 /\
  (forall cred, record_of (la_rec l') cred = record_of (la_rec granted) cred) /\
  (forall cred now, latch_may_passive_unlock (Some l') cred now = false).
Proof.
  apply (latch_roundtrip None granted 172);
    [exact (proj1 granted_ok)|exact (proj2 granted_ok)|vm_compute; lia].
Defined.

Lemma latch_blob_corruption_witness :
  latch_deserialize None (Some (<[5%nat := 99]> (latch_serialize granted 172)))
  = (latch_init None, false).
Proof.
  apply (latch_blob_corruption None granted 172 5 99);
    [exact (proj1 granted_ok)|exact (proj2 granted_ok)|..];
    vm_compute; first [lia | discriminate | split; [discriminate|reflexivity]].
Defined.
