(* ===== verification/Door.v ===== *)
(** * Door swing

    Models [modules/ultrawidelock_anchor/src/ultrawidelock_door.c]: the Q15
    cosine table with its interpolated lookup and inverse, the law of cosines,
    the integer square root, and the state machine with hysteresis and dwell.
    C division truncates: it is [Z.quot] and [Z.rem]. *)

From Stdlib Require Import ZArith Lia Bool.
From stdpp Require Import base list numbers.
From S2P Require Import Prelude.

Local Open Scope Z_scope.

Definition DOOR_ANGLE_INVALID : Z := INT32_MIN.

(** [struct ultrawidelock_door_cfg]. *)
Record door_cfg := mk_door_cfg {
  hinge_to_frame_mm : Z;
  hinge_to_leaf_mm : Z;
  offset_mddeg : Z;
}.

(** [enum ultrawidelock_door_state]. *)
Inductive door_state := DOOR_UNKNOWN | DOOR_CLOSED | DOOR_AJAR | DOOR_OPEN.

#[export] Instance door_state_eq_dec : EqDecision door_state.
Proof. solve_decision. Defined.

(** [struct ultrawidelock_door_thresholds]. *)
Record door_thresholds := mk_door_thresholds {
  closed_enter_mddeg : Z;
  closed_leave_mddeg : Z;
  open_enter_mddeg : Z;
  open_leave_mddeg : Z;
  th_dwell : Z;
}.

#[export] Instance door_thresholds_eta : Eta door_thresholds := fun t =>
  mk_door_thresholds (closed_enter_mddeg t) (closed_leave_mddeg t) (open_enter_mddeg t)
    (open_leave_mddeg t) (th_dwell t).

(** [struct ultrawidelock_door]. *)
Record door := mk_door {
  dr_cfg : door_cfg;
  dr_th : door_thresholds;
  dr_state : door_state;
  dr_cand : door_state;
  dr_cand_n : Z;
  dr_last_mddeg : Z;
}.

#[export] Instance door_eta : Eta door := fun d =>
  mk_door (dr_cfg d) (dr_th d) (dr_state d) (dr_cand d) (dr_cand_n d) (dr_last_mddeg d).

Definition k_cos_q15 : list Z :=
  [32767; 32762; 32747; 32722; 32687; 32642; 32587; 32523; 32448; 32364; 32269; 32165;
   32051; 31927; 31794; 31650; 31498; 31335; 31163; 30982; 30791; 30591; 30381; 30162;
   29934; 29697; 29451; 29196; 28932; 28659; 28377; 28087; 27788; 27481; 27165; 26841;
   26509; 26169; 25821; 25465; 25101; 24730; 24351; 23964; 23571; 23170; 22762; 22347;
   21925; 21497; 21062; 20621; 20173; 19720; 19260; 18794; 18323; 17846; 17364; 16876;
   16384; 15886; 15383; 14876; 14364; 13848; 13328; 12803; 12275; 11743; 11207; 10668;
   10126; 9580; 9032; 8481; 7927; 7371; 6813; 6252; 5690; 5126; 4560; 3993;
   3425; 2856; 2286; 1715; 1144; 572; 0; (-572); (-1144); (-1715); (-2286); (-2856);
   (-3425); (-3993); (-4560); (-5126); (-5690); (-6252); (-6813); (-7371); (-7927); (-8481); (-9032); (-9580);
   (-10126); (-10668); (-11207); (-11743); (-12275); (-12803); (-13328); (-13848); (-14364); (-14876); (-15383); (-15886);
   (-16383); (-16876); (-17364); (-17846); (-18323); (-18794); (-19260); (-19720); (-20173); (-20621); (-21062); (-21497);
   (-21925); (-22347); (-22762); (-23170); (-23571); (-23964); (-24351); (-24730); (-25101); (-25465); (-25821); (-26169);
   (-26509); (-26841); (-27165); (-27481); (-27788); (-28087); (-28377); (-28659); (-28932); (-29196); (-29451); (-29697);
   (-29934); (-30162); (-30381); (-30591); (-30791); (-30982); (-31163); (-31335); (-31498); (-31650); (-31794); (-31927);
   (-32051); (-32165); (-32269); (-32364); (-32448); (-32523); (-32587); (-32642); (-32687); (-32722); (-32747); (-32762);
   (-32767)].

Definition cos_at (deg : Z) : Z := nth (Z.to_nat deg) k_cos_q15 0.

Definition Q15 : Z := 32767.

Definition cos_q15 (mddeg : Z) : Z :=
  let mddeg := if mddeg <? 0 then - mddeg else mddeg in
  if 180000 <=? mddeg then - Q15
  else
    let deg := Z.quot mddeg 1000 in
    let frac := Z.rem mddeg 1000 in
    cos_at deg + Z.quot ((cos_at (deg + 1) - cos_at deg) * frac) 1000.

Definition sin_q15 (mddeg : Z) : Z := cos_q15 (90000 - mddeg).

(** The binary search of [acos_mddeg]; eight halvings bring 180 to 1. *)
Fixpoint acos_search (fuel : nat) (q15 lo hi : Z) : Z * Z :=
  match fuel with
  | O => (lo, hi)
  | S fuel =>
      if 1 <? hi - lo then
        let mid := Z.quot (lo + hi) 2 in
        if q15 <? cos_at mid then acos_search fuel q15 mid hi
        else acos_search fuel q15 lo mid
      else (lo, hi)
  end.

Definition acos_mddeg (q15 : Z) : Z :=
  if Q15 <=? q15 then 0
  else if q15 <=? - Q15 then 180000
  else
    let '(lo, hi) := acos_search 8 q15 0 180 in
    let span := cos_at lo - cos_at hi in
    if span <=? 0 then lo * 1000
    else lo * 1000 + Z.quot ((cos_at lo - q15) * 1000) span.

Definition door_defaults : door_thresholds := {|
  closed_enter_mddeg := 2000;
  closed_leave_mddeg := 5000;
  open_enter_mddeg := 35000;
  open_leave_mddeg := 30000;
  th_dwell := 3;
|}.

Definition cfg_ok (cfg : door_cfg) : bool :=
  (0 <? hinge_to_frame_mm cfg) && (0 <? hinge_to_leaf_mm cfg) &&
  (0 <=? offset_mddeg cfg) && (offset_mddeg cfg <? 180000).

(** The cosine of the hinge angle in Q15 before the conversion to 32 bits. *)
Definition hinge_ratio (a b d_mm : Z) : Z :=
  Z.quot ((a * a + b * b - d_mm * d_mm) * Q15) (2 * a * b).

Definition door_angle_mddeg (cfg : door_cfg) (d_mm : Z) : Z :=
  if negb (cfg_ok cfg) || (d_mm <? 0) then DOOR_ANGLE_INVALID
  else
    let a := hinge_to_frame_mm cfg in
    let b := hinge_to_leaf_mm cfg in
    if 2 * a * b =? 0 then DOOR_ANGLE_INVALID
    else
      let ratio := i32 (hinge_ratio a b d_mm) in
      if (Q15 + 1 <? ratio) || (ratio <? - Q15 - 1) then DOOR_ANGLE_INVALID
      else acos_mddeg ratio - offset_mddeg cfg.

(** The Newton iteration, strictly decreasing in [d]. *)
Fixpoint newton (fuel : nat) (d2 d : Z) : Z :=
  match fuel with
  | O => d
  | S fuel =>
      if 0 <? d then
        let next := Z.quot (d + Z.quot d2 d) 2 in
        if d <=? next then d else newton fuel d2 next
      else d
  end.

(** The squared distance at a hinge angle. *)
Definition hinge_d2 (a b phi : Z) : Z :=
  a * a + b * b - Z.quot (2 * a * b * cos_q15 phi) Q15.

Definition door_resolution_mddeg (cfg : door_cfg) (at_mddeg jitter_mm : Z) : Z :=
  if negb (cfg_ok cfg) || (jitter_mm <=? 0) then INT32_MAX
  else
    let a := hinge_to_frame_mm cfg in
    let b := hinge_to_leaf_mm cfg in
    let phi := at_mddeg + offset_mddeg cfg in
    if (phi <? 0) || (180000 <? phi) then INT32_MAX
    else
      let d2 := hinge_d2 a b phi in
      if d2 <=? 0 then INT32_MAX
      else
        let d := newton (Z.to_nat (a + b)) d2 (a + b) in
        if d =? 0 then INT32_MAX
        else
          let s := sin_q15 phi in
          if s <=? 0 then INT32_MAX
          else
            let sens_num := Z.quot (Z.quot (a * b * s) Q15) d in
            if sens_num <=? 0 then INT32_MAX
            else i32 (Z.quot (jitter_mm * 57296) sens_num).

Definition door_init (cfg : door_cfg) (th : option door_thresholds) : option door :=
  if negb (cfg_ok cfg) then None
  else
    let t := default door_defaults th in
    let t := if th_dwell t =? 0 then t <| th_dwell := 1 |> else t in
    Some (mk_door cfg t DOOR_UNKNOWN DOOR_UNKNOWN 0 DOOR_ANGLE_INVALID).

Definition classify (d : door) (mddeg : Z) : door_state :=
  let th := dr_th d in
  match dr_state d with
  | DOOR_CLOSED =>
      if mddeg <=? closed_leave_mddeg th then DOOR_CLOSED
      else if mddeg <=? closed_enter_mddeg th then DOOR_CLOSED
      else if open_enter_mddeg th <=? mddeg then DOOR_OPEN else DOOR_AJAR
  | DOOR_OPEN =>
      if open_leave_mddeg th <=? mddeg then DOOR_OPEN
      else if mddeg <=? closed_enter_mddeg th then DOOR_CLOSED
      else if open_enter_mddeg th <=? mddeg then DOOR_OPEN else DOOR_AJAR
  | _ =>
      if mddeg <=? closed_enter_mddeg th then DOOR_CLOSED
      else if open_enter_mddeg th <=? mddeg then DOOR_OPEN else DOOR_AJAR
  end.

Definition no_cand (d : door) : door :=
  d <| dr_cand := DOOR_UNKNOWN |> <| dr_cand_n := 0 |>.

Definition door_feed (d : door) (d_mm : Z) : door * door_state :=
  let mddeg := door_angle_mddeg (dr_cfg d) d_mm in
  let d := d <| dr_last_mddeg := mddeg |> in
  if mddeg =? DOOR_ANGLE_INVALID then (no_cand d, dr_state d)
  else
    let want := classify d mddeg in
    if bool_decide (want = dr_state d) then (no_cand d, dr_state d)
    else
      let d := if bool_decide (want = dr_cand d)
               then d <| dr_cand_n := u8 (dr_cand_n d + 1) |>
               else d <| dr_cand := want |> <| dr_cand_n := 1 |> in
      let d := if th_dwell (dr_th d) <=? dr_cand_n d
               then no_cand (d <| dr_state := want |>) else d in
      (d, dr_state d).

(** * Properties of the door model

    The cosine table and its inverse, the angle as a function of the distance,
    the exactness of the square root, and the dwell and hysteresis of the
    reported state over whole runs of [door_feed]. *)

Local Open Scope Z_scope.

(** ** The table and its inverse *)

Lemma cos_step_table :
  forallb (fun i => cos_at (Z.of_nat i + 1) <? cos_at (Z.of_nat i)) (seq 0 180) = true.
Proof. vm_compute. reflexivity. Qed.

Lemma cos_step i : 0 <= i < 180 -> cos_at (i + 1) < cos_at i.
Proof.
  intros Hi. pose proof (proj1 (forallb_forall _ _) cos_step_table (Z.to_nat i)) as H.
  cbv beta in H. rewrite Z2Nat.id in H by lia. apply Z.ltb_lt, H, in_seq. lia.
Qed.

Lemma cos_decreasing i j : 0 <= i -> i < j -> j <= 180 -> cos_at j < cos_at i.
Proof.
  intros Hi Hij Hj. replace j with (i + 1 + Z.of_nat (Z.to_nat (j - i - 1))) in * by lia.
  generalize dependent (Z.to_nat (j - i - 1)). intros n.
  induction n as [|n IH]; intros; [rewrite Z.add_0_r; apply cos_step; lia|].
  replace (i + 1 + Z.of_nat (S n)) with (i + 1 + Z.of_nat n + 1) by lia.
  assert (cos_at (i + 1 + Z.of_nat n + 1) < cos_at (i + 1 + Z.of_nat n))
    by (apply cos_step; lia).
  assert (cos_at (i + 1 + Z.of_nat n) < cos_at i) by (apply IH; lia). lia.
Qed.

(** The degree that brackets a value of the table. *)
Definition brackets (q lo : Z) : Prop :=
  0 <= lo < 180 /\ cos_at (lo + 1) <= q < cos_at lo.

Lemma acos_search_spec fuel q lo hi :
  0 <= lo < hi -> hi <= 180 -> cos_at hi <= q < cos_at lo -> hi - lo <= 2 ^ Z.of_nat fuel ->
  exists l, acos_search fuel q lo hi = (l, l + 1) /\ brackets q l.
Proof.
  revert lo hi. induction fuel as [|fuel IH]; intros lo hi Hlo Hhi Hq Hf.
  { change (2 ^ Z.of_nat 0) with 1 in Hf. exists lo. replace hi with (lo + 1) in * by lia.
    split; [done|]. unfold brackets. lia. }
  rewrite Nat2Z.inj_succ, Z.pow_succ_r in Hf by lia. simpl.
  destruct (Z.ltb_spec 1 (hi - lo)).
  - rewrite Z.quot_div_nonneg by lia.
    destruct (Z.ltb_spec q (cos_at ((lo + hi) / 2))); apply IH; try lia; zdiv.
  - exists lo. replace hi with (lo + 1) in * by lia. split; [done|]. unfold brackets. lia.
Qed.

(** The search ends on the bracketing degree and interpolates inside it. *)
Lemma acos_bracket q :
  - Q15 < q < Q15 ->
  exists l, brackets q l /\
    acos_mddeg q = l * 1000 + (cos_at l - q) * 1000 / (cos_at l - cos_at (l + 1)) /\
    l * 1000 <= acos_mddeg q <= l * 1000 + 1000.
Proof.
  intros Hq. unfold acos_mddeg. unfold Q15 in *.
  destruct (Z.leb_spec 32767 q); [lia|]. destruct (Z.leb_spec q (- (32767))); [lia|].
  destruct (acos_search_spec 8 q 0 180) as (l & -> & Hl); [lia|lia| |simpl; lia|].
  { change (cos_at 180) with (-32767). change (cos_at 0) with 32767. lia. }
  exists l. destruct Hl as [Hr [Hlo Hhi]].
  destruct (Z.leb_spec (cos_at l - cos_at (l + 1)) 0); [lia|].
  rewrite Z.quot_div_nonneg by lia. split; [done|]. split; [done|].
  assert (0 <= (cos_at l - q) * 1000 / (cos_at l - cos_at (l + 1)) <= 1000); [|lia].
  split; [apply Z.div_pos; lia|]. apply Z.div_le_upper_bound; lia.
Qed.

Lemma acos_range q : 0 <= acos_mddeg q <= 180000.
Proof.
  destruct (decide (- Q15 < q < Q15)) as [Hq|Hq].
  - destruct (acos_bracket q Hq) as (l & [? _] & _ & ?). lia.
  - unfold acos_mddeg, Q15 in *. destruct (Z.leb_spec 32767 q); [lia|].
    destruct (Z.leb_spec q (- (32767))); lia.
Qed.

(** A larger cosine is a smaller angle. *)
Lemma acos_antitone q q' : q <= q' -> acos_mddeg q' <= acos_mddeg q.
Proof.
  intros Hqq.
  destruct (decide (Q15 <= q')) as [Hhi|Hhi].
  { pose proof (acos_range q). unfold acos_mddeg at 1.
    destruct (Z.leb_spec Q15 q'); lia. }
  destruct (decide (q <= - Q15)) as [Hlo|Hlo].
  { pose proof (acos_range q'). unfold acos_mddeg at 2.
    destruct (Z.leb_spec Q15 q); [unfold Q15 in *; lia|].
    destruct (Z.leb_spec q (- Q15)); lia. }
  destruct (acos_bracket q) as (l & [Hr Hl] & He & Hb); [lia|].
  destruct (acos_bracket q') as (l' & [Hr' Hl'] & He' & Hb'); [lia|].
  destruct (Z.lt_trichotomy l l') as [Hlt|[->|Hgt]].
  - exfalso. destruct (decide (l' = l + 1)) as [->|]; [lia|].
    assert (cos_at l' < cos_at (l + 1)) by (apply cos_decreasing; lia). lia.
  - rewrite He, He'. apply Z.add_le_mono_l. apply Z.div_le_mono; lia.
  - lia.
Qed.

(** ** The angle *)

(** The distances the hinge can produce. *)
Definition possible (cfg : door_cfg) (d : Z) : Prop :=
  Z.abs (hinge_to_frame_mm cfg - hinge_to_leaf_mm cfg) <= d <=
  hinge_to_frame_mm cfg + hinge_to_leaf_mm cfg.

Lemma quot_bounds n m k : 0 < m -> - (k * m) <= n <= k * m -> - k <= Z.quot n m <= k.
Proof.
  intros Hm [Hl Hu]. split.
  - rewrite <- (Z.quot_mul (- k) m) by lia. apply Z.quot_le_mono; lia.
  - rewrite <- (Z.quot_mul k m) by lia. apply Z.quot_le_mono; lia.
Qed.

Lemma hinge_ratio_range a b d :
  0 < a -> 0 < b -> Z.abs (a - b) <= d <= a + b -> - Q15 <= hinge_ratio a b d <= Q15.
Proof.
  intros Ha Hb Hd. unfold hinge_ratio. apply quot_bounds; [nia|].
  assert (- (2 * a * b) <= a * a + b * b - d * d <= 2 * a * b) by nia.
  unfold Q15. nia.
Qed.

Lemma hinge_ratio_antitone a b d d' :
  0 < a -> 0 < b -> 0 <= d <= d' -> hinge_ratio a b d' <= hinge_ratio a b d.
Proof.
  intros Ha Hb Hd. unfold hinge_ratio. apply Z.quot_le_mono; [nia|]. unfold Q15. nia.
Qed.

(** A possible distance takes no branch of the validation. *)
Lemma door_angle_possible cfg d :
  cfg_ok cfg = true -> possible cfg d ->
  door_angle_mddeg cfg d =
  acos_mddeg (hinge_ratio (hinge_to_frame_mm cfg) (hinge_to_leaf_mm cfg) d) - offset_mddeg cfg.
Proof.
  intros Hok Hd. unfold possible in Hd. unfold door_angle_mddeg. rewrite Hok.
  unfold cfg_ok in Hok. set (a := hinge_to_frame_mm cfg) in *.
  set (b := hinge_to_leaf_mm cfg) in *.
  assert (0 < a /\ 0 < b) as [Ha Hb] by lia.
  destruct (Z.ltb_spec d 0); [lia|]. cbn [negb orb].
  destruct (Z.eqb_spec (2 * a * b) 0); [nia|].
  pose proof (hinge_ratio_range a b d Ha Hb Hd) as Hr.
  rewrite swrap_id; [|lia|unfold in_i, Q15 in *; lia].
  destruct (Z.ltb_spec (Q15 + 1) (hinge_ratio a b d)); [lia|].
  destruct (Z.ltb_spec (hinge_ratio a b d) (- Q15 - 1)); [lia|]. done.
Qed.

(** Every distance the hinge can produce gives an angle between the two
    ends of the swing, and a longer distance never gives a smaller one. *)
Theorem door_angle_monotone cfg d d' :
  cfg_ok cfg = true -> possible cfg d -> possible cfg d' -> d <= d' ->
  0 <= door_angle_mddeg cfg d + offset_mddeg cfg <= 180000 /\
  door_angle_mddeg cfg d <> DOOR_ANGLE_INVALID /\
  door_angle_mddeg cfg d <= door_angle_mddeg cfg d'.
Proof.
  intros Hok Hd Hd' Hle. rewrite !door_angle_possible by done.
  unfold cfg_ok in Hok. unfold possible in Hd. set (a := hinge_to_frame_mm cfg) in *.
  set (b := hinge_to_leaf_mm cfg) in *.
  pose proof (acos_range (hinge_ratio a b d)).
  assert (hinge_ratio a b d' <= hinge_ratio a b d) as Hr by (apply hinge_ratio_antitone; lia).
  apply acos_antitone in Hr. unfold DOOR_ANGLE_INVALID, INT32_MIN. lia.
Qed.

(** ** The integer square root *)

Lemma newton_step_ge d2 d : 0 < d -> 0 <= d2 -> Z.sqrt d2 <= (d + d2 / d) / 2.
Proof.
  intros Hd H2. pose proof (Z.sqrt_spec d2 H2) as [Hs _]. pose proof (Z.sqrt_nonneg d2).
  set (r := Z.sqrt d2) in *. apply Z.div_le_lower_bound; [lia|].
  pose proof (Z.div_mod d2 d ltac:(lia)). pose proof (Z.mod_pos_bound d2 d Hd).
  set (q := d2 / d) in *.
  destruct (decide (2 * r <= d + q)) as [|Hn]; [done|exfalso].
  assert (q <= 2 * r - d - 1) by lia. assert (d * q <= d * (2 * r - d - 1)) as Hm
    by (apply Z.mul_le_mono_nonneg_l; lia).
  assert (0 <= (r - d) * (r - d)) by apply Z.square_nonneg. nia.
Qed.

(** From any starting point at or above the root the loop returns the exact
    integer square root, with the seed as a bound on the number of steps. *)
Lemma newton_is_sqrt fuel d2 d :
  0 < d2 -> Z.sqrt d2 <= d -> d <= Z.of_nat fuel -> newton fuel d2 d = Z.sqrt d2.
Proof.
  intros H2. assert (0 < Z.sqrt d2) as Hpos by (apply Z.sqrt_pos; lia).
  revert d. induction fuel as [|fuel IH]; intros d Hd Hf; [lia|]. simpl.
  destruct (Z.ltb_spec 0 d); [|lia].
  assert (0 <= d2 / d) by (apply Z.div_pos; lia).
  rewrite (Z.quot_div_nonneg d2 d), Z.quot_div_nonneg by lia.
  pose proof (newton_step_ge d2 d ltac:(lia) ltac:(lia)) as Hge.
  destruct (Z.leb_spec d ((d + d2 / d) / 2)) as [Hstop|Hgo]; [|apply IH; lia].
  assert (d <= d2 / d) as Hq by zdiv.
  assert (d * d <= d2).
  { pose proof (Z.mul_div_le d2 d ltac:(lia)). nia. }
  apply Z.le_antisymm; [|done]. apply Z.sqrt_le_square; lia.
Qed.

Lemma cos_at_range i : 0 <= i <= 180 -> - Q15 <= cos_at i <= Q15.
Proof.
  intros Hi. change (- Q15) with (cos_at 180). change Q15 with (cos_at 0).
  split.
  - destruct (decide (i = 180)) as [->|]; [lia|].
    assert (cos_at 180 < cos_at i) by (apply cos_decreasing; lia). lia.
  - destruct (decide (i = 0)) as [->|]; [lia|].
    assert (cos_at i < cos_at 0) by (apply cos_decreasing; lia). lia.
Qed.

Lemma cos_q15_range m : - Q15 <= cos_q15 m <= Q15.
Proof.
  unfold cos_q15. set (x := if m <? 0 then - m else m).
  assert (0 <= x) as Hx by (unfold x; destruct (Z.ltb_spec m 0); lia).
  destruct (Z.leb_spec 180000 x); [unfold Q15; lia|].
  rewrite Z.quot_div_nonneg, Z.rem_mod_nonneg by lia.
  assert (0 <= x / 1000 < 180) as Hdeg by zdiv.
  pose proof (cos_at_range (x / 1000) ltac:(lia)).
  pose proof (cos_at_range (x / 1000 + 1) ltac:(lia)).
  pose proof (cos_step (x / 1000) Hdeg).
  pose proof (Z.mod_pos_bound x 1000 ltac:(lia)).
  set (c0 := cos_at (x / 1000)) in *. set (c1 := cos_at (x / 1000 + 1)) in *.
  set (f := x mod 1000) in *.
  replace ((c1 - c0) * f) with (- ((c0 - c1) * f)) by ring.
  rewrite Z.quot_opp_l, Z.quot_div_nonneg by nia.
  assert (0 <= (c0 - c1) * f / 1000 <= c0 - c1); [|lia].
  split; [apply Z.div_pos; nia|]. apply Z.div_le_upper_bound; nia.
Qed.

Lemma hinge_d2_le a b phi : 0 < a -> 0 < b -> hinge_d2 a b phi <= (a + b) * (a + b).
Proof.
  intros Ha Hb. unfold hinge_d2. pose proof (cos_q15_range phi) as Hc.
  set (c := cos_q15 phi) in *.
  assert (- (2 * a * b) <= Z.quot (2 * a * b * c) Q15); [|nia].
  rewrite <- (Z.quot_mul (- (2 * a * b)) Q15) by done.
  apply Z.quot_le_mono; unfold Q15 in *; nia.
Qed.

(** The square root in the resolution query is exact and returns.  For
    every usable geometry and angle, the Newton loop seeded with a + b stops
    within a + b steps on the integer square root of the squared distance. *)
Theorem resolution_root_exact cfg phi :
  cfg_ok cfg = true ->
  let a := hinge_to_frame_mm cfg in
  let b := hinge_to_leaf_mm cfg in
  0 < hinge_d2 a b phi ->
  newton (Z.to_nat (a + b)) (hinge_d2 a b phi) (a + b) = Z.sqrt (hinge_d2 a b phi).
Proof.
  intros Hok a b H2. unfold cfg_ok in Hok. fold a b in Hok.
  apply newton_is_sqrt; [done| |lia].
  rewrite <- (Z.sqrt_square (a + b)) by lia. apply Z.sqrt_le_mono, hinge_d2_le; lia.
Qed.

(** ** The state machine *)

Inductive dreach (d0 : door) : list (door * Z) -> door -> Prop :=
  | dreach_init : dreach d0 [] d0
  | dreach_feed h d mm : dreach d0 h d -> dreach d0 ((d, mm) :: h) (door_feed d mm).1.

(** What a sample argues for in the state it met; UNKNOWN when the geometry
    cannot explain it. *)
Definition argues (x : door * Z) : door_state :=
  let mddeg := door_angle_mddeg (dr_cfg x.1) x.2 in
  if mddeg =? DOOR_ANGLE_INVALID then DOOR_UNKNOWN else classify x.1 mddeg.

(** The newest samples in a row that argue for [s] while in state [from]. *)
Fixpoint arguing (from s : door_state) (h : list (door * Z)) : Z :=
  match h with
  | [] => 0
  | x :: h =>
      if bool_decide (argues x = s) && bool_decide (dr_state x.1 = from)
      then 1 + arguing from s h else 0
  end.

Lemma arguing_nonneg from s h : 0 <= arguing from s h.
Proof. induction h as [|x h IH]; simpl; [lia|]. case_match; lia. Qed.

Lemma arguing_cons d mm h :
  arguing (dr_state d) (argues (d, mm)) ((d, mm) :: h) =
  1 + arguing (dr_state d) (argues (d, mm)) h.
Proof.
  cbn [arguing fst]. rewrite (bool_decide_eq_true_2 (argues (d, mm) = _)) by done.
  by rewrite (bool_decide_eq_true_2 (dr_state d = _)) by done.
Qed.

Record door_inv (d0 : door) (h : list (door * Z)) (d : door) : Prop := {
  di_cfg : dr_cfg d = dr_cfg d0;
  di_th : dr_th d = dr_th d0;
  di_n : 0 <= dr_cand_n d < th_dwell (dr_th d0);
  di_run : dr_cand d <> DOOR_UNKNOWN -> dr_cand_n d <= arguing (dr_state d) (dr_cand d) h;
}.

Lemma classify_known d m : classify d m <> DOOR_UNKNOWN.
Proof. unfold classify. repeat case_match; done. Qed.

Lemma classify_ext d m x : classify (d <| dr_last_mddeg := x |>) m = classify d m.
Proof. done. Qed.

(** One sample: the branches of [door_feed] in terms of what it argues for. *)
Lemma door_feed_cases d mm :
  let r := (door_feed d mm).1 in
  dr_cfg r = dr_cfg d /\ dr_th r = dr_th d /\ (door_feed d mm).2 = dr_state r /\
  (argues (d, mm) = DOOR_UNKNOWN \/ argues (d, mm) = dr_state d ->
   dr_state r = dr_state d /\ dr_cand r = DOOR_UNKNOWN /\ dr_cand_n r = 0) /\
  (argues (d, mm) <> DOOR_UNKNOWN -> argues (d, mm) <> dr_state d ->
   let n := if bool_decide (argues (d, mm) = dr_cand d) then u8 (dr_cand_n d + 1) else 1 in
   (th_dwell (dr_th d) <= n /\ dr_state r = argues (d, mm) /\
    dr_cand r = DOOR_UNKNOWN /\ dr_cand_n r = 0) \/
   (n < th_dwell (dr_th d) /\ dr_state r = dr_state d /\
    dr_cand r = argues (d, mm) /\ dr_cand_n r = n)).
Proof.
  unfold door_feed, argues. cbn [fst snd].
  destruct (Z.eqb_spec (door_angle_mddeg (dr_cfg d) mm) DOOR_ANGLE_INVALID); simpl.
  { refine (conj _ (conj _ (conj _ (conj _ _)))); done. }
  rewrite classify_ext. pose proof (classify_known d (door_angle_mddeg (dr_cfg d) mm)) as Hk.
  generalize dependent (classify d (door_angle_mddeg (dr_cfg d) mm)). intros w Hk.
  destruct (bool_decide (w = dr_state d)) eqn:Hs.
  { apply bool_decide_eq_true in Hs. simpl.
    refine (conj _ (conj _ (conj _ (conj _ _)))); done. }
  apply bool_decide_eq_false in Hs. simpl.
  destruct (bool_decide (w = dr_cand d)) eqn:Hc; simpl.
  - apply bool_decide_eq_true in Hc.
    destruct (Z.leb_spec (th_dwell (dr_th d)) (u8 (dr_cand_n d + 1))); simpl;
      refine (conj _ (conj _ (conj _ (conj _ _)))); try done; try (by intros [|]);
      intros _ _; [left|right]; auto.
  - destruct (Z.leb_spec (th_dwell (dr_th d)) 1); simpl;
      refine (conj _ (conj _ (conj _ (conj _ _)))); try done; try (by intros [|]);
      intros _ _; [left|right]; auto.
Qed.

Lemma door_inv_init cfg th d0 :
  door_init cfg th = Some d0 -> in_u 8 (th_dwell (default door_defaults th)) ->
  door_inv d0 [] d0 /\ th_dwell (dr_th d0) <= 255.
Proof.
  unfold door_init, in_u. destruct (negb (cfg_ok cfg)); [done|].
  generalize (default door_defaults th). intros t [= <-] Hw.
  destruct (Z.eqb_spec (th_dwell t) 0); simpl; (split; [|lia]); constructor; simpl; try done; lia.
Qed.

Lemma door_inv_feed d0 h d mm :
  th_dwell (dr_th d0) <= 255 -> door_inv d0 h d ->
  door_inv d0 ((d, mm) :: h) (door_feed d mm).1.
Proof.
  intros Hw [Hcfg Hth Hn Hrun].
  destruct (door_feed_cases d mm) as (Hc & Ht & _ & Hstay & Hmove). cbv zeta in Hmove.
  destruct (decide (argues (d, mm) = DOOR_UNKNOWN \/ argues (d, mm) = dr_state d)) as [Hs|Hs].
  - destruct (Hstay Hs) as (Hst & Hca & Hcn). constructor; [congruence|congruence| |].
    + rewrite Hcn. lia.
    + rewrite Hca. done.
  - destruct Hmove as [(_ & Hst & Hca & Hcn)|(Hlt & Hst & Hca & Hcn)]; [tauto|tauto| |].
    + constructor; [congruence|congruence|rewrite Hcn; lia|]. by rewrite Hca.
    + rewrite Hth in Hlt. constructor; [congruence|congruence| |].
      * rewrite Hcn. split; [|done]. case_match; [|lia]. apply (wrap_range 8). lia.
      * intros Hk. rewrite Hst, Hca, Hcn. rewrite arguing_cons.
        destruct (bool_decide (argues (d, mm) = dr_cand d)) eqn:He.
        -- apply bool_decide_eq_true in He. rewrite wrap_id by (unfold in_u; lia).
           rewrite He. rewrite Hca, He in Hk. specialize (Hrun Hk). lia.
        -- pose proof (arguing_nonneg (dr_state d) (argues (d, mm)) h). lia.
Qed.

Lemma door_inv_reach cfg th d0 h d :
  door_init cfg th = Some d0 -> in_u 8 (th_dwell (default door_defaults th)) ->
  dreach d0 h d -> door_inv d0 h d /\ th_dwell (dr_th d0) <= 255.
Proof.
  intros Hi Hw. destruct (door_inv_init _ _ _ Hi Hw) as [H0 Hle].
  induction 1 as [|h d mm _ [IH _]]; [done|]. split; [|done]. by apply door_inv_feed.
Qed.

(** The door state changes only on a full dwell.  In every run, a sample
    that changes the reported state is the last of at least dwell
    consecutive samples, each explained by the geometry and each arguing for
    the new state against the old one. *)
Theorem door_commit_dwell cfg th d0 h d mm :
  door_init cfg th = Some d0 -> in_u 8 (th_dwell (default door_defaults th)) ->
  dreach d0 h d ->
  let s' := (door_feed d mm).2 in
  s' <> dr_state d ->
  s' <> DOOR_UNKNOWN /\ th_dwell (dr_th d0) <= arguing (dr_state d) s' ((d, mm) :: h).
Proof.
  intros Hi Hw Hr s' Hne. destruct (door_inv_reach _ _ _ _ _ Hi Hw Hr) as [[Hcfg Hth Hn Hrun] Hle].
  destruct (door_feed_cases d mm) as (_ & _ & Hout & Hstay & Hmove). cbv zeta in Hmove.
  unfold s' in *. rewrite Hout in *.
  destruct (decide (argues (d, mm) = DOOR_UNKNOWN \/ argues (d, mm) = dr_state d)) as [Hs|Hs].
  { by destruct (Hstay Hs) as (? & _). }
  destruct Hmove as [(Hge & Hst & _)|(_ & Hst & _)]; [tauto|tauto| |done].
  rewrite Hst. split; [tauto|]. rewrite arguing_cons. rewrite Hth in Hge.
  destruct (bool_decide (argues (d, mm) = dr_cand d)) eqn:He.
  - apply bool_decide_eq_true in He. rewrite wrap_id in Hge by (unfold in_u; lia).
    rewrite He. assert (dr_cand d <> DOOR_UNKNOWN) as Hk by (rewrite <- He; tauto).
    specialize (Hrun Hk). lia.
  - pose proof (arguing_nonneg (dr_state d) (argues (d, mm)) h). lia.
Qed.

(** A committed state is sticky.  A closed door read at or below the
    leave angle, an open door read at or above it, and any door read at a
    distance the geometry cannot explain keep their state, and the sample
    discards whatever the door was leaning to. *)
Theorem door_state_sticky d mm :
  let angle := door_angle_mddeg (dr_cfg d) mm in
  angle = DOOR_ANGLE_INVALID \/
  dr_state d = DOOR_CLOSED /\ angle <= closed_leave_mddeg (dr_th d) \/
  dr_state d = DOOR_OPEN /\ open_leave_mddeg (dr_th d) <= angle ->
  (door_feed d mm).2 = dr_state d /\ dr_state (door_feed d mm).1 = dr_state d /\
  dr_cand_n (door_feed d mm).1 = 0.
Proof.
  intros angle H. destruct (door_feed_cases d mm) as (_ & _ & Hout & Hstay & _).
  destruct Hstay as (Hst & _ & Hn); [|rewrite Hout; auto].
  unfold argues. cbn [fst snd]. fold angle.
  destruct (Z.eqb_spec angle DOOR_ANGLE_INVALID) as [|Hv]; [by left|]. right.
  unfold classify. destruct H as [|[[-> Ha]|[-> Ha]]]; [done|..].
  - destruct (Z.leb_spec angle (closed_leave_mddeg (dr_th d))); [done|lia].
  - destruct (Z.leb_spec (open_leave_mddeg (dr_th d)) angle); [done|lia].
Qed.

(** A door with its anchors 700 and 800 mm from the hinge. *)
Definition demo_door : door_cfg := mk_door_cfg 700 800 10000.

(** A distance no swing can produce may still pass.  The ratio is
    converted to 32 bits before it is checked, and at 383153 mm, more than
    two hundred times the reach of this door, it wraps into the valid range
    and yields an angle; a metre to either side is rejected. *)
Theorem impossible_distance_accepted :
  ~ possible demo_door 383153 /\
  door_angle_mddeg demo_door 383153 <> DOOR_ANGLE_INVALID /\
  door_angle_mddeg demo_door 382153 = DOOR_ANGLE_INVALID /\
  door_angle_mddeg demo_door 384153 = DOOR_ANGLE_INVALID.
Proof. unfold possible. vm_compute. intuition discriminate. Qed.

(** ** Witnesses *)

Lemma door_angle_monotone_witness :
  0 <= door_angle_mddeg demo_door 300 + offset_mddeg demo_door <= 180000 /\
  door_angle_mddeg demo_door 300 <> DOOR_ANGLE_INVALID /\
  door_angle_mddeg demo_door 300 <= door_angle_mddeg demo_door 1000.
Proof.
  apply door_angle_monotone; [reflexivity|unfold possible; simpl; lia..|lia].
Defined.

Lemma resolution_root_exact_witness :
  newton (Z.to_nat 1500) (hinge_d2 700 800 40000) 1500 = Z.sqrt (hinge_d2 700 800 40000).
Proof. apply (resolution_root_exact demo_door 40000); reflexivity. Defined.

Definition fresh_door : door := mk_door demo_door door_defaults DOOR_UNKNOWN DOOR_UNKNOWN 0
                                  DOOR_ANGLE_INVALID.

(** Two samples of a shut door. *)
Definition two_shut : door := (door_feed (door_feed fresh_door 150).1 155).1.

Lemma door_commit_dwell_witness :
  (door_feed two_shut 150).2 = DOOR_CLOSED /\
  th_dwell (dr_th fresh_door) <=
  arguing (dr_state two_shut) (door_feed two_shut 150).2
    [(two_shut, 150); ((door_feed fresh_door 150).1, 155); (fresh_door, 150)].
Proof.
  split; [vm_compute; reflexivity|].
  refine (proj2 (door_commit_dwell demo_door None fresh_door
    [((door_feed fresh_door 150).1, 155); (fresh_door, 150)] two_shut 150 eq_refl _ _ _)).
  - vm_compute. split; [discriminate|reflexivity].
  - repeat constructor.
  - vm_compute. discriminate.
Defined.

Lemma door_state_sticky_witness : (door_feed two_shut 383000).2 = DOOR_UNKNOWN.
Proof. apply (door_state_sticky two_shut 383000). left. vm_compute. reflexivity. Defined.
