(* ===== verification/Slam.v ===== *)
(** * Impact and tamper classification

    Models [modules/ultrawidelock_anchor/src/ultrawidelock_slam.c]. *)

From Stdlib Require Import ZArith Lia Bool.
From stdpp Require Import base list numbers.
From S2P Require Import Prelude.

Local Open Scope Z_scope.

(** [enum ultrawidelock_slam_event]. *)
Inductive slam_event := SLAM_NONE | SLAM_IMPACT | SLAM_TAMPER.

#[export] Instance slam_event_eq_dec : EqDecision slam_event.
Proof. solve_decision. Defined.

(** [struct ultrawidelock_slam_cfg]. *)
Record slam_cfg := mk_slam_cfg {
  debounce_ms : Z;
  tamper_window_ms : Z;
  tamper_count : Z;
}.

(** [struct ultrawidelock_slam_state]. *)
Record slam_state := mk_slam_state {
  last_accept_ms : Z;
  window_start_ms : Z;
  window_count : Z;
  tamper_latched : bool;
  seeded : bool;
}.

#[export] Instance slam_state_eta : Eta slam_state := fun s =>
  mk_slam_state (last_accept_ms s) (window_start_ms s) (window_count s) (tamper_latched s)
    (seeded s).

Definition slam_init : slam_state := mk_slam_state 0 0 0 false false.

(** Is a strike at [now_ms] a re-trigger of the last accepted one? *)
Definition debounced (cfg : slam_cfg) (s : slam_state) (now_ms : Z) : bool :=
  seeded s && (0 <=? now_ms - last_accept_ms s) &&
  (now_ms - last_accept_ms s <? debounce_ms cfg).

(** The burst window after an accepted strike. *)
Definition burst (cfg : slam_cfg) (s : slam_state) (now_ms : Z) : slam_state :=
  let since_window := now_ms - window_start_ms s in
  if (window_count s =? 0) || (since_window <? 0) || (tamper_window_ms cfg <? since_window)
  then s <| window_start_ms := now_ms |> <| window_count := 1 |>
  else if window_count s <? 255 then s <| window_count := window_count s + 1 |>
  else s.

Definition slam_poll (cfg : option slam_cfg) (s : slam_state) (struck : bool) (now_ms : Z)
    : slam_state * slam_event :=
  match cfg with
  | None => (s, SLAM_NONE)
  | Some cfg =>
      if (tamper_count cfg =? 0) || negb struck then (s, SLAM_NONE)
      else if debounced cfg s now_ms then (s, SLAM_NONE)
      else
        let s := s <| last_accept_ms := now_ms |> <| seeded := true |> in
        let s := burst cfg s now_ms in
        if tamper_count cfg <=? window_count s then
          if negb (tamper_latched s) then (s <| tamper_latched := true |>, SLAM_TAMPER)
          else (s, SLAM_NONE)
        else (s, SLAM_IMPACT)
  end.

Definition slam_tampered (s : option slam_state) : bool :=
  match s with None => false | Some s => tamper_latched s end.

Definition slam_clear_tamper (s : slam_state) : slam_state :=
  s <| tamper_latched := false |> <| window_count := 0 |>.

(** ** Runs *)

Inductive slam_op := Poll (struck : bool) (now_ms : Z) | Clear.

Definition slam_step (cfg : slam_cfg) (s : slam_state) (o : slam_op) : slam_state * slam_event :=
  match o with
  | Poll struck now => slam_poll (Some cfg) s struck now
  | Clear => (slam_clear_tamper s, SLAM_NONE)
  end.

(** Newest entry first: the state met, the operation and the event. *)
Definition slam_entry : Type := slam_state * slam_op * slam_event.

Inductive slam_reach (cfg : slam_cfg) : list slam_entry -> slam_state -> Prop :=
  | slam_reach_init : slam_reach cfg [] slam_init
  | slam_reach_step h s o s' e :
      slam_reach cfg h s -> slam_step cfg s o = (s', e) -> slam_reach cfg ((s, o, e) :: h) s'.

(** Strikes accepted by the debounce since the last clear, newest first. *)
Definition accepts (cfg : slam_cfg) (x : slam_entry) : option Z :=
  match x with
  | (s, Poll true now, _) => if debounced cfg s now then None else Some now
  | _ => None
  end.

(** Tampers reported and clears done: a tamper is outstanding or not. *)
Fixpoint outstanding (h : list slam_entry) : bool :=
  match h with
  | [] => false
  | (_, Clear, _) :: _ => false
  | (_, _, e) :: h => bool_decide (e = SLAM_TAMPER) || outstanding h
  end.

(** The accepted strikes since the last clear. *)
Fixpoint strikes (cfg : slam_cfg) (h : list slam_entry) : list Z :=
  match h with
  | [] => []
  | (_, Clear, _) :: _ => []
  | x :: h => match accepts cfg x with Some t => t :: strikes cfg h | None => strikes cfg h end
  end.

Record slam_inv (cfg : slam_cfg) (h : list slam_entry) (s : slam_state) : Prop := {
  si_latch : tamper_latched s = outstanding h;
  si_count : 0 <= window_count s <= 255;
  si_window : exists w older, strikes cfg h = w ++ older /\
    window_count s <= Z.of_nat (length w) /\
    Forall (fun t => 0 <= t - window_start_ms s <= tamper_window_ms cfg) w;
}.

(** The window after an accepted strike covers one strike more. *)
Lemma burst_window cfg s now ts :
  0 <= tamper_window_ms cfg -> 0 <= window_count s <= 255 ->
  (exists w older, ts = w ++ older /\ window_count s <= Z.of_nat (length w) /\
     Forall (fun t => 0 <= t - window_start_ms s <= tamper_window_ms cfg) w) ->
  let s' := burst cfg s now in
  1 <= window_count s' <= 255 /\ tamper_latched s' = tamper_latched s /\
  exists w older, now :: ts = w ++ older /\ window_count s' <= Z.of_nat (length w) /\
    Forall (fun t => 0 <= t - window_start_ms s' <= tamper_window_ms cfg) w.
Proof.
  intros Hw Hc (w & older & -> & Hlen & Hall). unfold burst. cbv zeta.
  destruct (Z.eqb_spec (window_count s) 0); simpl.
  { split; [lia|]. split; [done|]. exists [now], (w ++ older). repeat split; [simpl; lia|].
    constructor; [lia|constructor]. }
  destruct (Z.ltb_spec (now - window_start_ms s) 0); simpl.
  { split; [lia|]. split; [done|]. exists [now], (w ++ older). repeat split; [simpl; lia|].
    constructor; [lia|constructor]. }
  destruct (Z.ltb_spec (tamper_window_ms cfg) (now - window_start_ms s)); simpl.
  { split; [lia|]. split; [done|]. exists [now], (w ++ older). repeat split; [simpl; lia|].
    constructor; [lia|constructor]. }
  destruct (Z.ltb_spec (window_count s) 255); simpl; (split; [lia|]); (split; [done|]);
    exists (now :: w), older; (split; [done|]); (split; [simpl length; lia|]);
    (constructor; [lia|done]).
Qed.

Lemma slam_inv_step cfg h s o s' e :
  0 <= tamper_window_ms cfg -> 0 < tamper_count cfg -> slam_inv cfg h s ->
  slam_step cfg s o = (s', e) -> slam_inv cfg ((s, o, e) :: h) s'.
Proof.
  intros Hw Ht [Hl Hc Hwin] Hs. destruct o as [struck now|]; simpl in Hs.
  2: { simplify_eq. constructor; simpl; [done|lia|]. exists [], []. repeat split; [simpl; lia|].
       constructor. }
  destruct (Z.eqb_spec (tamper_count cfg) 0); [lia|]. simpl in Hs.
  destruct struck; simpl in Hs; [|by simplify_eq; constructor].
  destruct (debounced cfg s now) eqn:Hd.
  { simplify_eq. constructor; [done|done|]. simpl. by rewrite Hd. }
  set (s1 := s <| last_accept_ms := now |> <| seeded := true |>) in *.
  destruct (burst_window cfg s1 now (strikes cfg h) Hw Hc Hwin) as (Hc' & Hl' & Hwin').
  generalize dependent (burst cfg s1 now). intros s2 Hs Hc' Hl' Hwin'.
  assert (strikes cfg ((s, Poll true now, e) :: h) = now :: strikes cfg h) as Hst
    by (simpl; by rewrite Hd).
  change (tamper_latched s1) with (tamper_latched s) in Hl'.
  destruct (tamper_count cfg <=? window_count s2); [destruct (tamper_latched s2) eqn:Hl2|];
    simpl in Hs; simplify_eq; constructor; rewrite ?Hst; simpl; try done; try lia; congruence.
Qed.

Lemma slam_inv_reach cfg h s :
  0 <= tamper_window_ms cfg -> 0 < tamper_count cfg -> slam_reach cfg h s -> slam_inv cfg h s.
Proof.
  intros Hw Ht. induction 1 as [|h s o s' e _ IH Hs]; [|by eapply slam_inv_step].
  constructor; simpl; [done|lia|]. exists [], []. repeat split; [simpl; lia|constructor].
Qed.

(** Tamper means a burst, and is reported once.  In every run, a poll
    that reports TAMPER finds no unclear tamper reported before it, and ends
    a series of at least tamper_count debounced strikes since the last clear
    that all fall into one window of tamper_window_ms; it leaves the tamper
    flag set. *)
Theorem tamper_sound cfg h s struck now s' :
  0 <= tamper_window_ms cfg -> 0 < tamper_count cfg -> slam_reach cfg h s ->
  slam_step cfg s (Poll struck now) = (s', SLAM_TAMPER) ->
  outstanding h = false /\ slam_tampered (Some s') = true /\
  exists w older start, strikes cfg ((s, Poll struck now, SLAM_TAMPER) :: h) = w ++ older /\
    tamper_count cfg <= Z.of_nat (length w) /\
    Forall (fun t => start <= t <= start + tamper_window_ms cfg) w.
Proof.
  intros Hw Ht Hr Hs. pose proof (slam_inv_reach _ _ _ Hw Ht Hr) as Hi.
  pose proof (slam_inv_step _ _ _ _ _ _ Hw Ht Hi Hs) as [Hl' _ (w & older & Hst & Hlen & Hall)].
  destruct Hi as [Hl _ _]. simpl in Hs.
  destruct (Z.eqb_spec (tamper_count cfg) 0); [lia|]. simpl in Hs.
  destruct struck; [|done]. simpl in Hs. destruct (debounced cfg s now); [done|].
  assert (tamper_latched (burst cfg (s <| last_accept_ms := now |> <| seeded := true |>) now)
          = tamper_latched s) as Hb by (unfold burst; repeat (case_match; simpl; try done)).
  destruct (Z.leb_spec (tamper_count cfg)
    (window_count (burst cfg (s <| last_accept_ms := now |> <| seeded := true |>) now)));
    [|done].
  rewrite Hb in Hs. destruct (tamper_latched s) eqn:Hls; [done|].
  simpl in Hs. simplify_eq. split; [done|]. split; [done|].
  exists w, older, (window_start_ms (burst cfg (s <| last_accept_ms := now |> <| seeded := true |>) now)).
  split; [done|]. split; [simpl in Hlen; lia|].
  eapply List.Forall_impl; [|exact Hall]. simpl. intros; lia.
Qed.

Definition demo_slam : slam_cfg := mk_slam_cfg 400 4000 3.

(** Three strikes 600 ms apart. *)
Definition slam_run : list slam_entry * slam_state :=
  fold_left (fun s o => ((s.2, o, (slam_step demo_slam s.2 o).2) :: s.1,
                         (slam_step demo_slam s.2 o).1))
    [Poll true 10000; Poll true 10100; Poll true 10600] ([], slam_init).

Lemma slam_run_reach : slam_reach demo_slam slam_run.1 slam_run.2.
Proof.
  repeat (eapply slam_reach_step; [|reflexivity]). constructor.
Qed.

Lemma tamper_sound_witness :
  outstanding slam_run.1 = false /\
  slam_tampered (Some (slam_step demo_slam slam_run.2 (Poll true 11200)).1) = true /\
  exists w older start,
    strikes demo_slam ((slam_run.2, Poll true 11200, SLAM_TAMPER) :: slam_run.1) = w ++ older /\
    tamper_count demo_slam <= Z.of_nat (length w) /\
    Forall (fun t => start <= t <= start + tamper_window_ms demo_slam) w.
Proof.
  apply (tamper_sound demo_slam slam_run.1 slam_run.2 true 11200);
    [vm_compute; discriminate|reflexivity|exact slam_run_reach|vm_compute; reflexivity].
Defined.
