(* ===== verification/RssiGate.v ===== *)
(** * BLE-RSSI power gate

    Models [modules/ultrawidelock_cred/src/ultrawidelock_rssi_gate.c]: the Q4
    moving average, the rise-rate fast open, the hold cap and the sustained
    close.  The clock is a wrapping 32-bit millisecond counter. *)

From Stdlib Require Import ZArith Lia Bool.
From stdpp Require Import base list numbers.
From S2P Require Import Prelude.

Local Open Scope Z_scope.

Definition Q4 : Z := 16.
Definition RSSI_UNAVAILABLE : Z := 127.

(** [struct ultrawidelock_rssi_gate_cfg]. *)
Record gate_cfg := mk_gate_cfg {
  g_open_dbm : Z;
  g_close_dbm : Z;
  g_close_hold_ms : Z;
  g_ewma_shift : Z;
  g_slope_open_db : Z;
  g_slope_window_ms : Z;
  g_max_hold_ms : Z;
}.

(** [struct ultrawidelock_rssi_gate]. *)
Record rssi_gate := mk_rssi_gate {
  primed : bool;
  opened_ : bool;
  holding : bool;
  capped : bool;
  hold_since_ms : Z;
  ewma_q4 : Z;
  below : bool;
  below_since_ms : Z;
  old_valid : bool;
  mid_valid : bool;
  old_q4 : Z;
  mid_q4 : Z;
  old_ms : Z;
  mid_ms : Z;
}.

#[export] Instance rssi_gate_eta : Eta rssi_gate := fun g =>
  mk_rssi_gate (primed g) (opened_ g) (holding g) (capped g) (hold_since_ms g) (ewma_q4 g)
    (below g) (below_since_ms g) (old_valid g) (mid_valid g) (old_q4 g) (mid_q4 g)
    (old_ms g) (mid_ms g).

Definition rssi_gate_reset : rssi_gate :=
  mk_rssi_gate false false false false 0 0 false 0 false false 0 0 0 0.

Definition rssi_gate_is_open (g : rssi_gate) : bool := opened_ g.

Definition rssi_gate_hold_begin (g : rssi_gate) (now_ms : Z) : rssi_gate :=
  g <| holding := true |> <| capped := false |> <| hold_since_ms := now_ms |>.

Definition rssi_gate_was_capped (g : rssi_gate) : bool := capped g.

Definition rssi_gate_level_dbm (g : rssi_gate) : Z := i16 (Z.quot (ewma_q4 g) Q4).

(** Milliseconds since [t], modulo the width of the clock. *)
Definition elapsed (now_ms t : Z) : Z := u32 (now_ms - t).

Definition slope_track (g : rssi_gate) (cfg : gate_cfg) (now_ms : Z) : rssi_gate :=
  let half := Z.quot (g_slope_window_ms cfg) 2 in
  if negb (mid_valid g) then
    g <| mid_q4 := ewma_q4 g |> <| mid_ms := now_ms |> <| mid_valid := true |>
  else if half <=? elapsed now_ms (mid_ms g) then
    g <| old_q4 := mid_q4 g |> <| old_ms := mid_ms g |> <| old_valid := true |>
      <| mid_q4 := ewma_q4 g |> <| mid_ms := now_ms |>
  else g.

(** The average after one available sample. *)
Definition ewma_next (g : rssi_gate) (cfg : gate_cfg) (rssi_dbm : Z) : Z :=
  let sample_q4 := rssi_dbm * Q4 in
  if negb (primed g) then sample_q4
  else ewma_q4 g + Z.quot (sample_q4 - ewma_q4 g) (Z.shiftl 1 (g_ewma_shift cfg)).

(** The decision of a closed gate: does it open, and by the cap? *)
Definition open_decision (g : rssi_gate) (cfg : gate_cfg) (now_ms : Z) : bool * bool :=
  let level := g_open_dbm cfg * Q4 <=? ewma_q4 g in
  let slope :=
    (0 <? g_slope_open_db cfg) && old_valid g &&
    (elapsed now_ms (old_ms g) <=? 2 * g_slope_window_ms cfg) &&
    (g_slope_open_db cfg * Q4 <=? ewma_q4 g - old_q4 g) &&
    (g_close_dbm cfg * Q4 <? ewma_q4 g) in
  let cap :=
    holding g && (0 <? g_max_hold_ms cfg) &&
    (g_max_hold_ms cfg <=? elapsed now_ms (hold_since_ms g)) in
  (level || slope || cap, negb (level || slope) && cap).

Definition rssi_gate_feed (g : rssi_gate) (cfg : gate_cfg) (rssi_dbm now_ms : Z)
    : rssi_gate * bool :=
  if rssi_dbm =? RSSI_UNAVAILABLE then (g, opened_ g)
  else
    let g := g <| ewma_q4 := ewma_next g cfg rssi_dbm |> <| primed := true |> in
    let g := slope_track g cfg now_ms in
    if negb (opened_ g) then
      let '(open, cap) := open_decision g cfg now_ms in
      let g := if cap then g <| capped := true |> else g in
      let g := if open
               then g <| opened_ := true |> <| below := false |> <| holding := false |>
               else g in
      (g, opened_ g)
    else
      let g :=
        if ewma_q4 g <=? g_close_dbm cfg * Q4 then
          if negb (below g) then g <| below := true |> <| below_since_ms := now_ms |>
          else if g_close_hold_ms cfg <=? elapsed now_ms (below_since_ms g)
          then g <| opened_ := false |> <| below := false |>
          else g
        else g <| below := false |> in
      (g, opened_ g).

(** ** Runs *)

Inductive gate_op := GFeed (rssi now : Z) | GHold (now : Z).

Definition gate_step (cfg : gate_cfg) (g : rssi_gate) (o : gate_op) : rssi_gate :=
  match o with
  | GFeed r t => (rssi_gate_feed g cfg r t).1
  | GHold t => rssi_gate_hold_begin g t
  end.

Inductive gate_reach (cfg : gate_cfg) : list (rssi_gate * gate_op) -> rssi_gate -> Prop :=
  | gate_reach_init : gate_reach cfg [] rssi_gate_reset
  | gate_reach_step h g o :
      gate_reach cfg h g -> gate_reach cfg ((g, o) :: h) (gate_step cfg g o).

(** An entry that does not speak against a departure: no sample, or an
    average at or below [close_dbm]. *)
Definition quiet_or_low (cfg : gate_cfg) (x : rssi_gate * gate_op) : Prop :=
  match x.2 with
  | GHold _ => True
  | GFeed r _ => r = RSSI_UNAVAILABLE \/ ewma_next x.1 cfg r <= g_close_dbm cfg * Q4
  end.

(** The drop started with a low sample at [t] and nothing has contradicted
    it since. *)
Definition low_since (cfg : gate_cfg) (t : Z) (h : list (rssi_gate * gate_op)) : Prop :=
  exists recent g r older, h = recent ++ (g, GFeed r t) :: older /\
    r <> RSSI_UNAVAILABLE /\ Forall (quiet_or_low cfg) (recent ++ [(g, GFeed r t)]).

Lemma slope_track_frame g cfg now :
  ewma_q4 (slope_track g cfg now) = ewma_q4 g /\ opened_ (slope_track g cfg now) = opened_ g /\
  below (slope_track g cfg now) = below g /\
  below_since_ms (slope_track g cfg now) = below_since_ms g.
Proof. unfold slope_track. repeat case_match; done. Qed.

(** One available sample on an open gate, and on a closed one. *)
Lemma feed_cases g cfg r now :
  r <> RSSI_UNAVAILABLE ->
  let g' := (rssi_gate_feed g cfg r now).1 in
  (rssi_gate_feed g cfg r now).2 = opened_ g' /\ ewma_q4 g' = ewma_next g cfg r /\
  if negb (opened_ g) then (below g' = true -> below g = true) /\
                           (below g' = true -> opened_ g' = false /\ below_since_ms g' = below_since_ms g)
  else if ewma_next g cfg r <=? g_close_dbm cfg * Q4 then
    if negb (below g) then opened_ g' = true /\ below g' = true /\ below_since_ms g' = now
    else if g_close_hold_ms cfg <=? elapsed now (below_since_ms g)
    then opened_ g' = false /\ below g' = false
    else opened_ g' = true /\ below g' = true /\ below_since_ms g' = below_since_ms g
  else opened_ g' = true /\ below g' = false.
Proof.
  intros Hr. unfold rssi_gate_feed. destruct (Z.eqb_spec r RSSI_UNAVAILABLE); [done|].
  generalize (ewma_next g cfg r). intros e.
  destruct (slope_track_frame (g <| ewma_q4 := e |> <| primed := true |>) cfg now)
    as (He & Ho & Hb & Hs). simpl in He, Ho, Hb, Hs.
  generalize dependent (slope_track (g <| ewma_q4 := e |> <| primed := true |>) cfg now).
  intros q He Ho Hb Hs. rewrite Ho. destruct (opened_ g); cbn [negb].
  - rewrite He, Hb, Hs. destruct (e <=? g_close_dbm cfg * Q4), (below g),
      (g_close_hold_ms cfg <=? elapsed now (below_since_ms g)); simpl;
      rewrite ?Ho, ?Hb, ?Hs, ?He; repeat split; done.
  - destruct (open_decision q cfg now) as [o c]. destruct o, c; simpl;
      rewrite ?Ho, ?Hb, ?Hs, ?He; refine (conj _ (conj _ (conj _ _))); done.
Qed.

Lemma gate_below_reach cfg h g :
  gate_reach cfg h g -> below g = true -> opened_ g = true ->
  low_since cfg (below_since_ms g) h.
Proof.
  induction 1 as [|h g o _ IH]; [done|]. destruct o as [r t|t]; simpl.
  - intros Hb Ho. destruct (decide (r = RSSI_UNAVAILABLE)) as [->|Hr].
    { unfold rssi_gate_feed in *. rewrite Z.eqb_refl in *. simpl in *.
      destruct (IH Hb Ho) as (rc & g0 & r0 & od & -> & ? & Hall).
      exists ((g, GFeed RSSI_UNAVAILABLE t) :: rc), g0, r0, od. repeat split; [done|].
      constructor; [by left|done]. }
    destruct (feed_cases g cfg r t Hr) as (_ & _ & Hc).
    generalize dependent (rssi_gate_feed g cfg r t). intros [g' b]. simpl. intros Hb Ho Hc.
    destruct (opened_ g); simpl in Hc.
    2: { destruct Hc as [_ Hc]. destruct (Hc Hb). congruence. }
    destruct (Z.leb_spec (ewma_next g cfg r) (g_close_dbm cfg * Q4)); [|by destruct Hc; congruence].
    destruct (below g); simpl in Hc.
    + destruct (g_close_hold_ms cfg <=? _); [by destruct Hc; congruence|].
      destruct Hc as (_ & _ & ->). destruct IH as (rc & g0 & r0 & od & -> & ? & Hall); [done..|].
      exists ((g, GFeed r t) :: rc), g0, r0, od. repeat split; [done|].
      constructor; [by right|done].
    + destruct Hc as (_ & _ & ->). exists [], g, r, h. repeat split; [done|].
      constructor; [by right|constructor].
  - intros Hb Ho. destruct (IH Hb Ho) as (rc & g0 & r0 & od & -> & ? & Hall).
    exists ((g, GHold t) :: rc), g0, r0, od. repeat split; [done|]. by constructor.
Qed.

(** An open gate closes only on a sustained drop.  In every run, a
    sample that closes the gate looks back on a low sample at least
    close_hold_ms earlier by the wrapping clock, since which every available
    sample, this one included, left the average at or below close_dbm. *)
Theorem gate_close_sustained cfg h g r now :
  gate_reach cfg h g -> opened_ g = true ->
  rssi_gate_is_open (rssi_gate_feed g cfg r now).1 = false ->
  exists t, low_since cfg t h /\ g_close_hold_ms cfg <= elapsed now t /\
            ewma_next g cfg r <= g_close_dbm cfg * Q4.
Proof.
  intros Hr Ho Hc. unfold rssi_gate_is_open in Hc.
  destruct (decide (r = RSSI_UNAVAILABLE)) as [->|Hne].
  { unfold rssi_gate_feed in Hc. rewrite Z.eqb_refl in Hc. simpl in Hc. congruence. }
  destruct (feed_cases g cfg r now Hne) as (_ & _ & H).
  generalize dependent (rssi_gate_feed g cfg r now). intros [g' b]. simpl. intros Hc H.
  rewrite Ho in H. simpl in H.
  destruct (Z.leb_spec (ewma_next g cfg r) (g_close_dbm cfg * Q4)); [|by destruct H; congruence].
  destruct (below g) eqn:Hb; simpl in H; [|by destruct H as [? _]; congruence].
  destruct (Z.leb_spec (g_close_hold_ms cfg) (elapsed now (below_since_ms g)));
    [|by destruct H as [? _]; congruence].
  exists (below_since_ms g). split; [|done]. by apply gate_below_reach.
Qed.

Definition demo_gate : gate_cfg := mk_gate_cfg (-55) (-65) 3000 2 8 1500 0.

(** Open at the door, then a long walk away across the wrap of the clock. *)
Definition gate_ops : list gate_op :=
  [GFeed (-50) 4294960000; GFeed (-80) 4294962000; GFeed (-80) 4294964000;
   GFeed (-80) 4294966000].

Definition gate_run : list (rssi_gate * gate_op) * rssi_gate :=
  fold_left (fun s o => ((s.2, o) :: s.1, gate_step demo_gate s.2 o)) gate_ops
    ([], rssi_gate_reset).

Lemma gate_run_reach : gate_reach demo_gate gate_run.1 gate_run.2.
Proof. repeat apply gate_reach_step. constructor. Qed.

Lemma gate_close_sustained_witness :
  exists t, low_since demo_gate t gate_run.1 /\ g_close_hold_ms demo_gate <= elapsed 2000 t /\
            ewma_next gate_run.2 demo_gate (-80) <= g_close_dbm demo_gate * Q4.
Proof.
  apply (gate_close_sustained demo_gate gate_run.1 gate_run.2 (-80) 2000);
    [exact gate_run_reach|vm_compute; reflexivity|vm_compute; reflexivity].
Defined.
