(* ===== verification/WitnessMsg.v ===== *)
(** * The peer-link message codecs and the replay window

    Models [modules/ultrawidelock_anchor/src/ultrawidelock_witness_msg.c]: the
    variable-length witness report (version 2), the second anchor's report
    (version 3), the session handoff (version 4), and the per-sender replay
    window.  An encoder takes the capacity of the caller's buffer and gives
    the bytes written, [None] where the C function returns 0; a decoder takes
    the bytes received and gives the filled structure, [None] where the C
    function returns false and writes nothing. *)

From Stdlib Require Import ZArith Lia Bool.
From stdpp Require Import base list numbers.
From S2P Require Import Prelude.

Local Open Scope Z_scope.

(** ** Fields *)

Abbreviation put_u8 := (put_be 1).
Definition put_u16 (v : Z) : list Z := put_be 2 v.
Definition put_u32 (v : Z) : list Z := put_be 4 v.
Definition put_u64 (v : Z) : list Z := put_u32 (u32 (Z.shiftr v 32)) ++ put_u32 (u32 v).

Definition get_u8 (p : list Z) : Z * list Z := rd 1 p.
Definition get_u16 (p : list Z) : Z * list Z := rd 2 p.
Definition get_u32 (p : list Z) : Z * list Z := rd 4 p.
Definition get_u64 (p : list Z) : Z * list Z :=
  let '(hi, p) := get_u32 p in
  let '(lo, p) := get_u32 p in
  (Z.lor (Z.shiftl hi 32) lo, p).

(** ** Messages *)

Definition WITNESS_MSG_VER : Z := 2.
Definition WITNESS_MSG_MAX_TUPLES : Z := 8.
Definition WITNESS_MSG_HDR_LEN : Z := 21.
Definition WITNESS_MSG_TUPLE_LEN : Z := 5.
Definition WITNESS_MSG_MAX_LEN : Z :=
  WITNESS_MSG_HDR_LEN + WITNESS_MSG_MAX_TUPLES * WITNESS_MSG_TUPLE_LEN.

Definition ROLE_INSIDE : Z := 1.
Definition ROLE_OUTSIDE : Z := 2.
Definition ROLE_THRESHOLD : Z := 3.

Definition role_known (role : Z) : bool :=
  (role =? ROLE_INSIDE) || (role =? ROLE_OUTSIDE) || (role =? ROLE_THRESHOLD).

Record witness_tuple := mk_tuple { wt_hash24 : Z; wt_mean_dbm : Z; wt_n_pkts : Z }.

Definition tuple0 : witness_tuple := mk_tuple 0 0 0.

Record witness_msg := mk_witness_msg {
  wm_ver : Z; wm_role : Z; wm_boot_id : Z; wm_ctr : Z; wm_echo_nonce : Z;
  wm_window_ms : Z; wm_n_tuples : Z;
  wm_tuples : list witness_tuple (* the array of eight *)
}.

Definition ANCHOR_MSG_VER : Z := 3.
Definition ANCHOR_MSG_LEN : Z := 24.

Record anchor_msg := mk_anchor_msg {
  am_ver : Z; am_role : Z; am_boot_id : Z; am_ctr : Z; am_echo_nonce : Z;
  am_ranging_block : Z; am_peer_mm : Z
}.

Definition JOIN_MSG_VER : Z := 4.
Definition JOIN_URSK_LEN : nat := 32.
Definition JOIN_RCFG_LEN : nat := 17.
Definition JOIN_MSG_LEN : Z := 1 + 4 + 4 + Z.of_nat JOIN_URSK_LEN + Z.of_nat JOIN_RCFG_LEN + 1 + 1.

Record join_msg := mk_join_msg {
  jm_ver : Z; jm_boot_id : Z; jm_ctr : Z; jm_ursk : list Z; jm_rcfg : list Z;
  jm_channel : Z; jm_sync_code_index : Z
}.

(** ** Version 2: the witness report *)

Definition put_tuple (t : witness_tuple) : list Z :=
  let h := Z.land (wt_hash24 t) 0x00FFFFFF in
  [u8 (Z.shiftr h 16); u8 (Z.shiftr h 8); u8 h; u8 (wt_mean_dbm t); u8 (wt_n_pkts t)].

Definition witness_msg_encode (msg : witness_msg) (cap : Z) : option (list Z) :=
  if WITNESS_MSG_MAX_TUPLES <? wm_n_tuples msg then None
  else if negb (role_known (wm_role msg)) then None
  else
    let need := WITNESS_MSG_HDR_LEN + wm_n_tuples msg * WITNESS_MSG_TUPLE_LEN in
    if cap <? need then None
    else Some (put_u8 (wm_ver msg) ++ put_u8 (wm_role msg) ++ put_u32 (wm_boot_id msg) ++
               put_u32 (wm_ctr msg) ++ put_u64 (wm_echo_nonce msg) ++
               put_u16 (wm_window_ms msg) ++ put_u8 (wm_n_tuples msg) ++
               flat_map put_tuple (take (Z.to_nat (wm_n_tuples msg)) (wm_tuples msg))).

Definition get_tuple (p : list Z) : witness_tuple :=
  mk_tuple
    (Z.lor (Z.lor (Z.shiftl (nth 0 p 0) 16) (Z.shiftl (nth 1 p 0) 8)) (nth 2 p 0))
    (i8 (nth 3 p 0)) (nth 4 p 0).

Fixpoint get_tuples (n : nat) (p : list Z) : list witness_tuple :=
  match n with
  | O => []
  | S m => get_tuple p :: get_tuples m (drop 5 p)
  end.

Definition witness_msg_decode (buf : list Z) : option witness_msg :=
  let len := Z.of_nat (length buf) in
  if len <? WITNESS_MSG_HDR_LEN then None
  else if negb (nth 0 buf 0 =? WITNESS_MSG_VER) then None
  else if negb (role_known (nth 1 buf 0)) then None
  else
    let n := nth 20 buf 0 in
    if WITNESS_MSG_MAX_TUPLES <? n then None
    else if negb (len =? WITNESS_MSG_HDR_LEN + n * WITNESS_MSG_TUPLE_LEN) then None
    else
      let '(ver, p) := get_u8 buf in
      let '(role, p) := get_u8 p in
      let '(boot_id, p) := get_u32 p in
      let '(ctr, p) := get_u32 p in
      let '(echo_nonce, p) := get_u64 p in
      let '(window_ms, p) := get_u16 p in
      let '(n_tuples, p) := get_u8 p in
      Some (mk_witness_msg ver role boot_id ctr echo_nonce window_ms n_tuples
              (get_tuples (Z.to_nat n) p ++
               replicate (Z.to_nat (WITNESS_MSG_MAX_TUPLES - n)) tuple0)).

Definition tuple_matches (hash24 : Z) (t : witness_tuple) : bool :=
  (0 <? wt_n_pkts t) && (wt_hash24 t =? Z.land hash24 0x00FFFFFF).

Definition witness_msg_find (msg : witness_msg) (hash24 : Z) : option witness_tuple :=
  List.find (tuple_matches hash24)
    (take (Z.to_nat (Z.min (wm_n_tuples msg) WITNESS_MSG_MAX_TUPLES)) (wm_tuples msg)).

Definition witness_msg_at (msg : witness_msg) (idx : Z) : option witness_tuple :=
  if (wm_n_tuples msg <=? idx) || (WITNESS_MSG_MAX_TUPLES <=? idx) then None
  else
    let t := nth (Z.to_nat idx) (wm_tuples msg) tuple0 in
    if wt_n_pkts t =? 0 then None else Some t.

(** ** Version 3: the second anchor's report *)

Definition msg_is_anchor (buf : list Z) : bool :=
  match buf with [] => false | b :: _ => b =? ANCHOR_MSG_VER end.

Definition anchor_msg_encode (msg : anchor_msg) (cap : Z) : option (list Z) :=
  if negb (role_known (am_role msg)) then None
  else if cap <? ANCHOR_MSG_LEN then None
  else Some (put_u8 ANCHOR_MSG_VER ++ put_u8 (am_role msg) ++ put_u32 (am_boot_id msg) ++
             put_u32 (am_ctr msg) ++ put_u64 (am_echo_nonce msg) ++
             put_u16 (am_ranging_block msg) ++ put_u32 (u32 (am_peer_mm msg))).

Definition anchor_msg_decode (buf : list Z) : option anchor_msg :=
  if negb (nth 0 buf 0 =? ANCHOR_MSG_VER) then None
  else if negb (Z.of_nat (length buf) =? ANCHOR_MSG_LEN) then None
  else if negb (role_known (nth 1 buf 0)) then None
  else
    let '(ver, p) := get_u8 buf in
    let '(role, p) := get_u8 p in
    let '(boot_id, p) := get_u32 p in
    let '(ctr, p) := get_u32 p in
    let '(echo_nonce, p) := get_u64 p in
    let '(ranging_block, p) := get_u16 p in
    let '(peer_mm, _) := get_u32 p in
    Some (mk_anchor_msg ver role boot_id ctr echo_nonce ranging_block (i32 peer_mm)).

(** ** Version 4: the session handoff *)

Definition msg_is_join (buf : list Z) : bool :=
  match buf with [] => false | b :: _ => b =? JOIN_MSG_VER end.

Definition join_msg_encode (msg : join_msg) (cap : Z) : option (list Z) :=
  if cap <? JOIN_MSG_LEN then None
  else Some (put_u8 JOIN_MSG_VER ++ put_u32 (jm_boot_id msg) ++ put_u32 (jm_ctr msg) ++
             jm_ursk msg ++ jm_rcfg msg ++ put_u8 (jm_channel msg) ++
             put_u8 (jm_sync_code_index msg)).

Definition join_msg_decode (buf : list Z) : option join_msg :=
  if negb (nth 0 buf 0 =? JOIN_MSG_VER) then None
  else if negb (Z.of_nat (length buf) =? JOIN_MSG_LEN) then None
  else
    let '(ver, p) := get_u8 buf in
    let '(boot_id, p) := get_u32 p in
    let '(ctr, p) := get_u32 p in
    let ursk := take JOIN_URSK_LEN p in
    let p := drop JOIN_URSK_LEN p in
    let rcfg := take JOIN_RCFG_LEN p in
    let p := drop JOIN_RCFG_LEN p in
    let '(channel, p) := get_u8 p in
    let '(sync_code_index, _) := get_u8 p in
    Some (mk_join_msg ver boot_id ctr ursk rcfg channel sync_code_index).

(** ** The replay window *)

Record witness_seen := mk_seen { se_boot_id : Z; se_ctr : Z; se_have : bool }.

Definition seen0 : witness_seen := mk_seen 0 0 false.

Definition seen_accept_ctr (seen : witness_seen) (boot_id ctr : Z) : bool * witness_seen :=
  if se_have seen && (se_boot_id seen =? boot_id) && (ctr <=? se_ctr seen) then (false, seen)
  else (true, mk_seen boot_id ctr true).

Definition witness_seen_accept (seen : witness_seen) (msg : witness_msg) : bool * witness_seen :=
  seen_accept_ctr seen (wm_boot_id msg) (wm_ctr msg).

(** ** The 64-bit fields are eight big-endian bytes *)

Lemma put_be_app n m v :
  put_be (n + m) v = put_be n (Z.shiftr v (8 * Z.of_nat m)) ++ put_be m v.
Proof.
  induction n as [|n IH]; cbn [put_be Nat.add app]; [done|]. rewrite IH. f_equal.
  rewrite Z.shiftr_shiftr by lia. do 2 f_equal. lia.
Qed.

Lemma put_be_mod n v : put_be n (v mod 2 ^ (8 * Z.of_nat n)) = put_be n v.
Proof.
  assert (forall n k, (n <= k)%nat -> put_be n (v mod 2 ^ (8 * Z.of_nat k)) = put_be n v) as H;
    [|by apply H].
  clear n. induction n as [|n IH]; intros k Hk; cbn [put_be]; [done|].
  rewrite IH by lia. f_equal. unfold wrap. rewrite !Z.shiftr_div_pow2 by lia.
  replace (8 * Z.of_nat k) with (8 * Z.of_nat n + (8 + 8 * Z.of_nat (k - n - 1))) by lia.
  rewrite (Z.pow_add_r 2 (8 * Z.of_nat n)) by lia.
  assert (0 < 2 ^ (8 * Z.of_nat n)) by (apply Z.pow_pos_nonneg; lia).
  assert (0 < 2 ^ (8 * Z.of_nat (k - n - 1))) by (apply Z.pow_pos_nonneg; lia).
  rewrite Z.pow_add_r by lia. rewrite Z.rem_mul_r by lia.
  rewrite (Z.mul_comm (2 ^ (8 * Z.of_nat n))), Z.div_add by lia.
  rewrite (Z.div_small (v mod _)) by (apply Z.mod_pos_bound; lia).
  rewrite Z.add_0_l, Z.rem_mul_r by lia.
  rewrite (Z.mul_comm (2 ^ 8)), Z.mod_add by lia. apply Z.mod_mod. lia.
Qed.

Lemma put_u64_be v : put_u64 v = put_be 8 v.
Proof.
  unfold put_u64, put_u32.
  assert (forall x, put_be 4 (u32 x) = put_be 4 x) as Hm by exact (put_be_mod 4).
  rewrite !Hm. symmetry. apply (put_be_app 4 4).
Qed.

Lemma get_u64_be p : Forall byte_ok p -> (8 <= length p)%nat -> get_u64 p = rd 8 p.
Proof.
  intros Hp Hl.
  rewrite <- (put_rd 8 p Hp Hl). pose proof (rd_range 8 p Hp) as Hr.
  destruct (rd 8 p) as [v q]. cbn [fst snd] in *.
  rewrite rd_put by done. rewrite <- put_u64_be. unfold get_u64, get_u32, put_u64, put_u32.
  rewrite <- app_assoc. rewrite rd_put by auto with uwl. rewrite rd_put by auto with uwl.
  f_equal. rewrite lor_shiftl_add by (try apply (wrap_range 32); lia).
  unfold in_u in Hr. change (8 * Z.of_nat 8) with 64 in Hr.
  assert (u32 (Z.shiftr v 32) = Z.shiftr v 32) as ->.
  { rewrite Z.shiftr_div_pow2 by lia. apply wrap_id. unfold in_u.
    split; [apply Z.div_pos|apply Z.div_lt_upper_bound]; lia. }
  rewrite Z.shiftr_div_pow2 by lia. unfold wrap.
  pose proof (Z.div_mod v (2 ^ 32)). lia.
Qed.

Lemma get_put_u64 v l : in_u 64 v -> get_u64 (put_u64 v ++ l) = (v, l).
Proof.
  intros Hv. rewrite put_u64_be.
  assert (get_u64 (put_be 8 v ++ l) = ((get_u64 (put_be 8 v)).1, l)) as -> by reflexivity.
  rewrite get_u64_be by (auto with uwl; rewrite length_put_be; lia).
  pose proof (rd_put 8 v [] Hv) as Hr. rewrite app_nil_r in Hr. by rewrite Hr.
Qed.

(** ** Tuples *)

Definition tuple_ok (t : witness_tuple) : Prop :=
  in_u 24 (wt_hash24 t) /\ in_i 8 (wt_mean_dbm t) /\ in_u 8 (wt_n_pkts t).

Lemma hash24_bytes a b c : byte_ok a -> byte_ok b -> byte_ok c ->
  Z.lor (Z.lor (Z.shiftl a 16) (Z.shiftl b 8)) c = a * 65536 + b * 256 + c.
Proof.
  unfold byte_ok. intros Ha Hb Hc.
  rewrite (lor_shiftl_add a _ 16) by (rewrite ?Z.shiftl_mul_pow2; lia).
  rewrite Z.shiftl_mul_pow2 by lia.
  replace (a * 2 ^ 16 + b * 2 ^ 8) with (Z.shiftl (a * 256 + b) 8)
    by (rewrite Z.shiftl_mul_pow2; lia).
  rewrite lor_shiftl_add; lia.
Qed.

Lemma land_hash24 h : Z.land h 0x00FFFFFF = h mod 2 ^ 24.
Proof. change 0x00FFFFFF with (Z.ones 24). apply Z.land_ones. lia. Qed.

Lemma get_put_tuple t l : tuple_ok t -> get_tuple (put_tuple t ++ l) = t.
Proof.
  intros ([H0 H1] & Hm & Hn). unfold get_tuple, put_tuple. cbn [app nth].
  rewrite hash24_bytes by (apply (wrap_range 8); lia).
  rewrite land_hash24, (Z.mod_small (wt_hash24 t)) by lia.
  rewrite (swrap_wrap 8) by (done || lia). rewrite (wrap_id 8 (wt_n_pkts t)) by done.
  destruct t as [h md np]. cbn [wt_hash24 wt_mean_dbm wt_n_pkts] in *. f_equal.
  unfold wrap. rewrite !Z.shiftr_div_pow2 by lia. zdiv.
Qed.

Lemma put_get_tuple b0 b1 b2 b3 b4 l : Forall byte_ok [b0; b1; b2; b3; b4] ->
  put_tuple (get_tuple (b0 :: b1 :: b2 :: b3 :: b4 :: l)) = [b0; b1; b2; b3; b4] /\
  tuple_ok (get_tuple (b0 :: b1 :: b2 :: b3 :: b4 :: l)).
Proof.
  rewrite !Forall_cons_iff. unfold get_tuple, put_tuple. cbn [nth wt_hash24 wt_mean_dbm wt_n_pkts].
  intros (H0 & H1 & H2 & H3 & H4 & _). rewrite hash24_bytes by done.
  unfold byte_ok in *. split.
  - rewrite land_hash24, Z.mod_small by lia.
    assert (u8 (i8 b3) = b3) as ->.
    { unfold swrap, wrap. rewrite Zminus_mod_idemp_l.
      replace (b3 + 2 ^ (8 - 1) - 2 ^ (8 - 1)) with b3 by lia. apply Z.mod_small. lia. }
    unfold wrap. rewrite !Z.shiftr_div_pow2 by lia. repeat f_equal; zdiv.
  - split; [|split]; cbn [wt_hash24 wt_mean_dbm wt_n_pkts];
      [unfold in_u; lia|auto with uwl|unfold in_u; lia].
Qed.

Lemma get_put_tuples ts l : Forall tuple_ok ts ->
  get_tuples (length ts) (flat_map put_tuple ts ++ l) = ts.
Proof.
  induction 1 as [|t ts Ht _ IH]; cbn [length get_tuples flat_map]; [done|].
  rewrite <- app_assoc, get_put_tuple by done. f_equal. exact IH.
Qed.

Lemma put_get_tuples n p : Forall byte_ok p -> length p = (5 * n)%nat ->
  flat_map put_tuple (get_tuples n p) = p /\ Forall tuple_ok (get_tuples n p).
Proof.
  revert p. induction n as [|n IH]; intros p Hp Hl.
  { destruct p; [|done]. split; [done|constructor]. }
  destruct p as [|b0 [|b1 [|b2 [|b3 [|b4 p]]]]]; cbn [length] in Hl; try lia.
  change (b0 :: b1 :: b2 :: b3 :: b4 :: p) with ([b0; b1; b2; b3; b4] ++ p) in Hp.
  apply Forall_app in Hp as [Hb Hp].
  destruct (put_get_tuple b0 b1 b2 b3 b4 p Hb) as [Hput Hok].
  destruct (IH p Hp ltac:(lia)) as [Hrec Hoks].
  cbn [get_tuples flat_map]. change (drop 5 (b0 :: b1 :: b2 :: b3 :: b4 :: p)) with p.
  rewrite Hput, Hrec. split; [done|by constructor].
Qed.

Lemma length_get_tuples n p : length (get_tuples n p) = n.
Proof. revert p. induction n; intros; cbn [get_tuples length]; congruence. Qed.

Lemma length_put_tuples ts : length (flat_map put_tuple ts) = (5 * length ts)%nat.
Proof. induction ts; cbn [flat_map length]; [done|]. rewrite length_app, IHts. cbn. lia. Qed.

#[export] Hint Rewrite length_get_tuples length_put_tuples : uwl.

(** ** The codecs are exact *)

(** The messages a version-2 report can carry: every field in the range of
    its C type, unused slots of the tuple array empty. *)
Definition witness_ok (m : witness_msg) : Prop :=
  wm_ver m = WITNESS_MSG_VER /\ in_u 32 (wm_boot_id m) /\ in_u 32 (wm_ctr m) /\
  in_u 64 (wm_echo_nonce m) /\ in_u 16 (wm_window_ms m) /\ 0 <= wm_n_tuples m /\
  exists ts, Z.of_nat (length ts) = wm_n_tuples m /\ Forall tuple_ok ts /\
    wm_tuples m = ts ++ replicate (Z.to_nat (WITNESS_MSG_MAX_TUPLES - wm_n_tuples m)) tuple0.

Definition anchor_ok (m : anchor_msg) : Prop :=
  am_ver m = ANCHOR_MSG_VER /\ in_u 32 (am_boot_id m) /\ in_u 32 (am_ctr m) /\
  in_u 64 (am_echo_nonce m) /\ in_u 16 (am_ranging_block m) /\ in_i 32 (am_peer_mm m).

Definition join_ok (m : join_msg) : Prop :=
  jm_ver m = JOIN_MSG_VER /\ in_u 32 (jm_boot_id m) /\ in_u 32 (jm_ctr m) /\
  length (jm_ursk m) = JOIN_URSK_LEN /\ length (jm_rcfg m) = JOIN_RCFG_LEN /\
  in_u 8 (jm_channel m) /\ in_u 8 (jm_sync_code_index m).

Lemma role_known_range r : role_known r = true <-> 1 <= r <= 3.
Proof.
  unfold role_known, ROLE_INSIDE, ROLE_OUTSIDE, ROLE_THRESHOLD.
  rewrite !orb_true_iff, !Z.eqb_eq. lia.
Qed.

Lemma put_u8_byte v : in_u 8 v -> put_u8 v = [v].
Proof. intros Hv. cbn [put_be]. rewrite Z.shiftr_0_r, wrap_id by done. done. Qed.

(** Take the next field off the buffer: the bytes in hand become the field
    written back followed by the rest. *)
Ltac peel Hb v q :=
  match type of Hb with
  | Forall byte_ok ?p =>
      match goal with
      | |- context [rd ?n p] =>
          let Hp := fresh "Hp" in let Hl := fresh "Hl" in let Hr := fresh "Hr" in
          pose proof (put_rd n p Hb ltac:(lia)) as Hp;
          pose proof (length_rd n p) as Hl; pose proof (rd_range n p Hb) as Hr;
          pose proof (rd_rest n p Hb) as Hb';
          destruct (rd n p) as [v q]; cbn [fst snd] in Hp, Hl, Hr, Hb';
          clear Hb; rename Hb' into Hb
      end
  end.

Lemma witness_encode_decode bs m :
  witness_ok m -> witness_msg_encode m WITNESS_MSG_MAX_LEN = Some bs ->
  witness_msg_decode bs = Some m.
Proof.
  intros (Hv & Hb & Hc & He & Hw & Hn0 & ts & Hlen & Hts & Htup). unfold witness_msg_encode.
  destruct (Z.ltb_spec WITNESS_MSG_MAX_TUPLES (wm_n_tuples m)) as [|Hn]; [done|].
  destruct (role_known (wm_role m)) eqn:Hr; [cbn [negb]|done].
  case_match; [done|]. intros Hbs. apply (inj Some) in Hbs as <-.
  unfold WITNESS_MSG_MAX_TUPLES in *.
  rewrite Htup, take_app_length' by lia.
  pose proof (proj1 (role_known_range _) Hr) as Hrr.
  rewrite (put_u8_byte (wm_ver m)), (put_u8_byte (wm_role m)), (put_u8_byte (wm_n_tuples m))
    by (unfold in_u; rewrite ?Hv; unfold WITNESS_MSG_VER; lia).
  unfold witness_msg_decode.
  match goal with |- context [length ?b] => set (bs := b) end.
  assert (Z.of_nat (length bs) = 21 + 5 * wm_n_tuples m) as Hbl.
  { unfold bs. rewrite put_u64_be. unfold put_u32, put_u16. rewrite !length_app, !length_put_be.
    cbn [length]. rewrite length_put_tuples. lia. }
  rewrite Hbl. unfold WITNESS_MSG_HDR_LEN, WITNESS_MSG_TUPLE_LEN.
  change (nth 0 bs 0) with (wm_ver m). change (nth 1 bs 0) with (wm_role m).
  change (nth 20 bs 0) with (wm_n_tuples m). rewrite Hr, Hv, Z.eqb_refl. cbn [negb].
  destruct (Z.ltb_spec (21 + 5 * wm_n_tuples m) 21); [lia|].
  destruct (Z.ltb_spec WITNESS_MSG_MAX_TUPLES (wm_n_tuples m));
    [unfold WITNESS_MSG_MAX_TUPLES in *; lia|].
  rewrite (proj2 (Z.eqb_eq _ _)) by lia. cbn [negb].
  assert (bs = put_u8 (wm_ver m) ++ put_u8 (wm_role m) ++ put_u32 (wm_boot_id m) ++
    put_u32 (wm_ctr m) ++ put_u64 (wm_echo_nonce m) ++ put_u16 (wm_window_ms m) ++
    put_u8 (wm_n_tuples m) ++ flat_map put_tuple ts ++ []) as ->.
  { rewrite app_nil_r, !put_u8_byte; [done|..];
      unfold in_u; rewrite ?Hv; unfold WITNESS_MSG_VER; lia. }
  unfold get_u8, get_u32, get_u16, put_u32, put_u16.
  rewrite rd_put by (unfold in_u; rewrite Hv; unfold WITNESS_MSG_VER; lia).
  rewrite rd_put by (unfold in_u; lia). rewrite rd_put by done. rewrite rd_put by done.
  rewrite get_put_u64 by done. rewrite rd_put by done. rewrite rd_put by (unfold in_u; lia).
  rewrite <- Hlen, Nat2Z.id, get_put_tuples by done. rewrite Hlen.
  unfold WITNESS_MSG_MAX_TUPLES. rewrite <- Htup. by destruct m.
Qed.

Lemma witness_decode_encode bs m :
  Forall byte_ok bs -> witness_msg_decode bs = Some m ->
  witness_ok m /\ witness_msg_encode m WITNESS_MSG_MAX_LEN = Some bs.
Proof.
  intros Hb. unfold witness_msg_decode. unfold WITNESS_MSG_HDR_LEN, WITNESS_MSG_TUPLE_LEN.
  destruct (Z.ltb_spec (Z.of_nat (length bs)) 21) as [|Hl]; [done|].
  unfold get_u8, get_u32, get_u16.
  peel Hb ver p1. peel Hb role p2. peel Hb boot p3. peel Hb ctr p4.
  rewrite get_u64_be by (done || lia). peel Hb echo p5. peel Hb win p6. peel Hb n p7.
  assert (bs = put_u8 ver ++ put_u8 role ++ put_be 4 boot ++ put_be 4 ctr ++ put_be 8 echo ++
    put_be 2 win ++ put_u8 n ++ p7) as Hbs by (subst; done).
  pose proof (put_u8_byte _ Hr) as E0. pose proof (put_u8_byte _ Hr0) as E1.
  pose proof (put_u8_byte _ Hr5) as E2.
  assert (nth 0 bs 0 = ver /\ nth 1 bs 0 = role /\ nth 20 bs 0 = n) as (-> & -> & ->).
  { rewrite Hbs, E0, E1, E2. done. }
  destruct (Z.eqb_spec ver WITNESS_MSG_VER) as [->|]; [cbn [negb]|done].
  destruct (role_known role) eqn:Hrole; [cbn [negb]|done].
  destruct (Z.ltb_spec WITNESS_MSG_MAX_TUPLES n) as [|Hn]; [done|].
  destruct (Z.eqb_spec (Z.of_nat (length bs)) (21 + n * 5)) as [Hlen|]; [cbn [negb]|done].
  intros Hm. apply (inj Some) in Hm as <-.
  assert (0 <= n) by (unfold in_u in Hr5; lia).
  destruct (put_get_tuples (Z.to_nat n) p7 Hb ltac:(lia)) as [Hput Hoks].
  split.
  { unfold witness_ok. cbn [wm_ver wm_boot_id wm_ctr wm_echo_nonce wm_window_ms wm_n_tuples
      wm_tuples].
    repeat (split; [done|]). eexists. split; [|split; [exact Hoks|done]].
    rewrite length_get_tuples. lia. }
  unfold witness_msg_encode. cbn [wm_ver wm_role wm_boot_id wm_ctr wm_echo_nonce wm_window_ms
    wm_n_tuples wm_tuples].
  rewrite Hrole. cbn [negb]. rewrite (proj2 (Z.ltb_ge _ _)) by lia.
  rewrite (proj2 (Z.ltb_ge _ _)) by (unfold WITNESS_MSG_MAX_LEN, WITNESS_MSG_MAX_TUPLES,
    WITNESS_MSG_HDR_LEN, WITNESS_MSG_TUPLE_LEN in *; lia).
  rewrite take_app_length' by (rewrite length_get_tuples; done).
  rewrite Hput, put_u64_be, Hbs. done.
Qed.

Lemma anchor_encode_decode bs m cap :
  anchor_ok m -> anchor_msg_encode m cap = Some bs ->
  length bs = 24%nat /\ anchor_msg_decode bs = Some m.
Proof.
  intros (Hv & Hb & Hc & He & Hw & Hp). unfold anchor_msg_encode.
  destruct (role_known (am_role m)) eqn:Hr; [cbn [negb]|done].
  case_match; [done|]. intros Hbs. apply (inj Some) in Hbs as <-.
  pose proof (proj1 (role_known_range _) Hr) as Hrr.
  assert (put_u8 (am_role m) = [am_role m]) as E by (apply put_u8_byte; unfold in_u; lia).
  match goal with |- length ?b = _ /\ _ => set (bs := b) end.
  assert (length bs = 24%nat) as Hbl.
  { unfold bs. rewrite put_u64_be. unfold put_u32, put_u16. autorewrite with uwl. done. }
  split; [exact Hbl|]. unfold anchor_msg_decode.
  assert (nth 1 bs 0 = am_role m) as ->.
  { unfold bs. rewrite E. done. }
  rewrite Hbl, Hr. assert (nth 0 bs 0 = ANCHOR_MSG_VER) as -> by reflexivity.
  cbn [negb Z.eqb]. unfold bs, get_u8, get_u32, get_u16, put_u32, put_u16.
  rewrite rd_put by (unfold in_u, ANCHOR_MSG_VER; lia).
  rewrite rd_put by (unfold in_u; lia). rewrite rd_put by done. rewrite rd_put by done.
  rewrite get_put_u64 by done. rewrite rd_put by done.
  rewrite <- (app_nil_r (put_be 4 _)), rd_put by auto with uwl.
  rewrite (swrap_wrap 32) by (done || lia). destruct m. cbn in *. by subst.
Qed.

Lemma anchor_decode_encode bs m cap :
  Forall byte_ok bs -> ANCHOR_MSG_LEN <= cap -> anchor_msg_decode bs = Some m ->
  anchor_ok m /\ anchor_msg_encode m cap = Some bs.
Proof.
  intros Hb Hcap. unfold anchor_msg_decode.
  destruct (nth 0 bs 0 =? ANCHOR_MSG_VER) eqn:Hver; [cbn [negb]|done].
  destruct (Z.eqb_spec (Z.of_nat (length bs)) ANCHOR_MSG_LEN) as [Hl|]; [cbn [negb]|done].
  unfold ANCHOR_MSG_LEN in *.
  unfold get_u8, get_u32, get_u16.
  peel Hb ver p1. peel Hb role p2. peel Hb boot p3. peel Hb ctr p4.
  rewrite get_u64_be by (done || lia). peel Hb echo p5. peel Hb blk p6. peel Hb mm p7.
  assert (p7 = []) as -> by (destruct p7; [done|cbn in *; lia]).
  assert (bs = put_u8 ver ++ put_u8 role ++ put_be 4 boot ++ put_be 4 ctr ++ put_be 8 echo ++
    put_be 2 blk ++ put_be 4 mm ++ []) as Hbs by (subst; done).
  assert (nth 0 bs 0 = ver /\ nth 1 bs 0 = role) as [Hn0 ->].
  { rewrite Hbs, !put_u8_byte by done. done. }
  rewrite Hn0 in Hver. apply Z.eqb_eq in Hver as ->.
  destruct (role_known role) eqn:Hrole; [cbn [negb]|done].
  intros Hm. apply (inj Some) in Hm as <-. split.
  { unfold anchor_ok. cbn [am_ver am_boot_id am_ctr am_echo_nonce am_ranging_block am_peer_mm].
    repeat (split; [done|]). auto with uwl. }
  unfold anchor_msg_encode. cbn [am_role am_boot_id am_ctr am_echo_nonce am_ranging_block
    am_peer_mm].
  rewrite Hrole. cbn [negb]. unfold ANCHOR_MSG_LEN. rewrite (proj2 (Z.ltb_ge _ _)) by lia.
  assert (u32 (i32 mm) = mm) as ->.
  { unfold swrap, wrap. rewrite Zminus_mod_idemp_l.
    replace (mm + 2 ^ (32 - 1) - 2 ^ (32 - 1)) with mm by lia. by apply Z.mod_small. }
  rewrite put_u64_be, Hbs, app_nil_r. done.
Qed.

Lemma join_encode_decode bs m cap :
  join_ok m -> join_msg_encode m cap = Some bs ->
  length bs = 60%nat /\ join_msg_decode bs = Some m.
Proof.
  intros (Hv & Hb & Hc & Hu & Hr & Hch & Hs). unfold join_msg_encode.
  case_match; [done|]. intros Hbs. apply (inj Some) in Hbs as <-.
  match goal with |- length ?b = _ /\ _ => set (bs := b) end.
  assert (length bs = 60%nat) as Hbl.
  { unfold bs, put_u32. autorewrite with uwl. rewrite Hu, Hr. done. }
  split; [exact Hbl|]. unfold join_msg_decode. rewrite Hbl.
  assert (nth 0 bs 0 = JOIN_MSG_VER) as -> by reflexivity.
  cbn [negb Z.eqb]. unfold bs, get_u8, get_u32, put_u32.
  rewrite rd_put by (unfold in_u, JOIN_MSG_VER; lia). rewrite !rd_put by done.
  rewrite take_app_length', drop_app_length' by done.
  rewrite take_app_length', drop_app_length' by done.
  rewrite rd_put by done. rewrite <- (app_nil_r (put_u8 _)), rd_put by done.
  destruct m. cbn in *. by subst.
Qed.

Lemma join_decode_encode bs m cap :
  Forall byte_ok bs -> JOIN_MSG_LEN <= cap -> join_msg_decode bs = Some m ->
  join_ok m /\ join_msg_encode m cap = Some bs.
Proof.
  intros Hb Hcap. unfold join_msg_decode.
  destruct (nth 0 bs 0 =? JOIN_MSG_VER) eqn:Hver; [cbn [negb]|done].
  destruct (Z.eqb_spec (Z.of_nat (length bs)) JOIN_MSG_LEN) as [Hl|]; [cbn [negb]|done].
  change JOIN_MSG_LEN with 60 in *. unfold get_u8, get_u32.
  peel Hb ver p1. peel Hb boot p2. peel Hb ctr p3.
  set (p4 := drop JOIN_URSK_LEN p3). set (p5 := drop JOIN_RCFG_LEN p4).
  assert (Forall byte_ok p5) as Hb5 by (unfold p5, p4; by do 2 apply Forall_drop).
  assert (length p4 = (length p3 - 32)%nat) as Hl4 by apply length_drop.
  assert (length p5 = (length p4 - 17)%nat) as Hl5 by apply length_drop.
  peel Hb5 ch p6. peel Hb5 sy p7.
  assert (p7 = []) as -> by (destruct p7; [done|cbn in *; lia]).
  assert (bs = put_u8 ver ++ put_be 4 boot ++ put_be 4 ctr ++ take JOIN_URSK_LEN p3 ++
    take JOIN_RCFG_LEN p4 ++ put_u8 ch ++ put_u8 sy ++ []) as Hbs.
  { rewrite Hp3, Hp2. unfold p5. rewrite take_drop. unfold p4. rewrite take_drop.
    by rewrite Hp1, Hp0, Hp. }
  assert (nth 0 bs 0 = ver) as Hn0 by (rewrite Hbs, (put_u8_byte ver) by done; done).
  rewrite Hn0 in Hver. apply Z.eqb_eq in Hver as ->.
  intros Hm. apply (inj Some) in Hm as <-. split.
  { unfold join_ok. cbn [jm_ver jm_boot_id jm_ctr jm_ursk jm_rcfg jm_channel jm_sync_code_index].
    rewrite !length_take. unfold JOIN_URSK_LEN, JOIN_RCFG_LEN.
    repeat (split; [done || lia|]). done. }
  unfold join_msg_encode. change JOIN_MSG_LEN with 60. rewrite (proj2 (Z.ltb_ge _ _)) by lia.
  cbn [jm_boot_id jm_ctr jm_ursk jm_rcfg jm_channel jm_sync_code_index].
  rewrite Hbs, app_nil_r. done.
Qed.

(** The three message codecs of the peer link are exact.  A byte buffer
    decodes to a message exactly when the message is within the ranges of its
    fields and encodes to that buffer: decoding inverts encoding, no two
    buffers decode to the same message, and whatever is accepted (a version, a
    role, a tuple count, a length) is what an encoder produces. *)
Theorem message_codecs_exact bs (Hbytes : Forall byte_ok bs) :
  (forall m, witness_msg_decode bs = Some m <->
             witness_ok m /\ witness_msg_encode m WITNESS_MSG_MAX_LEN = Some bs) /\
  (forall m, anchor_msg_decode bs = Some m <->
             anchor_ok m /\ anchor_msg_encode m ANCHOR_MSG_LEN = Some bs) /\
  (forall m, join_msg_decode bs = Some m <->
             join_ok m /\ join_msg_encode m JOIN_MSG_LEN = Some bs).
Proof.
  split; [|split]; intros m; split.
  - by apply witness_decode_encode.
  - intros [Hm Hbs]. by apply witness_encode_decode.
  - apply anchor_decode_encode; [done|lia].
  - intros [Hm Hbs]. by eapply anchor_encode_decode.
  - apply join_decode_encode; [done|lia].
  - intros [Hm Hbs]. by eapply join_encode_decode.
Qed.

(** A two-tuple report from the inside witness. *)
Definition sample_report : witness_msg :=
  mk_witness_msg 2 1 0xdeadbeef 17 0x0102030405060708 250 2
    ([mk_tuple 0xabcdef (-63) 12; mk_tuple 0x123456 (-80) 3] ++ replicate 6 tuple0).

Definition sample_bytes : list Z :=
  [2; 1; 0xde; 0xad; 0xbe; 0xef; 0; 0; 0; 17; 1; 2; 3; 4; 5; 6; 7; 8; 0; 250; 2;
   0xab; 0xcd; 0xef; 193; 12; 0x12; 0x34; 0x56; 176; 3].

Lemma message_codecs_exact_witness :
  witness_msg_encode sample_report WITNESS_MSG_MAX_LEN = Some sample_bytes /\
  witness_ok sample_report.
Proof.
  assert (Forall byte_ok sample_bytes) as Hb
    by (repeat constructor; unfold byte_ok; lia).
  destruct (proj1 (message_codecs_exact sample_bytes Hb) sample_report) as [Hd _].
  destruct (Hd ltac:(vm_compute; reflexivity)) as [Hok He]. split; assumption.
Defined.
