(* ===== verification/Link.v ===== *)
(** * The sealed peer link

    Models [modules/ultrawidelock_anchor/src/ultrawidelock_link.c] and
    [ultrawidelock_seal.c], with the AES-CCM calls of
    [modules/ultrawidelock_cred/src/ultrawidelock_prim_psa.c] they go through.
    The PSA crypto service itself is a parameter ([Psa]); what the link relies
    on is [PsaLaws].  A builder gives the new state of the link end and the
    frame written, [None] where the C function returns 0.  [link_consume] takes
    the contents of the two out-parameters, [None] for a null pointer, and
    gives them as it leaves them. *)

From Stdlib Require Import ZArith Lia Bool.
From stdpp Require Import base list numbers sets.
From S2P Require Import Prelude WitnessMsg.

Local Open Scope Z_scope.

(** ** The crypto service *)

(** [psa_import_key] of a 128-bit AES key, and the one-shot AEAD calls with
    algorithm CCM shortened to the given tag length and no associated data. *)
Class Psa := {
  psa_import_key : list Z -> bool;
  psa_aead_encrypt : list Z -> Z -> list Z -> list Z -> Z -> option (list Z);
  psa_aead_decrypt : list Z -> Z -> list Z -> list Z -> Z -> option (list Z)
}.

(** What PSA documents: a 16-byte key is an AES-128 key; encryption with room
    for ciphertext and tag writes exactly those; decryption of what encryption
    wrote, under the same key and nonce, gives the plaintext. *)
Class PsaLaws (P : Psa) := {
  psa_import_16 key : length key = 16%nat -> psa_import_key key = true;
  psa_encrypt_total key tag nonce pt cap :
    length key = 16%nat -> length nonce = 13%nat -> 4 <= tag <= 16 ->
    Z.of_nat (length pt) + tag <= cap ->
    exists ct, psa_aead_encrypt key tag nonce pt cap = Some ct /\
               Z.of_nat (length ct) = Z.of_nat (length pt) + tag;
  psa_decrypt_encrypt key tag nonce pt cap ct cap' :
    psa_aead_encrypt key tag nonce pt cap = Some ct -> Z.of_nat (length pt) <= cap' ->
    psa_aead_decrypt key tag nonce ct cap' = Some pt
}.

Definition CCM_TAG : Z := 16.

Definition SEAL_KEY_LEN : nat := 16.
Definition SEAL_NONCE_LEN : nat := 13.
Definition SEAL_TAG_LEN : Z := 8.
Definition SEAL_OVERHEAD : Z := Z.of_nat SEAL_NONCE_LEN + SEAL_TAG_LEN.

Section ops.
Context `{P : Psa}.

Definition aes128_ccm_encrypt (key nonce pt : list Z) (tag_len out_cap : Z) : option (list Z) :=
  if CCM_TAG <? tag_len then None
  else if negb (psa_import_key key) then None
  else psa_aead_encrypt key tag_len nonce pt out_cap.

Definition aes128_ccm_decrypt (key nonce inp : list Z) (tag_len out_cap : Z) : option (list Z) :=
  if CCM_TAG <? tag_len then None
  else if negb (psa_import_key key) then None
  else psa_aead_decrypt key tag_len nonce inp out_cap.

(** ** Sealing *)

Definition seal_nonce (role boot_id ctr : Z) : list Z :=
  [u8 role;
   u8 (Z.shiftr boot_id 24); u8 (Z.shiftr boot_id 16); u8 (Z.shiftr boot_id 8); u8 boot_id;
   u8 (Z.shiftr ctr 24); u8 (Z.shiftr ctr 16); u8 (Z.shiftr ctr 8); u8 ctr;
   0; 0; 0; 0].

Definition seal (key nonce plain : list Z) (cap : Z) : option (list Z) :=
  if cap <? Z.of_nat SEAL_NONCE_LEN + Z.of_nat (length plain) + SEAL_TAG_LEN then None
  else match aes128_ccm_encrypt key nonce plain SEAL_TAG_LEN (cap - Z.of_nat SEAL_NONCE_LEN) with
       | None => None
       | Some ct => Some (nonce ++ ct)
       end.

Definition unseal (key inp : list Z) (out_cap : Z) : option (list Z) :=
  if Z.of_nat (length inp) <=? Z.of_nat SEAL_NONCE_LEN + SEAL_TAG_LEN then None
  else aes128_ccm_decrypt key (take SEAL_NONCE_LEN inp) (drop SEAL_NONCE_LEN inp)
         SEAL_TAG_LEN out_cap.

(** ** The link end *)

Definition LINK_HANDOFF_ROLE : Z := 0xFF.
Definition LINK_ROLE_MIN : Z := 1.
Definition LINK_ROLE_MAX : Z := 3.
Definition LINK_CHALLENGE_LEN : Z := 9.
Definition LINK_CHALLENGE_HINT_LEN : Z := 12.
Definition SEALED (plain_len : Z) : Z := SEAL_OVERHEAD + plain_len.

Inductive link_rx :=
  | RX_IGNORED | RX_CHALLENGE | RX_REPORT | RX_JOIN | RX_UNSEALED | RX_MALFORMED | RX_REPLAYED.

#[export] Instance link_rx_eq_dec : EqDecision link_rx.
Proof. solve_decision. Defined.

Record link := mk_link {
  lk_key : list Z;
  lk_provisioned : bool;
  lk_role : Z;
  lk_boot_id : Z;
  lk_ctr : Z;
  lk_tx_echo_nonce : Z;
  lk_expected_echo_nonce : Z;
  lk_report_peer : list witness_seen;  (* one per role *)
  lk_report_epoch : list Z;            (* one per role *)
  lk_join_peer : witness_seen
}.

#[export] Instance link_eta : Eta link := fun l =>
  mk_link (lk_key l) (lk_provisioned l) (lk_role l) (lk_boot_id l) (lk_ctr l)
    (lk_tx_echo_nonce l) (lk_expected_echo_nonce l) (lk_report_peer l) (lk_report_epoch l)
    (lk_join_peer l).

Definition link_init (role boot_id : Z) : link :=
  mk_link (replicate SEAL_KEY_LEN 0) false role boot_id 0 0 0
    (replicate (Z.to_nat LINK_ROLE_MAX) seen0) (replicate (Z.to_nat LINK_ROLE_MAX) 0) seen0.

Definition link_set_key (l : link) (key : list Z) : link * Z :=
  if negb (Nat.eqb (length key) SEAL_KEY_LEN) then (l, -1)
  else (l <| lk_key := key |> <| lk_provisioned := true |>, 0).

Definition link_ready (l : link) : bool := lk_provisioned l.

Definition seal_next (l : link) (nonce_role : Z) (plain : list Z) (cap : Z)
  : link * option (list Z) :=
  let next := u32 (lk_ctr l + 1) in
  let nonce := seal_nonce nonce_role (lk_boot_id l) next in
  match seal (lk_key l) nonce plain cap with
  | None => (l, None)
  | Some out => (l <| lk_ctr := next |>, Some out)
  end.

Definition link_build_report (l : link) (peer_mm ranging_block cap : Z)
  : link * option (list Z) :=
  if negb (lk_provisioned l) || (peer_mm <? 0) then (l, None)
  else if (lk_role l <? LINK_ROLE_MIN) || (LINK_ROLE_MAX <? lk_role l) then (l, None)
  else if cap <? SEALED ANCHOR_MSG_LEN then (l, None)
  else
    let am := mk_anchor_msg ANCHOR_MSG_VER (lk_role l) (lk_boot_id l) (u32 (lk_ctr l + 1))
                (lk_tx_echo_nonce l) (u16 ranging_block) peer_mm in
    match anchor_msg_encode am ANCHOR_MSG_LEN with
    | None => (l, None)
    | Some plain => seal_next l (lk_role l) plain cap
    end.

Definition link_build_join (l : link) (ursk rcfg : list Z) (channel sync_code_index cap : Z)
  : link * option (list Z) :=
  if negb (lk_provisioned l) then (l, None)
  else if cap <? SEALED JOIN_MSG_LEN then (l, None)
  else
    let jm := mk_join_msg JOIN_MSG_VER (lk_boot_id l) (u32 (lk_ctr l + 1)) ursk rcfg
                channel sync_code_index in
    match join_msg_encode jm JOIN_MSG_LEN with
    | None => (l, None)
    | Some plain => seal_next l LINK_HANDOFF_ROLE plain cap
    end.

Definition link_build_challenge (nonce cap : Z) : option (list Z) :=
  if cap <? LINK_CHALLENGE_LEN then None
  else Some (WITNESS_MSG_VER :: put_be 8 nonce).

Definition link_build_challenge_hint (nonce hint cap : Z) : option (list Z) :=
  if cap <? LINK_CHALLENGE_HINT_LEN then None
  else Some (WITNESS_MSG_VER :: put_be 8 nonce ++
             [u8 (Z.shiftr hint 16); u8 (Z.shiftr hint 8); u8 hint]).

Definition report_rejected (am : anchor_msg) : link_rx * anchor_msg :=
  (RX_REPLAYED, mk_anchor_msg 0 (am_role am) 0 (am_ctr am) 0 0 0).

Definition link_expect_echo (l : link) (nonce : Z) : link :=
  l <| lk_expected_echo_nonce := nonce |>.

(** The freshness rules for a report that unsealed and decoded. *)
Definition consume_report (l : link) (am : anchor_msg) : link * link_rx * anchor_msg :=
  let idx := Z.to_nat (am_role am - 1) in
  let seen := nth idx (lk_report_peer l) seen0 in
  let armed := negb (lk_expected_echo_nonce l =? 0) in
  if armed && negb (am_echo_nonce am =? lk_expected_echo_nonce l) then
    let '(rc, am) := report_rejected am in (l, rc, am)
  else if armed && se_have seen && negb (se_boot_id seen =? am_boot_id am)
          && (nth idx (lk_report_epoch l) 0 =? lk_expected_echo_nonce l) then
    let '(rc, am) := report_rejected am in (l, rc, am)
  else
    let '(ok, seen') := seen_accept_ctr seen (am_boot_id am) (am_ctr am) in
    if negb ok then let '(rc, am) := report_rejected am in (l, rc, am)
    else (l <| lk_report_peer := <[idx := seen']> (lk_report_peer l) |>
            <| lk_report_epoch := <[idx := lk_expected_echo_nonce l]> (lk_report_epoch l) |>,
          RX_REPORT, am).

Definition join0 : join_msg :=
  mk_join_msg 0 0 0 (replicate JOIN_URSK_LEN 0) (replicate JOIN_RCFG_LEN 0) 0 0.

Definition join_consume (l : link) (plain : list Z) : link * link_rx * join_msg :=
  match join_msg_decode plain with
  | None => (l, RX_MALFORMED, join0)
  | Some jm =>
      let '(ok, seen') := seen_accept_ctr (lk_join_peer l) (jm_boot_id jm) (jm_ctr jm) in
      if ok then (l <| lk_join_peer := seen' |>, RX_JOIN, jm)
      else (l, RX_REPLAYED,
            mk_join_msg 0 0 (jm_ctr jm) (replicate JOIN_URSK_LEN 0) (replicate JOIN_RCFG_LEN 0)
              0 0)
  end.

Definition link_consume (l : link) (inp : list Z) (am : option anchor_msg) (jm : option join_msg)
  : link * link_rx * option anchor_msg * option join_msg :=
  let len := Z.of_nat (length inp) in
  if ((len =? LINK_CHALLENGE_LEN) || (len =? LINK_CHALLENGE_HINT_LEN))
     && (nth 0 inp 0 =? WITNESS_MSG_VER) then
    (l <| lk_tx_echo_nonce := get_be (take 8 (drop 1 inp)) |>, RX_CHALLENGE, am, jm)
  else if negb (lk_provisioned l) then (l, RX_IGNORED, am, jm)
  else if len =? SEALED ANCHOR_MSG_LEN then
    match am with
    | None => (l, RX_IGNORED, am, jm)
    | Some _ =>
        match unseal (lk_key l) inp JOIN_MSG_LEN with
        | None => (l, RX_UNSEALED, am, jm)
        | Some plain =>
            match anchor_msg_decode plain with
            | None => (l, RX_MALFORMED, am, jm)
            | Some am' => let '(l', rc, am'') := consume_report l am' in (l', rc, Some am'', jm)
            end
        end
    end
  else if len =? SEALED JOIN_MSG_LEN then
    match jm with
    | None => (l, RX_IGNORED, am, jm)
    | Some _ =>
        match unseal (lk_key l) inp JOIN_MSG_LEN with
        | None => (l, RX_UNSEALED, am, jm)
        | Some plain => let '(l', rc, jm') := join_consume l plain in (l', rc, am, Some jm')
        end
    end
  else (l, RX_IGNORED, am, jm).

(** ** Runs of one link end

    Everything that can happen to a link end after [link_init]: a caller
    installs a key, arms an epoch or sends, or a datagram arrives. *)

Inductive link_op :=
  | OpSetKey (key : list Z)
  | OpExpect (nonce : Z)
  | OpReport (peer_mm ranging_block cap : Z)
  | OpJoin (ursk rcfg : list Z) (channel sync_code_index cap : Z)
  | OpConsume (inp : list Z) (am : option anchor_msg) (jm : option join_msg).

Inductive link_event :=
  | EvNone
  | EvSent (frame : list Z)
  | EvRx (rc : link_rx) (am : option anchor_msg) (jm : option join_msg).

Definition sent_event (r : link * option (list Z)) : link * link_event :=
  (r.1, match r.2 with Some f => EvSent f | None => EvNone end).

Definition link_step (l : link) (op : link_op) : link * link_event :=
  match op with
  | OpSetKey key => ((link_set_key l key).1, EvNone)
  | OpExpect nonce => (link_expect_echo l nonce, EvNone)
  | OpReport mm blk cap => sent_event (link_build_report l mm blk cap)
  | OpJoin ursk rcfg ch sy cap => sent_event (link_build_join l ursk rcfg ch sy cap)
  | OpConsume inp am jm =>
      let '(l', rc, am', jm') := link_consume l inp am jm in (l', EvRx rc am' jm')
  end.

Fixpoint link_run (l : link) (ops : list link_op) : list link_event :=
  match ops with
  | [] => []
  | op :: ops => let '(l', ev) := link_step l op in ev :: link_run l' ops
  end.

End ops.

(** The epochs a run arms. *)
Definition epochs (ops : list link_op) : list Z :=
  omap (fun op => match op with OpExpect n => Some n | _ => None end) ops.

(** The reports a run believed. *)
Definition believed (evs : list link_event) : list anchor_msg :=
  omap (fun ev => match ev with EvRx RX_REPORT am _ => am | _ => None end) evs.

(** The nonces of the frames a run sent. *)
Definition nonces (evs : list link_event) : list (list Z) :=
  omap (fun ev => match ev with EvSent f => Some (take SEAL_NONCE_LEN f) | _ => None end) evs.

(** ** What a step leaves alone *)

Section frames.
Context `{P : Psa}.

Lemma consume_report_cases l am l' rc am' :
  consume_report l am = (l', rc, am') ->
  (l' = l /\ rc = RX_REPLAYED) \/
  (rc = RX_REPORT /\ am' = am /\
   let idx := Z.to_nat (am_role am - 1) in
   let seen := nth idx (lk_report_peer l) seen0 in
   (lk_expected_echo_nonce l <> 0 -> am_echo_nonce am = lk_expected_echo_nonce l) /\
   (lk_expected_echo_nonce l <> 0 -> se_have seen = true ->
    nth idx (lk_report_epoch l) 0 = lk_expected_echo_nonce l -> se_boot_id seen = am_boot_id am) /\
   (se_have seen = true -> se_boot_id seen = am_boot_id am -> se_ctr seen < am_ctr am) /\
   l' = l <| lk_report_peer :=
          <[idx := mk_seen (am_boot_id am) (am_ctr am) true]> (lk_report_peer l) |>
          <| lk_report_epoch := <[idx := lk_expected_echo_nonce l]> (lk_report_epoch l) |>).
Proof.
  unfold consume_report, report_rejected, seen_accept_ctr.
  set (seen := nth _ (lk_report_peer l) seen0). set (ep := nth _ (lk_report_epoch l) 0).
  destruct (Z.eqb_spec (lk_expected_echo_nonce l) 0) as [|Ha],
    (Z.eqb_spec (am_echo_nonce am) (lk_expected_echo_nonce l)) as [|He]; cbn [negb andb];
    try (intros [= <- <- <-]; by left);
    destruct (se_have seen) eqn:Hh; cbn [andb];
    destruct (Z.eqb_spec (se_boot_id seen) (am_boot_id am)) as [Hb|Hb]; cbn [negb andb];
    try (destruct (Z.eqb_spec ep (lk_expected_echo_nonce l)); cbn [negb andb]);
    try (intros [= <- <- <-]; by left);
    try (destruct (Z.leb_spec (am_ctr am) (se_ctr seen)); cbn [negb andb]);
    intros Heq; apply (inj2 pair) in Heq as [Heq <-]; apply (inj2 pair) in Heq as [<- <-];
    first [by left|right]; repeat split; intros; congruence || lia.
Qed.

Lemma anchor_decode_role bs m : anchor_msg_decode bs = Some m -> 1 <= am_role m <= 3.
Proof.
  unfold anchor_msg_decode. case_match; [done|]. case_match; [done|].
  destruct bs as [|b0 [|b1 bs]]; [done|done|]. cbn [nth].
  destruct (role_known b1) eqn:Hr; [cbn [negb]|done].
  unfold get_u8, get_u16, get_u32, get_u64, get_u32, rd. cbn [take drop].
  intros Hm. apply (inj Some) in Hm as <-. cbn [am_role].
  apply role_known_range. unfold get_be. cbn [fold_left].
  by rewrite Z.shiftl_0_l, Z.lor_0_l.
Qed.

(** A step either believes one report, by the freshness rules, or leaves the
    windows and their epochs alone; only the local caller moves the expected
    nonce. *)
Definition believes (l : link) (am : anchor_msg) (l' : link) : Prop :=
  1 <= am_role am <= 3 /\ consume_report l am = (l', RX_REPORT, am).

Definition windows_kept (l l' : link) : Prop :=
  lk_report_peer l' = lk_report_peer l /\ lk_report_epoch l' = lk_report_epoch l.

Lemma seal_next_frame l r plain cap l' out :
  seal_next l r plain cap = (l', out) ->
  windows_kept l l' /\ lk_expected_echo_nonce l' = lk_expected_echo_nonce l.
Proof. unfold seal_next. case_match; intros [= <- <-]; done. Qed.

Lemma build_report_frame l mm blk cap l' out :
  link_build_report l mm blk cap = (l', out) ->
  windows_kept l l' /\ lk_expected_echo_nonce l' = lk_expected_echo_nonce l.
Proof.
  unfold link_build_report. do 3 (case_match; [intros [= <- <-]; done|]).
  cbv zeta. case_match; [|intros [= <- <-]; done]. apply seal_next_frame.
Qed.

Lemma build_join_frame l ursk rcfg ch sy cap l' out :
  link_build_join l ursk rcfg ch sy cap = (l', out) ->
  windows_kept l l' /\ lk_expected_echo_nonce l' = lk_expected_echo_nonce l.
Proof.
  unfold link_build_join. do 2 (case_match; [intros [= <- <-]; done|]).
  cbv zeta. case_match; [|intros [= <- <-]; done]. apply seal_next_frame.
Qed.

Lemma consume_cases l inp am jm l' rc am' jm' :
  link_consume l inp am jm = (l', rc, am', jm') ->
  (exists m, rc = RX_REPORT /\ am' = Some m /\ believes l m l') \/
  (rc <> RX_REPORT /\ windows_kept l l' /\
   lk_expected_echo_nonce l' = lk_expected_echo_nonce l).
Proof.
  unfold link_consume. case_match; [intros [= <- <- <- <-]; by right|].
  case_match; [intros [= <- <- <- <-]; by right|].
  case_match.
  { destruct am as [am|]; [|intros [= <- <- <- <-]; by right].
    destruct (unseal _ _ _) as [plain|]; [|intros [= <- <- <- <-]; by right].
    destruct (anchor_msg_decode plain) as [m|] eqn:Hd; [|intros [= <- <- <- <-]; by right].
    destruct (consume_report l m) as [[l1 rc1] am1] eqn:Hc. intros [= <- <- <- <-].
    apply anchor_decode_role in Hd.
    destruct (consume_report_cases _ _ _ _ _ Hc) as [[-> ->]|(-> & -> & _)]; [by right|].
    left. exists m. done. }
  case_match; [|intros [= <- <- <- <-]; by right].
  destruct jm as [jm|]; [|intros [= <- <- <- <-]; by right].
  destruct (unseal _ _ _) as [plain|]; [|intros [= <- <- <- <-]; by right].
  unfold join_consume. destruct (join_msg_decode plain) as [m|]; [|intros [= <- <- <- <-]; by right].
  destruct (seen_accept_ctr _ _ _) as [[] seen]; intros [= <- <- <- <-]; by right.
Qed.

Lemma link_step_cases l op l' ev :
  link_step l op = (l', ev) ->
  (exists m, believed [ev] = [m] /\ epochs [op] = [] /\ believes l m l') \/
  (believed [ev] = [] /\ windows_kept l l' /\
   ((exists n, epochs [op] = [n] /\ lk_expected_echo_nonce l' = n) \/
    (epochs [op] = [] /\ lk_expected_echo_nonce l' = lk_expected_echo_nonce l))).
Proof.
  destruct op as [key|n|mm blk cap|ursk rcfg ch sy cap|inp am jm]; cbn [link_step].
  - intros [= <- <-]. right. split; [done|]. unfold link_set_key.
    case_match; (split; [done|by right]).
  - intros [= <- <-]. right. split; [done|]. split; [done|]. left. by eexists.
  - destruct (link_build_report l mm blk cap) as [l1 o] eqn:Hs. intros [= <- <-].
    apply build_report_frame in Hs as [Hw He]. right. split; [by destruct o|].
    split; [done|by right].
  - destruct (link_build_join l ursk rcfg ch sy cap) as [l1 o] eqn:Hs. intros [= <- <-].
    apply build_join_frame in Hs as [Hw He]. right. split; [by destruct o|].
    split; [done|by right].
  - destruct (link_consume l inp am jm) as [[[l1 rc] am1] jm1] eqn:Hc. intros [= <- <-].
    destruct (consume_cases _ _ _ _ _ _ _ _ Hc) as [(m & -> & -> & Hb)|(Hrc & Hw & He)].
    + left. by exists m.
    + right. split; [by destruct rc|]. split; [done|]. by right.
Qed.

End frames.

(** * What the sealed peer link guarantees

    Freshness over whole runs of a link end, uniqueness of the nonces under
    the shared key, and the round trip from one end to the other. *)

Local Open Scope Z_scope.

(** ** Freshness *)

Section freshness.
Context `{P : Psa}.

Definition windows_sized (l : link) : Prop :=
  length (lk_report_peer l) = 3%nat /\ length (lk_report_epoch l) = 3%nat.

(** A report of the current epoch is behind the window of its role, and the
    window is pinned to its boot. *)
Definition behind_window (l : link) (m : anchor_msg) : Prop :=
  let idx := Z.to_nat (am_role m - 1) in
  let seen := nth idx (lk_report_peer l) seen0 in
  1 <= am_role m <= 3 /\
  (am_echo_nonce m = lk_expected_echo_nonce l ->
   nth idx (lk_report_epoch l) 0 = lk_expected_echo_nonce l /\
   se_have seen = true /\ se_boot_id seen = am_boot_id m /\ am_ctr m <= se_ctr seen).

Record fresh_inv (l : link) (used : list Z) (acc : list anchor_msg) : Prop := {
  fi_sized : windows_sized l;
  fi_armed : lk_expected_echo_nonce l ∈ used /\ 0 ∉ used;
  fi_echo : forall m, m ∈ acc -> am_echo_nonce m ∈ used;
  fi_behind : forall m, m ∈ acc -> behind_window l m;
  fi_nodup : NoDup acc
}.

Lemma behind_window_frame l l' m :
  windows_kept l l' -> lk_expected_echo_nonce l' = lk_expected_echo_nonce l ->
  behind_window l m -> behind_window l' m.
Proof. intros [Hp He] Hx. unfold behind_window. by rewrite Hp, He, Hx. Qed.

Lemma fresh_inv_report l used acc m l' :
  fresh_inv l used acc -> believes l m l' -> fresh_inv l' used (acc ++ [m]).
Proof.
  intros [[Hs1 Hs2] [Harm H0] Hecho Hbeh Hnd] [Hrole Hc].
  destruct (consume_report_cases _ _ _ _ _ Hc) as [[_ ?]|(_ & _ & Hech & Hboot & Hctr & Hl')];
    [done|]. cbv zeta in *.
  assert (lk_expected_echo_nonce l <> 0) as Hne by (intros He; by rewrite He in Harm).
  specialize (Hech Hne). specialize (Hboot Hne).
  set (idx := Z.to_nat (am_role m - 1)) in *.
  assert (idx < 3)%nat as Hidx by lia.
  assert (m ∉ acc) as Hnew.
  { intros Hin. destruct (Hbeh _ Hin) as [_ Hw]. fold idx in Hw.
    destruct (Hw Hech) as (He & Hh & Hb & Hle). specialize (Hctr Hh Hb). lia. }
  assert (nth idx (lk_report_peer l') seen0 = mk_seen (am_boot_id m) (am_ctr m) true /\
          nth idx (lk_report_epoch l') 0 = lk_expected_echo_nonce l) as [Hp He].
  { subst l'. cbn. split; apply nth_lookup_Some, list_lookup_insert_eq; lia. }
  assert (lk_expected_echo_nonce l' = lk_expected_echo_nonce l) as Hx by (by subst l').
  split.
  - subst l'. split; cbn; by rewrite length_insert.
  - by rewrite Hx.
  - intros m' [Hm|Hm%list_elem_of_singleton]%elem_of_app; [by apply Hecho|]. subst m'. by rewrite Hech.
  - intros m' [Hm|Hm%list_elem_of_singleton]%elem_of_app.
    2:{ subst m'. split; [done|]. fold idx. rewrite Hp, He, Hx. cbn. intros _. repeat split; lia. }
    destruct (Hbeh _ Hm) as [Hr' Hw]. split; [done|]. rewrite Hx. intros He'.
    destruct (Hw He') as (Hep & Hh & Hb & Hle).
    destruct (decide (Z.to_nat (am_role m' - 1) = idx)) as [Heq|Hneq].
    + rewrite Heq in *. rewrite Hp, He. cbn.
      specialize (Hboot Hh Hep). specialize (Hctr Hh Hboot). repeat split; [congruence|lia].
    + assert (forall A (d v : A) k, nth (Z.to_nat (am_role m' - 1)) (<[idx := v]> k) d
               = nth (Z.to_nat (am_role m' - 1)) k d) as Hnth.
      { intros. by rewrite !nth_lookup, list_lookup_insert_ne by done. }
      subst l'. cbn. rewrite !Hnth. done.
  - apply list.NoDup_app. split; [done|]. split; [|apply NoDup_singleton].
    intros x Hx1 Hx2%list_elem_of_singleton. by subst x.
Qed.

Lemma fresh_inv_other l used acc l' (n : option Z) :
  fresh_inv l used acc -> windows_kept l l' ->
  (match n with
  | Some n => lk_expected_echo_nonce l' = n /\ (n ∉ used) /\ n <> 0
  | None => lk_expected_echo_nonce l' = lk_expected_echo_nonce l
  end) -> fresh_inv l' (match n with Some n => n :: used | None => used end) acc.
Proof.
  intros [[Hs1 Hs2] [Harm H0] Hecho Hbeh Hnd] Hw Hn.
  assert (windows_sized l') as Hs by (destruct Hw as [E1 E2]; split; congruence).
  destruct n as [n|].
  - destruct Hn as (Hn & Hnew & Hn0). split; [done|..].
    + rewrite Hn. split; [by left|]. by apply not_elem_of_cons.
    + intros m Hm. right. by apply Hecho.
    + intros m Hm. destruct (Hbeh _ Hm) as [Hr _]. split; [done|]. intros He.
      rewrite Hn in He. by apply Hecho in Hm as ?; congruence.
    + done.
  - split; [done|by rewrite Hn|done| |done].
    intros m Hm. by eapply behind_window_frame, Hbeh.
Qed.

Lemma run_fresh ops l used acc :
  fresh_inv l used acc -> NoDup (epochs ops ++ used) -> 0 ∉ epochs ops ->
  NoDup (acc ++ believed (link_run l ops)).
Proof.
  revert l used acc. induction ops as [|op ops IH]; intros l used acc Hinv Hnd H0.
  { cbn. rewrite app_nil_r. apply Hinv. }
  cbn [link_run]. destruct (link_step l op) as [l' ev] eqn:Hs.
  change (believed (ev :: link_run l' ops)) with (omap (fun ev => match ev with
    | EvRx RX_REPORT am _ => am | _ => None end) ([ev] ++ link_run l' ops)).
  rewrite omap_app. fold (believed [ev]) (believed (link_run l' ops)).
  assert (epochs (op :: ops) = epochs [op] ++ epochs ops) as He
    by (change (op :: ops) with ([op] ++ ops); apply omap_app).
  rewrite He in Hnd, H0.
  destruct (link_step_cases _ _ _ _ Hs) as
    [(m & -> & E & Hb)|(-> & Hw & [(n & E & Hx)|(E & Hx)])]; rewrite E in Hnd, H0; cbn in Hnd, H0.
  - rewrite app_assoc. apply (IH l' used); [by eapply fresh_inv_report|done|done].
  - apply list.NoDup_cons in Hnd as [Hn1 Hnd]. apply not_elem_of_cons in H0 as [Hn0 H0].
    apply (IH l' (n :: used)); [|..|done].
    + apply (fresh_inv_other l used acc l' (Some n)); [done|done|].
      split; [done|]. split; [|done]. intros Hin. apply Hn1, elem_of_app. by right.
    + apply list.NoDup_app in Hnd as (Hd1 & Hd2 & Hd3). apply list.NoDup_app.
      split; [done|]. split; [|by apply list.NoDup_cons; split; [set_solver|]].
      intros x Hx2 [->|Hin]%elem_of_cons; [set_solver|by apply (Hd2 x)].
  - apply (IH l' used); [|done|done]. by apply (fresh_inv_other l used acc l' None).
Qed.

End freshness.

(** C9: an armed link end never believes the same sealed report twice.  Over any
    run (challenges broadcast by anyone, frames recorded, replayed, reordered,
    corrupted or sealed under the key, the local end sending and re-keying),
    as long as every epoch it arms is new and non-zero, the reports it returns
    as fresh are pairwise different, whatever the crypto service does. *)
Theorem no_report_believed_twice `{P : Psa} (l : link) (n0 : Z) (ops : list link_op) :
  windows_sized l -> NoDup (n0 :: epochs ops) -> 0 ∉ n0 :: epochs ops ->
  NoDup (believed (link_run l (OpExpect n0 :: ops))).
Proof.
  intros Hs Hnd H0. apply list.NoDup_cons in Hnd as [Hn0 Hnd].
  apply not_elem_of_cons in H0 as [Hz H0].
  apply (run_fresh ops (link_expect_echo l n0) [n0] []); [|..|done].
  - split; [done| |by intros m ?%elem_of_nil|by intros m ?%elem_of_nil|constructor].
    split; [by left|]. by apply not_elem_of_cons; split; [|apply not_elem_of_nil].
  - apply list.NoDup_app. split; [done|]. split; [|apply NoDup_singleton].
    intros x Hx ->%list_elem_of_singleton. done.
Qed.

(** ** A concrete crypto service

    Satisfies the laws: the plaintext in the clear, tagged with the head of the
    key, and the tag verified. *)

Definition key_tag_psa : Psa := {|
  psa_import_key key := Nat.eqb (length key) 16;
  psa_aead_encrypt key tag nonce pt cap :=
    if Z.of_nat (length pt) + tag <=? cap then Some (pt ++ take (Z.to_nat tag) key) else None;
  psa_aead_decrypt key tag nonce ct cap :=
    let n := (length ct - length (take (Z.to_nat tag) key))%nat in
    if bool_decide (drop n ct = take (Z.to_nat tag) key) && (Z.of_nat n <=? cap)
    then Some (take n ct) else None
|}.

Lemma key_tag_psa_laws : PsaLaws key_tag_psa.
Proof.
  split; cbn.
  - intros key ->. done.
  - intros key tag nonce pt cap Hk _ Ht Hc. eexists. rewrite (proj2 (Z.leb_le _ _)) by done.
    split; [done|]. rewrite length_app, length_take. lia.
  - intros key tag nonce pt cap ct cap'. case_match; [|done]. intros [= <-] Hc.
    rewrite length_app.
    replace (length pt + length (take (Z.to_nat tag) key) -
             length (take (Z.to_nat tag) key))%nat with (length pt) by lia.
    rewrite drop_app_length, take_app_length, bool_decide_true by done.
    by rewrite (proj2 (Z.leb_le _ _)).
Qed.

(** The outside satellite, the lock, and the report of a phone at 1.5 m. *)
Definition link_key : list Z := replicate 16 0x42.
Definition sample_satellite : link :=
  (link_set_key (link_init 2 0xA0A0A0A0) link_key).1 <| lk_tx_echo_nonce := 99 |>.
Definition sample_lock : link := (link_set_key (link_init LINK_HANDOFF_ROLE 0xB0B0B0B0) link_key).1.
Definition sample_frame : list Z :=
  default [] (@link_build_report key_tag_psa sample_satellite 1500 7 64).2.
Definition any_anchor : anchor_msg := mk_anchor_msg 0 0 0 0 0 0 0.

(** The lock arms epoch 99, believes the report once, refuses its replay, and
    refuses it again in the next epoch. *)
Lemma no_report_believed_twice_witness :
  let ops := [OpConsume sample_frame (Some any_anchor) None;
              OpConsume sample_frame (Some any_anchor) None;
              OpExpect 100; OpConsume sample_frame (Some any_anchor) None] in
  length (believed (@link_run key_tag_psa sample_lock (OpExpect 99 :: ops))) = 1%nat /\
  NoDup (believed (@link_run key_tag_psa sample_lock (OpExpect 99 :: ops))).
Proof.
  split; [vm_compute; reflexivity|].
  apply (@no_report_believed_twice key_tag_psa sample_lock 99).
  - split; reflexivity.
  - apply (bool_decide_unpack _). vm_compute. exact I.
  - apply (bool_decide_unpack _). vm_compute. exact I.
Defined.

(** ** Nonces *)

Lemma seal_nonce_be role boot ctr :
  seal_nonce role boot ctr = put_be 1 role ++ put_be 4 boot ++ put_be 4 ctr ++ replicate 4 0.
Proof. unfold seal_nonce. cbn. by rewrite !Z.shiftr_0_r. Qed.

Lemma seal_nonce_inj r b c r' b' c' :
  in_u 8 r -> in_u 8 r' -> in_u 32 b -> in_u 32 b' -> in_u 32 c -> in_u 32 c' ->
  seal_nonce r b c = seal_nonce r' b' c' -> r = r' /\ b = b' /\ c = c'.
Proof.
  rewrite !seal_nonce_be. intros Hr Hr' Hb Hb' Hc Hc' H.
  apply (f_equal (rd 1)) in H as H1. rewrite !rd_put in H1 by done. apply (inj2 pair) in H1 as [-> H1].
  apply (f_equal (rd 4)) in H1 as H2. rewrite !rd_put in H2 by done. apply (inj2 pair) in H2 as [-> H2].
  apply (f_equal (rd 4)) in H2 as H3. rewrite !rd_put in H3 by done. by apply (inj2 pair) in H3 as [-> _].
Qed.

Section nonces.
Context `{P : Psa}.

(** The nonce prefix an operation may seal under. *)
Definition op_role (l : link) (op : link_op) (r : Z) : Prop :=
  match op with
  | OpReport _ _ _ => r = lk_role l /\ 1 <= r <= 3
  | OpJoin _ _ _ _ _ => r = LINK_HANDOFF_ROLE
  | _ => False
  end.

Definition same_identity (l l' : link) : Prop :=
  lk_role l' = lk_role l /\ lk_boot_id l' = lk_boot_id l.

Lemma seal_next_nonce l r plain cap l' out :
  seal_next l r plain cap = (l', out) ->
  same_identity l l' /\
  match out with
  | Some f => take SEAL_NONCE_LEN f = seal_nonce r (lk_boot_id l) (u32 (lk_ctr l + 1)) /\
              lk_ctr l' = u32 (lk_ctr l + 1)
  | None => lk_ctr l' = lk_ctr l
  end.
Proof.
  unfold seal_next, seal.
  destruct (cap <? _); [intros [= <- <-]; done|].
  destruct (aes128_ccm_encrypt _ _ _ _ _); intros [= <- <-]; done.
Qed.

Lemma consume_keeps l inp am jm l' rc am' jm' :
  link_consume l inp am jm = (l', rc, am', jm') ->
  same_identity l l' /\ lk_ctr l' = lk_ctr l /\ lk_key l' = lk_key l.
Proof.
  unfold link_consume. case_match; [intros [= <- <- <- <-]; done|].
  case_match; [intros [= <- <- <- <-]; done|]. case_match.
  { destruct am as [am|]; [|intros [= <- <- <- <-]; done].
    destruct (unseal _ _ _) as [plain|]; [|intros [= <- <- <- <-]; done].
    destruct (anchor_msg_decode plain) as [m|]; [|intros [= <- <- <- <-]; done].
    destruct (consume_report l m) as [[l1 rc1] am1] eqn:Hc. intros [= <- <- <- <-].
    destruct (consume_report_cases _ _ _ _ _ Hc) as [[-> ->]|(-> & -> & _ & _ & _ & ->)]; done. }
  case_match; [|intros [= <- <- <- <-]; done].
  destruct jm as [jm|]; [|intros [= <- <- <- <-]; done].
  destruct (unseal _ _ _) as [plain|]; [|intros [= <- <- <- <-]; done].
  unfold join_consume. destruct (join_msg_decode plain) as [m|]; [|intros [= <- <- <- <-]; done].
  destruct (seen_accept_ctr _ _ _) as [[] seen]; intros [= <- <- <- <-]; done.
Qed.

Lemma link_step_nonce l op l' ev :
  link_step l op = (l', ev) ->
  same_identity l l' /\
  ((nonces [ev] = [] /\ lk_ctr l' = lk_ctr l) \/
   (exists r, op_role l op r /\ nonces [ev] = [seal_nonce r (lk_boot_id l) (u32 (lk_ctr l + 1))] /\
              lk_ctr l' = u32 (lk_ctr l + 1))).
Proof.
  destruct op as [key|n|mm blk cap|ursk rcfg ch sy cap|inp am jm]; cbn [link_step].
  - intros [= <- <-]. unfold link_set_key. case_match; (split; [done|by left]).
  - intros [= <- <-]. split; [done|by left].
  - unfold link_build_report, SEALED, SEAL_OVERHEAD.
    case_match; [intros [= <- <-]; split; [done|by left]|].
    destruct (Z.ltb_spec (lk_role l) LINK_ROLE_MIN) as [|Hlo],
      (Z.ltb_spec LINK_ROLE_MAX (lk_role l)) as [|Hhi]; cbn [orb];
      try (intros [= <- <-]; split; [done|by left]).
    case_match; [intros [= <- <-]; split; [done|by left]|]. cbv zeta.
    case_match; [|intros [= <- <-]; split; [done|by left]].
    destruct (seal_next _ _ _ _) as [l1 [f|]] eqn:Hs; intros [= <- <-];
      apply seal_next_nonce in Hs as [Hid Hs]; (split; [done|]); [right|by left].
    exists (lk_role l). destruct Hs as [Hn Hc]. split; [done|]. split; [|done].
    change (nonces _) with [take SEAL_NONCE_LEN f]. by rewrite Hn.
  - unfold link_build_join.
    case_match; [intros [= <- <-]; split; [done|by left]|].
    case_match; [intros [= <- <-]; split; [done|by left]|]. cbv zeta.
    case_match; [|intros [= <- <-]; split; [done|by left]].
    destruct (seal_next _ _ _ _) as [l1 [f|]] eqn:Hs; intros [= <- <-];
      apply seal_next_nonce in Hs as [Hid Hs]; (split; [done|]); [right|by left].
    exists LINK_HANDOFF_ROLE. destruct Hs as [Hn Hc]. split; [done|]. split; [|done].
    change (nonces _) with [take SEAL_NONCE_LEN f]. by rewrite Hn.
  - destruct (link_consume l inp am jm) as [[[l1 rc] am1] jm1] eqn:Hc. intros [= <- <-].
    destruct (consume_keeps _ _ _ _ _ _ _ _ Hc) as (Hid & Hctr & _). split; [done|by left].
Qed.

(** Every nonce of a run carries the end's boot id and a counter above the
    one it started from, and no counter is used twice. *)
Lemma run_nonces ops l (roles : Z -> Prop) :
  in_u 32 (lk_ctr l) -> lk_ctr l + Z.of_nat (length ops) < 2 ^ 32 ->
  (forall op r, op ∈ ops -> op_role l op r -> roles r) ->
  (forall r, roles r -> in_u 8 r) -> in_u 32 (lk_boot_id l) ->
  (forall n, n ∈ nonces (link_run l ops) -> exists r c, roles r /\ lk_ctr l < c < 2 ^ 32 /\
     n = seal_nonce r (lk_boot_id l) c) /\
  NoDup (nonces (link_run l ops)).
Proof.
  revert l. induction ops as [|op ops IH]; intros l Hc Hlen Hroles Hr8 Hb.
  { cbn. split; [by intros n ?%elem_of_nil|constructor]. }
  cbn [link_run]. destruct (link_step l op) as [l' ev] eqn:Hs.
  assert (nonces (ev :: link_run l' ops) = nonces [ev] ++ nonces (link_run l' ops)) as ->
    by (change (ev :: link_run l' ops) with ([ev] ++ link_run l' ops); apply omap_app).
  destruct (link_step_nonce _ _ _ _ Hs) as [[Hid1 Hid2] Hn]. cbn [length] in Hlen.
  unfold in_u in Hc.
  assert (lk_ctr l <= lk_ctr l' <= lk_ctr l + 1) as Hstep.
  { destruct Hn as [[_ ->]|(r & _ & _ & ->)]; [lia|]. rewrite wrap_id; unfold in_u; lia. }
  assert (forall op r, op_role l' op r = op_role l op r) as Hor
    by (intros [] r0; cbn; by rewrite ?Hid1).
  destruct (IH l') as [Hall Hnd].
  { unfold in_u. lia. } { lia. }
  { intros op' r Hin Hr. rewrite Hor in Hr. apply (Hroles op'); [by right|done]. }
  { done. } { by rewrite Hid2. }
  rewrite Hid2 in Hall.
  destruct Hn as [[-> Hce]|(r & Hr & -> & Hce)]; cbn [app].
  { split; [|done]. intros n Hin. destruct (Hall n Hin) as (r & c & ? & ? & ?).
    exists r, c. split; [done|]. split; [lia|done]. }
  assert (roles r) as Hrr by (apply (Hroles op); [by left|done]).
  rewrite wrap_id in Hce by (unfold in_u; lia). rewrite wrap_id by (unfold in_u; lia). split.
  - intros n [->|Hin]%elem_of_cons; [exists r, (lk_ctr l + 1)|].
    { split; [done|]. split; [lia|done]. }
    destruct (Hall n Hin) as (r' & c & ? & ? & ?). exists r', c.
    split; [done|]. split; [lia|done].
  - apply list.NoDup_cons. split; [|done]. intros Hin.
    destruct (Hall _ Hin) as (r' & c & Hr' & Hc' & Heq).
    apply seal_nonce_inj in Heq as (_ & _ & ?); auto; unfold in_u; lia.
Qed.

End nonces.

Definition sends_no_join (op : link_op) : bool :=
  match op with OpJoin _ _ _ _ _ => false | _ => true end.
Definition sends_no_report (op : link_op) : bool :=
  match op with OpReport _ _ _ => false | _ => true end.

(** C37: no nonce is ever used twice under the shared key.  A satellite sends
    reports and the lock sends handoffs under one key; over any runs of the two
    (frames received, failed sends, epochs and keys set in between) that fit
    the 32-bit counters, the nonces of all frames sent by both ends are
    pairwise different, whatever boot ids and counters the two ends have. *)
Theorem link_nonces_unique `{P : Psa} (sat lock : link) (sat_ops lock_ops : list link_op) :
  in_u 32 (lk_boot_id sat) -> in_u 32 (lk_boot_id lock) ->
  in_u 32 (lk_ctr sat) -> in_u 32 (lk_ctr lock) ->
  lk_ctr sat + Z.of_nat (length sat_ops) < 2 ^ 32 ->
  lk_ctr lock + Z.of_nat (length lock_ops) < 2 ^ 32 ->
  forallb sends_no_join sat_ops = true -> forallb sends_no_report lock_ops = true ->
  NoDup (nonces (link_run sat sat_ops) ++ nonces (link_run lock lock_ops)).
Proof.
  intros Hbs Hbl Hcs Hcl Hls Hll Hs Hl. rewrite forallb_forall in Hs, Hl.
  destruct (run_nonces sat_ops sat (fun r => 1 <= r <= 3)) as [Has Hns]; [done|done|..|done|].
  { intros op r Hin. apply list_elem_of_In, Hs in Hin. destruct op; cbn; tauto || done. }
  { intros r ?. unfold in_u. lia. }
  destruct (run_nonces lock_ops lock (fun r => r = LINK_HANDOFF_ROLE)) as [Hal Hnl];
    [done|done|..|done|].
  { intros op r Hin. apply list_elem_of_In, Hl in Hin. destruct op; cbn; tauto || done. }
  { intros r ->. unfold in_u, LINK_HANDOFF_ROLE. lia. }
  apply list.NoDup_app. split; [done|]. split; [|done].
  intros n Hn1 Hn2. destruct (Has n Hn1) as (r & c & Hr & Hc & ->).
  destruct (Hal _ Hn2) as (r' & c' & -> & Hc' & Heq). unfold in_u in Hcs, Hcl.
  apply seal_nonce_inj in Heq as (? & _); unfold in_u, LINK_HANDOFF_ROLE in *; lia.
Qed.

(** Both ends freshly booted with the same boot id: the satellite sends two
    reports, the lock two handoffs. *)
Lemma link_nonces_unique_witness :
  let sat_ops := [OpReport 1500 7 64; OpReport 1400 8 64] in
  let join := OpJoin (replicate 32 1) (replicate 17 2) 9 11 128 in
  let sent := nonces (@link_run key_tag_psa sample_satellite sat_ops) ++
              nonces (@link_run key_tag_psa sample_lock [join; join]) in
  length sent = 4%nat /\ NoDup sent.
Proof.
  cbv zeta. split; [vm_compute; reflexivity|].
  apply (@link_nonces_unique key_tag_psa sample_satellite sample_lock);
    vm_compute; (reflexivity || (split; congruence)).
Defined.

(** ** From one end to the other *)

(** What the receiving end requires of a report: the challenge it armed, if it
    armed one, and a counter above the window, or a boot id it may switch to. *)
Definition window_admits (l : link) (m : anchor_msg) : Prop :=
  let idx := Z.to_nat (am_role m - 1) in
  let seen := nth idx (lk_report_peer l) seen0 in
  let e := lk_expected_echo_nonce l in
  (e = 0 \/ am_echo_nonce m = e) /\
  (se_have seen = false \/
   (se_boot_id seen = am_boot_id m /\ se_ctr seen < am_ctr m) \/
   (se_boot_id seen <> am_boot_id m /\ (e = 0 \/ nth idx (lk_report_epoch l) 0 <> e))).

Definition window_advanced (l : link) (m : anchor_msg) : link :=
  let idx := Z.to_nat (am_role m - 1) in
  l <| lk_report_peer := <[idx := mk_seen (am_boot_id m) (am_ctr m) true]> (lk_report_peer l) |>
    <| lk_report_epoch := <[idx := lk_expected_echo_nonce l]> (lk_report_epoch l) |>.

Lemma consume_report_admits l m :
  window_admits l m -> consume_report l m = (window_advanced l m, RX_REPORT, m).
Proof.
  intros [He Hw]. unfold consume_report, seen_accept_ctr, window_advanced. cbv zeta.
  set (idx := Z.to_nat (am_role m - 1)) in *. set (seen := nth idx _ _) in *.
  assert (negb (lk_expected_echo_nonce l =? 0) &&
          negb (am_echo_nonce m =? lk_expected_echo_nonce l) = false) as ->.
  { destruct (Z.eqb_spec (lk_expected_echo_nonce l) 0),
      (Z.eqb_spec (am_echo_nonce m) (lk_expected_echo_nonce l)); done || lia. }
  assert (negb (lk_expected_echo_nonce l =? 0) && se_have seen &&
          negb (se_boot_id seen =? am_boot_id m) &&
          (nth idx (lk_report_epoch l) 0 =? lk_expected_echo_nonce l) = false) as ->.
  { destruct (Z.eqb_spec (lk_expected_echo_nonce l) 0); [done|]. cbn [negb andb].
    destruct (se_have seen); [|done].
    destruct (Z.eqb_spec (se_boot_id seen) (am_boot_id m)); [done|].
    destruct (Z.eqb_spec (nth idx (lk_report_epoch l) 0) (lk_expected_echo_nonce l)); [|done].
    destruct Hw as [|[[]|[_ []]]]; done. }
  assert (se_have seen && (se_boot_id seen =? am_boot_id m) && (am_ctr m <=? se_ctr seen) = false)
    as ->; [|done].
  destruct (se_have seen); [|done].
  destruct (Z.eqb_spec (se_boot_id seen) (am_boot_id m)); [|done].
  destruct Hw as [|[[_ Hlt]|[]]]; [done| |done]. cbn. apply Z.leb_gt. lia.
Qed.

Lemma consume_report_again l m :
  windows_sized l -> window_admits l m -> 1 <= am_role m <= 3 ->
  consume_report (window_advanced l m) m
  = (window_advanced l m, RX_REPLAYED, mk_anchor_msg 0 (am_role m) 0 (am_ctr m) 0 0 0).
Proof.
  intros [Hs1 Hs2] [He _] Hr. unfold consume_report, seen_accept_ctr. cbv zeta.
  set (idx := Z.to_nat (am_role m - 1)) in *.
  assert (nth idx (lk_report_peer (window_advanced l m)) seen0
          = mk_seen (am_boot_id m) (am_ctr m) true) as ->.
  { unfold window_advanced. cbn. apply nth_lookup_Some, list_lookup_insert_eq. lia. }
  cbn [se_have se_boot_id se_ctr]. rewrite Z.eqb_refl, Z.leb_refl. cbn [negb].
  rewrite !andb_false_r. cbn [andb]. case_match; done.
Qed.

Lemma unseal_seal {P : Psa} {PL : PsaLaws P} key nonce plain cap :
  length key = 16%nat -> length nonce = 13%nat -> (0 < length plain)%nat ->
  Z.of_nat (length plain) <= JOIN_MSG_LEN -> SEAL_OVERHEAD + Z.of_nat (length plain) <= cap ->
  exists f, seal key nonce plain cap = Some f /\
    Z.of_nat (length f) = SEAL_OVERHEAD + Z.of_nat (length plain) /\
    unseal key f JOIN_MSG_LEN = Some plain.
Proof.
  intros Hk Hn H0 Hp Hc. unfold SEAL_OVERHEAD, SEAL_TAG_LEN, SEAL_NONCE_LEN in *.
  destruct (psa_encrypt_total key 8 nonce plain (cap - 13)) as (ct & Hct & Hl);
    [done|done|lia|lia|].
  exists (nonce ++ ct). unfold seal, unseal, aes128_ccm_encrypt, aes128_ccm_decrypt.
  unfold SEAL_TAG_LEN, SEAL_NONCE_LEN, CCM_TAG. rewrite (psa_import_16 key) by done.
  cbn [negb]. rewrite (proj2 (Z.ltb_ge cap _)) by lia. rewrite (proj2 (Z.ltb_ge 16 8)) by lia.
  change (Z.of_nat 13) with 13 in *. rewrite Hct. split; [done|].
  rewrite length_app, Hn. split; [lia|].
  rewrite (proj2 (Z.leb_gt _ _)) by lia.
  rewrite take_app_length', drop_app_length' by done.
  by eapply psa_decrypt_encrypt.
Qed.

(** What a satellite sends, the lock receives.  With the shared key
    installed at both ends, a satellite role, a distance that exists and room
    for the frame, a report is always built; it advances the counter by one and
    is 45 bytes; the lock, if its challenge and window admit the report, gets
    exactly the distance and block that were sent, and on a second delivery
    refuses the frame and learns no distance. *)
Theorem link_report_roundtrip {P : Psa} {PL : PsaLaws P}
    (sat lock : link) (mm blk cap : Z) (am0 : anchor_msg) (jm0 : option join_msg) :
  lk_provisioned sat = true -> lk_provisioned lock = true ->
  lk_key lock = lk_key sat -> length (lk_key sat) = 16%nat -> 1 <= lk_role sat <= 3 ->
  in_u 32 (lk_boot_id sat) -> in_u 64 (lk_tx_echo_nonce sat) ->
  0 <= mm < 2 ^ 31 -> SEALED ANCHOR_MSG_LEN <= cap -> windows_sized lock ->
  let m := mk_anchor_msg ANCHOR_MSG_VER (lk_role sat) (lk_boot_id sat) (u32 (lk_ctr sat + 1))
             (lk_tx_echo_nonce sat) (u16 blk) mm in
  window_admits lock m ->
  exists frame lock',
    link_build_report sat mm blk cap
      = (sat <| lk_ctr := u32 (lk_ctr sat + 1) |>, Some frame) /\
    length frame = 45%nat /\
    link_consume lock frame (Some am0) jm0 = (lock', RX_REPORT, Some m, jm0) /\
    link_consume lock' frame (Some am0) jm0
      = (lock', RX_REPLAYED, Some (mk_anchor_msg 0 (lk_role sat) 0 (am_ctr m) 0 0 0), jm0).
Proof.
  intros Hps Hpl Hkey Hk Hr Hb He Hmm Hcap Hsz m Hadm.
  change (SEALED ANCHOR_MSG_LEN) with 45 in Hcap.
  assert (anchor_ok m) as Hok.
  { refine (conj eq_refl (conj Hb (conj _ (conj He (conj _ _)))));
      [apply wrap_range; lia|apply wrap_range; lia|cbn [am_peer_mm m]; unfold in_i; lia]. }
  destruct (anchor_msg_encode m ANCHOR_MSG_LEN) as [plain|] eqn:Henc.
  2:{ revert Henc. unfold anchor_msg_encode. cbn [am_role m].
      by rewrite (proj2 (role_known_range _) Hr). }
  destruct (anchor_encode_decode _ _ _ Hok Henc) as [Hplen Hdec].
  destruct (unseal_seal (lk_key sat)
              (seal_nonce (lk_role sat) (lk_boot_id sat) (u32 (lk_ctr sat + 1))) plain cap)
    as (f & Hseal & Hflen & Hun); [done|done|lia|rewrite Hplen; done|rewrite Hplen; done|].
  assert (length f = 45%nat) as Hf by (rewrite Hplen in Hflen; change SEAL_OVERHEAD with 21 in Hflen; lia).
  assert (forall l, lk_provisioned l = true -> lk_key l = lk_key sat ->
    link_consume l f (Some am0) jm0
    = let '(l', rc, am) := consume_report l m in (l', rc, Some am, jm0)) as Hcons.
  { intros l Hp Hkl. unfold link_consume. rewrite Hf, Hp, Hkl, Hun, Hdec. done. }
  exists f, (window_advanced lock m). split; [|split; [done|split]].
  - unfold link_build_report. rewrite Hps.
    rewrite (proj2 (Z.ltb_ge mm 0)) by lia. cbn [negb orb].
    unfold LINK_ROLE_MIN, LINK_ROLE_MAX. rewrite (proj2 (Z.ltb_ge _ 1)) by lia.
    rewrite (proj2 (Z.ltb_ge 3 _)) by lia. cbn [orb]. change (SEALED ANCHOR_MSG_LEN) with 45.
    rewrite (proj2 (Z.ltb_ge cap 45)) by lia. cbv zeta. fold m. rewrite Henc.
    unfold seal_next. by rewrite Hseal.
  - rewrite Hcons by done. by rewrite consume_report_admits.
  - rewrite Hcons by done. by rewrite consume_report_again.
Qed.

Lemma link_report_roundtrip_witness :
  exists frame lock',
    @link_build_report key_tag_psa sample_satellite 1500 7 64
      = (sample_satellite <| lk_ctr := 1 |>, Some frame) /\
    @link_consume key_tag_psa (link_expect_echo sample_lock 99) frame (Some any_anchor) None
      = (lock', RX_REPORT, Some (mk_anchor_msg 3 2 0xA0A0A0A0 1 99 7 1500), None).
Proof.
  assert (window_admits (link_expect_echo sample_lock 99)
            (mk_anchor_msg ANCHOR_MSG_VER 2 0xA0A0A0A0 1 99 7 1500)) as Hadm
    by (split; [right; reflexivity|left; reflexivity]).
  destruct (@link_report_roundtrip key_tag_psa key_tag_psa_laws sample_satellite
              (link_expect_echo sample_lock 99) 1500 7 64 any_anchor None
              eq_refl eq_refl eq_refl eq_refl
              ltac:(vm_compute; split; congruence) ltac:(vm_compute; split; congruence)
              ltac:(vm_compute; split; congruence) ltac:(vm_compute; split; congruence)
              ltac:(vm_compute; congruence) ltac:(split; reflexivity) Hadm)
    as (frame & lock' & Hb & _ & Hc & _).
  exists frame, lock'. split; [exact Hb|exact Hc].
Defined.
