(* ===== verification/WitnessCore.v ===== *)
(** * The window of a BLE witness

    Models [modules/ultrawidelock_anchor/src/ultrawidelock_witness_core.c]:
    one window accumulates packets into sixteen slots, closes into a report of
    the loudest eight advertisers, and can have one hinted label put back.  A
    pointer into the slot array is an index. *)

From Stdlib Require Import ZArith Lia Bool Sorting.Permutation Sorting.Sorted.
From stdpp Require Import base list numbers sorting.
From S2P Require Import Prelude WitnessMsg.

Local Open Scope Z_scope.

Definition WITNESS_CORE_SLOTS : nat := 16.
Definition RSSI_FLOOR : Z := -128.
Definition MAX_TUPLES : nat := 8.

(** [struct ultrawidelock_witness_core_slot]. *)
Record core_slot := mk_slot {
  cs_hash24 : Z; cs_rssi_sum : Z; cs_n : Z; cs_rssi_peak : Z; cs_used : bool
}.

#[export] Instance core_slot_eta : Eta core_slot := fun s =>
  mk_slot (cs_hash24 s) (cs_rssi_sum s) (cs_n s) (cs_rssi_peak s) (cs_used s).

(** [struct ultrawidelock_witness_core]. *)
Record witness_core := mk_core {
  wc_slot : list core_slot; wc_total_pkts : Z; wc_open : bool
}.

#[export] Instance witness_core_eta : Eta witness_core := fun c =>
  mk_core (wc_slot c) (wc_total_pkts c) (wc_open c).

#[export] Instance witness_msg_eta : Eta witness_msg := fun m =>
  mk_witness_msg (wm_ver m) (wm_role m) (wm_boot_id m) (wm_ctr m) (wm_echo_nonce m)
    (wm_window_ms m) (wm_n_tuples m) (wm_tuples m).

Definition slot0 : core_slot := mk_slot 0 0 0 0 false.

Definition witness_core_open : witness_core :=
  mk_core (replicate WITNESS_CORE_SLOTS slot0) 0 true.

(** C division: rounds toward zero. *)
Definition slot_mean (s : core_slot) : Z :=
  if cs_n s =? 0 then RSSI_FLOOR else Z.quot (cs_rssi_sum s) (cs_n s).

(** ** One packet *)

(** The single pass over the slots: the matching slot, or the first free one
    and the quietest used one. *)
Inductive scan :=
  | Hit (i : nat)
  | Miss (first_free : option nat) (weakest : option (nat * core_slot)).

Fixpoint note_scan (h : Z) (slots : list core_slot) (i : nat)
    (first_free : option nat) (weakest : option (nat * core_slot)) : scan :=
  match slots with
  | [] => Miss first_free weakest
  | s :: rest =>
      if negb (cs_used s) then
        note_scan h rest (S i) (match first_free with None => Some i | _ => first_free end) weakest
      else if cs_hash24 s =? h then Hit i
      else note_scan h rest (S i) first_free
             (match weakest with
              | None => Some (i, s)
              | Some (_, w) => if slot_mean s <? slot_mean w then Some (i, s) else weakest
              end)
  end.

Definition note_hit (rssi : Z) (s : core_slot) : core_slot :=
  let s := if cs_n s <? 0xFFFF
           then s <| cs_n := cs_n s + 1 |> <| cs_rssi_sum := cs_rssi_sum s + rssi |> else s in
  if cs_rssi_peak s <? rssi then s <| cs_rssi_peak := rssi |> else s.

Definition witness_core_note (c : witness_core) (hash24 rssi : Z) : witness_core :=
  if negb (wc_open c) then c
  else
    let h := Z.land hash24 0x00FFFFFF in
    let c := if wc_total_pkts c <? 0xFFFF
             then c <| wc_total_pkts := wc_total_pkts c + 1 |> else c in
    match note_scan h (wc_slot c) 0 None None with
    | Hit i => c <| wc_slot := alter (note_hit rssi) i (wc_slot c) |>
    | Miss first_free weakest =>
        let put i := c <| wc_slot := <[i := mk_slot h rssi 1 rssi true]> (wc_slot c) |> in
        match first_free, weakest with
        | Some i, _ => put i
        | None, None => c
        | None, Some (i, w) => if rssi <=? i8 (slot_mean w) then c else put i
        end
    end.

(** ** The report *)

Definition eligible (min_pkts : Z) (s : core_slot) : bool :=
  cs_used s && negb (cs_n s <? min_pkts).

(** The inner loop: the first slot with the largest mean. *)
Fixpoint best_scan (min_pkts : Z) (slots : list core_slot) (i : nat)
    (best : option (nat * core_slot)) : option (nat * core_slot) :=
  match slots with
  | [] => best
  | s :: rest =>
      best_scan min_pkts rest (S i)
        (if negb (eligible min_pkts s) then best
         else match best with
              | None => Some (i, s)
              | Some (_, b) => if slot_mean b <? slot_mean s then Some (i, s) else best
              end)
  end.

Definition slot_tuple (s : core_slot) : witness_tuple :=
  mk_tuple (cs_hash24 s) (i8 (slot_mean s)) (if 255 <? cs_n s then 255 else u8 (cs_n s)).

(** The outer loop, with the tuples still free. *)
Fixpoint summarize_loop (room : nat) (min_pkts : Z) (slots : list core_slot)
  : list core_slot * list witness_tuple :=
  match room with
  | O => (slots, [])
  | S room =>
      match best_scan min_pkts slots 0 None with
      | None => (slots, [])
      | Some (i, b) =>
          let '(slots', out) :=
            summarize_loop room min_pkts (<[i := b <| cs_used := false |>]> slots) in
          (slots', slot_tuple b :: out)
      end
  end.

Definition witness_core_summarize (c : witness_core) (msg : witness_msg) (min_pkts : Z)
  : witness_core * witness_msg * Z :=
  let '(slots, out) := summarize_loop MAX_TUPLES min_pkts (wc_slot c) in
  let n := Z.of_nat (length out) in
  (c <| wc_open := false |> <| wc_slot := slots |>,
   msg <| wm_n_tuples := n |>
       <| wm_tuples := out ++ replicate (MAX_TUPLES - length out) tuple0 |>, n).

Definition witness_core_include (c : witness_core) (msg : witness_msg) (hash24 : Z)
  : witness_core * witness_msg * bool :=
  let h := Z.land hash24 0x00FFFFFF in
  if h =? 0 then (c, msg, false)
  else match witness_msg_find msg h with
  | Some _ => (c, msg, true)
  | None =>
      match list_find (fun s => cs_used s = true /\ cs_hash24 s = h) (wc_slot c) with
      | None => (c, msg, false)
      | Some (i, s) =>
          if cs_n s =? 0 then (c, msg, false)
          else
            let c' := c <| wc_slot := <[i := s <| cs_used := false |>]> (wc_slot c) |> in
            if wm_n_tuples msg <? Z.of_nat MAX_TUPLES then
              (c', msg <| wm_tuples := <[Z.to_nat (wm_n_tuples msg) := slot_tuple s]>
                                         (wm_tuples msg) |>
                       <| wm_n_tuples := wm_n_tuples msg + 1 |>, true)
            else (c', msg <| wm_tuples := <[(MAX_TUPLES - 1)%nat := slot_tuple s]>
                                            (wm_tuples msg) |>, true)
      end
  end.

(** * The report of a witness is the loudest of what it heard

    The selection loop sorts and keeps the maximum, the slots hold the exact
    totals of a window of at most sixteen advertisers, and so the report is the
    top of the true ranking. *)

Local Open Scope Z_scope.

(** ** Selection *)

Lemma best_scan_spec mp slots i best :
  match best_scan mp slots i best with
  | None => best = None /\ Forall (fun s => eligible mp s = false) slots
  | Some (j, b) =>
      (best = Some (j, b) \/
       (i <= j)%nat /\ slots !! (j - i)%nat = Some b /\ eligible mp b = true) /\
      Forall (fun s => eligible mp s = true -> slot_mean s <= slot_mean b) slots /\
      (forall k b0, best = Some (k, b0) -> slot_mean b0 <= slot_mean b)
  end.
Proof.
  revert i best. induction slots as [|s rest IH]; intros i best; cbn [best_scan].
  { destruct best as [[j b]|]; [|split; [done|constructor]].
    split; [by left|]. split; [constructor|]. by intros ? ? [= -> ->]. }
  match goal with |- context [best_scan mp rest (S i) ?b] => set (best' := b) end.
  specialize (IH (S i) best').
  destruct (best_scan mp rest (S i) best') as [[j b]|].
  - destruct IH as (Hfrom & Hall & Hmax).
    assert (forall k b0, best = Some (k, b0) -> slot_mean b0 <= slot_mean b) as Hbest.
    { intros k b0 ->. destruct (eligible mp s) eqn:He; cbn [negb] in best'; [|by apply (Hmax k)].
      destruct (Z.ltb_spec (slot_mean b0) (slot_mean s)); [|by apply (Hmax k)].
      specialize (Hmax _ _ eq_refl). lia. }
    split; [|split; [constructor; [|done]|done]].
    + destruct Hfrom as [Hb|(Hij & Hl & He)].
      * subst best'. destruct (eligible mp s) eqn:He; cbn [negb] in Hb; [|by left].
        assert ((i <= i)%nat /\ (s :: rest) !! (i - i)%nat = Some s /\ eligible mp s = true) as Hs.
        { split; [lia|]. by rewrite Nat.sub_diag. }
        destruct best as [[k b0]|]; [destruct (_ <? _)|]; simplify_eq; auto.
      * right. split; [lia|]. split; [|done].
        replace (j - i)%nat with (S (j - S i)) by lia. done.
    + intros He. subst best'. rewrite He in Hmax. cbn [negb] in Hmax.
      destruct best as [[k b0]|]; [|by apply (Hmax i)].
      destruct (Z.ltb_spec (slot_mean b0) (slot_mean s)); [by apply (Hmax i)|].
      specialize (Hmax k b0 eq_refl). lia.
  - destruct IH as [Hn Hall]. subst best'.
    destruct (eligible mp s) eqn:He; cbn [negb] in Hn.
    { destruct best as [[k b0]|]; [destruct (_ <? _)|]; done. }
    split; [done|by constructor].
Qed.

(** Replacing one entry that passes a filter by one that does not. *)
Lemma filter_take_out {A} (p : A -> bool) l i x y :
  l !! i = Some x -> p x = true -> p y = false ->
  List.filter p l ≡ₚ x :: List.filter p (<[i := y]> l).
Proof.
  intros Hi Hx Hy. rewrite <- (take_drop_middle l i x Hi) at 1.
  rewrite insert_take_drop by (by eapply lookup_lt_Some).
  rewrite !List.filter_app. cbn [List.filter]. rewrite Hx, Hy. symmetry. apply Permutation_middle.
Qed.

Definition louder (a b : core_slot) : Prop := slot_mean b <= slot_mean a.

Lemma summarize_loop_spec room mp slots slots' out :
  summarize_loop room mp slots = (slots', out) ->
  exists chosen, out = map slot_tuple chosen /\
    List.filter (eligible mp) slots ≡ₚ chosen ++ List.filter (eligible mp) slots' /\
    length chosen = Nat.min room (length (List.filter (eligible mp) slots)) /\
    StronglySorted louder chosen /\
    (forall a b, a ∈ chosen -> b ∈ List.filter (eligible mp) slots' -> louder a b).
Proof.
  revert slots slots' out. induction room as [|room IH]; intros slots slots' out;
    cbn [summarize_loop].
  { intros [= <- <-]. exists []. split; [done|]. split; [done|]. split; [done|].
    split; [constructor|]. by intros a b ?%elem_of_nil. }
  pose proof (best_scan_spec mp slots 0 None) as Hb.
  destruct (best_scan mp slots 0 None) as [[i b]|].
  2:{ intros [= <- <-]. exists []. split; [done|]. split; [done|].
      assert (List.filter (eligible mp) slots = []) as ->.
      { destruct Hb as [_ Hb]. induction Hb as [|s l Hs _ IHl]; cbn; [done|]. by rewrite Hs. }
      split; [done|]. split; [constructor|]. by intros a b ?%elem_of_nil. }
  destruct Hb as ([?|(_ & Hi & He)] & Hmax & _); [done|]. rewrite Nat.sub_0_r in Hi.
  destruct (summarize_loop room mp _) as [s1 o1] eqn:Hs. intros [= <- <-].
  destruct (IH _ _ _ Hs) as (chosen & -> & Hperm & Hlen & Hsort & Hrest).
  pose proof (filter_take_out (eligible mp) slots i b (b <| cs_used := false |>) Hi He eq_refl)
    as Hout.
  assert (forall x, x ∈ chosen ++ List.filter (eligible mp) s1 -> louder b x) as Hlb.
  { intros x Hx. rewrite <- Hperm in Hx.
    assert (x ∈ List.filter (eligible mp) slots) as Hx2 by (rewrite Hout; by right).
    apply list_elem_of_In, filter_In in Hx2 as [Hx2 Hex].
    rewrite List.Forall_forall in Hmax. by apply Hmax. }
  exists (b :: chosen). split; [done|]. split; [by rewrite Hout, Hperm|].
  split; [rewrite Hout; cbn [length]; rewrite Hlen; lia|]. split.
  - constructor; [done|]. apply List.Forall_forall. intros x Hx.
    apply Hlb, elem_of_app. left. by apply list_elem_of_In.
  - intros a x [->|Ha]%elem_of_cons Hx; [|by apply Hrest].
    apply Hlb, elem_of_app. by right.
Qed.

(** ** Accumulation *)

(** A window is the packets heard in it: the label under which a packet is
    filed, and for each label how many packets it had and what they sum to. *)
Definition label (p : Z * Z) : Z := Z.land p.1 0x00FFFFFF.
Definition pkts_of (pkts : list (Z * Z)) (h : Z) : list (Z * Z) :=
  List.filter (fun p => label p =? h) pkts.
Definition pkt_count (pkts : list (Z * Z)) (h : Z) : Z := Z.of_nat (length (pkts_of pkts h)).
Definition pkt_sum (pkts : list (Z * Z)) (h : Z) : Z :=
  fold_right Z.add 0 (map snd (pkts_of pkts h)).
Definition pkt_mean (pkts : list (Z * Z)) (h : Z) : Z :=
  Z.quot (pkt_sum pkts h) (pkt_count pkts h).
Definition labels (pkts : list (Z * Z)) : list Z := remove_dups (map label pkts).

Lemma pkts_of_snoc pkts p h :
  pkts_of (pkts ++ [p]) h = pkts_of pkts h ++ (if label p =? h then [p] else []).
Proof. unfold pkts_of. rewrite List.filter_app. cbn. by destruct (label p =? h). Qed.

Lemma pkt_count_snoc pkts p h :
  pkt_count (pkts ++ [p]) h = pkt_count pkts h + (if label p =? h then 1 else 0).
Proof.
  unfold pkt_count. rewrite pkts_of_snoc, length_app. destruct (label p =? h); cbn [length]; lia.
Qed.

Lemma pkt_sum_snoc pkts p h :
  pkt_sum (pkts ++ [p]) h = pkt_sum pkts h + (if label p =? h then p.2 else 0).
Proof.
  unfold pkt_sum. rewrite pkts_of_snoc, map_app.
  assert (forall l r, fold_right Z.add 0 (l ++ r) = fold_right Z.add 0 l + fold_right Z.add 0 r)
    as Happ by (intros l r; induction l; cbn; lia).
  rewrite Happ. destruct (label p =? h); cbn; lia.
Qed.

Lemma pkt_count_absent pkts h : h ∉ map label pkts -> pkts_of pkts h = [].
Proof.
  intros Hn. induction pkts as [|p pkts IH]; [done|]. cbn in *.
  apply not_elem_of_cons in Hn as [Hp Hn]. unfold pkts_of. cbn.
  destruct (Z.eqb_spec (label p) h); [by subst|]. by apply IH.
Qed.

Lemma note_scan_spec h slots i ff wk :
  match note_scan h slots i ff wk with
  | Hit j => (i <= j)%nat /\
      exists s, slots !! (j - i)%nat = Some s /\ cs_used s = true /\ cs_hash24 s = h
  | Miss ff' _ =>
      Forall (fun s => cs_used s = true -> cs_hash24 s <> h) slots /\
      match ff' with
      | None => ff = None /\ Forall (fun s => cs_used s = true) slots
      | Some j => ff = Some j \/
          ((i <= j)%nat /\ exists s, slots !! (j - i)%nat = Some s /\ cs_used s = false)
      end
  end.
Proof.
  revert i ff wk. induction slots as [|s rest IH]; intros i ff wk; cbn [note_scan].
  { split; [constructor|]. destruct ff; [by left|split; [done|constructor]]. }
  assert (forall j x, (S i <= j)%nat -> rest !! (j - S i)%nat = Some x ->
    (i <= j)%nat /\ (s :: rest) !! (j - i)%nat = Some x) as Hup.
  { intros j x Hj Hx. split; [lia|]. by replace (j - i)%nat with (S (j - S i)) by lia. }
  destruct (cs_used s) eqn:Hu; cbn [negb].
  - destruct (Z.eqb_spec (cs_hash24 s) h) as [Hh|Hh].
    { split; [lia|]. exists s. by rewrite Nat.sub_diag. }
    specialize (IH (S i) ff (match wk with None => Some (i, s) | Some (_, w) =>
      if slot_mean s <? slot_mean w then Some (i, s) else wk end)).
    destruct (note_scan _ _ _ _ _) as [j|ff' wk'].
    + destruct IH as (Hij & x & Hx & ?). destruct (Hup _ _ Hij Hx). eauto.
    + destruct IH as [Hall Hff]. split; [by constructor|].
      destruct ff' as [j|]; [|destruct Hff; split; [done|by constructor]].
      destruct Hff as [|(Hij & x & Hx & ?)]; [by left|]. destruct (Hup _ _ Hij Hx). eauto.
  - specialize (IH (S i) (match ff with None => Some i | _ => ff end) wk).
    destruct (note_scan _ _ _ _ _) as [j|ff' wk'].
    + destruct IH as (Hij & x & Hx & ?). destruct (Hup _ _ Hij Hx). eauto.
    + destruct IH as [Hall Hff]. split; [constructor; [congruence|done]|].
      destruct ff' as [j|]; [|by destruct ff; destruct Hff].
      destruct Hff as [Hff|(Hij & x & Hx & ?)]; [|destruct (Hup _ _ Hij Hx); eauto].
      destruct ff as [k|]; [by left|]. injection Hff as <-. right. split; [lia|].
      exists s. by rewrite Nat.sub_diag.
Qed.

(** The slots hold the exact totals of every label heard. *)
Definition slot_exact (pkts : list (Z * Z)) (s : core_slot) : Prop :=
  cs_n s = pkt_count pkts (cs_hash24 s) /\ cs_rssi_sum s = pkt_sum pkts (cs_hash24 s).

Record totals (pkts : list (Z * Z)) (c : witness_core) : Prop := {
  to_open : wc_open c = true;
  to_len : length (wc_slot c) = WITNESS_CORE_SLOTS;
  to_nodup : NoDup (map cs_hash24 (List.filter cs_used (wc_slot c)));
  to_labels : forall h, h ∈ map cs_hash24 (List.filter cs_used (wc_slot c)) <-> h ∈ map label pkts;
  to_exact : Forall (slot_exact pkts) (List.filter cs_used (wc_slot c))
}.

(** Writing used slot [s'] where slot [s] was. *)
Lemma filter_used_insert slots i s s' :
  slots !! i = Some s -> cs_used s' = true ->
  List.filter cs_used (<[i := s']> slots) ≡ₚ
    s' :: List.filter cs_used (take i slots ++ drop (S i) slots) /\
  List.filter cs_used slots ≡ₚ
    (if cs_used s then [s] else []) ++ List.filter cs_used (take i slots ++ drop (S i) slots).
Proof.
  intros Hi Hs'. split.
  - rewrite insert_take_drop by (by eapply lookup_lt_Some).
    rewrite !List.filter_app. cbn [List.filter]. rewrite Hs'. symmetry. apply Permutation_middle.
  - rewrite <- (take_drop_middle slots i s Hi) at 1. rewrite !List.filter_app. cbn [List.filter].
    destruct (cs_used s); cbn [app]; [symmetry; apply Permutation_middle|done].
Qed.

Lemma slot_exact_other pkts p s :
  cs_hash24 s <> label p -> slot_exact pkts s -> slot_exact (pkts ++ [p]) s.
Proof.
  intros Hne [Hn Hs]. unfold slot_exact. rewrite pkt_count_snoc, pkt_sum_snoc.
  rewrite (proj2 (Z.eqb_neq (label p) (cs_hash24 s))) by congruence. lia.
Qed.

(** Filing one packet under its label in one used slot keeps the totals, when
    no other used slot carries that label. *)
Lemma totals_file pkts p c c' i s s' :
  totals pkts c -> wc_slot c !! i = Some s ->
  (cs_used s = true /\ cs_hash24 s = label p \/
   cs_used s = false /\ label p ∉ map label pkts) ->
  cs_used s' = true -> cs_hash24 s' = label p -> slot_exact (pkts ++ [p]) s' ->
  wc_open c' = true -> wc_slot c' = <[i := s']> (wc_slot c) -> totals (pkts ++ [p]) c'.
Proof.
  intros [Ho Hl Hnd Hlab Hex] Hi Hs Hu' Hh' Hex' Hop Hsl.
  destruct (filter_used_insert _ _ _ s' Hi Hu') as [Hnew Hold].
  set (others := List.filter cs_used (take i (wc_slot c) ++ drop (S i) (wc_slot c))) in *.
  rewrite Hold in Hnd, Hex.
  assert (forall h, h ∈ map cs_hash24 ((if cs_used s then [s] else []) ++ others) <->
                    h ∈ map label pkts) as Hlab2.
  { intros h. rewrite <- Hlab. by rewrite Hold. }
  assert (NoDup (label p :: map cs_hash24 others) /\ Forall (slot_exact pkts) others)
    as [Hnd2 Hex2].
  { destruct Hs as [[Hu Hh]|[Hu Hh]]; rewrite Hu in *; cbn in Hnd, Hex, Hlab2.
    - rewrite <- Hh. split; [done|]. by apply Forall_cons_iff in Hex as [_ ?].
    - split; [|done]. apply list.NoDup_cons. split; [|done]. intros Hin. by apply Hh, Hlab2. }
  split; rewrite ?Hsl; [done|by rewrite length_insert|..].
  - rewrite Hnew. cbn. by rewrite Hh'.
  - intros h. rewrite Hnew, map_app. cbn. rewrite Hh', elem_of_cons, elem_of_app,
      list_elem_of_singleton, <- Hlab2, map_app, elem_of_app.
    destruct Hs as [[Hu Hh]|[Hu Hh]]; rewrite Hu; cbn.
    + rewrite list_elem_of_singleton, Hh. tauto.
    + rewrite elem_of_nil. tauto.
  - rewrite Hnew. constructor; [done|]. apply list.NoDup_cons in Hnd2 as [Hni _].
    apply List.Forall_forall. intros x Hx. rewrite List.Forall_forall in Hex2.
    apply slot_exact_other; [|by apply Hex2]. intros Heq. apply Hni. rewrite <- Heq.
    apply list_elem_of_In, in_map, Hx.
Qed.

Lemma note_hit_exact pkts p s :
  slot_exact pkts s -> cs_hash24 s = label p -> Z.of_nat (length pkts) < 65535 ->
  let s' := note_hit p.2 s in
  cs_used s' = cs_used s /\ cs_hash24 s' = label p /\ slot_exact (pkts ++ [p]) s'.
Proof.
  intros [Hn Hs] Hh Hlen. cbv zeta.
  assert (cs_n s < 65535) as Hb.
  { rewrite Hn. unfold pkt_count, pkts_of. pose proof (List.filter_length_le
      (fun q => label q =? cs_hash24 s) pkts). lia. }
  unfold note_hit, slot_exact. rewrite (proj2 (Z.ltb_lt (cs_n s) 0xFFFF)) by done.
  case_match; cbn; (split; [done|]; split; [done|]);
    rewrite pkt_count_snoc, pkt_sum_snoc, <- Hh, Z.eqb_refl; lia.
Qed.

(** A label not heard before finds a free slot. *)
Lemma table_not_full pkts p c :
  totals pkts c -> (length (labels (pkts ++ [p])) <= WITNESS_CORE_SLOTS)%nat ->
  label p ∉ map label pkts -> Forall (fun s => cs_used s = true) (wc_slot c) -> False.
Proof.
  intros Ht Hlab Hfresh Hall.
  assert (label p :: map cs_hash24 (List.filter cs_used (wc_slot c)) ⊆+ labels (pkts ++ [p]))
    as Hsub.
  { apply NoDup_submseteq.
    - apply list.NoDup_cons. split; [by rewrite (to_labels _ _ Ht)|apply Ht].
    - intros h Hin. unfold labels. apply elem_of_remove_dups. rewrite map_app, elem_of_app.
      apply elem_of_cons in Hin as [->|Hin]; [right; by left|].
      left. by apply (to_labels _ _ Ht). }
  apply submseteq_length in Hsub. cbn [length] in Hsub. rewrite length_map in Hsub.
  rewrite filter_length_all in Hsub by done. rewrite (to_len _ _ Ht) in Hsub. lia.
Qed.

Lemma list_alter_at {A} (f : A -> A) (l : list A) (i : nat) x : l !! i = Some x -> alter f i l = <[i := f x]> l.
Proof.
  intros Hi. apply list_eq. intros j. destruct (decide (i = j)) as [<-|Hne].
  - rewrite list_lookup_alter_eq, Hi, list_lookup_insert_eq; [done|by eapply lookup_lt_Some].
  - by rewrite list_lookup_alter_ne, list_lookup_insert_ne.
Qed.

Lemma totals_note pkts p c :
  totals pkts c -> Z.of_nat (length pkts) < 65535 ->
  (length (labels (pkts ++ [p])) <= WITNESS_CORE_SLOTS)%nat ->
  totals (pkts ++ [p]) (witness_core_note c p.1 p.2).
Proof.
  intros Ht Hlen Hlab. unfold witness_core_note. rewrite (to_open _ _ Ht). cbn [negb].
  fold (label p).
  match goal with |- context [note_scan _ (wc_slot ?x)] => set (c1 := x) end.
  assert (wc_slot c1 = wc_slot c /\ wc_open c1 = true) as [Hc1 Ho1].
  { unfold c1. case_match; (split; [done|apply (to_open _ _ Ht)]). }
  rewrite Hc1. pose proof (note_scan_spec (label p) (wc_slot c) 0 None None) as Hscan.
  destruct (note_scan _ _ _ _ _) as [i|ff wk].
  - destruct Hscan as (_ & s & Hi & Hu & Hh). rewrite Nat.sub_0_r in Hi.
    assert (slot_exact pkts s) as Hs.
    { pose proof (to_exact _ _ Ht) as Hex. rewrite List.Forall_forall in Hex.
      apply Hex, filter_In. split; [|done]. by apply list_elem_of_In, list_elem_of_lookup_2 with i. }
    destruct (note_hit_exact pkts p s Hs Hh Hlen) as (Hu' & Hh' & Hs').
    apply (totals_file pkts p c _ i s (note_hit p.2 s));
      [done|done|by left|by rewrite Hu'|done|done|done|by apply list_alter_at].
  - destruct Hscan as [Hnone Hff].
    assert (label p ∉ map label pkts) as Hfresh.
    { rewrite <- (to_labels _ _ Ht). intros Hin.
      apply list_elem_of_In, in_map_iff in Hin as (s & Hh & Hin). apply filter_In in Hin as [Hin Hu].
      rewrite List.Forall_forall in Hnone. by apply (Hnone s Hin Hu). }
    destruct ff as [i|]; [|destruct (table_not_full pkts p c Ht Hlab Hfresh (proj2 Hff))].
    destruct Hff as [|(_ & s & Hi & Hu)]; [done|]. rewrite Nat.sub_0_r in Hi.
    apply (totals_file pkts p c _ i s (mk_slot (label p) p.2 1 p.2 true));
      [done|done|by right|done|done| |done|done].
    unfold slot_exact. cbn. rewrite pkt_count_snoc, pkt_sum_snoc, Z.eqb_refl.
    unfold pkt_count, pkt_sum. rewrite pkt_count_absent by done. cbn. lia.
Qed.

Definition run_window (pkts : list (Z * Z)) : witness_core :=
  fold_left (fun c p => witness_core_note c p.1 p.2) pkts witness_core_open.

Lemma labels_prefix pkts p : (length (labels pkts) <= length (labels (pkts ++ [p])))%nat.
Proof.
  apply submseteq_length, NoDup_submseteq; unfold labels; [apply NoDup_remove_dups|].
  intros h. rewrite !elem_of_remove_dups, map_app, elem_of_app. by left.
Qed.

Lemma window_totals pkts :
  Z.of_nat (length pkts) <= 65535 -> (length (labels pkts) <= WITNESS_CORE_SLOTS)%nat ->
  totals pkts (run_window pkts).
Proof.
  induction pkts as [|p pkts IH] using rev_ind; intros Hlen Hlab.
  { split; [done|done|constructor|done|constructor]. }
  rewrite length_app in Hlen. cbn [length] in Hlen. pose proof (labels_prefix pkts p).
  unfold run_window. rewrite fold_left_app. cbn [fold_left].
  apply totals_note; [apply IH; lia|lia|done].
Qed.

(** ** The report of a window *)

Lemma pkt_sum_range pkts h :
  Forall (fun p => in_i 8 p.2) pkts ->
  -128 * pkt_count pkts h <= pkt_sum pkts h <= 127 * pkt_count pkts h.
Proof.
  induction pkts as [|p pkts IH] using rev_ind; intros Hp; [done|].
  apply Forall_app in Hp as [Hp Hq]. apply Forall_cons_iff in Hq as [Hq _].
  rewrite pkt_count_snoc, pkt_sum_snoc. specialize (IH Hp). unfold in_i in Hq.
  destruct (label p =? h); lia.
Qed.

(** The tuple a label deserves: its mean, and its packet count up to 255. *)
Definition report_tuple (pkts : list (Z * Z)) (h : Z) : witness_tuple :=
  mk_tuple h (pkt_mean pkts h) (Z.min 255 (pkt_count pkts h)).

Lemma slot_tuple_exact pkts s :
  Forall (fun p => in_i 8 p.2) pkts -> slot_exact pkts s -> 0 < cs_n s ->
  slot_mean s = pkt_mean pkts (cs_hash24 s) /\ slot_tuple s = report_tuple pkts (cs_hash24 s).
Proof.
  intros Hp [Hn Hs] H0. unfold slot_tuple, report_tuple, slot_mean, pkt_mean.
  rewrite (proj2 (Z.eqb_neq _ _)) by lia. rewrite <- Hn, <- Hs. split; [done|].
  pose proof (pkt_sum_range pkts (cs_hash24 s) Hp) as Hr. rewrite <- Hn, <- Hs in Hr.
  pose proof (Z.quot_le_mono (-128 * cs_n s) (cs_rssi_sum s) (cs_n s) ltac:(lia) ltac:(lia)) as Hlo.
  pose proof (Z.quot_le_mono (cs_rssi_sum s) (127 * cs_n s) (cs_n s) ltac:(lia) ltac:(lia)) as Hhi.
  rewrite Z.quot_mul in Hlo, Hhi by lia. rewrite (swrap_id 8) by (try unfold in_i; lia).
  f_equal. destruct (Z.ltb_spec 255 (cs_n s)); [lia|]. rewrite wrap_id by (unfold in_u; lia). lia.
Qed.

Definition heard (min_pkts : Z) (pkts : list (Z * Z)) : list Z :=
  List.filter (fun h => min_pkts <=? pkt_count pkts h) (labels pkts).

Lemma heard_slots min_pkts pkts c :
  totals pkts c -> heard min_pkts pkts ≡ₚ
    map cs_hash24 (List.filter (eligible min_pkts) (wc_slot c)).
Proof.
  intros Ht. assert (List.filter (eligible min_pkts) (wc_slot c) =
    List.filter (fun s => negb (cs_n s <? min_pkts)) (List.filter cs_used (wc_slot c))) as ->.
  { induction (wc_slot c) as [|s l IH]; [done|]. cbn. unfold eligible at 1.
    destruct (cs_used s); cbn; [destruct (cs_n s <? min_pkts); cbn; by rewrite IH|done]. }
  pose proof (to_exact _ _ Ht) as Hex. pose proof (to_nodup _ _ Ht) as Hnd.
  pose proof (to_labels _ _ Ht) as Hlab. revert Hex Hnd Hlab.
  generalize (List.filter cs_used (wc_slot c)) as us. intros us Hex Hnd Hlab.
  assert (labels pkts ≡ₚ map cs_hash24 us) as Hp.
  { apply NoDup_Permutation; [apply NoDup_remove_dups|done|]. intros h.
    unfold labels. by rewrite elem_of_remove_dups, Hlab. }
  unfold heard. rewrite (filter_perm _ _ _ Hp). clear Hp Hnd Hlab.
  induction Hex as [|s us [Hn _] _ IH]; [done|]. cbn. rewrite <- Hn.
  rewrite Z.leb_antisym. destruct (negb (cs_n s <? min_pkts)); cbn; by rewrite IH.
Qed.

(** The report of a window is the loudest of what was heard.  For any
    packets of at most sixteen advertisers, the report lists the advertisers
    with at least min_pkts packets, loudest first, all of them or the eight
    loudest; each tuple is the label with the exact mean of all its packets
    and their number up to 255, and nothing left out is louder than anything
    reported. *)
Theorem window_report_loudest (pkts : list (Z * Z)) (min_pkts : Z) (msg : witness_msg) :
  Forall (fun p => in_i 8 p.2) pkts -> Z.of_nat (length pkts) <= 65535 ->
  (length (labels pkts) <= WITNESS_CORE_SLOTS)%nat ->
  let '(_, msg', n) := witness_core_summarize (run_window pkts) msg min_pkts in
  exists chosen rest,
    heard min_pkts pkts ≡ₚ chosen ++ rest /\
    length chosen = Nat.min MAX_TUPLES (length (heard min_pkts pkts)) /\
    n = Z.of_nat (length chosen) /\ wm_n_tuples msg' = n /\
    wm_tuples msg' = map (report_tuple pkts) chosen
                       ++ replicate (MAX_TUPLES - length chosen) tuple0 /\
    StronglySorted (fun a b => pkt_mean pkts b <= pkt_mean pkts a) chosen /\
    (forall a b, a ∈ chosen -> b ∈ rest -> pkt_mean pkts b <= pkt_mean pkts a).
Proof.
  intros Hr8 Hlen Hlab. pose proof (window_totals pkts Hlen Hlab) as Ht.
  unfold witness_core_summarize.
  destruct (summarize_loop MAX_TUPLES min_pkts (wc_slot (run_window pkts))) as [slots out] eqn:Hs.
  destruct (summarize_loop_spec _ _ _ _ _ Hs) as (chosen & -> & Hperm & Hcl & Hsort & Hrest).
  pose proof (heard_slots min_pkts pkts _ Ht) as Hh.
  set (left_over := List.filter (eligible min_pkts) slots) in *.
  assert (forall s, s ∈ chosen ++ left_over -> slot_mean s = pkt_mean pkts (cs_hash24 s) /\
            slot_tuple s = report_tuple pkts (cs_hash24 s)) as Hmean.
  { intros s Hin. rewrite <- Hperm in Hin.
    apply list_elem_of_In, filter_In in Hin as [Hin He].
    apply andb_true_iff in He as [Hu _].
    pose proof (to_exact _ _ Ht) as Hex. rewrite List.Forall_forall in Hex.
    assert (List.In s (List.filter cs_used (wc_slot (run_window pkts)))) as Hsu
      by (by apply filter_In).
    apply slot_tuple_exact; [done|by apply Hex|]. destruct (Hex s Hsu) as [Hn _]. rewrite Hn.
    assert (cs_hash24 s ∈ map label pkts) as Hl
      by (apply (to_labels _ _ Ht), list_elem_of_In, in_map, Hsu).
    apply list_elem_of_In, in_map_iff in Hl as (p & Hp & Hin2).
    unfold pkt_count, pkts_of. assert (List.In p (List.filter (fun p => label p =? cs_hash24 s) pkts))
      as Hpf by (apply filter_In; split; [done|by apply Z.eqb_eq]).
    destruct (List.filter _ pkts); [done|cbn; lia]. }
  exists (map cs_hash24 chosen), (map cs_hash24 left_over).
  rewrite <- map_app, Hh, !length_map, Hperm. rewrite map_map.
  split; [done|]. split; [rewrite <- Hperm; done|]. split; [done|]. split; [done|]. split; [|split].
  - cbn. f_equal. apply map_ext_in. intros s Hin.
    apply Hmean, elem_of_app. left. by apply list_elem_of_In.
  - clear Hperm Hcl Hs Hrest. induction Hsort as [|s l Hsort IH Hall]; cbn; constructor.
    + apply IH. intros x Hx. apply Hmean. by right.
    + apply List.Forall_forall. intros h Hin. apply in_map_iff in Hin as (x & <- & Hin).
      rewrite List.Forall_forall in Hall. specialize (Hall x Hin). unfold louder in Hall.
      destruct (Hmean s ltac:(by left)) as [<- _].
      destruct (Hmean x) as [<- _]; [|done]. right. apply elem_of_app. left. by apply list_elem_of_In.
  - intros a b Ha Hb. apply list_elem_of_In, in_map_iff in Ha as (x & <- & Hx).
    apply list_elem_of_In, in_map_iff in Hb as (y & <- & Hy).
    apply list_elem_of_In in Hx, Hy. specialize (Hrest x y Hx Hy). unfold louder in Hrest.
    destruct (Hmean x) as [<- _]; [apply elem_of_app; by left|].
    destruct (Hmean y) as [<- _]; [apply elem_of_app; by right|]. done.
Qed.

(** Three advertisers, one of them heard once: the report has the other two,
    the louder first. *)
Lemma window_report_loudest_witness :
  let pkts := [(0x111111, -80); (0x222222, -60); (0x111111, -75); (0x333333, -40);
               (0xff222222, -63)] in
  let '(_, msg', n) := witness_core_summarize (run_window pkts) sample_report 2 in
  wm_tuples msg' = [mk_tuple 0x222222 (-61) 2; mk_tuple 0x111111 (-77) 2] ++ replicate 6 tuple0 /\
  exists chosen rest, heard 2 pkts ≡ₚ chosen ++ rest /\ n = Z.of_nat (length chosen).
Proof.
  cbv zeta.
  match goal with |- context [run_window ?l] => set (pkts := l) end.
  pose proof (window_report_loudest pkts 2 sample_report) as H.
  destruct (witness_core_summarize (run_window pkts) sample_report 2) as [[c msg'] n] eqn:Hs.
  split.
  - vm_compute in Hs. injection Hs as _ <- _. reflexivity.
  - destruct H as (chosen & rest & Hp & _ & Hn & _);
      [repeat constructor; discriminate|vm_compute; discriminate|vm_compute; lia|].
    exists chosen, rest. split; assumption.
Defined.
