(* ===== verification/WitnessPick.v ===== *)
(** * Which advertiser is the phone

    Models [modules/ultrawidelock_anchor/src/ultrawidelock_witness_pick.c]: the
    lock scores every label the outside witness reports on whether its level
    rises while the authenticated range falls, and picks the one label that
    stands clear of the others.  A pointer into the candidate table is an
    index. *)

From Stdlib Require Import ZArith Lia Bool.
From stdpp Require Import base list numbers.
From S2P Require Import Prelude WitnessMsg.

Local Open Scope Z_scope.

Definition SCORE_MIN : Z := -32.
Definition SCORE_MAX : Z := 32.
Definition PICK_MAX : nat := 24.

(** [struct ultrawidelock_witness_pick_cfg]. *)
Record pick_cfg := mk_pick_cfg {
  pc_min_score : Z; pc_min_windows : Z; pc_min_margin : Z;
  pc_rssi_eps_db : Z; pc_range_eps_mm : Z; pc_cluster_db : Z
}.

(** [struct ultrawidelock_witness_pick_cand]. *)
Record pick_cand := mk_cand {
  cd_hash24 : Z; cd_last_dbm : Z; cd_last_range_mm : Z; cd_score : Z; cd_windows : Z;
  cd_used : bool; cd_have_prev : bool
}.

#[export] Instance pick_cand_eta : Eta pick_cand := fun c =>
  mk_cand (cd_hash24 c) (cd_last_dbm c) (cd_last_range_mm c) (cd_score c) (cd_windows c)
    (cd_used c) (cd_have_prev c).

Definition cand0 : pick_cand := mk_cand 0 0 0 0 0 false false.

(** [struct ultrawidelock_witness_pick]. *)
Record witness_pick := mk_pick {
  pk_cfg : pick_cfg; pk_cand : list pick_cand; pk_evictions : Z
}.

#[export] Instance witness_pick_eta : Eta witness_pick := fun p =>
  mk_pick (pk_cfg p) (pk_cand p) (pk_evictions p).

(** [struct ultrawidelock_witness_pick_stats]. *)
Record pick_stats := mk_stats {
  st_best_hash24 : Z; st_evictions : Z; st_best_score : Z; st_runner_score : Z;
  st_runner_gap_db : Z; st_best_windows : Z; st_n_cand : Z; st_have : bool
}.

Definition witness_pick_defaults : pick_cfg := mk_pick_cfg 3 3 2 3 300 6.

Definition witness_pick_init (cfg : option pick_cfg) : witness_pick :=
  mk_pick (default witness_pick_defaults cfg) (replicate PICK_MAX cand0) 0.

Definition witness_pick_reset (p : witness_pick) : witness_pick :=
  p <| pk_cand := replicate PICK_MAX cand0 |> <| pk_evictions := 0 |>.

(** ** Candidates *)

Definition carries (hash24 : Z) (c : pick_cand) : Prop := cd_used c = true /\ cd_hash24 c = hash24.

#[export] Instance carries_dec h c : Decision (carries h c).
Proof. unfold carries. apply _. Defined.

Definition cand_find (cands : list pick_cand) (hash24 : Z) : option (nat * pick_cand) :=
  list_find (carries hash24) cands.

(** The slot to reuse: the first free one, else the lowest score and on a tie
    the most windows. *)
Fixpoint cand_victim (cands : list pick_cand) (i : nat) (victim : option (nat * pick_cand))
  : option (nat * pick_cand) :=
  match cands with
  | [] => victim
  | c :: rest =>
      if negb (cd_used c) then Some (i, c)
      else cand_victim rest (S i)
             (match victim with
              | None => Some (i, c)
              | Some (_, v) =>
                  if (cd_score c <? cd_score v) ||
                     ((cd_score c =? cd_score v) && (cd_windows v <? cd_windows c))
                  then Some (i, c) else victim
              end)
  end.

Definition cand_get (p : witness_pick) (hash24 : Z) : witness_pick * option nat :=
  match cand_find (pk_cand p) hash24 with
  | Some (i, _) => (p, Some i)
  | None =>
      match cand_victim (pk_cand p) 0 None with
      | None => (p, None)
      | Some (i, v) =>
          let p := if cd_used v then p <| pk_evictions := u32 (pk_evictions p + 1) |> else p in
          (p <| pk_cand := <[i := cand0 <| cd_used := true |> <| cd_hash24 := hash24 |>]>
                             (pk_cand p) |>, Some i)
      end
  end.

(** One observation of a candidate: counted always, scored when both the level
    and the range moved by more than their noise. *)
Definition moved (d eps : Z) : bool := if d <? 0 then negb (- d <? eps) else negb (d <? eps).

Definition score_window (cfg : pick_cfg) (mean_dbm range_mm : Z) (c : pick_cand) : pick_cand :=
  let c := if cd_windows c <? 0xFF then c <| cd_windows := cd_windows c + 1 |> else c in
  if negb (cd_have_prev c) then
    c <| cd_have_prev := true |> <| cd_last_dbm := mean_dbm |> <| cd_last_range_mm := range_mm |>
  else
    let d_rssi := mean_dbm - cd_last_dbm c in
    let d_range := range_mm - cd_last_range_mm c in
    let c := c <| cd_last_dbm := mean_dbm |> <| cd_last_range_mm := range_mm |> in
    if negb (moved d_rssi (pc_rssi_eps_db cfg)) then c
    else if negb (moved d_range (pc_range_eps_mm cfg)) then c
    else if ((0 <? d_rssi) && (d_range <? 0)) || ((d_rssi <? 0) && (0 <? d_range)) then
      if cd_score c <? SCORE_MAX then c <| cd_score := cd_score c + 1 |> else c
    else c <| cd_score := if cd_score c - 2 <? SCORE_MIN then SCORE_MIN
                          else i8 (cd_score c - 2) |>.

Definition feed_tuple (range_mm : Z) (p : witness_pick) (t : witness_tuple) : witness_pick :=
  let '(p, i) := cand_get p (wt_hash24 t) in
  match i with
  | None => p
  | Some i =>
      p <| pk_cand := alter (score_window (pk_cfg p) (wt_mean_dbm t) range_mm) i (pk_cand p) |>
  end.

(** The tuples [witness_msg_at] gives for the indices 0 to 7, in order. *)
Definition msg_tuples (msg : witness_msg) : list witness_tuple :=
  omap (fun i => witness_msg_at msg (Z.of_nat i)) (seq 0 (Z.to_nat WITNESS_MSG_MAX_TUPLES)).

Definition witness_pick_feed (p : witness_pick) (msg : witness_msg) (range_mm : Z)
  : witness_pick :=
  if range_mm <? 0 then p
  else if negb (wm_role msg =? ROLE_OUTSIDE) then p
  else fold_left (feed_tuple range_mm) (msg_tuples msg) p.

(** ** The pick *)

Fixpoint best_cand (cands : list pick_cand) (i : nat) (best : option (nat * pick_cand))
  : option (nat * pick_cand) :=
  match cands with
  | [] => best
  | c :: rest =>
      best_cand rest (S i)
        (if negb (cd_used c) then best
         else match best with
              | None => Some (i, c)
              | Some (_, b) => if cd_score b <? cd_score c then Some (i, c) else best
              end)
  end.

(** The best rival of [best], which sits at index [bi]: its score and gap. *)
Fixpoint runner_up (cfg : pick_cfg) (bi : nat) (best : pick_cand) (cands : list pick_cand)
    (i : nat) (runner gap : Z) : Z * Z :=
  match cands with
  | [] => (runner, gap)
  | c :: rest =>
      let '(runner, gap) :=
        if negb (cd_used c) || Nat.eqb i bi then (runner, gap)
        else
          let d := cd_last_dbm c - cd_last_dbm best in
          let d := if d <? 0 then - d else d in
          if (pc_min_score cfg <=? cd_score c) && (d <=? pc_cluster_db cfg) then (runner, gap)
          else if runner <? cd_score c then (cd_score c, i16 d)
          else (runner, gap) in
      runner_up cfg bi best rest (S i) runner gap
  end.

Definition witness_pick_stats (p : witness_pick) : pick_stats :=
  let n := u8 (Z.of_nat (length (List.filter cd_used (pk_cand p)))) in
  match best_cand (pk_cand p) 0 None with
  | None => mk_stats 0 (pk_evictions p) 0 SCORE_MIN 0 0 n false
  | Some (bi, best) =>
      let '(runner, gap) := runner_up (pk_cfg p) bi best (pk_cand p) 0 SCORE_MIN 0 in
      mk_stats (cd_hash24 best) (pk_evictions p) (cd_score best) (i8 runner) gap
        (cd_windows best) n true
  end.

Definition witness_pick_best (p : witness_pick) : option Z :=
  let st := witness_pick_stats p in
  if negb (st_have st) then None
  else if (st_best_score st <? pc_min_score (pk_cfg p)) ||
          (st_best_windows st <? pc_min_windows (pk_cfg p)) then None
  else if st_best_score st - st_runner_score st <? pc_min_margin (pk_cfg p) then None
  else Some (st_best_hash24 st).

Definition witness_pick_retire (p : witness_pick) (hash24 : Z) : witness_pick :=
  match cand_find (pk_cand p) hash24 with
  | Some (i, _) => p <| pk_cand := <[i := cand0]> (pk_cand p) |>
  | None => p
  end.

(** The closest newborn label of the report, with its distance in level. *)
Fixpoint successor (cfg : pick_cfg) (cands : list pick_cand) (old_hash24 old_dbm : Z)
    (ts : list witness_tuple) (succ : option (nat * Z)) : option (nat * Z) :=
  match ts with
  | [] => succ
  | t :: rest =>
      successor cfg cands old_hash24 old_dbm rest
        (if wt_hash24 t =? old_hash24 then succ
         else match cand_find cands (wt_hash24 t) with
              | None => succ
              | Some (j, c) =>
                  if 6 <? cd_windows c then succ
                  else
                    let d := wt_mean_dbm t - old_dbm in
                    let d := if d <? 0 then - d else d in
                    if pc_cluster_db cfg <? d then succ
                    else match succ with
                         | None => Some (j, d)
                         | Some (_, sd) => if d <? sd then Some (j, d) else succ
                         end
              end)
  end.

Definition witness_pick_succeed (p : witness_pick) (old_hash24 : Z) (msg : witness_msg)
  : witness_pick * Z :=
  match cand_find (pk_cand p) old_hash24 with
  | None => (p, 0)
  | Some (i, old) =>
      match successor (pk_cfg p) (pk_cand p) old_hash24 (cd_last_dbm old) (msg_tuples msg) None with
      | None => (p, 0)
      | Some (j, _) =>
          let cands := alter (fun c => c <| cd_score := cd_score old |>
                                         <| cd_windows := cd_windows old |>) j (pk_cand p) in
          (p <| pk_cand := <[i := cand0]> cands |>, cd_hash24 (nth j (pk_cand p) cand0))
      end
  end.

(** * A picked label moved with the phone and stands alone

    The scans behind the pick, and the invariant that ties every score to the
    sightings of its label over runs of feeds, retirements and resets. *)

Local Open Scope Z_scope.

(** ** The scans *)

Lemma best_cand_spec cands i best :
  match best_cand cands i best with
  | None => best = None /\ Forall (fun c => cd_used c = false) cands
  | Some (j, b) =>
      (best = Some (j, b) \/ (i <= j)%nat /\ cands !! (j - i)%nat = Some b /\ cd_used b = true) /\
      Forall (fun c => cd_used c = true -> cd_score c <= cd_score b) cands /\
      (forall k b0, best = Some (k, b0) -> cd_score b0 <= cd_score b)
  end.
Proof.
  revert i best. induction cands as [|c rest IH]; intros i best; cbn [best_cand].
  { destruct best as [[j b]|]; [|split; [done|constructor]].
    split; [by left|]. split; [constructor|]. by intros ? ? [= -> ->]. }
  match goal with |- context [best_cand rest (S i) ?b] => set (best' := b) end.
  assert (cd_used c = true -> exists k b0, best' = Some (k, b0) /\ cd_score c <= cd_score b0) as Hc.
  { intros Hu. unfold best'. rewrite Hu. cbn [negb]. destruct best as [[k b0]|]; [|eauto with lia].
    destruct (Z.ltb_spec (cd_score b0) (cd_score c)); eauto with lia. }
  assert (forall k b0, best = Some (k, b0) ->
            exists k' b1, best' = Some (k', b1) /\ cd_score b0 <= cd_score b1) as Hb.
  { intros k b0 ->. unfold best'. destruct (cd_used c); cbn [negb]; [|eauto with lia].
    destruct (Z.ltb_spec (cd_score b0) (cd_score c)); eauto with lia. }
  assert (forall x, best' = Some x -> best = Some x \/ x = (i, c) /\ cd_used c = true) as Hx.
  { intros x. unfold best'. destruct (cd_used c); cbn [negb]; [|by left].
    destruct best as [[k b0]|]; [destruct (_ <? _)|]; intros [= <-]; auto. }
  specialize (IH (S i) best'). destruct (best_cand rest (S i) best') as [[j b]|].
  - destruct IH as (Hfrom & Hall & Hmax). split; [|split; [constructor; [|done]|]].
    + destruct Hfrom as [Hf|(Hij & Hl & Hu)].
      * destruct (Hx _ Hf) as [?|[[= -> ->] Hu]]; [by left|]. right.
        split; [lia|]. by rewrite Nat.sub_diag.
      * right. split; [lia|]. by replace (j - i)%nat with (S (j - S i)) by lia.
    + intros Hu. destruct (Hc Hu) as (k & b0 & Hk & Hle). specialize (Hmax k b0 Hk). lia.
    + intros k b0 Hk. destruct (Hb k b0 Hk) as (k' & b1 & Hk' & Hle).
      specialize (Hmax k' b1 Hk'). lia.
  - destruct IH as [Hn Hall]. destruct (cd_used c) eqn:Hu.
    { destruct (Hc eq_refl) as (? & ? & ? & _). congruence. }
    split; [|by constructor]. destruct best as [[k b0]|]; [|done].
    destruct (Hb k b0 eq_refl) as (? & ? & ? & _). congruence.
Qed.

(** A rival: a used candidate other than the best one that is not another
    advertising set of the same emitter. *)
Definition same_emitter (cfg : pick_cfg) (best c : pick_cand) : Prop :=
  pc_min_score cfg <= cd_score c /\ Z.abs (cd_last_dbm c - cd_last_dbm best) <= pc_cluster_db cfg.

Lemma runner_up_spec cfg bi best cands i runner gap :
  let r := (runner_up cfg bi best cands i runner gap).1 in
  runner <= r /\ (r = runner \/ exists c, c ∈ cands /\ cd_used c = true /\ r = cd_score c) /\
  (forall j c, cands !! j = Some c -> cd_used c = true -> (i + j)%nat <> bi ->
     same_emitter cfg best c \/ cd_score c <= r).
Proof.
  cbv zeta. revert i runner gap. induction cands as [|c rest IH]; intros i runner gap.
  { cbn. split; [lia|]. split; [by left|]. done. }
  cbn [runner_up].
  match goal with |- context [let '(_, _) := ?x in _] => destruct x as [r1 g1] eqn:Hstep end.
  destruct (IH (S i) r1 g1) as (Hle & Hfrom & Hall).
  set (r := (runner_up cfg bi best rest (S i) r1 g1).1) in *.
  assert (runner <= r1 /\ (r1 = runner \/ cd_used c = true /\ r1 = cd_score c) /\
          (cd_used c = true -> i <> bi -> same_emitter cfg best c \/ cd_score c <= r1)) as (H1 & H2 & H3).
  { revert Hstep. cbv zeta. destruct (cd_used c); cbn [negb orb];
      [|intros [= <- <-]; split; [lia|]; split; [by left|done]].
    destruct (Nat.eqb_spec i bi); [intros [= <- <-]; split; [lia|]; split; [by left|done]|].
    set (d := cd_last_dbm c - cd_last_dbm best).
    assert ((if d <? 0 then - d else d) = Z.abs d) as -> by (destruct (Z.ltb_spec d 0); lia).
    destruct (Z.leb_spec (pc_min_score cfg) (cd_score c)),
      (Z.leb_spec (Z.abs d) (pc_cluster_db cfg)); cbn [andb];
      [intros [= <- <-]; split; [lia|]; split; [by left|]; intros; by left|..];
      destruct (Z.ltb_spec runner (cd_score c)); intros [= <- <-];
      (split; [lia|]; split; [auto|intros; right; lia]). }
  split; [lia|]. split.
  - destruct Hfrom as [->|(x & Hx & ? & ?)]; [|right; exists x; split; [by right|done]].
    destruct H2 as [->|[Hu ->]]; [by left|]. right. exists c. split; [by left|done].
  - intros [|j] c' Hj Hu Hne; cbn in Hj.
    + injection Hj as <-. rewrite Nat.add_0_r in Hne. destruct (H3 Hu Hne); [by left|right; lia].
    + apply (Hall j); [done|done|]. lia.
Qed.

(** Scores stay within their clamp. *)
Definition scores_ok (p : witness_pick) : Prop :=
  Forall (fun c => SCORE_MIN <= cd_score c <= SCORE_MAX) (pk_cand p).

Lemma pick_best_spec p h :
  scores_ok p -> witness_pick_best p = Some h ->
  exists i best, pk_cand p !! i = Some best /\ cd_used best = true /\ cd_hash24 best = h /\
    pc_min_score (pk_cfg p) <= cd_score best /\ pc_min_windows (pk_cfg p) <= cd_windows best /\
    forall j c, j <> i -> pk_cand p !! j = Some c -> cd_used c = true ->
      same_emitter (pk_cfg p) best c \/ cd_score c + pc_min_margin (pk_cfg p) <= cd_score best.
Proof.
  intros Hok. unfold witness_pick_best, witness_pick_stats. cbv zeta.
  pose proof (best_cand_spec (pk_cand p) 0 None) as Hb.
  destruct (best_cand (pk_cand p) 0 None) as [[i b]|]; [|done].
  destruct Hb as ([?|(_ & Hi & Hu)] & _ & _); [done|]. rewrite Nat.sub_0_r in Hi.
  pose proof (runner_up_spec (pk_cfg p) i b (pk_cand p) 0 SCORE_MIN 0) as Hr.
  destruct (runner_up _ _ _ _ _ _ _) as [r g]. cbn [fst] in Hr. destruct Hr as (Hle & Hfrom & Hall).
  cbn [st_have st_best_score st_best_windows st_runner_score st_best_hash24 negb].
  destruct (Z.ltb_spec (cd_score b) (pc_min_score (pk_cfg p))); [done|].
  destruct (Z.ltb_spec (cd_windows b) (pc_min_windows (pk_cfg p))); [done|]. cbn [orb].
  assert (i8 r = r) as ->.
  { apply swrap_id; [lia|]. unfold in_i, SCORE_MIN in *. destruct Hfrom as [->|(c & Hc & _ & ->)]; [lia|].
    unfold scores_ok in Hok. rewrite List.Forall_forall in Hok.
    apply list_elem_of_In in Hc. specialize (Hok _ Hc). unfold SCORE_MIN, SCORE_MAX in Hok. lia. }
  destruct (Z.ltb_spec (cd_score b - r) (pc_min_margin (pk_cfg p))); [done|]. intros [= <-].
  exists i, b. repeat (split; [done|]). intros j c Hj Hc Huc.
  destruct (Hall j c Hc Huc) as [|]; [lia|by left|right; lia].
Qed.

(** ** Evidence

    What a label was seen doing: its level and the range, report by report. *)

Definition agrees (cfg : pick_cfg) (a b : Z * Z) : bool :=
  let d_rssi := b.1 - a.1 in
  let d_range := b.2 - a.2 in
  moved d_rssi (pc_rssi_eps_db cfg) && moved d_range (pc_range_eps_mm cfg) &&
  (((0 <? d_rssi) && (d_range <? 0)) || ((d_rssi <? 0) && (0 <? d_range))).

(** Consecutive sightings between which the level moved against the range. *)
Fixpoint agreements (cfg : pick_cfg) (seen : list (Z * Z)) : Z :=
  match seen with
  | a :: (b :: _) as rest => (if agrees cfg a b then 1 else 0) + agreements cfg rest
  | _ => 0
  end.

Lemma agreements_snoc cfg l a b :
  list.last l = Some a ->
  agreements cfg (l ++ [b]) = agreements cfg l + (if agrees cfg a b then 1 else 0).
Proof.
  induction l as [|x [|y l] IH]; [done| |].
  - intros [= ->]. cbn. lia.
  - intros Hl. change ((x :: y :: l) ++ [b]) with (x :: y :: (l ++ [b])).
    change (agreements cfg (x :: y :: l ++ [b]))
      with ((if agrees cfg x y then 1 else 0) + agreements cfg ((y :: l) ++ [b])).
    rewrite IH by done. cbn [agreements]. lia.
Qed.

Lemma agreements_nonneg cfg l : 0 <= agreements cfg l.
Proof.
  induction l as [|x [|y l] IH]; [done|done|].
  change (agreements cfg (x :: y :: l))
    with ((if agrees cfg x y then 1 else 0) + agreements cfg (y :: l)).
  destruct (agrees cfg x y); lia.
Qed.

Lemma score_window_spec cfg m r c :
  let c' := score_window cfg m r c in
  SCORE_MIN <= cd_score c <= SCORE_MAX ->
  cd_used c' = cd_used c /\ cd_hash24 c' = cd_hash24 c /\ cd_have_prev c' = true /\
  (cd_last_dbm c', cd_last_range_mm c') = (m, r) /\ SCORE_MIN <= cd_score c' <= SCORE_MAX /\
  cd_score c' <= cd_score c + (if cd_have_prev c && agrees cfg (cd_last_dbm c, cd_last_range_mm c)
                                 (m, r) then 1 else 0).
Proof.
  cbv zeta. intros Hs. unfold score_window.
  match goal with |- context [cd_have_prev ?x] => set (c1 := x) end.
  assert (cd_used c1 = cd_used c /\ cd_hash24 c1 = cd_hash24 c /\
    cd_have_prev c1 = cd_have_prev c /\ cd_last_dbm c1 = cd_last_dbm c /\
    cd_last_range_mm c1 = cd_last_range_mm c /\ cd_score c1 = cd_score c)
    as (Hu & Hh & Hp & Hd & Hr & Hsc) by (unfold c1; by destruct (_ <? _)).
  clearbody c1. rewrite <- Hu, <- Hh, <- Hp, <- Hd, <- Hr, <- Hsc in *.
  destruct (cd_have_prev c1) eqn:Hprev; cbn [negb andb].
  2:{ cbn. rewrite Hsc in Hs. repeat (split; [done|]). lia. }
  unfold agrees. cbn [fst snd]. set (dr := m - cd_last_dbm c1). set (dg := r - cd_last_range_mm c1).
  cbv zeta. destruct (moved dr (pc_rssi_eps_db cfg)); cbn [negb andb];
    [|cbn; repeat (split; [done|]); lia].
  destruct (moved dg (pc_range_eps_mm cfg)); cbn [negb andb]; [|cbn; repeat (split; [done|]); lia].
  destruct (_ || _); cbn.
  - destruct (Z.ltb_spec (cd_score c1) SCORE_MAX); cbn; repeat (split; [done|]); lia.
  - assert (i8 (cd_score c1 - 2) = cd_score c1 - 2) as ->
      by (apply swrap_id; [lia|]; unfold in_i, SCORE_MIN, SCORE_MAX in *; lia).
    repeat (split; [done|]). destruct (Z.ltb_spec (cd_score c1 - 2) SCORE_MIN);
      unfold SCORE_MIN, SCORE_MAX in *; lia.
Qed.

Lemma cand_victim_spec cands i victim j v :
  cand_victim cands i victim = Some (j, v) ->
  victim = Some (j, v) \/ (i <= j)%nat /\ cands !! (j - i)%nat = Some v.
Proof.
  revert i victim. induction cands as [|c rest IH]; intros i victim; cbn [cand_victim]; [by left|].
  assert ((i <= i)%nat /\ (c :: rest) !! (i - i)%nat = Some c) as Hc by (by rewrite Nat.sub_diag).
  destruct (cd_used c); cbn [negb]; [|intros [= <- <-]; auto].
  intros H. destruct (IH _ _ H) as [Hv|[Hij Hl]].
  - destruct victim as [[k w]|]; [destruct (_ || _)|]; simplify_eq; auto.
  - right. split; [lia|]. by replace (j - i)%nat with (S (j - S i)) by lia.
Qed.

(** The candidate table against what was seen of each label: a candidate
    remembers the last sighting and never scores more than the agreements. *)
Definition cand_backed (cfg : pick_cfg) (seen : Z -> list (Z * Z)) (c : pick_cand) : Prop :=
  SCORE_MIN <= cd_score c <= SCORE_MAX /\
  (cd_used c = true ->
   cd_have_prev c = true /\
   list.last (seen (cd_hash24 c)) = Some (cd_last_dbm c, cd_last_range_mm c) /\
   cd_score c <= agreements cfg (seen (cd_hash24 c))).

Record backed (p : witness_pick) (seen : Z -> list (Z * Z)) : Prop := {
  bk_cands : forall i c, pk_cand p !! i = Some c -> cand_backed (pk_cfg p) seen c;
  bk_unique : forall i j c d, pk_cand p !! i = Some c -> pk_cand p !! j = Some d ->
    cd_used c = true -> cd_used d = true -> cd_hash24 c = cd_hash24 d -> i = j
}.

Definition see (h : Z) (x : Z * Z) (seen : Z -> list (Z * Z)) : Z -> list (Z * Z) :=
  fun h' => if h' =? h then seen h' ++ [x] else seen h'.

(** Replacing the one candidate of label [h] after a sighting of it. *)
Lemma backed_replace p p' seen i c' h x :
  backed p seen -> pk_cfg p' = pk_cfg p ->
  (forall j, j <> i -> pk_cand p' !! j = pk_cand p !! j) -> pk_cand p' !! i = Some c' ->
  (forall j c, pk_cand p !! j = Some c -> carries h c -> j = i) ->
  carries h c' -> cd_have_prev c' = true -> (cd_last_dbm c', cd_last_range_mm c') = x ->
  SCORE_MIN <= cd_score c' <= SCORE_MAX ->
  cd_score c' <= agreements (pk_cfg p) (seen h ++ [x]) ->
  backed p' (see h x seen).
Proof.
  intros [Hc Hu] Hcfg Hoth Hi Honly [Hcu Hch] Hp Hx Hs Hag. split.
  - intros j c Hj. destruct (decide (j = i)) as [->|Hne].
    + rewrite Hi in Hj. injection Hj as <-. split; [done|]. intros _.
      unfold see. rewrite Hch, Z.eqb_refl, Hcfg, last_snoc, Hx. done.
    + rewrite Hoth in Hj by done. destruct (Hc _ _ Hj) as [Hs' Hb]. split; [done|].
      intros Hcu'. unfold see. destruct (Z.eqb_spec (cd_hash24 c) h) as [Heq|].
      * destruct Hne. by apply (Honly j c Hj).
      * rewrite Hcfg. by apply Hb.
  - intros j k c d Hj Hk Hcu1 Hcu2 Heq.
    destruct (decide (j = i)) as [->|Hji], (decide (k = i)) as [->|Hki]; [done|..].
    + rewrite Hi in Hj. injection Hj as <-. rewrite Hoth in Hk by done.
      symmetry. apply (Honly k d Hk). split; [done|congruence].
    + rewrite Hi in Hk. injection Hk as <-. rewrite Hoth in Hj by done.
      apply (Honly j c Hj). split; [done|congruence].
    + rewrite Hoth in Hj, Hk by done. by eapply Hu.
Qed.

Lemma feed_tuple_backed r p t seen :
  (0 < length (pk_cand p))%nat -> backed p seen ->
  backed (feed_tuple r p t) (see (wt_hash24 t) (wt_mean_dbm t, r) seen) /\
  pk_cfg (feed_tuple r p t) = pk_cfg p /\
  length (pk_cand (feed_tuple r p t)) = length (pk_cand p).
Proof.
  intros Hlen Hb. unfold feed_tuple, cand_get, cand_find.
  destruct (list_find (carries (wt_hash24 t)) (pk_cand p)) as [[i c]|] eqn:Hf.
  - apply list_find_Some in Hf as (Hi & [Hcu Hch] & _).
    destruct (bk_cands _ _ Hb _ _ Hi) as [Hs Hback].
    destruct (Hback Hcu) as (Hprev & Hlast & Hsc).
    pose proof (score_window_spec (pk_cfg p) (wt_mean_dbm t) r c Hs) as (Hu' & Hh' & Hp' & Hx & Hs' & Hle).
    split; [|split; [done|by cbn; rewrite length_alter]].
    apply (backed_replace p _ seen i (score_window (pk_cfg p) (wt_mean_dbm t) r c)); try done.
    + intros j Hj. cbn. by rewrite list_lookup_alter_ne.
    + cbn. by rewrite list_lookup_alter_eq, Hi.
    + intros j d Hj [Hdu Hdh]. eapply (bk_unique _ _ Hb); eauto. congruence.
    + split; congruence.
    + rewrite Hch in Hlast, Hsc. rewrite Hprev in Hle. cbn [andb] in Hle.
      rewrite (agreements_snoc _ _ _ _ Hlast). lia.
  - apply list_find_None in Hf.
    destruct (cand_victim (pk_cand p) 0 None) as [[i v]|] eqn:Hv.
    2:{ exfalso. destruct (pk_cand p) as [|c rest]; [cbn in Hlen; lia|]. cbn in Hv.
        destruct (cd_used c); cbn in Hv; [|done]. revert Hv. generalize 1%nat.
        clear. generalize (0%nat, c) as b. induction rest as [|d rest IH]; intros b n; [done|].
        cbn. destruct (cd_used d); cbn; [|done]. destruct b as [k w].
        destruct (_ || _); apply IH. }
    apply cand_victim_spec in Hv as [?|[_ Hi]]; [done|]. rewrite Nat.sub_0_r in Hi.
    set (fresh := cand0 <| cd_used := true |> <| cd_hash24 := wt_hash24 t |>).
    match goal with |- context [pk_cand (_ <| pk_cand := alter _ i (pk_cand ?q) |>)] => set (q1 := q) end.
    assert (pk_cfg q1 = pk_cfg p /\ pk_cand q1 = <[i := fresh]> (pk_cand p)) as [Hq1 Hq2]
      by (unfold q1; by destruct (cd_used v)).
    clearbody q1. cbn. rewrite Hq1, Hq2.
    pose proof (score_window_spec (pk_cfg p) (wt_mean_dbm t) r fresh ltac:(done))
      as (Hu' & Hh' & Hp' & Hx & Hs' & Hle).
    pose proof (lookup_lt_Some _ _ _ Hi) as Hlt.
    split; [|split; [done|by rewrite length_alter, length_insert]].
    apply (backed_replace p _ seen i (score_window (pk_cfg p) (wt_mean_dbm t) r fresh)); try done.
    + intros j Hj. cbn. by rewrite list_lookup_alter_ne, list_lookup_insert_ne.
    + cbn. by rewrite list_lookup_alter_eq, list_lookup_insert_eq.
    + intros j d Hj Hd. rewrite List.Forall_forall in Hf. exfalso. apply (Hf d); [|done].
      apply list_elem_of_In. by eapply list_elem_of_lookup_2.
    + cbn in Hle. etrans; [exact Hle|]. apply agreements_nonneg.
Qed.

(** ** Runs *)

Inductive pick_op :=
  | PFeed (msg : witness_msg) (range_mm : Z)
  | PRetire (hash24 : Z)
  | PReset.

Definition pick_step (p : witness_pick) (op : pick_op) : witness_pick :=
  match op with
  | PFeed msg r => witness_pick_feed p msg r
  | PRetire h => witness_pick_retire p h
  | PReset => witness_pick_reset p
  end.

(** What the outside witness reported of label [h] with a range in hand, since
    the label was last retired or the scoring reset. *)
Definition sighting (h : Z) (seen : list (Z * Z)) (op : pick_op) : list (Z * Z) :=
  match op with
  | PFeed msg r =>
      if (r <? 0) || negb (wm_role msg =? ROLE_OUTSIDE) then seen
      else seen ++ map (fun t => (wt_mean_dbm t, r))
                     (List.filter (fun t => wt_hash24 t =? h) (msg_tuples msg))
  | PRetire h' => if h' =? h then [] else seen
  | PReset => []
  end.

Definition sightings (ops : list pick_op) (h : Z) : list (Z * Z) :=
  fold_left (sighting h) ops [].

Lemma feed_tuples_backed r ts p seen :
  (0 < length (pk_cand p))%nat -> backed p seen ->
  let p' := fold_left (feed_tuple r) ts p in
  backed p' (fun h => seen h ++ map (fun t => (wt_mean_dbm t, r))
                                  (List.filter (fun t => wt_hash24 t =? h) ts)) /\
  pk_cfg p' = pk_cfg p /\ length (pk_cand p') = length (pk_cand p).
Proof.
  revert p seen. induction ts as [|t ts IH]; intros p seen Hlen Hb; cbn [fold_left].
  { split; [|done]. destruct Hb as [Hc Hu]. split; [|done]. intros i c Hi.
    unfold cand_backed. cbn. rewrite app_nil_r. by apply (Hc i). }
  destruct (feed_tuple_backed r p t seen Hlen Hb) as (Hb1 & Hcfg & Hl).
  destruct (IH (feed_tuple r p t) _ ltac:(lia) Hb1) as (Hb2 & Hcfg2 & Hl2).
  split; [|split; congruence]. destruct Hb2 as [Hc Hu]. split; [|done]. intros i c Hi.
  specialize (Hc i c Hi). unfold cand_backed in *.
  assert (see (wt_hash24 t) (wt_mean_dbm t, r) seen (cd_hash24 c) ++
    map (fun t0 => (wt_mean_dbm t0, r)) (List.filter (fun t0 => wt_hash24 t0 =? cd_hash24 c) ts)
    = seen (cd_hash24 c) ++ map (fun t0 => (wt_mean_dbm t0, r))
        (List.filter (fun t0 => wt_hash24 t0 =? cd_hash24 c) (t :: ts))) as He.
  { unfold see. cbn [List.filter]. rewrite (Z.eqb_sym (wt_hash24 t)).
    destruct (cd_hash24 c =? wt_hash24 t); [by rewrite <- app_assoc|done]. }
  by rewrite He in Hc.
Qed.

Lemma retire_backed p h seen :
  backed p seen ->
  backed (witness_pick_retire p h) (fun h' => if h =? h' then [] else seen h').
Proof.
  intros [Hc Hu]. unfold witness_pick_retire, cand_find.
  destruct (list_find (carries h) (pk_cand p)) as [[i old]|] eqn:Hf.
  - apply list_find_Some in Hf as (Hi & [Hou Hoh] & _).
    assert (forall j c, <[i := cand0]> (pk_cand p) !! j = Some c -> cd_used c = true ->
              j <> i /\ pk_cand p !! j = Some c) as Hlook.
    { intros j c Hj Hcu. apply list_lookup_insert_Some in Hj as [(-> & <- & _)|[Hne Hj]];
        [done|auto]. }
    split.
    + intros j c Hj. cbn in Hj. pose proof Hj as Hj0.
      assert (SCORE_MIN <= cd_score c <= SCORE_MAX) as Hs.
      { apply list_lookup_insert_Some in Hj as [(-> & <- & _)|[Hne Hj]]; [done|].
        by apply (Hc j). }
      split; [done|]. intros Hcu. destruct (Hlook _ _ Hj0 Hcu) as [Hne Hj1].
      destruct (Z.eqb_spec h (cd_hash24 c)) as [Heq|]; [|by apply (Hc j)].
      destruct Hne. eapply Hu; eauto. congruence.
    + intros j k c d Hj Hk Hcu Hdu. cbn in Hj, Hk.
      destruct (Hlook _ _ Hj Hcu) as [_ ?], (Hlook _ _ Hk Hdu) as [_ ?]. eauto.
  - apply list_find_None in Hf. split; [|done]. intros j c Hj.
    destruct (Hc _ _ Hj) as [Hs Hb]. split; [done|]. intros Hcu.
    destruct (Z.eqb_spec h (cd_hash24 c)) as [Heq|]; [|by apply Hb].
    rewrite List.Forall_forall in Hf. exfalso. apply (Hf c); [|done].
    apply list_elem_of_In. by eapply list_elem_of_lookup_2.
Qed.

Lemma blank_backed cfg n ev seen : backed (mk_pick cfg (replicate n cand0) ev) seen.
Proof.
  split; cbn; intros i; intros *; intros Hi; apply lookup_replicate in Hi as [-> _].
  - split; done.
  - done.
Qed.

Lemma run_backed cfg ops :
  let p := fold_left pick_step ops (witness_pick_init cfg) in
  backed p (sightings ops) /\ pk_cfg p = default witness_pick_defaults cfg /\
  length (pk_cand p) = PICK_MAX.
Proof.
  cbv zeta. induction ops as [|op ops IH] using rev_ind.
  { split; [apply blank_backed|done]. }
  rewrite fold_left_app. cbn [fold_left].
  set (p := fold_left pick_step ops (witness_pick_init cfg)) in *.
  destruct IH as (Hb & Hcfg & Hlen).
  assert (forall h, sightings (ops ++ [op]) h = sighting h (sightings ops h) op) as Hs
    by (intros h; unfold sightings; by rewrite fold_left_app).
  assert (forall q S1 S2, (forall h, S1 h = S2 h) -> backed q S1 -> backed q S2) as Hext.
  { intros q S1 S2 HS [Hc Hu]. split; [|done]. intros i c Hi. unfold cand_backed.
    rewrite <- HS. by apply (Hc i). }
  destruct op as [msg r|h|]; cbn [pick_step].
  - unfold witness_pick_feed.
    destruct (r <? 0) eqn:Hr; [split; [|done]; eapply Hext; [|exact Hb];
      intros h; by rewrite Hs; cbn; rewrite Hr|].
    destruct (wm_role msg =? ROLE_OUTSIDE) eqn:Ho; cbn [negb];
      [|split; [|done]; eapply Hext; [|exact Hb]; intros h; by rewrite Hs; cbn; rewrite Hr, Ho].
    destruct (feed_tuples_backed r (msg_tuples msg) p (sightings ops)) as (Hb2 & Hc2 & Hl2);
      [rewrite Hlen; unfold PICK_MAX; lia|done|].
    split; [|split; congruence]. eapply Hext; [|exact Hb2].
    intros h. rewrite Hs. cbn [sighting]. by rewrite Hr, Ho.
  - split; [|unfold witness_pick_retire; case_match; [case_match|]; cbn;
      rewrite ?length_insert; done].
    eapply Hext; [|by apply retire_backed]. intros h'. rewrite Hs. done.
  - split; [apply blank_backed|done].
Qed.

(** A pick is a trajectory, and it is alone.  In every run of reports,
    retirements and resets, a label is picked only if, since it was last
    retired or the scoring reset, the outside witness reported it with its
    level moving against the authenticated range at least min_score times; and
    every other tracked label either scores at least min_margin less or is an
    advertising set of the same emitter, as correlated and as loud. *)
Theorem pick_follows_trajectory cfg ops h :
  let p := fold_left pick_step ops (witness_pick_init cfg) in
  let c := default witness_pick_defaults cfg in
  witness_pick_best p = Some h ->
  pc_min_score c <= agreements c (sightings ops h) /\
  exists i best, pk_cand p !! i = Some best /\ cd_hash24 best = h /\
    pc_min_windows c <= cd_windows best /\
    forall j x, j <> i -> pk_cand p !! j = Some x -> cd_used x = true ->
      same_emitter c best x \/ cd_score x + pc_min_margin c <= cd_score best.
Proof.
  intros p c Hbest. destruct (run_backed cfg ops) as (Hb & Hcfg & _). fold p c in Hb, Hcfg.
  apply pick_best_spec in Hbest as (i & best & Hi & Hu & Hh & Hs & Hw & Hriv).
  2:{ apply List.Forall_forall. intros x Hx. apply list_elem_of_In, list_elem_of_lookup in Hx as [j Hj].
      apply (bk_cands _ _ Hb _ _ Hj). }
  rewrite Hcfg in *. destruct (bk_cands _ _ Hb _ _ Hi) as [_ Hback].
  destruct (Hback Hu) as (_ & _ & Hle). rewrite Hh, Hcfg in Hle. split; [lia|].
  exists i, best. done.
Qed.

(** A phone walks up while a television stays put. *)
Definition walk_report (phone tv : Z) : witness_msg :=
  mk_witness_msg 2 2 1 1 0 250 2
    ([mk_tuple 0x00beef phone 9; mk_tuple 0x00cafe tv 9] ++ replicate 6 tuple0).

Definition walk_up : list pick_op :=
  [PFeed (walk_report (-85) (-60)) 6000; PFeed (walk_report (-78) (-61)) 4800;
   PFeed (walk_report (-71) (-60)) 3500; PFeed (walk_report (-63) (-60)) 2200].

Lemma pick_follows_trajectory_witness :
  witness_pick_best (fold_left pick_step walk_up (witness_pick_init None)) = Some 0x00beef /\
  3 <= agreements witness_pick_defaults (sightings walk_up 0x00beef).
Proof.
  assert (witness_pick_best (fold_left pick_step walk_up (witness_pick_init None))
          = Some 0x00beef) as Hp by (vm_compute; reflexivity).
  split; [exact Hp|]. exact (proj1 (pick_follows_trajectory None walk_up 0x00beef Hp)).
Defined.
