(* ===== verification/MatterStatus.v ===== *)
(** * Return codes of the Matter node

    Models [modules/ultrawidelock_matter/include/matter_status.h].  A call that
    gives a value only when it succeeds returns [res]: the value, or the status
    other than [MATTER_OK] it stopped with. *)

From Stdlib Require Import ZArith.
From stdpp Require Import base tactics decidable.

Local Open Scope Z_scope.

Inductive matter_status :=
  | MATTER_END | MATTER_OK | MATTER_E_NOSPACE | MATTER_E_INVAL | MATTER_E_DEPTH
  | MATTER_E_STATE | MATTER_E_TRUNC | MATTER_E_TYPE | MATTER_E_DUP
  | MATTER_E_TIMEOUT | MATTER_E_ACCESS.

#[export] Instance matter_status_eq_dec : EqDecision matter_status.
Proof. solve_decision. Defined.

(** The integer each status is. *)
Definition status_code (s : matter_status) : Z :=
  match s with
  | MATTER_END => 1 | MATTER_OK => 0 | MATTER_E_NOSPACE => -1 | MATTER_E_INVAL => -2
  | MATTER_E_DEPTH => -3 | MATTER_E_STATE => -4 | MATTER_E_TRUNC => -5
  | MATTER_E_TYPE => -6 | MATTER_E_DUP => -7 | MATTER_E_TIMEOUT => -8
  | MATTER_E_ACCESS => -9
  end.

Lemma status_code_inj s t : status_code s = status_code t -> s = t.
Proof. by destruct s, t. Qed.

Inductive res (A : Type) :=
  | Ret (a : A)
  | Fail (s : matter_status).
Arguments Ret {A} a.
Arguments Fail {A} s.

Lemma Ret_inj {A} (a b : A) : Ret a = Ret b -> a = b.
Proof. by intros [= ->]. Qed.

Definition res_bind {A B} (m : res A) (k : A -> res B) : res B :=
  match m with Ret a => k a | Fail s => Fail s end.

Declare Scope res_scope.
Delimit Scope res_scope with res.
Notation "'let*' x ':=' m 'in' k" := (res_bind m (fun x => k))
  (at level 10, x pattern, m at level 100, k at level 200,
   format "'[' 'let*'  x  ':='  m  'in'  '//' k ']'") : res_scope.

(** [if (cond) return status;] *)
Definition guard_res (c : bool) (s : matter_status) : res unit :=
  if c then Fail s else Ret tt.

Lemma res_bind_Ret {A B} (m : res A) (k : A -> res B) b :
  res_bind m k = Ret b <-> exists a, m = Ret a /\ k a = Ret b.
Proof.
  destruct m; simpl; split.
  - eauto.
  - intros (? & [= <-] & ?). done.
  - done.
  - intros (? & ? & ?). done.
Qed.

Lemma guard_res_Ret c s u : guard_res c s = Ret u <-> c = false.
Proof. destruct c, u; simpl; split; congruence. Qed.

(** A computation that fails does so with an error. *)
Definition fails_bad {A} (m : res A) : Prop :=
  forall s, m = Fail s -> s <> MATTER_OK /\ s <> MATTER_END.

Lemma fails_bad_Ret {A} (a : A) : fails_bad (Ret a).
Proof. by intros s. Qed.

Lemma fails_bad_guard c s : s <> MATTER_OK -> s <> MATTER_END -> fails_bad (guard_res c s).
Proof. intros H1 H2 t. destruct c; [|done]. by intros [= <-]. Qed.

Lemma fails_bad_bind {A B} (m : res A) (k : A -> res B) :
  fails_bad m -> (forall a, fails_bad (k a)) -> fails_bad (res_bind m k).
Proof.
  intros Hm Hk s. destruct m as [a|t]; simpl; [apply Hk|]. intros [= <-]. by apply Hm.
Qed.
