(* ===== verification/MatterBtp.v ===== *)
(** * BLE transport: handshake, fragmenter, reassembler

    Models [modules/ultrawidelock_matter/src/matter_btp.c] and its header.  The
    reassembly area is the region [rx_buf] of [rx_cap] bytes the caller lends;
    sizes are [size_t] values, whose subtractions wrap ([usize]). *)

From Stdlib Require Import ZArith Lia Bool.
From stdpp Require Import base list numbers.
From S2P Require Import Prelude Wire MatterStatus.

Local Open Scope Z_scope.
Local Open Scope res_scope.

(** ** Constants *)

Definition BTP_FLAG_START : Z := 0x01.
Definition BTP_FLAG_CONTINUE : Z := 0x02.
Definition BTP_FLAG_END : Z := 0x04.
Definition BTP_FLAG_ACK : Z := 0x08.
Definition BTP_VERSION : Z := 4.
Definition BTP_CHECK_1 : Z := 0x65.
Definition BTP_CHECK_2 : Z := 0x6C.
Definition BTP_REQ_LEN : Z := 9.
Definition BTP_RESP_LEN : Z := 6.
Definition BTP_VERSION_SLOTS : nat := 8.
Definition BTP_MIN_FRAGMENT : Z := 20.
Definition BTP_MAX_FRAGMENT : Z := 244.
Definition ATT_OVERHEAD : Z := 3.

(** [(flags & f) != 0] *)
Definition flag_set (flags f : Z) : bool := negb (Z.land flags f =? 0).

(** ** Handshake *)

Record btp_req := { rq_versions : list Z; rq_mtu : Z; rq_window_size : Z }.

Record btp_resp := { rs_version : Z; rs_fragment_size : Z; rs_window_size : Z }.

Definition rd16 (p : list Z) (off : Z) : Z :=
  u16 (Z.lor (byte_at p off) (Z.shiftl (byte_at p (off + 1)) 8)).

Definition wr16 (v : Z) : list Z := [u8 v; u8 (Z.shiftr v 8)].

(** The version slot [i] of a request: even slots sit in the low nibble. *)
Definition req_slot (buf : list Z) (i : nat) : Z :=
  let b := byte_at buf (2 + Z.of_nat i / 2) in
  if Z.of_nat i mod 2 =? 0 then u8 (Z.land b 0x0F) else u8 (Z.land (Z.shiftr b 4) 0x0F).

Definition btp_req_decode (buf : list Z) : res btp_req :=
  let* _ := guard_res (zlen buf <? BTP_REQ_LEN) MATTER_E_TRUNC in
  let* _ := guard_res (negb (byte_at buf 0 =? BTP_CHECK_1) || negb (byte_at buf 1 =? BTP_CHECK_2))
              MATTER_E_INVAL in
  Ret {| rq_versions := map (req_slot buf) (seq 0 BTP_VERSION_SLOTS);
         rq_mtu := rd16 buf 6; rq_window_size := byte_at buf 8 |}.

(** One pass of the packing loop over the four version bytes. *)
Definition req_pack_step (versions : list Z) (packed : list Z) (i : nat) : list Z :=
  let v := u8 (Z.land (nth i versions 0) 0x0F) in
  let k := (i / 2)%nat in
  let old := nth k packed 0 in
  <[k := if (i mod 2 =? 0)%nat then Z.lor old v else u8 (Z.lor old (u8 (Z.shiftl v 4)))]> packed.

Definition req_pack (versions : list Z) : list Z :=
  fold_left (req_pack_step versions) (seq 0 BTP_VERSION_SLOTS) [0; 0; 0; 0].

Definition btp_req_encode (r : btp_req) (cap : Z) : res (list Z) :=
  let* _ := guard_res (cap <? BTP_REQ_LEN) MATTER_E_NOSPACE in
  Ret ([BTP_CHECK_1; BTP_CHECK_2] ++ req_pack (rq_versions r) ++ wr16 (rq_mtu r) ++
       [rq_window_size r]).

Definition btp_resp_decode (buf : list Z) : res btp_resp :=
  let* _ := guard_res (zlen buf <? BTP_RESP_LEN) MATTER_E_TRUNC in
  let* _ := guard_res (negb (byte_at buf 0 =? BTP_CHECK_1) || negb (byte_at buf 1 =? BTP_CHECK_2))
              MATTER_E_INVAL in
  Ret {| rs_version := byte_at buf 2; rs_fragment_size := rd16 buf 3;
         rs_window_size := byte_at buf 5 |}.

Definition btp_resp_encode (r : btp_resp) (cap : Z) : res (list Z) :=
  let* _ := guard_res (cap <? BTP_RESP_LEN) MATTER_E_NOSPACE in
  Ret ([BTP_CHECK_1; BTP_CHECK_2; rs_version r] ++ wr16 (rs_fragment_size r) ++
       [rs_window_size r]).

(** The search for V4 through the slots; a zero slot ends the list. *)
Fixpoint supports_v4 (versions : list Z) : bool :=
  match versions with
  | [] => false
  | v :: rest =>
      if v =? 0 then false else if v =? BTP_VERSION then true else supports_v4 rest
  end.

Definition btp_accept (req : btp_req) (local_att_mtu local_window : Z) : res btp_resp :=
  let* _ := guard_res (negb (supports_v4 (take BTP_VERSION_SLOTS (rq_versions req))))
              MATTER_E_TYPE in
  let fragment := BTP_MIN_FRAGMENT in
  let fragment :=
    if (ATT_OVERHEAD <? rq_mtu req) && (fragment <? u16 (rq_mtu req - ATT_OVERHEAD))
    then u16 (rq_mtu req - ATT_OVERHEAD) else fragment in
  let fragment :=
    if ATT_OVERHEAD <? local_att_mtu then
      let local := u16 (local_att_mtu - ATT_OVERHEAD) in
      if local <? fragment then local else fragment
    else fragment in
  let fragment := if BTP_MAX_FRAGMENT <? fragment then BTP_MAX_FRAGMENT else fragment in
  let fragment := if fragment <? BTP_MIN_FRAGMENT then BTP_MIN_FRAGMENT else fragment in
  Ret {| rs_version := BTP_VERSION; rs_fragment_size := fragment;
         rs_window_size := if rq_window_size req <? local_window
                           then rq_window_size req else local_window |}.

(** ** The reassembler *)

Inductive btp_state := BTP_IDLE | BTP_IN_PROGRESS | BTP_COMPLETE | BTP_ERROR.

#[export] Instance btp_state_eq_dec : EqDecision btp_state.
Proof. solve_decision. Defined.

Record btp_rx := {
  rx_buf : option (list Z);
  rx_cap : Z;
  rx_len : Z;
  rx_declared : Z;
  rx_state : btp_state;
  rx_next_seq : Z;
  rx_last_seq : Z;
  rx_got_ack : bool;
  rx_ack : Z;
}.

#[export] Instance btp_rx_eta : Eta btp_rx := fun r =>
  {| rx_buf := rx_buf r; rx_cap := rx_cap r; rx_len := rx_len r; rx_declared := rx_declared r;
     rx_state := rx_state r; rx_next_seq := rx_next_seq r; rx_last_seq := rx_last_seq r;
     rx_got_ack := rx_got_ack r; rx_ack := rx_ack r |}.

Definition btp_rx_init (buf : option (list Z)) (cap first_seq : Z) : btp_rx :=
  {| rx_buf := buf; rx_cap := cap; rx_len := 0; rx_declared := 0; rx_state := BTP_IDLE;
     rx_next_seq := first_seq; rx_last_seq := 0; rx_got_ack := false; rx_ack := 0 |}.

Definition btp_rx_reset (rx : btp_rx) : btp_rx :=
  rx <| rx_len := 0 |> <| rx_declared := 0 |> <| rx_state := BTP_IDLE |> <| rx_got_ack := false |>.

(** [rx->state = MATTER_BTP_ERROR; return s;] *)
Definition rx_fail (rx : btp_rx) (s : matter_status) : btp_rx * matter_status :=
  (rx <| rx_state := BTP_ERROR |>, s).

(** The header of a fragment: flags, optional acknowledgement, sequence
    number.  Left: the call returns here; right: the flags and the offset
    behind the header. *)
Definition rx_header (rx : btp_rx) (frag : list Z)
    : (btp_rx * matter_status) + (btp_rx * Z * Z) :=
  let len := zlen frag in
  if decide (rx_state rx = BTP_ERROR) then inl (rx, MATTER_E_STATE) else
  if len <? 1 then inl (rx_fail rx MATTER_E_TRUNC) else
  let flags := byte_at frag 0 in
  let rx := rx <| rx_got_ack := false |> in
  let has_ack := flag_set flags BTP_FLAG_ACK in
  if has_ack && (len <? 1 + 1) then inl (rx_fail rx MATTER_E_TRUNC) else
  let rx := if has_ack then rx <| rx_ack := byte_at frag 1 |> <| rx_got_ack := true |> else rx in
  let off := if has_ack then 2 else 1 in
  if len <? off + 1 then inl (rx_fail rx MATTER_E_TRUNC) else
  let seq := byte_at frag off in
  if negb (seq =? rx_next_seq rx) then inl (rx_fail rx MATTER_E_STATE) else
  inr (rx <| rx_last_seq := seq |> <| rx_next_seq := u8 (rx_next_seq rx + 1) |>, flags, off + 1).

(** Whether the flags fit the reassembly state; a Start fragment declares the
    total length.  Right: the offset of the payload. *)
Definition rx_admit (rx : btp_rx) (flags : Z) (frag : list Z) (off : Z)
    : (btp_rx * matter_status) + (btp_rx * Z) :=
  match rx_state rx with
  | BTP_IDLE =>
      if negb (flag_set flags BTP_FLAG_START) then inl (rx_fail rx MATTER_E_STATE) else
      if zlen frag <? off + 2 then inl (rx_fail rx MATTER_E_TRUNC) else
      let rx := rx <| rx_declared := rd16 frag off |> in
      if rx_cap rx <? rx_declared rx then inl (rx_fail rx MATTER_E_NOSPACE) else
      inr (rx <| rx_len := 0 |> <| rx_state := BTP_IN_PROGRESS |>, off + 2)
  | BTP_IN_PROGRESS =>
      if flag_set flags BTP_FLAG_START then inl (rx_fail rx MATTER_E_STATE) else
      if negb (flag_set flags (Z.lor BTP_FLAG_CONTINUE BTP_FLAG_END))
      then inl (rx_fail rx MATTER_E_STATE) else
      inr (rx, off)
  | _ => inl (rx_fail rx MATTER_E_STATE)
  end.

(** The payload from [off] on and, on an End fragment, the completion check. *)
Definition rx_payload (rx : btp_rx) (flags : Z) (frag : list Z) (off : Z)
    : btp_rx * matter_status :=
  let payload := usize (zlen frag - off) in
  if usize (rx_cap rx - rx_len rx) <? payload then rx_fail rx MATTER_E_NOSPACE else
  if usize (rx_declared rx - rx_len rx) <? payload then rx_fail rx MATTER_E_STATE else
  let copied :=
    if 0 <? payload then
      match rx_buf rx with
      | None => None
      | Some mem =>
          let data := take (Z.to_nat payload) (drop (Z.to_nat off) frag) in
          Some (rx <| rx_buf := Some (mem_write (rx_len rx) data mem) |>
                   <| rx_len := rx_len rx + payload |>)
      end
    else Some rx in
  match copied with
  | None => rx_fail rx MATTER_E_INVAL
  | Some rx =>
      if flag_set flags BTP_FLAG_END then
        if negb (rx_len rx =? rx_declared rx) then rx_fail rx MATTER_E_TRUNC
        else (rx <| rx_state := BTP_COMPLETE |>, MATTER_END)
      else (rx, MATTER_OK)
  end.

Definition DATA_FLAGS : Z := Z.lor BTP_FLAG_START (Z.lor BTP_FLAG_CONTINUE BTP_FLAG_END).

Definition btp_rx_fragment (rx : btp_rx) (frag : list Z) : btp_rx * matter_status :=
  match rx_header rx frag with
  | inl out => out
  | inr (rx, flags, off) =>
      if negb (flag_set flags DATA_FLAGS) then (rx, MATTER_OK) else
      match rx_admit rx flags frag off with
      | inl out => out
      | inr (rx, off) => rx_payload rx flags frag off
      end
  end.

(** ** The fragmenter *)

Record btp_tx := {
  tx_msg : option (list Z);
  tx_len : Z;
  tx_off : Z;
  tx_fragment_size : Z;
  tx_next_seq : Z;
  tx_started : bool;
}.

#[export] Instance btp_tx_eta : Eta btp_tx := fun t =>
  {| tx_msg := tx_msg t; tx_len := tx_len t; tx_off := tx_off t;
     tx_fragment_size := tx_fragment_size t; tx_next_seq := tx_next_seq t;
     tx_started := tx_started t |}.

Definition btp_tx_init (msg : option (list Z)) (len fragment_size first_seq : Z) : res btp_tx :=
  let* _ := guard_res (match msg with None => negb (len =? 0) | Some _ => false end)
              MATTER_E_INVAL in
  let* _ := guard_res ((fragment_size <? BTP_MIN_FRAGMENT) || (BTP_MAX_FRAGMENT <? fragment_size))
              MATTER_E_INVAL in
  let* _ := guard_res (0xFFFF <? len) MATTER_E_INVAL in
  Ret {| tx_msg := msg; tx_len := len; tx_off := 0; tx_fragment_size := fragment_size;
         tx_next_seq := first_seq; tx_started := false |}.

(** The bytes [tx->msg[off .. off + n)]. *)
Definition tx_bytes (tx : btp_tx) (off n : Z) : list Z :=
  take (Z.to_nat n) (drop (Z.to_nat off) (default [] (tx_msg tx))).

(** The header length of the next fragment. *)
Definition tx_hdr (tx : btp_tx) (ack : option Z) : Z :=
  2 + (match ack with Some _ => 1 | None => 0 end) + (if tx_started tx then 0 else 2).

(** How much of the message the next fragment carries. *)
Definition tx_take (tx : btp_tx) (hdr : Z) : Z :=
  let room := usize (tx_fragment_size tx - hdr) in
  let take := usize (tx_len tx - tx_off tx) in
  if room <? take then room else take.

Definition tx_flags (tx : btp_tx) (ack : option Z) (take : Z) : Z :=
  let flags := if tx_started tx then BTP_FLAG_CONTINUE else BTP_FLAG_START in
  let flags := if tx_len tx <=? tx_off tx + take then Z.lor flags BTP_FLAG_END else flags in
  match ack with Some _ => Z.lor flags BTP_FLAG_ACK | None => flags end.

Definition btp_tx_next (tx : btp_tx) (ack : option Z) (cap : Z) : res (btp_tx * list Z) :=
  let* _ := guard_res (tx_started tx && (tx_len tx <=? tx_off tx)) MATTER_END in
  let hdr := tx_hdr tx ack in
  let* _ := guard_res (tx_fragment_size tx <=? hdr) MATTER_E_NOSPACE in
  let take := tx_take tx hdr in
  let* _ := guard_res (cap <? hdr + take) MATTER_E_NOSPACE in
  let out :=
    [tx_flags tx ack take] ++ (match ack with Some a => [a] | None => [] end) ++
    [tx_next_seq tx] ++ (if tx_started tx then [] else wr16 (u16 (tx_len tx))) ++
    tx_bytes tx (tx_off tx) take in
  Ret (tx <| tx_next_seq := u8 (tx_next_seq tx + 1) |> <| tx_started := true |>
          <| tx_off := tx_off tx + take |>, out).

Definition btp_standalone_ack (ack seq cap : Z) : res (list Z) :=
  let* _ := guard_res (cap <? 3) MATTER_E_NOSPACE in
  Ret [BTP_FLAG_ACK; ack; seq].
