(* ===== verification/MatterBtpProps.v ===== *)
(** * Properties of the BLE transport

    The reassembler refines a machine that collects payloads in order
    ([spec_step]); whatever the peer sends, it stays inside its buffer; a
    message cut up by the fragmenter is reassembled to the same message; the
    handshake codecs are exact. *)

From Stdlib Require Import ZArith Lia Bool.
From stdpp Require Import base list numbers.
From S2P Require Import Prelude Wire MatterStatus MatterBtp.

Local Open Scope Z_scope.
Local Open Scope res_scope.

(** ** What reassembly means

    A fragment is an acknowledgement, the start of a message of a declared
    length, or more of the message in progress. *)

Inductive frag_kind :=
  | K_ack
  | K_start (declared : Z) (data : list Z) (last : bool)
  | K_more (data : list Z) (last : bool).

Definition view_body (flags seq : Z) (body : list Z) : option (Z * frag_kind) :=
  if negb (flag_set flags DATA_FLAGS) then Some (seq, K_ack)
  else if flag_set flags BTP_FLAG_START then
    match body with
    | lo :: hi :: data => Some (seq, K_start (lo + 256 * hi) data (flag_set flags BTP_FLAG_END))
    | _ => None
    end
  else Some (seq, K_more body (flag_set flags BTP_FLAG_END)).

Definition frag_view (frag : list Z) : option (Z * frag_kind) :=
  match frag with
  | [] => None
  | flags :: rest =>
      match (if flag_set flags BTP_FLAG_ACK then drop 1 rest else rest) with
      | [] => None
      | seq :: body => view_body flags seq body
      end
  end.

(** [seq] is the number the next fragment must carry. *)
Inductive reasm :=
  | R_idle (seq : Z)
  | R_partial (seq declared : Z) (have : list Z)
  | R_done (seq : Z) (msg : list Z)
  | R_dead.

Definition collect (seq declared : Z) (have data : list Z) (last : bool) : reasm :=
  if declared <? zlen (have ++ data) then R_dead
  else if last then
    if zlen (have ++ data) =? declared then R_done seq (have ++ data) else R_dead
  else R_partial seq declared (have ++ data).

Definition expected (st : reasm) : option Z :=
  match st with
  | R_idle s | R_partial s _ _ | R_done s _ => Some s
  | R_dead => None
  end.

Definition spec_step (cap : Z) (st : reasm) (frag : list Z) : reasm :=
  match expected st, frag_view frag with
  | Some want, Some (seq, kind) =>
      if negb (seq =? want) then R_dead else
      let next := u8 (want + 1) in
      match kind, st with
      | K_ack, R_idle _ => R_idle next
      | K_ack, R_partial _ n have => R_partial next n have
      | K_ack, R_done _ msg => R_done next msg
      | K_start n data last, R_idle _ =>
          if cap <? n then R_dead else collect next n [] data last
      | K_more data last, R_partial _ n have => collect next n have data last
      | _, _ => R_dead
      end
  | _, _ => R_dead
  end.

(** What a reassembler holds. *)
Definition rx_held (rx : btp_rx) : list Z :=
  take (Z.to_nat (rx_len rx)) (default [] (rx_buf rx)).

Definition rx_abs (rx : btp_rx) : reasm :=
  match rx_state rx with
  | BTP_IDLE => R_idle (rx_next_seq rx)
  | BTP_IN_PROGRESS => R_partial (rx_next_seq rx) (rx_declared rx) (rx_held rx)
  | BTP_COMPLETE => R_done (rx_next_seq rx) (rx_held rx)
  | BTP_ERROR => R_dead
  end.

(** ** The invariant of the reassembler *)

Record rx_wf (rx : btp_rx) : Prop := {
  wf_cap : in_u 32 (rx_cap rx);
  wf_len : 0 <= rx_len rx <= rx_cap rx;
  wf_decl : in_u 16 (rx_declared rx);
  wf_live : rx_state rx <> BTP_ERROR -> rx_len rx <= rx_declared rx <= rx_cap rx;
  wf_done : rx_state rx = BTP_COMPLETE -> rx_len rx = rx_declared rx;
  wf_buf : exists mem, rx_buf rx = Some mem /\ rx_cap rx <= zlen mem;
}.

Lemma usize_id z : in_u 32 z -> usize z = z.
Proof. apply wrap_id. Qed.

Lemma rd16_byte p off :
  Forall byte_ok p -> rd16 p off = byte_at p off + 256 * byte_at p (off + 1).
Proof.
  intros Hp. unfold rd16.
  pose proof (byte_at_ok p off Hp) as H0. pose proof (byte_at_ok p (off + 1) Hp) as H1.
  unfold byte_ok in *. rewrite Z.lor_comm, lor_shiftl_add by lia.
  rewrite wrap_id; [lia|]. unfold in_u. lia.
Qed.

Lemma rx_fail_wf rx s : rx_wf rx -> rx_wf (rx_fail rx s).1.
Proof. intros []. by constructor. Qed.

Lemma rx_init_wf mem cap seq : in_u 32 cap -> cap <= zlen mem -> rx_wf (btp_rx_init (Some mem) cap seq).
Proof.
  intros Hc Hm. unfold in_u in Hc. constructor; simpl; try done; unfold in_u; try lia. eauto.
Qed.

Lemma rx_reset_wf rx : rx_wf rx -> rx_wf (btp_rx_reset rx).
Proof.
  intros [Hc Hl Hd Hv Hn Hb]. constructor; simpl; try done; unfold in_u in *; try lia.
Qed.

(** ** The stages of a fragment *)

(** The fields a header leaves alone. *)
Definition same_core (rx rx' : btp_rx) : Prop :=
  rx_buf rx' = rx_buf rx /\ rx_cap rx' = rx_cap rx /\ rx_len rx' = rx_len rx /\
  rx_declared rx' = rx_declared rx.

Definition bad_status (s : matter_status) : Prop := s <> MATTER_OK /\ s <> MATTER_END.

(** A fragment a machine expecting [want] rejects for its form or number. *)
Definition misfit (want : Z) (frag : list Z) : Prop :=
  match frag_view frag with None => True | Some (seq, _) => seq <> want end.

Definition header_ok (rx : btp_rx) (frag : list Z) (rx' : btp_rx) (flags off : Z) : Prop :=
  same_core rx rx' /\ rx_state rx' = rx_state rx /\
  rx_next_seq rx' = u8 (rx_next_seq rx + 1) /\ rx_last_seq rx' = rx_next_seq rx /\
  2 <= off <= zlen frag /\
  frag_view frag = view_body flags (rx_next_seq rx) (drop (Z.to_nat off) frag).

Definition stopped (rx rx' : btp_rx) (s : matter_status) : Prop :=
  rx_state rx' = BTP_ERROR /\ bad_status s /\ rx_buf rx' = rx_buf rx /\
  rx_cap rx' = rx_cap rx /\ rx_len rx' = rx_len rx /\ 
  (in_u 16 (rx_declared rx) -> in_u 16 (rx_declared rx')).

Lemma view_body_seq flags seq body v k : view_body flags seq body = Some (v, k) -> v = seq.
Proof. unfold view_body. intros. repeat case_match; by simplify_eq. Qed.

Lemma rx_header_cases rx frag :
  rx_state rx <> BTP_ERROR ->
  match rx_header rx frag with
  | inl (rx', s) => stopped rx rx' s /\ misfit (rx_next_seq rx) frag
  | inr (rx', flags, off) => header_ok rx frag rx' flags off
  end.
Proof.
  intros Hs. unfold rx_header. destruct (decide _) as [|_]; [done|].
  unfold misfit, frag_view, byte_at, zlen, header_ok, stopped, bad_status, same_core.
  destruct frag as [|flags rest]; [simpl; done|].
  change (Z.of_nat (length (flags :: rest)) <? 1) with (Z.of_nat (S (length rest)) <? 1).
  destruct (Z.ltb_spec (Z.of_nat (S (length rest))) 1); [lia|].
  change (nth (Z.to_nat 0) (flags :: rest) 0) with flags.
  destruct (flag_set flags BTP_FLAG_ACK) eqn:Ha.
  - destruct rest as [|a [|seq body]]; simpl; [done|done|].
    do 2 (match goal with |- context [?a <? ?b] => destruct (Z.ltb_spec a b); [lia|] end).
    change (Pos.to_nat 2) with 2%nat. simpl.
    destruct (Z.eqb_spec seq (rx_next_seq rx)) as [->|Hne]; simpl.
    + rewrite Ha. repeat split; unfold zlen; simpl; try lia; done.
    + split; [done|]. destruct (view_body flags seq body) as [[v k]|] eqn:Hv; [|done].
      by apply view_body_seq in Hv as ->.
  - destruct rest as [|seq body]; simpl; [done|].
    match goal with |- context [?a <? ?b] => destruct (Z.ltb_spec a b); [lia|] end.
    change (Pos.to_nat 1) with 1%nat. simpl.
    destruct (Z.eqb_spec seq (rx_next_seq rx)) as [->|Hne]; simpl.
    + rewrite Ha. repeat split; unfold zlen; simpl; try lia; done.
    + split; [done|]. destruct (view_body flags seq body) as [[v k]|] eqn:Hv; [|done].
      by apply view_body_seq in Hv as ->.
Qed.

(** What every call leaves behind: the invariant, the same capacity, nothing
    written behind the region, and a status that tells the state. *)
Record rx_safe (rx rx' : btp_rx) (s : matter_status) : Prop := {
  safe_wf : rx_wf rx';
  safe_cap : rx_cap rx' = rx_cap rx;
  safe_mem : exists mem mem', rx_buf rx = Some mem /\ rx_buf rx' = Some mem' /\
    length mem' = length mem /\ drop (Z.to_nat (rx_cap rx)) mem' = drop (Z.to_nat (rx_cap rx)) mem;
  safe_err : rx_state rx' = BTP_ERROR <-> bad_status s;
  safe_end : s = MATTER_END -> rx_state rx' = BTP_COMPLETE;
}.

Lemma stopped_safe rx rx' s : rx_wf rx -> stopped rx rx' s -> rx_safe rx rx' s.
Proof.
  intros [Hc Hl Hd Hv Hn (mem & Hb & Hm)] (He & Hs & Hb' & Hc' & Hl' & Hd').
  split.
  - split; rewrite ?Hb', ?Hc', ?Hl', ?He; try done; [by apply Hd'|eauto].
  - done.
  - exists mem, mem. by rewrite Hb'.
  - done.
  - intros ->. by destruct Hs.
Qed.

Lemma rx_fail_stopped rx s : bad_status s -> stopped rx (rx_fail rx s).1 s.
Proof. done. Qed.

(** Copying a payload that fits. *)
Lemma rx_copy_held rx mem data :
  rx_wf rx -> rx_buf rx = Some mem -> rx_len rx + zlen data <= rx_cap rx ->
  rx_held (rx <| rx_buf := Some (mem_write (rx_len rx) data mem) |>
              <| rx_len := rx_len rx + zlen data |>) = rx_held rx ++ data.
Proof.
  intros [Hc Hl Hd Hv Hn (mem' & Hb & Hm)] Hb' Hf. simplify_eq. unfold rx_held. simpl.
  rewrite take_mem_write by lia. by rewrite Hb.
Qed.

Lemma held_len rx : rx_wf rx -> zlen (rx_held rx) = rx_len rx.
Proof.
  intros [Hc Hl Hd Hv Hn (mem & Hb & Hm)]. unfold rx_held, zlen in *. rewrite Hb. simpl.
  rewrite length_take. lia.
Qed.

(** The completion check after the copy. *)
Definition rx_finish (rx : btp_rx) (flags : Z) : btp_rx * matter_status :=
  if flag_set flags BTP_FLAG_END then
    if negb (rx_len rx =? rx_declared rx) then rx_fail rx MATTER_E_TRUNC
    else (rx <| rx_state := BTP_COMPLETE |>, MATTER_END)
  else (rx, MATTER_OK).

Lemma rx_payload_eq rx mem flags frag off :
  rx_wf rx -> rx_state rx = BTP_IN_PROGRESS -> rx_buf rx = Some mem ->
  0 <= off <= zlen frag -> in_u 32 (zlen frag) ->
  let data := drop (Z.to_nat off) frag in
  rx_payload rx flags frag off =
  if rx_cap rx - rx_len rx <? zlen data then rx_fail rx MATTER_E_NOSPACE else
  if rx_declared rx - rx_len rx <? zlen data then rx_fail rx MATTER_E_STATE else
  rx_finish (rx <| rx_buf := Some (mem_write (rx_len rx) data mem) |>
                <| rx_len := rx_len rx + zlen data |>) flags.
Proof.
  intros Hwf Hs Hb Ho Hz data. pose proof Hwf as [Hc Hl Hd Hv Hn _]. unfold in_u in *.
  assert (zlen data = zlen frag - off) as Hdl.
  { unfold data, zlen in *. rewrite length_drop. lia. }
  assert (rx_len rx <= rx_declared rx <= rx_cap rx) by (apply Hv; by rewrite Hs).
  unfold rx_payload. rewrite <- Hdl. rewrite !usize_id by (unfold in_u; lia). rewrite Hb.
  destruct (_ <? _) eqn:H1; [done|]. destruct (rx_declared rx - _ <? _); [done|].
  replace (take (Z.to_nat (zlen data)) (drop (Z.to_nat off) frag)) with data
    by (unfold zlen; rewrite Nat2Z.id; symmetry; by apply take_ge).
  destruct (Z.ltb_spec 0 (zlen data)) as [|Hz0]; [done|].
  assert (data = []) as -> by (destruct data; [done|]; unfold zlen in Hz0; simpl in Hz0; lia).
  unfold mem_write, rx_finish. rewrite app_nil_l. cbn [length]. rewrite Nat.add_0_r, take_drop.
  change (zlen (@nil Z)) with 0. rewrite Z.add_0_r.
  assert (rx <| rx_buf := Some mem |> <| rx_len := rx_len rx |> = rx) as ->; [|done].
  rewrite <- Hb. by destruct rx.
Qed.

Lemma rx_payload_spec rx flags frag off :
  rx_wf rx -> rx_state rx = BTP_IN_PROGRESS -> 0 <= off <= zlen frag -> in_u 32 (zlen frag) ->
  let '(rx', s) := rx_payload rx flags frag off in
  rx_safe rx rx' s /\
  rx_abs rx' = collect (rx_next_seq rx) (rx_declared rx) (rx_held rx)
                 (drop (Z.to_nat off) frag) (flag_set flags BTP_FLAG_END).
Proof.
  intros Hwf Hs Ho Hz. pose proof Hwf as [Hc Hl Hd Hv Hn (mem & Hb & Hm)].
  rewrite (rx_payload_eq rx mem) by done. set (data := drop _ frag).
  assert (rx_len rx <= rx_declared rx <= rx_cap rx) as Hdc by (apply Hv; by rewrite Hs).
  unfold collect. rewrite zlen_app, (held_len rx) by done.
  destruct (Z.ltb_spec (rx_cap rx - rx_len rx) (zlen data)).
  { destruct (Z.ltb_spec (rx_declared rx) (rx_len rx + zlen data)); [|lia].
    split; [|done]. by apply stopped_safe, rx_fail_stopped. }
  destruct (Z.ltb_spec (rx_declared rx - rx_len rx) (zlen data)).
  { destruct (Z.ltb_spec (rx_declared rx) (rx_len rx + zlen data)); [|lia].
    split; [|done]. by apply stopped_safe, rx_fail_stopped. }
  destruct (Z.ltb_spec (rx_declared rx) (rx_len rx + zlen data)); [lia|].
  pose proof (zlen_nonneg data).
  pose proof (rx_copy_held rx mem data Hwf Hb ltac:(lia)) as Hheld.
  set (rx1 := rx <| rx_buf := _ |> <| rx_len := _ |>) in *.
  assert (rx_safe rx rx1 MATTER_OK) as [Hwf1 Hcap1 Hmem1 _ _].
  { split; try done.
    - split; try done; simpl; [lia|lia| |].
      + by rewrite Hs.
      + eexists. split; [done|]. unfold zlen. rewrite length_mem_write; [exact Hm|lia|lia].
    - exists mem, (mem_write (rx_len rx) data mem). repeat split; try done.
      + by apply length_mem_write; lia.
      + apply drop_mem_write; lia.
    - simpl. rewrite Hs. split; [done|]. by intros [].  }
  unfold rx_finish. destruct (flag_set flags BTP_FLAG_END).
  - change (rx_len rx1) with (rx_len rx + zlen data).
    change (rx_declared rx1) with (rx_declared rx).
    destruct (Z.eqb_spec (rx_len rx + zlen data) (rx_declared rx)) as [He|]; simpl.
    + split.
      * split; try done.
        -- destruct Hwf1. split; try done. intros _. simpl. lia.
        -- split; [done|]. by intros [].
      * unfold rx_abs. simpl. f_equal. rewrite <- Hheld. done.
    + split; [|done]. split; try done. destruct Hwf1. split; done.
  - split.
    + split; try done. simpl. rewrite Hs. split; [done|]. by intros [].
    + unfold rx_abs. simpl. rewrite Hs. by f_equal.
Qed.

Lemma safe_trans rx rx1 rx2 s :
  same_core rx rx1 -> rx_safe rx1 rx2 s -> rx_safe rx rx2 s.
Proof.
  intros (Hb & Hc & _) [Hw Hcap Hmem He Hn]. split; try done.
  - by rewrite Hcap.
  - by rewrite <- Hb, <- Hc.
Qed.

Lemma same_core_wf rx rx1 : rx_wf rx -> same_core rx rx1 -> rx_state rx1 = rx_state rx -> rx_wf rx1.
Proof.
  intros [Hc Hl Hd Hv Hn Hb] (Eb & Ec & El & Ed) Es.
  by split; rewrite ?Es, ?Eb, ?Ec, ?El, ?Ed.
Qed.

(** A Start fragment opens a message that fits the region. *)
Lemma rx_admit_start rx flags frag off :
  rx_wf rx -> rx_state rx = BTP_IDLE -> flag_set flags BTP_FLAG_START = true ->
  Forall byte_ok frag -> off + 2 <= zlen frag -> rd16 frag off <= rx_cap rx ->
  let rx1 := rx <| rx_declared := rd16 frag off |> <| rx_len := 0 |>
                <| rx_state := BTP_IN_PROGRESS |> in
  rx_admit rx flags frag off = inr (rx1, off + 2) /\ rx_wf rx1.
Proof.
  intros [Hc Hl Hd Hv Hn Hb] Hs Hf Hok Ho Hr rx1. unfold rx_admit. rewrite Hs, Hf. simpl.
  destruct (Z.ltb_spec (zlen frag) (off + 2)); [lia|].
  destruct (Z.ltb_spec (rx_cap rx) (rd16 frag off)); [lia|].
  split; [done|]. pose proof (wrap_range 16 (Z.lor (byte_at frag off)
    (Z.shiftl (byte_at frag (off + 1)) 8)) ltac:(lia)) as Hw. fold (rd16 frag off) in Hw.
  split; simpl; try done; unfold in_u in *; lia.
Qed.

Lemma drop_two frag off :
  0 <= off -> off + 2 <= zlen frag ->
  drop (Z.to_nat off) frag =
  byte_at frag off :: byte_at frag (off + 1) :: drop (Z.to_nat (off + 2)) frag.
Proof.
  intros H0 H2. unfold byte_at, zlen in *.
  replace (Z.to_nat (off + 1)) with (S (Z.to_nat off)) by lia.
  replace (Z.to_nat (off + 2)) with (S (S (Z.to_nat off))) by lia.
  assert (forall i, (i < length frag)%nat -> frag !! i = Some (nth i frag 0)) as Hn.
  { intros i Hi. destruct (lookup_lt_is_Some_2 frag i Hi) as [x Hx].
    by rewrite Hx, (nth_lookup_Some frag i 0 x Hx). }
  rewrite (drop_S _ _ _ (Hn (Z.to_nat off) ltac:(lia))).
  f_equal. apply drop_S, Hn. lia.
Qed.

(** The data part of a fragment whose header fits. *)
Lemma rx_data_spec rx flags frag off :
  rx_wf rx -> rx_state rx <> BTP_ERROR -> flag_set flags DATA_FLAGS = true ->
  Forall byte_ok frag -> 2 <= off <= zlen frag -> in_u 32 (zlen frag) ->
  let '(rx', s) :=
    match rx_admit rx flags frag off with
    | inl out => out
    | inr (rx1, off1) => rx_payload rx1 flags frag off1
    end in
  rx_safe rx rx' s /\
  rx_abs rx' =
    match view_body flags (rx_next_seq rx) (drop (Z.to_nat off) frag), rx_abs rx with
    | Some (_, K_start n data last), R_idle _ =>
        if rx_cap rx <? n then R_dead else collect (rx_next_seq rx) n [] data last
    | Some (_, K_more data last), R_partial _ n have => collect (rx_next_seq rx) n have data last
    | _, _ => R_dead
    end.
Proof.
  intros Hwf Hne Hdf Hok Ho Hz. unfold view_body. rewrite Hdf. cbn [negb].
  assert (forall s, bad_status s -> rx_safe rx (rx_fail rx s).1 s /\ rx_abs (rx_fail rx s).1 = R_dead)
    as Hfail by (intros s Hb; split; [by apply stopped_safe|done]).
  destruct (rx_state rx) eqn:Hs; [| | |done].
  - assert (rx_abs rx = R_idle (rx_next_seq rx)) as -> by (unfold rx_abs; by rewrite Hs).
    destruct (flag_set flags BTP_FLAG_START) eqn:Hst.
    2:{ unfold rx_admit. rewrite Hs, Hst. by apply (Hfail MATTER_E_STATE). }
    destruct (Z.ltb_spec (zlen frag) (off + 2)) as [Hsh|Hsh].
    { unfold rx_admit. rewrite Hs, Hst. simpl. destruct (Z.ltb_spec (zlen frag) (off + 2)); [|lia].
      assert (length (drop (Z.to_nat off) frag) < 2)%nat by (rewrite length_drop; unfold zlen in *; lia).
      destruct (drop (Z.to_nat off) frag) as [|? [|??]]; simpl in *; [by apply Hfail..|lia]. }
    rewrite drop_two by lia. rewrite <- rd16_byte by done.
    destruct (Z.ltb_spec (rx_cap rx) (rd16 frag off)) as [Hbig|Hfit].
    { unfold rx_admit. rewrite Hs, Hst. simpl. destruct (Z.ltb_spec (zlen frag) (off + 2)); [lia|].
      destruct (Z.ltb_spec (rx_cap rx) (rd16 frag off)); [|lia].
      split; [|done]. apply stopped_safe; [done|]. repeat split; try done; simpl.
      all: pose proof (wrap_range 16 (Z.lor (byte_at frag off)
             (Z.shiftl (byte_at frag (off + 1)) 8)) ltac:(lia)) as Hw; fold (rd16 frag off) in Hw;
           unfold in_u in Hw; lia. }
    destruct (rx_admit_start rx flags frag off) as [-> Hwf1]; [done..|].
    pose proof (rx_payload_spec _ flags frag (off + 2) Hwf1 eq_refl ltac:(lia) Hz) as Hp.
    destruct (rx_payload _ _ _ _) as [rx' s]. destruct Hp as [[Hw Hc Hm He Hn] Habs].
    split; [by split|]. exact Habs.
  - assert (rx_abs rx = R_partial (rx_next_seq rx) (rx_declared rx) (rx_held rx)) as ->
      by (unfold rx_abs; by rewrite Hs).
    destruct (flag_set flags BTP_FLAG_START) eqn:Hst.
    { unfold rx_admit. rewrite Hs, Hst. simpl. repeat case_match; simplify_eq; by apply Hfail. }
    unfold rx_admit. rewrite Hs, Hst.
    destruct (flag_set flags (Z.lor BTP_FLAG_CONTINUE BTP_FLAG_END)) eqn:Hce; simpl.
    + apply (rx_payload_spec rx flags frag off Hwf Hs ltac:(lia) Hz).
    + exfalso. revert Hdf Hst Hce. unfold flag_set, DATA_FLAGS. rewrite Z.land_lor_distr_r.
      intros H1 H2 H3. apply negb_false_iff, Z.eqb_eq in H2, H3.
      change (Z.lor (Z.lor BTP_FLAG_CONTINUE BTP_FLAG_END) 0) with 6 in *.
      rewrite H2 in H1. cbn in H1, H3. by rewrite H3 in H1.
  - assert (rx_abs rx = R_done (rx_next_seq rx) (rx_held rx)) as ->
      by (unfold rx_abs; by rewrite Hs).
    unfold rx_admit. rewrite Hs. simpl.
    repeat case_match; simplify_eq; by apply Hfail.
Qed.

(** One fragment, whatever it is: safe, and the step of the specification. *)
Lemma rx_fragment_spec rx frag :
  rx_wf rx -> Forall byte_ok frag -> in_u 32 (zlen frag) ->
  let '(rx', s) := btp_rx_fragment rx frag in
  rx_safe rx rx' s /\ rx_abs rx' = spec_step (rx_cap rx) (rx_abs rx) frag.
Proof.
  intros Hwf Hok Hz. unfold btp_rx_fragment.
  destruct (decide (rx_state rx = BTP_ERROR)) as [He|Hne].
  { unfold rx_header. rewrite decide_True by done. unfold spec_step, rx_abs. rewrite He. simpl.
    split; [|done]. apply stopped_safe; done. }
  pose proof (rx_header_cases rx frag Hne) as Hh.
  assert (expected (rx_abs rx) = Some (rx_next_seq rx)) as Hexp
    by (unfold rx_abs; by destruct (rx_state rx)).
  destruct (rx_header rx frag) as [[rx' s]|[[rx1 flags] off]].
  { destruct Hh as [Hst Hmis]. split; [by apply stopped_safe|].
    unfold spec_step, misfit in *. rewrite Hexp.
    unfold rx_abs at 1. destruct Hst as [-> _].
    destruct (frag_view frag) as [[seq k]|]; [|done].
    by destruct (Z.eqb_spec seq (rx_next_seq rx)). }
  destruct Hh as (Hcore & Hst & Hseq & _ & Hoff & Hview).
  pose proof (same_core_wf rx rx1 Hwf Hcore Hst) as Hwf1.
  assert (rx_held rx1 = rx_held rx) as Hheld.
  { destruct Hcore as (Eb & _ & El & _). unfold rx_held. by rewrite Eb, El. }
  unfold spec_step. rewrite Hexp, Hview. destruct Hcore as (Eb & Ec & El & Ed).
  destruct (flag_set flags DATA_FLAGS) eqn:Hdf; cbn [negb].
  - pose proof (rx_data_spec rx1 flags frag off Hwf1 ltac:(by rewrite Hst) Hdf Hok Hoff Hz) as Hd.
    destruct (match rx_admit _ _ _ _ with inl _ => _ | inr _ => _ end) as [rx' s].
    destruct Hd as [Hsafe Habs]. split; [by eapply safe_trans|]. rewrite Habs.
    unfold view_body. rewrite Hdf. cbn [negb]. unfold rx_abs. rewrite Hst, Hseq, Ec, Ed, Hheld.
    destruct (flag_set flags BTP_FLAG_START), (rx_state rx), (drop _ frag) as [|? [|??]];
      rewrite ?Z.eqb_refl; done.
  - unfold view_body. rewrite Hdf. cbn [negb]. rewrite Z.eqb_refl. cbn [negb]. split.
    + destruct Hwf as [_ _ _ _ _ (mem & Hb & Hm)].
      split; [done|done| | |done].
      * exists mem, mem. by rewrite Eb.
      * rewrite Hst. split; [done|]. by intros [].
    + unfold rx_abs. rewrite Hst, Hseq, Ed, Hheld. by destruct (rx_state rx).
Qed.

(** ** Runs *)

Inductive rx_event := Ev_fragment (frag : list Z) | Ev_reset.

Definition rx_event_ok (e : rx_event) : Prop :=
  match e with Ev_fragment f => Forall byte_ok f /\ in_u 32 (zlen f) | Ev_reset => True end.

Definition rx_event_step (rx : btp_rx) (e : rx_event) : btp_rx :=
  match e with Ev_fragment f => (btp_rx_fragment rx f).1 | Ev_reset => btp_rx_reset rx end.

Definition rx_feed (rx : btp_rx) (frags : list (list Z)) : btp_rx :=
  fold_left (fun r f => (btp_rx_fragment r f).1) frags rx.

Lemma rx_feed_spec rx frags :
  rx_wf rx -> Forall (fun f => Forall byte_ok f /\ in_u 32 (zlen f)) frags ->
  rx_wf (rx_feed rx frags) /\ rx_cap (rx_feed rx frags) = rx_cap rx /\
  rx_abs (rx_feed rx frags) = fold_left (spec_step (rx_cap rx)) frags (rx_abs rx).
Proof.
  intros Hwf Hfr. revert rx Hwf. induction Hfr as [|f frags [Hok Hz] _ IH]; intros rx Hwf; [done|].
  unfold rx_feed. cbn [fold_left]. fold (rx_feed (btp_rx_fragment rx f).1 frags).
  pose proof (rx_fragment_spec rx f Hwf Hok Hz) as Hs.
  destruct (btp_rx_fragment rx f) as [rx1 s]. destruct Hs as [[Hw Hc _ _ _] Ha].
  destruct (IH rx1 Hw) as (H1 & H2 & H3). cbn [fst]. rewrite Ha, Hc in H3.
  split; [done|]. split; [congruence|done].
Qed.

(** Whatever fragments a peer sends, in any order and with resets between
    them, the reassembler started on a region of [cap] bytes never writes
    behind it, never holds more than the region, and reports a complete message
    only when it holds exactly the declared length.  After every fragment the
    returned status is an error exactly when the state is the sticky ERROR. *)
Theorem btp_rx_confined mem cap seq evs frag :
  in_u 32 cap -> cap <= zlen mem -> Forall rx_event_ok evs -> rx_event_ok (Ev_fragment frag) ->
  let rx := fold_left rx_event_step evs (btp_rx_init (Some mem) cap seq) in
  let '(rx', s) := btp_rx_fragment rx frag in
  rx_cap rx' = cap /\ 0 <= rx_len rx' <= cap /\
  (rx_state rx' = BTP_COMPLETE -> rx_len rx' = rx_declared rx') /\
  (exists mem', rx_buf rx' = Some mem' /\ length mem' = length mem /\
     drop (Z.to_nat cap) mem' = drop (Z.to_nat cap) mem) /\
  (rx_state rx' = BTP_ERROR <-> s <> MATTER_OK /\ s <> MATTER_END) /\
  (rx_state rx = BTP_ERROR -> rx' = rx /\ s = MATTER_E_STATE).
Proof.
  intros Hc Hm Hev [Hok Hz] rx.
  assert (rx_wf rx /\ rx_cap rx = cap /\ exists m, rx_buf rx = Some m /\ length m = length mem /\
    drop (Z.to_nat cap) m = drop (Z.to_nat cap) mem) as (Hwf & Hcap & m & Hb & Hl & Hd).
  { subst rx. assert (rx_wf (btp_rx_init (Some mem) cap seq)) as H0 by (by apply rx_init_wf).
    assert (exists m, rx_buf (btp_rx_init (Some mem) cap seq) = Some m /\ length m = length mem /\
      drop (Z.to_nat cap) m = drop (Z.to_nat cap) mem) as H1 by (exists mem; done).
    assert (rx_cap (btp_rx_init (Some mem) cap seq) = cap) as H2 by done.
    clear Hm. revert H0 H1 H2. generalize (btp_rx_init (Some mem) cap seq).
    induction Hev as [|e evs He _ IH]; intros rx0 H0 (m & H1 & Hl & Hd) H2; [by eauto 10|].
    cbn [fold_left]. destruct e as [f|]; cbn [rx_event_step].
    - destruct He as [Hf Hfz]. pose proof (rx_fragment_spec rx0 f H0 Hf Hfz) as Hs.
      destruct (btp_rx_fragment rx0 f) as [rx1 s1]. destruct Hs as [[Hw Hc1 Hmem _ _] _].
      apply IH; [done| |by rewrite <- H2].
      destruct Hmem as (m0 & m1 & E0 & E1 & E2 & E3). simplify_eq. exists m1.
      split; [done|]. split; [congruence|]. by rewrite <- Hd.
    - apply IH; [by apply rx_reset_wf| |done]. by exists m. }
  pose proof (rx_fragment_spec rx frag Hwf Hok Hz) as Hs.
  destruct (btp_rx_fragment rx frag) as [rx' s] eqn:Hf.
  destruct Hs as [[Hw Hc1 (m0 & m1 & E0 & E1 & E2 & E3) Herr _] _].
  rewrite Hb in E0. injection E0 as <-. rewrite Hcap in *.
  destruct Hw as [_ Hlen _ _ Hdone _]. rewrite Hc1 in Hlen.
  repeat apply conj; try done; try lia.
  - exists m1. split; [done|]. split; [congruence|]. by rewrite <- Hd.
  - apply Herr.
  - apply Herr.
  - intros He. unfold btp_rx_fragment, rx_header in Hf. rewrite decide_True in Hf by done. by simplify_eq.
Qed.

(** The reassembler implements in-order collection: feeding any
    fragments to a well-formed receiver is the run of [spec_step], which
    appends payloads in order to a message that fits the region and stops for
    good at a wrong sequence number, a malformed fragment or an overshoot. *)
Theorem btp_rx_refines rx frags :
  rx_wf rx -> Forall (fun f => Forall byte_ok f /\ in_u 32 (zlen f)) frags ->
  rx_abs (rx_feed rx frags) = fold_left (spec_step (rx_cap rx)) frags (rx_abs rx).
Proof. intros Hwf Hfr. apply (rx_feed_spec rx frags Hwf Hfr). Qed.

(** ** The fragmenter *)

(** Emit fragments until [MATTER_END]; [acks k] is the acknowledgement to
    piggyback on fragment [k]. *)
Fixpoint tx_run (fuel : nat) (acks : nat -> option Z) (cap : Z) (tx : btp_tx)
    : option (btp_tx * list (list Z)) :=
  match fuel with
  | O => None
  | S f =>
      match btp_tx_next tx (acks 0%nat) cap with
      | Fail MATTER_END => Some (tx, [])
      | Fail _ => None
      | Ret (tx', out) =>
          match tx_run f (fun k => acks (S k)) cap tx' with
          | Some (t, l) => Some (t, out :: l)
          | None => None
          end
      end
  end.

Record tx_wf (tx : btp_tx) (msg : list Z) : Prop := {
  tw_msg : default [] (tx_msg tx) = msg;
  tw_len : tx_len tx = zlen msg;
  tw_max : zlen msg <= 0xFFFF;
  tw_bytes : Forall byte_ok msg;
  tw_off : 0 <= tx_off tx <= zlen msg;
  tw_size : BTP_MIN_FRAGMENT <= tx_fragment_size tx <= BTP_MAX_FRAGMENT;
  tw_seq : byte_ok (tx_next_seq tx);
}.

Definition acks_ok (acks : nat -> option Z) : Prop :=
  forall k a, acks k = Some a -> byte_ok a.

(** The flags a fragment carries read back as they were meant. *)
Lemma tx_flags_bits tx ack n :
  let flags := tx_flags tx ack n in
  flag_set flags BTP_FLAG_START = negb (tx_started tx) /\
  flag_set flags BTP_FLAG_END = (tx_len tx <=? tx_off tx + n) /\
  flag_set flags BTP_FLAG_ACK = (match ack with Some _ => true | None => false end) /\
  flag_set flags DATA_FLAGS = true /\ byte_ok flags.
Proof.
  unfold tx_flags. destruct (tx_started tx), (tx_len tx <=? tx_off tx + n), ack;
    cbn; repeat split; done.
Qed.

(** The payload of the next fragment. *)
Definition tx_chunk (tx : btp_tx) (ack : option Z) : list Z :=
  tx_bytes tx (tx_off tx) (tx_take tx (tx_hdr tx ack)).

Lemma tx_hdr_range tx ack : 2 <= tx_hdr tx ack <= 5.
Proof. unfold tx_hdr. destruct ack, (tx_started tx); lia. Qed.

Lemma tx_take_min tx msg ack :
  tx_wf tx msg ->
  tx_take tx (tx_hdr tx ack) =
  Z.min (tx_fragment_size tx - tx_hdr tx ack) (zlen msg - tx_off tx).
Proof.
  intros [Hm Hl Hx Hb Ho Hs Hq]. unfold BTP_MIN_FRAGMENT, BTP_MAX_FRAGMENT in Hs.
  pose proof (tx_hdr_range tx ack). unfold tx_take.
  rewrite !usize_id by (unfold in_u; lia). rewrite Hl.
  destruct (Z.ltb_spec (tx_fragment_size tx - tx_hdr tx ack) (zlen msg - tx_off tx)); lia.
Qed.

Lemma tx_chunk_bytes tx msg ack :
  tx_wf tx msg ->
  zlen (tx_chunk tx ack) = tx_take tx (tx_hdr tx ack) /\ Forall byte_ok (tx_chunk tx ack).
Proof.
  intros Hw. pose proof (tx_take_min tx msg ack Hw) as Hn. pose proof (tx_hdr_range tx ack).
  destruct Hw as [Hm Hl Hx Hb Ho Hs Hq]. unfold BTP_MIN_FRAGMENT in Hs.
  unfold tx_chunk, tx_bytes. rewrite Hm. split.
  - unfold zlen in *. rewrite length_take, length_drop. lia.
  - by apply Forall_take, Forall_drop.
Qed.

(** A live fragmenter emits a fragment of the agreed size, whose view is the
    next chunk of the message. *)
Lemma tx_next_view tx msg ack cap :
  tx_wf tx msg -> tx_fragment_size tx <= cap ->
  (forall a, ack = Some a -> byte_ok a) ->
  (tx_started tx = false \/ tx_off tx < zlen msg) ->
  let n := tx_take tx (tx_hdr tx ack) in
  let chunk := tx_chunk tx ack in
  let last := tx_len tx <=? tx_off tx + n in
  exists tx' out,
    btp_tx_next tx ack cap = Ret (tx', out) /\ tx_wf tx' msg /\
    tx_started tx' = true /\ tx_off tx' = tx_off tx + n /\
    tx_next_seq tx' = u8 (tx_next_seq tx + 1) /\ tx_fragment_size tx' = tx_fragment_size tx /\
    zlen out <= tx_fragment_size tx /\ Forall byte_ok out /\ zlen chunk = n /\
    0 <= n <= zlen msg - tx_off tx /\ (tx_off tx < zlen msg -> 0 < n) /\
    frag_view out =
      Some (tx_next_seq tx,
            if tx_started tx then K_more chunk last else K_start (zlen msg) chunk last).
Proof.
  intros Hw Hcap Hack Hlive n chunk last.
  pose proof Hw as [Hm Hl Hx Hb Ho Hs Hq]. unfold BTP_MIN_FRAGMENT, BTP_MAX_FRAGMENT in Hs.
  pose proof (tx_hdr_range tx ack) as Hh.
  pose proof (tx_take_min tx msg ack Hw) as Hn. fold n in Hn.
  destruct (tx_chunk_bytes tx msg ack Hw) as [Hcl Hcb]. fold chunk n in Hcl, Hcb.
  pose proof (tx_flags_bits tx ack n) as (Fs & Fe & Fa & Fd & Fb).
  unfold btp_tx_next.
  assert (tx_started tx && (tx_len tx <=? tx_off tx) = false) as ->.
  { destruct Hlive as [-> | Hlt]; [done|]. rewrite Hl.
    destruct (Z.leb_spec (zlen msg) (tx_off tx)); [lia|]. by rewrite andb_false_r. }
  cbn [guard_res res_bind]. destruct (Z.leb_spec (tx_fragment_size tx) (tx_hdr tx ack)); [lia|].
  cbn [guard_res res_bind]. fold n. destruct (Z.ltb_spec cap (tx_hdr tx ack + n)); [lia|].
  cbn [guard_res res_bind]. eexists _, _. split; [reflexivity|].
  change (tx_bytes tx (tx_off tx) n) with chunk.
  repeat apply conj; try done; try (simpl; lia).
  - split; simpl; try done; try lia. apply (wrap_range 8); lia.
  - rewrite !zlen_app, Hcl. unfold tx_hdr in *.
    destruct ack, (tx_started tx); unfold zlen, wr16; simpl length; lia.
  - constructor; [done|]. apply Forall_app; split.
    { destruct ack as [a|]; [|done]. constructor; [by apply Hack|done]. }
    constructor; [done|]. apply Forall_app; split; [|done].
    destruct (tx_started tx); [done|]. repeat constructor; apply (wrap_range 8); lia.
  - unfold frag_view. cbn [app]. rewrite Fa.
    assert (forall body, view_body (tx_flags tx ack n) (tx_next_seq tx) body =
      if tx_started tx then Some (tx_next_seq tx, K_more body last)
      else match body with
           | lo :: hi :: data => Some (tx_next_seq tx, K_start (lo + 256 * hi) data last)
           | _ => None end) as Hv.
    { intros body. unfold view_body. rewrite Fd, Fs, Fe. by destruct (tx_started tx). }
    destruct ack; cbn [app drop]; rewrite Hv; (destruct (tx_started tx); [done|]); cbn [wr16 app];
      do 3 f_equal; unfold wrap; rewrite Hl, Z.shiftr_div_pow2 by lia; zdiv.
Qed.

(** What a receiver has after the fragments sent so far. *)
Definition tx_sent (tx : btp_tx) (msg : list Z) : reasm :=
  if tx_off tx <? zlen msg then R_partial (tx_next_seq tx) (zlen msg) (take (Z.to_nat (tx_off tx)) msg)
  else R_done (tx_next_seq tx) msg.

Lemma tx_chunk_next tx msg ack :
  tx_wf tx msg -> zlen (tx_chunk tx ack) = tx_take tx (tx_hdr tx ack) ->
  take (Z.to_nat (tx_off tx)) msg ++ tx_chunk tx ack
  = take (Z.to_nat (tx_off tx + tx_take tx (tx_hdr tx ack))) msg.
Proof.
  intros [Hm _ _ _ Ho _ _] Hz. unfold tx_chunk, tx_bytes in *. rewrite Hm in *.
  set (n := tx_take tx (tx_hdr tx ack)) in *. pose proof (zlen_nonneg (take (Z.to_nat n) (drop (Z.to_nat (tx_off tx)) msg))).
  replace (Z.to_nat (tx_off tx + n)) with (Z.to_nat (tx_off tx) + Z.to_nat n)%nat by lia.
  by rewrite take_take_drop.
Qed.

(** Collecting the next chunk brings the receiver to what has been sent. *)
Lemma collect_sent tx msg ack tx' :
  tx_wf tx msg -> tx_wf tx' msg ->
  let n := tx_take tx (tx_hdr tx ack) in
  zlen (tx_chunk tx ack) = n -> tx_off tx' = tx_off tx + n ->
  collect (tx_next_seq tx') (zlen msg) (take (Z.to_nat (tx_off tx)) msg) (tx_chunk tx ack)
    (tx_len tx <=? tx_off tx + n) = tx_sent tx' msg.
Proof.
  intros Hw Hw' n Hz Ho. pose proof Hw as [_ Hl _ _ Hoff _ _]. pose proof Hw' as [_ _ _ _ Hoff' _ _].
  unfold collect, tx_sent. rewrite (tx_chunk_next tx msg ack Hw Hz). fold n. rewrite <- Ho, Hl.
  assert (zlen (take (Z.to_nat (tx_off tx')) msg) = tx_off tx') as ->
    by (unfold zlen in *; rewrite length_take; lia).
  destruct (Z.ltb_spec (zlen msg) (tx_off tx')); [lia|].
  destruct (Z.leb_spec (zlen msg) (tx_off tx')), (Z.ltb_spec (tx_off tx') (zlen msg)); try lia; [|done].
  rewrite (proj2 (Z.eqb_eq _ _)) by lia. f_equal. apply take_ge. unfold zlen in *. lia.
Qed.

(** The fragments of a list are well-formed and of the agreed size. *)
Definition frags_ok (size : Z) (frags : list (list Z)) : Prop :=
  Forall (fun f => Forall byte_ok f /\ zlen f <= size) frags.

Lemma tx_run_more fuel tx msg acks cap rcap :
  tx_wf tx msg -> tx_fragment_size tx <= cap -> acks_ok acks -> tx_started tx = true ->
  zlen msg - tx_off tx <= Z.of_nat fuel ->
  exists tx' frags, tx_run (S fuel) acks cap tx = Some (tx', frags) /\
    frags_ok (tx_fragment_size tx) frags /\ zlen frags <= zlen msg - tx_off tx /\
    tx_off tx' = zlen msg /\
    fold_left (spec_step rcap) frags (tx_sent tx msg) = R_done (tx_next_seq tx') msg.
Proof.
  revert tx acks. induction fuel as [|fuel IH]; intros tx acks Hw Hcap Ha Hst Hf;
    pose proof Hw as [_ Hl _ _ Ho _ _].
  all: destruct (Z.ltb_spec (tx_off tx) (zlen msg)) as [Hlt|Hge].
  2,4: exists tx, []; cbn [tx_run]; unfold btp_tx_next; rewrite Hst, Hl;
       rewrite (proj2 (Z.leb_le _ _)) by lia; simpl; unfold tx_sent, zlen in *;
       rewrite (proj2 (Z.ltb_ge _ _)) by lia; repeat apply conj; try done; simpl; try lia; apply List.Forall_nil.
  { lia. }
  destruct (tx_next_view tx msg (acks 0%nat) cap Hw Hcap (Ha 0%nat) (or_intror Hlt))
    as (tx1 & out & Hn & Hw1 & Hs1 & Ho1 & Hq1 & Hz1 & Hlen & Hb & Hc & Hr & Hpos & Hv).
  specialize (Hpos Hlt).
  destruct (IH tx1 (fun k => acks (S k)) Hw1 ltac:(by rewrite Hz1) (fun k => Ha (S k)) Hs1
              ltac:(lia)) as (tx2 & frags & Hrun & Hfr & Hnum & Hend & Hspec).
  exists tx2, (out :: frags). remember (S fuel) as f eqn:Ef. cbn [tx_run]. rewrite Hn, Hrun.
  split; [done|]. rewrite Hz1 in Hfr. split; [by constructor|].
  split; [rewrite zlen_cons; lia|]. split; [done|]. cbn [fold_left].
  assert (spec_step rcap (tx_sent tx msg) out = tx_sent tx1 msg) as ->; [|done].
  unfold tx_sent at 1. rewrite (proj2 (Z.ltb_lt _ _)) by lia.
  unfold spec_step. cbn [expected]. rewrite Hv, Hst, Z.eqb_refl. cbn [negb].
  rewrite <- Hq1. by apply collect_sent.
Qed.

Lemma btp_tx_init_ok msg size seq :
  Forall byte_ok msg -> zlen msg <= 0xFFFF -> byte_ok seq ->
  BTP_MIN_FRAGMENT <= size <= BTP_MAX_FRAGMENT ->
  exists tx, btp_tx_init (Some msg) (zlen msg) size seq = Ret tx /\ tx_wf tx msg /\
    tx_started tx = false /\ tx_off tx = 0 /\ tx_next_seq tx = seq /\ tx_fragment_size tx = size.
Proof.
  intros Hb Hm Hq Hs. pose proof Hs as Hs'. unfold BTP_MIN_FRAGMENT, BTP_MAX_FRAGMENT in Hs'.
  pose proof (zlen_nonneg msg). unfold btp_tx_init.
  rewrite (proj2 (Z.ltb_ge size _)), (proj2 (Z.ltb_ge _ size)), (proj2 (Z.ltb_ge 0xFFFF (zlen msg)))
    by (unfold BTP_MIN_FRAGMENT, BTP_MAX_FRAGMENT; lia).
  cbn [guard_res res_bind orb]. eexists. split; [reflexivity|].
  repeat apply conj; try done; split; simpl; try done; lia.
Qed.

(** C36: What the fragmenter cuts up, the reassembler puts together: for every
    message of at most 65535 bytes, every agreed fragment size, any
    acknowledgements piggybacked on the way and any receiver region that holds
    the message, the walk ends after at most [len + 1] fragments, none longer than
    the agreed size, and the receiver that was idle and expects the first
    sequence number ends COMPLETE holding exactly the message. *)
Theorem btp_end_to_end msg size seq acks cap rx :
  Forall byte_ok msg -> zlen msg <= 0xFFFF -> byte_ok seq -> acks_ok acks ->
  BTP_MIN_FRAGMENT <= size <= BTP_MAX_FRAGMENT -> size <= cap ->
  rx_wf rx -> rx_state rx = BTP_IDLE -> rx_next_seq rx = seq -> zlen msg <= rx_cap rx ->
  exists tx tx' frags,
    btp_tx_init (Some msg) (zlen msg) size seq = Ret tx /\
    tx_run (length msg + 2) acks cap tx = Some (tx', frags) /\
    zlen frags <= zlen msg + 1 /\ Forall (fun f => zlen f <= size) frags /\
    let rx' := rx_feed rx frags in
    rx_state rx' = BTP_COMPLETE /\ rx_held rx' = msg /\ rx_len rx' = zlen msg /\
    rx_next_seq rx' = tx_next_seq tx'.
Proof.
  intros Hb Hm Hq Ha Hs Hcap Hwf Hidle Hnext Hroom.
  destruct (btp_tx_init_ok msg size seq Hb Hm Hq Hs) as (tx & -> & Hw & Hst & Hoff & Hseq & Hsz).
  rewrite <- Hsz in Hcap. exists tx.
  destruct (tx_next_view tx msg (acks 0%nat) cap Hw Hcap (Ha 0%nat) (or_introl Hst))
    as (tx1 & out & Hn & Hw1 & Hs1 & Ho1 & Hq1 & Hz1 & Hlen & Hbo & Hc & Hr & _ & Hv).
  destruct (tx_run_more (length msg) tx1 msg (fun k => acks (S k)) cap (rx_cap rx) Hw1
              ltac:(by rewrite Hz1) (fun k => Ha (S k)) Hs1) as (tx2 & frags & Hrun & Hfr & Hnum & _ & Hspec).
  { destruct Hw1 as [_ _ _ _ ? _ _]. unfold zlen in *. lia. }
  rewrite Hz1, Hsz in Hfr. rewrite Hsz in Hlen. pose proof (zlen_nonneg msg).
  exists tx2, (out :: frags). replace (length msg + 2)%nat with (S (S (length msg))) by lia.
  split; [done|]. remember (S (length msg)) as f. cbn [tx_run]. rewrite Hn, Hrun.
  assert (frags_ok size (out :: frags)) as Hall by (by constructor).
  split; [done|]. split. { rewrite zlen_cons. destruct Hw1 as [_ _ _ _ ? _ _]. lia. }
  split. { eapply List.Forall_impl; [|exact Hall]. by intros ? []. }
  destruct (rx_feed_spec rx (out :: frags) Hwf) as (Hwf' & _ & Habs).
  { eapply List.Forall_impl; [|exact Hall]. intros f' [? ?]. split; [done|].
    pose proof (zlen_nonneg f'). unfold in_u, BTP_MAX_FRAGMENT in *. lia. }
  assert (rx_abs (rx_feed rx (out :: frags)) = R_done (tx_next_seq tx2) msg) as Hdone.
  { rewrite Habs. cbn [fold_left]. rewrite <- Hspec. f_equal.
    unfold rx_abs, spec_step. rewrite Hidle, Hnext. cbn [expected]. rewrite Hv, Hst, Hseq, Z.eqb_refl.
    cbn [negb]. rewrite (proj2 (Z.ltb_ge _ _)) by lia. rewrite <- Hseq, <- Hq1.
    rewrite <- (collect_sent tx msg (acks 0%nat) tx1) by done. by rewrite Hoff. }
  pose proof (held_len _ Hwf') as Hhl. unfold rx_abs in Hdone.
  destruct (rx_state (rx_feed rx (out :: frags))); simplify_eq. repeat split; done.
Qed.

(** A message of 40 bytes over fragments of 20, an acknowledgement on the
    second fragment. *)
Lemma btp_end_to_end_witness :
  exists tx tx' frags,
    btp_tx_init (Some (replicate 40 7)) 40 20 1 = Ret tx /\
    tx_run 42 (fun k => if (k =? 1)%nat then Some 9 else None) 244 tx = Some (tx', frags) /\
    zlen frags <= 41 /\ Forall (fun f => zlen f <= 20) frags /\
    let rx' := rx_feed (btp_rx_init (Some (replicate 64 0)) 64 1) frags in
    rx_state rx' = BTP_COMPLETE /\ rx_held rx' = replicate 40 7 /\ rx_len rx' = 40 /\
    rx_next_seq rx' = tx_next_seq tx'.
Proof.
  apply (btp_end_to_end (replicate 40 7) 20 1 (fun k => if (k =? 1)%nat then Some 9 else None) 244).
  - apply Forall_replicate. unfold byte_ok. lia.
  - vm_compute. congruence.
  - unfold byte_ok. lia.
  - intros k a. destruct (k =? 1)%nat; [|done]. intros [= <-]. unfold byte_ok. lia.
  - vm_compute. split; congruence.
  - lia.
  - apply rx_init_wf; vm_compute; [split|]; congruence.
  - reflexivity.
  - reflexivity.
  - vm_compute. congruence.
Defined.

Lemma btp_rx_refines_witness :
  rx_abs (rx_feed (btp_rx_init (Some [0; 0; 0; 0]) 4 1) [[8; 3; 1]; [5; 2; 2; 0; 170; 187]])
  = R_done 3 [170; 187].
Proof.
  rewrite (btp_rx_refines (btp_rx_init (Some [0; 0; 0; 0]) 4 1)).
  - reflexivity.
  - apply rx_init_wf; vm_compute; [split|]; congruence.
  - repeat constructor; vm_compute; congruence.
Defined.

(** The second Start is refused and the state stays ERROR. *)
Lemma btp_rx_confined_witness :
  let rx := fold_left rx_event_step
    [Ev_fragment [1; 0; 4; 0; 11]; Ev_fragment [1; 1; 2; 0; 12]] (btp_rx_init (Some [0; 0; 0; 0]) 4 0) in
  (rx_state rx = BTP_ERROR -> (btp_rx_fragment rx [4; 2; 13]).1 = rx) /\ rx_state rx = BTP_ERROR.
Proof.
  intros rx. split; [|reflexivity]. intros He.
  pose proof (btp_rx_confined [0; 0; 0; 0] 4 0
    [Ev_fragment [1; 0; 4; 0; 11]; Ev_fragment [1; 1; 2; 0; 12]] [4; 2; 13]
    ltac:(vm_compute; split; congruence) ltac:(vm_compute; congruence)
    ltac:(repeat constructor; vm_compute; congruence)
    ltac:(repeat constructor; vm_compute; congruence)) as H.
  fold rx in H. cbv zeta in H. destruct (btp_rx_fragment rx [4; 2; 13]) as [rx' s].
  destruct H as (_ & _ & _ & _ & _ & H). by apply H.
Defined.

(** ** Handshake *)

Definition nibble (v : Z) : Prop := 0 <= v < 16.

Definition btp_req_ok (r : btp_req) : Prop :=
  length (rq_versions r) = BTP_VERSION_SLOTS /\ Forall nibble (rq_versions r) /\
  in_u 16 (rq_mtu r) /\ byte_ok (rq_window_size r).

Lemma land_nibble x : Z.land x 0x0F = x mod 16.
Proof. change 0x0F with (Z.ones 4). by rewrite Z.land_ones. Qed.

Lemma u8_byte x : byte_ok x -> u8 x = x.
Proof. apply (wrap_id 8). Qed.

(** Two nibbles in a byte. *)
Lemma pack_nibbles a b :
  nibble a -> nibble b ->
  u8 (Z.lor (Z.lor 0 (u8 (Z.land a 0x0F))) (u8 (Z.shiftl (u8 (Z.land b 0x0F)) 4))) = a + 16 * b.
Proof.
  unfold nibble. intros Ha Hb. rewrite !land_nibble, !(Z.mod_small _ 16) by lia.
  rewrite Z.lor_0_l, (u8_byte a), (u8_byte b) by (unfold byte_ok; lia).
  rewrite (u8_byte (Z.shiftl b 4)) by (rewrite Z.shiftl_mul_pow2 by lia; unfold byte_ok; lia).
  rewrite Z.lor_comm, lor_shiftl_add by lia. rewrite u8_byte; unfold byte_ok; lia.
Qed.

Lemma unpack_low a b : nibble a -> nibble b -> u8 (Z.land (a + 16 * b) 0x0F) = a.
Proof.
  unfold nibble. intros. rewrite land_nibble, u8_byte; [|unfold byte_ok; zdiv]. zdiv.
Qed.

Lemma unpack_high a b : nibble a -> nibble b -> u8 (Z.land (Z.shiftr (a + 16 * b) 4) 0x0F) = b.
Proof.
  unfold nibble. intros. rewrite land_nibble, Z.shiftr_div_pow2 by lia. change (2 ^ 4) with 16.
  rewrite u8_byte; [|unfold byte_ok; zdiv]. zdiv.
Qed.

Lemma req_pack_nibbles a b c d e f g h :
  Forall nibble [a; b; c; d; e; f; g; h] ->
  req_pack [a; b; c; d; e; f; g; h] = [a + 16 * b; c + 16 * d; e + 16 * f; g + 16 * h].
Proof.
  intros Hn. repeat (apply Forall_cons_iff in Hn as [? Hn]).
  cbv -[wrap Z.land Z.lor Z.shiftl Z.add Z.mul].
  by rewrite !pack_nibbles.
Qed.

Lemma wr16_rd16 v p q :
  in_u 16 v -> Forall byte_ok p -> Forall byte_ok q -> rd16 (p ++ wr16 v ++ q) (zlen p) = v.
Proof.
  intros Hv Hp Hq. rewrite rd16_byte.
  2:{ repeat (apply Forall_app; split); try done. repeat constructor; apply (wrap_range 8); lia. }
  unfold byte_at, zlen. replace (Z.to_nat (Z.of_nat (length p) + 1)) with (length p + 1)%nat by lia.
  rewrite Nat2Z.id.
  rewrite (app_nth2 p) by lia. rewrite (app_nth2 p) by lia.
  replace (length p - length p)%nat with 0%nat by lia.
  replace (length p + 1 - length p)%nat with 1%nat by lia. simpl.
  unfold wrap, in_u in *. rewrite Z.shiftr_div_pow2 by lia. zdiv.
Qed.

Lemma btp_req_encode_decode r rest cap :
  btp_req_ok r -> Forall byte_ok rest -> BTP_REQ_LEN <= cap ->
  exists b, btp_req_encode r cap = Ret b /\ zlen b = BTP_REQ_LEN /\
            btp_req_decode (b ++ rest) = Ret r.
Proof.
  destruct r as [vs mtu win]. intros (Hlen & Hn & Hm & Hw) Hr Hc. simpl in *.
  destruct vs as [|a [|b [|c [|d [|e [|f [|g [|h [|]]]]]]]]]; try done.
  unfold btp_req_encode. rewrite (proj2 (Z.ltb_ge _ _)) by done. cbn [guard_res res_bind rq_versions rq_mtu rq_window_size].
  rewrite req_pack_nibbles by done. eexists. split; [reflexivity|]. split; [done|].
  repeat (apply Forall_cons_iff in Hn as [? Hn]).
  unfold btp_req_decode. destruct (Z.ltb_spec (zlen (([BTP_CHECK_1; BTP_CHECK_2] ++
    [a + 16 * b; c + 16 * d; e + 16 * f; g + 16 * h] ++ wr16 mtu ++ [win]) ++ rest)) BTP_REQ_LEN) as [Hs|_].
  { exfalso. revert Hs. rewrite zlen_app. pose proof (zlen_nonneg rest). unfold zlen at 1. simpl. unfold BTP_REQ_LEN. lia. }
  cbn -[rd16 byte_at req_slot]. unfold req_slot, byte_at. simpl.
  rewrite !unpack_low, !unpack_high by done. do 2 f_equal.
  apply (wr16_rd16 mtu [BTP_CHECK_1; BTP_CHECK_2; a + 16 * b; c + 16 * d; e + 16 * f; g + 16 * h]
           (win :: rest) Hm); [|by constructor].
  unfold nibble in *. repeat constructor; unfold BTP_CHECK_1, BTP_CHECK_2; lia.
Qed.

Lemma wr16_bytes x y : byte_ok x -> byte_ok y -> wr16 (x + 256 * y) = [x; y].
Proof.
  unfold byte_ok, wr16, wrap. intros. rewrite Z.shiftr_div_pow2 by lia. repeat f_equal; zdiv.
Qed.

(** The nibbles of a byte, put together again. *)
Lemma split_nibbles x : byte_ok x ->
  u8 (Z.land x 0x0F) + 16 * u8 (Z.land (Z.shiftr x 4) 0x0F) = x /\
  nibble (u8 (Z.land x 0x0F)) /\ nibble (u8 (Z.land (Z.shiftr x 4) 0x0F)).
Proof.
  unfold byte_ok, nibble. intros. rewrite !land_nibble, Z.shiftr_div_pow2 by lia.
  change (2 ^ 4) with 16. rewrite !u8_byte by (unfold byte_ok; zdiv). zdiv.
Qed.

Lemma btp_req_decode_exact p r cap :
  Forall byte_ok p -> btp_req_decode p = Ret r -> BTP_REQ_LEN <= cap ->
  btp_req_ok r /\ btp_req_encode r cap = Ret (take 9 p).
Proof.
  intros Hp Hd Hc. unfold btp_req_decode in Hd.
  apply res_bind_Ret in Hd as ([] & Hl & Hd). apply guard_res_Ret, Z.ltb_ge in Hl.
  apply res_bind_Ret in Hd as ([] & Hk & Hd). apply guard_res_Ret, orb_false_iff in Hk as [K1 K2].
  apply negb_false_iff, Z.eqb_eq in K1, K2.
  destruct p as [|p0 [|p1 [|p2 [|p3 [|p4 [|p5 [|p6 [|p7 [|p8 rest]]]]]]]]];
    try (unfold zlen, BTP_REQ_LEN in Hl; simpl in Hl; lia).
  pose proof (rd16_byte _ 6 Hp) as Hmtu. change (p0 = BTP_CHECK_1) in K1.
  change (p1 = BTP_CHECK_2) in K2. subst p0 p1.
  rewrite Hmtu in Hd. unfold byte_at in Hd. cbn -[req_slot Z.mul Z.add] in Hd. unfold req_slot, byte_at in Hd. simpl in Hd.
  do 9 (apply Forall_cons_iff in Hp as [? Hp]).
  destruct (split_nibbles p2) as (E2 & ? & ?); [done|].
  destruct (split_nibbles p3) as (E3 & ? & ?); [done|].
  destruct (split_nibbles p4) as (E4 & ? & ?); [done|].
  destruct (split_nibbles p5) as (E5 & ? & ?); [done|].
  injection Hd as <-. split.
  - split; [done|]. split; [by repeat (apply Forall_cons_iff; split)|].
    simpl. unfold byte_ok, in_u in *. lia.
  - unfold btp_req_encode. rewrite (proj2 (Z.ltb_ge _ _)) by done.
    cbn [guard_res res_bind rq_versions rq_mtu rq_window_size].
    rewrite req_pack_nibbles by (by repeat (apply Forall_cons_iff; split)). rewrite E2, E3, E4, E5.
    rewrite wr16_bytes by done. done.
Qed.

(** The handshake request survives the wire, and the decoder reads nothing
    an encoder did not write: a request of eight nibble slots is encoded in 9
    bytes, which decode to it in front of any further bytes; conversely the
    first 9 bytes of a string that decodes are the encoding of the result. *)
Theorem btp_req_exact cap :
  BTP_REQ_LEN <= cap ->
  (forall r rest, btp_req_ok r -> Forall byte_ok rest ->
     exists b, btp_req_encode r cap = Ret b /\ zlen b = BTP_REQ_LEN /\
               btp_req_decode (b ++ rest) = Ret r) /\
  (forall p r, Forall byte_ok p -> btp_req_decode p = Ret r ->
     btp_req_ok r /\ btp_req_encode r cap = Ret (take 9 p)).
Proof.
  intros Hc. split.
  - intros. by apply btp_req_encode_decode.
  - intros. by apply btp_req_decode_exact.
Qed.

Lemma btp_req_exact_witness :
  exists b, btp_req_encode {| rq_versions := [4; 0; 0; 0; 0; 0; 0; 0]; rq_mtu := 247;
                              rq_window_size := 6 |} 16 = Ret b /\
    zlen b = BTP_REQ_LEN /\
    btp_req_decode (b ++ [1]) = Ret {| rq_versions := [4; 0; 0; 0; 0; 0; 0; 0]; rq_mtu := 247;
                                       rq_window_size := 6 |}.
Proof.
  apply (btp_req_exact 16).
  - vm_compute. congruence.
  - repeat split; try (repeat constructor; simpl; lia); simpl; lia.
  - repeat constructor; simpl; lia.
Defined.

(** The response round trip. *)
Lemma btp_resp_roundtrip r rest cap :
  byte_ok (rs_version r) -> in_u 16 (rs_fragment_size r) -> byte_ok (rs_window_size r) ->
  Forall byte_ok rest -> BTP_RESP_LEN <= cap ->
  exists b, btp_resp_encode r cap = Ret b /\ zlen b = BTP_RESP_LEN /\
            btp_resp_decode (b ++ rest) = Ret r.
Proof.
  destruct r as [v f w]. simpl. intros Hv Hf Hw Hr Hc. unfold btp_resp_encode.
  rewrite (proj2 (Z.ltb_ge _ _)) by done. cbn [guard_res res_bind rs_version rs_fragment_size rs_window_size].
  eexists. split; [reflexivity|]. split; [done|]. unfold btp_resp_decode.
  rewrite (proj2 (Z.ltb_ge _ _)).
  2:{ pose proof (zlen_nonneg rest). rewrite zlen_app. unfold zlen at 1. simpl. unfold BTP_RESP_LEN. lia. }
  cbn -[rd16 byte_at]. unfold byte_at. simpl. do 2 f_equal.
  apply (wr16_rd16 f [BTP_CHECK_1; BTP_CHECK_2; v] (w :: rest) Hf); [|by constructor].
  repeat constructor; unfold BTP_CHECK_1, BTP_CHECK_2; unfold byte_ok in *; lia.
Qed.

(** Slots before the first zero. *)
Fixpoint offered (versions : list Z) : list Z :=
  match versions with [] => [] | v :: rest => if v =? 0 then [] else v :: offered rest end.

Lemma supports_v4_offered vs : supports_v4 vs = true <-> In BTP_VERSION (offered vs).
Proof.
  induction vs as [|v vs IH]; simpl; [done|].
  destruct (Z.eqb_spec v 0); [done|]. destruct (Z.eqb_spec v BTP_VERSION) as [->|Hne]; simpl.
  - split; [by left|done].
  - rewrite IH. split; [by right|]. by intros [|].
Qed.

(** The handshake is refused exactly when V4 is not among the versions
    offered before the first empty slot; otherwise the response always names
    a fragment size the fragmenter accepts, one that fits both MTUs where they
    allow a fragment at all, and the smaller of the two windows. *)
Theorem btp_accept_negotiates req local_att_mtu local_window :
  in_u 16 (rq_mtu req) -> in_u 16 local_att_mtu ->
  match btp_accept req local_att_mtu local_window with
  | Fail s => s = MATTER_E_TYPE /\ ~ In BTP_VERSION (offered (take BTP_VERSION_SLOTS (rq_versions req)))
  | Ret r =>
      In BTP_VERSION (offered (take BTP_VERSION_SLOTS (rq_versions req))) /\
      rs_version r = BTP_VERSION /\
      BTP_MIN_FRAGMENT <= rs_fragment_size r <= BTP_MAX_FRAGMENT /\
      rs_fragment_size r <= Z.max BTP_MIN_FRAGMENT (rq_mtu req - ATT_OVERHEAD) /\
      (ATT_OVERHEAD < local_att_mtu ->
       rs_fragment_size r <= Z.max BTP_MIN_FRAGMENT (local_att_mtu - ATT_OVERHEAD)) /\
      rs_window_size r = Z.min (rq_window_size req) local_window /\
      (forall msg seq, zlen msg <= 0xFFFF ->
         exists tx, btp_tx_init (Some msg) (zlen msg) (rs_fragment_size r) seq = Ret tx)
  end.
Proof.
  intros Hm Hl. unfold btp_accept. pose proof (supports_v4_offered (take BTP_VERSION_SLOTS (rq_versions req))) as Hs.
  destruct (supports_v4 _); cbn [negb guard_res res_bind].
  2:{ split; [done|]. rewrite <- Hs. done. }
  split; [by apply Hs|]. split; [done|]. cbn [rs_fragment_size rs_window_size].
  match goal with |- (_ <= ?e <= _) /\ _ => set (frag := e) end.
  assert (BTP_MIN_FRAGMENT <= frag <= BTP_MAX_FRAGMENT /\
    frag <= Z.max BTP_MIN_FRAGMENT (rq_mtu req - ATT_OVERHEAD) /\
    (ATT_OVERHEAD < local_att_mtu -> frag <= Z.max BTP_MIN_FRAGMENT (local_att_mtu - ATT_OVERHEAD)))
    as (H1 & H2 & H3).
  { unfold frag, BTP_MIN_FRAGMENT, BTP_MAX_FRAGMENT, ATT_OVERHEAD, in_u in *. clear frag.
    assert (forall x, 3 < x < 2 ^ 16 -> u16 (x - 3) = x - 3) as Hw
      by (intros; apply wrap_id; unfold in_u; lia).
    destruct (Z.ltb_spec 3 (rq_mtu req)); [rewrite (Hw (rq_mtu req)) by lia|]; cbn [andb];
    (destruct (Z.ltb_spec 3 local_att_mtu); [rewrite (Hw local_att_mtu) by lia|]); zcmp_cases. }
  repeat apply conj; try done; try apply H1.
  - destruct (Z.ltb_spec (rq_window_size req) local_window); lia.
  - intros msg seq Hz. unfold btp_tx_init.
    rewrite (proj2 (Z.ltb_ge frag _)), (proj2 (Z.ltb_ge _ frag)), (proj2 (Z.ltb_ge _ (zlen msg))) by (done || apply H1).
    eexists. reflexivity.
Qed.

Lemma btp_accept_negotiates_witness :
  match btp_accept {| rq_versions := [4; 0; 0; 0; 0; 0; 0; 0]; rq_mtu := 247; rq_window_size := 6 |} 100 5 with
  | Ret r => rs_fragment_size r = 97 /\ rs_window_size r = Z.min 6 5
  | Fail _ => False
  end.
Proof.
  pose proof (btp_accept_negotiates {| rq_versions := [4; 0; 0; 0; 0; 0; 0; 0]; rq_mtu := 247; rq_window_size := 6 |}
    100 5 ltac:(vm_compute; split; congruence) ltac:(vm_compute; split; congruence)) as H.
  destruct (btp_accept _ 100 5) as [r|s] eqn:E.
  - split; [|apply H]. vm_compute in E. by injection E as <-.
  - vm_compute in E. discriminate.
Defined.
