(* ===== verification/MatterMrp.v ===== *)
(** * Reliable messaging: backoff, replay window, retransmission

    Models [modules/ultrawidelock_matter/src/matter_mrp.c] and its header.
    Instants are 32-bit milliseconds of a clock that wraps; the backoff is
    computed in 64-bit unsigned arithmetic. *)

From Stdlib Require Import ZArith Lia Bool.
From stdpp Require Import base list numbers.
From S2P Require Import Prelude MatterStatus Wire.

Local Open Scope Z_scope.

Definition MRP_MARGIN_NUM : Z := 1127.
Definition MRP_MARGIN_DEN : Z := 1024.
Definition MRP_BASE_NUM : Z := 16.
Definition MRP_BASE_DEN : Z := 10.
Definition MRP_JITTER_BASE : Z := 1024.
Definition MRP_THRESHOLD : Z := 1.
Definition MRP_MAX_EXP : Z := 4.
Definition MRP_MAX_TRANSMISSIONS : Z := 5.
Definition MRP_STANDALONE_ACK_MS : Z := 200.
Definition MRP_SENDER_BOOST_MS : Z := 1500.
Definition MRP_WINDOW_BITS : Z := 32.
Definition MRP_MAX_DELAY_MS : Z := 0x40000000.
Definition MRP_FUTURE_LIMIT : Z := 0x7FFFFFFF.

(** ** Time *)

Definition elapsed (now since : Z) : Z := i32 (u32 (now - since)).

Definition reached (now deadline : Z) : bool := 0 <=? elapsed now deadline.

(** ** The backoff schedule *)

Definition backoff_exponent (send_count : Z) : Z :=
  let n := if send_count =? 0 then 1 else send_count in
  let e := if MRP_THRESHOLD <? n then n - MRP_THRESHOLD else 0 in
  if MRP_MAX_EXP <? e then MRP_MAX_EXP else e.

(** The loop that accumulates the ratio. *)
Definition backoff_ratio (exponent : Z) : Z * Z :=
  Nat.iter (Z.to_nat exponent)
    (fun '(num, den) => (u64 (num * MRP_BASE_NUM), u64 (den * MRP_BASE_DEN))) (1, 1).

Definition mrp_backoff_ms (base_ms send_count jitter : Z) : Z :=
  let t := u64 (base_ms * MRP_MARGIN_NUM) / MRP_MARGIN_DEN in
  let '(num, den) := backoff_ratio (backoff_exponent send_count) in
  let t := u64 (t * num) / den in
  let t := u64 (t * (MRP_JITTER_BASE + jitter)) / MRP_JITTER_BASE in
  u32 (if MRP_MAX_DELAY_MS <? t then MRP_MAX_DELAY_MS else t).

(** [backoff + SENDER_BOOST], clamped: the delay of a deadline. *)
Definition mrp_delay_ms (base_ms send_count jitter : Z) : Z :=
  let delay := mrp_backoff_ms base_ms send_count jitter + MRP_SENDER_BOOST_MS in
  if MRP_MAX_DELAY_MS <? delay then MRP_MAX_DELAY_MS else delay.

(** The loop over the send counts still to come. *)
Fixpoint horizon_loop (base_ms : Z) (counts : list Z) (horizon : Z) : Z :=
  match counts with
  | [] => u32 horizon
  | send_count :: rest =>
      let horizon := horizon + mrp_delay_ms base_ms send_count 255 in
      if MRP_MAX_DELAY_MS <=? horizon then MRP_MAX_DELAY_MS
      else horizon_loop base_ms rest horizon
  end.

Definition mrp_retry_horizon_ms (base_ms : Z) : Z := horizon_loop base_ms [1; 2; 3; 4; 5] 0.

(** ** The replay window *)

Record mrp_window := { w_max : Z; w_bitmap : Z; w_synced : bool }.

#[export] Instance mrp_window_eta : Eta mrp_window := fun w =>
  {| w_max := w_max w; w_bitmap := w_bitmap w; w_synced := w_synced w |}.

Definition mrp_window_init : mrp_window := {| w_max := 0; w_bitmap := 0; w_synced := false |}.

Definition mrp_window_check (w : mrp_window) (counter : Z) : matter_status :=
  if negb (w_synced w) then MATTER_OK else
  let behind := u32 (w_max w - counter) in
  if behind =? 0 then MATTER_E_DUP else
  if behind <=? MRP_WINDOW_BITS then
    let bit := u32 (Z.shiftl 1 (behind - 1)) in
    if negb (Z.land (w_bitmap w) bit =? 0) then MATTER_E_DUP else MATTER_OK
  else if u32 (counter - w_max w) <=? MRP_FUTURE_LIMIT then MATTER_OK
  else MATTER_E_DUP.

Definition mrp_window_commit (w : mrp_window) (counter : Z) : mrp_window :=
  if negb (w_synced w) then {| w_max := counter; w_bitmap := 0; w_synced := true |} else
  let behind := u32 (w_max w - counter) in
  if behind =? 0 then w else
  if behind <=? MRP_WINDOW_BITS then
    w <| w_bitmap := Z.lor (w_bitmap w) (u32 (Z.shiftl 1 (behind - 1))) |>
  else
    let ahead := u32 (counter - w_max w) in
    let bitmap := if MRP_WINDOW_BITS <=? ahead then 0 else u32 (Z.shiftl (w_bitmap w) ahead) in
    let bitmap := if ahead <=? MRP_WINDOW_BITS
                  then Z.lor bitmap (u32 (Z.shiftl 1 (ahead - 1))) else bitmap in
    w <| w_bitmap := bitmap |> <| w_max := counter |>.

(** ** Per-exchange reliability *)

Record mrp := {
  mp_base_ms : Z;
  mp_tx_counter : Z;
  mp_tx_due_ms : Z;
  mp_ack_counter : Z;
  mp_ack_due_ms : Z;
  mp_send_count : Z;
  mp_tx_pending : bool;
  mp_ack_pending : bool;
}.

#[export] Instance mrp_eta : Eta mrp := fun m =>
  {| mp_base_ms := mp_base_ms m; mp_tx_counter := mp_tx_counter m;
     mp_tx_due_ms := mp_tx_due_ms m; mp_ack_counter := mp_ack_counter m;
     mp_ack_due_ms := mp_ack_due_ms m; mp_send_count := mp_send_count m;
     mp_tx_pending := mp_tx_pending m; mp_ack_pending := mp_ack_pending m |}.

Inductive mrp_action := MRP_IDLE | MRP_RETRANSMIT | MRP_SEND_ACK | MRP_GIVE_UP.

Definition mrp_init (base_ms : Z) : mrp :=
  {| mp_base_ms := base_ms; mp_tx_counter := 0; mp_tx_due_ms := 0; mp_ack_counter := 0;
     mp_ack_due_ms := 0; mp_send_count := 0; mp_tx_pending := false; mp_ack_pending := false |}.

Definition mrp_arm (m : mrp) (counter now_ms jitter : Z) : mrp * matter_status :=
  if mp_tx_pending m && negb (mp_tx_counter m =? counter) then (m, MATTER_E_STATE) else
  let m := if mp_tx_pending m then m
           else m <| mp_tx_counter := counter |> <| mp_send_count := 0 |>
                  <| mp_tx_pending := true |> in
  let m := if mp_send_count m <? 255 then m <| mp_send_count := mp_send_count m + 1 |> else m in
  let delay := mrp_delay_ms (mp_base_ms m) (mp_send_count m) jitter in
  (m <| mp_tx_due_ms := u32 (now_ms + delay) |>, MATTER_OK).

Definition mrp_on_ack (m : mrp) (counter : Z) : mrp * matter_status :=
  if negb (mp_tx_pending m) then (m, MATTER_E_STATE) else
  if negb (mp_tx_counter m =? counter) then (m, MATTER_E_INVAL) else
  (m <| mp_tx_pending := false |> <| mp_send_count := 0 |>, MATTER_OK).

Definition mrp_on_reliable_recv (m : mrp) (counter now_ms : Z) : mrp :=
  m <| mp_ack_counter := counter |> <| mp_ack_due_ms := u32 (now_ms + MRP_STANDALONE_ACK_MS) |>
    <| mp_ack_pending := true |>.

Definition mrp_take_ack (m : mrp) : mrp * option Z :=
  if negb (mp_ack_pending m) then (m, None)
  else (m <| mp_ack_pending := false |>, Some (mp_ack_counter m)).

Definition mrp_poll (m : mrp) (now_ms : Z) : mrp_action * option Z :=
  if mp_tx_pending m && reached now_ms (mp_tx_due_ms m) then
    (if MRP_MAX_TRANSMISSIONS <=? mp_send_count m then MRP_GIVE_UP else MRP_RETRANSMIT,
     Some (mp_tx_counter m))
  else if mp_ack_pending m && reached now_ms (mp_ack_due_ms m) then
    (MRP_SEND_ACK, Some (mp_ack_counter m))
  else (MRP_IDLE, None).

Definition mrp_next_deadline (m : mrp) : option Z :=
  if mp_tx_pending m && mp_ack_pending m then
    Some (if elapsed (mp_ack_due_ms m) (mp_tx_due_ms m) <? 0
          then mp_ack_due_ms m else mp_tx_due_ms m)
  else if mp_tx_pending m then Some (mp_tx_due_ms m)
  else if mp_ack_pending m then Some (mp_ack_due_ms m)
  else None.

(** * Properties of reliable messaging

    The replay window refines the set of counters seen, at absolute positions;
    hence no counter is accepted twice within a turn of the 32-bit space.  The
    backoff is the formula of the header without overflow; a message that is
    never acknowledged is sent five times and given up within the horizon; one
    timer armed at the next deadline misses nothing. *)

Local Open Scope Z_scope.

Lemma wrap_eq w a : wrap w a = a mod 2 ^ w.
Proof. done. Qed.

(** ** The window as a set of positions

    [M] is the absolute position of the high-water mark, [seen] the positions
    accepted.  A 32-bit counter is read at most 32 behind the mark or else
    ahead of it. *)

Definition position (M c : Z) : Z :=
  let behind := u32 (M - c) in if behind <=? 32 then M - behind else M + u32 (c - M).

Definition spec_accept (M : Z) (seen : list Z) (c : Z) : Prop :=
  let p := position M c in
  M < p <= M + 0x7FFFFFFF \/ (M - 32 <= p < M /\ ~ In p seen).

Record window_rel (w : mrp_window) (M : Z) (seen : list Z) : Prop := {
  wr_synced : w_synced w = true;
  wr_max : w_max w = u32 M;
  wr_bitmap : in_u 32 (w_bitmap w);
  wr_le : forall p, In p seen -> p <= M;
  wr_mark : In M seen;
  wr_bits : forall k, 1 <= k <= 32 -> Z.testbit (w_bitmap w) (k - 1) = true <-> In (M - k) seen;
}.

Lemma u32_sub_l a c : u32 (u32 a - c) = u32 (a - c).
Proof. apply Zminus_mod_idemp_l. Qed.

Lemma u32_sub_r a c : u32 (a - u32 c) = u32 (a - c).
Proof. apply Zminus_mod_idemp_r. Qed.

(** The gap measured the other way round. *)
Lemma u32_flip a c : u32 (a - c) <> 0 -> u32 (c - a) = 2 ^ 32 - u32 (a - c).
Proof.
  intros Hn. unfold wrap in *. replace (c - a) with (- (a - c)) by lia.
  apply Z.mod_opp_l_nz; [lia|done].
Qed.

Lemma u32_bit k : 0 <= k < 32 -> u32 (Z.shiftl 1 k) = Z.shiftl 1 k.
Proof.
  intros. apply wrap_id. rewrite Z.shiftl_mul_pow2, Z.mul_1_l by lia.
  split; [apply Z.pow_nonneg; lia|]. apply Z.pow_lt_mono_r; lia.
Qed.

Lemma testbit_shiftl1 k i : 0 <= k -> 0 <= i -> Z.testbit (Z.shiftl 1 k) i = (i =? k).
Proof.
  intros. rewrite Z.shiftl_mul_pow2, Z.mul_1_l by done.
  destruct (Z.eqb_spec i k) as [->|]; [by apply Z.pow2_bits_true|apply Z.pow2_bits_false; lia].
Qed.

(** The two places a counter can be read at. *)
Lemma position_cases M c :
  let b := u32 (M - c) in
  (b = 0 /\ position M c = M) \/ (1 <= b <= 32 /\ position M c = M - b) \/
  (32 < b /\ position M c = M + u32 (c - M) /\ 0 < u32 (c - M) < 2 ^ 32 - 32).
Proof.
  intros b. pose proof (wrap_range 32 (M - c) ltac:(lia)) as Hb. fold b in Hb. unfold in_u in Hb.
  unfold position. fold b. destruct (Z.leb_spec b 32).
  - destruct (Z.eq_dec b 0); [left|right; left]; lia.
  - right. right. rewrite u32_flip by (fold b; lia). fold b. lia.
Qed.

Lemma window_check_spec w M seen c :
  window_rel w M seen -> mrp_window_check w c = MATTER_OK <-> spec_accept M seen c.
Proof.
  intros [Hs Hm Hbm Hle Hmark Hbits]. unfold mrp_window_check, spec_accept.
  rewrite Hs, Hm, u32_sub_l, u32_sub_r. cbn [negb].
  destruct (position_cases M c) as [[Hb Hp]|[[Hb Hp]|(Hb & Hp & Hr)]]; rewrite Hp.
  - rewrite Hb. simpl. split; [done|]. lia.
  - rewrite (proj2 (Z.eqb_neq _ _)), (proj2 (Z.leb_le _ _)) by (unfold MRP_WINDOW_BITS; lia).
    rewrite u32_bit, land_bit, negb_involutive by lia. specialize (Hbits _ Hb).
    destruct (Z.testbit _ _); split; try done.
    + intros [|[_ Hn]]; [lia|]. exfalso. by apply Hn, Hbits.
    + intros _. right. split; [lia|]. intros Hin. by apply Hbits in Hin.
  - rewrite (proj2 (Z.eqb_neq _ _)), (proj2 (Z.leb_gt _ _)) by (unfold MRP_WINDOW_BITS; lia).
    unfold MRP_FUTURE_LIMIT. destruct (Z.leb_spec (u32 (c - M)) 0x7FFFFFFF); split; try done; lia.
Qed.

(** An accepted counter is a position not yet seen. *)
Lemma spec_accept_fresh M seen c :
  (forall p, In p seen -> p <= M) -> spec_accept M seen c -> ~ In (position M c) seen.
Proof. intros Hle [Hp|[_ Hn]] Hin; [|done]. apply Hle in Hin. lia. Qed.

Lemma position_mod M c : in_u 32 c -> u32 (position M c) = c.
Proof.
  intros Hc. unfold position. assert (M - c = M - c) by done.
  destruct (u32 (M - c) <=? 32); unfold wrap.
  - rewrite Zminus_mod_idemp_r. replace (M - (M - c)) with c by lia. by apply Z.mod_small.
  - rewrite Zplus_mod_idemp_r. replace (M + (c - M)) with c by lia. by apply Z.mod_small.
Qed.

(** Sliding the window: the bits of the old marks, and the old mark itself. *)
Lemma slide_bits bm a k :
  0 < a -> 1 <= k <= 32 ->
  let bitmap := if MRP_WINDOW_BITS <=? a then 0 else u32 (Z.shiftl bm a) in
  let bitmap := if a <=? MRP_WINDOW_BITS then Z.lor bitmap (u32 (Z.shiftl 1 (a - 1))) else bitmap in
  Z.testbit bitmap (k - 1) = if k <? a then false else if k =? a then true else Z.testbit bm (k - a - 1).
Proof.
  unfold MRP_WINDOW_BITS. intros Ha Hk. cbv zeta.
  destruct (Z.leb_spec a 32).
  - rewrite u32_bit, Z.lor_spec, testbit_shiftl1 by lia.
    destruct (Z.leb_spec 32 a).
    + rewrite Z.bits_0. destruct (Z.eqb_spec (k - 1) (a - 1)), (Z.ltb_spec k a), (Z.eqb_spec k a); simpl; lia || done.
    + unfold wrap. rewrite Z.mod_pow2_bits_low, Z.shiftl_spec by lia.
      replace (k - 1 - a) with (k - a - 1) by lia.
      destruct (Z.eqb_spec (k - 1) (a - 1)), (Z.ltb_spec k a), (Z.eqb_spec k a); try lia.
      all: rewrite ?orb_true_r, ?orb_false_r, ?(Z.testbit_neg_r bm (k - a - 1)) by lia; done.
  - destruct (Z.leb_spec 32 a); [|lia]. rewrite Z.bits_0.
    destruct (Z.ltb_spec k a); [done|lia].
Qed.

Lemma window_commit_spec w M seen c :
  window_rel w M seen -> in_u 32 c -> spec_accept M seen c ->
  window_rel (mrp_window_commit w c) (Z.max M (position M c)) (position M c :: seen).
Proof.
  intros Hrel Hc Hacc. pose proof Hrel as [Hs Hm Hbm Hle Hmark Hbits].
  pose proof (position_mod M c Hc) as Hmod. unfold spec_accept in Hacc.
  unfold mrp_window_commit. rewrite Hs, Hm, u32_sub_l, u32_sub_r. cbn [negb].
  destruct (position_cases M c) as [[Hb Hp]|[[Hb Hp]|(Hb & Hp & Hr)]]; rewrite Hp in *; [lia| |].
  - rewrite (proj2 (Z.eqb_neq _ _)), (proj2 (Z.leb_le _ _)) by (unfold MRP_WINDOW_BITS; lia).
    rewrite u32_bit by lia. set (b := u32 (M - c)) in *. rewrite Z.max_l by lia.
    split; simpl; try done.
    + apply lor_in_u; [lia|done|]. rewrite <- (u32_bit (b - 1)) by lia. apply wrap_range. lia.
    + intros p [<-|Hin]; [lia|by apply Hle].
    + by right.
    + intros k Hk. rewrite Z.lor_spec, testbit_shiftl1 by lia. rewrite orb_true_iff, Hbits, Z.eqb_eq by done.
      split; [intros [|]|intros [|]]; auto; [left; lia|right; lia].
  - rewrite (proj2 (Z.eqb_neq _ _)), (proj2 (Z.leb_gt _ _)) by (unfold MRP_WINDOW_BITS; lia).
    set (a := u32 (c - M)) in *. rewrite Z.max_r by lia. split; cbn [w_synced w_max w_bitmap field_set].
    + done.
    + done.
    + unfold MRP_WINDOW_BITS. simpl. destruct (Z.leb_spec 32 a), (Z.leb_spec a 32); try (split; simpl; lia).
      all: try (apply lor_in_u; [lia|try (split; simpl; lia)|]); apply wrap_range; lia.
    + intros p [<-|Hin]; [lia|]. apply Hle in Hin. lia.
    + by left.
    + intros k Hk. etrans; [rewrite (slide_bits (w_bitmap w) a k) by lia; reflexivity|].
      destruct (Z.ltb_spec k a); [|destruct (Z.eqb_spec k a)].
      * split; [done|]. intros [|Hin]; [lia|]. apply Hle in Hin. lia.
      * split; [|done]. intros _. right. by replace (M + a - k) with M by lia.
      * rewrite (Hbits (k - a)) by lia. replace (M + a - k) with (M - (k - a)) by lia.
        split; [by right|]. intros [|]; [lia|done].
Qed.

(** The first counter synchronises the window. *)
Lemma window_sync c w : in_u 32 c -> w_synced w = false ->
  window_rel (mrp_window_commit w c) c [c].
Proof.
  intros Hc Hs. unfold mrp_window_commit. rewrite Hs. split; simpl; try done.
  - symmetry. by apply wrap_id.
  - intros p [<-|[]]. lia.
  - by left.
  - intros k Hk. rewrite Z.bits_0. split; [done|]. intros [|[]]. lia.
Qed.

(** The bitmap window implements a set of seen positions: in every state
    reached with mark [M] and history [seen], a counter passes the check
    exactly when it is at most 2^31 - 1 ahead of the mark or at most 32 behind
    it and not in the history, and committing a counter that passed records
    exactly it. *)
Theorem mrp_window_refines w M seen c :
  window_rel w M seen -> in_u 32 c ->
  (mrp_window_check w c = MATTER_OK <-> spec_accept M seen c) /\
  (mrp_window_check w c = MATTER_OK ->
   ~ In (position M c) seen /\
   window_rel (mrp_window_commit w c) (Z.max M (position M c)) (position M c :: seen)).
Proof.
  intros Hrel Hc. pose proof (window_check_spec w M seen c Hrel) as Hchk. split; [done|].
  intros Hok. apply Hchk in Hok. split.
  - apply spec_accept_fresh; [apply Hrel|done].
  - by apply window_commit_spec.
Qed.

(** ** Runs of the window

    The receiver checks every counter and commits those that pass; [adv] sums
    how far the mark moved. *)

Fixpoint window_run (w : mrp_window) (cs : list Z) (acc : list Z) (adv : Z)
    : mrp_window * list Z * Z :=
  match cs with
  | [] => (w, acc, adv)
  | c :: rest =>
      match mrp_window_check w c with
      | MATTER_OK =>
          let w' := mrp_window_commit w c in
          window_run w' rest (c :: acc)
            (adv + (if w_synced w then u32 (w_max w' - w_max w) else 0))
      | _ => window_run w rest acc adv
      end
  end.

(** How far an accepted counter moves the mark. *)
Lemma commit_advance w M seen c :
  window_rel w M seen -> in_u 32 c -> spec_accept M seen c ->
  u32 (w_max (mrp_window_commit w c) - w_max w) = Z.max M (position M c) - M.
Proof.
  intros Hrel Hc Hacc. destruct (window_commit_spec w M seen c Hrel Hc Hacc) as [_ -> _ _ _ _].
  destruct Hrel as [_ -> _ _ _ _]. rewrite u32_sub_l, u32_sub_r.
  apply wrap_id. destruct Hacc; unfold in_u; lia.
Qed.

Definition window_hist (M0 M : Z) (acc seen : list Z) : Prop :=
  acc = map (wrap 32) seen /\ List.NoDup seen /\ forall p, In p seen -> M0 - 32 <= p <= M.

Lemma window_run_hist cs w M0 M seen acc adv :
  Forall (in_u 32) cs -> window_rel w M seen -> window_hist M0 M acc seen -> adv = M - M0 -> M0 <= M ->
  let '(w', acc', adv') := window_run w cs acc adv in
  exists M' seen', window_rel w' M' seen' /\ window_hist M0 M' acc' seen' /\ adv' = M' - M0.
Proof.
  intros Hcs. revert w M seen acc adv. induction Hcs as [|c cs Hc _ IH];
    intros w M seen acc adv Hrel Hh Hadv HM; cbn [window_run]; [by eauto|].
  pose proof (window_check_spec w M seen c Hrel) as Hchk.
  destruct (mrp_window_check w c); try exact (IH w M seen acc adv Hrel Hh Hadv HM).
  assert (spec_accept M seen c) as Hacc by (by apply Hchk).
  pose proof Hrel as [Hs _ _ Hle _ _]. rewrite Hs, (commit_advance w M seen c Hrel Hc Hacc).
  apply (IH _ (Z.max M (position M c)) (position M c :: seen)); [|..|lia|lia].
  - by apply window_commit_spec.
  - destruct Hh as (-> & Hnd & Hr). split; [|split].
    + simpl. by rewrite (position_mod M c Hc).
    + constructor; [|done]. by apply spec_accept_fresh.
    + intros p [<-|Hin]; [destruct Hacc; lia|]. specialize (Hr p Hin). lia.
Qed.

Lemma nodup_wrap lo hi l :
  hi - lo < 2 ^ 32 -> List.NoDup l -> (forall p, In p l -> lo <= p <= hi) ->
  List.NoDup (map (wrap 32) l).
Proof.
  intros Hr Hnd Hl. induction Hnd as [|p l Hp Hnd IH]; [constructor|]. simpl. constructor.
  - intros Hin. apply in_map_iff in Hin as (q & He & Hq). apply Hp.
    assert (p = q) as ->; [|done]. pose proof (Hl p (or_introl eq_refl)).
    pose proof (Hl q (or_intror Hq)). unfold wrap in He. zdiv.
  - apply IH. intros q Hq. apply Hl. by right.
Qed.

Lemma window_no_replay cs :
  Forall (in_u 32) cs ->
  let '(_, acc, adv) := window_run mrp_window_init cs [] 0 in
  adv < 2 ^ 32 - 32 -> List.NoDup acc.
Proof.
  intros Hcs. destruct Hcs as [|c cs Hc Hcs]; [constructor|]. cbn. change (0 + 0) with 0.
  assert (window_rel {| w_max := c; w_bitmap := 0; w_synced := true |} c [c]) as Hrel
    by (apply (window_sync c mrp_window_init); done).
  pose proof (window_run_hist cs _ c c [c] [c] 0 Hcs Hrel) as Hrun.
  destruct (window_run _ cs [c] 0) as [[w acc] adv].
  destruct Hrun as (M & seen & _ & (-> & Hnd & Hr) & ->); try lia.
  { split; [|split].
    - cbn [map]. by rewrite (wrap_id 32 c Hc).
    - apply List.NoDup_cons; [by intros []|apply List.NoDup_nil].
    - intros p [<-|[]]. lia. }
  intros Hadv. apply (nodup_wrap (c - 32) M); [lia|done|done].
Qed.

(** The bound is needed: three jumps take the mark round the 32-bit space, and
    the first counter is accepted again. *)
Lemma window_wraps_round :
  window_run mrp_window_init [1; 0x80000000; 0xFFFFFFFF; 1] [] 0
  = ({| w_max := 1; w_bitmap := 2; w_synced := true |}, [1; 0xFFFFFFFF; 0x80000000; 1], 2 ^ 32).
Proof. vm_compute. reflexivity. Qed.

(** No message counter is accepted twice: over any sequence of counters
    offered to a fresh window, as long as the mark has not moved through the
    whole 32-bit space, the accepted ones are pairwise different. *)
Theorem mrp_no_replay cs :
  Forall (in_u 32) cs ->
  let '(_, acc, adv) := window_run mrp_window_init cs [] 0 in
  adv < 2 ^ 32 - 32 -> List.NoDup acc.
Proof. apply window_no_replay. Qed.

Lemma mrp_no_replay_witness :
  let '(_, acc, adv) := window_run mrp_window_init
    [4294967290; 3; 4294967290; 1; 3; 1; 4294967295; 40] [] 0 in
  acc = [40; 4294967295; 1; 3; 4294967290] /\ List.NoDup acc.
Proof.
  pose proof (mrp_no_replay [4294967290; 3; 4294967290; 1; 3; 1; 4294967295; 40]
    ltac:(apply in_u_all; reflexivity)) as H.
  vm_compute window_run in *. split; [reflexivity|]. apply H. vm_compute. reflexivity.
Defined.

Lemma mrp_window_refines_witness :
  ~ In (position 100 99) [100] /\
  window_rel (mrp_window_commit (mrp_window_commit mrp_window_init 100) 99) 100 [99; 100].
Proof.
  apply (mrp_window_refines (mrp_window_commit mrp_window_init 100) 100 [100] 99).
  - apply window_sync; [vm_compute; split; congruence|reflexivity].
  - vm_compute. split; congruence.
  - reflexivity.
Defined.

(** ** The backoff schedule *)

(** The formula of the header, without machine widths. *)
Definition backoff_formula (base_ms send_count jitter : Z) : Z :=
  let e := Z.min 4 (Z.max 0 (Z.max 1 send_count - 1)) in
  base_ms * 1127 / 1024 * 16 ^ e / 10 ^ e * (1024 + jitter) / 1024.

Lemma backoff_exponent_spec n : 0 <= n ->
  backoff_exponent n = Z.min 4 (Z.max 0 (Z.max 1 n - 1)).
Proof.
  intros. unfold backoff_exponent, MRP_THRESHOLD, MRP_MAX_EXP.
  destruct (Z.eqb_spec n 0); zcmp_cases.
Qed.

Lemma exponent_range n : 0 <= Z.min 4 (Z.max 0 (Z.max 1 n - 1)) <= 4.
Proof. lia. Qed.

Lemma backoff_ratio_spec e : 0 <= e <= 4 -> backoff_ratio e = (16 ^ e, 10 ^ e).
Proof.
  intros. assert (e = 0 \/ e = 1 \/ e = 2 \/ e = 3 \/ e = 4) as He by lia.
  destruct He as [->|[->|[->|[->| ->]]]]; reflexivity.
Qed.

(** Nothing on the way exceeds 64 bits. *)
Lemma backoff_stages base e :
  in_u 32 base -> 0 <= e <= 4 ->
  0 <= base * 1127 / 1024 < 2 ^ 33 /\
  0 <= base * 1127 / 1024 * 16 ^ e / 10 ^ e <= base * 1127 / 1024 * 65536 / 10000.
Proof.
  intros Hb He. unfold in_u in Hb. split; [zdiv|].
  assert (0 <= base * 1127 / 1024) by zdiv. set (t := base * 1127 / 1024) in *. clearbody t.
  assert (e = 0 \/ e = 1 \/ e = 2 \/ e = 3 \/ e = 4) as Hc by lia.
  destruct Hc as [->|[->|[->|[->| ->]]]]; simpl Z.pow; zdiv.
Qed.

Lemma backoff_exact base n j :
  in_u 32 base -> 0 <= n -> byte_ok j ->
  mrp_backoff_ms base n j = Z.min MRP_MAX_DELAY_MS (backoff_formula base n j).
Proof.
  intros Hb Hn Hj. unfold mrp_backoff_ms, backoff_formula.
  rewrite backoff_exponent_spec by done. pose proof (exponent_range n) as He.
  set (e := Z.min 4 _) in *. clearbody e. rewrite backoff_ratio_spec by done.
  destruct (backoff_stages base e Hb He) as [Ht Hq].
  unfold MRP_MARGIN_NUM, MRP_MARGIN_DEN, MRP_JITTER_BASE, MRP_MAX_DELAY_MS, in_u, byte_ok in *.
  rewrite (wrap_id 64 (base * 1127)) by (unfold in_u; lia).
  set (t := base * 1127 / 1024) in *.
  assert (0 < 16 ^ e <= 65536) as Hp.
  { split; [apply Z.pow_pos_nonneg; lia|]. change 65536 with (16 ^ 4). apply Z.pow_le_mono_r; lia. }
  rewrite (wrap_id 64 (t * 16 ^ e)) by (unfold in_u; nia).
  set (q := t * 16 ^ e / 10 ^ e) in *. assert (q < 2 ^ 36) by (assert (t * 65536 / 10000 < 2 ^ 36) by zdiv; lia).
  rewrite (wrap_id 64 (q * (1024 + j))) by (unfold in_u; nia).
  set (r := q * (1024 + j) / 1024). assert (0 <= r) by (apply Z.div_pos; nia).
  destruct (Z.ltb_spec 0x40000000 r); rewrite wrap_id; unfold in_u; lia.
Qed.

Lemma formula_mono base base' n n' j j' :
  0 <= base <= base' -> 0 <= n <= n' -> 0 <= j <= j' ->
  0 <= backoff_formula base n j <= backoff_formula base' n' j'.
Proof.
  intros Hb Hn Hj. unfold backoff_formula.
  assert (forall e e' t t', 0 <= e <= e' -> e' <= 4 -> 0 <= t <= t' ->
    0 <= t * 16 ^ e / 10 ^ e <= t' * 16 ^ e' / 10 ^ e') as Hmid.
  { intros e e' t t' He He' Ht.
    assert (e = 0 \/ e = 1 \/ e = 2 \/ e = 3 \/ e = 4) as Hc by lia.
    assert (e' = 0 \/ e' = 1 \/ e' = 2 \/ e' = 3 \/ e' = 4) as Hc' by lia.
    destruct Hc as [->|[->|[->|[->| ->]]]]; destruct Hc' as [->|[->|[->|[->| ->]]]]; try lia;
      simpl Z.pow; zdiv. }
  assert (0 <= base * 1127 / 1024 <= base' * 1127 / 1024) as Ht by zdiv.
  specialize (Hmid (Z.min 4 (Z.max 0 (Z.max 1 n - 1))) (Z.min 4 (Z.max 0 (Z.max 1 n' - 1)))
    _ _ ltac:(lia) ltac:(lia) Ht).
  set (q := base * 1127 / 1024 * _ / _) in *. set (q' := base' * 1127 / 1024 * _ / _) in *. clearbody q q'.
  split; [apply Z.div_pos; nia|]. apply Z.div_le_mono; nia.
Qed.

(** The integer backoff is the specified formula: none of its 64-bit
    intermediates overflows for any peer-supplied interval, the result is the
    formula clamped at 2^30 ms, and it grows with the interval, with the number
    of transmissions and with the jitter. *)
Theorem mrp_backoff_spec base base' n n' j j' :
  in_u 32 base -> in_u 32 base' -> 0 <= n -> byte_ok j -> byte_ok j' ->
  base <= base' -> n <= n' -> j <= j' ->
  mrp_backoff_ms base n j = Z.min MRP_MAX_DELAY_MS (backoff_formula base n j) /\
  0 <= mrp_backoff_ms base n j <= MRP_MAX_DELAY_MS /\
  mrp_backoff_ms base n j <= mrp_backoff_ms base' n' j'.
Proof.
  intros Hb Hb' Hn Hj Hj' Hbb Hnn Hjj. unfold in_u, byte_ok in *.
  rewrite !backoff_exact by (unfold in_u, byte_ok; lia).
  pose proof (formula_mono base base' n n' j j' ltac:(lia) ltac:(lia) ltac:(lia)).
  unfold MRP_MAX_DELAY_MS. lia.
Qed.

Lemma mrp_backoff_spec_witness :
  mrp_backoff_ms 300 1 0 = Z.min MRP_MAX_DELAY_MS (backoff_formula 300 1 0) /\
  0 <= mrp_backoff_ms 300 1 0 <= MRP_MAX_DELAY_MS /\
  mrp_backoff_ms 300 1 0 <= mrp_backoff_ms 500 3 7.
Proof. apply mrp_backoff_spec; vm_compute; try split; congruence. Defined.

(** ** Time that wraps *)

Lemma elapsed_abs a b : - 2 ^ 31 <= a - b < 2 ^ 31 -> elapsed (u32 a) (u32 b) = a - b.
Proof.
  intros H. unfold elapsed. rewrite u32_sub_l, u32_sub_r. apply (swrap_wrap 32); [lia|]. exact H.
Qed.

Lemma reached_abs a b : - 2 ^ 31 <= a - b < 2 ^ 31 -> reached (u32 a) (u32 b) = (b <=? a).
Proof.
  intros H. unfold reached. rewrite elapsed_abs by done.
  destruct (Z.leb_spec 0 (a - b)), (Z.leb_spec b a); lia.
Qed.

Lemma delay_range base n j :
  in_u 32 base -> 0 <= n -> byte_ok j ->
  MRP_SENDER_BOOST_MS <= mrp_delay_ms base n j <= MRP_MAX_DELAY_MS.
Proof.
  intros Hb Hn Hj. unfold mrp_delay_ms. rewrite backoff_exact by done.
  unfold in_u, byte_ok in *.
  pose proof (formula_mono base base n n j j ltac:(lia) ltac:(lia) ltac:(lia)).
  unfold MRP_SENDER_BOOST_MS, MRP_MAX_DELAY_MS.
  destruct (Z.ltb_spec 0x40000000 (Z.min 0x40000000 (backoff_formula base n j) + 1500)); lia.
Qed.

(** ** A message that is never acknowledged *)

(** Send at time [t]; wait for the deadline; poll; send again while asked
    to.  The result is the number of transmissions and the time of giving up.
    The times are absolute, the node sees them modulo 2^32. *)
Fixpoint mrp_unacked (m : mrp) (counter t : Z) (jitters : list Z) : option (Z * Z) :=
  match jitters with
  | [] => None
  | j :: rest =>
      let '(m1, _) := mrp_arm m counter (u32 t) j in
      let t1 := t + u32 (mp_tx_due_ms m1 - u32 t) in
      match (mrp_poll m1 (u32 t1)).1 with
      | MRP_GIVE_UP => Some (1, t1)
      | MRP_RETRANSMIT =>
          match mrp_unacked m1 counter t1 rest with
          | Some (n, te) => Some (1 + n, te)
          | None => None
          end
      | _ => None
      end
  end.

Fixpoint total_delay (base n : Z) (jitters : list Z) : Z :=
  match jitters with
  | [] => 0
  | j :: rest => mrp_delay_ms base n j + total_delay base (n + 1) rest
  end.

Lemma u32_add_l a b : u32 (u32 a + b) = u32 (a + b).
Proof. apply Zplus_mod_idemp_l. Qed.

(** One transmission of the message [counter]: in flight, or the first. *)
Lemma unacked_step m counter t j n rest :
  in_u 32 (mp_base_ms m) -> byte_ok j -> 0 <= n < 255 ->
  (mp_tx_pending m = true /\ mp_tx_counter m = counter /\ mp_send_count m = n) \/
  (mp_tx_pending m = false /\ n = 0) ->
  let d := mrp_delay_ms (mp_base_ms m) (n + 1) j in
  exists m1,
    mp_base_ms m1 = mp_base_ms m /\ mp_tx_pending m1 = true /\ mp_tx_counter m1 = counter /\
    mp_send_count m1 = n + 1 /\
    mrp_unacked m counter t (j :: rest) =
      if MRP_MAX_TRANSMISSIONS <=? n + 1 then Some (1, t + d)
      else match mrp_unacked m1 counter (t + d) rest with
           | Some (k, te) => Some (1 + k, te) | None => None end.
Proof.
  intros Hb Hj Hn Hst d.
  pose proof (delay_range (mp_base_ms m) (n + 1) j Hb ltac:(lia) Hj) as Hd. fold d in Hd.
  unfold MRP_SENDER_BOOST_MS, MRP_MAX_DELAY_MS in Hd.
  exists (m <| mp_tx_counter := counter |> <| mp_send_count := n + 1 |> <| mp_tx_pending := true |>
            <| mp_tx_due_ms := u32 (t + d) |>).
  repeat (split; [done|]). cbn [mrp_unacked].
  assert (mrp_arm m counter (u32 t) j =
    (m <| mp_tx_counter := counter |> <| mp_send_count := n + 1 |> <| mp_tx_pending := true |>
       <| mp_tx_due_ms := u32 (t + d) |>, MATTER_OK)) as ->.
  { unfold mrp_arm. destruct Hst as [(Hp & Hc & Hs)|(Hp & ->)]; rewrite Hp; cbn [andb].
    - rewrite Hc, Z.eqb_refl. cbn [negb]. rewrite Hs, (proj2 (Z.ltb_lt _ _)) by lia. simpl.
      fold d. rewrite u32_add_l. destruct m; simpl in *. by subst.
    - simpl. fold d. rewrite u32_add_l. done. }
  cbn [mp_tx_due_ms field_set]. rewrite u32_sub_l, u32_sub_r.
  replace (t + d - t) with d by lia. rewrite (wrap_id 32 d) by (unfold in_u; lia).
  unfold mrp_poll. cbn [mp_tx_pending mp_tx_due_ms mp_send_count mp_tx_counter field_set andb].
  rewrite reached_abs, (proj2 (Z.leb_le _ _)) by lia. cbn [fst].
  destruct (MRP_MAX_TRANSMISSIONS <=? n + 1); done.
Qed.

Lemma unacked_from m counter t jitters n :
  in_u 32 (mp_base_ms m) -> Forall byte_ok jitters -> 0 <= n -> n + zlen jitters = 5 ->
  jitters <> [] ->
  (mp_tx_pending m = true /\ mp_tx_counter m = counter /\ mp_send_count m = n) \/
  (mp_tx_pending m = false /\ n = 0) ->
  mrp_unacked m counter t jitters
  = Some (zlen jitters, t + total_delay (mp_base_ms m) (n + 1) jitters).
Proof.
  intros Hb Hj. revert m t n Hb. induction Hj as [|j rest Hj Hr IH]; intros m t n Hb Hn Hl Hne Hst; [done|].
  rewrite zlen_cons in Hl. pose proof (zlen_nonneg rest).
  destruct (unacked_step m counter t j n rest Hb Hj ltac:(lia) Hst) as (m1 & B1 & P1 & C1 & S1 & ->).
  cbn [total_delay]. unfold MRP_MAX_TRANSMISSIONS. destruct rest as [|j2 rest].
  - rewrite (proj2 (Z.leb_le _ _)) by (unfold zlen in *; simpl in *; lia).
    cbn [total_delay]. rewrite Z.add_0_r. done.
  - rewrite (proj2 (Z.leb_gt _ _)) by (rewrite zlen_cons in *; pose proof (zlen_nonneg rest); lia).
    rewrite (IH m1 (t + mrp_delay_ms (mp_base_ms m) (n + 1) j) (n + 1)); try (by rewrite B1); try lia; try done.
    + rewrite (zlen_cons j), B1. do 2 f_equal. lia.
    + left. done.
Qed.

Lemma horizon_loop_sum base counts h :
  in_u 32 base -> Forall (fun c => 0 <= c) counts -> 0 <= h < MRP_MAX_DELAY_MS ->
  horizon_loop base counts h < MRP_MAX_DELAY_MS ->
  horizon_loop base counts h = h + fold_right (fun c s => mrp_delay_ms base c 255 + s) 0 counts.
Proof.
  intros Hb Hc. revert h. induction Hc as [|c cs Hc _ IH]; intros h Hh Hlt; cbn [horizon_loop fold_right] in *.
  - rewrite wrap_id; [lia|]. unfold in_u, MRP_MAX_DELAY_MS in *. lia.
  - pose proof (delay_range base c 255 Hb Hc ltac:(unfold byte_ok; lia)).
    unfold MRP_SENDER_BOOST_MS in *.
    destruct (Z.leb_spec MRP_MAX_DELAY_MS (h + mrp_delay_ms base c 255)); [lia|].
    rewrite IH by lia. lia.
Qed.

Lemma delay_mono base n j :
  in_u 32 base -> 0 <= n -> byte_ok j -> mrp_delay_ms base n j <= mrp_delay_ms base n 255.
Proof.
  intros Hb Hn Hj. unfold mrp_delay_ms, MRP_MAX_DELAY_MS, MRP_SENDER_BOOST_MS.
  rewrite !backoff_exact by (unfold byte_ok in *; done || lia). unfold in_u, byte_ok in *.
  pose proof (formula_mono base base n n j 255 ltac:(lia) ltac:(lia) ltac:(lia)).
  unfold MRP_MAX_DELAY_MS. zcmp_cases.
Qed.

(** A reliable message that is never acknowledged is transmitted exactly
    five times and then given up, whatever the jitter and wherever the clock
    wraps; consecutive transmissions are at least the 1500 ms allowance apart,
    and the whole takes no longer than [mrp_retry_horizon_ms] says, whenever
    that is below its ceiling. *)
Theorem mrp_gives_up m counter t j1 j2 j3 j4 j5 :
  mp_tx_pending m = false -> in_u 32 (mp_base_ms m) -> Forall byte_ok [j1; j2; j3; j4; j5] ->
  exists te, mrp_unacked m counter t [j1; j2; j3; j4; j5] = Some (MRP_MAX_TRANSMISSIONS, te) /\
    t + 5 * MRP_SENDER_BOOST_MS <= te /\
    (mrp_retry_horizon_ms (mp_base_ms m) < MRP_MAX_DELAY_MS ->
     te <= t + mrp_retry_horizon_ms (mp_base_ms m)).
Proof.
  intros Hp Hb Hj. eexists. split.
  { apply (unacked_from m counter t [j1; j2; j3; j4; j5] 0); try done. by right. }
  repeat (apply Forall_cons_iff in Hj as [? Hj]). 
  set (b := mp_base_ms m) in *. change (total_delay b (0 + 1) [j1; j2; j3; j4; j5]) with
    (mrp_delay_ms b 1 j1 + (mrp_delay_ms b 2 j2 + (mrp_delay_ms b 3 j3 +
       (mrp_delay_ms b 4 j4 + (mrp_delay_ms b 5 j5 + 0))))).
  pose proof (fun n j => delay_range b n j Hb) as Hr.
  pose proof (fun n j => delay_mono b n j Hb) as Hm.
  split.
  - pose proof (Hr 1 j1 ltac:(lia) ltac:(done)). pose proof (Hr 2 j2 ltac:(lia) ltac:(done)).
    pose proof (Hr 3 j3 ltac:(lia) ltac:(done)). pose proof (Hr 4 j4 ltac:(lia) ltac:(done)).
    pose proof (Hr 5 j5 ltac:(lia) ltac:(done)). lia.
  - intros Hh. unfold mrp_retry_horizon_ms in *.
    rewrite horizon_loop_sum in *; try done; try (repeat constructor; lia).
    cbn [fold_right].
    pose proof (Hm 1 j1 ltac:(lia) ltac:(done)). pose proof (Hm 2 j2 ltac:(lia) ltac:(done)).
    pose proof (Hm 3 j3 ltac:(lia) ltac:(done)). pose proof (Hm 4 j4 ltac:(lia) ltac:(done)).
    pose proof (Hm 5 j5 ltac:(lia) ltac:(done)). lia.
Qed.

(** Across the wrap of the clock, with the advertised active interval. *)
Lemma mrp_gives_up_witness :
  exists te, mrp_unacked (mrp_init 300) 7 4294967000 [0; 255; 3; 90; 11] = Some (MRP_MAX_TRANSMISSIONS, te) /\
    4294967000 + 5 * MRP_SENDER_BOOST_MS <= te /\ te <= 4294967000 + mrp_retry_horizon_ms 300.
Proof.
  destruct (mrp_gives_up (mrp_init 300) 7 4294967000 0 255 3 90 11) as (te & H1 & H2 & H3).
  - reflexivity.
  - vm_compute. split; congruence.
  - apply bytes_all. reflexivity.
  - exists te. split; [exact H1|]. split; [exact H2|]. apply H3. vm_compute. reflexivity.
Defined.

(** ** One timer is enough *)

(** The deadlines of a state at absolute times [T] and [A], both within half
    a turn of [now]. *)
Definition due_at (m : mrp) (T A : Z) : Prop :=
  mp_tx_due_ms m = u32 T /\ mp_ack_due_ms m = u32 A /\ - 2 ^ 31 <= A - T < 2 ^ 31.

Definition near (now d : Z) : Prop := - 2 ^ 31 <= now - d < 2 ^ 31.

(** Sleeping until the next deadline misses nothing and wakes for
    something: when no deadline is pending no poll ever asks for work; otherwise
    the deadline is an instant [D] such that every poll before [D] is idle and
    every poll from [D] on is not, also across the wrap of the clock. *)
Theorem mrp_deadline_exact m T A :
  due_at m T A ->
  match mrp_next_deadline m with
  | None => forall now, (mrp_poll m now).1 = MRP_IDLE
  | Some d => exists D, d = u32 D /\ (D = T \/ D = A) /\
      forall now, near now T -> near now A ->
        ((mrp_poll m (u32 now)).1 = MRP_IDLE <-> now < D)
  end.
Proof.
  intros (HT & HA & Hd). unfold mrp_next_deadline, mrp_poll. rewrite HT, HA.
  destruct (mp_tx_pending m) eqn:Et, (mp_ack_pending m) eqn:Ea; cbn [andb].
  - rewrite elapsed_abs by lia. exists (if A - T <? 0 then A else T).
    split; [by destruct (A - T <? 0)|]. split; [destruct (A - T <? 0); auto|].
    intros now Hn1 Hn2. rewrite !reached_abs by done.
    destruct (Z.ltb_spec (A - T) 0), (Z.leb_spec T now), (Z.leb_spec A now); cbn [fst];
      try (destruct (_ <=? mp_send_count m)); split; try done; lia.
  - exists T. split; [done|]. split; [by left|]. intros now Hn1 Hn2. rewrite reached_abs by done.
    destruct (Z.leb_spec T now); cbn [fst]; try (destruct (_ <=? mp_send_count m)); split; try done; lia.
  - exists A. split; [done|]. split; [by right|]. intros now Hn1 Hn2. rewrite reached_abs by done.
    destruct (Z.leb_spec A now); cbn [fst]; split; try done; lia.
  - done.
Qed.

Lemma mrp_deadline_exact_witness :
  exists D, mrp_next_deadline (mrp_on_reliable_recv (mrp_init 300) 5 4294967200) = Some (u32 D) /\
    D = 4294967400.
Proof.
  pose proof (mrp_deadline_exact (mrp_on_reliable_recv (mrp_init 300) 5 4294967200) 4294967296 4294967400
    ltac:(vm_compute; repeat split; congruence)) as H.
  destruct (mrp_next_deadline _) as [d|] eqn:E; [|vm_compute in E; discriminate].
  destruct H as (D & -> & [-> | ->] & _).
  - vm_compute in E. discriminate.
  - by exists 4294967400.
Defined.

(** An acknowledgement that names another counter changes nothing, and a
    second reliable message cannot displace the one in flight. *)
Theorem mrp_one_in_flight m counter now jitter :
  mp_tx_pending m = true -> mp_tx_counter m <> counter ->
  mrp_on_ack m counter = (m, MATTER_E_INVAL) /\ mrp_arm m counter now jitter = (m, MATTER_E_STATE).
Proof.
  intros Hp Hc. unfold mrp_on_ack, mrp_arm. rewrite Hp, (proj2 (Z.eqb_neq _ _)) by done. done.
Qed.
