(* ===== verification/MatterMsg.v ===== *)
(** * Matter message and protocol headers, outbound counters

    Models [modules/ultrawidelock_matter/src/matter_msg.c] and its header.  Both
    header codecs are instances of [WireCodec]. *)

From Stdlib Require Import ZArith Lia Bool.
From stdpp Require Import base list numbers.
From S2P Require Import Prelude Wire MatterStatus.

Local Open Scope Z_scope.
Local Open Scope res_scope.

Definition MSG_FLAG_S : Z := 0x04.
Definition MSG_DSIZ_MASK : Z := 0x03.
Definition MSG_DSIZ_NONE : Z := 0x00.
Definition MSG_DSIZ_NODE : Z := 0x01.
Definition MSG_DSIZ_GROUP : Z := 0x02.
Definition MSG_VERSION_MASK : Z := 0xF0.
Definition SEC_SESSION_TYPE_MASK : Z := 0x03.
Definition SESSION_TYPE_GROUP : Z := 0x01.
Definition EX_FLAG_I : Z := 0x01.
Definition EX_FLAG_A : Z := 0x02.
Definition EX_FLAG_R : Z := 0x04.
Definition EX_FLAG_V : Z := 0x10.
Definition MSG_HEADER_MIN : Z := 8.
Definition PROTO_HEADER_MIN : Z := 6.
Definition MSG_HEADER_MAX : Z := 24.
Definition PROTO_HEADER_MAX : Z := 12.

Definition has_flag (flags f : Z) : bool := negb (Z.land flags f =? 0).

Record msg_header := {
  mh_flags : Z;
  mh_session_id : Z;
  mh_security_flags : Z;
  mh_message_counter : Z;
  mh_source_node_id : Z;
  mh_dest_node_id : Z;
  mh_dest_group_id : Z;
}.

Record proto_header := {
  ph_exchange_flags : Z;
  ph_opcode : Z;
  ph_exchange_id : Z;
  ph_vendor_id : Z;
  ph_protocol_id : Z;
  ph_ack_counter : Z;
}.

(** Length of the destination field; [None] for the reserved size. *)
Definition dsiz_len (flags : Z) : option Z :=
  let d := Z.land flags MSG_DSIZ_MASK in
  if d =? MSG_DSIZ_NONE then Some 0
  else if d =? MSG_DSIZ_NODE then Some 8
  else if d =? MSG_DSIZ_GROUP then Some 2
  else None.

Definition msg_header_len (flags : Z) : Z :=
  if has_flag flags MSG_VERSION_MASK then 0 else
  let n := if has_flag flags MSG_FLAG_S then MSG_HEADER_MIN + 8 else MSG_HEADER_MIN in
  match dsiz_len flags with Some d => n + d | None => 0 end.

Definition proto_header_len (exchange_flags : Z) : Z :=
  PROTO_HEADER_MIN + (if has_flag exchange_flags EX_FLAG_V then 2 else 0)
  + (if has_flag exchange_flags EX_FLAG_A then 4 else 0).

Definition msg_is_secure (h : msg_header) : bool :=
  if Z.land (mh_security_flags h) SEC_SESSION_TYPE_MASK =? SESSION_TYPE_GROUP then true
  else negb (mh_session_id h =? 0).

(** The header and the number of bytes it takes. *)
Definition msg_header_decode (buf : list Z) : res (msg_header * Z) :=
  let* _ := guard_res (zlen buf <? MSG_HEADER_MIN) MATTER_E_TRUNC in
  let flags := byte_at buf 0 in
  let need := msg_header_len flags in
  let* _ := guard_res (need =? 0) MATTER_E_INVAL in
  let* _ := guard_res (zlen buf <? need) MATTER_E_TRUNC in
  let off := MSG_HEADER_MIN in
  let has_src := has_flag flags MSG_FLAG_S in
  let src := if has_src then field 8 buf off else 0 in
  let off := if has_src then off + 8 else off in
  let d := Z.land flags MSG_DSIZ_MASK in
  let node := if d =? MSG_DSIZ_NODE then field 8 buf off else 0 in
  let group := if d =? MSG_DSIZ_GROUP then field 2 buf off else 0 in
  let off := if d =? MSG_DSIZ_NODE then off + 8
             else if d =? MSG_DSIZ_GROUP then off + 2 else off in
  Ret ({| mh_flags := flags; mh_session_id := field 2 buf 1;
          mh_security_flags := byte_at buf 3; mh_message_counter := field 4 buf 4;
          mh_source_node_id := src; mh_dest_node_id := node; mh_dest_group_id := group |}, off).

(** The bytes a header is written as. *)
Definition msg_header_bytes (h : msg_header) : list Z :=
  let d := Z.land (mh_flags h) MSG_DSIZ_MASK in
  [mh_flags h] ++ put_le 2 (mh_session_id h) ++ [mh_security_flags h] ++
  put_le 4 (mh_message_counter h) ++
  (if has_flag (mh_flags h) MSG_FLAG_S then put_le 8 (mh_source_node_id h) else []) ++
  (if d =? MSG_DSIZ_NODE then put_le 8 (mh_dest_node_id h)
   else if d =? MSG_DSIZ_GROUP then put_le 2 (mh_dest_group_id h) else []).

Definition msg_header_encode (h : msg_header) (cap : Z) : res (list Z) :=
  let need := msg_header_len (mh_flags h) in
  let* _ := guard_res (need =? 0) MATTER_E_INVAL in
  let* _ := guard_res (cap <? need) MATTER_E_NOSPACE in
  Ret (msg_header_bytes h).

Definition proto_header_decode (buf : list Z) : res (proto_header * Z) :=
  let* _ := guard_res (zlen buf <? PROTO_HEADER_MIN) MATTER_E_TRUNC in
  let flags := byte_at buf 0 in
  let* _ := guard_res (zlen buf <? proto_header_len flags) MATTER_E_TRUNC in
  let off := 4 in
  let has_v := has_flag flags EX_FLAG_V in
  let vendor := if has_v then field 2 buf off else 0 in
  let off := if has_v then off + 2 else off in
  let protocol := field 2 buf off in
  let off := off + 2 in
  let has_a := has_flag flags EX_FLAG_A in
  let ack := if has_a then field 4 buf off else 0 in
  let off := if has_a then off + 4 else off in
  Ret ({| ph_exchange_flags := flags; ph_opcode := byte_at buf 1;
          ph_exchange_id := field 2 buf 2; ph_vendor_id := vendor;
          ph_protocol_id := protocol; ph_ack_counter := ack |}, off).

Definition proto_header_bytes (h : proto_header) : list Z :=
  [ph_exchange_flags h; ph_opcode h] ++ put_le 2 (ph_exchange_id h) ++
  (if has_flag (ph_exchange_flags h) EX_FLAG_V then put_le 2 (ph_vendor_id h) else []) ++
  put_le 2 (ph_protocol_id h) ++
  (if has_flag (ph_exchange_flags h) EX_FLAG_A then put_le 4 (ph_ack_counter h) else []).

Definition proto_header_encode (h : proto_header) (cap : Z) : res (list Z) :=
  let* _ := guard_res (cap <? proto_header_len (ph_exchange_flags h)) MATTER_E_NOSPACE in
  Ret (proto_header_bytes h).

Lemma msg_header_decode_fails buf : fails_bad (msg_header_decode buf).
Proof.
  unfold msg_header_decode. repeat (apply fails_bad_bind; [by apply fails_bad_guard|intros _]).
  apply fails_bad_Ret.
Qed.

Lemma proto_header_decode_fails buf : fails_bad (proto_header_decode buf).
Proof.
  unfold proto_header_decode. repeat (apply fails_bad_bind; [by apply fails_bad_guard|intros _]).
  apply fails_bad_Ret.
Qed.

(** ** Outbound counters *)

Inductive counter_kind := COUNTER_SESSION | COUNTER_UNSECURED.

#[export] Instance counter_kind_eq_dec : EqDecision counter_kind.
Proof. solve_decision. Defined.

Record matter_counter := { mc_last_used : Z; mc_kind : counter_kind }.

Definition COUNTER_INIT_MASK : Z := 0x0FFFFFFF.

Definition counter_init (entropy : Z) (kind : counter_kind) : matter_counter :=
  {| mc_last_used := Z.land entropy COUNTER_INIT_MASK; mc_kind := kind |}.

Definition counter_next (c : matter_counter) : res (matter_counter * Z) :=
  let* _ := guard_res (bool_decide (mc_kind c = COUNTER_SESSION) && (mc_last_used c =? UINT32_MAX))
              MATTER_E_STATE in
  let v := u32 (mc_last_used c + 1) in
  Ret ({| mc_last_used := v; mc_kind := mc_kind c |}, v).

(** ** The message header codec *)

Definition msg_header_ok (h : msg_header) : Prop :=
  byte_ok (mh_flags h) /\ 0 < msg_header_len (mh_flags h) /\ in_u 16 (mh_session_id h) /\
  byte_ok (mh_security_flags h) /\ in_u 32 (mh_message_counter h) /\
  in_u 64 (mh_source_node_id h) /\ in_u 64 (mh_dest_node_id h) /\ in_u 16 (mh_dest_group_id h) /\
  (has_flag (mh_flags h) MSG_FLAG_S = false -> mh_source_node_id h = 0) /\
  (Z.land (mh_flags h) MSG_DSIZ_MASK <> MSG_DSIZ_NODE -> mh_dest_node_id h = 0) /\
  (Z.land (mh_flags h) MSG_DSIZ_MASK <> MSG_DSIZ_GROUP -> mh_dest_group_id h = 0).

(** The length of a header the codec accepts. *)
Lemma msg_header_len_pos flags :
  0 < msg_header_len flags ->
  msg_header_len flags =
    8 + (if has_flag flags MSG_FLAG_S then 8 else 0) +
    (if Z.land flags MSG_DSIZ_MASK =? MSG_DSIZ_NODE then 8
     else if Z.land flags MSG_DSIZ_MASK =? MSG_DSIZ_GROUP then 2 else 0).
Proof.
  unfold msg_header_len, dsiz_len, MSG_HEADER_MIN, MSG_DSIZ_NONE, MSG_DSIZ_NODE, MSG_DSIZ_GROUP.
  intros H. destruct (has_flag flags MSG_VERSION_MASK); [lia|].
  destruct (Z.eqb_spec (Z.land flags MSG_DSIZ_MASK) 0) as [->|]; simpl.
  { destruct (has_flag flags MSG_FLAG_S); lia. }
  destruct (_ =? 1); [destruct (has_flag flags MSG_FLAG_S); lia|].
  destruct (_ =? 2); [destruct (has_flag flags MSG_FLAG_S); lia|lia].
Qed.

Lemma msg_header_len_nonneg flags : 0 <= msg_header_len flags.
Proof.
  unfold msg_header_len, dsiz_len, MSG_HEADER_MIN. repeat case_match; simplify_eq; lia.
Qed.

Lemma zlen_msg_header h : 0 < msg_header_len (mh_flags h) ->
  zlen (msg_header_bytes h) = msg_header_len (mh_flags h).
Proof.
  intros H. rewrite msg_header_len_pos by done. unfold msg_header_bytes.
  repeat case_match; reflexivity.
Qed.

(** A field that was just written, read at its offset. *)
Ltac read_back n v :=
  transitivity (get_le (put_le n v)); [reflexivity|by apply get_put_le_id].

Lemma msg_header_dec_enc h rest :
  msg_header_ok h ->
  msg_header_decode (msg_header_bytes h ++ rest) = Ret (h, zlen (msg_header_bytes h)).
Proof.
  intros (Hf & Hlen & Hsid & Hsec & Hctr & Hsrc & Hnode & Hgrp & Zs & Zn & Zg).
  pose proof (zlen_msg_header h Hlen) as Hz. pose proof (zlen_nonneg rest).
  pose proof (msg_header_len_pos _ Hlen) as Hlp.
  destruct h as [flags sid sec ctr src node grp]. cbn [mh_flags mh_session_id mh_security_flags
    mh_message_counter mh_source_node_id mh_dest_node_id mh_dest_group_id] in *.
  set (h := {| mh_flags := flags |}) in *. unfold msg_header_decode.
  change (byte_at (msg_header_bytes h ++ rest) 0) with flags.
  rewrite zlen_app, Hz.
  assert (8 <= msg_header_len flags) by (rewrite Hlp; repeat case_match; lia).
  rewrite (proj2 (Z.ltb_ge _ _)), (proj2 (Z.eqb_neq _ 0)), (proj2 (Z.ltb_ge _ _))
    by (unfold MSG_HEADER_MIN; lia).
  cbn [guard_res res_bind]. rewrite Hlp. unfold h, msg_header_bytes. cbn [mh_flags mh_session_id mh_security_flags
    mh_message_counter mh_source_node_id mh_dest_node_id mh_dest_group_id].
  unfold MSG_DSIZ_NODE, MSG_DSIZ_GROUP in *.
  destruct (has_flag flags MSG_FLAG_S);
    (destruct (Z.eqb_spec (Z.land flags MSG_DSIZ_MASK) 1) as [Ed|Ed];
     [rewrite Ed in *|destruct (Z.eqb_spec (Z.land flags MSG_DSIZ_MASK) 2) as [Eg|Eg]; [rewrite Eg in *|]]);
    f_equal; f_equal; try done; f_equal; try done;
    try (rewrite ?Zs, ?Zn, ?Zg by done; done).
  all: try (read_back 2%nat sid). all: try (read_back 4%nat ctr). all: try (read_back 8%nat src).
  all: try (read_back 8%nat node). all: try (read_back 2%nat grp).
Qed.

Lemma in_u_if (b : bool) w x : in_u w x -> in_u w (if b then x else 0).
Proof. destruct b; [done|]. unfold in_u. lia. Qed.

Lemma msg_header_enc_dec p h n :
  Forall byte_ok p -> msg_header_decode p = Ret (h, n) ->
  msg_header_ok h /\ n = zlen (msg_header_bytes h) /\
  p = msg_header_bytes h ++ drop (Z.to_nat n) p.
Proof.
  intros Hp Hd. unfold msg_header_decode in Hd.
  apply res_bind_Ret in Hd as ([] & H0 & Hd). apply guard_res_Ret, Z.ltb_ge in H0.
  apply res_bind_Ret in Hd as ([] & H1 & Hd). apply guard_res_Ret, Z.eqb_neq in H1.
  apply res_bind_Ret in Hd as ([] & H2 & Hd). apply guard_res_Ret, Z.ltb_ge in H2.
  pose proof (msg_header_len_nonneg (byte_at p 0)).
  pose proof (msg_header_len_pos (byte_at p 0) ltac:(lia)) as Hlp.
  injection Hd as Hh Hn. subst h. split; [|split].
  - unfold msg_header_ok. cbn [mh_flags mh_session_id mh_security_flags mh_message_counter
      mh_source_node_id mh_dest_node_id mh_dest_group_id].
    split_and!; try (by apply byte_at_ok); try lia;
      try apply in_u_if;
      try (exact (field_range 2 p _ Hp) || exact (field_range 4 p _ Hp) || exact (field_range 8 p _ Hp)).
    + by intros ->.
    + intros Hne. by rewrite (proj2 (Z.eqb_neq _ _)).
    + intros Hne. by rewrite (proj2 (Z.eqb_neq _ _)).
  - rewrite zlen_msg_header by (simpl; lia). cbn [mh_flags]. rewrite Hlp, <- Hn. unfold MSG_HEADER_MIN.
    repeat case_match; lia.
  - rewrite Hlp in H2. unfold msg_header_bytes, MSG_HEADER_MIN in *. cbn [mh_flags mh_session_id mh_security_flags mh_message_counter
      mh_source_node_id mh_dest_node_id mh_dest_group_id].
    symmetry. change (drop (Z.to_nat n) p) with (drop (Z.to_nat n) p). rewrite <- !app_assoc.
    assert ((if has_flag (byte_at p 0) MSG_FLAG_S then put_le 8
               (if has_flag (byte_at p 0) MSG_FLAG_S then field 8 p 8 else 0) else []) ++
            (if Z.land (byte_at p 0) MSG_DSIZ_MASK =? MSG_DSIZ_NODE then put_le 8
               (if Z.land (byte_at p 0) MSG_DSIZ_MASK =? MSG_DSIZ_NODE then
                 field 8 p (if has_flag (byte_at p 0) MSG_FLAG_S then 8 + 8 else 8) else 0)
             else if Z.land (byte_at p 0) MSG_DSIZ_MASK =? MSG_DSIZ_GROUP then put_le 2
               (if Z.land (byte_at p 0) MSG_DSIZ_MASK =? MSG_DSIZ_GROUP then
                 field 2 p (if has_flag (byte_at p 0) MSG_FLAG_S then 8 + 8 else 8) else 0) else []) ++
            drop (Z.to_nat n) p = drop (Z.to_nat 8) p) as ->.
    { rewrite <- Hn. destruct (has_flag (byte_at p 0) MSG_FLAG_S), (_ =? MSG_DSIZ_NODE); [..|].
      all: try (destruct (_ =? MSG_DSIZ_GROUP)).
      all: cbn [app]; rewrite ?(put_field 8 p (8 + 8) (8 + 8 + 8)) by (done || lia);
        rewrite ?(put_field 2 p (8 + 8) (8 + 8 + 2)) by (done || lia);
        rewrite ?(put_field 8 p 8 (8 + 8)) by (done || lia);
        rewrite ?(put_field 2 p 8 (8 + 2)) by (done || lia); done. }
    rewrite (put_field 4 p 4 8) by (done || lia). cbn [app].
    rewrite (put_byte_at p 3 4), (put_field 2 p 1 3), (put_byte_at p 0 1) by (done || lia). done.
Qed.

Lemma msg_header_bytes_ok h : msg_header_ok h -> Forall byte_ok (msg_header_bytes h).
Proof.
  intros (Hf & _ & _ & Hs & _). unfold msg_header_bytes. rewrite !Forall_app.
  split_and!; repeat case_match; auto with uwl.
Qed.

Definition msg_header_read (p : list Z) : option (msg_header * list Z) :=
  match msg_header_decode p with
  | Ret (h, n) => Some (h, drop (Z.to_nat n) p)
  | Fail _ => None
  end.

Lemma msg_header_read_enc h rest :
  msg_header_ok h -> msg_header_read (msg_header_bytes h ++ rest) = Some (h, rest).
Proof.
  intros Hok. unfold msg_header_read. rewrite msg_header_dec_enc by done.
  unfold zlen. by rewrite Nat2Z.id, drop_app_length.
Qed.

Lemma msg_header_read_exact p h rest :
  Forall byte_ok p -> msg_header_read p = Some (h, rest) ->
  msg_header_ok h /\ p = msg_header_bytes h ++ rest.
Proof.
  intros Hp Hd. unfold msg_header_read in Hd.
  destruct (msg_header_decode p) as [[h' n]|] eqn:E; simplify_eq.
  destruct (msg_header_enc_dec p h n Hp E) as (? & _ & ?). done.
Qed.

#[export] Instance msg_header_codec : WireCodec msg_header := {|
  wire_ok := msg_header_ok;
  wire_enc := msg_header_bytes;
  wire_dec := msg_header_read;
  wire_enc_bytes := msg_header_bytes_ok;
  wire_dec_enc := msg_header_read_enc;
  wire_enc_dec := msg_header_read_exact;
|}.

(** ** The protocol header codec *)

Definition proto_header_ok (h : proto_header) : Prop :=
  byte_ok (ph_exchange_flags h) /\ byte_ok (ph_opcode h) /\ in_u 16 (ph_exchange_id h) /\
  in_u 16 (ph_vendor_id h) /\ in_u 16 (ph_protocol_id h) /\ in_u 32 (ph_ack_counter h) /\
  (has_flag (ph_exchange_flags h) EX_FLAG_V = false -> ph_vendor_id h = 0) /\
  (has_flag (ph_exchange_flags h) EX_FLAG_A = false -> ph_ack_counter h = 0).

Lemma zlen_proto_header h : zlen (proto_header_bytes h) = proto_header_len (ph_exchange_flags h).
Proof. unfold proto_header_bytes, proto_header_len. repeat case_match; reflexivity. Qed.

Lemma proto_header_len_range flags : 6 <= proto_header_len flags <= PROTO_HEADER_MAX.
Proof. unfold proto_header_len, PROTO_HEADER_MIN, PROTO_HEADER_MAX. repeat case_match; lia. Qed.

Lemma proto_header_dec_enc h rest :
  proto_header_ok h ->
  proto_header_decode (proto_header_bytes h ++ rest) = Ret (h, zlen (proto_header_bytes h)).
Proof.
  intros (Hf & Ho & Hx & Hv & Hp & Ha & Zv & Za). pose proof (zlen_proto_header h) as Hz.
  pose proof (zlen_nonneg rest). destruct h as [flags op ex vendor proto ack].
  cbn [ph_exchange_flags ph_opcode ph_exchange_id ph_vendor_id ph_protocol_id ph_ack_counter] in *.
  pose proof (proto_header_len_range flags).
  set (h := {| ph_exchange_flags := flags |}) in *. unfold proto_header_decode.
  change (byte_at (proto_header_bytes h ++ rest) 0) with flags. rewrite zlen_app, Hz.
  rewrite !(proj2 (Z.ltb_ge _ _)) by (unfold PROTO_HEADER_MIN; lia).
  cbn [guard_res res_bind]. unfold proto_header_len. unfold h, proto_header_bytes.
  cbn [ph_exchange_flags ph_opcode ph_exchange_id ph_vendor_id ph_protocol_id ph_ack_counter].
  destruct (has_flag flags EX_FLAG_V), (has_flag flags EX_FLAG_A);
    f_equal; f_equal; try done; f_equal; try done; try (rewrite ?Zv, ?Za by done; done).
  all: try (read_back 2%nat ex). all: try (read_back 2%nat vendor). all: try (read_back 2%nat proto).
  all: try (read_back 4%nat ack).
Qed.

Lemma proto_header_enc_dec p h n :
  Forall byte_ok p -> proto_header_decode p = Ret (h, n) ->
  proto_header_ok h /\ n = zlen (proto_header_bytes h) /\
  p = proto_header_bytes h ++ drop (Z.to_nat n) p.
Proof.
  intros Hp Hd. unfold proto_header_decode in Hd.
  apply res_bind_Ret in Hd as ([] & H0 & Hd). apply guard_res_Ret, Z.ltb_ge in H0.
  apply res_bind_Ret in Hd as ([] & H2 & Hd). apply guard_res_Ret, Z.ltb_ge in H2.
  injection Hd as Hh Hn. subst h. split; [|split].
  - unfold proto_header_ok.
    cbn [ph_exchange_flags ph_opcode ph_exchange_id ph_vendor_id ph_protocol_id ph_ack_counter].
    split_and!; try (by apply byte_at_ok); try apply in_u_if;
      try (exact (field_range 2 p _ Hp) || exact (field_range 4 p _ Hp)); by intros ->.
  - rewrite zlen_proto_header. cbn [ph_exchange_flags]. unfold proto_header_len, PROTO_HEADER_MIN.
    rewrite <- Hn. repeat case_match; lia.
  - unfold proto_header_len, PROTO_HEADER_MIN in H2. unfold proto_header_bytes.
    cbn [ph_exchange_flags ph_opcode ph_exchange_id ph_vendor_id ph_protocol_id ph_ack_counter].
    symmetry. rewrite <- !app_assoc, <- Hn. clear Hn.
    destruct (has_flag (byte_at p 0) EX_FLAG_V), (has_flag (byte_at p 0) EX_FLAG_A); cbn [app] in *.
    all: rewrite ?(put_field 4 p (4 + 2 + 2) (4 + 2 + 2 + 4)), ?(put_field 4 p (4 + 2) (4 + 2 + 4)) by (done || lia).
    all: rewrite ?(put_field 2 p (4 + 2) (4 + 2 + 2)), ?(put_field 2 p 4 (4 + 2)) by (done || lia).
    all: rewrite (put_field 2 p 2 4), (put_byte_at p 1 2), (put_byte_at p 0 1) by (done || lia); done.
Qed.

Lemma proto_header_bytes_ok h : proto_header_ok h -> Forall byte_ok (proto_header_bytes h).
Proof.
  intros (Hf & Ho & _). unfold proto_header_bytes. rewrite !Forall_app.
  split_and!; repeat case_match; auto with uwl.
Qed.

Definition proto_header_read (p : list Z) : option (proto_header * list Z) :=
  match proto_header_decode p with
  | Ret (h, n) => Some (h, drop (Z.to_nat n) p)
  | Fail _ => None
  end.

Lemma proto_header_read_enc h rest :
  proto_header_ok h -> proto_header_read (proto_header_bytes h ++ rest) = Some (h, rest).
Proof.
  intros Hok. unfold proto_header_read. rewrite proto_header_dec_enc by done.
  unfold zlen. by rewrite Nat2Z.id, drop_app_length.
Qed.

Lemma proto_header_read_exact p h rest :
  Forall byte_ok p -> proto_header_read p = Some (h, rest) ->
  proto_header_ok h /\ p = proto_header_bytes h ++ rest.
Proof.
  intros Hp Hd. unfold proto_header_read in Hd.
  destruct (proto_header_decode p) as [[h' n]|] eqn:E; simplify_eq.
  destruct (proto_header_enc_dec p h n Hp E) as (? & _ & ?). done.
Qed.

#[export] Instance proto_header_codec : WireCodec proto_header := {|
  wire_ok := proto_header_ok;
  wire_enc := proto_header_bytes;
  wire_dec := proto_header_read;
  wire_enc_bytes := proto_header_bytes_ok;
  wire_dec_enc := proto_header_read_enc;
  wire_enc_dec := proto_header_read_exact;
|}.

(** Both header codecs are exact.  A byte string decodes to a header
    exactly when it starts with that header's encoding, and the reported length
    is the length of that encoding; every header whose unused fields are zero is
    encoded and read back in front of any payload.  Truncated input, a non-zero
    version and the reserved destination size are therefore refused. *)
Theorem matter_headers_exact p :
  Forall byte_ok p ->
  (forall h n, msg_header_decode p = Ret (h, n) <->
     msg_header_ok h /\ n = zlen (msg_header_bytes h) /\ exists rest, p = msg_header_bytes h ++ rest) /\
  (forall h n, proto_header_decode p = Ret (h, n) <->
     proto_header_ok h /\ n = zlen (proto_header_bytes h) /\ exists rest, p = proto_header_bytes h ++ rest) /\
  (forall h cap, msg_header_ok h -> MSG_HEADER_MAX <= cap ->
     msg_header_encode h cap = Ret (msg_header_bytes h)) /\
  (forall h cap, PROTO_HEADER_MAX <= cap -> proto_header_encode h cap = Ret (proto_header_bytes h)).
Proof.
  intros Hp. split_and!.
  - intros h n. split.
    + intros Hd. destruct (msg_header_enc_dec p h n Hp Hd) as (? & ? & ?). eauto.
    + intros (Hok & -> & rest & ->). by apply msg_header_dec_enc.
  - intros h n. split.
    + intros Hd. destruct (proto_header_enc_dec p h n Hp Hd) as (? & ? & ?). eauto.
    + intros (Hok & -> & rest & ->). by apply proto_header_dec_enc.
  - intros h cap (_ & Hl & _) Hc. unfold msg_header_encode, MSG_HEADER_MAX in *.
    pose proof (msg_header_len_pos _ Hl) as Hlp.
    assert (msg_header_len (mh_flags h) <= 24) by (rewrite Hlp; repeat case_match; lia).
    by rewrite (proj2 (Z.eqb_neq _ 0)), (proj2 (Z.ltb_ge _ _)) by lia.
  - intros h cap Hc. unfold proto_header_encode.
    pose proof (proto_header_len_range (ph_exchange_flags h)).
    by rewrite (proj2 (Z.ltb_ge _ _)) by lia.
Qed.

Lemma matter_headers_exact_witness :
  exists h, msg_header_decode [0; 0; 0; 0; 7; 0; 0; 0; 99] = Ret (h, 8) /\ mh_message_counter h = 7.
Proof.
  destruct (matter_headers_exact [0; 0; 0; 0; 7; 0; 0; 0; 99]) as (H & _).
  { apply bytes_all. reflexivity. }
  exists {| mh_flags := 0; mh_session_id := 0; mh_security_flags := 0; mh_message_counter := 7;
            mh_source_node_id := 0; mh_dest_node_id := 0; mh_dest_group_id := 0 |}.
  split; [|reflexivity]. apply H. split; [|split].
  - unfold msg_header_ok. simpl. unfold byte_ok, in_u. vm_compute. repeat split; congruence.
  - reflexivity.
  - exists [99]. reflexivity.
Defined.

(** ** Counters *)

(** Up to [n] counters drawn one after the other. *)
Fixpoint counter_draw (n : nat) (c : matter_counter) : list Z * matter_counter :=
  match n with
  | O => ([], c)
  | S m =>
      match counter_next c with
      | Ret (c', v) => let '(l, c'') := counter_draw m c' in (v :: l, c'')
      | Fail _ => ([], c)
      end
  end.

Lemma counter_init_range entropy kind :
  0 <= entropy -> 0 <= mc_last_used (counter_init entropy kind) < 2 ^ 28.
Proof.
  intros. simpl. change COUNTER_INIT_MASK with (Z.ones 28). rewrite Z.land_ones by lia.
  apply Z.mod_pos_bound. lia.
Qed.

Lemma session_draw n last :
  in_u 32 last ->
  counter_draw n {| mc_last_used := last; mc_kind := COUNTER_SESSION |} =
  (map (fun i => last + 1 + Z.of_nat i) (seq 0 (Nat.min n (Z.to_nat (UINT32_MAX - last)))),
   {| mc_last_used := last + Z.of_nat (Nat.min n (Z.to_nat (UINT32_MAX - last)));
      mc_kind := COUNTER_SESSION |}).
Proof.
  unfold UINT32_MAX. revert last. induction n as [|n IH]; intros last Hl; unfold in_u in *.
  { rewrite Nat.min_0_l. simpl. by rewrite Z.add_0_r. }
  cbn [counter_draw]. unfold counter_next. cbn [mc_kind mc_last_used].
  rewrite bool_decide_true by done. cbn [andb]. unfold UINT32_MAX.
  destruct (Z.eqb_spec last (2 ^ 32 - 1)) as [->|Hne]; cbn [guard_res res_bind].
  - replace (Nat.min (S n) (Z.to_nat (2 ^ 32 - 1 - (2 ^ 32 - 1)))) with 0%nat by lia.
    simpl. done.
  - rewrite wrap_id by (unfold in_u; lia). rewrite IH by lia.
    replace (Nat.min (S n) (Z.to_nat (2 ^ 32 - 1 - last)))
      with (S (Nat.min n (Z.to_nat (2 ^ 32 - 1 - (last + 1))))) by lia.
    cbn [seq map]. f_equal.
    + f_equal; [lia|]. rewrite <- seq_shift, map_map. apply map_ext. intros. lia.
    + f_equal. lia.
Qed.

(** The counters of a secure session never repeat, so no AEAD nonce does:
    however many are drawn, they are pairwise different, none is 0, and when
    the 32-bit space is used up every further draw fails and leaves the counter
    where it is. *)
Theorem session_counter_unique entropy n :
  0 <= entropy ->
  let '(l, c) := counter_draw n (counter_init entropy COUNTER_SESSION) in
  List.NoDup l /\ Forall (fun v => 0 < v <= UINT32_MAX) l /\
  ((length l < n)%nat -> counter_next c = Fail MATTER_E_STATE).
Proof.
  intros He. pose proof (counter_init_range entropy COUNTER_SESSION He) as Hr. cbn [counter_init mc_last_used] in Hr.
  unfold counter_init. rewrite session_draw by (unfold in_u; lia).
  set (last := Z.land entropy COUNTER_INIT_MASK) in *. unfold UINT32_MAX. split_and!.
  - apply Finite.Injective_map_NoDup; [|apply List.seq_NoDup]. intros x y Hxy. lia.
  - apply List.Forall_forall. intros v Hv. apply in_map_iff in Hv as (i & <- & Hi). apply in_seq in Hi. lia.
  - rewrite length_map, length_seq. intros Hlt. unfold counter_next. cbn [mc_kind mc_last_used].
    rewrite bool_decide_true by done. unfold UINT32_MAX.
    by rewrite (proj2 (Z.eqb_eq _ _)) by lia.
Qed.

Lemma session_counter_unique_witness :
  let '(l, c) := counter_draw 3 (counter_init 4294967295 COUNTER_SESSION) in
  l = [268435456; 268435457; 268435458] /\ List.NoDup l.
Proof.
  pose proof (session_counter_unique 4294967295 3 ltac:(lia)) as H.
  destruct (counter_draw 3 (counter_init 4294967295 COUNTER_SESSION)) as [l c] eqn:E.
  vm_compute in E. injection E as <- _. split; [reflexivity|apply H].
Defined.
