(* ===== verification/MatterTlv.v ===== *)
(** * Matter TLV: writer and reader

    Models [modules/ultrawidelock_matter/src/matter_tlv.c] and its header.  A
    writer's buffer is the bytes written so far ([tw_out], [None] for a null
    buffer); every write appends.  A reader borrows its buffer and moves offsets
    over it.  The scan over a container has fuel [len + 1], which
    [scan_loop_total] proves enough: every turn moves the offset forward. *)

From Stdlib Require Import ZArith Lia Bool.
From stdpp Require Import base list numbers.
From S2P Require Import Prelude Wire MatterStatus.

Local Open Scope Z_scope.
Local Open Scope res_scope.

(** ** Wire constants *)

Definition TC_ANON : Z := 0x00.
Definition TC_CONTEXT : Z := 0x20.
Definition TC_COMMON_2 : Z := 0x40.
Definition TC_COMMON_4 : Z := 0x60.
Definition TC_IMPLICIT_2 : Z := 0x80.
Definition TC_IMPLICIT_4 : Z := 0xA0.
Definition TC_FULLQUAL_6 : Z := 0xC0.
Definition TC_FULLQUAL_8 : Z := 0xE0.

Definition ET_INT8 : Z := 0x00.
Definition ET_INT16 : Z := 0x01.
Definition ET_INT32 : Z := 0x02.
Definition ET_INT64 : Z := 0x03.
Definition ET_UINT8 : Z := 0x04.
Definition ET_UINT16 : Z := 0x05.
Definition ET_UINT32 : Z := 0x06.
Definition ET_UINT64 : Z := 0x07.
Definition ET_BOOL_FALSE : Z := 0x08.
Definition ET_BOOL_TRUE : Z := 0x09.
Definition ET_UTF8_LEN1 : Z := 0x0C.
Definition ET_UTF8_LEN8 : Z := 0x0F.
Definition ET_BYTES_LEN1 : Z := 0x10.
Definition ET_BYTES_LEN8 : Z := 0x13.
Definition ET_NULL : Z := 0x14.
Definition TLV_STRUCTURE : Z := 0x15.
Definition TLV_ARRAY : Z := 0x16.
Definition TLV_LIST : Z := 0x17.
Definition ET_END_CONTAINER : Z := 0x18.

Definition TLV_SPECIAL_PROFILE : Z := 0xFFFFFFFF.
Definition TLV_COMMON_PROFILE : Z := 0.
Definition TLV_ANON_TAG_NUM : Z := 0x100.
Definition TLV_MAX_DEPTH : Z := 10.

(** [MATTER_TLV_TAG(profile, num)] *)
Definition TLV_TAG (profile num : Z) : Z := Z.lor (Z.shiftl (u32 profile) 32) (u32 num).

Definition TLV_ANON : Z := TLV_TAG TLV_SPECIAL_PROFILE TLV_ANON_TAG_NUM.

Definition TLV_CTX (n : Z) : Z := TLV_TAG TLV_SPECIAL_PROFILE (u8 n).

Definition tag_profile (tag : Z) : Z := u32 (Z.shiftr tag 32).

Definition tag_number (tag : Z) : Z := u32 (Z.land tag 0xFFFFFFFF).

(** ** The writer *)

Record tlv_writer := {
  tw_out : option (list Z);
  tw_cap : Z;
  tw_implicit_profile : Z;
  tw_implicit_set : bool;
  tw_rc : matter_status;
  tw_depth : Z;
}.

#[export] Instance tlv_writer_eta : Eta tlv_writer := fun w =>
  {| tw_out := tw_out w; tw_cap := tw_cap w; tw_implicit_profile := tw_implicit_profile w;
     tw_implicit_set := tw_implicit_set w; tw_rc := tw_rc w; tw_depth := tw_depth w |}.

(** The bytes written, and [w->len]. *)
Definition tw_bytes (w : tlv_writer) : list Z := default [] (tw_out w).

Definition tw_len (w : tlv_writer) : Z := zlen (tw_bytes w).

Definition tw_ok (w : tlv_writer) : bool := bool_decide (tw_rc w = MATTER_OK).

Definition tlv_writer_init (has_buf : bool) (cap : Z) : tlv_writer :=
  {| tw_out := if has_buf then Some [] else None; tw_cap := cap; tw_implicit_profile := 0;
     tw_implicit_set := false; tw_rc := MATTER_OK; tw_depth := 0 |}.

Definition tlv_writer_set_implicit_profile (w : tlv_writer) (profile : Z) : tlv_writer :=
  w <| tw_implicit_profile := profile |> <| tw_implicit_set := true |>.

(** The first error is latched. *)
Definition tw_fail (w : tlv_writer) (rc : matter_status) : tlv_writer :=
  if tw_ok w then w <| tw_rc := rc |> else w.

Definition tw_room (w : tlv_writer) (n : Z) : tlv_writer * bool :=
  match tw_out w with
  | None => (tw_fail w MATTER_E_INVAL, false)
  | Some _ =>
      if usize (tw_cap w - tw_len w) <? n then (tw_fail w MATTER_E_NOSPACE, false) else (w, true)
  end.

(** [put_raw] and [put_le]: bytes at the current position. *)
Definition tw_append (w : tlv_writer) (bytes : list Z) : tlv_writer :=
  w <| tw_out := Some (tw_bytes w ++ bytes) |>.

(** The tag control and the number of tag octets; [None] for a context tag
    above 255. *)
Definition tag_form (w : tlv_writer) (tag : Z) : option (Z * nat) :=
  let profile := tag_profile tag in
  let number := tag_number tag in
  let small := number <=? 0xFFFF in
  if profile =? TLV_SPECIAL_PROFILE then
    if number =? TLV_ANON_TAG_NUM then Some (TC_ANON, 0%nat)
    else if number <=? 0xFF then Some (TC_CONTEXT, 1%nat)
    else None
  else if profile =? TLV_COMMON_PROFILE then
    Some (if small then (TC_COMMON_2, 2%nat) else (TC_COMMON_4, 4%nat))
  else if tw_implicit_set w && (profile =? tw_implicit_profile w) then
    Some (if small then (TC_IMPLICIT_2, 2%nat) else (TC_IMPLICIT_4, 4%nat))
  else Some (if small then (TC_FULLQUAL_6, 6%nat) else (TC_FULLQUAL_8, 8%nat)).

(** The tag octets of a form. *)
Definition tag_octets (control : Z) (n : nat) (tag : Z) : list Z :=
  let profile := tag_profile tag in
  let number := tag_number tag in
  if (control =? TC_FULLQUAL_6) || (control =? TC_FULLQUAL_8) then
    put_le 2 (Z.land (Z.shiftr profile 16) 0xFFFF) ++ put_le 2 (Z.land profile 0xFFFF) ++
    put_le (n - 4) number
  else put_le n number.

Definition put_tag (w : tlv_writer) (tag element_type : Z) : tlv_writer * bool :=
  match tag_form w tag with
  | None => (tw_fail w MATTER_E_INVAL, false)
  | Some (control, n) =>
      let '(w, ok) := tw_room w (1 + Z.of_nat n) in
      if ok then (tw_append w (u8 (Z.lor control element_type) :: tag_octets control n tag), true)
      else (w, false)
  end.

(** [if (!put_tag(w, tag, type) || !room(w, n)) return w->rc;] then the bytes. *)
Definition put_sized (w : tlv_writer) (tag element_type n : Z) (value : list Z) : tlv_writer :=
  let '(w, ok) := put_tag w tag element_type in
  if ok then
    let '(w, ok) := tw_room w n in
    if ok then tw_append w value else w
  else w.

(** With [n] the number of bytes that follow. *)
Definition put_value (w : tlv_writer) (tag element_type : Z) (value : list Z) : tlv_writer :=
  put_sized w tag element_type (zlen value) value.

Definition tlv_put_bool (w : tlv_writer) (tag : Z) (v : bool) : tlv_writer :=
  if negb (tw_ok w) then w else (put_tag w tag (if v then ET_BOOL_TRUE else ET_BOOL_FALSE)).1.

Definition tlv_put_null (w : tlv_writer) (tag : Z) : tlv_writer :=
  if negb (tw_ok w) then w else (put_tag w tag ET_NULL).1.

(** The smallest type and width that hold the value. *)
Definition int_form (v : Z) : Z * nat :=
  if (-128 <=? v) && (v <=? 127) then (ET_INT8, 1%nat)
  else if (-32768 <=? v) && (v <=? 32767) then (ET_INT16, 2%nat)
  else if (INT32_MIN <=? v) && (v <=? INT32_MAX) then (ET_INT32, 4%nat)
  else (ET_INT64, 8%nat).

Definition uint_form (v : Z) : Z * nat :=
  if v <=? 0xFF then (ET_UINT8, 1%nat)
  else if v <=? 0xFFFF then (ET_UINT16, 2%nat)
  else if v <=? UINT32_MAX then (ET_UINT32, 4%nat)
  else (ET_UINT64, 8%nat).

Definition tlv_put_i64 (w : tlv_writer) (tag v : Z) : tlv_writer :=
  if negb (tw_ok w) then w else
  let '(type, width) := int_form v in put_value w tag type (put_le width (u64 v)).

Definition tlv_put_u64 (w : tlv_writer) (tag v : Z) : tlv_writer :=
  if negb (tw_ok w) then w else
  let '(type, width) := uint_form v in put_value w tag type (put_le width v).

(** Element type offset and number of length octets of a string. *)
Definition string_form (len : Z) : Z * nat :=
  if len <=? 0xFF then (0, 1%nat) else if len <=? 0xFFFF then (1, 2%nat) else (2, 4%nat).

(** The size asked of [room] is a [size_t] sum, which wraps for a length above
    0xFFFFFFFB ([put_string_room_wraps] in MatterTlvWriter). *)
Definition put_string (w : tlv_writer) (tag type_len1 : Z) (data : option (list Z)) (len : Z)
    : tlv_writer :=
  if negb (tw_ok w) then w else
  match data with
  | None => if negb (len =? 0) then tw_fail w MATTER_E_INVAL
            else let '(k, n) := string_form len in
                 put_sized w tag (u8 (type_len1 + k)) (usize (Z.of_nat n + len)) (put_le n len)
  | Some d =>
      let '(k, n) := string_form len in
      put_sized w tag (u8 (type_len1 + k)) (usize (Z.of_nat n + len)) (put_le n len ++ take (Z.to_nat len) d)
  end.

Definition tlv_put_utf8 (w : tlv_writer) (tag : Z) (s : list Z) : tlv_writer :=
  put_string w tag ET_UTF8_LEN1 (Some s) (zlen s).

Definition tlv_put_bytes (w : tlv_writer) (tag : Z) (b : list Z) : tlv_writer :=
  put_string w tag ET_BYTES_LEN1 (Some b) (zlen b).

Definition tlv_start_container (w : tlv_writer) (tag type : Z) : tlv_writer :=
  if negb (tw_ok w) then w else
  if negb (type =? TLV_STRUCTURE) && negb (type =? TLV_ARRAY) && negb (type =? TLV_LIST)
  then tw_fail w MATTER_E_INVAL else
  if TLV_MAX_DEPTH <=? tw_depth w then tw_fail w MATTER_E_DEPTH else
  let '(w, ok) := put_tag w tag type in
  if ok then w <| tw_depth := tw_depth w + 1 |> else w.

Definition tlv_end_container (w : tlv_writer) : tlv_writer :=
  if negb (tw_ok w) then w else
  if tw_depth w =? 0 then tw_fail w MATTER_E_STATE else
  let '(w, ok) := tw_room w 1 in
  if ok then (tw_append w [ET_END_CONTAINER]) <| tw_depth := tw_depth w - 1 |> else w.

(** The status and, on success, the encoded length. *)
Definition tlv_writer_finish (w : tlv_writer) : tlv_writer * res Z :=
  if negb (tw_ok w) then (w, Fail (tw_rc w)) else
  if negb (tw_depth w =? 0) then (tw_fail w MATTER_E_STATE, Fail MATTER_E_STATE) else
  (w, Ret (tw_len w)).

(** [w->rc = rc; return w->rc;] of the copying helpers. *)
Definition tw_set_rc (w : tlv_writer) (rc : matter_status) : tlv_writer := w <| tw_rc := rc |>.

Definition tw_lacks (w : tlv_writer) (n : Z) : bool :=
  match tw_out w with None => true | Some _ => usize (tw_cap w - tw_len w) <? n end.

Definition tlv_put_encoded (w : tlv_writer) (tag : Z) (elem : list Z) : tlv_writer :=
  if negb (tw_ok w) then w else
  if (zlen elem <? 2) || negb (Z.land (byte_at elem 0) 0xE0 =? TC_CONTEXT)
  then tw_set_rc w MATTER_E_INVAL else
  if negb (tag_profile tag =? TLV_SPECIAL_PROFILE) || (0xFF <? tag_number tag)
  then tw_set_rc w MATTER_E_INVAL else
  if tw_lacks w (zlen elem) then tw_set_rc w MATTER_E_NOSPACE else
  tw_append w (<[1%nat := u8 (tag_number tag)]> elem).

Definition tlv_put_encoded_anon (w : tlv_writer) (elem : list Z) : tlv_writer :=
  if negb (tw_ok w) then w else
  if (zlen elem <? 2) || negb (Z.land (byte_at elem 0) 0xE0 =? TC_CONTEXT)
  then tw_set_rc w MATTER_E_INVAL else
  if tw_lacks w (zlen elem - 1) then tw_set_rc w MATTER_E_NOSPACE else
  tw_append w (u8 (Z.lor (Z.land (byte_at elem 0) 0x1F) TC_ANON) :: drop 2 elem).

Definition tlv_put_raw (w : tlv_writer) (bytes : option (list Z)) : tlv_writer :=
  if negb (tw_ok w) then w else
  match bytes with
  | None => tw_set_rc w MATTER_E_INVAL
  | Some b =>
      if zlen b =? 0 then w else
      if tw_lacks w (zlen b) then tw_set_rc w MATTER_E_NOSPACE else tw_append w b
  end.

(** ** The reader *)

Record tlv_elem := {
  el_type : Z;
  el_tag : Z;
  el_val_off : Z;
  el_val_len : Z;
  el_body_off : Z;
  el_end : Z;
  el_is_container : bool;
}.

Record tlv_reader := {
  tr_buf : option (list Z);
  tr_len : Z;
  tr_next_off : Z;
  tr_elem : tlv_elem;
  tr_implicit_profile : Z;
  tr_depth : Z;
  tr_implicit_set : bool;
  tr_have : bool;
}.

#[export] Instance tlv_reader_eta : Eta tlv_reader := fun r =>
  {| tr_buf := tr_buf r; tr_len := tr_len r; tr_next_off := tr_next_off r; tr_elem := tr_elem r;
     tr_implicit_profile := tr_implicit_profile r; tr_depth := tr_depth r;
     tr_implicit_set := tr_implicit_set r; tr_have := tr_have r |}.

Definition no_elem : tlv_elem :=
  {| el_type := 0; el_tag := 0; el_val_off := 0; el_val_len := 0; el_body_off := 0; el_end := 0;
     el_is_container := false |}.

Definition tlv_reader_init (buf : option (list Z)) (len : Z) : tlv_reader :=
  {| tr_buf := buf; tr_len := match buf with None => 0 | Some _ => len end; tr_next_off := 0;
     tr_elem := no_elem; tr_implicit_profile := 0; tr_depth := 0; tr_implicit_set := false;
     tr_have := false |}.

Definition tlv_reader_set_implicit_profile (r : tlv_reader) (profile : Z) : tlv_reader :=
  r <| tr_implicit_profile := profile |> <| tr_implicit_set := true |>.

(** [r->buf] as bytes. *)
Definition tr_bytes (r : tlv_reader) : list Z := default [] (tr_buf r).

Definition fits (r : tlv_reader) (off n : Z) : bool :=
  (off <=? tr_len r) && (n <=? tr_len r - off).

Definition read_le (r : tlv_reader) (off n : Z) : Z := field (Z.to_nat n) (tr_bytes r) off.

(** [tag_octets_by_control[control >> 5]] *)
Definition tag_octets_by_control (control : Z) : Z :=
  nth (Z.to_nat (Z.shiftr control 5)) [0; 1; 2; 4; 2; 4; 6; 8] 0.

(** The tag behind a control byte, its octets at [tp]. *)
Definition parse_tag (r : tlv_reader) (control tp octets : Z) : res Z :=
  if control =? TC_ANON then Ret TLV_ANON
  else if control =? TC_CONTEXT then Ret (TLV_TAG TLV_SPECIAL_PROFILE (byte_at (tr_bytes r) tp))
  else if (control =? TC_COMMON_2) || (control =? TC_COMMON_4)
  then Ret (TLV_TAG TLV_COMMON_PROFILE (read_le r tp octets))
  else if (control =? TC_IMPLICIT_2) || (control =? TC_IMPLICIT_4) then
    if negb (tr_implicit_set r) then Fail MATTER_E_INVAL
    else Ret (TLV_TAG (tr_implicit_profile r) (read_le r tp octets))
  else
    let vendor := u32 (read_le r tp 2) in
    let profile_num := u32 (read_le r (tp + 2) 2) in
    Ret (TLV_TAG (Z.lor (u32 (Z.shiftl vendor 16)) profile_num) (read_le r (tp + 4) (octets - 4))).

(** The value behind the tag: width, string, container or nothing. *)
Definition parse_value (r : tlv_reader) (type tag after_tag : Z) : res tlv_elem :=
  let width := Z.shiftl 1 (Z.land type 0x03) in
  if type <=? ET_UINT64 then
    let* _ := guard_res (negb (fits r after_tag width)) MATTER_E_TRUNC in
    Ret {| el_type := type; el_tag := tag; el_val_off := after_tag; el_val_len := width;
           el_body_off := 0; el_end := after_tag + width; el_is_container := false |}
  else if (type =? ET_BOOL_FALSE) || (type =? ET_BOOL_TRUE) || (type =? ET_NULL) then
    Ret {| el_type := type; el_tag := tag; el_val_off := after_tag; el_val_len := 0;
           el_body_off := 0; el_end := after_tag; el_is_container := false |}
  else if (ET_UTF8_LEN1 <=? type) && (type <=? ET_BYTES_LEN8) then
    let* _ := guard_res (negb (fits r after_tag width)) MATTER_E_TRUNC in
    let payload := read_le r after_tag width in
    let val_off := after_tag + width in
    let* _ := guard_res (tr_len r - val_off <? payload) MATTER_E_TRUNC in
    Ret {| el_type := type; el_tag := tag; el_val_off := val_off; el_val_len := payload;
           el_body_off := 0; el_end := val_off + payload; el_is_container := false |}
  else if (TLV_STRUCTURE <=? type) && (type <=? TLV_LIST) then
    Ret {| el_type := type; el_tag := tag; el_val_off := after_tag; el_val_len := 0;
           el_body_off := after_tag; el_end := after_tag; el_is_container := true |}
  else Fail MATTER_E_INVAL.

Definition parse_at (r : tlv_reader) (off : Z) : res tlv_elem :=
  let* _ := guard_res (negb (fits r off 1)) MATTER_E_TRUNC in
  let c := byte_at (tr_bytes r) off in
  let control := Z.land c 0xE0 in
  let type := Z.land c 0x1F in
  let octets := tag_octets_by_control control in
  let* _ := guard_res (negb (fits r (off + 1) octets)) MATTER_E_TRUNC in
  let* tag := parse_tag r control (off + 1) octets in
  parse_value r type tag (off + 1 + octets).

(** The walk to the end marker of a level; [None] when the fuel runs out. *)
Fixpoint scan_loop (fuel : nat) (r : tlv_reader) (off nest : Z) : option (res Z) :=
  match fuel with
  | O => None
  | S f =>
      if negb (fits r off 1) then Some (Fail MATTER_E_TRUNC) else
      if byte_at (tr_bytes r) off =? ET_END_CONTAINER then
        if nest =? 0 then Some (Ret (off + 1)) else scan_loop f r (off + 1) (nest - 1)
      else
        match parse_at r off with
        | Fail s => Some (Fail s)
        | Ret e =>
            if el_is_container e then
              if TLV_MAX_DEPTH <=? nest then Some (Fail MATTER_E_DEPTH)
              else scan_loop f r (el_body_off e) (nest + 1)
            else scan_loop f r (el_end e) nest
        end
  end.

Definition scan_past_level_end (r : tlv_reader) (from : Z) : res Z :=
  default (Fail MATTER_E_TRUNC) (scan_loop (S (Z.to_nat (tr_len r))) r from 0).

(** Where the next element starts: behind the loaded one, its body included. *)
Definition tlv_resume (r : tlv_reader) : res Z :=
  if negb (tr_have r) then Ret (tr_next_off r)
  else if el_is_container (tr_elem r) then scan_past_level_end r (el_body_off (tr_elem r))
  else Ret (el_end (tr_elem r)).

Definition tlv_next (r : tlv_reader) : tlv_reader * matter_status :=
  match tr_buf r with
  | None => (r, MATTER_E_INVAL)
  | Some buf =>
      match tlv_resume r with
      | Fail s => (r, s)
      | Ret start =>
          let r := r <| tr_have := false |> in
          if tr_len r <=? start then
            (r, if tr_depth r =? 0 then MATTER_END else MATTER_E_TRUNC)
          else if byte_at buf start =? ET_END_CONTAINER then
            if tr_depth r =? 0 then (r, MATTER_E_INVAL)
            else (r <| tr_next_off := start |>, MATTER_END)
          else
            match parse_at r start with
            | Fail s => (r, s)
            | Ret e =>
                (r <| tr_elem := e |> <| tr_next_off := el_end e |> <| tr_have := true |>,
                 MATTER_OK)
            end
      end
  end.

Definition tlv_tag (r : tlv_reader) : Z := if tr_have r then el_tag (tr_elem r) else TLV_ANON.

Definition tlv_element_type (r : tlv_reader) : Z := if tr_have r then el_type (tr_elem r) else 0.

Definition tlv_is_container (r : tlv_reader) : bool := tr_have r && el_is_container (tr_elem r).

Definition tlv_get_bool (r : tlv_reader) : res bool :=
  let* _ := guard_res (negb (tr_have r)) MATTER_E_STATE in
  let t := el_type (tr_elem r) in
  let* _ := guard_res (negb (t =? ET_BOOL_FALSE) && negb (t =? ET_BOOL_TRUE)) MATTER_E_TYPE in
  Ret (t =? ET_BOOL_TRUE).

Definition tlv_get_u64 (r : tlv_reader) : res Z :=
  let* _ := guard_res (negb (tr_have r)) MATTER_E_STATE in
  let e := tr_elem r in
  let* _ := guard_res ((el_type e <? ET_UINT8) || (ET_UINT64 <? el_type e)) MATTER_E_TYPE in
  Ret (read_le r (el_val_off e) (el_val_len e)).

(** Sign extension of a [bits]-wide raw value, in unsigned arithmetic. *)
Definition sign_extend (raw bits : Z) : Z :=
  i64 (if (bits <? 64) && negb (Z.land raw (Z.shiftl 1 (bits - 1)) =? 0)
       then Z.lor raw (u64 (Z.lnot (Z.shiftl 1 bits - 1))) else raw).

Definition tlv_get_i64 (r : tlv_reader) : res Z :=
  let* _ := guard_res (negb (tr_have r)) MATTER_E_STATE in
  let e := tr_elem r in
  let* _ := guard_res (ET_INT64 <? el_type e) MATTER_E_TYPE in
  Ret (sign_extend (read_le r (el_val_off e) (el_val_len e)) (8 * el_val_len e)).

(** Offset and length of the payload, a span of the caller's buffer. *)
Definition get_span (r : tlv_reader) (lo hi : Z) : res (Z * Z) :=
  let* _ := guard_res (negb (tr_have r)) MATTER_E_STATE in
  let e := tr_elem r in
  let* _ := guard_res ((el_type e <? lo) || (hi <? el_type e)) MATTER_E_TYPE in
  Ret (el_val_off e, el_val_len e).

Definition tlv_get_bytes (r : tlv_reader) : res (Z * Z) := get_span r ET_BYTES_LEN1 ET_BYTES_LEN8.

Definition tlv_get_utf8 (r : tlv_reader) : res (Z * Z) := get_span r ET_UTF8_LEN1 ET_UTF8_LEN8.

(** The bytes a span denotes. *)
Definition span_bytes (r : tlv_reader) (s : Z * Z) : list Z :=
  take (Z.to_nat s.2) (drop (Z.to_nat s.1) (tr_bytes r)).

Definition tlv_enter (r : tlv_reader) : tlv_reader * matter_status :=
  if negb (tr_have r) || negb (el_is_container (tr_elem r)) then (r, MATTER_E_STATE) else
  if TLV_MAX_DEPTH <=? tr_depth r then (r, MATTER_E_DEPTH) else
  (r <| tr_depth := tr_depth r + 1 |> <| tr_next_off := el_body_off (tr_elem r) |>
     <| tr_have := false |>, MATTER_OK).

Definition tlv_exit (r : tlv_reader) : tlv_reader * matter_status :=
  if tr_depth r =? 0 then (r, MATTER_E_STATE) else
  match tlv_resume r with
  | Fail s => (r, s)
  | Ret from =>
      match scan_past_level_end r from with
      | Fail s => (r, s)
      | Ret past =>
          (r <| tr_depth := tr_depth r - 1 |> <| tr_next_off := past |> <| tr_have := false |>,
           MATTER_OK)
      end
  end.
