(* ===== verification/MatterTlvSafety.v ===== *)
(** * TLV: bounds, progress and sticky errors

    What holds for every input.  The reader stays inside its buffer and its
    nesting cap and every step moves it forward; the writer stays inside its
    capacity, keeps what it wrote and latches its first error. *)

From Stdlib Require Import ZArith Lia Bool.
From stdpp Require Import base list numbers.
From S2P Require Import Prelude Wire MatterStatus MatterTlv.

Local Open Scope Z_scope.
Local Open Scope res_scope.

(** ** One element *)

Definition buf_ok (r : tlv_reader) : Prop :=
  Forall byte_ok (tr_bytes r) /\ 0 <= tr_len r <= zlen (tr_bytes r).

(** An element parsed at [off]: everything it names lies between [off] and
    the end of the buffer. *)
Definition elem_ok (len off : Z) (e : tlv_elem) : Prop :=
  off < el_val_off e /\ 0 <= el_val_len e /\ el_val_off e + el_val_len e <= len /\
  off < el_end e <= len /\ (el_is_container e = true -> el_body_off e = el_end e).

Lemma fits_spec r off n : fits r off n = true <-> off <= tr_len r /\ off + n <= tr_len r.
Proof. unfold fits. rewrite andb_true_iff, !Z.leb_le. lia. Qed.

Lemma octets_nonneg control : 0 <= tag_octets_by_control control <= 8.
Proof.
  unfold tag_octets_by_control.
  destruct (Z.to_nat _) as [|[|[|[|[|[|[|[|[|?]]]]]]]]]; simpl; lia.
Qed.

Lemma width_pos type : 0 < Z.shiftl 1 (Z.land type 3).
Proof.
  rewrite Z.shiftl_mul_pow2 by (apply Z.land_nonneg; lia). rewrite Z.mul_1_l.
  apply Z.pow_pos_nonneg; [lia|]. apply Z.land_nonneg. lia.
Qed.

Lemma read_le_nonneg r off n : buf_ok r -> 0 <= read_le r off n.
Proof. intros [Hb _]. apply (field_range (Z.to_nat n) _ off Hb). Qed.

Lemma parse_value_ok r type tag off e :
  buf_ok r -> 0 < off <= tr_len r -> parse_value r type tag off = Ret e ->
  elem_ok (tr_len r) (off - 1) e.
Proof.
  intros Hb Ho He. unfold parse_value in He. pose proof (width_pos type) as Hw.
  set (width := Z.shiftl 1 (Z.land type 3)) in *. clearbody width.
  destruct (type <=? ET_UINT64).
  { apply res_bind_Ret in He as ([] & Hf & He). apply guard_res_Ret, negb_false_iff, fits_spec in Hf.
    injection He as <-. unfold elem_ok. simpl. split_and!; (lia || done). }
  destruct (_ || _). { injection He as <-. unfold elem_ok. simpl. split_and!; (lia || done). }
  destruct (_ && _).
  { apply res_bind_Ret in He as ([] & Hf & He). apply guard_res_Ret, negb_false_iff, fits_spec in Hf.
    apply res_bind_Ret in He as ([] & Hp & He). apply guard_res_Ret, Z.ltb_ge in Hp.
    pose proof (read_le_nonneg r off width Hb).
    injection He as <-. unfold elem_ok. simpl. split_and!; (lia || done). }
  destruct (_ && _); [|done].
  injection He as <-. unfold elem_ok. simpl. split_and!; (lia || done).
Qed.

Lemma parse_at_ok r off e :
  buf_ok r -> 0 <= off -> parse_at r off = Ret e -> elem_ok (tr_len r) off e.
Proof.
  intros Hb Ho He. unfold parse_at in He.
  apply res_bind_Ret in He as ([] & Hf & He). apply guard_res_Ret, negb_false_iff, fits_spec in Hf.
  apply res_bind_Ret in He as ([] & Hg & He). apply guard_res_Ret, negb_false_iff, fits_spec in Hg.
  apply res_bind_Ret in He as (tag & _ & He).
  pose proof (octets_nonneg (Z.land (byte_at (tr_bytes r) off) 0xE0)).
  apply parse_value_ok in He; [|done|lia]. unfold elem_ok in *. intuition lia.
Qed.

(** ** The scan terminates *)

Lemma scan_loop_total fuel r off nest :
  buf_ok r -> 0 <= off -> tr_len r - off < Z.of_nat fuel -> (0 < fuel)%nat ->
  exists out, scan_loop fuel r off nest = Some out /\
    (forall past, out = Ret past -> off < past <= tr_len r).
Proof.
  intros Hb. revert off nest. induction fuel as [|fuel IH]; intros off nest Ho Hf Hp; [lia|].
  cbn [scan_loop]. destruct (fits r off 1) eqn:Hfit; cbn [negb]; [|by eexists].
  apply fits_spec in Hfit.
  assert (forall off' nest', off < off' -> exists out, scan_loop fuel r off' nest' = Some out /\
    (forall past, out = Ret past -> off < past <= tr_len r)) as Hstep.
  { intros off' nest' Hlt. destruct (IH off' nest' ltac:(lia) ltac:(lia) ltac:(lia)) as (out & He & Hr).
    exists out. split; [done|]. intros past Hpast. specialize (Hr past Hpast). lia. }
  destruct (_ =? ET_END_CONTAINER).
  { destruct (nest =? 0); [|apply Hstep; lia]. eexists. split; [done|]. intros past [= <-]. lia. }
  destruct (parse_at r off) as [e|s] eqn:He; [|by eexists].
  apply parse_at_ok in He as (_ & _ & _ & Hend & Hbody); [|done|done].
  destruct (el_is_container e).
  - destruct (TLV_MAX_DEPTH <=? nest); [by eexists|]. apply Hstep. rewrite Hbody by done. lia.
  - apply Hstep. lia.
Qed.

Lemma scan_ok r off past :
  buf_ok r -> 0 <= off -> scan_past_level_end r off = Ret past -> off < past <= tr_len r.
Proof.
  intros Hb Ho Hs. unfold scan_past_level_end in Hs.
  destruct (scan_loop_total (S (Z.to_nat (tr_len r))) r off 0 Hb Ho) as (out & He & Hr); [|lia|].
  { destruct Hb. lia. }
  rewrite He in Hs. simpl in Hs. by apply Hr.
Qed.

(** More turns do not change what a finished walk returns. *)
Lemma scan_loop_more fuel r off nest out :
  scan_loop fuel r off nest = Some out -> forall more, (fuel <= more)%nat -> scan_loop more r off nest = Some out.
Proof.
  revert off nest. induction fuel as [|fuel IH]; intros off nest H more Hm; [done|].
  destruct more as [|more]; [lia|]. cbn [scan_loop] in *. apply le_S_n in Hm.
  repeat case_match; try done; by apply IH.
Qed.

(** C39: Skipping a container terminates on every input: the walk to the end
    marker, which follows lengths and nesting chosen by the peer, stops within
    one turn for each byte between its start and the end of the buffer, and one
    more; further turns change nothing, so the walk of [scan_past_level_end] is
    that walk; and what it returns lies behind its start and inside the
    buffer. *)
Theorem tlv_scan_terminates r off nest :
  buf_ok r -> 0 <= off ->
  exists out, scan_loop (S (Z.to_nat (tr_len r - off))) r off nest = Some out /\
    (forall fuel, (Z.to_nat (tr_len r - off) < fuel)%nat -> scan_loop fuel r off nest = Some out) /\
    (nest = 0 -> scan_past_level_end r off = out) /\
    (forall past, out = Ret past -> off < past <= tr_len r).
Proof.
  intros Hb Ho. destruct (scan_loop_total (S (Z.to_nat (tr_len r - off))) r off nest Hb Ho) as (out & He & Hr); [lia..|].
  exists out. split_and!; [done|intros fuel Hf; by eapply scan_loop_more| |done].
  intros ->. unfold scan_past_level_end. by rewrite (scan_loop_more _ _ _ _ _ He) by lia.
Qed.

Definition sample_reader (l : list Z) : tlv_reader := tlv_reader_init (Some l) (zlen l).

(** Four turns from the third of six bytes on. *)
Lemma tlv_scan_terminates_witness :
  exists out, scan_loop 5 (sample_reader [0x15; 0x04; 7; 0x18; 0x18; 9]) 2 1 = Some out /\
    (forall past, out = Ret past -> 2 < past <= 6).
Proof.
  destruct (tlv_scan_terminates (sample_reader [0x15; 0x04; 7; 0x18; 0x18; 9]) 2 1) as (out & H1 & _ & _ & H2).
  - split; [apply bytes_all; reflexivity|vm_compute; split; congruence].
  - lia.
  - exists out. split; [exact H1|exact H2].
Defined.

(** ** The reader as a state machine *)

Inductive tlv_op := Op_next | Op_enter | Op_exit.

Definition tlv_step (r : tlv_reader) (o : tlv_op) : tlv_reader * matter_status :=
  match o with Op_next => tlv_next r | Op_enter => tlv_enter r | Op_exit => tlv_exit r end.

(** [tr_next_off] is how far the reader has come: the end of the loaded
    element, the body of an entered container, or behind what was skipped. *)
Record reader_wf (r : tlv_reader) : Prop := {
  rw_buf : buf_ok r;
  rw_next : 0 <= tr_next_off r <= tr_len r;
  rw_depth : 0 <= tr_depth r <= TLV_MAX_DEPTH;
  rw_elem : tr_have r = true ->
    tr_next_off r = el_end (tr_elem r) /\ exists off, 0 <= off /\ elem_ok (tr_len r) off (tr_elem r);
}.

Lemma reader_init_wf l : Forall byte_ok l -> reader_wf (sample_reader l).
Proof.
  intros Hl. pose proof (zlen_nonneg l).
  split; simpl; try (unfold TLV_MAX_DEPTH; lia); done.
Qed.

Lemma resume_ok r off :
  reader_wf r -> tlv_resume r = Ret off -> tr_next_off r <= off <= tr_len r.
Proof.
  intros [Hb Hn _ He] Hr. unfold tlv_resume in Hr.
  destruct (tr_have r); cbn [negb] in *; [|simplify_eq; lia].
  destruct (He eq_refl) as (-> & off0 & ? & _ & _ & _ & Hend & Hbody).
  destruct (el_is_container (tr_elem r)); [|simplify_eq; lia].
  apply scan_ok in Hr; [|done|]; rewrite ?Hbody in * by done; lia.
Qed.

(** Errors are errors. *)
Lemma parse_at_fails r off : fails_bad (parse_at r off).
Proof.
  unfold parse_at, parse_tag, parse_value.
  repeat (apply fails_bad_bind; [|intros ?]); try (by apply fails_bad_guard);
    repeat case_match; try apply fails_bad_Ret; try (by intros s [= <-]);
    repeat (apply fails_bad_bind; [|intros ?]); try (by apply fails_bad_guard); apply fails_bad_Ret.
Qed.

Lemma scan_fails r off : fails_bad (scan_past_level_end r off).
Proof.
  unfold scan_past_level_end. generalize (S (Z.to_nat (tr_len r))) as fuel. intros fuel.
  generalize 0 as nest. revert off. induction fuel as [|fuel IH]; intros off nest s; cbn [scan_loop].
  { by intros [= <-]. }
  destruct (negb _); [by intros [= <-]|]. destruct (_ =? ET_END_CONTAINER).
  { destruct (nest =? 0); [done|]. apply IH. }
  destruct (parse_at r off) as [e|t] eqn:E.
  - destruct (el_is_container e); [|apply IH]. destruct (_ <=? nest); [by intros [= <-]|apply IH].
  - intros [= <-]. by apply (parse_at_fails r off).
Qed.

Lemma resume_fails r : fails_bad (tlv_resume r).
Proof.
  unfold tlv_resume. destruct (negb _); [apply fails_bad_Ret|].
  destruct (el_is_container _); [apply scan_fails|apply fails_bad_Ret].
Qed.

(** What a step keeps: the invariant, the buffer, and it never moves back. *)
Record step_ok (r r' : tlv_reader) : Prop := {
  so_wf : reader_wf r';
  so_len : tr_len r' = tr_len r;
  so_buf : tr_buf r' = tr_buf r;
  so_pos : tr_next_off r <= tr_next_off r';
}.

Lemma step_ok_refl r : reader_wf r -> step_ok r r.
Proof. intros. by split. Qed.

(** Forgetting the loaded element. *)
Lemma forget_ok r : reader_wf r -> step_ok r (r <| tr_have := false |>).
Proof. intros [Hb Hn Hd He]. split; [by split|done..]. Qed.

Lemma next_step r :
  reader_wf r ->
  let '(r', s) := tlv_next r in
  step_ok r r' /\ (s = MATTER_OK -> tr_next_off r < tr_next_off r').
Proof.
  intros Hwf. pose proof Hwf as [Hb Hn Hd He].
  unfold tlv_next. destruct (tr_buf r) as [buf|] eqn:Hbuf; [|split; [by apply step_ok_refl|done]].
  destruct (tlv_resume r) as [start|s] eqn:Hres.
  2:{ split; [by apply step_ok_refl|]. intros ->. by destruct (resume_fails r _ Hres). }
  apply resume_ok in Hres; [|done]. cbv zeta.
  change (tr_len r <| tr_have := false |>) with (tr_len r).
  change (tr_depth r <| tr_have := false |>) with (tr_depth r).
  destruct (Z.leb_spec (tr_len r) start).
  { split; [by apply forget_ok|]. by destruct (tr_depth r =? 0). }
  destruct (_ =? ET_END_CONTAINER).
  { destruct (tr_depth r =? 0); [split; [by apply forget_ok|done]|]. split; [|done].
    split; [split|..]; simpl; (done || lia). }
  destruct (parse_at _ start) as [e|s] eqn:Hpa.
  2:{ split; [by apply forget_ok|]. intros ->. by destruct (parse_at_fails _ _ _ Hpa). }
  apply parse_at_ok in Hpa; [|done|lia]. pose proof Hpa as (_ & _ & _ & Hend & _).
  change (tr_len r <| tr_have := false |>) with (tr_len r) in Hend.
  split; [|simpl; lia]. split; [split|..]; simpl; try done; try lia.
  intros _. split; [done|]. exists start. split; [lia|exact Hpa].
Qed.

Lemma enter_step r : reader_wf r -> step_ok r (tlv_enter r).1.
Proof.
  intros Hwf. pose proof Hwf as [Hb Hn Hd He]. unfold tlv_enter.
  destruct (tr_have r) eqn:Hh; cbn [negb orb]; [|by apply step_ok_refl].
  destruct (el_is_container (tr_elem r)) eqn:Hc; cbn [negb]; [|by apply step_ok_refl].
  destruct (Z.leb_spec TLV_MAX_DEPTH (tr_depth r)); [by apply step_ok_refl|].
  destruct (He eq_refl) as (Hnx & off & H0 & _ & _ & _ & Hend & Hbody). specialize (Hbody Hc).
  split; [split|..]; simpl; (done || lia).
Qed.

Lemma exit_step r : reader_wf r -> step_ok r (tlv_exit r).1.
Proof.
  intros Hwf. pose proof Hwf as [Hb Hn Hd He]. unfold tlv_exit.
  destruct (Z.eqb_spec (tr_depth r) 0); [by apply step_ok_refl|].
  destruct (tlv_resume r) as [from|] eqn:Hres; [|by apply step_ok_refl].
  apply resume_ok in Hres; [|done].
  destruct (scan_past_level_end r from) as [past|] eqn:Hs; [|by apply step_ok_refl].
  apply scan_ok in Hs; [|done|lia].
  split; [split|..]; simpl; (done || lia).
Qed.

(** A run of calls, counting the elements [tlv_next] loaded. *)
Fixpoint tlv_run (r : tlv_reader) (ops : list tlv_op) : tlv_reader * Z :=
  match ops with
  | [] => (r, 0)
  | o :: rest =>
      let '(r1, s) := tlv_step r o in
      let '(r2, n) := tlv_run r1 rest in
      (r2, n + match o, s with Op_next, MATTER_OK => 1 | _, _ => 0 end)
  end.

Lemma tlv_run_ok r ops :
  reader_wf r ->
  let '(r', n) := tlv_run r ops in step_ok r r' /\ 0 <= n <= tr_next_off r' - tr_next_off r.
Proof.
  revert r. induction ops as [|o ops IH]; intros r Hwf; cbn [tlv_run].
  { split; [by apply step_ok_refl|lia]. }
  assert (let '(r1, s) := tlv_step r o in step_ok r r1 /\
    0 <= match o, s with Op_next, MATTER_OK => 1 | _, _ => 0 end <= tr_next_off r1 - tr_next_off r) as Hst.
  { destruct o; cbn [tlv_step].
    - pose proof (next_step r Hwf) as Hs. destruct (tlv_next r) as [r1 s]. destruct Hs as [Hs Hok].
      split; [done|]. destruct Hs as [_ _ _ Hpos]. destruct s; try lia. specialize (Hok eq_refl). lia.
    - pose proof (enter_step r Hwf) as Hs. destruct (tlv_enter r) as [r1 s].
      split; [done|]. destruct Hs as [_ _ _ Hpos]. simpl in Hpos. lia.
    - pose proof (exit_step r Hwf) as Hs. destruct (tlv_exit r) as [r1 s].
      split; [done|]. destruct Hs as [_ _ _ Hpos]. simpl in Hpos. lia. }
  destruct (tlv_step r o) as [r1 s]. destruct Hst as [[Hw1 Hl1 Hb1 Hp1] Hc].
  specialize (IH r1 Hw1). destruct (tlv_run r1 ops) as [r2 n]. destruct IH as [[Hw2 Hl2 Hb2 Hp2] Hn].
  split; [|lia]. split; try done; try congruence. lia.
Qed.

(** The reader is safe on hostile input: after any sequence of [next],
    [enter] and [exit] on any bytes, every offset it holds lies inside the
    buffer, a loaded string is a span of the buffer, the depth is at most ten,
    and at most as many elements have been loaded as there are bytes, so a loop
    over [next] ends. *)
Theorem tlv_reader_confined l ops :
  Forall byte_ok l ->
  let '(r, n) := tlv_run (sample_reader l) ops in
  0 <= n <= zlen l /\ 0 <= tr_depth r <= TLV_MAX_DEPTH /\ 0 <= tr_next_off r <= zlen l /\
  (forall lo hi off len, get_span r lo hi = Ret (off, len) ->
     0 <= off /\ 0 <= len /\ off + len <= zlen l).
Proof.
  intros Hl. pose proof (tlv_run_ok (sample_reader l) ops (reader_init_wf l Hl)) as Hr.
  destruct (tlv_run (sample_reader l) ops) as [r n]. destruct Hr as [[Hw Hlen Hb _] Hn].
  simpl in Hlen, Hn. destruct Hw as [_ Hnx Hd He]. rewrite Hlen in *.
  split_and!; try lia. intros lo hi off len Hs. unfold get_span in Hs.
  apply res_bind_Ret in Hs as ([] & Hh & Hs). apply guard_res_Ret, negb_false_iff in Hh.
  apply res_bind_Ret in Hs as ([] & _ & Hs). injection Hs as <- <-.
  destruct (He Hh) as (_ & o & ? & ? & ? & ? & _). lia.
Qed.

Lemma tlv_reader_confined_witness :
  let '(r, n) := tlv_run (sample_reader [0x15; 0x30; 1; 2; 170; 187; 0x18])
                   [Op_next; Op_enter; Op_next; Op_next; Op_exit; Op_next] in
  n = 2 /\ 0 <= n <= 7.
Proof.
  pose proof (tlv_reader_confined [0x15; 0x30; 1; 2; 170; 187; 0x18]
    [Op_next; Op_enter; Op_next; Op_next; Op_exit; Op_next]
    ltac:(apply bytes_all; reflexivity)) as H.
  destruct (tlv_run _ _) as [r n] eqn:E. vm_compute in E. injection E as _ <-.
  split; [reflexivity|apply H].
Defined.

(** Behind the end of the top level the reader is not at rest: when the last
    element is a container that was not entered, the call after [MATTER_END]
    walks into its children. *)
Theorem tlv_next_after_end :
  let '(r1, s1) := tlv_next (sample_reader [0x15; 0x04; 7; 0x18]) in
  let '(r2, s2) := tlv_next r1 in
  let '(r3, s3) := tlv_next r2 in
  s1 = MATTER_OK /\ s2 = MATTER_END /\ s3 = MATTER_OK /\ tlv_get_u64 r3 = Ret 7.
Proof. vm_compute. split_and!; reflexivity. Qed.
