(* ===== verification/MatterTlvWriter.v ===== *)
(** * TLV: what the writer writes

    Each call of the writer appends exactly the encoding of its element, or
    latches an error; the capacity is never exceeded. *)

From Stdlib Require Import ZArith Lia Bool.
From stdpp Require Import base list numbers.
From S2P Require Import Prelude Wire MatterStatus MatterTlv.

Local Open Scope Z_scope.

(** A call of the writer. *)
Inductive tlv_event :=
  | TE_bool (tag : Z) (b : bool)
  | TE_null (tag : Z)
  | TE_int (tag v : Z)
  | TE_uint (tag v : Z)
  | TE_utf8 (tag : Z) (s : list Z)
  | TE_bytes (tag : Z) (s : list Z)
  | TE_open (tag type : Z)
  | TE_close.

Definition write_event (w : tlv_writer) (e : tlv_event) : tlv_writer :=
  match e with
  | TE_bool tag b => tlv_put_bool w tag b
  | TE_null tag => tlv_put_null w tag
  | TE_int tag v => tlv_put_i64 w tag v
  | TE_uint tag v => tlv_put_u64 w tag v
  | TE_utf8 tag s => tlv_put_utf8 w tag s
  | TE_bytes tag s => tlv_put_bytes w tag s
  | TE_open tag type => tlv_start_container w tag type
  | TE_close => tlv_end_container w
  end.

(** A string whose length fits a [size_t] together with its length octets: no
    longer one has room in a buffer of the 32-bit target. *)
Definition string_fits (s : list Z) : Prop := zlen s <= 0xFFFFFFFB.

Definition event_fits (e : tlv_event) : Prop :=
  match e with TE_utf8 _ s | TE_bytes _ s => string_fits s | _ => True end.

(** ** Encodings *)

Definition enc_head (w : tlv_writer) (tag type : Z) : list Z :=
  match tag_form w tag with
  | Some (control, n) => u8 (Z.lor control type) :: tag_octets control n tag
  | None => []
  end.

Definition enc_string (w : tlv_writer) (tag type_len1 : Z) (s : list Z) : list Z :=
  let '(k, n) := string_form (zlen s) in
  enc_head w tag (u8 (type_len1 + k)) ++ put_le n (zlen s) ++ s.

Definition enc_event (w : tlv_writer) (e : tlv_event) : list Z :=
  match e with
  | TE_bool tag b => enc_head w tag (if b then ET_BOOL_TRUE else ET_BOOL_FALSE)
  | TE_null tag => enc_head w tag ET_NULL
  | TE_int tag v => let '(t, n) := int_form v in enc_head w tag t ++ put_le n (u64 v)
  | TE_uint tag v => let '(t, n) := uint_form v in enc_head w tag t ++ put_le n v
  | TE_utf8 tag s => enc_string w tag ET_UTF8_LEN1 s
  | TE_bytes tag s => enc_string w tag ET_BYTES_LEN1 s
  | TE_open tag type => enc_head w tag type
  | TE_close => [ET_END_CONTAINER]
  end.

Definition event_tag (e : tlv_event) : option Z :=
  match e with
  | TE_bool t _ | TE_null t | TE_int t _ | TE_uint t _ | TE_utf8 t _ | TE_bytes t _
  | TE_open t _ => Some t
  | TE_close => None
  end.

(** Change of depth. *)
Definition event_delta (e : tlv_event) : Z :=
  match e with TE_open _ _ => 1 | TE_close => -1 | _ => 0 end.

(** The form depends on the implicit profile only. *)
Definition same_profile (w w' : tlv_writer) : Prop :=
  tw_implicit_profile w' = tw_implicit_profile w /\ tw_implicit_set w' = tw_implicit_set w.

Lemma tag_form_same w w' tag : same_profile w w' -> tag_form w' tag = tag_form w tag.
Proof. intros [H1 H2]. unfold tag_form. by rewrite H1, H2. Qed.

(** ** The invariant *)

Record writer_wf (w : tlv_writer) : Prop := {
  ww_out : exists out, tw_out w = Some out;
  ww_cap : in_u 32 (tw_cap w);
  ww_len : tw_len w <= tw_cap w;
  ww_depth : 0 <= tw_depth w <= TLV_MAX_DEPTH;
}.

Lemma writer_init_wf cap : in_u 32 cap -> writer_wf (tlv_writer_init true cap).
Proof.
  intros Hc. unfold in_u in Hc. split; simpl; try done; try (unfold TLV_MAX_DEPTH; lia).
  - by eexists.
  - unfold tw_len. simpl. unfold zlen. simpl. lia.
Qed.

Definition err (s : matter_status) : Prop := s <> MATTER_OK.

(** What a call did to the buffer: the encoding appended, or an error
    latched behind a part of it. *)
Definition outcome (w w' : tlv_writer) (enc : list Z) : Prop :=
  (w' = tw_append w enc /\ tw_len w + zlen enc <= tw_cap w) \/
  (exists s ext, err s /\ w' = (tw_append w ext) <| tw_rc := s |> /\ tw_len w + zlen ext <= tw_cap w).

Lemma tw_ok_rc w : tw_ok w = true <-> tw_rc w = MATTER_OK.
Proof. unfold tw_ok. apply bool_decide_eq_true. Qed.

Lemma tw_append_nil w : writer_wf w -> tw_append w [] = w.
Proof.
  intros [[out Ho] _ _ _]. unfold tw_append, tw_bytes. rewrite Ho. simpl. rewrite app_nil_r.
  destruct w; simpl in *. by subst.
Qed.

Lemma tw_append_app w a b : tw_append (tw_append w a) b = tw_append w (a ++ b).
Proof. unfold tw_append, tw_bytes. simpl. by rewrite <- app_assoc. Qed.

Lemma tw_fail_ok w s : tw_ok w = true -> tw_fail w s = w <| tw_rc := s |>.
Proof. unfold tw_fail. by intros ->. Qed.

(** Failing on the spot. *)
Lemma outcome_fail w s enc : writer_wf w -> err s -> outcome w (w <| tw_rc := s |>) enc.
Proof.
  intros Hw Hs. right. exists s, []. rewrite tw_append_nil by done. split_and!; try done.
  destruct Hw as [_ _ Hl _]. change (zlen (@nil Z)) with 0. lia.
Qed.

Lemma room_spec w n :
  writer_wf w -> tw_ok w = true ->
  tw_room w n = if tw_cap w - tw_len w <? n then (w <| tw_rc := MATTER_E_NOSPACE |>, false) else (w, true).
Proof.
  intros [[out Ho] Hc Hl Hd] Hok. unfold tw_room. rewrite Ho.
  pose proof (zlen_nonneg (tw_bytes w)). unfold tw_len in *.
  rewrite wrap_id by (unfold in_u in *; lia). by rewrite tw_fail_ok.
Qed.

Lemma length_tag_octets w tag control n :
  tag_form w tag = Some (control, n) -> length (tag_octets control n tag) = n.
Proof.
  unfold tag_form, tag_octets. intros H.
  repeat case_match; simplify_eq; try done; rewrite ?length_app, ?length_put_le; done.
Qed.

Lemma put_tag_cases w tag type :
  writer_wf w -> tw_ok w = true ->
  (put_tag w tag type = (tw_append w (enc_head w tag type), true) /\ tag_form w tag <> None /\
   tw_len w + zlen (enc_head w tag type) <= tw_cap w) \/
  (exists s, err s /\ put_tag w tag type = (w <| tw_rc := s |>, false)).
Proof.
  intros Hw Hok. unfold put_tag, enc_head. destruct (tag_form w tag) as [[c n]|] eqn:Hf.
  2:{ right. exists MATTER_E_INVAL. split; [done|]. by rewrite tw_fail_ok. }
  rewrite room_spec by done. destruct (Z.ltb_spec (tw_cap w - tw_len w) (1 + Z.of_nat n)).
  - right. by exists MATTER_E_NOSPACE.
  - left. split_and!; try done. rewrite zlen_cons. unfold zlen at 1.
    rewrite (length_tag_octets w tag c n Hf). lia.
Qed.

(** The invariant only needs the length, the capacity and the depth. *)
Lemma append_wf w bytes : writer_wf w -> tw_len w + zlen bytes <= tw_cap w -> writer_wf (tw_append w bytes).
Proof.
  intros [_ Hc Hl Hd] Hb. split; simpl; try done; [by eexists|].
  unfold tw_len, tw_bytes. simpl. rewrite zlen_app. exact Hb.
Qed.

Lemma rc_wf w s : writer_wf w -> writer_wf (w <| tw_rc := s |>).
Proof. intros []. by split. Qed.

Lemma put_value_outcome w tag type value :
  writer_wf w -> tw_ok w = true ->
  outcome w (put_value w tag type value) (enc_head w tag type ++ value).
Proof.
  intros Hw Hok. unfold put_value, put_sized.
  destruct (put_tag_cases w tag type Hw Hok) as [(-> & Hf & Hl)|(s & Hs & ->)];
    [|by apply outcome_fail].
  rewrite room_spec by (done || by apply append_wf).
  change (tw_cap (tw_append w (enc_head w tag type))) with (tw_cap w).
  assert (tw_len (tw_append w (enc_head w tag type)) = tw_len w + zlen (enc_head w tag type)) as ->
    by (unfold tw_len, tw_bytes; simpl; by rewrite zlen_app).
  destruct (Z.ltb_spec (tw_cap w - (tw_len w + zlen (enc_head w tag type))) (zlen value)).
  - right. by exists MATTER_E_NOSPACE, (enc_head w tag type).
  - left. rewrite tw_append_app, zlen_app. split; [done|lia].
Qed.

Lemma put_tag_outcome w tag type :
  writer_wf w -> tw_ok w = true -> outcome w (put_tag w tag type).1 (enc_head w tag type).
Proof.
  intros Hw Hok. destruct (put_tag_cases w tag type Hw Hok) as [(-> & _ & Hl)|(s & Hs & ->)].
  - left. done.
  - by apply outcome_fail.
Qed.

Lemma string_form_octets len : (snd (string_form len) <= 4)%nat.
Proof. unfold string_form. repeat case_match; simpl; lia. Qed.

(** The size a string asks for, when it fits. *)
Lemma string_size s : string_fits s ->
  let '(_, n) := string_form (zlen s) in usize (Z.of_nat n + zlen s) = zlen (put_le n (zlen s) ++ s).
Proof.
  intros Hs. pose proof (string_form_octets (zlen s)) as Hn. destruct (string_form (zlen s)) as [k n]. cbn [snd] in Hn.
  rewrite zlen_app. unfold zlen at 2. rewrite length_put_le. pose proof (zlen_nonneg s). unfold string_fits in Hs.
  apply wrap_id. unfold in_u. lia.
Qed.

(** A longer string asks for at most three bytes: [room] grants it in almost any
    buffer, and the bytes written behind it go past the end. *)
Lemma put_string_room_wraps w len :
  writer_wf w -> tw_ok w = true -> 0xFFFFFFFC <= len <= 0xFFFFFFFF -> 3 <= tw_cap w - tw_len w ->
  let '(_, n) := string_form len in
  tw_room w (usize (Z.of_nat n + len)) = (w, true) /\ tw_cap w < tw_len w + Z.of_nat n + len.
Proof.
  intros Hw Hok Hl Hr. assert (string_form len = (2, 4%nat)) as ->.
  { unfold string_form. by rewrite !(proj2 (Z.leb_gt _ _)) by lia. }
  assert (usize (Z.of_nat 4 + len) = len - 0xFFFFFFFC) as ->.
  { unfold wrap. symmetry. apply (Z.mod_unique _ _ 1); lia. }
  assert (0 <= tw_len w) by apply zlen_nonneg. pose proof (ww_cap w Hw) as Hc. unfold in_u in Hc.
  rewrite room_spec, (proj2 (Z.ltb_ge _ _)) by (done || lia). split; [done|lia].
Qed.

Lemma put_string_outcome w tag t s :
  writer_wf w -> tw_ok w = true -> string_fits s ->
  outcome w (put_string w tag t (Some s) (zlen s)) (enc_string w tag t s).
Proof.
  intros Hw Hok Hs. pose proof (string_size s Hs) as Hz. unfold put_string, enc_string. rewrite Hok. cbn [negb].
  destruct (string_form (zlen s)) as [k n].
  replace (take (Z.to_nat (zlen s)) s) with s by (unfold zlen; by rewrite Nat2Z.id, firstn_all).
  rewrite Hz. by apply put_value_outcome.
Qed.

(** ** Every call

    The depth changes only with the encoding of a container's start or end. *)
Definition event_outcome (w w' : tlv_writer) (e : tlv_event) : Prop :=
  (exists w1, outcome w w1 (enc_event w e) /\
     w' = (if tw_ok w1 then w1 <| tw_depth := tw_depth w + event_delta e |> else w1)) /\
  (tw_ok w' = true -> 0 <= tw_depth w + event_delta e <= TLV_MAX_DEPTH).

Lemma depth_id w d : tw_depth w = d -> w <| tw_depth := d |> = w.
Proof. intros <-. by destruct w. Qed.

Lemma leaf_outcome w w1 e :
  writer_wf w -> event_delta e = 0 -> outcome w w1 (enc_event w e) -> event_outcome w w1 e.
Proof.
  intros [_ _ _ Hd] He Ho. split; [|rewrite He; lia].
  exists w1. split; [done|]. rewrite He, Z.add_0_r. destruct (tw_ok w1); [|done].
  symmetry. apply depth_id. destruct Ho as [[-> _]|(s & ext & _ & -> & _)]; done.
Qed.

Lemma write_event_spec w e :
  writer_wf w -> event_fits e -> tw_ok w = true -> event_outcome w (write_event w e) e.
Proof.
  intros Hw He Hok. pose proof Hw as [_ _ _ Hd].
  assert (forall s e', err s -> event_outcome w (w <| tw_rc := s |>) e') as Hfail.
  { intros s e' Hs. split.
    - exists (w <| tw_rc := s |>). split; [by apply outcome_fail|].
      destruct (tw_ok (w <| tw_rc := s |>)) eqn:E; [|done]. apply tw_ok_rc in E. done.
    - intros E. apply tw_ok_rc in E. done. }
  destruct e; cbn [write_event].
  - unfold tlv_put_bool. rewrite Hok. apply leaf_outcome; [done..|]. by apply put_tag_outcome.
  - unfold tlv_put_null. rewrite Hok. apply leaf_outcome; [done..|]. by apply put_tag_outcome.
  - unfold tlv_put_i64. rewrite Hok. apply leaf_outcome; [done..|]. cbn [negb enc_event].
    destruct (int_form v). by apply put_value_outcome.
  - unfold tlv_put_u64. rewrite Hok. apply leaf_outcome; [done..|]. cbn [negb enc_event].
    destruct (uint_form v). by apply put_value_outcome.
  - apply leaf_outcome; [done..|]. by apply put_string_outcome.
  - apply leaf_outcome; [done..|]. by apply put_string_outcome.
  - unfold tlv_start_container. rewrite Hok. cbn [negb].
    destruct (_ && _); [rewrite tw_fail_ok by done; by apply Hfail|].
    destruct (Z.leb_spec TLV_MAX_DEPTH (tw_depth w)); [rewrite tw_fail_ok by done; by apply Hfail|].
    destruct (put_tag_cases w tag type Hw Hok) as [(-> & Hf & Hl)|(s & Hs & ->)]; [|by apply Hfail].
    split; [|simpl; unfold TLV_MAX_DEPTH in *; lia].
    exists (tw_append w (enc_head w tag type)). split; [by left|].
    by rewrite (proj2 (tw_ok_rc (tw_append w _))) by (by apply tw_ok_rc).
  - unfold tlv_end_container. rewrite Hok. cbn [negb].
    destruct (Z.eqb_spec (tw_depth w) 0); [rewrite tw_fail_ok by done; by apply Hfail|].
    rewrite room_spec by done. destruct (Z.ltb_spec (tw_cap w - tw_len w) 1); [by apply Hfail|].
    split; [|simpl; unfold TLV_MAX_DEPTH in *; lia].
    exists (tw_append w [ET_END_CONTAINER]). split; [left; split; [done|change (zlen _) with 1; lia]|].
    by rewrite (proj2 (tw_ok_rc (tw_append w _))) by (by apply tw_ok_rc).
Qed.

(** ** Runs of the writer *)

Definition write_events (w : tlv_writer) (evs : list tlv_event) : tlv_writer :=
  fold_left write_event evs w.

Lemma outcome_wf w w' enc : writer_wf w -> outcome w w' enc -> writer_wf w' /\ same_profile w w' /\ tw_cap w' = tw_cap w.
Proof.
  intros Hw [[-> Hl]|(s & ext & _ & -> & Hl)].
  - split; [by apply append_wf|done].
  - split; [by apply rc_wf, append_wf|done].
Qed.

Lemma write_event_sticky w e : tw_ok w = false -> write_event w e = w.
Proof.
  intros Hok. destruct e; cbn [write_event];
    unfold tlv_put_bool, tlv_put_null, tlv_put_i64, tlv_put_u64, tlv_put_utf8, tlv_put_bytes,
      put_string, tlv_start_container, tlv_end_container; by rewrite Hok.
Qed.

Lemma write_events_sticky w evs : tw_ok w = false -> write_events w evs = w.
Proof.
  intros Hok. induction evs as [|e evs IH]; [done|].
  unfold write_events in *. cbn [fold_left]. by rewrite write_event_sticky.
Qed.

(** One call, seen from outside. *)
Lemma write_event_step w e :
  writer_wf w -> event_fits e ->
  let w' := write_event w e in
  writer_wf w' /\ same_profile w w' /\ tw_cap w' = tw_cap w /\
  (tw_ok w' = true -> tw_ok w = true /\ tw_bytes w' = tw_bytes w ++ enc_event w e /\
     tw_depth w' = tw_depth w + event_delta e).
Proof.
  intros Hw He w'. destruct (tw_ok w) eqn:Hok.
  2:{ unfold w'. rewrite write_event_sticky by done. rewrite Hok. split_and!; done. }
  destruct (write_event_spec w e Hw He Hok) as ((w1 & Ho & Hw') & Hd). fold w' in Hw', Hd.
  destruct (outcome_wf w w1 _ Hw Ho) as (Hw1 & Hp1 & Hc1).
  destruct (tw_ok w1) eqn:Hok1.
  - assert (tw_ok w' = true) as Hok'.
    { apply tw_ok_rc. rewrite Hw'. by apply tw_ok_rc in Hok1. }
    specialize (Hd Hok'). destruct Ho as [[-> Hl]|(s & ext & Hs & -> & _)].
    2:{ apply tw_ok_rc in Hok1. simpl in Hok1. by rewrite Hok1 in Hs. }
    rewrite Hw'. split; [destruct Hw1; by split|]. done.
  - rewrite Hw'. split_and!; try done. intros E. by rewrite E in Hok1.
Qed.

Lemma enc_event_same w w' e : same_profile w w' -> enc_event w' e = enc_event w e.
Proof.
  intros Hp. destruct e; cbn [enc_event]; unfold enc_string, enc_head; by rewrite ?(tag_form_same w w' _ Hp).
Qed.

Lemma same_profile_trans a b c : same_profile a b -> same_profile b c -> same_profile a c.
Proof. unfold same_profile. intros [] []. split; congruence. Qed.

Lemma write_events_step w evs :
  writer_wf w -> Forall event_fits evs ->
  let w' := write_events w evs in
  writer_wf w' /\ same_profile w w' /\ tw_cap w' = tw_cap w /\
  (tw_ok w' = true -> tw_ok w = true /\ tw_bytes w' = tw_bytes w ++ concat (map (enc_event w) evs)).
Proof.
  revert w. induction evs as [|e evs IH]; intros w Hw Hf; cbn zeta.
  { split_and!; try done. intros Hok. split; [done|]. simpl. by rewrite app_nil_r. }
  unfold write_events. cbn [fold_left]. fold (write_events (write_event w e) evs).
  apply Forall_cons_iff in Hf as [He Hf].
  destruct (write_event_step w e Hw He) as (Hw1 & Hp1 & Hc1 & Hok1).
  destruct (IH _ Hw1 Hf) as (Hw2 & Hp2 & Hc2 & Hok2).
  split; [done|]. split; [by eapply same_profile_trans|]. split; [congruence|].
  intros Hok. destruct (Hok2 Hok) as [Ho1 Hb]. destruct (Hok1 Ho1) as (Ho & Hb1 & _).
  split; [done|]. rewrite Hb, Hb1, <- app_assoc. do 2 f_equal. cbn [map concat]. f_equal.
  f_equal. apply map_ext. intros e'. by apply enc_event_same.
Qed.

(** The writer is confined and honest: whatever calls are made with strings
    that fit, it never
    writes past its capacity nor nests beyond ten; after the first error every
    call leaves it unchanged; and when [tlv_writer_finish] reports success,
    no call failed, every container was closed, and the buffer is exactly the
    concatenation of the encodings of the calls. *)
Theorem tlv_writer_honest cap evs :
  in_u 32 cap -> Forall event_fits evs ->
  let w0 := tlv_writer_init true cap in
  let w := write_events w0 evs in
  tw_len w <= cap /\ 0 <= tw_depth w <= TLV_MAX_DEPTH /\
  (tw_rc w <> MATTER_OK -> forall more, write_events w more = w) /\
  (forall n, (tlv_writer_finish w).2 = Ret n ->
     tw_bytes w = concat (map (enc_event w0) evs) /\ n = zlen (tw_bytes w) /\ tw_depth w = 0).
Proof.
  intros Hc Hev w0 w. destruct (write_events_step w0 evs (writer_init_wf cap Hc) Hev) as (Hw & _ & Hcap & Hok).
  fold w in Hw, Hcap, Hok. pose proof Hw as [_ _ Hl Hd]. rewrite Hcap in Hl. split_and!; try done; try lia.
  - intros Hrc more. apply write_events_sticky. destruct (tw_ok w) eqn:E; [|done].
    by apply tw_ok_rc in E.
  - intros n Hf. unfold tlv_writer_finish in Hf. destruct (tw_ok w) eqn:E; [|done]. cbn [negb] in Hf.
    destruct (Z.eqb_spec (tw_depth w) 0); [|done]. simpl in Hf. injection Hf as <-.
    destruct (Hok eq_refl) as [_ Hb]. done.
Qed.

Lemma tlv_writer_honest_witness :
  tw_bytes (write_events (tlv_writer_init true 32)
              [TE_open TLV_ANON TLV_STRUCTURE; TE_uint (TLV_CTX 1) 300; TE_close])
  = [0x15; 0x25; 1; 44; 1; 0x18].
Proof.
  assert (in_u 32 32) as Hc by (vm_compute; split; congruence).
  destruct (tlv_writer_honest 32 [TE_open TLV_ANON TLV_STRUCTURE; TE_uint (TLV_CTX 1) 300; TE_close] Hc
    ltac:(by repeat constructor)) as (_ & _ & _ & H).
  destruct (H 6) as [-> _]; reflexivity.
Defined.

(** ** Copying an encoded element *)

Lemma ctx_profile k : 0 <= k < 256 -> tag_profile (TLV_CTX k) = TLV_SPECIAL_PROFILE /\ tag_number (TLV_CTX k) = k.
Proof.
  intros Hk. unfold TLV_CTX, TLV_TAG, tag_profile, tag_number.
  rewrite (wrap_id 8 k), (wrap_id 32 k) by (unfold in_u; lia).
  rewrite (wrap_id 32 TLV_SPECIAL_PROFILE) by (unfold in_u, TLV_SPECIAL_PROFILE; lia).
  rewrite lor_shiftl_add by lia. change 0xFFFFFFFF with (Z.ones 32). rewrite Z.land_ones, Z.shiftr_div_pow2 by lia.
  unfold wrap, TLV_SPECIAL_PROFILE. split; zdiv.
Qed.

Lemma enc_head_ctx w k t :
  0 <= k < 256 -> 0 <= t < 32 -> enc_head w (TLV_CTX k) t = [TC_CONTEXT + t; k].
Proof.
  intros Hk Ht. destruct (ctx_profile k Hk) as [Hp Hn].
  unfold enc_head, tag_form. rewrite Hp, Hn, Z.eqb_refl. unfold TLV_ANON_TAG_NUM.
  rewrite (proj2 (Z.eqb_neq k 0x100)), (proj2 (Z.leb_le k 0xFF)) by lia.
  unfold tag_octets. rewrite Hn. cbn -[wrap Z.lor]. f_equal.
  - assert (Z.lor TC_CONTEXT t = TC_CONTEXT + t) as -> by (apply (lor_shiftl_add 1 t 5); lia).
    apply wrap_id. unfold in_u, TC_CONTEXT. lia.
  - f_equal. apply wrap_id. unfold in_u. lia.
Qed.

(** Re-tagging an encoded element is encoding it under the new tag: for a
    value encoded under one context tag, [tlv_put_encoded] appends exactly the
    bytes of the same value under another, and [tlv_put_encoded_anon] those of
    the same value with no tag. *)
Theorem tlv_put_encoded_retags w k k' t value :
  writer_wf w -> tw_ok w = true -> 0 <= k < 256 -> 0 <= k' < 256 -> 0 <= t < 32 ->
  tw_len w + 2 + zlen value <= tw_cap w ->
  let elem := enc_head w (TLV_CTX k) t ++ value in
  tlv_put_encoded w (TLV_CTX k') elem = tw_append w (enc_head w (TLV_CTX k') t ++ value) /\
  tlv_put_encoded_anon w elem = tw_append w (enc_head w TLV_ANON t ++ value).
Proof.
  intros [[out Ho] Hc Hl Hd] Hok Hk Hk' Ht Hroom elem. pose proof (zlen_nonneg value).
  pose proof (zlen_nonneg (tw_bytes w)). unfold tw_len, in_u in *.
  unfold elem. rewrite !enc_head_ctx by done. cbn [app].
  assert (zlen (TC_CONTEXT + t :: k :: value) = 2 + zlen value) as Hz by (rewrite !zlen_cons; lia).
  assert (Z.land (TC_CONTEXT + t) 0xE0 = TC_CONTEXT /\ Z.land (TC_CONTEXT + t) 0x1F = t) as [Hc1 Hc2].
  { assert (forallb (fun t => (Z.land (TC_CONTEXT + t) 0xE0 =? TC_CONTEXT) &&
      (Z.land (TC_CONTEXT + t) 0x1F =? t)) (map Z.of_nat (seq 0 32)) = true) as Hall by reflexivity.
    rewrite forallb_forall in Hall. specialize (Hall t). rewrite andb_true_iff, !Z.eqb_eq in Hall.
    apply Hall. apply in_map_iff. exists (Z.to_nat t). rewrite in_seq. lia. }
  destruct (ctx_profile k' Hk') as [Hp Hn].
  unfold tlv_put_encoded, tlv_put_encoded_anon, tw_lacks, tw_len. rewrite Hok, Ho, Hz, Hp, Hn.
  change (byte_at (TC_CONTEXT + t :: k :: value) 0) with (TC_CONTEXT + t). rewrite Hc1, Hc2, !Z.eqb_refl.
  rewrite wrap_id by (unfold in_u; lia). cbn [negb].
  rewrite !(proj2 (Z.ltb_ge _ _)) by lia. cbn [orb]. split.
  - f_equal. cbn. f_equal. f_equal. apply wrap_id. unfold in_u. lia.
  - f_equal. unfold enc_head. change (tag_form w TLV_ANON) with (Some (TC_ANON, 0%nat)).
    unfold TC_ANON. by rewrite Z.lor_0_r, Z.lor_0_l.
Qed.

Lemma tlv_put_encoded_retags_witness :
  tlv_put_encoded (tlv_writer_init true 16) (TLV_CTX 1) (enc_head (tlv_writer_init true 16) (TLV_CTX 2) ET_UINT8 ++ [9])
  = tw_append (tlv_writer_init true 16) [0x24; 1; 9].
Proof.
  assert (writer_wf (tlv_writer_init true 16)) as Hw by (apply writer_init_wf; vm_compute; split; congruence).
  apply (tlv_put_encoded_retags (tlv_writer_init true 16) 2 1 ET_UINT8 [9] Hw); try lia; try reflexivity;
    vm_compute; try split; congruence.
Defined.
