(* ===== verification/MatterTlvRound.v ===== *)
(** * TLV: what is written is what is read

    A reader that follows the calls [next], [enter] and [exit] recovers the
    sequence of writer calls that produced its buffer. *)

From Stdlib Require Import ZArith Lia Bool.
From stdpp Require Import base list numbers.
From S2P Require Import Prelude Wire MatterStatus MatterTlv MatterTlvWriter.

Local Open Scope Z_scope.
Local Open Scope res_scope.

(** ** Reading a document back *)

(** The loaded element as the call that wrote it. *)
Definition read_leaf (r : tlv_reader) : option tlv_event :=
  let tag := tlv_tag r in
  let t := tlv_element_type r in
  if t <=? ET_INT64 then match tlv_get_i64 r with Ret v => Some (TE_int tag v) | Fail _ => None end
  else if t <=? ET_UINT64 then match tlv_get_u64 r with Ret v => Some (TE_uint tag v) | Fail _ => None end
  else if t <=? ET_BOOL_TRUE then match tlv_get_bool r with Ret b => Some (TE_bool tag b) | Fail _ => None end
  else if t <=? ET_UTF8_LEN8 then
    match tlv_get_utf8 r with Ret s => Some (TE_utf8 tag (span_bytes r s)) | Fail _ => None end
  else if t <=? ET_BYTES_LEN8 then
    match tlv_get_bytes r with Ret s => Some (TE_bytes tag (span_bytes r s)) | Fail _ => None end
  else if t =? ET_NULL then Some (TE_null tag)
  else None.

Fixpoint read_events (fuel : nat) (r : tlv_reader) : option (list tlv_event) :=
  match fuel with
  | O => None
  | S f =>
      match tlv_next r with
      | (r1, MATTER_OK) =>
          if tlv_is_container r1 then
            match tlv_enter r1 with
            | (r2, MATTER_OK) =>
                option_map (cons (TE_open (tlv_tag r1) (tlv_element_type r1))) (read_events f r2)
            | _ => None
            end
          else
            match read_leaf r1 with
            | Some e => option_map (cons e) (read_events f r1)
            | None => None
            end
      | (r1, MATTER_END) =>
          if tr_depth r1 =? 0 then Some []
          else match tlv_exit r1 with
               | (r2, MATTER_OK) => option_map (cons TE_close) (read_events f r2)
               | _ => None
               end
      | _ => None
      end
  end.

(** Values of the types of the C interface; the writer has room for a string,
    in whatever buffer, only when it fits with its length octets in a [size_t]. *)
Definition event_ok (e : tlv_event) : Prop :=
  match e with
  | TE_bool t _ | TE_null t | TE_open t _ => in_u 64 t
  | TE_int t v => in_u 64 t /\ in_i 64 v
  | TE_uint t v => in_u 64 t /\ in_u 64 v
  | TE_utf8 t s | TE_bytes t s => in_u 64 t /\ string_fits s
  | TE_close => True
  end.

Lemma event_ok_fits e : event_ok e -> event_fits e.
Proof. destruct e; cbn; try done; by intros []. Qed.

Lemma events_ok_fit evs : Forall event_ok evs -> Forall event_fits evs.
Proof. intros H. eapply list.Forall_impl; [exact H|apply event_ok_fits]. Qed.

Lemma string_fits_u32 s : string_fits s -> in_u 32 (zlen s).
Proof. unfold string_fits, in_u. pose proof (zlen_nonneg s). lia. Qed.

(** ** Tags *)

Lemma tag_number_mod tag : tag_number tag = tag mod 2 ^ 32.
Proof.
  unfold tag_number. change 0xFFFFFFFF with (Z.ones 32). rewrite Z.land_ones by lia.
  apply wrap_id. unfold in_u. apply Z.mod_pos_bound. lia.
Qed.

Lemma tag_split tag : in_u 64 tag -> TLV_TAG (tag_profile tag) (tag_number tag) = tag.
Proof.
  intros Ht. unfold TLV_TAG, tag_profile. rewrite tag_number_mod, Z.shiftr_div_pow2 by lia.
  unfold in_u in Ht. unfold wrap. rewrite lor_shiftl_add by (try apply Z.mod_pos_bound; lia). zdiv.
Qed.

Lemma profile_range tag : in_u 32 (tag_profile tag).
Proof. apply wrap_range. lia. Qed.

Lemma number_range tag : in_u 32 (tag_number tag).
Proof. apply wrap_range. lia. Qed.

(** The control byte keeps its two parts apart. *)
Lemma control_split w tag c n t :
  tag_form w tag = Some (c, n) -> 0 <= t < 32 ->
  Z.land (u8 (Z.lor c t)) 0xE0 = c /\ Z.land (u8 (Z.lor c t)) 0x1F = t /\
  tag_octets_by_control c = Z.of_nat n /\ (u8 (Z.lor c t) = ET_END_CONTAINER -> t = ET_END_CONTAINER).
Proof.
  intros Hf Ht.
  assert (In c [0; 32; 64; 96; 128; 160; 192; 224] /\ tag_octets_by_control c = Z.of_nat n) as [Hc Ho].
  { unfold tag_form in Hf. repeat case_match; simplify_eq; (split; [simpl; tauto|reflexivity]). }
  assert (forallb (fun c => forallb (fun t => (Z.land (u8 (Z.lor c t)) 0xE0 =? c) &&
    (Z.land (u8 (Z.lor c t)) 0x1F =? t) && (negb (u8 (Z.lor c t) =? ET_END_CONTAINER) || (t =? ET_END_CONTAINER)))
    (map Z.of_nat (seq 0 32))) [0; 32; 64; 96; 128; 160; 192; 224] = true) as Hall by reflexivity.
  rewrite forallb_forall in Hall. specialize (Hall c Hc). rewrite forallb_forall in Hall.
  specialize (Hall t ltac:(apply in_map_iff; exists (Z.to_nat t); rewrite in_seq; lia)).
  rewrite !andb_true_iff, !Z.eqb_eq in Hall. destruct Hall as [[H1 H2] H3]. split_and!; try done.
  intros He. rewrite He in H3. simpl in H3. by apply Z.eqb_eq in H3.
Qed.

(** ** A reader over a buffer *)

Definition over (r : tlv_reader) (w : tlv_writer) (B : list Z) : Prop :=
  tr_buf r = Some B /\ tr_len r = zlen B /\
  tr_implicit_profile r = tw_implicit_profile w /\ tr_implicit_set r = tw_implicit_set w.

Lemma over_bytes r w B : over r w B -> tr_bytes r = B.
Proof. intros (Hb & _). unfold tr_bytes. by rewrite Hb. Qed.

Lemma over_same r w w' B : same_profile w w' -> over r w B -> over r w' B.
Proof. intros [H1 H2] (Hb & Hl & Hp & Hs). unfold over. split_and!; congruence. Qed.

Lemma read_at r w B pre n v post off :
  over r w B -> B = pre ++ put_le n v ++ post -> off = zlen pre -> in_u (8 * Z.of_nat n) v ->
  read_le r off (Z.of_nat n) = v.
Proof.
  intros Ho -> -> Hv. unfold read_le. rewrite (over_bytes r w _ Ho), Nat2Z.id. by apply field_app.
Qed.

Lemma byte_at_app pre b post : byte_at (pre ++ b :: post) (zlen pre) = b.
Proof.
  unfold byte_at, zlen. rewrite Nat2Z.id, app_nth2 by lia. by rewrite Nat.sub_diag.
Qed.

Lemma fits_app r w B pre mid post :
  over r w B -> B = pre ++ mid ++ post -> fits r (zlen pre) (zlen mid) = true.
Proof.
  intros (_ & Hl & _) ->. unfold fits. rewrite Hl, !zlen_app.
  pose proof (zlen_nonneg mid). pose proof (zlen_nonneg post).
  apply andb_true_iff. rewrite !Z.leb_le. lia.
Qed.

Lemma parse_tag_head r w B pre c n tag post :
  over r w B -> in_u 64 tag -> tag_form w tag = Some (c, n) -> 
  B = pre ++ tag_octets c n tag ++ post ->
  parse_tag r c (zlen pre) (Z.of_nat n) = Ret tag.
Proof.
  intros Ho Ht Hf HB. pose proof (profile_range tag) as Hp. pose proof (number_range tag) as Hn.
  pose proof (tag_split tag Ht) as Hsplit. unfold tag_form in Hf.
  assert (forall m, in_u (8 * Z.of_nat m) (tag_number tag) -> B = pre ++ put_le m (tag_number tag) ++ post ->
    read_le r (zlen pre) (Z.of_nat m) = tag_number tag) as Hread
    by (intros m Hm HB'; by apply (read_at r w B pre m _ post)).
  destruct (Z.eqb_spec (tag_profile tag) TLV_SPECIAL_PROFILE) as [Ep|Np].
  { destruct (Z.eqb_spec (tag_number tag) TLV_ANON_TAG_NUM) as [En|Nn].
    - injection Hf as <- <-. unfold parse_tag. simpl. by rewrite <- Hsplit, Ep, En.
    - destruct (Z.leb_spec (tag_number tag) 0xFF); [|done]. injection Hf as <- <-.
      unfold parse_tag. cbn [Z.eqb TC_CONTEXT TC_ANON]. rewrite (over_bytes r w B Ho).
      unfold in_u in Hn. change (tag_octets TC_CONTEXT 1 tag) with [u8 (tag_number tag)] in HB.
      rewrite HB. simpl. rewrite byte_at_app, (wrap_id 8) by (unfold in_u; lia). by rewrite <- Ep, Hsplit. }
  destruct (Z.eqb_spec (tag_profile tag) TLV_COMMON_PROFILE) as [Ec|Nc].
  { destruct (Z.leb_spec (tag_number tag) 0xFFFF); injection Hf as <- <-; unfold parse_tag; simpl;
      (rewrite Hread; [by rewrite <- Ec, Hsplit|unfold in_u in *; lia|done]). }
  destruct (tw_implicit_set w && (tag_profile tag =? tw_implicit_profile w)) eqn:Hi.
  { apply andb_true_iff in Hi as [His Hip]. apply Z.eqb_eq in Hip. pose proof Ho as (_ & _ & Hrp & Hrs).
    destruct (Z.leb_spec (tag_number tag) 0xFFFF); injection Hf as <- <-; unfold parse_tag; simpl; rewrite Hrs, His; simpl;
      (rewrite Hread; [by rewrite Hrp, <- Hip, Hsplit|unfold in_u in *; lia|done]). }
  set (vendor := Z.land (Z.shiftr (tag_profile tag) 16) 0xFFFF) in *.
  set (pnum := Z.land (tag_profile tag) 0xFFFF) in *.
  assert (in_u 16 vendor /\ in_u 16 pnum /\ vendor * 2 ^ 16 + pnum = tag_profile tag) as (Hv & Hq & Hvp).
  { unfold vendor, pnum, in_u in *. change 0xFFFF with (Z.ones 16).
    rewrite !Z.land_ones, Z.shiftr_div_pow2 by lia. zdiv. }
  assert (exists m, n = (4 + m)%nat /\ c = (if (m =? 2)%nat then TC_FULLQUAL_6 else TC_FULLQUAL_8) /\
    in_u (8 * Z.of_nat m) (tag_number tag) /\
    B = pre ++ put_le 2 vendor ++ put_le 2 pnum ++ put_le m (tag_number tag) ++ post)
    as (m & -> & -> & Hm & HB').
  { destruct (Z.leb_spec (tag_number tag) 0xFFFF); injection Hf as <- <-.
    - exists 2%nat. do 2 (split; [done|]). split; [unfold in_u in *; lia|done].
    - exists 4%nat. do 2 (split; [done|]). split; [exact Hn|done]. }
  assert (read_le r (zlen pre) 2 = vendor) as Hrv
    by (by apply (read_at r w B pre 2 vendor (put_le 2 pnum ++ put_le m (tag_number tag) ++ post))).
  assert (read_le r (zlen pre + 2) 2 = pnum) as Hrp.
  { apply (read_at r w B (pre ++ put_le 2 vendor) 2 pnum (put_le m (tag_number tag) ++ post)); try done.
    - by rewrite <- app_assoc.
    - by rewrite zlen_app. }
  assert (read_le r (zlen pre + 4) (Z.of_nat m) = tag_number tag) as Hrn.
  { apply (read_at r w B (pre ++ put_le 2 vendor ++ put_le 2 pnum) m (tag_number tag) post); try done.
    - by rewrite <- !app_assoc.
    - rewrite !zlen_app. done. }
  unfold parse_tag. rewrite Hrv, Hrp. replace (Z.of_nat (4 + m) - 4) with (Z.of_nat m) by lia. rewrite Hrn.
  rewrite (wrap_id 32 vendor), (wrap_id 32 pnum) by (clear - Hv Hq; unfold in_u in *; lia).
  rewrite (wrap_id 32 (Z.shiftl vendor 16)) by (rewrite Z.shiftl_mul_pow2 by lia; clear - Hv; unfold in_u in *; lia).
  rewrite lor_shiftl_add, Hvp, Hsplit by (unfold in_u in *; lia).
  by destruct (m =? 2)%nat.
Qed.

(** An encoded head is parsed to its tag and type; the value starts behind. *)
Lemma parse_head r w B pre tag t post :
  over r w B -> in_u 64 tag -> tag_form w tag <> None -> 0 <= t < 32 ->
  B = pre ++ enc_head w tag t ++ post ->
  parse_at r (zlen pre) = parse_value r t tag (zlen (pre ++ enc_head w tag t)) /\
  (t <> ET_END_CONTAINER -> byte_at B (zlen pre) <> ET_END_CONTAINER).
Proof.
  intros Ho Ht Hf Htt HB. unfold enc_head in *.
  destruct (tag_form w tag) as [[c n]|] eqn:Hform; [clear Hf|done].
  destruct (control_split w tag c n t Hform Htt) as (H1 & H2 & H3 & H4).
  pose proof (length_tag_octets w tag c n Hform) as Hlen.
  assert (byte_at B (zlen pre) = u8 (Z.lor c t)) as Hbyte.
  { rewrite HB. simpl. apply byte_at_app. }
  split; [|rewrite Hbyte; intros Hne He; by apply Hne, H4].
  unfold parse_at. rewrite (over_bytes r w B Ho), Hbyte, H1, H2, H3.
  pose proof (fits_app r w B pre [u8 (Z.lor c t)] (tag_octets c n tag ++ post) Ho HB) as Hfit.
  change (zlen [u8 (Z.lor c t)]) with 1 in Hfit. rewrite Hfit.
  cbn [negb guard_res res_bind].
  assert (zlen pre + 1 = zlen (pre ++ [u8 (Z.lor c t)])) as -> by (by rewrite zlen_app).
  replace (Z.of_nat n) with (zlen (tag_octets c n tag)) at 1 by (unfold zlen; by rewrite Hlen).
  rewrite (fits_app r w B (pre ++ [u8 (Z.lor c t)]) (tag_octets c n tag) post)
    by (done || (rewrite HB; by rewrite <- app_assoc)).
  cbn [negb guard_res res_bind].
  rewrite (parse_tag_head r w B (pre ++ [u8 (Z.lor c t)]) c n tag post)
    by (done || (rewrite HB; by rewrite <- app_assoc)).
  cbn [res_bind]. f_equal. rewrite !zlen_app, !zlen_cons.
  assert (zlen (tag_octets c n tag) = Z.of_nat n) as -> by (unfold zlen; by rewrite Hlen).
  change (zlen (@nil Z)) with 0. lia.
Qed.

(** ** Values *)

Definition mk_elem (t tag off len stop : Z) : tlv_elem :=
  {| el_type := t; el_tag := tag; el_val_off := off; el_val_len := len; el_body_off := 0;
     el_end := stop; el_is_container := false |}.

Lemma parse_int r w B pre t n v post tag :
  over r w B -> B = pre ++ put_le n v ++ post -> 0 <= t <= 7 ->
  Z.shiftl 1 (Z.land t 0x03) = Z.of_nat n ->
  parse_value r t tag (zlen pre)
  = Ret (mk_elem t tag (zlen pre) (Z.of_nat n) (zlen (pre ++ put_le n v))).
Proof.
  intros Ho HB Ht Hn. unfold parse_value. rewrite (proj2 (Z.leb_le t ET_UINT64)) by (unfold ET_UINT64; lia).
  rewrite Hn. pose proof (fits_app r w B pre (put_le n v) post Ho HB) as Hf.
  assert (zlen (put_le n v) = Z.of_nat n) as Hz by (unfold zlen; by rewrite length_put_le).
  rewrite Hz in Hf. rewrite Hf. cbn [negb guard_res res_bind]. rewrite zlen_app, Hz. done.
Qed.

Lemma parse_plain r t tag off :
  t = ET_BOOL_FALSE \/ t = ET_BOOL_TRUE \/ t = ET_NULL ->
  parse_value r t tag off = Ret (mk_elem t tag off 0 off).
Proof. intros [->|[->| ->]]; reflexivity. Qed.

Lemma parse_container r t tag off :
  t = TLV_STRUCTURE \/ t = TLV_ARRAY \/ t = TLV_LIST ->
  parse_value r t tag off =
  Ret {| el_type := t; el_tag := tag; el_val_off := off; el_val_len := 0; el_body_off := off;
         el_end := off; el_is_container := true |}.
Proof. intros [->|[->| ->]]; reflexivity. Qed.

Lemma parse_string r w B pre t n s post tag :
  over r w B -> B = pre ++ put_le n (zlen s) ++ s ++ post -> 0x0C <= t <= 0x13 ->
  Z.shiftl 1 (Z.land t 0x03) = Z.of_nat n -> in_u (8 * Z.of_nat n) (zlen s) ->
  parse_value r t tag (zlen pre)
  = Ret (mk_elem t tag (zlen pre + Z.of_nat n) (zlen s) (zlen (pre ++ put_le n (zlen s) ++ s))).
Proof.
  intros Ho HB Ht Hn Hs. unfold parse_value, ET_UINT64, ET_BOOL_FALSE, ET_BOOL_TRUE, ET_NULL, ET_UTF8_LEN1, ET_BYTES_LEN8.
  rewrite (proj2 (Z.leb_gt t 7)), (proj2 (Z.eqb_neq t 8)), (proj2 (Z.eqb_neq t 9)),
    (proj2 (Z.eqb_neq t 0x14)), (proj2 (Z.leb_le _ t)), (proj2 (Z.leb_le t _)) by lia.
  cbn [orb andb]. rewrite Hn. pose proof (fits_app r w B pre (put_le n (zlen s)) (s ++ post) Ho HB) as Hf.
  assert (zlen (put_le n (zlen s)) = Z.of_nat n) as Hz by (unfold zlen; by rewrite length_put_le).
  rewrite Hz in Hf. rewrite Hf. cbn [negb guard_res res_bind].
  rewrite (read_at r w B pre n (zlen s) (s ++ post)) by done.
  destruct Ho as (_ & Hl & _). rewrite Hl, HB, !zlen_app, Hz. pose proof (zlen_nonneg post).
  rewrite (proj2 (Z.ltb_ge _ _)) by lia. cbn [guard_res res_bind]. unfold mk_elem. do 2 f_equal. lia.
Qed.

(** Sign extension recovers what the width held. *)
Lemma sign_extend_back n v :
  (n = 1 \/ n = 2 \/ n = 4 \/ n = 8)%nat -> in_i (8 * Z.of_nat n) v ->
  sign_extend (v mod 2 ^ (8 * Z.of_nat n)) (8 * Z.of_nat n) = v.
Proof.
  intros Hn Hv.
  assert (forall k hi, 0 < k < 64 -> in_i k v -> u64 (Z.lnot (Z.shiftl 1 k - 1)) = Z.shiftl hi k ->
    Z.shiftl hi k = 2 ^ 64 - 2 ^ k -> sign_extend (v mod 2 ^ k) k = v) as Hgen.
  { intros k hi Hk Hr Hm Hh. unfold sign_extend. rewrite (proj2 (Z.ltb_lt k 64)) by lia. cbn [andb].
    unfold in_i in Hr. assert (2 ^ k = 2 * 2 ^ (k - 1)) as Hpow.
    { rewrite <- Z.pow_succ_r by lia. f_equal. lia. }
    assert (0 < 2 ^ (k - 1) <= 2 ^ 62) as Hp
      by (split; [apply Z.pow_pos_nonneg; lia|apply Z.pow_le_mono_r; lia]).
    assert (in_i 64 v) as Hv64 by (unfold in_i; change (2 ^ (64 - 1)) with (2 * 2 ^ 62); lia).
    rewrite land_bit by lia. rewrite negb_involutive.
    destruct (Z.le_gt_cases 0 v) as [H0|H0].
    - rewrite Z.mod_small by lia.
      assert (Z.testbit v (k - 1) = false) as ->; [|by apply swrap_id].
      apply Z.testbit_false; [lia|]. rewrite Z.div_small by lia. done.
    - assert (v mod 2 ^ k = v + 2 ^ k) as ->.
      { symmetry. apply Z.mod_unique with (q := -1); lia. }
      assert (Z.testbit (v + 2 ^ k) (k - 1) = true) as ->.
      { apply Z.testbit_true; [lia|]. assert ((v + 2 ^ k) / 2 ^ (k - 1) = 1) as ->; [|done].
        symmetry. apply Z.div_unique with (r := v + 2 ^ k - 2 ^ (k - 1)); lia. }
      rewrite Hm, Z.lor_comm, lor_shiftl_add by lia.
      rewrite <- Z.shiftl_mul_pow2, Hh by lia.
      replace (2 ^ 64 - 2 ^ k + (v + 2 ^ k)) with (v + 2 ^ 64) by lia.
      unfold i64. rewrite <- (swrap_id 64 v) at 2 by done. unfold swrap. f_equal.
      replace (v + 2 ^ 64 + 2 ^ (64 - 1)) with (v + 2 ^ (64 - 1) + 1 * 2 ^ 64) by lia.
      by rewrite Z.mod_add by lia. }
  destruct Hn as [->|[->|[->| ->]]].
  - by apply (Hgen 8 (2 ^ 56 - 1)).
  - by apply (Hgen 16 (2 ^ 48 - 1)).
  - by apply (Hgen 32 (2 ^ 32 - 1)).
  - unfold sign_extend. simpl. change (8 * Z.of_nat 8) with 64 in Hv. apply (swrap_wrap 64); [lia|done].
Qed.

(** ** The reader meets an encoding *)

(** The reader after loading [el]. *)
Definition loaded (r : tlv_reader) (el : tlv_elem) : tlv_reader :=
  r <| tr_have := false |> <| tr_elem := el |> <| tr_next_off := el_end el |> <| tr_have := true |>.

Lemma over_loaded r w B el : over r w B -> over (loaded r el) w B.
Proof. done. Qed.

Lemma parse_value_loaded r el t tag off : parse_value (loaded r el) t tag off = parse_value r t tag off.
Proof. done. Qed.

Lemma next_at r w B pre tag t post el :
  over r w B -> tlv_resume r = Ret (zlen pre) -> in_u 64 tag -> tag_form w tag <> None ->
  0 <= t < ET_END_CONTAINER -> B = pre ++ enc_head w tag t ++ post ->
  parse_value r t tag (zlen (pre ++ enc_head w tag t)) = Ret el ->
  tlv_next r = (loaded r el, MATTER_OK).
Proof.
  intros Ho Hres Ht Hf Hr HB Hp. unfold ET_END_CONTAINER in Hr.
  destruct (parse_head (r <| tr_have := false |>) w B pre tag t post Ho Ht Hf ltac:(lia) HB) as [Hpa Hne].
  unfold tlv_next. destruct Ho as (Hb & Hl & _). rewrite Hb, Hres. cbv zeta.
  change (tr_len r <| tr_have := false |>) with (tr_len r). rewrite Hl.
  assert (zlen pre < zlen B) as Hlt.
  { rewrite HB, !zlen_app. pose proof (zlen_nonneg post). unfold enc_head.
    destruct (tag_form w tag) as [[c n]|]; [|done]. rewrite zlen_cons.
    pose proof (zlen_nonneg (tag_octets c n tag)). lia. }
  rewrite (proj2 (Z.leb_gt _ _)) by lia.
  rewrite (proj2 (Z.eqb_neq _ _)) by (apply Hne; unfold ET_END_CONTAINER; lia).
  match goal with |- context [parse_at ?x ?y] => replace (parse_at x y) with (Ret el) end; [done|].
  symmetry. etrans; [exact Hpa|exact Hp].
Qed.

Lemma int_form_spec v : in_i 64 v ->
  exists t n, int_form v = (t, n) /\ 0 <= t <= 3 /\ Z.shiftl 1 (Z.land t 0x03) = Z.of_nat n /\
    (n = 1 \/ n = 2 \/ n = 4 \/ n = 8)%nat /\ in_i (8 * Z.of_nat n) v.
Proof.
  intros Hv. unfold int_form, INT32_MIN, INT32_MAX.
  destruct ((-128 <=? v) && (v <=? 127)) eqn:H1.
  { exists 0, 1%nat. split_and!; try done; try lia.
    change (in_i (8 * Z.of_nat 1) v) with (-128 <= v < 128). lia. }
  destruct ((-32768 <=? v) && (v <=? 32767)) eqn:H2.
  { exists 1, 2%nat. split_and!; try done; try lia.
    change (in_i (8 * Z.of_nat 2) v) with (-32768 <= v < 32768). lia. }
  destruct ((- 2 ^ 31 <=? v) && (v <=? 2 ^ 31 - 1)) eqn:H3.
  { exists 2, 4%nat. split_and!; try done; try lia.
    change (in_i (8 * Z.of_nat 4) v) with (- 2 ^ 31 <= v < 2 ^ 31). lia. }
  exists 3, 8%nat. split_and!; try done; try lia.
Qed.

Lemma uint_form_spec v : in_u 64 v ->
  exists t n, uint_form v = (t, n) /\ 4 <= t <= 7 /\ Z.shiftl 1 (Z.land t 0x03) = Z.of_nat n /\
    in_u (8 * Z.of_nat n) v.
Proof.
  intros Hv. unfold uint_form, UINT32_MAX, in_u in *.
  destruct (Z.leb_spec v 0xFF); [|destruct (Z.leb_spec v 0xFFFF); [|destruct (Z.leb_spec v (2 ^ 32 - 1))]].
  - exists 4, 1%nat. split_and!; try done; simpl; lia.
  - exists 5, 2%nat. split_and!; try done; simpl; lia.
  - exists 6, 4%nat. split_and!; try done; simpl; lia.
  - exists 7, 8%nat. split_and!; try done; simpl; lia.
Qed.

Lemma string_form_spec t len :
  t = ET_UTF8_LEN1 \/ t = ET_BYTES_LEN1 -> in_u 32 len ->
  exists k n, string_form len = (k, n) /\ t <= u8 (t + k) <= t + 2 /\
    Z.shiftl 1 (Z.land (u8 (t + k)) 0x03) = Z.of_nat n /\ in_u (8 * Z.of_nat n) len.
Proof.
  intros Ht Hl. unfold string_form, in_u in *.
  destruct (Z.leb_spec len 0xFF); [|destruct (Z.leb_spec len 0xFFFF)].
  - exists 0, 1%nat. destruct Ht as [-> | ->]; split_and!; try done; simpl; lia.
  - exists 1, 2%nat. destruct Ht as [-> | ->]; split_and!; try done; simpl; lia.
  - exists 2, 4%nat. destruct Ht as [-> | ->]; split_and!; try done; simpl; lia.
Qed.

(** What the accessors say of a loaded element, by its type. *)
Lemma read_leaf_int r t tag off n stop :
  0 <= t <= 3 ->
  read_leaf (loaded r (mk_elem t tag off n stop)) = Some (TE_int tag (sign_extend (read_le r off n) (8 * n))).
Proof.
  intros Ht. unfold read_leaf, tlv_tag, tlv_element_type, tlv_get_i64, ET_INT64. simpl.
  rewrite (proj2 (Z.leb_le t 3)), (proj2 (Z.ltb_ge 3 t)) by lia. done.
Qed.

Lemma read_leaf_uint r t tag off n stop :
  4 <= t <= 7 -> read_leaf (loaded r (mk_elem t tag off n stop)) = Some (TE_uint tag (read_le r off n)).
Proof.
  intros Ht. unfold read_leaf, tlv_tag, tlv_element_type, tlv_get_u64, ET_INT64, ET_UINT64, ET_UINT8. simpl.
  rewrite (proj2 (Z.leb_gt t 3)), (proj2 (Z.leb_le t 7)), (proj2 (Z.ltb_ge t 4)), (proj2 (Z.ltb_ge 7 t)) by lia.
  done.
Qed.

Lemma read_leaf_utf8 r t tag off n stop :
  0x0C <= t <= 0x0F ->
  read_leaf (loaded r (mk_elem t tag off n stop)) = Some (TE_utf8 tag (span_bytes r (off, n))).
Proof.
  intros Ht. unfold read_leaf, tlv_tag, tlv_element_type, tlv_get_utf8, get_span,
    ET_INT64, ET_UINT64, ET_BOOL_TRUE, ET_UTF8_LEN8, ET_UTF8_LEN1. simpl.
  rewrite (proj2 (Z.leb_gt t 3)), (proj2 (Z.leb_gt t 7)), (proj2 (Z.leb_gt t 9)),
    (proj2 (Z.leb_le t 15)), (proj2 (Z.ltb_ge t 12)), (proj2 (Z.ltb_ge 15 t)) by lia.
  done.
Qed.

Lemma read_leaf_bytes r t tag off n stop :
  0x10 <= t <= 0x13 ->
  read_leaf (loaded r (mk_elem t tag off n stop)) = Some (TE_bytes tag (span_bytes r (off, n))).
Proof.
  intros Ht. unfold read_leaf, tlv_tag, tlv_element_type, tlv_get_bytes, get_span,
    ET_INT64, ET_UINT64, ET_BOOL_TRUE, ET_UTF8_LEN8, ET_BYTES_LEN8, ET_BYTES_LEN1. simpl.
  rewrite (proj2 (Z.leb_gt t 3)), (proj2 (Z.leb_gt t 7)), (proj2 (Z.leb_gt t 9)),
    (proj2 (Z.leb_gt t 15)), (proj2 (Z.leb_le t 19)), (proj2 (Z.ltb_ge t 16)), (proj2 (Z.ltb_ge 19 t)) by lia.
  done.
Qed.

(** What loading a leaf gives. *)
Definition leaf_loaded (r : tlv_reader) (pre : list Z) (e : tlv_event) (enc : list Z) : Prop :=
  exists el, tlv_next r = (loaded r el, MATTER_OK) /\ el_is_container el = false /\
    el_end el = zlen (pre ++ enc) /\ read_leaf (loaded r el) = Some e.

Section Leaves.
Context (r : tlv_reader) (w : tlv_writer) (B pre post : list Z) (tag : Z).
Hypothesis (Ho : over r w B) (Hres : tlv_resume r = Ret (zlen pre)) (Ht : in_u 64 tag)
  (Hf : tag_form w tag <> None).

(** A value of [n] octets behind a head. *)
Lemma load_int t n raw :
  0 <= t <= 7 -> Z.shiftl 1 (Z.land t 0x03) = Z.of_nat n ->
  B = pre ++ (enc_head w tag t ++ put_le n raw) ++ post ->
  let off := zlen (pre ++ enc_head w tag t) in
  let el := mk_elem t tag off (Z.of_nat n) (zlen (pre ++ enc_head w tag t ++ put_le n raw)) in
  tlv_next r = (loaded r el, MATTER_OK) /\
  read_le r off (Z.of_nat n) = raw mod 2 ^ (8 * Z.of_nat n).
Proof.
  intros Htr Hw HB off el.
  assert (B = (pre ++ enc_head w tag t) ++ put_le n raw ++ post) as HB2
    by (rewrite HB; by rewrite <- !app_assoc).
  pose proof (parse_int r w B _ t n raw post tag Ho HB2 Htr Hw) as Hp. rewrite <- app_assoc in Hp. split.
  - apply (next_at r w B pre tag t (put_le n raw ++ post)); try done.
    + unfold ET_END_CONTAINER. lia.
    + rewrite HB. by rewrite <- !app_assoc.
  - unfold read_le. rewrite (over_bytes _ w B) by done. rewrite HB2, Nat2Z.id. unfold field, off, zlen.
    by rewrite Nat2Z.id, drop_app_length, take_put_le, get_put_le.
Qed.

Lemma next_int v :
  in_i 64 v -> B = pre ++ enc_event w (TE_int tag v) ++ post ->
  leaf_loaded r pre (TE_int tag v) (enc_event w (TE_int tag v)).
Proof.
  intros Hv HB. cbn [enc_event] in *.
  destruct (int_form_spec v Hv) as (t & n & E & Htr & Hw & Hn & Hvn). rewrite E in *.
  destruct (load_int t n (u64 v) ltac:(lia) Hw HB) as [Hnext Hread].
  eexists. split; [exact Hnext|]. split; [done|]. split; [done|].
  rewrite read_leaf_int, Hread by lia. do 2 f_equal.
  rewrite <- (sign_extend_back n v Hn Hvn) at 2. f_equal. unfold wrap.
  destruct Hn as [->|[->|[->| ->]]]; change (2 ^ 64) with 18446744073709551616; simpl Z.pow; zdiv.
Qed.

Lemma next_uint v :
  in_u 64 v -> B = pre ++ enc_event w (TE_uint tag v) ++ post ->
  leaf_loaded r pre (TE_uint tag v) (enc_event w (TE_uint tag v)).
Proof.
  intros Hv HB. cbn [enc_event] in *.
  destruct (uint_form_spec v Hv) as (t & n & E & Htr & Hw & Hvn). rewrite E in *.
  destruct (load_int t n v ltac:(lia) Hw HB) as [Hnext Hread].
  eexists. split; [exact Hnext|]. split; [done|]. split; [done|].
  rewrite read_leaf_uint, Hread by lia. do 2 f_equal. by apply Z.mod_small.
Qed.

Lemma next_plain t e :
  t = ET_BOOL_FALSE \/ t = ET_BOOL_TRUE \/ t = ET_NULL ->
  (forall r' off, read_leaf (loaded r' (mk_elem t tag off 0 off)) = Some e) ->
  B = pre ++ enc_head w tag t ++ post -> leaf_loaded r pre e (enc_head w tag t).
Proof.
  intros Htt He HB. exists (mk_elem t tag (zlen (pre ++ enc_head w tag t)) 0 (zlen (pre ++ enc_head w tag t))).
  split; [|done]. apply (next_at r w B pre tag t post); try done.
  - destruct Htt as [->|[->| ->]]; done.
  - by apply parse_plain.
Qed.

(** A string behind a head: where its payload lies. *)
Lemma load_string t1 s :
  t1 = ET_UTF8_LEN1 \/ t1 = ET_BYTES_LEN1 -> in_u 32 (zlen s) ->
  B = pre ++ enc_string w tag t1 s ++ post ->
  exists t off stop, t1 <= t <= t1 + 2 /\ stop = zlen (pre ++ enc_string w tag t1 s) /\
    tlv_next r = (loaded r (mk_elem t tag off (zlen s) stop), MATTER_OK) /\
    span_bytes r (off, zlen s) = s.
Proof.
  intros Ht1 Hs HB. unfold enc_string in *.
  destruct (string_form_spec t1 (zlen s) Ht1 Hs) as (k & n & E & Htr & Hw & Hn). rewrite E in *.
  set (t := u8 (t1 + k)) in *. clearbody t.
  assert (0x0C <= t <= 0x13) by (destruct Ht1 as [-> | ->]; unfold ET_UTF8_LEN1, ET_BYTES_LEN1 in *; lia).
  assert (B = (pre ++ enc_head w tag t) ++ put_le n (zlen s) ++ s ++ post) as HB2
    by (rewrite HB; by rewrite <- !app_assoc).
  pose proof (parse_string r w B _ t n s post tag Ho HB2 ltac:(lia) Hw Hn) as Hp.
  exists t, (zlen (pre ++ enc_head w tag t) + Z.of_nat n), (zlen ((pre ++ enc_head w tag t) ++ put_le n (zlen s) ++ s)).
  split; [done|]. split; [by rewrite <- !app_assoc|]. split.
  - apply (next_at r w B pre tag t (put_le n (zlen s) ++ s ++ post)); try done.
    + unfold ET_END_CONTAINER. lia.
    + rewrite HB. by rewrite <- !app_assoc.
  - unfold span_bytes. cbn [fst snd]. rewrite (over_bytes r w B Ho), HB2.
    rewrite app_assoc. rewrite drop_app_length'.
    + unfold zlen. by rewrite Nat2Z.id, take_app_length.
    + rewrite length_app, length_put_le. unfold zlen. lia.
Qed.

Lemma next_utf8 s :
  in_u 32 (zlen s) -> B = pre ++ enc_event w (TE_utf8 tag s) ++ post ->
  leaf_loaded r pre (TE_utf8 tag s) (enc_event w (TE_utf8 tag s)).
Proof.
  intros Hs HB. destruct (load_string ET_UTF8_LEN1 s (or_introl eq_refl) Hs HB)
    as (t & off & stop & Htr & -> & Hn & Hsp). unfold ET_UTF8_LEN1 in Htr.
  eexists. split; [exact Hn|]. split; [done|]. split; [done|].
  by rewrite read_leaf_utf8, Hsp by lia.
Qed.

Lemma next_bytes s :
  in_u 32 (zlen s) -> B = pre ++ enc_event w (TE_bytes tag s) ++ post ->
  leaf_loaded r pre (TE_bytes tag s) (enc_event w (TE_bytes tag s)).
Proof.
  intros Hs HB. destruct (load_string ET_BYTES_LEN1 s (or_intror eq_refl) Hs HB)
    as (t & off & stop & Htr & -> & Hn & Hsp). unfold ET_BYTES_LEN1 in Htr.
  eexists. split; [exact Hn|]. split; [done|]. split; [done|].
  by rewrite read_leaf_bytes, Hsp by lia.
Qed.
End Leaves.

(** ** Whole documents *)

Definition container_type (t : Z) : Prop := t = TLV_STRUCTURE \/ t = TLV_ARRAY \/ t = TLV_LIST.

(** A tag that cannot be written fails the call. *)
Lemma put_tag_none w t ty :
  tw_ok w = true -> tag_form w t = None -> put_tag w t ty = (w <| tw_rc := MATTER_E_INVAL |>, false).
Proof. intros Hok Hn. unfold put_tag. by rewrite Hn, tw_fail_ok. Qed.

Lemma put_sized_none w t ty n v :
  tw_ok w = true -> tag_form w t = None -> put_sized w t ty n v = w <| tw_rc := MATTER_E_INVAL |>.
Proof. intros Hok Hn. unfold put_sized. by rewrite put_tag_none. Qed.

Lemma write_event_tag w e t :
  writer_wf w -> tw_ok w = true -> tw_ok (write_event w e) = true -> event_tag e = Some t ->
  tag_form w t <> None.
Proof.
  intros Hw Ho Hok Ht Hnone. destruct e; simpl in Ht; simplify_eq; revert Hok; cbn [write_event];
    unfold tlv_put_bool, tlv_put_null, tlv_put_i64, tlv_put_u64, tlv_put_utf8, tlv_put_bytes, put_string, put_value,
      tlv_start_container; rewrite Ho; cbn [negb]; rewrite ?(put_tag_none w t _ Ho Hnone); try done.
  1-4: try destruct (int_form v); try destruct (uint_form v); try destruct (string_form _);
       by rewrite (put_sized_none w t _ _ _ Ho Hnone).
  destruct (_ && _); [by rewrite tw_fail_ok|]. destruct (_ <=? _); [by rewrite tw_fail_ok|]. done.
Qed.

(** What a successful call tells of its arguments. *)
Lemma write_event_needs w e :
  writer_wf w -> event_fits e -> tw_ok (write_event w e) = true ->
  (forall t, event_tag e = Some t -> tag_form w t <> None) /\
  (match e with TE_open _ ty => container_type ty | _ => True end) /\
  0 <= tw_depth w + event_delta e <= TLV_MAX_DEPTH.
Proof.
  intros Hw He Hok. destruct (write_event_step w e Hw He) as (_ & _ & _ & Hs). destruct (Hs Hok) as (Ho & _ & _).
  split; [|split].
  - intros t. by apply write_event_tag.
  - destruct e; try done. revert Hok. cbn [write_event]. unfold tlv_start_container. rewrite Ho. cbn [negb].
    destruct (Z.eqb_spec type TLV_STRUCTURE); [intros _; by left|].
    destruct (Z.eqb_spec type TLV_ARRAY); [intros _; right; by left|].
    destruct (Z.eqb_spec type TLV_LIST); [intros _; right; by right|].
    simpl. rewrite tw_fail_ok by done. done.
  - destruct (write_event_spec w e Hw He Ho) as [_ Hd]. by apply Hd.
Qed.

(** The reader stands where the writer [w] stood. *)
Definition at_writer (r : tlv_reader) (w : tlv_writer) (B : list Z) : Prop :=
  over r w B /\ tlv_resume r = Ret (zlen (tw_bytes w)) /\ tr_depth r = tw_depth w.

Lemma resume_loaded r el : el_is_container el = false -> tlv_resume (loaded r el) = Ret (el_end el).
Proof. intros Hc. unfold tlv_resume. simpl. by rewrite Hc. Qed.

(** A leaf call is read back and the reader moves on. *)
Lemma read_leaf_step r w B e post :
  at_writer r w B -> event_ok e -> event_delta e = 0 ->
  (forall t, event_tag e = Some t -> tag_form w t <> None) ->
  B = tw_bytes w ++ enc_event w e ++ post -> leaf_loaded r (tw_bytes w) e (enc_event w e).
Proof.
  intros (Ho & Hres & _) Hok Hd Htag HB. destruct e; simpl in Hok; try done;
    specialize (Htag tag eq_refl).
  - apply (next_plain r w B (tw_bytes w) post tag Ho Hres Hok Htag (if b then ET_BOOL_TRUE else ET_BOOL_FALSE)); try done.
    + destruct b; auto.
    + by destruct b.
  - apply (next_plain r w B (tw_bytes w) post tag Ho Hres Hok Htag ET_NULL); try done. auto.
  - destruct Hok. by apply (next_int r w B (tw_bytes w) post tag).
  - destruct Hok. by apply (next_uint r w B (tw_bytes w) post tag).
  - destruct Hok as [? ?%string_fits_u32]. by apply (next_utf8 r w B (tw_bytes w) post tag).
  - destruct Hok as [? ?%string_fits_u32]. by apply (next_bytes r w B (tw_bytes w) post tag).
Qed.

(** The end marker: [next] reports the end of the level, [exit] steps over. *)
Lemma close_step r w B post :
  at_writer r w B -> 1 <= tw_depth w -> B = tw_bytes w ++ [ET_END_CONTAINER] ++ post ->
  exists r1 r2, tlv_next r = (r1, MATTER_END) /\ tr_depth r1 = tw_depth w /\
    tlv_exit r1 = (r2, MATTER_OK) /\ over r2 w B /\
    tlv_resume r2 = Ret (zlen (tw_bytes w ++ [ET_END_CONTAINER])) /\ tr_depth r2 = tw_depth w - 1.
Proof.
  intros (Ho & Hres & Hd) Hd1 HB. pose proof Ho as (Hb & Hl & _).
  set (off := zlen (tw_bytes w)) in *.
  assert (byte_at B off = ET_END_CONTAINER) as Hbyte by (rewrite HB; apply byte_at_app).
  assert (off + 1 <= zlen B) as Hlen.
  { rewrite HB, !zlen_app. pose proof (zlen_nonneg post). fold off. change (zlen [ET_END_CONTAINER]) with 1. lia. }
  pose proof (zlen_nonneg (tw_bytes w)) as H0. fold off in H0.
  set (r1 := r <| tr_have := false |> <| tr_next_off := off |>).
  assert (tlv_next r = (r1, MATTER_END)) as Hn.
  { unfold tlv_next. rewrite Hb, Hres. cbv zeta.
    change (tr_len r <| tr_have := false |>) with (tr_len r).
    change (tr_depth r <| tr_have := false |>) with (tr_depth r). rewrite Hl, Hd.
    rewrite (proj2 (Z.leb_gt _ _)) by lia. rewrite Hbyte, Z.eqb_refl.
    by rewrite (proj2 (Z.eqb_neq _ 0)) by lia. }
  assert (scan_past_level_end r1 off = Ret (off + 1)) as Hs.
  { unfold scan_past_level_end. cbn [scan_loop].
    assert (fits r1 off 1 = true) as ->.
    { unfold fits. change (tr_len r1) with (tr_len r). rewrite Hl. apply andb_true_iff.
      rewrite !Z.leb_le. lia. }
    assert (tr_bytes r1 = B) as -> by (apply (over_bytes r1 w B); done).
    by rewrite Hbyte. }
  eexists r1, _. split; [exact Hn|]. split; [done|]. split.
  { unfold tlv_exit. change (tr_depth r1) with (tr_depth r). rewrite Hd, (proj2 (Z.eqb_neq _ 0)) by lia.
    assert (tlv_resume r1 = Ret off) as -> by done. rewrite Hs. reflexivity. }
  split; [done|]. split.
  - unfold tlv_resume. simpl. rewrite zlen_app. done.
  - done.
Qed.

(** A container's start: loaded, then entered. *)
Lemma open_step r w B tag t post :
  at_writer r w B -> in_u 64 tag -> tag_form w tag <> None -> container_type t ->
  tw_depth w + 1 <= TLV_MAX_DEPTH -> B = tw_bytes w ++ enc_head w tag t ++ post ->
  exists r1 r2, tlv_next r = (r1, MATTER_OK) /\ tlv_is_container r1 = true /\
    tlv_tag r1 = tag /\ tlv_element_type r1 = t /\ tlv_enter r1 = (r2, MATTER_OK) /\
    over r2 w B /\ tlv_resume r2 = Ret (zlen (tw_bytes w ++ enc_head w tag t)) /\
    tr_depth r2 = tw_depth w + 1.
Proof.
  intros (Ho & Hres & Hd) Ht Hf Hc Hdd HB.
  pose proof (parse_container r t tag (zlen (tw_bytes w ++ enc_head w tag t)) Hc) as Hp.
  pose proof (next_at r w B (tw_bytes w) tag t post _ Ho Hres Ht Hf
    ltac:(destruct Hc as [->|[->| ->]]; done) HB Hp) as Hn.
  eexists _, _. split; [exact Hn|]. do 3 (split; [done|]). split.
  { unfold tlv_enter. simpl. rewrite Hd, (proj2 (Z.leb_gt _ _)) by lia. reflexivity. }
  done.
Qed.

Lemma read_events_back evs w r B fuel :
  writer_wf w -> let w' := write_events w evs in
  tw_ok w' = true -> tw_depth w' = 0 -> B = tw_bytes w' -> Forall event_ok evs ->
  at_writer r w B -> (length evs < fuel)%nat -> read_events fuel r = Some evs.
Proof.
  revert w r fuel. induction evs as [|e evs IH]; intros w r fuel Hw w' Hok Hd0 HB Hev Hat Hfuel;
    (destruct fuel as [|fuel]; [simpl in Hfuel; lia|]); cbn [read_events].
  { destruct Hat as (Ho & Hres & Hd). pose proof Ho as (Hb & Hl & _). unfold w' in *. simpl in HB, Hd0.
    unfold tlv_next. rewrite Hb, Hres. cbv zeta. change (tr_len r <| tr_have := false |>) with (tr_len r).
    rewrite Hl, <- HB, Z.leb_refl. change (tr_depth r <| tr_have := false |>) with (tr_depth r).
    by rewrite Hd, Hd0. }
  apply Forall_cons_iff in Hev as [He Hev]. unfold w', write_events in *. cbn [fold_left] in *.
  fold (write_events (write_event w e) evs) in *. set (w1 := write_event w e) in *.
  pose proof (event_ok_fits e He) as Hef.
  destruct (write_event_step w e Hw Hef) as (Hw1 & Hp1 & _ & Hs1). fold w1 in Hw1, Hp1, Hs1.
  destruct (write_events_step w1 evs Hw1 (events_ok_fit evs Hev)) as (_ & _ & _ & Hs2).
  destruct (Hs2 Hok) as [Ho1 Hb2]. destruct (Hs1 Ho1) as (Ho0 & Hb1 & Hd1).
  destruct (write_event_needs w e Hw Hef Ho1) as (Htag & Htype & Hdepth).
  assert (B = tw_bytes w ++ enc_event w e ++ concat (map (enc_event w1) evs)) as HBe
    by (rewrite HB, Hb2, Hb1; by rewrite <- app_assoc).
  simpl in Hfuel. assert (forall r2, over r2 w B ->
    tlv_resume r2 = Ret (zlen (tw_bytes w ++ enc_event w e)) -> tr_depth r2 = tw_depth w + event_delta e ->
    read_events fuel r2 = Some evs) as Hnext.
  { intros r2 Ho2 Hr2 Hd2. apply (IH w1 r2 fuel Hw1 Hok Hd0 HB Hev); [|lia].
    split; [by apply (over_same r2 w)|]. by rewrite Hb1, Hd1. }
  destruct (decide (event_delta e = 0)) as [Hz|Hnz].
  - destruct (read_leaf_step r w B e _ Hat He Hz Htag HBe) as (el & -> & Hc & Hend & Hleaf).
    assert (tlv_is_container (loaded r el) = false) as -> by (unfold tlv_is_container; simpl; done).
    rewrite Hleaf. rewrite (Hnext (loaded r el)); [done| |by rewrite resume_loaded, Hend|].
    + apply over_loaded. apply Hat.
    + rewrite Hz, Z.add_0_r. apply Hat.
  - destruct e; try done; cbn [event_delta] in *.
    + destruct (open_step r w B tag type _ Hat He (Htag tag eq_refl) Htype ltac:(lia) HBe)
        as (r1 & r2 & -> & -> & -> & -> & -> & Ho2 & Hr2 & Hd2).
      by rewrite (Hnext r2 Ho2 Hr2 Hd2).
    + destruct (close_step r w B _ Hat ltac:(lia) HBe) as (r1 & r2 & -> & -> & -> & Ho2 & Hr2 & Hd2).
      rewrite (proj2 (Z.eqb_neq _ 0)) by lia. by rewrite (Hnext r2 Ho2 Hr2 ltac:(lia)).
Qed.

(** C34: Writing and reading TLV are inverse: for every sequence of writer
    calls with values of the C types (all element types, every form of tag,
    containers nested up to ten, an implicit profile or none; strings of up to
    2^32 - 5 bytes, the most any buffer has room for), if
    [tlv_writer_finish] reports success then a reader over the buffer, following
    [next], [enter] and [exit], recovers exactly that sequence. *)
Theorem tlv_roundtrip cap profile evs n :
  in_u 32 cap -> Forall event_ok evs ->
  let w0 := match profile with
            | Some p => tlv_writer_set_implicit_profile (tlv_writer_init true cap) p
            | None => tlv_writer_init true cap
            end in
  let w := write_events w0 evs in
  (tlv_writer_finish w).2 = Ret n ->
  let r0 := tlv_reader_init (Some (tw_bytes w)) n in
  let r := match profile with Some p => tlv_reader_set_implicit_profile r0 p | None => r0 end in
  read_events (S (length evs)) r = Some evs.
Proof.
  intros Hc Hev w0 w Hf r0 r.
  assert (writer_wf w0) as Hw0.
  { destruct (writer_init_wf cap Hc) as [Ho Hcc Hl Hd]. unfold w0. destruct profile; by split. }
  unfold tlv_writer_finish in Hf. destruct (tw_ok w) eqn:Hok; [|done]. cbn [negb] in Hf.
  destruct (Z.eqb_spec (tw_depth w) 0) as [Hd|]; [|done]. simpl in Hf. injection Hf as <-.
  apply (read_events_back evs w0 r (tw_bytes w)); try done; [|lia].
  unfold r, r0, w0. destruct profile; split_and!; done.
Qed.

(** A structure with a nested list, a string and both integer types, under an
    implicit profile. *)
Definition sample_doc : list tlv_event :=
  [TE_open TLV_ANON TLV_STRUCTURE; TE_int (TLV_CTX 0) (-300); TE_uint (TLV_TAG 0xAABBCCDD 70000) 5;
   TE_open (TLV_CTX 2) TLV_LIST; TE_bool TLV_ANON true; TE_close; TE_utf8 (TLV_TAG 7 1) [104; 105];
   TE_bytes (TLV_TAG 0 9) []; TE_null (TLV_CTX 255); TE_close].

Lemma tlv_roundtrip_witness :
  let w := write_events (tlv_writer_set_implicit_profile (tlv_writer_init true 64) 7) sample_doc in
  read_events 11 (tlv_reader_set_implicit_profile (tlv_reader_init (Some (tw_bytes w)) 32) 7) = Some sample_doc.
Proof.
  apply (tlv_roundtrip 64 (Some 7) sample_doc 32).
  - vm_compute. split; congruence.
  - repeat (apply Forall_cons_iff; split); try apply Forall_nil_2; vm_compute; repeat split; congruence.
  - vm_compute. reflexivity.
Defined.
