(* ===== verification/MatterCrypto.v ===== *)
(** * AES-128-CCM and sealed Matter messages

    Models [modules/ultrawidelock_matter/src/matter_crypto.c] and its header.
    The AES block function is supplied by the platform: it is the class
    [BlockCipher], and what the code relies on of it, that a block is 16 bytes,
    the class [BlockCipherLaws].  A non-zero return of the cipher is [None].
    The loops over a message run on fuel [length], one unit per byte, and
    consume at least one byte a turn. *)

From Stdlib Require Import ZArith Lia Bool.
From stdpp Require Import base list numbers option.
From S2P Require Import Prelude Wire MatterStatus MatterMsg.

Local Open Scope Z_scope.
Local Open Scope res_scope.

(** [crypto_aes_ecb_encrypt(key, 128, in, out)] *)
Class BlockCipher := aes_ecb : list Z -> list Z -> option (list Z).

Class BlockCipherLaws (C : BlockCipher) := {
  aes_block : forall k b o, aes_ecb k b = Some o -> length o = 16%nat /\ Forall byte_ok o;
}.

Definition KEY_LEN : nat := 16.
Definition NONCE_LEN : nat := 13.
Definition TAG_LEN : nat := 16.
Definition AES_BLOCK : nat := 16.
Definition CCM_L : Z := 2.
Definition CCM_MAX_PAYLOAD : Z := 0xFFFF.
Definition AAD_MAX : Z := 0xFEFF.

Record session_keys := { sk_i2r : list Z; sk_r2i : list Z; sk_attestation_challenge : list Z }.

Definition xor_bytes (a b : list Z) : list Z := zip_with Z.lxor a b.

Section Ccm.
Context `{C : BlockCipher}.

(** ** The streaming CBC-MAC *)

Record cbc_mac := { cm_x : list Z; cm_part : list Z }.

Definition mac_block (key : list Z) (x b : list Z) : option (list Z) :=
  aes_ecb key (xor_bytes x b).

Fixpoint mac_update (fuel : nat) (key : list Z) (m : cbc_mac) (p : list Z) : option cbc_mac :=
  match fuel with
  | O => Some m
  | S f =>
      match p with
      | [] => Some m
      | _ =>
          let take_n := (AES_BLOCK - length (cm_part m))%nat in
          let part := cm_part m ++ take take_n p in
          let rest := drop take_n p in
          if (length part =? AES_BLOCK)%nat then
            match mac_block key (cm_x m) part with
            | Some x => mac_update f key {| cm_x := x; cm_part := [] |} rest
            | None => None
            end
          else mac_update f key {| cm_x := cm_x m; cm_part := part |} rest
      end
  end.

Definition mac_flush (key : list Z) (m : cbc_mac) : option cbc_mac :=
  match cm_part m with
  | [] => Some m
  | part =>
      match mac_block key (cm_x m) (part ++ replicate (AES_BLOCK - length part) 0) with
      | Some x => Some {| cm_x := x; cm_part := [] |}
      | None => None
      end
  end.

(** [mac_update] and [mac_flush] of one section. *)
Definition mac_section (key : list Z) (m : cbc_mac) (p : list Z) : option cbc_mac :=
  match mac_update (length p) key m p with Some m => mac_flush key m | None => None end.

(** ** CCM *)

Definition ctr_block (nonce : list Z) (i : Z) : list Z :=
  [u8 (CCM_L - 1)] ++ nonce ++ [u8 (Z.shiftr i 8); u8 i].

Definition ccm_b0 (nonce : list Z) (aad_len pt_len : Z) : list Z :=
  [u8 (Z.lor (Z.lor (if 0 <? aad_len then 0x40 else 0) (Z.shiftl ((Z.of_nat TAG_LEN - 2) / 2) 3))
         (CCM_L - 1))] ++ nonce ++ [u8 (Z.shiftr pt_len 8); u8 pt_len].

Definition ccm_mac (key nonce aad pt : list Z) : option (list Z) :=
  match mac_block key (replicate AES_BLOCK 0) (ccm_b0 nonce (zlen aad) (zlen pt)) with
  | None => None
  | Some x =>
      let m := {| cm_x := x; cm_part := [] |} in
      let after_aad :=
        if 0 <? zlen aad then
          let hdr := [u8 (Z.shiftr (zlen aad) 8); u8 (zlen aad)] in
          match mac_update (length hdr) key m hdr with
          | Some m => mac_section key m aad
          | None => None
          end
        else Some m in
      match after_aad with
      | None => None
      | Some m =>
          match (if 0 <? zlen pt then mac_section key m pt else Some m) with
          | Some m => Some (cm_x m)
          | None => None
          end
      end
  end.

(** The CTR loop from counter block [counter] on. *)
Fixpoint ctr_loop (fuel : nat) (key nonce : list Z) (counter : Z) (p : list Z)
    : option (list Z) :=
  match fuel with
  | O => Some []
  | S f =>
      match p with
      | [] => Some []
      | _ =>
          match aes_ecb key (ctr_block nonce counter) with
          | None => None
          | Some s =>
              match ctr_loop f key nonce (u16 (counter + 1)) (drop AES_BLOCK p) with
              | Some rest => Some (xor_bytes (take AES_BLOCK p) s ++ rest)
              | None => None
              end
          end
      end
  end.

Definition ccm_ctr (key nonce p : list Z) : option (list Z) :=
  ctr_loop (length p) key nonce 1 p.

Definition ccm_tag (key nonce t : list Z) : option (list Z) :=
  match aes_ecb key (ctr_block nonce 0) with
  | Some s0 => Some (xor_bytes (take TAG_LEN t) s0)
  | None => None
  end.

(** The accumulated difference of the constant-time comparison. *)
Definition tag_equal (a b : list Z) : bool :=
  fold_left (fun diff d => Z.lor diff (u8 d)) (xor_bytes a b) 0 =? 0.

Definition build_nonce (security_flags message_counter node_id : Z) : list Z :=
  [security_flags] ++ put_le 4 message_counter ++ put_le 8 node_id.

(** ** AEAD *)

(** A null pointer with length 0 is the empty string; the header that is
    the associated data is never empty. *)
Definition aead_encrypt (key nonce aad pt : list Z) : res (list Z * list Z) :=
  let* _ := guard_res ((AAD_MAX <? zlen aad) || (CCM_MAX_PAYLOAD <? zlen pt)) MATTER_E_INVAL in
  match ccm_mac key nonce aad pt with
  | None => Fail MATTER_E_STATE
  | Some t =>
      match ccm_tag key nonce t with
      | None => Fail MATTER_E_STATE
      | Some tag =>
          match (if 0 <? zlen pt then ccm_ctr key nonce pt else Some []) with
          | None => Fail MATTER_E_STATE
          | Some ct => Ret (ct, tag)
          end
      end
  end.

Definition aead_decrypt (key nonce aad ct tag : list Z) : res (list Z) :=
  let* _ := guard_res ((AAD_MAX <? zlen aad) || (CCM_MAX_PAYLOAD <? zlen ct)) MATTER_E_INVAL in
  match (if 0 <? zlen ct then ccm_ctr key nonce ct else Some []) with
  | None => Fail MATTER_E_STATE
  | Some pt =>
      match ccm_mac key nonce aad pt with
      | None => Fail MATTER_E_STATE
      | Some t =>
          match ccm_tag key nonce t with
          | None => Fail MATTER_E_STATE
          | Some want =>
              if tag_equal want tag then Ret pt else Fail MATTER_E_TYPE
          end
      end
  end.

(** ** Messages *)

Definition crypto_seal (h : msg_header) (key : list Z) (sender_node_id : Z) (payload : list Z)
    (cap : Z) : res (list Z) :=
  let* hdr := msg_header_encode h cap in
  let* _ := guard_res (usize (cap - zlen hdr) <? zlen payload + Z.of_nat TAG_LEN) MATTER_E_NOSPACE in
  let nonce := build_nonce (mh_security_flags h) (mh_message_counter h) sender_node_id in
  let* sealed := aead_encrypt key nonce hdr payload in
  Ret (hdr ++ sealed.1 ++ sealed.2).

Definition crypto_open (buf : list Z) (key : list Z) (sender_node_id : Z) (pt_cap : Z)
    : res (msg_header * list Z) :=
  let* decoded := msg_header_decode buf in
  let h := decoded.1 in
  let hdr_len := decoded.2 in
  let* _ := guard_res (usize (zlen buf - hdr_len) <? Z.of_nat TAG_LEN) MATTER_E_TRUNC in
  let ct_len := zlen buf - hdr_len - Z.of_nat TAG_LEN in
  let* _ := guard_res (pt_cap <? ct_len) MATTER_E_NOSPACE in
  let nonce := build_nonce (mh_security_flags h) (mh_message_counter h) sender_node_id in
  let body := drop (Z.to_nat hdr_len) buf in
  let* pt := aead_decrypt key nonce (take (Z.to_nat hdr_len) buf)
               (take (Z.to_nat ct_len) body) (drop (Z.to_nat ct_len) body) in
  Ret (h, pt).
End Ccm.

(** [ultrawidelock_hkdf(salt, secret, info, 48)], from outside this file. *)
Definition session_keys_info : list Z := [83; 101; 115; 115; 105; 111; 110; 75; 101; 121; 115].
Definition resume_keys_info : list Z :=
  [83; 101; 115; 115; 105; 111; 110; 82; 101; 115; 117; 109; 112; 116; 105; 111; 110; 75; 101; 121; 115].

Definition derive_session_keys
    (hkdf : list Z -> list Z -> list Z -> nat -> option (list Z))
    (secret salt : list Z) (resume : bool) : res session_keys :=
  let* _ := guard_res (zlen secret =? 0) MATTER_E_INVAL in
  match hkdf salt secret (if resume then resume_keys_info else session_keys_info) 48%nat with
  | None => Fail MATTER_E_STATE
  | Some keys =>
      Ret {| sk_i2r := take KEY_LEN keys; sk_r2i := take KEY_LEN (drop KEY_LEN keys);
             sk_attestation_challenge := take KEY_LEN (drop (2 * KEY_LEN) keys) |}
  end.

(** * Properties of the CCM implementation

    The streaming MAC is CBC-MAC over the padded blocks of RFC 3610; decryption
    accepts exactly what encryption produces; the same holds of sealed
    messages; nonces are injective. *)

Local Open Scope Z_scope.
Local Open Scope res_scope.

(** ** Reference definitions *)

(** Zero padding to whole blocks. *)
Definition pad16 (d : list Z) : list Z := d ++ replicate ((16 - length d mod 16) mod 16) 0.

Fixpoint chunks (fuel : nat) (d : list Z) : list (list Z) :=
  match fuel with
  | O => []
  | S f => match d with [] => [] | _ => take 16 d :: chunks f (drop 16 d) end
  end.

Definition blocks (d : list Z) : list (list Z) := chunks (length d) d.

Section Reference.
Context `{C : BlockCipher}.

(** CBC-MAC over a list of blocks. *)
Fixpoint cbc (key x : list Z) (bs : list (list Z)) : option (list Z) :=
  match bs with
  | [] => Some x
  | b :: rest => match aes_ecb key (xor_bytes x b) with Some x' => cbc key x' rest | None => None end
  end.

(** The authenticated blocks of RFC 3610, section 2.2. *)
Definition ccm_input (nonce aad pt : list Z) : list (list Z) :=
  ccm_b0 nonce (zlen aad) (zlen pt) ::
  (if 0 <? zlen aad then blocks (pad16 (put_be 2 (zlen aad) ++ aad)) else []) ++ blocks (pad16 pt).
End Reference.

(** ** Blocks *)

Lemma chunks_fuel fuel fuel' d :
  (length d <= fuel)%nat -> (length d <= fuel')%nat -> chunks fuel d = chunks fuel' d.
Proof.
  revert fuel' d. induction fuel as [|fuel IH]; intros fuel' d Hf Hf'.
  - destruct d; [|simpl in Hf; lia]. by destruct fuel'.
  - destruct fuel' as [|fuel']; [destruct d; [done|simpl in Hf'; lia]|]. cbn [chunks].
    destruct d as [|b d]; [done|]. f_equal.
    apply IH; rewrite length_drop; simpl in *; lia.
Qed.

Lemma blocks_cons b d : length b = 16%nat -> blocks (b ++ d) = b :: blocks d.
Proof.
  intros Hb. unfold blocks.
  rewrite (chunks_fuel _ (S (15 + length d))) by (rewrite ?length_app; lia).
  remember (15 + length d)%nat as f eqn:Ef. cbn [chunks].
  destruct (b ++ d) as [|z l] eqn:E; [by destruct b|]. rewrite <- E.
  rewrite take_app_length' by done. rewrite drop_app_length' by done. f_equal.
  apply chunks_fuel; lia.
Qed.

Lemma pad16_app b d : length b = 16%nat -> pad16 (b ++ d) = b ++ pad16 d.
Proof.
  intros Hb. unfold pad16. rewrite <- app_assoc. do 4 f_equal. rewrite length_app, Hb.
  replace (16 + length d)%nat with (length d + 1 * 16)%nat by lia. by rewrite Nat.Div0.mod_add.
Qed.

Lemma pad16_short d : (0 < length d < 16)%nat -> blocks (pad16 d) = [d ++ replicate (16 - length d) 0].
Proof.
  intros Hd. unfold pad16. rewrite (Nat.mod_small (length d)) by lia. rewrite Nat.mod_small by lia.
  rewrite <- (app_nil_r (d ++ _)) at 1. rewrite blocks_cons; [done|].
  rewrite length_app, length_replicate. lia.
Qed.

Section Props.
Context `{C : BlockCipher}.

Lemma cbc_app key x a b :
  cbc key x (a ++ b) = match cbc key x a with Some y => cbc key y b | None => None end.
Proof.
  revert x. induction a as [|blk a IH]; intros x; cbn [app cbc]; [done|].
  destruct (aes_ecb key (xor_bytes x blk)); [apply IH|done].
Qed.

(** ** The streaming MAC *)

Lemma mac_stream fuel key x part p :
  (length p <= fuel)%nat -> (length part < 16)%nat ->
  match mac_update fuel key {| cm_x := x; cm_part := part |} p with
  | Some m => mac_flush key m | None => None end =
  match cbc key x (blocks (pad16 (part ++ p))) with
  | Some y => Some {| cm_x := y; cm_part := [] |} | None => None end.
Proof.
  revert x part p. induction fuel as [|fuel IH]; intros x part p Hp Hpart.
  all: assert (p = [] -> match mac_flush key {| cm_x := x; cm_part := part |} with Some m => Some m | None => None end =
    match cbc key x (blocks (pad16 (part ++ p))) with
    | Some y => Some {| cm_x := y; cm_part := [] |} | None => None end) as Hnil.
  1,3: intros ->; rewrite app_nil_r; unfold mac_flush; cbn [cm_part cm_x];
    (destruct part as [|b part]; [done|]); rewrite pad16_short by (simpl in *; lia);
    cbn [cbc]; unfold mac_block; by destruct (aes_ecb _ _).
  - destruct p; [|simpl in Hp; lia]. cbn [mac_update]. rewrite <- Hnil by done. by destruct (mac_flush _ _).
  - destruct p as [|b p]; [cbn [mac_update]; rewrite <- Hnil by done; by destruct (mac_flush _ _)|].
    remember (b :: p) as q eqn:Eq. assert (0 < length q)%nat as Hq by (rewrite Eq; simpl; lia).
    assert (mac_update (S fuel) key {| cm_x := x; cm_part := part |} q =
      let part' := part ++ take (16 - length part) q in let rest := drop (16 - length part) q in
      if (length part' =? 16)%nat then
        match mac_block key x part' with
        | Some x' => mac_update fuel key {| cm_x := x'; cm_part := [] |} rest | None => None end
      else mac_update fuel key {| cm_x := x; cm_part := part' |} rest) as -> by (rewrite Eq; done).
    cbv zeta. clear Eq b p. set (part' := part ++ take (16 - length part) q).
    set (rest := drop (16 - length part) q).
    assert (part ++ q = part' ++ rest) as -> by (unfold part', rest; by rewrite <- app_assoc, take_drop).
    assert (length rest <= fuel)%nat by (unfold rest; rewrite length_drop; lia).
    destruct (Nat.eqb_spec (length part') 16) as [H16|H16].
    + rewrite pad16_app, blocks_cons by done. cbn [cbc]. unfold mac_block.
      destruct (aes_ecb key (xor_bytes x part')); [|done].
      rewrite (IH _ [] rest) by (done || simpl; lia). done.
    + assert (rest = []) as Hr.
      { apply length_zero_iff_nil. unfold part', rest in *. rewrite length_app, length_take in H16.
        rewrite length_drop. lia. }
      assert (length part' < 16)%nat by (unfold part' in *; rewrite length_app, length_take in *; lia).
      by rewrite IH.
Qed.

Lemma mac_section_spec key x part p :
  (length part < 16)%nat ->
  mac_section key {| cm_x := x; cm_part := part |} p =
  match cbc key x (blocks (pad16 (part ++ p))) with
  | Some y => Some {| cm_x := y; cm_part := [] |} | None => None end.
Proof. intros. unfold mac_section. by apply mac_stream. Qed.

Lemma ccm_mac_cbc key nonce aad pt :
  ccm_mac key nonce aad pt = cbc key (replicate 16 0) (ccm_input nonce aad pt).
Proof.
  unfold ccm_mac, ccm_input, mac_block. cbn [cbc].
  destruct (aes_ecb key _) as [x|]; [|done].
  assert (forall y, (if 0 <? zlen pt then mac_section key {| cm_x := y; cm_part := [] |} pt
                     else Some {| cm_x := y; cm_part := [] |}) =
    match cbc key y (blocks (pad16 pt)) with
    | Some z => Some {| cm_x := z; cm_part := [] |} | None => None end) as Hpt.
  { intros y. destruct (Z.ltb_spec 0 (zlen pt)) as [|H0].
    - rewrite mac_section_spec by (simpl; lia). done.
    - assert (pt = []) as -> by (destruct pt; [done|unfold zlen in H0; simpl in H0; lia]). done. }
  rewrite cbc_app. destruct (0 <? zlen aad).
  - change (mac_update _ key {| cm_x := x; cm_part := [] |} [u8 (Z.shiftr (zlen aad) 8); u8 (zlen aad)])
      with (Some {| cm_x := x; cm_part := [u8 (Z.shiftr (zlen aad) 8); u8 (zlen aad)] |}).
    cbn iota beta. rewrite mac_section_spec by (simpl; lia).
    assert (put_be 2 (zlen aad) = [u8 (Z.shiftr (zlen aad) 8); u8 (zlen aad)]) as ->.
    { cbn [put_be]. change (8 * Z.of_nat 1) with 8. change (8 * Z.of_nat 0) with 0. by rewrite Z.shiftr_0_r. }
    destruct (cbc key x _) as [y|]; [|done]. rewrite Hpt. by destruct (cbc key y _).
  - cbn [cbc]. rewrite Hpt. by destruct (cbc key x _).
Qed.

(** The streaming MAC equals the reference: for every associated data
    and payload, feeding them through the partial-block buffer gives CBC-MAC
    over the first block, the length-prefixed padded associated data and the
    padded payload, as RFC 3610 defines it; cipher errors included. *)
Theorem ccm_mac_reference key nonce aad pt :
  ccm_mac key nonce aad pt = cbc key (replicate 16 0) (ccm_input nonce aad pt).
Proof. apply ccm_mac_cbc. Qed.
End Props.

(** ** Encryption and decryption *)

Lemma xor_bytes_length a b : length (xor_bytes a b) = Nat.min (length a) (length b).
Proof. apply length_zip_with. Qed.

Lemma xor_bytes_twice a s : (length a <= length s)%nat -> xor_bytes (xor_bytes a s) s = a.
Proof.
  unfold xor_bytes. revert s. induction a as [|x a IH]; intros [|y s] H; simpl in *; try lia; [done..|].
  rewrite Z.lxor_assoc, Z.lxor_nilpotent, Z.lxor_0_r. f_equal. apply IH. lia.
Qed.

Lemma lxor_byte x y : byte_ok x -> byte_ok y -> byte_ok (Z.lxor x y).
Proof.
  unfold byte_ok. intros Hx Hy. assert (0 <= Z.lxor x y) by (apply Z.lxor_nonneg; lia). split; [done|].
  destruct (Z.eq_dec (Z.lxor x y) 0) as [->|]; [lia|]. change 256 with (2 ^ 8). apply Z.log2_lt_pow2; [lia|].
  eapply Z.le_lt_trans; [apply Z.log2_lxor; lia|]. apply Z.max_lub_lt.
  - destruct (Z.eq_dec x 0) as [->|]; [simpl; lia|]. apply Z.log2_lt_pow2; lia.
  - destruct (Z.eq_dec y 0) as [->|]; [simpl; lia|]. apply Z.log2_lt_pow2; lia.
Qed.

Lemma xor_bytes_ok a b : Forall byte_ok a -> Forall byte_ok b -> Forall byte_ok (xor_bytes a b).
Proof.
  intros Ha. revert b. induction Ha as [|x a Hx _ IH]; intros [|y b] Hb; simpl; try done.
  apply Forall_cons_iff in Hb as [Hy Hb]. constructor; [by apply lxor_byte|by apply IH].
Qed.

(** The comparison accumulates to zero exactly on equal tags. *)
Lemma tag_equal_spec a b :
  Forall byte_ok a -> Forall byte_ok b -> length a = length b -> tag_equal a b = true <-> a = b.
Proof.
  intros Ha Hb Hl. unfold tag_equal. rewrite Z.eqb_eq.
  assert (forall l d, fold_left (fun diff d => Z.lor diff (u8 d)) l d = 0 <->
    d = 0 /\ Forall (fun x => u8 x = 0) l) as Hf.
  { intros l. induction l as [|x l IH]; intros d; cbn [fold_left].
    - split; [by intros ->|]. by intros [-> _].
    - rewrite IH, Z.lor_eq_0_iff, Forall_cons_iff. tauto. }
  rewrite Hf. split.
  - intros [_ Hz]. revert b Hb Hl Hz. induction Ha as [|x a Hx _ IH]; intros [|y b] Hb Hl Hz; simpl in *; try done.
    apply Forall_cons_iff in Hb as [Hy Hb]. apply Forall_cons_iff in Hz as [Hz1 Hz].
    f_equal; [|apply IH; congruence || done].
    rewrite (wrap_id 8) in Hz1 by (by apply lxor_byte). by apply Z.lxor_eq.
  - intros <-. split; [done|]. clear Hb Hl. induction Ha as [|x a Hx _ IH]; simpl; constructor; [|done].
    by rewrite Z.lxor_nilpotent.
Qed.

Section Exact.
Context `{L : BlockCipherLaws}.

Lemma ctr_loop_twice fuel key nonce ctr p c :
  (length p <= fuel)%nat -> ctr_loop fuel key nonce ctr p = Some c ->
  length c = length p /\ (Forall byte_ok p -> Forall byte_ok c) /\ ctr_loop fuel key nonce ctr c = Some p.
Proof.
  revert ctr p c. induction fuel as [|fuel IH]; intros ctr p c Hf Hc.
  { destruct p; [|simpl in Hf; lia]. simpl in Hc. by simplify_eq. }
  destruct p as [|b p]; [simpl in Hc; by simplify_eq|].
  remember (b :: p) as q eqn:Eq. assert (q <> []) as Hq by (by rewrite Eq).
  assert (forall d, d <> [] -> ctr_loop (S fuel) key nonce ctr d =
    match aes_ecb key (ctr_block nonce ctr) with
    | None => None
    | Some s => match ctr_loop fuel key nonce (u16 (ctr + 1)) (drop 16 d) with
                | Some rest => Some (xor_bytes (take 16 d) s ++ rest) | None => None end
    end) as Hstep by (by intros [|]).
  rewrite Hstep in Hc by done. destruct (aes_ecb key (ctr_block nonce ctr)) as [s|] eqn:Es; [|done].
  destruct (ctr_loop fuel key nonce _ (drop 16 q)) as [rest|] eqn:Er; [|done].
  apply (inj Some) in Hc as <-. destruct (aes_block _ _ _ Es) as [Hs Hsb].
  assert (0 < length q)%nat as Hpos by (rewrite Eq; simpl; lia). clear Eq.
  assert (length (drop 16 q) <= fuel)%nat as Hdr by (rewrite length_drop; lia).
  destruct (IH _ _ _ Hdr Er) as (Hl & Hb & Hback).
  assert (length (xor_bytes (take 16 q) s) = Nat.min 16 (length q)) as Hx
    by (rewrite xor_bytes_length, length_take; lia).
  rewrite length_drop in Hl.
  split; [rewrite length_app; lia|]. split.
  { intros Hqb. apply Forall_app. split; [by apply xor_bytes_ok; [apply Forall_take|]|].
    by apply Hb, Forall_drop. }
  rewrite Hstep. 2:{ destruct (xor_bytes (take 16 q) s); [cbn [length] in Hx; lia|done]. }
  assert (take 16 (xor_bytes (take 16 q) s ++ rest) = xor_bytes (take 16 q) s /\
          drop 16 (xor_bytes (take 16 q) s ++ rest) = rest) as [-> ->].
  { destruct (decide (length q < 16)%nat).
    - assert (rest = []) as -> by (apply length_zero_iff_nil; lia). rewrite app_nil_r.
      rewrite take_ge, drop_ge by lia. done.
    - rewrite take_app_length', drop_app_length' by lia. done. }
  rewrite Hback, xor_bytes_twice by (rewrite length_take; lia). by rewrite take_drop.
Qed.

Lemma ccm_ctr_twice key nonce p c :
  ccm_ctr key nonce p = Some c ->
  length c = length p /\ (Forall byte_ok p -> Forall byte_ok c) /\ ccm_ctr key nonce c = Some p.
Proof.
  unfold ccm_ctr. intros Hc. destruct (ctr_loop_twice _ key nonce 1 p c (Nat.le_refl _) Hc) as (Hl & Hb & Hd).
  by rewrite Hl.
Qed.

(** The optional CTR pass of both directions. *)
Lemma ctr_pass key nonce p c :
  (if 0 <? zlen p then ccm_ctr key nonce p else Some []) = Some c ->
  length c = length p /\ (Forall byte_ok p -> Forall byte_ok c) /\
  (if 0 <? zlen c then ccm_ctr key nonce c else Some []) = Some p.
Proof.
  intros Hc. destruct (Z.ltb_spec 0 (zlen p)) as [Hp|Hp].
  - destruct (ccm_ctr_twice key nonce p c Hc) as (Hl & Hb & Hd). unfold zlen in *. rewrite Hl.
    by rewrite (proj2 (Z.ltb_lt _ _)).
  - assert (p = []) as -> by (destruct p; [done|unfold zlen in Hp; simpl in Hp; lia]). by simplify_eq.
Qed.

Lemma ccm_mac_length key nonce aad pt t :
  ccm_mac key nonce aad pt = Some t -> length t = 16%nat /\ Forall byte_ok t.
Proof.
  rewrite ccm_mac_cbc. unfold ccm_input. generalize (replicate 16 0) as x.
  generalize (ccm_b0 nonce (zlen aad) (zlen pt)) as b.
  generalize ((if 0 <? zlen aad then blocks (pad16 (put_be 2 (zlen aad) ++ aad)) else []) ++ blocks (pad16 pt)) as bs.
  induction bs as [|b' bs IH]; intros b x; cbn [cbc]; destruct (aes_ecb _ _) as [y|] eqn:E; try done.
  - intros [= <-]. by apply aes_block in E.
  - intros H. by apply (IH b' y).
Qed.

Lemma ccm_tag_length key nonce t tag :
  length t = 16%nat -> Forall byte_ok t -> ccm_tag key nonce t = Some tag ->
  length tag = 16%nat /\ Forall byte_ok tag.
Proof.
  unfold ccm_tag. intros Ht Hb. destruct (aes_ecb _ _) as [s|] eqn:E; [|done]. intros H.
  apply (inj Some) in H as <-. destruct (aes_block _ _ _ E) as [Hs Hsb].
  rewrite xor_bytes_length, length_take. split; [unfold TAG_LEN; lia|].
  by apply xor_bytes_ok; [apply Forall_take|].
Qed.

Lemma aead_exact_iff key nonce aad ct tag pt :
  Forall byte_ok tag -> length tag = TAG_LEN ->
  aead_decrypt key nonce aad ct tag = Ret pt <-> aead_encrypt key nonce aad pt = Ret (ct, tag).
Proof.
  intros Htb Htl. unfold aead_decrypt, aead_encrypt. split.
  - intros H. apply res_bind_Ret in H as ([] & Hg & H). apply guard_res_Ret in Hg.
    destruct (if 0 <? zlen ct then _ else _) as [p|] eqn:Ec; [|done].
    destruct (ctr_pass key nonce ct p Ec) as (Hl & _ & Hback).
    destruct (ccm_mac key nonce aad p) as [t|] eqn:Em; [|done].
    destruct (ccm_tag key nonce t) as [want|] eqn:Et; [|done].
    destruct (tag_equal want tag) eqn:Eq; [|done]. injection H as <-.
    destruct (ccm_mac_length _ _ _ _ _ Em) as [Hl1 Hb1].
    destruct (ccm_tag_length _ _ _ _ Hl1 Hb1 Et) as [Hl2 Hb2].
    apply tag_equal_spec in Eq; [subst want|done|done|by rewrite Hl2].
    assert (zlen p = zlen ct) as -> by (unfold zlen; by rewrite Hl). rewrite Hg.
    cbn [guard_res res_bind]. rewrite Em, Et.
    assert (zlen p = zlen ct) as Hz by (unfold zlen; by rewrite Hl). rewrite Hz in Hback. by rewrite Hback.
  - intros H. apply res_bind_Ret in H as ([] & Hg & H). apply guard_res_Ret in Hg.
    destruct (ccm_mac key nonce aad pt) as [t|] eqn:Em; [|done].
    destruct (ccm_tag key nonce t) as [tag'|] eqn:Et; [|done].
    destruct (if 0 <? zlen pt then _ else _) as [c|] eqn:Ec; [|done]. injection H as -> ->.
    destruct (ctr_pass key nonce pt ct Ec) as (Hl & _ & Hback).
    assert (zlen ct = zlen pt) as Hz by (unfold zlen; by rewrite Hl). rewrite Hz in *. rewrite Hg.
    cbn [guard_res res_bind]. rewrite Hback, Em, Et.
    by rewrite (proj2 (tag_equal_spec tag tag Htb Htb eq_refl) eq_refl).
Qed.
Lemma aead_encrypt_shape key nonce aad pt ct tag :
  aead_encrypt key nonce aad pt = Ret (ct, tag) ->
  length ct = length pt /\ length tag = TAG_LEN /\ Forall byte_ok tag /\
  (Forall byte_ok pt -> Forall byte_ok ct).
Proof.
  unfold aead_encrypt. intros H. apply res_bind_Ret in H as ([] & _ & H).
  destruct (ccm_mac key nonce aad pt) as [t|] eqn:Em; [|done].
  destruct (ccm_tag key nonce t) as [tag'|] eqn:Et; [|done].
  destruct (if 0 <? zlen pt then _ else _) as [c|] eqn:Ec; [|done]. injection H as -> ->.
  destruct (ccm_mac_length _ _ _ _ _ Em) as [Hl1 Hb1].
  destruct (ccm_tag_length _ _ _ _ Hl1 Hb1 Et) as [Hl2 Hb2].
  by destruct (ctr_pass key nonce pt ct Ec) as (Hl & Hb & _).
Qed.

(** ** Sealed messages *)

Lemma crypto_seal_Ret h key node pt cap buf :
  crypto_seal h key node pt cap = Ret buf ->
  exists ct tag, buf = msg_header_bytes h ++ ct ++ tag /\
    msg_header_len (mh_flags h) <> 0 /\ msg_header_len (mh_flags h) <= cap /\
    aead_encrypt key (build_nonce (mh_security_flags h) (mh_message_counter h) node)
      (msg_header_bytes h) pt = Ret (ct, tag).
Proof.
  unfold crypto_seal. intros H. apply res_bind_Ret in H as (hdr & He & H).
  unfold msg_header_encode in He. apply res_bind_Ret in He as ([] & G0 & He).
  apply res_bind_Ret in He as ([] & G1 & He). injection He as <-.
  apply guard_res_Ret, Z.eqb_neq in G0. apply guard_res_Ret, Z.ltb_ge in G1.
  apply res_bind_Ret in H as ([] & _ & H). apply res_bind_Ret in H as ([ct tag] & Ha & H).
  injection H as <-. by exists ct, tag.
Qed.

Lemma crypto_open_seal h key node pt cap pt_cap buf :
  msg_header_ok h -> in_u 32 (zlen buf) -> zlen pt <= pt_cap ->
  crypto_seal h key node pt cap = Ret buf -> crypto_open buf key node pt_cap = Ret (h, pt).
Proof.
  intros Hok Hu Hcap Hs. apply crypto_seal_Ret in Hs as (ct & tag & -> & _ & _ & Ha).
  destruct (aead_encrypt_shape _ _ _ _ _ _ Ha) as (Hct & Htag & Htb & _). unfold TAG_LEN in *.
  unfold crypto_open. rewrite msg_header_dec_enc by done. cbn [res_bind fst snd].
  set (hb := msg_header_bytes h) in *.
  assert (zlen (hb ++ ct ++ tag) - zlen hb = zlen pt + 16) as E by (unfold zlen; rewrite !length_app; lia).
  rewrite !E. unfold TAG_LEN. unfold zlen in Hcap, Hu, E. unfold zlen at 1.
  rewrite (wrap_id 32) by (unfold in_u in *; unfold zlen; lia).
  rewrite (proj2 (Z.ltb_ge _ _)) by (change (Z.of_nat 16) with 16; unfold zlen; lia). cbn [guard_res res_bind].
  replace (zlen pt + 16 - Z.of_nat 16) with (zlen pt) by lia.
  rewrite (proj2 (Z.ltb_ge _ _)) by (unfold zlen; lia). cbn [guard_res res_bind].
  unfold zlen. rewrite !Nat2Z.id, take_app_length, drop_app_length.
  rewrite take_app_length', drop_app_length' by done.
  by rewrite (proj2 (aead_exact_iff _ _ _ ct tag pt Htb Htag) Ha).
Qed.

Lemma crypto_seal_open h key node pt pt_cap buf :
  Forall byte_ok buf -> in_u 32 (zlen buf) -> crypto_open buf key node pt_cap = Ret (h, pt) ->
  msg_header_ok h /\ zlen pt <= pt_cap /\ crypto_seal h key node pt (zlen buf) = Ret buf.
Proof.
  intros Hb Hu H. unfold crypto_open in H. apply res_bind_Ret in H as ([h' n] & Hd & H).
  cbn [fst snd] in H. destruct (msg_header_enc_dec buf h' n Hb Hd) as (Hok & Hn & Hbuf).
  apply res_bind_Ret in H as ([] & G0 & H). apply guard_res_Ret, Z.ltb_ge in G0.
  apply res_bind_Ret in H as ([] & G1 & H). apply guard_res_Ret, Z.ltb_ge in G1.
  apply res_bind_Ret in H as (pt' & Ha & H). injection H as -> ->.
  remember (drop (Z.to_nat n) buf) as body eqn:Ebody. set (hb := msg_header_bytes h) in *.
  assert (zlen buf = n + zlen body) as Hz by (rewrite Hbuf at 1; rewrite zlen_app; lia).
  rewrite (wrap_id 32) in G0
    by (rewrite Hz; pose proof (zlen_nonneg hb); pose proof (zlen_nonneg body); unfold in_u in *; lia).
  assert (take (Z.to_nat n) buf = hb) as Hhd.
  { rewrite Hbuf, Hn. unfold zlen. by rewrite Nat2Z.id, take_app_length. }
  rewrite Hhd in Ha. set (m := Z.to_nat (zlen buf - n - Z.of_nat TAG_LEN)) in *.
  assert (length (drop m body) = TAG_LEN) as Htag
    by (rewrite length_drop; unfold m; unfold zlen, TAG_LEN in *; lia).
  assert (Forall byte_ok (drop m body)) as Htb by (rewrite Ebody; by apply Forall_drop, Forall_drop).
  apply aead_exact_iff in Ha; [|done..].
  destruct (aead_encrypt_shape _ _ _ _ _ _ Ha) as (Hct & _ & _ & _).
  rewrite length_take in Hct. split; [done|].
  assert (zlen pt = zlen body - 16) as Hpt
    by (unfold zlen, TAG_LEN in *; rewrite <- Hct; unfold m; unfold TAG_LEN; lia).
  split; [unfold TAG_LEN in *; lia|].
  unfold crypto_seal, msg_header_encode. pose proof Hok as (_ & Hlen & _).
  pose proof (zlen_msg_header h Hlen) as Hzh. fold hb in Hzh |- *.
  pose proof (zlen_nonneg body).
  rewrite (proj2 (Z.eqb_neq _ 0)), (proj2 (Z.ltb_ge _ _)) by lia. cbn [guard_res res_bind].
  rewrite (wrap_id 32) by (unfold in_u in *; lia).
  rewrite (proj2 (Z.ltb_ge _ _)) by (unfold TAG_LEN in *; lia). cbn [guard_res res_bind].
  rewrite Ha. cbn [res_bind fst snd]. by rewrite take_drop, <- Hbuf.
Qed.

Lemma crypto_open_bytes buf key node pt_cap h pt :
  Forall byte_ok buf -> crypto_open buf key node pt_cap = Ret (h, pt) -> Forall byte_ok pt.
Proof.
  intros Hb H. unfold crypto_open in H. apply res_bind_Ret in H as ([h' n] & _ & H).
  apply res_bind_Ret in H as ([] & _ & H). apply res_bind_Ret in H as ([] & _ & H).
  apply res_bind_Ret in H as (pt' & Ha & H). injection H as -> ->. unfold aead_decrypt in Ha.
  apply res_bind_Ret in Ha as ([] & _ & Ha). revert Ha. set (ct := take _ _).
  assert (Forall byte_ok ct) by (by apply Forall_take, Forall_drop).
  destruct (if 0 <? zlen ct then _ else _) as [p|] eqn:Ec; [|done].
  destruct (ctr_pass _ _ ct p Ec) as (_ & Hp & _).
  repeat case_match; intros; simplify_eq; auto.
Qed.

Lemma crypto_seal_size h key node pt cap buf :
  msg_header_ok h -> in_u 32 cap -> crypto_seal h key node pt cap = Ret buf ->
  zlen buf = msg_header_len (mh_flags h) + zlen pt + 16 /\ zlen buf <= cap /\
  (Forall byte_ok pt -> Forall byte_ok buf).
Proof.
  intros Hok Hu H. pose proof Hok as (_ & Hlen & _). pose proof (zlen_msg_header h Hlen) as Hz.
  pose proof (crypto_seal_Ret _ _ _ _ _ _ H) as (ct & tag & -> & _ & Hcap & Ha).
  destruct (aead_encrypt_shape _ _ _ _ _ _ Ha) as (Hct & Htag & Htb & Hcb).
  unfold crypto_seal in H. apply res_bind_Ret in H as (hdr & He & H).
  unfold msg_header_encode in He. apply res_bind_Ret in He as ([] & _ & He).
  apply res_bind_Ret in He as ([] & _ & He). injection He as <-.
  apply res_bind_Ret in H as ([] & G & _). apply guard_res_Ret, Z.ltb_ge in G.
  rewrite (wrap_id 32) in G by (unfold in_u in *; lia).
  rewrite !zlen_app, Hz. unfold TAG_LEN in *.
  assert (zlen ct = zlen pt) as -> by (unfold zlen; by rewrite Hct).
  assert (zlen tag = 16) as -> by (unfold zlen; by rewrite Htag). split_and!; [lia|lia|].
  intros Hb. rewrite !Forall_app. split_and!; [by apply msg_header_bytes_ok|by apply Hcb|done].
Qed.

(** The capacity decides only whether there is room. *)
Lemma crypto_seal_cap h key node pt cap buf :
  msg_header_ok h -> in_u 32 cap -> crypto_seal h key node pt cap = Ret buf ->
  crypto_seal h key node pt (zlen buf) = Ret buf.
Proof.
  intros Hok Hu H. destruct (crypto_seal_size _ _ _ _ _ _ Hok Hu H) as (Hz & Hc & _).
  assert (in_u 32 (zlen buf)) as Hzu by (pose proof (zlen_nonneg buf); unfold in_u in *; lia).
  pose proof (crypto_seal_Ret _ _ _ _ _ _ H) as (ct & tag & -> & H0 & _ & Ha).
  pose proof Hok as (_ & Hlen & _). pose proof (zlen_msg_header h Hlen) as Hzh. pose proof (zlen_nonneg pt).
  unfold crypto_seal, msg_header_encode.
  rewrite (proj2 (Z.eqb_neq _ 0) H0), (proj2 (Z.ltb_ge _ _)) by lia. cbn [guard_res res_bind].
  rewrite (wrap_id 32) by (unfold in_u in *; lia).
  rewrite (proj2 (Z.ltb_ge _ _)) by (unfold TAG_LEN; lia). cbn [guard_res res_bind]. by rewrite Ha.
Qed.

Lemma crypto_open_fails buf key node pt_cap : fails_bad (crypto_open buf key node pt_cap).
Proof.
  unfold crypto_open. apply fails_bad_bind; [apply msg_header_decode_fails|intros a].
  apply fails_bad_bind; [by apply fails_bad_guard|intros _].
  apply fails_bad_bind; [by apply fails_bad_guard|intros _].
  apply fails_bad_bind; [|intros; apply fails_bad_Ret]. unfold aead_decrypt.
  apply fails_bad_bind; [by apply fails_bad_guard|intros _].
  repeat case_match; try apply fails_bad_Ret; by intros s [= <-].
Qed.

(** A secured message opens exactly when it is what sealing produces:
    for any bytes off the wire, opening them gives a header and a plaintext
    if and only if the header is well formed, the plaintext fits the caller's
    buffer, and sealing that header and plaintext under the same key and
    sender gives the very same bytes. *)
Theorem crypto_open_exact h key node pt pt_cap buf :
  Forall byte_ok buf -> in_u 32 (zlen buf) ->
  crypto_open buf key node pt_cap = Ret (h, pt) <->
  msg_header_ok h /\ zlen pt <= pt_cap /\ crypto_seal h key node pt (zlen buf) = Ret buf.
Proof.
  intros Hb Hu. split; [by apply crypto_seal_open|].
  intros (Hok & Hcap & Hs). by apply (crypto_open_seal h key node pt (zlen buf)).
Qed.

(** Decryption accepts exactly what encryption produces: for every key,
    nonce, associated data, ciphertext and 16-byte tag, decrypting gives a
    plaintext if and only if encrypting that plaintext gives that ciphertext
    and tag.  In particular a sealed payload opens to itself, and any other
    tag, ciphertext or associated data is refused. *)
Theorem aead_exact key nonce aad ct tag pt :
  Forall byte_ok tag -> length tag = TAG_LEN ->
  aead_decrypt key nonce aad ct tag = Ret pt <-> aead_encrypt key nonce aad pt = Ret (ct, tag).
Proof. apply aead_exact_iff. Qed.
End Exact.

(** A cipher that satisfies the laws. *)
#[local] Instance toy_cipher : BlockCipher := fun k b =>
  Some (map (fun i => u8 (nth i k 0 + 3 * nth i b 0 + Z.of_nat i)) (seq 0 16)).

#[local] Instance toy_cipher_laws : BlockCipherLaws toy_cipher.
Proof.
  split. intros k b o Ho. apply (inj Some) in Ho as <-. split; [by rewrite length_map, length_seq|].
  apply List.Forall_forall. intros x Hx. apply in_map_iff in Hx as (i & <- & _). apply (wrap_range 8). lia.
Qed.

Definition toy_key : list Z := replicate 16 7.
Definition toy_nonce : list Z := replicate 13 1.

Lemma aead_exact_witness :
  exists ct tag, aead_encrypt toy_key toy_nonce [5] (replicate 20 9) = Ret (ct, tag) /\
    aead_decrypt toy_key toy_nonce [5] ct tag = Ret (replicate 20 9).
Proof.
  destruct (aead_encrypt toy_key toy_nonce [5] (replicate 20 9)) as [[ct tag]|s] eqn:E.
  - exists ct, tag. split; [reflexivity|]. apply (aead_exact (L := toy_cipher_laws)).
    + vm_compute in E. injection E as _ <-. apply bytes_all. reflexivity.
    + vm_compute in E. injection E as _ <-. reflexivity.
    + exact E.
  - vm_compute in E. discriminate.
Defined.

Definition toy_header : msg_header :=
  {| mh_flags := 0; mh_session_id := 4660; mh_security_flags := 0; mh_message_counter := 9;
     mh_source_node_id := 0; mh_dest_node_id := 0; mh_dest_group_id := 0 |}.

Lemma crypto_open_exact_witness :
  exists buf, crypto_seal toy_header toy_key 1 [1; 2; 3] 27 = Ret buf /\
    crypto_open buf toy_key 1 64 = Ret (toy_header, [1; 2; 3]).
Proof.
  destruct (crypto_seal toy_header toy_key 1 [1; 2; 3] 27) as [buf|s] eqn:E; [|vm_compute in E; discriminate].
  exists buf. split; [reflexivity|]. apply (crypto_open_exact (L := toy_cipher_laws)).
  - vm_compute in E. injection E as <-. apply bytes_all. reflexivity.
  - vm_compute in E. injection E as <-. vm_compute. split; congruence.
  - split; [|split; [vm_compute; congruence|]].
    + unfold msg_header_ok. cbn. split_and!; try done; vm_compute; split; congruence.
    + assert (zlen buf = 27) as ->; [|exact E]. vm_compute in E. injection E as <-. reflexivity.
Defined.

(** ** Nonces *)

Lemma put_le_inj n a b :
  in_u (8 * Z.of_nat n) a -> in_u (8 * Z.of_nat n) b -> put_le n a = put_le n b -> a = b.
Proof. intros Ha Hb H. rewrite <- (get_put_le_id n a), <- (get_put_le_id n b) by done. by rewrite H. Qed.

(** The nonce determines the flags, the counter and the sender. *)
Lemma build_nonce_inj f c n f' c' n' :
  in_u 32 c -> in_u 32 c' -> in_u 64 n -> in_u 64 n' ->
  build_nonce f c n = build_nonce f' c' n' -> f = f' /\ c = c' /\ n = n'.
Proof.
  intros Hc Hc' Hn Hn' H. unfold build_nonce in H. apply app_inj_1 in H as [H0 H]; [|done]. injection H0 as ->.
  apply app_inj_1 in H as [H1 H2]; [|by rewrite !length_put_le].
  split; [done|]. split; [by apply (put_le_inj 4)|by apply (put_le_inj 8)].
Qed.

Lemma length_build_nonce f c n : length (build_nonce f c n) = NONCE_LEN.
Proof. unfold build_nonce. by rewrite !length_app, !length_put_le. Qed.
