(* ===== verification/MatterExchange.v ===== *)
(** * The Matter exchange

    Models the exchange of
    [modules/ultrawidelock_matter/src/matter_exchange.c] and its header: header
    checks, receiving, promotion to a secure session, framing, acknowledgements
    and the cached reply.  The outbound slot pool of the same file is in
    MatterTxPool.  Pointers the callers always pass are not null here; a null
    plaintext buffer, which selects decryption in place, is [None].  Every
    operation returns the exchange it leaves behind on failure as well, because
    several change it before they can fail. *)

From Stdlib Require Import ZArith Lia Bool.
From stdpp Require Import base list numbers option.
From S2P Require Import Prelude Wire MatterStatus MatterMsg MatterMrp MatterCrypto.

Local Open Scope Z_scope.
Local Open Scope uwl_scope.

Definition PROTOCOL_SECURE_CHANNEL : Z := 0x0000.
Definition PROTOCOL_INTERACTION_MODEL : Z := 0x0001.
Definition SESSION_ID_UNSECURED : Z := 0x0000.
Definition SESSION_TYPE_UNICAST : Z := 0x00.
Definition SEC_FLAG_P : Z := 0x80.
Definition SEC_FLAG_MX : Z := 0x20.
Definition PASE_NODE_ID : Z := 0.
Definition SC_OP_ACK : Z := 0x10.
Definition EXCHANGE_REPLAY_MAX : Z := 192.
Definition INIT_EXCHANGE_CAP : Z := 4.

Record exchange := {
  x_secure : bool;
  x_local_session_id : Z;
  x_peer_session_id : Z;
  x_keys : session_keys;
  x_mrp : bool;
  x_peer_node_id : Z;
  x_have_peer_node_id : bool;
  x_local_op_node_id : Z;
  x_peer_op_node_id : Z;
  x_exchange_id : Z;
  x_open : bool;
  x_init_exchange : list Z;
  x_init_exchange_n : Z;
  x_counter : matter_counter;
  x_window : mrp_window;
  x_ack_counter : Z;
  x_ack_pending : bool;
  x_replay : list Z;
  x_replay_len : Z;
  x_replay_peer_counter : Z;
  x_replay_out_counter : Z;
}.

#[export] Instance exchange_eta : Eta exchange := fun x =>
  {| x_secure := x_secure x; x_local_session_id := x_local_session_id x;
     x_peer_session_id := x_peer_session_id x; x_keys := x_keys x; x_mrp := x_mrp x;
     x_peer_node_id := x_peer_node_id x; x_have_peer_node_id := x_have_peer_node_id x;
     x_local_op_node_id := x_local_op_node_id x; x_peer_op_node_id := x_peer_op_node_id x;
     x_exchange_id := x_exchange_id x; x_open := x_open x;
     x_init_exchange := x_init_exchange x; x_init_exchange_n := x_init_exchange_n x;
     x_counter := x_counter x; x_window := x_window x; x_ack_counter := x_ack_counter x;
     x_ack_pending := x_ack_pending x; x_replay := x_replay x; x_replay_len := x_replay_len x;
     x_replay_peer_counter := x_replay_peer_counter x;
     x_replay_out_counter := x_replay_out_counter x |}.

(** What a received message says, as its caller sees it. *)
Record exchange_in := {
  in_opcode : Z;
  in_protocol_id : Z;
  in_exchange_id : Z;
  in_initiator : bool;
  in_payload : list Z;
  in_ack_requested : bool;
  in_carries_ack : bool;
  in_acked_counter : Z;
  in_message_counter : Z;
}.

#[export] Instance exchange_in_eta : Eta exchange_in := fun i =>
  {| in_opcode := in_opcode i; in_protocol_id := in_protocol_id i;
     in_exchange_id := in_exchange_id i; in_initiator := in_initiator i;
     in_payload := in_payload i; in_ack_requested := in_ack_requested i;
     in_carries_ack := in_carries_ack i; in_acked_counter := in_acked_counter i;
     in_message_counter := in_message_counter i |}.

Definition no_keys : session_keys :=
  {| sk_i2r := replicate KEY_LEN 0; sk_r2i := replicate KEY_LEN 0;
     sk_attestation_challenge := replicate KEY_LEN 0 |}.

Definition empty_in : exchange_in :=
  {| in_opcode := 0; in_protocol_id := 0; in_exchange_id := 0; in_initiator := false;
     in_payload := []; in_ack_requested := false; in_carries_ack := false;
     in_acked_counter := 0; in_message_counter := 0 |}.

Definition exchange_init (entropy : Z) (mrp : bool) : exchange :=
  {| x_secure := false; x_local_session_id := 0; x_peer_session_id := 0; x_keys := no_keys;
     x_mrp := mrp; x_peer_node_id := 0; x_have_peer_node_id := false;
     x_local_op_node_id := 0; x_peer_op_node_id := 0; x_exchange_id := 0; x_open := false;
     x_init_exchange := replicate (Z.to_nat INIT_EXCHANGE_CAP) 0; x_init_exchange_n := 0;
     x_counter := counter_init entropy COUNTER_UNSECURED; x_window := mrp_window_init;
     x_ack_counter := 0; x_ack_pending := false;
     x_replay := replicate (Z.to_nat EXCHANGE_REPLAY_MAX) 0; x_replay_len := 0;
     x_replay_peer_counter := 0; x_replay_out_counter := 0 |}.

Definition check_msg_header (x : exchange) (h : msg_header) : matter_status :=
  if (if x_secure x then negb (mh_session_id h =? x_local_session_id x)
      else negb (mh_session_id h =? SESSION_ID_UNSECURED)) then MATTER_E_INVAL
  else if negb (Z.land (mh_security_flags h) SEC_SESSION_TYPE_MASK =? SESSION_TYPE_UNICAST)
  then MATTER_E_INVAL
  else if negb (Z.land (mh_security_flags h) (Z.lor SEC_FLAG_P SEC_FLAG_MX) =? 0)
  then MATTER_E_INVAL
  else MATTER_OK.

Definition exchange_is_ours (x : exchange) (id : Z) : bool :=
  existsb (fun e => e =? id) (take (Z.to_nat (x_init_exchange_n x)) (x_init_exchange x)).

Definition exchange_remember (x : exchange) (id : Z) : exchange :=
  if exchange_is_ours x id then x else
  if x_init_exchange_n x <? INIT_EXCHANGE_CAP then
    x <| x_init_exchange := <[Z.to_nat (x_init_exchange_n x) := id]> (x_init_exchange x) |>
      <| x_init_exchange_n := x_init_exchange_n x + 1 |>
  else
    x <| x_init_exchange :=
        <[Z.to_nat (INIT_EXCHANGE_CAP - 1) := id]>
          (mem_write 0 (take (Z.to_nat (INIT_EXCHANGE_CAP - 1)) (drop 1 (x_init_exchange x)))
             (x_init_exchange x)) |>.

(** ** Receiving *)

Section Recv.
Context `{C : BlockCipher}.

(** The message header and the cleartext behind it: decrypted on a secure
    session, as it is otherwise. *)
Definition recv_body (x : exchange) (msg : list Z) (in_place : bool) (pt : option Z)
    (mh : msg_header) (mh_len : Z) : res (msg_header * list Z) :=
  if x_secure x then
    match (match pt with
           | Some cap => Some cap
           | None => if in_place then Some (usize (zlen msg - mh_len)) else None
           end) with
    | None => Fail MATTER_E_INVAL
    | Some cap => crypto_open msg (sk_i2r (x_keys x)) (x_peer_op_node_id x) cap
    end
  else Ret (mh, drop (Z.to_nat mh_len) msg).

(** Which exchange the message belongs to; [None] is a refusal. *)
Definition recv_adopt (x : exchange) (id : Z) (initiator : bool) : option exchange :=
  if negb (x_open x) then Some (x <| x_exchange_id := id |> <| x_open := true |>)
  else if negb (id =? x_exchange_id x) then
    if negb initiator && exchange_is_ours x id then Some x
    else if negb (x_secure x) || negb initiator then None
    else Some (x <| x_exchange_id := id |> <| x_ack_pending := false |>)
  else Some x.

(** Keep the initiator's ephemeral node id. *)
Definition note_source (x : exchange) (mh : msg_header) : exchange :=
  if has_flag (mh_flags mh) MSG_FLAG_S
  then x <| x_peer_node_id := mh_source_node_id mh |> <| x_have_peer_node_id := true |>
  else x.

(** The cached reply is spent once the peer acknowledges it. *)
Definition spend_replay (x : exchange) (carries_ack : bool) (acked_counter : Z) : exchange :=
  if carries_ack && negb (x_replay_len x =? 0) && (acked_counter =? x_replay_out_counter x)
  then x <| x_replay_len := 0 |> else x.

Definition owe_ack (x : exchange) (ack_requested : bool) (counter : Z) : exchange :=
  if x_mrp x && ack_requested
  then x <| x_ack_counter := counter |> <| x_ack_pending := true |>
  else x.

(** From the adopted exchange to the replay window. *)
Definition recv_deliver (x : exchange) (mh : msg_header) (ph : proto_header) (payload : list Z)
    (inn : exchange_in) : exchange * exchange_in * matter_status :=
  let x := note_source x mh in
  let inn := inn <| in_payload := payload |>
                 <| in_ack_requested := has_flag (ph_exchange_flags ph) EX_FLAG_R |>
                 <| in_carries_ack := has_flag (ph_exchange_flags ph) EX_FLAG_A |>
                 <| in_acked_counter := ph_ack_counter ph |>
                 <| in_message_counter := mh_message_counter mh |> in
  let x := spend_replay x (in_carries_ack inn) (in_acked_counter inn) in
  let x := owe_ack x (in_ack_requested inn) (mh_message_counter mh) in
  match mrp_window_check (x_window x) (mh_message_counter mh) with
  | MATTER_OK =>
      (x <| x_window := mrp_window_commit (x_window x) (mh_message_counter mh) |>, inn, MATTER_OK)
  | rc => (x, inn, rc)
  end.

Definition recv_impl (x : exchange) (msg : list Z) (in_place : bool) (pt : option Z)
    : exchange * exchange_in * matter_status :=
  match msg_header_decode msg with
  | Fail rc => (x, empty_in, rc)
  | Ret (mh, mh_len) =>
      match check_msg_header x mh with
      | MATTER_OK =>
          match recv_body x msg in_place pt mh mh_len with
          | Fail rc => (x, empty_in, rc)
          | Ret (mh, body) =>
              match proto_header_decode body with
              | Fail rc => (x, empty_in, rc)
              | Ret (ph, ph_len) =>
                  if negb (ph_protocol_id ph =? PROTOCOL_SECURE_CHANNEL) &&
                     negb (x_secure x && (ph_protocol_id ph =? PROTOCOL_INTERACTION_MODEL))
                  then (x, empty_in, MATTER_E_INVAL)
                  else if has_flag (ph_exchange_flags ph) EX_FLAG_V
                  then (x, empty_in, MATTER_E_INVAL)
                  else
                    let inn := empty_in <| in_opcode := ph_opcode ph |>
                                        <| in_protocol_id := ph_protocol_id ph |>
                                        <| in_exchange_id := ph_exchange_id ph |>
                                        <| in_initiator := has_flag (ph_exchange_flags ph) EX_FLAG_I |> in
                    match recv_adopt x (ph_exchange_id ph) (in_initiator inn) with
                    | None => (x, inn, MATTER_E_STATE)
                    | Some x => recv_deliver x mh ph (drop (Z.to_nat ph_len) body) inn
                    end
              end
          end
      | rc => (x, empty_in, rc)
      end
  end.

Definition exchange_recv (x : exchange) (msg : list Z) (pt : option Z) :=
  recv_impl x msg false pt.

Definition exchange_recv_in_place (x : exchange) (msg : list Z) :=
  recv_impl x msg true None.

(** ** Sessions *)

Definition exchange_promote (x : exchange) (local_id peer_id : Z) (keys : session_keys)
    (entropy : Z) : exchange * matter_status :=
  if local_id =? SESSION_ID_UNSECURED then (x, MATTER_E_INVAL) else
  (x <| x_secure := true |> <| x_local_session_id := local_id |>
     <| x_peer_session_id := peer_id |> <| x_keys := keys |>
     <| x_counter := counter_init entropy COUNTER_SESSION |>
     <| x_window := mrp_window_init |>
     <| x_local_op_node_id := PASE_NODE_ID |> <| x_peer_op_node_id := PASE_NODE_ID |>
     <| x_open := false |> <| x_ack_pending := false |> <| x_replay_len := 0 |>, MATTER_OK).

Definition exchange_set_op_node_ids (x : exchange) (local peer : Z) : exchange :=
  x <| x_local_op_node_id := local |> <| x_peer_op_node_id := peer |>.

Definition exchange_open_initiator (local_id peer_id exchange_id : Z) (keys : session_keys)
    (entropy : Z) : exchange * matter_status :=
  let x := exchange_init entropy true in
  match exchange_promote x local_id peer_id keys entropy with
  | (x, MATTER_OK) => (x <| x_open := true |> <| x_exchange_id := exchange_id |>, MATTER_OK)
  | (x, rc) => (x, rc)
  end.

(** ** Framing *)

Definition frame_msg_header (x : exchange) (counter : Z) : msg_header :=
  {| mh_flags := if x_secure x then MSG_DSIZ_NONE
                 else if x_have_peer_node_id x then MSG_DSIZ_NODE else MSG_DSIZ_NONE;
     mh_session_id := if x_secure x then x_peer_session_id x else SESSION_ID_UNSECURED;
     mh_security_flags := SESSION_TYPE_UNICAST;
     mh_message_counter := counter;
     mh_source_node_id := 0;
     mh_dest_node_id := if negb (x_secure x) && x_have_peer_node_id x then x_peer_node_id x else 0;
     mh_dest_group_id := 0 |}.

Definition frame_proto_header (x : exchange) (protocol_id opcode : Z)
    (reliable as_initiator carry_initiator_ack : bool) (init_exchange_id : Z) : proto_header :=
  let flags := if as_initiator then EX_FLAG_I else 0 in
  let flags := if reliable && x_mrp x then Z.lor flags EX_FLAG_R else flags in
  let acks := (negb as_initiator || carry_initiator_ack) && x_mrp x && x_ack_pending x in
  {| ph_exchange_flags := if acks then Z.lor flags EX_FLAG_A else flags;
     ph_opcode := opcode;
     ph_exchange_id := if as_initiator then init_exchange_id else x_exchange_id x;
     ph_vendor_id := 0;
     ph_protocol_id := protocol_id;
     ph_ack_counter := if acks then x_ack_counter x else 0 |}.

(** Both headers and the payload in the caller's buffer, sealed where they
    lie when the session is secure. *)
Definition frame_encode (x : exchange) (mh : msg_header) (ph : proto_header) (payload : list Z)
    (cap : Z) : res (list Z) :=
  (let* mhb := msg_header_encode mh cap in
   let* phb := proto_header_encode ph (usize (cap - zlen mhb)) in
   let* _ := guard_res (usize (cap - zlen mhb - zlen phb) <? zlen payload) MATTER_E_NOSPACE in
   if x_secure x
   then crypto_seal mh (sk_r2i (x_keys x)) (x_local_op_node_id x) (phb ++ payload) cap
   else Ret (mhb ++ phb ++ payload))%res.

Definition frame_cache (x : exchange) (out : list Z) (reply_to counter : Z) : exchange :=
  if zlen out <=? EXCHANGE_REPLAY_MAX then
    x <| x_replay := mem_write 0 out (x_replay x) |> <| x_replay_len := u16 (zlen out) |>
      <| x_replay_peer_counter := reply_to |> <| x_replay_out_counter := counter |>
  else x <| x_replay_len := 0 |>.

Definition frame (x : exchange) (protocol_id opcode : Z)
    (reliable as_initiator carry_initiator_ack : bool) (init_exchange_id : Z)
    (payload : list Z) (cap : Z) : exchange * res (list Z) :=
  if negb (x_open x) then (x, Fail MATTER_E_STATE) else
  let cache_reply := reliable && negb as_initiator && x_mrp x && x_ack_pending x in
  let reply_to_counter := if cache_reply then x_ack_counter x else 0 in
  match counter_next (x_counter x) with
  | Fail rc => (x, Fail rc)
  | Ret (c, counter) =>
      let x := x <| x_counter := c |> in
      let mh := frame_msg_header x counter in
      let ph := frame_proto_header x protocol_id opcode reliable as_initiator
                  carry_initiator_ack init_exchange_id in
      let x := if as_initiator then exchange_remember x init_exchange_id else x in
      match frame_encode x mh ph payload cap with
      | Fail rc => (x, Fail rc)
      | Ret out =>
          let x := if cache_reply then frame_cache x out reply_to_counter counter else x in
          let x := if negb as_initiator || carry_initiator_ack
                   then x <| x_ack_pending := false |> else x in
          (x, Ret out)
      end
  end.

Definition exchange_reply (x : exchange) (opcode : Z) (payload : list Z) (cap : Z) :=
  frame x PROTOCOL_SECURE_CHANNEL opcode true false false 0 payload cap.

Definition exchange_send (x : exchange) (protocol_id opcode : Z) (payload : list Z) (cap : Z) :=
  frame x protocol_id opcode true false false 0 payload cap.

Definition exchange_send_initiator (x : exchange) (exchange_id protocol_id opcode : Z)
    (payload : list Z) (cap : Z) :=
  frame x protocol_id opcode true true false exchange_id payload cap.

Definition exchange_continue_initiator (x : exchange) (exchange_id protocol_id opcode : Z)
    (payload : list Z) (cap : Z) : exchange * res (list Z) :=
  if negb (x_open x) || negb (x_secure x) || negb (x_mrp x) || negb (x_ack_pending x)
  then (x, Fail MATTER_E_STATE)
  else frame x protocol_id opcode true true true exchange_id payload cap.

Definition exchange_standalone_ack (x : exchange) (cap : Z) : exchange * res (list Z) :=
  if negb (x_mrp x) || negb (x_ack_pending x) then (x, Fail MATTER_E_STATE)
  else frame x PROTOCOL_SECURE_CHANNEL SC_OP_ACK false false false 0 [] cap.

Definition exchange_replay (x : exchange) (cap : Z) : exchange * res (list Z) :=
  if negb (x_mrp x) || negb (x_ack_pending x) || (x_replay_len x =? 0) ||
     negb (x_replay_peer_counter x =? x_ack_counter x) then (x, Fail MATTER_E_STATE)
  else if cap <? x_replay_len x then (x, Fail MATTER_E_NOSPACE)
  else (x <| x_ack_pending := false |>, Ret (take (Z.to_nat (x_replay_len x)) (x_replay x))).

Definition exchange_ack_initiator (x : exchange) (exchange_id : Z) (cap : Z)
    : exchange * res (list Z) :=
  if negb (x_secure x) || negb (x_mrp x) || negb (x_ack_pending x)
  then (x, Fail MATTER_E_STATE) else
  match counter_next (x_counter x) with
  | Fail rc => (x, Fail rc)
  | Ret (c, counter) =>
      let x := x <| x_counter := c |> in
      let mh := {| mh_flags := MSG_DSIZ_NONE; mh_session_id := x_peer_session_id x;
                   mh_security_flags := SESSION_TYPE_UNICAST; mh_message_counter := counter;
                   mh_source_node_id := 0; mh_dest_node_id := 0; mh_dest_group_id := 0 |} in
      let ph := {| ph_exchange_flags := Z.lor EX_FLAG_I EX_FLAG_A; ph_opcode := SC_OP_ACK;
                   ph_exchange_id := exchange_id; ph_vendor_id := 0;
                   ph_protocol_id := PROTOCOL_SECURE_CHANNEL; ph_ack_counter := x_ack_counter x |} in
      match (let* mhb := msg_header_encode mh cap in
             let* phb := proto_header_encode ph (usize (cap - zlen mhb)) in
             crypto_seal mh (sk_r2i (x_keys x)) (x_local_op_node_id x) phb cap)%res with
      | Fail rc => (x, Fail rc)
      | Ret out => (x <| x_ack_pending := false |>, Ret out)
      end
  end.
End Recv.
