(* ===== verification/MatterExchangeTypes.v ===== *)
(** * The type invariant of the Matter exchange

    What each operation of MatterExchange changes, case by case, and the
    invariant that every field stays within its C type. *)

From Stdlib Require Import ZArith Lia Bool.
From stdpp Require Import base list numbers option.
From S2P Require Import Prelude Wire MatterStatus MatterMsg MatterMrp MatterCrypto MatterExchange.

Local Open Scope Z_scope.
Local Open Scope uwl_scope.

(** ** The types of the fields *)

Record window_ok (w : mrp_window) : Prop := {
  wo_max : in_u 32 (w_max w);
  wo_bitmap : in_u 32 (w_bitmap w);
}.

Record exchange_ok (x : exchange) : Prop := {
  xo_local : in_u 16 (x_local_session_id x);
  xo_peer : in_u 16 (x_peer_session_id x);
  xo_peer_node : in_u 64 (x_peer_node_id x);
  xo_local_op : in_u 64 (x_local_op_node_id x);
  xo_peer_op : in_u 64 (x_peer_op_node_id x);
  xo_id : in_u 16 (x_exchange_id x);
  xo_init_len : length (x_init_exchange x) = Z.to_nat INIT_EXCHANGE_CAP;
  xo_init : Forall (in_u 16) (x_init_exchange x);
  xo_init_n : 0 <= x_init_exchange_n x <= INIT_EXCHANGE_CAP;
  xo_counter : in_u 32 (mc_last_used (x_counter x));
  xo_window : window_ok (x_window x);
  xo_ack : in_u 32 (x_ack_counter x);
  xo_replay : length (x_replay x) = Z.to_nat EXCHANGE_REPLAY_MAX;
  xo_replay_bytes : Forall byte_ok (x_replay x);
  xo_replay_len : 0 <= x_replay_len x <= EXCHANGE_REPLAY_MAX;
  xo_replay_peer : in_u 32 (x_replay_peer_counter x);
  xo_replay_out : in_u 32 (x_replay_out_counter x);
}.

Lemma in_u_0 w : 0 <= w -> in_u w 0.
Proof. intros. unfold in_u. split; [lia|]. apply Z.pow_pos_nonneg; lia. Qed.

Lemma replay_len_0 : 0 <= 0 <= EXCHANGE_REPLAY_MAX.
Proof. unfold EXCHANGE_REPLAY_MAX. lia. Qed.

Create HintDb exchange.

#[export] Hint Resolve in_u_0 replay_len_0 xo_local xo_peer xo_peer_node xo_local_op xo_peer_op xo_id xo_init_len
  xo_init xo_init_n xo_counter xo_window xo_ack xo_replay xo_replay_bytes xo_replay_len
  xo_replay_peer xo_replay_out : exchange.

(** Most updates leave most fields alone. *)
Ltac proj_in_goal :=
  cbn [field_set x_secure x_local_session_id x_peer_session_id x_keys x_mrp x_peer_node_id
       x_have_peer_node_id x_local_op_node_id x_peer_op_node_id x_exchange_id x_open x_init_exchange
       x_init_exchange_n x_counter x_window x_ack_counter x_ack_pending x_replay x_replay_len
       x_replay_peer_counter x_replay_out_counter].

Ltac fields := constructor; proj_in_goal; eauto with exchange.

Lemma counter_init_ok entropy kind : 0 <= entropy -> in_u 32 (mc_last_used (counter_init entropy kind)).
Proof. intros H. pose proof (counter_init_range entropy kind H). unfold in_u. lia. Qed.

Lemma window_init_ok : window_ok mrp_window_init.
Proof. by constructor. Qed.

Lemma exchange_init_ok entropy mrp : 0 <= entropy -> exchange_ok (exchange_init entropy mrp).
Proof.
  intros H. constructor; cbn; try (by apply in_u_0); try done.
  - by repeat constructor.
  - by apply (counter_init_ok entropy COUNTER_UNSECURED).
  - by apply Forall_replicate.
Qed.

Lemma counter_next_ok c c' v :
  counter_next c = Ret (c', v) -> mc_last_used c' = v /\ in_u 32 v /\ mc_kind c' = mc_kind c.
Proof.
  unfold counter_next. intros H. apply res_bind_Ret in H as ([] & _ & H). injection H as <- <-.
  split_and!; [done| |done]. apply wrap_range. lia.
Qed.

Lemma window_commit_ok w c : window_ok w -> in_u 32 c -> window_ok (mrp_window_commit w c).
Proof.
  intros [Hm Hb] Hc. unfold mrp_window_commit.
  repeat case_match; constructor; cbn; try done; try (by apply in_u_0);
    try (apply wrap_range; lia); apply lor_in_u; try done; try (apply wrap_range; lia); by apply in_u_0.
Qed.

Lemma remember_ok x id : exchange_ok x -> in_u 16 id -> exchange_ok (exchange_remember x id).
Proof.
  intros Hx Hid. pose proof (xo_init_len x Hx) as Hl. pose proof (xo_init x Hx) as Hi.
  pose proof (xo_init_n x Hx) as Hn. unfold INIT_EXCHANGE_CAP in *. change (Z.to_nat 4) with 4%nat in *.
  unfold exchange_remember, INIT_EXCHANGE_CAP. destruct (exchange_is_ours x id); [done|].
  assert (forall l, Forall (in_u 16) l -> forall i, Forall (in_u 16) (<[i:=id]> l)) as Hins
    by (intros; by apply Forall_insert).
  destruct (Z.ltb_spec (x_init_exchange_n x) 4); fields; try (unfold INIT_EXCHANGE_CAP; lia).
  - by rewrite length_insert.
  - rewrite length_insert. destruct (x_init_exchange x) as [|a [|b [|c [|d [|]]]]]; done.
  - apply Hins. unfold mem_write. rewrite !Forall_app. auto 6 using Forall_take, Forall_drop.
Qed.

(** ** The operations on an exchange *)

Section Ops.
Context `{C : BlockCipher}.

Inductive exchange_op :=
  | OpRecv (msg : list Z) (pt : option Z)
  | OpRecvInPlace (msg : list Z)
  | OpReply (opcode : Z) (payload : list Z) (cap : Z)
  | OpSend (protocol_id opcode : Z) (payload : list Z) (cap : Z)
  | OpSendInitiator (exchange_id protocol_id opcode : Z) (payload : list Z) (cap : Z)
  | OpContinueInitiator (exchange_id protocol_id opcode : Z) (payload : list Z) (cap : Z)
  | OpStandaloneAck (cap : Z)
  | OpReplay (cap : Z)
  | OpAckInitiator (exchange_id cap : Z)
  | OpSetNodeIds (local peer : Z).

Definition sent_of (r : exchange * res (list Z)) : exchange * option (list Z) * option exchange_in :=
  (r.1, match r.2 with Ret out => Some out | Fail _ => None end, None).

Definition got_of (r : exchange * exchange_in * matter_status)
    : exchange * option (list Z) * option exchange_in :=
  (r.1.1, None, match r.2 with MATTER_OK => Some r.1.2 | _ => None end).

(** One operation: the exchange after it, the bytes it sent and the message
    it delivered, if any. *)
Definition exchange_apply (x : exchange) (op : exchange_op)
    : exchange * option (list Z) * option exchange_in :=
  match op with
  | OpRecv msg pt => got_of (exchange_recv x msg pt)
  | OpRecvInPlace msg => got_of (exchange_recv_in_place x msg)
  | OpReply o p cap => sent_of (exchange_reply x o p cap)
  | OpSend pr o p cap => sent_of (exchange_send x pr o p cap)
  | OpSendInitiator i pr o p cap => sent_of (exchange_send_initiator x i pr o p cap)
  | OpContinueInitiator i pr o p cap => sent_of (exchange_continue_initiator x i pr o p cap)
  | OpStandaloneAck cap => sent_of (exchange_standalone_ack x cap)
  | OpReplay cap => sent_of (exchange_replay x cap)
  | OpAckInitiator i cap => sent_of (exchange_ack_initiator x i cap)
  | OpSetNodeIds l p => (exchange_set_op_node_ids x l p, None, None)
  end.

(** Arguments of the C types. *)
Definition op_ok (op : exchange_op) : Prop :=
  match op with
  | OpRecv msg _ | OpRecvInPlace msg => Forall byte_ok msg /\ in_u 32 (zlen msg)
  | OpReply o p cap => byte_ok o /\ Forall byte_ok p /\ in_u 32 cap
  | OpSend pr o p cap => in_u 16 pr /\ byte_ok o /\ Forall byte_ok p /\ in_u 32 cap
  | OpSendInitiator i pr o p cap | OpContinueInitiator i pr o p cap =>
      in_u 16 i /\ in_u 16 pr /\ byte_ok o /\ Forall byte_ok p /\ in_u 32 cap
  | OpStandaloneAck cap | OpReplay cap => in_u 32 cap
  | OpAckInitiator i cap => in_u 16 i /\ in_u 32 cap
  | OpSetNodeIds l p => in_u 64 l /\ in_u 64 p
  end.

(** A run: the exchange, what it sent and what it delivered, newest first. *)
Fixpoint exchange_run (x : exchange) (ops : list exchange_op) (sent : list (list Z))
    (got : list exchange_in) : exchange * list (list Z) * list exchange_in :=
  match ops with
  | [] => (x, sent, got)
  | op :: rest =>
      let '(x', s, g) := exchange_apply x op in
      exchange_run x' rest (option_list s ++ sent) (option_list g ++ got)
  end.

(** ** What the operations change *)

Lemma recv_adopt_cases x id init x' :
  recv_adopt x id init = Some x' ->
  x' = x \/ x' = x <| x_exchange_id := id |> <| x_open := true |> \/
  x' = x <| x_exchange_id := id |> <| x_ack_pending := false |>.
Proof. unfold recv_adopt. intros H. repeat case_match; simplify_eq; auto. Qed.

Lemma recv_adopt_ok x id init x' :
  exchange_ok x -> in_u 16 id -> recv_adopt x id init = Some x' -> exchange_ok x'.
Proof. intros Hx Hid H. apply recv_adopt_cases in H as [->|[->| ->]]; [done|fields|fields]. Qed.

Lemma recv_deliver_ok x mh ph payload inn x' inn' rc :
  exchange_ok x -> msg_header_ok mh -> recv_deliver x mh ph payload inn = (x', inn', rc) ->
  exchange_ok x'.
Proof.
  intros Hx (_ & _ & _ & _ & Hc & Hs & _) H.
  assert (exchange_ok (note_source x mh)) as H1 by (unfold note_source; case_match; [fields|done]).
  assert (forall b a, exchange_ok (spend_replay (note_source x mh) b a)) as H2
    by (intros b a; unfold spend_replay; case_match; [fields|done]).
  assert (forall b a r, exchange_ok
    (owe_ack (spend_replay (note_source x mh) b a) r (mh_message_counter mh))) as H3
    by (intros b a r; unfold owe_ack; case_match; [fields|apply H2]).
  unfold recv_deliver in H. cbv zeta in H. set (x3 := owe_ack _ _ _) in H.
  assert (exchange_ok x3) as H4 by apply H3. clearbody x3.
  assert (exchange_ok (x3 <| x_window := mrp_window_commit (x_window x3) (mh_message_counter mh) |>))
    by (fields; apply window_commit_ok; eauto with exchange).
  destruct (mrp_window_check _ _); by injection H as <- _ _.
Qed.

(** ** Received messages *)

(** The bytes are what the peer sends for this header and cleartext. *)
Definition authentic (x : exchange) (msg : list Z) (mh : msg_header) (body : list Z) : Prop :=
  if x_secure x
  then crypto_seal mh (sk_i2r (x_keys x)) (x_peer_op_node_id x) body (zlen msg) = Ret msg
  else msg = msg_header_bytes mh ++ body.

(** The view of a message before it is delivered. *)
Definition in_view (ph : proto_header) : exchange_in :=
  empty_in <| in_opcode := ph_opcode ph |> <| in_protocol_id := ph_protocol_id ph |>
           <| in_exchange_id := ph_exchange_id ph |>
           <| in_initiator := has_flag (ph_exchange_flags ph) EX_FLAG_I |>.

(** A message that got past the header checks. *)
Record parsed (x : exchange) (msg : list Z) (mh : msg_header) (ph : proto_header)
    (payload : list Z) : Prop := {
  pa_mh : msg_header_ok mh;
  pa_ph : proto_header_ok ph;
  pa_payload : Forall byte_ok payload;
  pa_authentic : authentic x msg mh (proto_header_bytes ph ++ payload);
  pa_session : mh_session_id mh = if x_secure x then x_local_session_id x else SESSION_ID_UNSECURED;
  pa_protocol : ph_protocol_id ph = PROTOCOL_SECURE_CHANNEL \/
                x_secure x = true /\ ph_protocol_id ph = PROTOCOL_INTERACTION_MODEL;
}.
End Ops.

Lemma check_msg_header_session x h : check_msg_header x h = MATTER_OK ->
  mh_session_id h = if x_secure x then x_local_session_id x else SESSION_ID_UNSECURED.
Proof.
  unfold check_msg_header.
  destruct (x_secure x), (Z.eqb_spec (mh_session_id h) (x_local_session_id x)),
    (Z.eqb_spec (mh_session_id h) SESSION_ID_UNSECURED); done.
Qed.

Section Recv.
Context `{L : BlockCipherLaws}.

Lemma recv_body_spec x msg ip pt mh n mh' body :
  Forall byte_ok msg -> in_u 32 (zlen msg) -> msg_header_decode msg = Ret (mh, n) ->
  recv_body x msg ip pt mh n = Ret (mh', body) ->
  mh' = mh /\ Forall byte_ok body /\ authentic x msg mh body.
Proof.
  intros Hb Hu Hd H. destruct (msg_header_enc_dec msg mh n Hb Hd) as (Hok & Hn & Hm).
  unfold recv_body, authentic in *. destruct (x_secure x).
  - destruct (match pt with Some _ => _ | None => _ end) as [cap|]; [|done].
    pose proof (crypto_open_bytes _ _ _ _ _ _ Hb H) as Hbb.
    destruct (crypto_seal_open _ _ _ _ _ _ Hb Hu H) as (Hok' & _ & Hs).
    pose proof (crypto_seal_Ret _ _ _ _ _ _ Hs) as (ct & tag & Hmsg & _).
    assert (mh' = mh) as ->; [|done].
    rewrite Hmsg, msg_header_dec_enc in Hd by done. by injection Hd.
  - injection H as <- <-. split_and!; [done|by apply Forall_drop|done].
Qed.

Lemma recv_cases x msg ip pt x' inn rc :
  Forall byte_ok msg -> in_u 32 (zlen msg) -> recv_impl x msg ip pt = (x', inn, rc) ->
  x' = x /\ rc <> MATTER_OK \/
  exists mh ph payload x1, parsed x msg mh ph payload /\
    recv_adopt x (ph_exchange_id ph) (has_flag (ph_exchange_flags ph) EX_FLAG_I) = Some x1 /\
    recv_deliver x1 mh ph payload (in_view ph) = (x', inn, rc).
Proof.
  intros Hb Hu H. unfold recv_impl in H.
  destruct (msg_header_decode msg) as [[mh n]|s] eqn:Ed.
  2:{ injection H as <- _ <-. left. by destruct (msg_header_decode_fails _ _ Ed). }
  destruct (check_msg_header x mh) eqn:Ec; try (injection H as <- _ <-; by left).
  destruct (recv_body x msg ip pt mh n) as [[mh' body]|s] eqn:Eb.
  2:{ injection H as <- _ <-. left. split; [done|]. unfold recv_body in Eb.
      repeat case_match; simplify_eq; try done; by destruct (crypto_open_fails _ _ _ _ _ Eb). }
  destruct (recv_body_spec x msg ip pt mh n mh' body Hb Hu Ed Eb) as (-> & Hbb & Ha).
  destruct (proto_header_decode body) as [[ph m]|s] eqn:Ep.
  2:{ injection H as <- _ <-. left. by destruct (proto_header_decode_fails _ _ Ep). }
  destruct (proto_header_enc_dec body ph m Hbb Ep) as (Hpok & Hm & Hbody).
  destruct (negb _ && negb _) eqn:Epr; [injection H as <- _ <-; by left|].
  destruct (has_flag (ph_exchange_flags ph) EX_FLAG_V); [injection H as <- _ <-; by left|].
  cbv zeta in H. fold (in_view ph) in H. change (in_initiator (in_view ph)) with (has_flag (ph_exchange_flags ph) EX_FLAG_I) in H.
  destruct (recv_adopt _ _ _) as [x1|] eqn:Ead; [|injection H as <- _ <-; by left].
  right. exists mh, ph, (drop (Z.to_nat m) body), x1. split_and!; [|done|exact H].
  constructor; [by destruct (msg_header_enc_dec msg mh n Hb Ed)|done|by apply Forall_drop| | |].
  - by rewrite <- Hbody.
  - by apply check_msg_header_session.
  - destruct (Z.eqb_spec (ph_protocol_id ph) PROTOCOL_SECURE_CHANNEL); [by left|].
    destruct (x_secure x), (Z.eqb_spec (ph_protocol_id ph) PROTOCOL_INTERACTION_MODEL); try done. by right.
Qed.

Lemma recv_ok x msg ip pt x' inn rc :
  exchange_ok x -> Forall byte_ok msg -> in_u 32 (zlen msg) ->
  recv_impl x msg ip pt = (x', inn, rc) -> exchange_ok x'.
Proof.
  intros Hx Hb Hu H. apply recv_cases in H as [[-> _]|(mh & ph & payload & x1 & Hp & Ha & Hd)]; [done|..|done|done].
  destruct Hp. apply (recv_deliver_ok x1 mh ph payload (in_view ph) x' inn rc); [|done|done].
  eapply recv_adopt_ok; [exact Hx| |exact Ha]. by destruct pa_ph0 as (_ & _ & ? & _).
Qed.
End Recv.

(** ** Framed messages *)

Lemma remember_shape x id : exists l n,
  exchange_remember x id = x <| x_init_exchange := l |> <| x_init_exchange_n := n |>.
Proof.
  unfold exchange_remember. repeat case_match.
  - exists (x_init_exchange x), (x_init_exchange_n x). by destruct x.
  - by eexists _, _.
  - eexists _, (x_init_exchange_n x). reflexivity.
Qed.

Section Frame.
Context `{C : BlockCipher}.

(** The exchange a frame is built from: the counter drawn and the exchange
    remembered. *)
Definition framing (x : exchange) (c : matter_counter) (as_initiator : bool) (id : Z) : exchange :=
  let x := x <| x_counter := c |> in if as_initiator then exchange_remember x id else x.

Definition framed (x : exchange) (cache as_initiator carry : bool) (out : list Z)
    (reply_to counter : Z) : exchange :=
  let x := if cache then frame_cache x out reply_to counter else x in
  if negb as_initiator || carry then x <| x_ack_pending := false |> else x.

Lemma frame_cases x pr op rel init carry id payload cap x' r :
  frame x pr op rel init carry id payload cap = (x', r) ->
  (x' = x /\ exists rc, r = Fail rc) \/
  x_open x = true /\ exists c v, counter_next (x_counter x) = Ret (c, v) /\
    let mh := frame_msg_header x v in
    let ph := frame_proto_header x pr op rel init carry id in
    let cache := rel && negb init && x_mrp x && x_ack_pending x in
    match frame_encode x mh ph payload cap with
    | Fail rc => x' = framing x c init id /\ r = Fail rc
    | Ret out => r = Ret out /\
        x' = framed (framing x c init id) cache init carry out (if cache then x_ack_counter x else 0) v
    end.
Proof.
  unfold frame. intros H. destruct (x_open x) eqn:Eo; cbn [negb] in H.
  2:{ injection H as <- <-. eauto. }
  destruct (counter_next (x_counter x)) as [[c v]|rc] eqn:Ec.
  2:{ injection H as <- <-. eauto. }
  right. split; [done|]. exists c, v. split; [done|]. cbv zeta in *.
  change (if init then exchange_remember (x <| x_counter := c |>) id else x <| x_counter := c |>)
    with (framing x c init id) in H.
  change (frame_msg_header (x <| x_counter := c |>) v) with (frame_msg_header x v) in H.
  change (frame_proto_header (x <| x_counter := c |>) pr op rel init carry id)
    with (frame_proto_header x pr op rel init carry id) in H.
  assert (forall mh ph, frame_encode (framing x c init id) mh ph payload cap =
    frame_encode x mh ph payload cap) as He.
  { intros mh ph. unfold framing. destruct init; [|done].
    by destruct (remember_shape (x <| x_counter := c |>) id) as (l & n & ->). }
  rewrite He in H. destruct (frame_encode _ _ _ _ _); by injection H as <- <-.
Qed.

Lemma framing_ok x c v init id :
  exchange_ok x -> counter_next (x_counter x) = Ret (c, v) -> (init = true -> in_u 16 id) ->
  exchange_ok (framing x c init id).
Proof.
  intros Hx Hc Hid. apply counter_next_ok in Hc as (Hv & Hu & _).
  assert (exchange_ok (x <| x_counter := c |>)) by (fields; by rewrite Hv).
  unfold framing. destruct init; [apply remember_ok; auto|done].
Qed.

Lemma frame_cache_ok x out a b :
  exchange_ok x -> Forall byte_ok out -> in_u 32 a -> in_u 32 b -> exchange_ok (frame_cache x out a b).
Proof.
  intros Hx Hb Ha Hbb. unfold frame_cache. destruct (Z.leb_spec (zlen out) EXCHANGE_REPLAY_MAX); [|fields].
  pose proof (xo_replay x Hx) as Hr. pose proof (zlen_nonneg out). unfold EXCHANGE_REPLAY_MAX in *.
  assert (u16 (zlen out) = zlen out) as E by (apply wrap_id; unfold in_u; lia).
  fields.
  - rewrite length_mem_write; [done|lia|unfold zlen in *; lia].
  - unfold mem_write. rewrite !Forall_app. auto 6 using Forall_take, Forall_drop, xo_replay_bytes.
  - rewrite E. unfold EXCHANGE_REPLAY_MAX. lia.
Qed.
End Frame.

Lemma frame_msg_header_ok x v :
  exchange_ok x -> in_u 32 v -> msg_header_ok (frame_msg_header x v).
Proof.
  intros Hx Hv. pose proof (xo_peer x Hx). pose proof (xo_peer_node x Hx).
  unfold msg_header_ok, frame_msg_header.
  cbn [mh_flags mh_session_id mh_security_flags mh_message_counter mh_source_node_id mh_dest_node_id
       mh_dest_group_id].
  destruct (x_secure x), (x_have_peer_node_id x); cbn [negb andb]; split_and!; try done;
    by apply in_u_0.
Qed.

Lemma frame_proto_header_ok x pr op rel init carry id :
  exchange_ok x -> in_u 16 pr -> byte_ok op -> (init = true -> in_u 16 id) ->
  proto_header_ok (frame_proto_header x pr op rel init carry id).
Proof.
  intros Hx Hp Ho Hid. pose proof (xo_id x Hx). pose proof (xo_ack x Hx).
  unfold proto_header_ok, frame_proto_header. cbv zeta.
  cbn [ph_exchange_flags ph_opcode ph_exchange_id ph_vendor_id ph_protocol_id ph_ack_counter].
  destruct rel, init, carry, (x_mrp x), (x_ack_pending x); cbn [negb andb orb]; split_and!; try done;
    try (by apply in_u_0); by apply Hid.
Qed.

(** The flags a frame carries. *)
Lemma frame_flags x pr op rel init carry id :
  let f := ph_exchange_flags (frame_proto_header x pr op rel init carry id) in
  has_flag f EX_FLAG_I = init /\ has_flag f EX_FLAG_R = rel && x_mrp x /\
  has_flag f EX_FLAG_A = (negb init || carry) && x_mrp x && x_ack_pending x /\
  has_flag f EX_FLAG_V = false.
Proof. by destruct rel, init, carry, x as [? ? ? ? [] ? ? ? ? ? ? ? ? ? ? ? [] ? ? ? ?]. Qed.

Section FrameBytes.
Context `{L : BlockCipherLaws}.

Lemma frame_encode_bytes x mh ph payload cap out :
  msg_header_ok mh -> proto_header_ok ph -> Forall byte_ok payload -> in_u 32 cap ->
  frame_encode x mh ph payload cap = Ret out ->
  Forall byte_ok out /\ in_u 32 (zlen out) /\
  (if x_secure x
   then crypto_seal mh (sk_r2i (x_keys x)) (x_local_op_node_id x) (proto_header_bytes ph ++ payload) cap = Ret out
   else out = msg_header_bytes mh ++ proto_header_bytes ph ++ payload).
Proof.
  intros Hm Hp Hb Hu H. unfold frame_encode in H. pose proof Hm as (_ & Hlen & _).
  apply res_bind_Ret in H as (mhb & He & H). unfold msg_header_encode in He.
  apply res_bind_Ret in He as ([] & _ & He). apply res_bind_Ret in He as ([] & G1 & He). injection He as <-.
  apply guard_res_Ret, Z.ltb_ge in G1.
  apply res_bind_Ret in H as (phb & He & H). unfold proto_header_encode in He.
  apply res_bind_Ret in He as ([] & G2 & He). injection He as <-.
  apply guard_res_Ret, Z.ltb_ge in G2.
  apply res_bind_Ret in H as ([] & G3 & H). apply guard_res_Ret, Z.ltb_ge in G3.
  pose proof (zlen_msg_header mh Hlen) as Z1. pose proof (zlen_proto_header ph) as Z2.
  pose proof (proto_header_len_range (ph_exchange_flags ph)). pose proof (zlen_nonneg payload).
  rewrite (wrap_id 32) in G2 by (unfold in_u in *; lia).
  rewrite (wrap_id 32) in G3 by (unfold in_u in *; lia).
  pose proof (msg_header_bytes_ok mh Hm). pose proof (proto_header_bytes_ok ph Hp).
  destruct (x_secure x).
  - destruct (crypto_seal_size _ _ _ _ _ _ Hm Hu H) as (Hz & Hc & Hob).
    split_and!; [apply Hob, Forall_app; auto| |done].
    unfold in_u in *. pose proof (zlen_nonneg out). lia.
  - apply Ret_inj in H as <-. split_and!; [rewrite !Forall_app; auto| |done].
    rewrite !zlen_app. unfold in_u in *. lia.
Qed.

Lemma frame_ok x pr op rel init carry id payload cap x' r :
  exchange_ok x -> in_u 16 pr -> byte_ok op -> (init = true -> in_u 16 id) ->
  Forall byte_ok payload -> in_u 32 cap ->
  frame x pr op rel init carry id payload cap = (x', r) -> exchange_ok x'.
Proof.
  intros Hx Hp Ho Hid Hb Hu H.
  apply frame_cases in H as [[-> _]|(_ & c & v & Hc & H)]; [done|]. cbv zeta in H.
  pose proof (framing_ok x c v init id Hx Hc Hid) as H1.
  pose proof (counter_next_ok _ _ _ Hc) as (_ & Hv & _).
  destruct (frame_encode _ _ _ _ _) as [out|rc] eqn:Ee; [|by destruct H as [-> _]].
  destruct H as [_ ->]. eapply frame_encode_bytes in Ee as (Hob & _ & _).
  2:{ by apply frame_msg_header_ok. }
  2:{ by apply frame_proto_header_ok. }
  2,3: done.
  - unfold framed. pose proof (xo_ack x Hx).
    set (x2 := if _ && _ && _ then frame_cache _ _ _ _ else _).
    assert (exchange_ok x2) as H2.
    { unfold x2. destruct (rel && negb init && x_mrp x && x_ack_pending x); [|done]. by apply frame_cache_ok. }
    clearbody x2. destruct (negb init || carry); [fields|done].
Qed.

(** An acknowledgement on an exchange this node opened is the frame of an
    unreliable initiator message that carries the ack. *)
Lemma ack_initiator_cases x id cap x' r :
  exchange_ack_initiator x id cap = (x', r) ->
  (x' = x /\ exists rc, r = Fail rc) \/
  x_secure x = true /\ exists c v, counter_next (x_counter x) = Ret (c, v) /\
    match frame_encode x (frame_msg_header x v)
            (frame_proto_header x PROTOCOL_SECURE_CHANNEL SC_OP_ACK false true true id) [] cap with
    | Fail rc => x' = x <| x_counter := c |> /\ r = Fail rc
    | Ret out => r = Ret out /\ x' = x <| x_counter := c |> <| x_ack_pending := false |>
    end.
Proof.
  unfold exchange_ack_initiator. intros H.
  destruct (x_secure x) eqn:Es; cbn [negb orb] in H; [|injection H as <- <-; eauto].
  destruct (x_mrp x) eqn:Em; cbn [negb orb] in H; [|injection H as <- <-; eauto].
  destruct (x_ack_pending x) eqn:Ep; cbn [negb orb] in H; [|injection H as <- <-; eauto].
  destruct (counter_next (x_counter x)) as [[c v]|rc] eqn:Ec; [|injection H as <- <-; eauto].
  right. split; [done|]. exists c, v. split; [done|]. cbv zeta in H. revert H.
  unfold frame_encode, frame_msg_header, frame_proto_header. rewrite Es, Em, Ep. cbn [negb andb orb].
  proj_in_goal. destruct (msg_header_encode _ cap) as [mhb|]; cbn [res_bind]; [|by intros [= <- <-]].
  destruct (proto_header_encode _ _) as [phb|]; cbn [res_bind]; [|by intros [= <- <-]].
  assert ((usize (cap - zlen mhb - zlen phb) <? zlen (@nil Z)) = false) as ->.
  { apply Z.ltb_ge. change (zlen (@nil Z)) with 0. apply (wrap_range 32). lia. }
  cbn [guard_res res_bind].
  rewrite app_nil_r. destruct (crypto_seal _ _ _ _ _); by intros [= <- <-].
Qed.
End FrameBytes.

(** ** The type invariant *)

Definition in_ok (i : exchange_in) : Prop :=
  byte_ok (in_opcode i) /\ in_u 16 (in_protocol_id i) /\ in_u 16 (in_exchange_id i) /\
  Forall byte_ok (in_payload i) /\ in_u 32 (in_acked_counter i) /\ in_u 32 (in_message_counter i).

Section Types.
Context `{L : BlockCipherLaws}.

Lemma recv_deliver_in x mh ph payload inn x' inn' rc :
  recv_deliver x mh ph payload inn = (x', inn', rc) ->
  inn' = inn <| in_payload := payload |>
             <| in_ack_requested := has_flag (ph_exchange_flags ph) EX_FLAG_R |>
             <| in_carries_ack := has_flag (ph_exchange_flags ph) EX_FLAG_A |>
             <| in_acked_counter := ph_ack_counter ph |>
             <| in_message_counter := mh_message_counter mh |>.
Proof. unfold recv_deliver. cbv zeta. destruct (mrp_window_check _ _); by intros [= _ <- _]. Qed.

Lemma recv_in_ok x msg ip pt x' inn :
  Forall byte_ok msg -> in_u 32 (zlen msg) -> recv_impl x msg ip pt = (x', inn, MATTER_OK) -> in_ok inn.
Proof.
  intros Hb Hu H. apply recv_cases in H as [[_ ?]|(mh & ph & payload & x1 & Hp & Ha & Hd)]; [done| |done|done].
  rewrite (recv_deliver_in _ _ _ _ _ _ _ _ Hd). destruct Hp as [(_ & _ & _ & _ & ? & _) (_ & ? & ? & _ & ? & ? & _) ? _ _ _].
  by split_and!.
Qed.

(** The state, the bytes sent and the message delivered are of their types. *)
Definition typed_result (r : exchange * option (list Z) * option exchange_in) : Prop :=
  exchange_ok r.1.1 /\
  (forall out, r.1.2 = Some out -> Forall byte_ok out /\ in_u 32 (zlen out)) /\
  (forall i, r.2 = Some i -> in_ok i).

Lemma frame_typed x pr o rel init carry id p cap :
  exchange_ok x -> in_u 16 pr -> byte_ok o -> (init = true -> in_u 16 id) ->
  Forall byte_ok p -> in_u 32 cap -> typed_result (sent_of (frame x pr o rel init carry id p cap)).
Proof.
  intros Hx Hp Ho Hid Hb Hu. destruct (frame x pr o rel init carry id p cap) as [y r] eqn:E.
  split_and!; cbn [sent_of fst snd]; [by eapply frame_ok| |done].
  intros out Hr. destruct r as [out'|]; [|done]. injection Hr as ->.
  apply frame_cases in E as [[_ [? ?]]|(_ & c & v & Hc & E)]; [done|]. cbv zeta in E.
  destruct (frame_encode _ _ _ _ _) as [out'|] eqn:Ee; [|by destruct E]. destruct E as [[= ->] _].
  eapply frame_encode_bytes in Ee as (? & ? & _);
    [done|apply frame_msg_header_ok|apply frame_proto_header_ok| |]; try done.
  by eapply counter_next_ok.
Qed.

Lemma recv_typed x msg ip pt :
  exchange_ok x -> Forall byte_ok msg -> in_u 32 (zlen msg) -> typed_result (got_of (recv_impl x msg ip pt)).
Proof.
  intros Hx Hb Hu. destruct (recv_impl x msg ip pt) as [[y inn] rc] eqn:E.
  split_and!; cbn [got_of fst snd]; [by eapply recv_ok|done|].
  intros i Hi. destruct rc; simplify_eq. by eapply recv_in_ok.
Qed.

Lemma ack_initiator_typed x i cap :
  exchange_ok x -> in_u 16 i -> in_u 32 cap -> typed_result (sent_of (exchange_ack_initiator x i cap)).
Proof.
  intros Hx Hi Hu. destruct (exchange_ack_initiator x i cap) as [y r] eqn:E. unfold typed_result.
  cbn [sent_of fst snd].
  apply ack_initiator_cases in E as [[-> [rc ->]]|(_ & c & v & Hc & E)]; [done|].
  destruct (counter_next_ok _ _ _ Hc) as (Hcv & Hv & _).
  destruct (frame_encode _ _ _ _ _) as [out|rc] eqn:Ee; destruct E as [E1 E2]; simplify_eq.
  - eapply frame_encode_bytes in Ee as (? & ? & _);
      [|by apply frame_msg_header_ok|by apply frame_proto_header_ok|done..].
    split_and!; [fields; by rewrite Hcv| |done]. by intros ? [= <-].
  - split_and!; [fields; by rewrite Hcv|done|done].
Qed.

Lemma apply_typed x op : exchange_ok x -> op_ok op -> typed_result (exchange_apply x op).
Proof.
  intros Hx Hop. assert (typed_result (sent_of (x, Fail MATTER_E_STATE))) as Hno by done.
  destruct op as [msg pt|msg|o p cap|pr o p cap|i pr o p cap|i pr o p cap|cap|cap|i cap|l p];
    cbn [exchange_apply op_ok] in *; destruct_and?.
  1,2: by apply recv_typed.
  1-3: by apply frame_typed.
  - unfold exchange_continue_initiator. case_match; [done|]. by apply frame_typed.
  - unfold exchange_standalone_ack. case_match; [done|]. by apply frame_typed.
  - unfold exchange_replay. case_match; [done|]. case_match; [done|]. pose proof (xo_replay x Hx) as Hl.
    split_and!; cbn [sent_of fst snd]; [fields| |done]. intros out [= <-].
    split; [apply Forall_take; eauto with exchange|].
    unfold in_u, zlen, EXCHANGE_REPLAY_MAX in *. rewrite length_take. lia.
  - by apply ack_initiator_typed.
  - unfold exchange_set_op_node_ids. split_and!; cbn [fst snd]; [fields|done|done].
Qed.

Lemma promote_ok x l p k e :
  exchange_ok x -> in_u 16 l -> in_u 16 p -> 0 <= e -> exchange_ok (exchange_promote x l p k e).1.
Proof.
  intros Hx Hl Hp He. unfold exchange_promote. case_match; [done|]. cbn [fst].
  pose proof (counter_init_ok e COUNTER_SESSION He). pose proof window_init_ok. fields; by apply in_u_0.
Qed.

(** C38: Every operation keeps every field within its C type and array
    bounds: initialising and promoting establish the invariant, each receive,
    frame, acknowledgement, cached reply and node-id update preserves it, the
    bytes sent are octets of a 32-bit length, and a delivered message has
    fields of their declared widths. *)
Theorem exchange_types x op entropy mrp local_id peer_id keys :
  exchange_ok x -> op_ok op -> 0 <= entropy -> in_u 16 local_id -> in_u 16 peer_id ->
  exchange_ok (exchange_init entropy mrp) /\
  exchange_ok (exchange_promote x local_id peer_id keys entropy).1 /\
  typed_result (exchange_apply x op).
Proof.
  intros Hx Hop He Hl Hp. split; [by apply exchange_init_ok|]. split; [by apply promote_ok|].
  by apply apply_typed.
Qed.
End Types.

Definition sample_keys : session_keys :=
  {| sk_i2r := replicate 16 3; sk_r2i := replicate 16 4; sk_attestation_challenge := replicate 16 5 |}.

Lemma exchange_types_witness :
  typed_result (exchange_apply (C := toy_cipher) (exchange_promote (exchange_init 5 true) 2 1 sample_keys 9).1
    (OpReply 8 [1; 2] 64)).
Proof.
  apply (exchange_types (L := toy_cipher_laws) (exchange_promote (exchange_init 5 true) 2 1 sample_keys 9).1
    (OpReply 8 [1; 2] 64) 0 true 2 1 sample_keys).
  - apply promote_ok; [by apply exchange_init_ok|vm_compute; split; congruence..|lia].
  - cbn. split_and!; [vm_compute; split; congruence|apply bytes_all; reflexivity|vm_compute; split; congruence].
  - lia.
  - vm_compute; split; congruence.
  - vm_compute; split; congruence.
Defined.
