(* ===== verification/MatterExchangeProps.v ===== *)
(** * From one node to the other

    What one node frames the other receives, once; a forged message changes
    nothing; a session delivers no message twice. *)

From Stdlib Require Import ZArith Lia Bool.
From stdpp Require Import base list numbers option.
From S2P Require Import Prelude Wire MatterStatus MatterMsg MatterMrp MatterCrypto MatterExchange MatterExchangeTypes.

Local Open Scope Z_scope.
Local Open Scope uwl_scope.

(** ** From one node to the other *)

(** The receiver has room for the cleartext. *)
Definition has_room (ip : bool) (pt : option Z) (n : Z) : Prop :=
  match pt with Some cap => n <= cap | None => ip = true end.

(** The two ends of a session: what [a] sends is addressed to and keyed for
    [b]. *)
Definition linked (a b : exchange) : Prop :=
  x_secure a = x_secure b /\
  (x_secure a = true -> x_peer_session_id a = x_local_session_id b /\
     sk_r2i (x_keys a) = sk_i2r (x_keys b) /\ x_local_op_node_id a = x_peer_op_node_id b).

(** The message a frame is received as. *)
Definition frame_view (x : exchange) (pr op : Z) (rel init carry : bool) (id : Z) (payload : list Z)
    (counter : Z) : exchange_in :=
  let acks := (negb init || carry) && x_mrp x && x_ack_pending x in
  {| in_opcode := op; in_protocol_id := pr;
     in_exchange_id := if init then id else x_exchange_id x; in_initiator := init;
     in_payload := payload; in_ack_requested := rel && x_mrp x; in_carries_ack := acks;
     in_acked_counter := if acks then x_ack_counter x else 0; in_message_counter := counter |}.

Section Link.
Context `{L : BlockCipherLaws}.

Lemma authentic_body x msg mh body ip pt :
  msg_header_ok mh -> in_u 32 (zlen msg) -> has_room ip pt (zlen body) -> authentic x msg mh body ->
  recv_body x msg ip pt mh (zlen (msg_header_bytes mh)) = Ret (mh, body).
Proof.
  intros Hm Hu Hr Ha. unfold recv_body, authentic in *. destruct (x_secure x).
  - assert (forall cap, zlen body <= cap ->
      crypto_open msg (sk_i2r (x_keys x)) (x_peer_op_node_id x) cap = Ret (mh, body)) as Ho.
    { intros cap Hc. by eapply crypto_open_seal. }
    destruct pt as [cap|]; cbn [has_room] in Hr; [by apply Ho|]. rewrite Hr. apply Ho.
    destruct (crypto_seal_size _ _ _ _ _ _ Hm Hu Ha) as (Hz & _ & _).
    pose proof Hm as (_ & Hlen & _). rewrite (zlen_msg_header mh Hlen). pose proof (zlen_nonneg body).
    rewrite (wrap_id 32) by (unfold in_u in *; lia). lia.
  - rewrite Ha. unfold zlen. by rewrite Nat2Z.id, drop_app_length.
Qed.

Lemma authentic_decode x msg mh body :
  msg_header_ok mh -> authentic x msg mh body ->
  msg_header_decode msg = Ret (mh, zlen (msg_header_bytes mh)).
Proof.
  intros Hm Ha. unfold authentic in Ha. destruct (x_secure x).
  - apply crypto_seal_Ret in Ha as (ct & tag & -> & _). by apply msg_header_dec_enc.
  - rewrite Ha. by apply msg_header_dec_enc.
Qed.

(** Receiving what the peer sends. *)
Lemma recv_authentic x msg mh ph payload ip pt :
  parsed x msg mh ph payload -> in_u 32 (zlen msg) ->
  mh_security_flags mh = SESSION_TYPE_UNICAST -> has_flag (ph_exchange_flags ph) EX_FLAG_V = false ->
  has_room ip pt (zlen (proto_header_bytes ph ++ payload)) ->
  recv_impl x msg ip pt =
  match recv_adopt x (ph_exchange_id ph) (has_flag (ph_exchange_flags ph) EX_FLAG_I) with
  | None => (x, in_view ph, MATTER_E_STATE)
  | Some x1 => recv_deliver x1 mh ph payload (in_view ph)
  end.
Proof.
  intros [Hm Hp _ Ha Hs Hpr] Hu Hsec Hv Hr. unfold recv_impl.
  rewrite (authentic_decode x msg mh _ Hm Ha).
  assert (check_msg_header x mh = MATTER_OK) as ->.
  { unfold check_msg_header. rewrite Hsec, Hs. by destruct (x_secure x); rewrite Z.eqb_refl. }
  rewrite (authentic_body x msg mh _ ip pt Hm Hu Hr Ha), proto_header_dec_enc by done.
  assert (negb (ph_protocol_id ph =? PROTOCOL_SECURE_CHANNEL) &&
    negb (x_secure x && (ph_protocol_id ph =? PROTOCOL_INTERACTION_MODEL)) = false) as ->
    by (by destruct Hpr as [->|[-> ->]]).
  rewrite Hv. cbv zeta. unfold zlen. rewrite Nat2Z.id, drop_app_length. done.
Qed.

Lemma frame_parsed a b pr op rel init carry id payload cap a' out :
  exchange_ok a -> linked a b -> in_u 16 pr -> byte_ok op -> (init = true -> in_u 16 id) ->
  Forall byte_ok payload -> in_u 32 cap ->
  pr = PROTOCOL_SECURE_CHANNEL \/ x_secure a = true /\ pr = PROTOCOL_INTERACTION_MODEL ->
  frame a pr op rel init carry id payload cap = (a', Ret out) ->
  let v := mc_last_used (x_counter a') in
  Forall byte_ok out /\ in_u 32 (zlen out) /\
  parsed b out (frame_msg_header a v) (frame_proto_header a pr op rel init carry id) payload.
Proof.
  intros Ha [Hsec Hl] Hp Ho Hid Hb Hu Hpr H.
  apply frame_cases in H as [[_ [? ?]]|(_ & c & v & Hc & H)]; [done|]. cbv zeta in H.
  destruct (frame_encode _ _ _ _ _) as [out'|] eqn:Ee; [|by destruct H]. destruct H as [[= ->] ->].
  assert (mc_last_used (x_counter (framed (framing a c init id)
    (rel && negb init && x_mrp a && x_ack_pending a) init carry out'
    (if rel && negb init && x_mrp a && x_ack_pending a then x_ack_counter a else 0) v)) = v) as ->.
  { destruct (counter_next_ok _ _ _ Hc) as (<- & _). f_equal. unfold framed, framing, frame_cache.
    destruct (remember_shape (a <| x_counter := c |>) id) as (l & n & ->).
    destruct init, carry; cbn [negb orb]; repeat case_match; done. }
  pose proof (counter_next_ok _ _ _ Hc) as (_ & Hv & _).
  pose proof (frame_msg_header_ok a v Ha Hv) as Hm.
  pose proof (frame_proto_header_ok a pr op rel init carry id Ha Hp Ho Hid) as Hph.
  destruct (frame_encode_bytes a _ _ payload cap out' Hm Hph Hb Hu Ee) as (Hob & Hz & He).
  split_and!; [done|done|]. constructor; [done|done|done| | |].
  - unfold authentic. rewrite <- Hsec. destruct (x_secure a); [|done].
    destruct (Hl eq_refl) as (_ & Hk & Hn). rewrite <- Hk, <- Hn. by apply (crypto_seal_cap _ _ _ _ cap).
  - unfold frame_msg_header. cbn [mh_session_id]. rewrite <- Hsec. destruct (x_secure a); [|done]. by apply Hl.
  - rewrite <- Hsec. exact Hpr.
Qed.

(** The window judges the counter of a delivered message and nothing else
    touches it; a requested acknowledgement is owed whatever it says. *)
Lemma recv_deliver_window x mh ph payload inn x' inn' rc :
  recv_deliver x mh ph payload inn = (x', inn', rc) ->
  rc = mrp_window_check (x_window x) (mh_message_counter mh) /\
  x_window x' = (if decide (rc = MATTER_OK)
                 then mrp_window_commit (x_window x) (mh_message_counter mh) else x_window x) /\
  (x_mrp x && has_flag (ph_exchange_flags ph) EX_FLAG_R = true ->
     x_ack_pending x' = true /\ x_ack_counter x' = mh_message_counter mh).
Proof.
  unfold recv_deliver. cbv zeta.
  cbn [field_set in_carries_ack in_acked_counter in_ack_requested].
  set (x2 := spend_replay _ _ _). set (x3 := owe_ack _ _ _).
  assert (x_window x2 = x_window x /\ x_mrp x2 = x_mrp x) as [E1 E2]
    by (unfold x2, spend_replay, note_source; repeat case_match; done).
  assert (x_window x3 = x_window x) as E by (rewrite <- E1; unfold x3, owe_ack; case_match; done).
  assert (x_mrp x && has_flag (ph_exchange_flags ph) EX_FLAG_R = true ->
    x_ack_pending x3 = true /\ x_ack_counter x3 = mh_message_counter mh) as E3
    by (rewrite <- E2; unfold x3, owe_ack; by intros ->).
  rewrite E. clearbody x3. destruct (mrp_window_check _ _); intros [= <- _ <-]; proj_in_goal; auto.
Qed.

Lemma adopt_window x id init x' : recv_adopt x id init = Some x' -> x_window x' = x_window x.
Proof. intros H. by apply recv_adopt_cases in H as [->|[->| ->]]. Qed.

Lemma adopt_mrp x id init x' : recv_adopt x id init = Some x' -> x_mrp x' = x_mrp x.
Proof. intros H. by apply recv_adopt_cases in H as [->|[->| ->]]. Qed.

(** A message is refused once its counter is in the window. *)
Lemma recv_refused x msg mh body ip pt :
  Forall byte_ok msg -> in_u 32 (zlen msg) -> msg_header_decode msg = Ret (mh, body) ->
  mrp_window_check (x_window x) (mh_message_counter mh) <> MATTER_OK ->
  (recv_impl x msg ip pt).2 <> MATTER_OK.
Proof.
  intros Hb Hu Hd Hw. destruct (recv_impl x msg ip pt) as [[x' inn] rc] eqn:E. cbn [snd].
  apply recv_cases in E as [[_ ?]|(mh' & ph & payload & x1 & Hp & Ha & E)]; [done| |done|done].
  destruct Hp as [Hm _ _ Hau _ _]. rewrite (authentic_decode x msg mh' _ Hm Hau) in Hd. injection Hd as -> _.
  apply recv_deliver_window in E as (-> & _ & _). by rewrite (adopt_window _ _ _ _ Ha).
Qed.
End Link.

Lemma window_commit_dup w c :
  in_u 32 c -> mrp_window_check (mrp_window_commit w c) c = MATTER_E_DUP.
Proof.
  intros Hc. unfold mrp_window_commit. destruct (w_synced w) eqn:Es; cbn [negb].
  2:{ unfold mrp_window_check. cbn [w_synced w_max negb]. by rewrite Z.sub_diag. }
  destruct (Z.eqb_spec (usize (w_max w - c)) 0) as [E0|E0].
  { unfold mrp_window_check. by rewrite Es, E0. }
  destruct (Z.leb_spec (usize (w_max w - c)) MRP_WINDOW_BITS) as [Hl|Hl].
  - unfold mrp_window_check. cbn [field_set w_synced w_max w_bitmap]. rewrite Es. cbn [negb].
    rewrite (proj2 (Z.eqb_neq _ _) E0), (proj2 (Z.leb_le _ _) Hl).
    pose proof (wrap_range 32 (w_max w - c) ltac:(lia)) as [H0 _]. unfold MRP_WINDOW_BITS in Hl.
    rewrite u32_bit by lia. rewrite land_bit by lia.
    rewrite Z.lor_spec, testbit_shiftl1, Z.eqb_refl, orb_true_r by lia. done.
  - unfold mrp_window_check. cbn [field_set w_synced w_max w_bitmap]. by rewrite Es, Z.sub_diag.
Qed.

Section EndToEnd.
Context `{L : BlockCipherLaws}.

(** C17: What one node frames the other receives, once: on a linked pair of
    exchanges, secure or not, a framed message that the receiver's exchange
    admits and whose counter is fresh is delivered with its protocol, opcode,
    exchange, role, payload, acknowledgement and counter, both into a
    separate buffer and in place; the receiver then owes exactly the
    acknowledgement asked for, and refuses the same bytes ever after while
    its window stands. *)
Theorem exchange_end_to_end a b b1 pr op rel init carry id payload cap a' out ip pt :
  exchange_ok a -> linked a b -> in_u 16 pr -> byte_ok op -> (init = true -> in_u 16 id) ->
  Forall byte_ok payload -> in_u 32 cap ->
  pr = PROTOCOL_SECURE_CHANNEL \/ x_secure a = true /\ pr = PROTOCOL_INTERACTION_MODEL ->
  frame a pr op rel init carry id payload cap = (a', Ret out) ->
  recv_adopt b (if init then id else x_exchange_id a) init = Some b1 ->
  mrp_window_check (x_window b) (mc_last_used (x_counter a')) = MATTER_OK ->
  has_room ip pt (zlen out) ->
  exists b', recv_impl b out ip pt =
      (b', frame_view a pr op rel init carry id payload (mc_last_used (x_counter a')), MATTER_OK) /\
    (rel && x_mrp a && x_mrp b = true ->
       x_ack_pending b' = true /\ x_ack_counter b' = mc_last_used (x_counter a')) /\
    forall b2 ip2 pt2, x_window b2 = x_window b' -> (recv_impl b2 out ip2 pt2).2 <> MATTER_OK.
Proof.
  intros Ha Hl Hp Ho Hid Hb Hu Hpr Hf Had Hw Hr.
  destruct (frame_parsed a b pr op rel init carry id payload cap a' out) as (Hob & Hz & Hpa); try done.
  set (v := mc_last_used (x_counter a')) in *. pose proof Hpa as [Hm Hph _ Hau _ _].
  destruct (frame_flags a pr op rel init carry id) as (FI & FR & FA & FV).
  assert (zlen (proto_header_bytes (frame_proto_header a pr op rel init carry id) ++ payload) <= zlen out) as Hsz.
  { unfold authentic in Hau. destruct (x_secure b).
    - destruct (crypto_seal_size _ _ _ _ _ _ Hm Hz Hau) as (-> & _ & _). pose proof Hm as (_ & ? & _). lia.
    - rewrite Hau, (zlen_app (msg_header_bytes _)). pose proof (zlen_nonneg (msg_header_bytes (frame_msg_header a v))). lia. }
  rewrite (recv_authentic b out _ _ payload ip pt Hpa Hz eq_refl FV)
    by (destruct pt; cbn [has_room] in *; [lia|done]).
  rewrite FI. change (ph_exchange_id _) with (if init then id else x_exchange_id a). rewrite Had.
  destruct (recv_deliver b1 _ _ _ _) as [[b' inn] rc] eqn:Ed.
  pose proof (recv_deliver_in _ _ _ _ _ _ _ _ Ed) as Hinn. rewrite FR, FA in Hinn.
  pose proof (recv_deliver_window _ _ _ _ _ _ _ _ Ed) as (Hrc & Hw' & Hack). rewrite FR in Hack.
  rewrite (adopt_window _ _ _ _ Had) in Hrc, Hw'. change (mh_message_counter _) with v in Hrc, Hw', Hack.
  rewrite Hw in Hrc. subst rc. rewrite decide_True in Hw' by done.
  exists b'. split_and!.
  - rewrite Hinn. unfold in_view. rewrite FI. done.
  - intros Hrel. apply Hack. rewrite (adopt_mrp _ _ _ _ Had). destruct rel, (x_mrp a), (x_mrp b); done.
  - intros b2 ip2 pt2 Hb2. eapply recv_refused; [done|done|by eapply authentic_decode|].
    rewrite Hb2, Hw'. change (mh_message_counter _) with v. rewrite window_commit_dup; [done|]. apply Hm.
Qed.
End EndToEnd.

(** ** Forgeries and replays *)

Section Safety.
Context `{L : BlockCipherLaws}.

(** C18: On a secure session a forged message changes nothing: whatever bytes
    arrive, either the exchange is left exactly as it was and the message is
    refused, or the bytes are what sealing gives under the peer's key and
    node id for a header addressed to this session and a cleartext whose
    payload is the one delivered. *)
Theorem exchange_forgery_inert x msg ip pt x' inn rc :
  x_secure x = true -> Forall byte_ok msg -> in_u 32 (zlen msg) ->
  recv_impl x msg ip pt = (x', inn, rc) ->
  x' = x /\ rc <> MATTER_OK \/
  exists mh ph payload,
    crypto_seal mh (sk_i2r (x_keys x)) (x_peer_op_node_id x) (proto_header_bytes ph ++ payload)
      (zlen msg) = Ret msg /\
    mh_session_id mh = x_local_session_id x /\ in_payload inn = payload /\
    in_opcode inn = ph_opcode ph /\ in_message_counter inn = mh_message_counter mh.
Proof.
  intros Hs Hb Hu H. apply recv_cases in H as [?|(mh & ph & payload & x1 & Hp & Ha & Hd)]; [by left| |done|done].
  right. exists mh, ph, payload. destruct Hp as [_ _ _ Hau Hse _]. unfold authentic in Hau. rewrite Hs in Hau, Hse.
  apply recv_deliver_in in Hd as ->. done.
Qed.

(** A step delivers a message only if the window admits its counter. *)
Definition offers (w : mrp_window) (r : exchange * option (list Z) * option exchange_in) : Prop :=
  match r.2 with
  | Some i => in_u 32 (in_message_counter i) /\
      mrp_window_check w (in_message_counter i) = MATTER_OK /\
      x_window r.1.1 = mrp_window_commit w (in_message_counter i)
  | None => x_window r.1.1 = w
  end.

Lemma frame_offers x pr o rel init carry id p cap :
  offers (x_window x) (sent_of (frame x pr o rel init carry id p cap)).
Proof.
  destruct (frame x pr o rel init carry id p cap) as [y r] eqn:E. unfold offers. cbn [sent_of fst snd].
  apply frame_cases in E as [[-> _]|(_ & c & v & _ & E)]; [done|]. cbv zeta in E.
  destruct (remember_shape (x <| x_counter := c |>) id) as (l & n & Er).
  unfold framed, framing, frame_cache in E. rewrite Er in E.
  destruct (frame_encode _ _ _ _ _); destruct E as [E1 E2]; [rewrite E2|rewrite E1]; clear;
    repeat case_match; done.
Qed.

Lemma recv_offers x msg ip pt :
  Forall byte_ok msg -> in_u 32 (zlen msg) -> offers (x_window x) (got_of (recv_impl x msg ip pt)).
Proof.
  intros Hb Hu. destruct (recv_impl x msg ip pt) as [[y inn] rc] eqn:E. unfold offers. cbn [got_of fst snd].
  apply recv_cases in E as [[-> Hrc]|(mh & ph & payload & x1 & Hp & Ha & Hd)]; [by destruct rc| |done|done].
  pose proof (recv_deliver_in _ _ _ _ _ _ _ _ Hd) as ->. apply recv_deliver_window in Hd as (Hrc & Hw & _).
  rewrite (adopt_window _ _ _ _ Ha) in Hrc, Hw. destruct Hp as [(_ & _ & _ & _ & Hc & _) _ _ _ _ _].
  destruct rc; try exact Hw. by split_and!.
Qed.

Lemma apply_offers x op : op_ok op -> offers (x_window x) (exchange_apply x op).
Proof.
  intros Hop. assert (offers (x_window x) (sent_of (x, Fail MATTER_E_STATE))) as Hno by done.
  destruct op as [msg pt|msg|o p cap|pr o p cap|i pr o p cap|i pr o p cap|cap|cap|i cap|l p];
    cbn [exchange_apply op_ok] in *; destruct_and?.
  1,2: by apply recv_offers.
  1-3: apply frame_offers.
  - unfold exchange_continue_initiator. case_match; [done|apply frame_offers].
  - unfold exchange_standalone_ack. case_match; [done|apply frame_offers].
  - unfold exchange_replay. repeat case_match; done.
  - destruct (exchange_ack_initiator x i cap) as [y r] eqn:E. unfold offers. cbn [sent_of fst snd].
    apply ack_initiator_cases in E as [[-> _]|(_ & c & v & _ & E)]; [done|].
    destruct (frame_encode _ _ _ _ _); destruct E as [E1 E2]; [by rewrite E2|by rewrite E1].
  - done.
Qed.

(** A run is a run of its window over the counters it delivered. *)
Lemma exchange_run_window ops x sent got acc adv :
  Forall op_ok ops ->
  let '(x', _, got') := exchange_run x ops sent got in
  exists new adv', got' = new ++ got /\ Forall (in_u 32) (map in_message_counter new) /\
    window_run (x_window x) (rev (map in_message_counter new)) acc adv =
      (x_window x', map in_message_counter new ++ acc, adv').
Proof.
  intros Hops. revert x sent got acc adv. induction Hops as [|op ops Hop _ IH]; intros x sent got acc adv.
  { cbn [exchange_run]. by exists [], adv. }
  cbn [exchange_run]. pose proof (apply_offers x op Hop) as Ho. unfold offers in Ho.
  destruct (exchange_apply x op) as [[x1 s] g]. cbn [fst snd] in Ho. destruct g as [i|].
  - destruct Ho as (Hc & Hok & Hw).
    specialize (IH x1 (option_list s ++ sent) (option_list (Some i) ++ got) (in_message_counter i :: acc)
      (adv + (if w_synced (x_window x) then u32 (w_max (x_window x1) - w_max (x_window x)) else 0))).
    destruct (exchange_run x1 ops _ _) as [[x' s'] got']. destruct IH as (new & adv' & -> & Hn & IH).
    exists (new ++ [i]), adv'. rewrite map_app, rev_app_distr. cbn [map rev app window_run].
    rewrite Hok. cbv zeta. rewrite <- Hw, IH, <- !app_assoc. split_and!; [done| |done].
    apply Forall_app. split; [done|]. by constructor.
  - specialize (IH x1 (option_list s ++ sent) got acc adv).
    destruct (exchange_run x1 ops _ _) as [[x' s'] got']. by rewrite Ho in IH.
Qed.

(** C28: A session delivers no message twice: over any run of receives of any
    bytes, frames, acknowledgements and replies from a fresh session, the
    counters of the delivered messages are pairwise different, as long as the
    steps by which they moved the window's mark add up to less than 2^32 - 32.
    ([MatterMrp.window_wraps_round]: beyond that a counter comes round again, so
    a session has to be renewed before.) *)
Theorem exchange_delivers_once x ops x' sent got :
  x_window x = mrp_window_init -> Forall op_ok ops -> exchange_run x ops [] [] = (x', sent, got) ->
  (let '(_, _, adv) := window_run mrp_window_init (rev (map in_message_counter got)) [] 0 in
   adv < 2 ^ 32 - 32) ->
  List.NoDup (map in_message_counter got).
Proof.
  intros Hw Hops Hrun Hadv. pose proof (exchange_run_window ops x [] [] [] 0 Hops) as H.
  rewrite Hrun in H. destruct H as (new & adv & Hg & Hn & H). rewrite app_nil_r in Hg. subst new.
  rewrite Hw in H. pose proof (window_no_replay (rev (map in_message_counter got))
    ltac:(by apply List.Forall_rev)) as Hnr.
  rewrite H in Hnr, Hadv. rewrite app_nil_r in Hnr. by apply Hnr.
Qed.
End Safety.


(** ** A session between two nodes *)

Definition swap_keys (k : session_keys) : session_keys :=
  {| sk_i2r := sk_r2i k; sk_r2i := sk_i2r k; sk_attestation_challenge := sk_attestation_challenge k |}.

(** The initiator and the responder of one session. *)
Definition sample_a : exchange := (exchange_open_initiator 1 2 119 (swap_keys sample_keys) 5).1.
Definition sample_b : exchange := (exchange_promote (exchange_init 6 true) 2 1 sample_keys 9).1.

(** The invoke request the initiator sends. *)
Definition sample_sent : exchange * res (list Z) :=
  exchange_send_initiator (C := toy_cipher) sample_a 119 PROTOCOL_INTERACTION_MODEL 8 [21; 24] 200.

Definition sample_out : list Z := match sample_sent.2 with Ret o => o | Fail _ => [] end.

Lemma sample_out_ok : Forall byte_ok sample_out /\ in_u 32 (zlen sample_out).
Proof. split; [apply bytes_all; vm_compute; reflexivity|vm_compute; split; congruence]. Qed.

Lemma sample_a_ok : exchange_ok sample_a.
Proof.
  constructor; try done; try (vm_compute; split; congruence).
  - apply in_u_all. reflexivity.
  - apply bytes_all. vm_compute. reflexivity.
Qed.

Lemma exchange_end_to_end_witness :
  exists b', recv_impl (C := toy_cipher) sample_b sample_out true None =
    (b', frame_view sample_a PROTOCOL_INTERACTION_MODEL 8 true true false 119 [21; 24] 6, MATTER_OK) /\
    x_ack_pending b' = true.
Proof.
  destruct (exchange_end_to_end (L := toy_cipher_laws) sample_a sample_b
    (sample_b <| x_exchange_id := 119 |> <| x_open := true |>)
    PROTOCOL_INTERACTION_MODEL 8 true true false 119 [21; 24] 200 sample_sent.1 sample_out true None)
    as (b' & Hr & Hack & _).
  - apply sample_a_ok.
  - by split.
  - vm_compute; split; congruence.
  - vm_compute; split; congruence.
  - intros _. vm_compute; split; congruence.
  - apply bytes_all. reflexivity.
  - vm_compute; split; congruence.
  - right. by split.
  - vm_compute. reflexivity.
  - reflexivity.
  - reflexivity.
  - reflexivity.
  - exists b'. split; [exact Hr|]. apply Hack. reflexivity.
Defined.

Lemma exchange_forgery_inert_witness :
  let r := recv_impl (C := toy_cipher) sample_b (<[9%nat := 0]> sample_out) true None in
  r.1.1 = sample_b /\ r.2 = MATTER_E_TYPE.
Proof.
  destruct (recv_impl (C := toy_cipher) sample_b (<[9%nat := 0]> sample_out) true None) as [[x' inn] rc] eqn:E.
  pose proof (exchange_forgery_inert (L := toy_cipher_laws) sample_b (<[9%nat := 0]> sample_out) true None x' inn rc
    eq_refl ltac:(apply Forall_insert; [apply sample_out_ok|vm_compute; split; congruence])
    ltac:(vm_compute; split; congruence) E) as H.
  vm_compute in E. injection E as <- <- <-.
  destruct H as [[-> _]|(mh & ph & payload & Hs & _)]; [by split|]. cbn [fst snd]. split; reflexivity.
Defined.

Lemma exchange_delivers_once_witness :
  let '(_, _, got) := exchange_run (C := toy_cipher) sample_b
    [OpRecvInPlace sample_out; OpRecvInPlace sample_out; OpStandaloneAck 64] [] [] in
  length got = 1%nat /\ List.NoDup (map in_message_counter got).
Proof.
  destruct (exchange_run (C := toy_cipher) sample_b
    [OpRecvInPlace sample_out; OpRecvInPlace sample_out; OpStandaloneAck 64] [] []) as [[x' sent] got] eqn:E.
  split; [vm_compute in E; by injection E as _ _ <-|].
  apply (exchange_delivers_once (L := toy_cipher_laws) sample_b
    [OpRecvInPlace sample_out; OpRecvInPlace sample_out; OpStandaloneAck 64] x' sent got).
  - reflexivity.
  - repeat constructor; try apply sample_out_ok; vm_compute; congruence.
  - exact E.
  - vm_compute in E. injection E as _ _ <-. vm_compute. reflexivity.
Defined.

(** ** Acknowledgements owed *)

Section Owed.
Context `{C : BlockCipher}.

(** An acknowledgement is owed until it has left: a frame that fails, and
    a frame that opens an exchange of this node's own, leave the debt as it
    was; a frame that succeeds on the peer's exchange carries the owed counter
    and settles it. *)
Theorem exchange_ack_settled x pr op rel init carry id payload cap x' r :
  frame x pr op rel init carry id payload cap = (x', r) ->
  let ph := frame_proto_header x pr op rel init carry id in
  match r with
  | Fail _ => x_ack_pending x' = x_ack_pending x /\ x_ack_counter x' = x_ack_counter x
  | Ret out =>
      frame_encode x (frame_msg_header x (mc_last_used (x_counter x'))) ph payload cap = Ret out /\
      x_ack_counter x' = x_ack_counter x /\
      (if negb init || carry
       then x_ack_pending x' = false /\
            (x_mrp x && x_ack_pending x = true ->
             has_flag (ph_exchange_flags ph) EX_FLAG_A = true /\ ph_ack_counter ph = x_ack_counter x)
       else x_ack_pending x' = x_ack_pending x /\ has_flag (ph_exchange_flags ph) EX_FLAG_A = false)
  end.
Proof.
  intros H. cbv zeta. destruct (frame_flags x pr op rel init carry id) as (_ & _ & FA & _).
  assert (ph_ack_counter (frame_proto_header x pr op rel init carry id) =
    if (negb init || carry) && x_mrp x && x_ack_pending x then x_ack_counter x else 0) as Hc by done.
  apply frame_cases in H as [[-> [rc ->]]|(_ & c & v & Hn & H)]; [done|]. cbv zeta in H.
  apply counter_next_ok in Hn as (Hv & _ & _).
  destruct (remember_shape (x <| x_counter := c |>) id) as (l & n & Er).
  destruct (frame_encode _ _ _ _ _) as [out|rc] eqn:Ee.
  - destruct H as [-> ->]. unfold framed, framing, frame_cache. rewrite Er, FA, Hc.
    set (cache := rel && negb init && x_mrp x && x_ack_pending x).
    destruct init, carry, cache; cbn [negb orb andb]; repeat case_match; proj_in_goal; rewrite Hv;
      split_and!; try done; by intros ->.
  - destruct H as [-> ->]. unfold framing. rewrite Er. by destruct init.
Qed.
End Owed.

Lemma exchange_ack_settled_witness :
  let r := exchange_reply (C := toy_cipher) (sample_b <| x_open := true |> <| x_ack_pending := true |>) 8 [1] 64 in
  x_ack_pending r.1 = false.
Proof.
  destruct (exchange_reply (C := toy_cipher) (sample_b <| x_open := true |> <| x_ack_pending := true |>) 8 [1] 64)
    as [x' r] eqn:E. pose proof (exchange_ack_settled _ _ _ _ _ _ _ _ _ _ _ E) as H.
  vm_compute in E. injection E as <- <-. apply H.
Defined.

(** A second request, on another exchange, for the finding below. *)
Definition sample_out2 : list Z :=
  match (exchange_send_initiator (C := toy_cipher) sample_sent.1 120 PROTOCOL_INTERACTION_MODEL 8 [21; 24] 200).2 with
  | Ret o => o | Fail _ => []
  end.

(** A replayed request is refused, but only after it has moved the exchange
    back: the acknowledgement owed for the second request is gone, and the next
    reply would answer the first one's exchange. *)
Theorem replayed_request_moves_exchange :
  let '(x1, _, _) := exchange_run (C := toy_cipher) sample_b [OpRecvInPlace sample_out; OpRecvInPlace sample_out2] [] [] in
  let '(x2, _, rc) := recv_impl (C := toy_cipher) x1 sample_out true None in
  x_exchange_id x1 = 120 /\ x_ack_counter x1 = 7 /\ x_ack_pending x1 = true /\
  rc = MATTER_E_DUP /\ x_exchange_id x2 = 119 /\ x_ack_counter x2 = 6.
Proof. vm_compute. by split_and!. Qed.
