(* ===== verification/MatterExchangeNonce.v ===== *)
(** * Nonces of a session

    Over any run of a promoted session no two different messages share an AEAD
    nonce. *)

From Stdlib Require Import ZArith Lia Bool.
From stdpp Require Import base list numbers option.
From S2P Require Import Prelude Wire MatterStatus MatterMsg MatterMrp MatterCrypto MatterExchange MatterExchangeTypes MatterExchangeProps.

Local Open Scope Z_scope.
Local Open Scope uwl_scope.

(** ** Nonces *)

(** The counter a sent message carries in clear. *)
Definition counter_of (out : list Z) : Z :=
  match msg_header_decode out with Ret (h, _) => mh_message_counter h | Fail _ => 0 end.

(** A secure session that has sent [sent]: every message has a header, no two
    different messages share a counter, all counters are behind the next one,
    and the cached reply is one of them. *)
Record session_inv (x : exchange) (sent : list (list Z)) : Prop := {
  si_ok : exchange_ok x;
  si_secure : x_secure x = true;
  si_kind : mc_kind (x_counter x) = COUNTER_SESSION;
  si_header : Forall (fun o => exists h n, msg_header_decode o = Ret (h, n) /\ msg_header_ok h) sent;
  si_behind : Forall (fun o => counter_of o <= mc_last_used (x_counter x)) sent;
  si_unique : forall o1 o2, In o1 sent -> In o2 sent -> counter_of o1 = counter_of o2 -> o1 = o2;
  si_replay : x_replay_len x <> 0 -> In (take (Z.to_nat (x_replay_len x)) (x_replay x)) sent;
}.

Lemma session_next c c' v :
  mc_kind c = COUNTER_SESSION -> in_u 32 (mc_last_used c) -> counter_next c = Ret (c', v) ->
  v = mc_last_used c + 1 /\ mc_last_used c' = v /\ mc_kind c' = COUNTER_SESSION.
Proof.
  intros Hk Hu. unfold counter_next. rewrite Hk, bool_decide_true by done.
  destruct (Z.eqb_spec (mc_last_used c) UINT32_MAX); [done|]. cbn [andb guard_res res_bind].
  intros [= <- <-]. unfold UINT32_MAX, in_u in *.
  rewrite (wrap_id 32) by (unfold in_u; lia). by split_and!.
Qed.

Section Nonces.
Context `{L : BlockCipherLaws}.

(** An operation that sends nothing and keeps the counter and the cache. *)
Lemma session_quiet x x' sent :
  session_inv x sent -> exchange_ok x' -> x_secure x' = true -> x_counter x' = x_counter x ->
  x_replay x' = x_replay x -> (x_replay_len x' = x_replay_len x \/ x_replay_len x' = 0) ->
  session_inv x' sent.
Proof.
  intros [] Hok Hs Hc Hr Hl. constructor; rewrite ?Hc, ?Hr; try done.
  destruct Hl as [-> | ->]; [done|]. by intros [].
Qed.

(** A counter is drawn, whether or not anything is sent under it. *)
Lemma session_draws x c v x' sent :
  session_inv x sent -> counter_next (x_counter x) = Ret (c, v) -> exchange_ok x' -> x_secure x' = true ->
  x_counter x' = c -> x_replay x' = x_replay x -> x_replay_len x' = x_replay_len x ->
  session_inv x' sent /\ v = mc_last_used (x_counter x) + 1 /\ mc_last_used c = v.
Proof.
  intros [] Hc Hok Hs E Hr Hl.
  destruct (session_next (x_counter x) c v) as (Hv & Hlast & Hk); eauto with exchange.
  split; [|done]. constructor; rewrite ?E, ?Hr, ?Hl; try done.
  eapply List.Forall_impl; [|exact si_behind0]. cbv beta. intros. lia.
Qed.

(** A message sent under the counter just drawn. *)
Lemma session_sends x sent out :
  session_inv x sent -> (exists h n, msg_header_decode out = Ret (h, n) /\ msg_header_ok h) ->
  Forall (fun o => counter_of o < mc_last_used (x_counter x)) sent ->
  counter_of out = mc_last_used (x_counter x) -> session_inv x (out :: sent).
Proof.
  intros [] Hh Hlt Hout. rewrite List.Forall_forall in Hlt. constructor; try done.
  - by constructor.
  - constructor; [lia|done].
  - intros o1 o2 [<-|H1] [<-|H2] He; auto.
    + specialize (Hlt _ H2). lia.
    + specialize (Hlt _ H1). lia.
  - intros Hr. right. auto.
Qed.

(** Every sealed frame carries the drawn counter. *)
Lemma encode_counter x v ph payload cap out :
  exchange_ok x -> x_secure x = true -> in_u 32 v -> proto_header_ok ph -> Forall byte_ok payload -> in_u 32 cap ->
  frame_encode x (frame_msg_header x v) ph payload cap = Ret out ->
  (exists h n, msg_header_decode out = Ret (h, n) /\ msg_header_ok h) /\ counter_of out = v.
Proof.
  intros Hx Hs Hv Hp Hb Hu H. pose proof (frame_msg_header_ok x v Hx Hv) as Hm.
  destruct (frame_encode_bytes x _ _ payload cap out Hm Hp Hb Hu H) as (_ & _ & He).
  rewrite Hs in He. apply crypto_seal_Ret in He as (ct & tag & -> & _).
  unfold counter_of. rewrite msg_header_dec_enc by done. by split; [eexists _, _|].
Qed.

Lemma session_recv x sent msg ip pt :
  session_inv x sent -> Forall byte_ok msg -> in_u 32 (zlen msg) ->
  session_inv (recv_impl x msg ip pt).1.1 sent.
Proof.
  intros Hi Hb Hu. pose proof (si_ok _ _ Hi) as Hok. pose proof (si_secure _ _ Hi) as Hs.
  destruct (recv_impl x msg ip pt) as [[x' inn] rc] eqn:E. cbn [fst].
  pose proof (recv_ok _ _ _ _ _ _ _ Hok Hb Hu E) as Hok'.
  apply recv_cases in E as [[-> _]|(mh & ph & payload & x1 & _ & Ha & Hd)]; [done| |done|done].
  assert (x_secure x' = x_secure x /\ x_counter x' = x_counter x /\ x_replay x' = x_replay x /\
    (x_replay_len x' = x_replay_len x \/ x_replay_len x' = 0)) as (E1 & E2 & E3 & E4).
  { unfold recv_deliver, owe_ack, spend_replay, note_source in Hd. cbv zeta in Hd.
    apply recv_adopt_cases in Ha as [->|[->| ->]]; destruct (mrp_window_check _ _); injection Hd as <- _ _;
      clear; repeat case_match; split_and!; auto. }
  apply (session_quiet x); [done|done|by rewrite E1|done..].
Qed.

Lemma session_caches x out a b sent :
  session_inv x sent -> In out sent -> Forall byte_ok out -> in_u 32 a -> in_u 32 b ->
  session_inv (frame_cache x out a b) sent.
Proof.
  intros Hi Hin Hb Ha Hbb. pose proof (si_ok _ _ Hi) as Hok.
  pose proof (frame_cache_ok x out a b Hok Hb Ha Hbb) as Hok'. pose proof (xo_replay x Hok) as Hr.
  unfold frame_cache in *. destruct Hi. case_match eqn:El; constructor; proj_in_goal; try done.
  apply Z.leb_le in El. unfold EXCHANGE_REPLAY_MAX in *. intros _. pose proof (zlen_nonneg out).
  rewrite (wrap_id 16) by (unfold in_u; lia).
  replace (zlen out) with (0 + zlen out) by lia. rewrite take_mem_write by (unfold zlen in *; lia). done.
Qed.

Lemma session_frame x sent pr op rel init carry id payload cap :
  session_inv x sent -> in_u 16 pr -> byte_ok op -> (init = true -> in_u 16 id) ->
  Forall byte_ok payload -> in_u 32 cap ->
  let r := sent_of (frame x pr op rel init carry id payload cap) in
  session_inv r.1.1 (option_list r.1.2 ++ sent).
Proof.
  intros Hi Hp Ho Hid Hb Hu. pose proof (si_ok _ _ Hi) as Hok. pose proof (si_secure _ _ Hi) as Hs.
  destruct (frame x pr op rel init carry id payload cap) as [x' r] eqn:E. cbn [sent_of fst snd].
  apply frame_cases in E as [[-> [rc ->]]|(_ & c & v & Hc & E)]; [done|]. cbv zeta in E.
  pose proof (counter_next_ok _ _ _ Hc) as (_ & Hv & _).
  pose proof (framing_ok x c v init id Hok Hc Hid) as Hok1.
  assert (x_secure (framing x c init id) = x_secure x /\ x_counter (framing x c init id) = c /\
    x_replay (framing x c init id) = x_replay x /\ x_replay_len (framing x c init id) = x_replay_len x)
    as (E1 & E2 & E3 & E4).
  { unfold framing. destruct init; [|done].
    by destruct (remember_shape (x <| x_counter := c |>) id) as (l & n & ->). }
  destruct (session_draws x c v (framing x c init id) sent) as (Hi1 & Hvl & Hcl); try done; [by rewrite E1|].
  destruct (frame_encode _ _ _ _ _) as [out|rc] eqn:Ee; [|by destruct E as [-> ->]].
  destruct E as [-> ->]. cbn [option_list option_rect app].
  pose proof (frame_proto_header_ok x pr op rel init carry id Hok Hp Ho Hid) as Hph.
  destruct (encode_counter x v _ payload cap out Hok Hs Hv Hph Hb Hu Ee) as (Hh & Hco).
  destruct (frame_encode_bytes x _ _ payload cap out (frame_msg_header_ok x v Hok Hv) Hph Hb Hu Ee) as (Hob & _).
  assert (session_inv (framing x c init id) (out :: sent)) as Hi2.
  { apply session_sends; [done|done| |by rewrite E2, Hcl].
    eapply List.Forall_impl; [|exact (si_behind _ _ Hi)]. cbv beta. intros o. rewrite E2. lia. }
  unfold framed. set (cache := rel && negb init && x_mrp x && x_ack_pending x).
  set (x2 := if cache then frame_cache _ _ _ _ else _).
  assert (session_inv x2 (out :: sent)) as Hi3.
  { unfold x2. destruct cache; [|done]. apply session_caches; try done; [by left|eauto with exchange]. }
  clearbody x2. destruct (negb init || carry); [|done]. pose proof (si_ok _ _ Hi3).
  apply (session_quiet x2); [done|fields|apply Hi3|done|done|by left].
Qed.

Lemma session_ack_initiator x sent i cap :
  session_inv x sent -> in_u 16 i -> in_u 32 cap ->
  let r := sent_of (exchange_ack_initiator x i cap) in
  session_inv r.1.1 (option_list r.1.2 ++ sent).
Proof.
  intros Hi Hid Hu. pose proof (si_ok _ _ Hi) as Hok. pose proof (si_secure _ _ Hi) as Hs.
  destruct (exchange_ack_initiator x i cap) as [x' r] eqn:E. cbn [sent_of fst snd].
  apply ack_initiator_cases in E as [[-> [rc ->]]|(_ & c & v & Hc & E)]; [done|].
  destruct (counter_next_ok _ _ _ Hc) as (Hcv & Hv & _).
  assert (exchange_ok (x <| x_counter := c |>)) as Hok1 by (fields; by rewrite Hcv).
  destruct (session_draws x c v (x <| x_counter := c |>) sent) as (Hi1 & Hvl & Hcl); try done.
  destruct (frame_encode _ _ _ _ _) as [out|rc] eqn:Ee; [|by destruct E as [-> ->]].
  destruct E as [-> ->]. cbn [option_list option_rect app].
  assert (proto_header_ok (frame_proto_header x PROTOCOL_SECURE_CHANNEL SC_OP_ACK false true true i)) as Hph
    by (by apply frame_proto_header_ok).
  destruct (encode_counter x v _ [] cap out Hok Hs Hv Hph (List.Forall_nil _) Hu Ee) as (Hh & Hco).
  assert (session_inv (x <| x_counter := c |>) (out :: sent)) as Hi2.
  { apply session_sends; [done|done| |by proj_in_goal; rewrite Hcl].
    eapply List.Forall_impl; [|exact (si_behind _ _ Hi)]. cbv beta. proj_in_goal. intros o. lia. }
  apply (session_quiet (x <| x_counter := c |>)); [done|fields; by rewrite Hcv|done|done|done|by left].
Qed.

Lemma session_step x sent op :
  session_inv x sent -> op_ok op ->
  session_inv (exchange_apply x op).1.1 (option_list (exchange_apply x op).1.2 ++ sent).
Proof.
  intros Hi Hop. pose proof (si_ok _ _ Hi) as Hok.
  destruct op as [msg pt|msg|o p cap|pr o p cap|i pr o p cap|i pr o p cap|cap|cap|i cap|l p];
    cbn [exchange_apply op_ok] in *; destruct_and?.
  1,2: by apply session_recv.
  1-3: by apply session_frame.
  - unfold exchange_continue_initiator. case_match; [done|by apply session_frame].
  - unfold exchange_standalone_ack. case_match; [done|by apply session_frame].
  - unfold exchange_replay. case_match eqn:Eg; [done|]. case_match; [done|]. cbn [sent_of fst snd option_list option_rect app].
    assert (x_replay_len x <> 0) as Hr.
    { apply Z.eqb_neq. by destruct (negb (x_mrp x) || negb (x_ack_pending x)), (x_replay_len x =? 0). }
    pose proof (si_replay _ _ Hi Hr) as Hin.
    apply (session_quiet x); [|fields|apply Hi|done|done|by left].
    destruct Hi. constructor; try done.
    + constructor; [|done]. rewrite List.Forall_forall in si_header0. by apply si_header0.
    + constructor; [|done]. rewrite List.Forall_forall in si_behind0. by apply si_behind0.
    + intros o1 o2 [<-|H1] [<-|H2]; auto.
    + intros _. by left.
  - by apply session_ack_initiator.
  - cbn [fst snd option_list option_rect app]. unfold exchange_set_op_node_ids.
    apply (session_quiet x); [done|fields|apply Hi|done|done|by left].
Qed.

Lemma session_run ops x sent got :
  Forall op_ok ops -> session_inv x sent ->
  let '(x', sent', _) := exchange_run x ops sent got in session_inv x' sent'.
Proof.
  intros Hops. revert x sent got. induction Hops as [|op ops Hop _ IH]; intros x sent got Hi; [done|].
  cbn [exchange_run]. pose proof (session_step x sent op Hi Hop) as Hs.
  destruct (exchange_apply x op) as [[x1 s] g]. by apply IH.
Qed.

(** C16: No AEAD nonce is ever used for two different messages: over any run
    of a promoted session, receives of any bytes, frames that succeed or
    fail, acknowledgements, cached replies and changes of the node ids
    included, every message sent has a readable header, and two sent messages
    whose nonces agree are the same bytes. *)
Theorem exchange_nonce_unique x0 local_id peer_id keys entropy x ops x' sent got :
  exchange_ok x0 -> in_u 16 local_id -> in_u 16 peer_id -> 0 <= entropy ->
  exchange_promote x0 local_id peer_id keys entropy = (x, MATTER_OK) ->
  Forall op_ok ops -> exchange_run x ops [] [] = (x', sent, got) ->
  Forall (fun o => exists h n, msg_header_decode o = Ret (h, n) /\ msg_header_ok h) sent /\
  forall o1 o2 h1 h2 n1 n2 node1 node2, In o1 sent -> In o2 sent ->
    msg_header_decode o1 = Ret (h1, n1) -> msg_header_decode o2 = Ret (h2, n2) ->
    in_u 64 node1 -> in_u 64 node2 ->
    build_nonce (mh_security_flags h1) (mh_message_counter h1) node1 =
    build_nonce (mh_security_flags h2) (mh_message_counter h2) node2 -> o1 = o2.
Proof.
  intros Hx0 Hl Hp He Hpr Hops Hrun.
  assert (session_inv x []) as Hi.
  { pose proof (promote_ok x0 local_id peer_id keys entropy Hx0 Hl Hp He) as Hok. rewrite Hpr in Hok.
    unfold exchange_promote in Hpr. case_match; [done|]. injection Hpr as <-. constructor; done. }
  pose proof (session_run ops x [] [] Hops Hi) as H. rewrite Hrun in H. destruct H. split; [done|].
  intros o1 o2 h1 h2 n1 n2 node1 node2 I1 I2 D1 D2 N1 N2 Hn. apply si_unique0; [done..|].
  unfold counter_of. rewrite D1, D2.
  rewrite List.Forall_forall in si_header0.
  destruct (si_header0 _ I1) as (h & n & E1 & (_ & _ & _ & _ & C1 & _)). rewrite D1 in E1. injection E1 as -> ->.
  destruct (si_header0 _ I2) as (h' & n' & E2 & (_ & _ & _ & _ & C2 & _)). rewrite D2 in E2. injection E2 as -> ->.
  by destruct (build_nonce_inj _ _ _ _ _ _ C1 C2 N1 N2 Hn) as (_ & ? & _).
Qed.
End Nonces.

(** A request, its reply, the request again, the cached reply, a second
    request's reply. *)
Definition sample_ops : list exchange_op :=
  [OpRecvInPlace sample_out; OpReply 5 [24] 64; OpRecvInPlace sample_out; OpReplay 192;
   OpSend 1 5 [24; 25] 64].

Lemma exchange_nonce_unique_witness :
  let '(_, sent, _) := exchange_run (C := toy_cipher) sample_b sample_ops [] [] in
  length sent = 3%nat /\
  Forall (fun o => exists h n, msg_header_decode o = Ret (h, n) /\ msg_header_ok h) sent.
Proof.
  destruct (exchange_run (C := toy_cipher) sample_b sample_ops [] []) as [[x' sent] got] eqn:E.
  split; [vm_compute in E; injection E as _ <- _; reflexivity|].
  apply (exchange_nonce_unique (L := toy_cipher_laws) (exchange_init 6 true) 2 1 sample_keys 9
    sample_b sample_ops x' sent got).
  - by apply exchange_init_ok.
  - vm_compute; split; congruence.
  - vm_compute; split; congruence.
  - lia.
  - reflexivity.
  - repeat constructor; try apply sample_out_ok; vm_compute; congruence.
  - exact E.
Defined.
