(* ===== verification/MatterTxPool.v ===== *)
(** * The outbound packet pool

    Models the slot pool of [modules/ultrawidelock_matter/src/matter_exchange.c].
    A slot is named by its index; the buffer a slot owns is the region of
    [slot_capacity] bytes at its offset in the backing store.  The file ends with
    the abstract queue the pool implements. *)

From Stdlib Require Import ZArith Lia Bool Sorting.Permutation Sorting.Sorted.
From stdpp Require Import base list numbers option.
From S2P Require Import Prelude Wire MatterStatus MatterMrp.

Local Open Scope Z_scope.
Local Open Scope uwl_scope.

Inductive tx_slot_state := TX_FREE | TX_BUILDING | TX_READY | TX_IN_FLIGHT.

#[export] Instance tx_slot_state_eq_dec : EqDecision tx_slot_state.
Proof. solve_decision. Defined.

Record tx_slot := {
  ts_data : Z;
  ts_capacity : Z;
  ts_len : Z;
  ts_token : Z;
  ts_order : Z;
  ts_retry_deadline_ms : Z;
  ts_transport : Z;
  ts_retry_deadline_set : bool;
  ts_state : tx_slot_state;
}.

#[export] Instance tx_slot_eta : Eta tx_slot := fun s =>
  {| ts_data := ts_data s; ts_capacity := ts_capacity s; ts_len := ts_len s; ts_token := ts_token s;
     ts_order := ts_order s; ts_retry_deadline_ms := ts_retry_deadline_ms s;
     ts_transport := ts_transport s; ts_retry_deadline_set := ts_retry_deadline_set s;
     ts_state := ts_state s |}.

Record tx_pool := { tp_slots : list tx_slot; tp_next_token : Z; tp_next_order : Z }.

#[export] Instance tx_pool_eta : Eta tx_pool := fun p =>
  {| tp_slots := tp_slots p; tp_next_token := tp_next_token p; tp_next_order := tp_next_order p |}.

Definition in_state (st : tx_slot_state) (s : tx_slot) : bool := bool_decide (ts_state s = st).

Definition tx_pool_init (n_slots : nat) (slot_capacity : Z) : res tx_pool :=
  if (n_slots =? 0)%nat || (slot_capacity =? 0) then Fail MATTER_E_INVAL else
  Ret {| tp_slots :=
           map (fun i => {| ts_data := Z.of_nat i * slot_capacity; ts_capacity := slot_capacity;
                            ts_len := 0; ts_token := 0; ts_order := 0; ts_retry_deadline_ms := 0;
                            ts_transport := 0; ts_retry_deadline_set := false; ts_state := TX_FREE |})
             (seq 0 n_slots);
         tp_next_token := 0; tp_next_order := 0 |}.

(** The first slot, in index order, that satisfies a test. *)
Definition first_slot (f : tx_slot -> bool) (l : list tx_slot) : option nat :=
  fst <$> list_find (fun s => f s = true) l.

(** [do next_token++ while (next_token == 0)]: one more turn at most. *)
Definition bump_token (t : Z) : Z :=
  let t := u32 (t + 1) in if t =? 0 then u32 (t + 1) else t.

Definition tx_pool_acquire (p : tx_pool) (transport : Z) : option (tx_pool * nat) :=
  match first_slot (in_state TX_FREE) (tp_slots p) with
  | None => None
  | Some i =>
      let token := bump_token (tp_next_token p) in
      let order := u32 (tp_next_order p + 1) in
      Some ({| tp_slots :=
                 alter (fun s => s <| ts_token := token |> <| ts_order := order |>
                                   <| ts_retry_deadline_ms := 0 |> <| ts_retry_deadline_set := false |>
                                   <| ts_transport := transport |> <| ts_len := 0 |>
                                   <| ts_state := TX_BUILDING |>) i (tp_slots p);
               tp_next_token := token; tp_next_order := order |}, i)
  end.

(** A slot the caller names by its pointer. *)
Definition slot_update (p : tx_pool) (i : nat) (f : tx_slot -> tx_slot) : tx_pool :=
  p <| tp_slots := alter f i (tp_slots p) |>.

Definition tx_slot_commit (p : tx_pool) (i : nat) (len : Z) : tx_pool * matter_status :=
  match tp_slots p !! i with
  | None => (p, MATTER_E_INVAL)
  | Some s =>
      if negb (in_state TX_BUILDING s) || (len =? 0) || (ts_capacity s <? len) then (p, MATTER_E_INVAL)
      else (slot_update p i (fun s => s <| ts_len := len |> <| ts_state := TX_READY |>), MATTER_OK)
  end.

(** The loop over the slots, with the oldest so far. *)
Fixpoint ready_scan (transport : Z) (l : list tx_slot) (i : nat) (oldest : option (nat * tx_slot))
    : option (nat * tx_slot) :=
  match l with
  | [] => oldest
  | s :: rest =>
      let oldest :=
        if negb (in_state TX_READY s) || negb (ts_transport s =? transport) then oldest
        else match oldest with
             | None => Some (i, s)
             | Some (_, o) => if elapsed (ts_order s) (ts_order o) <? 0 then Some (i, s) else oldest
             end in
      ready_scan transport rest (S i) oldest
  end.

Definition tx_pool_ready (p : tx_pool) (transport : Z) : option nat :=
  fst <$> ready_scan transport (tp_slots p) 0 None.

Definition tx_slot_in_flight (p : tx_pool) (i : nat) : tx_pool * matter_status :=
  match tp_slots p !! i with
  | None => (p, MATTER_E_STATE)
  | Some s =>
      if negb (in_state TX_READY s) then (p, MATTER_E_STATE)
      else (slot_update p i (fun s => s <| ts_state := TX_IN_FLIGHT |>), MATTER_OK)
  end.

Definition tx_pool_find (p : tx_pool) (token : Z) : option nat :=
  if token =? 0 then None else
  first_slot (fun s => negb (in_state TX_FREE s) && (ts_token s =? token)) (tp_slots p).

(** The operations that look the slot up by its token first. *)
Definition on_token (p : tx_pool) (token : Z) (admits : tx_slot -> bool) (f : tx_slot -> tx_slot)
    : tx_pool * matter_status :=
  match tx_pool_find p token with
  | None => (p, MATTER_E_STATE)
  | Some i =>
      match tp_slots p !! i with
      | None => (p, MATTER_E_STATE)
      | Some s => if admits s then (slot_update p i f, MATTER_OK) else (p, MATTER_E_STATE)
      end
  end.

Definition tx_pool_retry (p : tx_pool) (token now_ms retain_ms : Z) : tx_pool * matter_status :=
  on_token p token (in_state TX_IN_FLIGHT) (fun s =>
    let s := if ts_retry_deadline_set s then s
             else s <| ts_retry_deadline_ms := u32 (now_ms + retain_ms) |>
                    <| ts_retry_deadline_set := true |> in
    s <| ts_state := TX_READY |>).

Definition tx_pool_expired (p : tx_pool) (transport now_ms : Z) : option nat :=
  first_slot (fun s => in_state TX_READY s && (ts_transport s =? transport) && ts_retry_deadline_set s &&
                       (0 <=? elapsed now_ms (ts_retry_deadline_ms s))) (tp_slots p).

Definition free_slot (s : tx_slot) : tx_slot :=
  s <| ts_state := TX_FREE |> <| ts_len := 0 |> <| ts_retry_deadline_ms := 0 |>
    <| ts_retry_deadline_set := false |> <| ts_transport := 0 |>.

Definition tx_pool_release (p : tx_pool) (token : Z) (allow_ready : bool) : tx_pool * matter_status :=
  on_token p token (fun s => in_state TX_IN_FLIGHT s || allow_ready && in_state TX_READY s) free_slot.

Definition tx_pool_cancel (p : tx_pool) (token : Z) : tx_pool * matter_status :=
  on_token p token (in_state TX_BUILDING) free_slot.

Definition tx_pool_complete (p : tx_pool) (token : Z) := tx_pool_release p token false.
Definition tx_pool_reject (p : tx_pool) (token : Z) := tx_pool_release p token true.

(** ** The abstract queue

    Packets in the order they were acquired, numbered from 1 without end.  A
    packet is named by its number; there are no slots, tokens or wrapping
    counters. *)

Record packet := {
  pk_id : Z;
  pk_state : tx_slot_state;
  pk_len : Z;
  pk_transport : Z;
  pk_deadline : option Z;
}.

Record queue := { q_count : Z; q_packets : list packet }.

Definition q_acquire (n : nat) (q : queue) (transport : Z) : option queue :=
  if (n <=? length (q_packets q))%nat then None
  else Some {| q_count := q_count q + 1;
               q_packets := q_packets q ++
                 [{| pk_id := q_count q + 1; pk_state := TX_BUILDING; pk_len := 0;
                     pk_transport := transport; pk_deadline := None |}] |}.

Definition q_get (q : queue) (k : Z) : option packet :=
  snd <$> list_find (fun pk => pk_id pk = k) (q_packets q).

Definition q_set (q : queue) (k : Z) (f : packet -> packet) : queue :=
  {| q_count := q_count q;
     q_packets := map (fun pk => if decide (pk_id pk = k) then f pk else pk) (q_packets q) |}.

Definition q_drop (q : queue) (k : Z) : queue :=
  {| q_count := q_count q; q_packets := filter (fun pk => pk_id pk <> k) (q_packets q) |}.

(** The oldest packet ready for a transport. *)
Definition q_ready (q : queue) (transport : Z) : option packet :=
  snd <$> list_find (fun pk => pk_state pk = TX_READY /\ pk_transport pk = transport) (q_packets q).

(** An operation on one packet, refused unless the packet admits it. *)
Definition q_on (q : queue) (k : Z) (refusal : matter_status) (admits : packet -> bool) (next : queue)
    : queue * matter_status :=
  match q_get q k with
  | Some pk => if admits pk then (next, MATTER_OK) else (q, refusal)
  | None => (q, refusal)
  end.

Definition pk_in (st : tx_slot_state) (pk : packet) : bool := bool_decide (pk_state pk = st).

Definition q_commit (q : queue) (k len capacity : Z) : queue * matter_status :=
  q_on q k MATTER_E_INVAL (fun pk => pk_in TX_BUILDING pk && negb (len =? 0) && (len <=? capacity))
    (q_set q k (fun pk => {| pk_id := pk_id pk; pk_state := TX_READY; pk_len := len;
                             pk_transport := pk_transport pk; pk_deadline := pk_deadline pk |})).

Definition pk_to (st : tx_slot_state) (pk : packet) : packet :=
  {| pk_id := pk_id pk; pk_state := st; pk_len := pk_len pk; pk_transport := pk_transport pk;
     pk_deadline := pk_deadline pk |}.

Definition q_in_flight (q : queue) (k : Z) : queue * matter_status :=
  q_on q k MATTER_E_STATE (pk_in TX_READY) (q_set q k (pk_to TX_IN_FLIGHT)).

(** Only the first failed attempt fixes the deadline. *)
Definition q_retry (q : queue) (k now_ms retain_ms : Z) : queue * matter_status :=
  q_on q k MATTER_E_STATE (pk_in TX_IN_FLIGHT)
    (q_set q k (fun pk => {| pk_id := pk_id pk; pk_state := TX_READY; pk_len := pk_len pk;
       pk_transport := pk_transport pk;
       pk_deadline := Some (default (u32 (now_ms + retain_ms)) (pk_deadline pk)) |})).

Definition q_cancel (q : queue) (k : Z) := q_on q k MATTER_E_STATE (pk_in TX_BUILDING) (q_drop q k).
Definition q_complete (q : queue) (k : Z) := q_on q k MATTER_E_STATE (pk_in TX_IN_FLIGHT) (q_drop q k).
Definition q_reject (q : queue) (k : Z) :=
  q_on q k MATTER_E_STATE (fun pk => pk_in TX_IN_FLIGHT pk || pk_in TX_READY pk) (q_drop q k).

(** * The packet pool implements the abstract queue

    [rep p g q] relates a pool to a queue; the ghost list [g] holds, per slot, the
    number of the packet in it.  While no packet outlives 2^31 later ones, every
    operation of the pool does what the queue does: tokens name one packet, a
    slot in use is never handed out, and packets leave in the order they came. *)

Local Open Scope Z_scope.
Local Open Scope uwl_scope.

(** The token of packet number [k]: 0 is skipped when the counter wraps. *)
Definition tok (k : Z) : Z := if k =? 0 then 0 else 1 + (k - 1) mod (2 ^ 32 - 1).

Definition slot_packet (s : tx_slot) (k : Z) : packet :=
  {| pk_id := k; pk_state := ts_state s; pk_len := ts_len s; pk_transport := ts_transport s;
     pk_deadline := if ts_retry_deadline_set s then Some (ts_retry_deadline_ms s) else None |}.

Fixpoint live (l : list tx_slot) (g : list Z) : list packet :=
  match l, g with
  | s :: l, k :: g => (if in_state TX_FREE s then [] else [slot_packet s k]) ++ live l g
  | _, _ => []
  end.

Definition slot_rep (count : Z) (s : tx_slot) (k : Z) : Prop :=
  in_state TX_FREE s = false -> 1 <= k <= count /\ ts_token s = tok k /\ ts_order s = u32 k.

Record rep (p : tx_pool) (g : list Z) (q : queue) : Prop := {
  rp_count : 0 <= q_count q;
  rp_token : tp_next_token p = tok (q_count q);
  rp_order : tp_next_order p = u32 (q_count q);
  rp_slots : Forall2 (slot_rep (q_count q)) (tp_slots p) g;
  rp_perm : live (tp_slots p) g ≡ₚ q_packets q;
  rp_sorted : StronglySorted (fun a b => pk_id a < pk_id b) (q_packets q);
}.

(** No packet outlives 2^31 later ones. *)
Definition young (q : queue) : Prop :=
  Forall (fun pk => q_count q - pk_id pk < 2 ^ 31) (q_packets q).

(** ** Tokens *)

Lemma bump_tok k : 0 <= k -> bump_token (tok k) = tok (k + 1).
Proof.
  intros Hk. unfold bump_token, tok, wrap. rewrite (proj2 (Z.eqb_neq (k + 1) 0)) by lia.
  replace (k + 1 - 1) with k by lia. destruct (Z.eqb_spec k 0) as [->|Hn]; [done|].
  set (M := 2 ^ 32 - 1). assert (k mod M = if (k - 1) mod M =? M - 1 then 0 else (k - 1) mod M + 1) as E.
  { destruct (Z.eqb_spec ((k - 1) mod M) (M - 1)); unfold M in *; zdiv. }
  rewrite E. pose proof (Z.mod_pos_bound (k - 1) M ltac:(unfold M; lia)).
  remember ((k - 1) mod M) as r eqn:Er. clear Er E. unfold M in *. change (2 ^ 32) with 4294967296 in *.
  destruct (Z.eqb_spec r (4294967296 - 1 - 1)) as [->|]; [done|].
  rewrite (Z.mod_small (1 + r + 1)) by lia. rewrite (proj2 (Z.eqb_neq _ 0)); lia.
Qed.

Lemma tok_pos k : 1 <= k -> 0 < tok k.
Proof.
  intros. unfold tok. rewrite (proj2 (Z.eqb_neq k 0)) by lia.
  pose proof (Z.mod_pos_bound (k - 1) (2 ^ 32 - 1) ltac:(lia)). lia.
Qed.

Lemma tok_inj c j k : 1 <= j <= c -> 1 <= k <= c -> c - j < 2 ^ 31 -> c - k < 2 ^ 31 ->
  tok j = tok k -> j = k.
Proof.
  intros Hj Hk Aj Ak. unfold tok. rewrite !(proj2 (Z.eqb_neq _ 0)) by lia. intros E. zdiv.
Qed.

(** ** Live packets *)

Definition ids (l : list packet) : list Z := map pk_id l.

Lemma live_in l g pk : In pk (live l g) <->
  exists i s k, l !! i = Some s /\ g !! i = Some k /\ in_state TX_FREE s = false /\ pk = slot_packet s k.
Proof.
  revert g. induction l as [|s l IH]; intros [|k g]; cbn [live];
    try (split; [done|]; intros (i & s' & k' & H1 & H2 & _); by destruct i).
  rewrite in_app_iff, IH. split.
  - intros [H|(i & s' & k' & H)]; [|by exists (S i), s', k'].
    destruct (in_state TX_FREE s) eqn:Es; [done|]. destruct H as [<-|[]]. by exists 0%nat, s, k.
  - intros ([|i] & s' & k' & H1 & H2 & H3 & ->); [|right; by exists i, s', k'].
    simplify_eq/=. left. rewrite H3. by left.
Qed.

Lemma live_alter l g i s k f fp :
  l !! i = Some s -> g !! i = Some k -> in_state TX_FREE s = false -> in_state TX_FREE (f s) = false ->
  slot_packet (f s) k = fp (slot_packet s k) -> List.NoDup (ids (live l g)) ->
  live (alter f i l) g = map (fun pk => if decide (pk_id pk = k) then fp pk else pk) (live l g).
Proof.
  revert g i. induction l as [|s' l IH]; intros [|k' g] [|i] Hl Hg Hs Hf Hp Hnd; simplify_eq/=.
  - rewrite Hs, Hf in *. cbn [app map ids] in *. rewrite decide_True by done. rewrite Hp. f_equal.
    apply List.NoDup_cons_iff in Hnd as [Hn _]. symmetry. erewrite map_ext_in; [apply map_id|].
    intros pk Hin. cbv beta. rewrite decide_False; [done|]. intros E. apply Hn. change (In k (ids (live l g))).
    rewrite <- E. by apply in_map.
  - rewrite map_app. unfold ids in Hnd. rewrite map_app in Hnd. rewrite <- (IH g i); try done.
    + f_equal. destruct (in_state TX_FREE s'); [done|]. cbn [map app] in *.
      rewrite decide_False; [done|]. intros E. cbn [slot_packet pk_id] in E. subst k'.
      apply List.NoDup_cons_iff in Hnd as [Hn _]. apply Hn. apply in_map_iff. exists (slot_packet s k).
      split; [done|]. apply live_in. by exists i, s, k.
    + by apply List.NoDup_app_remove_l in Hnd.
Qed.

Lemma filter_all {A} (P : A -> Prop) `{forall x, Decision (P x)} (l : list A) :
  (forall x, In x l -> P x) -> filter P l = l.
Proof.
  induction l as [|x l IH]; intros Hl; [done|]. rewrite filter_cons_True by (apply Hl; by left).
  f_equal. apply IH. intros y Hy. apply Hl. by right.
Qed.

Lemma live_free l g i s k f :
  l !! i = Some s -> g !! i = Some k -> in_state TX_FREE s = false -> in_state TX_FREE (f s) = true ->
  List.NoDup (ids (live l g)) ->
  live (alter f i l) g = filter (fun pk => pk_id pk <> k) (live l g).
Proof.
  revert g i. induction l as [|s' l IH]; intros [|k' g] [|i] Hl Hg Hs Hf Hnd; simplify_eq/=.
  - rewrite Hs, Hf in *. cbn [app map ids] in *. rewrite filter_cons_False by (intros Hne; by apply Hne).
    apply List.NoDup_cons_iff in Hnd as [Hn _]. symmetry. apply filter_all.
    intros pk Hin E. apply Hn. change (pk_id (slot_packet s k)) with k. rewrite <- E. by apply in_map.
  - rewrite list.filter_app. unfold ids in Hnd. rewrite map_app in Hnd. rewrite <- (IH g i); try done.
    + f_equal. destruct (in_state TX_FREE s'); [done|]. cbn [map app] in *.
      rewrite filter_cons_True; [done|]. intros E. cbn [slot_packet pk_id] in E. subst k'.
      apply List.NoDup_cons_iff in Hnd as [Hn _]. apply Hn. apply in_map_iff. exists (slot_packet s k).
      split; [done|]. apply live_in. by exists i, s, k.
    + by apply List.NoDup_app_remove_l in Hnd.
Qed.

Lemma live_acquire l g i s k f :
  l !! i = Some s -> (i < length g)%nat -> in_state TX_FREE s = true -> in_state TX_FREE (f s) = false ->
  live (alter f i l) (<[i := k]> g) ≡ₚ live l g ++ [slot_packet (f s) k].
Proof.
  revert g i. induction l as [|s' l IH]; intros [|k' g] [|i] Hl Hg Hs Hf; simplify_eq/=; try lia.
  - rewrite Hs, Hf. cbn [app]. apply Permutation_cons_append.
  - rewrite <- app_assoc. apply Permutation_app_head, IH; [done|lia|done|done].
Qed.

Lemma length_live l g : (length (live l g) <= length l)%nat.
Proof.
  revert g. induction l as [|s l IH]; intros [|k g]; cbn [live length]; try lia.
  rewrite length_app. specialize (IH g). destruct (in_state TX_FREE s); simpl; lia.
Qed.

Lemma live_full l g :
  length g = length l -> first_slot (in_state TX_FREE) l = None <-> length (live l g) = length l.
Proof.
  intros Hl. unfold first_slot. rewrite fmap_None, list_find_None.
  revert g Hl. induction l as [|s l IH]; intros [|k g] Hl; simplify_eq/=; [by split|].
  rewrite length_app, Forall_cons_iff, (IH g Hl). pose proof (length_live l g).
  destruct (in_state TX_FREE s); simpl; split; lia.
Qed.

(** ** The relation *)

Lemma rep_nodup p g q : rep p g q -> List.NoDup (ids (live (tp_slots p) g)).
Proof.
  intros [_ _ _ _ Hp Hs]. apply (Permutation_NoDup (l := ids (q_packets q))).
  { apply Permutation_map. by symmetry. }
  clear -Hs. induction Hs as [|pk l _ IH Hall]; [constructor|]. cbn. constructor; [|done].
  intros Hin. apply in_map_iff in Hin as (pk' & He & Hin). rewrite List.Forall_forall in Hall.
  specialize (Hall _ Hin). lia.
Qed.

Lemma rep_length p g q : rep p g q -> length g = length (tp_slots p).
Proof. intros [_ _ _ H _ _]. symmetry. by eapply Forall2_length. Qed.

(** A slot in use holds a packet of the queue. *)
Lemma rep_slot p g q i s :
  rep p g q -> tp_slots p !! i = Some s -> in_state TX_FREE s = false ->
  exists k, g !! i = Some k /\ In (slot_packet s k) (q_packets q) /\ 1 <= k <= q_count q /\
    ts_token s = tok k /\ ts_order s = u32 k.
Proof.
  intros Hr Hi Hs. pose proof Hr as [_ _ _ Hsl Hp _]. 
  destruct (Forall2_lookup_l _ _ _ _ _ Hsl Hi) as (k & Hk & Hsr). destruct (Hsr Hs) as (? & ? & ?).
  exists k. split_and!; try done; try lia. eapply Permutation_in; [exact Hp|]. apply live_in. by exists i, s, k.
Qed.

(** A packet of the queue is in a slot, and only one. *)
Lemma rep_packet p g q pk :
  rep p g q -> In pk (q_packets q) ->
  exists i s, tp_slots p !! i = Some s /\ in_state TX_FREE s = false /\ g !! i = Some (pk_id pk) /\
    pk = slot_packet s (pk_id pk).
Proof.
  intros Hr Hin. pose proof Hr as [_ _ _ _ Hp _].
  apply (Permutation_in _ (Permutation_sym Hp)) in Hin.
  apply live_in in Hin as (i & s & k & ? & ? & ? & ->). by exists i, s.
Qed.

Lemma ids_inj q pk pk' :
  StronglySorted (fun a b => pk_id a < pk_id b) (q_packets q) ->
  In pk (q_packets q) -> In pk' (q_packets q) -> pk_id pk = pk_id pk' -> pk = pk'.
Proof.
  intros Hs. induction Hs as [|x l _ IH Hall]; [done|]. rewrite List.Forall_forall in Hall.
  intros [<-|H1] [<-|H2] E; auto.
  - specialize (Hall _ H2). lia.
  - specialize (Hall _ H1). lia.
Qed.

(** Finding the slot of a packet by its token. *)
Lemma rep_find p g q k :
  rep p g q -> young q -> In k (ids (q_packets q)) ->
  exists i s, tx_pool_find p (tok k) = Some i /\ tp_slots p !! i = Some s /\ g !! i = Some k /\
    in_state TX_FREE s = false /\ In (slot_packet s k) (q_packets q).
Proof.
  intros Hr Hy Hin. apply in_map_iff in Hin as (pk & <- & Hin).
  destruct (rep_packet p g q pk Hr Hin) as (i & s & Hi & Hs & Hg & Hpk).
  destruct (rep_slot p g q i s Hr Hi Hs) as (k & Hk & _ & Hr1 & Ht & _). rewrite Hg in Hk. injection Hk as <-.
  unfold tx_pool_find. pose proof (tok_pos (pk_id pk) ltac:(lia)).
  rewrite (proj2 (Z.eqb_neq _ 0)) by lia. unfold first_slot.
  destruct (list_find _ (tp_slots p)) as [[j s']|] eqn:E.
  2:{ exfalso. apply list_find_None in E. rewrite Forall_lookup in E. apply (E i s Hi).
      rewrite Hs, Ht, Z.eqb_refl. done. }
  apply list_find_Some in E as (Hj & Ht' & _). apply andb_true_iff in Ht' as [Hs' Ht'].
  apply negb_true_iff in Hs'. apply Z.eqb_eq in Ht'.
  destruct (rep_slot p g q j s' Hr Hj Hs') as (k' & Hk' & Hin' & Hr2 & Ht2 & _).
  unfold young in Hy. rewrite List.Forall_forall in Hy.
  assert (k' = pk_id pk) as ->.
  { apply (tok_inj (q_count q)); [lia|lia|apply (Hy _ Hin')|apply (Hy _ Hin)|congruence]. }
  exists j, s'. by split_and!.
Qed.

(** Every token that finds a slot is the token of a packet. *)
Lemma rep_find_inv p g q token i :
  rep p g q -> tx_pool_find p token = Some i -> exists k, token = tok k /\ In k (ids (q_packets q)).
Proof.
  intros Hr. unfold tx_pool_find. destruct (token =? 0); [done|]. unfold first_slot. intros H.
  apply fmap_Some in H as ([j s] & H & ->). apply list_find_Some in H as (Hj & Ht & _).
  apply andb_true_iff in Ht as [Hs Ht]. apply negb_true_iff in Hs. apply Z.eqb_eq in Ht.
  destruct (rep_slot p g q j s Hr Hj Hs) as (k & _ & Hin & _ & Htk & _).
  exists k. split; [congruence|]. apply (in_map pk_id) in Hin. done.
Qed.

(** ** Operations on one packet *)

Lemma sorted_map_id (f : packet -> packet) l :
  (forall pk, pk_id (f pk) = pk_id pk) ->
  StronglySorted (fun a b => pk_id a < pk_id b) l ->
  StronglySorted (fun a b => pk_id a < pk_id b) (map f l).
Proof.
  intros Hf. induction 1 as [|pk l _ IH Hall]; [constructor|]. cbn [map]. constructor; [done|].
  apply List.Forall_map. eapply List.Forall_impl; [|exact Hall]. cbv beta. intros. by rewrite !Hf.
Qed.

Lemma sorted_filter (P : packet -> Prop) `{forall x, Decision (P x)} l :
  StronglySorted (fun a b => pk_id a < pk_id b) l ->
  StronglySorted (fun a b => pk_id a < pk_id b) (filter P l).
Proof.
  induction 1 as [|pk l _ IH Hall]; [constructor|]. rewrite filter_cons. case_decide; [|done].
  constructor; [done|]. apply List.Forall_forall. intros x Hx. apply list_elem_of_In, list_elem_of_filter in Hx as [_ Hx].
  rewrite List.Forall_forall in Hall. apply Hall. by apply list_elem_of_In.
Qed.

Lemma slots_alter count l g i s f :
  Forall2 (slot_rep count) l g -> l !! i = Some s ->
  (in_state TX_FREE (f s) = false ->
     in_state TX_FREE s = false /\ ts_token (f s) = ts_token s /\ ts_order (f s) = ts_order s) ->
  Forall2 (slot_rep count) (alter f i l) g.
Proof.
  intros Hl. revert i. induction Hl as [|s' k l g Hs Hl IH]; intros [|i] Hi Hf; simplify_eq/=;
    constructor; eauto.
  intros Hfs. destruct (Hf Hfs) as (Hls & -> & ->). by apply Hs.
Qed.

Lemma rep_set p g q i s k f fp :
  rep p g q -> tp_slots p !! i = Some s -> g !! i = Some k -> in_state TX_FREE s = false ->
  in_state TX_FREE (f s) = false -> ts_token (f s) = ts_token s -> ts_order (f s) = ts_order s ->
  slot_packet (f s) k = fp (slot_packet s k) -> (forall pk, pk_id (fp pk) = pk_id pk) ->
  rep (slot_update p i f) g (q_set q k fp).
Proof.
  intros Hr Hi Hg Hs Hf Ht Ho Hp Hid. pose proof (rep_nodup p g q Hr) as Hnd. destruct Hr.
  constructor; cbn [slot_update field_set tp_slots tp_next_token tp_next_order q_set q_count q_packets]; try done.
  - by eapply slots_alter.
  - rewrite (live_alter _ g i s k f fp) by done. by apply Permutation_map.
  - apply sorted_map_id; [|done]. intros pk. by case_decide.
Qed.

Lemma rep_drop p g q i s k f :
  rep p g q -> tp_slots p !! i = Some s -> g !! i = Some k -> in_state TX_FREE s = false ->
  in_state TX_FREE (f s) = true -> rep (slot_update p i f) g (q_drop q k).
Proof.
  intros Hr Hi Hg Hs Hf. pose proof (rep_nodup p g q Hr) as Hnd. destruct Hr.
  constructor; cbn [slot_update field_set tp_slots tp_next_token tp_next_order q_drop q_count q_packets]; try done.
  - eapply slots_alter; [done|done|]. rewrite Hf. done.
  - rewrite (live_free _ g i s k f) by done. by rewrite rp_perm0.
  - by apply sorted_filter.
Qed.

Lemma q_get_in q pk :
  StronglySorted (fun a b => pk_id a < pk_id b) (q_packets q) ->
  In pk (q_packets q) -> q_get q (pk_id pk) = Some pk.
Proof.
  intros Hs Hin. unfold q_get. destruct (list_find _ (q_packets q)) as [[j pk']|] eqn:E.
  - apply list_find_Some in E as (Hj & Hid & _). cbn. f_equal. eapply ids_inj; [done| |done|done].
    by eapply list_elem_of_In, list_elem_of_lookup_2.
  - apply list_find_None in E. rewrite List.Forall_forall in E. by destruct (E _ Hin).
Qed.

Lemma q_get_none q k : ~ In k (ids (q_packets q)) -> q_get q k = None.
Proof.
  intros Hn. unfold q_get. destruct (list_find _ (q_packets q)) as [[j pk']|] eqn:E; [|done].
  apply list_find_Some in E as (Hj & <- & _). exfalso. apply Hn. apply in_map.
  by eapply list_elem_of_In, list_elem_of_lookup_2.
Qed.

(** The pool and the queue agree on the answer and stay related. *)
Definition sim (g : list Z) (r : tx_pool * matter_status) (rq : queue * matter_status) : Prop :=
  rep r.1 g rq.1 /\ r.2 = rq.2.

(** A packet number that can still be told from a newer one by its token. *)
Definition recent (q : queue) (k : Z) : Prop := 1 <= k <= q_count q /\ q_count q - k < 2 ^ 31.

Lemma on_token_sim p g q k admits f admits' next :
  rep p g q -> young q -> recent q k ->
  (forall s, admits s = admits' (slot_packet s k)) ->
  (forall i s, tp_slots p !! i = Some s -> g !! i = Some k -> in_state TX_FREE s = false -> admits s = true ->
     rep (slot_update p i f) g next) ->
  sim g (on_token p (tok k) admits f) (q_on q k MATTER_E_STATE admits' next).
Proof.
  intros Hr Hy [Hk Ha] Had Hnext. unfold on_token, q_on.
  destruct (in_dec Z.eq_dec k (ids (q_packets q))) as [Hin|Hn].
  - destruct (rep_find p g q k Hr Hy Hin) as (i & s & -> & Hi & Hg & Hs & Hin').
    rewrite Hi. assert (q_get q k = Some (slot_packet s k)) as ->
      by exact (q_get_in q (slot_packet s k) (rp_sorted _ _ _ Hr) Hin'). rewrite <- Had.
    destruct (admits s) eqn:E; split; cbn [fst snd]; eauto.
  - rewrite (q_get_none q k Hn). destruct (tx_pool_find p (tok k)) as [i|] eqn:E; [|by split].
    exfalso. destruct (rep_find_inv p g q _ i Hr E) as (k' & Ht & Hin). apply Hn.
    assert (k = k') as ->; [|done]. apply in_map_iff in Hin as (pk & <- & Hin).
    destruct (rep_packet p g q pk Hr Hin) as (j & s & Hj & Hs & Hg & _).
    destruct (rep_slot p g q j s Hr Hj Hs) as (k'' & Hk' & _ & Hr2 & _). rewrite Hg in Hk'. injection Hk' as <-.
    unfold young in Hy. rewrite List.Forall_forall in Hy.
    apply (tok_inj (q_count q)); [lia|lia|lia|apply (Hy _ Hin)|done].
Qed.

(** ** The oldest ready packet *)

Definition matches (t : Z) (s : tx_slot) : bool := in_state TX_READY s && (ts_transport s =? t).

(** A slot the scan has to consider: the best so far, or one still to come. *)
Definition cand (t : Z) (l : list tx_slot) (g : list Z) (i : nat) (best : option (nat * tx_slot * Z))
    (j : nat) (s : tx_slot) (k : Z) : Prop :=
  (exists n, j = (i + n)%nat /\ l !! n = Some s /\ g !! n = Some k /\ matches t s = true) \/
  best = Some (j, s, k).

Lemma cand_cons t s0 l k0 g i best j s k :
  cand t (s0 :: l) (k0 :: g) i best j s k <->
  (j = i /\ s = s0 /\ k = k0 /\ matches t s0 = true) \/ cand t l g (S i) best j s k.
Proof.
  unfold cand. split.
  - intros [([|n] & -> & H1 & H2 & H3)|Hb]; [| |by right; right].
    + simplify_eq/=. left. split_and!; [lia|done..].
    + right. left. exists n. split_and!; [lia|done..].
  - intros [(-> & -> & -> & Hm)|[(n & -> & H)|Hb]]; [|left; exists (S n)|by right].
    + left. exists 0%nat. split_and!; [lia|done..].
    + split; [lia|done].
Qed.

Lemma ready_scan_spec c t l g i best :
  length g = length l ->
  (forall j s k, cand t l g i best j s k -> 1 <= k <= c /\ c - k < 2 ^ 31 /\ ts_order s = u32 k) ->
  match ready_scan t l i (fst <$> best) with
  | None => forall j s k, ~ cand t l g i best j s k
  | Some (j, s) => exists k, cand t l g i best j s k /\ forall j' s' k', cand t l g i best j' s' k' -> k <= k'
  end.
Proof.
  revert g i best. induction l as [|s0 l IH]; intros [|k0 g] i best Hl Hc; simplify_eq/=.
  { destruct best as [[[j s] k]|]; cbn.
    - exists k. split; [by right|]. intros j' s' k' [(n & _ & Hn & _)|[= <- <- <-]]; [done|lia].
    - intros j s k [(n & _ & Hn & _)|Hn]; done. }
  assert (forall best', (forall j s k, cand t l g (S i) best' j s k -> cand t (s0 :: l) (k0 :: g) i best j s k) ->
    (forall j s k, cand t (s0 :: l) (k0 :: g) i best j s k -> exists j' s' k', cand t l g (S i) best' j' s' k' /\ k' <= k) ->
    match ready_scan t l (S i) (fst <$> best') with
    | None => forall j s k, ~ cand t (s0 :: l) (k0 :: g) i best j s k
    | Some (j, s) => exists k, cand t (s0 :: l) (k0 :: g) i best j s k /\
        forall j' s' k', cand t (s0 :: l) (k0 :: g) i best j' s' k' -> k <= k'
    end) as Hgo.
  { intros best' Hsub Hsup. specialize (IH g (S i) best' Hl (fun j s k Hx => Hc j s k (Hsub j s k Hx))).
    destruct (ready_scan t l (S i) (fst <$> best')) as [[j s]|].
    - destruct IH as (k & Hk & Hmin). exists k. split; [auto|]. intros j' s' k' H'.
      destruct (Hsup _ _ _ H') as (j2 & s2 & k2 & H2 & ?). specialize (Hmin _ _ _ H2). lia.
    - intros j s k H'. destruct (Hsup _ _ _ H') as (j2 & s2 & k2 & H2 & _). by apply (IH _ _ _ H2). }
  assert (negb (in_state TX_READY s0) || negb (ts_transport s0 =? t) = negb (matches t s0)) as ->
    by (unfold matches; by rewrite negb_andb).
  destruct (matches t s0) eqn:Em; cbn [negb].
  2:{ apply Hgo.
      - intros j s k H'. apply cand_cons. by right.
      - intros j s k H'. apply cand_cons in H' as [(_ & _ & _ & ?)|H']; [congruence|]. exists j, s, k. split; [done|lia]. }
  destruct best as [[[j0 o] ko]|]; cbn [fmap option_fmap option_map fst].
  - assert (1 <= ko <= c /\ c - ko < 2 ^ 31 /\ ts_order o = u32 ko) as (Hko & Ako & Ho)
      by (apply (Hc j0 o ko), cand_cons; right; by right).
    assert (1 <= k0 <= c /\ c - k0 < 2 ^ 31 /\ ts_order s0 = u32 k0) as (Hk0 & Ak0 & Ho0)
      by (apply (Hc i s0 k0), cand_cons; by left).
    rewrite Ho, Ho0, elapsed_abs by lia. destruct (Z.ltb_spec (k0 - ko) 0).
    + apply (Hgo (Some (i, s0, k0))).
      * intros j s k [H'|[= <- <- <-]]; apply cand_cons; [right; by left|by left].
      * intros j s k H'. apply cand_cons in H' as [(-> & -> & -> & _)|[H'|[= <- <- <-]]].
        -- exists i, s0, k0. split; [by right|lia].
        -- exists j, s, k. split; [by left|lia].
        -- exists i, s0, k0. split; [by right|lia].
    + apply (Hgo (Some (j0, o, ko))).
      * intros j s k H'. apply cand_cons. by right.
      * intros j s k H'. apply cand_cons in H' as [(-> & -> & -> & _)|H'].
        -- exists j0, o, ko. split; [by right|lia].
        -- exists j, s, k. split; [done|lia].
  - apply (Hgo (Some (i, s0, k0))).
    + intros j s k [H'|[= <- <- <-]]; apply cand_cons; [right; by left|by left].
    + intros j s k H'. apply cand_cons in H' as [(-> & -> & -> & _)|[H'|?]]; [| |done].
      * exists i, s0, k0. split; [by right|lia].
      * exists j, s, k. split; [by left|lia].
Qed.

Lemma first_is_least (P : packet -> Prop) `{forall x, Decision (P x)} l pk :
  StronglySorted (fun a b => pk_id a < pk_id b) l -> In pk l -> P pk ->
  (forall pk', In pk' l -> P pk' -> pk_id pk <= pk_id pk') -> snd <$> list_find P l = Some pk.
Proof.
  intros Hs. induction Hs as [|x l _ IH Hall]; [done|]. intros Hin HP Hmin. cbn [list_find].
  rewrite List.Forall_forall in Hall. case_decide as Hx.
  - cbn. f_equal. destruct Hin as [->|Hin]; [done|]. specialize (Hall _ Hin). specialize (Hmin x ltac:(by left) Hx). lia.
  - destruct Hin as [->|Hin]; [done|]. specialize (IH Hin HP ltac:(intros; apply Hmin; [by right|done])).
    destruct (list_find P l) as [[j y]|]; [|done]. done.
Qed.

Lemma rep_ready p g q t :
  rep p g q -> young q ->
  match tx_pool_ready p t with
  | None => q_ready q t = None
  | Some i => exists s k, tp_slots p !! i = Some s /\ g !! i = Some k /\ q_ready q t = Some (slot_packet s k)
  end.
Proof.
  intros Hr Hy. unfold tx_pool_ready, q_ready. pose proof Hy as Hy'. unfold young in Hy'. rewrite List.Forall_forall in Hy'.
  assert (forall s, matches t s = true <-> ts_state s = TX_READY /\ ts_transport s = t) as Hm.
  { intros s. unfold matches, in_state. by rewrite andb_true_iff, bool_decide_eq_true, Z.eqb_eq. }
  assert (forall s, matches t s = true -> in_state TX_FREE s = false) as Hlive.
  { intros s Hs. apply Hm in Hs as [Hs _]. unfold in_state. apply bool_decide_eq_false. congruence. }
  pose proof (ready_scan_spec (q_count q) t (tp_slots p) g 0 None (rep_length _ _ _ Hr)) as Hscan.
  cbn [fmap option_fmap option_map] in Hscan.
  assert (forall j s k, cand t (tp_slots p) g 0 None j s k ->
    tp_slots p !! j = Some s /\ g !! j = Some k /\ matches t s = true) as Hc.
  { intros j s k [(n & -> & H)|?]; [done|done]. }
  destruct (ready_scan t (tp_slots p) 0 None) as [[j s]|]; cbn [fmap option_fmap option_map fst].
  - destruct Hscan as (k & Hk & Hmin).
    { intros j' s' k' (H1 & H2 & H3)%Hc. destruct (rep_slot p g q j' s' Hr H1 (Hlive _ H3)) as (k & E & Hin & ? & _ & ?).
      rewrite H2 in E. injection E as <-. split_and!; [lia|lia|apply (Hy' _ Hin)|done]. }
    apply Hc in Hk as (H1 & H2 & H3). exists s, k. split_and!; [done|done|].
    destruct (rep_slot p g q j s Hr H1 (Hlive _ H3)) as (k' & E & Hin & _). rewrite H2 in E. injection E as <-.
    apply first_is_least; [apply Hr|done|by apply Hm|].
    intros pk' Hin' HP. destruct (rep_packet p g q pk' Hr Hin') as (i' & s' & H1' & _ & H2' & E). cbn [slot_packet pk_id].
    apply (Hmin i' s'). left. exists i'. split_and!; [done|done|done|]. apply Hm. by rewrite E in HP.
  - apply fmap_None, list_find_None, List.Forall_forall. intros pk' Hin' HP.
    destruct (rep_packet p g q pk' Hr Hin') as (i' & s' & H1' & _ & H2' & E).
    refine (Hscan _ i' s' (pk_id pk') _).
    + intros j' s2 k' (G1 & G2 & G3)%Hc. destruct (rep_slot p g q j' s2 Hr G1 (Hlive _ G3)) as (k & E' & Hin & ? & _ & ?).
      rewrite G2 in E'. injection E' as <-. split_and!; [lia|lia|apply (Hy' _ Hin)|done].
    + left. exists i'. split_and!; [done|done|done|]. apply Hm. by rewrite E in HP.
Qed.

Lemma rep_init n cap p : tx_pool_init n cap = Ret p -> rep p (replicate n 0) {| q_count := 0; q_packets := [] |}.
Proof.
  unfold tx_pool_init. case_match; [done|]. intros Hp. apply Ret_inj in Hp as <-.
  assert (forall m, Forall2 (slot_rep 0) (map (fun i => {| ts_data := Z.of_nat i * cap; ts_capacity := cap;
     ts_len := 0; ts_token := 0; ts_order := 0; ts_retry_deadline_ms := 0;
     ts_transport := 0; ts_retry_deadline_set := false; ts_state := TX_FREE |}) (seq m n)) (replicate n 0) /\
    live (map (fun i => {| ts_data := Z.of_nat i * cap; ts_capacity := cap;
     ts_len := 0; ts_token := 0; ts_order := 0; ts_retry_deadline_ms := 0;
     ts_transport := 0; ts_retry_deadline_set := false; ts_state := TX_FREE |}) (seq m n)) (replicate n 0) = []) as Hall.
  { clear. induction n as [|n IH]; intros m; [done|]. cbn [seq map replicate live]. destruct (IH (S m)) as [H1 H2].
    split; [|exact H2]. constructor; [done|exact H1]. }
  destruct (Hall 0%nat) as [H1 H2].
  constructor; cbn [tp_slots tp_next_token tp_next_order q_count q_packets]; try done; [|constructor].
  by rewrite H2.
Qed.

Lemma slots_acquire c l g i s f :
  Forall2 (slot_rep c) l g -> l !! i = Some s -> 0 <= c ->
  ts_token (f s) = tok (c + 1) /\ ts_order (f s) = u32 (c + 1) ->
  Forall2 (slot_rep (c + 1)) (alter f i l) (<[i := c + 1]> g).
Proof.
  intros Hl. assert (forall l' g', Forall2 (slot_rep c) l' g' -> Forall2 (slot_rep (c + 1)) l' g') as Hw.
  { intros l' g' H. eapply Forall2_impl; [|exact H]. intros x k Hx Hs. destruct (Hx Hs) as (? & ? & ?). split; [lia|done]. }
  revert i. induction Hl as [|s' k l g Hs Hl IH]; intros [|i] Hi Hc [Ht Ho]; simplify_eq/=; constructor; auto.
  - intros _. split; [lia|done].
  - intros Hx. destruct (Hs Hx) as (? & ? & ?). split; [lia|done].
Qed.

Lemma sorted_snoc l pk :
  StronglySorted (fun a b => pk_id a < pk_id b) l -> Forall (fun x => pk_id x < pk_id pk) l ->
  StronglySorted (fun a b => pk_id a < pk_id b) (l ++ [pk]).
Proof.
  induction 1 as [|x l _ IH Hall]; intros H; cbn [app]; [by repeat constructor|].
  apply Forall_cons_iff in H as [Hx H]. constructor; [by apply IH|]. apply Forall_app. split; [done|]. by constructor.
Qed.

Lemma commit_sim p g q i s k len :
  rep p g q -> tp_slots p !! i = Some s -> g !! i = Some k -> in_state TX_FREE s = false ->
  q_get q k = Some (slot_packet s k) ->
  sim g (tx_slot_commit p i len) (q_commit q k len (ts_capacity s)).
Proof.
  intros Hr Hi Hg Hs Hq. unfold tx_slot_commit, q_commit, q_on. rewrite Hi, Hq.
  assert (negb (in_state TX_BUILDING s) || (len =? 0) || (ts_capacity s <? len) =
    negb (pk_in TX_BUILDING (slot_packet s k) && negb (len =? 0) && (len <=? ts_capacity s))) as ->.
  { rewrite !negb_andb, negb_involutive, <- Z.ltb_antisym. done. }
  destruct (_ && _ && _); split; try done. by apply (rep_set p g q i s k).
Qed.

Lemma in_flight_sim p g q i s k :
  rep p g q -> tp_slots p !! i = Some s -> g !! i = Some k -> in_state TX_FREE s = false ->
  q_get q k = Some (slot_packet s k) -> sim g (tx_slot_in_flight p i) (q_in_flight q k).
Proof.
  intros Hr Hi Hg Hs Hq. unfold tx_slot_in_flight, q_in_flight, q_on. rewrite Hi, Hq.
  change (pk_in TX_READY (slot_packet s k)) with (in_state TX_READY s).
  destruct (in_state TX_READY s); split; try done. by apply (rep_set p g q i s k).
Qed.

Lemma rep_acquire p g q t :
  rep p g q ->
  match tx_pool_acquire p t with
  | None => q_acquire (length (tp_slots p)) q t = None
  | Some (p', i) => exists q' s, q_acquire (length (tp_slots p)) q t = Some q' /\
      tp_slots p !! i = Some s /\ ts_state s = TX_FREE /\ rep p' (<[i := q_count q + 1]> g) q'
  end.
Proof.
  intros Hr. pose proof (rep_length p g q Hr) as Hl. pose proof (live_full (tp_slots p) g Hl) as Hfull.
  pose proof (length_live (tp_slots p) g) as Hle. unfold tx_pool_acquire, q_acquire.
  pose proof Hr as [Hc Ht Ho Hsl Hp Hso]. rewrite (Permutation_length Hp) in Hfull, Hle.
  destruct (first_slot _ _) as [i|] eqn:E.
  2:{ by rewrite (proj2 (Nat.leb_le _ _)) by (rewrite (proj1 Hfull eq_refl); lia). }
  rewrite (proj2 (Nat.leb_gt _ _)) by (destruct (Nat.eq_dec (length (q_packets q)) (length (tp_slots p))) as [Heq|];
    [apply Hfull in Heq; done|lia]).
  unfold first_slot in E. apply fmap_Some in E as ([j s] & E & ->). cbn [fst]. apply list_find_Some in E as (Hj & Hs & _).
  eexists _, s. split_and!; [done|done|by apply bool_decide_eq_true in Hs|].
  set (f := fun s : tx_slot => _). assert (in_state TX_FREE (f s) = false) as Hf by done.
  pose proof (lookup_lt_Some _ _ _ Hj) as Hlt.
  assert (Forall (fun pk => pk_id pk <= q_count q) (q_packets q)) as Hids.
  { apply List.Forall_forall. intros pk Hin. destruct (rep_packet p g q pk Hr Hin) as (i & s' & H1 & H2 & H3 & _).
    destruct (rep_slot p g q i s' Hr H1 H2) as (k & E & _ & Hk & _). rewrite H3 in E. injection E as <-. lia. }
  constructor; cbn [tp_slots tp_next_token tp_next_order q_count q_packets].
  - lia.
  - rewrite Ht. by apply bump_tok.
  - rewrite Ho. apply u32_add_l.
  - apply (slots_acquire _ _ _ _ _ f Hsl Hj); [lia|].
    unfold f. cbn [field_set ts_token ts_order]. rewrite Ht, Ho. split; [by apply bump_tok|apply u32_add_l].
  - rewrite (live_acquire _ g j s _ f) by (done || lia). by rewrite Hp.
  - apply sorted_snoc; [done|]. eapply List.Forall_impl; [|exact Hids]. cbn. lia.
Qed.

(** C35: The pool implements the abstract queue: from any related state in
    which no packet has outlived 2^31 later ones, acquiring gives a free slot
    and a new packet exactly when the queue has room; committing and taking a
    slot in flight, and retrying, cancelling, completing and rejecting by token,
    answer and act as the queue does on the packet of that number, also when it
    is gone; and the slot offered for transmission holds the oldest ready packet
    of its transport. *)
Theorem tx_pool_refines p g q :
  rep p g q -> young q ->
  (forall t, match tx_pool_acquire p t with
     | None => q_acquire (length (tp_slots p)) q t = None
     | Some (p', i) => exists q' s, q_acquire (length (tp_slots p)) q t = Some q' /\
         tp_slots p !! i = Some s /\ ts_state s = TX_FREE /\ rep p' (<[i := q_count q + 1]> g) q'
     end) /\
  (forall i s k len, tp_slots p !! i = Some s -> g !! i = Some k -> ts_state s <> TX_FREE ->
     sim g (tx_slot_commit p i len) (q_commit q k len (ts_capacity s)) /\
     sim g (tx_slot_in_flight p i) (q_in_flight q k)) /\
  (forall k now_ms retain_ms, recent q k ->
     sim g (tx_pool_retry p (tok k) now_ms retain_ms) (q_retry q k now_ms retain_ms) /\
     sim g (tx_pool_cancel p (tok k)) (q_cancel q k) /\
     sim g (tx_pool_complete p (tok k)) (q_complete q k) /\
     sim g (tx_pool_reject p (tok k)) (q_reject q k)) /\
  (forall t, match tx_pool_ready p t with
     | None => q_ready q t = None
     | Some i => exists s k, tp_slots p !! i = Some s /\ g !! i = Some k /\ q_ready q t = Some (slot_packet s k)
     end).
Proof.
  intros Hr Hy. split_and!.
  - intros t. by apply rep_acquire.
  - intros i s k len Hi Hg Hs. assert (in_state TX_FREE s = false) as Hs' by (by apply bool_decide_eq_false).
    destruct (rep_slot p g q i s Hr Hi Hs') as (k' & E & Hin & _). rewrite Hg in E. injection E as <-.
    pose proof (q_get_in q (slot_packet s k) (rp_sorted _ _ _ Hr) Hin) as Hq. cbn [slot_packet pk_id] in Hq.
    split; [by apply commit_sim|by apply (in_flight_sim p g q i s k)].
  - intros k now retain Hk. split_and!; apply on_token_sim; try done.
    + intros i s Hi Hg Hs _. apply (rep_set p g q i s k); try done; try (by case_match).
      unfold slot_packet. cbn. by destruct (ts_retry_deadline_set s) eqn:E; rewrite ?E.
    + intros i s Hi Hg Hs _. by apply (rep_drop p g q i s).
    + intros s. cbn. by rewrite orb_false_r.
    + intros i s Hi Hg Hs _. by apply (rep_drop p g q i s).
    + intros i s Hi Hg Hs _. by apply (rep_drop p g q i s).
  - intros t. by apply rep_ready.
Qed.

Definition sample_pool : tx_pool :=
  match tx_pool_init 2 64 with Ret p => p | Fail _ => {| tp_slots := []; tp_next_token := 0; tp_next_order := 0 |} end.

(** The first packet of a fresh pool. *)
Lemma tx_pool_refines_witness :
  match tx_pool_acquire sample_pool 7 with
  | Some (p', i) => i = 0%nat /\ exists q', rep p' (<[i := 1]> [0; 0]) q' /\ length (q_packets q') = 1%nat
  | None => False
  end.
Proof.
  pose proof (tx_pool_refines sample_pool [0; 0] {| q_count := 0; q_packets := [] |}
    (rep_init 2 64 sample_pool eq_refl) (List.Forall_nil _)) as (Hacq & _).
  specialize (Hacq 7). vm_compute in Hacq. vm_compute.
  destruct Hacq as (q' & s & Hq & _ & _ & Hrep). split; [reflexivity|]. exists q'. split; [exact Hrep|].
  injection Hq as <-. reflexivity.
Defined.
