(* ===== verification/Dfu.v ===== *)
(** * The firmware update receiver

    Models [modules/ultrawidelock_dfu/src/dfu_receiver.c] and [dfu_crc.c] with
    their headers: the owner-gated window, the framed protocol, the SMP upload,
    staging and commit.  The flash partition is the class [Flash] of
    [ultrawidelock_flash.h], the signature check a function; the statics of the
    C file are the record [dfu].  The calls run under one mutex, so each is one
    step.  The write buffer is the list of its [wlen] valid bytes.  The loop of
    [patch_write] runs on fuel [len]: it takes at least one byte a turn as long
    as the buffer is not full, which it never is between calls. *)

From Stdlib Require Import ZArith Lia Bool.
From stdpp Require Import base list numbers option.
From S2P Require Import Prelude Wire.

Local Open Scope Z_scope.
Local Open Scope uwl_scope.

(** ** CRC-32 *)

Definition CRC32_POLY : Z := 0xedb88320.

Definition crc32_bit (crc : Z) : Z :=
  Z.lxor (Z.shiftr crc 1) (Z.land CRC32_POLY (u32 (- Z.land crc 1))).

Definition crc32_byte (crc b : Z) : Z := Nat.iter 8 crc32_bit (Z.lxor crc b).

(** [~crc] of a 32-bit value. *)
Definition not32 (x : Z) : Z := Z.lxor x 0xffffffff.

Definition crc32_update (crc : Z) (data : list Z) : Z := not32 (fold_left crc32_byte data (not32 crc)).

Definition crc32 (data : list Z) : Z := crc32_update 0 data.

(** ** Constants and data *)

Definition DFU_MAGIC : Z := 0x55464457.
Definition DFU_ABI_VERSION : Z := 1.
Definition DFU_PAGE_SIZE : Z := 4096.
Definition DFU_HDR_OFFSET : Z := 0.
Definition DFU_PATCH_OFFSET : Z := 2 * DFU_PAGE_SIZE.
Definition DFU_HDR_CRC_LEN : Z := 28.
Definition DFU_HDR_LEN : Z := 32.
Definition DFU_SIG_LEN : Z := 64.
Definition HEAD_LEN : Z := DFU_HDR_LEN + DFU_SIG_LEN.
Definition WBUF_SZ : Z := 64.
Definition MCUBOOT_IMAGE_MAGIC : Z := 0x96f3b83d.
Definition MCUBOOT_HDR_MIN : Z := 16.
Definition INT32_MAX : Z := 2 ^ 31 - 1.

Record dfu_hdr := {
  hd_magic : Z; hd_abi_version : Z; hd_flags : Z; hd_patch_len : Z; hd_to_len : Z;
  hd_patch_crc32 : Z; hd_from_crc32 : Z; hd_from_len : Z; hd_hdr_crc32 : Z;
}.

(** [memcpy(&hdr, head, sizeof(hdr))] on the little-endian target. *)
Definition hdr_of (p : list Z) : dfu_hdr :=
  {| hd_magic := field 4 p 0; hd_abi_version := field 2 p 4; hd_flags := field 2 p 6;
     hd_patch_len := field 4 p 8; hd_to_len := field 4 p 12; hd_patch_crc32 := field 4 p 16;
     hd_from_crc32 := field 4 p 20; hd_from_len := field 4 p 24; hd_hdr_crc32 := field 4 p 28 |}.

Inductive dfu_owner := OWNER_NONE | OWNER_L2CAP | OWNER_GATT | OWNER_SMP | OWNER_TEST.

#[export] Instance dfu_owner_eq_dec : EqDecision dfu_owner.
Proof. solve_decision. Defined.

Inductive dfu_err :=
  | ERR_OK | ERR_CLOSED | ERR_SEQUENCE | ERR_SIZE | ERR_AUTH | ERR_INTEGRITY | ERR_FLASH
  | ERR_MALFORMED | ERR_BUSY.

#[export] Instance dfu_err_eq_dec : EqDecision dfu_err.
Proof. solve_decision. Defined.

Definition err_code (e : dfu_err) : Z :=
  match e with
  | ERR_OK => 0 | ERR_CLOSED => 1 | ERR_SEQUENCE => 2 | ERR_SIZE => 3 | ERR_AUTH => 4
  | ERR_INTEGRITY => 5 | ERR_FLASH => 6 | ERR_MALFORMED => 7 | ERR_BUSY => 8
  end.

Definition OP_BEGIN : Z := 0x11.
Definition OP_DATA : Z := 0x12.
Definition OP_COMMIT : Z := 0x13.
Definition OP_ABORT : Z := 0x14.
Definition RSP_OK : Z := 0x81.
Definition RSP_ERR : Z := 0x82.

Record dfu_rx := {
  dx_active : bool;
  dx_erased : bool;
  dx_staged : bool;
  dx_owner : dfu_owner;
  dx_transfer_id : Z;
  dx_total : Z;
  dx_got : Z;
  dx_patch_crc : Z;
  dx_wpos : Z;
  dx_head : list Z;
  dx_wbuf : list Z;
}.

#[export] Instance dfu_rx_eta : Eta dfu_rx := fun r =>
  {| dx_active := dx_active r; dx_erased := dx_erased r; dx_staged := dx_staged r;
     dx_owner := dx_owner r; dx_transfer_id := dx_transfer_id r; dx_total := dx_total r;
     dx_got := dx_got r; dx_patch_crc := dx_patch_crc r; dx_wpos := dx_wpos r;
     dx_head := dx_head r; dx_wbuf := dx_wbuf r |}.

(** [memset(&s_rx, 0, sizeof(s_rx))] *)
Definition rx_zero : dfu_rx :=
  {| dx_active := false; dx_erased := false; dx_staged := false; dx_owner := OWNER_NONE;
     dx_transfer_id := 0; dx_total := 0; dx_got := 0; dx_patch_crc := 0; dx_wpos := 0;
     dx_head := replicate (Z.to_nat HEAD_LEN) 0; dx_wbuf := [] |}.

(** ** The flash partition *)

(** [true] is a return of 0. *)
Class Flash (F : Type) := {
  fl_open : F -> F * bool;
  fl_size : F -> Z;
  fl_read : F -> Z -> Z -> option (list Z);
  fl_write : F -> Z -> list Z -> F * bool;
  fl_erase : F -> Z -> Z -> F * bool;
}.

Record dfu (F : Type) := {
  d_rx : dfu_rx;
  d_fa : bool;
  d_flash : F;
  d_open : bool;
  d_deadline_ms : Z;
  d_window_timer : option Z;
  d_reboot : bool;
  d_commit_cb : option (dfu_hdr -> bool);
  d_notified : list bool;
  d_cli_off : Z;
  d_skip : Z;
  d_inner : Z;
}.
Arguments d_rx {F}.
Arguments d_fa {F}.
Arguments d_flash {F}.
Arguments d_open {F}.
Arguments d_deadline_ms {F}.
Arguments d_window_timer {F}.
Arguments d_reboot {F}.
Arguments d_commit_cb {F}.
Arguments d_notified {F}.
Arguments d_cli_off {F}.
Arguments d_skip {F}.
Arguments d_inner {F}.
Arguments Build_dfu {F}.

#[export] Instance dfu_eta {F} : Eta (dfu F) := fun d =>
  {| d_rx := d_rx d; d_fa := d_fa d; d_flash := d_flash d; d_open := d_open d;
     d_deadline_ms := d_deadline_ms d; d_window_timer := d_window_timer d; d_reboot := d_reboot d;
     d_commit_cb := d_commit_cb d; d_notified := d_notified d; d_cli_off := d_cli_off d;
     d_skip := d_skip d; d_inner := d_inner d |}.

Section Receiver.
Context {F : Type} `{FL : Flash F}.

(** [ultrawidelock_prim_init() == 0] and
    [ultrawidelock_ecdsa_p256_verify(pubkey, msg, len, sig) == 0] *)
Context (prim_init : bool) (ecdsa_verify : list Z -> list Z -> bool).

(** ** The window *)

Definition smp_cursor_reset (d : dfu F) : dfu F :=
  d <| d_cli_off := 0 |> <| d_skip := 0 |> <| d_inner := 0 |>.

Definition rx_reset_all (d : dfu F) : dfu F := smp_cursor_reset (d <| d_rx := rx_zero |>).

(** The callback runs with the new state of the window. *)
Definition window_notify (d : dfu F) (open : bool) : dfu F :=
  d <| d_notified := open :: d_notified d |>.

Definition window_expire (d : dfu F) (now_ms : Z) : dfu F :=
  if negb (d_open d) then d else
  let remaining_ms := d_deadline_ms d - now_ms in
  if 0 <? remaining_ms then
    d <| d_window_timer := Some (if INT32_MAX <? remaining_ms then INT32_MAX else remaining_ms) |>
  else window_notify (rx_reset_all (d <| d_open := false |> <| d_deadline_ms := 0 |>)) false.

Definition window_open (d : dfu F) (now_ms duration_ms : Z) : dfu F :=
  window_notify
    (d <| d_open := true |> <| d_deadline_ms := now_ms + duration_ms |>
       <| d_window_timer := Some (if INT32_MAX <? duration_ms then INT32_MAX else duration_ms) |>) true.

Definition window_close (d : dfu F) : dfu F :=
  window_notify
    (rx_reset_all (d <| d_window_timer := None |> <| d_open := false |> <| d_deadline_ms := 0 |>)) false.

Definition window_is_open (d : dfu F) : bool := d_open d.

(** ** Staging *)

Definition staging_open (d : dfu F) : dfu F * bool :=
  if d_fa d then (d, true) else
  let '(f, ok) := fl_open (d_flash d) in (d <| d_flash := f |> <| d_fa := ok |>, ok).

Definition patch_max (d : dfu F) : Z := u32 (fl_size (d_flash d) - DFU_PATCH_OFFSET).

(** Padding to the write block with erased bytes. *)
Definition pad4 (l : list Z) : list Z := l ++ replicate (Z.to_nat ((4 - zlen l mod 4) mod 4)) 0xff.

Definition wbuf_flush (d : dfu F) (final : bool) : dfu F * bool :=
  let r := d_rx d in
  let wbuf := if final then pad4 (dx_wbuf r) else dx_wbuf r in
  let n := if final then zlen wbuf else 4 * (zlen wbuf / 4) in
  let d := d <| d_rx := r <| dx_wbuf := wbuf |> |> in
  if n =? 0 then (d, true) else
  let '(f, ok) := fl_write (d_flash d) (dx_wpos r) (take (Z.to_nat n) wbuf) in
  let d := d <| d_flash := f |> in
  if negb ok then (d, false)
  else (d <| d_rx := (d_rx d) <| dx_wpos := u32 (dx_wpos r + n) |>
                            <| dx_wbuf := drop (Z.to_nat n) wbuf |> |>, true).

Fixpoint patch_loop (fuel : nat) (d : dfu F) (data : list Z) : dfu F * bool :=
  match fuel with
  | O => (d, true)
  | S fuel' =>
      match data with
      | [] => (d, true)
      | _ =>
          let r := d_rx d in
          let n := Z.to_nat (Z.min (zlen data) (WBUF_SZ - zlen (dx_wbuf r))) in
          let d := d <| d_rx := r <| dx_wbuf := dx_wbuf r ++ take n data |> |> in
          if zlen (dx_wbuf (d_rx d)) =? WBUF_SZ then
            match wbuf_flush d false with
            | (d, true) => patch_loop fuel' d (drop n data)
            | (d, false) => (d, false)
            end
          else patch_loop fuel' d (drop n data)
      end
  end.

Definition patch_write (d : dfu F) (data : list Z) : dfu F * bool :=
  let d := d <| d_rx := (d_rx d) <| dx_patch_crc := crc32_update (dx_patch_crc (d_rx d)) data |> |> in
  patch_loop (length data) d data.

Definition head_verifies (r : dfu_rx) : bool :=
  prim_init &&
  ecdsa_verify (take (Z.to_nat DFU_HDR_LEN) (dx_head r)) (drop (Z.to_nat DFU_HDR_LEN) (dx_head r)).

(** ** The three cores *)

Definition rx_reset (d : dfu F) (owner : dfu_owner) : dfu F :=
  if bool_decide (owner <> OWNER_NONE) && bool_decide (dx_owner (d_rx d) = owner)
  then rx_reset_all d else d.

(** The result is 0 or one of the errors the C function returns. *)
Inductive errno := EOK | EACCES | EBUSY | EIO | EINVAL.

Definition rx_erase (d : dfu F) (owner : dfu_owner) : dfu F * errno :=
  if negb (d_open d) then (d, EACCES) else
  if bool_decide (dx_owner (d_rx d) <> OWNER_NONE) && bool_decide (dx_owner (d_rx d) <> owner)
  then (d, EBUSY) else
  match staging_open d with
  | (d, false) => (d, EIO)
  | (d, true) =>
      let '(f, ok) := fl_erase (d_flash d) 0 (fl_size (d_flash d)) in
      let d := d <| d_flash := f |> in
      if negb ok then (d, EIO) else (rx_reset_all d, EOK)
  end.

Definition begin_at (d : dfu F) (owner : dfu_owner) (transfer_id total : Z) : dfu F * dfu_err :=
  let r := d_rx d in
  if bool_decide (owner = OWNER_NONE) || (transfer_id =? 0) then (d, ERR_MALFORMED) else
  if bool_decide (dx_owner r <> OWNER_NONE) then
    if bool_decide (dx_owner r = owner) && (dx_transfer_id r =? transfer_id) && (dx_total r =? total)
    then (d, ERR_OK) else (d, ERR_BUSY)
  else
    match staging_open d with
    | (d, false) => (d, ERR_FLASH)
    | (d, true) =>
        if (total <=? HEAD_LEN) || (patch_max d <? total - HEAD_LEN) then (d, ERR_SIZE) else
        (d <| d_rx := rx_zero <| dx_active := true |> <| dx_owner := owner |>
                              <| dx_transfer_id := transfer_id |> <| dx_total := total |>
                              <| dx_wpos := DFU_PATCH_OFFSET |> |>, ERR_OK)
    end.

(** The preamble: what is left of the bytes, or the error. *)
Definition feed_head (d : dfu F) (p : list Z) : dfu F * list Z * dfu_err :=
  let r := d_rx d in
  if dx_got r <? HEAD_LEN then
    let take_n := Z.to_nat (Z.min (zlen p) (HEAD_LEN - dx_got r)) in
    let r := r <| dx_head := mem_write (dx_got r) (take take_n p) (dx_head r) |>
               <| dx_got := u32 (dx_got r + Z.of_nat take_n) |> in
    let d := d <| d_rx := r |> in
    let rest := drop take_n p in
    if dx_got r =? HEAD_LEN then
      if negb (head_verifies r) then (d, rest, ERR_AUTH) else
      let '(f, ok) := fl_erase (d_flash d) 0 (fl_size (d_flash d)) in
      let d := d <| d_flash := f |> in
      if negb ok then (d, rest, ERR_FLASH)
      else (d <| d_rx := r <| dx_erased := true |> |>, rest, ERR_OK)
    else (d, rest, ERR_OK)
  else (d, p, ERR_OK).

Definition feed_bytes (d : dfu F) (p : list Z) : dfu F * dfu_err :=
  if negb (dx_active (d_rx d)) then (d, ERR_SEQUENCE) else
  if dx_total (d_rx d) <? usize (dx_got (d_rx d) + zlen p) then (d, ERR_SIZE) else
  match feed_head d p with
  | (d, rest, ERR_OK) =>
      if 0 <? zlen rest then
        match patch_write d rest with
        | (d, false) => (d, ERR_FLASH)
        | (d, true) => (d <| d_rx := (d_rx d) <| dx_got := u32 (dx_got (d_rx d) + zlen rest) |> |>, ERR_OK)
        end
      else (d, ERR_OK)
  | (d, _, e) => (d, e)
  end.

Definition hdr_matches (r : dfu_rx) : bool :=
  let hdr := hdr_of (dx_head r) in
  (hd_magic hdr =? DFU_MAGIC) && (hd_abi_version hdr =? DFU_ABI_VERSION) &&
  (hd_hdr_crc32 hdr =? crc32 (take (Z.to_nat DFU_HDR_CRC_LEN) (dx_head r))) &&
  (hd_patch_len hdr =? u32 (dx_total r - HEAD_LEN)) && (hd_patch_crc32 hdr =? dx_patch_crc r).

Definition arm_reboot (d : dfu F) (reboot : bool) : dfu F :=
  if reboot then d <| d_reboot := true |> else d.

Definition commit_now (d : dfu F) (reboot : bool) : dfu F * dfu_err :=
  if dx_staged (d_rx d) then (arm_reboot d reboot, ERR_OK) else
  if negb (dx_active (d_rx d)) || negb (dx_erased (d_rx d)) ||
     negb (dx_got (d_rx d) =? dx_total (d_rx d)) then (d, ERR_SEQUENCE) else
  match wbuf_flush d true with
  | (d, false) => (d, ERR_FLASH)
  | (d, true) =>
      if negb (hdr_matches (d_rx d)) then (d, ERR_INTEGRITY) else
      let '(f, ok) := fl_write (d_flash d) DFU_HDR_OFFSET
                        (take (Z.to_nat DFU_HDR_LEN) (dx_head (d_rx d))) in
      let d := d <| d_flash := f |> in
      if negb ok then (d, ERR_FLASH) else
      if match d_commit_cb d with Some cb => negb (cb (hdr_of (dx_head (d_rx d)))) | None => false end
      then (d, ERR_FLASH)
      else (arm_reboot (d <| d_rx := (d_rx d) <| dx_active := false |> <| dx_staged := true |> |>) reboot,
            ERR_OK)
  end.

(** ** The framed protocol *)

Definition reply_ok (d : dfu F) (transfer_id : Z) : list Z :=
  [RSP_OK] ++ put_le 4 transfer_id ++ put_le 4 (dx_got (d_rx d)).

Definition reply_err (e : dfu_err) : list Z := [RSP_ERR; err_code e].

Definition do_begin (d : dfu F) (owner : dfu_owner) (frame : list Z) : dfu F * list Z :=
  if negb (zlen frame =? 9) then (d, reply_err ERR_MALFORMED) else
  let transfer_id := field 4 frame 1 in
  match begin_at d owner transfer_id (field 4 frame 5) with
  | (d, ERR_OK) => (d, reply_ok d transfer_id)
  | (d, e) => (d, reply_err e)
  end.

(** Not the owner's transfer. *)
Definition foreign (d : dfu F) (owner : dfu_owner) (transfer_id : Z) : bool :=
  bool_decide (dx_owner (d_rx d) <> owner) || negb (dx_transfer_id (d_rx d) =? transfer_id).

Definition foreign_reply (d : dfu F) : list Z :=
  reply_err (if bool_decide (dx_owner (d_rx d) = OWNER_NONE) then ERR_SEQUENCE else ERR_BUSY).

Definition do_data (d : dfu F) (owner : dfu_owner) (frame : list Z) : dfu F * list Z :=
  if zlen frame <? 9 then (d, reply_err ERR_MALFORMED) else
  let transfer_id := field 4 frame 1 in
  let offset := field 4 frame 5 in
  if foreign d owner transfer_id then (d, foreign_reply d) else
  if negb (offset =? dx_got (d_rx d)) then (d, reply_ok d transfer_id) else
  match feed_bytes d (drop 9 frame) with
  | (d, ERR_OK) => (d, reply_ok d transfer_id)
  | (d, e) => (rx_reset_all d, reply_err e)
  end.

Definition do_commit (d : dfu F) (owner : dfu_owner) (frame : list Z) : dfu F * list Z :=
  if negb (zlen frame =? 5) then (d, reply_err ERR_MALFORMED) else
  let transfer_id := field 4 frame 1 in
  if foreign d owner transfer_id then (d, foreign_reply d) else
  match commit_now d true with
  | (d, ERR_OK) => (d, reply_ok d transfer_id)
  | (d, e) => (rx_reset_all d, reply_err e)
  end.

Definition do_abort (d : dfu F) (owner : dfu_owner) (frame : list Z) : dfu F * list Z :=
  if negb (zlen frame =? 5) || foreign d owner (field 4 frame 1) then (d, reply_err ERR_SEQUENCE) else
  let transfer_id := dx_transfer_id (d_rx d) in
  match rx_erase d owner with
  | (d, EOK) => (d, reply_ok d transfer_id)
  | (d, _) => (d, reply_err ERR_FLASH)
  end.

Definition rx_frame (d : dfu F) (owner : dfu_owner) (frame : list Z) : dfu F * list Z :=
  match frame with
  | [] => (d, reply_err ERR_MALFORMED)
  | op :: _ =>
      if negb (d_open d) then (d, reply_err ERR_CLOSED)
      else if op =? OP_BEGIN then do_begin d owner frame
      else if op =? OP_DATA then do_data d owner frame
      else if op =? OP_COMMIT then do_commit d owner frame
      else if op =? OP_ABORT then do_abort d owner frame
      else (d, reply_err ERR_MALFORMED)
  end.

(** ** The SMP upload *)

(** The geometry of the file: the wrapper's header length and the length of
    the patch inside. *)
Definition smp_geometry (total : Z) (data : list Z) : option (Z * Z) :=
  if (MCUBOOT_HDR_MIN <=? zlen data) && (field 4 data 0 =? MCUBOOT_IMAGE_MAGIC) then
    let hdr_sz := field 2 data 8 in
    let img_sz := field 4 data 12 in
    if (hdr_sz <? MCUBOOT_HDR_MIN) || (img_sz =? 0) || (total <? hdr_sz) || (total - hdr_sz <? img_sz)
    then None else Some (hdr_sz, img_sz)
  else Some (0, total).

Definition smp_refused (d : dfu F) : dfu F * (errno + Z) :=
  let d := d <| d_cli_off := 0 |> in
  (if bool_decide (dx_owner (d_rx d) = OWNER_SMP) then rx_reset_all d else smp_cursor_reset d, inl EINVAL).

(** The wrapper's header, the patch, the trailer, and the commit after the
    last byte of the patch. *)
Definition smp_consume (d : dfu F) (data : list Z) : dfu F * (errno + Z) :=
  let drop_n := if d_cli_off d <? d_skip d
                then Z.to_nat (Z.min (zlen data) (d_skip d - d_cli_off d)) else O in
  let d := d <| d_cli_off := u32 (d_cli_off d + Z.of_nat drop_n) |> in
  let data := drop drop_n data in
  let fed :=
    if (0 <? zlen data) && (dx_got (d_rx d) <? d_inner d) then
      let take_n := Z.to_nat (Z.min (zlen data) (d_inner d - dx_got (d_rx d))) in
      match feed_bytes d (take take_n data) with
      | (d, ERR_OK) => (d <| d_cli_off := u32 (d_cli_off d + Z.of_nat take_n) |>, drop take_n data, ERR_OK)
      | (d, e) => (d, data, e)
      end
    else (d, data, ERR_OK) in
  match fed with
  | (d, data, ERR_OK) =>
      let d := d <| d_cli_off := u32 (d_cli_off d + zlen data) |> in
      if dx_active (d_rx d) && (dx_got (d_rx d) =? d_inner d) then
        match commit_now d false with
        | (d, ERR_OK) => (d, inr (d_cli_off d))
        | (d, _) => smp_refused d
        end
      else (d, inr (d_cli_off d))
  | (d, _, _) => smp_refused d
  end.

(** The error, or the offset the client continues from. *)
Definition rx_upload (d : dfu F) (off total : Z) (data : list Z) : dfu F * (errno + Z) :=
  if negb (d_open d) then (d, inl EACCES) else
  if bool_decide (dx_owner (d_rx d) <> OWNER_NONE) && bool_decide (dx_owner (d_rx d) <> OWNER_SMP)
  then (d, inl EBUSY) else
  if (off =? 0) && bool_decide (dx_owner (d_rx d) = OWNER_SMP) && (0 <? d_cli_off d)
  then (d, inr (d_cli_off d)) else
  if off =? 0 then
    let d := d <| d_skip := 0 |> <| d_inner := total |> in
    match smp_geometry total data with
    | None => smp_refused d
    | Some (skip, inner) =>
        let d := d <| d_skip := skip |> <| d_inner := inner |> in
        match begin_at d OWNER_SMP 1 inner with
        | (d, ERR_OK) => smp_consume (d <| d_cli_off := 0 |>) data
        | (d, _) => smp_refused d
        end
    end
  else if negb (off =? d_cli_off d) then (d, inr (d_cli_off d))
  else smp_consume d data.

Definition rx_staged (d : dfu F) : dfu F * bool :=
  match staging_open d with
  | (d, false) => (d, false)
  | (d, true) =>
      match fl_read (d_flash d) DFU_HDR_OFFSET DFU_HDR_LEN with
      | None => (d, false)
      | Some bytes => (d, (hd_magic (hdr_of bytes) =? DFU_MAGIC) &&
                          (hd_abi_version (hdr_of bytes) =? DFU_ABI_VERSION))
      end
  end.
End Receiver.
