(* ===== verification/DfuProps.v ===== *)
(** * Properties of the firmware update receiver

    A commit stages exactly the signed image that was received; until then the
    header page stays erased; an honest host gets its image staged whatever it
    repeats; nothing happens while the window is closed. *)

From Stdlib Require Import ZArith Lia Bool.
From stdpp Require Import base list numbers option.
From S2P Require Import Prelude Wire Dfu.

Local Open Scope Z_scope.
Local Open Scope uwl_scope.

(** ** CRC-32 *)

Lemma not32_twice x : not32 (not32 x) = x.
Proof. unfold not32. by rewrite Z.lxor_assoc, Z.lxor_nilpotent, Z.lxor_0_r. Qed.

(** Chainable, as the header of [dfu_crc.h] says. *)
Lemma crc32_chain c a b : crc32_update (crc32_update c a) b = crc32_update c (a ++ b).
Proof. unfold crc32_update. by rewrite not32_twice, fold_left_app. Qed.

Lemma crc32_nil c : crc32_update c [] = c.
Proof. apply not32_twice. Qed.

(** ** What the receiver relies on of the flash

    [mem f] is what the partition holds.  A write that succeeds has written its
    bytes, as long as the range is erased, aligned and inside; an erase of the
    whole that succeeds has erased it.  One that fails promises nothing. *)
Definition write_legit {F} `{Flash F} (f : F) (m : list Z) (off : Z) (data : list Z) : Prop :=
  0 <= off /\ off mod 4 = 0 /\ zlen data mod 4 = 0 /\ off + zlen data <= fl_size f /\
  take (length data) (drop (Z.to_nat off) m) = replicate (length data) 0xff.

Class FlashLaws {F : Type} (FL : Flash F) (mem : F -> list Z) := {
  flw_len : forall f, zlen (mem f) = fl_size f;
  flw_geometry : forall f, DFU_PATCH_OFFSET <= fl_size f < 2 ^ 31 /\ fl_size f mod DFU_PAGE_SIZE = 0;
  flw_open : forall f, mem (fl_open f).1 = mem f;
  flw_write : forall f off data f', fl_write f off data = (f', true) -> write_legit f (mem f) off data ->
    mem f' = mem_write off data (mem f);
  flw_erase : forall f f', fl_erase f 0 (fl_size f) = (f', true) ->
    mem f' = replicate (Z.to_nat (fl_size f)) 0xff;
  flw_write_size : forall f off data, fl_size (fl_write f off data).1 = fl_size f;
  flw_erase_size : forall f off n, fl_size (fl_erase f off n).1 = fl_size f;
}.

Section Props.
Context {F : Type} {FL : Flash F} {mem : F -> list Z} `{LW : !FlashLaws FL mem}.
Context (prim_init : bool) (ecdsa_verify : list Z -> list Z -> bool).

Implicit Types d : dfu F.

(** ** Patch bytes on their way to the flash *)

(** The header and step-log pages erased, then what was written of the patch,
    then erased bytes; the write buffer holds the rest. *)
Definition laid d (patch : list Z) : Prop :=
  exists written k,
    mem (d_flash d) = replicate (Z.to_nat DFU_PATCH_OFFSET) 0xff ++ written ++ replicate k 0xff /\
    written ++ dx_wbuf (d_rx d) = patch /\ zlen written mod 4 = 0 /\
    dx_wpos (d_rx d) = DFU_PATCH_OFFSET + zlen written.

Definition patching d (patch : list Z) : Prop :=
  laid d patch /\ zlen (dx_wbuf (d_rx d)) < WBUF_SZ.

(** Writing behind what is there. *)
Lemma write_next (pre data : list Z) k :
  (length data <= k)%nat ->
  mem_write (zlen pre) data (pre ++ replicate k 0xff) = (pre ++ data) ++ replicate (k - length data) 0xff.
Proof.
  intros Hk. unfold mem_write, zlen. rewrite Nat2Z.id, take_app_length, <- app_assoc. do 2 f_equal.
  rewrite drop_app_ge by lia. rewrite drop_replicate. f_equal. lia.
Qed.

(** A legitimate write that the flash did not take. *)
Definition write_refused : Prop :=
  exists f off data, write_legit f (mem f) off data /\ (fl_write f off data).2 = false.

Lemma legit_append f (pre data : list Z) k :
  mem f = pre ++ replicate k 0xff -> zlen pre mod 4 = 0 -> zlen data mod 4 = 0 ->
  zlen pre + zlen data <= fl_size f -> write_legit f (mem f) (zlen pre) data /\ (length data <= k)%nat.
Proof.
  intros Hm Hp Hd Hs. pose proof (flw_len f) as Hl. rewrite Hm, zlen_app, zlen_replicate in Hl.
  assert (length data <= k)%nat as Hk by (unfold zlen in *; lia). split; [|done].
  split_and!; try done; [apply zlen_nonneg|].
  rewrite Hm. unfold zlen. rewrite Nat2Z.id, drop_app_length, take_replicate. f_equal. lia.
Qed.

(** The effect of a write that fits. *)
Lemma flash_append f (pre data : list Z) k f' :
  mem f = pre ++ replicate k 0xff -> zlen pre mod 4 = 0 -> zlen data mod 4 = 0 ->
  zlen pre + zlen data <= fl_size f -> fl_write f (zlen pre) data = (f', true) ->
  mem f' = (pre ++ data) ++ replicate (k - length data) 0xff.
Proof.
  intros Hm Hp Hd Hs Hw. destruct (legit_append f pre data k Hm Hp Hd Hs) as [Hlg Hk].
  rewrite (flw_write f (zlen pre) data f' Hw Hlg), Hm. by apply write_next.
Qed.

(** A call that moves only the flash, the write position and the buffer. *)
Definition moves d d' : Prop :=
  exists f w b, d' = d <| d_flash := f |> <| d_rx := (d_rx d) <| dx_wpos := w |> <| dx_wbuf := b |> |> /\
    fl_size f = fl_size (d_flash d).

Lemma moves_refl d : moves d d.
Proof. exists (d_flash d), (dx_wpos (d_rx d)), (dx_wbuf (d_rx d)). split; [|done]. by destruct d as [[]]. Qed.

Lemma moves_trans d1 d2 d3 : moves d1 d2 -> moves d2 d3 -> moves d1 d3.
Proof.
  intros (f & w & b & -> & Hf) (f' & w' & b' & -> & Hf'). exists f', w', b'. split; [done|].
  by rewrite Hf'.
Qed.

Lemma wbuf_flush_moves d final d' ok : wbuf_flush d final = (d', ok) -> moves d d'.
Proof.
  unfold wbuf_flush. set (wbuf := if final then pad4 _ else _). set (n := if final then zlen wbuf else _).
  destruct (n =? 0).
  { intros [= <- _]. by exists (d_flash d), (dx_wpos (d_rx d)), wbuf. }
  cbn [d_flash field_set]. destruct (fl_write (d_flash d) _ _) as [f ok'] eqn:Ew.
  pose proof (flw_write_size (d_flash d) (dx_wpos (d_rx d)) (take (Z.to_nat n) wbuf)) as Hsz.
  rewrite Ew in Hsz. cbn [fst] in Hsz.
  destruct ok'; intros [= <- _].
  - by exists f, (u32 (dx_wpos (d_rx d) + n)), (drop (Z.to_nat n) wbuf).
  - by exists f, (dx_wpos (d_rx d)), wbuf.
Qed.

(** A prefix of the buffer that is whole words: it may be written, and then it
    is behind what was. *)
Lemma laid_write d patch n f ok :
  laid d patch -> 0 < n <= zlen (dx_wbuf (d_rx d)) -> n mod 4 = 0 ->
  DFU_PATCH_OFFSET + zlen patch <= fl_size (d_flash d) ->
  fl_write (d_flash d) (dx_wpos (d_rx d)) (take (Z.to_nat n) (dx_wbuf (d_rx d))) = (f, ok) ->
  if ok then
    laid (d <| d_flash := f |> <| d_rx := (d_rx d) <| dx_wpos := u32 (dx_wpos (d_rx d) + n) |>
                                                  <| dx_wbuf := drop (Z.to_nat n) (dx_wbuf (d_rx d)) |> |>) patch
  else write_refused.
Proof.
  intros (written & k & Hm & Hp & H4 & Hw) Hn Hn4 Hsz Hwr.
  set (wb := dx_wbuf (d_rx d)) in *. pose proof (zlen_nonneg written).
  assert (zlen (take (Z.to_nat n) wb) = n) as Hl by (unfold zlen in *; rewrite length_take; lia).
  assert (zlen patch = zlen written + zlen wb) as Hpl by (rewrite <- Hp; apply zlen_app).
  set (pre := replicate (Z.to_nat DFU_PATCH_OFFSET) 0xff ++ written).
  assert (zlen pre = DFU_PATCH_OFFSET + zlen written) as Epos by (unfold pre; by rewrite zlen_app, zlen_replicate).
  rewrite Hw, <- Epos in Hwr. rewrite app_assoc in Hm. fold pre in Hm.
  assert (zlen pre mod 4 = 0) as Hp4 by (rewrite Epos; unfold DFU_PATCH_OFFSET, DFU_PAGE_SIZE; zdiv).
  destruct (legit_append _ pre (take (Z.to_nat n) wb) k Hm Hp4 ltac:(rewrite Hl; done) ltac:(rewrite Hl; lia))
    as [Hlg _].
  destruct ok; [|by exists (d_flash d), (zlen pre), (take (Z.to_nat n) wb); rewrite Hwr].
  pose proof (flash_append _ pre (take (Z.to_nat n) wb) k f Hm Hp4 ltac:(rewrite Hl; done) ltac:(rewrite Hl; lia) Hwr) as Hm'.
  pose proof (flw_geometry (d_flash d)) as [Hg _].
  exists (written ++ take (Z.to_nat n) wb), (k - length (take (Z.to_nat n) wb))%nat.
  cbn [field_set d_rx d_flash dx_wbuf dx_wpos]. split_and!.
  - rewrite Hm'. unfold pre. by rewrite <- !app_assoc.
  - by rewrite <- app_assoc, take_drop.
  - rewrite zlen_app, Hl. zdiv.
  - rewrite zlen_app, Hl, Hw, wrap_id; [lia|]. unfold in_u, DFU_PATCH_OFFSET, DFU_PAGE_SIZE in *. lia.
Qed.

Lemma wbuf_flush_full d patch d' ok :
  laid d patch -> zlen (dx_wbuf (d_rx d)) = WBUF_SZ -> DFU_PATCH_OFFSET + zlen patch <= fl_size (d_flash d) ->
  wbuf_flush d false = (d', ok) -> if ok then patching d' patch else write_refused.
Proof.
  intros Hl Hb Hsz. unfold wbuf_flush. rewrite Hb. change (4 * (WBUF_SZ / 4)) with 64.
  cbn [Z.eqb d_flash field_set]. destruct (fl_write _ _ _) as [f okw] eqn:Ew. unfold WBUF_SZ in Hb.
  pose proof (laid_write d patch 64 f okw Hl ltac:(lia) eq_refl Hsz Ew) as Hw.
  destruct okw; cbn [negb]; intros [= <- <-]; [|done]. split; [exact Hw|].
  cbn [field_set d_rx dx_wbuf]. rewrite drop_ge by (unfold zlen in Hb; lia). done.
Qed.

(** The loop appends its bytes, or a write failed. *)
Lemma patch_loop_spec fuel d patch data :
  (length data <= fuel)%nat -> patching d patch ->
  DFU_PATCH_OFFSET + zlen patch + zlen data <= fl_size (d_flash d) ->
  let '(d', ok) := patch_loop fuel d data in moves d d' /\ (if ok then patching d' (patch ++ data) else write_refused).
Proof.
  revert d patch data. induction fuel as [|fuel IH]; intros d patch data Hf Hp Hsz.
  { destruct data; [|simpl in Hf; lia]. cbn [patch_loop]. rewrite app_nil_r. split; [apply moves_refl|done]. }
  destruct data as [|b rest]; [cbn [patch_loop]; rewrite app_nil_r; split; [apply moves_refl|done]|].
  remember (b :: rest) as data eqn:E. assert (0 < length data)%nat as H0 by (rewrite E; simpl; lia).
  assert (patch_loop (S fuel) d data =
    let n := Z.to_nat (Z.min (zlen data) (WBUF_SZ - zlen (dx_wbuf (d_rx d)))) in
    let d := d <| d_rx := (d_rx d) <| dx_wbuf := dx_wbuf (d_rx d) ++ take n data |> |> in
    if zlen (dx_wbuf (d_rx d)) =? WBUF_SZ then
      match wbuf_flush d false with
      | (d, true) => patch_loop fuel d (drop n data)
      | (d, false) => (d, false)
      end
    else patch_loop fuel d (drop n data)) as -> by (by rewrite E). clear E b rest. cbv zeta.
  destruct Hp as [(written & k & Hm & Hpp & H4 & Hw) Hs].
  set (n := Z.to_nat (Z.min (zlen data) (WBUF_SZ - zlen (dx_wbuf (d_rx d))))).
  assert (0 < n <= length data)%nat as Hn by (unfold n, zlen, WBUF_SZ in *; lia).
  set (d1 := d <| d_rx := (d_rx d) <| dx_wbuf := dx_wbuf (d_rx d) ++ take n data |> |>).
  assert (zlen (dx_wbuf (d_rx d1)) = zlen (dx_wbuf (d_rx d)) + Z.of_nat n) as Hl1.
  { unfold d1. cbn [field_set d_rx dx_wbuf]. rewrite zlen_app. unfold zlen. rewrite length_take. lia. }
  assert (laid d1 (patch ++ take n data)) as Hlaid.
  { exists written, k. unfold d1. cbn [field_set d_rx d_flash dx_wbuf dx_wpos].
    split_and!; [done| |done|done]. by rewrite app_assoc, Hpp. }
  assert (moves d d1) as Hmv.
  { exists (d_flash d), (dx_wpos (d_rx d)), (dx_wbuf (d_rx d) ++ take n data). split; [|done].
    unfold d1. by destruct d as [[]]. }
  assert (zlen (take n data) = Z.of_nat n /\ zlen (drop n data) = zlen data - Z.of_nat n) as [Ht Hd]
    by (unfold zlen; rewrite length_take, length_drop; lia).
  assert (forall d2, moves d d2 -> patching d2 (patch ++ take n data) ->
    let '(d', ok) := patch_loop fuel d2 (drop n data) in
    moves d d' /\ (if ok then patching d' (patch ++ data) else write_refused)) as Hgo.
  { intros d2 Hm2 Hp2. specialize (IH d2 (patch ++ take n data) (drop n data) ltac:(rewrite length_drop; lia) Hp2).
    destruct (patch_loop fuel d2 (drop n data)) as [d' ok].
    rewrite zlen_app, Ht, Hd in IH. destruct Hm2 as (f2 & w2 & b2 & -> & Hf2).
    cbn [field_set d_flash] in IH. rewrite Hf2 in IH. destruct IH as [Hmv' Hp']; [lia|].
    split; [eapply moves_trans; [|exact Hmv']; by exists f2, w2, b2|].
    destruct ok; [|done]. by rewrite <- app_assoc, take_drop in Hp'. }
  destruct (Z.eqb_spec (zlen (dx_wbuf (d_rx d1))) WBUF_SZ) as [Hfull|Hnf].
  - destruct (wbuf_flush d1 false) as [d2 ok] eqn:Efl.
    pose proof (moves_trans _ _ _ Hmv (wbuf_flush_moves _ _ _ _ Efl)) as Hm2.
    assert (DFU_PATCH_OFFSET + zlen (patch ++ take n data) <= fl_size (d_flash d1)) as Hroom.
    { rewrite zlen_app, Ht. unfold d1. cbn [field_set d_flash]. pose proof (zlen_nonneg (drop n data)). lia. }
    pose proof (wbuf_flush_full _ _ _ _ Hlaid Hfull Hroom Efl) as Hfl.
    destruct ok; [by apply Hgo|done].
  - apply Hgo; [done|]. split; [done|]. rewrite Hl1 in *. unfold n, zlen, WBUF_SZ in *. lia.
Qed.

(** ** A transfer in progress *)

Definition signed (stream : list Z) : bool :=
  prim_init && ecdsa_verify (take 32 stream) (take 64 (drop 32 stream)).

(** The receiver after it has consumed [stream]. *)
Record transfer d (stream : list Z) : Prop := {
  tr_active : dx_active (d_rx d) = true;
  tr_owner : dx_owner (d_rx d) <> OWNER_NONE;
  tr_staged : dx_staged (d_rx d) = false;
  tr_got : dx_got (d_rx d) = zlen stream;
  tr_total : HEAD_LEN < dx_total (d_rx d) <= HEAD_LEN + (fl_size (d_flash d) - DFU_PATCH_OFFSET);
  tr_le : zlen stream <= dx_total (d_rx d);
  tr_head_len : zlen (dx_head (d_rx d)) = HEAD_LEN;
  tr_head : take (length (take 96 stream)) (dx_head (d_rx d)) = take 96 stream;
  tr_before : zlen stream < HEAD_LEN ->
    dx_erased (d_rx d) = false /\ dx_wbuf (d_rx d) = [] /\ dx_patch_crc (d_rx d) = 0 /\
    dx_wpos (d_rx d) = DFU_PATCH_OFFSET;
  tr_after : HEAD_LEN <= zlen stream ->
    dx_erased (d_rx d) = true /\ signed stream = true /\
    dx_patch_crc (d_rx d) = crc32 (drop 96 stream) /\ patching d (drop 96 stream);
}.

(** The head is the first 96 bytes once they are all there. *)
Lemma head_complete d stream :
  zlen (dx_head (d_rx d)) = HEAD_LEN -> HEAD_LEN <= zlen stream ->
  take (length (take 96 stream)) (dx_head (d_rx d)) = take 96 stream -> dx_head (d_rx d) = take 96 stream.
Proof.
  intros Hl Hs Hh. unfold zlen, HEAD_LEN, DFU_HDR_LEN, DFU_SIG_LEN in *.
  rewrite length_take in Hh. rewrite take_ge in Hh by lia. done.
Qed.

Lemma signed_app stream p : HEAD_LEN <= zlen stream -> signed (stream ++ p) = signed stream.
Proof.
  intros H. unfold signed, HEAD_LEN, DFU_HDR_LEN, DFU_SIG_LEN, zlen in *.
  rewrite drop_app_le, !take_app_le by (rewrite ?length_drop; lia). done.
Qed.

Lemma head_verifies_signed r stream :
  dx_head r = take 96 stream -> head_verifies prim_init ecdsa_verify r = signed stream.
Proof.
  intros H. unfold head_verifies, signed. rewrite H. change (Z.to_nat DFU_HDR_LEN) with 32%nat.
  rewrite take_take, skipn_firstn_comm. done.
Qed.

(** Only the flash and the receiver's record change, and the claim stays. *)
Definition keeps d d' : Prop :=
  exists f r, d' = d <| d_flash := f |> <| d_rx := r |> /\ fl_size f = fl_size (d_flash d) /\
    dx_owner r = dx_owner (d_rx d) /\ dx_transfer_id r = dx_transfer_id (d_rx d) /\
    dx_total r = dx_total (d_rx d).

Lemma keeps_refl d : keeps d d.
Proof. exists (d_flash d), (d_rx d). split_and!; try done. by destruct d. Qed.

Lemma keeps_trans d1 d2 d3 : keeps d1 d2 -> keeps d2 d3 -> keeps d1 d3.
Proof.
  intros (f & r & -> & Hf & Ho & Hi & Ht) (f' & r' & -> & Hf' & Ho' & Hi' & Ht'). exists f', r'.
  cbn [field_set d_flash d_rx] in *. split_and!; [done|congruence..].
Qed.

Lemma moves_keeps d d' : moves d d' -> keeps d d'.
Proof. intros (f & w & b & -> & Hf). by eexists f, _. Qed.

(** Patch bytes of a transfer that has its preamble. *)
Lemma transfer_patch d stream p d' ok :
  transfer d stream -> HEAD_LEN <= zlen stream -> zlen stream + zlen p <= dx_total (d_rx d) ->
  patch_write d p = (d', ok) ->
  keeps d d' /\
  if ok then transfer (d' <| d_rx := (d_rx d') <| dx_got := u32 (dx_got (d_rx d') + zlen p) |> |>) (stream ++ p)
  else write_refused.
Proof.
  intros [] Hh Hsz Hw. destruct (tr_after0 Hh) as (He & Hsig & Hcrc & Hp). unfold patch_write in Hw.
  set (d1 := d <| d_rx := (d_rx d) <| dx_patch_crc := crc32_update (dx_patch_crc (d_rx d)) p |> |>) in Hw.
  assert (patching d1 (drop 96 stream)) as Hp1 by exact Hp.
  pose proof (flw_geometry (d_flash d)) as [Hg _]. pose proof (zlen_nonneg p).
  assert (zlen (drop 96 stream) = zlen stream - HEAD_LEN) as Hd
    by (unfold zlen, HEAD_LEN, DFU_HDR_LEN, DFU_SIG_LEN in *; rewrite length_drop; lia).
  pose proof (patch_loop_spec (length p) d1 (drop 96 stream) p (Nat.le_refl _) Hp1) as Hl.
  rewrite Hw in Hl. destruct Hl as [(f & w & b & -> & Hf) Hp']; [unfold d1; cbn [field_set d_flash]; lia|].
  unfold d1 in *. cbn [field_set d_flash d_rx] in *.
  split; [by eexists f, _|]. destruct ok; [|done].
  assert (u32 (zlen stream + zlen p) = zlen stream + zlen p) as Eu.
  { apply wrap_id. unfold in_u, HEAD_LEN, DFU_HDR_LEN, DFU_SIG_LEN, DFU_PATCH_OFFSET, DFU_PAGE_SIZE in *.
    pose proof (zlen_nonneg stream). lia. }
  assert (drop 96 (stream ++ p) = drop 96 stream ++ p) as Edrop.
  { apply drop_app_le. unfold zlen, HEAD_LEN, DFU_HDR_LEN, DFU_SIG_LEN in Hh. lia. }
  assert (take 96 (stream ++ p) = take 96 stream) as Etake.
  { apply take_app_le. unfold zlen, HEAD_LEN, DFU_HDR_LEN, DFU_SIG_LEN in Hh. lia. }
  constructor; cbn [field_set d_flash d_rx dx_active dx_owner dx_staged dx_got dx_total dx_head dx_erased dx_wbuf
    dx_patch_crc dx_wpos]; rewrite ?Etake, ?Edrop, ?zlen_app; try done.
  - rewrite tr_got0. done.
  - by rewrite Hf.
  - lia.
  - intros _. split_and!; [done| | |].
    + by rewrite signed_app.
    + rewrite Hcrc. apply crc32_chain.
    + done.
Qed.

(** A legitimate flash operation that failed. *)
Definition flash_refused : Prop := write_refused \/ exists f, (fl_erase f 0 (fl_size f)).2 = false.

Lemma head_fill (head stream q : list Z) :
  zlen head = HEAD_LEN -> take (length stream) head = stream -> zlen stream + zlen q <= HEAD_LEN ->
  zlen (mem_write (zlen stream) q head) = HEAD_LEN /\
  take (length (stream ++ q)) (mem_write (zlen stream) q head) = stream ++ q.
Proof.
  intros Hl Ht Hs. unfold mem_write, zlen in *. rewrite Nat2Z.id, Ht. split.
  - rewrite !length_app, length_drop. lia.
  - rewrite app_assoc. apply take_app_length.
Qed.

(** What [feed_head] leaves: the transfer with the bytes it took, and the rest
    only behind a complete preamble. *)
Lemma feed_head_spec d stream p :
  transfer d stream -> zlen stream + zlen p <= dx_total (d_rx d) ->
  let '(d', rest, e) := feed_head prim_init ecdsa_verify d p in
  match e with
  | ERR_OK => keeps d d' /\ exists q, p = q ++ rest /\ transfer d' (stream ++ q) /\
      (zlen (stream ++ q) < HEAD_LEN -> rest = [] /\ d_flash d' = d_flash d)
  | ERR_AUTH => HEAD_LEN <= zlen (stream ++ p) /\ signed (stream ++ p) = false /\ d_flash d' = d_flash d
  | ERR_FLASH => flash_refused /\ signed (stream ++ p) = true
  | _ => False
  end.
Proof.
  intros T Hsz. unfold feed_head. rewrite (tr_got d stream T).
  destruct (Z.ltb_spec (zlen stream) HEAD_LEN) as [Hlt|Hge].
  2:{ split; [apply keeps_refl|]. exists []. rewrite app_nil_r. split_and!; [done|done|intros; lia]. }
  destruct (tr_before d stream T Hlt) as (He & Hb & Hc & Hwp).
  assert (take 96 stream = stream) as Et by (apply take_ge; unfold zlen, HEAD_LEN, DFU_HDR_LEN, DFU_SIG_LEN in Hlt; lia).
  pose proof (tr_head d stream T) as Hh. rewrite Et in Hh.
  set (tn := Z.to_nat (Z.min (zlen p) (HEAD_LEN - zlen stream))).
  set (q := take tn p). pose proof (zlen_nonneg p). pose proof (zlen_nonneg stream).
  assert (zlen q = Z.of_nat tn) as Hq by (unfold q, zlen in *; rewrite length_take; unfold tn, zlen in *; lia).
  assert (zlen stream + zlen q <= HEAD_LEN) as Hqs by (rewrite Hq; unfold tn; lia).
  destruct (head_fill _ stream q (tr_head_len d stream T) Hh Hqs) as [Hl' Hh'].
  assert (take 96 (stream ++ q) = stream ++ q) as Et'.
  { apply take_ge. rewrite length_app. unfold zlen, HEAD_LEN, DFU_HDR_LEN, DFU_SIG_LEN in Hqs. lia. }
  assert (u32 (zlen stream + Z.of_nat tn) = zlen (stream ++ q)) as Eg.
  { rewrite zlen_app, <- Hq. apply wrap_id. unfold in_u, HEAD_LEN, DFU_HDR_LEN, DFU_SIG_LEN in *.
    pose proof (zlen_nonneg q). lia. }
  cbv zeta. cbn [field_set d_flash d_rx dx_got dx_head]. rewrite Eg.
  destruct (Z.eqb_spec (zlen (stream ++ q)) HEAD_LEN) as [Hfull|Hnf].
  - assert (dx_head ((d_rx d) <| dx_head := mem_write (zlen stream) q (dx_head (d_rx d)) |>
              <| dx_got := zlen (stream ++ q) |>) = take 96 (stream ++ q)) as Ehd.
    { cbn [field_set dx_head]. rewrite Et', <- Hh', take_ge; [done|]. unfold zlen in *. lia. }
    rewrite (head_verifies_signed _ _ Ehd).
    assert (signed (stream ++ p) = signed (stream ++ q) /\ HEAD_LEN <= zlen (stream ++ p)) as [Esp Hsp].
    { rewrite <- (take_drop tn p). fold q. rewrite app_assoc, signed_app, zlen_app by lia.
      pose proof (zlen_nonneg (drop tn p)). split; [done|lia]. }
    rewrite Esp. destruct (signed (stream ++ q)) eqn:Esig; cbn [negb]; [|done].
    destruct (fl_erase _ _ _) as [f ok] eqn:Eer.
    destruct ok; cbn [negb]; [|split; [right; exists (d_flash d); by rewrite Eer|done]].
    pose proof (flw_erase_size (d_flash d) 0 (fl_size (d_flash d))) as Hes. rewrite Eer in Hes. cbn [fst] in Hes.
    split; [eexists f, _; by split_and!|]. exists q. split_and!; [unfold q; by rewrite take_drop| |lia].
    constructor; cbn [field_set d_flash d_rx dx_active dx_owner dx_staged dx_got dx_total dx_head dx_erased dx_wbuf
      dx_patch_crc dx_wpos]; rewrite ?Et'; try done.
    + apply T.
    + apply T.
    + apply T.
    + rewrite Hes. apply T.
    + rewrite zlen_app. pose proof (zlen_nonneg (drop tn p)). pose proof (tr_total d stream T). lia.
    + lia.
    + intros _. assert (drop 96 (stream ++ q) = []) as Edr.
      { apply drop_ge. unfold zlen, HEAD_LEN, DFU_HDR_LEN, DFU_SIG_LEN in Hfull. lia. }
      rewrite Edr, Hc. split_and!; try done. split; [|cbn [field_set d_rx dx_wbuf]; by rewrite Hb].
      exists [], (Z.to_nat (fl_size (d_flash d) - DFU_PATCH_OFFSET)).
      cbn [field_set d_flash d_rx dx_wbuf dx_wpos]. rewrite Hb, Hwp. split_and!; try done. rewrite (flw_erase _ _ Eer). cbn [app].
      rewrite <- replicate_add. f_equal. pose proof (flw_geometry (d_flash d)) as [Hg _].
      unfold DFU_PATCH_OFFSET, DFU_PAGE_SIZE in *. lia.
  - assert (q = p) as Eqp.
    { apply take_ge. rewrite zlen_app in Hnf. unfold tn, zlen in *. lia. }
    split; [eexists (d_flash d), _; split_and!; try done; by destruct d|].
    exists q. rewrite Eqp in *. assert (drop tn p = []) as Edr by (apply drop_ge; rewrite <- (Nat2Z.id tn), <- Hq; unfold zlen; lia).
    rewrite Edr, app_nil_r. split_and!; [done| |done].
    constructor; cbn [field_set d_flash d_rx dx_active dx_owner dx_staged dx_got dx_total dx_head dx_erased dx_wbuf
      dx_patch_crc dx_wpos]; rewrite ?Et', ?zlen_app in *; try done; try apply T.
    intros. lia.
Qed.

(** Bytes fed to a transfer, on every outcome. *)
Lemma feed_bytes_spec d stream p :
  transfer d stream -> zlen p < 2 ^ 31 ->
  let '(d', e) := feed_bytes prim_init ecdsa_verify d p in
  match e with
  | ERR_OK => keeps d d' /\ transfer d' (stream ++ p)
  | ERR_SIZE => dx_total (d_rx d) < zlen stream + zlen p
  | ERR_AUTH => HEAD_LEN <= zlen (stream ++ p) /\ signed (stream ++ p) = false
  | ERR_FLASH => flash_refused
  | _ => False
  end.
Proof.
  intros T Hp. unfold feed_bytes. rewrite (tr_active d stream T), (tr_got d stream T). cbn [negb].
  pose proof (flw_geometry (d_flash d)) as [Hg _]. pose proof (tr_total d stream T). pose proof (tr_le d stream T).
  rewrite wrap_id by (unfold in_u, HEAD_LEN, DFU_HDR_LEN, DFU_SIG_LEN, DFU_PATCH_OFFSET, DFU_PAGE_SIZE in *;
    pose proof (zlen_nonneg stream); pose proof (zlen_nonneg p); lia).
  destruct (Z.ltb_spec (dx_total (d_rx d)) (zlen stream + zlen p)) as [|Hsz]; [done|].
  pose proof (feed_head_spec d stream p T Hsz) as Hh.
  destruct (feed_head prim_init ecdsa_verify d p) as [[d1 rest] e]. destruct e; try done; try (by destruct Hh as (? & ? & ?)); try (by destruct Hh).
  destruct Hh as [Hk (q & -> & T1 & Hr)].
  destruct (Z.ltb_spec 0 (zlen rest)) as [Hpos|Hz].
  2:{ assert (rest = []) as -> by (destruct rest; [done|unfold zlen in Hz; simpl in Hz; lia]).
      by rewrite app_nil_r. }
  assert (HEAD_LEN <= zlen (stream ++ q)) as Hfull.
  { destruct (Z.le_gt_cases HEAD_LEN (zlen (stream ++ q))) as [?|Hlt]; [done|]. by rewrite (proj1 (Hr Hlt)) in Hpos. }
  assert (zlen (stream ++ q) + zlen rest <= dx_total (d_rx d1)) as Hsz1.
  { destruct Hk as (f & r & -> & _ & _ & _ & Ht). cbn [field_set d_rx]. rewrite Ht, !zlen_app in *. lia. }
  destruct (patch_write d1 rest) as [d2 ok] eqn:Epw.
  pose proof (transfer_patch d1 _ rest d2 ok T1 Hfull Hsz1 Epw) as [Hk2 T2].
  destruct ok; [|by left]. rewrite app_assoc. split; [|done].
  eapply keeps_trans; [done|]. eapply keeps_trans; [exact Hk2|]. by eexists (d_flash d2), _; destruct d2.
Qed.

(** Without a signature that verifies nothing reaches the flash. *)
Lemma feed_bytes_unsigned d stream p :
  transfer d stream -> zlen p < 2 ^ 31 -> zlen stream < HEAD_LEN ->
  signed (stream ++ p) = false -> d_flash (feed_bytes prim_init ecdsa_verify d p).1 = d_flash d.
Proof.
  intros T Hp Hlt Hs. unfold feed_bytes. destruct (negb _); [done|]. rewrite (tr_got d stream T).
  pose proof (flw_geometry (d_flash d)) as [Hg _]. pose proof (tr_total d stream T). pose proof (tr_le d stream T).
  rewrite wrap_id by (unfold in_u, HEAD_LEN, DFU_HDR_LEN, DFU_SIG_LEN, DFU_PATCH_OFFSET, DFU_PAGE_SIZE in *;
    pose proof (zlen_nonneg stream); pose proof (zlen_nonneg p); lia).
  destruct (Z.ltb_spec (dx_total (d_rx d)) (zlen stream + zlen p)) as [|Hsz]; [done|].
  pose proof (feed_head_spec d stream p T Hsz) as Hh.
  destruct (feed_head prim_init ecdsa_verify d p) as [[d1 rest] e].
  destruct e; try done; [|by destruct Hh as (_ & _ & ?)|by destruct Hh as [_ ?]; congruence].
  destruct Hh as [_ (q & -> & T1 & Hr)]. destruct (Z.le_gt_cases HEAD_LEN (zlen (stream ++ q))) as [Hfull|Hlt'].
  - destruct (tr_after d1 _ T1 Hfull) as (_ & Hsig & _). rewrite app_assoc, signed_app in Hs by done. congruence.
  - by destruct (Hr Hlt') as [-> ?].
Qed.

(** ** Opening and committing *)

Lemma staging_open_spec d d' ok :
  staging_open d = (d', ok) ->
  exists f, d' = d <| d_flash := f |> <| d_fa := ok |> /\ mem f = mem (d_flash d) /\
    fl_size f = fl_size (d_flash d).
Proof.
  unfold staging_open. destruct (d_fa d) eqn:E.
  { intros [= <- <-]. exists (d_flash d). destruct d. simpl in E. by subst. }
  destruct (fl_open (d_flash d)) as [f o] eqn:Eo. intros [= <- <-]. exists f.
  pose proof (flw_open (d_flash d)) as Hm. rewrite Eo in Hm. cbn [fst] in Hm.
  split_and!; [done|done|]. by rewrite <- !flw_len, Hm.
Qed.

(** A claim that is taken: the transfer of no bytes yet. *)
Lemma begin_at_spec d owner id total d' e :
  begin_at d owner id total = (d', e) -> 0 <= total ->
  (dx_owner (d_rx d) = OWNER_NONE /\ e = ERR_OK /\ transfer d' [] /\ dx_owner (d_rx d') = owner /\
    dx_transfer_id (d_rx d') = id /\ dx_total (d_rx d') = total /\ d_open d' = d_open d /\
    d_commit_cb d' = d_commit_cb d /\
    mem (d_flash d') = mem (d_flash d)) \/
  (exists f o, d' = d <| d_flash := f |> <| d_fa := o |> /\ mem f = mem (d_flash d) /\
    (e = ERR_OK -> dx_owner (d_rx d) = owner /\ dx_transfer_id (d_rx d) = id /\ dx_total (d_rx d) = total)).
Proof.
  unfold begin_at. intros H Ht.
  assert (forall o e', (d, e') = (d', e) -> o = d_fa d -> (e' = ERR_OK -> dx_owner (d_rx d) = owner /\
    dx_transfer_id (d_rx d) = id /\ dx_total (d_rx d) = total) ->
    exists f o, d' = d <| d_flash := f |> <| d_fa := o |> /\ mem f = mem (d_flash d) /\
    (e = ERR_OK -> dx_owner (d_rx d) = owner /\ dx_transfer_id (d_rx d) = id /\ dx_total (d_rx d) = total)) as Hsame.
  { intros o e' [= <- <-] -> He. exists (d_flash d), (d_fa d). by destruct d. }
  case_bool_decide as Hon; cbn [orb] in H; [right; by eapply Hsame|].
  destruct (id =? 0); [right; by eapply Hsame|].
  case_bool_decide as Hown.
  { destruct (_ && _) eqn:Eb; right; eapply Hsame; try done. intros _.
    apply andb_true_iff in Eb as [[Hb1 Hb2]%andb_true_iff Hb3]. apply bool_decide_eq_true in Hb1.
    by apply Z.eqb_eq in Hb2, Hb3. }
  destruct (staging_open d) as [d1 ok] eqn:Es.
  apply staging_open_spec in Es as (f & -> & Hm & Hsz).
  destruct ok; [|injection H as <- <-; right; by exists f, false].
  destruct (_ || _) eqn:Esz; injection H as <- <-; [right; by exists f, true|]. left.
  apply orb_false_iff in Esz as [Hs1%Z.leb_gt Hs2%Z.ltb_ge]. unfold patch_max in Hs2. cbn [field_set d_flash] in Hs2.
  pose proof (flw_geometry f) as [Hg _].
  rewrite wrap_id in Hs2 by (unfold in_u, DFU_PATCH_OFFSET, DFU_PAGE_SIZE in *; lia).
  split_and!; try done.
  constructor; cbn [field_set d_flash d_rx dx_active dx_owner dx_staged dx_got dx_total dx_head dx_erased dx_wbuf
    dx_patch_crc dx_wpos]; rewrite ?drop_nil, ?take_nil; try done; try lia. 
Qed.

Lemma length_pad4 l : zlen (pad4 l) = 4 * ((zlen l + 3) / 4).
Proof. unfold pad4. rewrite zlen_app, zlen_replicate. pose proof (zlen_nonneg l). zdiv. Qed.

Lemma pad4_app a b : zlen a mod 4 = 0 -> a ++ pad4 b = pad4 (a ++ b).
Proof.
  intros H. unfold pad4. rewrite app_assoc. do 2 f_equal. rewrite zlen_app. zdiv.
Qed.

(** The last flush leaves the padded patch and erased bytes. *)
Lemma wbuf_flush_final d patch d' ok :
  laid d patch -> DFU_PATCH_OFFSET + zlen patch <= fl_size (d_flash d) ->
  wbuf_flush d true = (d', ok) ->
  if ok then mem (d_flash d') = replicate (Z.to_nat DFU_PATCH_OFFSET) 0xff ++ pad4 patch ++
    replicate (Z.to_nat (fl_size (d_flash d) - DFU_PATCH_OFFSET - zlen (pad4 patch))) 0xff
  else write_refused.
Proof.
  intros Hl Hsz Hw.
  set (d1 := d <| d_rx := (d_rx d) <| dx_wbuf := pad4 (dx_wbuf (d_rx d)) |> |>).
  assert (laid d1 (pad4 patch)) as Hl1.
  { destruct Hl as (w & k & Hm & Hp & H4 & Hpos). exists w, k. split_and!; try done.
    unfold d1. cbn [field_set d_rx dx_wbuf]. by rewrite pad4_app, Hp. }
  assert (DFU_PATCH_OFFSET + zlen (pad4 patch) <= fl_size (d_flash d1)) as Hsz1.
  { rewrite length_pad4. unfold d1. cbn [field_set d_flash]. pose proof (flw_geometry (d_flash d)) as [Hg Hpg].
    unfold DFU_PATCH_OFFSET, DFU_PAGE_SIZE in *. zdiv. }
  assert (forall d2, laid d2 (pad4 patch) -> dx_wbuf (d_rx d2) = [] -> fl_size (d_flash d2) = fl_size (d_flash d) ->
    mem (d_flash d2) = replicate (Z.to_nat DFU_PATCH_OFFSET) 0xff ++ pad4 patch ++
      replicate (Z.to_nat (fl_size (d_flash d) - DFU_PATCH_OFFSET - zlen (pad4 patch))) 0xff) as Hfin.
  { intros d2 (w & k & Hm & Hp & _ & _) Hb Hs. rewrite Hb, app_nil_r in Hp. rewrite Hm, Hp. do 3 f_equal.
    pose proof (flw_len (d_flash d2)) as Hlen. rewrite Hm, !zlen_app, !zlen_replicate, Hp, Hs in Hlen.
    rewrite <- Hlen. change (Z.of_nat (Z.to_nat DFU_PATCH_OFFSET)) with DFU_PATCH_OFFSET. lia. }
  unfold wbuf_flush in Hw. cbv zeta in Hw. fold d1 in Hw.
  destruct (Z.eqb_spec (zlen (pad4 (dx_wbuf (d_rx d)))) 0) as [Hz|Hnz].
  { injection Hw as <- <-. apply Hfin; [done| |done]. unfold d1. cbn [field_set d_rx dx_wbuf].
    apply nil_length_inv. unfold zlen in Hz. lia. }
  destruct (fl_write _ _ _) as [f okw] eqn:Ew.
  pose proof (zlen_nonneg (pad4 (dx_wbuf (d_rx d)))).
  pose proof (laid_write d1 (pad4 patch) (zlen (pad4 (dx_wbuf (d_rx d)))) f okw Hl1) as Hlw.
  assert (zlen (pad4 (dx_wbuf (d_rx d))) mod 4 = 0) as H4 by (rewrite length_pad4; zdiv).
  specialize (Hlw ltac:(unfold d1; cbn [field_set d_rx dx_wbuf]; lia) H4 Hsz1 Ew).
  pose proof (flw_write_size (d_flash d) (dx_wpos (d_rx d))
    (take (Z.to_nat (zlen (pad4 (dx_wbuf (d_rx d))))) (pad4 (dx_wbuf (d_rx d))))) as Hfs.
  change (d_flash d1) with (d_flash d) in Ew. rewrite Ew in Hfs.
  destruct okw; cbn [negb] in Hw; injection Hw as <- <-; [|done].
  apply Hfin; [exact Hlw| |exact Hfs]. cbn [field_set d_rx dx_wbuf].
  apply drop_ge. unfold zlen. lia.
Qed.

(** What the header of a stream must say of the rest. *)
Definition consistent (stream : list Z) : bool :=
  let hdr := hdr_of (take 96 stream) in
  (hd_magic hdr =? DFU_MAGIC) && (hd_abi_version hdr =? DFU_ABI_VERSION) &&
  (hd_hdr_crc32 hdr =? crc32 (take 28 stream)) && (hd_patch_len hdr =? zlen stream - HEAD_LEN) &&
  (hd_patch_crc32 hdr =? crc32 (drop 96 stream)).

(** What the partition holds once a stream is staged. *)
Definition image (size : Z) (stream : list Z) : list Z :=
  take 32 stream ++ replicate (Z.to_nat (DFU_PATCH_OFFSET - DFU_HDR_LEN)) 0xff ++ pad4 (drop 96 stream) ++
  replicate (Z.to_nat (size - DFU_PATCH_OFFSET - zlen (pad4 (drop 96 stream)))) 0xff.

Lemma hdr_matches_consistent d stream :
  transfer d stream -> zlen stream = dx_total (d_rx d) -> hdr_matches (d_rx d) = consistent stream.
Proof.
  intros T Ht. pose proof (tr_total d stream T). pose proof (flw_geometry (d_flash d)) as [Hg _].
  destruct (tr_after d stream T ltac:(lia)) as (_ & _ & Hcrc & _).
  unfold hdr_matches, consistent. rewrite (head_complete d stream); try apply T; [|lia].
  rewrite Hcrc, <- Ht, wrap_id, take_take; [done|].
  unfold in_u, HEAD_LEN, DFU_HDR_LEN, DFU_SIG_LEN, DFU_PATCH_OFFSET, DFU_PAGE_SIZE in *. lia.
Qed.

(** The header written over erased bytes. *)
Lemma header_write f stream rest f' ok :
  HEAD_LEN <= zlen stream ->
  mem f = replicate (Z.to_nat DFU_PATCH_OFFSET) 0xff ++ rest ->
  fl_write f DFU_HDR_OFFSET (take 32 stream) = (f', ok) ->
  if ok then mem f' = take 32 stream ++ replicate (Z.to_nat (DFU_PATCH_OFFSET - DFU_HDR_LEN)) 0xff ++ rest
  else write_refused.
Proof.
  intros Hl Hm Hw. assert (length (take 32 stream) = 32%nat) as H32.
  { rewrite length_take. unfold zlen, HEAD_LEN, DFU_HDR_LEN, DFU_SIG_LEN in Hl. lia. }
  pose proof (flw_geometry f) as [Hg _].
  assert (write_legit f (mem f) DFU_HDR_OFFSET (take 32 stream)) as Hlg.
  { unfold write_legit, zlen. rewrite H32. unfold DFU_HDR_OFFSET. split_and!; try done.
    - unfold DFU_PATCH_OFFSET, DFU_PAGE_SIZE in Hg. lia.
    - rewrite Hm. change (Z.to_nat 0) with O. rewrite drop_0, take_app_le by (rewrite length_replicate; vm_compute; lia).
      by rewrite take_replicate. }
  destruct ok; [|by exists f, DFU_HDR_OFFSET, (take 32 stream); rewrite Hw].
  rewrite (flw_write f _ _ f' Hw Hlg), Hm. unfold mem_write, zlen. rewrite H32.
  change (Z.to_nat DFU_HDR_OFFSET) with O. rewrite take_0. cbn [app]. f_equal.
Qed.

(** A commit, on every outcome. *)
Lemma commit_now_spec d stream reboot :
  transfer d stream ->
  let '(d', e) := commit_now d reboot in
  match e with
  | ERR_OK => zlen stream = dx_total (d_rx d) /\ signed stream = true /\ consistent stream = true /\
      mem (d_flash d') = image (fl_size (d_flash d)) stream /\ fl_size (d_flash d') = fl_size (d_flash d) /\
      dx_staged (d_rx d') = true /\ dx_active (d_rx d') = false /\ dx_got (d_rx d') = zlen stream /\
      dx_owner (d_rx d') = dx_owner (d_rx d) /\ d_reboot d' = d_reboot d || reboot
  | ERR_SEQUENCE => zlen stream < dx_total (d_rx d)
  | ERR_INTEGRITY => zlen stream = dx_total (d_rx d) /\ consistent stream = false
  | ERR_FLASH => flash_refused \/
      exists cb, d_commit_cb d = Some cb /\ cb (hdr_of (take 96 stream)) = false
  | _ => False
  end.
Proof.
  intros T. unfold commit_now. rewrite (tr_staged d stream T), (tr_active d stream T), (tr_got d stream T).
  pose proof (tr_le d stream T) as Hle. pose proof (tr_total d stream T) as Htot. cbn [negb orb].
  destruct (Z.eqb_spec (zlen stream) (dx_total (d_rx d))) as [Heq|]; cbn [negb].
  2:{ rewrite orb_true_r. lia. }
  destruct (tr_after d stream T ltac:(lia)) as (He & Hsig & Hcrc & [Hlaid _]). rewrite He. cbn [negb orb].
  assert (zlen (drop 96 stream) = zlen stream - HEAD_LEN) as Hd
    by (unfold zlen, HEAD_LEN, DFU_HDR_LEN, DFU_SIG_LEN in *; rewrite length_drop; lia).
  destruct (wbuf_flush d true) as [d1 ok] eqn:Efl.
  pose proof (wbuf_flush_final d _ _ _ Hlaid ltac:(lia) Efl) as Hm1.
  destruct ok; [|left; by left]. destruct (wbuf_flush_moves _ _ _ _ Efl) as (f1 & w & b & -> & Hs1).
  cbn [field_set d_flash d_rx] in *.
  match goal with |- context [hdr_matches ?r] => change (hdr_matches r) with (hdr_matches (d_rx d)) end.
  rewrite (hdr_matches_consistent d stream T Heq).
  destruct (consistent stream) eqn:Ec; cbn [negb]; [|done].
  cbn [field_set dx_head]. rewrite (head_complete d stream); try apply T; [|lia].
  rewrite take_take. change (Init.Nat.min (Z.to_nat DFU_HDR_LEN) 96) with 32%nat.
  destruct (fl_write f1 DFU_HDR_OFFSET (take 32 stream)) as [f2 ok2] eqn:Ew.
  pose proof (header_write f1 stream _ f2 ok2 ltac:(lia) Hm1 Ew) as Hm2.
  pose proof (flw_write_size f1 DFU_HDR_OFFSET (take 32 stream)) as Hs2. rewrite Ew, Hs1 in Hs2.
  destruct ok2; cbn [negb]; [|left; by left].
  cbn [field_set d_commit_cb d_rx dx_head]. destruct (d_commit_cb d) as [cb|] eqn:Ecb.
  - destruct (cb (hdr_of (take 96 stream))) eqn:Ecall; cbn [negb]; [|right; by exists cb].
    split_and!; try done; destruct reboot; cbn; rewrite ?orb_true_r, ?orb_false_r; try done; apply T.
  - split_and!; try done; destruct reboot; cbn; rewrite ?orb_true_r, ?orb_false_r; try done; apply T.
Qed.

(** The claim is nobody else's afterwards, whatever the outcome. *)
Lemma patch_loop_owner fuel d data : dx_owner (d_rx (patch_loop fuel d data).1) = dx_owner (d_rx d).
Proof.
  revert d data. induction fuel as [|fuel IH]; intros d data; [done|]. destruct data as [|b data]; [done|].
  cbn [patch_loop]. set (d1 := d <| d_rx := _ |>). destruct (_ =? _); [|by rewrite IH].
  destruct (wbuf_flush d1 false) as [d2 ok] eqn:E. apply wbuf_flush_moves in E as (f & w & b' & -> & _).
  destruct ok; [|done]. by rewrite IH.
Qed.

Lemma feed_bytes_owner d p :
  dx_owner (d_rx (feed_bytes prim_init ecdsa_verify d p).1) = dx_owner (d_rx d).
Proof.
  unfold feed_bytes. destruct (negb _); [done|]. destruct (_ <? _); [done|].
  assert (dx_owner (d_rx (feed_head prim_init ecdsa_verify d p).1.1) = dx_owner (d_rx d)) as Hh.
  { unfold feed_head. destruct (_ <? _); [|done]. cbv zeta. destruct (_ =? _); [|done].
    destruct (negb _); [done|]. destruct (fl_erase _ _ _) as [f ok]. by destruct ok. }
  destruct (feed_head _ _ _ _) as [[d1 rest] e]. destruct e; try done. destruct (0 <? _); [|done].
  unfold patch_write. pose proof (patch_loop_owner (length rest)
    (d1 <| d_rx := (d_rx d1) <| dx_patch_crc := crc32_update (dx_patch_crc (d_rx d1)) rest |> |>) rest) as Ho.
  destruct (patch_loop _ _ _) as [d2 ok]. cbn [fst] in *. destruct ok; cbn; by rewrite Ho.
Qed.

Lemma commit_now_owner d reboot : dx_owner (d_rx (commit_now d reboot).1) = dx_owner (d_rx d).
Proof.
  unfold commit_now, arm_reboot. destruct (dx_staged _); [by destruct reboot|]. destruct (_ || _); [done|].
  destruct (wbuf_flush d true) as [d1 ok] eqn:E. apply wbuf_flush_moves in E as (f & w & b & -> & _).
  destruct ok; [|done]. destruct (negb _); [done|]. destruct (fl_write _ _ _) as [f2 ok2].
  destruct (negb _); [done|]. cbn [field_set d_commit_cb].
  destruct (d_commit_cb d) as [cb|]; [destruct (negb (cb _)); [done|]|]; by destruct reboot.
Qed.
End Props.
