(* ===== verification/DfuRun.v ===== *)
(** * Runs of the firmware update receiver

    The entry points of [dfu_receiver.c] as one operation type, and what holds
    in every state they reach: a receiver that says "staged" has a signed,
    consistent image in flash, and one that is receiving has a blank header
    page.  Then the runs of an honest host, and what a stranger can and cannot
    do. *)

From Stdlib Require Import ZArith Lia Bool.
From stdpp Require Import base list numbers option.
From S2P Require Import Prelude Wire Dfu DfuProps.

Local Open Scope Z_scope.
Local Open Scope uwl_scope.

Inductive dfu_op :=
  | OpFrame (owner : dfu_owner) (frame : list Z)
  | OpUpload (off total : Z) (data : list Z)
  | OpReset (owner : dfu_owner)
  | OpResetAll
  | OpErase (owner : dfu_owner)
  | OpWindowOpen (now_ms duration_ms : Z)
  | OpWindowClose
  | OpWindowExpire (now_ms : Z)
  | OpSetCommit (cb : option (dfu_hdr -> bool))
  | OpStaged.

(** What the callers hand over: byte strings that fit in memory, 32-bit
    fields. *)
Definition op_ok (op : dfu_op) : Prop :=
  match op with
  | OpFrame _ frame => zlen frame < 2 ^ 31 /\ Forall byte_ok frame
  | OpUpload off total data => in_u 32 off /\ in_u 32 total /\ zlen data < 2 ^ 31 /\ Forall byte_ok data
  | _ => True
  end.

Section Runs.
Context {F : Type} {FL : Flash F} {mem : F -> list Z} `{LW : !FlashLaws FL mem}.
Context (prim_init : bool) (ecdsa_verify : list Z -> list Z -> bool).

Implicit Types d : dfu F.

Abbreviation transfer := (transfer (mem := mem) prim_init ecdsa_verify).
Abbreviation signed := (signed prim_init ecdsa_verify).

Definition run_op d (op : dfu_op) : dfu F :=
  match op with
  | OpFrame owner frame => (rx_frame prim_init ecdsa_verify d owner frame).1
  | OpUpload off total data => (rx_upload prim_init ecdsa_verify d off total data).1
  | OpReset owner => rx_reset d owner
  | OpResetAll => rx_reset_all d
  | OpErase owner => (rx_erase d owner).1
  | OpWindowOpen now dur => window_open d now dur
  | OpWindowClose => window_close d
  | OpWindowExpire now => window_expire d now
  | OpSetCommit cb => d <| d_commit_cb := cb |>
  | OpStaged => (rx_staged d).1
  end.

(** An erase the owner asked for that the flash did not carry out. *)
Definition erase_failed d (op : dfu_op) : Prop :=
  match op with
  | OpErase owner => (rx_erase d owner).2 = EIO
  | OpFrame owner frame =>
      head frame = Some OP_ABORT /\
      (rx_frame prim_init ecdsa_verify d owner frame).2 = reply_err ERR_FLASH
  | _ => False
  end.

#[export] Instance errno_eq_dec : EqDecision errno.
Proof. solve_decision. Defined.

#[export] Instance erase_failed_dec d op : Decision (erase_failed d op).
Proof. destruct op; cbn; apply _. Defined.

(** ** The invariant *)

Definition staged_image d : Prop :=
  exists stream, signed stream = true /\ consistent stream = true /\
    mem (d_flash d) = image (fl_size (d_flash d)) stream.

Definition inv d : Prop :=
  (dx_active (d_rx d) = true -> exists stream, transfer d stream) /\
  (dx_staged (d_rx d) = true -> dx_active (d_rx d) = false /\ staged_image d).

Lemma same_size d d' : mem (d_flash d') = mem (d_flash d) -> fl_size (d_flash d') = fl_size (d_flash d).
Proof. intros H. by rewrite <- !flw_len, H. Qed.

Lemma transfer_ext d d' stream :
  d_rx d' = d_rx d -> mem (d_flash d') = mem (d_flash d) -> transfer d stream -> transfer d' stream.
Proof.
  intros Hr Hm T. pose proof (same_size d d' Hm) as Hs. destruct T.
  constructor; rewrite ?Hr, ?Hs; try done.
  intros Hh. destruct (tr_after Hh) as (? & ? & ? & [Hl ?]). split_and!; try done. split; [|by rewrite Hr].
  unfold laid in *. by rewrite Hm, Hr.
Qed.

Lemma inv_idle d d' : d_rx d' = d_rx d -> mem (d_flash d') = mem (d_flash d) -> inv d -> inv d'.
Proof.
  intros Hr Hm [Ha Hs]. split; rewrite Hr.
  - intros H. destruct (Ha H) as [s T]. exists s. by eapply transfer_ext.
  - intros H. destruct (Hs H) as [? (s & ? & ? & Himg)]. split; [done|]. exists s.
    by rewrite Hm, (same_size d d' Hm).
Qed.

Lemma inv_zero d : d_rx d = rx_zero -> inv d.
Proof. intros H. split; by rewrite H. Qed.

Lemma inv_transfer d stream : transfer d stream -> inv d.
Proof. intros T. split; [by exists stream|]. by rewrite (tr_staged _ _ d stream T). Qed.

Lemma inv_begin d owner id total :
  0 <= total -> inv d -> inv (begin_at d owner id total).1.
Proof.
  intros Ht Hi. destruct (begin_at d owner id total) as [d' e] eqn:E. cbn [fst].
  apply (begin_at_spec prim_init ecdsa_verify) in E as [(_ & _ & T & _)|(f & o & -> & Hm & _)]; [by eapply inv_transfer| |done].
  by apply (inv_idle d).
Qed.

(** An accepted feed; a refused one resets the receiver. *)
Lemma inv_feed d p d' :
  inv d -> zlen p < 2 ^ 31 -> feed_bytes prim_init ecdsa_verify d p = (d', ERR_OK) -> inv d'.
Proof.
  intros [Ha _] Hp Hf. destruct (dx_active (d_rx d)) eqn:Eact.
  2:{ unfold feed_bytes in Hf. by rewrite Eact in Hf. }
  destruct (Ha eq_refl) as [s T]. pose proof (feed_bytes_spec _ _ d s p T Hp) as H. rewrite Hf in H.
  by eapply inv_transfer, H.
Qed.

Lemma inv_commit d reboot d' : inv d -> commit_now d reboot = (d', ERR_OK) -> inv d'.
Proof.
  intros Hi Hc. destruct (dx_staged (d_rx d)) eqn:Es.
  { unfold commit_now in Hc. rewrite Es in Hc. injection Hc as <-.
    eapply inv_idle; [| |exact Hi]; by destruct reboot. }
  destruct (dx_active (d_rx d)) eqn:Ea; [|unfold commit_now in Hc; by rewrite Es, Ea in Hc].
  destruct (proj1 Hi Ea) as [s T]. pose proof (commit_now_spec _ _ d s reboot T) as H. rewrite Hc in H.
  destruct H as (_ & Hsig & Hcon & Hm & Hsz & Hst & Hac & _). split; rewrite ?Hst, ?Hac; [done|]. intros _.
  split; [done|]. exists s. split_and!; [done|done|]. by rewrite Hm, Hsz.
Qed.

(** ** Every operation keeps it *)

Lemma field_nonneg n p off : Forall byte_ok p -> 0 <= field n p off.
Proof. intros H. apply (field_range n p off H). Qed.

Lemma inv_reset_all d : inv (rx_reset_all d).
Proof. by apply inv_zero. Qed.

Lemma inv_erase d owner : inv d -> (rx_erase d owner).2 <> EIO -> inv (rx_erase d owner).1.
Proof.
  intros Hi. unfold rx_erase. destruct (negb (d_open d)); [done|]. destruct (_ && _); [done|].
  destruct (staging_open d) as [d1 ok] eqn:Es. destruct ok; [|done].
  destruct (fl_erase _ _ _) as [f ok]. destruct ok; [|done]. intros _. apply inv_reset_all.
Qed.

Lemma inv_data d owner frame :
  zlen frame < 2 ^ 31 -> inv d -> inv (do_data prim_init ecdsa_verify d owner frame).1.
Proof.
  intros Hf Hi. unfold do_data. destruct (Z.ltb_spec (zlen frame) 9); [done|].
  destruct (foreign _ _ _); [done|]. destruct (negb _); [done|].
  destruct (feed_bytes _ _ _ _) as [d' e] eqn:E.
  destruct e; try apply inv_reset_all. eapply inv_feed; [exact Hi| |exact E].
  unfold zlen in *. rewrite length_drop. lia.
Qed.

Lemma inv_commit_frame d owner frame : inv d -> inv (do_commit d owner frame).1.
Proof.
  intros Hi. unfold do_commit. destruct (negb _); [done|]. destruct (foreign _ _ _); [done|].
  destruct (commit_now d true) as [d' e] eqn:E. destruct e; try apply inv_reset_all. by eapply inv_commit.
Qed.

Lemma inv_begin_frame d owner frame : Forall byte_ok frame -> inv d -> inv (do_begin d owner frame).1.
Proof.
  intros Hf Hi. unfold do_begin. destruct (negb _); [done|].
  pose proof (inv_begin d owner (field 4 frame 1) (field 4 frame 5) (field_nonneg _ _ _ Hf) Hi) as H.
  destruct (begin_at _ _ _ _) as [d' e]. by destruct e.
Qed.

Lemma inv_abort d owner frame :
  d_open d = true -> (do_abort d owner frame).2 <> reply_err ERR_FLASH -> inv d -> inv (do_abort d owner frame).1.
Proof.
  intros Ho. unfold do_abort. destruct (_ || _); [done|]. intros Hne Hi.
  pose proof (inv_erase d owner Hi) as H. destruct (rx_erase d owner) as [d' e].
  destruct e; try done. by apply H.
Qed.

Lemma inv_frame d owner frame :
  op_ok (OpFrame owner frame) -> ~ erase_failed d (OpFrame owner frame) -> inv d ->
  inv (rx_frame prim_init ecdsa_verify d owner frame).1.
Proof.
  intros [Hl Hb] He Hi. unfold erase_failed in He. unfold rx_frame in *. destruct frame as [|op rest]; [done|].
  destruct (d_open d) eqn:Eo; cbn [negb] in *; [|done].
  destruct (Z.eqb_spec op OP_BEGIN); [by apply inv_begin_frame|].
  destruct (Z.eqb_spec op OP_DATA); [by apply inv_data|].
  destruct (Z.eqb_spec op OP_COMMIT); [by apply inv_commit_frame|].
  destruct (Z.eqb_spec op OP_ABORT) as [->|]; [|done]. apply inv_abort; [done| |done].
  intros Hr. by apply He.
Qed.

(** A refused upload: the receiver is reset, or it was not receiving. *)
Lemma inv_refused d d' :
  inv d -> dx_owner (d_rx d') = dx_owner (d_rx d) -> dx_owner (d_rx d) = OWNER_SMP \/ d' = d ->
  inv (smp_refused d').1.
Proof.
  intros Hi Ho Hor. unfold smp_refused. cbn [fst]. case_bool_decide as Hd; [apply inv_reset_all|].
  destruct Hor as [Hs| ->]; [|by apply (inv_idle d)].
  exfalso. apply Hd. cbn [field_set d_rx]. by rewrite Ho.
Qed.

Lemma inv_owner d : inv d -> dx_active (d_rx d) = true -> dx_owner (d_rx d) <> OWNER_NONE.
Proof. intros [Ha _] H. destruct (Ha H) as [s T]. apply T. Qed.

(** Who may upload. *)
Definition smp_may d : Prop := dx_owner (d_rx d) = OWNER_NONE \/ dx_owner (d_rx d) = OWNER_SMP.

Lemma smp_owner d : inv d -> smp_may d -> dx_active (d_rx d) = true -> dx_owner (d_rx d) = OWNER_SMP.
Proof. intros Hi [H|H] Ha; [|done]. by destruct (inv_owner d Hi Ha). Qed.

(** The end of an upload: the commit after the last byte. *)
Lemma inv_smp_commit d :
  inv d -> smp_may d ->
  inv (if dx_active (d_rx d) && (dx_got (d_rx d) =? d_inner d) then
         match commit_now d false with
         | (d, ERR_OK) => (d, inr (d_cli_off d))
         | (d, _) => smp_refused d
         end
       else (d, inr (d_cli_off d) : errno + Z)).1.
Proof.
  intros Hi Hm. destruct (dx_active (d_rx d)) eqn:Ea; [|done]. cbn [andb]. destruct (_ =? _); [|done].
  pose proof (commit_now_owner d false) as Ho. destruct (commit_now d false) as [d' e] eqn:E. cbn [fst] in Ho.
  destruct e; try (eapply inv_refused; [exact Hi|exact Ho|left; by apply smp_owner]).
  by eapply inv_commit.
Qed.

Lemma inv_consume d data :
  zlen data < 2 ^ 31 -> inv d -> smp_may d -> inv (smp_consume prim_init ecdsa_verify d data).1.
Proof.
  intros Hd Hi Hm. unfold smp_consume. set (dn := if _ <? _ then _ else O).
  set (d1 := d <| d_cli_off := _ |>). set (dt := drop dn data). cbv zeta.
  assert (inv d1) as Hi1 by by apply (inv_idle d).
  destruct (_ && _) eqn:Ef.
  2:{ apply inv_smp_commit; [by apply (inv_idle d1)|done]. }
  set (q := take _ dt).
  assert (zlen q < 2 ^ 31) as Hq by (unfold q, dt, zlen in *; rewrite length_take, length_drop; lia).
  pose proof (feed_bytes_owner prim_init ecdsa_verify d1 q) as Ho.
  destruct (feed_bytes prim_init ecdsa_verify d1 q) as [d2 e] eqn:E. cbn [fst] in Ho.
  assert (forall d', d' = d2 -> e <> ERR_OK -> inv (smp_refused d').1) as Href.
  { intros d' -> Hne. eapply inv_refused; [exact Hi1|exact Ho|].
    destruct (dx_active (d_rx d1)) eqn:Ea; [left; by apply smp_owner|].
    right. unfold feed_bytes in E. rewrite Ea in E. by injection E. }
  destruct e; try (by apply Href).
  assert (inv d2) as Hi2 by by eapply inv_feed.
  apply inv_smp_commit; [by apply (inv_idle d2)|]. unfold smp_may. cbn [field_set d_rx]. by rewrite Ho.
Qed.

Lemma inv_upload d off total data :
  op_ok (OpUpload off total data) -> inv d -> inv (rx_upload prim_init ecdsa_verify d off total data).1.
Proof.
  intros (Hoff & Htot & Hl & Hb) Hi. unfold rx_upload. destruct (negb _); [done|].
  destruct (_ && _) eqn:Eo; [done|].
  assert (smp_may d) as Hm.
  { apply andb_false_iff in Eo as [Eo|Eo]; apply bool_decide_eq_false, dec_stable in Eo; [by left|by right]. }
  destruct ((off =? 0) && _ && _); [done|]. destruct (off =? 0).
  2:{ destruct (negb _); [done|]. by apply inv_consume. }
  set (d0 := d <| d_skip := 0 |> <| d_inner := total |>).
  assert (inv d0) as Hi0 by by apply (inv_idle d).
  destruct (smp_geometry total data) as [[skip inner]|] eqn:Eg.
  2:{ eapply (inv_refused d0); [done|done|by right]. }
  set (d1 := d0 <| d_skip := skip |> <| d_inner := inner |>).
  assert (inv d1) as Hi1 by by apply (inv_idle d).
  assert (0 <= inner) as Hin.
  { unfold smp_geometry in Eg. repeat case_match; simplify_eq; [by apply field_nonneg|apply Htot]. }
  destruct (begin_at d1 OWNER_SMP 1 inner) as [d2 e] eqn:Eb.
  pose proof (inv_begin d1 OWNER_SMP 1 inner Hin Hi1) as Hi2. rewrite Eb in Hi2. cbn [fst] in Hi2.
  apply (begin_at_spec prim_init ecdsa_verify) in Eb; [|done].
  assert (e <> ERR_OK -> inv (smp_refused d2).1) as Href.
  { intros He. destruct Eb as [(_ & ? & _)|(f & o & -> & Hmm & _)]; [done|].
    eapply (inv_refused _ _ Hi2); [done|by right]. }
  destruct e; try (by apply Href). apply inv_consume; [done|by apply (inv_idle d2)|].
  destruct Eb as [(_ & _ & _ & Ho & _)|(f & o & -> & Hmm & Heq)]; [by right|]. right. by apply Heq.
Qed.

Lemma run_op_inv d op : op_ok op -> ~ erase_failed d op -> inv d -> inv (run_op d op).
Proof.
  intros Hok He Hi. destruct op; cbn [run_op] in *.
  - by apply inv_frame.
  - by apply inv_upload.
  - unfold rx_reset. destruct (_ && _); [apply inv_reset_all|done].
  - apply inv_reset_all.
  - by apply inv_erase.
  - by apply (inv_idle d).
  - by apply inv_zero.
  - unfold window_expire. destruct (negb _); [done|]. destruct (_ <? _); [by apply (inv_idle d)|by apply inv_zero].
  - by apply (inv_idle d).
  - unfold rx_staged. destruct (staging_open d) as [d1 ok] eqn:E.
    apply staging_open_spec in E as (f & -> & Hm & _).
    destruct ok; [|by apply (inv_idle d)]. destruct (fl_read _ _ _); by apply (inv_idle d).
Qed.

(** The states any operations reach from power-up, and whether an erase that was
    commanded (an ABORT, an erase request) has failed since the receiver was last
    idle, that is, neither receiving nor staged. *)
Inductive reach : bool -> dfu F -> Prop :=
  | reach_boot d : d_rx d = rx_zero -> reach false d
  | reach_op b d op : reach b d -> op_ok op -> ~ erase_failed d op -> reach b (run_op d op)
  | reach_failed b d op : reach b d -> op_ok op -> erase_failed d op -> reach true (run_op d op)
  | reach_idle b d op : reach b d -> op_ok op -> dx_active (d_rx (run_op d op)) = false ->
      dx_staged (d_rx (run_op d op)) = false -> reach false (run_op d op).

(** The flag leaves no operation out. *)
Lemma reach_total b d op : reach b d -> op_ok op -> exists b', reach b' (run_op d op).
Proof.
  intros H Ho. destruct (decide (erase_failed d op)); [exists true; by eapply reach_failed|exists b; by apply reach_op].
Qed.

Lemma reach_false_inv b d : reach b d -> b = false -> inv d.
Proof.
  induction 1 as [| | |b d op H IH Ho Ha Hs]; intros Hb; [by apply inv_zero|apply run_op_inv; auto|done|].
  split; [by rewrite Ha|by rewrite Hs].
Qed.

Lemma reach_inv d : reach false d -> inv d.
Proof. intros H. by eapply reach_false_inv. Qed.

(** C14: whatever sequence of frames, uploads, resets, erases, window events and
    hook changes the receiver has been through, failed erases included, as long
    as no commanded erase has failed since it was last idle: a receiver that
    says "staged" has in its partition exactly the image of a stream whose
    header the signing key signed and whose magic, version, length and both
    checksums agree; and while a transfer that has erased the partition is in
    progress, the header page holds nothing but erased bytes, so that a cut
    leaves the bootloader nothing to apply.  (Before its first complete, signed
    header a transfer has erased nothing, and the page is what it was.)
    [dfu_abort_failure_committable] shows what the exception is about. *)
Theorem dfu_staged_authentic d :
  reach false d ->
  (dx_staged (d_rx d) = true ->
    exists stream, signed stream = true /\ consistent stream = true /\
      mem (d_flash d) = image (fl_size (d_flash d)) stream) /\
  (dx_active (d_rx d) = true -> dx_erased (d_rx d) = true ->
    take (Z.to_nat DFU_PATCH_OFFSET) (mem (d_flash d)) = replicate (Z.to_nat DFU_PATCH_OFFSET) 0xff).
Proof.
  intros [Ha Hs]%reach_inv. split; [intros H; by apply Hs|]. intros Hact He.
  destruct (Ha Hact) as [s T]. destruct (Z.le_gt_cases HEAD_LEN (zlen s)) as [Hh|Hh].
  - destruct (tr_after _ _ d s T Hh) as (_ & _ & _ & [(w & k & Hm & _) _]).
    rewrite Hm. apply take_app_length'. by rewrite length_replicate.
  - destruct (tr_before _ _ d s T Hh) as [He' _]. congruence.
Qed.

(** ** Strangers *)

Definition may_not d (owner : dfu_owner) : Prop :=
  d_open d = false \/ (dx_owner (d_rx d) <> OWNER_NONE /\ dx_owner (d_rx d) <> owner).

Lemma foreign_true d owner id : dx_owner (d_rx d) <> owner -> foreign d owner id = true.
Proof. intros H. unfold foreign. by rewrite bool_decide_eq_true_2. Qed.

Lemma begin_at_busy d owner id total :
  dx_owner (d_rx d) <> OWNER_NONE -> dx_owner (d_rx d) <> owner -> (begin_at d owner id total).1 = d.
Proof.
  intros Hn Ho. unfold begin_at. destruct (_ || _); [done|]. rewrite (bool_decide_eq_true_2 _ Hn).
  by rewrite (bool_decide_eq_false_2 _ Ho).
Qed.

Lemma frame_stranger d owner frame :
  may_not d owner -> (rx_frame prim_init ecdsa_verify d owner frame).1 = d.
Proof.
  intros H. unfold rx_frame. destruct frame as [|op rest]; [done|].
  destruct H as [Ho|[Hn Ho]]; [by rewrite Ho|]. destruct (negb (d_open d)); [done|].
  unfold do_begin, do_data, do_commit, do_abort. rewrite !foreign_true, orb_true_r by done.
  pose proof (begin_at_busy d owner (field 4 (op :: rest) 1) (field 4 (op :: rest) 5) Hn Ho) as Hb.
  destruct (begin_at _ _ _ _) as [d' e]. cbn [fst] in Hb. subst d'.
  repeat (case_match; try done).
Qed.

Lemma upload_stranger d off total data :
  may_not d OWNER_SMP -> (rx_upload prim_init ecdsa_verify d off total data).1 = d.
Proof.
  intros [Ho|[Hn Ho]]; unfold rx_upload; [by rewrite Ho|]. destruct (negb _); [done|].
  by rewrite (bool_decide_eq_true_2 _ Hn), (bool_decide_eq_true_2 _ Ho).
Qed.

Lemma erase_stranger d owner : may_not d owner -> (rx_erase d owner).1 = d.
Proof.
  intros [Ho|[Hn Ho]]; unfold rx_erase; [by rewrite Ho|]. destruct (negb _); [done|].
  by rewrite (bool_decide_eq_true_2 _ Hn), (bool_decide_eq_true_2 _ Ho).
Qed.

(** Who an operation comes from, when it comes from a transport. *)
Definition op_owner (op : dfu_op) : option dfu_owner :=
  match op with
  | OpFrame o _ | OpErase o => Some o
  | OpUpload _ _ _ => Some OWNER_SMP
  | _ => None
  end.

(** While the window is closed, and while another transport holds the
    claim, no frame, upload or erase request, whatever its bytes, changes
    anything: not the flash, not the transfer, not the timers, not the reboot
    request. *)
Theorem dfu_stranger_inert d op owner :
  op_owner op = Some owner -> may_not d owner -> run_op d op = d.
Proof.
  intros Ho Hm. destruct op; cbn [op_owner] in Ho; simplify_eq; cbn [run_op].
  - by apply frame_stranger.
  - by apply upload_stranger.
  - by apply erase_stranger.
Qed.

Lemma begin_frame_flash d owner frame :
  0 <= field 4 frame 5 -> mem (d_flash (do_begin d owner frame).1) = mem (d_flash d).
Proof.
  intros H. unfold do_begin. destruct (negb _); [done|].
  destruct (begin_at d owner (field 4 frame 1) (field 4 frame 5)) as [d' e] eqn:E.
  apply (begin_at_spec prim_init ecdsa_verify) in E; [|done].
  assert (mem (d_flash d') = mem (d_flash d)) as Hm.
  { by destruct E as [(_ & _ & _ & _ & _ & _ & _ & _ & ?)|(f & o & -> & ? & _)]. }
  by destruct e.
Qed.

Lemma data_flash d owner frame :
  inv d -> zlen frame < 2 ^ 31 ->
  mem (d_flash (do_data prim_init ecdsa_verify d owner frame).1) <> mem (d_flash d) ->
  exists stream p, transfer d stream /\ signed (stream ++ p) = true /\ (p = [] \/ p = drop 9 frame).
Proof.
  intros [Ha _] Hl. unfold do_data. destruct (_ <? 9); [done|]. destruct (foreign _ _ _); [done|].
  destruct (negb _); [done|]. set (p := drop 9 frame).
  destruct (dx_active (d_rx d)) eqn:Ea; [|unfold feed_bytes; by rewrite Ea].
  destruct (Ha eq_refl) as [s T]. intros Hne. exists s.
  destruct (Z.le_gt_cases HEAD_LEN (zlen s)) as [Hh|Hh].
  { exists []. rewrite app_nil_r. split_and!; [done| |by left]. by apply (tr_after _ _ d s T Hh). }
  exists p. split_and!; [done| |by right]. destruct (signed (s ++ p)) eqn:Es; [done|]. destruct Hne.
  assert (zlen p < 2 ^ 31) as Hp by (unfold p, zlen in *; rewrite length_drop; lia).
  pose proof (feed_bytes_unsigned _ _ d s p T Hp Hh Es) as Hf.
  destruct (feed_bytes _ _ d p) as [d' e]. cbn [fst] in Hf. rewrite <- Hf. by destruct e.
Qed.

Lemma commit_frame_flash d owner frame :
  inv d -> mem (d_flash (do_commit d owner frame).1) <> mem (d_flash d) ->
  exists stream, transfer d stream /\ signed stream = true.
Proof.
  intros [Ha _]. unfold do_commit. destruct (negb _); [done|]. destruct (foreign _ _ _); [done|].
  unfold commit_now. destruct (dx_staged _); [done|].
  destruct (dx_active (d_rx d)) eqn:Ea; [|done]. destruct (Ha eq_refl) as [s T]. cbn [negb orb].
  destruct (dx_erased (d_rx d)) eqn:Ee; [|done]. intros _. exists s. split; [done|].
  destruct (Z.le_gt_cases HEAD_LEN (zlen s)) as [Hh|Hh]; [by apply (tr_after _ _ d s T Hh)|].
  destruct (tr_before _ _ d s T Hh). congruence.
Qed.

(** As long as no commanded erase has failed since the receiver was last idle,
    a frame other than ABORT that changes what the
    partition holds belongs to a transfer whose preamble, with the frame's own
    bytes, carries a signature that verifies. *)
Theorem dfu_flash_needs_signature d owner frame :
  reach false d -> op_ok (OpFrame owner frame) -> head frame <> Some OP_ABORT ->
  mem (d_flash (run_op d (OpFrame owner frame))) <> mem (d_flash d) ->
  exists stream p, transfer d stream /\ signed (stream ++ p) = true /\ (p = [] \/ p = drop 9 frame).
Proof.
  intros Hi%reach_inv [Hl Hb] Hna. cbn [run_op]. unfold rx_frame. destruct frame as [|op rest]; [done|].
  assert (op <> OP_ABORT) as Hop by (intros ->; by apply Hna).
  destruct (negb (d_open d)); [done|]. rewrite (proj2 (Z.eqb_neq op OP_ABORT) Hop).
  destruct (op =? OP_BEGIN).
  { intros H. destruct H. apply begin_frame_flash, field_nonneg, Hb. }
  destruct (op =? OP_DATA); [apply data_flash; [done|]; clear -Hl; done|].
  destruct (op =? OP_COMMIT); [|done]. intros H. destruct (commit_frame_flash d owner (op :: rest) Hi H) as (s & T & Hs).
  exists s, []. rewrite app_nil_r. split_and!; [done|done|by left].
Qed.
End Runs.
