(* ===== verification/DfuHost.v ===== *)
(** * A host updating the firmware

    The frames a host builds, and the two theorems about whole sessions: an
    honest host gets its image staged through any interleaving of repeats and
    of other transports' traffic; and what an ABORT does without any
    signature.  The witnesses run on a flash that is a list of bytes. *)

From Stdlib Require Import ZArith Lia Bool.
From stdpp Require Import base list numbers option.
From S2P Require Import Prelude Wire Dfu DfuProps DfuRun.

Local Open Scope Z_scope.
Local Open Scope uwl_scope.

(** ** Frames *)

Definition begin_frame (id total : Z) : list Z := [OP_BEGIN] ++ put_le 4 id ++ put_le 4 total.
Definition data_frame (id off : Z) (chunk : list Z) : list Z := [OP_DATA] ++ put_le 4 id ++ put_le 4 off ++ chunk.
Definition commit_frame (id : Z) : list Z := [OP_COMMIT] ++ put_le 4 id.
Definition abort_frame (id : Z) : list Z := [OP_ABORT] ++ put_le 4 id.

Lemma frame_id op id rest : in_u 32 id -> field 4 ([op] ++ put_le 4 id ++ rest) 1 = id.
Proof. apply (field_app 4 id [op] rest). Qed.

Lemma frame_second op id v rest : in_u 32 v -> field 4 ([op] ++ put_le 4 id ++ put_le 4 v ++ rest) 5 = v.
Proof.
  intros Hv. rewrite app_assoc. change 5 with (Z.of_nat (length ([op] ++ put_le 4 id))). by apply field_app.
Qed.

Section Host.
Context {F : Type} {FL : Flash F} {mem : F -> list Z} `{LW : !FlashLaws FL mem}.
Context (prim_init : bool) (ecdsa_verify : list Z -> list Z -> bool).

Implicit Types d : dfu F.

Abbreviation transfer := (transfer (mem := mem) prim_init ecdsa_verify).
Abbreviation signed := (signed prim_init ecdsa_verify).
Abbreviation run_op := (run_op prim_init ecdsa_verify).

Definition run d (ops : list dfu_op) : dfu F := fold_left run_op ops d.

(** A flash that carries out what it may. *)
Definition healthy : Prop := ~ flash_refused (mem := mem) /\ forall f, (fl_open f).2 = true.

(** The transfer of [id] by [owner] stands at [stream], in an open window. *)
Definition standing d (owner : dfu_owner) (id total : Z) (stream : list Z) : Prop :=
  transfer d stream /\ dx_owner (d_rx d) = owner /\ dx_transfer_id (d_rx d) = id /\
  dx_total (d_rx d) = total /\ d_open d = true.

(** ** What may come in between

    Anything other transports send, the host's own BEGIN again, its DATA again
    at an offset other than the next one, a query, and another transport's
    disconnect. *)
Definition between (owner : dfu_owner) (id total got : Z) (op : dfu_op) : Prop :=
  match op with
  | OpFrame o frame =>
      o <> owner \/ frame = begin_frame id total \/
      exists off chunk, in_u 32 off /\ off <> got /\ frame = data_frame id off chunk
  | OpUpload _ _ _ => owner <> OWNER_SMP
  | OpErase o => o <> owner
  | OpReset o => o <> owner
  | OpStaged => True
  | _ => False
  end.

Lemma begin_again d owner id total stream :
  standing d owner id total stream -> in_u 32 id -> in_u 32 total ->
  (rx_frame prim_init ecdsa_verify d owner (begin_frame id total)).1 = d.
Proof.
  intros (T & Ho & Hi & Ht & Hw) Hid Htot. unfold rx_frame, begin_frame. cbn [app].
  rewrite Hw. cbn [negb]. rewrite Z.eqb_refl. unfold do_begin. destruct (negb _); [done|].
  pose proof (frame_id OP_BEGIN id (put_le 4 total) Hid) as E1.
  pose proof (frame_second OP_BEGIN id total [] Htot) as E2. rewrite app_nil_r in E2.
  cbn [app] in E1, E2. rewrite E1, E2. unfold begin_at. destruct (_ || (id =? 0)); [done|].
  rewrite (bool_decide_eq_true_2 _ (tr_owner _ _ d stream T)), Ho, Hi, Ht.
  by rewrite bool_decide_eq_true_2, !Z.eqb_refl.
Qed.

Lemma data_again d owner id total stream off chunk :
  standing d owner id total stream -> in_u 32 id -> in_u 32 off -> off <> zlen stream ->
  (rx_frame prim_init ecdsa_verify d owner (data_frame id off chunk)).1 = d.
Proof.
  intros (T & Ho & Hi & Ht & Hw) Hid Hoff Hne. unfold rx_frame, data_frame. cbn [app].
  rewrite Hw. cbn [negb]. change (OP_DATA =? OP_BEGIN) with false. rewrite Z.eqb_refl. unfold do_data.
  destruct (_ <? 9); [done|].
  pose proof (frame_id OP_DATA id (put_le 4 off ++ chunk) Hid) as E1.
  pose proof (frame_second OP_DATA id off chunk Hoff) as E2. cbn [app] in E1, E2. rewrite E1, E2.
  destruct (foreign _ _ _); [done|]. rewrite (tr_got _ _ d stream T).
  by rewrite (proj2 (Z.eqb_neq _ _) Hne).
Qed.

(** None of it disturbs the transfer. *)
Lemma between_standing d owner id total stream op :
  standing d owner id total stream -> in_u 32 id -> in_u 32 total ->
  between owner id total (zlen stream) op ->
  standing (run_op d op) owner id total stream /\ d_commit_cb (run_op d op) = d_commit_cb d /\
  fl_size (d_flash (run_op d op)) = fl_size (d_flash d) /\ d_reboot (run_op d op) = d_reboot d.
Proof.
  intros St Hid Htot Hb. pose proof St as (T & Ho & Hi & Ht & Hw).
  assert (forall o, o <> owner -> may_not d o) as Hmn.
  { intros o Hne. right. rewrite Ho. split; [|done]. rewrite <- Ho. apply T. }
  assert (run_op d op = d \/ op = OpStaged) as [->| ->].
  { destruct op; cbn [between] in Hb; try done; try (by right); left; cbn [DfuRun.run_op].
    - destruct (decide (owner0 = owner)) as [->|Hne]; [|by apply frame_stranger, Hmn].
      destruct Hb as [?|[->|(off & chunk & Hoff & Hne & ->)]]; [done| |].
      + by eapply begin_again.
      + by eapply data_again.
    - by apply upload_stranger, Hmn.
    - unfold rx_reset. rewrite (bool_decide_eq_false_2 (dx_owner (d_rx d) = owner0)) by congruence.
      by rewrite andb_false_r.
    - by apply erase_stranger, Hmn. }
  { by split_and!. }
  cbn [DfuRun.run_op]. unfold rx_staged. destruct (staging_open d) as [d1 ok] eqn:E.
  apply staging_open_spec in E as (f & -> & Hm & Hsz).
  assert (forall o, standing (d <| d_flash := f |> <| d_fa := o |>) owner id total stream) as Hst.
  { intros o. split_and!; try done. by apply (transfer_ext _ _ d). }
  destruct ok; [destruct (fl_read _ _ _)|]; (split_and!; [apply Hst|done..]).
Qed.

(** ** The session *)

(** The chunks in order, each behind what came in between. *)
Fixpoint session (owner : dfu_owner) (id off : Z) (items : list (list dfu_op * list Z)) : list dfu_op :=
  match items with
  | [] => []
  | (ops, chunk) :: rest => ops ++ OpFrame owner (data_frame id off chunk) :: session owner id (off + zlen chunk) rest
  end.

Fixpoint session_ok (owner : dfu_owner) (id total off : Z) (items : list (list dfu_op * list Z)) : Prop :=
  match items with
  | [] => True
  | (ops, chunk) :: rest => Forall (between owner id total off) ops /\ session_ok owner id total (off + zlen chunk) rest
  end.

Definition chunks (items : list (list dfu_op * list Z)) : list Z := concat (map snd items).

(** What stays besides the transfer. *)
Definition beside d d' : Prop :=
  d_commit_cb d' = d_commit_cb d /\ fl_size (d_flash d') = fl_size (d_flash d) /\ d_reboot d' = d_reboot d.

Lemma beside_trans d1 d2 d3 : beside d1 d2 -> beside d2 d3 -> beside d1 d3.
Proof. intros (? & ? & ?) (? & ? & ?). split_and!; congruence. Qed.

Lemma run_between d owner id total stream ops :
  standing d owner id total stream -> in_u 32 id -> in_u 32 total ->
  Forall (between owner id total (zlen stream)) ops ->
  standing (run d ops) owner id total stream /\ beside d (run d ops).
Proof.
  intros St Hid Htot Hops. revert d St. induction Hops as [|op ops Hop _ IH]; intros d St; [by split_and!|].
  unfold run. cbn [fold_left]. destruct (between_standing d owner id total stream op) as [St' Hb']; try done.
  destruct (IH _ St') as [? Hb]. split; [done|]. by eapply beside_trans.
Qed.

(** The next chunk of a stream that verifies. *)
Lemma data_next d owner id total stream chunk :
  healthy -> standing d owner id total stream -> in_u 32 id ->
  zlen stream + zlen chunk <= total ->
  (HEAD_LEN <= zlen (stream ++ chunk) -> signed (stream ++ chunk) = true) ->
  let d' := run_op d (OpFrame owner (data_frame id (zlen stream) chunk)) in
  standing d' owner id total (stream ++ chunk) /\ beside d d'.
Proof.
  intros [Hok _] (T & Ho & Hi & Ht & Hw) Hid Hsz Hsig.
  pose proof (tr_total _ _ d stream T) as Htot. pose proof (flw_geometry (d_flash d)) as [Hg _].
  pose proof (zlen_nonneg stream). pose proof (zlen_nonneg chunk).
  unfold HEAD_LEN, DFU_HDR_LEN, DFU_SIG_LEN, DFU_PATCH_OFFSET, DFU_PAGE_SIZE in Htot, Hg.
  cbn [DfuRun.run_op]. unfold rx_frame, data_frame. cbn [app].
  rewrite Hw. cbn [negb]. change (OP_DATA =? OP_BEGIN) with false. rewrite Z.eqb_refl. unfold do_data.
  pose proof (frame_id OP_DATA id (put_le 4 (zlen stream) ++ chunk) Hid) as E1.
  pose proof (frame_second OP_DATA id (zlen stream) chunk ltac:(unfold in_u; lia)) as E2. cbn [app] in E1, E2.
  rewrite E1, E2. unfold foreign. rewrite Ho, Hi, (tr_got _ _ d stream T), !Z.eqb_refl, bool_decide_eq_false_2 by auto.
  cbn [negb orb]. destruct (Z.ltb_spec (zlen (OP_DATA :: put_le 4 id ++ put_le 4 (zlen stream) ++ chunk)) 9) as [Hs|_].
  { rewrite zlen_cons, !zlen_app in Hs. unfold zlen in Hs. rewrite !length_put_le in Hs. lia. }
  change (drop 9 (OP_DATA :: put_le 4 id ++ put_le 4 (zlen stream) ++ chunk)) with chunk.
  pose proof (feed_bytes_spec _ _ d stream chunk T ltac:(lia)) as Hf.
  destruct (feed_bytes _ _ d chunk) as [d' e]. destruct e; try done.
  - destruct Hf as [(f & r & -> & Hfs & Hro & Hri & Hrt) T']. cbn [fst].
    split; [|by split_and!]. unfold standing. cbn [field_set d_rx d_open]. rewrite Hro, Hri, Hrt. by split_and!.
  - lia.
  - destruct Hf as [Hh Hns]. rewrite Hsig in Hns; done.
Qed.

(** All the chunks. *)
Lemma run_session d owner id total stream items :
  healthy -> standing d owner id total stream -> in_u 32 id -> in_u 32 total ->
  session_ok owner id total (zlen stream) items ->
  zlen (stream ++ chunks items) <= total -> HEAD_LEN <= zlen (stream ++ chunks items) ->
  signed (stream ++ chunks items) = true ->
  let d' := run d (session owner id (zlen stream) items) in
  standing d' owner id total (stream ++ chunks items) /\ beside d d'.
Proof.
  intros Hh St Hid Htot. revert d stream St.
  induction items as [|[ops chunk] rest IH]; intros d stream St Hso Hle Hhd Hsig; cbn [session].
  { unfold chunks. cbn [concat map]. rewrite app_nil_r. by split_and!. }
  destruct Hso as [Hops Hrest]. unfold run. rewrite fold_left_app. cbn [fold_left].
  destruct (run_between d owner id total stream ops St Hid Htot Hops) as [St1 Hb1]. unfold run in St1, Hb1.
  unfold chunks in Hle, Hhd, Hsig |- *. cbn [map concat snd] in Hle, Hhd, Hsig |- *.
  rewrite app_assoc in Hle, Hhd, Hsig |- *.
  destruct (data_next _ owner id total stream chunk Hh St1 Hid) as [St2 Hb2].
  { rewrite !zlen_app in Hle. pose proof (zlen_nonneg (concat (map snd rest))). lia. }
  { intros Hc. by rewrite signed_app in Hsig. }
  assert (zlen stream + zlen chunk = zlen (stream ++ chunk)) as El by (by rewrite zlen_app).
  rewrite El in Hrest |- *. destruct (IH _ _ St2 Hrest Hle Hhd Hsig) as [St3 Hb3].
  split; [exact St3|]. eapply beside_trans; [exact Hb1|]. by eapply beside_trans.
Qed.

Lemma begin_fresh d owner id total :
  healthy -> d_open d = true -> dx_owner (d_rx d) = OWNER_NONE -> owner <> OWNER_NONE ->
  in_u 32 id -> id <> 0 -> HEAD_LEN < total <= HEAD_LEN + (fl_size (d_flash d) - DFU_PATCH_OFFSET) ->
  let d' := run_op d (OpFrame owner (begin_frame id total)) in
  standing d' owner id total [] /\ d_commit_cb d' = d_commit_cb d /\ mem (d_flash d') = mem (d_flash d).
Proof.
  intros [_ Hop] Hw Hn Ho Hid Hid0 Ht. pose proof (flw_geometry (d_flash d)) as [Hg _].
  assert (in_u 32 total) as Htot.
  { unfold in_u, HEAD_LEN, DFU_HDR_LEN, DFU_SIG_LEN, DFU_PATCH_OFFSET, DFU_PAGE_SIZE in *. lia. }
  cbn [DfuRun.run_op]. unfold rx_frame, begin_frame. cbn [app].
  rewrite Hw. cbn [negb]. rewrite Z.eqb_refl. unfold do_begin.
  destruct (Z.eqb_spec (zlen (OP_BEGIN :: put_le 4 id ++ put_le 4 total)) 9) as [_|Hc]; cbn [negb].
  2:{ rewrite zlen_cons, zlen_app in Hc. unfold zlen in Hc. by rewrite !length_put_le in Hc. }
  pose proof (frame_id OP_BEGIN id (put_le 4 total) Hid) as E1.
  pose proof (frame_second OP_BEGIN id total [] Htot) as E2. rewrite app_nil_r in E2.
  cbn [app] in E1, E2. rewrite E1, E2. destruct (begin_at d owner id total) as [d' e] eqn:E.
  assert (e = ERR_OK) as ->.
  { unfold begin_at in E. rewrite bool_decide_eq_false_2, (proj2 (Z.eqb_neq id 0) Hid0) in E by done. cbn [orb] in E.
    rewrite Hn in E. rewrite bool_decide_eq_false_2 in E by auto.
    destruct (staging_open d) as [d1 ok] eqn:Es. assert (ok = true) as ->.
    { unfold staging_open in Es. destruct (d_fa d); [by injection Es|].
      pose proof (Hop (d_flash d)) as H. destruct (fl_open _) as [f o]. simpl in H. by injection Es as _ <-. }
    apply staging_open_spec in Es as (f & -> & Hm & Hsz).
    unfold patch_max in E. cbn [field_set d_flash] in E. rewrite Hsz, wrap_id in E
      by (unfold in_u, DFU_PATCH_OFFSET, DFU_PAGE_SIZE in *; lia).
    destruct (Z.leb_spec total HEAD_LEN); [lia|].
    destruct (Z.ltb_spec (fl_size (d_flash d) - DFU_PATCH_OFFSET) (total - HEAD_LEN)); [lia|]. by injection E. }
  apply (begin_at_spec prim_init ecdsa_verify) in E; [|unfold in_u in Htot; lia].
  destruct E as [(_ & _ & T & E3 & E4 & E5 & E6 & E7 & E8)|(f & o & -> & Hm & Hc)].
  - cbn [fst]. rewrite <- E6 in Hw. split_and!; [|done|done]. by split_and!.
  - destruct (Hc eq_refl) as [Heq _]. congruence.
Qed.

(** C29: an honest host is served.  It claims the receiver, sends a signed,
    consistent stream in chunks of any sizes, in order, and commits; between
    its frames other transports may send whatever they like, and its own BEGIN
    and DATA may be repeated at any offset but the next.  With a flash that
    carries out legitimate operations and a port that does not refuse, the
    last reply acknowledges the whole stream, the partition holds exactly its
    image, and the reboot is armed. *)
Theorem dfu_honest_transfer d owner id items last :
  let stream := chunks items in
  let total := zlen stream in
  let d' := run d (OpFrame owner (begin_frame id total) :: session owner id 0 items ++ last) in
  let '(d'', reply) := rx_frame prim_init ecdsa_verify d' owner (commit_frame id) in
  healthy -> d_open d = true -> dx_owner (d_rx d) = OWNER_NONE -> owner <> OWNER_NONE ->
  in_u 32 id -> id <> 0 -> HEAD_LEN < total <= HEAD_LEN + (fl_size (d_flash d) - DFU_PATCH_OFFSET) ->
  session_ok owner id total 0 items -> Forall (between owner id total total) last ->
  signed stream = true -> consistent stream = true ->
  (forall cb, d_commit_cb d = Some cb -> cb (hdr_of (take 96 stream)) = true) ->
  reply = [RSP_OK] ++ put_le 4 id ++ put_le 4 total /\ dx_staged (d_rx d'') = true /\ d_reboot d'' = true /\
  mem (d_flash d'') = image (fl_size (d_flash d)) stream.
Proof.
  intros stream total d'. destruct (rx_frame _ _ d' owner (commit_frame id)) as [d'' reply] eqn:Er.
  intros Hh Hw Hn Ho Hid Hid0 Ht Hso Hlast Hsig Hcon Hcb.
  destruct (begin_fresh d owner id total) as (St0 & Hcb0 & Hm0); try done.
  set (d0 := run_op d _) in St0, Hcb0, Hm0.
  assert (in_u 32 total) as Htot.
  { pose proof (flw_geometry (d_flash d)) as [Hg _].
    unfold in_u, HEAD_LEN, DFU_HDR_LEN, DFU_SIG_LEN, DFU_PATCH_OFFSET, DFU_PAGE_SIZE in *. lia. }
  destruct (run_session d0 owner id total [] items) as [St1 Hb1]; try done; [cbn [app]; fold stream total; lia..|].
  change (zlen (@nil Z)) with 0 in St1, Hb1.
  destruct (run_between _ owner id total stream last St1 Hid Htot Hlast) as [St2 Hb2].
  assert (d' = run (run d0 (session owner id 0 items)) last) as Ed'.
  { unfold d', run. cbn [fold_left]. by rewrite fold_left_app. }
  rewrite <- Ed' in St2, Hb2. destruct (beside_trans _ _ _ Hb1 Hb2) as (Hcb' & Hsz' & _).
  rewrite Hcb0 in Hcb'. rewrite (same_size d d0 Hm0) in Hsz'.
  destruct St2 as (T & Hown & Hi & Htt & Hop).
  unfold rx_frame, commit_frame in Er. cbn [app] in Er. rewrite Hop in Er. cbn [negb] in Er.
  change (OP_COMMIT =? OP_BEGIN) with false in Er. change (OP_COMMIT =? OP_DATA) with false in Er.
  rewrite Z.eqb_refl in Er. unfold do_commit in Er. change (zlen (OP_COMMIT :: put_le 4 id) =? 5) with true in Er.
  pose proof (frame_id OP_COMMIT id [] Hid) as E1. rewrite app_nil_r in E1. cbn [app negb] in E1, Er. rewrite E1 in Er.
  unfold foreign in Er. rewrite Hown, Hi, Z.eqb_refl, bool_decide_eq_false_2 in Er by auto. cbn [negb orb] in Er.
  pose proof (commit_now_spec _ _ d' stream true T) as Hc. destruct (commit_now d' true) as [d2 e].
  rewrite Htt, Hcb', Hsz' in Hc. destruct e; try done.
  - destruct Hc as (_ & _ & _ & Hm & _ & Hst & _ & Hgot & _ & Hrb). injection Er as <- <-.
    rewrite orb_true_r in Hrb. split_and!; try done. unfold reply_ok. by rewrite Hgot.
  - unfold total in Hc. lia.
  - destruct Hc. congruence.
  - destruct Hc as [Hr|(cb & Hcbe & Hr)]; [by destruct Hh|]. rewrite Hcb in Hr; done.
Qed.

(** BEGIN and ABORT alone, with no byte of a preamble and therefore no
    signature, erase the whole partition: whoever reaches an open, unclaimed
    receiver costs it an erase cycle and whatever update was staged there. *)
Theorem dfu_abort_unsigned d owner id total :
  healthy -> d_open d = true -> dx_owner (d_rx d) = OWNER_NONE -> owner <> OWNER_NONE ->
  in_u 32 id -> id <> 0 -> HEAD_LEN < total <= HEAD_LEN + (fl_size (d_flash d) - DFU_PATCH_OFFSET) ->
  mem (d_flash (run d [OpFrame owner (begin_frame id total); OpFrame owner (abort_frame id)]))
  = replicate (Z.to_nat (fl_size (d_flash d))) 0xff.
Proof.
  intros Hh Hw Hn Ho Hid Hid0 Ht. unfold run. cbn [fold_left].
  destruct (begin_fresh d owner id total) as ((T & Hown & Hi & Htt & Hop) & _ & Hm0); try done.
  set (d0 := run_op d _) in *. cbn [DfuRun.run_op]. unfold rx_frame, abort_frame. cbn [app]. rewrite Hop. cbn [negb].
  change (OP_ABORT =? OP_BEGIN) with false. change (OP_ABORT =? OP_DATA) with false.
  change (OP_ABORT =? OP_COMMIT) with false. rewrite Z.eqb_refl. unfold do_abort.
  change (zlen (OP_ABORT :: put_le 4 id) =? 5) with true.
  pose proof (frame_id OP_ABORT id [] Hid) as E1. rewrite app_nil_r in E1. cbn [app negb orb] in E1 |- *. rewrite E1.
  unfold foreign. rewrite Hown, Hi, Z.eqb_refl, bool_decide_eq_false_2 by auto. cbn [negb orb].
  unfold rx_erase. rewrite Hop, Hown. cbn [negb]. rewrite (bool_decide_eq_false_2 (owner <> owner)), andb_false_r by auto.
  destruct Hh as [Hr Hopen]. destruct (staging_open d0) as [d1 ok] eqn:Es. assert (ok = true) as ->.
  { unfold staging_open in Es. destruct (d_fa d0); [by injection Es|].
    pose proof (Hopen (d_flash d0)) as H. destruct (fl_open _) as [f o]. simpl in H. by injection Es as _ <-. }
  apply staging_open_spec in Es as (f & -> & Hm & Hsz). cbn [field_set d_flash].
  destruct (fl_erase f 0 (fl_size f)) as [f2 ok] eqn:Ee.
  destruct ok; [|destruct Hr; right; exists f; by rewrite Ee].
  cbn. rewrite (flw_erase _ _ Ee), Hsz. by rewrite (same_size d d0 Hm0).
Qed.
End Host.

(** ** A flash in memory

    12288 bytes.  On a fragile one [tf_erases] says whether the next erase is
    reported as carried out (it erases either way). *)
Record toy_flash := { tf_bytes : list Z; tf_erases : bool }.

Definition toy_size : Z := 3 * DFU_PAGE_SIZE.

Definition toy_mem (f : toy_flash) : list Z :=
  take (Z.to_nat toy_size) (tf_bytes f ++ replicate (Z.to_nat toy_size) 0xff).

Definition toy_ops (fragile : bool) : Flash toy_flash := {|
  fl_open f := (f, true);
  fl_size _ := toy_size;
  fl_read f off n := Some (take (Z.to_nat n) (drop (Z.to_nat off) (toy_mem f)));
  fl_write f off data :=
    if (0 <=? off) && (off + zlen data <=? toy_size)
    then ({| tf_bytes := mem_write off data (toy_mem f); tf_erases := tf_erases f |}, true) else (f, false);
  fl_erase f _ _ := ({| tf_bytes := replicate (Z.to_nat toy_size) 0xff; tf_erases := true |}, negb fragile || tf_erases f);
|}.

Lemma toy_len f : zlen (toy_mem f) = toy_size.
Proof. unfold toy_mem, zlen. rewrite length_take, length_app, length_replicate. unfold toy_size, DFU_PAGE_SIZE. lia. Qed.

Lemma toy_mem_full l b : zlen l = toy_size -> toy_mem {| tf_bytes := l; tf_erases := b |} = l.
Proof. intros H. unfold toy_mem. cbn [tf_bytes]. apply take_app_length'. unfold zlen in H. lia. Qed.

Lemma toy_laws fragile : FlashLaws (toy_ops fragile) toy_mem.
Proof.
  split.
  - apply toy_len.
  - intros f. by cbn.
  - done.
  - intros f off data f' Hw (Ho & _ & _ & Hs & _). cbn [fl_write toy_ops fl_size] in *.
    destruct (_ && _); [|done]. injection Hw as <-. apply toy_mem_full. unfold zlen.
    rewrite length_mem_write; [apply toy_len|done|]. by rewrite toy_len.
  - intros f f'. intros H. apply (f_equal fst) in H. cbn [fl_erase toy_ops fst] in H. subst f'. cbn [fl_size toy_ops]. apply toy_mem_full. apply zlen_replicate.
  - intros f off data. cbn [fl_write toy_ops]. by destruct (_ && _).
  - done.
Qed.

Lemma toy_healthy : healthy (FL := toy_ops false) (mem := toy_mem).
Proof.
  split; [|done]. intros [(f & off & data & (Ho & _ & _ & Hs & _) & Hw)|[f Hf]]; [|done].
  cbn [fl_write fl_size toy_ops] in *. rewrite (proj2 (Z.leb_le _ _) Ho), (proj2 (Z.leb_le _ _) Hs) in Hw. done.
Qed.

Definition toy_patch : list Z := replicate 70 3.

Definition toy_head : list Z :=
  put_le 4 DFU_MAGIC ++ put_le 2 DFU_ABI_VERSION ++ put_le 2 0 ++ put_le 4 70 ++ put_le 4 100 ++
  put_le 4 (crc32 toy_patch) ++ put_le 4 0 ++ put_le 4 90.

Definition toy_first : list Z := toy_head ++ put_le 4 (crc32 toy_head) ++ replicate 20 9.
Definition toy_second : list Z := replicate 44 9 ++ toy_patch.

Definition toy_dfu (erases : bool) : dfu toy_flash :=
  {| d_rx := rx_zero; d_fa := false; d_flash := {| tf_bytes := [1; 2; 3]; tf_erases := erases |};
     d_open := true; d_deadline_ms := 1000; d_window_timer := Some 1000; d_reboot := false;
     d_commit_cb := None; d_notified := []; d_cli_off := 0; d_skip := 0; d_inner := 0 |}.

(** Between the two chunks another transport claims the receiver and the first
    chunk is repeated. *)
Definition toy_items : list (list dfu_op * list Z) :=
  [([], toy_first);
   ([OpFrame OWNER_GATT (begin_frame 9 200); OpFrame OWNER_L2CAP (data_frame 5 0 toy_first)], toy_second)].

Lemma dfu_honest_transfer_witness :
  let '(d, reply) := rx_frame (FL := toy_ops false) true (fun _ _ => true)
    (run (FL := toy_ops false) true (fun _ _ => true) (toy_dfu true)
      (OpFrame OWNER_L2CAP (begin_frame 5 166) :: session OWNER_L2CAP 5 0 toy_items ++ [OpStaged]))
    OWNER_L2CAP (commit_frame 5) in
  reply = [RSP_OK] ++ put_le 4 5 ++ put_le 4 166 /\ dx_staged (d_rx d) = true.
Proof.
  pose proof (dfu_honest_transfer (FL := toy_ops false) (LW := toy_laws false) true (fun _ _ => true)
    (toy_dfu true) OWNER_L2CAP 5 toy_items [OpStaged]) as H.
  cbv zeta in H. change (zlen (chunks toy_items)) with 166 in H.
  destruct (rx_frame _ _ _ _ _) as [d reply].
  destruct H as (H1 & H2 & _); [apply toy_healthy|done|done|done|unfold in_u; lia|lia|by vm_compute| | |done| | |].
  - cbn [session_ok toy_items]. change (0 + zlen toy_first) with 52. split; [constructor|]. split; [|done].
    constructor; [by left|]. constructor; [|constructor]. right. right. by exists 0, toy_first.
  - by constructor.
  - by vm_compute.
  - done.
  - by split.
Defined.

Lemma dfu_abort_unsigned_witness :
  toy_mem (d_flash (toy_dfu true)) !! O = Some 1 /\
  toy_mem (d_flash (run (FL := toy_ops false) true (fun _ _ => false) (toy_dfu true)
    [OpFrame OWNER_GATT (begin_frame 9 200); OpFrame OWNER_GATT (abort_frame 9)]))
  = replicate (Z.to_nat toy_size) 0xff.
Proof.
  split; [done|]. apply (dfu_abort_unsigned (FL := toy_ops false) (LW := toy_laws false) true (fun _ _ => false));
    [apply toy_healthy|done|done|done|unfold in_u; lia|lia|by vm_compute].
Defined.

(** The first chunk of a transfer, then a reachable state. *)
Lemma toy_reach : reach (FL := toy_ops false) true (fun _ _ => true) false
  (run (FL := toy_ops false) true (fun _ _ => true) (toy_dfu true)
    [OpFrame OWNER_L2CAP (begin_frame 5 166); OpFrame OWNER_L2CAP (data_frame 5 0 toy_first)]).
Proof.
  unfold run. cbn [fold_left]. apply reach_op; [apply reach_op; [by apply reach_boot| |]| |].
  - split; [by vm_compute|by apply bytes_all; vm_compute].
  - by intros [? _].
  - split; [by vm_compute|by apply bytes_all; vm_compute].
  - by intros [? _].
Qed.

Lemma dfu_flash_needs_signature_witness :
  exists stream p, transfer (FL := toy_ops false) (mem := toy_mem) true (fun _ _ => true)
    (run (FL := toy_ops false) true (fun _ _ => true) (toy_dfu true)
      [OpFrame OWNER_L2CAP (begin_frame 5 166); OpFrame OWNER_L2CAP (data_frame 5 0 toy_first)]) stream /\
    signed true (fun _ _ => true) (stream ++ p) = true /\
    (p = [] \/ p = drop 9 (data_frame 5 52 toy_second)).
Proof.
  apply (dfu_flash_needs_signature (FL := toy_ops false) (LW := toy_laws false) true (fun _ _ => true) _ OWNER_L2CAP).
  - apply toy_reach.
  - split; [by vm_compute|by apply bytes_all; vm_compute].
  - done.
  - intros H. apply (f_equal (fun l => l !! O)) in H. revert H. by vm_compute.
Defined.

(** The whole session, on the flash that takes everything. *)
Definition toy_staged : dfu toy_flash :=
  run (FL := toy_ops false) true (fun _ _ => true) (toy_dfu true)
    [OpFrame OWNER_L2CAP (begin_frame 5 166); OpFrame OWNER_L2CAP (data_frame 5 0 toy_first);
     OpFrame OWNER_L2CAP (data_frame 5 52 toy_second); OpFrame OWNER_L2CAP (commit_frame 5)].

Lemma dfu_staged_authentic_witness :
  dx_staged (d_rx toy_staged) = true /\
  exists stream, signed true (fun _ _ => true) stream = true /\ consistent stream = true /\
    toy_mem (d_flash toy_staged) = image toy_size stream.
Proof.
  assert (dx_staged (d_rx toy_staged) = true) as Hs by by vm_compute. split; [done|].
  refine (proj1 (dfu_staged_authentic (FL := toy_ops false) (LW := toy_laws false) true (fun _ _ => true) toy_staged _) Hs).
  unfold toy_staged, run. cbn [fold_left].
  apply reach_op; [apply reach_op; [apply toy_reach| |]| |].
  - split; [by vm_compute|by apply bytes_all; vm_compute].
  - by intros [? _].
  - split; [by vm_compute|by apply bytes_all; vm_compute].
  - by intros [? _].
Defined.

Lemma dfu_stranger_inert_witness :
  run_op (FL := toy_ops false) true (fun _ _ => true) toy_staged (OpFrame OWNER_GATT (abort_frame 5)) = toy_staged.
Proof.
  apply (dfu_stranger_inert (FL := toy_ops false) true (fun _ _ => true) _ _ OWNER_GATT); [done|].
  right. split; [by vm_compute|by vm_compute].
Defined.

(** ** An abort that fails *)

(** The patch an image holds. *)
Lemma image_patch size stream :
  HEAD_LEN <= zlen stream ->
  take 32 (image size stream) = take 32 stream /\
  take (length (drop 96 stream)) (drop (Z.to_nat DFU_PATCH_OFFSET) (image size stream)) = drop 96 stream.
Proof.
  intros H. assert (length (take 32 stream) = 32%nat) as Hl.
  { rewrite length_take. unfold zlen, HEAD_LEN, DFU_HDR_LEN, DFU_SIG_LEN in H. lia. }
  unfold image. split; [by apply take_app_length'|].
  rewrite app_assoc, drop_app_length'.
  - unfold pad4. rewrite <- app_assoc. by apply take_app_length'.
  - rewrite length_app, length_replicate, Hl. by vm_compute.
Qed.

Lemma hdr_of_take stream m :
  take 32 stream = take 32 m ->
  hdr_of (take 96 stream) = hdr_of m.
Proof.
  intros H. assert (forall n off, (Z.to_nat off + n <= 32)%nat -> field n (take 96 stream) off = field n m off) as Hf.
  { intros n off Hn. unfold field. f_equal.
    assert (forall l, take n (drop (Z.to_nat off) l) = take n (drop (Z.to_nat off) (take 32 l)) :> list Z) as Ht.
    { intros l. rewrite skipn_firstn_comm, take_take. f_equal. lia. }
    rewrite (Ht (take 96 stream)), (Ht m), take_take.
    change (Init.Nat.min 32 96) with 32%nat. by rewrite H. }
  unfold hdr_of. by rewrite !Hf by (vm_compute; lia).
Qed.

Definition toy_aborted : dfu toy_flash :=
  let R := run (FL := toy_ops true) true (fun _ _ => true) in
  let d := R (toy_dfu true)
    [OpFrame OWNER_L2CAP (begin_frame 5 166); OpFrame OWNER_L2CAP (data_frame 5 0 toy_first);
     OpFrame OWNER_L2CAP (data_frame 5 52 toy_second)] in
  let d := d <| d_flash := {| tf_bytes := tf_bytes (d_flash d); tf_erases := false |} |> in
  R d [OpFrame OWNER_L2CAP (abort_frame 5); OpFrame OWNER_L2CAP (commit_frame 5)].

(** An ABORT whose erase the flash reports as failed leaves the transfer
    committable.  On a flash that erased and then reported a failure, the host
    is told "error", commits all the same, is told "ok", and the receiver says
    "staged" although no consistent stream has the image the partition now
    holds. *)
Theorem dfu_abort_failure_committable :
  dx_staged (d_rx toy_aborted) = true /\
  ~ (exists stream, HEAD_LEN <= zlen stream /\ consistent stream = true /\
      toy_mem (d_flash toy_aborted) = image toy_size stream).
Proof.
  split; [by vm_compute|]. intros (stream & Hl & Hc & Hm).
  destruct (image_patch toy_size stream Hl) as [Hh Hp]. rewrite <- Hm in Hh, Hp.
  unfold consistent in Hc. rewrite (hdr_of_take stream (toy_mem (d_flash toy_aborted)) (eq_sym Hh)) in Hc.
  apply andb_true_iff in Hc as [[_ Hlen%Z.eqb_eq]%andb_true_iff Hcrc%Z.eqb_eq].
  assert (hd_patch_len (hdr_of (toy_mem (d_flash toy_aborted))) = 70) as E by by vm_compute.
  rewrite E in Hlen. assert (length (drop 96 stream) = 70%nat) as E2.
  { rewrite length_drop. unfold zlen, HEAD_LEN, DFU_HDR_LEN, DFU_SIG_LEN in Hlen. lia. }
  rewrite E2 in Hp. rewrite <- Hp in Hcrc. revert Hcrc. by vm_compute.
Qed.
