(* ===== verification/Prov.v ===== *)
(** * The provisioning store of the reader

    Models [modules/ultrawidelock_cred/src/ultrawidelock_prov.c] and
    [ultrawidelock_prov.h]: the reader's identity, the trust store (trusted
    credential keys with their fast-path keys, Matter indices and issuers, as
    parallel arrays and a bit mask), every operation on it, and the persistent
    blob in its five versions.

    An array is a list; a row of bytes a list of bytes.  Pointers are the
    objects they point to, none of them null.  The loops run over the index
    ranges of the C code. *)

From Stdlib Require Import ZArith Lia Bool.
From stdpp Require Import base list numbers option.
From S2P Require Import Prelude Wire.

Local Open Scope Z_scope.
Local Open Scope uwl_scope.

Definition READER_ID_LEN : Z := 32.
Definition READER_PRIV_LEN : Z := 32.
Definition CRED_PUB_LEN : Z := 65.
Definition TRUST_MAX : Z := 6.
Definition ISSUER_MAX : Z := 5.
Definition ANCHOR_ISSUER_NONE : Z := 0.
Definition GRK_LEN : Z := 16.
Definition KPERSISTENT_LEN : Z := 32.
Definition CRED_INDEX_NONE : Z := 0.
Definition PROV_BLOB_HDR : Z := 6.

Record reader_identity := {
  rid_reader_id : list Z;
  rid_sign_priv : list Z;
  rid_grk : list Z;
  rid_is_dev : bool;
}.

Record trust_store := {
  ts_count : Z;
  ts_cred_pub : list (list Z);
  ts_kp_valid : Z;
  ts_kpersistent : list (list Z);
  ts_cred_type : list Z;
  ts_cred_index : list Z;
  ts_user_index : list Z;
  ts_anchor_issuer : list Z;
  ts_issuer_count : Z;
  ts_issuer_pub : list (list Z);
  ts_issuer_cred_index : list Z;
  ts_issuer_user_index : list Z;
}.

#[export] Instance trust_store_eta : Eta trust_store := fun t =>
  {| ts_count := ts_count t; ts_cred_pub := ts_cred_pub t; ts_kp_valid := ts_kp_valid t;
     ts_kpersistent := ts_kpersistent t; ts_cred_type := ts_cred_type t; ts_cred_index := ts_cred_index t;
     ts_user_index := ts_user_index t; ts_anchor_issuer := ts_anchor_issuer t;
     ts_issuer_count := ts_issuer_count t; ts_issuer_pub := ts_issuer_pub t;
     ts_issuer_cred_index := ts_issuer_cred_index t; ts_issuer_user_index := ts_issuer_user_index t |}.

Definition zeros (n : Z) : list Z := replicate (Z.to_nat n) 0.
Definition zero_rows (rows n : Z) : list (list Z) := replicate (Z.to_nat rows) (zeros n).

(** [memset(ts, 0, sizeof( *ts))] *)
Definition ts_zero : trust_store :=
  {| ts_count := 0; ts_cred_pub := zero_rows TRUST_MAX CRED_PUB_LEN; ts_kp_valid := 0;
     ts_kpersistent := zero_rows TRUST_MAX KPERSISTENT_LEN; ts_cred_type := zeros TRUST_MAX;
     ts_cred_index := zeros TRUST_MAX; ts_user_index := zeros TRUST_MAX; ts_anchor_issuer := zeros TRUST_MAX;
     ts_issuer_count := 0; ts_issuer_pub := zero_rows ISSUER_MAX CRED_PUB_LEN;
     ts_issuer_cred_index := zeros ISSUER_MAX; ts_issuer_user_index := zeros ISSUER_MAX |}.

Definition dev_reader_id : list Z :=
  [0x11; 0x3b; 0x1a; 0x9e; 0xf2; 0x95; 0x67; 0x60; 0x8b; 0x75; 0x00; 0xfb; 0xac; 0xa6; 0x09; 0xe9;
   0xc0; 0x7b; 0x87; 0x4e; 0x18; 0x2a; 0xe5; 0x65; 0x02; 0x4b; 0x54; 0x3e; 0x3b; 0x40; 0x93; 0x5f].
Definition dev_sign_priv : list Z :=
  [0x4d; 0x33; 0x21; 0x69; 0xf4; 0x33; 0x9e; 0xef; 0x54; 0x9e; 0xf2; 0xa6; 0xa9; 0x4b; 0x61; 0x95;
   0xa4; 0x2f; 0xc2; 0xaf; 0x8c; 0xcf; 0xdf; 0xce; 0x35; 0xbd; 0xf9; 0xbe; 0xd8; 0xf3; 0x83; 0xa3].

Definition prov_dev_default : reader_identity * trust_store :=
  ({| rid_reader_id := dev_reader_id; rid_sign_priv := dev_sign_priv; rid_grk := zeros GRK_LEN;
      rid_is_dev := true |}, ts_zero).

(** ** The trust store *)

Definition row {A} (d : A) (l : list A) (i : nat) : A := nth i l d.

Definition bit (i : nat) : Z := Z.shiftl 1 (Z.of_nat i).
Definition has_bit (mask : Z) (i : nat) : bool := negb (Z.land mask (u8 (bit i)) =? 0).
Definition set_bit (mask : Z) (i : nat) : Z := Z.lor mask (u8 (bit i)).
Definition clear_bit (mask : Z) (i : nat) : Z := Z.land mask (u8 (Z.lnot (bit i))).

(** The occupied slots the loops visit. *)
Definition slots (ts : trust_store) : list nat := seq 0 (Z.to_nat (Z.min (ts_count ts) TRUST_MAX)).
Definition issuer_slots (ts : trust_store) : list nat := seq 0 (Z.to_nat (Z.min (ts_issuer_count ts) ISSUER_MAX)).

Definition slot_code (o : option nat) : Z := match o with Some i => Z.of_nat i | None => -1 end.

Definition prov_trust_find (ts : trust_store) (pub : list Z) : Z :=
  slot_code (List.find (fun i => bool_decide (row [] (ts_cred_pub ts) i = pub)) (slots ts)).

Definition prov_trust_check (ts : trust_store) (pub : list Z) : Z :=
  if ts_count ts =? 0 then 1
  else match List.find (fun i => bool_decide (row [] (ts_cred_pub ts) i = pub)) (slots ts) with
       | Some _ => 0
       | None => -1
       end.

(** One turn of the loop of [trust_remove_at]. *)
Definition shift_slot (ts : trust_store) (i : nat) : trust_store :=
  ts <| ts_cred_pub := <[i := row [] (ts_cred_pub ts) (S i)]> (ts_cred_pub ts) |>
     <| ts_kpersistent := <[i := row [] (ts_kpersistent ts) (S i)]> (ts_kpersistent ts) |>
     <| ts_cred_type := <[i := row 0 (ts_cred_type ts) (S i)]> (ts_cred_type ts) |>
     <| ts_cred_index := <[i := row 0 (ts_cred_index ts) (S i)]> (ts_cred_index ts) |>
     <| ts_user_index := <[i := row 0 (ts_user_index ts) (S i)]> (ts_user_index ts) |>
     <| ts_anchor_issuer := <[i := row 0 (ts_anchor_issuer ts) (S i)]> (ts_anchor_issuer ts) |>
     <| ts_kp_valid := if has_bit (ts_kp_valid ts) (S i) then set_bit (ts_kp_valid ts) i
                       else clear_bit (ts_kp_valid ts) i |>.

(** A slot without fast-path key, indices or issuer. *)
Definition fill_slot (ts : trust_store) (i : nat) (pub : list Z) : trust_store :=
  ts <| ts_cred_pub := <[i := pub]> (ts_cred_pub ts) |>
     <| ts_kp_valid := clear_bit (ts_kp_valid ts) i |>
     <| ts_kpersistent := <[i := zeros KPERSISTENT_LEN]> (ts_kpersistent ts) |>
     <| ts_cred_type := <[i := 0]> (ts_cred_type ts) |>
     <| ts_cred_index := <[i := CRED_INDEX_NONE]> (ts_cred_index ts) |>
     <| ts_user_index := <[i := CRED_INDEX_NONE]> (ts_user_index ts) |>
     <| ts_anchor_issuer := <[i := ANCHOR_ISSUER_NONE]> (ts_anchor_issuer ts) |>.

Definition prov_trust_remove_at (ts : trust_store) (idx : Z) : trust_store * Z :=
  if (idx <? 0) || (ts_count ts <=? idx) || (TRUST_MAX <? ts_count ts) then (ts, -1) else
  let ts := fold_left shift_slot (seq (Z.to_nat idx) (Z.to_nat (ts_count ts - 1 - idx))) ts in
  let ts := ts <| ts_count := u8 (ts_count ts - 1) |> in
  (fill_slot ts (Z.to_nat (ts_count ts)) (zeros CRED_PUB_LEN), 0).

Definition prov_trust_remove (ts : trust_store) (pub : list Z) : trust_store * Z :=
  let idx := prov_trust_find ts pub in
  if idx <? 0 then (ts, 1) else prov_trust_remove_at ts idx.

(** The slot to give up: the first that never completed a standard phase, or
    the oldest. *)
Definition victim (ts : trust_store) : nat :=
  match List.find (fun i => negb (has_bit (ts_kp_valid ts) i)) (seq 0 (Z.to_nat TRUST_MAX)) with
  | Some i => i
  | None => O
  end.

Definition append_slot (ts : trust_store) (pub : list Z) : trust_store :=
  (fill_slot ts (Z.to_nat (ts_count ts)) pub) <| ts_count := u8 (ts_count ts + 1) |>.

Definition prov_trust_add (ts : trust_store) (pub : list Z) : trust_store * Z :=
  if negb (row 0 pub 0 =? 0x04) then (ts, -1) else
  if prov_trust_check ts pub =? 0 then (ts, 1) else
  if TRUST_MAX <=? ts_count ts then
    let '(ts, rc) := prov_trust_remove_at ts (Z.of_nat (victim ts)) in
    if negb (rc =? 0) then (ts, -1) else (append_slot ts pub, 2)
  else (append_slot ts pub, 0).

Definition prov_cred_bind_set (ts : trust_store) (idx cred_type cred_index user_index : Z) : trust_store * Z :=
  if (idx <? 0) || (ts_count ts <=? idx) then (ts, -1) else
  let i := Z.to_nat idx in
  (ts <| ts_cred_type := <[i := cred_type]> (ts_cred_type ts) |>
      <| ts_cred_index := <[i := cred_index]> (ts_cred_index ts) |>
      <| ts_user_index := <[i := user_index]> (ts_user_index ts) |>, 0).

Definition prov_find_cred_index (ts : trust_store) (cred_type cred_index : Z) : Z :=
  if (cred_type =? 0) || (cred_index =? CRED_INDEX_NONE) then -1 else
  slot_code (List.find (fun i => (row 0 (ts_cred_type ts) i =? cred_type) &&
                                 (row 0 (ts_cred_index ts) i =? cred_index)) (slots ts)).

Definition prov_kpersistent_set (ts : trust_store) (idx : Z) (kp : list Z) : trust_store * Z :=
  if (idx <? 0) || (ts_count ts <=? idx) then (ts, -1) else
  let i := Z.to_nat idx in
  (ts <| ts_kpersistent := <[i := kp]> (ts_kpersistent ts) |>
      <| ts_kp_valid := set_bit (ts_kp_valid ts) i |>, 0).

(** The first of the indices 1 to 6 no anchor of the type carries. *)
Definition prov_free_cred_index (ts : trust_store) (cred_type : Z) : Z :=
  match List.find (fun i => prov_find_cred_index ts cred_type (Z.of_nat i) <? 0) (seq 1 (Z.to_nat TRUST_MAX)) with
  | Some i => Z.of_nat i
  | None => 0
  end.

(** ** Issuers *)

Definition prov_issuer_find (ts : trust_store) (pub : list Z) : Z :=
  slot_code (List.find (fun i => bool_decide (row [] (ts_issuer_pub ts) i = pub)) (issuer_slots ts)).

Definition prov_issuer_find_index (ts : trust_store) (cred_index : Z) : Z :=
  if cred_index =? CRED_INDEX_NONE then -1 else
  slot_code (List.find (fun i => row 0 (ts_issuer_cred_index ts) i =? cred_index) (issuer_slots ts)).

Definition set_issuer (ts : trust_store) (i : nat) (pub : list Z) (cred_index user_index : Z) : trust_store :=
  ts <| ts_issuer_pub := <[i := pub]> (ts_issuer_pub ts) |>
     <| ts_issuer_cred_index := <[i := cred_index]> (ts_issuer_cred_index ts) |>
     <| ts_issuer_user_index := <[i := user_index]> (ts_issuer_user_index ts) |>.

Definition prov_issuer_add (ts : trust_store) (pub : list Z) (cred_index user_index : Z) : trust_store * Z :=
  if negb (row 0 pub 0 =? 0x04) then (ts, -1) else
  let slot := prov_issuer_find ts pub in
  if 0 <=? slot then
    (ts <| ts_issuer_cred_index := <[Z.to_nat slot := cred_index]> (ts_issuer_cred_index ts) |>
        <| ts_issuer_user_index := <[Z.to_nat slot := user_index]> (ts_issuer_user_index ts) |>, 1)
  else if ISSUER_MAX <=? ts_issuer_count ts then (ts, -1)
  else ((set_issuer ts (Z.to_nat (ts_issuer_count ts)) pub cred_index user_index)
          <| ts_issuer_count := u8 (ts_issuer_count ts + 1) |>, 0).

(** One turn of the downward loop: the anchors the issuer vouched for go, those
    of later issuers follow their issuer down. *)
Definition unbind_slot (bound : Z) (acc : trust_store * Z) (i : nat) : trust_store * Z :=
  let '(ts, dropped) := acc in
  if row 0 (ts_anchor_issuer ts) i =? bound then ((prov_trust_remove_at ts (Z.of_nat i)).1, dropped + 1)
  else if bound <? row 0 (ts_anchor_issuer ts) i then
    (ts <| ts_anchor_issuer := <[i := u8 (row 0 (ts_anchor_issuer ts) i - 1)]> (ts_anchor_issuer ts) |>, dropped)
  else (ts, dropped).

Definition shift_issuer (ts : trust_store) (i : nat) : trust_store :=
  set_issuer ts i (row [] (ts_issuer_pub ts) (S i)) (row 0 (ts_issuer_cred_index ts) (S i))
    (row 0 (ts_issuer_user_index ts) (S i)).

Definition prov_issuer_remove_at (ts : trust_store) (idx : Z) : trust_store * Z :=
  if (idx <? 0) || (ts_issuer_count ts <=? idx) || (ISSUER_MAX <? ts_issuer_count ts) then (ts, -1) else
  let bound := u8 (idx + 1) in
  let '(ts, dropped) := fold_left (unbind_slot bound) (rev (seq 0 (Z.to_nat (ts_count ts)))) (ts, 0) in
  let ts := fold_left shift_issuer (seq (Z.to_nat idx) (Z.to_nat (ts_issuer_count ts - 1 - idx))) ts in
  let ts := ts <| ts_issuer_count := u8 (ts_issuer_count ts - 1) |> in
  (set_issuer ts (Z.to_nat (ts_issuer_count ts)) (zeros CRED_PUB_LEN) CRED_INDEX_NONE CRED_INDEX_NONE, dropped).

Definition prov_anchor_issuer_set (ts : trust_store) (idx issuer_slot : Z) : trust_store * Z :=
  if (idx <? 0) || (ts_count ts <=? idx) || (issuer_slot <? 0) || (ts_issuer_count ts <=? issuer_slot)
  then (ts, -1)
  else (ts <| ts_anchor_issuer := <[Z.to_nat idx := u8 (issuer_slot + 1)]> (ts_anchor_issuer ts) |>, 0).

Definition prov_anchor_issuer (ts : trust_store) (idx : Z) : Z :=
  if (idx <? 0) || (ts_count ts <=? idx) || (row 0 (ts_anchor_issuer ts) (Z.to_nat idx) =? ANCHOR_ISSUER_NONE)
  then -1 else row 0 (ts_anchor_issuer ts) (Z.to_nat idx) - 1.

(** ** The persistent blob *)

Definition prov_magic : list Z := [65; 80; 82; 86].
Definition PROV_VERSION : Z := 0x05.
Definition PROV_VERSION_4 : Z := 0x04.
Definition PROV_VERSION_3 : Z := 0x03.
Definition PROV_VERSION_2 : Z := 0x02.
Definition PROV_VERSION_1 : Z := 0x01.
Definition PROV_FLAG_DEV : Z := 0x01.

(** [for (i = 0; i < n; i++)] writing the bytes of item [i]. *)
Definition each (n : Z) (f : nat -> list Z) : list Z := concat (map f (seq 0 (Z.to_nat n))).

Definition serialized_size (count issuers : Z) : Z :=
  PROV_BLOB_HDR + READER_ID_LEN + READER_PRIV_LEN + GRK_LEN + 1 + count * CRED_PUB_LEN + 1 +
  count * KPERSISTENT_LEN + count * 6 + 1 + issuers * (CRED_PUB_LEN + 4).

(** The store may be absent. *)
Definition prov_serialize (id : reader_identity) (store : option trust_store) (cap : Z) : option (list Z) :=
  let ts := default ts_zero store in
  let count := ts_count ts in
  let issuers := ts_issuer_count ts in
  if (TRUST_MAX <? count) || (ISSUER_MAX <? issuers) then None else
  if cap <? serialized_size count issuers then None else
  let mask := u8 (Z.land (ts_kp_valid ts) (bit (Z.to_nat count) - 1)) in
  Some (prov_magic ++ [PROV_VERSION; if rid_is_dev id then PROV_FLAG_DEV else 0] ++
        rid_reader_id id ++ rid_sign_priv id ++ rid_grk id ++ [count] ++
        each count (fun i => row [] (ts_cred_pub ts) i) ++ [mask] ++
        each count (fun i => if has_bit mask i then row [] (ts_kpersistent ts) i else zeros KPERSISTENT_LEN) ++
        each count (fun i => [row 0 (ts_cred_type ts) i] ++ put_be 2 (row 0 (ts_cred_index ts) i) ++
                             put_be 2 (row 0 (ts_user_index ts) i)) ++
        each count (fun i => [row 0 (ts_anchor_issuer ts) i]) ++ [issuers] ++
        each issuers (fun i => row [] (ts_issuer_pub ts) i ++ put_be 2 (row 0 (ts_issuer_cred_index ts) i) ++
                               put_be 2 (row 0 (ts_issuer_user_index ts) i))).

(** The [n] bytes at [off]. *)
Definition slice (p : list Z) (off n : Z) : list Z := take (Z.to_nat n) (drop (Z.to_nat off) p).

(** Which parts a version has: the group key, the fast-path keys, the Matter
    indices, the issuers. *)
Definition version_parts (v : Z) : option (Z * bool * bool * bool) :=
  if v =? PROV_VERSION then Some (GRK_LEN, true, true, true)
  else if v =? PROV_VERSION_4 then Some (GRK_LEN, true, true, false)
  else if v =? PROV_VERSION_3 then Some (GRK_LEN, true, false, false)
  else if v =? PROV_VERSION_2 then Some (GRK_LEN, false, false, false)
  else if v =? PROV_VERSION_1 then Some (0, false, false, false)
  else None.

(** The rows the loop fills, in an array that was cleared. *)
Definition rows_of {A} (max n : Z) (d : A) (f : nat -> A) : list A :=
  map f (seq 0 (Z.to_nat n)) ++ replicate (Z.to_nat (max - n)) d.

Definition parse_store (buf : list Z) (fixed count issuers : Z) (has_kp has_idx has_issuers : bool) : trust_store :=
  let k := fixed in
  let pubs := k in
  let k := k + count * CRED_PUB_LEN in
  let mask := k in
  let kps := k + 1 in
  let k := if has_kp then kps + count * KPERSISTENT_LEN else k in
  let idx := k in
  let k := if has_idx then k + count * 5 else k in
  let bindings := k in
  let iss := k + count + 1 in
  {| ts_count := count;
     ts_cred_pub := rows_of TRUST_MAX count (zeros CRED_PUB_LEN)
       (fun i => slice buf (pubs + Z.of_nat i * CRED_PUB_LEN) CRED_PUB_LEN);
     ts_kp_valid := if has_kp then u8 (Z.land (byte_at buf mask) (bit (Z.to_nat count) - 1)) else 0;
     ts_kpersistent :=
       if has_kp then rows_of TRUST_MAX count (zeros KPERSISTENT_LEN)
         (fun i => slice buf (kps + Z.of_nat i * KPERSISTENT_LEN) KPERSISTENT_LEN)
       else zero_rows TRUST_MAX KPERSISTENT_LEN;
     ts_cred_type :=
       if has_idx then rows_of TRUST_MAX count 0 (fun i => byte_at buf (idx + Z.of_nat i * 5)) else zeros TRUST_MAX;
     ts_cred_index :=
       if has_idx then rows_of TRUST_MAX count 0 (fun i => get_be (slice buf (idx + Z.of_nat i * 5 + 1) 2))
       else zeros TRUST_MAX;
     ts_user_index :=
       if has_idx then rows_of TRUST_MAX count 0 (fun i => get_be (slice buf (idx + Z.of_nat i * 5 + 3) 2))
       else zeros TRUST_MAX;
     ts_anchor_issuer :=
       if has_issuers then rows_of TRUST_MAX count 0 (fun i => byte_at buf (bindings + Z.of_nat i)) else zeros TRUST_MAX;
     ts_issuer_count := if has_issuers then byte_at buf (bindings + count) else 0;
     ts_issuer_pub := rows_of ISSUER_MAX issuers (zeros CRED_PUB_LEN)
       (fun i => slice buf (iss + Z.of_nat i * (CRED_PUB_LEN + 4)) CRED_PUB_LEN);
     ts_issuer_cred_index := rows_of ISSUER_MAX issuers 0
       (fun i => get_be (slice buf (iss + Z.of_nat i * (CRED_PUB_LEN + 4) + CRED_PUB_LEN) 2));
     ts_issuer_user_index := rows_of ISSUER_MAX issuers 0
       (fun i => get_be (slice buf (iss + Z.of_nat i * (CRED_PUB_LEN + 4) + CRED_PUB_LEN + 2) 2)) |}.

Definition parse_identity (buf : list Z) (grk_len : Z) : reader_identity :=
  let p := PROV_BLOB_HDR in
  {| rid_reader_id := slice buf p READER_ID_LEN;
     rid_sign_priv := slice buf (p + READER_ID_LEN) READER_PRIV_LEN;
     rid_grk := if grk_len =? GRK_LEN then slice buf (p + READER_ID_LEN + READER_PRIV_LEN) GRK_LEN else zeros GRK_LEN;
     rid_is_dev := negb (Z.land (byte_at buf 5) PROV_FLAG_DEV =? 0) |}.

Definition prov_deserialize (buf : list Z) : option (reader_identity * trust_store) :=
  if (zlen buf <? PROV_BLOB_HDR) || negb (bool_decide (take 4 buf = prov_magic)) then None else
  match version_parts (byte_at buf 4) with
  | None => None
  | Some (grk_len, has_kp, has_idx, has_issuers) =>
      let fixed := PROV_BLOB_HDR + READER_ID_LEN + READER_PRIV_LEN + grk_len + 1 in
      if zlen buf <? fixed then None else
      let count := byte_at buf (fixed - 1) in
      let want := fixed + count * CRED_PUB_LEN in
      let want := if has_kp then want + (1 + count * KPERSISTENT_LEN) else want in
      let want := if has_idx then want + count * 5 else want in
      let want := if has_issuers then want + (count + 1) else want in
      if has_issuers && ((zlen buf <? want) || (TRUST_MAX <? count)) then None else
      let issuers := if has_issuers then byte_at buf (want - 1) else 0 in
      let want := if has_issuers then want + issuers * (CRED_PUB_LEN + 4) else want in
      if (TRUST_MAX <? count) || (ISSUER_MAX <? issuers) || negb (zlen buf =? want) then None
      else Some (parse_identity buf grk_len, parse_store buf fixed count issuers has_kp has_idx has_issuers)
  end.
