(* ===== verification/ProvProps.v ===== *)
(** * The trust store is a list of anchors

    The parallel arrays and the bit mask of [ultrawidelock_prov.c] implement an
    abstract store: a list of anchors, each with its own fast-path key, and a
    list of issuers.  Every operation and query commutes with the
    abstraction, and keeps the store well formed. *)

From Stdlib Require Import ZArith Lia Bool.
From stdpp Require Import base list numbers option.
From S2P Require Import Prelude Wire Prov.

Local Open Scope Z_scope.
Local Open Scope uwl_scope.

(** ** The abstract store *)

Record anchor := {
  an_pub : list Z;
  an_kp : option (list Z);
  an_type : Z;
  an_cred_index : Z;
  an_user_index : Z;
  an_issuer : Z;
}.

Record issuer := { is_pub : list Z; is_cred_index : Z; is_user_index : Z }.

Record astore := { a_anchors : list anchor; a_issuers : list issuer }.

#[export] Instance anchor_eta : Eta anchor := fun a =>
  {| an_pub := an_pub a; an_kp := an_kp a; an_type := an_type a; an_cred_index := an_cred_index a;
     an_user_index := an_user_index a; an_issuer := an_issuer a |}.
#[export] Instance issuer_eta : Eta issuer := fun i =>
  {| is_pub := is_pub i; is_cred_index := is_cred_index i; is_user_index := is_user_index i |}.
#[export] Instance astore_eta : Eta astore := fun s =>
  {| a_anchors := a_anchors s; a_issuers := a_issuers s |}.

Definition slot (ts : trust_store) (i : nat) : anchor :=
  {| an_pub := row [] (ts_cred_pub ts) i;
     an_kp := if has_bit (ts_kp_valid ts) i then Some (row [] (ts_kpersistent ts) i) else None;
     an_type := row 0 (ts_cred_type ts) i; an_cred_index := row 0 (ts_cred_index ts) i;
     an_user_index := row 0 (ts_user_index ts) i; an_issuer := row 0 (ts_anchor_issuer ts) i |}.

Definition islot (ts : trust_store) (i : nat) : issuer :=
  {| is_pub := row [] (ts_issuer_pub ts) i; is_cred_index := row 0 (ts_issuer_cred_index ts) i;
     is_user_index := row 0 (ts_issuer_user_index ts) i |}.

Definition abs (ts : trust_store) : astore :=
  {| a_anchors := map (slot ts) (seq 0 (Z.to_nat (ts_count ts)));
     a_issuers := map (islot ts) (seq 0 (Z.to_nat (ts_issuer_count ts))) |}.

(** The position of the first element with the property. *)
Definition first_at {A} (P : A -> bool) (l : list A) : option nat := fst <$> list_find (fun x => P x = true) l.

Definition new_anchor (pub : list Z) : anchor :=
  {| an_pub := pub; an_kp := None; an_type := 0; an_cred_index := CRED_INDEX_NONE;
     an_user_index := CRED_INDEX_NONE; an_issuer := ANCHOR_ISSUER_NONE |}.

Definition has_pub (pub : list Z) (a : anchor) : bool := bool_decide (an_pub a = pub).

Definition has_key (pub : list Z) (i : issuer) : bool := bool_decide (is_pub i = pub).

Definition occupied {A} (l : list A) (idx : Z) : bool := (0 <=? idx) && (idx <? zlen l).

Definition a_update (s : astore) (idx : Z) (f : anchor -> anchor) : astore :=
  s <| a_anchors := alter f (Z.to_nat idx) (a_anchors s) |>.

Definition a_remove_at (s : astore) (idx : Z) : astore * Z :=
  if occupied (a_anchors s) idx then (s <| a_anchors := delete (Z.to_nat idx) (a_anchors s) |>, 0) else (s, -1).

Definition a_add (s : astore) (pub : list Z) : astore * Z :=
  if negb (row 0 pub 0 =? 0x04) then (s, -1) else
  if existsb (has_pub pub) (a_anchors s) then (s, 1) else
  if TRUST_MAX <=? zlen (a_anchors s) then
    let v := default O (first_at (fun a => negb (bool_decide (is_Some (an_kp a)))) (a_anchors s)) in
    (s <| a_anchors := delete v (a_anchors s) ++ [new_anchor pub] |>, 2)
  else (s <| a_anchors := a_anchors s ++ [new_anchor pub] |>, 0).

Definition a_remove (s : astore) (pub : list Z) : astore * Z :=
  match first_at (has_pub pub) (a_anchors s) with
  | None => (s, 1)
  | Some i => (s <| a_anchors := delete i (a_anchors s) |>, 0)
  end.

Definition a_bind (s : astore) (idx ty ci ui : Z) : astore * Z :=
  if occupied (a_anchors s) idx
  then (a_update s idx (fun a => a <| an_type := ty |> <| an_cred_index := ci |> <| an_user_index := ui |>), 0)
  else (s, -1).

Definition a_set_kp (s : astore) (idx : Z) (kp : list Z) : astore * Z :=
  if occupied (a_anchors s) idx then (a_update s idx (fun a => a <| an_kp := Some kp |>), 0) else (s, -1).

Definition a_issuer_add (s : astore) (pub : list Z) (ci ui : Z) : astore * Z :=
  if negb (row 0 pub 0 =? 0x04) then (s, -1) else
  match first_at (has_key pub) (a_issuers s) with
  | Some n => (s <| a_issuers := alter (fun i => i <| is_cred_index := ci |> <| is_user_index := ui |>) n (a_issuers s) |>, 1)
  | None =>
      if ISSUER_MAX <=? zlen (a_issuers s) then (s, -1)
      else (s <| a_issuers := a_issuers s ++ [{| is_pub := pub; is_cred_index := ci; is_user_index := ui |}] |>, 0)
  end.

(** The issuer goes with every anchor it vouched for; the anchors of later
    issuers follow theirs down. *)
Definition follow (bound : Z) (a : anchor) : anchor :=
  if bound <? an_issuer a then a <| an_issuer := an_issuer a - 1 |> else a.

Definition vouched (bound : Z) (a : anchor) : bool := an_issuer a =? bound.

Definition a_issuer_remove (s : astore) (idx : Z) : astore * Z :=
  if occupied (a_issuers s) idx then
    ({| a_anchors := map (follow (idx + 1)) (List.filter (fun a => negb (vouched (idx + 1) a)) (a_anchors s));
        a_issuers := delete (Z.to_nat idx) (a_issuers s) |},
     zlen (List.filter (vouched (idx + 1)) (a_anchors s)))
  else (s, -1).

Definition a_bind_issuer (s : astore) (idx slot : Z) : astore * Z :=
  if occupied (a_anchors s) idx && occupied (a_issuers s) slot
  then (a_update s idx (fun a => a <| an_issuer := slot + 1 |>), 0) else (s, -1).

(** ** Bits *)

Lemma u8_bit i : (i < 8)%nat -> u8 (bit i) = 2 ^ Z.of_nat i.
Proof.
  intros H. unfold bit. rewrite Z.shiftl_mul_pow2, Z.mul_1_l by lia. apply wrap_id. split; [lia|].
  apply Z.pow_lt_mono_r; lia.
Qed.

Lemma has_bit_spec m i : (i < 8)%nat -> has_bit m i = Z.testbit m (Z.of_nat i).
Proof.
  intros H. unfold has_bit. rewrite u8_bit by done. destruct (Z.testbit m (Z.of_nat i)) eqn:E.
  - apply negb_true_iff, Z.eqb_neq. intros H0.
    pose proof (f_equal (fun z => Z.testbit z (Z.of_nat i)) H0) as Hb. cbn beta in Hb.
    rewrite Z.land_spec, Z.pow2_bits_true, E, Z.bits_0 in Hb by lia. done.
  - apply negb_false_iff, Z.eqb_eq. apply Z.bits_inj'. intros n Hn.
    rewrite Z.land_spec, Z.pow2_bits_eqb, Z.bits_0 by lia.
    destruct (Z.eqb_spec (Z.of_nat i) n) as [<-|]; [by rewrite E|apply andb_false_r].
Qed.

Lemma has_set_bit m i j : (i < 8)%nat -> (j < 8)%nat -> has_bit (set_bit m i) j = bool_decide (i = j) || has_bit m j.
Proof.
  intros Hi Hj. rewrite !has_bit_spec by done. unfold set_bit.
  rewrite u8_bit, Z.lor_spec, Z.pow2_bits_eqb by lia. rewrite orb_comm. f_equal.
  apply eq_true_iff_eq. rewrite bool_decide_eq_true, Z.eqb_eq. lia.
Qed.

Lemma has_clear_bit m i j :
  (i < 8)%nat -> (j < 8)%nat -> has_bit (clear_bit m i) j = negb (bool_decide (i = j)) && has_bit m j.
Proof.
  intros Hi Hj. rewrite !has_bit_spec by done. unfold clear_bit.
  rewrite Z.land_spec. unfold wrap. rewrite Z.mod_pow2_bits_low, Z.lnot_spec by lia. unfold bit.
  rewrite Z.shiftl_mul_pow2, Z.mul_1_l, Z.pow2_bits_eqb, andb_comm by lia. f_equal. f_equal.
  apply eq_true_iff_eq. rewrite bool_decide_eq_true, Z.eqb_eq. lia.
Qed.

Lemma row_insert {A} (d x : A) l i j :
  (i < length l)%nat -> row d (<[i := x]> l) j = if bool_decide (i = j) then x else row d l j.
Proof.
  intros H. unfold row. rewrite !nth_lookup. case_bool_decide as E; [subst; by rewrite list_lookup_insert_eq|].
  by rewrite list_lookup_insert_ne.
Qed.

(** ** Well-formedness *)

Record wf (ts : trust_store) : Prop := {
  wf_count : 0 <= ts_count ts <= TRUST_MAX;
  wf_pub : length (ts_cred_pub ts) = 6%nat;
  wf_kp : length (ts_kpersistent ts) = 6%nat;
  wf_type : length (ts_cred_type ts) = 6%nat;
  wf_ci : length (ts_cred_index ts) = 6%nat;
  wf_ui : length (ts_user_index ts) = 6%nat;
  wf_issuer : length (ts_anchor_issuer ts) = 6%nat;
  wf_mask : in_u 8 (ts_kp_valid ts);
  wf_ranges : Forall (in_u 8) (ts_anchor_issuer ts);
  wf_icount : 0 <= ts_issuer_count ts <= ISSUER_MAX;
  wf_ipub : length (ts_issuer_pub ts) = 5%nat;
  wf_ici : length (ts_issuer_cred_index ts) = 5%nat;
  wf_iui : length (ts_issuer_user_index ts) = 5%nat;
}.

Lemma wf_zero : wf ts_zero.
Proof. split; try done. by apply in_u_all. Qed.

Lemma set_bit_range m i : in_u 8 m -> (i < 8)%nat -> in_u 8 (set_bit m i).
Proof.
  intros Hm Hi. unfold set_bit. rewrite u8_bit by done. apply lor_in_u; [done|done|].
  split; [lia|]. apply Z.pow_lt_mono_r; lia.
Qed.

Lemma clear_bit_range m i : in_u 8 (clear_bit m i).
Proof. unfold clear_bit. apply land_in_u; [done|apply wrap_range; lia]. Qed.

Ltac slot_solve :=
  unfold slot, islot; cbn [fst field_set ts_count ts_cred_pub ts_kp_valid ts_kpersistent ts_cred_type ts_cred_index
    ts_user_index ts_anchor_issuer ts_issuer_count ts_issuer_pub ts_issuer_cred_index ts_issuer_user_index];
  rewrite ?row_insert by (rewrite ?length_insert; lia).

Lemma slot_fill ts i pub j :
  wf ts -> (i < 6)%nat -> (j < 6)%nat ->
  slot (fill_slot ts i pub) j = if bool_decide (i = j) then new_anchor pub else slot ts j.
Proof.
  intros [] Hi Hj. unfold fill_slot. slot_solve. rewrite has_clear_bit by lia. by case_bool_decide.
Qed.

Lemma slot_shift ts i j :
  wf ts -> (S i < 6)%nat -> (j < 6)%nat ->
  slot (shift_slot ts i) j = if bool_decide (i = j) then slot ts (S i) else slot ts j.
Proof.
  intros [] Hi Hj. unfold shift_slot. slot_solve.
  destruct (has_bit (ts_kp_valid ts) (S i)); rewrite ?has_set_bit, ?has_clear_bit by lia; by case_bool_decide.
Qed.

Lemma wf_shift ts i : wf ts -> (S i < 6)%nat -> wf (shift_slot ts i).
Proof.
  intros W Hi. pose proof W as []. unfold shift_slot. split; cbn; rewrite ?length_insert; try done.
  - destruct (has_bit _ _); [apply set_bit_range; [done|lia]|apply clear_bit_range].
  - apply Forall_insert; [done|]. unfold row. rewrite nth_lookup.
    destruct (ts_anchor_issuer ts !! S i) eqn:E; [by eapply Forall_lookup_1|by cbn].
Qed.

Lemma wf_fill ts i pub : wf ts -> wf (fill_slot ts i pub).
Proof.
  intros []. unfold fill_slot. split; cbn; rewrite ?length_insert; try done; [apply clear_bit_range|].
  by apply Forall_insert.
Qed.

(** The loop of [trust_remove_at]. *)
Lemma shift_loop n a ts :
  wf ts -> (a + n < 6)%nat ->
  let ts' := fold_left shift_slot (seq a n) ts in
  wf ts' /\ ts_count ts' = ts_count ts /\ (forall j, islot ts' j = islot ts j) /\
  ts_issuer_count ts' = ts_issuer_count ts /\
  forall j, (j < 6)%nat -> slot ts' j = if decide (a <= j < a + n)%nat then slot ts (S j) else slot ts j.
Proof.
  revert a ts. induction n as [|n IH]; intros a ts W Hn; cbn [seq fold_left].
  { split_and!; try done. intros j Hj. by rewrite decide_False by lia. }
  destruct (IH (S a) (shift_slot ts a)) as (W' & Hc & Hi & Hic & Hs); [apply wf_shift; [done|lia]|lia|].
  split_and!; try done. intros j Hj. rewrite Hs by done.
  repeat case_decide; rewrite slot_shift by (done || lia); case_bool_decide; subst; try lia; done.
Qed.

Lemma lookup_map_seq {A} (f : nat -> A) n j :
  map f (seq 0 n) !! j = if decide (j < n)%nat then Some (f j) else None.
Proof.
  rewrite list_lookup_fmap. case_decide; [by rewrite lookup_seq_lt|by rewrite lookup_seq_ge by lia].
Qed.

Lemma map_seq_ext {A} (f g : nat -> A) n : (forall j, (j < n)%nat -> f j = g j) -> map f (seq 0 n) = map g (seq 0 n).
Proof. intros H. apply list_eq. intros j. rewrite !lookup_map_seq. case_decide; [by rewrite H|done]. Qed.

Lemma alter_map_seq {A} (g : A -> A) (f : nat -> A) i n :
  alter g i (map f (seq 0 n)) = map (fun j => if bool_decide (i = j) then g (f j) else f j) (seq 0 n).
Proof.
  apply list_eq. intros j. rewrite list_lookup_alter, !lookup_map_seq.
  repeat case_decide; subst; try case_bool_decide; try done; lia.
Qed.

Lemma zlen_anchors ts : wf ts -> zlen (a_anchors (abs ts)) = ts_count ts.
Proof. intros []. unfold abs, zlen. cbn [a_anchors]. rewrite length_map, length_seq. lia. Qed.

Lemma zlen_issuers ts : wf ts -> zlen (a_issuers (abs ts)) = ts_issuer_count ts.
Proof. intros []. unfold abs, zlen. cbn [a_issuers]. rewrite length_map, length_seq. lia. Qed.

Lemma occupied_anchors ts idx : wf ts -> occupied (a_anchors (abs ts)) idx = negb ((idx <? 0) || (ts_count ts <=? idx)).
Proof. intros W. unfold occupied. rewrite zlen_anchors by done. lia. Qed.

Lemma occupied_issuers ts idx :
  wf ts -> occupied (a_issuers (abs ts)) idx = negb ((idx <? 0) || (ts_issuer_count ts <=? idx)).
Proof. intros W. unfold occupied. rewrite zlen_issuers by done. lia. Qed.

(** A refinement step: the concrete result stands for the abstract one. *)
Definition refines (r : trust_store * Z) (a : astore * Z) : Prop := wf r.1 /\ abs r.1 = a.1 /\ r.2 = a.2.

Lemma abs_ext ts s :
  map (slot ts) (seq 0 (Z.to_nat (ts_count ts))) = a_anchors s ->
  map (islot ts) (seq 0 (Z.to_nat (ts_issuer_count ts))) = a_issuers s -> abs ts = s.
Proof. destruct s. unfold abs. by intros -> ->. Qed.

Lemma refines_same ts rc : wf ts -> refines (ts, rc) (abs ts, rc).
Proof. done. Qed.

Lemma remove_at_refines ts idx : wf ts -> refines (prov_trust_remove_at ts idx) (a_remove_at (abs ts) idx).
Proof.
  intros W. pose proof W as []. unfold prov_trust_remove_at, a_remove_at. rewrite occupied_anchors by done.
  rewrite (proj2 (Z.ltb_ge TRUST_MAX (ts_count ts))) by lia. rewrite orb_false_r.
  destruct ((idx <? 0) || (ts_count ts <=? idx)) eqn:E; cbn [negb]; [by apply refines_same|].
  unfold TRUST_MAX in *.
  destruct (shift_loop (Z.to_nat (ts_count ts - 1 - idx)) (Z.to_nat idx) ts W) as (W' & Hc & Hi & Hic & Hs); [lia|].
  set (ts1 := fold_left _ _ _) in *. cbn [field_set ts_count]. rewrite Hc.
  assert (u8 (ts_count ts - 1) = ts_count ts - 1) as Eu by (apply wrap_id; unfold in_u; lia). rewrite Eu.
  set (ts2 := ts1 <| ts_count := ts_count ts - 1 |>).
  assert (wf ts2) as W2 by (destruct W'; split; try done; cbn; unfold TRUST_MAX; lia).
  split_and!; [by apply wf_fill| |done]. cbn [fst].
  apply abs_ext; cbn [a_anchors a_issuers field_set fill_slot ts_count ts2 ts_issuer_count abs]; rewrite ?Hic.
  - apply list_eq. intros j. rewrite lookup_map_seq, list_lookup_delete, !lookup_map_seq.
    assert (forall j, slot ts2 j = slot ts1 j) as E2 by done.
    repeat case_decide; try lia; try done.
    + rewrite slot_fill, E2, Hs by (done || lia). rewrite bool_decide_eq_false_2 by lia. by rewrite decide_False by lia.
    + rewrite slot_fill, E2, Hs by (done || lia). rewrite bool_decide_eq_false_2 by lia. by rewrite decide_True by lia.
  - apply map_ext. intros j. apply Hi.
Qed.

(** ** Searches *)

Lemma find_seq {A} (P : A -> bool) (f : nat -> A) a n :
  List.find (fun i => P (f i)) (seq a n) = (fun x => a + x.1)%nat <$> list_find (fun x => P x = true) (map f (seq a n)).
Proof.
  revert a. induction n as [|n IH]; intros a; [done|]. cbn [seq List.find map list_find].
  destruct (P (f a)) eqn:E.
  - rewrite decide_True by done. cbn. f_equal. lia.
  - rewrite decide_False by congruence. rewrite IH. destruct (list_find _ _) as [[i x]|]; [|done].
    cbn. f_equal. lia.
Qed.

Lemma find_first {A} (P : A -> bool) (f : nat -> A) n :
  List.find (fun i => P (f i)) (seq 0 n) = first_at P (map f (seq 0 n)).
Proof. rewrite find_seq. unfold first_at. by destruct (list_find _ _) as [[i x]|]. Qed.

Lemma first_at_Some {A} (P : A -> bool) l i : first_at P l = Some i -> (i < length l)%nat /\ exists x, l !! i = Some x /\ P x = true.
Proof.
  unfold first_at. destruct (list_find _ l) as [[j x]|] eqn:E; [|done]. intros [= <-].
  apply list_find_Some in E as (Hl & Hp & _). split; [by eapply lookup_lt_Some|by exists x].
Qed.

Lemma first_at_None {A} (P : A -> bool) l : first_at P l = None <-> existsb P l = false.
Proof.
  unfold first_at. rewrite fmap_None, list_find_None, Forall_forall, <- not_true_iff_false, existsb_exists.
  split.
  - intros H (x & Hx & Hp). by apply (H x).
  - intros H x Hx Hp. apply H. by exists x.
Qed.

Lemma slots_all ts : wf ts -> slots ts = seq 0 (Z.to_nat (ts_count ts)).
Proof. intros []. unfold slots. by rewrite Z.min_l by lia. Qed.

Lemma issuer_slots_all ts : wf ts -> issuer_slots ts = seq 0 (Z.to_nat (ts_issuer_count ts)).
Proof. intros []. unfold issuer_slots. by rewrite Z.min_l by lia. Qed.

Lemma trust_find_spec ts pub : wf ts -> prov_trust_find ts pub = slot_code (first_at (has_pub pub) (a_anchors (abs ts))).
Proof. intros W. unfold prov_trust_find. rewrite slots_all by done. f_equal. apply (find_first (has_pub pub) (slot ts)). Qed.

Lemma trust_check_spec ts pub :
  wf ts -> prov_trust_check ts pub =
    match a_anchors (abs ts) with [] => 1 | l => if existsb (has_pub pub) l then 0 else -1 end.
Proof.
  intros W. unfold prov_trust_check. rewrite slots_all by done.
  rewrite (find_first (has_pub pub) (slot ts)). pose proof (zlen_anchors ts W) as Hl.
  change (map (slot ts) _) with (a_anchors (abs ts)).
  destruct (a_anchors (abs ts)) as [|x l] eqn:E; unfold zlen in Hl; cbn [length] in Hl.
  { by rewrite (proj2 (Z.eqb_eq _ _)) by lia. }
  rewrite (proj2 (Z.eqb_neq _ _)) by lia.
  destruct (first_at (has_pub pub) (x :: l)) eqn:Ef, (existsb (has_pub pub) (x :: l)) eqn:Ee; try done.
  - apply first_at_None in Ee. congruence.
  - apply first_at_None in Ef. congruence.
Qed.

Lemma find_cred_index_spec ts ty ci :
  wf ts -> prov_find_cred_index ts ty ci =
    if (ty =? 0) || (ci =? 0) then -1
    else slot_code (first_at (fun a => (an_type a =? ty) && (an_cred_index a =? ci)) (a_anchors (abs ts))).
Proof.
  intros W. unfold prov_find_cred_index. change CRED_INDEX_NONE with 0. destruct (_ || _); [done|].
  rewrite slots_all by done. f_equal. apply (find_first (fun a => (an_type a =? ty) && (an_cred_index a =? ci)) (slot ts)).
Qed.

Lemma issuer_find_spec ts pub :
  wf ts -> prov_issuer_find ts pub = slot_code (first_at (has_key pub) (a_issuers (abs ts))).
Proof.
  intros W. unfold prov_issuer_find. rewrite issuer_slots_all by done. f_equal.
  apply (find_first (has_key pub) (islot ts)).
Qed.

Lemma issuer_find_index_spec ts ci :
  wf ts -> prov_issuer_find_index ts ci =
    if ci =? 0 then -1 else slot_code (first_at (fun i => is_cred_index i =? ci) (a_issuers (abs ts))).
Proof.
  intros W. unfold prov_issuer_find_index. change CRED_INDEX_NONE with 0. destruct (ci =? 0); [done|].
  rewrite issuer_slots_all by done. f_equal. apply (find_first (fun i => is_cred_index i =? ci) (islot ts)).
Qed.

Lemma slot_code_neg o : (slot_code o <? 0) = bool_decide (o = None).
Proof. destruct o as [i|]; [|done]. by destruct i. Qed.

(** ** The operations *)

Lemma remove_refines ts pub : wf ts -> refines (prov_trust_remove ts pub) (a_remove (abs ts) pub).
Proof.
  intros W. unfold prov_trust_remove, a_remove. rewrite trust_find_spec, slot_code_neg by done.
  destruct (first_at _ _) as [i|] eqn:E; [|by apply refines_same].
  rewrite bool_decide_eq_false_2 by done. cbn [slot_code].
  apply first_at_Some in E as [Hi _]. pose proof (remove_at_refines ts (Z.of_nat i) W) as H.
  unfold a_remove_at in H. rewrite occupied_anchors, Nat2Z.id in H by done. pose proof (zlen_anchors ts W) as Hl.
  unfold zlen in Hl. destruct (Z.ltb_spec (Z.of_nat i) 0); [lia|]. destruct (Z.leb_spec (ts_count ts) (Z.of_nat i)); [lia|]. done.
Qed.

(** The slot behind the last. *)
Lemma append_refines ts pub :
  wf ts -> ts_count ts < TRUST_MAX ->
  wf (append_slot ts pub) /\ abs (append_slot ts pub) = (abs ts) <| a_anchors := a_anchors (abs ts) ++ [new_anchor pub] |>.
Proof.
  intros W Hlt. pose proof W as []. unfold append_slot, TRUST_MAX in *.
  assert (u8 (ts_count ts + 1) = ts_count ts + 1) as Eu by (apply wrap_id; unfold in_u; lia). rewrite Eu. split.
  { destruct (wf_fill ts (Z.to_nat (ts_count ts)) pub W); split; try done. cbn. unfold TRUST_MAX. lia. }
  apply abs_ext; cbn [a_anchors a_issuers field_set fill_slot ts_count ts_issuer_count abs]; [|done].
  apply list_eq. intros j. rewrite lookup_map_seq, lookup_app, lookup_map_seq, length_map, length_seq.
  assert (forall j, slot ((fill_slot ts (Z.to_nat (ts_count ts)) pub) <| ts_count := ts_count ts + 1 |>) j
    = slot (fill_slot ts (Z.to_nat (ts_count ts)) pub) j) as E2 by done.
  repeat case_decide; try lia.
  - rewrite E2, slot_fill by (done || lia). by rewrite bool_decide_eq_false_2 by lia.
  - rewrite E2, slot_fill by (done || lia). rewrite bool_decide_eq_true_2 by lia.
    by replace (j - _)%nat with O by lia.
  - rewrite lookup_ge_None_2; [done|]. cbn. lia.
Qed.

Lemma find_ext {A} (P Q : A -> bool) l : (forall x, P x = Q x) -> List.find P l = List.find Q l.
Proof. intros H. induction l as [|x l IH]; [done|]. cbn [List.find]. by rewrite H, IH. Qed.

Lemma victim_spec ts :
  wf ts -> ts_count ts = TRUST_MAX ->
  victim ts = default O (first_at (fun a => negb (bool_decide (is_Some (an_kp a)))) (a_anchors (abs ts))).
Proof.
  intros W Hc. unfold victim, abs. cbn [a_anchors]. rewrite Hc, <- find_first.
  assert (forall i, negb (bool_decide (is_Some (an_kp (slot ts i)))) = negb (has_bit (ts_kp_valid ts) i)) as He.
  { intros i. unfold slot. cbn [an_kp]. by destruct (has_bit _ _). }
  rewrite (find_ext _ _ _ He).
  by destruct (List.find _ _).
Qed.

Lemma add_refines ts pub : wf ts -> refines (prov_trust_add ts pub) (a_add (abs ts) pub).
Proof.
  intros W. pose proof W as []. unfold prov_trust_add, a_add. destruct (negb _); [by apply refines_same|].
  rewrite trust_check_spec, zlen_anchors by done.
  assert ((match a_anchors (abs ts) with [] => 1 | l => if existsb (has_pub pub) l then 0 else -1 end =? 0)
    = existsb (has_pub pub) (a_anchors (abs ts))) as ->.
  { destruct (a_anchors (abs ts)); [done|]. by destruct (existsb _ _). }
  destruct (existsb _ _) eqn:Eex; [by apply refines_same|].
  destruct (Z.leb_spec TRUST_MAX (ts_count ts)) as [Hfull|Hroom].
  2:{ destruct (append_refines ts pub W Hroom) as [W' Ha]. by split_and!. }
  rewrite <- victim_spec by (done || lia). set (v := victim ts).
  assert (v < 6)%nat as Hv.
  { unfold v, victim. destruct (List.find _ _) as [i|] eqn:E; [|lia]. apply find_some in E as [E%in_seq _].
    change (Z.to_nat TRUST_MAX) with 6%nat in E. lia. }
  destruct (remove_at_refines ts (Z.of_nat v) W) as (W1 & Ha & Hrc).
  unfold a_remove_at in Ha, Hrc. rewrite occupied_anchors in Ha, Hrc by done. unfold TRUST_MAX in *.
  destruct (Z.ltb_spec (Z.of_nat v) 0); [lia|]. destruct (Z.leb_spec (ts_count ts) (Z.of_nat v)); [lia|].
  cbn [orb negb fst snd] in Ha, Hrc. rewrite Nat2Z.id in Ha.
  destruct (prov_trust_remove_at ts (Z.of_nat v)) as [ts1 rc]. cbn [fst snd] in *. subst rc. cbn [Z.eqb negb].
  assert (ts_count ts1 < TRUST_MAX) as Hc1.
  { rewrite <- zlen_anchors, Ha by done. cbn [field_set a_anchors]. unfold zlen. rewrite length_delete.
    - pose proof (zlen_anchors ts W) as Hl. unfold zlen in Hl. unfold TRUST_MAX. lia.
    - apply lookup_lt_is_Some. pose proof (zlen_anchors ts W) as Hl. unfold zlen in Hl. lia. }
  destruct (append_refines ts1 pub W1 Hc1) as [W2 Ha2]. split_and!; [done| |done]. cbn [fst]. rewrite Ha2, Ha. done.
Qed.

(** An operation on one occupied slot. *)
Lemma update_refines ts ts' idx f :
  wf ts -> wf ts' -> occupied (a_anchors (abs ts)) idx = true -> ts_count ts' = ts_count ts ->
  (forall j, (j < 6)%nat -> slot ts' j = if bool_decide (Z.to_nat idx = j) then f (slot ts j) else slot ts j) ->
  ts_issuer_count ts' = ts_issuer_count ts -> (forall j, islot ts' j = islot ts j) ->
  abs ts' = a_update (abs ts) idx f.
Proof.
  intros W W' Ho Hc Hs Hic Hi. pose proof W as []. unfold TRUST_MAX in *.
  apply abs_ext; cbn [a_update a_anchors a_issuers field_set abs]; rewrite ?Hc, ?Hic.
  - rewrite alter_map_seq. apply map_seq_ext. intros j Hj. apply Hs. lia.
  - apply map_ext. intros j. apply Hi.
Qed.

Lemma occupied_spec ts idx :
  wf ts -> (idx <? 0) || (ts_count ts <=? idx) = false ->
  occupied (a_anchors (abs ts)) idx = true /\ (Z.to_nat idx < 6)%nat.
Proof.
  intros W H. rewrite occupied_anchors, H by done. split; [done|]. destruct W. unfold TRUST_MAX in *. lia.
Qed.

Lemma bind_refines ts idx ty ci ui :
  wf ts -> refines (prov_cred_bind_set ts idx ty ci ui) (a_bind (abs ts) idx ty ci ui).
Proof.
  intros W. unfold prov_cred_bind_set, a_bind. rewrite occupied_anchors by done.
  destruct (_ || _) eqn:E; cbn [negb]; [by apply refines_same|].
  destruct (occupied_spec ts idx W E) as [Ho Hi]. pose proof W as []. set (ts' := _ <| ts_user_index := _ |>).
  assert (wf ts') as W' by (split; try done; cbn; by rewrite length_insert).
  split_and!; [done| |done]. apply update_refines; try done. intros j Hj. unfold ts'. slot_solve. by case_bool_decide.
Qed.

Lemma set_kp_refines ts idx kp :
  wf ts -> refines (prov_kpersistent_set ts idx kp) (a_set_kp (abs ts) idx kp).
Proof.
  intros W. unfold prov_kpersistent_set, a_set_kp. rewrite occupied_anchors by done.
  destruct (_ || _) eqn:E; cbn [negb]; [by apply refines_same|].
  destruct (occupied_spec ts idx W E) as [Ho Hi]. pose proof W as []. set (ts' := _ <| ts_kp_valid := _ |>).
  assert (wf ts') as W'.
  { split; try done; cbn; rewrite ?length_insert; try done. apply set_bit_range; [done|lia]. }
  split_and!; [done| |done]. apply update_refines; try done. intros j Hj. unfold ts'. slot_solve.
  rewrite has_set_bit by lia. by case_bool_decide.
Qed.

Lemma bind_issuer_refines ts idx sl :
  wf ts -> refines (prov_anchor_issuer_set ts idx sl) (a_bind_issuer (abs ts) idx sl).
Proof.
  intros W. unfold prov_anchor_issuer_set, a_bind_issuer. rewrite occupied_anchors, occupied_issuers by done.
  destruct ((idx <? 0) || (ts_count ts <=? idx)) eqn:E; cbn [negb orb andb]; [by apply refines_same|].
  destruct ((sl <? 0) || (ts_issuer_count ts <=? sl)) eqn:E2; cbn [negb orb andb]; [by apply refines_same|].
  destruct (occupied_spec ts idx W E) as [Ho Hi]. pose proof W as []. unfold ISSUER_MAX in *.
  assert (u8 (sl + 1) = sl + 1) as -> by (apply wrap_id; unfold in_u; lia).
  set (ts' := _ <| ts_anchor_issuer := _ |>).
  assert (wf ts') as W'.
  { split; try done; cbn; rewrite ?length_insert; try done. apply Forall_insert; [done|]. unfold in_u. lia. }
  split_and!; [done| |done]. apply update_refines; try done. intros j Hj. unfold ts'. slot_solve. by case_bool_decide.
Qed.

(** ** Issuers *)

Lemma islot_set ts i pub ci ui j :
  wf ts -> (i < 5)%nat ->
  islot (set_issuer ts i pub ci ui) j
  = if bool_decide (i = j) then {| is_pub := pub; is_cred_index := ci; is_user_index := ui |} else islot ts j.
Proof. intros [] Hi. unfold set_issuer. slot_solve. by case_bool_decide. Qed.

Lemma wf_set_issuer ts i pub ci ui : wf ts -> wf (set_issuer ts i pub ci ui).
Proof. intros []. split; try done; cbn; by rewrite length_insert. Qed.

Lemma issuer_add_refines ts pub ci ui :
  wf ts -> refines (prov_issuer_add ts pub ci ui) (a_issuer_add (abs ts) pub ci ui).
Proof.
  intros W. pose proof W as []. unfold prov_issuer_add, a_issuer_add. destruct (negb _); [by apply refines_same|].
  rewrite issuer_find_spec by done. rewrite Z.leb_antisym, slot_code_neg, zlen_issuers by done.
  destruct (first_at _ _) as [n|] eqn:E.
  - rewrite bool_decide_eq_false_2 by done. cbn [negb slot_code]. rewrite Nat2Z.id.
    apply first_at_Some in E as [Hn _]. pose proof (zlen_issuers ts W) as Hl. unfold zlen, ISSUER_MAX in *.
    set (ts' := _ <| ts_issuer_user_index := _ |>).
    assert (wf ts') as W' by (split; try done; cbn; by rewrite length_insert).
    split_and!; [done| |done]. cbn [fst]. apply abs_ext; [done|]. cbn [a_issuers field_set abs].
    rewrite alter_map_seq. cbn [ts' field_set ts_issuer_count]. apply map_seq_ext. intros j Hj. unfold ts'. slot_solve.
    by case_bool_decide.
  - rewrite bool_decide_eq_true_2 by done. cbn [negb]. destruct (Z.leb_spec ISSUER_MAX (ts_issuer_count ts)); [by apply refines_same|].
    unfold ISSUER_MAX in *. assert (u8 (ts_issuer_count ts + 1) = ts_issuer_count ts + 1) as -> by (apply wrap_id; unfold in_u; lia).
    split_and!; [| |done].
    { destruct (wf_set_issuer ts (Z.to_nat (ts_issuer_count ts)) pub ci ui W). split; try done. cbn. unfold ISSUER_MAX. lia. }
    cbn [fst]. apply abs_ext; [done|]. cbn [a_issuers field_set abs ts_issuer_count].
    apply list_eq. intros j. rewrite lookup_map_seq, lookup_app, lookup_map_seq, length_map, length_seq.
    assert (forall c j, islot ((set_issuer ts (Z.to_nat (ts_issuer_count ts)) pub ci ui) <| ts_issuer_count := c |>) j
      = islot (set_issuer ts (Z.to_nat (ts_issuer_count ts)) pub ci ui) j) as E2 by done.
    repeat case_decide; try lia; rewrite ?E2, ?islot_set by (done || lia).
    + by rewrite bool_decide_eq_false_2 by lia.
    + rewrite bool_decide_eq_true_2 by lia. by replace (j - _)%nat with O by lia.
    + rewrite lookup_ge_None_2; [done|]. cbn. lia.
Qed.

(** One turn of the loop over the anchors. *)
Lemma unbind_step bound ts d i :
  wf ts -> 0 < bound -> (i < Z.to_nat (ts_count ts))%nat ->
  let a := slot ts i in
  let r := unbind_slot bound (ts, d) i in
  wf r.1 /\ a_issuers (abs r.1) = a_issuers (abs ts) /\
  a_anchors (abs ts) !! i = Some a /\
  a_anchors (abs r.1) = take i (a_anchors (abs ts)) ++ (if vouched bound a then [] else [follow bound a]) ++
                        drop (S i) (a_anchors (abs ts)) /\
  r.2 = d + (if vouched bound a then 1 else 0).
Proof.
  intros W Hb Hi a r. pose proof W as [].
  assert (a_anchors (abs ts) !! i = Some a) as Hl by (unfold abs; cbn [a_anchors]; rewrite lookup_map_seq; by case_decide).
  pose proof (zlen_anchors ts W) as Hz. unfold zlen in Hz.
  assert (row 0 (ts_anchor_issuer ts) i = an_issuer a) as Ha by done.
  unfold r, unbind_slot, vouched, follow. rewrite Ha.
  destruct (Z.eqb_spec (an_issuer a) bound) as [Hv|Hv]; cbn [fst snd].
  { destruct (remove_at_refines ts (Z.of_nat i) W) as (W' & Hr & _). unfold a_remove_at in Hr.
    rewrite occupied_anchors, Nat2Z.id in Hr by done.
    destruct (Z.ltb_spec (Z.of_nat i) 0); [lia|]. destruct (Z.leb_spec (ts_count ts) (Z.of_nat i)); [lia|].
    cbn [orb negb fst] in Hr. rewrite Hr. cbn [field_set a_anchors a_issuers].
    split_and!; try done. by rewrite delete_take_drop. }
  destruct (Z.ltb_spec bound (an_issuer a)) as [Hf|Hf]; cbn [fst snd].
  - assert (in_u 8 (an_issuer a)) as Hin.
    { rewrite <- Ha. unfold row. rewrite nth_lookup. destruct (ts_anchor_issuer ts !! i) eqn:E; [by eapply Forall_lookup_1|by cbn]. }
    assert (u8 (an_issuer a - 1) = an_issuer a - 1) as -> by (apply wrap_id; unfold in_u in *; lia).
    unfold TRUST_MAX in *. set (ts' := _ <| ts_anchor_issuer := _ |>).
    assert (wf ts') as W'.
    { split; try done; cbn; rewrite ?length_insert; try done. apply Forall_insert; [done|]. unfold in_u in *. lia. }
    assert (abs ts' = a_update (abs ts) (Z.of_nat i) (fun a => a <| an_issuer := an_issuer a - 1 |>)) as ->.
    { apply update_refines; try done.
      - rewrite occupied_anchors by done. lia.
      - intros j Hj. rewrite Nat2Z.id. unfold ts'. slot_solve. by case_bool_decide; subst. }
    cbn [a_update field_set a_anchors a_issuers]. rewrite Nat2Z.id. split_and!; try done; [|lia].
    cbn [app]. rewrite <- insert_take_drop by lia. apply list_eq. intros j.
    rewrite list_lookup_alter. case_decide as Ej; [subst j|by rewrite list_lookup_insert_ne].
    by rewrite Hl, list_lookup_insert_eq by lia.
  - split_and!; try done; [|lia]. cbn [app]. symmetry. by apply take_drop_middle.
Qed.

Lemma unbind_loop bound k ts d :
  wf ts -> 0 < bound -> (k <= Z.to_nat (ts_count ts))%nat ->
  let r := fold_left (unbind_slot bound) (rev (seq 0 k)) (ts, d) in
  let l := a_anchors (abs ts) in
  wf r.1 /\ a_issuers (abs r.1) = a_issuers (abs ts) /\
  a_anchors (abs r.1) = map (follow bound) (List.filter (fun a => negb (vouched bound a)) (take k l)) ++ drop k l /\
  r.2 = d + zlen (List.filter (vouched bound) (take k l)).
Proof.
  revert ts d. induction k as [|k IH]; intros ts d W Hb Hk.
  { split_and!; try done. symmetry. apply Z.add_0_r. }
  rewrite seq_S, rev_app_distr. cbn [rev app fold_left Nat.add].
  destruct (unbind_step bound ts d k W Hb) as (W1 & Hi1 & Hl & Ha1 & Hd1); [lia|].
  destruct (unbind_slot bound (ts, d) k) as [ts1 d1]. cbn [fst snd] in *. subst d1.
  pose proof (zlen_anchors ts W) as Hz. pose proof (zlen_anchors ts1 W1) as Hz1. unfold zlen in Hz, Hz1.
  set (l := a_anchors (abs ts)) in *.
  assert (length (take k l) = k) as Htk by (rewrite length_take; lia).
  assert (k <= Z.to_nat (ts_count ts1))%nat as Hk1 by (rewrite Ha1, !length_app, Htk in Hz1; lia).
  destruct (IH ts1 (d + if vouched bound (slot ts k) then 1 else 0) W1 Hb Hk1) as (W2 & Hi2 & Ha2 & Hd2).
  assert (take k (a_anchors (abs ts1)) = take k l) as Et by (rewrite Ha1; by apply take_app_length').
  assert (drop k (a_anchors (abs ts1)) = (if vouched bound (slot ts k) then [] else [follow bound (slot ts k)]) ++ drop (S k) l)
    as Ed by (rewrite Ha1; by apply drop_app_length').
  rewrite Et in Ha2, Hd2. rewrite Ed in Ha2. rewrite (take_S_r l k (slot ts k) Hl), !List.filter_app, map_app, zlen_app.
  split_and!; [done|congruence| |].
  - rewrite Ha2, <- app_assoc. f_equal. cbn [List.filter]. by destruct (vouched bound (slot ts k)).
  - rewrite Hd2. cbn [List.filter]. destruct (vouched bound (slot ts k)); unfold zlen; cbn; lia.
Qed.

Lemma issuer_shift_loop n a ts :
  wf ts -> (a + n < 5)%nat ->
  let ts' := fold_left shift_issuer (seq a n) ts in
  wf ts' /\ ts_count ts' = ts_count ts /\ (forall j, slot ts' j = slot ts j) /\
  ts_issuer_count ts' = ts_issuer_count ts /\
  forall j, islot ts' j = if decide (a <= j < a + n)%nat then islot ts (S j) else islot ts j.
Proof.
  revert a ts. induction n as [|n IH]; intros a ts W Hn; cbn [seq fold_left].
  { split_and!; try done. intros j. by rewrite decide_False by lia. }
  destruct (IH (S a) (shift_issuer ts a)) as (W' & Hc & Hi & Hic & Hs); [by apply wf_set_issuer|lia|].
  split_and!; try done. intros j. rewrite Hs. unfold shift_issuer.
  repeat case_decide; rewrite islot_set by (done || lia); case_bool_decide; subst; try lia; done.
Qed.

Lemma issuer_remove_refines ts idx :
  wf ts -> refines (prov_issuer_remove_at ts idx) (a_issuer_remove (abs ts) idx).
Proof.
  intros W. pose proof W as []. unfold prov_issuer_remove_at, a_issuer_remove. rewrite occupied_issuers by done.
  rewrite (proj2 (Z.ltb_ge ISSUER_MAX (ts_issuer_count ts))) by lia. rewrite orb_false_r.
  destruct ((idx <? 0) || (ts_issuer_count ts <=? idx)) eqn:E; cbn [negb]; [by apply refines_same|].
  unfold ISSUER_MAX in *. assert (u8 (idx + 1) = idx + 1) as -> by (apply wrap_id; unfold in_u; lia).
  destruct (unbind_loop (idx + 1) (Z.to_nat (ts_count ts)) ts 0 W) as (W1 & Hi1 & Ha1 & Hd1); [lia|lia|].
  destruct (fold_left (unbind_slot (idx + 1)) _ (ts, 0)) as [ts1 d1]. cbn [fst snd] in *.
  pose proof (zlen_anchors ts W) as Hz. unfold zlen in Hz.
  rewrite take_ge in Ha1, Hd1 by lia. rewrite drop_ge, app_nil_r in Ha1 by lia.
  assert (ts_issuer_count ts1 = ts_issuer_count ts) as Hic1 by (by rewrite <- !zlen_issuers, Hi1). rewrite Hic1.
  destruct (issuer_shift_loop (Z.to_nat (ts_issuer_count ts - 1 - idx)) (Z.to_nat idx) ts1 W1) as (W2 & Hc2 & Hs2 & Hic2 & Hi2); [lia|].
  set (ts2 := fold_left shift_issuer _ _) in *. cbn [field_set ts_issuer_count]. rewrite Hic2, Hic1.
  assert (u8 (ts_issuer_count ts - 1) = ts_issuer_count ts - 1) as -> by (apply wrap_id; unfold in_u; lia).
  set (ts3 := ts2 <| ts_issuer_count := ts_issuer_count ts - 1 |>).
  assert (wf ts3) as W3 by (destruct W2; split; try done; cbn; unfold ISSUER_MAX; lia).
  split_and!; [by apply wf_set_issuer| |by rewrite Hd1]. cbn [fst].
  apply abs_ext; cbn [a_anchors a_issuers field_set set_issuer ts_count ts3 ts_issuer_count].
  - rewrite Hc2. rewrite <- Ha1. apply map_ext. intros j. apply Hs2.
  - rewrite <- Hi1. apply list_eq. intros j. rewrite lookup_map_seq, list_lookup_delete. unfold abs. cbn [a_issuers].
    rewrite !lookup_map_seq, Hic1.
    assert (forall j, islot ts3 j = islot ts2 j) as E3 by done.
    repeat case_decide; try lia; try done; rewrite islot_set, E3, Hi2 by (done || lia);
      rewrite bool_decide_eq_false_2 by lia; [by rewrite decide_False by lia|by rewrite decide_True by lia].
Qed.
