(* ===== verification/ProvBlob.v ===== *)
(** * The blob of the provisioning store

    What [ultrawidelock_prov_serialize] writes, [ultrawidelock_prov_deserialize]
    reads back as the same identity and the same abstract store; and no blob
    that is accepted is a proper prefix of another. *)

From Stdlib Require Import ZArith Lia Bool.
From stdpp Require Import base list numbers option.
From S2P Require Import Prelude Wire Prov ProvProps.

Local Open Scope Z_scope.
Local Open Scope uwl_scope.

(** ** Sections of a buffer *)

Lemma slice_app pre rest off e n : zlen pre = off -> 0 <= e -> slice (pre ++ rest) (off + e) n = slice rest e n.
Proof.
  intros <- He. unfold slice, zlen. rewrite drop_app_ge by lia. do 2 f_equal. lia.
Qed.

Lemma slice_front mid post n : zlen mid = n -> slice (mid ++ post) 0 n = mid.
Proof. intros <-. unfold slice, zlen. rewrite Nat2Z.id. apply take_app_length. Qed.

Lemma slice_mid pre mid post off n : zlen pre = off -> zlen mid = n -> slice (pre ++ mid ++ post) off n = mid.
Proof. intros Hp Hm. rewrite <- (Z.add_0_r off), (slice_app pre) by (done || lia). by apply slice_front. Qed.

Lemma byte_at_slice p off : 0 <= off -> byte_at p off = row 0 (slice p off 1) 0.
Proof.
  intros Ho. unfold byte_at, row, slice. rewrite !nth_lookup, lookup_take_lt, lookup_drop by (cbn; lia).
  by rewrite Nat.add_0_r.
Qed.

Lemma byte_at_mid pre b post off : zlen pre = off -> byte_at (pre ++ [b] ++ post) off = b.
Proof.
  intros Hp. rewrite byte_at_slice by (pose proof (zlen_nonneg pre); lia).
  by rewrite (slice_mid pre [b] post off 1 Hp).
Qed.

Lemma each_S n f : 0 <= n -> each (n + 1) f = each n f ++ f (Z.to_nat n).
Proof.
  intros H. unfold each. replace (Z.to_nat (n + 1)) with (S (Z.to_nat n)) by lia.
  rewrite seq_S, map_app, concat_app. cbn [map concat Nat.add]. by rewrite app_nil_r.
Qed.

Lemma zlen_each n f w : 0 <= n -> (forall i, (i < Z.to_nat n)%nat -> zlen (f i) = w) -> zlen (each n f) = n * w.
Proof.
  intros Hn. revert n Hn. apply (natlike_ind (fun n => (forall i, (i < Z.to_nat n)%nat -> zlen (f i) = w) -> zlen (each n f) = n * w)).
  - done.
  - intros n Hn IH Hf. rewrite <- Z.add_1_r, each_S, zlen_app, IH, Hf by (intros; try apply Hf; lia). lia.
Qed.

(** Item [i] of a section of items. *)
Lemma each_split n f i :
  (i < Z.to_nat n)%nat ->
  each n f = each (Z.of_nat i) f ++ f i ++ concat (map f (seq (S i) (Z.to_nat n - S i))).
Proof.
  intros Hi. unfold each. rewrite Nat2Z.id. replace (Z.to_nat n) with (i + S (Z.to_nat n - S i))%nat at 1 by lia.
  rewrite seq_app, map_app, concat_app. done.
Qed.

Lemma slice_each pre n f post w off i e m :
  zlen pre = off -> (forall i, (i < Z.to_nat n)%nat -> zlen (f i) = w) -> (i < Z.to_nat n)%nat ->
  0 <= e -> 0 <= m -> e + m <= w ->
  slice (pre ++ each n f ++ post) (off + Z.of_nat i * w + e) m = slice (f i) e m.
Proof.
  intros Hp Hf Hi He Hm Hw. rewrite (each_split n f i Hi), <- !app_assoc, (app_assoc pre).
  rewrite slice_app; [|rewrite zlen_app, (zlen_each _ _ w) by (intros; try apply Hf; lia); lia|done].
  pose proof (Hf i Hi) as Hl. unfold slice, zlen in *. rewrite drop_app_le, take_app_le by (rewrite ?length_drop; lia). done.
Qed.

Lemma slice_whole l n : zlen l = n -> slice l 0 n = l.
Proof. intros <-. unfold slice, zlen. rewrite Nat2Z.id. by apply take_ge. Qed.

Lemma row_rows_of {A} (d d' : A) max n f i : (i < Z.to_nat n)%nat -> row d (rows_of max n d' f) i = f i.
Proof.
  intros Hi. unfold row, rows_of. rewrite nth_lookup, lookup_app, lookup_map_seq.
  by rewrite decide_True.
Qed.

Lemma length_rows_of {A} (d : A) max n f : 0 <= n <= max -> length (rows_of max n d f) = Z.to_nat max.
Proof. intros H. unfold rows_of. rewrite length_app, length_map, length_seq, length_replicate. lia. Qed.

(** ** What is stored *)

(** The fields that reach the blob have their C widths. *)
Record typed (ts : trust_store) : Prop := {
  ty_pubs : Forall (fun r => zlen r = CRED_PUB_LEN) (ts_cred_pub ts);
  ty_kps : Forall (fun r => zlen r = KPERSISTENT_LEN) (ts_kpersistent ts);
  ty_types : Forall (in_u 8) (ts_cred_type ts);
  ty_cis : Forall (in_u 16) (ts_cred_index ts);
  ty_uis : Forall (in_u 16) (ts_user_index ts);
  ty_ipubs : Forall (fun r => zlen r = CRED_PUB_LEN) (ts_issuer_pub ts);
  ty_icis : Forall (in_u 16) (ts_issuer_cred_index ts);
  ty_iuis : Forall (in_u 16) (ts_issuer_user_index ts);
}.

Definition storable (ts : trust_store) : Prop := wf ts /\ typed ts.

Lemma Forall_row {A} (P : A -> Prop) d l i : Forall P l -> (i < length l)%nat \/ P d -> P (row d l i).
Proof.
  intros Hl Hi. unfold row. rewrite nth_lookup. destruct (l !! i) eqn:E; [by eapply Forall_lookup_1|].
  destruct Hi as [Hi|]; [|done]. apply lookup_lt_is_Some in Hi as [x Hx]. congruence.
Qed.

Lemma st_pub ts i : storable ts -> (i < Z.to_nat (ts_count ts))%nat -> zlen (row [] (ts_cred_pub ts) i) = CRED_PUB_LEN.
Proof. intros [[] []] Hi. apply (Forall_row (fun r => zlen r = CRED_PUB_LEN)); [done|]. left. unfold TRUST_MAX in *. lia. Qed.

Lemma st_kp ts i : storable ts -> (i < Z.to_nat (ts_count ts))%nat -> zlen (row [] (ts_kpersistent ts) i) = KPERSISTENT_LEN.
Proof. intros [[] []] Hi. apply (Forall_row (fun r => zlen r = KPERSISTENT_LEN)); [done|]. left. unfold TRUST_MAX in *. lia. Qed.

Lemma st_ipub ts i :
  storable ts -> (i < Z.to_nat (ts_issuer_count ts))%nat -> zlen (row [] (ts_issuer_pub ts) i) = CRED_PUB_LEN.
Proof. intros [[] []] Hi. apply (Forall_row (fun r => zlen r = CRED_PUB_LEN)); [done|]. left. unfold ISSUER_MAX in *. lia. Qed.

Lemma row_in_u w l i : 0 <= w -> Forall (in_u w) l -> in_u w (row 0 l i).
Proof. intros Hw Hl. apply Forall_row; [done|]. right. split; [lia|by apply Z.pow_pos_nonneg]. Qed.

Definition id_ok (id : reader_identity) : Prop :=
  zlen (rid_reader_id id) = READER_ID_LEN /\ zlen (rid_sign_priv id) = READER_PRIV_LEN /\ zlen (rid_grk id) = GRK_LEN.

Lemma mask_bits m n i :
  (n <= 7)%nat -> (i < n)%nat -> has_bit (u8 (Z.land m (bit n - 1))) i = has_bit m i.
Proof.
  intros Hn Hi. rewrite !has_bit_spec by lia. unfold wrap. rewrite Z.mod_pow2_bits_low by lia.
  unfold bit. rewrite Z.shiftl_mul_pow2, Z.mul_1_l by lia.
  replace (2 ^ Z.of_nat n - 1) with (Z.ones (Z.of_nat n)) by (rewrite Z.ones_equiv; lia).
  by rewrite Z.land_spec, Z.ones_spec_low, andb_true_r by lia.
Qed.

(** ** Round trip *)

Section Blob.
Context (id : reader_identity) (ts : trust_store) (Hid : id_ok id) (Hts : storable ts).

Let c : Z := ts_count ts.
Let n : Z := ts_issuer_count ts.
Let mask : Z := u8 (Z.land (ts_kp_valid ts) (bit (Z.to_nat c) - 1)).
Let hdr : list Z := prov_magic ++ [PROV_VERSION; if rid_is_dev id then PROV_FLAG_DEV else 0].
Let front : list Z := hdr ++ rid_reader_id id ++ rid_sign_priv id ++ rid_grk id.
Let pub (i : nat) : list Z := row [] (ts_cred_pub ts) i.
Let kp (i : nat) : list Z := if has_bit mask i then row [] (ts_kpersistent ts) i else zeros KPERSISTENT_LEN.
Let index (i : nat) : list Z :=
  [row 0 (ts_cred_type ts) i] ++ put_be 2 (row 0 (ts_cred_index ts) i) ++ put_be 2 (row 0 (ts_user_index ts) i).
Let binding (i : nat) : list Z := [row 0 (ts_anchor_issuer ts) i].
Let iss (i : nat) : list Z :=
  row [] (ts_issuer_pub ts) i ++ put_be 2 (row 0 (ts_issuer_cred_index ts) i) ++ put_be 2 (row 0 (ts_issuer_user_index ts) i).
Let blob : list Z :=
  front ++ [c] ++ each c pub ++ [mask] ++ each c kp ++ each c index ++ each c binding ++ [n] ++ each n iss.

Lemma blob_serialize cap : serialized_size c n <= cap -> prov_serialize id (Some ts) cap = Some blob.
Proof.
  unfold c, n. intros Hcap. destruct Hts as [W _]. destruct W. unfold prov_serialize. change (default ts_zero (Some ts)) with ts.
  rewrite (proj2 (Z.ltb_ge _ _) (proj2 wf_count)), (proj2 (Z.ltb_ge _ _) (proj2 wf_icount)). cbn [orb].
  rewrite (proj2 (Z.ltb_ge _ _) Hcap). unfold blob, front, hdr. by rewrite <- !app_assoc.
Qed.

Lemma c_range : 0 <= c <= 6.
Proof. destruct Hts as [W _]. apply (wf_count _ W). Qed.

Lemma n_range : 0 <= n <= 5.
Proof. destruct Hts as [W _]. apply (wf_icount _ W). Qed.

Lemma len_front : zlen front = 86.
Proof. destruct Hid as (H1 & H2 & H3). unfold front, hdr. by rewrite !zlen_app, H1, H2, H3. Qed.

Lemma len_pub i : (i < Z.to_nat c)%nat -> zlen (pub i) = 65.
Proof. intros Hi. by apply st_pub. Qed.

Lemma len_kp i : (i < Z.to_nat c)%nat -> zlen (kp i) = 32.
Proof. intros Hi. unfold kp. destruct (has_bit mask i); [by apply st_kp|done]. Qed.

Lemma len_index i : (i < Z.to_nat c)%nat -> zlen (index i) = 5.
Proof. done. Qed.

Lemma len_binding i : (i < Z.to_nat c)%nat -> zlen (binding i) = 1.
Proof. done. Qed.

Lemma len_iss i : (i < Z.to_nat n)%nat -> zlen (iss i) = 69.
Proof. intros Hi. unfold iss. rewrite zlen_app, (st_ipub ts i Hts Hi). done. Qed.

(** The lengths of the sections. *)
Lemma len_sections :
  zlen (each c pub) = c * 65 /\ zlen (each c kp) = c * 32 /\ zlen (each c index) = c * 5 /\
  zlen (each c binding) = c * 1 /\ zlen (each n iss) = n * 69.
Proof.
  pose proof c_range. pose proof n_range.
  split_and!; apply zlen_each; (lia || apply len_pub || apply len_kp || apply len_index || apply len_binding || apply len_iss).
Qed.

Ltac section_len :=
  destruct len_sections as (? & ? & ? & ? & ?); rewrite ?zlen_app, ?len_front;
  change (zlen [?x]) with 1; unfold CRED_PUB_LEN, KPERSISTENT_LEN in *; lia.

(** The blob cut in front of a section. *)
Ltac cut_at pre mid post :=
  replace blob with (pre ++ mid ++ post) by (unfold blob; by rewrite <- !app_assoc).

Lemma blob_len : zlen blob = 89 + c * 103 + n * 69.
Proof. unfold blob. destruct len_sections as (E1 & E2 & E3 & E4 & E5). rewrite !zlen_app, len_front, E1, E2, E3, E4, E5.
  change (zlen [?x]) with 1. lia. Qed.

Lemma blob_count : byte_at blob 86 = c.
Proof. unfold blob. apply byte_at_mid, len_front. Qed.

Lemma blob_pub i : (i < Z.to_nat c)%nat -> slice blob (87 + Z.of_nat i * 65) 65 = pub i.
Proof.
  intros Hi. cut_at (front ++ [c]) (each c pub) ([mask] ++ each c kp ++ each c index ++ each c binding ++ [n] ++ each n iss).
  rewrite <- (Z.add_0_r (87 + _)), (slice_each _ _ _ _ 65); [|section_len|apply len_pub|done|lia..].
  apply slice_whole, len_pub, Hi.
Qed.

Lemma blob_mask : byte_at blob (87 + c * 65) = mask.
Proof.
  cut_at (front ++ [c] ++ each c pub) [mask] (each c kp ++ each c index ++ each c binding ++ [n] ++ each n iss).
  apply byte_at_mid. section_len.
Qed.

Lemma blob_kp i : (i < Z.to_nat c)%nat -> slice blob (87 + c * 65 + 1 + Z.of_nat i * 32) 32 = kp i.
Proof.
  intros Hi. cut_at (front ++ [c] ++ each c pub ++ [mask]) (each c kp) (each c index ++ each c binding ++ [n] ++ each n iss).
  rewrite <- (Z.add_0_r (87 + _ + 1 + _)), (slice_each _ _ _ _ 32); [|section_len|apply len_kp|done|lia..].
  apply slice_whole, len_kp, Hi.
Qed.

Lemma blob_index i e m :
  (i < Z.to_nat c)%nat -> 0 <= e -> 0 <= m -> e + m <= 5 ->
  slice blob (87 + c * 65 + 1 + c * 32 + Z.of_nat i * 5 + e) m = slice (index i) e m.
Proof.
  intros Hi He Hm Hem. cut_at (front ++ [c] ++ each c pub ++ [mask] ++ each c kp) (each c index) (each c binding ++ [n] ++ each n iss).
  apply slice_each; [section_len|apply len_index|done..].
Qed.

Lemma blob_binding i :
  (i < Z.to_nat c)%nat -> byte_at blob (87 + c * 65 + 1 + c * 32 + c * 5 + Z.of_nat i) = row 0 (ts_anchor_issuer ts) i.
Proof.
  intros Hi. pose proof c_range. rewrite byte_at_slice by lia.
  cut_at (front ++ [c] ++ each c pub ++ [mask] ++ each c kp ++ each c index) (each c binding) ([n] ++ each n iss).
  replace (87 + c * 65 + 1 + c * 32 + c * 5 + Z.of_nat i) with (87 + c * 65 + 1 + c * 32 + c * 5 + Z.of_nat i * 1 + 0) by lia.
  rewrite (slice_each _ _ _ _ 1); [done|section_len|apply len_binding|done|lia..].
Qed.

Lemma blob_issuers : byte_at blob (87 + c * 65 + 1 + c * 32 + c * 5 + c) = n.
Proof.
  cut_at (front ++ [c] ++ each c pub ++ [mask] ++ each c kp ++ each c index ++ each c binding) [n] (each n iss).
  apply byte_at_mid. section_len.
Qed.

Lemma blob_iss i e m :
  (i < Z.to_nat n)%nat -> 0 <= e -> 0 <= m -> e + m <= 69 ->
  slice blob (87 + c * 65 + 1 + c * 32 + c * 5 + c + 1 + Z.of_nat i * 69 + e) m = slice (iss i) e m.
Proof.
  intros Hi He Hm Hem. rewrite <- (app_nil_r blob).
  replace (blob ++ []) with ((front ++ [c] ++ each c pub ++ [mask] ++ each c kp ++ each c index ++ each c binding ++ [n]) ++ each n iss ++ [])
    by (unfold blob; by rewrite <- !app_assoc).
  apply slice_each; [section_len|apply len_iss|done..].
Qed.

Lemma blob_identity : parse_identity blob GRK_LEN = id.
Proof.
  destruct Hid as (H1 & H2 & H3). unfold parse_identity. destruct id as [rid priv grk dev]. cbn [rid_reader_id rid_sign_priv rid_grk rid_is_dev] in *.
  f_equal.
  - unfold blob, front. rewrite <- !app_assoc. by apply slice_mid.
  - unfold blob, front. rewrite <- !app_assoc. rewrite (app_assoc hdr). apply slice_mid; [|done]. by rewrite zlen_app, H1.
  - cbn [Z.eqb]. unfold blob, front. rewrite <- !app_assoc. rewrite (app_assoc hdr), (app_assoc (hdr ++ rid)).
    apply slice_mid; [|done]. by rewrite !zlen_app, H1, H2.
  - by destruct dev.
Qed.

Lemma get_be_index i :
  (i < Z.to_nat c)%nat ->
  get_be (slice (index i) 1 2) = row 0 (ts_cred_index ts) i /\ get_be (slice (index i) 3 2) = row 0 (ts_user_index ts) i.
Proof.
  intros Hi. split; unfold index.
  - rewrite slice_mid by done. apply get_put_be_id. by apply row_in_u; [|apply Hts].
  - rewrite app_assoc, <- (app_nil_r (put_be 2 (row 0 (ts_user_index ts) i))), slice_mid by done.
    apply get_put_be_id. by apply row_in_u; [|apply Hts].
Qed.

Lemma get_be_iss i :
  (i < Z.to_nat n)%nat ->
  slice (iss i) 0 65 = row [] (ts_issuer_pub ts) i /\
  get_be (slice (iss i) 65 2) = row 0 (ts_issuer_cred_index ts) i /\
  get_be (slice (iss i) 67 2) = row 0 (ts_issuer_user_index ts) i.
Proof.
  intros Hi. pose proof (st_ipub ts i Hts Hi) as Hl. split_and!; unfold iss.
  - by apply slice_front.
  - rewrite slice_mid by done. apply get_put_be_id. by apply row_in_u; [|apply Hts].
  - rewrite app_assoc, <- (app_nil_r (put_be 2 (row 0 (ts_issuer_user_index ts) i))), slice_mid by (done || by rewrite zlen_app, Hl).
    apply get_put_be_id. by apply row_in_u; [|apply Hts].
Qed.

Let back : trust_store := parse_store blob 87 c n true true true.

Lemma back_wf : wf back.
Proof.
  pose proof c_range. pose proof n_range. unfold back, parse_store.
  split; cbn [ts_count ts_cred_pub ts_kp_valid ts_kpersistent ts_cred_type ts_cred_index ts_user_index ts_anchor_issuer
    ts_issuer_count ts_issuer_pub ts_issuer_cred_index ts_issuer_user_index];
    try (rewrite length_rows_of by (unfold TRUST_MAX, ISSUER_MAX; lia); done).
  - done.
  - apply wrap_range. lia.
  - unfold rows_of. apply Forall_app. split; [|by apply Forall_replicate]. apply Forall_map, Forall_forall.
    intros i Hi%in_seq. unfold CRED_PUB_LEN, KPERSISTENT_LEN.
    rewrite blob_binding by lia. unfold row. rewrite nth_lookup.
    destruct (ts_anchor_issuer ts !! i) eqn:E; [|done]. eapply Forall_lookup_1; [apply (wf_ranges _ (proj1 Hts))|done].
  - unfold CRED_PUB_LEN, KPERSISTENT_LEN. by rewrite blob_issuers.
Qed.

Lemma back_abs : abs back = abs ts.
Proof.
  apply abs_ext; unfold back, parse_store; cbn [ts_count ts_issuer_count a_anchors a_issuers abs].
  - apply map_seq_ext. intros i Hi. fold c in Hi. destruct (get_be_index i Hi) as [E1 E2].
    unfold slot. cbn [ts_cred_pub ts_kp_valid ts_kpersistent ts_cred_type ts_cred_index ts_user_index ts_anchor_issuer].
    rewrite !row_rows_of by done. unfold CRED_PUB_LEN, KPERSISTENT_LEN.
    rewrite blob_pub, blob_mask, blob_kp, blob_binding, !blob_index, E1, E2 by (done || lia).
    pose proof c_range. assert (has_bit mask i = has_bit (ts_kp_valid ts) i) as Em by (apply mask_bits; lia).
    f_equal.
    + rewrite mask_bits, Em by lia. unfold kp. rewrite Em. by destruct (has_bit (ts_kp_valid ts) i).
    + rewrite byte_at_slice by lia.
      rewrite <- (Z.add_0_r (_ + Z.of_nat i * 5)), blob_index by (done || lia). done.
  - unfold CRED_PUB_LEN, KPERSISTENT_LEN. rewrite blob_issuers. apply map_seq_ext. intros i Hi. fold n in Hi. destruct (get_be_iss i Hi) as (E1 & E2 & E3).
    unfold islot. cbn [ts_issuer_pub ts_issuer_cred_index ts_issuer_user_index].
    rewrite !row_rows_of by done. change (65 + 4) with 69.
    f_equal.
    + rewrite <- E1, <- (Z.add_0_r (_ + Z.of_nat i * _)). by apply blob_iss.
    + rewrite <- E2. f_equal. by apply blob_iss.
    + rewrite <- E3. f_equal. rewrite <- Z.add_assoc. by apply blob_iss.
Qed.

Lemma blob_deserialize : prov_deserialize blob = Some (id, back).
Proof.
  pose proof c_range. pose proof n_range. pose proof blob_len as Hl. unfold prov_deserialize.
  rewrite (proj2 (Z.ltb_ge _ _)) by (unfold PROV_BLOB_HDR; lia).
  rewrite (bool_decide_eq_true_2 (take 4 blob = prov_magic)) by done. cbn [orb negb].
  change (byte_at blob 4) with PROV_VERSION. cbn [version_parts Z.eqb Pos.eqb].
  change (version_parts PROV_VERSION) with (Some (GRK_LEN, true, true, true)). cbv beta iota zeta.
  change (PROV_BLOB_HDR + READER_ID_LEN + READER_PRIV_LEN + GRK_LEN + 1) with 87.
  rewrite (proj2 (Z.ltb_ge (zlen blob) 87)) by lia. change (87 - 1) with 86. rewrite blob_count.
  unfold CRED_PUB_LEN, KPERSISTENT_LEN. cbn [andb].
  rewrite (proj2 (Z.ltb_ge (zlen blob) _)) by lia. rewrite (proj2 (Z.ltb_ge TRUST_MAX c)) by (unfold TRUST_MAX; lia).
  cbn [orb]. replace (87 + c * 65 + (1 + c * 32) + c * 5 + (c + 1) - 1) with (87 + c * 65 + 1 + c * 32 + c * 5 + c) by lia.
  rewrite blob_issuers, (proj2 (Z.ltb_ge ISSUER_MAX n)) by (unfold ISSUER_MAX; lia). cbn [orb].
  rewrite (proj2 (Z.eqb_eq (zlen blob) _)) by lia. cbn [negb]. by rewrite blob_identity.
Qed.
End Blob.

(** What is stored is what is loaded: for any well-formed identity and store
    and any buffer that is large enough, serialising succeeds, and
    deserialising gives the same identity and a well-formed store with the same
    anchors, each with its own fast-path key (or none), indices and issuer, and
    the same issuers, in the same order. *)
Theorem prov_roundtrip id ts cap :
  id_ok id -> storable ts -> serialized_size (ts_count ts) (ts_issuer_count ts) <= cap ->
  exists blob ts', prov_serialize id (Some ts) cap = Some blob /\ prov_deserialize blob = Some (id, ts') /\
    wf ts' /\ abs ts' = abs ts.
Proof.
  intros Hid Hts Hcap. do 2 eexists. split; [by apply blob_serialize|]. split; [by apply blob_deserialize|].
  split; [by apply back_wf|by apply back_abs].
Qed.

(** ** Lengths *)

Lemma byte_at_prefix b x i : 0 <= i < zlen b -> byte_at (b ++ x) i = byte_at b i.
Proof. intros H. unfold byte_at, zlen in *. apply app_nth1. lia. Qed.

(** The length a buffer announces. *)
Definition announced (b : list Z) : Z :=
  match version_parts (byte_at b 4) with
  | None => 0
  | Some (grk_len, has_kp, has_idx, has_issuers) =>
      let fixed := 71 + grk_len in
      let count := byte_at b (fixed - 1) in
      let want := fixed + count * 65 in
      let want := if has_kp then want + (1 + count * 32) else want in
      let want := if has_idx then want + count * 5 else want in
      if has_issuers then want + (count + 1) + byte_at b (want + (count + 1) - 1) * 69 else want
  end.

Lemma version_grk v g k i s : version_parts v = Some (g, k, i, s) -> 0 <= g.
Proof. unfold version_parts, GRK_LEN. repeat case_match; intros; simplify_eq; lia. Qed.

Lemma accepted_announced b x :
  Forall byte_ok b -> is_Some (prov_deserialize b) ->
  zlen b = announced b /\ announced (b ++ x) = announced b.
Proof.
  intros Hb [r Hr]. unfold prov_deserialize in Hr. unfold announced. destruct (_ || _) eqn:E0; [done|].
  unfold PROV_BLOB_HDR in *. rewrite byte_at_prefix by lia.
  destruct (version_parts (byte_at b 4)) as [[[[g k] i] s]|] eqn:Ev; [|done].
  pose proof (version_grk _ _ _ _ _ Ev) as Hg.
  change (6 + READER_ID_LEN + READER_PRIV_LEN) with 70 in Hr.
  replace (70 + g + 1) with (71 + g) in Hr by lia. unfold CRED_PUB_LEN, KPERSISTENT_LEN in Hr. cbv zeta in Hr |- *.
  destruct (Z.ltb_spec (zlen b) (71 + g)) as [|Hf]; [done|].
  rewrite byte_at_prefix by lia. set (count := byte_at b (71 + g - 1)) in *.
  assert (byte_ok count) as Hc by by apply byte_at_ok. unfold byte_ok in Hc.
  set (w := if i then (if k then 71 + g + count * 65 + (1 + count * 32) else 71 + g + count * 65) + count * 5
            else (if k then 71 + g + count * 65 + (1 + count * 32) else 71 + g + count * 65)) in *.
  assert (71 + g <= w) as Hw by (unfold w; destruct i, k; lia).
  destruct s; cbn [andb] in Hr.
  - destruct (Z.ltb_spec (zlen b) (w + (count + 1))) as [|Hl]; [done|]. cbn [orb] in Hr.
    destruct (TRUST_MAX <? count); [done|]. rewrite byte_at_prefix by lia.
    destruct (_ || _) eqn:E in Hr; [done|]. split; [lia|done].
  - destruct (_ || _) eqn:E in Hr; [done|]. split; [lia|done].
Qed.

(** C40: a blob is self-delimiting: when a buffer is accepted, no proper
    extension of it is, so a truncated or padded record is always refused and
    never read as a store with fewer or other anchors. *)
Theorem prov_blob_prefix_free b x :
  Forall byte_ok (b ++ x) -> is_Some (prov_deserialize b) -> is_Some (prov_deserialize (b ++ x)) -> x = [].
Proof.
  intros Hb H1 H2. destruct (accepted_announced b x) as [E1 E2]; [by apply Forall_app in Hb as [? _]|done|].
  destruct (accepted_announced (b ++ x) []) as [E3 _]; [done|done|].
  rewrite E2, <- E1, zlen_app in E3. destruct x; [done|]. rewrite zlen_cons in E3. pose proof (zlen_nonneg x). lia.
Qed.
