(* ===== verification/ProvSafety.v ===== *)
(** * What the trust store guarantees

    Runs of operations from an empty store: the refinement of the abstract
    store as one statement, the ownership of the fast-path keys, and the
    revocation of an issuer. *)

From Stdlib Require Import ZArith Lia Bool.
From stdpp Require Import base list numbers option.
From S2P Require Import Prelude Wire Prov ProvProps ProvBlob.

Local Open Scope Z_scope.
Local Open Scope uwl_scope.

Inductive prov_op :=
  | PAdd (pub : list Z)
  | PRemoveAt (idx : Z)
  | PRemove (pub : list Z)
  | PBind (idx cred_type cred_index user_index : Z)
  | PSetKp (idx : Z) (kp : list Z)
  | PIssuerAdd (pub : list Z) (cred_index user_index : Z)
  | PIssuerRemove (idx : Z)
  | PBindIssuer (idx issuer_slot : Z).

Definition p_run (ts : trust_store) (op : prov_op) : trust_store * Z :=
  match op with
  | PAdd pub => prov_trust_add ts pub
  | PRemoveAt idx => prov_trust_remove_at ts idx
  | PRemove pub => prov_trust_remove ts pub
  | PBind idx ty ci ui => prov_cred_bind_set ts idx ty ci ui
  | PSetKp idx kp => prov_kpersistent_set ts idx kp
  | PIssuerAdd pub ci ui => prov_issuer_add ts pub ci ui
  | PIssuerRemove idx => prov_issuer_remove_at ts idx
  | PBindIssuer idx sl => prov_anchor_issuer_set ts idx sl
  end.

Definition a_run (s : astore) (op : prov_op) : astore * Z :=
  match op with
  | PAdd pub => a_add s pub
  | PRemoveAt idx => a_remove_at s idx
  | PRemove pub => a_remove s pub
  | PBind idx ty ci ui => a_bind s idx ty ci ui
  | PSetKp idx kp => a_set_kp s idx kp
  | PIssuerAdd pub ci ui => a_issuer_add s pub ci ui
  | PIssuerRemove idx => a_issuer_remove s idx
  | PBindIssuer idx sl => a_bind_issuer s idx sl
  end.

(** The widths of what callers pass. *)
Definition prov_op_ok (op : prov_op) : Prop :=
  match op with
  | PAdd pub => zlen pub = CRED_PUB_LEN
  | PSetKp _ kp => zlen kp = KPERSISTENT_LEN
  | PBind _ ty ci ui => in_u 8 ty /\ in_u 16 ci /\ in_u 16 ui
  | PIssuerAdd pub ci ui => zlen pub = CRED_PUB_LEN /\ in_u 16 ci /\ in_u 16 ui
  | _ => True
  end.

Lemma p_run_refines ts op : wf ts -> refines (p_run ts op) (a_run (abs ts) op).
Proof.
  destruct op; cbn [p_run a_run]; [apply add_refines|apply remove_at_refines|apply remove_refines|apply bind_refines
    |apply set_kp_refines|apply issuer_add_refines|apply issuer_remove_refines|apply bind_issuer_refines].
Qed.

(** C26: the parallel arrays and the bit mask implement the abstract store: every
    operation on a well-formed store leaves a well-formed store, does to the
    list of anchors and the list of issuers what the abstract operation does
    (eviction of the first anchor that never completed a standard phase when
    the store is full; removal with every later anchor keeping its own
    fast-path key; an issuer's removal with all it vouched for) and returns its
    result; and the membership test and the searches are those of the lists. *)
Theorem prov_refines ts op pub ty ci :
  wf ts ->
  refines (p_run ts op) (a_run (abs ts) op) /\
  prov_trust_check ts pub =
    match a_anchors (abs ts) with [] => 1 | l => if existsb (has_pub pub) l then 0 else -1 end /\
  prov_trust_find ts pub = slot_code (first_at (has_pub pub) (a_anchors (abs ts))) /\
  prov_find_cred_index ts ty ci =
    (if (ty =? 0) || (ci =? 0) then -1
     else slot_code (first_at (fun a => (an_type a =? ty) && (an_cred_index a =? ci)) (a_anchors (abs ts)))) /\
  prov_issuer_find ts pub = slot_code (first_at (has_key pub) (a_issuers (abs ts))) /\
  prov_issuer_find_index ts ci =
    (if ci =? 0 then -1 else slot_code (first_at (fun i => is_cred_index i =? ci) (a_issuers (abs ts)))).
Proof.
  intros W. split_and!; [by apply p_run_refines|by apply trust_check_spec|by apply trust_find_spec
    |by apply find_cred_index_spec|by apply issuer_find_spec|by apply issuer_find_index_spec].
Qed.

(** ** Histories *)

(** What concerns the fast-path keys: an anchor was added, or a key was agreed
    with the anchor that holds this public key. *)
Inductive prov_event := EvAdded (pub : list Z) | EvAgreed (pub kp : list Z).

Definition op_event (ts : trust_store) (op : prov_op) (rc : Z) : list prov_event :=
  match op with
  | PAdd pub => if (rc =? 0) || (rc =? 2) then [EvAdded pub] else []
  | PSetKp idx kp => if rc =? 0 then [EvAgreed (row [] (ts_cred_pub ts) (Z.to_nat idx)) kp] else []
  | _ => []
  end.

(** The newest event first. *)
Fixpoint agreed (history : list prov_event) (pub : list Z) : option (list Z) :=
  match history with
  | [] => None
  | EvAdded p :: rest => if bool_decide (p = pub) then None else agreed rest pub
  | EvAgreed p kp :: rest => if bool_decide (p = pub) then Some kp else agreed rest pub
  end.

Inductive provisioned : trust_store -> list prov_event -> Prop :=
  | prov_empty : provisioned ts_zero []
  | prov_step ts h op :
      provisioned ts h -> prov_op_ok op -> provisioned (p_run ts op).1 (op_event ts op (p_run ts op).2 ++ h).

Record store_inv (s : astore) (h : list prov_event) : Prop := {
  si_nodup : NoDup (map an_pub (a_anchors s));
  si_kp : Forall (fun a => an_kp a = agreed h (an_pub a)) (a_anchors s);
  si_issuer : Forall (fun a => 0 <= an_issuer a <= zlen (a_issuers s)) (a_anchors s);
}.

Lemma map_alter_same {A B} (g : A -> B) f i (l : list A) : (forall x, g (f x) = g x) -> map g (alter f i l) = map g l.
Proof.
  intros H. revert i. induction l as [|x l IH]; intros [|i]; try done; cbn.
  - by rewrite H.
  - f_equal. apply IH.
Qed.

Lemma Forall_alter_all {A} (P : A -> Prop) f i (l : list A) : Forall P l -> (forall x, P x -> P (f x)) -> Forall P (alter f i l).
Proof. intros Hl Hf. apply Forall_alter; [done|]. intros x Hx Hp. by apply Hf. Qed.

(** A sublist of the anchors, each the same up to its indices. *)
Lemma store_inv_delete s h i :
  store_inv s h -> store_inv (s <| a_anchors := delete i (a_anchors s) |>) h.
Proof.
  intros []. split; cbn [field_set a_anchors a_issuers].
  - eapply sublist_NoDup; [exact si_nodup0|]. apply fmap_sublist, sublist_delete.
  - by apply Forall_delete.
  - by apply Forall_delete.
Qed.

Lemma store_inv_add s h pub :
  store_inv s h -> existsb (has_pub pub) (a_anchors s) = false ->
  store_inv (s <| a_anchors := a_anchors s ++ [new_anchor pub] |>) (EvAdded pub :: h).
Proof.
  intros [] Hn. assert (forall a, In a (a_anchors s) -> an_pub a <> pub) as Hne.
  { intros a Ha Hp. apply not_true_iff_false in Hn. apply Hn, existsb_exists. exists a. split; [done|].
    unfold has_pub. by apply bool_decide_eq_true_2. }
  split; cbn [field_set a_anchors a_issuers].
  - rewrite map_app. cbn [map]. apply list.NoDup_app. split_and!; [done| |apply NoDup_singleton].
    intros x [a [-> Ha]]%list_elem_of_fmap Hx. apply list_elem_of_singleton in Hx. by apply (Hne a); [apply list_elem_of_In|].
  - apply Forall_app. split; [|constructor; [|constructor]].
    + apply Forall_forall. intros a Ha. rewrite Forall_forall in si_kp0. rewrite si_kp0 by done. cbn [agreed].
      rewrite bool_decide_eq_false_2; [done|]. intros Hp. by apply (Hne a).
    + cbn. by rewrite bool_decide_eq_true_2.
  - apply Forall_app. split; [done|]. constructor; [|constructor]. cbn. pose proof (zlen_nonneg (a_issuers s)).
    unfold ANCHOR_ISSUER_NONE. lia.
Qed.

(** An update that keeps the public keys and the fast-path keys. *)
Lemma store_inv_alter s h i f :
  store_inv s h -> (forall a, an_pub (f a) = an_pub a) -> (forall a, an_kp (f a) = an_kp a) ->
  (forall a, 0 <= an_issuer a <= zlen (a_issuers s) -> 0 <= an_issuer (f a) <= zlen (a_issuers s)) ->
  store_inv (s <| a_anchors := alter f i (a_anchors s) |>) h.
Proof.
  intros [] Hp Hk Hi. split; cbn [field_set a_anchors a_issuers].
  - by rewrite map_alter_same.
  - apply Forall_alter_all; [done|]. intros a Ha. by rewrite Hk, Hp.
  - by apply Forall_alter_all.
Qed.

(** A key agreed with one anchor says nothing of the others. *)
Lemma store_inv_agreed s h i a kp :
  store_inv s h -> a_anchors s !! i = Some a ->
  store_inv (s <| a_anchors := alter (fun a => a <| an_kp := Some kp |>) i (a_anchors s) |>) (EvAgreed (an_pub a) kp :: h).
Proof.
  intros [] Hl. split; cbn [field_set a_anchors a_issuers].
  - by rewrite map_alter_same.
  - apply Forall_lookup_2. intros j b Hb. rewrite list_lookup_alter in Hb. case_decide as Hij.
    + subst j. rewrite Hl in Hb. injection Hb as <-. cbn. by rewrite bool_decide_eq_true_2.
    + cbn [agreed]. rewrite bool_decide_eq_false_2; [exact (Forall_lookup_1 _ _ _ _ si_kp0 Hb)|].
      intros Hp. apply Hij. eapply (NoDup_lookup (map an_pub (a_anchors s))); [done| |].
      * rewrite list_lookup_fmap, Hl. done.
      * rewrite list_lookup_fmap, Hb. cbn. by rewrite Hp.
  - by apply Forall_alter_all.
Qed.

Lemma follow_pub bound a : an_pub (follow bound a) = an_pub a.
Proof. unfold follow. by destruct (bound <? an_issuer a). Qed.

Lemma store_inv_issuer_remove s h idx :
  store_inv s h -> occupied (a_issuers s) idx = true -> store_inv (a_issuer_remove s idx).1 h.
Proof.
  intros [] Ho. unfold a_issuer_remove. rewrite Ho. cbn [fst]. unfold occupied in Ho.
  set (kept := List.filter _ _). assert (forall a, In a kept -> In a (a_anchors s) /\ an_issuer a <> idx + 1) as Hk.
  { intros a [H1 H2]%filter_In. split; [done|]. unfold vouched in H2. lia. }
  assert (sublist kept (a_anchors s)) as Hsub.
  { unfold kept. clear. induction (a_anchors s) as [|a l IH]; [constructor|]. cbn [List.filter].
    destruct (negb _); by constructor. }
  split; cbn [a_anchors a_issuers].
  - rewrite map_map, (map_ext _ _ (follow_pub (idx + 1))).
    eapply sublist_NoDup; [exact si_nodup0|]. by apply fmap_sublist.
  - apply Forall_map, Forall_forall. intros a Ha. destruct (Hk a Ha) as [H1 _]. rewrite Forall_forall in si_kp0.
    unfold follow. destruct (idx + 1 <? an_issuer a); exact (si_kp0 a H1).
  - apply Forall_map, Forall_forall. intros a Ha. destruct (Hk a Ha) as [H1 H2]. rewrite Forall_forall in si_issuer0.
    specialize (si_issuer0 a H1). cbn beta.
    assert (zlen (delete (Z.to_nat idx) (a_issuers s)) = zlen (a_issuers s) - 1) as ->.
    { unfold zlen in *. rewrite length_delete; [lia|]. apply lookup_lt_is_Some. lia. }
    unfold follow. destruct (Z.ltb_spec (idx + 1) (an_issuer a)); cbn; lia.
Qed.

Lemma row_pub ts i : row [] (ts_cred_pub ts) i = an_pub (slot ts i).
Proof. done. Qed.

Lemma lookup_anchor ts i : wf ts -> 0 <= i < ts_count ts -> a_anchors (abs ts) !! Z.to_nat i = Some (slot ts (Z.to_nat i)).
Proof. intros [] Hi. unfold abs. cbn [a_anchors]. rewrite lookup_map_seq. by rewrite decide_True by lia. Qed.

(** One operation. *)
Lemma store_inv_step ts h op :
  wf ts -> store_inv (abs ts) h -> store_inv (a_run (abs ts) op).1 (op_event ts op (a_run (abs ts) op).2 ++ h).
Proof.
  intros W I. destruct op; cbn [a_run op_event].
  - unfold a_add. destruct (negb _); [done|]. destruct (existsb _ _) eqn:Ee; [done|].
    destruct (_ <=? _); [|by apply store_inv_add]. set (v := default O _).
    refine (store_inv_add ((abs ts) <| a_anchors := delete v (a_anchors (abs ts)) |>) h pub _ _).
    + by apply store_inv_delete.
    + cbn [field_set a_anchors]. apply not_true_iff_false. intros (a & Ha & Hp)%existsb_exists.
      apply not_true_iff_false in Ee. apply Ee, existsb_exists. exists a. split; [|done].
      rewrite delete_take_drop in Ha. rewrite <- (take_drop v (a_anchors (abs ts))). apply in_app_iff in Ha as [Ha|Ha]; apply in_app_iff; [by left|right].
      destruct (drop v _) eqn:Ed; rewrite <- Nat.add_1_r, <- drop_drop, Ed in Ha; [done|by right].
  - unfold a_remove_at. destruct (occupied _ _); [by apply store_inv_delete|done].
  - unfold a_remove. destruct (first_at _ _); [by apply store_inv_delete|done].
  - unfold a_bind. destruct (occupied _ _); [by apply store_inv_alter|done].
  - unfold a_set_kp. destruct (occupied _ _) eqn:E; [|done]. cbn [fst snd Z.eqb app]. rewrite row_pub.
    unfold occupied in E. rewrite zlen_anchors in E by done. apply store_inv_agreed; [done|]. apply lookup_anchor; [done|lia].
  - unfold a_issuer_add. destruct (negb _); [done|]. destruct (first_at _ _) as [n|].
    + destruct I. split; try done. cbn [fst field_set a_issuers a_anchors]. unfold zlen in *. by rewrite length_alter.
    + destruct (_ <=? _); [done|]. destruct I. split; try done. cbn [fst field_set a_issuers a_anchors].
      rewrite zlen_app. eapply Forall_impl; [|exact si_issuer0]. intros a Ha. cbn beta in Ha. change (zlen [_]) with 1. lia.
  - destruct (occupied (a_issuers (abs ts)) idx) eqn:E; [by apply store_inv_issuer_remove|].
    unfold a_issuer_remove. by rewrite E.
  - unfold a_bind_issuer. destruct (_ && _) eqn:E; [|done]. apply andb_true_iff in E as [_ E]. unfold occupied in E.
    apply store_inv_alter; try done. intros a Ha. cbn [field_set an_issuer]. lia.
Qed.

Lemma provisioned_inv ts h : provisioned ts h -> wf ts /\ store_inv (abs ts) h.
Proof.
  induction 1 as [|ts h op _ [W I] _].
  - split; [apply wf_zero|]. split; cbn; constructor.
  - destruct (p_run_refines ts op W) as (W' & Ha & Hrc). split; [done|]. rewrite Ha, Hrc. by apply store_inv_step.
Qed.

(** C27: a fast-path key never changes hands.  In every store the operations reach
    from an empty one, whatever was evicted, removed and shifted, the anchors'
    public keys are pairwise different and an anchor's fast-path key is exactly
    the last one agreed with that same public key since it was last added; an
    anchor with which none was agreed since has none. *)
Theorem prov_fast_key_owned ts h :
  provisioned ts h ->
  NoDup (map an_pub (a_anchors (abs ts))) /\
  forall i, 0 <= i < ts_count ts ->
    (if has_bit (ts_kp_valid ts) (Z.to_nat i) then Some (row [] (ts_kpersistent ts) (Z.to_nat i)) else None)
    = agreed h (row [] (ts_cred_pub ts) (Z.to_nat i)).
Proof.
  intros [W []]%provisioned_inv. split; [done|]. intros i Hi.
  pose proof (Forall_lookup_1 _ _ _ _ si_kp0 (lookup_anchor ts i W Hi)) as H. exact H.
Qed.

(** The public key of the issuer that vouched for an anchor. *)
Definition voucher (s : astore) (a : anchor) : option (list Z) :=
  if an_issuer a =? ANCHOR_ISSUER_NONE then None else is_pub <$> a_issuers s !! Z.to_nat (an_issuer a - 1).

(** Revoking an issuer takes exactly its own anchors.  In every store the
    operations reach, removing the issuer in slot [idx] drops precisely the
    anchors that slot vouched for and returns their number; every other anchor
    keeps its place in the order, its public key, its fast-path key, its
    indices and the very issuer key that vouched for it, or none. *)
Theorem prov_issuer_revoked ts h idx :
  provisioned ts h -> 0 <= idx < ts_issuer_count ts ->
  let r := prov_issuer_remove_at ts idx in
  let s := abs ts in
  let s' := abs r.1 in
  let view s a := (an_pub a, an_kp a, an_type a, an_cred_index a, an_user_index a, voucher s a) in
  map (view s') (a_anchors s') = map (view s) (List.filter (fun a => negb (an_issuer a =? idx + 1)) (a_anchors s)) /\
  r.2 = zlen (List.filter (fun a => an_issuer a =? idx + 1) (a_anchors s)) /\
  a_issuers s' = delete (Z.to_nat idx) (a_issuers s).
Proof.
  intros [W I]%provisioned_inv Hidx r s s' view. destruct (issuer_remove_refines ts idx W) as (_ & Ha & Hrc).
  fold r s' in Ha, Hrc. unfold a_issuer_remove in Ha, Hrc. rewrite occupied_issuers in Ha, Hrc by done.
  destruct (Z.ltb_spec idx 0); [lia|]. destruct (Z.leb_spec (ts_issuer_count ts) idx); [lia|].
  cbn [orb negb fst snd] in Ha, Hrc. split_and!; [|exact Hrc|by rewrite Ha].
  rewrite Ha. cbn [a_anchors]. rewrite map_map. unfold s. apply map_ext_in. intros a [Hin Hv]%filter_In.
  destruct I. rewrite Forall_forall in si_issuer0. specialize (si_issuer0 a Hin). cbn beta in si_issuer0.
  unfold view, follow, voucher, vouched in *. cbn [a_issuers]. unfold ANCHOR_ISSUER_NONE.
  destruct (Z.ltb_spec (idx + 1) (an_issuer a)) as [Hgt|Hle]; cbn [field_set an_pub an_kp an_type an_cred_index an_user_index an_issuer].
  - destruct (Z.eqb_spec (an_issuer a - 1) 0); [lia|]. destruct (Z.eqb_spec (an_issuer a) 0); [lia|]. do 2 f_equal.
    rewrite list_lookup_delete_ge by lia. f_equal. lia.
  - destruct (Z.eqb_spec (an_issuer a) 0); [done|]. do 2 f_equal. by rewrite list_lookup_delete_lt by lia.
Qed.

(** ** Types *)

Ltac typed_solve :=
  split; cbn [field_set ts_count ts_cred_pub ts_kp_valid ts_kpersistent ts_cred_type ts_cred_index
    ts_user_index ts_anchor_issuer ts_issuer_count ts_issuer_pub ts_issuer_cred_index ts_issuer_user_index];
  try done; try (apply Forall_insert; [done|]); try done.

Lemma typed_zero : typed ts_zero.
Proof. split; try (by apply in_u_all); repeat constructor. Qed.

Lemma typed_fill ts i pub : typed ts -> zlen pub = CRED_PUB_LEN -> typed (fill_slot ts i pub).
Proof. intros [] Hp. unfold fill_slot. typed_solve. Qed.

Lemma typed_shift ts i : wf ts -> (S i < 6)%nat -> typed ts -> typed (shift_slot ts i).
Proof.
  intros [] Hi []. unfold shift_slot. typed_solve.
  1, 2: apply (Forall_row (fun r => zlen r = _)); [done|left; lia].
  all: by apply row_in_u.
Qed.

Lemma typed_set_issuer ts i pub ci ui :
  typed ts -> zlen pub = CRED_PUB_LEN -> in_u 16 ci -> in_u 16 ui -> typed (set_issuer ts i pub ci ui).
Proof. intros [] Hp Hc Hu. unfold set_issuer. typed_solve. Qed.

Lemma typed_loop n a ts : wf ts -> (a + n < 6)%nat -> typed ts -> typed (fold_left shift_slot (seq a n) ts).
Proof.
  revert a ts. induction n as [|n IH]; intros a ts W Hn T; cbn [seq fold_left]; [done|].
  apply IH; [apply wf_shift; [done|lia]|lia|]. apply typed_shift; [done|lia|done].
Qed.

Lemma typed_remove_at ts idx : wf ts -> typed ts -> typed (prov_trust_remove_at ts idx).1.
Proof.
  intros W T. pose proof W as []. unfold prov_trust_remove_at. destruct (_ || _) eqn:E; [done|].
  unfold TRUST_MAX in *. cbn [fst]. apply typed_fill; [|done].
  pose proof (typed_loop (Z.to_nat (ts_count ts - 1 - idx)) (Z.to_nat idx) ts W ltac:(lia) T) as [].
  by split.
Qed.

Lemma typed_append ts pub : typed ts -> zlen pub = CRED_PUB_LEN -> typed (append_slot ts pub).
Proof. intros T Hp. destruct (typed_fill ts (Z.to_nat (ts_count ts)) pub T Hp). by split. Qed.

Lemma typed_unbind bound l acc :
  wf acc.1 -> typed acc.1 -> Forall (fun i => (i < 6)%nat) l -> 0 < bound -> typed (fold_left (unbind_slot bound) l acc).1.
Proof.
  intros W T Hl Hb. revert acc W T. induction Hl as [|i l Hi Hl IH]; intros [ts d] W T; [done|].
  cbn [fold_left fst] in *. unfold unbind_slot at 2. destruct (_ =? _).
  { apply IH; cbn [fst]; [apply (remove_at_refines ts _ W)|by apply typed_remove_at]. }
  destruct (Z.ltb_spec bound (row 0 (ts_anchor_issuer ts) i)); apply IH; cbn [fst]; try done.
  - destruct W. split; try done; cbn; rewrite ?length_insert; try done. apply Forall_insert; [done|apply wrap_range; lia].
  - by destruct T.
Qed.

Lemma typed_issuer_loop n a ts : wf ts -> (a + n < 5)%nat -> typed ts -> typed (fold_left shift_issuer (seq a n) ts).
Proof.
  revert a ts. induction n as [|n IH]; intros a ts W Hn T; cbn [seq fold_left]; [done|]. pose proof W as []. pose proof T as [].
  apply IH; [by apply wf_set_issuer|lia|]. apply typed_set_issuer; [done| |by apply row_in_u..].
  apply (Forall_row (fun r => zlen r = CRED_PUB_LEN)); [done|left; lia].
Qed.

Lemma p_run_typed ts op : storable ts -> prov_op_ok op -> storable (p_run ts op).1.
Proof.
  intros [W T] Hop. split; [by apply p_run_refines|]. pose proof T as []. destruct op; cbn [p_run prov_op_ok] in *.
  - unfold prov_trust_add. destruct (negb _); [done|]. destruct (_ =? 0); [done|]. destruct (_ <=? _); [|by apply typed_append].
    pose proof (typed_remove_at ts (Z.of_nat (victim ts)) W T) as H.
    destruct (prov_trust_remove_at _ _) as [ts1 rc]. destruct (negb _); [done|]. by apply typed_append.
  - by apply typed_remove_at.
  - unfold prov_trust_remove. destruct (_ <? 0); [done|by apply typed_remove_at].
  - unfold prov_cred_bind_set. destruct (_ || _); [done|]. destruct Hop as (? & ? & ?). typed_solve.
  - unfold prov_kpersistent_set. destruct (_ || _); [done|]. typed_solve.
  - unfold prov_issuer_add. destruct (negb _); [done|]. destruct Hop as (? & ? & ?). destruct (0 <=? _); [typed_solve|].
    destruct (_ <=? _); [done|]. cbn [fst].
    destruct (typed_set_issuer ts (Z.to_nat (ts_issuer_count ts)) pub cred_index user_index T) as []; try done.
  - unfold prov_issuer_remove_at. destruct (_ || _) eqn:E; [done|]. pose proof W as []. unfold ISSUER_MAX, TRUST_MAX in *.
    assert (u8 (idx + 1) = idx + 1) as -> by (apply wrap_id; unfold in_u; lia).
    destruct (unbind_loop (idx + 1) (Z.to_nat (ts_count ts)) ts 0 W) as (W1 & Hi1 & _ & _); [lia|lia|].
    assert (typed (fold_left (unbind_slot (idx + 1)) (rev (seq 0 (Z.to_nat (ts_count ts)))) (ts, 0)).1) as T1.
    { apply typed_unbind; [done|done| |lia]. apply Forall_forall. intros i Hi. apply in_rev, in_seq in Hi. lia. }
    destruct (fold_left (unbind_slot (idx + 1)) _ (ts, 0)) as [ts1 d1]. cbn [fst snd] in *.
    assert (ts_issuer_count ts1 = ts_issuer_count ts) as Hic1 by (by rewrite <- !zlen_issuers, Hi1).
    apply typed_set_issuer; [|done|by cbn|by cbn].
    pose proof (typed_issuer_loop (Z.to_nat (ts_issuer_count ts1 - 1 - idx)) (Z.to_nat idx) ts1 W1 ltac:(lia) T1) as [].
    by split.
  - unfold prov_anchor_issuer_set. destruct (_ || _ || _ || _); [done|]. by destruct T.
Qed.

Lemma provisioned_storable ts h : provisioned ts h -> storable ts.
Proof. induction 1; [split; [apply wf_zero|apply typed_zero]|by apply p_run_typed]. Qed.

(** Every operation, given arguments of their C widths, keeps every field of
    the store within its C type and array bounds: six rows of 65 and 32 bytes,
    one byte or two per index, a mask of one byte, counts within capacity. *)
Theorem prov_types ts op : storable ts -> prov_op_ok op -> storable (p_run ts op).1.
Proof. apply p_run_typed. Qed.

(** ** Concrete runs *)

Definition toy_key (n : Z) : list Z := 4 :: replicate 64 n.
Definition toy_kp : list Z := replicate 32 7.

(** Two anchors, a fast-path key agreed with the second, two issuers, each
    vouching for one anchor. *)
Definition toy_ops : list prov_op :=
  [PAdd (toy_key 1); PAdd (toy_key 2); PSetKp 1 toy_kp; PBind 1 7 1 3; PIssuerAdd (toy_key 8) 1 1;
   PIssuerAdd (toy_key 9) 2 1; PBindIssuer 0 0; PBindIssuer 1 1].

Definition toy_store (ops : list prov_op) : trust_store * list prov_event :=
  fold_left (fun s op => ((p_run s.1 op).1, op_event s.1 op (p_run s.1 op).2 ++ s.2)) ops (ts_zero, []).

Lemma toy_provisioned ops :
  Forall prov_op_ok ops -> provisioned (toy_store ops).1 (toy_store ops).2.
Proof.
  intros H. unfold toy_store. assert (provisioned (ts_zero, [] : list prov_event).1 (ts_zero, [] : list prov_event).2) as P by apply prov_empty.
  revert P. generalize (ts_zero, [] : list prov_event). induction H as [|op ops Hop _ IH]; intros s P; [done|].
  cbn [fold_left]. apply IH. cbn [fst snd]. by constructor.
Qed.

Lemma toy_ops_ok : Forall prov_op_ok toy_ops.
Proof. unfold toy_ops. repeat (constructor; [cbn; unfold in_u; split_and?; (done || lia)|]). constructor. Qed.

Lemma prov_refines_witness :
  refines (p_run (toy_store toy_ops).1 (PRemoveAt 0)) (a_run (abs (toy_store toy_ops).1) (PRemoveAt 0)) /\
  prov_trust_find (toy_store toy_ops).1 (toy_key 2) = 1.
Proof.
  assert (wf (toy_store toy_ops).1) as W.
  { eapply provisioned_inv, toy_provisioned. exact toy_ops_ok. }
  destruct (prov_refines (toy_store toy_ops).1 (PRemoveAt 0) (toy_key 2) 7 1 W) as (H1 & _ & H3 & _).
  split; [exact H1|]. rewrite H3. by vm_compute.
Defined.

(** After the first anchor is removed the second still owns its key. *)
Lemma prov_fast_key_owned_witness :
  let ts := (toy_store (toy_ops ++ [PRemoveAt 0])).1 in
  (if has_bit (ts_kp_valid ts) 0 then Some (row [] (ts_kpersistent ts) 0) else None) = Some toy_kp.
Proof.
  intros ts. assert (provisioned ts (toy_store (toy_ops ++ [PRemoveAt 0])).2) as P.
  { apply toy_provisioned, Forall_app. split; [exact toy_ops_ok|by repeat constructor]. }
  destruct (prov_fast_key_owned ts _ P) as [_ H]. etransitivity; [apply (H 0); by vm_compute|by vm_compute].
Defined.

Lemma prov_issuer_revoked_witness :
  let r := prov_issuer_remove_at (toy_store toy_ops).1 0 in
  r.2 = 1 /\ map (fun a => (an_pub a, voucher (abs r.1) a)) (a_anchors (abs r.1)) = [(toy_key 2, Some (toy_key 9))].
Proof.
  assert (provisioned (toy_store toy_ops).1 (toy_store toy_ops).2) as P by (apply toy_provisioned; exact toy_ops_ok).
  destruct (prov_issuer_revoked _ _ 0 P) as (_ & H2 & _); [by vm_compute|].
  split; [rewrite H2; by vm_compute|by vm_compute].
Defined.

Lemma prov_types_witness : storable (p_run ts_zero (PAdd (toy_key 1))).1.
Proof. apply prov_types; [split; [apply wf_zero|apply typed_zero]|done]. Defined.

Lemma prov_roundtrip_witness :
  exists blob ts', prov_serialize prov_dev_default.1 (Some (toy_store toy_ops).1) 1000 = Some blob /\
    prov_deserialize blob = Some (prov_dev_default.1, ts') /\ wf ts' /\ abs ts' = abs (toy_store toy_ops).1.
Proof.
  apply prov_roundtrip; [by split_and!| |by vm_compute].
  eapply provisioned_storable, toy_provisioned. exact toy_ops_ok.
Defined.

Definition toy_blob : list Z := default [] (prov_serialize prov_dev_default.1 None 1000).

Lemma prov_blob_prefix_free_witness :
  is_Some (prov_deserialize toy_blob) /\ prov_deserialize (toy_blob ++ [0]) = None.
Proof.
  assert (is_Some (prov_deserialize toy_blob)) as H1 by (vm_compute; by eexists).
  split; [exact H1|]. apply eq_None_not_Some. intros H2.
  pose proof (prov_blob_prefix_free toy_blob [0] ltac:(by apply bytes_all; vm_compute) H1 H2) as H. discriminate H.
Defined.
