(* ===== verification/Cbor.v ===== *)
(** * The CBOR cursor of the step-up parser

    Models the cursor of [modules/ultrawidelock_cred/src/ultrawidelock_stepup_parse.c]:
    [cb_head], [cb_skip] and the typed readers over a pair of pointers into
    memory.  Memory is a function from addresses to bytes, so a read outside
    the buffer is a read like any other and its absence is a theorem.

    A parser either yields a value and the cursor behind it, or fails ([Bad]),
    or runs out of fuel ([NoFuel]); only loops spend fuel, each getting one turn
    per byte that is left and one more.  The second half is a small program
    logic: [sound] says at once that a parser depends on nothing outside the
    buffer, moves the cursor forwards inside it, never runs out of fuel, and
    yields values that satisfy a predicate. *)

From Stdlib Require Import ZArith Lia Bool.
From stdpp Require Import base list numbers option.
From S2P Require Import Prelude Wire.

Local Open Scope Z_scope.
Local Open Scope uwl_scope.

Definition CB_MAX_DEPTH : nat := 20.

Definition memory : Type := Z -> Z.

Record cbor := { cb_p : Z; cb_end : Z }.

#[export] Instance cbor_eta : Eta cbor := fun c => {| cb_p := cb_p c; cb_end := cb_end c |}.

(** A pointer into the buffer with a length. *)
Record slice := { sl_off : Z; sl_len : Z }.

#[export] Instance slice_eq_dec : EqDecision slice.
Proof. solve_decision. Defined.

Definition cb_left (c : cbor) : Z := cb_end c - cb_p c.

(** The [n] bytes at [p]. *)
Definition load (m : memory) (p n : Z) : list Z := map (fun i => m (p + Z.of_nat i)) (seq 0 (Z.to_nat n)).

(** A buffer in memory, at address 0. *)
Definition mem_of (buf : list Z) : memory := byte_at buf.

(** ** Parsers *)

Inductive result (A : Type) := Ok (a : A) (c : cbor) | Bad | NoFuel.
Arguments Ok {A} a c.
Arguments Bad {A}.
Arguments NoFuel {A}.

Definition parser (A : Type) : Type := memory -> cbor -> result A.

#[export] Instance parser_ret : MRet parser := fun A a _ c => Ok a c.
#[export] Instance parser_bind : MBind parser := fun A B k p m c =>
  match p m c with Ok a c' => k a m c' | Bad => Bad | NoFuel => NoFuel end.

Definition bad {A} : parser A := fun _ _ => Bad.

(** [if (!b) return -1;] *)
Definition require (b : bool) : parser unit := if b then mret tt else bad.

Definition cursor : parser cbor := fun _ c => Ok c c.

(** The bytes a slice points to. *)
Definition bytes_of (s : slice) : parser (list Z) := fun m c => Ok (load m (sl_off s) (sl_len s)) c.

(** A parse on a copy of the cursor, whose failure is no error. *)
Definition attempt {A} (p : parser A) : parser (option A) := fun m c =>
  match p m c with Ok a _ => Ok (Some a) c | Bad => Ok None c | NoFuel => NoFuel end.

(** A parse on another cursor. *)
Definition at_cursor {A} (c' : cbor) (p : parser A) : parser A := fun m c =>
  match p m c' with Ok a _ => Ok a c | Bad => Bad | NoFuel => NoFuel end.

Definition slice_cursor (s : slice) : cbor := {| cb_p := sl_off s; cb_end := sl_off s + sl_len s |}.

(** [for (i = 0; i < n; i++)], its body free to leave early with a result. *)
Inductive turn (S R : Type) := Next (s : S) | Stop (r : R).
Arguments Next {S R} s.
Arguments Stop {S R} r.

Fixpoint loop {S R} (fuel : nat) (n : Z) (body : S -> parser (turn S R)) (s : S) : parser (turn S R) :=
  if n <=? 0 then mret (Next s) else
  match fuel with
  | O => fun _ _ => NoFuel
  | Datatypes.S f =>
      t ← body s;
      match t with
      | Next s' => loop f (n - 1) body s'
      | Stop r => mret (Stop r)
      end
  end.

Definition for_until {S R} (n : Z) (body : S -> parser (turn S R)) (s : S) : parser (turn S R) :=
  c ← cursor; loop (Datatypes.S (Z.to_nat (cb_left c))) n body s.

(** The loop without an early exit. *)
Definition for_each {S} (n : Z) (body : S -> parser S) (s : S) : parser S :=
  t ← for_until n (fun s => s' ← body s; mret (@Next S Empty_set s')) s;
  match t with Next s' => mret s' | Stop e => match e : Empty_set with end end.

(** ** The readers *)

Definition cb_head : parser (Z * Z) := fun m c =>
  if cb_end c <=? cb_p c then Bad else
  let ib := m (cb_p c) in
  let c := c <| cb_p := cb_p c + 1 |> in
  let ai := Z.land ib 0x1f in
  let mt := Z.shiftr ib 5 in
  if ai <? 24 then Ok (mt, ai) c else
  let need := if ai =? 24 then 1 else if ai =? 25 then 2 else if ai =? 26 then 4 else if ai =? 27 then 8 else 0 in
  if (need =? 0) || (cb_left c <? need) then Bad
  else Ok (mt, get_be (load m (cb_p c) need)) (c <| cb_p := cb_p c + need |>).

(** [c->p += n] after the test that [n] bytes are left. *)
Definition cb_advance (n : Z) : parser slice := fun m c =>
  if cb_left c <? n then Bad
  else Ok {| sl_off := cb_p c; sl_len := n |} (c <| cb_p := cb_p c + n |>).

(** [levels] is [CB_MAX_DEPTH + 1 - depth]. *)
Fixpoint cb_skip_d (levels : nat) : parser unit :=
  match levels with
  | O => bad
  | S below =>
      '(mt, arg) ← cb_head;
      if (mt =? 0) || (mt =? 1) || (mt =? 7) then mret tt
      else if (mt =? 2) || (mt =? 3) then cb_advance arg ≫= fun _ => mret tt
      else if mt =? 4 then for_each arg (fun _ => cb_skip_d below) tt
      else if mt =? 5 then for_each arg (fun _ => cb_skip_d below ≫= fun _ => cb_skip_d below) tt
      else if mt =? 6 then cb_skip_d below
      else bad
  end.

Definition cb_skip : parser unit := cb_skip_d (S CB_MAX_DEPTH).

Definition cb_expect (want_mt : Z) : parser Z :=
  '(mt, arg) ← cb_head; require (mt =? want_mt) ≫= fun _ => mret arg.

Definition cb_map : parser Z := cb_expect 5.
Definition cb_arr : parser Z := cb_expect 4.
Definition cb_uint : parser Z := cb_expect 0.

Definition cb_bytes (want_mt : Z) : parser slice := arg ← cb_expect want_mt; cb_advance arg.

Definition cb_bstr : parser slice := cb_bytes 2.
Definition cb_tstr : parser slice := cb_bytes 3.

Definition cb_int_key : parser Z :=
  '(mt, arg) ← cb_head;
  if mt =? 0 then mret (i64 arg) else if mt =? 1 then mret (-1 - i64 arg) else bad.

Definition cb_bool : parser bool :=
  '(mt, arg) ← cb_head;
  require ((mt =? 7) && ((arg =? 20) || (arg =? 21))) ≫= fun _ => mret (arg =? 21).

Definition cb_tag : parser Z := cb_expect 6.

(** What a parser yields, with the bytes it took. *)
Definition cb_span {A} (p : parser A) : parser (A * slice) :=
  start ← cursor; a ← p; stop ← cursor;
  mret (a, {| sl_off := cb_p start; sl_len := cb_p stop - cb_p start |}).

(** The raw bytes of the item at the cursor, which is skipped. *)
Definition cb_raw : parser slice := '(_, s) ← cb_span cb_skip; mret s.

(** ** A logic of parsers

    Memory outside of [lo, hi) may hold anything. *)

Definition agree (lo hi : Z) (m1 m2 : memory) : Prop :=
  (forall a, byte_ok (m1 a)) /\ forall a, lo <= a < hi -> m1 a = m2 a.

Definition placed (lo hi : Z) (c : cbor) : Prop := lo <= cb_p c <= cb_end c /\ cb_end c <= hi.

Definition inside (lo hi : Z) (s : slice) : Prop := lo <= sl_off s /\ 0 <= sl_len s /\ sl_off s + sl_len s <= hi.

(** The cursor moved forwards, by a byte at least if [strict]. *)
Definition behind (strict : bool) (c c' : cbor) : Prop :=
  cb_end c' = cb_end c /\ cb_p c + (if strict then 1 else 0) <= cb_p c' <= cb_end c.

Definition sound (lo hi : Z) {A} (strict : bool) (P : A -> Prop) (p : parser A) : Prop :=
  forall m1 m2 c, agree lo hi m1 m2 -> placed lo hi c ->
    p m1 c = p m2 c /\
    match p m1 c with Ok a c' => P a /\ behind strict c c' | Bad => True | NoFuel => False end.

Definition anything {A} (_ : A) : Prop := True.

Section Sound.
Context {lo hi : Z}.
Implicit Types strict : bool.

Lemma sound_ret {A} (P : A -> Prop) a : P a -> sound lo hi false P (mret a).
Proof. intros Ha m1 m2 c _ [? ?]. split; [done|]. split; [done|]. unfold behind. cbn. lia. Qed.

Lemma sound_bad {A} strict (P : A -> Prop) : sound lo hi strict P bad.
Proof. by intros m1 m2 c _ _. Qed.

Lemma sound_bind {A B} s1 s2 (P : A -> Prop) (Q : B -> Prop) (p : parser A) (k : A -> parser B) :
  sound lo hi s1 P p -> (forall a, P a -> sound lo hi s2 Q (k a)) -> sound lo hi (s1 || s2) Q (p ≫= k).
Proof.
  intros Hp Hk m1 m2 c Hm Hc. destruct (Hp m1 m2 c Hm Hc) as [E H]. unfold mbind, parser_bind. rewrite <- E.
  destruct (p m1 c) as [a c'| |]; [|done|done]. destruct H as [Ha [Hend Hp']]. unfold placed in Hc.
  destruct (Hk a Ha m1 m2 c' Hm) as [E' H']; [unfold placed; destruct s1; lia|]. split; [done|].
  destruct (k a m1 c') as [b c''| |]; [|done|done]. destruct H' as [Hb [Hend' Hp'']]. split; [done|].
  unfold behind. destruct s1, s2; cbn [orb]; lia.
Qed.

Lemma sound_weaken {A} s1 s2 (P Q : A -> Prop) p :
  sound lo hi s1 P p -> (s2 = true -> s1 = true) -> (forall a, P a -> Q a) -> sound lo hi s2 Q p.
Proof.
  intros Hp Hs HPQ m1 m2 c Hm Hc. destruct (Hp m1 m2 c Hm Hc) as [E H]. split; [done|].
  destruct (p m1 c) as [a c'| |]; [|done|done]. destruct H as [Ha [Hend Hb]]. split; [by apply HPQ|].
  unfold behind. destruct s1, s2; lia.
Qed.

(** The bind rule in the shape the parsers below need it: the first part may be
    as strict as it likes. *)
Lemma sound_then {A B} s1 s2 s (P : A -> Prop) (Q : B -> Prop) (p : parser A) (k : A -> parser B) :
  sound lo hi s1 P p -> (s = true -> s1 || s2 = true) -> (forall a, P a -> sound lo hi s2 Q (k a)) ->
  sound lo hi s Q (p ≫= k).
Proof. intros Hp Hs Hk. eapply sound_weaken; [by eapply sound_bind|done|done]. Qed.

Lemma sound_require b : sound lo hi false (fun _ => b = true) (require b).
Proof. unfold require. destruct b; [by apply sound_ret|apply sound_bad]. Qed.

Lemma sound_cursor : sound lo hi false (placed lo hi) cursor.
Proof. intros m1 m2 c _ Hc. split; [done|]. split; [done|]. unfold behind, placed in *. lia. Qed.

Lemma load_agree m1 m2 p n : agree lo hi m1 m2 -> lo <= p -> p + n <= hi -> load m1 p n = load m2 p n.
Proof.
  intros [_ Hm] Hlo Hhi. unfold load. apply map_ext_in. intros i Hi. apply in_seq in Hi. apply Hm. lia.
Qed.

Lemma load_bytes m1 m2 p n : agree lo hi m1 m2 -> Forall byte_ok (load m1 p n).
Proof. intros [Hm _]. unfold load. apply Forall_map, Forall_true. intros i. apply Hm. Qed.

Lemma length_load m p n : length (load m p n) = Z.to_nat n.
Proof. unfold load. by rewrite length_map, length_seq. Qed.

Lemma sound_bytes s : inside lo hi s ->
  sound lo hi false (fun l => Forall byte_ok l /\ length l = Z.to_nat (sl_len s)) (bytes_of s).
Proof.
  intros [H1 [H2 H3]] m1 m2 c Hm Hc. unfold bytes_of. split; [f_equal; by apply load_agree|].
  split; [split; [by eapply load_bytes|apply length_load]|]. unfold behind, placed in *. lia.
Qed.

Lemma sound_attempt {A} strict (P : A -> Prop) p :
  sound lo hi strict P p -> sound lo hi false (fun o => forall a, o = Some a -> P a) (attempt p).
Proof.
  intros Hp m1 m2 c Hm Hc. destruct (Hp m1 m2 c Hm Hc) as [E H]. unfold attempt. rewrite <- E.
  assert (behind false c c) as Hb by (unfold behind, placed in *; lia).
  destruct (p m1 c) as [a c'| |]; [|by split|done]. destruct H as [Ha _]. split; [done|]. split; [by intros ? [= <-]|done].
Qed.

Lemma sound_at {A} strict (P : A -> Prop) p c' :
  placed lo hi c' -> sound lo hi strict P p -> sound lo hi false P (at_cursor c' p).
Proof.
  intros Hc' Hp m1 m2 c Hm Hc. destruct (Hp m1 m2 c' Hm Hc') as [E H]. unfold at_cursor. rewrite <- E.
  assert (behind false c c) as Hb by (unfold behind, placed in *; lia).
  destruct (p m1 c') as [a c''| |]; [|by split|done]. destruct H as [Ha _]. by split.
Qed.

Lemma inside_placed s : inside lo hi s -> placed lo hi (slice_cursor s).
Proof. unfold inside, placed, slice_cursor. cbn. lia. Qed.

(** *** Loops *)

Definition turn_ok {S R} (I : S -> Prop) (Q : R -> Prop) (t : turn S R) : Prop :=
  match t with Next s => I s | Stop r => Q r end.

Lemma loop_sound {S R} (I : S -> Prop) (Q : R -> Prop) body fuel : forall n s m1 m2 c,
  (forall s, I s -> sound lo hi true (turn_ok I Q) (body s)) -> I s ->
  agree lo hi m1 m2 -> placed lo hi c -> cb_left c < Z.of_nat fuel ->
  let p := loop fuel n body s in
  p m1 c = p m2 c /\
  match p m1 c with Ok a c' => turn_ok I Q a /\ behind false c c' | Bad => True | NoFuel => False end.
Proof.
  induction fuel as [|f IH]; intros n s m1 m2 c Hb Hs Hm Hc Hf; cbn [loop]; unfold cb_left, placed in *; [lia|].
  destruct (n <=? 0); [by apply sound_ret|].
  destruct (Hb s Hs m1 m2 c Hm Hc) as [E H]. unfold mbind, parser_bind. rewrite <- E.
  destruct (body s m1 c) as [t c'| |]; [|done|done]. destruct H as [Ht [Hend Hp]].
  assert (placed lo hi c') as Hc' by (unfold placed; lia).
  destruct t as [s'|r].
  - destruct (IH (n - 1) s' m1 m2 c' Hb Ht Hm Hc' ltac:(unfold cb_left; lia)) as [E' H']. split; [done|].
    destruct (loop f (n - 1) body s' m1 c') as [a c''| |]; [|done|done]. destruct H' as [Ha [Hend' Hp']].
    split; [done|]. unfold behind in *. lia.
  - split; [done|]. split; [done|]. unfold behind. lia.
Qed.

Lemma sound_for_until {S R} (I : S -> Prop) (Q : R -> Prop) n body s :
  (forall s, I s -> sound lo hi true (turn_ok I Q) (body s)) -> I s ->
  sound lo hi false (turn_ok I Q) (for_until n body s).
Proof.
  intros Hb Hs m1 m2 c Hm Hc. unfold for_until, mbind, parser_bind, cursor.
  apply loop_sound; try done. unfold cb_left, placed in *. lia.
Qed.

Lemma sound_for {S} (I : S -> Prop) n body s :
  (forall s, I s -> sound lo hi true I (body s)) -> I s -> sound lo hi false I (for_each n body s).
Proof.
  intros Hb Hs. unfold for_each. eapply (sound_then false false); [|done|].
  - apply (sound_for_until I (fun _ : Empty_set => True)); [|done]. intros s' Hs'.
    eapply (sound_then true false); [by apply Hb|done|]. intros s'' Hs''. by apply sound_ret.
  - intros [s'|[]] Ht. by apply sound_ret.
Qed.

(** *** The readers *)

Lemma sound_head : sound lo hi true (fun h => 0 <= h.1 < 8 /\ 0 <= h.2 < 2 ^ 64) cb_head.
Proof.
  intros m1 m2 [p e] Hm [Hc He]. unfold cb_head. cbn [cb_p cb_end] in *. destruct (Z.leb_spec e p) as [|Hp]; [done|].
  pose proof Hm as [Hby Hag]. rewrite <- (Hag p) by lia. set (ib := m1 p) in *.
  assert (byte_ok ib) as Hib by apply Hby. unfold byte_ok in Hib.
  assert (0 <= Z.shiftr ib 5 < 8) as Hmt.
  { rewrite Z.shiftr_div_pow2 by lia. change (2 ^ 5) with 32. zdiv. }
  assert (0 <= Z.land ib 31 < 32) as Hai.
  { change 31 with (Z.ones 5). rewrite Z.land_ones by lia. apply Z.mod_pos_bound. lia. }
  cbn. destruct (Z.ltb_spec (Z.land ib 31) 24); [split; [done|]; unfold behind; cbn; lia|].
  set (need := if Z.land ib 31 =? 24 then 1 else _). unfold cb_left. cbn.
  assert (0 <= need <= 8) as Hn by (subst need; repeat case_match; lia).
  destruct (need =? 0); [done|]. cbn [orb]. destruct (Z.ltb_spec (e - (p + 1)) need); [done|].
  split; [by rewrite (load_agree m1 m2) by (done || lia)|]. split; [|unfold behind; cbn; lia].
  split; [done|]. cbn [snd]. pose proof (get_be_range (load m1 (p + 1) need) (load_bytes _ _ _ _ Hm)) as [? Hr].
  rewrite length_load in Hr. split; [done|]. eapply Z.lt_le_trans; [exact Hr|]. apply Z.pow_le_mono_r; lia.
Qed.

Lemma sound_advance n : 0 <= n -> sound lo hi false (inside lo hi) (cb_advance n).
Proof.
  intros Hn m1 m2 [p e] _ [Hc He]. unfold cb_advance, cb_left. cbn [cb_p cb_end] in *.
  destruct (Z.ltb_spec (e - p) n); [done|]. split; [done|]. split; [unfold inside; cbn; lia|unfold behind; cbn; lia].
Qed.

Lemma sound_skip_d levels : sound lo hi true anything (cb_skip_d levels).
Proof.
  induction levels as [|k IH]; cbn [cb_skip_d]; [apply sound_bad|].
  apply (sound_then true false true _ _ _ _ sound_head ltac:(done)). intros [mt arg] [Hmt Harg]. cbn [fst snd] in *.
  assert (sound lo hi false anything (cb_skip_d k)) as IH' by (by eapply sound_weaken; [exact IH| |]).
  destruct (_ || _); [by apply sound_ret|]. destruct (_ || _).
  { apply (sound_then false false _ _ _ _ _ (sound_advance arg ltac:(lia)) ltac:(done)). intros. by apply sound_ret. }
  destruct (mt =? 4); [by apply sound_for|]. destruct (mt =? 5).
  { apply sound_for; [|done]. intros _ _. apply (sound_then true false _ _ _ _ _ IH ltac:(done)). intros _ _. done. }
  destruct (mt =? 6); [done|]. apply sound_bad.
Qed.

Lemma sound_skip : sound lo hi true anything cb_skip.
Proof. apply sound_skip_d. Qed.

Lemma sound_expect mt : sound lo hi true (in_u 64) (cb_expect mt).
Proof.
  apply (sound_then true false _ _ _ _ _ sound_head ltac:(done)). intros [t arg] [_ Ha].
  apply (sound_then false false _ _ _ _ _ (sound_require _) ltac:(done)). intros _ _. by apply sound_ret.
Qed.

Lemma sound_slice mt : sound lo hi true (inside lo hi) (cb_bytes mt).
Proof.
  apply (sound_then true false _ _ _ _ _ (sound_expect mt) ltac:(done)). intros arg Ha.
  apply sound_advance. unfold in_u in Ha. lia.
Qed.

Lemma sound_int_key : sound lo hi true (in_i 64) cb_int_key.
Proof.
  apply (sound_then true false _ _ _ _ _ sound_head ltac:(done)). intros [t arg] [_ Ha].
  pose proof (swrap_range 64 arg ltac:(lia)) as Hr.
  destruct (t =? 0); [by apply sound_ret|]. destruct (t =? 1); [|apply (sound_bad false)].
  apply sound_ret. unfold in_i in *. lia.
Qed.

Lemma sound_bool : sound lo hi true anything cb_bool.
Proof.
  apply (sound_then true false _ _ _ _ _ sound_head ltac:(done)). intros [t arg] _.
  apply (sound_then false false _ _ _ _ _ (sound_require _) ltac:(done)). intros _ _. by apply sound_ret.
Qed.

Lemma sound_span {A} (P : A -> Prop) p :
  sound lo hi true P p -> sound lo hi true (fun a => P a.1 /\ inside lo hi a.2) (cb_span p).
Proof.
  intros Hp m1 m2 c Hm Hc. unfold cb_span, mbind, parser_bind, cursor.
  destruct (Hp m1 m2 c Hm Hc) as [E H]. rewrite <- E. destruct (p m1 c) as [a c'| |]; [|done|done].
  destruct H as [Ha H]. split; [done|]. split; [|done]. split; [done|]. unfold inside, behind, placed in *. cbn. lia.
Qed.

Lemma sound_raw : sound lo hi true (inside lo hi) cb_raw.
Proof.
  apply (sound_then true false _ _ _ _ _ (sound_span _ _ sound_skip) ltac:(done)). intros [u s] [_ Hs]. by apply sound_ret.
Qed.

End Sound.

(** One rule for every reader. *)
Create HintDb cbor.
#[export] Hint Resolve sound_head sound_expect sound_slice sound_int_key sound_bool sound_raw sound_skip
  sound_require sound_cursor sound_bytes sound_ret sound_bad : cbor.

(** [cstep]: run one parser of a sequence, introducing what is known of its
    value. *)
Ltac cstep x H :=
  eapply sound_then; [solve [eauto with cbor]|try done|intros x H].

(** ** What [cb_skip] accepts

    The definite-length items of RFC 8949 with at most [levels] levels of
    nesting; heads need not be minimal. *)

Inductive head_bytes : Z -> Z -> list Z -> Prop :=
  | HeadSmall mt arg : 0 <= mt < 8 -> 0 <= arg < 24 -> head_bytes mt arg [mt * 32 + arg]
  | HeadLong mt arg ai n : 0 <= mt < 8 ->
      (ai, n) ∈ [(24, 1%nat); (25, 2%nat); (26, 4%nat); (27, 8%nat)] -> in_u (8 * Z.of_nat n) arg ->
      head_bytes mt arg ((mt * 32 + ai) :: put_be n arg).

(** [n] consecutive byte strings each satisfying [P]. *)
Definition items_of (P : list Z -> Prop) (n : Z) (bs : list Z) : Prop :=
  exists l, zlen l = n /\ Forall P l /\ bs = concat l.

Fixpoint item (levels : nat) (bs : list Z) : Prop :=
  match levels with
  | O => False
  | S k => exists mt arg h r, head_bytes mt arg h /\ bs = h ++ r /\
      ((mt = 0 \/ mt = 1 \/ mt = 7) /\ r = [] \/
       (mt = 2 \/ mt = 3) /\ zlen r = arg /\ Forall byte_ok r \/
       mt = 4 /\ items_of (item k) arg r \/
       mt = 5 /\ items_of (item k) (2 * arg) r \/
       mt = 6 /\ item k r)
  end.

(** [bs] is what lies between two cursors. *)
Definition reads (m : memory) (c : cbor) (bs : list Z) (c' : cbor) : Prop :=
  c' = {| cb_p := cb_p c + zlen bs; cb_end := cb_end c |} /\ cb_p c + zlen bs <= cb_end c /\ load m (cb_p c) (zlen bs) = bs.

Lemma load_app m p n k : 0 <= n -> 0 <= k -> load m p (n + k) = load m p n ++ load m (p + n) k.
Proof.
  intros Hn Hk. unfold load. rewrite Z2Nat.inj_add, seq_app, map_app by done. f_equal.
  replace (0 + Z.to_nat n)%nat with (Z.to_nat n + 0)%nat by lia. rewrite <- fmap_add_seq.
  change (Nat.add (Z.to_nat n) <$> seq 0 (Z.to_nat k)) with (map (Nat.add (Z.to_nat n)) (seq 0 (Z.to_nat k))).
  rewrite map_map. apply map_ext. intros i. f_equal. lia.
Qed.

Lemma load_one m p : load m p 1 = [m p].
Proof. unfold load. change (seq 0 (Z.to_nat 1)) with [0%nat]. cbn [map]. do 2 f_equal. lia. Qed.

Lemma zlen_load m p n : 0 <= n -> zlen (load m p n) = n.
Proof. intros. unfold zlen. rewrite length_load. lia. Qed.

Lemma reads_app m c a b c'' :
  reads m c (a ++ b) c'' <-> exists c', reads m c a c' /\ reads m c' b c''.
Proof.
  pose proof (zlen_nonneg a). pose proof (zlen_nonneg b). unfold reads. split.
  - intros (-> & He & Hl). exists {| cb_p := cb_p c + zlen a; cb_end := cb_end c |}. cbn. rewrite zlen_app in *.
    rewrite load_app in Hl by lia. apply app_inj_1 in Hl as [Ha Hb]; [|rewrite length_load; unfold zlen; lia].
    split_and!; try done; try lia. f_equal. lia.
  - intros (c' & (-> & He & Hl) & -> & He' & Hl'). cbn in *. rewrite zlen_app, load_app, Hl, Hl' by lia.
    split_and!; [|lia|done]. f_equal. lia.
Qed.

Lemma reads_nil m c c' : reads m c [] c' <-> c' = c /\ cb_p c <= cb_end c.
Proof.
  unfold reads. change (zlen []) with 0. rewrite Z.add_0_r. destruct c as [p e]. cbn. split; [by intros (-> & ? & _)|].
  by intros [-> ?].
Qed.

Section Skip.
Context (m : memory) (Hm : forall a, byte_ok (m a)).

(** [p] is the reader of the byte strings in [P], none of them empty. *)
Definition exactly (P : list Z -> Prop) (p : parser unit) : Prop :=
  (forall bs, P bs -> 1 <= zlen bs) /\
  forall c c', cb_p c <= cb_end c -> (p m c = Ok tt c' <-> exists bs, P bs /\ reads m c bs c').

Lemma reads_order c bs c' : reads m c bs c' -> cb_p c' <= cb_end c' /\ cb_end c' = cb_end c /\ cb_p c' = cb_p c + zlen bs.
Proof. intros (-> & H & _). done. Qed.

Lemma bind_ok {A B} (p : parser A) (k : A -> parser B) c b c'' :
  (p ≫= k) m c = Ok b c'' <-> exists a c', p m c = Ok a c' /\ k a m c' = Ok b c''.
Proof.
  unfold mbind, parser_bind. split.
  - destruct (p m c) as [a c'| |]; [|done|done]. eauto.
  - intros (a & c' & -> & ?). done.
Qed.

Lemma exactly_seq P Q p q :
  exactly P p -> exactly Q q -> exactly (fun bs => exists a b, P a /\ Q b /\ bs = a ++ b) (p ≫= fun _ => q).
Proof.
  intros [HP Hp] [HQ Hq]. split.
  { intros bs (a & b & Ha & Hb & ->). rewrite zlen_app. specialize (HP a Ha). specialize (HQ b Hb). lia. }
  intros c c'' Hc. rewrite bind_ok. split.
  - intros ([] & c' & H1 & H2). apply Hp in H1 as (a & Ha & Hra); [|done]. pose proof (reads_order _ _ _ Hra) as [Hc' _].
    apply Hq in H2 as (b & Hb & Hrb); [|done]. exists (a ++ b). split; [by exists a, b|]. apply reads_app. eauto.
  - intros (bs & (a & b & Ha & Hb & ->) & Hr). apply reads_app in Hr as (c' & Hra & Hrb). exists tt, c'.
    pose proof (reads_order _ _ _ Hra) as [Hc' _]. split; [apply Hp; eauto|apply Hq; eauto].
Qed.

Lemma loop_exact P p fuel : exactly P p -> forall n c c',
  cb_p c <= cb_end c -> cb_left c < Z.of_nat fuel -> 0 <= n ->
  loop fuel n (fun s => s' ← p; mret (@Next unit Empty_set s')) tt m c = Ok (Next tt) c'
  <-> exists bs, items_of P n bs /\ reads m c bs c'.
Proof.
  intros [HP Hp]. induction fuel as [|f IH]; intros n c c' Hc Hf Hn; [unfold cb_left in Hf; lia|]. cbn [loop].
  destruct (Z.leb_spec n 0) as [H0|H0].
  - split.
    + intros [= <-]. exists []. split; [by exists []; split; [unfold zlen; cbn; lia|]|]. by apply reads_nil.
    + intros (bs & (l & Hl & _ & ->) & Hr). destruct l; [|rewrite zlen_cons in Hl; pose proof (zlen_nonneg l0); lia].
      by apply reads_nil in Hr as [-> _].
  - rewrite bind_ok. split.
    + intros (t & c1 & (u & c2 & H1 & [= <- <-])%bind_ok & H2). destruct u. apply Hp in H1 as (a & Ha & Hra); [|done].
      pose proof (reads_order _ _ _ Hra) as (Hc' & He & Hpos). pose proof (HP a Ha).
      apply IH in H2 as (bs & (l & Hl & HF & ->) & Hr); [|done|unfold cb_left in *; lia|lia].
      exists (a ++ concat l). split; [|apply reads_app; eauto]. exists (a :: l). split_and!; [rewrite zlen_cons; lia|by constructor|done].
    + intros (bs & (l & Hl & HF & ->) & Hr). destruct l as [|a l]; [unfold zlen in Hl; cbn in Hl; lia|].
      rewrite zlen_cons in Hl. apply list.Forall_cons in HF as [Ha HF]. cbn [concat] in Hr. apply reads_app in Hr as (c1 & Hra & Hr).
      pose proof (reads_order _ _ _ Hra) as (Hc' & He & Hpos). pose proof (HP a Ha).
      exists (Next tt), c1. split; [apply bind_ok; exists tt, c1; split; [apply Hp; eauto|done]|].
      apply IH; [done|unfold cb_left in *; lia|lia|]. exists (concat l). split; [|done]. exists l. split_and!; [lia|done|done].
Qed.

Lemma for_exact P p n c c' : exactly P p -> cb_p c <= cb_end c -> 0 <= n ->
  for_each n (fun _ : unit => p) tt m c = Ok tt c' <-> exists bs, items_of P n bs /\ reads m c bs c'.
Proof.
  intros Hp Hc Hn. unfold for_each. rewrite bind_ok.
  pose proof (loop_exact P p (S (Z.to_nat (cb_left c))) Hp n c) as H.
  specialize (fun c' => H c' Hc ltac:(unfold cb_left; lia) Hn). rewrite <- H. unfold for_until, cursor.
  split.
  - intros (t & c1 & H1 & H2). destruct t as [[]|[]]. injection H2 as <-. exact H1.
  - intros H1. exists (Next tt), c'. split; [exact H1|done].
Qed.

Lemma byte_split ib : byte_ok ib -> ib = Z.shiftr ib 5 * 32 + Z.land ib 31 /\ 0 <= Z.shiftr ib 5 < 8 /\ 0 <= Z.land ib 31 < 32.
Proof.
  unfold byte_ok. intros H. change 31 with (Z.ones 5). rewrite Z.land_ones, Z.shiftr_div_pow2 by lia.
  change (2 ^ 5) with 32. zdiv.
Qed.

Lemma byte_join mt ai : 0 <= mt < 8 -> 0 <= ai < 32 -> Z.shiftr (mt * 32 + ai) 5 = mt /\ Z.land (mt * 32 + ai) 31 = ai.
Proof.
  intros H1 H2. change 31 with (Z.ones 5). rewrite Z.land_ones, Z.shiftr_div_pow2 by lia. change (2 ^ 5) with 32. split; zdiv.
Qed.

Lemma head_len mt arg h : head_bytes mt arg h -> 1 <= zlen h.
Proof. intros [a b _ _|a b c n _ _ _]; rewrite zlen_cons; [done|]. pose proof (zlen_nonneg (put_be n b)). lia. Qed.

Lemma head_sound c mt arg c' :
  cb_head m c = Ok (mt, arg) c' -> exists h, head_bytes mt arg h /\ reads m c h c'.
Proof.
  unfold cb_head. destruct c as [p e]. cbn [cb_p cb_end]. destruct (Z.leb_spec e p) as [|Hp]; [done|].
  destruct (byte_split (m p) (Hm p)) as (Hib & Hmt & Hai). set (ib := m p) in *. cbv zeta.
  destruct (Z.ltb_spec (Z.land ib 31) 24) as [Hs|Hs].
  { intros [= <- <- <-]. exists [ib]. split; [rewrite Hib at 3; apply HeadSmall; lia|].
    unfold reads. cbn [cb_p cb_end]. change (zlen [ib]) with 1. rewrite load_one. split_and!; [done|lia|done]. }
  set (need := if Z.land ib 31 =? 24 then 1 else _).
  destruct (Z.eqb_spec need 0) as [|Hn]; [done|]. unfold cb_left. cbn.
  destruct (Z.ltb_spec (e - (p + 1)) need) as [|Hl]; [done|]. intros [= <- <- <-].
  exists (ib :: load m (p + 1) need). unfold reads. cbn [cb_p cb_end]. rewrite zlen_cons.
  assert (0 <= need) as Hn0 by (subst need; repeat case_match; lia). rewrite zlen_load by done.
  split.
  - rewrite Hib at 2. rewrite <- (put_get_be (load m (p + 1) need)) at 2.
    2:{ unfold load. by apply Forall_map, Forall_true. }
    apply HeadLong; [done|..].
    + rewrite length_load. subst need. destruct (Z.eqb_spec (Z.land ib 31) 24) as [->|]; [repeat constructor|].
      destruct (Z.eqb_spec (Z.land ib 31) 25) as [->|]; [repeat constructor|].
      destruct (Z.eqb_spec (Z.land ib 31) 26) as [->|]; [repeat constructor|].
      destruct (Z.eqb_spec (Z.land ib 31) 27) as [->|]; [repeat constructor|done].
    + apply get_be_range. unfold load. by apply Forall_map, Forall_true.
  - split_and!; [apply (f_equal2 Build_cbor); cbn; lia|lia|]. rewrite load_app, load_one by lia. done.
Qed.

Lemma cb_head_complete c mt arg h c' :
  head_bytes mt arg h -> reads m c h c' -> cb_head m c = Ok (mt, arg) c'.
Proof.
  intros Hh (-> & He & Hl). destruct c as [p e]. cbn [cb_p cb_end] in *. unfold cb_head. cbn [cb_p cb_end].
  pose proof (head_len _ _ _ Hh). destruct (Z.leb_spec e p); [lia|]. destruct Hh as [mt arg H1 H2|mt arg ai n H1 H2 H3].
  - change (zlen [mt * 32 + arg]) with 1 in *. rewrite load_one in Hl. injection Hl as ->.
    destruct (byte_join mt arg ltac:(lia) ltac:(lia)) as [-> ->]. destruct (Z.ltb_spec arg 24); [done|lia].
  - rewrite zlen_cons in *. unfold zlen in *. rewrite length_put_be in *. rewrite load_app, load_one in Hl by lia.
    injection Hl as Hib Hl. rewrite Hib.
    assert (24 <= ai <= 27 /\ Z.of_nat n = if ai =? 24 then 1 else if ai =? 25 then 2 else if ai =? 26 then 4 else if ai =? 27 then 8 else 0) as [Hai Hn].
    { rewrite !elem_of_cons, elem_of_nil in H2. destruct H2 as [[= -> ->]|[[= -> ->]|[[= -> ->]|[[= -> ->]|[]]]]]; done. }
    destruct (byte_join mt ai ltac:(lia) ltac:(lia)) as [-> ->]. destruct (Z.ltb_spec ai 24); [lia|]. cbv zeta.
    rewrite <- Hn. destruct (Z.eqb_spec (Z.of_nat n) 0) as [HN|HN]; [exfalso; repeat case_match; lia|].
    unfold cb_left. cbn. destruct (Z.ltb_spec (e - (p + 1)) (Z.of_nat n)); [lia|].
    f_equal; [|apply (f_equal2 Build_cbor); cbn; lia]. f_equal. rewrite Hl. by apply get_put_be_id.
Qed.

Lemma skip_data_exact arg : 0 <= arg -> forall c c',
  (cb_advance arg ≫= fun _ => mret tt) m c = Ok tt c' <-> exists r, (zlen r = arg /\ Forall byte_ok r) /\ reads m c r c'.
Proof.
  intros Ha [p e] c'. rewrite bind_ok. unfold cb_advance, cb_left. cbn [cb_p cb_end]. split.
  - intros (s & c1 & H1 & [= <-]). destruct (Z.ltb_spec (e - p) arg); [done|]. injection H1 as _ <-.
    exists (load m p arg). rewrite zlen_load by done. split; [split; [done|unfold load; by apply Forall_map, Forall_true]|].
    unfold reads. cbn. rewrite zlen_load by done. split_and!; [done|lia|done].
  - intros (r & [Hl _] & -> & He & _). cbn [cb_p cb_end] in *. rewrite Hl in *.
    destruct (Z.ltb_spec (e - p) arg); [lia|]. by eexists _, _.
Qed.

Lemma pairs_items P n bs : 0 <= n ->
  items_of (fun bs => exists a b, P a /\ P b /\ bs = a ++ b) n bs <-> items_of P (2 * n) bs.
Proof.
  intros Hn. unfold items_of. split.
  - intros (l & Hl & HF & ->). clear Hn. revert n Hl. induction HF as [|x l (a & b & Ha & Hb & ->) _ IH]; intros n Hl.
    + exists []. unfold zlen in *. cbn in *. split_and!; [lia|done|done].
    + destruct (IH (n - 1)) as (k & Hk & Hf & E); [rewrite zlen_cons in Hl; lia|]. exists (a :: b :: k).
      rewrite !zlen_cons. split_and!; [lia|by repeat constructor|]. cbn. by rewrite E, <- app_assoc.
  - intros (l & Hl & HF & ->). remember (Z.to_nat n) as k eqn:Hk. revert n l Hn Hk Hl HF.
    induction k as [|k IH]; intros n l Hn Hk Hl HF.
    + exists []. destruct l; [|rewrite zlen_cons in Hl; pose proof (zlen_nonneg l0); lia]. unfold zlen in *. cbn in *.
      split_and!; [lia|done|done].
    + destruct l as [|a [|b l]]; [unfold zlen in Hl; cbn in Hl; lia|unfold zlen in Hl; cbn in Hl; lia|].
      rewrite !zlen_cons in Hl. apply list.Forall_cons in HF as [Ha HF]. apply list.Forall_cons in HF as [Hb HF].
      destruct (IH (n - 1) l) as (q & Hq & Hf & E); [lia|lia|lia|done|]. exists ((a ++ b) :: q).
      rewrite zlen_cons. split_and!; [lia|constructor; [by exists a, b|done]|]. cbn. by rewrite E, <- app_assoc.
Qed.

Lemma item_len levels bs : item levels bs -> 1 <= zlen bs.
Proof.
  destruct levels as [|k]; [done|]. intros (mt & arg & h & r & Hh & -> & _). rewrite zlen_app.
  pose proof (head_len _ _ _ Hh). pose proof (zlen_nonneg r). lia.
Qed.

(** The head decides which of the forms of an item is meant. *)
Lemma skip_body_exact levels mt arg c c' :
  exactly (item levels) (cb_skip_d levels) -> 0 <= mt < 8 -> 0 <= arg -> cb_p c <= cb_end c ->
  (if (mt =? 0) || (mt =? 1) || (mt =? 7) then mret tt
   else if (mt =? 2) || (mt =? 3) then cb_advance arg ≫= fun _ => mret tt
   else if mt =? 4 then for_each arg (fun _ => cb_skip_d levels) tt
   else if mt =? 5 then for_each arg (fun _ => cb_skip_d levels ≫= fun _ => cb_skip_d levels) tt
   else if mt =? 6 then cb_skip_d levels else bad : parser unit) m c = Ok tt c' <->
  exists r, ((mt = 0 \/ mt = 1 \/ mt = 7) /\ r = [] \/ (mt = 2 \/ mt = 3) /\ zlen r = arg /\ Forall byte_ok r \/
       mt = 4 /\ items_of (item levels) arg r \/ mt = 5 /\ items_of (item levels) (2 * arg) r \/ mt = 6 /\ item levels r) /\
    reads m c r c'.
Proof.
  intros Hp Hmt Harg Hc. pose proof Hp as [_ Hex].
  assert (mt = 0 \/ mt = 1 \/ mt = 2 \/ mt = 3 \/ mt = 4 \/ mt = 5 \/ mt = 6 \/ mt = 7) as Hk by lia.
  assert ((forall r, (mt = 0 \/ mt = 1 \/ mt = 7) /\ r = [] -> reads m c r c' <-> Ok tt c = Ok tt c')) as Hnil.
  { intros r [_ ->]. rewrite reads_nil. split; [by intros [-> _]|]. by intros [= <-]. }
  destruct Hk as [->|[->|[->|[->|[->|[->|[->| ->]]]]]]]; cbn [Z.eqb Pos.eqb orb].
  1, 2, 8: split; [intros H; exists []; split; [by left; split; [lia|]|by apply Hnil; [split; [lia|]|]]|].
  1, 2, 3: intros (r & [[_ ->]|[[? _]|[[? _]|[[? _]|[? _]]]]] & Hr); [apply Hnil in Hr; [done|split; [lia|done]]|lia..].
  1, 2: rewrite skip_data_exact by done; split; intros (r & H & Hr); exists r; (split; [|done]);
     [right; left; split; [lia|done]|destruct H as [[? _]|[[_ H]|[[? _]|[[? _]|[? _]]]]]; [lia|done|lia..]].
  - rewrite (for_exact _ _ _ _ _ Hp Hc Harg). split; intros (r & H & Hr); exists r; (split; [|done]);
      [by do 2 right; left|destruct H as [[? _]|[[? _]|[[_ H]|[[? _]|[? _]]]]]; [lia|lia|done|lia..]].
  - rewrite (for_exact _ _ _ _ _ (exactly_seq _ _ _ _ Hp Hp) Hc Harg). split; intros (r & H & Hr); exists r; (split; [|done]).
    + do 3 right. left. split; [done|]. by apply pairs_items.
    + destruct H as [[? _]|[[? _]|[[? _]|[[_ H]|[? _]]]]]; [lia..| |lia]. by apply pairs_items.
  - rewrite (Hex c c' Hc). split; intros (r & H & Hr); exists r; (split; [|done]);
      [by do 4 right|destruct H as [[? _]|[[? _]|[[? _]|[[? _]|[_ H]]]]]; [lia..|done]].
Qed.

Lemma skip_d_exact levels : exactly (item levels) (cb_skip_d levels).
Proof.
  induction levels as [|k IH]; (split; [apply item_len|]); intros c c' Hc; [split; [done|by intros (bs & [] & _)]|].
  cbn [cb_skip_d]. rewrite bind_ok. split.
  - intros ([mt arg] & c1 & H1 & H2). pose proof H1 as H1'. apply head_sound in H1 as (h & Hh & Hr).
    pose proof (reads_order _ _ _ Hr) as [Hc1 _].
    assert (0 <= mt < 8 /\ 0 <= arg) as [Hmt Harg] by (destruct Hh as [| ? ? ? ? ? ? []]; lia).
    apply (skip_body_exact k mt arg) in H2 as (r & Hform & Hr2); [|done..]. exists (h ++ r). split; [by exists mt, arg, h, r|].
    apply reads_app. eauto.
  - intros (bs & (mt & arg & h & r & Hh & -> & Hform) & Hr). apply reads_app in Hr as (c1 & Hr1 & Hr2).
    pose proof (reads_order _ _ _ Hr1) as [Hc1 _].
    assert (0 <= mt < 8 /\ 0 <= arg) as [Hmt Harg] by (destruct Hh as [| ? ? ? ? ? ? []]; lia).
    exists (mt, arg), c1. split; [by eapply cb_head_complete|]. apply (skip_body_exact k mt arg); [done..|]. eauto.
Qed.

End Skip.

(** The forms an item can have. *)
Lemma item_simple k mt arg h : head_bytes mt arg h -> mt = 0 \/ mt = 1 \/ mt = 7 -> item (S k) h.
Proof. intros Hh Hmt. exists mt, arg, h, []. split_and!; [done|by rewrite app_nil_r|by left]. Qed.

Lemma item_string k mt h r : head_bytes mt (zlen r) h -> mt = 2 \/ mt = 3 -> Forall byte_ok r -> item (S k) (h ++ r).
Proof. intros Hh Hmt Hr. exists mt, (zlen r), h, r. split_and!; [done|done|by right; left]. Qed.

Lemma item_array k h l : head_bytes 4 (zlen l) h -> Forall (item k) l -> item (S k) (h ++ concat l).
Proof. intros Hh Hl. exists 4, (zlen l), h, (concat l). split_and!; [done|done|]. right; right; left. split; [done|]. by exists l. Qed.

Lemma item_map k n h l : head_bytes 5 n h -> zlen l = 2 * n -> Forall (item k) l -> item (S k) (h ++ concat l).
Proof. intros Hh Hn Hl. exists 5, n, h, (concat l). split_and!; [done|done|]. do 3 right; left. split; [done|]. by exists l. Qed.

(** [cb_skip] always answers, and it moves the cursor over a byte string
    exactly when that string is one data item of at most 21 levels: every
    major type, heads of any length, and nothing else. *)
Theorem cb_skip_exact m c :
  (forall a, byte_ok (m a)) -> cb_p c <= cb_end c ->
  cb_skip m c <> NoFuel /\
  forall c', cb_skip m c = Ok tt c' <-> exists bs, item (S CB_MAX_DEPTH) bs /\ reads m c bs c'.
Proof.
  intros Hm Hc. split; [|intros c'; by apply (skip_d_exact m Hm (S CB_MAX_DEPTH))].
  destruct (sound_skip (lo := cb_p c) (hi := cb_end c) m m c) as [_ H]; [by split|by unfold placed; lia|].
  intros E. by rewrite E in H.
Qed.

Lemma cb_skip_exact_witness :
  cb_skip (mem_of [0x82; 0x61; 0x41; 0xa1; 0x00; 0xf5; 0x99]) {| cb_p := 0; cb_end := 7 |} = Ok tt {| cb_p := 6; cb_end := 7 |}.
Proof.
  apply (cb_skip_exact (mem_of [0x82; 0x61; 0x41; 0xa1; 0x00; 0xf5; 0x99]) {| cb_p := 0; cb_end := 7 |}).
  - intros a. apply byte_at_ok. by apply bytes_all; vm_compute.
  - by vm_compute.
  - exists [0x82; 0x61; 0x41; 0xa1; 0x00; 0xf5]. split; [|by vm_compute].
    apply (item_array _ [0x82] [[0x61; 0x41]; [0xa1; 0x00; 0xf5]]); [by apply (HeadSmall 4 2)|].
    constructor; [|constructor; [|constructor]].
    + apply (item_string _ 3 [0x61] [0x41]); [by apply (HeadSmall 3 1)|by right|by apply bytes_all; vm_compute].
    + apply (item_map _ 1 [0xa1] [[0x00]; [0xf5]]); [by apply (HeadSmall 5 1)|done|].
      constructor; [|constructor; [|constructor]].
      * apply (item_simple _ 0 0); [by apply (HeadSmall 0 0)|by left].
      * apply (item_simple _ 7 21); [by apply (HeadSmall 7 21)|by right; right].
Defined.
