(* ===== verification/StepupParse.v ===== *)
(** * The step-up document parser

    Models [modules/ultrawidelock_cred/src/ultrawidelock_stepup_parse.c] and the
    parsed document of [ultrawidelock_stepup.h]: an ISO 18013-5 DeviceResponse
    with its IssuerAuth, MobileSecurityObject and disclosed items.

    The document is threaded through the parsers; what the C code has written
    to it when a parse fails is not represented, because no caller reads it
    then.  Pointers into the buffer are slices, null ones [None].  A [char]
    array is the list of its bytes.  The capacities and the lean build are the
    parameters of the class [stepup_cfg]. *)

From Stdlib Require Import ZArith Lia Bool.
From stdpp Require Import base list numbers option.
From S2P Require Import Prelude Wire Cbor.

Local Open Scope Z_scope.
Local Open Scope uwl_scope.

Class stepup_cfg := {
  STEPUP_MAX_DIGESTS : Z;
  STEPUP_MAX_ITEMS : Z;
  STEPUP_LEAN : bool;
}.

Definition STEPUP_ID_MAX : Z := 32.
Definition TRUNC_DOC_TYPE : Z := 0x01.
Definition TRUNC_MSO_DOC_TYPE : Z := 0x02.
Definition TRUNC_NAME_SPACE : Z := 0x04.
Definition TRUNC_DIGEST_ALG : Z := 0x08.
Definition TRUNC_VERSION : Z := 0x10.
Definition TRUNC_ELEM_ID : Z := 0x20.

Record stepup_digest := { dg_id : Z; dg_hash : list Z }.

Record stepup_item := {
  it_digest_id : Z;
  it_tagged : slice;
  it_elem_id : list Z;
  it_value : option slice;
}.

#[export] Instance stepup_item_eta : Eta stepup_item := fun i =>
  {| it_digest_id := it_digest_id i; it_tagged := it_tagged i; it_elem_id := it_elem_id i; it_value := it_value i |}.

(** A parsed tdate: whether it was understood, the epoch seconds, the raw text. *)
Record tdate := { td_have : bool; td_epoch : Z; td_raw : option slice }.

Record stepup_doc := {
  sd_have_document : bool;
  sd_status : Z;
  sd_version : list Z;
  sd_doc_type : list Z;
  sd_name_space : list Z;
  sd_protected_hdr : option slice;
  sd_cose_alg : option Z;
  sd_kid : option slice;
  sd_x5chain : option slice;
  sd_x5_cert : option slice;
  sd_payload : option slice;
  sd_signature : option slice;
  sd_digest_alg : list Z;
  sd_mso_doc_type : list Z;
  sd_digests : list stepup_digest;
  sd_n_digests_dropped : Z;
  sd_device_key : option (list Z);
  sd_signed : tdate;
  sd_valid_from : tdate;
  sd_valid_until : tdate;
  sd_iteration : option Z;
  sd_time_verification_required : option bool;
  sd_items : list stepup_item;
  sd_n_items_dropped : Z;
  sd_truncated : Z;
}.

#[export] Instance stepup_doc_eta : Eta stepup_doc := fun d =>
  {| sd_have_document := sd_have_document d; sd_status := sd_status d; sd_version := sd_version d;
     sd_doc_type := sd_doc_type d; sd_name_space := sd_name_space d; sd_protected_hdr := sd_protected_hdr d;
     sd_cose_alg := sd_cose_alg d; sd_kid := sd_kid d; sd_x5chain := sd_x5chain d; sd_x5_cert := sd_x5_cert d;
     sd_payload := sd_payload d; sd_signature := sd_signature d; sd_digest_alg := sd_digest_alg d;
     sd_mso_doc_type := sd_mso_doc_type d; sd_digests := sd_digests d;
     sd_n_digests_dropped := sd_n_digests_dropped d; sd_device_key := sd_device_key d; sd_signed := sd_signed d;
     sd_valid_from := sd_valid_from d; sd_valid_until := sd_valid_until d; sd_iteration := sd_iteration d;
     sd_time_verification_required := sd_time_verification_required d; sd_items := sd_items d;
     sd_n_items_dropped := sd_n_items_dropped d; sd_truncated := sd_truncated d |}.

Definition str_zero : list Z := replicate (Z.to_nat STEPUP_ID_MAX) 0.
Definition no_tdate : tdate := {| td_have := false; td_epoch := 0; td_raw := None |}.
Definition item_zero : stepup_item :=
  {| it_digest_id := 0; it_tagged := {| sl_off := 0; sl_len := 0 |}; it_elem_id := str_zero; it_value := None |}.

(** [memset(doc, 0, sizeof( *doc))] *)
Definition doc_zero : stepup_doc :=
  {| sd_have_document := false; sd_status := 0; sd_version := str_zero; sd_doc_type := str_zero;
     sd_name_space := str_zero; sd_protected_hdr := None; sd_cose_alg := None; sd_kid := None; sd_x5chain := None;
     sd_x5_cert := None; sd_payload := None; sd_signature := None; sd_digest_alg := str_zero;
     sd_mso_doc_type := str_zero; sd_digests := []; sd_n_digests_dropped := 0; sd_device_key := None;
     sd_signed := no_tdate; sd_valid_from := no_tdate; sd_valid_until := no_tdate; sd_iteration := None;
     sd_time_verification_required := None; sd_items := []; sd_n_items_dropped := 0; sd_truncated := 0 |}.

(** The array after [str_copy], and whether the text was cut. *)
Definition str_copy (dst s : list Z) : list Z * bool :=
  let cap := zlen dst in
  let k := if zlen s <? cap - 1 then zlen s else cap - 1 in
  (take (Z.to_nat k) s ++ [0] ++ drop (Z.to_nat k + 1) dst, negb (k =? zlen s)).

Definition key_is (s : list Z) (c : Z) : bool := (zlen s =? 1) && (byte_at s 0 =? c).

(** [truncated |= flag] when the text was cut. *)
Definition note_cut (cut : bool) (flag : Z) (truncated : Z) : Z := if cut then Z.lor truncated flag else truncated.

(** ** Dates *)

Definition digit2 (s : list Z) (i : Z) : option Z :=
  let d0 := byte_at s i in
  let d1 := byte_at s (i + 1) in
  if (d0 <? 48) || (57 <? d0) || (d1 <? 48) || (57 <? d1) then None
  else Some ((d0 - 48) * 10 + (d1 - 48)).

Definition days_from_civil (y m d : Z) : Z :=
  let y := y - (if m <=? 2 then 1 else 0) in
  let era := Z.quot (if 0 <=? y then y else y - 399) 400 in
  let yoe := u32 (y - era * 400) in
  let doy := u32 (u32 (153 * u32 (m + (if 2 <? m then u32 (-3) else 9)) + 2) / 5 + d - 1) in
  let doe := u32 (u32 (yoe * 365) + yoe / 4 - yoe / 100 + doy) in
  era * 146097 + doe - 719468.

Definition tdate_epoch (s : list Z) : option Z :=
  if negb (zlen s =? 20) || negb (byte_at s 4 =? 45) || negb (byte_at s 7 =? 45) ||
     (negb (byte_at s 10 =? 84) && negb (byte_at s 10 =? 32)) || negb (byte_at s 13 =? 58) ||
     negb (byte_at s 16 =? 58) || negb (byte_at s 19 =? 90)
  then None else
  yhi ← digit2 s 0; ylo ← digit2 s 2; mo ← digit2 s 5; da ← digit2 s 8;
  hh ← digit2 s 11; mm ← digit2 s 14; ss ← digit2 s 17;
  let year := yhi * 100 + ylo in
  if (mo <? 1) || (12 <? mo) || (da <? 1) || (31 <? da) || (23 <? hh) || (59 <? mm) || (60 <? ss) then None
  else Some (days_from_civil year mo da * 86400 + hh * 3600 + mm * 60 + ss).

(** ** MobileSecurityObject *)

(** A text string and its bytes. *)
Definition cb_text : parser (list Z) := s ← cb_tstr; bytes_of s.

Record cose_walk := { cw_kty : option Z; cw_crv : option Z; cw_x : slice; cw_y : slice }.

#[export] Instance cose_walk_eta : Eta cose_walk := fun w =>
  {| cw_kty := cw_kty w; cw_crv := cw_crv w; cw_x := cw_x w; cw_y := cw_y w |}.

Definition no_slice : slice := {| sl_off := 0; sl_len := 0 |}.

Definition cose_field (w : cose_walk) : parser cose_walk :=
  label ← cb_int_key;
  if label =? 1 then kty ← cb_int_key; mret ((w <| cw_kty := Some kty |>))
  else if label =? -1 then crv ← cb_int_key; mret ((w <| cw_crv := Some crv |>))
  else if label =? -2 then x ← cb_bstr; mret ((w <| cw_x := x |>))
  else if label =? -3 then y ← cb_bstr; mret ((w <| cw_y := y |>))
  else cb_skip ≫= fun _ => mret w.

(** The point of an EC2 P-256 key, if it is one. *)
Definition extract_cose_key : parser (option (list Z)) :=
  n ← cb_map;
  w ← for_each n cose_field {| cw_kty := None; cw_crv := None; cw_x := no_slice; cw_y := no_slice |};
  if bool_decide (cw_kty w = Some 2) && bool_decide (cw_crv w = Some 1) && (sl_len (cw_x w) =? 32) &&
     (sl_len (cw_y w) =? 32)
  then x ← bytes_of (cw_x w); y ← bytes_of (cw_y w); mret (Some (0x04 :: x ++ y))
  else mret None.

(** Where the device key is: at key "1", else at the first "4". *)
Definition find_device_key : parser (option cbor) :=
  n ← cb_map;
  t ← for_until n (fun legacy =>
        k ← cb_text; here ← cursor;
        if key_is k 49 then mret (Stop here)
        else cb_skip ≫= fun _ =>
             mret (Next (if key_is k 52 && negb (bool_decide (is_Some legacy)) then Some here else legacy))) None;
  mret (match t with Stop here => Some here | Next legacy => legacy end).

Definition extract_device_key_info (d : stepup_doc) : parser stepup_doc :=
  where_ ← attempt find_device_key;
  match mjoin where_ with
  | None => mret d
  | Some c =>
      key ← attempt (at_cursor c extract_cose_key);
      mret (match mjoin key with Some k => d <| sd_device_key := Some k |> | None => d end)
  end.

(** One date of the validity object. *)
Definition parse_tdate : parser tdate :=
  tag ← cb_tag;
  require (tag =? 0) ≫= fun _ =>
  s ← cb_tstr; t ← bytes_of s;
  let ep := tdate_epoch t in
  mret {| td_have := bool_decide (is_Some ep); td_epoch := default 0 ep;
          td_raw := if sl_len s =? 20 then Some s else None |}.

Definition validity_field (d : stepup_doc) : parser stepup_doc :=
  k ← cb_text;
  if key_is k 53 then it ← cb_uint; mret (d <| sd_iteration := Some it |>)
  else if key_is k 49 then t ← parse_tdate; mret (d <| sd_signed := t |>)
  else if key_is k 50 then t ← parse_tdate; mret (d <| sd_valid_from := t |>)
  else if key_is k 51 then t ← parse_tdate; mret (d <| sd_valid_until := t |>)
  else cb_skip ≫= fun _ => mret d.

Definition parse_validity (d : stepup_doc) : parser stepup_doc := n ← cb_map; for_each n validity_field d.

Section Parser.
Context `{stepup_cfg}.

Definition add_digest (d : stepup_doc) (id : Z) (h : list Z) : stepup_doc :=
  if (zlen h =? 32) && (zlen (sd_digests d) <? STEPUP_MAX_DIGESTS)
  then d <| sd_digests := sd_digests d ++ [{| dg_id := id; dg_hash := h |}] |>
  else if zlen h =? 32 then d <| sd_n_digests_dropped := sd_n_digests_dropped d + 1 |>
  else d.

Definition parse_digest (d : stepup_doc) : parser stepup_doc :=
  id ← cb_uint; h ← cb_bstr; bytes ← bytes_of h; mret (add_digest d id bytes).

Definition parse_value_digests (d : stepup_doc) : parser stepup_doc :=
  nns ← cb_map;
  for_each nns (fun d => cb_tstr ≫= fun _ => nd ← cb_map; for_each nd parse_digest d) d.

(** The item at the cursor is skipped and then looked into. *)
Definition device_key_info (d : stepup_doc) : parser stepup_doc :=
  dk ← cursor; cb_skip ≫= fun _ => at_cursor dk (extract_device_key_info d).

Definition mso_field (d : stepup_doc) : parser stepup_doc :=
  k ← cb_text;
  if key_is k 50 then
    s ← cb_text;
    let '(t, cut) := str_copy (sd_digest_alg d) s in
    mret (d <| sd_digest_alg := t |> <| sd_truncated := note_cut cut TRUNC_DIGEST_ALG (sd_truncated d) |>)
  else if key_is k 51 then parse_value_digests d
  else if key_is k 53 then
    s ← cb_text;
    let '(t, cut) := str_copy (sd_mso_doc_type d) s in
    mret (d <| sd_mso_doc_type := t |> <| sd_truncated := note_cut cut TRUNC_MSO_DOC_TYPE (sd_truncated d) |>)
  else if key_is k 54 then parse_validity d
  else if key_is k 55 then b ← cb_bool; mret (d <| sd_time_verification_required := Some b |>)
  else if key_is k 52 then device_key_info d
  else cb_skip ≫= fun _ => mret d.

Definition parse_mso (d : stepup_doc) : parser stepup_doc := n ← cb_map; for_each n mso_field d.

(** ** IssuerAuth *)

(** The algorithm of a protected header, if one is found on the way. *)
Definition cose_alg : parser (option Z) :=
  np ← cb_map;
  t ← for_until np (fun _ =>
        label ← attempt cb_int_key;
        cb_skip ≫= fun _ =>
        if bool_decide (label = Some 1) then v ← attempt cb_int_key; mret (Stop v)
        else cb_skip ≫= fun _ => mret (Next tt)) tt;
  mret (match t with Stop v => v | Next _ => None end).

(** The first certificate of an x5chain. *)
Definition ee_cert : parser (option slice) :=
  '(mt, arg) ← cb_head;
  '(mt, arg) ← (if (mt =? 4) && (1 <=? arg) then h ← attempt cb_head; mret (default (0xff, arg) h)
                else mret (mt, arg));
  xc ← cursor;
  mret (if (mt =? 2) && (0 <? arg) && (arg <=? cb_left xc) then Some {| sl_off := cb_p xc; sl_len := arg |} else None).

Definition unprotected_field (d : stepup_doc) : parser stepup_doc :=
  label ← cb_int_key;
  if label =? 4 then kid ← cb_bstr; mret (d <| sd_kid := Some kid |>)
  else if (label =? 33) && negb STEPUP_LEAN then
    x ← cb_raw;
    cert ← attempt (at_cursor (slice_cursor x) ee_cert);
    let d := d <| sd_x5chain := Some x |> in
    mret (match mjoin cert with Some c => d <| sd_x5_cert := Some c |> | None => d end)
  else cb_skip ≫= fun _ => mret d.

(** [24(bstr)]: the bytes wrapped. *)
Definition cb_wrapped : parser slice := tag ← cb_tag; require (tag =? 24) ≫= fun _ => cb_bstr.

Definition parse_issuer_auth (d : stepup_doc) : parser stepup_doc :=
  n ← cb_arr;
  require (n =? 4) ≫= fun _ =>
  prot ← cb_bstr;
  let d := d <| sd_protected_hdr := Some prot |> in
  alg ← (if STEPUP_LEAN then mret None else attempt (at_cursor (slice_cursor prot) cose_alg));
  let d := match mjoin alg with Some a => d <| sd_cose_alg := Some a |> | None => d end in
  nu ← cb_map;
  d ← for_each nu unprotected_field d;
  payload ← cb_bstr; sig ← cb_bstr;
  require (sl_len sig =? 64) ≫= fun _ =>
  let d := d <| sd_signature := Some sig |> <| sd_payload := Some payload |> in
  mso ← at_cursor (slice_cursor payload) cb_wrapped;
  at_cursor (slice_cursor mso) (parse_mso d).

(** ** Disclosed items *)

Definition item_field (acc : stepup_item * Z) : parser (stepup_item * Z) :=
  let '(it, truncated) := acc in
  k ← cb_text;
  if key_is k 49 then id ← cb_uint; mret (it <| it_digest_id := id |>, truncated)
  else if key_is k 51 then
    s ← cb_text;
    let '(t, cut) := str_copy (it_elem_id it) s in
    mret (it <| it_elem_id := t |>, note_cut cut TRUNC_ELEM_ID truncated)
  else if key_is k 52 then v ← cb_raw; mret (it <| it_value := Some v |>, truncated)
  else cb_skip ≫= fun _ => mret (it, truncated).

Definition parse_one_item (truncated : Z) : parser (stepup_item * Z) :=
  '(inner, tagged) ← cb_span cb_wrapped;
  let it := item_zero <| it_tagged := tagged |> in
  at_cursor (slice_cursor inner) (n ← cb_map; for_each n item_field (it, truncated)).

Definition disclosed_item (d : stepup_doc) : parser stepup_doc :=
  if zlen (sd_items d) <? STEPUP_MAX_ITEMS then
    '(it, truncated) ← parse_one_item (sd_truncated d);
    mret (d <| sd_items := sd_items d ++ [it] |> <| sd_truncated := truncated |>)
  else cb_skip ≫= fun _ => mret (d <| sd_n_items_dropped := sd_n_items_dropped d + 1 |>).

(** The first name that is not empty is kept. *)
Definition note_name_space (d : stepup_doc) (ns : list Z) : stepup_doc :=
  if byte_at (sd_name_space d) 0 =? 0 then
    let '(t, cut) := str_copy (sd_name_space d) ns in
    d <| sd_name_space := t |> <| sd_truncated := note_cut cut TRUNC_NAME_SPACE (sd_truncated d) |>
  else d.

Definition parse_name_spaces (d : stepup_doc) : parser stepup_doc :=
  nns ← cb_map;
  for_each nns (fun d => ns ← cb_text; nit ← cb_arr; for_each nit disclosed_item (note_name_space d ns)) d.

(** ** The response *)

Definition issuer_signed_field (d : stepup_doc) : parser stepup_doc :=
  k ← cb_text;
  if key_is k 49 then parse_name_spaces d
  else if key_is k 50 then parse_issuer_auth d
  else cb_skip ≫= fun _ => mret d.

Definition parse_issuer_signed (d : stepup_doc) : parser stepup_doc := n ← cb_map; for_each n issuer_signed_field d.

Definition document_field (d : stepup_doc) : parser stepup_doc :=
  k ← cb_text;
  if key_is k 49 then parse_issuer_signed d
  else if key_is k 53 then
    s ← cb_text;
    let '(t, cut) := str_copy (sd_doc_type d) s in
    mret (d <| sd_doc_type := t |> <| sd_truncated := note_cut cut TRUNC_DOC_TYPE (sd_truncated d) |>)
  else cb_skip ≫= fun _ => mret d.

Definition parse_document (d : stepup_doc) : parser stepup_doc := n ← cb_map; for_each n document_field d.

(** Only the first document of the array is looked into. *)
Definition parse_documents (d : stepup_doc) : parser stepup_doc :=
  nd ← cb_arr;
  '(_, d) ← for_each nd (fun s : bool * stepup_doc =>
      let '(first, d) := s in
      if first then d ← parse_document (d <| sd_have_document := true |>); mret (false, d)
      else cb_skip ≫= fun _ => mret (false, d)) (true, d);
  mret d.

(** The version is kept when it is a text. *)
Definition parse_version (d : stepup_doc) : parser stepup_doc :=
  vc ← cursor; cb_skip ≫= fun _ =>
  s ← attempt (at_cursor vc cb_text);
  mret (match s with
        | Some s =>
            let '(t, cut) := str_copy (sd_version d) s in
            d <| sd_version := t |> <| sd_truncated := note_cut cut TRUNC_VERSION (sd_truncated d) |>
        | None => d
        end).

Definition response_field (d : stepup_doc) : parser stepup_doc :=
  k ← cb_text;
  if key_is k 50 then parse_documents d
  else if key_is k 51 then st ← cb_uint; mret (d <| sd_status := i32 st |>)
  else if key_is k 49 then parse_version d
  else cb_skip ≫= fun _ => mret d.

Definition parse_response (len : Z) (m : memory) : result stepup_doc :=
  (n ← cb_map; for_each n response_field doc_zero) m {| cb_p := 0; cb_end := len |}.

End Parser.
