(* ===== verification/StepupParseProps.v ===== *)
(** * The step-up parser stays inside its buffer and always answers

    The invariant of a parsed document, and for every parser of
    [StepupParse] the statement of the program logic of [Cbor]: its result
    depends on the buffer alone, it does not run out of fuel, and it keeps the
    invariant.  Also: the item grammar that is skipped, and the calendar. *)

From Stdlib Require Import ZArith Lia Bool.
From stdpp Require Import base list numbers option.
From S2P Require Import Prelude Wire Cbor StepupParse.

Local Open Scope Z_scope.
Local Open Scope uwl_scope.

(** A [char[32]] that is terminated inside. *)
Definition cstr_ok (s : list Z) : Prop := zlen s = STEPUP_ID_MAX /\ 0 ∈ s /\ Forall byte_ok s.

Definition opt_ok {A} (P : A -> Prop) (o : option A) : Prop := forall a, o = Some a -> P a.

Section Invariant.
Context `{stepup_cfg} (lo hi : Z).

Definition digest_ok (g : stepup_digest) : Prop := in_u 64 (dg_id g) /\ zlen (dg_hash g) = 32 /\ Forall byte_ok (dg_hash g).

Definition item_ok (i : stepup_item) : Prop :=
  in_u 64 (it_digest_id i) /\ inside lo hi (it_tagged i) /\ cstr_ok (it_elem_id i) /\ opt_ok (inside lo hi) (it_value i).

Definition tdate_ok (t : tdate) : Prop := opt_ok (fun s => inside lo hi s /\ sl_len s = 20) (td_raw t).

Record doc_ok (d : stepup_doc) : Prop := {
  dok_status : in_i 32 (sd_status d);
  dok_version : cstr_ok (sd_version d);
  dok_doc_type : cstr_ok (sd_doc_type d);
  dok_name_space : cstr_ok (sd_name_space d);
  dok_protected : opt_ok (inside lo hi) (sd_protected_hdr d);
  dok_alg : opt_ok (in_i 64) (sd_cose_alg d);
  dok_kid : opt_ok (inside lo hi) (sd_kid d);
  dok_x5chain : opt_ok (inside lo hi) (sd_x5chain d);
  dok_x5_cert : opt_ok (inside lo hi) (sd_x5_cert d);
  dok_payload : opt_ok (inside lo hi) (sd_payload d);
  dok_signature : opt_ok (fun s => inside lo hi s /\ sl_len s = 64) (sd_signature d);
  dok_digest_alg : cstr_ok (sd_digest_alg d);
  dok_mso_doc_type : cstr_ok (sd_mso_doc_type d);
  dok_digests : zlen (sd_digests d) <= Z.max 0 STEPUP_MAX_DIGESTS /\ Forall digest_ok (sd_digests d);
  dok_device_key : opt_ok (fun k => zlen k = 65 /\ Forall byte_ok k) (sd_device_key d);
  dok_signed : tdate_ok (sd_signed d);
  dok_valid_from : tdate_ok (sd_valid_from d);
  dok_valid_until : tdate_ok (sd_valid_until d);
  dok_iteration : opt_ok (in_u 64) (sd_iteration d);
  dok_items : zlen (sd_items d) <= Z.max 0 STEPUP_MAX_ITEMS /\ Forall item_ok (sd_items d);
  dok_truncated : in_u 8 (sd_truncated d);
}.

Lemma opt_ok_none {A} (P : A -> Prop) : opt_ok P None.
Proof. done. Qed.

Lemma opt_ok_some {A} (P : A -> Prop) a : P a -> opt_ok P (Some a).
Proof. by intros ? ? [= <-]. Qed.

Lemma cstr_zero : cstr_ok str_zero.
Proof. split_and!; [done|by left|]. unfold str_zero. cbn. repeat constructor; (unfold byte_ok; lia). Qed.

Lemma str_copy_ok dst s : cstr_ok dst -> Forall byte_ok s -> cstr_ok (str_copy dst s).1.
Proof.
  intros (Hl & _ & Hd) Hs. unfold str_copy. rewrite Hl. set (k := if _ <? _ then _ else _). cbn [fst].
  assert (0 <= k <= 31 /\ k <= zlen s) as [Hk Hks].
  { subst k. unfold STEPUP_ID_MAX. pose proof (zlen_nonneg s). destruct (Z.ltb_spec (zlen s) (32 - 1)); lia. }
  unfold cstr_ok, zlen, STEPUP_ID_MAX in *. split_and!.
  - rewrite !length_app, length_take, length_drop. cbn [length]. lia.
  - rewrite !elem_of_app. right. left. by left.
  - apply Forall_app; split; [by apply Forall_take|]. apply Forall_app; split; [|by apply Forall_drop].
    repeat constructor; (unfold byte_ok; lia).
Qed.

Lemma note_cut_ok cut flag t : in_u 8 flag -> in_u 8 t -> in_u 8 (note_cut cut flag t).
Proof. intros. unfold note_cut. destruct cut; [by apply lor_in_u|done]. Qed.

Lemma doc_zero_ok : doc_ok doc_zero.
Proof.
  assert (tdate_ok no_tdate) by apply opt_ok_none. pose proof cstr_zero.
  constructor; cbn; try exact (opt_ok_none _); try done; unfold in_i, in_u; try lia;
    (split; [unfold zlen; cbn; lia|constructor]).
Qed.

End Invariant.

(** Closing [doc_ok] of a document in which some fields were replaced. *)
Ltac doc_tac :=
  match goal with Hd : doc_ok _ _ ?d |- doc_ok _ _ _ => destruct Hd; constructor; cbn; try done end.

Section Sound.
Context `{stepup_cfg} {lo hi : Z}.

Abbreviation snd_ b P p := (sound lo hi b P p).
Abbreviation dok := (doc_ok lo hi).

Lemma sound_text : snd_ true (Forall byte_ok) cb_text.
Proof.
  cstep s Hs. eapply sound_weaken; [by apply sound_bytes|done|]. by intros a [Ha _].
Qed.

Lemma sound_load s : inside lo hi s -> snd_ false (Forall byte_ok) (bytes_of s).
Proof. intros Hs. eapply sound_weaken; [by apply sound_bytes|done|]. by intros a [Ha _]. Qed.
#[local] Hint Resolve sound_text sound_load : cbor.

Lemma sound_skip_then {B} (Q : B -> Prop) (k : parser B) :
  snd_ false Q k -> snd_ true Q (cb_skip ≫= fun _ => k).
Proof. intros Hk. by cstep u Hu. Qed.

(** The last branch of every field parser. *)
Lemma sound_skip_field {B} (Q : B -> Prop) (v : B) s : Q v -> (s = true -> true = true) -> snd_ s Q (cb_skip ≫= fun _ => mret v).
Proof.
  intros Hv Hs. eapply sound_weaken; [apply sound_skip_then, sound_ret; exact Hv| |done]. by intros.
Qed.

(** A sequence of [n] fields. *)
Lemma sound_fields {D} (I : D -> Prop) (header : parser Z) (body : D -> parser D) d :
  snd_ true (in_u 64) header -> (forall d, I d -> snd_ true I (body d)) -> I d ->
  snd_ true I (n ← header; for_each n body d).
Proof. intros Hh Hb Hd. eapply (sound_then true false); [exact Hh|done|]. intros n _. by apply sound_for. Qed.

(** *** MobileSecurityObject *)

Definition cose_ok (w : cose_walk) : Prop :=
  (inside lo hi (cw_x w) \/ sl_len (cw_x w) = 0) /\ (inside lo hi (cw_y w) \/ sl_len (cw_y w) = 0).

Lemma sound_cose_field w : cose_ok w -> snd_ true cose_ok (cose_field w).
Proof.
  intros [Hx Hy]. unfold cose_field. eapply (sound_then true false); [apply sound_int_key|done|]. intros label _.
  destruct (label =? 1); [cstep v Hv; by apply sound_ret|].
  destruct (label =? -1); [cstep v Hv; by apply sound_ret|].
  destruct (label =? -2); [cstep v Hv; apply sound_ret; by split; [left|]|].
  destruct (label =? -3); [cstep v Hv; apply sound_ret; by split; [|left]|].
  by apply sound_skip_field.
Qed.

Lemma sound_extract_cose_key : snd_ false (opt_ok (fun k => zlen k = 65 /\ Forall byte_ok k)) extract_cose_key.
Proof.
  unfold extract_cose_key. eapply (sound_then true false); [apply sound_expect|done|]. intros n _.
  eapply (sound_then false false); [apply (sound_for cose_ok); [apply sound_cose_field|by split; right]|done|].
  intros w [Hx Hy]. destruct (_ && _) eqn:E; [|by apply sound_ret].
  assert (sl_len (cw_x w) = 32 /\ sl_len (cw_y w) = 32) as [Ex Ey] by lia.
  destruct Hx as [Hx|]; [|lia]. destruct Hy as [Hy|]; [|lia].
  eapply (sound_then false false); [by apply sound_bytes|done|]. intros x [Bx Lx].
  eapply (sound_then false false); [by apply sound_bytes|done|]. intros y [By Ly].
  apply sound_ret, opt_ok_some. rewrite zlen_cons, zlen_app. unfold zlen. rewrite Lx, Ly, Ex, Ey.
  split; [done|]. constructor; [unfold byte_ok; lia|]. by apply Forall_app.
Qed.

Lemma sound_find_device_key : snd_ false (opt_ok (placed lo hi)) find_device_key.
Proof.
  unfold find_device_key. eapply (sound_then true false); [apply sound_expect|done|]. intros n _.
  eapply (sound_then false false); [apply (sound_for_until (opt_ok (placed lo hi)) (placed lo hi))|done|].
  - intros legacy Hl. eapply (sound_then true false); [apply sound_text|done|]. intros k _.
    eapply (sound_then false false); [apply sound_cursor|done|]. intros here Hh.
    destruct (key_is k 49); [by apply sound_ret|]. apply sound_skip_field; [|done].
    cbn. destruct (_ && _); [by apply opt_ok_some|done].
  - apply opt_ok_none.
  - intros [legacy|here] Ht; apply sound_ret; [done|by apply opt_ok_some].
Qed.

Lemma opt_ok_join {A} (P : A -> Prop) (o : option (option A)) :
  (forall x, o = Some x -> opt_ok P x) -> opt_ok P (mjoin o).
Proof. intros Ho. destruct o as [x|]; [by apply Ho|apply opt_ok_none]. Qed.

Lemma sound_device_key_info_body d : dok d -> snd_ false dok (extract_device_key_info d).
Proof.
  intros Hd. unfold extract_device_key_info.
  eapply (sound_then false false); [eapply sound_attempt, sound_find_device_key|done|]. intros w Hw.
  apply opt_ok_join in Hw. destruct (mjoin w) as [c|]; [|by apply sound_ret].
  eapply (sound_then false false); [eapply sound_attempt, sound_at, sound_extract_cose_key; by apply Hw|done|].
  intros key Hk. apply opt_ok_join in Hk. apply sound_ret. destruct (mjoin key) as [k|]; [|done].
  by doc_tac.
Qed.

Lemma sound_device_key_info d : dok d -> snd_ true dok (device_key_info d).
Proof.
  intros Hd. unfold device_key_info. eapply (sound_then false true); [apply sound_cursor|done|]. intros dk Hdk.
  apply sound_skip_then. eapply sound_at; [done|]. by apply sound_device_key_info_body.
Qed.

Lemma sound_tdate : snd_ true (tdate_ok lo hi) parse_tdate.
Proof.
  unfold parse_tdate. eapply (sound_then true false); [apply sound_expect|done|]. intros tag _.
  eapply (sound_then false false); [apply sound_require|done|]. intros _ _.
  eapply (sound_then true false); [apply sound_slice|done|]. intros s Hs.
  eapply (sound_then false false); [by apply sound_load|done|]. intros t _.
  apply sound_ret. unfold tdate_ok. cbn. destruct (Z.eqb_spec (sl_len s) 20); [by apply opt_ok_some|apply opt_ok_none].
Qed.

Lemma sound_validity_field d : dok d -> snd_ true dok (validity_field d).
Proof.
  intros Hd. unfold validity_field. eapply (sound_then true false); [apply sound_text|done|]. intros k _.
  destruct (key_is k 53).
  { eapply (sound_then true false); [apply sound_expect|done|]. intros it Hit. apply sound_ret. doc_tac. by apply opt_ok_some. }
  destruct (key_is k 49); [|destruct (key_is k 50); [|destruct (key_is k 51)]].
  1, 2, 3: eapply (sound_then true false); [apply sound_tdate|done|]; intros t Ht; apply sound_ret; by doc_tac.
  by apply sound_skip_field.
Qed.

Lemma sound_digest d : dok d -> snd_ true dok (parse_digest d).
Proof.
  intros Hd. unfold parse_digest. eapply (sound_then true false); [apply sound_expect|done|]. intros id Hid.
  eapply (sound_then true false); [apply sound_slice|done|]. intros h Hh.
  eapply (sound_then false false); [by apply sound_load|done|]. intros b Hb. apply sound_ret. unfold add_digest.
  destruct (_ && _) eqn:E; [|destruct (_ =? _); [by doc_tac|done]].
  destruct (dok_digests _ _ _ Hd) as [H1 H2]. doc_tac. rewrite zlen_app, zlen_cons. change (zlen []) with 0.
  split; [lia|]. apply Forall_app; split; [done|]. repeat constructor; [apply Hid..|cbn; lia|done].
Qed.

Lemma sound_value_digests d : dok d -> snd_ true dok (parse_value_digests d).
Proof.
  intros Hd. unfold parse_value_digests. apply sound_fields; [apply sound_expect| |done]. intros d' Hd'.
  eapply (sound_then true true); [apply sound_slice|done|]. intros ns _.
  apply sound_fields; [apply sound_expect|apply sound_digest|done].
Qed.

(** A text field of the document. *)
Lemma sound_copy (s0 : list Z) (f : list Z -> bool -> stepup_doc) :
  cstr_ok s0 -> (forall t cut, cstr_ok t -> dok (f t cut)) ->
  snd_ true dok (s ← cb_text; let '(t, cut) := str_copy s0 s in mret (f t cut)).
Proof.
  intros Hs Hf. eapply (sound_then true false); [apply sound_text|done|]. intros s Hb.
  pose proof (str_copy_ok s0 s Hs Hb) as Ht. destruct (str_copy s0 s) as [t cut]. apply sound_ret. by apply Hf.
Qed.

Lemma sound_drop_strict {B} (P : B -> Prop) p : snd_ true P p -> snd_ false P p.
Proof. intros Hp. by eapply sound_weaken. Qed.

Lemma sound_mso_field d : dok d -> snd_ true dok (mso_field d).
Proof.
  intros Hd. unfold mso_field. eapply (sound_then true false); [apply sound_text|done|]. intros k _.
  destruct (key_is k 50).
  { apply sound_drop_strict, sound_copy; [by eapply dok_digest_alg|]. intros t cut Ht. doc_tac. by apply note_cut_ok. }
  destruct (key_is k 51); [by apply sound_drop_strict, sound_value_digests|].
  destruct (key_is k 53).
  { apply sound_drop_strict, sound_copy; [by eapply dok_mso_doc_type|]. intros t cut Ht. doc_tac. by apply note_cut_ok. }
  destruct (key_is k 54); [by apply sound_drop_strict, sound_fields; [apply sound_expect|apply sound_validity_field|]|].
  destruct (key_is k 55); [eapply (sound_then true false); [apply sound_bool|done|]; intros b _; apply sound_ret; by doc_tac|].
  destruct (key_is k 52); [by apply sound_drop_strict, sound_device_key_info|]. by apply sound_skip_field.
Qed.

(** *** IssuerAuth *)

Lemma sound_cose_alg : snd_ false (opt_ok (in_i 64)) cose_alg.
Proof.
  unfold cose_alg. eapply (sound_then true false); [apply sound_expect|done|]. intros np _.
  eapply (sound_then false false); [apply (sound_for_until (fun _ => True) (opt_ok (in_i 64)))|done|].
  - intros [] _. eapply (sound_then false true); [eapply sound_attempt, sound_int_key|done|]. intros label _.
    apply sound_skip_then. case_bool_decide; [|by apply sound_skip_field].
    eapply (sound_then false false); [eapply sound_attempt, sound_int_key|done|]. intros v Hv. apply sound_ret. exact Hv.
  - done.
  - intros [u|v] Ht; apply sound_ret; [apply opt_ok_none|done].
Qed.

Lemma sound_ee_cert : snd_ false (opt_ok (inside lo hi)) ee_cert.
Proof.
  unfold ee_cert. eapply (sound_then true false); [apply sound_head|done|]. intros [mt arg] _.
  eapply (sound_then false false _ (fun _ => True)); [|done|].
  - destruct (_ && _); [|by apply sound_ret].
    eapply (sound_then false false); [eapply sound_attempt, sound_head|done|]. intros h _. by apply sound_ret.
  - intros [mt' arg'] _. eapply (sound_then false false); [apply sound_cursor|done|]. intros xc Hxc.
    apply sound_ret. destruct (_ && _) eqn:E; [|apply opt_ok_none]. apply opt_ok_some.
    unfold inside, placed, cb_left in *. cbn. lia.
Qed.

Lemma sound_unprotected_field d : dok d -> snd_ true dok (unprotected_field d).
Proof.
  intros Hd. unfold unprotected_field. eapply (sound_then true false); [apply sound_int_key|done|]. intros label _.
  destruct (label =? 4).
  { eapply (sound_then true false); [apply sound_slice|done|]. intros kid Hk. apply sound_ret. doc_tac. by apply opt_ok_some. }
  destruct (_ && _); [|by apply sound_skip_field].
  eapply (sound_then true false); [apply sound_raw|done|]. intros x Hx.
  eapply (sound_then false false); [eapply sound_attempt, sound_at, sound_ee_cert; by apply inside_placed|done|].
  intros cert Hc. apply opt_ok_join in Hc. apply sound_ret.
  destruct (mjoin cert) as [c|]; doc_tac; try (by apply opt_ok_some).
Qed.

Lemma sound_wrapped : snd_ true (inside lo hi) cb_wrapped.
Proof.
  unfold cb_wrapped. eapply (sound_then true false); [apply sound_expect|done|]. intros tag _.
  eapply (sound_then false false); [apply sound_require|done|]. intros _ _. apply sound_drop_strict, sound_slice.
Qed.

Lemma sound_issuer_auth d : dok d -> snd_ true dok (parse_issuer_auth d).
Proof.
  intros Hd. unfold parse_issuer_auth. eapply (sound_then true false); [apply sound_expect|done|]. intros n _.
  eapply (sound_then false false); [apply sound_require|done|]. intros _ _.
  eapply (sound_then true false); [apply sound_slice|done|]. intros prot Hp.
  eapply (sound_then false false _ (fun o : option (option Z) => forall x, o = Some x -> opt_ok (in_i 64) x)); [|done|].
  { destruct STEPUP_LEAN; [by apply sound_ret|]. eapply sound_attempt, sound_at, sound_cose_alg. by apply inside_placed. }
  intros alg Ha. apply opt_ok_join in Ha. cbv zeta.
  set (d1 := match mjoin alg with Some a => _ | None => _ end).
  assert (dok d1) as Hd1.
  { subst d1. destruct (mjoin alg) as [a|]; doc_tac; try (by apply opt_ok_some). }
  eapply (sound_then true false); [apply sound_expect|done|]. intros nu _.
  eapply (sound_then false false); [by apply sound_for; [apply sound_unprotected_field|]|done|]. intros d2 Hd2.
  eapply (sound_then true false); [apply sound_slice|done|]. intros payload Hpl.
  eapply (sound_then true false); [apply sound_slice|done|]. intros sig Hs.
  eapply (sound_then false false); [apply sound_require|done|]. intros ? Hlen. cbn beta in Hlen.
  eapply (sound_then false false); [eapply sound_at, sound_wrapped; by apply inside_placed|done|]. intros mso Hm.
  eapply sound_at; [by apply inside_placed|]. eapply (sound_fields _ _ _ _ (sound_expect 5)); [apply sound_mso_field|].
  doc_tac; apply opt_ok_some; [done|split; [done|lia]].
Qed.

(** *** Disclosed items and the response *)

Lemma sound_item_field acc :
  item_ok lo hi acc.1 /\ in_u 8 acc.2 -> snd_ true (fun a => item_ok lo hi a.1 /\ in_u 8 a.2) (item_field acc).
Proof.
  destruct acc as [it tr]. intros [(H1 & H2 & H3 & H4) Ht]. cbn [fst snd] in *. unfold item_field.
  eapply (sound_then true false); [apply sound_text|done|]. intros k _.
  destruct (key_is k 49); [eapply (sound_then true false); [apply sound_expect|done|]; intros id Hid; by apply sound_ret|].
  destruct (key_is k 51).
  { eapply (sound_then true false); [apply sound_text|done|]. intros s Hs. pose proof (str_copy_ok _ _ H3 Hs) as Hc.
    destruct (str_copy (it_elem_id it) s) as [t cut]. apply sound_ret. split; [done|]. by apply note_cut_ok. }
  destruct (key_is k 52); [|by apply sound_skip_field].
  eapply (sound_then true false); [apply sound_raw|done|]. intros v Hv. apply sound_ret. split; [|done].
  split_and!; try done. by apply opt_ok_some.
Qed.

Lemma sound_one_item tr : in_u 8 tr -> snd_ true (fun a => item_ok lo hi a.1 /\ in_u 8 a.2) (parse_one_item tr).
Proof.
  intros Ht. unfold parse_one_item.
  eapply (sound_then true false); [apply sound_span, sound_wrapped|done|]. intros [inner tagged] [Hin Htag]. cbn [fst snd] in *.
  eapply sound_at; [by apply inside_placed|]. eapply (sound_fields _ _ _ _ (sound_expect 5)); [apply sound_item_field|].
  split; [|done]. split_and!; cbn; [unfold in_u; lia|done|apply cstr_zero|apply opt_ok_none].
Qed.

Lemma sound_disclosed_item d : dok d -> snd_ true dok (disclosed_item d).
Proof.
  intros Hd. unfold disclosed_item. destruct (Z.ltb_spec (zlen (sd_items d)) STEPUP_MAX_ITEMS).
  - eapply (sound_then true false); [apply sound_one_item; by eapply dok_truncated|done|]. intros [it tr] [Hi Ht].
    apply sound_ret. destruct (dok_items _ _ _ Hd) as [H1 H2]. doc_tac. rewrite zlen_app, zlen_cons. change (zlen []) with 0.
    split; [lia|]. apply Forall_app; split; [done|]. by apply list.Forall_singleton.
  - apply sound_skip_then, sound_ret. by doc_tac.
Qed.

Lemma sound_name_spaces d : dok d -> snd_ true dok (parse_name_spaces d).
Proof.
  intros Hd. unfold parse_name_spaces. apply sound_fields; [apply sound_expect| |done]. intros d' Hd'.
  eapply (sound_then true true); [apply sound_text|done|]. intros ns Hns.
  apply sound_fields; [apply sound_expect|apply sound_disclosed_item|].
  unfold note_name_space. destruct (_ =? 0); [|done].
  pose proof (str_copy_ok _ _ (dok_name_space _ _ _ Hd') Hns) as Ht. destruct (str_copy _ ns) as [t cut].
  doc_tac. by apply note_cut_ok.
Qed.

Lemma sound_issuer_signed d : dok d -> snd_ true dok (parse_issuer_signed d).
Proof.
  intros Hd. unfold parse_issuer_signed. apply sound_fields; [apply sound_expect| |done]. intros d' Hd'.
  unfold issuer_signed_field. eapply (sound_then true false); [apply sound_text|done|]. intros k _.
  destruct (key_is k 49); [by apply sound_drop_strict, sound_name_spaces|].
  destruct (key_is k 50); [by apply sound_drop_strict, sound_issuer_auth|]. by apply sound_skip_field.
Qed.

Lemma sound_document d : dok d -> snd_ true dok (parse_document d).
Proof.
  intros Hd. unfold parse_document. apply sound_fields; [apply sound_expect| |done]. intros d' Hd'.
  unfold document_field. eapply (sound_then true false); [apply sound_text|done|]. intros k _.
  destruct (key_is k 49); [by apply sound_drop_strict, sound_issuer_signed|].
  destruct (key_is k 53); [|by apply sound_skip_field].
  apply sound_drop_strict, sound_copy; [by eapply dok_doc_type|]. intros t cut Ht. doc_tac. by apply note_cut_ok.
Qed.

Lemma sound_documents d : dok d -> snd_ true dok (parse_documents d).
Proof.
  intros Hd. unfold parse_documents. eapply (sound_then true false); [apply sound_expect|done|]. intros nd _.
  eapply (sound_then false false); [apply (sound_for (fun s : bool * stepup_doc => dok s.2)); [|exact Hd]|done|].
  - intros [[|] d'] Hd'; cbn [snd] in Hd'; [|by apply sound_skip_field].
    eapply (sound_then true false); [apply sound_document; by doc_tac|done|]. intros d'' Hd''. by apply sound_ret.
  - intros [b d'] Hd'. by apply sound_ret.
Qed.

Lemma sound_version d : dok d -> snd_ true dok (parse_version d).
Proof.
  intros Hd. unfold parse_version. eapply (sound_then false true); [apply sound_cursor|done|]. intros vc Hvc.
  apply sound_skip_then. eapply (sound_then false false); [eapply sound_attempt, sound_at, sound_text; done|done|].
  intros s Hs. apply sound_ret. destruct s as [s|]; [|done].
  pose proof (str_copy_ok _ _ (dok_version _ _ _ Hd) (Hs s eq_refl)) as Ht. destruct (str_copy _ s) as [t cut].
  doc_tac. by apply note_cut_ok.
Qed.

Lemma sound_response_field d : dok d -> snd_ true dok (response_field d).
Proof.
  intros Hd. unfold response_field. eapply (sound_then true false); [apply sound_text|done|]. intros k _.
  destruct (key_is k 50); [by apply sound_drop_strict, sound_documents|].
  destruct (key_is k 51).
  { eapply (sound_then true false); [apply sound_expect|done|]. intros st _. apply sound_ret. doc_tac. by apply swrap_range. }
  destruct (key_is k 49); [by apply sound_drop_strict, sound_version|]. by apply sound_skip_field.
Qed.

Lemma sound_response : snd_ true dok (n ← cb_map; for_each n response_field doc_zero).
Proof. apply sound_fields; [apply sound_expect|apply sound_response_field|apply doc_zero_ok]. Qed.

End Sound.

(** C30: whatever the response holds, the parser looks at nothing outside its
    [len] bytes, never runs out of turns, and a document it accepts is well
    formed: every slice of it lies in the buffer, every text is terminated,
    every capacity is kept. *)
Theorem stepup_parser_safe `{stepup_cfg} len m1 m2 :
  0 <= len -> (forall a, byte_ok (m1 a)) -> (forall a, 0 <= a < len -> m1 a = m2 a) ->
  parse_response len m1 = parse_response len m2 /\
  match parse_response len m1 with
  | Ok d c => doc_ok 0 len d /\ 0 < cb_p c <= len
  | Bad => True
  | NoFuel => False
  end.
Proof.
  intros Hl Hb Hm. unfold parse_response.
  destruct (sound_response (lo := 0) (hi := len) m1 m2 {| cb_p := 0; cb_end := len |}) as [E H1];
    [by split|unfold placed; cbn; lia|]. split; [exact E|].
  destruct ((n ← cb_map; for_each n response_field doc_zero) m1 _) as [d c| |]; [|done|done].
  destruct H1 as [Hd [_ Hp]]. split; [exact Hd|]. cbn in Hp. lia.
Qed.

(** [{"3": 0, "2": [{"5": "aliro-a"}]}] *)
Definition small_response : list Z :=
  [0xa2; 0x61; 0x33; 0x00; 0x61; 0x32; 0x81; 0xa1; 0x61; 0x35; 0x67; 97; 108; 105; 114; 111; 45; 97].

Lemma stepup_parser_safe_witness :
  let c := {| STEPUP_MAX_DIGESTS := 24; STEPUP_MAX_ITEMS := 16; STEPUP_LEAN := false |} in
  match parse_response (H := c) 18 (mem_of small_response) with
  | Ok d _ => doc_ok (H := c) 0 18 d /\ take 8 (sd_doc_type d) = [97; 108; 105; 114; 111; 45; 97; 0]
  | _ => False
  end.
Proof.
  pose proof (stepup_parser_safe (H := {| STEPUP_MAX_DIGESTS := 24; STEPUP_MAX_ITEMS := 16; STEPUP_LEAN := false |}) 18
    (mem_of small_response) (mem_of (small_response ++ [1; 2; 3])) ltac:(lia)
    (fun a => byte_at_ok small_response a (bytes_all small_response eq_refl))) as H.
  destruct H as [_ H].
  - intros a Ha. unfold mem_of, byte_at. rewrite app_nth1; [done|]. change (length small_response) with 18%nat. lia.
  - cbv zeta. revert H. destruct (parse_response 18 (mem_of small_response)) as [d c| |] eqn:E; [|done|done].
    intros [Hd _]. split; [exact Hd|]. vm_compute in E. injection E as <- _. reflexivity.
Defined.

(** ** The calendar *)

Definition leap (y : Z) : bool := (y mod 4 =? 0) && (negb (y mod 100 =? 0) || (y mod 400 =? 0)).

Definition month_days (y m : Z) : Z :=
  if m =? 2 then (if leap y then 29 else 28) else if (m =? 4) || (m =? 6) || (m =? 9) || (m =? 11) then 30 else 31.

(** The day after a day. *)
Definition next_day (t : Z * Z * Z) : Z * Z * Z :=
  let '(y, m, d) := t in
  if d <? month_days y m then (y, m, d + 1) else if m <? 12 then (y, m + 1, 1) else (y + 1, 1, 1).

Definition nth_day (n : nat) : Z * Z * Z := Nat.iter n next_day (1970, 1, 1).

Definition date_ok (t : Z * Z * Z) : Prop := let '(y, m, d) := t in 1970 <= y /\ 1 <= m <= 12 /\ 1 <= d <= month_days y m.

Lemma month_days_range y m : 28 <= month_days y m <= 31.
Proof. unfold month_days. repeat case_match; lia. Qed.

Lemma next_day_ok t : date_ok t -> date_ok (next_day t).
Proof.
  destruct t as [[y m] d]. intros (Hy & Hm & Hd). unfold next_day. destruct (Z.ltb_spec d (month_days y m)); [cbn; lia|].
  pose proof (month_days_range y (m + 1)). pose proof (month_days_range (y + 1) 1). destruct (Z.ltb_spec m 12); cbn; lia.
Qed.

Lemma nth_day_ok n : date_ok (nth_day n).
Proof. induction n as [|n IH]; [cbn; lia|]. by apply next_day_ok. Qed.

Definition year_of (t : Z * Z * Z) : Z := t.1.1.

Lemma next_day_year t : year_of t <= year_of (next_day t).
Proof. destruct t as [[y m] d]. unfold next_day. repeat case_match; unfold year_of; cbn; lia. Qed.

Definition month_step (y m : Z) : bool :=
  days_from_civil (if m <? 12 then y else y + 1) (if m <? 12 then m + 1 else 1) 1 =? days_from_civil y m 1 + month_days y m.

(** Four centuries on, everything is as before. *)
Lemma days_period y k m d : 1 <= y -> 0 <= k -> days_from_civil (y + 400 * k) m d = days_from_civil y m d + 146097 * k.
Proof.
  intros Hy Hk. unfold days_from_civil. cbv zeta. set (j := if m <=? 2 then 1 else 0).
  assert (0 <= j <= 1) as Hj by (subst j; destruct (m <=? 2); lia).
  destruct (Z.leb_spec 0 (y + 400 * k - j)); [|lia]. destruct (Z.leb_spec 0 (y - j)); [|lia].
  rewrite !Z.quot_div_nonneg by lia. replace (y + 400 * k - j) with (y - j + k * 400) by lia.
  rewrite Z.div_add by lia. replace (y - j + k * 400 - ((y - j) / 400 + k) * 400) with (y - j - (y - j) / 400 * 400) by lia.
  lia.
Qed.

Lemma month_days_period y k m : month_days (y + 400 * k) m = month_days y m.
Proof.
  unfold month_days, leap. replace (y + 400 * k) with (y + (100 * k) * 4) by lia. rewrite Z.mod_add by lia.
  replace (y + 100 * k * 4) with (y + (4 * k) * 100) by lia. rewrite Z.mod_add by lia.
  replace (y + 4 * k * 100) with (y + k * 400) by lia. by rewrite Z.mod_add by lia.
Qed.

(** The number of the first of a month grows by the days of the month: looked
    up for every month of four centuries. *)
Lemma month_table : forallb (fun y => forallb (month_step y) (seqZ 1 12)) (seqZ 1 400) = true.
Proof. by vm_compute. Qed.

Lemma month_step_ok y m : 1 <= y -> 1 <= m <= 12 -> month_step y m = true.
Proof.
  intros Hy Hm. pose proof month_table as H. rewrite forallb_forall in H.
  assert (0 <= (y - 1) mod 400 < 400 /\ 0 <= (y - 1) / 400 /\ y = 1 + (y - 1) mod 400 + 400 * ((y - 1) / 400)) as (H1 & H2 & H3) by zdiv.
  set (r := 1 + (y - 1) mod 400) in *. set (k := (y - 1) / 400) in *.
  specialize (H r ltac:(apply list_elem_of_In, elem_of_seqZ; lia)). rewrite forallb_forall in H.
  specialize (H m ltac:(apply list_elem_of_In, elem_of_seqZ; lia)). rewrite H3. unfold month_step in *. apply Z.eqb_eq in H. apply Z.eqb_eq.
  rewrite month_days_period. destruct (m <? 12); [rewrite !days_period by lia; lia|].
  replace (r + 400 * k + 1) with (r + 1 + 400 * k) by lia. rewrite !days_period by lia. lia.
Qed.

(** Inside a month the days count up. *)
Lemma days_linear y m d : 0 <= y <= 10000 -> 1 <= m <= 12 -> 1 <= d <= 31 ->
  days_from_civil y m d = days_from_civil y m 1 + (d - 1).
Proof.
  intros Hy Hm Hd. unfold days_from_civil. cbv zeta.
  set (y' := y - _). set (era := Z.quot _ 400). set (yoe := u32 (y' - era * 400)).
  set (q := u32 (153 * _ + 2) / 5).
  assert (0 <= q <= 2 ^ 30) as Hq.
  { subst q. match goal with |- 0 <= u32 ?x / 5 <= _ => pose proof (wrap_range 32 x ltac:(lia)) as Hr; set (v := u32 x) in * end.
    unfold in_u in Hr. split; [apply Z.div_pos; lia|]. apply Z.div_le_upper_bound; lia. }
  assert (0 <= yoe < 400) as Hyoe.
  { subst yoe era y'. destruct (Z.leb_spec m 2).
    - destruct (Z.leb_spec 0 (y - 1)); [rewrite Z.quot_div_nonneg by lia|].
      + rewrite (wrap_id 32) by (unfold in_u; zdiv). zdiv.
      + replace y with 0 by lia. by vm_compute.
    - destruct (Z.leb_spec 0 (y - 0)); [|lia]. rewrite Z.quot_div_nonneg by lia.
      rewrite (wrap_id 32) by (unfold in_u; zdiv). zdiv. }
  assert (0 <= q + 31 < 2 ^ 32) by lia.
  rewrite !(wrap_id 32 (yoe * 365)) by (unfold in_u; lia).
  assert (0 <= yoe / 4 <= 100 /\ 0 <= yoe / 100 <= yoe / 4) as [H4 H100] by zdiv.
  rewrite (wrap_id 32 (q + d - 1)) by (unfold in_u; lia). rewrite (wrap_id 32 (q + 1 - 1)) by (unfold in_u; lia).
  rewrite !(wrap_id 32) by (unfold in_u; lia). lia.
Qed.

Lemma next_day_counts t : date_ok t -> year_of t <= 9999 -> year_of (next_day t) <= 9999 ->
  let '(y, m, d) := t in let '(y', m', d') := next_day t in
  days_from_civil y' m' d' = days_from_civil y m d + 1.
Proof.
  destruct t as [[y m] d]. intros (Hy & Hm & Hd) H1 H2. pose proof (month_days_range y m). unfold year_of, next_day in *. cbn [fst] in *.
  pose proof (month_step_ok y m ltac:(lia) ltac:(lia)) as Hs. apply Z.eqb_eq in Hs.
  destruct (Z.ltb_spec d (month_days y m)).
  - rewrite (days_linear y m (d + 1)), (days_linear y m d) by lia. lia.
  - rewrite (days_linear y m d) by lia. destruct (Z.ltb_spec m 12); lia.
Qed.

Lemma nth_day_number n : year_of (nth_day n) <= 9999 ->
  let '(y, m, d) := nth_day n in days_from_civil y m d = Z.of_nat n.
Proof.
  induction n as [|n IH]; [done|]. change (nth_day (S n)) with (next_day (nth_day n)). intros Hy.
  pose proof (next_day_year (nth_day n)). specialize (IH ltac:(lia)).
  pose proof (next_day_counts (nth_day n) (nth_day_ok n) ltac:(lia) Hy) as Hc.
  destruct (nth_day n) as [[y m] d]. destruct (next_day (y, m, d)) as [[y' m'] d']. lia.
Qed.

(** ["YYYY-MM-DDTHH:MM:SSZ"] *)
Definition two_digits (n : Z) : list Z := [48 + n / 10; 48 + n mod 10].
Definition print_tdate (y m d hh mm ss : Z) : list Z :=
  two_digits (y / 100) ++ two_digits (y mod 100) ++ [45] ++ two_digits m ++ [45] ++ two_digits d ++ [84] ++
  two_digits hh ++ [58] ++ two_digits mm ++ [58] ++ two_digits ss ++ [90].

Lemma digit2_two s i n : 0 <= n < 100 -> byte_at s i = 48 + n / 10 -> byte_at s (i + 1) = 48 + n mod 10 -> digit2 s i = Some n.
Proof.
  intros Hn H0 H1. unfold digit2. rewrite H0, H1.
  assert (0 <= n / 10 <= 9 /\ 0 <= n mod 10 <= 9 /\ n = 10 * (n / 10) + n mod 10) as (Ha & Hb & Hc) by zdiv.
  destruct (Z.ltb_spec (48 + n / 10) 48); [lia|]. destruct (Z.ltb_spec 57 (48 + n / 10)); [lia|].
  destruct (Z.ltb_spec (48 + n mod 10) 48); [lia|]. destruct (Z.ltb_spec 57 (48 + n mod 10)); [lia|]. cbn [orb]. f_equal. lia.
Qed.

Lemma tdate_epoch_print y m d hh mm ss :
  0 <= y <= 9999 -> 1 <= m <= 12 -> 1 <= d <= 31 -> 0 <= hh < 24 -> 0 <= mm < 60 -> 0 <= ss <= 60 ->
  tdate_epoch (print_tdate y m d hh mm ss) = Some (days_from_civil y m d * 86400 + hh * 3600 + mm * 60 + ss).
Proof.
  intros Hy Hm Hd Hh Hmi Hs. unfold tdate_epoch. change (negb (zlen (print_tdate y m d hh mm ss) =? 20)) with false.
  assert (0 <= y / 100 < 100 /\ 0 <= y mod 100 < 100 /\ y = y / 100 * 100 + y mod 100) as (H1 & H2 & H3) by zdiv.
  cbn [orb]. match goal with |- (if ?b then _ else _) = _ => change b with false end. cbv iota.
  rewrite (digit2_two _ 0 (y / 100)), (digit2_two _ 2 (y mod 100)), (digit2_two _ 5 m), (digit2_two _ 8 d),
    (digit2_two _ 11 hh), (digit2_two _ 14 mm), (digit2_two _ 17 ss) by (lia || reflexivity).
  cbn [mbind option_bind]. rewrite <- H3.
  destruct (Z.ltb_spec m 1); [lia|]. destruct (Z.ltb_spec 12 m); [lia|]. destruct (Z.ltb_spec d 1); [lia|].
  destruct (Z.ltb_spec 31 d); [lia|]. destruct (Z.ltb_spec 23 hh); [lia|]. destruct (Z.ltb_spec 59 mm); [lia|].
  destruct (Z.ltb_spec 60 ss); [lia|]. done.
Qed.

(** The date reader agrees with the calendar: the text of the [n]-th day
    after 1 January 1970, up to the year 9999, leap years included, is read as
    [n] days of seconds and the time of day. *)
Theorem tdate_epoch_calendar n hh mm ss :
  year_of (nth_day n) <= 9999 -> 0 <= hh < 24 -> 0 <= mm < 60 -> 0 <= ss <= 60 ->
  let '(y, m, d) := nth_day n in
  tdate_epoch (print_tdate y m d hh mm ss) = Some (Z.of_nat n * 86400 + hh * 3600 + mm * 60 + ss).
Proof.
  intros Hy Hh Hm Hs. pose proof (nth_day_number n Hy) as Hn. pose proof (nth_day_ok n) as Hok.
  destruct (nth_day n) as [[y m] d]. destruct Hok as (H1 & H2 & H3). unfold year_of in Hy. cbn [fst] in Hy.
  pose proof (month_days_range y m). rewrite tdate_epoch_print by lia. by rewrite Hn.
Qed.

Lemma tdate_epoch_calendar_witness :
  tdate_epoch (print_tdate 1972 2 29 12 34 56) = Some (789 * 86400 + 12 * 3600 + 34 * 60 + 56).
Proof. exact (tdate_epoch_calendar 789 12 34 56 ltac:(vm_compute; discriminate) ltac:(lia) ltac:(lia) ltac:(lia)). Defined.
