(* ===== verification/Hash.v ===== *)
(** * SHA-256 and the key derivations on it

    Models [modules/ultrawidelock_cred/src/ultrawidelock_hash.c]: the
    compression function, the streaming interface, HMAC, HKDF and the X9.63
    derivation.  Words are 32-bit integers; the used part of the context's
    buffer is a list, whose length is [buflen].  The block loop of [update] gets
    as many turns as there are bytes, the padding loop of [final] 64, the
    derivations one turn per byte asked for; the theorems of [Hash] compare
    the results with the standards' definitions, so none of them ends early. *)

From Stdlib Require Import ZArith Lia Bool.
From stdpp Require Import base list numbers option.
From S2P Require Import Prelude Wire.

Local Open Scope Z_scope.
Local Open Scope uwl_scope.

Definition SHA256_BLOCK : Z := 64.
Definition SHA256_LEN : Z := 32.

Definition ror32 (x n : Z) : Z := Z.lor (Z.shiftr x n) (u32 (Z.shiftl x (32 - n))).

(** Four words at a time. *)
Definition four_words (r : Z) : list Z := map (fun k => u32 (Z.shiftr r k)) [96; 64; 32; 0].

Definition sha256_K : list Z := Eval cbv in concat (map four_words
  [0x428a2f9871374491b5c0fbcfe9b5dba5; 0x3956c25b59f111f1923f82a4ab1c5ed5;
   0xd807aa9812835b01243185be550c7dc3; 0x72be5d7480deb1fe9bdc06a7c19bf174;
   0xe49b69c1efbe47860fc19dc6240ca1cc; 0x2de92c6f4a7484aa5cb0a9dc76f988da;
   0x983e5152a831c66db00327c8bf597fc7; 0xc6e00bf3d5a7914706ca635114292967;
   0x27b70a852e1b21384d2c6dfc53380d13; 0x650a7354766a0abb81c2c92e92722c85;
   0xa2bfe8a1a81a664bc24b8b70c76c51a3; 0xd192e819d6990624f40e3585106aa070;
   0x19a4c1161e376c082748774c34b0bcb5; 0x391c0cb34ed8aa4a5b9cca4f682e6ff3;
   0x748f82ee78a5636f84c878148cc70208; 0x90befffaa4506cebbef9a3f7c67178f2]).

(** Word [i] of a list of words. *)
Definition word_at (w : list Z) (i : nat) : Z := nth i w 0.

Definition block_word (p : list Z) (i : nat) : Z := get_be (take 4 (drop (4 * i) p)).

Definition schedule_step (w : list Z) (i : nat) : list Z :=
  let w15 := word_at w (i - 15) in
  let w2 := word_at w (i - 2) in
  let s0 := Z.lxor (Z.lxor (ror32 w15 7) (ror32 w15 18)) (Z.shiftr w15 3) in
  let s1 := Z.lxor (Z.lxor (ror32 w2 17) (ror32 w2 19)) (Z.shiftr w2 10) in
  w ++ [u32 (word_at w (i - 16) + s0 + word_at w (i - 7) + s1)].

Definition schedule (p : list Z) : list Z := fold_left schedule_step (seq 16 48) (map (block_word p) (seq 0 16)).

Record working := { w_a : Z; w_b : Z; w_c : Z; w_d : Z; w_e : Z; w_f : Z; w_g : Z; w_h : Z }.

Definition sha256_round (w : list Z) (s : working) (i : nat) : working :=
  let '{| w_a := a; w_b := b; w_c := c; w_d := d; w_e := e; w_f := f; w_g := g; w_h := hh |} := s in
  let S1 := Z.lxor (Z.lxor (ror32 e 6) (ror32 e 11)) (ror32 e 25) in
  let ch := Z.lxor (Z.land e f) (Z.land (u32 (Z.lnot e)) g) in
  let t1 := u32 (hh + S1 + ch + word_at sha256_K i + word_at w i) in
  let S0 := Z.lxor (Z.lxor (ror32 a 2) (ror32 a 13)) (ror32 a 22) in
  let maj := Z.lxor (Z.lxor (Z.land a b) (Z.land a c)) (Z.land b c) in
  let t2 := u32 (S0 + maj) in
  {| w_a := u32 (t1 + t2); w_b := a; w_c := b; w_d := c; w_e := u32 (d + t1); w_f := e; w_g := f; w_h := g |}.

Definition sha256_block (h : list Z) (p : list Z) : list Z :=
  let w := schedule p in
  let s := fold_left (sha256_round w) (seq 0 64)
    {| w_a := word_at h 0; w_b := word_at h 1; w_c := word_at h 2; w_d := word_at h 3;
       w_e := word_at h 4; w_f := word_at h 5; w_g := word_at h 6; w_h := word_at h 7 |} in
  zip_with (fun x y => u32 (x + y)) h [w_a s; w_b s; w_c s; w_d s; w_e s; w_f s; w_g s; w_h s].

Record sha256_ctx := { sh_h : list Z; sh_total : Z; sh_buf : list Z }.

#[export] Instance sha256_ctx_eta : Eta sha256_ctx := fun s =>
  {| sh_h := sh_h s; sh_total := sh_total s; sh_buf := sh_buf s |}.

Definition sha256_h0 : list Z :=
  [0x6a09e667; 0xbb67ae85; 0x3c6ef372; 0xa54ff53a; 0x510e527f; 0x9b05688c; 0x1f83d9ab; 0x5be0cd19].

Definition sha256_init : sha256_ctx := {| sh_h := sha256_h0; sh_total := 0; sh_buf := [] |}.

(** [while (len >= 64)]: the state and what is left over. *)
Fixpoint blocks_loop (fuel : nat) (h p : list Z) : list Z * list Z :=
  match fuel with
  | O => (h, p)
  | S f => if SHA256_BLOCK <=? zlen p then blocks_loop f (sha256_block h (take 64 p)) (drop 64 p) else (h, p)
  end.

(** The first part of [update]: fill the buffered block. *)
Definition fill_block (s : sha256_ctx) (p : list Z) : sha256_ctx * list Z :=
  if zlen (sh_buf s) =? 0 then (s, p) else
  let n := if zlen p <? SHA256_BLOCK - zlen (sh_buf s) then zlen p else SHA256_BLOCK - zlen (sh_buf s) in
  let s := s <| sh_buf := sh_buf s ++ take (Z.to_nat n) p |> in
  let p := drop (Z.to_nat n) p in
  if zlen (sh_buf s) =? SHA256_BLOCK
  then (s <| sh_h := sha256_block (sh_h s) (sh_buf s) |> <| sh_buf := [] |>, p)
  else (s, p).

Definition sha256_update (s : sha256_ctx) (data : list Z) : sha256_ctx :=
  let s := s <| sh_total := u64 (sh_total s + zlen data) |> in
  let '(s, p) := fill_block s data in
  let '(h, p) := blocks_loop (length p) (sh_h s) p in
  let s := s <| sh_h := h |> in
  if zlen p =? 0 then s else s <| sh_buf := p |>.

(** [while (s->buflen != 56)] *)
Fixpoint pad_loop (fuel : nat) (s : sha256_ctx) : sha256_ctx :=
  match fuel with
  | O => s
  | S f => if zlen (sh_buf s) =? 56 then s else pad_loop f (sha256_update s [0])
  end.

Definition sha256_final (s : sha256_ctx) : list Z :=
  let bits := u64 (sh_total s * 8) in
  let s := sha256_update s [0x80] in
  let s := pad_loop 64 s in
  let s := sha256_update s (put_be 8 bits) in
  concat (map (put_be 4) (sh_h s)).

Definition sha256 (data : list Z) : list Z := sha256_final (sha256_update sha256_init data).

(** ** HMAC, HKDF, X9.63 *)

Definition xor_pad (k : list Z) (pad : Z) : list Z := map (fun b => Z.lxor b pad) k.

(** [memset(k, 0, 64)] and the key, or its hash, over it. *)
Definition hmac_key (key : list Z) : list Z :=
  let k := if SHA256_BLOCK <? zlen key then sha256 key else key in
  k ++ replicate (Z.to_nat (SHA256_BLOCK - zlen k)) 0.

Definition hmac_sha256 (key msg : list Z) : list Z :=
  let k := hmac_key key in
  let inner := sha256_final (sha256_update (sha256_update sha256_init (xor_pad k 0x36)) msg) in
  sha256_final (sha256_update (sha256_update sha256_init (xor_pad k 0x5c)) inner).

Definition hkdf_extract (salt ikm : list Z) : list Z :=
  let salt := if zlen salt =? 0 then replicate (Z.to_nat SHA256_LEN) 0 else salt in
  hmac_sha256 salt ikm.

(** One turn: [T(n)] from [T(n-1)]. *)
Definition expand_block (prk t info : list Z) (counter : Z) : list Z :=
  let key := map (fun i => if Z.of_nat i <? SHA256_LEN then byte_at prk (Z.of_nat i) else 0) (seq 0 (Z.to_nat SHA256_BLOCK)) in
  let s := sha256_update sha256_init (xor_pad key 0x36) in
  let s := sha256_update s t in
  let s := sha256_update s info in
  let inner := sha256_final (sha256_update s [counter]) in
  sha256_final (sha256_update (sha256_update sha256_init (xor_pad key 0x5c)) inner).

Fixpoint expand_loop (fuel : nat) (prk t info : list Z) (counter done out_len : Z) : list Z :=
  match fuel with
  | O => []
  | S f =>
      if out_len <=? done then [] else
      let t := expand_block prk t info counter in
      let n := if SHA256_LEN <? out_len - done then SHA256_LEN else out_len - done in
      take (Z.to_nat n) t ++ expand_loop f prk t info (u8 (counter + 1)) (done + n) out_len
  end.

Definition hkdf_expand (prk info : list Z) (out_len : Z) : option (list Z) :=
  if 255 * SHA256_LEN <? out_len then None
  else Some (expand_loop (Z.to_nat out_len) prk [] info 1 0 out_len).

Definition hkdf (salt ikm info : list Z) (out_len : Z) : option (list Z) :=
  hkdf_expand (hkdf_extract salt ikm) info out_len.

Definition x963_block (z info : list Z) (counter : Z) : list Z :=
  let s := sha256_update sha256_init z in
  let s := sha256_update s (put_be 4 counter) in
  let s := if zlen info =? 0 then s else sha256_update s info in
  sha256_final s.

Fixpoint x963_loop (fuel : nat) (z info : list Z) (counter done out_len : Z) : list Z :=
  match fuel with
  | O => []
  | S f =>
      if out_len <=? done then [] else
      let digest := x963_block z info counter in
      let n := if SHA256_LEN <? out_len - done then SHA256_LEN else out_len - done in
      take (Z.to_nat n) digest ++ x963_loop f z info (u32 (counter + 1)) (done + n) out_len
  end.

Definition x963_kdf (z info : list Z) (out_len : Z) : option (list Z) :=
  if 0xffffffff - SHA256_LEN <? out_len then None
  else Some (x963_loop (Z.to_nat out_len) z info 1 0 out_len).

#[global] Arguments sha256_block : simpl never.
#[global] Arguments sha256_update : simpl never.
#[global] Arguments sha256_final : simpl never.

(** Conversion unfolds the callers of the hash first. *)
Strategy 100 [sha256_block sha256_update sha256_final].

(** * The streaming hash is SHA-256, and the derivations are the standards'

    The padding and block structure of FIPS 180-4, HMAC of RFC 2104, HKDF of
    RFC 5869 and the X9.63 derivation, as definitions over whole messages, and
    the theorems that the code of [Hash] computes them however its input is cut
    into pieces. *)

Local Open Scope Z_scope.
Local Open Scope uwl_scope.

(** ** The standards *)

Definition sha256_pad (msg : list Z) : list Z :=
  msg ++ [0x80] ++ replicate (Z.to_nat ((55 - zlen msg) mod 64)) 0 ++ put_be 8 (8 * zlen msg).

(** The 64-byte blocks of a string. *)
Definition blocks_of (p : list Z) : list (list Z) :=
  map (fun i => take 64 (drop (64 * i) p)) (seq 0 (length p / 64)).

Definition sha256_spec (msg : list Z) : list Z :=
  concat (map (put_be 4) (fold_left sha256_block (blocks_of (sha256_pad msg)) sha256_h0)).

Definition hmac_block (key : list Z) : list Z :=
  let k := if zlen key <=? 64 then key else sha256_spec key in
  k ++ replicate (64 - length k) 0.

Definition hmac_spec (key msg : list Z) : list Z :=
  sha256_spec (xor_pad (hmac_block key) 0x5c ++ sha256_spec (xor_pad (hmac_block key) 0x36 ++ msg)).

(** [T(1)], [T(2)], ... of RFC 5869, from [T(n-1)]. *)
Fixpoint hkdf_blocks (prk info t : list Z) (n : nat) (counter : Z) : list Z :=
  match n with
  | O => []
  | S k => let t := hmac_spec prk (t ++ info ++ [counter]) in t ++ hkdf_blocks prk info t k (counter + 1)
  end.

Definition hkdf_spec (salt ikm info : list Z) (n : Z) : list Z :=
  let prk := hmac_spec (match salt with [] => replicate 32 0 | _ => salt end) ikm in
  take (Z.to_nat n) (hkdf_blocks prk info [] (Z.to_nat ((n + 31) / 32)) 1).

Definition x963_spec (z info : list Z) (n : Z) : list Z :=
  take (Z.to_nat n)
    (concat (map (fun i => sha256_spec (z ++ put_be 4 (Z.of_nat i) ++ info)) (seq 1 (Z.to_nat ((n + 31) / 32))))).

(** ** The context as the message it has absorbed *)

Definition whole (bl : list (list Z)) : Prop := Forall (fun b => length b = 64%nat) bl.

Record absorbed (s : sha256_ctx) (msg : list Z) (bl : list (list Z)) : Prop := {
  ab_msg : msg = concat bl ++ sh_buf s;
  ab_whole : whole bl;
  ab_h : sh_h s = fold_left sha256_block bl sha256_h0;
  ab_buf : zlen (sh_buf s) < 64;
  ab_total : sh_total s = u64 (zlen msg);
}.

Definition holds (s : sha256_ctx) (msg : list Z) : Prop := exists bl, absorbed s msg bl.

Lemma zlen_concat_whole bl : whole bl -> zlen (concat bl) = 64 * zlen bl.
Proof.
  induction 1 as [|b bl Hb _ IH]; [done|]. cbn [concat]. rewrite zlen_app, zlen_cons, IH.
  unfold zlen at 1. rewrite Hb. lia.
Qed.

Lemma holds_init : holds sha256_init [].
Proof. exists []. constructor; try done. by constructor. Qed.

Lemma buf_len s msg : holds s msg -> zlen (sh_buf s) = zlen msg mod 64.
Proof.
  intros [bl [-> Hw _ Hb _]]. rewrite zlen_app, zlen_concat_whole, Z.mul_comm, Z.add_comm, Z.mod_add by done || lia.
  pose proof (zlen_nonneg (sh_buf s)). by rewrite Z.mod_small by lia.
Qed.

Lemma blocks_loop_spec fuel h p : (length p <= fuel)%nat -> exists bl,
  let r := blocks_loop fuel h p in
  p = concat bl ++ r.2 /\ whole bl /\ r.1 = fold_left sha256_block bl h /\ zlen r.2 < 64.
Proof.
  revert h p. induction fuel as [|f IH]; intros h p Hf; cbn [blocks_loop].
  { exists []. destruct p; [|cbn in Hf; lia]. split_and!; [done|by constructor|done|done]. }
  unfold SHA256_BLOCK. destruct (Z.leb_spec 64 (zlen p)) as [Hl|Hl].
  - unfold zlen in Hl. destruct (IH (sha256_block h (take 64 p)) (drop 64 p)) as (bl & H1 & H2 & H3 & H4).
    { rewrite length_drop. lia. }
    exists (take 64 p :: bl). cbv zeta. split_and!; [|constructor; [rewrite length_take; lia|done]|done|done].
    cbn [concat]. by rewrite <- app_assoc, <- H1, take_drop.
  - exists []. split_and!; [done|by constructor|done|done].
Qed.

Lemma u64_add a b : u64 (u64 a + b) = u64 (a + b).
Proof. unfold wrap. by rewrite Zplus_mod_idemp_l. Qed.

Lemma fill_block_spec s msg p : holds s msg ->
  let r := fill_block s p in
  exists bl q, absorbed (r.1 <| sh_total := u64 (zlen (msg ++ q)) |>) (msg ++ q) bl /\ p = q ++ r.2 /\
    (sh_buf r.1 = [] \/ r.2 = []).
Proof.
  intros [bl [Hm Hw Hh Hb Ht]]. unfold fill_block, SHA256_BLOCK. cbv zeta.
  destruct (Z.eqb_spec (zlen (sh_buf s)) 0) as [E|E].
  { exists bl, []. rewrite app_nil_r. split_and!; [by constructor|done|left]. cbn. unfold zlen in E. destruct (sh_buf s); [done|cbn in E; lia]. }
  pose proof (zlen_nonneg p). pose proof (zlen_nonneg (sh_buf s)).
  set (n := if zlen p <? 64 - zlen (sh_buf s) then zlen p else 64 - zlen (sh_buf s)).
  assert (0 <= n <= zlen p /\ zlen (sh_buf s) + n <= 64 /\ (n < zlen p -> zlen (sh_buf s) + n = 64)) as (Hn & Hn64 & Hnf).
  { subst n. destruct (Z.ltb_spec (zlen p) (64 - zlen (sh_buf s))); lia. }
  assert (zlen (take (Z.to_nat n) p) = n) as Htk by (unfold zlen in *; rewrite length_take; lia).
  cbn. rewrite zlen_app, Htk.
  destruct (Z.eqb_spec (zlen (sh_buf s) + n) 64) as [Ef|Ef]; cbn.
  - exists (bl ++ [sh_buf s ++ take (Z.to_nat n) p]), (take (Z.to_nat n) p).
    split_and!; [|by rewrite take_drop|by left]. constructor; cbn.
    + rewrite concat_app. cbn. by rewrite !app_nil_r, app_assoc, <- Hm.
    + apply Forall_app. split; [done|]. constructor; [|constructor].
      apply Nat2Z.inj. change (zlen (sh_buf s ++ take (Z.to_nat n) p) = 64). rewrite zlen_app, Htk. lia.
    + rewrite fold_left_app, <- Hh. done.
    + done.
    + done.
  - exists bl, (take (Z.to_nat n) p). split_and!; [|by rewrite take_drop|right].
    + constructor; cbn; [by rewrite app_assoc, <- Hm|done|done|rewrite zlen_app, Htk; lia|done].
    + assert (n = zlen p) as -> by lia. unfold zlen. by rewrite Nat2Z.id, drop_all.
Qed.

Lemma update_holds s msg p : holds s msg -> holds (sha256_update s p) (msg ++ p).
Proof.
  intros Hs. unfold sha256_update.
  pose proof (fill_block_spec s msg p Hs) as (bl & q & Hab & Hp & Hor). cbv zeta in *.
  assert (fill_block (s <| sh_total := u64 (sh_total s + zlen p) |>) p
    = ((fill_block s p).1 <| sh_total := u64 (sh_total s + zlen p) |>, (fill_block s p).2)) as ->.
  { unfold fill_block. cbn. destruct (_ =? 0); [done|]. by destruct (_ =? SHA256_BLOCK). }
  set (s1 := (fill_block s p).1) in *. set (r := (fill_block s p).2) in *. cbn.
  destruct Hab as [Am Aw Ah Ab _]. cbn in Am, Ah, Ab.
  destruct (blocks_loop_spec (length r) (sh_h s1) r ltac:(lia)) as (bl2 & H1 & H2 & H3 & H4).
  destruct (blocks_loop (length r) (sh_h s1) r) as [h rest]. cbn [fst snd] in *.
  assert (u64 (sh_total s + zlen p) = u64 (zlen (msg ++ p))) as Htot.
  { destruct Hs as [b [_ _ _ _ ->]]. by rewrite u64_add, zlen_app. }
  destruct Hor as [Hbuf|Hr].
  - exists (bl ++ bl2). destruct (Z.eqb_spec (zlen rest) 0) as [E|E].
    + assert (rest = []) as -> by (unfold zlen in E; destruct rest; [done|cbn in E; lia]).
      constructor; cbn; [|by apply Forall_app|by rewrite fold_left_app, <- Ah|by rewrite Hbuf|done].
      rewrite Hp, H1, app_assoc, Am, Hbuf, concat_app, !app_nil_r. done.
    + constructor; cbn; [|by apply Forall_app|by rewrite fold_left_app, <- Ah|done|done].
      rewrite Hp, H1, app_assoc, Am, Hbuf, concat_app, !app_nil_r, <- app_assoc. done.
  - assert (bl2 = [] /\ rest = []) as [-> ->].
    { rewrite Hr in H1. symmetry in H1. apply app_nil in H1 as [H1 ->]. split; [|done].
      destruct bl2 as [|b bl2]; [done|]. apply list.Forall_cons in H2 as [Hb _]. cbn in H1. apply app_nil in H1 as [-> _]. done. }
    exists bl. cbn in *. constructor; cbn; [|done|by rewrite H3|done|done].
    rewrite Hp, Hr, !app_nil_r. exact Am.
Qed.

Lemma pad_loop_holds fuel s msg :
  holds s msg -> (56 - zlen msg) mod 64 < Z.of_nat fuel ->
  let k := Z.to_nat ((56 - zlen msg) mod 64) in
  holds (pad_loop fuel s) (msg ++ replicate k 0).
Proof.
  revert s msg. induction fuel as [|f IH]; intros s msg Hs Hf; cbn [pad_loop].
  { pose proof (Z.mod_pos_bound (56 - zlen msg) 64). lia. }
  rewrite (buf_len s msg Hs). destruct (Z.eqb_spec (zlen msg mod 64) 56) as [E|E].
  - replace ((56 - zlen msg) mod 64) with 0 by zdiv. cbn. by rewrite app_nil_r.
  - pose proof (update_holds s msg [0] Hs) as Hu.
    assert ((56 - zlen msg) mod 64 = (56 - zlen (msg ++ [0])) mod 64 + 1) as Hk.
    { rewrite zlen_app. change (zlen [0]) with 1. zdiv. }
    specialize (IH _ _ Hu ltac:(lia)). cbv zeta in *. rewrite Hk.
    replace (Z.to_nat ((56 - zlen (msg ++ [0])) mod 64 + 1)) with (S (Z.to_nat ((56 - zlen (msg ++ [0])) mod 64)))
      by (pose proof (Z.mod_pos_bound (56 - zlen (msg ++ [0])) 64); lia).
    cbn [replicate]. by rewrite <- app_assoc in IH.
Qed.

Lemma blocks_of_concat bl : whole bl -> blocks_of (concat bl) = bl.
Proof.
  intros Hw. unfold blocks_of.
  assert (length (concat bl) = (64 * length bl)%nat) as ->.
  { pose proof (zlen_concat_whole bl Hw) as H. unfold zlen in H. lia. }
  rewrite Nat.mul_comm, Nat.div_mul by done.
  induction Hw as [|b bl Hb _ IH]; [done|]. cbn [length seq map concat]. f_equal.
  - cbn [Nat.mul]. rewrite drop_0. by rewrite take_app_length' by done.
  - rewrite <- seq_shift, map_map. rewrite <- IH at 2. apply map_ext. intros i.
    rewrite drop_app_ge by lia. f_equal. f_equal. lia.
Qed.

Lemma final_spec s msg : holds s msg -> sha256_final s = sha256_spec msg.
Proof.
  intros Hs. unfold sha256_final.
  assert (u64 (sh_total s * 8) = u64 (8 * zlen msg)) as ->.
  { destruct Hs as [bl [_ _ _ _ ->]]. unfold wrap. by rewrite Zmult_mod_idemp_l, Z.mul_comm. }
  apply (update_holds s msg [0x80]) in Hs. set (s1 := sha256_update s [0x80]) in *.
  apply (pad_loop_holds 64) in Hs; [|pose proof (Z.mod_pos_bound (56 - zlen (msg ++ [128])) 64); lia]. cbv zeta in Hs.
  set (s2 := pad_loop 64 s1) in *.
  apply (update_holds _ _ (put_be 8 (u64 (8 * zlen msg)))) in Hs. set (s3 := sha256_update s2 _) in *.
  assert ((56 - zlen (msg ++ [128])) mod 64 = (55 - zlen msg) mod 64) as Hk.
  { rewrite zlen_app. change (zlen [128]) with 1. f_equal. lia. }
  assert (put_be 8 (u64 (8 * zlen msg)) = put_be 8 (8 * zlen msg)) as Hbe.
  { rewrite <- (put_get_be (put_be 8 (8 * zlen msg))) by apply put_be_bytes. rewrite get_put_be, length_put_be. done. }
  rewrite Hk, Hbe, <- !app_assoc in Hs. change (holds s3 (sha256_pad msg)) in Hs.
  pose proof (buf_len _ _ Hs) as Hb. destruct Hs as [bl [Am Aw Ah _ _]].
  assert (zlen (sha256_pad msg) mod 64 = 0) as Hz.
  { unfold sha256_pad. rewrite !zlen_app, zlen_put_be, zlen_replicate. change (zlen [0x80]) with 1.
    pose proof (Z.mod_pos_bound (55 - zlen msg) 64). rewrite Z2Nat.id by lia. zdiv. }
  rewrite Hz in Hb. assert (sh_buf s3 = []) as Hnil by (unfold zlen in Hb; destruct (sh_buf s3); [done|cbn in Hb; lia]).
  rewrite Ah. unfold sha256_spec. by rewrite Am, Hnil, app_nil_r, blocks_of_concat.
Qed.

Lemma sha256_exact msg : sha256 msg = sha256_spec msg.
Proof. unfold sha256. apply final_spec. change msg with ([] ++ msg) at 2. apply update_holds, holds_init. Qed.

Lemma updates_holds s msg ps : holds s msg -> holds (fold_left sha256_update ps s) (msg ++ concat ps).
Proof.
  revert s msg. induction ps as [|p ps IH]; intros s msg Hs; cbn [fold_left concat]; [by rewrite app_nil_r|].
  rewrite app_assoc. apply IH. by apply update_holds.
Qed.

(** Hashing in pieces. *)
Lemma pieces_exact ps : sha256_final (fold_left sha256_update ps sha256_init) = sha256_spec (concat ps).
Proof. apply final_spec. change (concat ps) with ([] ++ concat ps). apply updates_holds, holds_init. Qed.

Lemma blocks_loop_len fuel h p : length h = 8%nat -> length (blocks_loop fuel h p).1 = 8%nat.
Proof.
  revert h p. induction fuel as [|f IH]; intros h p Hh; cbn [blocks_loop]; [done|]. destruct (_ <=? _); [|done].
  apply IH. unfold sha256_block. rewrite length_zip_with, Hh. done.
Qed.

Lemma fold_block_len bl h : length h = 8%nat -> length (fold_left sha256_block bl h) = 8%nat.
Proof.
  revert h. induction bl as [|b bl IH]; intros h Hh; cbn [fold_left]; [done|]. apply IH.
  unfold sha256_block. rewrite length_zip_with, Hh. done.
Qed.

Lemma concat_words l : length (concat (map (put_be 4) l)) = (4 * length l)%nat.
Proof. induction l as [|x l IH]; [done|]. cbn [map concat length]. rewrite length_app, length_put_be. lia. Qed.

Lemma sha256_len msg : length (sha256_spec msg) = 32%nat.
Proof. unfold sha256_spec. rewrite concat_words, fold_block_len; done. Qed.

Lemma sha256_bytes msg : Forall byte_ok (sha256_spec msg).
Proof.
  unfold sha256_spec. induction (fold_left _ _ _) as [|x l IH]; [constructor|]. cbn [map concat].
  apply Forall_app. split; [apply put_be_bytes|exact IH].
Qed.

Lemma hmac_key_spec key : hmac_key key = hmac_block key.
Proof.
  unfold hmac_key, hmac_block, SHA256_BLOCK. rewrite sha256_exact.
  destruct (Z.ltb_spec 64 (zlen key)), (Z.leb_spec (zlen key) 64); try lia; f_equal; f_equal; unfold zlen; lia.
Qed.

(** The two passes with a padded key. *)
Lemma two_pass_exact k l :
  sha256_final (sha256_update (sha256_update sha256_init (xor_pad k 0x5c))
    (sha256_final (fold_left sha256_update l (sha256_update sha256_init (xor_pad k 0x36)))))
  = sha256_spec (xor_pad k 0x5c ++ sha256_spec (xor_pad k 0x36 ++ concat l)).
Proof.
  pose proof (pieces_exact (xor_pad k 0x36 :: l)) as H1. cbn [fold_left concat] in H1. rewrite H1.
  set (inner := sha256_spec (xor_pad k 0x36 ++ concat l)).
  pose proof (pieces_exact [xor_pad k 0x5c; inner]) as H2. cbn [fold_left concat] in H2. by rewrite H2, app_nil_r.
Qed.

Lemma hmac_exact key msg : hmac_sha256 key msg = hmac_spec key msg.
Proof.
  unfold hmac_sha256, hmac_spec. rewrite hmac_key_spec. pose proof (two_pass_exact (hmac_block key) [msg]) as H.
  cbn [fold_left concat] in H. rewrite app_nil_r in H. exact H.
Qed.

Lemma hmac_len key msg : length (hmac_spec key msg) = 32%nat.
Proof. apply sha256_len. Qed.

(** ** HKDF *)

Lemma map_byte_at l : map (fun i => byte_at l (Z.of_nat i)) (seq 0 (length l)) = l.
Proof.
  apply nth_ext with 0 0; [by rewrite length_map, length_seq|]. rewrite length_map, length_seq. intros n Hn.
  rewrite (nth_indep _ 0 (byte_at l (Z.of_nat 0))) by (by rewrite length_map, length_seq).
  rewrite (map_nth (fun i => byte_at l (Z.of_nat i))), seq_nth by done. unfold byte_at. by rewrite Nat2Z.id.
Qed.

Lemma expand_key prk : length prk = 32%nat ->
  map (fun i => if Z.of_nat i <? SHA256_LEN then byte_at prk (Z.of_nat i) else 0) (seq 0 (Z.to_nat SHA256_BLOCK))
  = hmac_block prk.
Proof.
  intros Hl. unfold hmac_block. destruct (Z.leb_spec (zlen prk) 64) as [_|H]; [|unfold zlen in H; lia].
  change (Z.to_nat SHA256_BLOCK) with (32 + 32)%nat. rewrite seq_app, map_app, Hl. f_equal.
  etransitivity; [|apply (map_byte_at prk)]. rewrite Hl. apply map_ext_in. intros i Hi%in_seq.
  destruct (Z.ltb_spec (Z.of_nat i) SHA256_LEN) as [|H]; [done|unfold SHA256_LEN in H; lia].
Qed.

Lemma expand_block_exact prk t info c : length prk = 32%nat ->
  expand_block prk t info c = hmac_spec prk (t ++ info ++ [c]).
Proof.
  intros Hl. pose proof (two_pass_exact (hmac_block prk) [t; info; [c]]) as H. cbn [fold_left concat] in H.
  rewrite app_nil_r in H. unfold hmac_spec. rewrite <- H. unfold expand_block. rewrite expand_key by done. done.
Qed.

Lemma take_chunk {A} (t l : list A) n k :
  length t = k -> (k < n)%nat -> take n (t ++ l) = t ++ take (n - k) l.
Proof. intros Ht Hn. rewrite take_app, Ht, (take_ge t n) by lia. done. Qed.

Lemma expand_loop_done fuel prk t info c d n : n <= d -> expand_loop fuel prk t info c d n = [].
Proof. intros H. destruct fuel; cbn [expand_loop]; [done|]. by destruct (Z.leb_spec n d); [|lia]. Qed.

Lemma expand_loop_exact fuel prk t info c done_ n :
  length prk = 32%nat -> 0 <= done_ -> 1 <= c -> n - done_ <= Z.of_nat fuel -> n <= 255 * 32 -> 32 * c <= done_ + 32 ->
  expand_loop fuel prk t info c done_ n
  = take (Z.to_nat (n - done_)) (hkdf_blocks prk info t (Z.to_nat ((n - done_ + 31) / 32)) c).
Proof.
  intros Hl Hd Hc Hf Hn Hcd. revert t c done_ Hd Hc Hf Hcd.
  induction fuel as [|f IH]; intros t c d Hd Hc Hf Hcd; cbn [expand_loop].
  { replace (Z.to_nat (n - d)) with 0%nat by lia. done. }
  destruct (Z.leb_spec n d) as [H0|H0]; [replace (Z.to_nat (n - d)) with 0%nat by lia; done|].
  rewrite expand_block_exact by done. set (b := hmac_spec prk (t ++ info ++ [c])).
  assert (length b = 32%nat) as Hb by apply hmac_len. unfold SHA256_LEN.
  replace (Z.to_nat ((n - d + 31) / 32)) with (S (Z.to_nat ((n - d - 32 + 31) / 32 `max` 0))) by zdiv.
  cbn [hkdf_blocks]. fold b.
  destruct (Z.ltb_spec 32 (n - d)) as [Hlt|Hlt].
  - change (Z.to_nat 32) with 32%nat. rewrite firstn_all2 by lia. rewrite (take_chunk b _ _ 32) by (done || lia).
    f_equal. rewrite (wrap_id 8) by (unfold in_u; lia). rewrite IH by lia.
    replace (n - (d + 32)) with (n - d - 32) by lia. do 2 f_equal. zdiv.
  - rewrite expand_loop_done by lia. rewrite app_nil_r. rewrite take_app_le by lia. done.
Qed.

Lemma hkdf_exact salt ikm info n : 0 <= n ->
  hkdf salt ikm info n = if n <=? 255 * 32 then Some (hkdf_spec salt ikm info n) else None.
Proof.
  intros Hn. unfold hkdf, hkdf_expand, hkdf_extract, SHA256_LEN. rewrite hmac_exact.
  destruct (Z.ltb_spec (255 * 32) n), (Z.leb_spec n (255 * 32)); try lia; [done|]. f_equal.
  rewrite expand_loop_exact by (try apply hmac_len; lia). rewrite Z.sub_0_r. unfold hkdf_spec.
  destruct salt as [|x salt]; [done|]. destruct (Z.eqb_spec (zlen (x :: salt)) 0) as [E|_]; [|done].
  rewrite zlen_cons in E. pose proof (zlen_nonneg salt). lia.
Qed.

(** ** X9.63 *)

Lemma x963_block_exact z info c : x963_block z info c = sha256_spec (z ++ put_be 4 c ++ info).
Proof.
  unfold x963_block. destruct (Z.eqb_spec (zlen info) 0) as [E|_].
  - assert (info = []) as -> by (unfold zlen in E; destruct info; [done|cbn in E; lia]). apply (pieces_exact [z; put_be 4 c]).
  - rewrite <- (app_nil_r (put_be 4 c ++ info)), <- app_assoc. apply (pieces_exact [z; put_be 4 c; info]).
Qed.

Lemma x963_loop_done fuel z info c d n : n <= d -> x963_loop fuel z info c d n = [].
Proof. intros H. destruct fuel; cbn [x963_loop]; [done|]. by destruct (Z.leb_spec n d); [|lia]. Qed.

Lemma x963_loop_exact fuel z info : forall c d n,
  0 <= d -> 1 <= c -> n - d <= Z.of_nat fuel -> n <= 2 ^ 32 -> 32 * c <= d + 32 -> 
  x963_loop fuel z info c d n
  = take (Z.to_nat (n - d)) (concat (map (fun i => sha256_spec (z ++ put_be 4 (Z.of_nat i) ++ info))
      (seq (Z.to_nat c) (Z.to_nat ((n - d + 31) / 32))))).
Proof.
  induction fuel as [|f IH]; intros c d n Hd Hc Hf Hn Hcd; cbn [x963_loop].
  { replace (Z.to_nat (n - d)) with 0%nat by lia. done. }
  destruct (Z.leb_spec n d) as [H0|H0]; [replace (Z.to_nat (n - d)) with 0%nat by lia; done|].
  rewrite x963_block_exact. set (b := sha256_spec (z ++ put_be 4 c ++ info)).
  assert (length b = 32%nat) as Hb by apply sha256_len. unfold SHA256_LEN.
  replace (Z.to_nat ((n - d + 31) / 32)) with (S (Z.to_nat ((n - d - 32 + 31) / 32 `max` 0))) by zdiv.
  cbn [seq map concat]. rewrite Z2Nat.id by lia. fold b.
  destruct (Z.ltb_spec 32 (n - d)) as [Hlt|Hlt].
  - change (Z.to_nat 32) with 32%nat. rewrite firstn_all2 by lia. rewrite (take_chunk b _ _ 32) by (done || lia).
    f_equal. rewrite (wrap_id 32) by (unfold in_u; lia). rewrite IH by lia.
    replace (n - (d + 32)) with (n - d - 32) by lia. do 4 f_equal; [lia|zdiv].
  - rewrite x963_loop_done by lia. rewrite app_nil_r. rewrite take_app_le by lia. done.
Qed.

Lemma x963_exact z info n : 0 <= n ->
  x963_kdf z info n = if n <=? 0xffffffff - 32 then Some (x963_spec z info n) else None.
Proof.
  intros Hn. unfold x963_kdf, SHA256_LEN.
  destruct (Z.ltb_spec (0xffffffff - 32) n), (Z.leb_spec n (0xffffffff - 32)); try lia; [done|]. f_equal.
  rewrite x963_loop_exact by lia. by rewrite Z.sub_0_r.
Qed.

(** C31: the hash and everything built on it are the standards'.  However a message
    is cut into the pieces fed to it, the streaming context ends with the SHA-256
    of FIPS 180-4 of the whole; the MAC is HMAC of RFC 2104 for keys of any
    length; HKDF of RFC 5869 and the X9.63 derivation produce the requested bytes
    for every length they accept, and refuse exactly the lengths their counters
    cannot cover. *)
Theorem hash_standards pieces key msg salt ikm info n :
  0 <= n ->
  sha256_final (fold_left sha256_update pieces sha256_init) = sha256_spec (concat pieces) /\
  hmac_sha256 key msg = hmac_spec key msg /\
  hkdf salt ikm info n = (if n <=? 255 * 32 then Some (hkdf_spec salt ikm info n) else None) /\
  x963_kdf ikm info n = (if n <=? 0xffffffff - 32 then Some (x963_spec ikm info n) else None).
Proof.
  intros Hn. split; [apply pieces_exact|]. split; [apply hmac_exact|]. split; [by apply hkdf_exact|by apply x963_exact].
Qed.

(** [SHA-256("abc")] in two pieces, from FIPS 180-4. *)
Lemma hash_standards_witness :
  sha256_final (fold_left sha256_update [[97]; [98; 99]] sha256_init) =
    [0xba; 0x78; 0x16; 0xbf; 0x8f; 0x01; 0xcf; 0xea; 0x41; 0x41; 0x40; 0xde; 0x5d; 0xae; 0x22; 0x23;
     0xb0; 0x03; 0x61; 0xa3; 0x96; 0x17; 0x7a; 0x9c; 0xb4; 0x10; 0xff; 0x61; 0xf2; 0x00; 0x15; 0xad].
Proof.
  destruct (hash_standards [[97]; [98; 99]] [] [] [] [] [] 0 ltac:(done)) as [H _].
  rewrite H. vm_compute. reflexivity.
Defined.

(** The first test case of RFC 5869. *)
Example hkdf_rfc5869 :
  hkdf [0; 1; 2; 3; 4; 5; 6; 7; 8; 9; 10; 11; 12] (replicate 22 0x0b)
    [0xf0; 0xf1; 0xf2; 0xf3; 0xf4; 0xf5; 0xf6; 0xf7; 0xf8; 0xf9] 42 =
  Some [0x3c; 0xb2; 0x5f; 0x25; 0xfa; 0xac; 0xd5; 0x7a; 0x90; 0x43; 0x4f; 0x64; 0xd0; 0x36; 0x2f; 0x2a;
        0x2d; 0x2d; 0x0a; 0x90; 0xcf; 0x1a; 0x5a; 0x4c; 0x5d; 0xb0; 0x2d; 0x56; 0xec; 0xc4; 0xc5; 0xbf;
        0x34; 0x00; 0x72; 0x08; 0xd5; 0xb8; 0x87; 0x18; 0x58; 0x65].
Proof. vm_compute. reflexivity. Qed.
