(* ===== verification/CredCrypto.v ===== *)
(** * The credential key schedule and secure channels

    Models [modules/ultrawidelock_cred/src/ultrawidelock_crypto.c] (key schedule,
    the reader's secure channel, the framed messages, the salt transcript) and
    the device's mirror of the channels in [ultrawidelock_device.c].

    AES-256-GCM is a primitive of the platform: the class [Gcm], its documented
    behaviour the class [GcmLaws].  The hash and the derivations are those of
    [Hash].  A function that fills output buffers gives their contents, or
    [None] where it returns an error. *)

From Stdlib Require Import ZArith Lia Bool Strings.String Strings.Ascii.
From stdpp Require Import base list numbers option.
From S2P Require Import Prelude Wire Hash.

Local Open Scope Z_scope.
Local Open Scope uwl_scope.

(** A string literal of the C source, without its terminator. *)
Definition text (s : string) : list Z := map (fun c => Z.of_N (N_of_ascii c)) (list_ascii_of_string s).

Definition URSK_LEN : Z := 32.
Definition KEY_BLOCK_LEN : Z := 160.
Definition URSK_OFFSET : Z := 128.
Definition SESSION_KEY_LEN : Z := 32.
Definition GCM_NONCE_LEN : nat := 12.
Definition GCM_TAG_LEN : Z := 16.
Definition BLESK_OFFSET : Z := 96.
Definition STEPUP_SK_OFFSET : Z := 64.
Definition SALT_MAX : Z := 256.

(** The [n] bytes at [off] of a buffer. *)
Definition sub_bytes (p : list Z) (off n : Z) : list Z := take (Z.to_nat n) (drop (Z.to_nat off) p).

(** ** AES-256-GCM

    Encryption gives the ciphertext and the tag. *)

Class Gcm := {
  gcm_encrypt : list Z -> list Z -> list Z -> list Z -> option (list Z * list Z);
  gcm_decrypt : list Z -> list Z -> list Z -> list Z -> list Z -> option (list Z);
}.

(** Documented: with a 32-byte key and a 12-byte nonce encryption succeeds, the
    ciphertext is as long as the plaintext and the tag has 16 bytes; decryption
    accepts a ciphertext and tag exactly when encrypting the plaintext under the
    same key, nonce and associated data gives them. *)
Class GcmLaws (G : Gcm) := {
  gcm_total key nonce aad pt : length key = 32%nat -> length nonce = GCM_NONCE_LEN ->
    exists ct tag, gcm_encrypt key nonce aad pt = Some (ct, tag) /\ length ct = length pt /\ zlen tag = GCM_TAG_LEN;
  gcm_exact key nonce aad pt ct tag :
    gcm_decrypt key nonce aad ct tag = Some pt <-> gcm_encrypt key nonce aad pt = Some (ct, tag);
}.

(** ** Key schedule *)

Definition ursk_from_block (block : list Z) : list Z := sub_bytes block URSK_OFFSET URSK_LEN.

Definition derive_z (shared_secret txid : list Z) : list Z := default [] (x963_kdf shared_secret txid 32).

Definition derive_block (z salt device_pub_x : list Z) : option (list Z) := hkdf salt z device_pub_x KEY_BLOCK_LEN.

Definition derive_key32 (z salt device_pub_x : list Z) : option (list Z) := hkdf salt z device_pub_x 32.

(** Encryption key, decryption key, URSK. *)
Definition crypto_split (block : list Z) (with_c : bool) : list Z * list Z * list Z :=
  let base := if with_c then 0 else 32 in
  (sub_bytes block base SESSION_KEY_LEN, sub_bytes block (base + 32) SESSION_KEY_LEN,
   sub_bytes block URSK_OFFSET URSK_LEN).

(** The pair of keys of the ranging channel, and of the step-up channel. *)
Definition derive_ble_keys (block salt : list Z) : option (list Z * list Z) :=
  let ble_sk := sub_bytes block BLESK_OFFSET 32 in
  ble_reader ← hkdf salt ble_sk (text "BleSKReader") SESSION_KEY_LEN;
  ble_device ← hkdf salt ble_sk (text "BleSKDevice") SESSION_KEY_LEN;
  Some (ble_reader, ble_device).

Definition stepup_derive_keys (block : list Z) : option (list Z * list Z) :=
  let stepup := sub_bytes block STEPUP_SK_OFFSET SESSION_KEY_LEN in
  sk_reader ← hkdf [] stepup (text "SKReader") SESSION_KEY_LEN;
  sk_device ← hkdf [] stepup (text "SKDevice") SESSION_KEY_LEN;
  Some (sk_reader, sk_device).

(** ** Channels *)

Definition gcm_nonce (direction counter : Z) : list Z := put_be 8 direction ++ put_be 4 counter.

Record secchan := { sc_enc_key : list Z; sc_dec_key : list Z; sc_enc_ctr : Z; sc_dec_ctr : Z }.

#[export] Instance secchan_eta : Eta secchan := fun s =>
  {| sc_enc_key := sc_enc_key s; sc_dec_key := sc_dec_key s; sc_enc_ctr := sc_enc_ctr s; sc_dec_ctr := sc_dec_ctr s |}.

Definition secchan_init (enc_key dec_key : list Z) : secchan :=
  {| sc_enc_key := enc_key; sc_dec_key := dec_key; sc_enc_ctr := 1; sc_dec_ctr := 1 |}.

(** The device's view of a channel. *)
Record dev_secchan := { ds_s0 : list Z; ds_s1 : list Z; ds_ctr_r2d : Z; ds_ctr_d2r : Z }.

#[export] Instance dev_secchan_eta : Eta dev_secchan := fun s =>
  {| ds_s0 := ds_s0 s; ds_s1 := ds_s1 s; ds_ctr_r2d := ds_ctr_r2d s; ds_ctr_d2r := ds_ctr_d2r s |}.

Definition dev_secchan_init (s0 s1 : list Z) : dev_secchan :=
  {| ds_s0 := s0; ds_s1 := s1; ds_ctr_r2d := 1; ds_ctr_d2r := 1 |}.

(** A header whose length field is to carry [len]. *)
Definition frame_header (h : list Z) (len : Z) : list Z := [byte_at h 0; byte_at h 1; u8 (Z.shiftr len 8); u8 len].

Definition header_len (h : list Z) : Z := Z.lor (Z.shiftl (byte_at h 2) 8) (byte_at h 3).

Section Channel.
Context `{G : Gcm}.

Definition verify_cryptogram (cryptogram_sk cryptogram : list Z) : option (list Z) :=
  if zlen cryptogram <? GCM_TAG_LEN then None else
  let ct_len := zlen cryptogram - GCM_TAG_LEN in
  gcm_decrypt cryptogram_sk (replicate GCM_NONCE_LEN 0) [] (sub_bytes cryptogram 0 ct_len)
    (sub_bytes cryptogram ct_len GCM_TAG_LEN).

Definition dev_seal_cryptogram (cryptogram_sk plain : list Z) : option (list Z) :=
  '(ct, tag) ← gcm_encrypt cryptogram_sk (replicate GCM_NONCE_LEN 0) [] plain; Some (ct ++ tag).

Definition secchan_seal (sc : secchan) (aad pt : list Z) : secchan * option (list Z * list Z) :=
  if sc_enc_ctr sc =? 0xffffffff then (sc, None) else
  match gcm_encrypt (sc_enc_key sc) (gcm_nonce 0 (sc_enc_ctr sc)) aad pt with
  | Some out => (sc <| sc_enc_ctr := u32 (sc_enc_ctr sc + 1) |>, Some out)
  | None => (sc, None)
  end.

Definition secchan_open (sc : secchan) (aad ct tag : list Z) : secchan * option (list Z) :=
  if sc_dec_ctr sc =? 0xffffffff then (sc, None) else
  match gcm_decrypt (sc_dec_key sc) (gcm_nonce 1 (sc_dec_ctr sc)) aad ct tag with
  | Some pt => (sc <| sc_dec_ctr := u32 (sc_dec_ctr sc + 1) |>, Some pt)
  | None => (sc, None)
  end.

(** The frame around a sealed payload, and its checks. *)
Definition seal_frame_ok (plain : list Z) (wire_cap : Z) : bool :=
  (4 <=? zlen plain) && (header_len plain =? zlen plain - 4) && (zlen plain + GCM_TAG_LEN <=? wire_cap).

Definition open_frame_ok (wire : list Z) (plain_cap : Z) : bool :=
  (4 + GCM_TAG_LEN <=? zlen wire) && (header_len wire + 4 =? zlen wire) && (GCM_TAG_LEN <=? header_len wire) &&
  (4 + (header_len wire - GCM_TAG_LEN) <=? plain_cap).

Definition msg_seal (sc : secchan) (plain : list Z) (wire_cap : Z) : secchan * option (list Z) :=
  if negb (seal_frame_ok plain wire_cap) then (sc, None) else
  let len_plain := zlen plain - 4 in
  let wlen := u16 (len_plain + GCM_TAG_LEN) in
  match secchan_seal sc (take 4 plain) (drop 4 plain) with
  | (sc, Some (ct, tag)) => (sc, Some (frame_header plain wlen ++ ct ++ tag))
  | (sc, None) => (sc, None)
  end.

Definition msg_open (sc : secchan) (wire : list Z) (plain_cap : Z) : secchan * option (list Z) :=
  if negb (open_frame_ok wire plain_cap) then (sc, None) else
  let len_plain := header_len wire - GCM_TAG_LEN in
  let aad := frame_header wire len_plain in
  match secchan_open sc aad (sub_bytes wire 4 len_plain) (sub_bytes wire (4 + len_plain) GCM_TAG_LEN) with
  | (sc, Some pt) => (sc, Some (aad ++ pt))
  | (sc, None) => (sc, None)
  end.

(** *** The device's side *)

Definition dev_secchan_open (sc : dev_secchan) (ct tag : list Z) : dev_secchan * option (list Z) :=
  match gcm_decrypt (ds_s0 sc) (gcm_nonce 0 (ds_ctr_r2d sc)) [] ct tag with
  | Some pt => (sc <| ds_ctr_r2d := u32 (ds_ctr_r2d sc + 1) |>, Some pt)
  | None => (sc, None)
  end.

Definition dev_secchan_seal (sc : dev_secchan) (pt : list Z) : dev_secchan * option (list Z * list Z) :=
  match gcm_encrypt (ds_s1 sc) (gcm_nonce 1 (ds_ctr_d2r sc)) [] pt with
  | Some out => (sc <| ds_ctr_d2r := u32 (ds_ctr_d2r sc + 1) |>, Some out)
  | None => (sc, None)
  end.

Definition dev_blesk_init (block versions_salt : list Z) : option dev_secchan :=
  '(ble_reader, ble_device) ← derive_ble_keys block versions_salt; Some (dev_secchan_init ble_reader ble_device).

Definition dev_ble_open (ch : dev_secchan) (wire : list Z) (plain_cap : Z) : dev_secchan * option (list Z) :=
  if negb (open_frame_ok wire plain_cap) then (ch, None) else
  let len_plain := header_len wire - GCM_TAG_LEN in
  let aad := frame_header wire len_plain in
  match gcm_decrypt (ds_s0 ch) (gcm_nonce 0 (ds_ctr_r2d ch)) aad (sub_bytes wire 4 len_plain)
          (sub_bytes wire (4 + len_plain) GCM_TAG_LEN) with
  | Some pt => (ch <| ds_ctr_r2d := u32 (ds_ctr_r2d ch + 1) |>, Some (aad ++ pt))
  | None => (ch, None)
  end.

Definition dev_ble_seal (ch : dev_secchan) (plain : list Z) (wire_cap : Z) : dev_secchan * option (list Z) :=
  if negb (seal_frame_ok plain wire_cap) then (ch, None) else
  let len_plain := zlen plain - 4 in
  let wlen := u16 (len_plain + GCM_TAG_LEN) in
  match gcm_encrypt (ds_s1 ch) (gcm_nonce 1 (ds_ctr_d2r ch)) (take 4 plain) (drop 4 plain) with
  | Some (ct, tag) => (ch <| ds_ctr_d2r := u32 (ds_ctr_d2r ch + 1) |>, Some (frame_header plain wlen ++ ct ++ tag))
  | None => (ch, None)
  end.

End Channel.

(** ** The salt transcript *)

Inductive salt_type := SALT_CRYPTOGRAM | SALT_SESSION | SALT_KPERSISTENT.

#[export] Instance salt_type_eq_dec : EqDecision salt_type.
Proof. solve_decision. Defined.

Definition salt_type_code (t : salt_type) : Z :=
  match t with SALT_CRYPTOGRAM => 0 | SALT_SESSION => 1 | SALT_KPERSISTENT => 2 end.

Definition salt_label : list Z := text "VolatileFastVolatile****Persistent**".
Definition salt_const : list Z := [0x5c; 0x02].

(** The output so far and whether an append failed. *)
Definition salt_append (cap : Z) (acc : list Z * bool) (src : list Z) : list Z * bool :=
  let '(out, failed) := acc in
  if cap <? zlen out + zlen src then (out, true) else (out ++ src, failed).

Definition salt_build (type : salt_type) (txid span_s1 reader_value reader_id : list Z)
    (interface_byte proto_version exp_phase_type user_auth_policy : Z) (s3opt a5_tlv : option (list Z)) : option (list Z) :=
  let parts :=
    [span_s1; sub_bytes salt_label (salt_type_code type * 12) 12; reader_id; [interface_byte]; salt_const;
     put_be 2 proto_version; reader_value; txid; [exp_phase_type; user_auth_policy]] ++
    (match a5_tlv with Some a5 => if 0 <? zlen a5 then [a5] else [] | None => [] end) ++
    (match s3opt with Some s3 => if bool_decide (type = SALT_SESSION) then [] else [s3] | None => [] end) in
  let '(out, failed) := fold_left (salt_append SALT_MAX) parts ([], false) in
  if failed then None else Some out.

(** * Channels between reader and device, and the salt transcript

    What one side of a channel seals the other side opens, in both directions
    and in order; the reader never uses a nonce twice under a key; the salt
    determines everything that went into it.  At the end an instance of the
    AES-GCM class that satisfies its laws. *)

Local Open Scope Z_scope.
Local Open Scope uwl_scope.

(** ** Splitting buffers *)

Lemma sub_bytes_mid a b c : sub_bytes (a ++ b ++ c) (zlen a) (zlen b) = b.
Proof.
  unfold sub_bytes, zlen. rewrite !Nat2Z.id, drop_app_length, take_app_length. done.
Qed.

Lemma sub_bytes_head b c : sub_bytes (b ++ c) 0 (zlen b) = b.
Proof. apply (sub_bytes_mid []). Qed.

Lemma sub_bytes_tail a b : sub_bytes (a ++ b) (zlen a) (zlen b) = b.
Proof. rewrite <- (app_nil_r b) at 1. apply sub_bytes_mid. Qed.

Lemma header_len_be h len : in_u 16 len -> header_len (frame_header h len) = len.
Proof.
  intros Hl. unfold header_len, frame_header. change (byte_at [_; _; ?x; _] 2) with x. change (byte_at [_; _; _; ?x] 3) with x.
  change (Z.lor (Z.shiftl (u8 (Z.shiftr len 8)) 8) (u8 len)) with
    (Z.lor (Z.shiftl (Z.lor (Z.shiftl 0 8) (u8 (Z.shiftr len 8))) 8) (u8 len)).
  pose proof (get_put_be_id 2 len Hl) as H. unfold put_be, get_be in H. cbn [fold_left Z.of_nat Pos.of_succ_nat Z.mul] in H.
  change (8 * 1) with 8 in H. change (8 * 0) with 0 in H. by rewrite Z.shiftr_0_r in H.
Qed.

Lemma msg_header_app h len x : frame_header (frame_header h len ++ x) = frame_header h.
Proof. done. Qed.

Lemma header_len_app h len x : header_len (frame_header h len ++ x) = header_len (frame_header h len).
Proof. done. Qed.

(** A well-formed header is the one rebuilt from its fields. *)
Lemma header_rebuild p : Forall byte_ok p -> 4 <= zlen p -> frame_header p (header_len p) = take 4 p.
Proof.
  intros Hp Hl. destruct p as [|a [|b [|c [|d p]]]]; try (unfold zlen in Hl; cbn in Hl; lia).
  apply list.Forall_cons in Hp as [Ha Hp]. apply list.Forall_cons in Hp as [Hb Hp].
  apply list.Forall_cons in Hp as [Hc Hp]. apply list.Forall_cons in Hp as [Hd _].
  change ([a; b; u8 (Z.shiftr (Z.lor (Z.shiftl c 8) d) 8); u8 (Z.lor (Z.shiftl c 8) d)] = [a; b; c; d]).
  unfold byte_ok in *. rewrite lor_shiftl_add by lia. rewrite Z.shiftr_div_pow2 by lia. unfold wrap. change (2 ^ 8) with 256.
  assert ((c * 256 + d) / 256 mod 256 = c) as -> by zdiv. assert ((c * 256 + d) mod 256 = d) as -> by zdiv. done.
Qed.

Section Channels.
Context {G : Gcm} {L : GcmLaws G}.

(** The two ends of one channel, at the same point of the conversation. *)
Record paired (r : secchan) (d : dev_secchan) : Prop := {
  pr_r2d : sc_enc_key r = ds_s0 d /\ sc_enc_ctr r = ds_ctr_r2d d;
  pr_d2r : sc_dec_key r = ds_s1 d /\ sc_dec_ctr r = ds_ctr_d2r d;
  pr_keys : length (ds_s0 d) = 32%nat /\ length (ds_s1 d) = 32%nat;
  pr_ctrs : in_u 32 (ds_ctr_r2d d) /\ in_u 32 (ds_ctr_d2r d);
}.

Lemma paired_init k1 k2 : length k1 = 32%nat -> length k2 = 32%nat -> paired (secchan_init k1 k2) (dev_secchan_init k1 k2).
Proof. intros. constructor; cbn; try done; unfold in_u; lia. Qed.

Lemma nonce_len dir ctr : length (gcm_nonce dir ctr) = GCM_NONCE_LEN.
Proof. unfold gcm_nonce. by rewrite length_app, !length_put_be. Qed.

(** A framed plaintext: four header bytes with the length of what follows. *)
Definition framed (plain : list Z) : Prop :=
  Forall byte_ok plain /\ 4 <= zlen plain /\ header_len plain = zlen plain - 4.

(** What both framed directions share. *)
Lemma frame_opens plain wire_cap plain_cap ct tag :
  framed plain -> zlen plain + GCM_TAG_LEN <= wire_cap -> zlen plain <= plain_cap -> zlen plain <= 65523 ->
  zlen ct = zlen plain - 4 -> zlen tag = GCM_TAG_LEN ->
  let wire := frame_header plain (u16 (zlen plain - 4 + GCM_TAG_LEN)) ++ ct ++ tag in
  seal_frame_ok plain wire_cap = true /\ open_frame_ok wire plain_cap = true /\
  header_len wire - GCM_TAG_LEN = zlen plain - 4 /\ frame_header wire (zlen plain - 4) = take 4 plain /\
  sub_bytes wire 4 (zlen plain - 4) = ct /\ sub_bytes wire (4 + (zlen plain - 4)) GCM_TAG_LEN = tag.
Proof.
  unfold GCM_TAG_LEN. intros (Hb & H4 & Hh) Hw Hp Hmax Hct Htag. cbv zeta. set (hd := frame_header plain _).
  assert (zlen hd = 4) as Hhd by done.
  assert (header_len (hd ++ ct ++ tag) = zlen plain - 4 + 16) as Hlen.
  { unfold hd. rewrite header_len_app, header_len_be; unfold wrap, in_u; rewrite Z.mod_small; lia. }
  unfold seal_frame_ok, open_frame_ok, GCM_TAG_LEN. rewrite Hlen, !zlen_app, Hct, Htag, Hhd, Hh. split_and!.
  - lia.
  - lia.
  - lia.
  - unfold hd. rewrite msg_header_app. rewrite <- Hh. by apply header_rebuild.
  - rewrite <- Hct, <- Hhd. apply sub_bytes_mid.
  - rewrite <- Hct, <- Hhd, <- zlen_app, <- Htag, app_assoc. apply sub_bytes_tail.
Qed.

Lemma zlen_drop4 (plain : list Z) : 4 <= zlen plain -> zlen (drop 4 plain) = zlen plain - 4.
Proof. unfold zlen. rewrite length_drop. lia. Qed.

Lemma r2d_frame r d plain wire_cap plain_cap :
  paired r d -> framed plain -> zlen plain + GCM_TAG_LEN <= wire_cap -> zlen plain <= plain_cap -> zlen plain <= 65523 ->
  sc_enc_ctr r <> 0xffffffff ->
  exists r' wire d', msg_seal r plain wire_cap = (r', Some wire) /\ dev_ble_open d wire plain_cap = (d', Some plain) /\ paired r' d'.
Proof.
  intros [[K1 C1] [K2 C2] [L1 L2] [R1 R2]] Hf Hw Hp Hmax Hctr. pose proof Hf as (_ & H4 & _).
  destruct (gcm_total (sc_enc_key r) (gcm_nonce 0 (sc_enc_ctr r)) (take 4 plain) (drop 4 plain)) as (ct & tag & He & Hc & Ht);
    [by rewrite K1|apply nonce_len|].
  assert (zlen ct = zlen plain - 4) as Hct by (rewrite <- zlen_drop4 by done; unfold zlen; by rewrite Hc).
  destruct (frame_opens plain wire_cap plain_cap ct tag Hf Hw Hp Hmax Hct Ht) as (S1 & S2 & S3 & S4 & S5 & S6).
  set (wire := frame_header plain _ ++ ct ++ tag) in *.
  exists (r <| sc_enc_ctr := u32 (sc_enc_ctr r + 1) |>), wire, (d <| ds_ctr_r2d := u32 (ds_ctr_r2d d + 1) |>).
  split; [|split].
  - unfold msg_seal, secchan_seal. rewrite S1. cbn [negb]. destruct (Z.eqb_spec (sc_enc_ctr r) 0xffffffff); [done|].
    by rewrite He.
  - unfold dev_ble_open. rewrite S2. cbn [negb]. rewrite S3, S4, S5, S6, <- K1, <- C1.
    apply gcm_exact in He. rewrite He. by rewrite take_drop.
  - constructor; cbn; [by rewrite C1|done|done|]. split; [apply wrap_range; lia|done].
Qed.

Lemma d2r_frame r d plain wire_cap plain_cap :
  paired r d -> framed plain -> zlen plain + GCM_TAG_LEN <= wire_cap -> zlen plain <= plain_cap -> zlen plain <= 65523 ->
  sc_dec_ctr r <> 0xffffffff ->
  exists d' wire r', dev_ble_seal d plain wire_cap = (d', Some wire) /\ msg_open r wire plain_cap = (r', Some plain) /\ paired r' d'.
Proof.
  intros [[K1 C1] [K2 C2] [L1 L2] [R1 R2]] Hf Hw Hp Hmax Hctr. pose proof Hf as (_ & H4 & _).
  destruct (gcm_total (ds_s1 d) (gcm_nonce 1 (ds_ctr_d2r d)) (take 4 plain) (drop 4 plain)) as (ct & tag & He & Hc & Ht);
    [done|apply nonce_len|].
  assert (zlen ct = zlen plain - 4) as Hct by (rewrite <- zlen_drop4 by done; unfold zlen; by rewrite Hc).
  destruct (frame_opens plain wire_cap plain_cap ct tag Hf Hw Hp Hmax Hct Ht) as (S1 & S2 & S3 & S4 & S5 & S6).
  set (wire := frame_header plain _ ++ ct ++ tag) in *.
  exists (d <| ds_ctr_d2r := u32 (ds_ctr_d2r d + 1) |>), wire, (r <| sc_dec_ctr := u32 (sc_dec_ctr r + 1) |>).
  split; [|split].
  - unfold dev_ble_seal. rewrite S1. cbn [negb]. by rewrite He.
  - unfold msg_open, secchan_open. rewrite S2. cbn [negb]. rewrite S3, S4, S5, S6, K2, C2.
    rewrite <- C2 at 1. destruct (Z.eqb_spec (sc_dec_ctr r) 0xffffffff); [done|].
    apply gcm_exact in He. rewrite He. by rewrite take_drop.
  - constructor; cbn; [done|by rewrite C2|done|]. split; [done|apply wrap_range; lia].
Qed.

(** *** Conversations *)

Inductive speaker := FromReader | FromDevice.

(** One message of a conversation: sealed by its sender, opened by the other. *)
Definition exchange_one (cap : Z) (s : secchan * dev_secchan) (m : speaker * list Z) :
    (secchan * dev_secchan) * option (list Z) :=
  let '(r, d) := s in
  match m with
  | (FromReader, plain) =>
      match msg_seal r plain cap with
      | (r, Some wire) => let '(d, got) := dev_ble_open d wire cap in ((r, d), got)
      | (r, None) => ((r, d), None)
      end
  | (FromDevice, plain) =>
      match dev_ble_seal d plain cap with
      | (d, Some wire) => let '(r, got) := msg_open r wire cap in ((r, d), got)
      | (d, None) => ((r, d), None)
      end
  end.

Fixpoint converse (cap : Z) (s : secchan * dev_secchan) (ms : list (speaker * list Z)) : list (option (list Z)) :=
  match ms with
  | [] => []
  | m :: ms => let '(s, got) := exchange_one cap s m in got :: converse cap s ms
  end.

Lemma converse_delivers cap ms : forall r d,
  paired r d -> Forall (fun m => framed m.2 /\ zlen m.2 + GCM_TAG_LEN <= cap /\ zlen m.2 <= 65523) ms ->
  sc_enc_ctr r + zlen ms <= 0xffffffff -> sc_dec_ctr r + zlen ms <= 0xffffffff ->
  converse cap (r, d) ms = map (fun m => Some m.2) ms.
Proof.
  induction ms as [|[s plain] ms IH]; intros r d Hp HF He Hd; [done|]. apply list.Forall_cons in HF as [(Hf & Hc & Hm) HF].
  rewrite zlen_cons in *. pose proof (zlen_nonneg ms). cbn [snd] in *. unfold GCM_TAG_LEN in *.
  pose proof (pr_ctrs _ _ Hp) as [R1 R2]. pose proof (pr_r2d _ _ Hp) as [_ C1]. pose proof (pr_d2r _ _ Hp) as [_ C2].
  unfold in_u in R1, R2. cbn [converse map snd].
  destruct s; cbn [exchange_one].
  - destruct (r2d_frame r d plain cap cap Hp Hf) as (r' & wire & d' & E1 & E2 & Hp'); [unfold GCM_TAG_LEN; lia..|].
    rewrite E1, E2. f_equal. apply IH; [done|done| |].
    + assert (sc_enc_ctr r' = sc_enc_ctr r + 1); [|lia].
      revert E1. unfold msg_seal. destruct (negb _); [done|]. unfold secchan_seal. destruct (_ =? _); [done|].
      destruct (gcm_encrypt _ _ _ _) as [[]|]; [|done]. intros [= <- _]. cbn. apply wrap_id. unfold in_u. lia.
    + assert (sc_dec_ctr r' = sc_dec_ctr r); [|lia].
      revert E1. unfold msg_seal. destruct (negb _); [done|]. unfold secchan_seal. destruct (_ =? _); [done|].
      destruct (gcm_encrypt _ _ _ _) as [[]|]; [|done]. by intros [= <- _].
  - destruct (d2r_frame r d plain cap cap Hp Hf) as (d' & wire & r' & E1 & E2 & Hp'); [unfold GCM_TAG_LEN; lia..|].
    rewrite E1, E2. f_equal. apply IH; [done|done| |].
    + assert (sc_enc_ctr r' = sc_enc_ctr r); [|lia].
      revert E2. unfold msg_open. destruct (negb _); [done|]. unfold secchan_open. destruct (_ =? _); [done|].
      destruct (gcm_decrypt _ _ _ _) as [|]; [|done]. by intros [= <- _].
    + assert (sc_dec_ctr r' = sc_dec_ctr r + 1); [|lia].
      revert E2. unfold msg_open. destruct (negb _); [done|]. unfold secchan_open. destruct (_ =? _); [done|].
      destruct (gcm_decrypt _ _ _ _) as [|]; [|done]. intros [= <- _]. cbn. apply wrap_id. unfold in_u. lia.
Qed.

(** C23: the two ends of the ranging channel understand each other.  Starting from
    the keys one block yields, every conversation of well-formed messages, in any
    interleaving of the two directions, is delivered message by message exactly
    as it was sent, up to the 2^32 - 2 messages the counters allow. *)
Theorem ble_conversation block salt br bd cap ms :
  derive_ble_keys block salt = Some (br, bd) ->
  Forall (fun m => framed m.2 /\ zlen m.2 + GCM_TAG_LEN <= cap /\ zlen m.2 <= 65523) ms -> zlen ms <= 0xfffffffe ->
  exists d, dev_blesk_init block salt = Some d /\
    converse cap (secchan_init br bd, d) ms = map (fun m => Some m.2) ms.
Proof.
  intros Hk HF Hn. exists (dev_secchan_init br bd). unfold dev_blesk_init. rewrite Hk. split; [done|].
  assert (length br = 32%nat /\ length bd = 32%nat) as [L1 L2].
  { revert Hk. unfold derive_ble_keys, SESSION_KEY_LEN. rewrite !hkdf_exact by done. cbn. intros [= <- <-].
    split; unfold hkdf_spec; rewrite length_take; change (Z.to_nat ((32 + 31) / 32)) with 1%nat;
      cbn [hkdf_blocks]; rewrite length_app, hmac_len; done. }
  apply converse_delivers; [by apply paired_init|done|cbn; lia..].
Qed.

End Channels.

(** ** The reader's nonces *)

Inductive secchan_op :=
  | SealOp (aad pt : list Z)
  | OpenOp (aad ct tag : list Z)
  | MsgSealOp (plain : list Z) (cap : Z)
  | MsgOpenOp (wire : list Z) (cap : Z).

Section Nonces.
Context {G : Gcm}.

(** What a channel hands out: a ciphertext with its tag, or a frame for the
    radio. *)
Inductive sealed :=
  | SealedPair (aad pt ct tag : list Z)
  | SealedFrame (plain wire : list Z).

(** The output [s] is what the cipher makes of its input under the key [key] and
    the nonce [n]. *)
Definition encrypted_with (key n : list Z) (s : sealed) : Prop :=
  match s with
  | SealedPair aad pt ct tag => gcm_encrypt key n aad pt = Some (ct, tag)
  | SealedFrame plain wire => exists ct tag,
      gcm_encrypt key n (take 4 plain) (drop 4 plain) = Some (ct, tag) /\
      wire = frame_header plain (u16 (zlen plain - 4 + GCM_TAG_LEN)) ++ ct ++ tag
  end.

(** One operation on the channel, and what it hands out. *)
Definition secchan_step (sc : secchan) (op : secchan_op) : secchan * option sealed :=
  match op with
  | SealOp aad pt =>
      let '(sc, out) := secchan_seal sc aad pt in (sc, '(ct, tag) ← out; Some (SealedPair aad pt ct tag))
  | OpenOp aad ct tag => ((secchan_open sc aad ct tag).1, None)
  | MsgSealOp plain cap =>
      let '(sc, out) := msg_seal sc plain cap in (sc, wire ← out; Some (SealedFrame plain wire))
  | MsgOpenOp wire cap => ((msg_open sc wire cap).1, None)
  end.

(** Everything a run of operations hands out, in order. *)
Fixpoint sealed_by (sc : secchan) (ops : list secchan_op) : list sealed :=
  match ops with
  | [] => []
  | op :: ops =>
      let '(sc, out) := secchan_step sc op in
      match out with Some s => s :: sealed_by sc ops | None => sealed_by sc ops end
  end.

(** What the cipher returned under the current counter moves it on by one; a
    refusal leaves it. *)
Lemma secchan_seal_ctr sc aad pt : in_u 32 (sc_enc_ctr sc) ->
  let '(sc', out) := secchan_seal sc aad pt in
  sc_enc_key sc' = sc_enc_key sc /\
  match out with
  | Some (ct, tag) => gcm_encrypt (sc_enc_key sc) (gcm_nonce 0 (sc_enc_ctr sc)) aad pt = Some (ct, tag) /\
      sc_enc_ctr sc' = sc_enc_ctr sc + 1 /\ in_u 32 (sc_enc_ctr sc')
  | None => sc_enc_ctr sc' = sc_enc_ctr sc
  end.
Proof.
  intros Hc. unfold secchan_seal. destruct (Z.eqb_spec (sc_enc_ctr sc) 0xffffffff) as [|Hn]; [done|].
  destruct (gcm_encrypt _ _ _ _) as [[ct tag]|] eqn:E; [|done]. cbn. unfold in_u in *.
  rewrite wrap_id by (unfold in_u; lia). split_and!; done || lia.
Qed.

Lemma secchan_open_ctr sc aad ct tag :
  sc_enc_key (secchan_open sc aad ct tag).1 = sc_enc_key sc /\
  sc_enc_ctr (secchan_open sc aad ct tag).1 = sc_enc_ctr sc.
Proof. unfold secchan_open. destruct (_ =? _); [done|]. by destruct (gcm_decrypt _ _ _ _). Qed.

Lemma secchan_step_ctr sc op :
  in_u 32 (sc_enc_ctr sc) ->
  let '(sc', out) := secchan_step sc op in
  sc_enc_key sc' = sc_enc_key sc /\
  match out with
  | Some s => encrypted_with (sc_enc_key sc) (gcm_nonce 0 (sc_enc_ctr sc)) s /\
      sc_enc_ctr sc' = sc_enc_ctr sc + 1 /\ in_u 32 (sc_enc_ctr sc')
  | None => sc_enc_ctr sc' = sc_enc_ctr sc
  end.
Proof.
  intros Hc. destruct op as [aad pt|aad ct tag|plain cap|wire cap]; cbn [secchan_step].
  - pose proof (secchan_seal_ctr sc aad pt Hc) as H. by destruct (secchan_seal sc aad pt) as [sc' [[ct tag]|]].
  - apply secchan_open_ctr.
  - unfold msg_seal. destruct (negb _); [done|]. pose proof (secchan_seal_ctr sc (take 4 plain) (drop 4 plain) Hc) as H.
    destruct (secchan_seal sc _ _) as [sc' [[ct tag]|]]; [|done]. destruct H as (H1 & H2 & H3). cbn. eauto 8.
  - unfold msg_open. destruct (negb _); [done|]. cbv zeta.
    match goal with |- context [secchan_open sc ?a ?c ?t] => pose proof (secchan_open_ctr sc a c t) as H end.
    by destruct (secchan_open sc _ _ _) as [sc' [pt|]].
Qed.

Lemma nonce_inj a b : in_u 32 a -> in_u 32 b -> gcm_nonce 0 a = gcm_nonce 0 b -> a = b.
Proof.
  intros Ha Hb H. unfold gcm_nonce in H. apply app_inv_head in H. apply (f_equal get_be) in H.
  by rewrite !(get_put_be_id 4) in H.
Qed.

(** The nonces of a channel's next [n] outputs. *)
Definition nonces_from (first n : Z) : list (list Z) := gcm_nonce 0 <$> seqZ first n.

Lemma nonces_from_NoDup first n : 0 <= first -> first + n <= 2 ^ 32 -> NoDup (nonces_from first n).
Proof.
  intros Hf Hn. apply NoDup_fmap_2_strong; [|apply NoDup_seqZ].
  intros x y Hx%elem_of_seqZ Hy%elem_of_seqZ. apply nonce_inj; unfold in_u; lia.
Qed.

(** Each output is encrypted under the nonce its place in the run gives it. *)
Lemma sealed_in_order ops : forall sc, in_u 32 (sc_enc_ctr sc) ->
  let ss := sealed_by sc ops in
  Forall2 (encrypted_with (sc_enc_key sc)) (nonces_from (sc_enc_ctr sc) (zlen ss)) ss /\
  sc_enc_ctr sc + zlen ss < 2 ^ 32.
Proof.
  induction ops as [|op ops IH]; intros sc Hc ss; subst ss; cbn [sealed_by].
  { change (zlen []) with 0. unfold in_u in Hc. split; [constructor|lia]. }
  pose proof (secchan_step_ctr sc op Hc) as Hs. destruct (secchan_step sc op) as [sc' [s|]].
  - destruct Hs as (K & E & C1 & C2). destruct (IH sc' C2) as [H1 H2]. rewrite K, C1 in H1. rewrite zlen_cons.
    split; [|lia]. unfold nonces_from. rewrite seqZ_cons by (pose proof (zlen_nonneg (sealed_by sc' ops)); lia).
    rewrite fmap_cons. constructor; [done|]. by replace (Z.pred (1 + zlen (sealed_by sc' ops))) with (zlen (sealed_by sc' ops)) by lia.
  - destruct Hs as [K E]. rewrite <- E in Hc. rewrite <- K, <- E. by apply IH.
Qed.

(** C25: the reader never encrypts twice under one nonce.  Over every sequence of
    operations on a fresh channel, failures included, the k-th thing the channel
    hands out (a sealed payload or a framed message) is what the cipher makes of
    its plaintext under the channel's key and the nonce of the counter k; those
    nonces are pairwise different, and there are fewer than 2^32 of them: when the
    counter is exhausted the channel refuses to seal instead of starting over. *)
Theorem secchan_nonces_unique enc_key dec_key ops :
  let ss := sealed_by (secchan_init enc_key dec_key) ops in
  Forall2 (encrypted_with enc_key) (nonces_from 1 (zlen ss)) ss /\
  NoDup (nonces_from 1 (zlen ss)) /\ 1 + zlen ss < 2 ^ 32 /\
  forall sc aad pt, sc_enc_ctr sc = 0xffffffff -> secchan_seal sc aad pt = (sc, None).
Proof.
  intros ss. destruct (sealed_in_order ops (secchan_init enc_key dec_key)) as [H1 H2]; [cbn; unfold in_u; lia|].
  split_and!; [exact H1|apply nonces_from_NoDup; cbn in H2; fold ss in H2; lia|exact H2|].
  intros sc aad pt E. unfold secchan_seal. by rewrite E.
Qed.

(** The device's channel has no such guard: its counter starts over. *)
Lemma dev_counter_wraps sc pt out :
  ds_ctr_d2r sc = 0xffffffff -> gcm_encrypt (ds_s1 sc) (gcm_nonce 1 0xffffffff) [] pt = Some out ->
  ds_ctr_d2r (dev_secchan_seal sc pt).1 = 0.
Proof. intros E He. unfold dev_secchan_seal. rewrite E, He. reflexivity. Qed.

(** A payload of 65520 bytes or more is sealed under a header whose length field
    has wrapped, so the peer refuses the frame. *)
Lemma msg_seal_oversize sc plain wire_cap sc' wire plain_cap :
  65524 <= zlen plain <= 65539 -> msg_seal sc plain wire_cap = (sc', Some wire) ->
  zlen wire = zlen plain + GCM_TAG_LEN -> open_frame_ok wire plain_cap = false.
Proof.
  intros Hl. unfold msg_seal. destruct (negb _); [done|]. destruct (secchan_seal _ _ _) as [? [[ct tag]|]]; [|done].
  intros [= _ <-]. set (w := u16 (zlen plain - 4 + GCM_TAG_LEN)). intros Hz. unfold open_frame_ok.
  assert (w = zlen plain - 4 + 16 - 65536) as Hw.
  { unfold w, GCM_TAG_LEN, wrap. change (2 ^ 16) with 65536. symmetry. apply (Z.mod_unique _ _ 1); lia. }
  change (byte_at plain 0 :: byte_at plain 1 :: u8 (Z.shiftr w 8) :: u8 w :: ct ++ tag) with (frame_header plain w ++ ct ++ tag) in *.
  rewrite header_len_app, header_len_be by (unfold in_u; lia). rewrite Hz, Hw. unfold GCM_TAG_LEN.
  destruct (Z.eqb_spec (zlen plain - 4 + 16 - 65536 + 4) (zlen plain + 16)); [lia|]. by rewrite !andb_false_r.
Qed.

End Nonces.

(** ** The salt transcript *)

Record salt_args := {
  sa_type : salt_type; sa_txid : list Z; sa_span_s1 : list Z; sa_reader_value : list Z; sa_reader_id : list Z;
  sa_interface : Z; sa_version : Z; sa_phase : Z; sa_policy : Z; sa_s3opt : option (list Z); sa_a5 : list Z;
}.

(** The arguments have their C widths; the trailing key is there unless the type
    has none. *)
Definition salt_args_ok (a : salt_args) : Prop :=
  length (sa_txid a) = 16%nat /\ length (sa_span_s1 a) = 32%nat /\ length (sa_reader_value a) = 32%nat /\
  length (sa_reader_id a) = 32%nat /\ in_u 16 (sa_version a) /\
  match sa_s3opt a with Some s => sa_type a <> SALT_SESSION /\ length s = 32%nat | None => sa_type a = SALT_SESSION end.

Definition salt_of (a : salt_args) : option (list Z) :=
  salt_build (sa_type a) (sa_txid a) (sa_span_s1 a) (sa_reader_value a) (sa_reader_id a) (sa_interface a) (sa_version a)
    (sa_phase a) (sa_policy a) (sa_s3opt a) (Some (sa_a5 a)).

Lemma salt_fold parts : forall out failed res,
  fold_left (salt_append SALT_MAX) parts (out, failed) = (res, false) -> res = out ++ concat parts /\ failed = false.
Proof.
  induction parts as [|p parts IH]; intros out failed res; cbn [fold_left concat].
  - intros [= <- <-]. by rewrite app_nil_r.
  - unfold salt_append at 2. destruct (_ <? _); intros H; apply IH in H as [-> Hf]; [done|]. by rewrite <- app_assoc.
Qed.

Lemma salt_layout a out : salt_of a = Some out -> salt_args_ok a ->
  out = sa_span_s1 a ++ sub_bytes salt_label (salt_type_code (sa_type a) * 12) 12 ++ sa_reader_id a ++ [sa_interface a] ++
        salt_const ++ put_be 2 (sa_version a) ++ sa_reader_value a ++ sa_txid a ++ [sa_phase a; sa_policy a] ++
        sa_a5 a ++ default [] (sa_s3opt a).
Proof.
  unfold salt_of, salt_build. intros H (_ & _ & _ & _ & _ & Hs).
  match type of H with context [fold_left _ ?ps] => destruct (fold_left (salt_append SALT_MAX) ps ([], false)) as [o f] eqn:E end.
  destruct f; [done|]. injection H as <-. apply salt_fold in E as [-> _]. rewrite !concat_app. cbn [concat app].
  assert (concat (if 0 <? zlen (sa_a5 a) then [sa_a5 a] else []) = sa_a5 a) as ->.
  { destruct (Z.ltb_spec 0 (zlen (sa_a5 a))) as [|Hz]; cbn; [by rewrite app_nil_r|].
    unfold zlen in Hz. destruct (sa_a5 a); [done|cbn in Hz; lia]. }
  assert (concat match sa_s3opt a with Some s3 => if bool_decide (sa_type a = SALT_SESSION) then [] else [s3] | None => [] end
    = default [] (sa_s3opt a)) as ->.
  2: { repeat first [rewrite <- app_assoc | progress cbn [app]]. done. }
  destruct (sa_s3opt a) as [s|]; [|done]. destruct Hs as [Ht _]. rewrite bool_decide_false by done. cbn. by rewrite app_nil_r.
Qed.

Lemma salt_inj a b out : salt_args_ok a -> salt_args_ok b -> salt_of a = Some out -> salt_of b = Some out -> a = b.
Proof.
  intros Ha Hb Ea Eb. apply salt_layout in Ea; [|done]. apply salt_layout in Eb; [|done]. rewrite Ea in Eb. clear Ea out.
  destruct a as [ty tx sp rv ri i v ph po s3 a5], b as [ty' tx' sp' rv' ri' i' v' ph' po' s3' a5'].
  destruct Ha as (A1 & A2 & A3 & A4 & A5 & A6), Hb as (B1 & B2 & B3 & B4 & B5 & B6).
  cbn [sa_type sa_txid sa_span_s1 sa_reader_value sa_reader_id sa_interface sa_version sa_phase sa_policy sa_s3opt sa_a5] in *.
  apply app_inj_1 in Eb as [<- Eb]; [|congruence].
  apply app_inj_1 in Eb as [Et Eb]; [|by destruct ty, ty'].
  assert (ty = ty') as <- by (by destruct ty, ty').
  apply app_inj_1 in Eb as [<- Eb]; [|congruence].
  apply app_inj_1 in Eb as [Ei Eb]; [|done]. injection Ei as <-.
  apply app_inv_head in Eb. apply app_inj_1 in Eb as [Ev Eb]; [|by rewrite !length_put_be].
  apply (f_equal get_be) in Ev. rewrite !(get_put_be_id 2) in Ev by done. subst v'.
  apply app_inj_1 in Eb as [<- Eb]; [|congruence]. apply app_inj_1 in Eb as [<- Eb]; [|congruence].
  injection Eb as <- <- Eb.
  destruct s3 as [s|], s3' as [s'|]; cbn in Eb.
  - apply app_inj_2 in Eb as [<- <-]; [done|]. destruct A6, B6. congruence.
  - by destruct A6.
  - by destruct B6.
  - rewrite !app_nil_r in Eb. by subst.
Qed.

(** The salt binds the whole transcript: two sets of arguments of the
    documented lengths that give the same salt are the same, type label, keys,
    transaction, versions, policy and proprietary information included. *)
Theorem salt_binds a b out :
  salt_args_ok a -> salt_args_ok b -> salt_of a = Some out -> salt_of b = Some out -> a = b.
Proof. apply salt_inj. Qed.

(** ** An instance

    The ciphertext is the plaintext and the tag a hash of everything: not a
    cipher, but it satisfies the documented laws. *)

Definition hash_tag (key nonce aad pt : list Z) : list Z := take 16 (sha256_spec (key ++ nonce ++ aad ++ pt)).

#[export] Instance hash_gcm : Gcm := {
  gcm_encrypt key nonce aad pt := Some (pt, hash_tag key nonce aad pt);
  gcm_decrypt key nonce aad ct tag := if bool_decide (tag = hash_tag key nonce aad ct) then Some ct else None;
}.

#[export] Instance hash_gcm_laws : GcmLaws hash_gcm.
Proof.
  split.
  - intros key nonce aad pt _ _. exists pt, (hash_tag key nonce aad pt). split_and!; [done|done|].
    unfold zlen, hash_tag. by rewrite length_take, sha256_len.
  - intros key nonce aad pt ct tag. unfold gcm_decrypt, gcm_encrypt, hash_gcm. case_bool_decide as E; split.
    + intros [= <-]. congruence.
    + intros [= -> _]. done.
    + done.
    + intros [= -> H]. by destruct E.
Qed.

Definition toy_block : list Z := replicate 160 7.
Definition toy_salt : list Z := [1; 0; 1; 0].
Definition toy_keys : list Z * list Z := default ([], []) (derive_ble_keys toy_block toy_salt).
Definition toy_msgs : list (speaker * list Z) := [(FromReader, [1; 2; 0; 1; 9]); (FromDevice, [3; 4; 0; 0])].

Lemma ble_conversation_witness :
  exists d, dev_blesk_init toy_block toy_salt = Some d /\
    converse 64 (secchan_init toy_keys.1 toy_keys.2, d) toy_msgs = [Some [1; 2; 0; 1; 9]; Some [3; 4; 0; 0]].
Proof.
  apply (ble_conversation toy_block toy_salt toy_keys.1 toy_keys.2 64 toy_msgs).
  - vm_compute. reflexivity.
  - constructor; [|constructor; [|constructor]]; (split; [split; [by apply bytes_all; vm_compute|by vm_compute]|by vm_compute]).
  - by vm_compute.
Defined.

Definition toy_ops : list secchan_op := [SealOp [] [1]; MsgSealOp [1; 2; 0; 0] 64; OpenOp [] [] []; SealOp [] [2]].

Lemma secchan_nonces_unique_witness :
  let ss := sealed_by (secchan_init [] []) toy_ops in
  length ss = 3%nat /\ Forall2 (encrypted_with []) [gcm_nonce 0 1; gcm_nonce 0 2; gcm_nonce 0 3] ss /\
  NoDup [gcm_nonce 0 1; gcm_nonce 0 2; gcm_nonce 0 3].
Proof.
  destruct (secchan_nonces_unique [] [] toy_ops) as (H1 & H2 & _). split_and!; [by vm_compute|exact H1|exact H2].
Defined.

Definition toy_salt_args (version : Z) : salt_args :=
  {| sa_type := SALT_KPERSISTENT; sa_txid := replicate 16 1; sa_span_s1 := replicate 32 2; sa_reader_value := replicate 32 3;
     sa_reader_id := replicate 32 4; sa_interface := 0xC3; sa_version := version; sa_phase := 0; sa_policy := 1;
     sa_s3opt := Some (replicate 32 5); sa_a5 := [0xa5; 0] |}.

(** Another protocol version, another salt. *)
Lemma salt_binds_witness :
  is_Some (salt_of (toy_salt_args 0x0100)) /\ salt_of (toy_salt_args 0x0100) <> salt_of (toy_salt_args 0x0009).
Proof.
  assert (is_Some (salt_of (toy_salt_args 0x0100))) as [out H] by (vm_compute; by eexists). split; [by exists out|]. intros E.
  assert (toy_salt_args 0x0100 = toy_salt_args 0x0009) as D; [|discriminate D].
  apply (salt_binds _ _ out); [split_and!; by vm_compute|split_and!; by vm_compute|exact H|rewrite <- E; exact H].
Defined.
