(* ===== verification/CredTlv.v ===== *)
(** * The credential BER-TLV codec

    Models [modules/ultrawidelock_cred/src/ultrawidelock_tlv.c]: the strict
    reader of definite-length objects with tags of one to four octets, and the
    writer.  [size_t] has four octets, as on the targets; a buffer is smaller
    than that. *)

From Stdlib Require Import ZArith Lia Bool.
From stdpp Require Import base list numbers option.
From S2P Require Import Prelude Wire.

Local Open Scope Z_scope.
Local Open Scope uwl_scope.

Definition SIZE_MAX : Z := 2 ^ 32 - 1.

Record cred_tlv := { ct_tag : Z; ct_value_off : Z; ct_length : Z; ct_encoded_length : Z }.

Inductive tlv_result := TLV_OK (t : cred_tlv) (offset : Z) | TLV_END | TLV_INVALID.

(** The octets of a high tag number after the first; [room] is what is left of
    the four. *)
Fixpoint tag_octets_loop (room : nat) (first : bool) (data : list Z) (cursor tag : Z) : option (Z * Z) :=
  match room with
  | O => None
  | S room =>
      if zlen data <=? cursor then None else
      let octet := byte_at data cursor in
      if first && (Z.land octet 0x7f =? 0) then None else
      let tag := u32 (Z.lor (Z.shiftl tag 8) octet) in
      if Z.land octet 0x80 =? 0 then Some (tag, cursor + 1)
      else tag_octets_loop room false data (cursor + 1) tag
  end.

Definition read_tag (data : list Z) (cursor : Z) : option (Z * Z) :=
  let tag := byte_at data cursor in
  if Z.land tag 0x1f =? 0x1f then tag_octets_loop 3 true data (cursor + 1) tag else Some (tag, cursor + 1).

Fixpoint length_octets_loop (n : nat) (data : list Z) (cursor value_length : Z) : option (Z * Z) :=
  match n with
  | O => Some (value_length, cursor)
  | S n =>
      if Z.shiftr SIZE_MAX 8 <? value_length then None
      else length_octets_loop n data (cursor + 1) (Z.lor (Z.shiftl value_length 8) (byte_at data cursor))
  end.

Definition read_length (data : list Z) (cursor : Z) : option (Z * Z) :=
  if zlen data <=? cursor then None else
  let first_length := byte_at data cursor in
  let cursor := cursor + 1 in
  if Z.land first_length 0x80 =? 0 then Some (first_length, cursor) else
  let length_octets := Z.land first_length 0x7f in
  if (length_octets =? 0) || (4 <? length_octets) || (zlen data <? cursor + length_octets) || (byte_at data cursor =? 0)
  then None else
  match length_octets_loop (Z.to_nat length_octets) data cursor 0 with
  | Some (value_length, cursor) => if value_length <? 128 then None else Some (value_length, cursor)
  | None => None
  end.

Definition cred_tlv_next (data : list Z) (offset : Z) : tlv_result :=
  if zlen data <? offset then TLV_INVALID else
  if offset =? zlen data then TLV_END else
  match read_tag data offset with
  | None => TLV_INVALID
  | Some (tag, cursor) =>
      match read_length data cursor with
      | None => TLV_INVALID
      | Some (value_length, cursor) =>
          if zlen data - cursor <? value_length then TLV_INVALID
          else TLV_OK {| ct_tag := tag; ct_value_off := cursor; ct_length := value_length;
                         ct_encoded_length := cursor + value_length - offset |} (cursor + value_length)
      end
  end.

Definition tag_size (tag : Z) : Z :=
  if tag <=? 0xff then 1 else if tag <=? 0xffff then 2 else if tag <=? 0xffffff then 3 else 0.

Definition length_size (length : Z) : Z :=
  if length <? 0x80 then 1 else if length <=? 0xff then 2 else if length <=? 0xffff then 3 else 0.

Definition cred_tlv_encoded_size (tag value_length : Z) : Z :=
  let encoded_tag_size := tag_size tag in
  let encoded_length_size := length_size value_length in
  if (encoded_tag_size =? 0) || (encoded_length_size =? 0) ||
     (SIZE_MAX - encoded_tag_size - encoded_length_size <? value_length)
  then 0 else encoded_tag_size + encoded_length_size + value_length.

Definition put_length (n : Z) : list Z :=
  if n <? 0x80 then [u8 n] else if n <=? 0xff then [0x81; u8 n] else [0x82; u8 (Z.shiftr n 8); u8 n].

(** The buffer and the offset after the object. *)
Definition cred_tlv_write (data : list Z) (offset tag : Z) (value : list Z) : option (list Z * Z) :=
  let total := cred_tlv_encoded_size tag (zlen value) in
  if (total =? 0) || (zlen data <? offset) || (zlen data - offset <? total) then None else
  let bytes := put_be (Z.to_nat (tag_size tag)) tag ++ put_length (zlen value) ++ value in
  Some (mem_write offset bytes data, offset + zlen bytes).

(** ** What is an object

    DER: the tag in its octets, the shortest definite length, the value. *)

(** The continuation octets of a high tag number: all but the last have the top
    bit, the first is not an empty group. *)
Fixpoint tag_tail (first : bool) (l : list Z) : bool :=
  match l with
  | [] => false
  | o :: l =>
      negb (first && (Z.land o 0x7f =? 0)) &&
      (if Z.land o 0x80 =? 0 then bool_decide (l = []) else tag_tail false l)
  end.

(** The octets of a tag, of which there are at most four. *)
Definition der_tag_form (l : list Z) : Prop :=
  Forall byte_ok l /\ zlen l <= 4 /\
  match l with
  | [] => False
  | o :: l => if Z.land o 0x1f =? 0x1f then tag_tail true l = true else l = []
  end.

(** The length field of an object with [n] octets of value. *)
Definition length_form (l : list Z) (n : Z) : Prop :=
  (0 <= n < 128 /\ l = [n]) \/
  (128 <= n /\ exists k, (1 <= k <= 4)%nat /\ in_u (8 * Z.of_nat k) n /\ 2 ^ (8 * (Z.of_nat k - 1)) <= n /\
     l = (0x80 + Z.of_nat k) :: put_be k n).

(** The first byte of a big-endian number is its most significant. *)
Lemma get_be_cons b l : byte_ok b -> Forall byte_ok l -> get_be (b :: l) = b * 256 ^ zlen l + get_be l.
Proof.
  intros Hb Hl. unfold get_be at 1. cbn [fold_left]. change (Z.lor (Z.shiftl 0 8) b) with b.
  rewrite <- (put_get_be l) at 1 by done. rewrite fold_put_be.
  pose proof (get_be_range l Hl) as Hr. unfold in_u in Hr. rewrite Z.mod_small by done.
  rewrite Z.pow_mul_r by lia. done.
Qed.

Section Reader.
Context (data : list Z) (Hd : Forall byte_ok data).

(** The bytes between two positions. *)
Definition span (a b : Z) : list Z := take (Z.to_nat (b - a)) (drop (Z.to_nat a) data).

Lemma span_step a b : 0 <= a < b -> b <= zlen data -> span a b = byte_at data a :: span (a + 1) b.
Proof.
  intros Ha Hb. unfold span. rewrite <- (put_byte_at data a (a + 1)) by lia.
  replace (Z.to_nat (b - a)) with (S (Z.to_nat (b - (a + 1)))) by lia. done.
Qed.

Lemma span_nil a : span a a = [].
Proof. unfold span. by rewrite Z.sub_diag. Qed.

Lemma span_app a b c : 0 <= a <= b -> b <= c -> span a c = span a b ++ span b c.
Proof.
  intros Ha Hb. unfold span. replace (Z.to_nat (c - a)) with (Z.to_nat (b - a) + Z.to_nat (c - b))%nat by lia.
  rewrite <- take_take_drop. f_equal. rewrite drop_drop. do 2 f_equal. lia.
Qed.

Lemma zlen_span a b : 0 <= a <= b -> b <= zlen data -> zlen (span a b) = b - a.
Proof. unfold span, zlen. intros. rewrite length_take, length_drop. lia. Qed.

Lemma span_bytes a b : Forall byte_ok (span a b).
Proof. unfold span. by apply Forall_take, Forall_drop. Qed.

Lemma byte_of i : byte_ok (byte_at data i).
Proof. by apply byte_at_ok. Qed.

Lemma tag_loop_exact room first cursor tag : 0 <= cursor -> 0 <= tag -> (tag + 1) * 256 ^ Z.of_nat room <= 2 ^ 32 -> forall t c,
  tag_octets_loop room first data cursor tag = Some (t, c) <->
  cursor < c <= zlen data /\ c - cursor <= Z.of_nat room /\ tag_tail first (span cursor c) = true /\
  t = tag * 256 ^ (c - cursor) + get_be (span cursor c).
Proof.
  revert first cursor tag. induction room as [|room IH]; intros first cursor tag Hc Ht Hr t c; cbn [tag_octets_loop].
  { split; [done|intros (? & ? & _); lia]. }
  destruct (Z.leb_spec (zlen data) cursor) as [|Hin]; [split; [done|lia]|].
  pose proof (byte_of cursor) as Hb. set (o := byte_at data cursor) in *. unfold byte_ok in Hb.
  assert (cursor < c <= zlen data -> tag_tail first (span cursor c) =
    negb (first && (Z.land o 0x7f =? 0)) && (if Z.land o 0x80 =? 0 then bool_decide (span (cursor + 1) c = []) else tag_tail false (span (cursor + 1) c))) as Htail.
  { intros H. by rewrite span_step by lia. }
  assert (cursor < c <= zlen data -> get_be (span cursor c) = o * 256 ^ (c - cursor - 1) + get_be (span (cursor + 1) c)) as Hbe.
  { intros H. rewrite span_step by lia. fold o. rewrite get_be_cons by (done || apply span_bytes).
    rewrite zlen_span by lia. do 3 f_equal. lia. }
  assert (256 ^ Z.of_nat (S room) = 256 * 256 ^ Z.of_nat room) as Hpow by (rewrite Nat2Z.inj_succ, Z.pow_succ_r; lia).
  assert (0 < 256 ^ Z.of_nat room) as Hp0 by (apply Z.pow_pos_nonneg; lia).
  assert (tag * 256 + o < 2 ^ 32) as Hs by nia.
  destruct (first && (Z.land o 127 =? 0)) eqn:E1.
  { split; [done|]. intros (H1 & _ & H2 & _). rewrite Htail in H2 by done. by cbn in H2. }
  rewrite lor_shiftl_add by lia. change (2 ^ 8) with 256. rewrite (wrap_id 32) by (unfold in_u; lia).
  destruct (Z.land o 128 =? 0) eqn:E2.
  - split.
    + intros [= <- <-]. rewrite Htail, Hbe by lia. rewrite span_nil. split_and!; [lia..|done|].
      replace (cursor + 1 - cursor) with 1 by lia. cbn. lia.
    + intros (H1 & _ & H2 & ->). rewrite Htail in H2 by done. cbn in H2. apply bool_decide_eq_true in H2.
      assert (c = cursor + 1) as ->.
      { apply (f_equal zlen) in H2. rewrite zlen_span in H2 by lia. change (zlen []) with 0 in H2. lia. }
      rewrite Hbe, span_nil by lia. replace (cursor + 1 - cursor) with 1 by lia. cbn. do 2 f_equal. lia.
  - rewrite (IH false (cursor + 1) (tag * 256 + o)) by nia. split.
    + intros (H1 & H2 & H3 & ->). rewrite Htail, Hbe by lia. split_and!; [lia|lia|lia|done|].
      replace (c - cursor) with (Z.succ (c - (cursor + 1))) by lia. rewrite Z.pow_succ_r by lia.
      replace (Z.succ (c - (cursor + 1)) - 1) with (c - (cursor + 1)) by lia. ring.
    + intros (H1 & H2 & H3 & ->). rewrite Htail in H3 by done. cbn in H3.
      destruct (Z.eq_dec c (cursor + 1)) as [->|Hne]; [by rewrite span_nil in H3|].
      rewrite Hbe by lia. split_and!; [lia|lia|lia|done|].
      replace (c - cursor) with (Z.succ (c - (cursor + 1))) by lia. rewrite Z.pow_succ_r by lia.
      replace (Z.succ (c - (cursor + 1)) - 1) with (c - (cursor + 1)) by lia. ring.
Qed.

Lemma byte_brute (P : Z -> bool) : forallb P (map Z.of_nat (seq 0 256)) = true -> forall b, byte_ok b -> P b = true.
Proof.
  intros H b Hb. unfold byte_ok in Hb. rewrite forallb_forall in H. apply H. apply in_map_iff. exists (Z.to_nat b).
  split; [lia|]. apply in_seq. lia.
Qed.

Lemma byte_80 b : byte_ok b -> (Z.land b 0x80 =? 0) = (b <? 128).
Proof.
  intros Hb. apply eqb_prop. revert b Hb. apply (byte_brute (fun b => Bool.eqb (Z.land b 128 =? 0) (b <? 128))).
  vm_compute. reflexivity.
Qed.

Lemma byte_7f b : byte_ok b -> Z.land b 0x7f = b mod 128.
Proof. intros _. change 0x7f with (Z.ones 7). by rewrite Z.land_ones by lia. Qed.

Lemma read_tag_exact cursor t c : 0 <= cursor < zlen data ->
  read_tag data cursor = Some (t, c) <->
  cursor < c <= zlen data /\ der_tag_form (span cursor c) /\ t = get_be (span cursor c).
Proof.
  intros Hc. unfold read_tag. pose proof (byte_of cursor) as Hb. set (o := byte_at data cursor) in *.
  assert (cursor < c <= zlen data -> span cursor c = o :: span (cursor + 1) c) as Hsp by (intros; by rewrite span_step by lia).
  assert (forall c', cursor < c' -> Forall byte_ok (span cursor c')) as Hbytes by (intros; apply span_bytes).
  unfold byte_ok in Hb. destruct (Z.land o 31 =? 31) eqn:E.
  - rewrite (tag_loop_exact 3 true (cursor + 1) o) by lia. split.
    + intros (H1 & H2 & H3 & ->). split; [lia|]. split.
      * split; [apply span_bytes|]. split; [rewrite zlen_span; lia|]. rewrite Hsp by lia. by rewrite E.
      * rewrite Hsp, get_be_cons, zlen_span by (lia || apply span_bytes || done). done.
    + intros (H1 & (_ & H2 & H3) & ->). rewrite zlen_span in H2 by lia. rewrite Hsp in H3 by lia. rewrite E in H3.
      assert (cursor + 1 < c) by (destruct (Z.eq_dec c (cursor + 1)) as [->|]; [by rewrite span_nil in H3|lia]).
      split; [lia|]. split; [lia|]. split; [done|].
      rewrite Hsp, get_be_cons, zlen_span by (lia || apply span_bytes || done). done.
  - split.
    + intros [= <- <-]. split; [lia|]. rewrite span_step, span_nil by lia. fold o. split; [|unfold get_be; cbn; by rewrite ?Z.lor_0_l].
      split; [by apply list.Forall_singleton|]. split; [done|]. by rewrite E.
    + intros (H1 & (_ & _ & H3) & ->). rewrite Hsp in H3 |- * by lia. rewrite E in H3. rewrite H3.
      apply (f_equal zlen) in H3. rewrite zlen_span in H3 by lia. change (zlen []) with 0 in H3.
      assert (c = cursor + 1) as -> by lia. done.
Qed.

Lemma length_loop_exact k : forall cursor v, 0 <= cursor -> 0 <= v -> cursor + Z.of_nat k <= zlen data ->
  (v + 1) * 256 ^ Z.of_nat k <= 2 ^ 32 ->
  length_octets_loop k data cursor v = Some (v * 256 ^ Z.of_nat k + get_be (span cursor (cursor + Z.of_nat k)), cursor + Z.of_nat k).
Proof.
  induction k as [|k IH]; intros cursor v Hc Hv Hk Hm; cbn [length_octets_loop].
  { replace (cursor + Z.of_nat 0) with cursor by lia. rewrite span_nil. cbn. do 2 f_equal. lia. }
  assert (256 ^ Z.of_nat (S k) = 256 * 256 ^ Z.of_nat k) as Hpow by (rewrite Nat2Z.inj_succ, Z.pow_succ_r; lia).
  assert (0 < 256 ^ Z.of_nat k) as Hp0 by (apply Z.pow_pos_nonneg; lia). rewrite Hpow in *.
  change (Z.shiftr SIZE_MAX 8) with 16777215. destruct (Z.ltb_spec 16777215 v) as [Hlt|_]; [nia|].
  pose proof (byte_of cursor) as Hb. set (o := byte_at data cursor) in *. unfold byte_ok in Hb.
  rewrite lor_shiftl_add by lia. change (2 ^ 8) with 256. rewrite IH by nia.
  replace (cursor + 1 + Z.of_nat k) with (cursor + Z.of_nat (S k)) by lia. do 2 f_equal.
  rewrite (span_step cursor) by lia. fold o. rewrite get_be_cons by (done || apply span_bytes). rewrite zlen_span by lia.
  replace (cursor + Z.of_nat (S k) - (cursor + 1)) with (Z.of_nat k) by lia. ring.
Qed.

Lemma read_length_exact cursor n c : 0 <= cursor ->
  read_length data cursor = Some (n, c) <-> cursor < c <= zlen data /\ length_form (span cursor c) n.
Proof.
  intros Hc. unfold read_length. destruct (Z.leb_spec (zlen data) cursor) as [|Hin]; [split; [done|lia]|].
  pose proof (byte_of cursor) as Hb. set (o := byte_at data cursor) in *.
  assert (cursor < c <= zlen data -> span cursor c = o :: span (cursor + 1) c) as Hsp by (intros; by rewrite span_step by lia).
  rewrite byte_80, byte_7f by done. unfold byte_ok in Hb. destruct (Z.ltb_spec o 128) as [Hs|Hl].
  - split.
    + intros [= <- <-]. split; [lia|]. left. split; [lia|]. by rewrite Hsp, span_nil by lia.
    + intros (H1 & [[Hn El]|(H2 & k & Hk & _ & _ & El)]); rewrite Hsp in El by done; injection El as E1 E2.
      * apply (f_equal zlen) in E2. rewrite zlen_span in E2 by lia. change (zlen []) with 0 in E2. do 2 f_equal; lia.
      * lia.
  - assert (o mod 128 = o - 128) as -> by zdiv. set (k := o - 128) in *.
    destruct (Z.eqb_spec k 0) as [Hk0|Hk0]; [|destruct (Z.ltb_spec 4 k) as [Hk4|Hk4]].
    1, 2: split; [done|]; intros (H1 & [[Hn El]|(H2 & j & Hj & _ & _ & El)]); rewrite Hsp in El by done; injection El as E1 E2; lia.
    cbn [orb]. destruct (Z.ltb_spec (zlen data) (cursor + 1 + k)) as [Hz|Hz].
    { split; [done|]. intros (H1 & [[Hn El]|(H2 & j & Hj & _ & _ & El)]); rewrite Hsp in El by done; injection El as E1 E2; [lia|].
      apply (f_equal zlen) in E2. rewrite zlen_span, zlen_put_be in E2 by lia. lia. }
    cbn [orb]. assert (Z.of_nat (Z.to_nat k) = k) as HkZ by lia.
    rewrite length_loop_exact; [|lia|lia|lia|rewrite HkZ; assert (256 ^ k <= 256 ^ 4) by (apply Z.pow_le_mono_r; lia); change (256 ^ 4) with (2 ^ 32) in *; lia].
    rewrite HkZ, Z.mul_0_l, Z.add_0_l. set (l := span (cursor + 1) (cursor + 1 + k)).
    assert (length l = Z.to_nat k) as Hll.
    { pose proof (zlen_span (cursor + 1) (cursor + 1 + k) ltac:(lia) ltac:(lia)) as H. unfold zlen in H. fold l in H. lia. }
    pose proof (get_be_range l (span_bytes _ _)) as Hrg. rewrite Hll, HkZ in Hrg.
    assert (l = byte_at data (cursor + 1) :: span (cursor + 1 + 1) (cursor + 1 + k)) as Hhd by (unfold l; by rewrite span_step by lia).
    pose proof (byte_of (cursor + 1)) as Hb1. unfold byte_ok in Hb1.
    assert (get_be l = byte_at data (cursor + 1) * 2 ^ (8 * (k - 1)) + get_be (span (cursor + 1 + 1) (cursor + 1 + k)) /\
            in_u (8 * (k - 1)) (get_be (span (cursor + 1 + 1) (cursor + 1 + k)))) as [Hbe Hr2].
    { pose proof (get_be_range _ (span_bytes (cursor + 1 + 1) (cursor + 1 + k))) as Hr.
      assert (Z.of_nat (length (span (cursor + 1 + 1) (cursor + 1 + k))) = k - 1) as Hq.
      { change (zlen (span (cursor + 1 + 1) (cursor + 1 + k)) = k - 1). rewrite zlen_span; lia. }
      rewrite Hq in Hr. split; [|done]. rewrite Hhd, get_be_cons by (done || apply span_bytes).
      rewrite zlen_span by lia. f_equal. rewrite Z.pow_mul_r by lia. do 2 f_equal. lia. }
    unfold in_u in Hr2, Hrg. assert (0 < 2 ^ (8 * (k - 1))) as Hp by (apply Z.pow_pos_nonneg; lia).
    destruct (Z.eqb_spec (byte_at data (cursor + 1)) 0) as [H0|H0].
    + split; [done|]. intros (H1 & [[Hn El]|(H2 & j & Hj & Hju & Hjl & El)]); rewrite Hsp in El by done; injection El as E1 E2; [lia|].
      exfalso. assert (Z.of_nat j = k) as Hjk by lia.
      assert (c = cursor + 1 + k) as ->.
      { apply (f_equal zlen) in E2. rewrite zlen_span, zlen_put_be in E2 by lia. lia. }
      fold l in E2. apply (f_equal get_be) in E2. rewrite get_put_be_id in E2 by done. rewrite Hbe, H0 in E2. rewrite Hjk in Hjl. lia.
    + cbn [orb]. assert (2 ^ (8 * (k - 1)) <= get_be l) as Hlow by nia. split.
      * destruct (Z.ltb_spec (get_be l) 128); [done|]. intros [= <- <-]. split; [lia|]. right. split; [done|].
        exists (Z.to_nat k). rewrite HkZ. split_and!; [lia|lia|done|done|]. rewrite Hsp by lia. f_equal; [lia|].
        fold l. rewrite <- Hll. symmetry. apply put_get_be, span_bytes.
      * intros (H1 & [[Hn El]|(H2 & j & Hj & Hju & Hjl & El)]); rewrite Hsp in El by done; injection El as E1 E2; [lia|].
        assert (c = cursor + 1 + k) as ->.
        { apply (f_equal zlen) in E2. rewrite zlen_span, zlen_put_be in E2 by lia. lia. }
        fold l in E2. assert (get_be l = n) as -> by (rewrite E2; by apply get_put_be_id).
        destruct (Z.ltb_spec n 128); [lia|done].
Qed.

(** The reader accepts exactly the objects. *)
Lemma next_exact off t off' : 0 <= off ->
  cred_tlv_next data off = TLV_OK t off' <->
  off' <= zlen data /\ exists tg ln v, der_tag_form tg /\ length_form ln (zlen v) /\
    off' = off + zlen tg + zlen ln + zlen v /\ span off off' = tg ++ ln ++ v /\
    t = {| ct_tag := get_be tg; ct_value_off := off + zlen tg + zlen ln; ct_length := zlen v; ct_encoded_length := off' - off |}.
Proof.
  intros Ho. unfold cred_tlv_next.
  assert (forall tg, der_tag_form tg -> 1 <= zlen tg) as Htg.
  { intros [|x tg] (_ & _ & H); [done|]. rewrite zlen_cons. pose proof (zlen_nonneg tg). lia. }
  destruct (Z.ltb_spec (zlen data) off) as [|H1].
  { split; [done|]. intros (Hq & tg & ln & v & F & _ & E & _). pose proof (Htg _ F). pose proof (zlen_nonneg ln). pose proof (zlen_nonneg v). lia. }
  destruct (Z.eqb_spec off (zlen data)) as [|H2].
  { split; [done|]. intros (Hq & tg & ln & v & F & _ & E & _). pose proof (Htg _ F). pose proof (zlen_nonneg ln). pose proof (zlen_nonneg v). lia. }
  split.
  - destruct (read_tag data off) as [[tag c1]|] eqn:E1; [|done]. apply read_tag_exact in E1 as (A1 & A2 & A3); [|lia].
    destruct (read_length data c1) as [[n c2]|] eqn:E2; [|done]. apply read_length_exact in E2 as (B1 & B2); [|lia].
    destruct (Z.ltb_spec (zlen data - c2) n) as [|H3]; [done|]. intros [= <- <-]. split; [lia|].
    assert (0 <= n) as Hn by (destruct B2 as [[? _]|[? _]]; lia).
    exists (span off c1), (span c1 c2), (span c2 (c2 + n)). rewrite !zlen_span by lia.
    replace (off + (c1 - off) + (c2 - c1)) with c2 by lia. replace (c2 + n - c2) with n by lia.
    split_and!; [done|done|done| |by subst].
    rewrite (span_app off c1), (span_app c1 c2) by lia. done.
  - intros (H3 & tg & ln & v & F1 & F2 & E & Hsp & ->).
    pose proof (Htg _ F1). pose proof (zlen_nonneg ln). pose proof (zlen_nonneg v).
    assert (1 <= zlen ln) as Hln.
    { destruct F2 as [[_ ->]|(_ & k & _ & _ & _ & ->)]; [done|]. rewrite zlen_cons. pose proof (zlen_nonneg (put_be k (zlen v))). lia. }
    set (c1 := off + zlen tg) in *. set (c2 := c1 + zlen ln) in *.
    rewrite (span_app off c1), (span_app c1 c2) in Hsp by lia.
    apply app_inj_1 in Hsp as [S1 Hsp].
    2:{ apply Nat2Z.inj. change (zlen (span off c1) = zlen tg). rewrite zlen_span; lia. }
    apply app_inj_1 in Hsp as [S2 _].
    2:{ apply Nat2Z.inj. change (zlen (span c1 c2) = zlen ln). rewrite zlen_span; lia. }
    assert (read_tag data off = Some (get_be tg, c1)) as ->.
    { apply read_tag_exact; [lia|]. rewrite S1. split_and!; [lia|lia|done|done]. }
    assert (read_length data c1 = Some (zlen v, c2)) as ->.
    { apply read_length_exact; [lia|]. rewrite S2. split; [lia|done]. }
    destruct (Z.ltb_spec (zlen data - c2) (zlen v)); [lia|]. by rewrite E.
Qed.

End Reader.

(** The reader accepts exactly DER: at any position it yields an object if
    and only if the bytes there are a tag of at most four octets in its shortest
    high form, the one shortest length, and that many bytes of value, all inside
    the buffer; and what it yields is that object. *)
Theorem cred_tlv_exact data off t off' : Forall byte_ok data -> 0 <= off ->
  cred_tlv_next data off = TLV_OK t off' <->
  off' <= zlen data /\ exists tg ln v, der_tag_form tg /\ length_form ln (zlen v) /\
    off' = off + zlen tg + zlen ln + zlen v /\ span data off off' = tg ++ ln ++ v /\
    t = {| ct_tag := get_be tg; ct_value_off := off + zlen tg + zlen ln; ct_length := zlen v; ct_encoded_length := off' - off |}.
Proof. intros Hd Ho. by apply next_exact. Qed.

Lemma put_length_form n : 0 <= n <= 0xffff -> length_form (put_length n) n.
Proof.
  intros Hn. unfold put_length. destruct (Z.ltb_spec n 0x80) as [|H1].
  { left. split; [lia|]. rewrite (wrap_id 8); [done|unfold in_u; lia]. }
  right. split; [done|]. destruct (Z.leb_spec n 0xff).
  - exists 1%nat. split_and!; [lia|lia|unfold in_u; cbn; lia|cbn; lia|]. cbn. by rewrite Z.shiftr_0_r.
  - exists 2%nat. split_and!; [lia|lia|unfold in_u; cbn; lia|cbn; lia|]. cbn. by rewrite Z.shiftr_0_r.
Qed.

(** Reading back what was written. *)
Lemma tlv_write_next data off tag v data' off' :
  Forall byte_ok data -> Forall byte_ok v -> 0 <= off -> 0 <= tag -> der_tag_form (put_be (Z.to_nat (tag_size tag)) tag) ->
  cred_tlv_write data off tag v = Some (data', off') ->
  length data' = length data /\
  exists t, cred_tlv_next data' off = TLV_OK t off' /\ ct_tag t = tag /\ ct_length t = zlen v /\
    span data' (ct_value_off t) off' = v.
Proof.
  intros Hd Hv Ho Ht Hf. unfold cred_tlv_write. set (total := cred_tlv_encoded_size tag (zlen v)).
  destruct (Z.eqb_spec total 0) as [|Hz]; [done|]. destruct (Z.ltb_spec (zlen data) off) as [|Hl]; [done|].
  destruct (Z.ltb_spec (zlen data - off) total) as [|Hr]; [done|]. cbn [orb].
  assert (tag_size tag <> 0 /\ length_size (zlen v) <> 0 /\ total = tag_size tag + length_size (zlen v) + zlen v) as (N1 & N2 & Htot).
  { unfold total, cred_tlv_encoded_size in *. destruct (_ || _) eqn:E; [done|]. lia. }
  pose proof (zlen_nonneg v) as Hv0.
  assert (0 <= zlen v <= 0xffff) as Hvl by (unfold length_size in N2; repeat case_match; lia).
  assert (zlen (put_length (zlen v)) = length_size (zlen v)) as Hpl.
  { unfold put_length, length_size in *. repeat case_match; try done; lia. }
  assert (0 <= tag_size tag <= 3 /\ tag < 2 ^ (8 * tag_size tag)) as [Hts Htm].
  { unfold tag_size in *. repeat case_match; try lia. }
  set (tg := put_be (Z.to_nat (tag_size tag)) tag) in *. set (ln := put_length (zlen v)) in *.
  assert (zlen tg = tag_size tag) as Htg by (unfold tg; rewrite zlen_put_be; lia).
  set (bytes := tg ++ ln ++ v). assert (zlen bytes = total) as Hb by (unfold bytes; rewrite !zlen_app; lia).
  intros [= <- <-]. rewrite Hb.
  assert (length (mem_write off bytes data) = length data) as Hlen by (apply length_mem_write; lia).
  assert (zlen (mem_write off bytes data) = zlen data) as Hzl by (unfold zlen; by rewrite Hlen).
  assert (Forall byte_ok (mem_write off bytes data)) as Hby.
  { unfold mem_write. apply Forall_app; split; [by apply Forall_take|]. apply Forall_app; split; [|by apply Forall_drop].
    unfold bytes. apply Forall_app; split; [apply put_be_bytes|]. apply Forall_app; split; [|done].
    unfold ln, put_length. repeat case_match; repeat constructor; try (apply (wrap_range 8); lia); unfold byte_ok; lia. }
  assert (span (mem_write off bytes data) off (off + total) = bytes) as Hsp.
  { unfold span, mem_write. replace (off + total - off) with (zlen bytes) by lia. unfold zlen at 1. rewrite Nat2Z.id.
    rewrite drop_app_length' by (rewrite length_take; unfold zlen in *; lia). by rewrite take_app_length. }
  split; [done|]. eexists. split.
  - apply next_exact; [done|done|]. split; [lia|]. exists tg, ln, v.
    split_and!; [done|by apply put_length_form|lia|done|done].
  - cbn [ct_tag ct_length ct_value_off]. split_and!; [|done|].
    + unfold tg. apply get_put_be_id. unfold in_u. rewrite Z2Nat.id by lia. lia.
    + pose proof (zlen_nonneg tg). pose proof (zlen_nonneg ln). set (mem := mem_write off bytes data) in *.
      rewrite (span_app _ off (off + zlen tg + zlen ln)) in Hsp by lia. unfold bytes in Hsp. rewrite app_assoc in Hsp.
      apply app_inj_1 in Hsp as [_ Hq]; [exact Hq|]. apply Nat2Z.inj.
      change (zlen (span mem off (off + zlen tg + zlen ln)) = zlen (tg ++ ln)). rewrite zlen_span, zlen_app by lia. lia.
Qed.

(** What the writer appends the reader reads: same tag, same value, same end
    of the object, whatever the buffer holds around it. *)
Theorem cred_tlv_roundtrip data off tag v data' off' :
  Forall byte_ok data -> Forall byte_ok v -> 0 <= off -> 0 <= tag -> der_tag_form (put_be (Z.to_nat (tag_size tag)) tag) ->
  cred_tlv_write data off tag v = Some (data', off') ->
  length data' = length data /\
  exists t, cred_tlv_next data' off = TLV_OK t off' /\ ct_tag t = tag /\ ct_length t = zlen v /\
    span data' (ct_value_off t) off' = v.
Proof. apply tlv_write_next. Qed.

Lemma cred_tlv_exact_witness : exists t, cred_tlv_next [9; 0x7f; 0x21; 2; 5; 6; 7] 1 = TLV_OK t 6 /\ ct_tag t = 0x7f21.
Proof.
  eexists. split; [|shelve]. apply (cred_tlv_exact [9; 0x7f; 0x21; 2; 5; 6; 7] 1); [by apply bytes_all; vm_compute|done|].
  split; [by vm_compute|]. exists [0x7f; 0x21], [2], [5; 6]. split_and!.
  - split_and!; [by apply bytes_all; vm_compute|by vm_compute|by vm_compute].
  - left. by vm_compute.
  - by vm_compute.
  - by vm_compute.
  - reflexivity.
  Unshelve. by vm_compute.
Defined.

Lemma cred_tlv_roundtrip_witness :
  cred_tlv_write (replicate 8 0xee) 2 0x53 [1; 2; 3] = Some ([0xee; 0xee; 0x53; 3; 1; 2; 3; 0xee], 7) /\
  exists t, cred_tlv_next [0xee; 0xee; 0x53; 3; 1; 2; 3; 0xee] 2 = TLV_OK t 7 /\ ct_tag t = 0x53 /\ ct_length t = 3 /\
    span [0xee; 0xee; 0x53; 3; 1; 2; 3; 0xee] (ct_value_off t) 7 = [1; 2; 3].
Proof.
  assert (cred_tlv_write (replicate 8 0xee) 2 0x53 [1; 2; 3] = Some ([0xee; 0xee; 0x53; 3; 1; 2; 3; 0xee], 7)) as H by (vm_compute; reflexivity).
  split; [exact H|]. eapply (cred_tlv_roundtrip (replicate 8 0xee) 2 0x53 [1; 2; 3]); [by apply bytes_all; vm_compute|by apply bytes_all; vm_compute|lia|lia| |exact H].
  split_and!; [by apply bytes_all; vm_compute|by vm_compute|by vm_compute].
Defined.
