(* ===== verification/StepupWire.v ===== *)
(** * The step-up wire codecs

    Models [modules/ultrawidelock_cred/src/ultrawidelock_cw.h], the CBOR writer,
    and [ultrawidelock_stepup_wire.c]: requests, the SessionData envelope without
    its encryption, the NFC wrapper, ENVELOPE fragments, GET RESPONSE and the
    collection of a chained response.  [size_t] has four octets.  A buffer that
    is written from its start is its capacity and the bytes written so far; the
    null pointer checks have no counterpart, buffers being values. *)

From Stdlib Require Import ZArith Lia Bool Strings.String.
From stdpp Require Import base list numbers option.
From S2P Require Import Prelude Wire CredCrypto CredTlv Cbor.

Local Open Scope Z_scope.
Local Open Scope uwl_scope.

Definition INS_ENVELOPE : Z := 0xc3.
Definition INS_GET_RESPONSE : Z := 0xc0.
Definition DOCTYPE_ACCESS : list Z := text "aliro-a".

Inductive stepup_error := INVALID_ARGUMENT | BUFFER_TOO_SMALL | INVALID_DATA | STATUS_ERROR.

Inductive stepup_result (A : Type) := STEPUP_OK (a : A) | STEPUP_ERR (e : stepup_error).
Arguments STEPUP_OK {A} a.
Arguments STEPUP_ERR {A} e.

(** ** The CBOR writer *)

Record cw := { cw_bytes : list Z; cw_cap : Z; cw_err : bool }.

#[export] Instance cw_eta : Eta cw := fun w => {| cw_bytes := cw_bytes w; cw_cap := cw_cap w; cw_err := cw_err w |}.

Definition cw_new (cap : Z) : cw := {| cw_bytes := []; cw_cap := cap; cw_err := false |}.

Definition cw_raw (b : list Z) (w : cw) : cw :=
  if cw_err w || (cw_cap w - zlen (cw_bytes w) <? zlen b) then w <| cw_err := true |>
  else w <| cw_bytes := cw_bytes w ++ b |>.

Definition type_octets (major arg : Z) : list Z :=
  if arg <? 24 then [u8 (Z.lor major arg)]
  else if arg <? 256 then [u8 (Z.lor major 24); u8 arg]
  else if arg <? 65536 then [u8 (Z.lor major 25); u8 (Z.shiftr arg 8); u8 arg]
  else [u8 (Z.lor major 26); u8 (Z.shiftr arg 24); u8 (Z.shiftr arg 16); u8 (Z.shiftr arg 8); u8 arg].

Definition cw_type (major arg : Z) : cw -> cw := cw_raw (type_octets major arg).
Definition cw_map (n : Z) : cw -> cw := cw_type 0xa0 n.
Definition cw_arr (n : Z) : cw -> cw := cw_type 0x80 n.
Definition cw_tstr (s : list Z) (w : cw) : cw := cw_raw s (cw_type 0x60 (zlen s) w).
Definition cw_bstr (b : list Z) (w : cw) : cw := cw_raw b (cw_type 0x40 (zlen b) w).
Definition cw_tag (t : Z) : cw -> cw := cw_type 0xc0 t.
Definition cw_bool (v : bool) : cw -> cw := cw_raw [if v then 0xf5 else 0xf4].

(** A sequence of calls on a fresh buffer of [cap] bytes. *)
Definition cw_run (cap : Z) (ops : list (cw -> cw)) : option (list Z) :=
  let w := fold_left (fun w op => op w) ops (cw_new cap) in
  if cw_err w then None else Some (cw_bytes w).

(** [memcpy] of what was written, or the error. *)
Definition cw_result (o : option (list Z)) : stepup_result (list Z) :=
  match o with Some b => STEPUP_OK b | None => STEPUP_ERR BUFFER_TOO_SMALL end.

(** ** DeviceRequest *)

Definition wrap_items_request (items : list Z) (cap : Z) : stepup_result (list Z) :=
  cw_result (cw_run cap
    [cw_map 2; cw_tstr (text "1"); cw_tstr (text "1.0"); cw_tstr (text "2"); cw_arr 1; cw_map 1; cw_tstr (text "1");
     cw_tag 24; cw_bstr items]).

Definition k_default_elems : list (list Z) := [text "element2"; text "element4"].

Definition build_device_request (elems : list (list Z)) (cap : Z) : option (list Z) :=
  let elems := if zlen elems =? 0 then k_default_elems else elems in
  items ← cw_run 128
    ([cw_map 2; cw_tstr (text "1"); cw_map 1; cw_tstr DOCTYPE_ACCESS; cw_map (zlen elems)] ++
     concat (map (fun e => [cw_tstr e; cw_bool true]) elems) ++
     [cw_tstr (text "5"); cw_tstr DOCTYPE_ACCESS]);
  match wrap_items_request items cap with STEPUP_OK out => Some out | STEPUP_ERR _ => None end.

Definition build_device_request_ex (element_identifier : list Z) (intent_to_store : bool) (cap : Z) : stepup_result (list Z) :=
  if zlen element_identifier =? 0 then STEPUP_ERR INVALID_ARGUMENT else
  match cw_run 512
    [cw_map 2; cw_tstr (text "1"); cw_map 1; cw_tstr DOCTYPE_ACCESS; cw_map 1; cw_tstr element_identifier;
     cw_bool intent_to_store; cw_tstr (text "5"); cw_tstr DOCTYPE_ACCESS]
  with
  | None => STEPUP_ERR BUFFER_TOO_SMALL
  | Some items => wrap_items_request items cap
  end.

(** ** SessionData *)

Definition wrap_sessiondata_raw (ciphertext : list Z) (cap : Z) : stepup_result (list Z) :=
  cw_result (cw_run cap [cw_map 1; cw_tstr (text "data"); cw_bstr ciphertext]).

(** The value of a head of the given major type and the offset behind it. *)
Definition cbor_read_head (data : list Z) (offset major : Z) : option (Z * Z) :=
  if zlen data <=? offset then None else
  let b := byte_at data offset in
  let offset := offset + 1 in
  if negb (Z.shiftr b 5 =? major) then None else
  let ai := Z.land b 31 in
  if ai <? 24 then Some (ai, offset) else
  let n := if ai =? 24 then 1 else if ai =? 25 then 2 else if ai =? 26 then 4 else if ai =? 27 then 8 else 0 in
  if (n =? 0) || (4 <? n) || (zlen data - offset <? n) then None else
  let v := get_be (sub_bytes data offset n) in
  if (n =? 1) && (v <? 24) || (n =? 2) && (v <=? 0xff) || (n =? 4) && (v <=? 0xffff) then None
  else Some (v, offset + n).

Definition unwrap_sessiondata_raw (session_data : list Z) : stepup_result (list Z) :=
  let ciphertext :=
    '(n, off) ← cbor_read_head session_data 0 5;
    guard (n = 1) ;;
    '(n, off) ← cbor_read_head session_data off 3;
    guard (n = 4) ;; guard (n <= zlen session_data - off) ;; guard (sub_bytes session_data off 4 = text "data") ;;
    let off := off + 4 in
    '(n, off) ← cbor_read_head session_data off 2;
    guard (n <= zlen session_data - off) ;; guard (off + n = zlen session_data) ;;
    Some (sub_bytes session_data off n) in
  match ciphertext with Some c => STEPUP_OK c | None => STEPUP_ERR INVALID_DATA end.

(** ** The NFC wrapper *)

Definition wrap_do53 (message output : list Z) : stepup_result (list Z) :=
  match cred_tlv_write output 0 0x53 message with
  | None => STEPUP_ERR BUFFER_TOO_SMALL
  | Some (output, off) => STEPUP_OK (sub_bytes output 0 off)
  end.

Definition unwrap_do53 (encoded : list Z) : stepup_result (list Z) :=
  match cred_tlv_next encoded 0 with
  | TLV_OK tlv off =>
      if negb (ct_tag tlv =? 0x53) || negb (off =? zlen encoded) then STEPUP_ERR INVALID_DATA
      else STEPUP_OK (sub_bytes encoded (ct_value_off tlv) (ct_length tlv))
  | _ => STEPUP_ERR INVALID_DATA
  end.

(** ** ENVELOPE and GET RESPONSE *)

(** The command, the offset of the next fragment, whether this is the last. *)
Definition build_envelope_ex (encoded_do53 : list Z) (offset max_command_data max_response_data : Z)
    (extended_supported : bool) (cap : Z) : stepup_result (list Z * Z * bool) :=
  if (zlen encoded_do53 <=? offset) || (max_command_data =? 0) || (65535 <? max_command_data) ||
     (max_response_data =? 0) || (65536 <? max_response_data)
  then STEPUP_ERR INVALID_ARGUMENT else
  let left := zlen encoded_do53 - offset in
  let fragment := if max_command_data <? left then max_command_data else left in
  let last_fragment := offset + fragment =? zlen encoded_do53 in
  let extended := (255 <? fragment) || last_fragment && (256 <? max_response_data) in
  if extended && negb extended_supported then STEPUP_ERR INVALID_ARGUMENT else
  let needed := (if extended then 7 else 5) + fragment + (if last_fragment then if extended then 2 else 1 else 0) in
  if cap <? needed then STEPUP_ERR BUFFER_TOO_SMALL else
  let le := if max_response_data =? 65536 then 0 else u16 max_response_data in
  let apdu :=
    [if last_fragment then 0x00 else 0x10; INS_ENVELOPE; 0x00; 0x00] ++
    (if extended then [0; u8 (Z.shiftr fragment 8); u8 fragment] else [u8 fragment]) ++
    sub_bytes encoded_do53 offset fragment ++
    (if last_fragment
     then if extended then [u8 (Z.shiftr le 8); u8 le]
          else [if max_response_data =? 256 then 0 else u8 max_response_data]
     else []) in
  STEPUP_OK (apdu, offset + fragment, last_fragment).

Definition build_get_response_ex (expected_length cap : Z) : stepup_result (list Z) :=
  if (expected_length =? 0) || (65536 <? expected_length) then STEPUP_ERR INVALID_ARGUMENT else
  if expected_length <=? 256 then
    if cap <? 5 then STEPUP_ERR BUFFER_TOO_SMALL
    else STEPUP_OK [0x00; INS_GET_RESPONSE; 0x00; 0x00; if expected_length =? 256 then 0 else u8 expected_length]
  else
    if cap <? 7 then STEPUP_ERR BUFFER_TOO_SMALL else
    let le := if expected_length =? 65536 then 0 else u16 expected_length in
    STEPUP_OK [0x00; INS_GET_RESPONSE; 0x00; 0x00; 0x00; u8 (Z.shiftr le 8); u8 le].

(** The data so far, and how much more the card announced: 0 at the end. *)
Definition collect_response (response collected : list Z) (cap : Z) : stepup_result (list Z * Z) :=
  if (zlen response <? 2) || (cap <? zlen collected) then STEPUP_ERR INVALID_ARGUMENT else
  let data_length := zlen response - 2 in
  if cap - zlen collected <? data_length then STEPUP_ERR BUFFER_TOO_SMALL else
  let sw1 := byte_at response data_length in
  let sw2 := byte_at response (data_length + 1) in
  if negb ((sw1 =? 0x90) && (sw2 =? 0) || (sw1 =? 0x61)) then STEPUP_ERR STATUS_ERROR else
  let collected := collected ++ sub_bytes response 0 data_length in
  if sw1 =? 0x61 then STEPUP_OK (collected, if sw2 =? 0 then 256 else sw2) else STEPUP_OK (collected, 0).

(** * The step-up wire codecs: what is written, and that it is read back

    The writer of [StepupWire] produces the canonical heads or reports that the
    buffer is too small; SessionData has one encoding, which the reader
    accepts and nothing else; a message cut into ENVELOPE commands is put
    together again by a card that follows ISO 7816-4, and a response that
    arrives in parts is collected whole. *)

Local Open Scope Z_scope.
Local Open Scope uwl_scope.

(** ** The writer *)

(** The shortest head. *)
Definition enc_head (mt arg : Z) : list Z :=
  if arg <? 24 then [mt * 32 + arg] else if arg <? 2 ^ 8 then (mt * 32 + 24) :: put_be 1 arg
  else if arg <? 2 ^ 16 then (mt * 32 + 25) :: put_be 2 arg else (mt * 32 + 26) :: put_be 4 arg.

Definition enc_tstr (s : list Z) : list Z := enc_head 3 (zlen s) ++ s.
Definition enc_bstr (s : list Z) : list Z := enc_head 2 (zlen s) ++ s.

Lemma lor_major mt ai : 0 <= ai < 32 -> Z.lor (mt * 32) ai = mt * 32 + ai.
Proof. intros H. change 32 with (2 ^ 5). rewrite <- Z.shiftl_mul_pow2 at 1 by lia. by apply lor_shiftl_add. Qed.

Lemma type_octets_head mt arg : 0 <= mt < 8 -> 0 <= arg < 2 ^ 32 -> type_octets (mt * 32) arg = enc_head mt arg.
Proof.
  intros Hm Ha. unfold type_octets, enc_head. change (2 ^ 8) with 256. change (2 ^ 16) with 65536.
  destruct (Z.ltb_spec arg 24); [rewrite lor_major by lia; by rewrite (wrap_id 8) by (unfold in_u; lia)|].
  rewrite !lor_major by lia. rewrite !(wrap_id 8 (mt * 32 + _)) by (unfold in_u; lia).
  destruct (Z.ltb_spec arg 256); [cbn; by rewrite Z.shiftr_0_r|]. destruct (Z.ltb_spec arg 65536); cbn; by rewrite Z.shiftr_0_r.
Qed.

(** [op] appends [b], or latches the error. *)
Definition cw_fits (w : cw) : Prop := zlen (cw_bytes w) <= cw_cap w.

Definition emits (op : cw -> cw) (b : list Z) : Prop :=
  forall w, cw_fits w -> cw_fits (op w) /\ cw_cap (op w) = cw_cap w /\
    if cw_err w || (cw_cap w - zlen (cw_bytes w) <? zlen b) then cw_err (op w) = true
    else op w = w <| cw_bytes := cw_bytes w ++ b |>.

Lemma emits_raw b : emits (cw_raw b) b.
Proof.
  intros w Hw. unfold cw_raw, cw_fits in *. destruct (cw_err w); cbn [orb]; [done|].
  destruct (Z.ltb_spec (cw_cap w - zlen (cw_bytes w)) (zlen b)); [done|]. cbn. rewrite zlen_app. split; [lia|done].
Qed.

Lemma emits_then op1 op2 b1 b2 : emits op1 b1 -> emits op2 b2 -> emits (fun w => op2 (op1 w)) (b1 ++ b2).
Proof.
  intros H1 H2 w Hw. destruct (H1 w Hw) as (F1 & C1 & E1). destruct (H2 (op1 w) F1) as (F2 & C2 & E2).
  split; [done|]. split; [by rewrite C2|].
  rewrite zlen_app. pose proof (zlen_nonneg b1). pose proof (zlen_nonneg b2).
  destruct (cw_err w) eqn:Ew; cbn [orb] in *; [by rewrite E1 in E2|].
  destruct (Z.ltb_spec (cw_cap w - zlen (cw_bytes w)) (zlen b1)).
  - rewrite E1 in E2. destruct (Z.ltb_spec (cw_cap w - zlen (cw_bytes w)) (zlen b1 + zlen b2)); [done|lia].
  - rewrite E1 in E2 |- *. cbn in E2. rewrite Ew, zlen_app in E2. cbn [orb] in E2.
    destruct (Z.ltb_spec (cw_cap w - zlen (cw_bytes w)) (zlen b1 + zlen b2)),
      (Z.ltb_spec (cw_cap w - (zlen (cw_bytes w) + zlen b1)) (zlen b2)); try lia; [done|]. cbn. by rewrite E2, app_assoc.
Qed.

Lemma emits_type mt arg : 0 <= mt < 8 -> 0 <= arg < 2 ^ 32 -> emits (cw_type (mt * 32) arg) (enc_head mt arg).
Proof. intros. unfold cw_type. rewrite type_octets_head by done. apply emits_raw. Qed.

Lemma emits_tstr s : zlen s < 2 ^ 32 -> emits (cw_tstr s) (enc_tstr s).
Proof.
  intros Hs. apply (emits_then (cw_type 0x60 (zlen s)) (cw_raw s)); [|apply emits_raw].
  apply (emits_type 3); [lia|]. pose proof (zlen_nonneg s). lia.
Qed.

Lemma emits_bstr s : zlen s < 2 ^ 32 -> emits (cw_bstr s) (enc_bstr s).
Proof.
  intros Hs. apply (emits_then (cw_type 0x40 (zlen s)) (cw_raw s)); [|apply emits_raw].
  apply (emits_type 2); [lia|]. pose proof (zlen_nonneg s). lia.
Qed.

Lemma emits_fold ops bs : Forall2 emits ops bs -> emits (fun w => fold_left (fun w op => op w) ops w) (concat bs).
Proof.
  induction 1 as [|op b ops bs Hop _ IH].
  - intros w Hw. split; [done|]. split; [done|]. cbn. unfold cw_fits in Hw. destruct (cw_err w) eqn:E; [done|]. cbn [orb].
    change (zlen []) with 0. destruct (Z.ltb_spec (cw_cap w - zlen (cw_bytes w)) 0); [lia|]. destruct w. cbn. by rewrite app_nil_r.
  - by apply (emits_then op).
Qed.

(** A sequence of calls writes everything, or says that it does not fit. *)
Lemma run_exact cap ops bs : 0 <= cap -> Forall2 emits ops bs ->
  cw_run cap ops = if cap <? zlen (concat bs) then None else Some (concat bs).
Proof.
  intros Hc H. destruct (emits_fold ops bs H (cw_new cap) Hc) as (_ & _ & E). unfold cw_run. cbn [cw_new cw_err cw_cap cw_bytes orb] in E.
  rewrite Z.sub_0_r in E. destruct (cap <? zlen (concat bs)); [by rewrite E|]. rewrite E. done.
Qed.

(** ** SessionData *)

(** The one encoding of a ciphertext. *)
Definition sessiondata (ct : list Z) : list Z := enc_head 5 1 ++ enc_tstr (text "data") ++ enc_bstr ct.

Lemma wrap_exact ct cap : 0 <= cap -> zlen ct < 2 ^ 32 ->
  wrap_sessiondata_raw ct cap = if cap <? zlen (sessiondata ct) then STEPUP_ERR BUFFER_TOO_SMALL else STEPUP_OK (sessiondata ct).
Proof.
  intros Hc Hl. unfold wrap_sessiondata_raw.
  assert (Forall2 emits [cw_map 1; cw_tstr (text "data"); cw_bstr ct] [enc_head 5 1; enc_tstr (text "data"); enc_bstr ct]) as H.
  { constructor; [by apply (emits_type 5)|constructor; [by apply emits_tstr|constructor; [by apply emits_bstr|constructor]]]. }
  rewrite (run_exact cap _ _ Hc H). cbn [concat]. rewrite app_nil_r. fold (sessiondata ct). by destruct (_ <? _).
Qed.

(** The reader of heads accepts the shortest head of the wanted type. *)
Lemma sub_bytes_middle (pre b post : list Z) off n : off = zlen pre -> n = zlen b -> sub_bytes (pre ++ b ++ post) off n = b.
Proof.
  intros -> ->. unfold sub_bytes, zlen. rewrite !Nat2Z.id, drop_app_length. by rewrite take_app_length.
Qed.

Lemma byte_at_middle pre b post off : off = zlen pre -> byte_at (pre ++ b :: post) off = b.
Proof. intros ->. unfold byte_at, zlen. rewrite Nat2Z.id, app_nth2 by lia. by rewrite Nat.sub_diag. Qed.

Lemma read_head_complete pre post mt arg : 0 <= mt < 8 -> 0 <= arg < 2 ^ 32 ->
  cbor_read_head (pre ++ enc_head mt arg ++ post) (zlen pre) mt = Some (arg, zlen pre + zlen (enc_head mt arg)).
Proof.
  intros Hm Ha. pose proof (zlen_nonneg pre). pose proof (zlen_nonneg post).
  assert (forall ai l, 0 <= ai < 32 -> enc_head mt arg = (mt * 32 + ai) :: l ->
    cbor_read_head (pre ++ enc_head mt arg ++ post) (zlen pre) mt =
    if ai <? 24 then Some (ai, zlen pre + 1) else
    let n := if ai =? 24 then 1 else if ai =? 25 then 2 else if ai =? 26 then 4 else if ai =? 27 then 8 else 0 in
    if (n =? 0) || (4 <? n) || (zlen l + zlen post <? n) then None else
    let v := get_be (sub_bytes (pre ++ (mt * 32 + ai) :: l ++ post) (zlen pre + 1) n) in
    if (n =? 1) && (v <? 24) || (n =? 2) && (v <=? 0xff) || (n =? 4) && (v <=? 0xffff) then None
    else Some (v, zlen pre + 1 + n)) as Hhead.
  { intros ai l Hai ->. unfold cbor_read_head. cbn [app]. rewrite byte_at_middle by done.
    rewrite zlen_app, zlen_cons, zlen_app. pose proof (zlen_nonneg l).
    destruct (Z.leb_spec (zlen pre + (1 + (zlen l + zlen post))) (zlen pre)); [lia|].
    destruct (byte_join mt ai Hm Hai) as [-> ->]. rewrite Z.eqb_refl. cbn [negb].
    replace (zlen pre + (1 + (zlen l + zlen post)) - (zlen pre + 1)) with (zlen l + zlen post) by lia. done. }
  assert (forall ai k, (ai, k) ∈ [(24, 1%nat); (25, 2%nat); (26, 4%nat)] -> enc_head mt arg = (mt * 32 + ai) :: put_be k arg ->
    in_u (8 * Z.of_nat k) arg -> (k = 1%nat -> 24 <= arg) -> (k = 2%nat -> 256 <= arg) -> (k = 4%nat -> 65536 <= arg) ->
    cbor_read_head (pre ++ enc_head mt arg ++ post) (zlen pre) mt = Some (arg, zlen pre + zlen (enc_head mt arg))) as Hlong.
  { intros ai k Hin He Hr H1 H2 H4. assert (24 <= ai < 27 /\ (if ai =? 24 then 1 else if ai =? 25 then 2 else if ai =? 26 then 4 else if ai =? 27 then 8 else 0) = Z.of_nat k /\ (1 <= k <= 4)%nat) as (Hai & Hn & Hk).
    { rewrite !elem_of_cons, elem_of_nil in Hin. destruct Hin as [[= -> ->]|[[= -> ->]|[[= -> ->]|[]]]]; cbn; lia. }
    rewrite (Hhead ai _ ltac:(lia) He). destruct (Z.ltb_spec ai 24); [lia|]. cbv zeta. rewrite Hn, zlen_put_be.
    destruct (Z.eqb_spec (Z.of_nat k) 0); [lia|]. destruct (Z.ltb_spec 4 (Z.of_nat k)); [lia|].
    destruct (Z.ltb_spec (Z.of_nat k + zlen post) (Z.of_nat k)); [lia|]. cbn [orb].
    replace (pre ++ (mt * 32 + ai) :: put_be k arg ++ post) with ((pre ++ [mt * 32 + ai]) ++ put_be k arg ++ post) by (by rewrite <- app_assoc).
    rewrite sub_bytes_middle; [|by rewrite zlen_app|by rewrite zlen_put_be]. rewrite get_put_be_id by done.
    rewrite He, zlen_cons, zlen_put_be.
    match goal with |- (if ?b then _ else _) = _ => replace b with false by lia end. do 2 f_equal. lia. }
  unfold enc_head in Hhead, Hlong |- *. change (2 ^ 8) with 256 in *. change (2 ^ 16) with 65536 in *.
  destruct (Z.ltb_spec arg 24) as [Hs|Hs].
  { rewrite (Hhead arg []) by (done || lia). by destruct (Z.ltb_spec arg 24); [|lia]. }
  destruct (Z.ltb_spec arg 256).
  { apply (Hlong 24 1%nat); [rewrite !elem_of_cons; tauto|done|unfold in_u; cbn; lia|lia..]. }
  destruct (Z.ltb_spec arg 65536).
  - apply (Hlong 25 2%nat); [rewrite !elem_of_cons; tauto|done|unfold in_u; cbn; lia|lia..].
  - apply (Hlong 26 4%nat); [rewrite !elem_of_cons; tauto|done|unfold in_u; cbn; lia|lia..].
Qed.

Lemma sub_bytes_bytes p off n : Forall byte_ok p -> Forall byte_ok (sub_bytes p off n).
Proof. intros. by apply Forall_take, Forall_drop. Qed.

Lemma zlen_sub_bytes (p : list Z) off n : 0 <= off -> 0 <= n -> off + n <= zlen p -> zlen (sub_bytes p off n) = n.
Proof. intros. unfold sub_bytes, zlen in *. rewrite length_take, length_drop. lia. Qed.

(** A sequence cut at an offset. *)
Lemma sub_bytes_split (p : list Z) off n k : 0 <= off -> 0 <= n -> 0 <= k ->
  sub_bytes p off (n + k) = sub_bytes p off n ++ sub_bytes p (off + n) k.
Proof.
  intros. unfold sub_bytes. rewrite !Z2Nat.inj_add by lia. rewrite <- drop_drop, <- take_take_drop. done.
Qed.

Lemma sub_bytes_one p off : 0 <= off < zlen p -> sub_bytes p off 1 = [byte_at p off].
Proof.
  intros H. unfold sub_bytes. change (Z.to_nat 1) with 1%nat. rewrite <- (put_byte_at p off (off + 1)) by lia. done.
Qed.

Lemma read_head_sound data off mt v off' : Forall byte_ok data -> 0 <= off -> 0 <= mt < 8 ->
  cbor_read_head data off mt = Some (v, off') ->
  0 <= v < 2 ^ 32 /\ off' = off + zlen (enc_head mt v) /\ off' <= zlen data /\ sub_bytes data off (off' - off) = enc_head mt v.
Proof.
  intros Hd Ho Hm. unfold cbor_read_head. destruct (Z.leb_spec (zlen data) off) as [|Hl]; [done|]. cbv zeta.
  pose proof (byte_at_ok data off Hd) as Hb. destruct (byte_split _ Hb) as (Hsplit & _ & Hai).
  destruct (Z.eqb_spec (Z.shiftr (byte_at data off) 5) mt) as [Hmt|]; [|done]. cbn [negb]. rewrite Hmt in Hsplit.
  set (ai := Z.land (byte_at data off) 31) in *.
  destruct (Z.ltb_spec ai 24) as [Hs|Hs].
  { intros [= <- <-]. unfold enc_head. destruct (Z.ltb_spec ai 24); [|lia]. change (zlen [mt * 32 + ai]) with 1.
    replace (off + 1 - off) with 1 by lia. rewrite sub_bytes_one by lia. split_and!; [lia|lia|lia|lia|by rewrite Hsplit]. }
  set (n := if ai =? 24 then 1 else _). destruct (Z.eqb_spec n 0) as [|Hn0]; [done|].
  destruct (Z.ltb_spec 4 n) as [|Hn4]; [done|]. destruct (Z.ltb_spec (zlen data - (off + 1)) n) as [|Hr]; [done|]. cbn [orb].
  set (v0 := get_be (sub_bytes data (off + 1) n)).
  destruct ((n =? 1) && (v0 <? 24) || (n =? 2) && (v0 <=? 0xff) || (n =? 4) && (v0 <=? 0xffff)) eqn:Hmin; [done|].
  intros [= <- <-].
  assert (ai = 24 /\ n = 1 \/ ai = 25 /\ n = 2 \/ ai = 26 /\ n = 4) as Hcase by (subst n; repeat case_match; lia).
  assert (zlen (sub_bytes data (off + 1) n) = n) as Hzl by (apply zlen_sub_bytes; lia).
  pose proof (sub_bytes_bytes data (off + 1) n Hd) as Hby.
  pose proof (get_be_range _ Hby) as Hv. fold v0 in Hv. unfold zlen in Hzl. rewrite Hzl in Hv. unfold in_u in Hv.
  assert (put_be (Z.to_nat n) v0 = sub_bytes data (off + 1) n) as Hput.
  { replace (Z.to_nat n) with (length (sub_bytes data (off + 1) n)) by lia. by apply put_get_be. }
  assert (enc_head mt v0 = (mt * 32 + ai) :: put_be (Z.to_nat n) v0) as He.
  { unfold enc_head. change (2 ^ 8) with 256. change (2 ^ 16) with 65536.
    destruct Hcase as [[-> ->]|[[-> ->]|[-> ->]]]; cbn in Hmin; rewrite ?orb_false_r in Hmin;
      (destruct (Z.ltb_spec v0 24); [lia|]); cbn in Hv; (destruct (Z.ltb_spec v0 256); try lia); try done;
      (destruct (Z.ltb_spec v0 65536); try lia; done). }
  rewrite He, zlen_cons, zlen_put_be. replace (off + 1 + n - off) with (1 + n) by lia.
  rewrite sub_bytes_split, sub_bytes_one, Hput, Hsplit by lia.
  destruct Hcase as [[-> ->]|[[-> ->]|[-> ->]]]; cbn in Hv; split_and!; (lia || done).
Qed.

Lemma sub_bytes_all (p : list Z) : sub_bytes p 0 (zlen p) = p.
Proof. unfold sub_bytes, zlen. rewrite Nat2Z.id. apply take_ge. done. Qed.

Lemma unwrap_complete ct : zlen ct < 2 ^ 32 -> unwrap_sessiondata_raw (sessiondata ct) = STEPUP_OK ct.
Proof.
  intros Hl. pose proof (zlen_nonneg ct) as H0. unfold unwrap_sessiondata_raw, sessiondata, enc_tstr, enc_bstr.
  set (h := enc_head 2 (zlen ct)).
  set (sd := enc_head 5 1 ++ (enc_head 3 4 ++ text "data") ++ h ++ ct).
  change (enc_head 5 1 ++ (enc_head 3 (zlen (text "data")) ++ text "data") ++ h ++ ct) with sd.
  assert (cbor_read_head sd 0 5 = Some (1, 1)) as -> by (apply (read_head_complete []); lia). cbn [mbind option_bind].
  assert (cbor_read_head sd 1 3 = Some (4, 2)) as E2.
  { apply (read_head_complete (enc_head 5 1) (text "data" ++ h ++ ct) 3 4); lia. }
  assert (cbor_read_head sd 6 2 = Some (zlen ct, 6 + zlen h)) as E3.
  { apply (read_head_complete (enc_head 5 1 ++ enc_head 3 4 ++ text "data") ct 2 (zlen ct)); lia. }
  assert (zlen sd = 6 + zlen h + zlen ct) as Hz.
  { subst sd. rewrite !zlen_app. change (zlen (enc_head 5 1)) with 1. change (zlen (enc_head 3 4)) with 1.
    change (zlen (text "data")) with 4. lia. }
  pose proof (zlen_nonneg h).
  rewrite option_guard_True by done. rewrite E2. cbn [mbind option_bind].
  rewrite option_guard_True by done. rewrite option_guard_True by lia. rewrite option_guard_True by done.
  change (2 + 4) with 6. rewrite E3. cbn [mbind option_bind].
  rewrite option_guard_True by lia. rewrite option_guard_True by lia. f_equal.
  subst sd. rewrite !(app_assoc (enc_head 5 1)), (app_assoc _ h).
  replace ct with (ct ++ []) at 1 by apply app_nil_r. apply sub_bytes_middle; [|done].
  rewrite !zlen_app. change (zlen (enc_head 5 1)) with 1. change (zlen (enc_head 3 4)) with 1. change (zlen (text "data")) with 4. lia.
Qed.

(** One guard of an option computation that succeeds. *)
Ltac guard_in H P Hn :=
  destruct (decide P) as [Hn|Hn];
  [rewrite (option_guard_True P) in H by exact Hn|rewrite (option_guard_False P) in H by exact Hn; discriminate H].

Lemma unwrap_sound sd ct : Forall byte_ok sd -> unwrap_sessiondata_raw sd = STEPUP_OK ct ->
  sd = sessiondata ct /\ zlen ct < 2 ^ 32.
Proof.
  intros Hd H. unfold unwrap_sessiondata_raw in H.
  destruct (cbor_read_head sd 0 5) as [[n1 o1]|] eqn:E1; cbn [mbind option_bind mret option_ret] in H; [|done].
  guard_in H (n1 = 1) Hn1.
  destruct (cbor_read_head sd o1 3) as [[n2 o2]|] eqn:E2; cbn [mbind option_bind mret option_ret] in H; [|done].
  guard_in H (n2 = 4) Hn2. guard_in H (n2 <= zlen sd - o2) Hr.
  guard_in H (sub_bytes sd o2 4 = text "data") Hdata.
  destruct (cbor_read_head sd (o2 + 4) 2) as [[n3 o3]|] eqn:E3; cbn [mbind option_bind mret option_ret] in H; [|done].
  guard_in H (n3 <= zlen sd - o3) Hn3. guard_in H (o3 + n3 = zlen sd) Hend.
  injection H as <-. subst n1 n2.
  apply read_head_sound in E1 as (_ & -> & L1 & S1); [|done|lia..]. change (0 + zlen (enc_head 5 1)) with 1 in *.
  apply read_head_sound in E2 as (_ & -> & L2 & S2); [|done|lia..]. change (1 + zlen (enc_head 3 4)) with 2 in *.
  apply read_head_sound in E3 as (V3 & -> & L3 & S3); [|done|lia..]. change (2 + 4) with 6 in *.
  pose proof (zlen_nonneg (enc_head 2 n3)).
  assert (zlen (sub_bytes sd (6 + zlen (enc_head 2 n3)) n3) = n3) as Hlen by (apply zlen_sub_bytes; lia).
  split; [|lia]. unfold sessiondata, enc_tstr, enc_bstr. rewrite Hlen. change (enc_head 3 (zlen (text "data"))) with (enc_head 3 4).
  rewrite <- (sub_bytes_all sd) at 1.
  replace (zlen sd) with (1 + (1 + (4 + (zlen (enc_head 2 n3) + n3)))) by lia.
  rewrite !sub_bytes_split by lia. change (1 - 0) with 1 in S1. change (2 - 1) with 1 in S2. change (0 + 1) with 1. change (1 + 1) with 2.
  change (2 + 4) with 6. replace (6 + zlen (enc_head 2 n3) - 6) with (zlen (enc_head 2 n3)) in S3 by lia.
  rewrite S1, S2, Hdata, S3. by rewrite <- !app_assoc.
Qed.

(** SessionData has one encoding.  What the wrapper writes the unwrapper
    reads, and the unwrapper accepts no other bytes: every envelope it takes
    is the wrapper's output for the ciphertext it yields. *)
Theorem sessiondata_canonical sd ct :
  Forall byte_ok sd -> zlen sd < 2 ^ 32 -> zlen ct < 2 ^ 32 ->
  unwrap_sessiondata_raw sd = STEPUP_OK ct <-> wrap_sessiondata_raw ct (zlen sd) = STEPUP_OK sd.
Proof.
  intros Hd Hl Hc. pose proof (zlen_nonneg sd). rewrite wrap_exact by (done || lia). split.
  - intros Hu. apply unwrap_sound in Hu as [Hs Hz]; [|done]. rewrite <- Hs.
    by destruct (Z.ltb_spec (zlen sd) (zlen sd)); [lia|].
  - destruct (zlen sd <? zlen (sessiondata ct)); [done|]. intros [= <-]. by apply unwrap_complete.
Qed.

Lemma sessiondata_canonical_witness :
  unwrap_sessiondata_raw [0xa1; 0x64; 100; 97; 116; 97; 0x42; 7; 8] = STEPUP_OK [7; 8].
Proof.
  apply (sessiondata_canonical [0xa1; 0x64; 100; 97; 116; 97; 0x42; 7; 8] [7; 8]); [by apply bytes_all; vm_compute|done|done|].
  reflexivity.
Defined.

(** ** ENVELOPE fragments *)

(** A command as a card reads it (ISO 7816-4): whether more follow, and the
    data; the expected length has one octet, or two in an extended command, and
    only the last command carries it. *)
Definition envelope_parse (a : list Z) : option (bool * list Z) :=
  let more := byte_at a 0 =? 0x10 in
  let extended := byte_at a 4 =? 0 in
  let lc := if extended then get_be (sub_bytes a 5 2) else byte_at a 4 in
  let start := if extended then 7 else 5 in
  let le_octets := if more then 0 else if extended then 2 else 1 in
  if ((byte_at a 0 =? 0x00) || more) && (byte_at a 1 =? 0xc3) && (byte_at a 2 =? 0) && (byte_at a 3 =? 0) &&
     (zlen a =? start + lc + le_octets)
  then Some (more, sub_bytes a start lc) else None.

Fixpoint reassemble (apdus : list (list Z)) : option (list Z) :=
  match apdus with
  | [] => None
  | a :: rest =>
      '(more, data) ← envelope_parse a;
      if (more : bool) then tail ← reassemble rest; Some (data ++ tail) else match rest with [] => Some data | _ => None end
  end.

(** A sender that builds commands until the last one. *)
Fixpoint send_envelopes (fuel : nat) (encoded : list Z) (offset max_command_data max_response_data : Z)
    (extended_supported : bool) (cap : Z) : option (list (list Z)) :=
  match fuel with
  | O => None
  | S f =>
      match build_envelope_ex encoded offset max_command_data max_response_data extended_supported cap with
      | STEPUP_ERR _ => None
      | STEPUP_OK (apdu, offset, last_fragment) =>
          if (last_fragment : bool) then Some [apdu]
          else rest ← send_envelopes f encoded offset max_command_data max_response_data extended_supported cap; Some (apdu :: rest)
      end
  end.

Lemma parse_built (more extended : bool) (data le : list Z) :
  1 <= zlen data <= (if extended then 65535 else 255) -> zlen le = (if more then 0 else if extended then 2 else 1) ->
  envelope_parse ([if more then 0x10 else 0x00; INS_ENVELOPE; 0x00; 0x00] ++
    (if extended then [0; u8 (Z.shiftr (zlen data) 8); u8 (zlen data)] else [u8 (zlen data)]) ++ data ++ le)
  = Some (more, data).
Proof.
  intros Hd Hle. destruct extended; cbv iota in Hd, Hle; cbn [app].
  - assert (get_be [u8 (Z.shiftr (zlen data) 8); u8 (zlen data)] = zlen data) as Hlc.
    { transitivity (get_be (put_be 2 (zlen data))); [|apply get_put_be_id; unfold in_u; cbn; lia].
      cbn [put_be]. change (8 * Z.of_nat 1) with 8. change (8 * Z.of_nat 0) with 0. by rewrite Z.shiftr_0_r. }
    set (hdr := [if more then 0x10 else 0x00; INS_ENVELOPE; 0; 0; 0; u8 (Z.shiftr (zlen data) 8); u8 (zlen data)]).
    change (envelope_parse (hdr ++ data ++ le) = Some (more, data)). unfold envelope_parse.
    change (byte_at (hdr ++ data ++ le) 4 =? 0) with true. cbv iota zeta.
    change (sub_bytes (hdr ++ data ++ le) 5 2) with [u8 (Z.shiftr (zlen data) 8); u8 (zlen data)]. rewrite Hlc.
    change (byte_at (hdr ++ data ++ le) 0) with (if more then 0x10 else 0x00).
    replace ((if more then 16 else 0) =? 16) with more by (by destruct more). rewrite !zlen_app, Hle. change (zlen hdr) with 7.
    rewrite sub_bytes_middle by done. rewrite Z.add_assoc, (Z.eqb_refl (7 + zlen data + _)). by destruct more.
  - rewrite (wrap_id 8) by (unfold in_u; lia). set (hdr := [if more then 0x10 else 0x00; INS_ENVELOPE; 0; 0; zlen data]).
    change (envelope_parse (hdr ++ data ++ le) = Some (more, data)). unfold envelope_parse.
    change (byte_at (hdr ++ data ++ le) 4) with (zlen data). destruct (Z.eqb_spec (zlen data) 0); [lia|]. cbv iota zeta.
    change (byte_at (hdr ++ data ++ le) 0) with (if more then 0x10 else 0x00).
    replace ((if more then 16 else 0) =? 16) with more by (by destruct more). rewrite !zlen_app, Hle. change (zlen hdr) with 5.
    rewrite sub_bytes_middle by done. rewrite Z.add_assoc, (Z.eqb_refl (5 + zlen data + _)). by destruct more.
Qed.

Section Envelopes.
Context (encoded : list Z) (max_command_data max_response_data cap : Z) (extended_supported : bool).
Context (Hc : 1 <= max_command_data <= 65535) (Hr : 1 <= max_response_data <= 65536).
Context (He : extended_supported = true \/ max_command_data <= 255 /\ max_response_data <= 256).
Context (Hcap : max_command_data + 9 <= cap).

Lemma envelope_step offset : 0 <= offset < zlen encoded ->
  let fragment := Z.min max_command_data (zlen encoded - offset) in
  exists apdu, build_envelope_ex encoded offset max_command_data max_response_data extended_supported cap
    = STEPUP_OK (apdu, offset + fragment, offset + fragment =? zlen encoded) /\
    envelope_parse apdu = Some (negb (offset + fragment =? zlen encoded), sub_bytes encoded offset fragment).
Proof.
  intros Ho fragment. unfold build_envelope_ex.
  destruct (Z.leb_spec (zlen encoded) offset); [lia|]. destruct (Z.eqb_spec max_command_data 0); [lia|].
  destruct (Z.ltb_spec 65535 max_command_data); [lia|]. destruct (Z.eqb_spec max_response_data 0); [lia|].
  destruct (Z.ltb_spec 65536 max_response_data); [lia|]. cbn [orb]. cbv zeta.
  replace (if max_command_data <? zlen encoded - offset then max_command_data else zlen encoded - offset) with fragment
    by (subst fragment; destruct (Z.ltb_spec max_command_data (zlen encoded - offset)); lia).
  assert (1 <= fragment <= max_command_data /\ offset + fragment <= zlen encoded) as [Hf Hend] by lia.
  set (last := offset + fragment =? zlen encoded).
  set (ext := (255 <? fragment) || last && (256 <? max_response_data)).
  assert (ext && negb extended_supported = false) as ->.
  { destruct He as [->|[Hs1 Hs2]]; [apply andb_false_r|]. subst ext. destruct (Z.ltb_spec 255 fragment); [lia|].
    destruct (Z.ltb_spec 256 max_response_data); [lia|]. by rewrite andb_false_r. }
  match goal with |- context [cap <? ?x] => destruct (Z.ltb_spec cap x) as [Hx|_] end.
  { destruct ext, last; lia. }
  eexists. split; [reflexivity|].
  assert (zlen (sub_bytes encoded offset fragment) = fragment) as Hz by (apply zlen_sub_bytes; lia).
  match goal with |- envelope_parse (_ ++ _ ++ _ ++ ?le) = _ => set (le_ := le) end.
  replace (if last then 0 else 16) with (if negb last then 0x10 else 0x00) by (by destruct last).
  pose proof (parse_built (negb last) ext (sub_bytes encoded offset fragment) le_) as Hpb. rewrite Hz in Hpb. apply Hpb.
  - subst ext. destruct (Z.ltb_spec 255 fragment); cbn [orb]; [lia|]. destruct (_ && _); lia.
  - subst le_. destruct last; [|done]. by destruct ext.
Qed.

Lemma send_from fuel : forall offset, 0 <= offset < zlen encoded -> zlen encoded - offset <= Z.of_nat fuel ->
  exists apdus, send_envelopes fuel encoded offset max_command_data max_response_data extended_supported cap = Some apdus /\
    reassemble apdus = Some (drop (Z.to_nat offset) encoded) /\
    Z.of_nat (length apdus) = (zlen encoded - offset + max_command_data - 1) / max_command_data.
Proof.
  induction fuel as [|f IH]; intros offset Ho Hf; [lia|]. cbn [send_envelopes].
  destruct (envelope_step offset Ho) as (apdu & -> & Hp). set (fragment := Z.min max_command_data (zlen encoded - offset)) in *.
  destruct (Z.eqb_spec (offset + fragment) (zlen encoded)) as [Hl|Hl].
  - eexists. split; [done|]. split.
    + cbn [reassemble]. rewrite Hp. cbn [mbind option_bind negb]. do 2 f_equal. unfold sub_bytes. apply take_ge.
      rewrite length_drop. unfold zlen in *. lia.
    + apply (Z.div_unique_pos _ _ _ (zlen encoded - offset - 1)); cbn [length]; lia.
  - assert (fragment = max_command_data) as Hfm by lia.
    destruct (IH (offset + fragment) ltac:(lia) ltac:(lia)) as (apdus & -> & Hre & Hn). cbn [mbind option_bind].
    eexists. split; [done|]. split.
    + cbn [reassemble]. rewrite Hp. cbn [mbind option_bind negb]. rewrite Hre. cbn [mbind option_bind]. f_equal.
      unfold sub_bytes. rewrite Z2Nat.inj_add, <- drop_drop by lia. apply take_drop.
    + cbn [length]. rewrite Nat2Z.inj_succ, Hn, Hfm. replace (zlen encoded - offset + max_command_data - 1) with (zlen encoded - (offset + max_command_data) + max_command_data - 1 + 1 * max_command_data) by lia.
      rewrite Z.div_add by lia. lia.
Qed.

End Envelopes.

(** A message sent in ENVELOPE commands, short or extended, arrives whole:
    the sender needs as many commands as there are fragments, every one is well
    formed, only the last is not chained and asks for a response, and the data
    put together are the message. *)
Theorem envelopes_reassemble encoded max_command_data max_response_data extended_supported cap :
  0 < zlen encoded -> 1 <= max_command_data <= 65535 -> 1 <= max_response_data <= 65536 ->
  extended_supported = true \/ max_command_data <= 255 /\ max_response_data <= 256 -> max_command_data + 9 <= cap ->
  exists apdus,
    send_envelopes (length encoded) encoded 0 max_command_data max_response_data extended_supported cap = Some apdus /\
    reassemble apdus = Some encoded /\
    Z.of_nat (length apdus) = (zlen encoded + max_command_data - 1) / max_command_data.
Proof.
  intros Hl Hc Hr He Hcap.
  destruct (send_from encoded max_command_data max_response_data cap extended_supported Hc Hr He Hcap (length encoded) 0
    ltac:(lia) ltac:(unfold zlen; lia)) as (apdus & H1 & H2 & H3). rewrite Z.sub_0_r in H3. by exists apdus.
Qed.

Lemma envelopes_reassemble_witness : exists apdus,
  send_envelopes 5 [1; 2; 3; 4; 5] 0 2 256 false 11 = Some apdus /\ reassemble apdus = Some [1; 2; 3; 4; 5] /\
  Z.of_nat (length apdus) = 3.
Proof. apply (envelopes_reassemble [1; 2; 3; 4; 5] 2 256 false 11); [done|lia|lia|right; lia|lia]. Defined.
