(* ===== verification/Stepup.v ===== *)
(** * The step-up phase

    Models [modules/ultrawidelock_cred/src/ultrawidelock_stepup.c]: SessionData
    over the secure channel, the short ENVELOPE and GET RESPONSE commands, and
    the six steps of the verifier.  A parsed document's slices point into the
    memory it was parsed from, which the verifier's functions are given.  The
    signature check is the callback of the context, null ([None]) or a function
    of the key, the digest and the signature. *)

From Stdlib Require Import ZArith Lia Bool Strings.String.
From stdpp Require Import base list numbers option.
From S2P Require Import Prelude Wire Hash CredCrypto Cbor StepupParse StepupWire StepupParseProps.

Local Open Scope Z_scope.
Local Open Scope uwl_scope.

Record stepup_issuer := { ik_kid : list Z; ik_pub : list Z }.

Record verify_ctx := {
  vc_issuers : list stepup_issuer;
  vc_time_valid : bool;
  vc_now_epoch : Z;
  vc_time_ratchet : bool;
  vc_access_iteration : Z;
  vc_expected_doctype : option (list Z);
  vc_ecdsa_verify_hash : option (list Z -> list Z -> list Z -> bool);
}.

Record stepup_verdict := {
  sv_valid : bool;
  sv_reject_step : Z;
  sv_issuer_key_found : bool;
  sv_issuer_chain_validated : bool;
  sv_sig_ok : bool;
  sv_digests_ok : bool;
  sv_doctype_ok : bool;
  sv_time_ok : bool;
  sv_iteration_ok : bool;
  sv_valid_elements : Z;
  sv_sig_struct_len : Z;
  sv_ratchet_epoch : Z;
  sv_n_digests_dropped : Z;
  sv_n_items_dropped : Z;
  sv_truncated : Z;
}.

Definition verdict_zero : stepup_verdict :=
  {| sv_valid := false; sv_reject_step := 0; sv_issuer_key_found := false; sv_issuer_chain_validated := false;
     sv_sig_ok := false; sv_digests_ok := false; sv_doctype_ok := false; sv_time_ok := false; sv_iteration_ok := false;
     sv_valid_elements := 0; sv_sig_struct_len := 0; sv_ratchet_epoch := 0; sv_n_digests_dropped := 0;
     sv_n_items_dropped := 0; sv_truncated := 0 |}.

(** ** The channel *)

Definition stepup_channel_init (sk_reader sk_device : list Z) : secchan := secchan_init sk_reader sk_device.

Definition stepup_seal_sessiondata `{Gcm} (sc : secchan) (plain : list Z) (cap : Z) : secchan * option (list Z) :=
  if 512 <? zlen plain + GCM_TAG_LEN then (sc, None) else
  match secchan_seal sc [] plain with
  | (sc, None) => (sc, None)
  | (sc, Some (ct, tag)) =>
      (sc, match wrap_sessiondata_raw (ct ++ tag) cap with STEPUP_OK out => Some out | STEPUP_ERR _ => None end)
  end.

Definition stepup_open_sessiondata `{Gcm} (sc : secchan) (sd : list Z) (cap : Z) : secchan * option (list Z) :=
  match unwrap_sessiondata_raw sd with
  | STEPUP_ERR _ => (sc, None)
  | STEPUP_OK blob =>
      if zlen blob <? GCM_TAG_LEN then (sc, None) else
      let ct_len := zlen blob - GCM_TAG_LEN in
      if cap <? ct_len then (sc, None)
      else secchan_open sc [] (sub_bytes blob 0 ct_len) (sub_bytes blob ct_len GCM_TAG_LEN)
  end.

Definition stepup_build_envelope (data : list Z) (chaining : bool) (cap : Z) : option (list Z) :=
  if (zlen data =? 0) || (255 <? zlen data) || (cap <? 5 + zlen data + 1) then None
  else Some ([if chaining then 0x10 else 0x00; INS_ENVELOPE; 0x00; 0x00; u8 (zlen data)] ++ data ++ [0x00]).

Definition stepup_build_get_response (le cap : Z) : option (list Z) :=
  if cap <? 5 then None else Some [0x00; INS_GET_RESPONSE; 0x00; 0x00; le].

(** ** The verifier *)

(** The digest of the Sig_structure and its length, 0 on an error.  The header
    buffer of 24 bytes is used twice. *)
Definition hash_sig_structure (m : memory) (doc : stepup_doc) : list Z * Z :=
  let slice_of s := default no_slice s in
  let prot := slice_of (sd_protected_hdr doc) in
  let pay := slice_of (sd_payload doc) in
  let w := cw_type 0x40 (sl_len prot) (cw_tstr (text "Signature1") (cw_arr 4 (cw_new 24))) in
  let h := sha256_update sha256_init (cw_bytes w) in
  let h := sha256_update h (load m (sl_off prot) (sl_len prot)) in
  let n := zlen (cw_bytes w) + sl_len prot in
  let w := cw_type 0x40 (sl_len pay) (cw_bstr [] (w <| cw_bytes := [] |>)) in
  let h := sha256_update h (cw_bytes w) in
  let h := sha256_update h (load m (sl_off pay) (sl_len pay)) in
  let n := n + zlen (cw_bytes w) + sl_len pay in
  (sha256_final h, if cw_err w then 0 else n).

Definition is_spki_marker (x : list Z) : bool := bool_decide (take 4 x = [0x03; 0x42; 0x00; 0x04]).

(** The scan from where [x5] now begins. *)
Fixpoint spki_scan (x5 : list Z) : option (list Z) :=
  if zlen x5 <? 4 + 64 then None else
  match x5 with
  | [] => None
  | _ :: rest => if is_spki_marker x5 then Some (0x04 :: sub_bytes x5 4 64) else spki_scan rest
  end.

Definition x5chain_ee_pubkey (x5 : list Z) : option (list Z) := spki_scan x5.

Definition load_slice (m : memory) (s : slice) : list Z := load m (sl_off s) (sl_len s).

(** The key, if any, and whether its chain counts as validated. *)
Definition select_issuer (m : memory) (doc : stepup_doc) (ctx : verify_ctx) : option (list Z) * bool :=
  match sd_x5chain doc with
  | Some x5 => (x5chain_ee_pubkey (load_slice m x5), false)
  | None =>
      match sd_kid doc, vc_issuers ctx with
      | Some kid, (_ :: _) as issuers =>
          (ik_pub <$> List.find (fun i => (zlen (ik_kid i) =? sl_len kid) && bool_decide (ik_kid i = load_slice m kid)) issuers,
           true)
      | _, [i] => (Some (ik_pub i), true)
      | _, _ => (None, true)
      end
  end.

Definition find_digest (doc : stepup_doc) (id : Z) : option stepup_digest :=
  List.find (fun g => dg_id g =? id) (sd_digests doc).

Definition ct_bytes_equal (a b : list Z) : bool :=
  fold_left (fun diff ab => Z.lor diff (Z.lxor ab.1 ab.2)) (combine a b) 0 =? 0.

(** The turn of step 3 for one item. *)
Definition item_digest_ok (m : memory) (doc : stepup_doc) (it : stepup_item) : bool :=
  match find_digest doc (it_digest_id it) with
  | None => false
  | Some g => ct_bytes_equal (sha256 (load_slice m (it_tagged it))) (dg_hash g)
  end.

(** The C string of a [char] array. *)
Fixpoint cstr (s : list Z) : list Z :=
  match s with [] => [] | c :: s => if c =? 0 then [] else c :: cstr s end.

Definition doctype_matches (doc : stepup_doc) (ctx : verify_ctx) : bool :=
  negb (byte_at (sd_mso_doc_type doc) 0 =? 0) && bool_decide (cstr (sd_mso_doc_type doc) = cstr (sd_doc_type doc)) &&
  match vc_expected_doctype ctx with None => true | Some e => bool_decide (cstr (sd_doc_type doc) = e) end.

(** Step 5: whether there is a time, which, and the ratchet of the verdict. *)
Definition ratchet_applies (doc : stepup_doc) (ctx : verify_ctx) (sig_ok chain_validated : bool) : bool :=
  vc_time_ratchet ctx && sig_ok && chain_validated && td_have (sd_valid_from doc) && td_have (sd_valid_until doc) &&
  (td_epoch (sd_valid_from doc) <=? td_epoch (sd_valid_until doc)) &&
  (negb (vc_time_valid ctx) || (vc_now_epoch ctx <? td_epoch (sd_valid_from doc))).

Definition time_window (doc : stepup_doc) (have_now : bool) (now : Z) : bool :=
  if have_now
  then td_have (sd_valid_from doc) && td_have (sd_valid_until doc) && (td_epoch (sd_valid_from doc) <=? now) &&
       (now <=? td_epoch (sd_valid_until doc))
  else negb (default false (sd_time_verification_required doc)).

Definition iteration_fresh (doc : stepup_doc) (ctx : verify_ctx) : bool :=
  match sd_iteration doc with
  | Some it => if it <? vc_access_iteration ctx then vc_access_iteration ctx - it <? 8 else true
  | None => true
  end.

Definition stepup_verify (m : memory) (doc : stepup_doc) (ctx : verify_ctx) : stepup_verdict :=
  if negb (sd_have_document doc) || (zlen (sd_items doc) =? 0) then verdict_zero else
  let '(issuer, chain_validated) := select_issuer m doc ctx in
  let '(sig_struct_len, sig_ok) :=
    match issuer, vc_ecdsa_verify_hash ctx, sd_signature doc with
    | Some pub, Some ecdsa, Some sig =>
        let '(digest, n) := hash_sig_structure m doc in (n, (0 <? n) && ecdsa pub digest (load_slice m sig))
    | _, _, _ => (0, false)
    end in
  let valid_elements := zlen (filter (fun it => item_digest_ok m doc it = true) (sd_items doc)) in
  let digests_ok := 0 <? valid_elements in
  let doctype_ok := doctype_matches doc ctx in
  let ratchet := ratchet_applies doc ctx sig_ok chain_validated in
  let now := if ratchet then td_epoch (sd_valid_from doc) else vc_now_epoch ctx in
  let time_ok := time_window doc (vc_time_valid ctx || ratchet) now in
  let iteration_ok := iteration_fresh doc ctx in
  let found := bool_decide (is_Some issuer) in
  {| sv_valid := found && sig_ok && digests_ok && doctype_ok && time_ok && iteration_ok && (0 <? valid_elements);
     sv_reject_step := if negb found then 1 else if negb sig_ok then 2 else if negb digests_ok then 3
                       else if negb doctype_ok then 4 else if negb time_ok then 5 else if negb iteration_ok then 6 else 0;
     sv_issuer_key_found := found;
     sv_issuer_chain_validated := chain_validated;
     sv_sig_ok := sig_ok;
     sv_digests_ok := digests_ok;
     sv_doctype_ok := doctype_ok;
     sv_time_ok := time_ok;
     sv_iteration_ok := iteration_ok;
     sv_valid_elements := valid_elements;
     sv_sig_struct_len := sig_struct_len;
     sv_ratchet_epoch := if ratchet then now else 0;
     sv_n_digests_dropped := sd_n_digests_dropped doc;
     sv_n_items_dropped := sd_n_items_dropped doc;
     sv_truncated := sd_truncated doc |}.

(** The channel, the verdict, the plaintext the document points into, and the
    document when there is one. *)
Definition stepup_run `{Gcm, stepup_cfg} (sc : secchan) (sd_resp : list Z) (ctx : verify_ctx) (scratch_cap : Z) :
    secchan * stepup_verdict * option (list Z * stepup_doc) :=
  match stepup_open_sessiondata sc sd_resp scratch_cap with
  | (sc, None) => (sc, verdict_zero, None)
  | (sc, Some plain) =>
      match parse_response (zlen plain) (mem_of plain) with
      | Ok doc _ => (sc, stepup_verify (mem_of plain) doc ctx, Some (plain, doc))
      | _ => (sc, verdict_zero, None)
      end
  end.

(** * What a step-up verdict means

    The verifier of [Stepup] against the six steps of the specification, stated
    on the bytes: which key, over which message, which digests, which text,
    which time, which iteration.  Then the whole run, from the envelope to the
    verdict, and what a document with two IssuerAuth entries gets away with. *)

Local Open Scope Z_scope.
Local Open Scope uwl_scope.

(** ** The signed message *)

(** [Sig_structure = ["Signature1", protected, external_aad, payload]] *)
Definition sig_structure (protected payload : list Z) : list Z :=
  enc_head 4 4 ++ enc_tstr (text "Signature1") ++ enc_bstr protected ++ enc_bstr [] ++ enc_bstr payload.

Lemma cw_raw_ok b w : cw_err w = false -> zlen (cw_bytes w) + zlen b <= cw_cap w ->
  cw_raw b w = w <| cw_bytes := cw_bytes w ++ b |>.
Proof. intros He Hr. unfold cw_raw. rewrite He. destruct (Z.ltb_spec (cw_cap w - zlen (cw_bytes w)) (zlen b)); [lia|done]. Qed.

Lemma enc_head_len mt arg : 1 <= zlen (enc_head mt arg) <= 5.
Proof. unfold enc_head. repeat case_match; rewrite ?zlen_cons, ?zlen_put_be; change (zlen []) with 0; lia. Qed.

Definition bytes_at (m : memory) (o : option slice) : list Z := load_slice m (default no_slice o).

Lemma hash_sig_exact m doc lo hi : hi - lo < 2 ^ 32 ->
  opt_ok (inside lo hi) (sd_protected_hdr doc) -> opt_ok (inside lo hi) (sd_payload doc) ->
  hash_sig_structure m doc =
    (sha256_spec (sig_structure (bytes_at m (sd_protected_hdr doc)) (bytes_at m (sd_payload doc))),
     zlen (sig_structure (bytes_at m (sd_protected_hdr doc)) (bytes_at m (sd_payload doc)))).
Proof.
  intros Hlen Hprot Hpay. unfold hash_sig_structure, bytes_at.
  assert (forall o, opt_ok (inside lo hi) o -> 0 <= sl_len (default no_slice o) < 2 ^ 32) as Hsl.
  { intros [s|] Ho; [|done]. destruct (Ho s eq_refl) as (? & ? & ?). cbn. lia. }
  pose proof (Hsl _ Hprot) as Lp. pose proof (Hsl _ Hpay) as Ly. clear Hsl Hprot Hpay.
  set (p := default no_slice (sd_protected_hdr doc)) in *. set (y := default no_slice (sd_payload doc)) in *.
  assert (cw_type 64 (sl_len p) (cw_tstr (text "Signature1") (cw_arr 4 (cw_new 24))) =
    {| cw_bytes := enc_head 4 4 ++ enc_tstr (text "Signature1") ++ enc_head 2 (sl_len p); cw_cap := 24; cw_err := false |}) as ->.
  { change (cw_tstr (text "Signature1") (cw_arr 4 (cw_new 24)))
      with {| cw_bytes := enc_head 4 4 ++ enc_tstr (text "Signature1"); cw_cap := 24; cw_err := false |}.
    unfold cw_type. rewrite (type_octets_head 2) by lia. pose proof (enc_head_len 2 (sl_len p)).
    rewrite cw_raw_ok; [|done|].
    { apply (f_equal (fun b => {| cw_bytes := b; cw_cap := 24; cw_err := false |})). symmetry. apply app_assoc. } cbn [cw_bytes cw_cap].
    change (zlen (enc_head 4 4 ++ enc_tstr (text "Signature1"))) with 12. lia. }
  set (w0 := _ <| cw_bytes := [] |>).
  assert (cw_type 64 (sl_len y) (cw_bstr [] w0) =
    {| cw_bytes := enc_bstr [] ++ enc_head 2 (sl_len y); cw_cap := 24; cw_err := false |}) as ->.
  { change (cw_bstr [] w0) with {| cw_bytes := enc_bstr []; cw_cap := 24; cw_err := false |}.
    unfold cw_type. rewrite (type_octets_head 2) by lia. pose proof (enc_head_len 2 (sl_len y)).
    rewrite cw_raw_ok; [done|done|]. cbn [cw_bytes cw_cap]. change (zlen (enc_bstr [])) with 1. lia. }
  cbn [cw_bytes cw_err].
  assert (zlen (load_slice m p) = sl_len p) as Zp by (apply zlen_load; lia).
  assert (zlen (load_slice m y) = sl_len y) as Zy by (apply zlen_load; lia).
  f_equal.
  - pose proof (pieces_exact [enc_head 4 4 ++ enc_tstr (text "Signature1") ++ enc_head 2 (sl_len p); load_slice m p;
      enc_bstr [] ++ enc_head 2 (sl_len y); load_slice m y]) as H. cbn [fold_left concat] in H.
    etransitivity; [exact H|]. f_equal. unfold sig_structure, enc_bstr at 2 4. rewrite Zp, Zy. by rewrite app_nil_r, <- !app_assoc.
  - unfold sig_structure, enc_bstr. rewrite Zp, Zy, !zlen_app, Zp, Zy. lia.
Qed.

(** ** The issuer's key *)

(** The first element of a list with a property. *)
Definition first_with {A} (P : A -> Prop) (l : list A) (x : A) : Prop :=
  exists l1 l2, l = l1 ++ x :: l2 /\ P x /\ Forall (fun y => ~ P y) l1.

Lemma find_first_with {A} (f : A -> bool) l x : List.find f l = Some x <-> first_with (fun y => f y = true) l x.
Proof.
  induction l as [|y l IH]; cbn [List.find].
  - split; [done|]. intros (l1 & l2 & E & _). by destruct l1.
  - destruct (f y) eqn:Ey.
    + split.
      * intros [= <-]. exists [], l. by split_and!.
      * intros (l1 & l2 & E & Hx & Hl). destruct l1 as [|z l1]; [by injection E as -> _|].
        injection E as -> _. by apply list.Forall_cons in Hl as [? _].
    + rewrite IH. split.
      * intros (l1 & l2 & -> & Hx & Hl). exists (y :: l1), l2. split_and!; [done|done|]. constructor; [by rewrite Ey|done].
      * intros (l1 & l2 & E & Hx & Hl). destruct l1 as [|z l1]; [injection E as -> _; by rewrite Ey in Hx|].
        injection E as -> ->. apply list.Forall_cons in Hl as [_ Hl]. by exists l1, l2.
Qed.

Lemma first_with_iff {A} (P Q : A -> Prop) l x : (forall y, P y <-> Q y) -> first_with P l x <-> first_with Q l x.
Proof.
  intros H. unfold first_with. split; intros (l1 & l2 & E & Hx & Hl); exists l1, l2; (split_and!; [done|by apply H|]);
    (eapply list.Forall_impl; [exact Hl|]; intros y Hy; by rewrite H || by rewrite <- H).
Qed.

Definition spki_marker : list Z := [0x03; 0x42; 0x00; 0x04].

(** The public key behind the first marker of a certificate chain. *)
Definition marked_key (x pub : list Z) : Prop :=
  exists a b, x = a ++ spki_marker ++ b /\ 64 <= zlen b /\ pub = 0x04 :: take 64 b /\
    forall a' b', x = a' ++ spki_marker ++ b' -> zlen a <= zlen a'.

Lemma marker_head x : is_spki_marker x = true <-> exists b, x = spki_marker ++ b.
Proof.
  unfold is_spki_marker. rewrite bool_decide_eq_true. split.
  - intros H. exists (drop 4 x). unfold spki_marker. rewrite <- H. symmetry. apply take_drop.
  - by intros [b ->].
Qed.

Lemma spki_scan_exact x pub : spki_scan x = Some pub <-> marked_key x pub.
Proof.
  revert pub. induction x as [|c x IH]; intros pub.
  { split; [done|]. intros (a & b & E & _). by destruct a. }
  cbn [spki_scan]. destruct (Z.ltb_spec (zlen (c :: x)) (4 + 64)) as [Hs|Hs].
  { split; [done|]. intros (a & b & E & Hb & _). rewrite E, !zlen_app in Hs. change (zlen spki_marker) with 4 in Hs.
    pose proof (zlen_nonneg a). lia. }
  destruct (is_spki_marker (c :: x)) eqn:Em.
  - apply marker_head in Em as [b Eb]. rewrite Eb in Hs |- *. rewrite zlen_app in Hs. change (zlen spki_marker) with 4 in Hs.
    change (sub_bytes (spki_marker ++ b) 4 64) with (take 64 b). split.
    + intros [= <-]. exists [], b. split_and!; [done|lia|done|]. intros. apply zlen_nonneg.
    + intros (a & b' & E & _ & -> & Hmin). specialize (Hmin [] b eq_refl). change (zlen []) with 0 in Hmin.
      destruct a as [|z a]; [|rewrite zlen_cons in Hmin; pose proof (zlen_nonneg a); lia].
      cbn [app] in E. by apply app_inv_head in E as ->.
  - assert (forall b, c :: x <> spki_marker ++ b) as Hno.
    { intros b E. assert (is_spki_marker (c :: x) = true) as H by (apply marker_head; by exists b). by rewrite Em in H. }
    rewrite IH. split.
    + intros (a & b & -> & Hb & -> & Hmin). exists (c :: a), b. split_and!; [done|done|done|]. intros a' b' E.
      destruct a' as [|z a']; [by apply Hno in E|]. injection E as _ E. specialize (Hmin a' b' E). rewrite !zlen_cons. lia.
    + intros (a & b & E & Hb & -> & Hmin). destruct a as [|z a]; [by apply Hno in E|]. injection E as -> ->.
      exists a, b. split_and!; [done|done|done|]. intros a' b' E. rewrite E in Hmin.
      specialize (Hmin (z :: a') b' eq_refl). rewrite !zlen_cons in Hmin. lia.
Qed.

(** Step 1: the key of the document's own chain, unvalidated; or of the first
    provisioned issuer its key identifier names; or, when it names none, of the
    only issuer there is. *)
Inductive issuer_key (m : memory) (doc : stepup_doc) (ctx : verify_ctx) : list Z -> Prop :=
  | KeyChain x5 pub : sd_x5chain doc = Some x5 -> marked_key (load_slice m x5) pub -> issuer_key m doc ctx pub
  | KeyKid kid i : sd_x5chain doc = None -> sd_kid doc = Some kid ->
      first_with (fun i => ik_kid i = load_slice m kid) (vc_issuers ctx) i -> issuer_key m doc ctx (ik_pub i)
  | KeyOnly i : sd_x5chain doc = None -> sd_kid doc = None -> vc_issuers ctx = [i] -> issuer_key m doc ctx (ik_pub i).

Lemma select_issuer_exact m doc ctx pub : opt_ok (fun s => 0 <= sl_len s) (sd_kid doc) ->
  (select_issuer m doc ctx).1 = Some pub <-> issuer_key m doc ctx pub.
Proof.
  intros Hk. unfold select_issuer. destruct (sd_x5chain doc) as [x5|] eqn:Ex; cbn [fst].
  { unfold x5chain_ee_pubkey. rewrite spki_scan_exact. split; [by apply KeyChain|]. intros H; inversion H; congruence. }
  destruct (sd_kid doc) as [kid|] eqn:Ek.
  - assert (forall l, (ik_pub <$> List.find (fun i => (zlen (ik_kid i) =? sl_len kid) && bool_decide (ik_kid i = load_slice m kid)) l) = Some pub
      <-> exists i, first_with (fun i => ik_kid i = load_slice m kid) l i /\ ik_pub i = pub) as Hf.
    { intros l. rewrite fmap_Some. split.
      - intros (i & Hi & ->). exists i. split; [|done]. apply find_first_with in Hi. eapply first_with_iff; [|exact Hi].
        intros y. rewrite andb_true_iff, bool_decide_eq_true. split; [|by intros [_ ?]]. intros ->. split; [|done].
        apply Z.eqb_eq, zlen_load. by apply (Hk kid).
      - intros (i & Hi & <-). exists i. split; [|done]. apply find_first_with. eapply first_with_iff; [|exact Hi].
        intros y. rewrite andb_true_iff, bool_decide_eq_true. split; [by intros [_ ?]|]. intros ->. split; [|done].
        apply Z.eqb_eq, zlen_load. by apply (Hk kid). }
    assert ((match vc_issuers ctx with
             | _ :: _ => (ik_pub <$> List.find (fun i => (zlen (ik_kid i) =? sl_len kid) && bool_decide (ik_kid i = load_slice m kid)) (vc_issuers ctx), true)
             | _ => (None, true) end).1 = Some pub <-> exists i, first_with (fun i => ik_kid i = load_slice m kid) (vc_issuers ctx) i /\ ik_pub i = pub) as Hm.
    { rewrite <- Hf. by destruct (vc_issuers ctx). }
    destruct (vc_issuers ctx) as [|i0 l] eqn:Ei.
    + rewrite Hm. split; [intros (i & (l1 & l2 & E & _) & _); by destruct l1|].
      intros H; inversion H as [|? ? _ ? Hw|]; [congruence| |congruence]. rewrite Ei in Hw.
      destruct Hw as (l1 & l2 & E & _). by destruct l1.
    + cbn [fst] in *. rewrite Hm. split.
      * intros (i & Hi & <-). apply (KeyKid _ _ _ kid); [done|done|by rewrite Ei].
      * intros H; inversion H as [|kid' i _ Ek' Hw|]; [congruence| |congruence]. rewrite Ek in Ek'. injection Ek' as <-.
        exists i. split; [by rewrite <- Ei|done].
  - destruct (vc_issuers ctx) as [|i [|j l]] eqn:Ei; cbn [fst].
    + split; [done|]. intros H; inversion H; congruence.
    + split; [intros [= <-]; by apply KeyOnly|]. intros H; inversion H; congruence.
    + split; [done|]. intros H; inversion H; congruence.
Qed.

(** ** The other steps *)

Section Steps.
Context (m : memory) (doc : stepup_doc) (ctx : verify_ctx).

Definition step_key : Prop := exists pub, issuer_key m doc ctx pub.

(** The signature over the header and the payload verifies under the key. *)
Definition step_signature : Prop :=
  exists pub ecdsa sig, issuer_key m doc ctx pub /\ vc_ecdsa_verify_hash ctx = Some ecdsa /\ sd_signature doc = Some sig /\
    ecdsa pub (sha256_spec (sig_structure (bytes_at m (sd_protected_hdr doc)) (bytes_at m (sd_payload doc)))) (load_slice m sig) = true.

(** At least one disclosed item has the digest listed under its number. *)
Definition step_digest : Prop :=
  exists it g, it ∈ sd_items doc /\ first_with (fun g => dg_id g = it_digest_id it) (sd_digests doc) g /\
    dg_hash g = sha256_spec (load_slice m (it_tagged it)).

Definition step_doctype : Prop :=
  cstr (sd_mso_doc_type doc) <> [] /\ cstr (sd_mso_doc_type doc) = cstr (sd_doc_type doc) /\
  forall e, vc_expected_doctype ctx = Some e -> cstr (sd_doc_type doc) = e.

Definition window : Prop := td_have (sd_valid_from doc) = true /\ td_have (sd_valid_until doc) = true.

(** A document signed under a provisioned key brings the time with it. *)
Definition brings_time : Prop :=
  vc_time_ratchet ctx = true /\ step_signature /\ sd_x5chain doc = None /\ window /\
  td_epoch (sd_valid_from doc) <= td_epoch (sd_valid_until doc) /\
  (vc_time_valid ctx = true -> vc_now_epoch ctx < td_epoch (sd_valid_from doc)).

Definition step_time : Prop :=
  brings_time \/
  (vc_time_valid ctx = true /\ window /\ td_epoch (sd_valid_from doc) <= vc_now_epoch ctx <= td_epoch (sd_valid_until doc)) \/
  (~ brings_time /\ vc_time_valid ctx = false /\ sd_time_verification_required doc <> Some true).

Definition step_iteration : Prop := forall it, sd_iteration doc = Some it -> vc_access_iteration ctx - it < 8.

Definition step (n : Z) : Prop :=
  match n with
  | 1 => step_key | 2 => step_signature | 3 => step_digest | 4 => step_doctype | 5 => step_time | 6 => step_iteration
  | _ => True
  end.

End Steps.

Lemma ct_equal_exact a b : length a = length b -> Forall byte_ok a -> Forall byte_ok b -> ct_bytes_equal a b = true <-> a = b.
Proof.
  intros Hl Ha Hb. unfold ct_bytes_equal.
  assert (forall acc, 0 <= acc -> (fold_left (fun diff ab => Z.lor diff (Z.lxor ab.1 ab.2)) (combine a b) acc =? 0) = true <-> acc = 0 /\ a = b) as H.
  { revert b Hl Hb. induction a as [|x a IH]; intros [|y b] Hl Hb acc Hacc; try done; cbn [combine fold_left].
    - split; [intros E; split; [lia|done]|]. intros [-> _]. done.
    - apply list.Forall_cons in Ha as [Hx Ha]. apply list.Forall_cons in Hb as [Hy Hb]. injection Hl as Hl. unfold byte_ok in *.
      cbn [fst snd]. assert (0 <= Z.lxor x y) by (apply Z.lxor_nonneg; lia).
      rewrite (IH Ha b Hl Hb) by (apply Z.lor_nonneg; lia). rewrite Z.lor_eq_0_iff. split.
      + intros [[-> Hxy] ->]. by apply Z.lxor_eq in Hxy as ->.
      + intros [-> [= -> ->]]. by rewrite Z.lxor_nilpotent. }
  rewrite H by lia. tauto.
Qed.

Section Verdict.
Context `{stepup_cfg} (m : memory) (doc : stepup_doc) (ctx : verify_ctx) (len : Z).
Context (Hm : forall a, byte_ok (m a)) (Hdoc : doc_ok 0 len doc) (Hlen : 0 <= len < 2 ^ 32).

Lemma kid_len : opt_ok (fun s => 0 <= sl_len s) (sd_kid doc).
Proof. intros s Hs. by destruct (dok_kid _ _ _ Hdoc s Hs) as (_ & ? & _). Qed.

Lemma item_digest_exact it : item_digest_ok m doc it = true <-> exists g,
  first_with (fun g => dg_id g = it_digest_id it) (sd_digests doc) g /\ dg_hash g = sha256_spec (load_slice m (it_tagged it)).
Proof.
  unfold item_digest_ok, find_digest. destruct (dok_digests _ _ _ Hdoc) as [_ Hd]. rewrite list.Forall_forall in Hd.
  assert (forall g, List.find (fun g => dg_id g =? it_digest_id it) (sd_digests doc) = Some g <->
    first_with (fun g => dg_id g = it_digest_id it) (sd_digests doc) g) as Hf.
  { intros g. rewrite find_first_with. apply first_with_iff. intros y. apply Z.eqb_eq. }
  destruct (List.find _ _) as [g|].
  - pose proof (proj1 (Hf g) eq_refl) as E. rewrite sha256_exact. destruct (Hd g) as (_ & Hgl & Hgb).
    { destruct E as (l1 & l2 & -> & _). rewrite elem_of_app, elem_of_cons. by right; left. }
    rewrite ct_equal_exact; [|rewrite sha256_len; unfold zlen in Hgl; lia|apply sha256_bytes|done]. split.
    + intros Hh. by exists g.
    + intros (g' & Hg' & Hh). apply Hf in Hg'. by injection Hg' as <-.
  - split; [done|]. intros (g & Hg & _). by apply Hf in Hg.
Qed.

Lemma digests_exact :
  (0 <? zlen (filter (fun it => item_digest_ok m doc it = true) (sd_items doc))) = true <-> step_digest m doc.
Proof.
  rewrite Z.ltb_lt. unfold step_digest. split.
  - intros Hz. destruct (filter _ (sd_items doc)) as [|it l] eqn:E; [done|].
    assert (it ∈ filter (fun it => item_digest_ok m doc it = true) (sd_items doc)) as Hin by (rewrite E; by left).
    apply list_elem_of_filter in Hin as [Hok Hin]. apply item_digest_exact in Hok as (g & Hg). by exists it, g.
  - intros (it & g & Hin & Hg). assert (it ∈ filter (fun it => item_digest_ok m doc it = true) (sd_items doc)) as Hf.
    { apply list_elem_of_filter. split; [|done]. apply item_digest_exact. by exists g. }
    destruct (filter _ _) as [|x l]; [by apply not_elem_of_nil in Hf|]. rewrite zlen_cons. pose proof (zlen_nonneg l). lia.
Qed.

Lemma cstr_nonempty s : negb (byte_at s 0 =? 0) = true <-> cstr s <> [].
Proof. destruct s as [|c s]; [done|]. change (byte_at (c :: s) 0) with c. cbn [cstr]. by destruct (c =? 0). Qed.

Lemma doctype_exact : doctype_matches doc ctx = true <-> step_doctype doc ctx.
Proof.
  unfold doctype_matches, step_doctype. rewrite !andb_true_iff, cstr_nonempty, bool_decide_eq_true.
  destruct (vc_expected_doctype ctx) as [e|].
  - rewrite bool_decide_eq_true. split; [intros [[? ?] ?]; split_and!; [done|done|]; by intros ? [= <-]|].
    intros (? & ? & He). split; [done|]. by apply He.
  - split; [by intros [[? ?] _]|]. by intros (? & ? & _).
Qed.

Lemma iteration_exact : iteration_fresh doc ctx = true <-> step_iteration doc ctx.
Proof.
  unfold iteration_fresh, step_iteration. destruct (sd_iteration doc) as [it|]; [|done].
  destruct (Z.ltb_spec it (vc_access_iteration ctx)) as [Hl|Hl].
  - rewrite Z.ltb_lt. split; [by intros ? ? [= <-]|]. intros Hi. by apply Hi.
  - split; [|done]. intros _ ? [= <-]. lia.
Qed.

Lemma key_exact : bool_decide (is_Some (select_issuer m doc ctx).1) = true <-> step_key m doc ctx.
Proof.
  rewrite bool_decide_eq_true. unfold step_key, is_Some. split; intros [pub Hp]; exists pub; by apply select_issuer_exact; [apply kid_len|].
Qed.

Lemma chain_flag : (select_issuer m doc ctx).2 = true <-> sd_x5chain doc = None.
Proof. unfold select_issuer. destruct (sd_x5chain doc); [done|]. destruct (sd_kid doc), (vc_issuers ctx) as [|? [|? ?]]; done. Qed.

(** The second component of step 2. *)
Definition sig_flag (issuer : option (list Z)) : bool :=
  match issuer, vc_ecdsa_verify_hash ctx, sd_signature doc with
  | Some pub, Some ecdsa, Some sig =>
      let '(digest, n) := hash_sig_structure m doc in (0 <? n) && ecdsa pub digest (load_slice m sig)
  | _, _, _ => false
  end.

Lemma signature_exact : sig_flag (select_issuer m doc ctx).1 = true <-> step_signature m doc ctx.
Proof.
  unfold sig_flag, step_signature. rewrite (hash_sig_exact m doc 0 len); [|lia|apply (dok_protected _ _ _ Hdoc)|apply (dok_payload _ _ _ Hdoc)].
  set (sg := sig_structure _ _). assert ((0 <? zlen sg) = true) as Hpos.
  { apply Z.ltb_lt. subst sg. unfold sig_structure. rewrite zlen_app. pose proof (enc_head_len 4 4). pose proof (zlen_nonneg (enc_tstr (text "Signature1") ++ enc_bstr (bytes_at m (sd_protected_hdr doc)) ++ enc_bstr [] ++ enc_bstr (bytes_at m (sd_payload doc)))). lia. }
  rewrite Hpos. cbn [andb]. pose proof (select_issuer_exact m doc ctx) as Hs. split.
  - destruct (select_issuer m doc ctx).1 as [pub|]; [|done]. destruct (vc_ecdsa_verify_hash ctx) as [ecdsa|]; [|done].
    destruct (sd_signature doc) as [sig|]; [|done]. intros Hv. exists pub, ecdsa, sig. split_and!; [|done..].
    by apply Hs; [apply kid_len|].
  - intros (pub & ecdsa & sig & Hk & -> & -> & Hv). apply Hs in Hk; [|apply kid_len]. by rewrite Hk.
Qed.

Lemma ratchet_exact sig : (sig = true <-> step_signature m doc ctx) ->
  ratchet_applies doc ctx sig (select_issuer m doc ctx).2 = true <-> brings_time m doc ctx.
Proof.
  intros Hs. unfold ratchet_applies, brings_time, window. rewrite !andb_true_iff, orb_true_iff, negb_true_iff, Z.leb_le, Z.ltb_lt, chain_flag, Hs.
  split.
  - intros ((((((H1 & H2) & H3) & H4) & H5) & H6) & H7). split_and!; try done. intros Ht. destruct H7 as [H7|H7]; [by rewrite Ht in H7|done].
  - intros (H1 & H2 & H3 & [H4 H5] & H6 & H7). split_and!; try done. destruct (vc_time_valid ctx); [right; by apply H7|by left].
Qed.

Lemma time_exact sig : (sig = true <-> step_signature m doc ctx) ->
  let ratchet := ratchet_applies doc ctx sig (select_issuer m doc ctx).2 in
  time_window doc (vc_time_valid ctx || ratchet) (if ratchet then td_epoch (sd_valid_from doc) else vc_now_epoch ctx) = true
  <-> step_time m doc ctx.
Proof.
  intros Hs ratchet. pose proof (ratchet_exact sig Hs) as Hr. fold ratchet in Hr. unfold step_time, time_window.
  destruct ratchet.
  - assert (brings_time m doc ctx) as Hb by (by apply Hr). rewrite orb_true_r. split; [by left|]. intros _.
    destruct Hb as (_ & _ & _ & [-> ->] & Hle & _). cbn [andb]. apply andb_true_iff. split; apply Z.leb_le; lia.
  - assert (~ brings_time m doc ctx) as Hb by (intros H1; by apply Hr in H1). rewrite orb_false_r. unfold window.
    destruct (vc_time_valid ctx).
    + rewrite !andb_true_iff, !Z.leb_le. split; [intros [[[H1 H2] H3] H4]; right; left; by split_and!|].
      intros [Hx|[(_ & [H1 H2] & H3 & H4)|(_ & Hx & _)]]; [done|by split_and!|done].
    + destruct (sd_time_verification_required doc) as [[]|]; cbn [default negb].
      * split; [done|]. by intros [Hx|[(Hx & _)|(_ & _ & Hx)]].
      * split; [|done]. intros _. by right; right.
      * split; [|done]. intros _. by right; right.
Qed.

Lemma verdict_flags : sd_have_document doc = true -> sd_items doc <> [] ->
  let v := stepup_verify m doc ctx in
  (sv_issuer_key_found v = true <-> step m doc ctx 1) /\ (sv_sig_ok v = true <-> step m doc ctx 2) /\
  (sv_digests_ok v = true <-> step m doc ctx 3) /\ (sv_doctype_ok v = true <-> step m doc ctx 4) /\
  (sv_time_ok v = true <-> step m doc ctx 5) /\ (sv_iteration_ok v = true <-> step m doc ctx 6) /\
  sv_valid v = sv_issuer_key_found v && sv_sig_ok v && sv_digests_ok v && sv_doctype_ok v && sv_time_ok v && sv_iteration_ok v /\
  sv_reject_step v = if negb (sv_issuer_key_found v) then 1 else if negb (sv_sig_ok v) then 2 else if negb (sv_digests_ok v) then 3
                     else if negb (sv_doctype_ok v) then 4 else if negb (sv_time_ok v) then 5 else if negb (sv_iteration_ok v) then 6 else 0.
Proof.
  intros Hd Hi. pose proof key_exact as H1. pose proof signature_exact as H2. pose proof digests_exact as H3.
  pose proof doctype_exact as H4. pose proof (time_exact (sig_flag (select_issuer m doc ctx).1) signature_exact) as H5.
  pose proof iteration_exact as H6. unfold stepup_verify. rewrite Hd. cbn [negb orb].
  destruct (Z.eqb_spec (zlen (sd_items doc)) 0) as [Hz|_].
  { destruct (sd_items doc); [done|]. rewrite zlen_cons in Hz. pose proof (zlen_nonneg l). lia. }
  destruct (select_issuer m doc ctx) as [issuer chain]. cbn [fst snd] in *.
  assert ((let '(sig_struct_len, sig_ok) :=
    match issuer, vc_ecdsa_verify_hash ctx, sd_signature doc with
    | Some pub, Some ecdsa, Some sig =>
        let '(digest, n) := hash_sig_structure m doc in (n, (0 <? n) && ecdsa pub digest (load_slice m sig))
    | _, _, _ => (0, false)
    end in sig_ok) = sig_flag issuer) as Hsig.
  { unfold sig_flag. destruct issuer; [|done]. destruct (vc_ecdsa_verify_hash ctx); [|done]. destruct (sd_signature doc); [|done].
    by destruct (hash_sig_structure m doc). }
  destruct (match issuer with Some _ => _ | None => _ end) as [sl sg]. cbn beta iota in Hsig. subst sg.
  cbn [sv_issuer_key_found sv_sig_ok sv_digests_ok sv_doctype_ok sv_time_ok sv_iteration_ok sv_valid sv_reject_step step].
  split_and!; try done. set (e := 0 <? zlen _). destruct e; [by rewrite andb_true_r|]. by rewrite !andb_false_r.
Qed.

End Verdict.

(** Six flags for six steps, and the first that is down. *)
Lemma first_failure (P : Z -> Prop) b1 b2 b3 b4 b5 b6 :
  (b1 = true <-> P 1) -> (b2 = true <-> P 2) -> (b3 = true <-> P 3) -> (b4 = true <-> P 4) -> (b5 = true <-> P 5) -> (b6 = true <-> P 6) ->
  (b1 && b2 && b3 && b4 && b5 && b6 = true <-> forall n, 1 <= n <= 6 -> P n) /\
  forall n, 1 <= n <= 6 ->
    ((if negb b1 then 1 else if negb b2 then 2 else if negb b3 then 3 else if negb b4 then 4 else if negb b5 then 5
      else if negb b6 then 6 else 0) = n <-> ~ P n /\ forall k, 1 <= k < n -> P k).
Proof.
  intros H1 H2 H3 H4 H5 H6.
  set (f := fun n => match n with 1 => b1 | 2 => b2 | 3 => b3 | 4 => b4 | 5 => b5 | _ => b6 end).
  assert (forall n, 1 <= n <= 6 -> f n = true <-> P n) as Hf.
  { intros n Hn. assert (n = 1 \/ n = 2 \/ n = 3 \/ n = 4 \/ n = 5 \/ n = 6) as Hc by lia.
    by destruct Hc as [->|[->|[->|[->|[->| ->]]]]]. }
  split.
  - rewrite !andb_true_iff. split; [|intros Hp; repeat split; [apply H1|apply H2|apply H3|apply H4|apply H5|apply H6]; apply Hp; lia].
    intros (((((E1 & E2) & E3) & E4) & E5) & E6) n Hn. apply Hf; [done|]. subst f. cbn. repeat case_match; done.
  - intros n Hn. set (r := if negb b1 then 1 else _).
    assert (r = n -> f n = false /\ forall k, 1 <= k < n -> f k = true) as Hr.
    { subst r f. cbn beta. intros <-. destruct b1, b2, b3, b4, b5, b6; cbn; cbn in Hn; (split; [done || lia|]);
        intros k Hk; assert (k = 1 \/ k = 2 \/ k = 3 \/ k = 4 \/ k = 5) as Hc by lia;
        destruct Hc as [->|[->|[->|[->| ->]]]]; first [done|lia]. }
    split.
    + intros E. destruct (Hr E) as [Hn0 Hk]. split; [intros Hp; apply Hf in Hp; [congruence|done]|].
      intros k Hk'. apply Hf; [lia|]. by apply Hk.
    + intros [Hn0 Hk]. destruct (f n) eqn:En; [exfalso; apply Hn0; by apply Hf|].
      assert (forall k, 1 <= k < n -> f k = true) as Hk' by (intros k Hk'; apply Hf; [lia|]; by apply Hk).
      assert (n = 1 \/ n = 2 \/ n = 3 \/ n = 4 \/ n = 5 \/ n = 6) as Hc by lia.
      pose proof (fun H => Hk' 1 H) as K1. pose proof (fun H => Hk' 2 H) as K2. pose proof (fun H => Hk' 3 H) as K3.
      pose proof (fun H => Hk' 4 H) as K4. pose proof (fun H => Hk' 5 H) as K5. unfold f in K1, K2, K3, K4, K5, En. subst r.
      destruct Hc as [->|[->|[->|[->|[->| ->]]]]]; rewrite ?K1, ?K2, ?K3, ?K4, ?K5, En by lia; done.
Qed.

Lemma verdict_cases `{stepup_cfg} m doc ctx len :
  (forall a, byte_ok (m a)) -> doc_ok 0 len doc -> 0 <= len < 2 ^ 32 ->
  let v := stepup_verify m doc ctx in
  (sv_valid v = true <->
     sd_have_document doc = true /\ sd_items doc <> [] /\ forall n, 1 <= n <= 6 -> step m doc ctx n) /\
  (sd_have_document doc = true -> sd_items doc <> [] -> forall n, 1 <= n <= 6 ->
     (sv_reject_step v = n <-> ~ step m doc ctx n /\ forall k, 1 <= k < n -> step m doc ctx k)).
Proof.
  intros Hm Hdoc Hlen v.
  destruct (decide (sd_have_document doc = true /\ sd_items doc <> [])) as [[Hd Hi]|Hno].
  - pose proof (verdict_flags m doc ctx len Hdoc Hlen Hd Hi) as (H1 & H2 & H3 & H4 & H5 & H6 & H7 & H8). fold v in H1, H2, H3, H4, H5, H6, H7, H8. rewrite H7, H8.
    destruct (first_failure (step m doc ctx) _ _ _ _ _ _ H1 H2 H3 H4 H5 H6) as [Ha Hb]. split; [|by intros _ _]. rewrite Ha. tauto.
  - assert (v = verdict_zero) as ->.
    { subst v. unfold stepup_verify. destruct (sd_have_document doc); [|done]. cbn [negb orb].
      destruct (sd_items doc); [done|]. exfalso. by apply Hno. }
    split; [split; [done|tauto]|tauto].
Qed.

Lemma verdict_valid `{stepup_cfg} m doc ctx len :
  (forall a, byte_ok (m a)) -> doc_ok 0 len doc -> 0 <= len < 2 ^ 32 ->
  sv_valid (stepup_verify m doc ctx) = true <->
  sd_have_document doc = true /\ sd_items doc <> [] /\ forall n, 1 <= n <= 6 -> step m doc ctx n.
Proof. intros Hm Hd Hl. apply (verdict_cases m doc ctx len Hm Hd Hl). Qed.

(** C12: the verdict is exact.  A document is valid when it discloses an item
    and all six steps hold of its bytes, and not otherwise; a rejection names
    the first step that fails. *)
Theorem stepup_verdict_exact `{stepup_cfg} m doc ctx len :
  (forall a, byte_ok (m a)) -> doc_ok 0 len doc -> 0 <= len < 2 ^ 32 ->
  let v := stepup_verify m doc ctx in
  (sv_valid v = true <->
     sd_have_document doc = true /\ sd_items doc <> [] /\ forall n, 1 <= n <= 6 -> step m doc ctx n) /\
  (sd_have_document doc = true -> sd_items doc <> [] -> forall n, 1 <= n <= 6 ->
     (sv_reject_step v = n <-> ~ step m doc ctx n /\ forall k, 1 <= k < n -> step m doc ctx k)).
Proof. apply verdict_cases. Qed.

(** ** The whole run *)

Section Run.
Context {G : Gcm} {L : GcmLaws G} `{stepup_cfg}.

(** The channel opens exactly the canonical envelopes of what the device
    encrypted under its key and the next counter. *)
Lemma open_exact sc sd cap sc' plain : Forall byte_ok sd -> sc_dec_ctr sc <> 0xffffffff ->
  stepup_open_sessiondata sc sd cap = (sc', Some plain) ->
  exists ct tag, sd = sessiondata (ct ++ tag) /\ zlen ct <= cap /\
    gcm_encrypt (sc_dec_key sc) (gcm_nonce 1 (sc_dec_ctr sc)) [] plain = Some (ct, tag) /\
    sc' = (sc <| sc_dec_ctr := u32 (sc_dec_ctr sc + 1) |>).
Proof.
  intros Hsd Hctr. unfold stepup_open_sessiondata. destruct (unwrap_sessiondata_raw sd) as [blob|] eqn:Eu; [|done].
  apply unwrap_sound in Eu as [Hs _]; [|done]. destruct (Z.ltb_spec (zlen blob) GCM_TAG_LEN) as [|Hb]; [done|]. unfold GCM_TAG_LEN in *.
  cbv zeta. destruct (Z.ltb_spec cap (zlen blob - 16)) as [|Hc]; [done|]. unfold secchan_open.
  destruct (Z.eqb_spec (sc_dec_ctr sc) 0xffffffff); [done|].
  destruct (gcm_decrypt _ _ _ _ _) as [pt|] eqn:Eg; [|done]. intros [= <- <-]. apply gcm_exact in Eg.
  exists (sub_bytes blob 0 (zlen blob - 16)), (sub_bytes blob (zlen blob - 16) 16). split_and!; [|rewrite zlen_sub_bytes; lia|done|done].
  rewrite Hs. f_equal. rewrite <- (sub_bytes_all blob) at 1. replace (zlen blob) with (zlen blob - 16 + 16) at 1 by lia.
  rewrite sub_bytes_split by lia. done.
Qed.

(** C11: a run that ends in a valid verdict had a response that is the one
    envelope of what the device encrypted, under the step-up key and the next
    counter; its plaintext parses, inside its bounds, to a document for which
    all six steps hold; and the counter moved on, so the response cannot be
    used again. *)
Theorem stepup_run_sound sc sd ctx cap sc' v plain doc :
  Forall byte_ok sd -> Forall byte_ok plain -> cap < 2 ^ 32 -> length (sc_dec_key sc) = 32%nat ->
  0 <= sc_dec_ctr sc < 0xffffffff ->
  stepup_run sc sd ctx cap = (sc', v, Some (plain, doc)) -> sv_valid v = true ->
  (exists ct tag, sd = sessiondata (ct ++ tag) /\
     gcm_encrypt (sc_dec_key sc) (gcm_nonce 1 (sc_dec_ctr sc)) [] plain = Some (ct, tag)) /\
  sc_dec_ctr sc' = sc_dec_ctr sc + 1 /\
  (exists c, parse_response (zlen plain) (mem_of plain) = Ok doc c) /\ doc_ok 0 (zlen plain) doc /\
  sd_items doc <> [] /\ forall n, 1 <= n <= 6 -> step (mem_of plain) doc ctx n.
Proof.
  intros Hsd Hpl Hcap Hkey Hctr. unfold stepup_run.
  destruct (stepup_open_sessiondata sc sd cap) as [sc1 [pl|]] eqn:Eo; [|done].
  destruct (parse_response (zlen pl) (mem_of pl)) as [d c| |] eqn:Ep; [|done|done]. intros [= <- <- <- <-] Hv.
  apply open_exact in Eo as (ct & tag & Hs & Hct & He & ->); [|done|lia].
  destruct (gcm_total (sc_dec_key sc) (gcm_nonce 1 (sc_dec_ctr sc)) [] pl Hkey eq_refl) as (ct' & tag' & He' & Hl & _).
  rewrite He in He'. injection He' as <- <-.
  assert (0 <= zlen pl < 2 ^ 32) as Hlen by (unfold zlen in *; lia).
  assert (forall a, byte_ok (mem_of pl a)) as Hmb by (intros a; by apply byte_at_ok).
  assert (doc_ok 0 (zlen pl) d) as Hd.
  { destruct (sound_response (lo := 0) (hi := zlen pl) (mem_of pl) (mem_of pl) {| cb_p := 0; cb_end := zlen pl |}) as [_ Hr];
      [by split|unfold placed; cbn; lia|]. unfold parse_response in Ep. rewrite Ep in Hr. by destruct Hr. }
  split; [by exists ct, tag|]. split; [cbn; apply wrap_id; unfold in_u; lia|]. split; [by exists c|]. split; [done|].
  by destruct (proj1 (verdict_valid (mem_of pl) d ctx (zlen pl) Hmb Hd Hlen) Hv) as (_ & ? & ?).
Qed.

End Run.

(** ** A document

    One item, disclosed and signed for. *)

Definition tag24 (b : list Z) : list Z := enc_head 6 24 ++ enc_bstr b.

Definition ex_item (element : list Z) : list Z :=
  tag24 (enc_head 5 3 ++ enc_tstr (text "1") ++ enc_head 0 7 ++ enc_tstr (text "3") ++ enc_tstr element ++
         enc_tstr (text "4") ++ [0xf5]).

Definition ex_mso (digest : list Z) : list Z :=
  enc_head 5 2 ++ enc_tstr (text "3") ++ enc_head 5 1 ++ enc_tstr DOCTYPE_ACCESS ++ enc_head 5 1 ++ enc_head 0 7 ++ enc_bstr digest ++
  enc_tstr (text "5") ++ enc_tstr DOCTYPE_ACCESS.

Definition ex_header : list Z := [0xa1; 0x01; 0x26].
Definition ex_sig (b : Z) : list Z := replicate 64 b.

Definition ex_auth (element : list Z) (sig : list Z) : list Z :=
  enc_tstr (text "2") ++ enc_head 4 4 ++ enc_bstr ex_header ++ enc_head 5 1 ++ enc_head 0 4 ++ enc_bstr [1; 2; 3] ++
  enc_bstr (tag24 (ex_mso (sha256 (ex_item element)))) ++ enc_bstr sig.

Definition ex_response (element : list Z) (auths : list (list Z)) : list Z :=
  enc_head 5 1 ++ enc_tstr (text "2") ++ enc_head 4 1 ++ enc_head 5 2 ++ enc_tstr (text "1") ++
  enc_head 5 (1 + zlen auths) ++ enc_tstr (text "1") ++ enc_head 5 1 ++ enc_tstr DOCTYPE_ACCESS ++ enc_head 4 1 ++ ex_item element ++
  concat auths ++ enc_tstr (text "5") ++ enc_tstr DOCTYPE_ACCESS.

(** An issuer that signed one message: the document with [element2]. *)
Definition ex_genuine : list Z := text "element2".
Definition ex_ecdsa (pub digest sig : list Z) : bool :=
  bool_decide (digest = sha256 (sig_structure ex_header (tag24 (ex_mso (sha256 (ex_item ex_genuine)))))) &&
  bool_decide (sig = ex_sig 9).

Definition ex_ctx : verify_ctx :=
  {| vc_issuers := [{| ik_kid := [7]; ik_pub := replicate 65 5 |}; {| ik_kid := [1; 2; 3]; ik_pub := replicate 65 4 |}];
     vc_time_valid := false; vc_now_epoch := 0; vc_time_ratchet := true; vc_access_iteration := 0;
     vc_expected_doctype := Some DOCTYPE_ACCESS; vc_ecdsa_verify_hash := Some ex_ecdsa |}.

#[export] Instance ex_cfg : stepup_cfg := {| STEPUP_MAX_DIGESTS := 24; STEPUP_MAX_ITEMS := 16; STEPUP_LEAN := true |}.

Definition ex_verdict (resp : list Z) : option (bool * Z * Z) :=
  match parse_response (zlen resp) (mem_of resp) with
  | Ok doc _ => let v := stepup_verify (mem_of resp) doc ex_ctx in Some (sv_valid v, sv_reject_step v, sv_valid_elements v)
  | _ => None
  end.

Lemma ex_honest : ex_verdict (ex_response ex_genuine [ex_auth ex_genuine (ex_sig 9)]) = Some (true, 0, 1).
Proof. by vm_compute. Qed.

Lemma ex_forged_rejected : ex_verdict (ex_response (text "element9") [ex_auth ex_genuine (ex_sig 9)]) = Some (false, 3, 0).
Proof. by vm_compute. Qed.

(** Two IssuerAuth entries: the digests of both are kept, the signature of the
    last is checked.  An item nobody signed for is accepted. *)
Lemma ex_two_issuer_auths :
  ex_verdict (ex_response (text "element9") [ex_auth (text "element9") (ex_sig 0); ex_auth ex_genuine (ex_sig 9)]) = Some (true, 0, 1).
Proof. by vm_compute. Qed.

Lemma stepup_verdict_exact_witness :
  let resp := ex_response ex_genuine [ex_auth ex_genuine (ex_sig 9)] in
  match parse_response (zlen resp) (mem_of resp) with
  | Ok doc _ => forall n, 1 <= n <= 6 -> step (mem_of resp) doc ex_ctx n
  | _ => False
  end.
Proof.
  cbv zeta. set (resp := ex_response _ _).
  assert (Forall byte_ok resp) as Hb by (apply bytes_all; by vm_compute).
  assert (ex_verdict resp = Some (true, 0, 1)) as Hv by (vm_compute; reflexivity).
  assert (0 <= zlen resp < 2 ^ 32) as Hz by (split; [apply Zle_bool_imp_le|apply Zlt_is_lt_bool]; vm_compute; reflexivity).
  clearbody resp.
  destruct (sound_response (lo := 0) (hi := zlen resp) (mem_of resp) (mem_of resp) {| cb_p := 0; cb_end := zlen resp |}) as [_ Hr].
  { split; [|done]. intros a. by apply byte_at_ok. }
  { unfold placed. cbn [cb_p cb_end]. lia. }
  unfold ex_verdict in Hv. unfold parse_response in Hv |- *.
  destruct ((n ← cb_map; for_each n response_field doc_zero) (mem_of resp) _) as [doc c| |]; [|done|done]. destruct Hr as [Hd _].
  pose proof (stepup_verdict_exact (mem_of resp) doc ex_ctx (zlen resp) (fun a => byte_at_ok resp a Hb) Hd) as H.
  destruct H as [H _]; [exact Hz|]. apply H. by injection Hv.
Defined.

Definition ex_channel : secchan := secchan_init (replicate 32 1) (replicate 32 2).
Definition ex_plain : list Z := ex_response ex_genuine [ex_auth ex_genuine (ex_sig 9)].
Definition ex_sealed : list Z := sessiondata (ex_plain ++ hash_tag (replicate 32 2) (gcm_nonce 1 1) [] ex_plain).

Lemma stepup_run_sound_witness :
  match stepup_run ex_channel ex_sealed ex_ctx 2048 with
  | (sc, v, Some (plain, doc)) => sc_dec_ctr sc = 2 /\ step_signature (mem_of plain) doc ex_ctx
  | _ => False
  end.
Proof.
  assert (match stepup_run ex_channel ex_sealed ex_ctx 2048 with
          | (_, v, Some (plain, _)) => sv_valid v && forallb (fun c => (0 <=? c) && (c <? 256)) plain
          | _ => false end = true) as Hok by (vm_compute; reflexivity).
  destruct (stepup_run ex_channel ex_sealed ex_ctx 2048) as [[sc v] [[plain doc]|]] eqn:E; [|discriminate Hok].
  apply andb_true_iff in Hok as [Hv Hb]. apply bytes_all in Hb.
  assert (Forall byte_ok ex_sealed) as Hs by (apply bytes_all; vm_compute; reflexivity).
  destruct (stepup_run_sound ex_channel ex_sealed ex_ctx 2048 sc v plain doc Hs Hb eq_refl eq_refl
    (conj (Zle_bool_imp_le 0 1 eq_refl) eq_refl) E Hv) as (_ & Hc & _ & _ & _ & Hst).
  split; [exact Hc|]. apply (Hst 2). lia.
Defined.
