(* ===== verification/CredApdu.v ===== *)
(** * The access protocol codec

    Models [modules/ultrawidelock_cred/src/ultrawidelock_apdu.c], the reader's
    side, and [ultrawidelock_device_apdu.c], the device's: the single-octet-tag
    TLV writer and reader, the commands and responses of AUTH0, AUTH1 and
    EXCHANGE, the ISO 7816 wrapper and the four-octet BLE envelope.

    A writer is its capacity, what it has written and the latched error.  The
    search loop gets a turn per octet of the buffer, more than it can use. *)

From Stdlib Require Import ZArith Lia Bool.
From stdpp Require Import base list numbers option.
From S2P Require Import Prelude Wire CredCrypto CredTlv.

Local Open Scope Z_scope.
Local Open Scope uwl_scope.

Definition PROTO_ACCESS : Z := 0x00.
Definition PROTO_NOTIFICATION : Z := 0x02.
Definition AP_OP_COMMAND : Z := 0x00.
Definition AP_OP_RESPONSE : Z := 0x01.
Definition NOTIF_EVENT : Z := 0x00.
Definition NOTIF_INITIATE_AP : Z := 0x05.
Definition INS_AUTH0 : Z := 0x80.
Definition INS_AUTH1 : Z := 0x81.
Definition INS_EXCHANGE : Z := 0xc9.
Definition TAG_EXP_PHASE : Z := 0x41.
Definition TAG_USER_POL : Z := 0x42.
Definition TAG_VERSION : Z := 0x5c.
Definition TAG_READER_EPH : Z := 0x87.
Definition TAG_TXID : Z := 0x4c.
Definition TAG_READER_ID : Z := 0x4d.
Definition TAG_SIG : Z := 0x9e.
Definition TAG_DEVICE_PUBX : Z := 0x86.
Definition TAG_USAGE : Z := 0x93.
Definition TAG_DEVICE_PUB : Z := 0x5a.
Definition TAG_STATUS : Z := 0x97.
Definition TAG_URSK_READY : Z := 0x98.
Definition ENVELOPE_HDR : Z := 4.
Definition AUTH_READER : Z := 1.
Definition AUTH_DEVICE : Z := 0.

Definition k_reader_usage : list Z := [0x41; 0x5d; 0x95; 0x69].
Definition k_user_device_usage : list Z := [0x4e; 0x88; 0x7b; 0x4c].

(** ** The writer *)

Record tlv_w := { tw_bytes : list Z; tw_cap : Z; tw_err : bool }.

#[export] Instance tlv_w_eta : Eta tlv_w := fun w =>
  {| tw_bytes := tw_bytes w; tw_cap := tw_cap w; tw_err := tw_err w |}.

Definition tlv_w_init (cap : Z) : tlv_w := {| tw_bytes := []; tw_cap := cap; tw_err := false |}.

Definition w_byte (b : Z) (w : tlv_w) : tlv_w :=
  if tw_cap w <=? zlen (tw_bytes w) then w <| tw_err := true |> else w <| tw_bytes := tw_bytes w ++ [b] |>.

Definition w_bytes (l : list Z) (w : tlv_w) : tlv_w := fold_left (fun w b => w_byte b w) l w.

Definition w_len (len : Z) (w : tlv_w) : tlv_w :=
  if len <? 0x80 then w_byte (u8 len) w
  else if len <=? 0xff then w_byte (u8 len) (w_byte 0x81 w)
  else w_byte (u8 len) (w_byte (u8 (Z.shiftr len 8)) (w_byte 0x82 w)).

Definition tlv_put (tag : Z) (val : list Z) (w : tlv_w) : tlv_w := w_bytes val (w_len (zlen val) (w_byte tag w)).
Definition tlv_put_u8 (tag v : Z) : tlv_w -> tlv_w := tlv_put tag [v].
Definition tlv_put_u16 (tag v : Z) : tlv_w -> tlv_w := tlv_put tag [u8 (Z.shiftr v 8); u8 v].
Definition tlv_put_empty (tag : Z) (w : tlv_w) : tlv_w := w_len 0 (w_byte tag w).

Definition tlv_w_finish (w : tlv_w) : option (list Z) := if tw_err w then None else Some (tw_bytes w).

(** ** The reader *)

(** The tag, the value and the position behind the item. *)
Definition tlv_read (buf : list Z) (pos : Z) : option (Z * list Z * Z) :=
  if zlen buf <? pos + 2 then None else
  let t := byte_at buf pos in
  let l0 := byte_at buf (pos + 1) in
  let p := pos + 2 in
  '(len, p) ←
    (if l0 <? 0x80 then Some (l0, p)
     else if l0 =? 0x81 then if zlen buf <? p + 1 then None else Some (byte_at buf p, p + 1)
     else if l0 =? 0x82 then
       if zlen buf <? p + 2 then None else Some (Z.lor (Z.shiftl (byte_at buf p) 8) (byte_at buf (p + 1)), p + 2)
     else None);
  if zlen buf <? p + len then None else Some (t, sub_bytes buf p len, p + len).

Fixpoint find_loop (fuel : nat) (buf : list Z) (pos tag : Z) : option (list Z) :=
  match fuel with
  | O => None
  | S f =>
      match tlv_read buf pos with
      | None => None
      | Some (t, val, pos) => if t =? tag then Some val else find_loop f buf pos tag
      end
  end.

Definition tlv_find (buf : list Z) (tag : Z) : option (list Z) := find_loop (S (length buf)) buf 0 tag.

(** The value of an item that must have [n] octets. *)
Definition tlv_find_n (buf : list Z) (tag n : Z) : option (list Z) :=
  v ← tlv_find buf tag; if zlen v =? n then Some v else None.

(** ** Commands *)

Definition apdu_build_auth0 (exp_phase user_policy version : Z) (reader_eph_pub txid reader_id : list Z) (cap : Z) : option (list Z) :=
  let w := tlv_w_init cap in
  let w := tlv_put_u8 TAG_EXP_PHASE exp_phase w in
  let w := tlv_put_u8 TAG_USER_POL user_policy w in
  let w := tlv_put_u16 TAG_VERSION version w in
  let w := tlv_put TAG_READER_EPH reader_eph_pub w in
  let w := tlv_put TAG_TXID txid w in
  let w := tlv_put TAG_READER_ID reader_id w in
  tlv_w_finish w.

Definition apdu_build_auth1 (cred_type : Z) (sig : list Z) (cap : Z) : option (list Z) :=
  tlv_w_finish (tlv_put TAG_SIG sig (tlv_put_u8 TAG_EXP_PHASE cred_type (tlv_w_init cap))).

Definition apdu_build_authdata (which : Z) (reader_id device_pubx reader_eph_pubx txid : list Z) (cap : Z) : option (list Z) :=
  let w := tlv_w_init cap in
  let w := tlv_put TAG_READER_ID reader_id w in
  let w := tlv_put TAG_DEVICE_PUBX device_pubx w in
  let w := tlv_put TAG_READER_EPH reader_eph_pubx w in
  let w := tlv_put TAG_TXID txid w in
  let w := tlv_put TAG_USAGE (if which =? AUTH_READER then k_reader_usage else k_user_device_usage) w in
  tlv_w_finish w.

Definition apdu_build_exchange (have_status : bool) (reader_status : Z) (ursk_ready : bool) (cap : Z) : option (list Z) :=
  let w := tlv_w_init cap in
  let w := if have_status then tlv_put_u16 TAG_STATUS reader_status w else w in
  let w := if ursk_ready then tlv_put_empty TAG_URSK_READY w else w in
  tlv_w_finish w.

Definition apdu_wrap (ins : Z) (tlv : list Z) (cap : Z) : option (list Z) :=
  if (zlen tlv =? 0) || (0xff <? zlen tlv) || (cap <? 6 + zlen tlv) then None
  else Some ([0x80; ins; 0x00; 0x00; u8 (zlen tlv)] ++ tlv ++ [0x00]).

(** ** Responses *)

(** The body and the status word. *)
Definition apdu_strip_sw (buf : list Z) : option (list Z * Z) :=
  if zlen buf <? 2 then None else
  let len := zlen buf - 2 in
  Some (sub_bytes buf 0 len, u16 (Z.lor (Z.shiftl (byte_at buf len) 8) (byte_at buf (len + 1)))).

Record auth0_response := { a0_device_eph_pub : list Z; a0_cryptogram : option (list Z) }.

Definition apdu_parse_auth0_response (buf : list Z) : option auth0_response :=
  pub ← tlv_find_n buf TAG_DEVICE_PUBX 65;
  Some {| a0_device_eph_pub := pub; a0_cryptogram := tlv_find_n buf 0x9d 64 |}.

Record auth1_response := { a1_device_pub : option (list Z); a1_device_sig : list Z; a1_signaling : Z }.

Definition be16_at (v : list Z) : Z := u16 (Z.lor (Z.shiftl (byte_at v 0) 8) (byte_at v 1)).

Definition apdu_parse_auth1_response (buf : list Z) : option auth1_response :=
  sig ← tlv_find_n buf TAG_SIG 64;
  Some {| a1_device_pub := tlv_find_n buf TAG_DEVICE_PUB 65; a1_device_sig := sig;
          a1_signaling := match tlv_find_n buf 0x5e 2 with Some v => be16_at v | None => 0 end |}.

(** ** The envelope *)

Definition ble_frame (type opcode : Z) (payload : list Z) (cap : Z) : option (list Z) :=
  if (0xffff <? zlen payload) || (cap <? ENVELOPE_HDR + zlen payload) then None
  else Some ([u8 (Z.land type 0x3f); opcode; u8 (Z.shiftr (zlen payload) 8); u8 (zlen payload)] ++ payload).

Record envelope := { ev_type : Z; ev_opcode : Z; ev_payload : list Z }.

Definition ble_unframe (buf : list Z) : option envelope :=
  if zlen buf <? ENVELOPE_HDR then None else
  let p := Z.lor (Z.shiftl (byte_at buf 2) 8) (byte_at buf 3) in
  if zlen buf <? p + ENVELOPE_HDR then None
  else Some {| ev_type := u8 (Z.land (byte_at buf 0) 0x3f); ev_opcode := byte_at buf 1; ev_payload := sub_bytes buf 4 p |}.

(** ** The device's side *)

(** The instruction and the data. *)
Definition apdu_unwrap (apdu : list Z) : option (Z * list Z) :=
  if (zlen apdu <? 5) || negb (byte_at apdu 0 =? 0x80) then None else
  let lc := byte_at apdu 4 in
  if zlen apdu <? 5 + lc then None else Some (byte_at apdu 1, sub_bytes apdu 5 lc).

Definition apdu_append_sw (buf : list Z) (cap sw : Z) : option (list Z) :=
  if cap <? zlen buf + 2 then None else Some (buf ++ [u8 (Z.shiftr sw 8); u8 sw]).

Record auth0_command := {
  c0_exp_phase : Z; c0_user_policy : Z; c0_version : Z; c0_reader_eph_pub : list Z; c0_txid : list Z; c0_reader_id : list Z;
}.

Definition dev_parse_auth0_cmd (tlv : list Z) : option auth0_command :=
  phase ← tlv_find_n tlv TAG_EXP_PHASE 1;
  pol ← tlv_find_n tlv TAG_USER_POL 1;
  ver ← tlv_find_n tlv TAG_VERSION 2;
  eph ← tlv_find_n tlv TAG_READER_EPH 65;
  txid ← tlv_find_n tlv TAG_TXID 16;
  rid ← tlv_find_n tlv TAG_READER_ID 32;
  Some {| c0_exp_phase := byte_at phase 0; c0_user_policy := byte_at pol 0; c0_version := be16_at ver;
          c0_reader_eph_pub := eph; c0_txid := txid; c0_reader_id := rid |}.

Record auth1_command := { c1_cred_type : Z; c1_reader_sig : list Z }.

Definition dev_parse_auth1_cmd (tlv : list Z) : option auth1_command :=
  sig ← tlv_find_n tlv TAG_SIG 64;
  Some {| c1_cred_type := match tlv_find_n tlv TAG_EXP_PHASE 1 with Some v => byte_at v 0 | None => 0 end;
          c1_reader_sig := sig |}.

Record exchange_command := { cx_status : option Z; cx_ursk_ready : bool }.

Definition dev_parse_exchange_cmd (plain : list Z) : exchange_command :=
  {| cx_status := be16_at <$> tlv_find_n plain TAG_STATUS 2;
     cx_ursk_ready := bool_decide (is_Some (tlv_find plain TAG_URSK_READY)) |}.

Definition dev_build_auth0_resp (device_eph_pub : list Z) (cryptogram64 : option (list Z)) (cap : Z) : option (list Z) :=
  let w := tlv_put TAG_DEVICE_PUBX device_eph_pub (tlv_w_init cap) in
  tlv_w_finish (match cryptogram64 with Some c => tlv_put 0x9d c w | None => w end).

Definition dev_build_auth1_resp (device_sig : list Z) (device_pub65 : option (list Z)) (cap : Z) : option (list Z) :=
  let w := tlv_put TAG_SIG device_sig (tlv_w_init cap) in
  tlv_w_finish (match device_pub65 with Some p => tlv_put TAG_DEVICE_PUB p w | None => w end).

Definition dev_build_exchange_resp (error cap : Z) : option (list Z) :=
  if cap <? 4 then None else Some [0x00; 0x02; u8 (Z.shiftr error 8); u8 error].

(** * The access protocol codec: what is written is read back

    Every builder is characterised by the items it writes, the search by the
    first item of a tag; the round trips between the two sides follow. *)

Local Open Scope Z_scope.
Local Open Scope uwl_scope.

(** ** Items *)

Definition item : Type := Z * list Z.

Definition enc_item (it : item) : list Z := it.1 :: put_length (zlen it.2) ++ it.2.
Definition enc_items (l : list item) : list Z := concat (map enc_item l).

Definition item_ok (it : item) : Prop := zlen it.2 <= 0xffff.

Lemma put_length_size n : 1 <= zlen (put_length n) <= 3.
Proof. unfold put_length. destruct (_ <? _); [|destruct (_ <=? _)]; unfold zlen; cbn; lia. Qed.

Lemma enc_item_size it : 2 <= zlen (enc_item it).
Proof. unfold enc_item. rewrite zlen_cons, zlen_app. pose proof (put_length_size (zlen it.2)). pose proof (zlen_nonneg it.2). lia. Qed.

(** ** The writer *)

(** The writer has been given [b]: it holds it, or has latched the error. *)
Definition wrote (w : tlv_w) (b : list Z) : Prop :=
  if tw_cap w <? zlen b then tw_err w = true else tw_err w = false /\ tw_bytes w = b.

Lemma wrote_init cap : 0 <= cap -> wrote (tlv_w_init cap) [].
Proof. intros H. unfold wrote. cbn. change (zlen []) with 0. destruct (Z.ltb_spec cap 0); [lia|done]. Qed.

Lemma w_byte_cap x w : tw_cap (w_byte x w) = tw_cap w.
Proof. unfold w_byte. by destruct (_ <=? _). Qed.

Lemma wrote_byte x w b : wrote w b -> wrote (w_byte x w) (b ++ [x]).
Proof.
  unfold wrote. rewrite w_byte_cap, zlen_app. change (zlen [x]) with 1. unfold w_byte.
  destruct (Z.ltb_spec (tw_cap w) (zlen b)) as [H|H].
  - intros E. destruct (Z.ltb_spec (tw_cap w) (zlen b + 1)); [|lia]. by destruct (_ <=? _).
  - intros [E <-]. destruct (Z.leb_spec (tw_cap w) (zlen (tw_bytes w))), (Z.ltb_spec (tw_cap w) (zlen (tw_bytes w) + 1)); lia || done.
Qed.

Lemma wrote_bytes l : forall w b, wrote w b -> wrote (w_bytes l w) (b ++ l).
Proof.
  induction l as [|x l IH]; intros w b H; cbn; [by rewrite app_nil_r|].
  replace (b ++ x :: l) with ((b ++ [x]) ++ l) by by rewrite <- app_assoc. by apply IH, wrote_byte.
Qed.

Lemma w_len_bytes n w : w_len n w = w_bytes (put_length n) w.
Proof. unfold w_len, put_length. destruct (_ <? _); [|destruct (_ <=? _)]; done. Qed.

Lemma wrote_put t v w b : wrote w b -> wrote (tlv_put t v w) (b ++ enc_item (t, v)).
Proof.
  intros H. unfold tlv_put, enc_item. cbn [fst snd]. rewrite w_len_bytes.
  replace (b ++ t :: put_length (zlen v) ++ v) with (((b ++ [t]) ++ put_length (zlen v)) ++ v) by by rewrite <- !app_assoc.
  by apply wrote_bytes, wrote_bytes, wrote_byte.
Qed.

Lemma wrote_empty t w b : wrote w b -> wrote (tlv_put_empty t w) (b ++ enc_item (t, [])).
Proof. apply (wrote_put t []). Qed.

(** Putting items one after the other. *)
Definition put_items (l : list item) (w : tlv_w) : tlv_w := fold_left (fun w it => tlv_put it.1 it.2 w) l w.

Lemma wrote_items l : forall w b, wrote w b -> wrote (put_items l w) (b ++ enc_items l).
Proof.
  induction l as [|[t v] l IH]; intros w b H; [by rewrite app_nil_r|].
  change (enc_items ((t, v) :: l)) with (enc_item (t, v) ++ enc_items l). rewrite app_assoc. by apply IH, wrote_put.
Qed.

Lemma put_items_cap l : forall w, tw_cap (put_items l w) = tw_cap w.
Proof.
  assert (forall k w, tw_cap (w_bytes k w) = tw_cap w) as Hb.
  { induction k as [|x k IH]; intros w; cbn; [done|]. by rewrite IH, w_byte_cap. }
  induction l as [|[t v] l IH]; intros w; cbn; [done|]. rewrite IH. unfold tlv_put. rewrite w_len_bytes.
  by rewrite !Hb, w_byte_cap.
Qed.

Lemma built_exact l cap : 0 <= cap ->
  tlv_w_finish (put_items l (tlv_w_init cap)) = if cap <? zlen (enc_items l) then None else Some (enc_items l).
Proof.
  intros H. pose proof (wrote_items l _ _ (wrote_init cap H)) as Hw. unfold wrote in Hw.
  rewrite put_items_cap in Hw. cbn [tlv_w_init tw_cap app] in Hw. unfold tlv_w_finish.
  destruct (cap <? _); [by rewrite Hw|]. destruct Hw as [-> ->]. done.
Qed.

(** ** The search *)

Lemma byte_at_behind pre x rest : byte_at (pre ++ x :: rest) (zlen pre) = x.
Proof. unfold byte_at, zlen. rewrite Nat2Z.id, app_nth2, Nat.sub_diag by lia. done. Qed.

Lemma byte_at_app1 pre x y rest : byte_at (pre ++ x :: y :: rest) (zlen pre + 1) = y.
Proof.
  change (pre ++ x :: y :: rest) with (pre ++ [x] ++ y :: rest). rewrite app_assoc.
  replace (zlen pre + 1) with (zlen (pre ++ [x])) by (rewrite zlen_app; done). apply byte_at_behind.
Qed.

Lemma byte_at_app2 pre x y z rest : byte_at (pre ++ x :: y :: z :: rest) (zlen pre + 2) = z.
Proof.
  change (pre ++ x :: y :: z :: rest) with (pre ++ [x; y] ++ z :: rest). rewrite app_assoc.
  replace (zlen pre + 2) with (zlen (pre ++ [x; y])) by (rewrite zlen_app; done). apply byte_at_behind.
Qed.

Lemma byte_at_app3 pre w x y z rest : byte_at (pre ++ w :: x :: y :: z :: rest) (zlen pre + 3) = z.
Proof.
  change (pre ++ w :: x :: y :: z :: rest) with (pre ++ [w; x; y] ++ z :: rest). rewrite app_assoc.
  replace (zlen pre + 3) with (zlen (pre ++ [w; x; y])) by (rewrite zlen_app; done). apply byte_at_behind.
Qed.

Lemma sub_bytes_at pre hd v rest : sub_bytes (pre ++ hd ++ v ++ rest) (zlen pre + zlen hd) (zlen v) = v.
Proof. rewrite app_assoc, <- zlen_app. apply sub_bytes_mid. Qed.

Lemma tlv_read_item pre it rest : item_ok it ->
  tlv_read (pre ++ enc_item it ++ rest) (zlen pre) = Some (it.1, it.2, zlen pre + zlen (enc_item it)).
Proof.
  destruct it as [t v]. unfold item_ok. cbn [fst snd]. intros Hv. pose proof (zlen_nonneg v) as Hv0. pose proof (zlen_nonneg rest).
  set (hd := t :: put_length (zlen v)). assert (enc_item (t, v) = hd ++ v) as -> by done. rewrite <- app_assoc.
  assert (zlen (pre ++ hd ++ v ++ rest) = zlen pre + zlen hd + zlen v + zlen rest) as Hlen by (rewrite !zlen_app; lia).
  pose proof (sub_bytes_at pre hd v rest) as Hs.
  unfold tlv_read. rewrite Hlen. assert (2 <= zlen hd) as Hh.
  { unfold hd. rewrite zlen_cons. pose proof (put_length_size (zlen v)). lia. }
  destruct (Z.ltb_spec (zlen pre + zlen hd + zlen v + zlen rest) (zlen pre + 2)) as [|_]; [lia|].
  revert Hs Hlen Hh. unfold hd, put_length.
  destruct (Z.ltb_spec (zlen v) 0x80) as [H1|H1]; [|destruct (Z.leb_spec (zlen v) 0xff) as [H2|H2]];
    cbn [app]; intros Hs Hlen Hh; rewrite byte_at_behind, byte_at_app1; rewrite ?zlen_cons in *; change (zlen []) with 0 in *.
  - rewrite (wrap_id 8) by (unfold in_u; lia). destruct (Z.ltb_spec (zlen v) 0x80); [|lia]. cbn.
    destruct (Z.ltb_spec (zlen pre + (1 + (1 + 0)) + zlen v + zlen rest) (zlen pre + 2 + zlen v)); [lia|].
    rewrite (wrap_id 8) in Hs by (unfold in_u; lia). replace (zlen pre + 2) with (zlen pre + (1 + (1 + 0))) by lia.
    rewrite Hs. do 2 f_equal. lia.
  - change (0x81 <? 0x80) with false. change (0x81 =? 0x81) with true. cbv iota.
    destruct (Z.ltb_spec (zlen pre + (1 + (1 + (1 + 0))) + zlen v + zlen rest) (zlen pre + 2 + 1)); [lia|].
    rewrite byte_at_app2. rewrite (wrap_id 8) in Hs |- * by (unfold in_u; lia). cbn.
    destruct (Z.ltb_spec (zlen pre + (1 + (1 + (1 + 0))) + zlen v + zlen rest) (zlen pre + 2 + 1 + zlen v)); [lia|].
    replace (zlen pre + 2 + 1) with (zlen pre + (1 + (1 + (1 + 0)))) by lia.
    rewrite Hs. do 2 f_equal. lia.
  - change (0x82 <? 0x80) with false. change (0x82 =? 0x81) with false. change (0x82 =? 0x82) with true. cbv iota.
    destruct (Z.ltb_spec (zlen pre + (1 + (1 + (1 + (1 + 0)))) + zlen v + zlen rest) (zlen pre + 2 + 2)); [lia|].
    rewrite byte_at_app2. replace (zlen pre + 2 + 1) with (zlen pre + 3) by lia.
    rewrite byte_at_app3. rewrite lor_shiftl_add by (unfold wrap; pose proof (Z.mod_pos_bound (zlen v) (2 ^ 8)); lia).
    assert (u8 (Z.shiftr (zlen v) 8) * 2 ^ 8 + u8 (zlen v) = zlen v) as ->.
    { rewrite Z.shiftr_div_pow2 by lia. unfold wrap. change (2 ^ 8) with 256. zdiv. }
    cbn. destruct (Z.ltb_spec (zlen pre + (1 + (1 + (1 + (1 + 0)))) + zlen v + zlen rest) (zlen pre + 2 + 2 + zlen v)); [lia|].
    replace (zlen pre + 2 + 2) with (zlen pre + (1 + (1 + (1 + (1 + 0))))) by lia.
    rewrite Hs. do 2 f_equal. lia.
Qed.

Lemma tlv_read_end pre : tlv_read pre (zlen pre) = None.
Proof. unfold tlv_read. destruct (Z.ltb_spec (zlen pre) (zlen pre + 2)); [done|lia]. Qed.

Definition first_item (tag : Z) (l : list item) : option (list Z) := snd <$> List.find (fun it => it.1 =? tag) l.

Lemma find_loop_items tag l : forall fuel pre, Forall item_ok l -> (length l < fuel)%nat ->
  find_loop fuel (pre ++ enc_items l) (zlen pre) tag = first_item tag l.
Proof.
  induction l as [|it l IH]; intros [|fuel] pre Hok Hf; cbn [length] in Hf; try lia.
  - cbn [find_loop]. change (enc_items []) with (@nil Z). by rewrite app_nil_r, tlv_read_end.
  - apply list.Forall_cons in Hok as [H1 H2]. change (enc_items (it :: l)) with (enc_item it ++ enc_items l).
    cbn [find_loop]. rewrite tlv_read_item by done. unfold first_item. cbn [List.find].
    destruct (it.1 =? tag); [done|]. rewrite <- zlen_app, app_assoc. apply IH; [done|lia].
Qed.

Lemma tlv_find_items tag l : Forall item_ok l -> tlv_find (enc_items l) tag = first_item tag l.
Proof.
  intros Hok. apply (find_loop_items tag l _ []); [done|]. clear Hok.
  assert (length l <= length (enc_items l))%nat; [|lia].
  induction l as [|it l IH]; [done|]. change (enc_items (it :: l)) with (enc_item it ++ enc_items l).
  pose proof (enc_item_size it). rewrite length_app. cbn [length]. unfold zlen in *. lia.
Qed.

(** ** What the builders write *)

Section Builders.
Context (cap : Z) (Hcap : 0 <= cap).

Definition fits (l : list item) : option (list Z) := if cap <? zlen (enc_items l) then None else Some (enc_items l).

Lemma built_auth0 phase pol ver eph txid rid :
  apdu_build_auth0 phase pol ver eph txid rid cap =
  fits [(TAG_EXP_PHASE, [phase]); (TAG_USER_POL, [pol]); (TAG_VERSION, put_be 2 ver); (TAG_READER_EPH, eph);
        (TAG_TXID, txid); (TAG_READER_ID, rid)].
Proof. unfold fits. rewrite <- built_exact by done. unfold put_be. cbn. by rewrite Z.shiftr_0_r. Qed.

Lemma built_auth1 ct sig :
  apdu_build_auth1 ct sig cap = fits [(TAG_EXP_PHASE, [ct]); (TAG_SIG, sig)].
Proof. unfold fits. by rewrite <- built_exact. Qed.

Lemma built_authdata which rid dx rx txid :
  apdu_build_authdata which rid dx rx txid cap =
  fits [(TAG_READER_ID, rid); (TAG_DEVICE_PUBX, dx); (TAG_READER_EPH, rx); (TAG_TXID, txid);
        (TAG_USAGE, if which =? AUTH_READER then k_reader_usage else k_user_device_usage)].
Proof. unfold fits. by rewrite <- built_exact. Qed.

Lemma built_exchange have status ready :
  apdu_build_exchange have status ready cap =
  fits ((if have then [(TAG_STATUS, put_be 2 status)] else []) ++ (if ready then [(TAG_URSK_READY, [])] else [])).
Proof. unfold fits. rewrite <- built_exact by done. destruct have, ready; unfold put_be; cbn; by rewrite ?Z.shiftr_0_r. Qed.

Lemma built_auth0_resp pub c :
  dev_build_auth0_resp pub c cap = fits ((TAG_DEVICE_PUBX, pub) :: match c with Some c => [(0x9d, c)] | None => [] end).
Proof. unfold fits. rewrite <- built_exact by done. by destruct c. Qed.

Lemma built_auth1_resp sig pub :
  dev_build_auth1_resp sig pub cap = fits ((TAG_SIG, sig) :: match pub with Some p => [(TAG_DEVICE_PUB, p)] | None => [] end).
Proof. unfold fits. rewrite <- built_exact by done. by destruct pub. Qed.

End Builders.

(** ** The status word, the wrapper, the envelope *)

Lemma be16_put v : in_u 16 v -> be16_at (put_be 2 v) = v.
Proof.
  intros Hv. unfold be16_at. assert (Z.lor (Z.shiftl (byte_at (put_be 2 v) 0) 8) (byte_at (put_be 2 v) 1) = v) as ->.
  - pose proof (get_put_be_id 2 v Hv) as H. unfold put_be, get_be in *. cbn [fold_left Z.of_nat Pos.of_succ_nat Z.mul] in *. exact H.
  - by apply (wrap_id 16).
Qed.

Lemma strip_append body cap sw b : in_u 16 sw -> apdu_append_sw body cap sw = Some b -> apdu_strip_sw b = Some (body, sw).
Proof.
  unfold apdu_append_sw, apdu_strip_sw. intros Hs. destruct (_ <? _); [done|]. intros [= <-].
  rewrite zlen_app. change (zlen [_; _]) with 2. pose proof (zlen_nonneg body).
  destruct (Z.ltb_spec (zlen body + 2) 2); [lia|]. replace (zlen body + 2 - 2) with (zlen body) by lia.
  rewrite sub_bytes_head, byte_at_behind, byte_at_app1. do 2 f_equal.
  pose proof (be16_put sw Hs) as Hb. unfold be16_at, put_be in Hb. change (8 * Z.of_nat 1) with 8 in Hb.
  change (8 * Z.of_nat 0) with 0 in Hb. by rewrite Z.shiftr_0_r in Hb.
Qed.

Lemma unwrap_wrap ins tlv cap b : apdu_wrap ins tlv cap = Some b -> apdu_unwrap b = Some (ins, tlv).
Proof.
  unfold apdu_wrap, apdu_unwrap. destruct (_ || _) eqn:E; [done|]. intros [= <-].
  apply orb_false_iff in E as [E _]. apply orb_false_iff in E as [_ E]. pose proof (zlen_nonneg tlv).
  assert (u8 (zlen tlv) = zlen tlv) as Hu by (apply (wrap_id 8); unfold in_u; lia).
  rewrite !zlen_cons, zlen_app. change (zlen [0]) with 1. change (byte_at (_ :: _) 0) with 0x80.
  destruct (Z.ltb_spec (1 + (1 + (1 + (1 + (1 + (zlen tlv + 1)))))) 5); [lia|]. change (negb (0x80 =? 0x80)) with false. cbn [orb].
  change (byte_at _ 4) with (u8 (zlen tlv)). change (byte_at _ 1) with ins. rewrite Hu.
  destruct (Z.ltb_spec (1 + (1 + (1 + (1 + (1 + (zlen tlv + 1)))))) (5 + zlen tlv)); [lia|].
  do 2 f_equal. change (0x80 :: ins :: 0 :: 0 :: zlen tlv :: tlv ++ [0]) with ([0x80; ins; 0; 0; zlen tlv] ++ tlv ++ [0]).
  apply (sub_bytes_mid [0x80; ins; 0; 0; zlen tlv]).
Qed.

Lemma unframe_frame type opcode payload cap b : ble_frame type opcode payload cap = Some b ->
  ble_unframe b = Some {| ev_type := Z.land type 0x3f; ev_opcode := opcode; ev_payload := payload |}.
Proof.
  unfold ble_frame, ble_unframe, ENVELOPE_HDR. destruct (_ || _) eqn:E; [done|]. intros [= <-].
  apply orb_false_iff in E as [E _]. pose proof (zlen_nonneg payload).
  rewrite !zlen_cons. destruct (Z.ltb_spec (1 + (1 + (1 + (1 + zlen payload)))) 4); [lia|].
  assert (Z.lor (Z.shiftl (byte_at (u8 (Z.land type 0x3f) :: opcode :: u8 (Z.shiftr (zlen payload) 8) :: u8 (zlen payload) :: payload) 2) 8)
    (byte_at (u8 (Z.land type 0x3f) :: opcode :: u8 (Z.shiftr (zlen payload) 8) :: u8 (zlen payload) :: payload) 3) = zlen payload) as ->.
  { change (byte_at _ 2) with (u8 (Z.shiftr (zlen payload) 8)). change (byte_at _ 3) with (u8 (zlen payload)).
    rewrite lor_shiftl_add by (unfold wrap; pose proof (Z.mod_pos_bound (zlen payload) (2 ^ 8)); lia).
    rewrite Z.shiftr_div_pow2 by lia. unfold wrap. change (2 ^ 8) with 256. zdiv. }
  destruct (Z.ltb_spec (1 + (1 + (1 + (1 + zlen payload)))) (zlen payload + 4)); [lia|].
  change (byte_at _ 0) with (u8 (Z.land type 0x3f)). change (byte_at _ 1) with opcode.
  assert (in_u 8 (Z.land type 0x3f)) as Ht.
  { unfold in_u. change 0x3f with (Z.ones 6). rewrite Z.land_ones by lia. pose proof (Z.mod_pos_bound type (2 ^ 6)). lia. }
  assert (u8 (Z.land type 0x3f) = Z.land type 0x3f) as Hu by by apply (wrap_id 8). rewrite Hu.
  assert (Z.land (Z.land type 0x3f) 0x3f = Z.land type 0x3f) as -> by by rewrite <- Z.land_assoc. rewrite Hu.
  do 2 f_equal. match goal with |- sub_bytes (?a :: ?b :: ?c :: ?d :: ?e) _ _ = _ => apply (sub_bytes_tail [a; b; c; d] e) end.
Qed.

(** ** The two sides understand each other *)

(** The sizes the callers' arrays have. *)
Definition auth0_cmd_ok (c : auth0_command) : Prop :=
  in_u 16 (c0_version c) /\ zlen (c0_reader_eph_pub c) = 65 /\ zlen (c0_txid c) = 16 /\ zlen (c0_reader_id c) = 32.

Lemma find_n_items l tag n v : Forall item_ok l -> first_item tag l = Some v -> zlen v = n -> tlv_find_n (enc_items l) tag n = Some v.
Proof. intros Hl Hf Hn. unfold tlv_find_n. rewrite tlv_find_items, Hf by done. cbn. by rewrite Hn, Z.eqb_refl. Qed.

Lemma find_n_absent l tag n : Forall item_ok l -> first_item tag l = None -> tlv_find_n (enc_items l) tag n = None.
Proof. intros Hl Hf. unfold tlv_find_n. by rewrite tlv_find_items, Hf. Qed.

Ltac items_ok := repeat (apply list.Forall_cons; split); try apply list.Forall_nil; unfold item_ok; cbn [fst snd]; rewrite ?zlen_put_be, ?zlen_cons; change (zlen (@nil Z)) with 0; try lia.

Lemma fits_some cap l b : fits cap l = Some b -> b = enc_items l /\ zlen (enc_items l) <= cap.
Proof. unfold fits. destruct (Z.ltb_spec cap (zlen (enc_items l))); [done|]. by intros [= <-]. Qed.

Lemma auth0_cmd_understood c cap b : 0 <= cap -> auth0_cmd_ok c ->
  apdu_build_auth0 (c0_exp_phase c) (c0_user_policy c) (c0_version c) (c0_reader_eph_pub c) (c0_txid c) (c0_reader_id c) cap = Some b ->
  dev_parse_auth0_cmd b = Some c.
Proof.
  intros Hcap (Hv & He & Ht & Hr). rewrite built_auth0 by done. intros [-> _]%fits_some.
  unfold dev_parse_auth0_cmd.
  rewrite (find_n_items _ TAG_EXP_PHASE 1 [c0_exp_phase c]) by (done || items_ok).
  rewrite (find_n_items _ TAG_USER_POL 1 [c0_user_policy c]) by (done || items_ok).
  rewrite (find_n_items _ TAG_VERSION 2 (put_be 2 (c0_version c))) by (done || items_ok).
  rewrite (find_n_items _ TAG_READER_EPH 65 (c0_reader_eph_pub c)) by (done || items_ok).
  rewrite (find_n_items _ TAG_TXID 16 (c0_txid c)) by (done || items_ok).
  rewrite (find_n_items _ TAG_READER_ID 32 (c0_reader_id c)) by (done || items_ok).
  cbn [mbind option_bind]. rewrite be16_put by done. by destruct c.
Qed.

Lemma auth1_cmd_understood ct sig cap b : 0 <= cap -> zlen sig = 64 -> apdu_build_auth1 ct sig cap = Some b ->
  dev_parse_auth1_cmd b = Some {| c1_cred_type := ct; c1_reader_sig := sig |}.
Proof.
  intros Hcap Hs. rewrite built_auth1 by done. intros [-> _]%fits_some. unfold dev_parse_auth1_cmd.
  rewrite (find_n_items _ TAG_SIG 64 sig) by (done || items_ok).
  by rewrite (find_n_items _ TAG_EXP_PHASE 1 [ct]) by (done || items_ok).
Qed.

Lemma exchange_cmd_understood have status ready cap b : 0 <= cap -> in_u 16 status ->
  apdu_build_exchange have status ready cap = Some b ->
  dev_parse_exchange_cmd b = {| cx_status := if have then Some status else None; cx_ursk_ready := ready |}.
Proof.
  intros Hcap Hs. rewrite built_exchange by done. intros [-> _]%fits_some. unfold dev_parse_exchange_cmd.
  destruct have, ready; cbn [app];
    try rewrite (find_n_items _ TAG_STATUS 2 (put_be 2 status)) by (done || items_ok);
    try rewrite (find_n_absent _ TAG_STATUS 2) by (done || items_ok);
    rewrite tlv_find_items by items_ok; cbn [fmap option_fmap option_map]; by rewrite ?be16_put.
Qed.

Lemma auth0_resp_understood pub c cap b : 0 <= cap -> zlen pub = 65 -> match c with Some c => zlen c = 64 | None => True end ->
  dev_build_auth0_resp pub c cap = Some b ->
  apdu_parse_auth0_response b = Some {| a0_device_eph_pub := pub; a0_cryptogram := c |}.
Proof.
  intros Hcap Hp Hc. rewrite built_auth0_resp by done. intros [-> _]%fits_some. unfold apdu_parse_auth0_response.
  destruct c as [c|]; rewrite (find_n_items _ TAG_DEVICE_PUBX 65 pub) by (done || items_ok); cbn [mbind option_bind].
  - by rewrite (find_n_items _ 0x9d 64 c) by (done || items_ok).
  - by rewrite (find_n_absent _ 0x9d 64) by (done || items_ok).
Qed.

Lemma auth1_resp_understood sig pub cap b : 0 <= cap -> zlen sig = 64 -> match pub with Some p => zlen p = 65 | None => True end ->
  dev_build_auth1_resp sig pub cap = Some b ->
  apdu_parse_auth1_response b = Some {| a1_device_pub := pub; a1_device_sig := sig; a1_signaling := 0 |}.
Proof.
  intros Hcap Hp Hc. rewrite built_auth1_resp by done. intros [-> _]%fits_some. unfold apdu_parse_auth1_response.
  destruct pub as [p|]; rewrite (find_n_items _ TAG_SIG 64 sig) by (done || items_ok); cbn [mbind option_bind].
  - rewrite (find_n_items _ TAG_DEVICE_PUB 65 p) by (done || items_ok). by rewrite (find_n_absent _ 0x5e 2) by (done || items_ok).
  - rewrite (find_n_absent _ TAG_DEVICE_PUB 65) by (done || items_ok). by rewrite (find_n_absent _ 0x5e 2) by (done || items_ok).
Qed.

(** The transcript both sides sign: it has room for itself in the callers'
    buffers, and determines what went into it. *)
Lemma authdata_exact which rid dx rx txid cap :
  zlen rid = 32 -> zlen dx = 32 -> zlen rx = 32 -> zlen txid = 16 -> 126 <= cap ->
  apdu_build_authdata which rid dx rx txid cap =
  Some ([TAG_READER_ID; 32] ++ rid ++ [TAG_DEVICE_PUBX; 32] ++ dx ++ [TAG_READER_EPH; 32] ++ rx ++ [TAG_TXID; 16] ++ txid ++
        [TAG_USAGE; 4] ++ (if which =? AUTH_READER then k_reader_usage else k_user_device_usage)).
Proof.
  intros H1 H2 H3 H4 Hc. rewrite built_authdata by lia. unfold fits.
  assert (zlen (if which =? AUTH_READER then k_reader_usage else k_user_device_usage) = 4) as H5 by (by destruct (_ =? _)).
  set (u := if which =? AUTH_READER then k_reader_usage else k_user_device_usage) in *. clearbody u.
  assert (enc_items [(TAG_READER_ID, rid); (TAG_DEVICE_PUBX, dx); (TAG_READER_EPH, rx); (TAG_TXID, txid); (TAG_USAGE, u)] =
    [TAG_READER_ID; 32] ++ rid ++ [TAG_DEVICE_PUBX; 32] ++ dx ++ [TAG_READER_EPH; 32] ++ rx ++ [TAG_TXID; 16] ++ txid ++
    [TAG_USAGE; 4] ++ u) as ->.
  { unfold enc_items, enc_item. cbn [map concat fst snd]. rewrite H1, H2, H3, H4, H5, app_nil_r.
    unfold put_length. cbn [app]. by rewrite <- ?app_assoc. }
  rewrite !zlen_app, H1, H2, H3, H4, H5. change (zlen [_; _]) with 2.
  destruct (Z.ltb_spec cap (2 + (32 + (2 + (32 + (2 + (32 + (2 + (16 + (2 + 4)))))))))); [lia|done].
Qed.

(** C24: The two sides of the access protocol understand each other.  Every
    command the reader builds the device's parser reads back field by field, and
    every response the device builds the reader's; an APDU is unwrapped to the
    instruction and data it was wrapped from, a status word stripped off leaves
    the body and the word appended, an envelope gives back its type, opcode and
    payload.  All of it for any capacity: a builder without room gives nothing. *)
Theorem apdu_understood cap : 0 <= cap ->
  (forall c b, auth0_cmd_ok c ->
     apdu_build_auth0 (c0_exp_phase c) (c0_user_policy c) (c0_version c) (c0_reader_eph_pub c) (c0_txid c) (c0_reader_id c) cap = Some b ->
     dev_parse_auth0_cmd b = Some c) /\
  (forall ct sig b, zlen sig = 64 -> apdu_build_auth1 ct sig cap = Some b ->
     dev_parse_auth1_cmd b = Some {| c1_cred_type := ct; c1_reader_sig := sig |}) /\
  (forall have status ready b, in_u 16 status -> apdu_build_exchange have status ready cap = Some b ->
     dev_parse_exchange_cmd b = {| cx_status := if have then Some status else None; cx_ursk_ready := ready |}) /\
  (forall pub c b, zlen pub = 65 -> match c with Some c => zlen c = 64 | None => True end ->
     dev_build_auth0_resp pub c cap = Some b ->
     apdu_parse_auth0_response b = Some {| a0_device_eph_pub := pub; a0_cryptogram := c |}) /\
  (forall sig pub b, zlen sig = 64 -> match pub with Some p => zlen p = 65 | None => True end ->
     dev_build_auth1_resp sig pub cap = Some b ->
     apdu_parse_auth1_response b = Some {| a1_device_pub := pub; a1_device_sig := sig; a1_signaling := 0 |}) /\
  (forall ins tlv b, apdu_wrap ins tlv cap = Some b -> apdu_unwrap b = Some (ins, tlv)) /\
  (forall body sw b, in_u 16 sw -> apdu_append_sw body cap sw = Some b -> apdu_strip_sw b = Some (body, sw)) /\
  (forall type op payload b, ble_frame type op payload cap = Some b ->
     ble_unframe b = Some {| ev_type := Z.land type 0x3f; ev_opcode := op; ev_payload := payload |}).
Proof.
  intros Hc. split_and!; intros.
  - by eapply auth0_cmd_understood.
  - by eapply auth1_cmd_understood.
  - by eapply exchange_cmd_understood.
  - by eapply auth0_resp_understood.
  - by eapply auth1_resp_understood.
  - by eapply unwrap_wrap.
  - by eapply strip_append.
  - by eapply unframe_frame.
Qed.

Lemma apdu_understood_witness :
  dev_parse_auth1_cmd ([TAG_EXP_PHASE; 1; 1; TAG_SIG; 64] ++ replicate 64 7) =
  Some {| c1_cred_type := 1; c1_reader_sig := replicate 64 7 |}.
Proof.
  assert (0 <= 128) as Hc by apply Zle_bool_imp_le, eq_refl.
  apply (proj1 (proj2 (apdu_understood 128 Hc)) 1 (replicate 64 7) _); vm_compute; reflexivity.
Defined.
