(* ===== verification/Device.v ===== *)
(** * The elliptic-curve primitives and the credential device

    P-256 key generation, ECDH and ECDSA are functions of the platform's
    crypto library, which [modules/ultrawidelock_cred/include/ultrawidelock_prim.h]
    declares: the class [Ec], their documented behaviour the class [EcLaws].
    What a randomised function draws is an argument.  The instance at the end
    satisfies the laws; it is there for concrete runs and is no cryptography.
    The second part is the phone's session machine. *)

From Stdlib Require Import ZArith Lia Bool.
From stdpp Require Import base list numbers option.
From S2P Require Import Prelude Wire CredCrypto CredApdu.

Local Open Scope Z_scope.
Local Open Scope uwl_scope.

(** A private scalar has 32 bytes, an uncompressed point 65, a signature 64. *)
Class Ec := {
  ec_keygen : list Z -> option (list Z * list Z);
  ec_pub_from_priv : list Z -> option (list Z);
  ec_ecdh : list Z -> list Z -> option (list Z);
  ec_sign : list Z -> list Z -> list Z -> option (list Z);
  ec_verify : list Z -> list Z -> list Z -> bool;
  ec_verify_hash : list Z -> list Z -> list Z -> bool;
}.

(** Documented: a generated pair belongs together, an uncompressed point has its
    size, the two sides of a key agreement compute the same 32 bytes, a
    signature verifies under the signer's public key. *)
Class EcLaws (E : Ec) := {
  ec_keygen_pair rnd priv pub : ec_keygen rnd = Some (priv, pub) -> ec_pub_from_priv priv = Some pub;
  ec_pub_size priv pub : ec_pub_from_priv priv = Some pub -> zlen pub = 65;
  ec_ecdh_agree a pa b pb : ec_pub_from_priv a = Some pa -> ec_pub_from_priv b = Some pb ->
    exists x, ec_ecdh a pb = Some x /\ ec_ecdh b pa = Some x /\ zlen x = 32;
  ec_sign_verifies rnd a pa msg : ec_pub_from_priv a = Some pa ->
    exists sig, ec_sign rnd a msg = Some sig /\ zlen sig = 64 /\ ec_verify pa msg sig = true;
}.

(** The X coordinate of a point. *)
Definition pub_x (pub : list Z) : list Z := sub_bytes pub 1 32.

Lemma pub_x_size pub : zlen pub = 65 -> zlen (pub_x pub) = 32.
Proof. unfold pub_x, sub_bytes, zlen. intros. rewrite length_take, length_drop. lia. Qed.

(** ** An instance

    A key pair is a number and its triple, the shared secret the product, a
    signature the signer's point and the sum of the message. *)

Definition toy_word (v : Z) : list Z := put_be 32 v.

Definition toy_pub (priv : list Z) : list Z := 0x04 :: toy_word (3 * get_be priv) ++ toy_word 0.

Definition toy_sum (msg : list Z) : Z := fold_left Z.add msg 0.

#[export] Instance toy_ec : Ec := {|
  ec_keygen rnd := Some (toy_word (get_be rnd), toy_pub (toy_word (get_be rnd)));
  ec_pub_from_priv priv := Some (toy_pub priv);
  ec_ecdh priv pub := Some (toy_word (get_be priv * get_be (pub_x pub)));
  ec_sign _ priv msg := Some (pub_x (toy_pub priv) ++ toy_word (toy_sum msg));
  ec_verify pub msg sig := bool_decide (sig = pub_x pub ++ toy_word (toy_sum msg));
  ec_verify_hash pub hash sig := bool_decide (sig = pub_x pub ++ toy_word (toy_sum hash));
|}.

Lemma toy_pub_size priv : zlen (toy_pub priv) = 65.
Proof. unfold toy_pub, toy_word. rewrite zlen_cons, zlen_app, !zlen_put_be. lia. Qed.

Lemma toy_pub_x priv : pub_x (toy_pub priv) = toy_word (3 * get_be priv).
Proof.
  assert (zlen (toy_word (3 * get_be priv)) = 32) as H by apply zlen_put_be.
  change (sub_bytes ([0x04] ++ toy_word (3 * get_be priv) ++ toy_word 0) (zlen [0x04]) 32 = toy_word (3 * get_be priv)).
  rewrite <- H. unfold sub_bytes, zlen. by rewrite !Nat2Z.id, drop_app_length, take_app_length.
Qed.

Lemma toy_word_mod v : toy_word (v mod 2 ^ (8 * Z.of_nat 32)) = toy_word v.
Proof.
  unfold toy_word. rewrite <- (get_put_be 32 v).
  pose proof (put_get_be (put_be 32 v) (put_be_bytes 32 v)) as H. by rewrite length_put_be in H.
Qed.

Lemma toy_word_mul x y : toy_word (x * get_be (toy_word y)) = toy_word (x * y).
Proof.
  unfold toy_word at 2. rewrite get_put_be, <- toy_word_mod, Zmult_mod_idemp_r. apply toy_word_mod.
Qed.

#[export] Instance toy_ec_laws : EcLaws toy_ec.
Proof.
  constructor; cbn [ec_keygen ec_pub_from_priv ec_ecdh ec_sign ec_verify toy_ec].
  - by intros rnd priv pub [= <- <-].
  - intros priv pub [= <-]. apply toy_pub_size.
  - intros a pa b pb [= <-] [= <-]. eexists. split; [done|].
    rewrite !toy_pub_x, !toy_word_mul. split; [do 2 f_equal; lia|]. apply zlen_put_be.
  - intros rnd a pa msg [= <-]. eexists. split; [done|]. split; [|by apply bool_decide_eq_true].
    rewrite zlen_app, (pub_x_size _ (toy_pub_size a)). unfold toy_word. rewrite zlen_put_be. lia.
Qed.

(** * The credential device

    Models the session machine of [modules/ultrawidelock_cred/src/ultrawidelock_device.c]:
    the access credential of a user device, what it keeps of a transaction, and
    the commands of a reader as it answers them.  Its two channels are those of
    [CredCrypto].  The elliptic-curve functions are the class [Ec]; what they draw
    is the argument [rnd].  A response buffer is its contents, a failed command
    [None]. *)

Local Open Scope Z_scope.
Local Open Scope uwl_scope.

Definition DEV_VERSION : Z := 0x0100.
Definition DEV_BLESK_SALT_MAX : Z := 18.
Definition IFACE_BLE : Z := 0xc3.
Definition DEV_SW_OK : Z := 0x9000.

Definition k_a5_csa_v1 : list Z := [0xa5; 0x08; 0x80; 0x02; 0x00; 0x00; 0x5c; 0x02; 0x01; 0x00].

Inductive device_phase := DEV_IDLE | DEV_SENT_AUTH0_RESP | DEV_SENT_AUTH1_RESP | DEV_ESTABLISHED | DEV_FAILED.

Record device := {
  dv_cred_priv : list Z;
  dv_cred_pub : list Z;
  dv_reader_id : list Z;
  dv_reader_verif_pub : list Z;
  dv_reader_group_x : list Z;
  dv_eph_priv : list Z;
  dv_eph_pub : list Z;
  dv_reader_eph_pub : list Z;
  dv_txid : list Z;
  dv_exp_phase : Z;
  dv_version : Z;
  dv_ursk : list Z;
  dv_sc : dev_secchan;
  dv_sc_ble : dev_secchan;
  dv_blesk_salt : list Z;
  dv_a5 : list Z;
  dv_phase : device_phase;
}.

#[export] Instance device_eta : Eta device := fun d =>
  {| dv_cred_priv := dv_cred_priv d; dv_cred_pub := dv_cred_pub d; dv_reader_id := dv_reader_id d;
     dv_reader_verif_pub := dv_reader_verif_pub d; dv_reader_group_x := dv_reader_group_x d;
     dv_eph_priv := dv_eph_priv d; dv_eph_pub := dv_eph_pub d; dv_reader_eph_pub := dv_reader_eph_pub d;
     dv_txid := dv_txid d; dv_exp_phase := dv_exp_phase d; dv_version := dv_version d; dv_ursk := dv_ursk d;
     dv_sc := dv_sc d; dv_sc_ble := dv_sc_ble d; dv_blesk_salt := dv_blesk_salt d; dv_a5 := dv_a5 d;
     dv_phase := dv_phase d |}.

(** A channel as [memset] leaves it. *)
Definition secchan_zero : dev_secchan :=
  {| ds_s0 := replicate 32 0; ds_s1 := replicate 32 0; ds_ctr_r2d := 0; ds_ctr_d2r := 0 |}.

(** The channel, the URSK and the key block. *)
Definition device_derive_session (shared_x txid reader_group_x reader_eph_x reader_id : list Z) (exp_phase : Z)
    (a5 device_eph_x : list Z) : option (dev_secchan * list Z * list Z) :=
  let z := derive_z shared_x txid in
  salt ← salt_build SALT_SESSION txid reader_group_x reader_eph_x reader_id IFACE_BLE DEV_VERSION exp_phase 0x01 None (Some a5);
  block ← derive_block z salt device_eph_x;
  let '(enc, dec, ursk) := crypto_split block true in
  Some (dev_secchan_init enc dec, ursk, block).

Definition device_set_blesk_salt (d : device) (salt : list Z) : device * Z :=
  if (zlen salt <? 4) || negb (Z.land (zlen salt) 1 =? 0) || (DEV_BLESK_SALT_MAX <? zlen salt) then (d, -1)
  else (d <| dv_blesk_salt := salt |>, 0).

Definition dev_fail (d : device) : device * option (list Z) := (d <| dv_phase := DEV_FAILED |>, None).

Section Device.
Context `{G : Gcm, E : Ec}.

Definition device_init (cred_priv reader_id reader_verif_pub : list Z) : option device :=
  pub ← ec_pub_from_priv cred_priv;
  Some {| dv_cred_priv := cred_priv; dv_cred_pub := pub; dv_reader_id := reader_id;
          dv_reader_verif_pub := reader_verif_pub; dv_reader_group_x := sub_bytes reader_verif_pub 1 32;
          dv_eph_priv := replicate 32 0; dv_eph_pub := replicate 65 0; dv_reader_eph_pub := replicate 65 0;
          dv_txid := replicate 16 0; dv_exp_phase := 0; dv_version := DEV_VERSION; dv_ursk := replicate 32 0;
          dv_sc := secchan_zero; dv_sc_ble := secchan_zero; dv_blesk_salt := put_be 2 DEV_VERSION ++ put_be 2 DEV_VERSION;
          dv_a5 := k_a5_csa_v1; dv_phase := DEV_IDLE |}.

Definition on_auth0 (d : device) (rnd data : list Z) (cap : Z) : device * option (list Z) :=
  match dev_parse_auth0_cmd data with
  | None => dev_fail d
  | Some c =>
      if negb (bool_decide (c0_reader_id c = dv_reader_id d)) then dev_fail d else
      let d := d <| dv_reader_eph_pub := c0_reader_eph_pub c |> <| dv_txid := c0_txid c |> <| dv_exp_phase := c0_exp_phase c |> in
      match ec_keygen rnd with
      | None => dev_fail d
      | Some (priv, pub) =>
          let d := d <| dv_eph_priv := priv |> <| dv_eph_pub := pub |> in
          match (n ← dev_build_auth0_resp pub None cap; apdu_append_sw n cap DEV_SW_OK) with
          | None => dev_fail d
          | Some resp => (d <| dv_phase := DEV_SENT_AUTH0_RESP |>, Some resp)
          end
      end
  end.

(** The transcript the side [which] signs. *)
Definition dev_authdata (d : device) (which : Z) : option (list Z) :=
  apdu_build_authdata which (dv_reader_id d) (pub_x (dv_eph_pub d)) (pub_x (dv_reader_eph_pub d)) (dv_txid d) 160.

Definition on_auth1 (d : device) (rnd data : list Z) (cap : Z) : device * option (list Z) :=
  match dev_parse_auth1_cmd data with
  | None => dev_fail d
  | Some c =>
      match dev_authdata d AUTH_READER with
      | None => dev_fail d
      | Some td =>
          if negb (ec_verify (dv_reader_verif_pub d) td (c1_reader_sig c)) then dev_fail d else
          match (shared ← ec_ecdh (dv_eph_priv d) (dv_reader_eph_pub d);
                 device_derive_session shared (dv_txid d) (dv_reader_group_x d) (pub_x (dv_reader_eph_pub d)) (dv_reader_id d)
                   (dv_exp_phase d) (dv_a5 d) (pub_x (dv_eph_pub d))) with
          | None => dev_fail d
          | Some (sc, ursk, block) =>
              let d := d <| dv_sc := sc |> <| dv_ursk := ursk |> in
              match (if zlen (dv_blesk_salt d) =? 0 then None else dev_blesk_init block (dv_blesk_salt d)) with
              | None => dev_fail d
              | Some ble =>
                  let d := d <| dv_sc_ble := ble |> in
                  match (td ← dev_authdata d AUTH_DEVICE;
                         sig ← ec_sign rnd (dv_cred_priv d) td;
                         dev_build_auth1_resp sig (Some (dv_cred_pub d)) 160) with
                  | None => dev_fail d
                  | Some plain =>
                      if cap <? zlen plain + GCM_TAG_LEN + 2 then dev_fail d else
                      let '(sc, sealed) := dev_secchan_seal (dv_sc d) plain in
                      let d := d <| dv_sc := sc |> in
                      match ('(ct, tag) ← sealed; apdu_append_sw (ct ++ tag) cap DEV_SW_OK) with
                      | None => dev_fail d
                      | Some resp => (d <| dv_phase := DEV_SENT_AUTH1_RESP |>, Some resp)
                      end
                  end
              end
          end
      end
  end.

Definition on_exchange (d : device) (data : list Z) (cap : Z) : device * option (list Z) :=
  if zlen data <? GCM_TAG_LEN then dev_fail d else
  let ctlen := zlen data - GCM_TAG_LEN in
  if 64 <? ctlen then dev_fail d else
  let '(sc, pt) := dev_secchan_open (dv_sc d) (sub_bytes data 0 ctlen) (sub_bytes data ctlen GCM_TAG_LEN) in
  let d := d <| dv_sc := sc |> in
  match pt with
  | None => dev_fail d
  | Some _ =>
      match dev_build_exchange_resp 0x0000 8 with
      | None => dev_fail d
      | Some plain =>
          if cap <? zlen plain + GCM_TAG_LEN + 2 then dev_fail d else
          let '(sc, sealed) := dev_secchan_seal (dv_sc d) plain in
          let d := d <| dv_sc := sc |> in
          match ('(ct, tag) ← sealed; apdu_append_sw (ct ++ tag) cap DEV_SW_OK) with
          | None => dev_fail d
          | Some resp => (d <| dv_phase := DEV_ESTABLISHED |>, Some resp)
          end
      end
  end.

(** What the command draws is [rnd]. *)
Definition device_on_command (d : device) (rnd ap_payload : list Z) (cap : Z) : device * option (list Z) :=
  match apdu_unwrap ap_payload with
  | None => dev_fail d
  | Some (ins, data) =>
      if ins =? INS_AUTH0 then on_auth0 d rnd data cap
      else if ins =? INS_AUTH1 then on_auth1 d rnd data cap
      else if ins =? INS_EXCHANGE then on_exchange d data cap
      else dev_fail d
  end.

End Device.
