(* ===== verification/ReaderState.v ===== *)
(** * The credential reader: state and surroundings

    The data of [modules/ultrawidelock_cred/src/ultrawidelock_reader.c] (the
    session table, the provisioning copy, the latches of its callers), its
    session bookkeeping, and the wrapper around the ranging engine,
    [ultrawidelock_ranging.c].

    What the code asks of its surroundings (the BLE host, the clock, the random
    source, the persistent store, the UWB session engine) is answered by the
    class [World], from everything that has happened so far: an answer may be
    different every time.  What happens is the log, newest first.  The callbacks
    of an observer are events whether or not one is registered. *)

From Stdlib Require Import ZArith Lia Bool.
From stdpp Require Import base list numbers option.
From S2P Require Import Prelude Wire CredCrypto CredApdu Prov RssiGate.

Local Open Scope Z_scope.
Local Open Scope uwl_scope.

(** The build options. *)
Class reader_cfg := {
  CFG_DEV_TRUST : bool;
  CFG_STEPUP : bool;
  CFG_STEPUP_BENCH : bool;
  CFG_STEPUP_FORCE : bool;
  CFG_RSSI_GATE : bool;
  CFG_STEPUP_SD_MAX : Z;
  CFG_GATE : gate_cfg;
}.

Definition MAX_SESSIONS : nat := 2.
Definition PHASE_TIMEOUT_MS : Z := 5000.
Definition SESSION_TIMEOUT_MS : Z := 30000.
Definition SECURED_REPLAY_HOLD_MS : Z := 3000.
Definition STEPUP_SD_FREE : Z := 0xffff.
Definition PROTO_VERSION : Z := 0x0100.
Definition RANGING_MSG_MAX : Z := 256.

(** ** Events *)

Inductive event :=
  | EvSend (conn : Z) (frame : list Z) (rc : Z)
  | EvDisconnect (conn : Z)
  | EvAccess (granted : bool)
  | EvLearned (cred_type cred_index user_index : Z) (pub : list Z)
  | EvStore (id : reader_identity) (ts : trust_store) (rc : Z)
  | EvLoad
  | EvRadio
  | EvEngine (conn sid : Z) (ursk : list Z) (ok : bool)
  | EvEngineMsg (msg : list Z)
  | EvEngineGone
  | EvLockState (unlocked : bool)
  | EvPost (what : Z)
  | EvJob (sk_reader sk_device sd : list Z)
  | EvClock
  | EvDraw
  | EvAdvert.

Inductive uwb_out := UwbTx (msg : list Z) | UwbDeinit.

(** The answers: the result of a BLE send, what a random function draws, a
    transaction identifier, the two clocks in milliseconds, the result of a store
    and of a load, whether the engine creates a session, what it does with a
    message, the age of the newest range. *)
Class World := {
  w_send : list event -> Z;
  w_draw : list event -> list Z;
  w_random : list event -> option (list Z);
  w_clock : list event -> Z;
  w_uptime : list event -> Z;
  w_store : list event -> Z;
  w_load : list event -> Z * (reader_identity * trust_store);
  w_crypto : list event -> bool;
  w_engine : list event -> bool;
  w_handle : list event -> list uwb_out * bool;
  w_range_age : list event -> option Z;
}.

(** ** The state *)

Inductive txn_phase :=
  PH_IDLE | PH_SENT_AUTH0 | PH_SENT_AUTH1 | PH_SENT_EXCHANGE | PH_SENT_STEPUP | PH_GATE_HOLD | PH_ESTABLISHED | PH_FAILED.

#[export] Instance txn_phase_eq_dec : EqDecision txn_phase.
Proof. solve_decision. Defined.

Record session := {
  se_active : bool;
  se_disconnect : bool;
  se_conn : Z;
  se_phase : txn_phase;
  se_phase_deadline : option Z;
  se_overall_deadline : option Z;
  se_msgs_rx : Z;
  se_eph_priv : list Z;
  se_eph_pub : list Z;
  se_txid : list Z;
  se_exp_phase : Z;
  se_device_pub : list Z;
  se_z : list Z;
  se_sc : secchan;
  se_sc_ble : secchan;
  se_ursk : list Z;
  se_a5 : list Z;
  se_stepup_active : bool;
  se_stepup_sc : secchan;
  se_stepup_keys : list Z * list Z;
  se_learn_pending : bool;
  se_learn_pub : list Z;
  se_gate : rssi_gate;
}.

#[export] Instance session_eta : Eta session := fun s =>
  {| se_active := se_active s; se_disconnect := se_disconnect s; se_conn := se_conn s; se_phase := se_phase s;
     se_phase_deadline := se_phase_deadline s; se_overall_deadline := se_overall_deadline s; se_msgs_rx := se_msgs_rx s;
     se_eph_priv := se_eph_priv s; se_eph_pub := se_eph_pub s; se_txid := se_txid s; se_exp_phase := se_exp_phase s;
     se_device_pub := se_device_pub s; se_z := se_z s; se_sc := se_sc s; se_sc_ble := se_sc_ble s; se_ursk := se_ursk s;
     se_a5 := se_a5 s; se_stepup_active := se_stepup_active s; se_stepup_sc := se_stepup_sc s;
     se_stepup_keys := se_stepup_keys s; se_learn_pending := se_learn_pending s; se_learn_pub := se_learn_pub s;
     se_gate := se_gate s |}.

Definition chan_zero : secchan :=
  {| sc_enc_key := zeros 32; sc_dec_key := zeros 32; sc_enc_ctr := 0; sc_dec_ctr := 0 |}.

(** [memset(s, 0, sizeof( *s))] *)
Definition session_zero : session :=
  {| se_active := false; se_disconnect := false; se_conn := 0; se_phase := PH_IDLE; se_phase_deadline := None;
     se_overall_deadline := None; se_msgs_rx := 0; se_eph_priv := zeros 32; se_eph_pub := zeros 65; se_txid := zeros 16;
     se_exp_phase := 0; se_device_pub := zeros 65; se_z := zeros 32; se_sc := chan_zero; se_sc_ble := chan_zero;
     se_ursk := zeros 32; se_a5 := []; se_stepup_active := false; se_stepup_sc := chan_zero;
     se_stepup_keys := (zeros 32, zeros 32); se_learn_pending := false; se_learn_pub := zeros 65; se_gate := rssi_gate_reset |}.

Inductive provisioning_state := PROVISIONING_UNAVAILABLE | PROVISIONING_EMPTY | PROVISIONING_READY.

#[export] Instance provisioning_state_eq_dec : EqDecision provisioning_state.
Proof. solve_decision. Defined.

Record spare_ephemeral := { sp_priv : list Z; sp_pub : list Z; sp_txid : list Z }.

(** What [s_prov_lock] and [s_store_lock] guard. *)
Record provisioned := {
  pv_loaded : bool;
  pv_id : reader_identity;
  pv_trust : trust_store;
  pv_state : provisioning_state;
  pv_group_x : list Z;
  pv_have_group_x : bool;
  pv_last_cred : option (list Z);
  pv_auth_cred : option (list Z);
  pv_auth_generation : Z;
  pv_fast_mru : Z;
  pv_kp_dirty : bool;
  pv_spare : option spare_ephemeral;
  pv_reasons : Z;
}.

#[export] Instance provisioned_eta : Eta provisioned := fun p =>
  {| pv_loaded := pv_loaded p; pv_id := pv_id p; pv_trust := pv_trust p; pv_state := pv_state p; pv_group_x := pv_group_x p; pv_have_group_x := pv_have_group_x p;
     pv_last_cred := pv_last_cred p; pv_auth_cred := pv_auth_cred p; pv_auth_generation := pv_auth_generation p;
     pv_fast_mru := pv_fast_mru p; pv_kp_dirty := pv_kp_dirty p; pv_spare := pv_spare p; pv_reasons := pv_reasons p |}.

(** What the phone has been told, and what it is still owed. *)
Record wallet := {
  wl_undelivered : bool;
  wl_replay_at : Z;
  wl_last_unsecured : bool;
  wl_peer_unknown : bool;
}.

#[export] Instance wallet_eta : Eta wallet := fun w =>
  {| wl_undelivered := wl_undelivered w; wl_replay_at := wl_replay_at w; wl_last_unsecured := wl_last_unsecured w;
     wl_peer_unknown := wl_peer_unknown w |}.

(** The collection buffer of the step-up phase and the time of the reader. *)
Record collecting := { dc_armed : bool; dc_sd : list Z; dc_owner : Z; dc_time : Z }.

#[export] Instance collecting_eta : Eta collecting := fun c =>
  {| dc_armed := dc_armed c; dc_sd := dc_sd c; dc_owner := dc_owner c; dc_time := dc_time c |}.

Record presence := { ps_request : Z; ps_ready : Z; ps_ready_generation : Z; ps_wait : bool }.

#[export] Instance presence_eta : Eta presence := fun p =>
  {| ps_request := ps_request p; ps_ready := ps_ready p; ps_ready_generation := ps_ready_generation p; ps_wait := ps_wait p |}.

(** The one ranging session: its connection, the slot whose channel it borrows. *)
Record ranging := { rg_adapter : bool; rg_active : option (Z * nat); rg_failed : bool }.

#[export] Instance ranging_eta : Eta ranging := fun r =>
  {| rg_adapter := rg_adapter r; rg_active := rg_active r; rg_failed := rg_failed r |}.

Record reader := {
  rd_prov : provisioned;
  rd_wallet : wallet;
  rd_docs : collecting;
  rd_presence : presence;
  rd_ranging : ranging;
  rd_established : Z;
  rd_last_close : bool;
  rd_sessions : list session;
  rd_log : list event;
}.

#[export] Instance reader_eta : Eta reader := fun r =>
  {| rd_prov := rd_prov r; rd_wallet := rd_wallet r; rd_docs := rd_docs r; rd_presence := rd_presence r;
     rd_ranging := rd_ranging r; rd_established := rd_established r; rd_last_close := rd_last_close r;
     rd_sessions := rd_sessions r; rd_log := rd_log r |}.

(** ** Access *)

Definition sess (st : reader) (i : nat) : session := nth i (rd_sessions st) session_zero.
Definition set_sess (i : nat) (s : session) (st : reader) : reader := st <| rd_sessions := <[i := s]> (rd_sessions st) |>.
Definition on_sess (i : nat) (f : session -> session) (st : reader) : reader := set_sess i (f (sess st i)) st.
Definition on_prov (f : provisioned -> provisioned) (st : reader) : reader := st <| rd_prov := f (rd_prov st) |>.
Definition on_wallet (f : wallet -> wallet) (st : reader) : reader := st <| rd_wallet := f (rd_wallet st) |>.
Definition on_docs (f : collecting -> collecting) (st : reader) : reader := st <| rd_docs := f (rd_docs st) |>.
Definition on_presence (f : presence -> presence) (st : reader) : reader := st <| rd_presence := f (rd_presence st) |>.
Definition on_ranging (f : ranging -> ranging) (st : reader) : reader := st <| rd_ranging := f (rd_ranging st) |>.

Definition emit (e : event) (st : reader) : reader := st <| rd_log := e :: rd_log st |>.

Definition trust (st : reader) : trust_store := pv_trust (rd_prov st).
Definition ident (st : reader) : reader_identity := pv_id (rd_prov st).

(** Whether [now] is at or past [deadline], across the wrap of the clock. *)
Definition at_or_past (now deadline : Z) : bool := 0 <=? i32 (now - deadline).
Definition expired (now : Z) (deadline : option Z) : bool :=
  match deadline with Some d => at_or_past now d | None => false end.

Definition phase_awaits_peer (ph : txn_phase) : bool :=
  match ph with PH_ESTABLISHED | PH_FAILED => false | _ => true end.

Section State.
Context `{W : World}.

(** *** Asking the surroundings *)

Definition ble_send (conn : Z) (frame : list Z) (st : reader) : reader * Z :=
  let rc := w_send (rd_log st) in (emit (EvSend conn frame rc) st, rc).

Definition monotonic_ms (st : reader) : reader * Z := (emit EvClock st, u32 (w_clock (rd_log st))).
Definition uptime_ms (st : reader) : reader * Z := (emit EvClock st, u32 (w_uptime (rd_log st))).
Definition draw (st : reader) : reader * list Z := (emit EvDraw st, w_draw (rd_log st)).
Definition random_txid (st : reader) : reader * option (list Z) := (emit EvDraw st, w_random (rd_log st)).

Definition prov_store (id : reader_identity) (ts : trust_store) (st : reader) : reader * Z :=
  let rc := w_store (rd_log st) in (emit (EvStore id ts rc) st, rc).

(** *** Sessions *)

Definition session_enter_phase (i : nat) (ph : txn_phase) (st : reader) : reader :=
  let was := se_phase (sess st i) in
  let st :=
    if bool_decide (was = ph) then st
    else if bool_decide (was = PH_ESTABLISHED) then st <| rd_established := u32 (rd_established st - 1) |>
    else if bool_decide (ph = PH_ESTABLISHED) then st <| rd_established := u32 (rd_established st + 1) |>
    else st in
  if phase_awaits_peer ph then
    let '(st, now) := monotonic_ms st in
    on_sess i (fun s => s <| se_phase := ph |> <| se_phase_deadline := Some (u32 (now + PHASE_TIMEOUT_MS)) |>) st
  else on_sess i (fun s => s <| se_phase := ph |> <| se_phase_deadline := None |>) st.

Definition session_terminate (i : nat) (st : reader) : reader :=
  if negb (se_active (sess st i)) || se_disconnect (sess st i) then st else
  let st := session_enter_phase i PH_FAILED st in
  let st := on_sess i (fun s => s <| se_phase_deadline := None |> <| se_overall_deadline := None |> <| se_disconnect := true |>) st in
  emit (EvDisconnect (se_conn (sess st i))) st.

Definition session_find (conn : Z) (st : reader) : option nat :=
  List.find (fun i => se_active (sess st i) && (se_conn (sess st i) =? conn)) (seq 0 MAX_SESSIONS).

Definition session_alloc (conn : Z) (st : reader) : reader * option nat :=
  match List.find (fun i => negb (se_active (sess st i))) (seq 0 MAX_SESSIONS) with
  | None => (st, None)
  | Some i =>
      let st := set_sess i (session_zero <| se_active := true |> <| se_conn := conn |>) st in
      let '(st, now) := monotonic_ms st in
      let st := on_sess i (fun s => s <| se_overall_deadline := Some (u32 (now + SESSION_TIMEOUT_MS)) |>) st in
      (session_enter_phase i PH_IDLE st, Some i)
  end.

(** *** Frames *)

Definition access_frame (apdu : list Z) : list Z :=
  [PROTO_ACCESS; AP_OP_COMMAND; u8 (Z.shiftr (zlen apdu) 8); u8 (zlen apdu)] ++ apdu.

Definition send_ap_command (conn ins : Z) (tlv : list Z) (st : reader) : reader * Z :=
  match apdu_wrap ins tlv 256 with
  | None => (st, -1)
  | Some apdu => ble_send conn (access_frame apdu) st
  end.

Definition send_ap_raw (conn : Z) (apdu : list Z) (st : reader) : reader * Z :=
  if 320 <? zlen apdu then (st, -1) else ble_send conn (access_frame apdu) st.

(** *** The ranging engine *)

Definition ranging_stop (conn : Z) (st : reader) : reader :=
  match rg_active (rd_ranging st) with
  | Some (c, _) =>
      if c =? conn
      then emit EvEngineGone (on_ranging (fun r => r <| rg_active := None |> <| rg_failed := false |>) st)
      else st
  | None => st
  end.

Definition ranging_start (conn sid : Z) (ursk : list Z) (slot : nat) (st : reader) : reader * Z :=
  if negb (rg_adapter (rd_ranging st)) then (st, -1) else
  let st := match rg_active (rd_ranging st) with Some (c, _) => ranging_stop c st | None => st end in
  let st := emit EvRadio st in
  let ok := w_engine (rd_log st) in
  let st := emit (EvEngine conn sid ursk ok) st in
  if negb ok then (st, -1)
  else (on_ranging (fun r => r <| rg_active := Some (conn, slot) |> <| rg_failed := false |>) st, 0).

(** The engine hands over a plaintext message. *)
Definition uwb_tx_cb `{G : Gcm} (conn : Z) (slot : nat) (msg : list Z) (st : reader) : reader :=
  if rg_failed (rd_ranging st) then st else
  let '(sc, sealed) := msg_seal (se_sc_ble (sess st slot)) msg (RANGING_MSG_MAX + GCM_TAG_LEN) in
  let fail st := emit (EvDisconnect conn) (on_ranging (fun r => r <| rg_failed := true |>) st) in
  match sealed with
  | None => fail st
  | Some wire =>
      let st := on_sess slot (fun s => s <| se_sc_ble := sc |>) st in
      let '(st, rc) := ble_send conn wire st in
      if rc =? 0 then st else fail st
  end.

Definition uwb_step `{G : Gcm} (conn : Z) (slot : nat) (st : reader) (o : uwb_out) : reader :=
  match o with
  | UwbTx msg => uwb_tx_cb conn slot msg st
  | UwbDeinit => on_ranging (fun r => r <| rg_active := None |>) st
  end.

Definition ranging_feed `{G : Gcm} (conn : Z) (data : list Z) (st : reader) : reader * Z :=
  match rg_active (rd_ranging st) with
  | None => (st, -1)
  | Some (c, slot) =>
      if rg_failed (rd_ranging st) || negb (c =? conn) then (st, -1) else
      if (zlen data <? 4) || (RANGING_MSG_MAX <? zlen data) then (st, -1) else
      let st := emit (EvEngineMsg data) st in
      let '(outs, ok) := w_handle (rd_log st) in
      let st := fold_left (uwb_step conn slot) outs st in
      (st, if ok then 0 else -1)
  end.

End State.
