(* ===== verification/Reader.v ===== *)
(** * The credential reader: the access protocol

    Models the transaction of [modules/ultrawidelock_cred/src/ultrawidelock_reader.c],
    from the phone's first message to the ranging session: AUTH0, the expedited
    fast phase, AUTH1, the trust decision, EXCHANGE, the step-up phase in which an
    unknown key may be learned from its Access Document, the RSSI power gate, and
    AP-Completed.  A handler takes the slot of its session and gives the state
    after it. *)

From Stdlib Require Import ZArith Lia Bool Strings.String.
From stdpp Require Import base list numbers option.
From S2P Require Import Prelude Wire CredCrypto Device CredTlv CredApdu Prov RssiGate Cbor StepupParse StepupWire Stepup ReaderState.

Local Open Scope Z_scope.
Local Open Scope uwl_scope.

Definition CRYPTOGRAM_SK_OFFSET : Z := 0.
Definition CRYPTOGRAM_LEN : Z := 64.
Definition CRED_TYPE_ALIRO_EVICTABLE : Z := 7.
Definition SW_OK : Z := 0x9000.

Definition k_ap_completed_plain : list Z := [0x02; 0x03; 0x00; 0x04; 0x00; 0x02; 0x20; 0x00].
Definition k_learn_element : list Z := text "matter1".

(** The versions salt of the ranging channel. *)
Definition reader_ble_salt : list Z := put_be 2 PROTO_VERSION ++ put_be 2 PROTO_VERSION.

(** The phone's own proprietary information, or the default of version 1.0. *)
Definition session_a5 (s : session) : list Z := if zlen (se_a5 s) =? 0 then k_a5_csa_v1 else se_a5 s.

Definition stepup_is_learn `{reader_cfg} (learn_pending : bool) : bool := if CFG_STEPUP_BENCH then learn_pending else true.

(** The number of the ranging session: the end of the transaction identifier. *)
Definition ranging_sid (txid : list Z) : Z := get_be (sub_bytes txid 12 4).

(** ** The key schedule of a session *)

Definition session_salt (type : salt_type) (st : reader) (s : session) (s3opt : option (list Z)) : option (list Z) :=
  salt_build type (se_txid s) (pv_group_x (rd_prov st)) (pub_x (se_eph_pub s)) (rid_reader_id (ident st)) IFACE_BLE PROTO_VERSION
    (se_exp_phase s) 0x01 s3opt (Some (session_a5 s)).

(** The block of the standard phase. *)
Definition session_block (st : reader) (s : session) : option (list Z) :=
  if negb (pv_have_group_x (rd_prov st)) then None else
  salt ← session_salt SALT_SESSION st s None; derive_block (se_z s) salt (pub_x (se_device_pub s)).

(** The fast-path key this standard phase agrees for a credential. *)
Definition session_kp (st : reader) (s : session) (cred_pub : list Z) : option (list Z) :=
  salt ← session_salt SALT_KPERSISTENT st s (Some (pub_x cred_pub)); derive_key32 (se_z s) salt (pub_x (se_device_pub s)).

(** The transcript the side [which] signs. *)
Definition session_authdata (which : Z) (st : reader) (s : session) : option (list Z) :=
  apdu_build_authdata which (rid_reader_id (ident st)) (pub_x (se_device_pub s)) (pub_x (se_eph_pub s)) (se_txid s) 160.

Definition init_ble_channel (block : list Z) (s : session) : option session :=
  '(ble_r, ble_d) ← derive_ble_keys block reader_ble_salt; Some (s <| se_sc_ble := secchan_init ble_r ble_d |>).

Section Protocol.
Context `{G : Gcm, E : Ec, W : World, C : reader_cfg}.

(** ** AUTH0 *)

Definition take_spare (i : nat) (sp : spare_ephemeral) (st : reader) : reader :=
  on_prov (fun p => p <| pv_spare := None |>)
    (on_sess i (fun s => s <| se_eph_priv := sp_priv sp |> <| se_eph_pub := sp_pub sp |> <| se_txid := sp_txid sp |>) st).

(** The ephemeral pair and transaction identifier of the session. *)
Definition fresh_ephemeral (i : nat) (st : reader) : reader * bool :=
  match pv_spare (rd_prov st) with
  | Some sp => (take_spare i sp st, true)
  | None =>
      let '(st, rnd) := draw st in
      match ec_keygen rnd with
      | None => (st, false)
      | Some (priv, pub) =>
          let st := on_sess i (fun s => s <| se_eph_priv := priv |> <| se_eph_pub := pub |>) st in
          let '(st, txid) := random_txid st in
          match txid with
          | None => (st, false)
          | Some txid => (on_sess i (fun s => s <| se_txid := txid |>) st, true)
          end
      end
  end.

(** The armed step-up of the bench is consumed by this transaction. *)
Definition arm_phase (i : nat) (st : reader) : reader :=
  let st := on_sess i (fun s => s <| se_exp_phase := if negb (ts_kp_valid (trust st) =? 0) then 0x01 else 0x00 |>) st in
  if CFG_STEPUP_BENCH && dc_armed (rd_docs st)
  then on_sess i (fun s => s <| se_stepup_active := true |> <| se_exp_phase := 0x00 |>) (on_docs (fun c => c <| dc_armed := false |>) st)
  else st.

Definition provisioning_usable (st : reader) : bool :=
  bool_decide (pv_state (rd_prov st) = PROVISIONING_READY) ||
  CFG_DEV_TRUST && bool_decide (pv_state (rd_prov st) = PROVISIONING_EMPTY).

Definition start_auth (i : nat) (st : reader) : reader :=
  if negb (provisioning_usable st) then session_terminate i st else
  let '(st, ok) := fresh_ephemeral i st in
  if negb ok then session_terminate i st else
  let st := arm_phase i st in
  let s := sess st i in
  match apdu_build_auth0 (se_exp_phase s) 0x01 PROTO_VERSION (se_eph_pub s) (se_txid s) (rid_reader_id (ident st)) 160 with
  | None => session_terminate i st
  | Some apdu =>
      let '(st, rc) := send_ap_command (se_conn s) INS_AUTH0 apdu st in
      if negb (rc =? 0) then session_terminate i st else session_enter_phase i PH_SENT_AUTH0 st
  end.

(** ** EXCHANGE *)

Definition send_exchange (i : nat) (st : reader) : reader * bool :=
  match apdu_build_exchange false 0 true 16 with
  | None => (session_terminate i st, false)
  | Some ex =>
      let '(sc, sealed) := secchan_seal (se_sc (sess st i)) [] ex in
      let st := on_sess i (fun s => s <| se_sc := sc |>) st in
      match sealed with
      | None => (session_terminate i st, false)
      | Some (ct, tag) =>
          let '(st, rc) := send_ap_command (se_conn (sess st i)) INS_EXCHANGE (ct ++ tag) st in
          if negb (rc =? 0) then (session_terminate i st, false) else (session_enter_phase i PH_SENT_EXCHANGE st, true)
      end
  end.

(** ** The fast phase *)

(** The most recent match first, then the others in the order of the store. *)
Definition fast_order (p : provisioned) : list nat :=
  let mru := pv_fast_mru p in
  (if (0 <=? mru) && (mru <? ts_count (pv_trust p)) then [Z.to_nat mru] else []) ++
  List.filter (fun i => negb (Z.of_nat i =? u8 mru)) (slots (pv_trust p)).

(** The block under the fast-path key of an anchor, if the cryptogram opens. *)
Definition fast_trial (st : reader) (s : session) (cryptogram : list Z) (i : nat) : option (list Z) :=
  if negb (has_bit (ts_kp_valid (trust st)) i) then None else
  salt ← session_salt SALT_CRYPTOGRAM st s (Some (pub_x (row [] (ts_cred_pub (trust st)) i)));
  block ← derive_block (row [] (ts_kpersistent (trust st)) i) salt (pub_x (se_device_pub s));
  _ ← verify_cryptogram (sub_bytes block CRYPTOGRAM_SK_OFFSET 32) cryptogram;
  Some block.

Fixpoint fast_search (st : reader) (s : session) (cryptogram : list Z) (order : list nat) : option (nat * list Z) :=
  match order with
  | [] => None
  | i :: order =>
      match fast_trial st s cryptogram i with
      | Some block => Some (i, block)
      | None => fast_search st s cryptogram order
      end
  end.

(** Recording who has authenticated. *)
Definition authenticated (pub : list Z) (mru : option Z) (st : reader) : reader :=
  on_prov (fun p => p <| pv_auth_cred := Some pub |> <| pv_auth_generation := u32 (pv_auth_generation p + 1) |>
                      <| pv_fast_mru := default (pv_fast_mru p) mru |>) st.

(** Whether the session was consumed. *)
Definition try_fast_auth (i : nat) (cryptogram : list Z) (st : reader) : reader * bool :=
  if negb (pv_have_group_x (rd_prov st)) then (st, false) else
  match fast_search st (sess st i) cryptogram (fast_order (rd_prov st)) with
  | None => (st, false)
  | Some (k, block) =>
      let matched_pub := row [] (ts_cred_pub (trust st)) k in
      let st := on_prov (fun p => p <| pv_last_cred := Some matched_pub |>) st in
      let '(enc, dec, ursk) := crypto_split block false in
      let st := on_sess i (fun s => s <| se_ursk := ursk |> <| se_sc := secchan_init enc dec |>) st in
      match init_ble_channel block (sess st i) with
      | None => (session_terminate i st, true)
      | Some s =>
          let '(st, sent) := send_exchange i (set_sess i s st) in
          if sent
          then (emit (EvAccess true) (authenticated matched_pub (Some (i8 (prov_trust_find (trust st) matched_pub))) st), true)
          else (st, true)
      end
  end.

(** The status word is the expected one. *)
Definition response_body (pl : list Z) : option (list Z) :=
  '(body, sw) ← apdu_strip_sw pl; if sw =? SW_OK then Some body else None.

Definition standard_phase (i : nat) (st : reader) : reader :=
  let s := sess st i in
  match ec_ecdh (se_eph_priv s) (se_device_pub s) with
  | None => session_terminate i st
  | Some shared =>
      let st := on_sess i (fun s => s <| se_z := derive_z shared (se_txid s) |>) st in
      match session_authdata AUTH_READER st (sess st i) with
      | None => session_terminate i st
      | Some td =>
          let '(st, rnd) := draw st in
          match ec_sign rnd (rid_sign_priv (ident st)) td with
          | None => session_terminate i st
          | Some sig =>
              match apdu_build_auth1 0x01 sig 128 with
              | None => session_terminate i st
              | Some apdu =>
                  let '(st, rc) := send_ap_command (se_conn (sess st i)) INS_AUTH1 apdu st in
                  if negb (rc =? 0) then session_terminate i st else session_enter_phase i PH_SENT_AUTH1 st
              end
          end
      end
  end.

Definition on_auth0_response (i : nat) (pl : list Z) (st : reader) : reader :=
  match (body ← response_body pl; apdu_parse_auth0_response body) with
  | None => session_terminate i st
  | Some r =>
      let st := on_sess i (fun s => s <| se_device_pub := a0_device_eph_pub r |>) st in
      match a0_cryptogram r with
      | Some cryptogram =>
          if negb CFG_STEPUP_FORCE && (se_exp_phase (sess st i) =? 0x01) then
            let '(st, consumed) := try_fast_auth i cryptogram st in
            if consumed then st else standard_phase i st
          else standard_phase i st
      | None => standard_phase i st
      end
  end.

(** ** AUTH1 *)

(** The channels and the URSK, before the body is read. *)
Definition install_keys (i : nat) (block : list Z) (st : reader) : reader :=
  let '(enc, dec, ursk) := crypto_split block true in
  let st := on_sess i (fun s => s <| se_ursk := ursk |> <| se_sc := secchan_init enc dec |>) st in
  if CFG_STEPUP && se_stepup_active (sess st i)
  then match stepup_derive_keys block with
       | Some (skr, skd) => on_sess i (fun s => s <| se_stepup_keys := (skr, skd) |> <| se_stepup_sc := stepup_channel_init skr skd |>) st
       | None => st
       end
  else st.

(** Decrypting and parsing the body. *)
Definition open_auth1 (i : nat) (body : list Z) (st : reader) : reader * option auth1_response :=
  if zlen body <? GCM_TAG_LEN then (st, None) else
  let ctlen := zlen body - GCM_TAG_LEN in
  if 256 <? ctlen then (st, None) else
  let '(sc, pt) := secchan_open (se_sc (sess st i)) [] (sub_bytes body 0 ctlen) (sub_bytes body ctlen GCM_TAG_LEN) in
  (on_sess i (fun s => s <| se_sc := sc |>) st, pt ≫= apdu_parse_auth1_response).

(** 0 for a key of the store, 1 when there is none at all, -1 otherwise. *)
Definition trust_verdict (st : reader) (cred_pub : list Z) : Z :=
  let tv := prov_trust_check (trust st) cred_pub in
  if CFG_STEPUP_FORCE && (tv =? 0) then -1 else tv.

Definition dev_accepts (st : reader) (tv : Z) : bool :=
  (tv =? 1) && rid_is_dev (ident st) && CFG_DEV_TRUST && bool_decide (pv_state (rd_prov st) = PROVISIONING_EMPTY).

(** Asking an unknown device for its Access Document, or not. *)
Definition begin_learn (i : nat) (block cred_pub : list Z) (r : auth1_response) (st : reader) : option reader :=
  if negb CFG_STEPUP || negb (0 <? ts_issuer_count (trust st)) || negb (bool_decide (is_Some (a1_device_pub r))) ||
     (Z.land (a1_signaling r) 1 =? 0)
  then None
  else
    '(skr, skd) ← stepup_derive_keys block;
    Some (on_sess i (fun s => s <| se_stepup_keys := (skr, skd) |> <| se_stepup_sc := stepup_channel_init skr skd |>
                                <| se_stepup_active := true |> <| se_learn_pending := true |> <| se_learn_pub := cred_pub |>) st).

(** The fast-path key staged for a key of the store, and its slot. *)
Definition stage_kp (st : reader) (s : session) (tv : Z) (cred_pub : list Z) : option (Z * list Z) :=
  if negb (tv =? 0) then None else
  kp ← session_kp st s cred_pub;
  let ki := prov_trust_find (trust st) cred_pub in
  if 0 <=? ki then Some (ki, kp) else None.

Definition commit_kp (staged : option (Z * list Z)) (cred_pub : list Z) (st : reader) : reader :=
  match staged with
  | None => st
  | Some (ki, kp) =>
      let ki :=
        if (ts_count (trust st) <=? ki) || negb (bool_decide (row [] (ts_cred_pub (trust st)) (Z.to_nat ki) = cred_pub))
        then prov_trust_find (trust st) cred_pub else ki in
      if ki <? 0 then st else
      let '(ts, rc) := prov_kpersistent_set (trust st) ki kp in
      if rc =? 0 then on_prov (fun p => p <| pv_trust := ts |> <| pv_kp_dirty := true |>) st else st
  end.

(** From the trust decision on. *)
Definition decide_auth1 (i : nat) (block cred_pub : list Z) (r : auth1_response) (st : reader) : reader :=
  let st := on_prov (fun p => p <| pv_last_cred := Some cred_pub |>) st in
  let tv := trust_verdict st cred_pub in
  let admitted :=
    if (tv =? 0) || dev_accepts st tv then Some st else begin_learn i block cred_pub r st in
  match admitted with
  | None => session_terminate i (emit (EvAccess false) st)
  | Some st =>
      let staged := stage_kp st (sess st i) tv cred_pub in
      let '(st, sent) := send_exchange i st in
      if negb sent then st else
      let st := commit_kp staged cred_pub st in
      if CFG_STEPUP && se_learn_pending (sess st i) then st else
      emit (EvAccess true)
        (authenticated cred_pub (if tv =? 0 then Some (i8 (prov_trust_find (trust st) cred_pub)) else None) st)
  end.

Definition on_auth1_response (i : nat) (pl : list Z) (st : reader) : reader :=
  match response_body pl with
  | None => session_terminate i st
  | Some body =>
      match session_block st (sess st i) with
      | None => session_terminate i st
      | Some block =>
          let st := install_keys i block st in
          match init_ble_channel block (sess st i) with
          | None => session_terminate i st
          | Some s =>
              let '(st, r) := open_auth1 i body (set_sess i s st) in
              match r with
              | None => session_terminate i st
              | Some r =>
                  let s := sess st i in
                  let cred_pub := default (se_device_pub s) (a1_device_pub r) in
                  match session_authdata AUTH_DEVICE st s with
                  | None => session_terminate i st
                  | Some td =>
                      if negb (ec_verify cred_pub td (a1_device_sig r)) then session_terminate i st
                      else decide_auth1 i block cred_pub r st
                  end
              end
          end
      end
  end.

(** ** AP-Completed and the power gate *)

(** A Secured the phone never received is armed for a replay. *)
Definition arm_replay (st : reader) : reader :=
  if wl_undelivered (rd_wallet st) then
    let '(st, now) := monotonic_ms st in
    let at_ := u32 (now + SECURED_REPLAY_HOLD_MS) in
    on_wallet (fun w => w <| wl_replay_at := if at_ =? 0 then 1 else at_ |> <| wl_peer_unknown := true |>) st
  else st.

Definition complete_ap_and_range (i : nat) (st : reader) : reader :=
  let '(sc, sealed) := msg_seal (se_sc_ble (sess st i)) k_ap_completed_plain 64 in
  let st := on_sess i (fun s => s <| se_sc_ble := sc |>) st in
  match sealed with
  | None => session_terminate i st
  | Some wire =>
      let '(st, rc) := ble_send (se_conn (sess st i)) wire st in
      if negb (rc =? 0) then session_terminate i st else
      let s := sess st i in
      let '(st, rc) := ranging_start (se_conn s) (ranging_sid (se_txid s)) (se_ursk s) i st in
      if negb (rc =? 0) then session_terminate i st else arm_replay (session_enter_phase i PH_ESTABLISHED st)
  end.

Definition gated_complete_ap (i : nat) (st : reader) : reader :=
  let g := se_gate (sess st i) in
  if CFG_RSSI_GATE && primed g && negb (rssi_gate_is_open g) then
    let '(st, now) := uptime_ms (session_enter_phase i PH_GATE_HOLD st) in
    on_sess i (fun s => s <| se_gate := rssi_gate_hold_begin (se_gate s) now |>) st
  else complete_ap_and_range i st.

(** ** The step-up phase *)

Definition stepup_sd_release (conn : Z) (st : reader) : reader :=
  if dc_owner (rd_docs st) =? conn then on_docs (fun c => c <| dc_owner := STEPUP_SD_FREE |> <| dc_sd := [] |>) st else st.

Definition learn_reject (i : nat) (st : reader) : reader :=
  let st := on_sess i (fun s => s <| se_stepup_active := false |> <| se_learn_pending := false |>) st in
  session_terminate i (emit (EvAccess false) (stepup_sd_release (se_conn (sess st i)) st)).

(** Going on without a document: the bench's unlock is never blocked, the learn
    path has none to protect. *)
Definition without_document (release : bool) (i : nat) (st : reader) : reader :=
  if stepup_is_learn (se_learn_pending (sess st i)) then learn_reject i st else
  let st := on_sess i (fun s => s <| se_stepup_active := false |>) st in
  gated_complete_ap i (if release then stepup_sd_release (se_conn (sess st i)) st else st).

Definition device_request (s : session) : option (list Z) :=
  if CFG_STEPUP_BENCH && negb (se_learn_pending s) then build_device_request [] 128
  else match build_device_request_ex k_learn_element true 128 with STEPUP_OK r => Some r | STEPUP_ERR _ => None end.

(** The channel after sealing, and the ENVELOPE. *)
Definition envelope_apdu (s : session) : secchan * option (list Z) :=
  match device_request s with
  | None => (se_stepup_sc s, None)
  | Some devreq =>
      let '(sc, sealed) := stepup_seal_sessiondata (se_stepup_sc s) devreq 300 in
      (sc, sd ← sealed;
           match wrap_do53 sd (zeros 256) with
           | STEPUP_OK do53 => stepup_build_envelope do53 false 300
           | STEPUP_ERR _ => None
           end)
  end.

Definition stepup_send_request (i : nat) (st : reader) : reader :=
  let conn := se_conn (sess st i) in
  let owner := dc_owner (rd_docs st) in
  if negb (owner =? STEPUP_SD_FREE) && negb (owner =? conn) then without_document false i st else
  let st := on_docs (fun c => c <| dc_owner := conn |> <| dc_sd := [] |>) st in
  let '(sc, apdu) := envelope_apdu (sess st i) in
  let st := on_sess i (fun s => s <| se_stepup_sc := sc |>) st in
  match apdu with
  | None => without_document true i st
  | Some apdu =>
      let '(st, rc) := send_ap_raw conn apdu st in
      if negb (rc =? 0) then session_terminate i st else session_enter_phase i PH_SENT_STEPUP st
  end.

(** *** Learning a key from its Access Document *)

(** Only a provisioned issuer may vouch: the certificate the document brought
    along is dropped. *)
Definition without_x5chain (doc : stepup_doc) : stepup_doc := doc <| sd_x5chain := None |> <| sd_x5_cert := None |>.

Definition learn_ctx (st : reader) (m : memory) (doc : stepup_doc) (pub : list Z) : verify_ctx :=
  let now := dc_time (rd_docs st) in
  {| vc_issuers := [{| ik_kid := match sd_kid doc with Some s => load_slice m s | None => [] end; ik_pub := pub |}];
     vc_time_valid := negb (now =? 0);
     vc_now_epoch := now;
     vc_time_ratchet := true;
     vc_access_iteration := 0;
     vc_expected_doctype := Some DOCTYPE_ACCESS;
     vc_ecdsa_verify_hash := Some ec_verify_hash |}.

(** Each issuer in turn; one that signed the document ends the search.  The key
    that was picked, and the last verdict. *)
Fixpoint pick_issuer (st : reader) (m : memory) (doc : stepup_doc) (pubs : list (list Z)) (v : stepup_verdict) :
    option (list Z) * stepup_verdict :=
  match pubs with
  | [] => (None, v)
  | pub :: pubs =>
      let v := stepup_verify m doc (learn_ctx st m doc pub) in
      if sv_valid v then (Some pub, v) else if sv_sig_ok v then (None, v) else pick_issuer st m doc pubs v
  end.

Definition issuer_keys (st : reader) : list (list Z) := map (fun i => row [] (ts_issuer_pub (trust st)) i) (issuer_slots (trust st)).

Definition learn_verify `{stepup_cfg} (i : nat) (st : reader) : reader * option (list Z) * stepup_verdict :=
  let n := ts_issuer_count (trust st) in
  let s := sess st i in
  if (n =? 0) || (ISSUER_MAX <? n) || negb (dc_owner (rd_docs st) =? se_conn s) then (st, None, verdict_zero) else
  let '(sc, plain) := stepup_open_sessiondata (se_stepup_sc s) (dc_sd (rd_docs st)) CFG_STEPUP_SD_MAX in
  let st := on_sess i (fun s => s <| se_stepup_sc := sc |>) st in
  match plain with
  | None => (st, None, verdict_zero)
  | Some plain =>
      match parse_response (zlen plain) (mem_of plain) with
      | Ok doc _ =>
          let doc := without_x5chain doc in
          let '(picked, v) := pick_issuer st (mem_of plain) doc (issuer_keys st) verdict_zero in
          if bool_decide (sd_device_key doc = Some (se_learn_pub s)) then (st, picked, v) else (st, None, v)
      | _ => (st, None, verdict_zero)
      end
  end.

(** The store with the learned key in it, its slot, and the indices it is filed
    under. *)
Definition learn_candidate (st : reader) (s : session) (issuer_pub : list Z) : option (trust_store * Z * Z * Z) :=
  let cand := trust st in
  let iss := prov_issuer_find cand issuer_pub in
  if iss <? 0 then None else
  let '(cand, add) := prov_trust_add cand (se_learn_pub s) in
  if add <? 0 then None else
  let slot := prov_trust_find cand (se_learn_pub s) in
  if slot <? 0 then None else
  let '(cand, index, user) :=
    if add =? 1 then (cand, row 0 (ts_cred_index cand) (Z.to_nat slot), row 0 (ts_user_index cand) (Z.to_nat slot))
    else
      let index := prov_free_cred_index cand CRED_TYPE_ALIRO_EVICTABLE in
      let user := row 0 (ts_issuer_user_index cand) (Z.to_nat iss) in
      let cand := (prov_cred_bind_set cand slot CRED_TYPE_ALIRO_EVICTABLE index user).1 in
      ((prov_anchor_issuer_set cand slot iss).1, index, user) in
  let cand := match session_kp st s (se_learn_pub s) with Some kp => (prov_kpersistent_set cand slot kp).1 | None => cand end in
  Some (cand, slot, index, user).

Definition learn_commit (i : nat) (issuer_pub : list Z) (st : reader) : reader * bool :=
  let s := sess st i in
  match learn_candidate st s issuer_pub with
  | None => (st, false)
  | Some (cand, slot, index, user) =>
      let '(st, rc) := prov_store (ident st) cand st in
      if negb (rc =? 0) then (st, false) else
      let st := authenticated (se_learn_pub s) (Some (i8 slot)) (on_prov (fun p => p <| pv_trust := cand |>) st) in
      (emit (EvLearned CRED_TYPE_ALIRO_EVICTABLE index user (se_learn_pub s)) st, true)
  end.

Definition learn_decide `{stepup_cfg} (i : nat) (st : reader) : reader :=
  let '(st, issuer, v) := learn_verify i st in
  let st := stepup_sd_release (se_conn (sess st i)) (on_docs (fun c => c <| dc_sd := zeros (zlen (dc_sd c)) |>) st) in
  match issuer with
  | None => learn_reject i st
  | Some issuer_pub =>
      let '(st, learned) := learn_commit i issuer_pub st in
      if negb learned then learn_reject i st else
      let st := on_docs (fun c => c <| dc_time := Z.max (dc_time c) (sv_ratchet_epoch v) |>) st in
      let st := on_sess i (fun s => s <| se_stepup_active := false |> <| se_learn_pending := false |>) st in
      gated_complete_ap i (emit (EvAccess true) st)
  end.

(** *** Collecting the document *)

(** The bytes of one response: kept, dropped, or too many for the learn path. *)
Definition stepup_collect (i : nat) (body : list Z) (st : reader) : option reader :=
  let conn := se_conn (sess st i) in
  let owner := dc_owner (rd_docs st) =? conn in
  if zlen body =? 0 then Some st
  else if owner && (zlen (dc_sd (rd_docs st)) + zlen body <=? CFG_STEPUP_SD_MAX)
  then Some (on_docs (fun c => c <| dc_sd := dc_sd c ++ body |>) st)
  else if stepup_is_learn (se_learn_pending (sess st i)) then None
  else Some (stepup_sd_release conn st).

(** What the worker is given, and the buffer back. *)
Definition stepup_submit_job (i : nat) (st : reader) : reader :=
  let s := sess st i in
  let st := emit (EvJob (se_stepup_keys s).1 (se_stepup_keys s).2 (dc_sd (rd_docs st))) st in
  stepup_sd_release (se_conn s) (on_sess i (fun s => s <| se_stepup_active := false |>) st).

(** The bench's one-shot: complete first, then hand the document over. *)
Definition finish_bench (i : nat) (st : reader) : reader :=
  let st := gated_complete_ap i st in
  let conn := se_conn (sess st i) in
  let drop st := stepup_sd_release conn (on_sess i (fun s => s <| se_stepup_active := false |>) st) in
  if (dc_owner (rd_docs st) =? conn) && (0 <? zlen (dc_sd (rd_docs st))) then
    match unwrap_do53 (dc_sd (rd_docs st)) with
    | STEPUP_OK sd => stepup_submit_job i (on_docs (fun c => c <| dc_sd := sd |>) st)
    | STEPUP_ERR _ => drop st
    end
  else drop st.

Definition finish_learn `{stepup_cfg} (i : nat) (sw : Z) (st : reader) : reader :=
  if negb (sw =? SW_OK) || (zlen (dc_sd (rd_docs st)) =? 0) then learn_reject i st else
  match unwrap_do53 (dc_sd (rd_docs st)) with
  | STEPUP_ERR _ => learn_reject i st
  | STEPUP_OK sd => learn_decide i (on_docs (fun c => c <| dc_sd := sd |>) st)
  end.

Definition on_stepup_response `{stepup_cfg} (i : nat) (pl : list Z) (st : reader) : reader :=
  match apdu_strip_sw pl with
  | None => without_document true i st
  | Some (body, sw) =>
      match stepup_collect i body st with
      | None => learn_reject i st
      | Some st =>
          if Z.land sw 0xff00 =? 0x6100 then
            match stepup_build_get_response (Z.land sw 0xff) 8 with
            | None => st
            | Some apdu =>
                let '(st, rc) := send_ap_raw (se_conn (sess st i)) apdu st in
                if negb (rc =? 0) then session_terminate i st else st
            end
          else if stepup_is_learn (se_learn_pending (sess st i)) then finish_learn i sw st
          else finish_bench i st
      end
  end.

(** ** The EXCHANGE response *)

Definition exchange_accepted (body : list Z) : bool := (4 <=? zlen body) && (byte_at body 2 =? 0) && (byte_at body 3 =? 0).

Definition on_exchange_response (i : nat) (pl : list Z) (st : reader) : reader :=
  match response_body pl with
  | None => session_terminate i st
  | Some r =>
      let bodylen := if GCM_TAG_LEN <=? zlen r then zlen r - GCM_TAG_LEN else 0 in
      if (bodylen =? 0) || (16 <? bodylen) then session_terminate i st else
      let '(sc, body) := secchan_open (se_sc (sess st i)) [] (sub_bytes r 0 bodylen) (sub_bytes r bodylen GCM_TAG_LEN) in
      let st := on_sess i (fun s => s <| se_sc := sc |>) st in
      match body with
      | None => session_terminate i st
      | Some body =>
          if negb (exchange_accepted body) then session_terminate i st
          else if CFG_STEPUP && se_stepup_active (sess st i) then stepup_send_request i st
          else gated_complete_ap i st
      end
  end.

(** ** One message *)

Inductive a5_found := A5_NONE | A5_UNUSABLE | A5_TLV (tlv : list Z).

Fixpoint capture_a5_tlv (pl : list Z) (cap : Z) : a5_found :=
  match pl with
  | tag :: ((vlen :: _) as rest) =>
      if negb (tag =? 0xa5) then capture_a5_tlv rest cap
      else if 0x80 <=? vlen then A5_UNUSABLE
      else if zlen pl <? 2 + vlen then capture_a5_tlv rest cap
      else if cap <? 2 + vlen then A5_UNUSABLE
      else A5_TLV (sub_bytes pl 0 (2 + vlen))
  | _ => A5_NONE
  end.

Definition on_first_message (i : nat) (pl : list Z) (st : reader) : reader :=
  match capture_a5_tlv pl 64 with
  | A5_UNUSABLE => session_terminate i st
  | A5_NONE => start_auth i (on_sess i (fun s => s <| se_a5 := [] |>) st)
  | A5_TLV tlv => start_auth i (on_sess i (fun s => s <| se_a5 := tlv |>) st)
  end.

Definition on_ranging_sdu (i : nat) (data : list Z) (st : reader) : reader :=
  let '(sc, plain) := msg_open (se_sc_ble (sess st i)) data 256 in
  let st := on_sess i (fun s => s <| se_sc_ble := sc |>) st in
  match plain with
  | None => session_terminate i st
  | Some plain =>
      let '(st, rc) := ranging_feed (se_conn (sess st i)) plain st in
      if negb (rc =? 0) then session_terminate i st else st
  end.

(** The envelope, or the whole message under a type no envelope has. *)
Definition message_of (data : list Z) : envelope :=
  default {| ev_type := 0xff; ev_opcode := 0xff; ev_payload := data |} (ble_unframe data).

Definition is_general_error (pl : list Z) : bool := (3 <=? zlen pl) && (byte_at pl 0 =? 0x01) && (byte_at pl 1 =? 0x01).

Definition transaction_feed `{stepup_cfg} (i : nat) (data : list Z) (st : reader) : reader :=
  let st := on_sess i (fun s => s <| se_msgs_rx := u32 (se_msgs_rx s + 1) |>) st in
  let e := message_of data in
  let pl := ev_payload e in
  let ph := se_phase (sess st i) in
  if negb (bool_decide (ph = PH_ESTABLISHED)) && (ev_type e =? PROTO_NOTIFICATION) && (ev_opcode e =? NOTIF_EVENT) then
    if is_general_error pl then session_terminate i st else st
  else
    match ph with
    | PH_IDLE => on_first_message i pl st
    | PH_SENT_AUTH0 => on_auth0_response i pl st
    | PH_SENT_AUTH1 => on_auth1_response i pl st
    | PH_SENT_EXCHANGE => on_exchange_response i pl st
    | PH_SENT_STEPUP => on_stepup_response i pl st
    | PH_ESTABLISHED => on_ranging_sdu i data st
    | PH_GATE_HOLD | PH_FAILED => st
    end.

End Protocol.
