(* ===== verification/ReaderHost.v ===== *)
(** * The credential reader: callbacks of the host

    Models the rest of [modules/ultrawidelock_cred/src/ultrawidelock_reader.c]
    that runs on the BLE-host task or beside it: connections and received data,
    the samples of the power gate, Reader-Status-Changed and its replay, the
    deadlines, the presence checkpoint, and the housekeeping that persists the
    store and refills the spare ephemeral.  A call that hands work to the host
    task is an event; the work is an operation of its own. *)

From Stdlib Require Import ZArith Lia Bool.
From stdpp Require Import base list numbers option.
From S2P Require Import Prelude Wire CredCrypto Device CredApdu Prov RssiGate StepupParse ReaderState Reader.

Local Open Scope Z_scope.
Local Open Scope uwl_scope.

Definition HOUSEKEEPING_REFILL : Z := 0x01.
Definition HOUSEKEEPING_STORE : Z := 0x02.

Definition POST_STATUS_SECURED : Z := 0.
Definition POST_STATUS_UNSECURED : Z := 1.
Definition POST_TICK : Z := 2.
Definition POST_PRESENCE : Z := 3.
Definition POST_SWEEP : Z := 4.

Definition all_slots : list nat := seq 0 MAX_SESSIONS.

Definition status_plain (unsecured : bool) : list Z :=
  [0x02; 0x02; 0x00; 0x04; 0x00; 0x02; 0x04; if unsecured then 0x01 else 0x00].

Section Host.
Context `{G : Gcm, E : Ec, W : World, C : reader_cfg}.

(** ** Provisioning *)

Definition PROV_LOAD_EMPTY : Z := 1.

(** The group key of the salts, after any change of the identity. *)
Definition compute_reader_group_x (st : reader) : reader :=
  match (if w_crypto (rd_log st) then ec_pub_from_priv (rid_sign_priv (ident st)) else None) with
  | Some pub => on_prov (fun p => p <| pv_group_x := pub_x pub |> <| pv_have_group_x := true |>) st
  | None => on_prov (fun p => p <| pv_have_group_x := false |>) st
  end.

Definition load_provisioning (st : reader) : reader * Z :=
  let p := rd_prov st in
  if pv_loaded p && negb (bool_decide (pv_state p = PROVISIONING_UNAVAILABLE))
  then (st, if bool_decide (pv_state p = PROVISIONING_READY) then 0 else PROV_LOAD_EMPTY)
  else
    let '(rc, (id, ts)) := w_load (rd_log st) in
    let state :=
      if rc =? 0 then if rid_is_dev id && (ts_count ts =? 0) then PROVISIONING_EMPTY else PROVISIONING_READY
      else if rc =? PROV_LOAD_EMPTY then PROVISIONING_EMPTY else PROVISIONING_UNAVAILABLE in
    let st := on_prov (fun p => p <| pv_id := id |> <| pv_trust := ts |> <| pv_state := state |>) (emit EvLoad st) in
    (on_prov (fun p => p <| pv_loaded := true |>) (compute_reader_group_x st), rc).

Definition loaded (st : reader) : reader := (load_provisioning st).1.

(** ** Reader-Status-Changed *)

Definition reader_status_send (i : nat) (unsecured : bool) (st : reader) : reader :=
  let '(sc, sealed) := msg_seal (se_sc_ble (sess st i)) (status_plain unsecured) 64 in
  let st := on_sess i (fun s => s <| se_sc_ble := sc |>) st in
  match sealed with
  | None => session_terminate i st
  | Some wire =>
      let '(st, rc) := ble_send (se_conn (sess st i)) wire st in
      if negb (rc =? 0) then
        session_terminate i (if unsecured then st else on_wallet (fun w => w <| wl_undelivered := true |>) st)
      else on_wallet (fun _ => {| wl_undelivered := false; wl_replay_at := 0; wl_last_unsecured := unsecured; wl_peer_unknown := false |}) st
  end.

Definition is_established (st : reader) (i : nat) : bool :=
  se_active (sess st i) && bool_decide (se_phase (sess st i) = PH_ESTABLISHED).

Definition reader_status_send_on_host (unsecured : bool) (st : reader) : reader :=
  if eqb unsecured (wl_last_unsecured (rd_wallet st)) && negb (wl_peer_unknown (rd_wallet st)) then st else
  match List.find (is_established st) all_slots with
  | None => if unsecured then st else on_wallet (fun w => w <| wl_undelivered := true |>) st
  | Some i => reader_status_send i unsecured st
  end.

Definition reader_notify_unlock (unsecured : bool) (st : reader) : reader :=
  emit (EvPost (if unsecured then POST_STATUS_UNSECURED else POST_STATUS_SECURED)) (emit (EvLockState unsecured) st).

(** ** Deadlines *)

Definition session_idle_extend (now_ms : Z) (i : nat) (st : reader) : reader :=
  let s := sess st i in
  match se_overall_deadline s, w_range_age (rd_log st) with
  | Some deadline, Some age_ms =>
      if bool_decide (se_phase s = PH_ESTABLISHED) && (0 <=? age_ms) && (age_ms <? SESSION_TIMEOUT_MS) then
        let until := u32 (now_ms + (SESSION_TIMEOUT_MS - age_ms)) in
        if 0 <? i32 (until - deadline) then on_sess i (fun s => s <| se_overall_deadline := Some until |>) st else st
      else st
  | _, _ => st
  end.

Definition tick_session (now_ms : Z) (st : reader) (i : nat) : reader :=
  if negb (se_active (sess st i)) then st else
  let st := session_idle_extend now_ms i st in
  let s := sess st i in
  if expired now_ms (se_phase_deadline s) || expired now_ms (se_overall_deadline s) then session_terminate i st else st.

Definition reader_session_active (st : reader) : bool := negb (rd_established st =? 0).

Definition reader_tick_on_host (now_ms : Z) (st : reader) : reader :=
  let st := fold_left (tick_session now_ms) all_slots st in
  let at_ := wl_replay_at (rd_wallet st) in
  if (at_ =? 0) || negb (at_or_past now_ms at_) then st else
  let st := on_wallet (fun w => w <| wl_replay_at := 0 |>) st in
  if negb (wl_undelivered (rd_wallet st)) || negb (reader_session_active st) then st
  else emit (EvPost POST_STATUS_SECURED) st.

(** ** Presence *)

Definition any_session_active (st : reader) : bool := existsb (fun i => se_active (sess st i)) all_slots.

Definition presence_checkpoint_ready (st : reader) : reader :=
  on_presence (fun p => p <| ps_ready := ps_request p |> <| ps_ready_generation := pv_auth_generation (rd_prov st) |>
                          <| ps_wait := false |>) st.

Definition disconnect_slot (st : reader) (i : nat) : reader :=
  if se_active (sess st i) then emit (EvDisconnect (se_conn (sess st i))) st else st.

Definition presence_reset_on_host (st : reader) : reader :=
  let st := on_presence (fun p => p <| ps_wait := true |>) st in
  let disconnecting := any_session_active st in
  let st := fold_left disconnect_slot all_slots st in
  if disconnecting then st else presence_checkpoint_ready st.

(** The request number is never 0. *)
Definition reader_presence_restart (st : reader) : reader * Z :=
  let st := loaded st in
  let next := u32 (ps_request (rd_presence st) + 1) in
  let request := if next =? 0 then 1 else next in
  (emit (EvPost POST_PRESENCE) (on_presence (fun p => p <| ps_request := request |> <| ps_ready := 0 |>) st), request).

(** The generation at the checkpoint, when it is the one asked for. *)
Definition reader_presence_checkpoint (request : Z) (st : reader) : reader * option Z :=
  let st := loaded st in
  let p := rd_presence st in
  (st, if negb (request =? 0) && (ps_ready p =? request) then Some (ps_ready_generation p) else None).

Definition reader_presence_authenticated_after (checkpoint : Z) (st : reader) : reader * option (list Z) :=
  let st := loaded st in
  (st, if 0 <? i32 (pv_auth_generation (rd_prov st) - checkpoint) then pv_auth_cred (rd_prov st) else None).

Definition reader_presence_expected_credential (st : reader) : reader * option (list Z) :=
  let st := loaded st in
  (st, if ts_count (trust st) =? 1 then Some (row [] (ts_cred_pub (trust st)) 0) else None).

Definition reader_authenticated_credential (st : reader) : reader * option (list Z) :=
  let st := loaded st in (st, pv_auth_cred (rd_prov st)).

(** ** Housekeeping *)

Definition flush_pending_store (st : reader) : reader * Z :=
  if negb (pv_kp_dirty (rd_prov st)) then (st, 0) else
  let st := on_prov (fun p => p <| pv_kp_dirty := false |>) st in
  let '(st, rc) := prov_store (ident st) (trust st) st in
  if negb (rc =? 0) then (on_prov (fun p => p <| pv_kp_dirty := true |>) st, rc) else (st, 0).

Definition spare_eph_refill (st : reader) : reader * bool :=
  match pv_spare (rd_prov st) with
  | Some _ => (st, true)
  | None =>
      let '(st, rnd) := draw st in
      match ec_keygen rnd with
      | None => (st, false)
      | Some (priv, pub) =>
          let '(st, txid) := random_txid st in
          match txid with
          | None => (st, false)
          | Some txid => (on_prov (fun p => p <| pv_spare := Some {| sp_priv := priv; sp_pub := pub; sp_txid := txid |} |>) st, true)
          end
      end
  end.

Definition housekeeping_schedule (reasons : Z) (st : reader) : reader :=
  on_prov (fun p => p <| pv_reasons := Z.lor (pv_reasons p) reasons |>) st.

(** What is left to retry. *)
Definition housekeeping_run_once (st : reader) : reader * Z :=
  let reasons := pv_reasons (rd_prov st) in
  let st := on_prov (fun p => p <| pv_reasons := 0 |>) st in
  let '(st, retry) :=
    if negb (Z.land reasons HOUSEKEEPING_REFILL =? 0) then
      let '(st, ok) := spare_eph_refill st in (st, if ok then 0 else HOUSEKEEPING_REFILL)
    else (st, 0) in
  let '(st, retry) :=
    if negb (Z.land reasons HOUSEKEEPING_STORE =? 0) then
      let '(st, rc) := flush_pending_store st in (st, if rc =? 0 then retry else Z.lor retry HOUSEKEEPING_STORE)
    else (st, retry) in
  (if retry =? 0 then st else housekeeping_schedule retry st, retry).

(** ** The transport *)

Definition on_connected (conn : Z) (st : reader) : reader := (session_alloc conn st).1.

Definition on_disconnected (conn : Z) (st : reader) : reader :=
  let found := session_find conn st in
  let st :=
    match found with
    | Some i =>
        let st := st <| rd_last_close := bool_decide (se_phase (sess st i) = PH_ESTABLISHED) |> in
        on_sess i (fun s => s <| se_active := false |>) (session_enter_phase i PH_FAILED st)
    | None => st
    end in
  let st := ranging_stop conn st in
  let st := match found with Some i => set_sess i session_zero st | None => st end in
  let st := if CFG_STEPUP then stepup_sd_release conn st else st in
  let st := if ps_wait (rd_presence st) && negb (any_session_active st) then presence_checkpoint_ready st else st in
  housekeeping_schedule (Z.lor HOUSEKEEPING_REFILL HOUSEKEEPING_STORE) st.

(** The envelopes of one receive, each fed in turn. *)
Fixpoint feed_loop `{stepup_cfg} (fuel : nat) (i : nat) (data : list Z) (st : reader) : reader :=
  match fuel with
  | O => st
  | S fuel =>
      if zlen data =? 0 then st else
      let sdu := match ble_unframe data with Some e => ENVELOPE_HDR + zlen (ev_payload e) | None => zlen data end in
      let st := transaction_feed i (sub_bytes data 0 sdu) st in
      if negb (se_active (sess st i)) || se_disconnect (sess st i) then st
      else feed_loop fuel i (drop (Z.to_nat sdu) data) st
  end.

(** The session the data goes to, if the deadlines allow it. *)
Definition on_data_admit (conn : Z) (st : reader) : reader * option nat :=
  match session_find conn st with
  | None => (st, None)
  | Some i =>
      let '(st, now_ms) := monotonic_ms st in
      let s := sess st i in
      if bool_decide (se_phase s = PH_ESTABLISHED) then
        (match se_overall_deadline s with
         | Some _ => on_sess i (fun s => s <| se_overall_deadline := Some (u32 (now_ms + SESSION_TIMEOUT_MS)) |>) st
         | None => st
         end, Some i)
      else if expired now_ms (se_phase_deadline s) || expired now_ms (se_overall_deadline s) then (session_terminate i st, None)
      else (st, Some i)
  end.

Definition on_data `{stepup_cfg} (conn : Z) (data : list Z) (st : reader) : reader :=
  let '(st, slot) := on_data_admit conn st in
  match slot with Some i => feed_loop (length data) i data st | None => st end.

(** ** The power gate *)

Definition reader_rssi_sample (conn rssi_dbm : Z) (st : reader) : reader :=
  match session_find conn st with
  | None => st
  | Some i =>
      let '(st, now_ms) := uptime_ms st in
      let was_open := rssi_gate_is_open (se_gate (sess st i)) in
      let '(g, open) := rssi_gate_feed (se_gate (sess st i)) CFG_GATE rssi_dbm now_ms in
      let st := on_sess i (fun s => s <| se_gate := g |>) st in
      if open && bool_decide (se_phase (sess st i) = PH_GATE_HOLD) then complete_ap_and_range i st
      else if was_open && negb open && bool_decide (se_phase (sess st i) = PH_ESTABLISHED) then
        let st := ranging_stop conn st in
        let st := if wl_last_unsecured (rd_wallet st) then reader_status_send i false st else st in
        emit (EvDisconnect conn) st
      else st
  end.

End Host.

(** * The credential reader: administration

    Models the operations of [modules/ultrawidelock_cred/src/ultrawidelock_reader.c]
    that the console and the Matter bridge call: the identity, the keys the reader
    trusts and the issuers it believes, revocation and what it drops besides the
    keys, the clone blob, and the advertisement that follows the identity.

    A key that is added is written first and trusted second; a key that is removed
    is forgotten first and written second. *)

Local Open Scope Z_scope.
Local Open Scope uwl_scope.

Definition CRED_TYPE_ALIRO_ISSUER : Z := 6.
Definition USER_INDEX_ALL : Z := 0xFFFE.
Definition ENOENT : Z := 2.
Definition EIO : Z := 5.

#[export] Instance trust_store_eq_dec : EqDecision trust_store.
Proof. solve_decision. Defined.

Definition on_trust (ts : trust_store) (st : reader) : reader := on_prov (fun p => p <| pv_trust := ts |>) st.
Definition mru_reset (st : reader) : reader := on_prov (fun p => p <| pv_fast_mru := -1 |>) st.

Section Admin.
Context `{E : Ec, W : World, C : reader_cfg}.

(** ** The advertisement *)

Definition apply_provisioned_adv_params (st : reader) : reader * bool :=
  if existsb (fun b => negb (b =? 0)) (rid_grk (ident st)) then (emit EvAdvert st, true) else (st, false).

Definition reader_refresh_adv (st : reader) : reader := (apply_provisioned_adv_params st).1.

(** ** What a revocation drops besides the key *)

(** The latch names the removed key, or any when several went. *)
Definition names (removed_pub : option (list Z)) (pub : list Z) : bool :=
  match removed_pub with Some r => bool_decide (pub = r) | None => true end.

Definition unlatch (removed_pub : option (list Z)) (latch : option (list Z)) : option (list Z) :=
  match latch with Some pub => if names removed_pub pub then None else latch | None => None end.

Definition revoke_sweep_on_host (st : reader) : reader := fold_left disconnect_slot all_slots st.

Definition revoke_aftermath (removed_pub : option (list Z)) (st : reader) : reader :=
  emit (EvPost POST_SWEEP)
    (on_prov (fun p => p <| pv_auth_cred := unlatch removed_pub (pv_auth_cred p) |>
                        <| pv_last_cred := unlatch removed_pub (pv_last_cred p) |>) st).

(** A removal that could not be written is owed. *)
Definition persist_removal (st : reader) : reader * Z :=
  let '(st, rc) := prov_store (ident st) (trust st) st in
  (if rc =? 0 then st else on_prov (fun p => p <| pv_kp_dirty := true |>) st, rc).

(** Nothing to remove: an earlier removal may still be owed. *)
Definition retry_pending (done : Z) (st : reader) : reader * Z :=
  let '(st, pending) := flush_pending_store st in (st, if pending =? 0 then done else pending).

(** Writing a store, and adopting it when it was written. *)
Definition store_then_adopt (adopt : reader -> reader) (id : reader_identity) (ts : trust_store) (done : Z) (st : reader) : reader * Z :=
  let '(st, rc) := prov_store id ts st in if rc =? 0 then (adopt st, done) else (st, rc).

(** ** The console *)

Definition reader_trust_last (st : reader) : reader * Z :=
  let st := loaded st in
  match pv_last_cred (rd_prov st) with
  | None => (st, 1)
  | Some last =>
      let '(cand, add) := prov_trust_add (trust st) last in
      if add =? 1 then (st, 1) else if add <? 0 then (st, -1)
      else store_then_adopt (fun st => mru_reset (on_trust cand st)) (ident st) cand 0 st
  end.

Definition reader_trust_clear (st : reader) : reader * Z :=
  let st := loaded st in
  if ts_count (trust st) =? 0 then (st, 1) else
  let '(st, rc) := persist_removal (mru_reset (on_trust ts_zero st)) in
  (revoke_aftermath None st, rc).

Definition reader_stepup_arm (st : reader) : reader :=
  if CFG_STEPUP_BENCH then on_docs (fun c => c <| dc_armed := true |>) (loaded st) else st.

(** ** The identity *)

Definition reader_provision_identity (reader_id sign_priv grk : list Z) (st : reader) : reader * Z :=
  let st := loaded st in
  let id := {| rid_reader_id := reader_id; rid_sign_priv := sign_priv; rid_grk := grk; rid_is_dev := false |} in
  let '(st, rc) := prov_store id (trust st) st in
  if negb (rc =? 0) then (st, rc) else
  let st := on_prov (fun p => p <| pv_id := id |> <| pv_state := PROVISIONING_READY |>) st in
  (reader_refresh_adv (compute_reader_group_x st), 0).

Definition reader_identity_public (st : reader) : reader * (Z + list Z * list Z * list Z) :=
  let st := loaded st in
  if rid_is_dev (ident st) then (st, inl (- ENOENT)) else
  match ec_pub_from_priv (rid_sign_priv (ident st)) with
  | None => (st, inl (- EIO))
  | Some verif_pub => (st, inr (rid_reader_id (ident st), verif_pub, rid_grk (ident st)))
  end.

(** Reverting to the identity every unit shares, and no keys. *)
Definition reader_provision_clear (st : reader) : reader * Z :=
  let st := loaded st in
  let '(id, ts) := prov_dev_default in
  let '(st, rc) := prov_store id ts st in
  if negb (rc =? 0) then (st, rc) else
  let st := mru_reset (on_prov (fun p => p <| pv_id := id |> <| pv_trust := ts |> <| pv_state := PROVISIONING_EMPTY |>) st) in
  (revoke_aftermath None (compute_reader_group_x st), 0).

Definition reader_export_blob (cap : Z) (st : reader) : reader * option (list Z) :=
  let st := loaded st in (st, prov_serialize (ident st) (Some (trust st)) cap).

Definition reader_import_blob (buf : list Z) (st : reader) : reader * Z :=
  let st := loaded st in
  match prov_deserialize buf with
  | None => (st, -1)
  | Some (id, ts) =>
      let '(st, rc) := prov_store id ts st in
      if negb (rc =? 0) then (st, -2) else
      let state := if rid_is_dev id then PROVISIONING_EMPTY else PROVISIONING_READY in
      let st := mru_reset (on_prov (fun p => p <| pv_id := id |> <| pv_trust := ts |> <| pv_state := state |>) st) in
      (reader_refresh_adv (compute_reader_group_x st), 0)
  end.

(** ** The keys *)

Definition reader_provision_add_trust (cred_pub : list Z) (cred_type cred_index user_index : Z) (st : reader) : reader * Z :=
  let st := loaded st in
  let '(cand, add) := prov_trust_add (trust st) cred_pub in
  if add <? 0 then (st, -1) else
  let slot := prov_trust_find cand cred_pub in
  let rebind := (0 <=? slot) &&
    (negb (row 0 (ts_cred_type cand) (Z.to_nat slot) =? cred_type) || negb (row 0 (ts_cred_index cand) (Z.to_nat slot) =? cred_index) ||
     negb (row 0 (ts_user_index cand) (Z.to_nat slot) =? user_index)) in
  let cand := (prov_cred_bind_set cand slot cred_type cred_index user_index).1 in
  if (add =? 1) && negb rebind then (st, 1)
  else store_then_adopt (fun st => mru_reset (on_trust cand st)) (ident st) cand (if add =? 1 then 1 else 0) st.

Definition reader_provision_add_issuer (pub : list Z) (cred_index user_index : Z) (st : reader) : reader * Z :=
  let st := loaded st in
  let '(cand, add) := prov_issuer_add (trust st) pub cred_index user_index in
  if add <? 0 then (st, -1)
  else if (add =? 1) && bool_decide (cand = trust st) then (st, 1)
  else store_then_adopt (on_trust cand) (ident st) cand add st.

Definition reader_provision_remove_issuer (cred_index : Z) (st : reader) : reader * Z :=
  let st := loaded st in
  let idx := prov_issuer_find_index (trust st) cred_index in
  if idx <? 0 then retry_pending 1 st else
  let '(st, rc) := persist_removal (mru_reset (on_trust (prov_issuer_remove_at (trust st) idx).1 st)) in
  (revoke_aftermath None st, rc).

(** Every anchor under the address: the store without them, how many went, and
    the last one. *)
Fixpoint remove_cred_loop (fuel : nat) (cred_type cred_index : Z) (ts : trust_store) (found : Z) (removed : list Z) :
    trust_store * Z * list Z :=
  match fuel with
  | O => (ts, found, removed)
  | S fuel =>
      let idx := prov_find_cred_index ts cred_type cred_index in
      if idx <? 0 then (ts, found, removed) else
      let removed := row [] (ts_cred_pub ts) (Z.to_nat idx) in
      let '(ts, rc) := prov_trust_remove_at ts idx in
      if negb (rc =? 0) then (ts, found, removed)
      else remove_cred_loop fuel cred_type cred_index ts (found + 1) removed
  end.

Definition reader_provision_remove_trust (cred_type cred_index : Z) (st : reader) : reader * Z :=
  let st := loaded st in
  let '(ts, found, removed) := remove_cred_loop (S (Z.to_nat (ts_count (trust st)))) cred_type cred_index (trust st) 0 [] in
  if found =? 0 then retry_pending 1 (on_trust ts st) else
  let '(st, rc) := persist_removal (mru_reset (on_trust ts st)) in
  (revoke_aftermath (if 1 <? found then None else Some removed) st, rc).

(** The key under an address, and the user it is filed under. *)
Definition reader_provision_cred_lookup (cred_type cred_index : Z) (st : reader) : reader * option (list Z * Z) :=
  let st := loaded st in
  let ts := trust st in
  (st,
   if cred_type =? CRED_TYPE_ALIRO_ISSUER then
     let idx := prov_issuer_find_index ts cred_index in
     if 0 <=? idx then Some (row [] (ts_issuer_pub ts) (Z.to_nat idx), row 0 (ts_issuer_user_index ts) (Z.to_nat idx)) else None
   else
     let idx := prov_find_cred_index ts cred_type cred_index in
     if 0 <=? idx then Some (row [] (ts_cred_pub ts) (Z.to_nat idx), row 0 (ts_user_index ts) (Z.to_nat idx)) else None).

(** Downwards over the slots: the issuers that match, each with the anchors it
    vouched for, then the anchors. *)
Definition drop_issuer (hit : trust_store -> nat -> bool) (acc : trust_store * Z) (i : nat) : trust_store * Z :=
  let '(ts, removed) := acc in
  if hit ts i
  then let '(ts, dropped) := prov_issuer_remove_at ts (Z.of_nat i) in (ts, removed + (if 0 <? dropped then dropped + 1 else 1))
  else acc.

Definition drop_anchor (hit : trust_store -> nat -> bool) (acc : trust_store * Z) (i : nat) : trust_store * Z :=
  let '(ts, removed) := acc in
  if hit ts i then ((prov_trust_remove_at ts (Z.of_nat i)).1, removed + 1) else acc.

Definition downwards (n : Z) : list nat := rev (seq 0 (Z.to_nat n)).

Definition drop_matching (issuer_hit anchor_hit : trust_store -> nat -> bool) (ts : trust_store) : trust_store * Z :=
  let acc := fold_left (drop_issuer issuer_hit) (downwards (ts_issuer_count ts)) (ts, 0) in
  fold_left (drop_anchor anchor_hit) (downwards (ts_count acc.1)) acc.

Definition revoke_matching (issuer_hit anchor_hit : trust_store -> nat -> bool) (st : reader) : reader * Z :=
  let '(ts, removed) := drop_matching issuer_hit anchor_hit (trust st) in
  if removed =? 0 then retry_pending 0 (on_trust ts st) else
  let '(st, rc) := persist_removal (mru_reset (on_trust ts st)) in
  (revoke_aftermath None st, if rc =? 0 then removed else rc).

Definition type_hit (cred_type : Z) (ts : trust_store) (i : nat) : bool := (cred_type =? 0) || (row 0 (ts_cred_type ts) i =? cred_type).
Definition issuer_type_hit (cred_type : Z) (_ : trust_store) (_ : nat) : bool := (cred_type =? 0) || (cred_type =? CRED_TYPE_ALIRO_ISSUER).
Definition user_hit (user_index : Z) (ts : trust_store) (i : nat) : bool :=
  (user_index =? USER_INDEX_ALL) || (row 0 (ts_user_index ts) i =? user_index).
Definition issuer_user_hit (user_index : Z) (ts : trust_store) (i : nat) : bool :=
  (user_index =? USER_INDEX_ALL) || (row 0 (ts_issuer_user_index ts) i =? user_index).

Definition reader_provision_remove_type (cred_type : Z) (st : reader) : reader * Z :=
  revoke_matching (issuer_type_hit cred_type) (type_hit cred_type) (loaded st).

Definition reader_provision_remove_user (user_index : Z) (st : reader) : reader * Z :=
  revoke_matching (issuer_user_hit user_index) (user_hit user_index) (loaded st).

End Admin.
