(* ===== verification/ReaderFacts.v ===== *)
(** * The credential reader: what a handler leaves alone

    The frame of the handlers: which session they touch, what of it, and that the
    record of who has authenticated changes nowhere but where it is meant to. *)

From Stdlib Require Import ZArith Lia Bool.
From stdpp Require Import base list numbers option.
From S2P Require Import Prelude Wire CredCrypto Device CredApdu Prov RssiGate Cbor StepupParse StepupWire Stepup ReaderState Reader.

Local Open Scope Z_scope.
Local Open Scope uwl_scope.

(** The session table has its size. *)
Definition table_ok (st : reader) : Prop := length (rd_sessions st) = MAX_SESSIONS.

(** Who has authenticated: the credential, the generation, the verdicts given. *)
Definition is_grant (e : event) : bool := match e with EvAccess true => true | _ => false end.
Definition auth_view (st : reader) : option (list Z) * Z * list event :=
  (pv_auth_cred (rd_prov st), pv_auth_generation (rd_prov st), List.filter is_grant (rd_log st)).

Section Facts.
Context `{C : reader_cfg}.

(** A key waits for its document although none is being asked for, or one is
    asked for although no key waits. *)
Definition stranded (s : session) : bool :=
  se_learn_pending s && negb (CFG_STEPUP && se_stepup_active s) ||
  negb CFG_STEPUP_BENCH && se_stepup_active s && negb (se_learn_pending s).

(** What of a session identifies it and its keys. *)
Definition fixed (s : session) : bool * Z * bool * list Z * list Z * bool :=
  (se_active s, se_conn s, se_learn_pending s, se_learn_pub s, se_ursk s, stranded s).

Definition live (st : reader) (i : nat) : Prop := se_active (sess st i) = true /\ se_disconnect (sess st i) = false.

(** A step that does nothing to the sessions but the phase of slot [i]. *)
Record moved (i : nat) (ph : txn_phase) (st st' : reader) : Prop := {
  mv_table : table_ok st';
  mv_others j : j <> i -> fixed (sess st' j) = fixed (sess st j) /\ se_phase (sess st' j) = se_phase (sess st j) /\
                           se_disconnect (sess st' j) = se_disconnect (sess st j);
  mv_fixed : fixed (sess st' i) = fixed (sess st i);
  mv_phase : se_phase (sess st' i) = ph;
  mv_live : ph <> PH_FAILED -> live st' i;
  mv_auth : auth_view st' = auth_view st;
}.

(** A step that does not even do that. *)
Definition kept (i : nat) (st st' : reader) : Prop := moved i (se_phase (sess st i)) st st'.

Lemma sess_on_sess i f st j : table_ok st -> (i < MAX_SESSIONS)%nat ->
  sess (on_sess i f st) j = if decide (j = i) then f (sess st i) else sess st j.
Proof.
  intros Ht Hi. unfold sess, on_sess, set_sess. cbn. unfold sess. case_decide as E.
  - subst. rewrite !nth_lookup, list_lookup_insert_eq by (by rewrite Ht). done.
  - rewrite !nth_lookup, list_lookup_insert_ne by done. done.
Qed.

Lemma sess_set_sess i s st j : table_ok st -> (i < MAX_SESSIONS)%nat ->
  sess (set_sess i s st) j = if decide (j = i) then s else sess st j.
Proof. intros Ht Hi. exact (sess_on_sess i (fun _ => s) st j Ht Hi). Qed.

Lemma table_set i s st : table_ok st -> table_ok (set_sess i s st).
Proof. unfold table_ok, set_sess. cbn. by rewrite length_insert. Qed.

Section Frame.
Context (i : nat) (Hi : (i < MAX_SESSIONS)%nat).

(** *** The combinators *)

Lemma moved_trans ph1 ph2 st1 st2 st3 : moved i ph1 st1 st2 -> moved i ph2 st2 st3 -> moved i ph2 st1 st3.
Proof.
  intros [A1 A2 A3 A4 A5 A6] [B1 B2 B3 B4 B5 B6]. constructor; [done| |congruence|done|done|congruence].
  intros j Hj. destruct (A2 j Hj) as (?&?&?), (B2 j Hj) as (?&?&?). split_and!; congruence.
Qed.

Lemma kept_moved ph st1 st2 st3 : kept i st1 st2 -> moved i ph st2 st3 -> moved i ph st1 st3.
Proof. apply moved_trans. Qed.

Lemma kept_trans st1 st2 st3 : kept i st1 st2 -> kept i st2 st3 -> kept i st1 st3.
Proof. intros H1 H2. unfold kept in H2. rewrite (mv_phase _ _ _ _ H1) in H2. by eapply moved_trans. Qed.

Lemma kept_live st st' : live st i -> kept i st st' -> se_phase (sess st i) <> PH_FAILED -> live st' i.
Proof. intros _ H Hn. by apply (mv_live _ _ _ _ H). Qed.

Lemma moved_kept ph st1 st2 st3 : moved i ph st1 st2 -> kept i st2 st3 -> moved i ph st1 st3.
Proof. intros H1 H2. unfold kept in H2. rewrite (mv_phase _ _ _ _ H1) in H2. by eapply moved_trans. Qed.

(** *** The primitives

    A step that leaves the sessions alone. *)

Lemma kept_same st st' : table_ok st -> live st i -> rd_sessions st' = rd_sessions st -> auth_view st' = auth_view st -> kept i st st'.
Proof.
  intros Ht Hl Hs Ha. assert (forall j, sess st' j = sess st j) as E by (intros; unfold sess; by rewrite Hs).
  constructor; unfold live; intros; rewrite ?E; try done. unfold table_ok. by rewrite Hs.
Qed.

Lemma kept_emit st e : table_ok st -> live st i -> is_grant e = false -> kept i st (emit e st).
Proof. intros Ht Hl He. apply kept_same; [done|done|done|]. unfold auth_view. cbn. by rewrite He. Qed.

Lemma kept_on_docs st f : table_ok st -> live st i -> kept i st (on_docs f st).
Proof. intros. by apply kept_same. Qed.

Lemma kept_on_wallet st f : table_ok st -> live st i -> kept i st (on_wallet f st).
Proof. intros. by apply kept_same. Qed.

Lemma kept_on_ranging st f : table_ok st -> live st i -> kept i st (on_ranging f st).
Proof. intros. by apply kept_same. Qed.

Lemma kept_on_prov st f : table_ok st -> live st i ->
  pv_auth_cred (f (rd_prov st)) = pv_auth_cred (rd_prov st) -> pv_auth_generation (f (rd_prov st)) = pv_auth_generation (rd_prov st) ->
  kept i st (on_prov f st).
Proof. intros Ht Hl H1 H2. apply kept_same; [done|done|done|]. unfold auth_view, on_prov. cbn. by rewrite H1, H2. Qed.

Lemma kept_on_sess st j f : table_ok st -> live st i ->
  fixed (f (sess st j)) = fixed (sess st j) -> se_phase (f (sess st j)) = se_phase (sess st j) ->
  se_disconnect (f (sess st j)) = se_disconnect (sess st j) ->
  kept i st (on_sess j f st).
Proof.
  intros Ht [Hl1 Hl2] Hf Hp Hd. destruct (decide (j < MAX_SESSIONS)%nat) as [Hj|Hj].
  2: { apply kept_same; try done. unfold on_sess, set_sess. cbn. rewrite list_insert_ge; [done|]. rewrite Ht. lia. }
  assert (forall k, fixed (sess (on_sess j f st) k) = fixed (sess st k) /\
    se_phase (sess (on_sess j f st) k) = se_phase (sess st k) /\ se_disconnect (sess (on_sess j f st) k) = se_disconnect (sess st k)) as H.
  { intros k. rewrite sess_on_sess by done. case_decide; [subst; done|done]. }
  destruct (H i) as (H1 & H2 & H3). constructor; [by apply table_set|intros; apply H|done|done| |done].
  intros _. split; [|by rewrite H3]. unfold fixed in H1. by injection H1 as -> _ _ _ _ _.
Qed.

Lemma moved_enter `{World} ph st : table_ok st -> live st i -> moved i ph st (session_enter_phase i ph st).
Proof.
  intros Ht [Hl1 Hl2]. unfold session_enter_phase.
  set (st1 := if bool_decide (se_phase (sess st i) = ph) then st else _).
  assert (rd_sessions st1 = rd_sessions st /\ auth_view st1 = auth_view st) as [Es Ea].
  { unfold st1. repeat case_bool_decide; done. }
  assert (forall g : session -> session, (forall s, fixed (g s) = fixed s /\ se_phase (g s) = ph /\ se_disconnect (g s) = se_disconnect s) ->
    forall st2, rd_sessions st2 = rd_sessions st -> auth_view st2 = auth_view st -> moved i ph st (on_sess i g st2)) as Hg.
  { intros g Hgs st2 E1 E2. assert (table_ok st2) as Ht2 by (unfold table_ok; by rewrite E1).
    assert (forall j, sess st2 j = sess st j) as E by (intros; unfold sess; by rewrite E1).
    destruct (Hgs (sess st i)) as (G1 & G2 & G3).
    constructor; [by apply table_set| | | | |by rewrite <- E2].
    - intros j Hj. rewrite sess_on_sess, decide_False, E by done. done.
    - rewrite sess_on_sess, decide_True, E by done. done.
    - rewrite sess_on_sess, decide_True, E by done. done.
    - intros _. unfold live. rewrite sess_on_sess, decide_True, E by done. rewrite G3. split; [|done].
      unfold fixed in G1. by injection G1 as -> _ _ _ _ _. }
  destruct (phase_awaits_peer ph); [|by apply Hg]. cbn. apply Hg; [done|done|]. rewrite <- Ea. done.
Qed.

Lemma moved_terminate `{World} st : table_ok st -> live st i -> moved i PH_FAILED st (session_terminate i st).
Proof.
  intros Ht Hl. unfold session_terminate. destruct Hl as [Hl1 Hl2]. rewrite Hl1, Hl2. cbn [negb orb].
  pose proof (moved_enter PH_FAILED st Ht (conj Hl1 Hl2)) as [A1 A2 A3 A4 A5 A6].
  set (st1 := session_enter_phase i PH_FAILED st) in *.
  set (st2 := on_sess i _ st1).
  assert (forall j, sess (emit (EvDisconnect (se_conn (sess st2 i))) st2) j = sess st2 j) as E by done.
  constructor; [by apply table_set| | | |done|done]; try intros j Hj; rewrite E; unfold st2; rewrite sess_on_sess by done.
  - rewrite decide_False by done. by apply A2.
  - by rewrite decide_True.
  - by rewrite decide_True.
Qed.

(** *** Handlers

    A state a handler may be called in. *)
Definition ready (st : reader) : Prop := table_ok st /\ live st i /\ se_phase (sess st i) <> PH_FAILED.

Lemma kept_ready st st' : ready st -> kept i st st' -> ready st'.
Proof.
  intros (_ & _ & Hn) H. unfold ready. rewrite (mv_phase _ _ _ _ H). split; [apply (mv_table _ _ _ _ H)|].
  split; [by apply (mv_live _ _ _ _ H)|done].
Qed.

Lemma moved_ready ph st st' : moved i ph st st' -> ph <> PH_FAILED -> ready st'.
Proof.
  intros H Hn. unfold ready. rewrite (mv_phase _ _ _ _ H). split; [apply (mv_table _ _ _ _ H)|].
  split; [by apply (mv_live _ _ _ _ H)|done].
Qed.

Lemma kept_refl st : ready st -> kept i st st.
Proof. intros (Ht & Hl & _). by apply kept_same. Qed.

(** A step that ends in one of the phases. *)
Definition ends (l : list txn_phase) (st st' : reader) : Prop := exists ph, ph ∈ l /\ moved i ph st st'.

Lemma ends_kept l st st1 st2 : kept i st st1 -> ends l st1 st2 -> ends l st st2.
Proof. intros H (ph & Hin & Hm). exists ph. split; [done|]. by eapply kept_moved. Qed.

Lemma ends_weaken l l' st st' : l ⊆ l' -> ends l st st' -> ends l' st st'.
Proof. intros Hs (ph & Hin & Hm). exists ph. split; [by apply Hs|done]. Qed.

Lemma kept_ends l st st' : kept i st st' -> se_phase (sess st i) ∈ l -> ends l st st'.
Proof. intros H Hin. by exists (se_phase (sess st i)). Qed.

Section World.
Context `{W : World}.

Lemma ends_terminate l st : ready st -> PH_FAILED ∈ l -> ends l st (session_terminate i st).
Proof. intros (Ht & Hl & _) Hin. exists PH_FAILED. split; [done|]. by apply moved_terminate. Qed.

Lemma ends_enter l ph st : ready st -> ph ∈ l -> ends l st (session_enter_phase i ph st).
Proof. intros (Ht & Hl & _) Hin. exists ph. split; [done|]. by apply moved_enter. Qed.

Lemma kept_send conn f st : ready st -> kept i st (ble_send conn f st).1.
Proof. intros (Ht & Hl & _). by apply kept_emit. Qed.

Lemma kept_command conn ins tlv st : ready st -> kept i st (send_ap_command conn ins tlv st).1.
Proof. intros Hr. unfold send_ap_command. destruct (apdu_wrap _ _ _); [by apply kept_send|by apply kept_refl]. Qed.

Lemma kept_raw conn apdu st : ready st -> kept i st (send_ap_raw conn apdu st).1.
Proof. intros Hr. unfold send_ap_raw. destruct (_ <? _); [by apply kept_refl|by apply kept_send]. Qed.

Lemma kept_sess st f : ready st -> (forall s, fixed (f s) = fixed s /\ se_phase (f s) = se_phase s /\ se_disconnect (f s) = se_disconnect s) ->
  kept i st (on_sess i f st).
Proof. intros (Ht & Hl & _) Hf. apply kept_on_sess; try done; apply Hf. Qed.

Lemma kept_stop conn st : ready st -> kept i st (ranging_stop conn st).
Proof.
  intros Hr. pose proof Hr as (Ht & Hl & _). unfold ranging_stop. destruct (rg_active _) as [[c k]|]; [|by apply kept_refl].
  destruct (_ =? _); [|by apply kept_refl]. by apply kept_same.
Qed.

Lemma kept_ranging_start conn sid ursk slot st : ready st -> kept i st (ranging_start conn sid ursk slot st).1.
Proof.
  intros Hr. unfold ranging_start. destruct (negb _); [by apply kept_refl|].
  assert (kept i st (match rg_active (rd_ranging st) with Some (c, _) => ranging_stop c st | None => st end)) as H1.
  { destruct (rg_active _) as [[]|]; [by apply kept_stop|by apply kept_refl]. }
  set (st1 := match rg_active _ with Some _ => _ | None => _ end) in *. cbv zeta.
  pose proof (kept_ready _ _ Hr H1) as (Ht & Hl & _).
  destruct (negb _); cbn [fst]; (eapply kept_trans; [exact H1|]); by apply kept_same.
Qed.

Lemma kept_uwb_step `{Gcm} conn slot o st : ready st -> kept i st (uwb_step conn slot st o).
Proof.
  intros Hr. pose proof Hr as (Ht & Hl & _). destruct o as [msg|]; [|by apply kept_on_ranging]. cbn [uwb_step]. unfold uwb_tx_cb.
  destruct (rg_failed _); [by apply kept_refl|]. destruct (msg_seal _ _ _) as [sc [wire|]]; [|by apply kept_same].
  assert (kept i st (on_sess slot (fun s => s <| se_sc_ble := sc |>) st)) as H1 by by apply kept_on_sess.
  set (st1 := on_sess slot _ st) in *. clearbody st1. pose proof (kept_ready _ _ Hr H1) as Hr1. pose proof Hr1 as (Ht1 & Hl1 & _).
  unfold ble_send. destruct (_ =? _); (eapply kept_trans; [exact H1|]); by apply kept_same.
Qed.

Lemma kept_feed `{Gcm} conn data st : ready st -> kept i st (ranging_feed conn data st).1.
Proof.
  intros Hr. unfold ranging_feed. destruct (rg_active _) as [[c slot]|]; [|by apply kept_refl].
  destruct (_ || _); [by apply kept_refl|]. destruct (_ || _); [by apply kept_refl|].
  assert (kept i st (emit (EvEngineMsg data) st)) as H1 by by (destruct Hr as (? & ? & _); apply kept_emit).
  set (st1 := emit (EvEngineMsg data) st) in *. clearbody st1. cbv zeta. destruct (w_handle _) as [outs ok]. cbn [fst].
  eapply kept_trans; [exact H1|]. pose proof (kept_ready _ _ Hr H1) as Hr1. clear - Hi Hr1.
  revert st1 Hr1. induction outs as [|o outs IH]; intros st Hr; cbn; [by apply kept_refl|].
  pose proof (kept_uwb_step conn slot o st Hr) as Hk. eapply kept_trans; [exact Hk|]. apply IH. by eapply kept_ready.
Qed.

End World.

End Frame.

End Facts.

(** ** The store and the log

    A step that leaves what is provisioned alone and only adds to the log. *)
Definition grown (st st' : reader) : Prop := rd_prov st' = rd_prov st /\ exists es, rd_log st' = es ++ rd_log st.

Lemma grown_refl st : grown st st.
Proof. split; [done|]. by exists []. Qed.

Lemma grown_trans st1 st2 st3 : grown st1 st2 -> grown st2 st3 -> grown st1 st3.
Proof. intros [H1 [e1 E1]] [H2 [e2 E2]]. split; [congruence|]. exists (e2 ++ e1). by rewrite E2, E1, app_assoc. Qed.

Lemma grown_emit e st : grown st (emit e st).
Proof. split; [done|]. by exists [e]. Qed.

Lemma grown_on_sess i f st : grown st (on_sess i f st).
Proof. split; [done|]. by exists []. Qed.

Lemma grown_on_wallet f st : grown st (on_wallet f st).
Proof. split; [done|]. by exists []. Qed.

Lemma grown_on_docs f st : grown st (on_docs f st).
Proof. split; [done|]. by exists []. Qed.

Lemma grown_on_ranging f st : grown st (on_ranging f st).
Proof. split; [done|]. by exists []. Qed.

Lemma grown_in st st' e : grown st st' -> In e (rd_log st) -> In e (rd_log st').
Proof. intros [_ [es ->]] H. apply in_app_iff. by right. Qed.

Section Grown.
Context `{W : World}.

Lemma grown_enter i ph st : grown st (session_enter_phase i ph st).
Proof.
  unfold session_enter_phase. set (st1 := if bool_decide (se_phase (sess st i) = ph) then st else _).
  assert (grown st st1) as H1 by (unfold st1; repeat case_bool_decide; split; try done; by exists []).
  clearbody st1. destruct (phase_awaits_peer ph); [|eapply grown_trans; [exact H1|apply grown_on_sess]].
  cbn [monotonic_ms]. eapply grown_trans; [exact H1|]. eapply grown_trans; [apply grown_emit|apply grown_on_sess].
Qed.

Lemma grown_terminate i st : grown st (session_terminate i st).
Proof.
  unfold session_terminate. destruct (_ || _); [apply grown_refl|]. cbv zeta.
  eapply grown_trans; [|apply grown_emit]. eapply grown_trans; [apply grown_enter|apply grown_on_sess].
Qed.

Lemma grown_stop conn st : grown st (ranging_stop conn st).
Proof.
  unfold ranging_stop. destruct (rg_active _) as [[c k]|]; [|apply grown_refl]. destruct (_ =? _); [|apply grown_refl].
  eapply grown_trans; [apply grown_on_ranging|apply grown_emit].
Qed.

Lemma grown_start conn sid ursk slot st : grown st (ranging_start conn sid ursk slot st).1.
Proof.
  unfold ranging_start. destruct (negb _); [apply grown_refl|]. set (st1 := match rg_active _ with Some _ => _ | None => _ end).
  assert (grown st st1) as H1 by (unfold st1; destruct (rg_active _) as [[]|]; [apply grown_stop|apply grown_refl]). clearbody st1. cbv zeta.
  assert (forall ok, grown st (emit (EvEngine conn sid ursk ok) (emit EvRadio st1))) as H2.
  { intros ok. eapply grown_trans; [exact H1|]. eapply grown_trans; apply grown_emit. }
  destruct (negb _); cbn [fst]; [apply H2|]. eapply grown_trans; [apply H2|apply grown_on_ranging].
Qed.

Lemma grown_replay st : grown st (arm_replay st).
Proof. unfold arm_replay. destruct (wl_undelivered _); [|apply grown_refl]. eapply grown_trans; [apply (grown_emit EvClock)|apply grown_on_wallet]. Qed.

Lemma grown_complete `{Gcm} i st : grown st (complete_ap_and_range i st).
Proof.
  unfold complete_ap_and_range. destruct (msg_seal _ _ _) as [sc sealed]. set (st1 := on_sess i _ st).
  assert (grown st st1) as H1 by apply grown_on_sess. clearbody st1. eapply grown_trans; [exact H1|].
  destruct sealed as [wire|]; [|apply grown_terminate]. unfold ble_send. eapply grown_trans; [apply grown_emit|].
  destruct (negb _); [apply grown_terminate|]. set (st2 := emit _ _). clearbody st2. cbv zeta.
  pose proof (grown_start (se_conn (sess st2 i)) (ranging_sid (se_txid (sess st2 i))) (se_ursk (sess st2 i)) i st2) as H2.
  destruct (ranging_start _ _ _ _ _) as [st3 rc]. eapply grown_trans; [exact H2|]. destruct (negb _); [apply grown_terminate|].
  eapply grown_trans; [apply grown_enter|apply grown_replay].
Qed.

Lemma grown_gated `{Gcm, reader_cfg} i st : grown st (gated_complete_ap i st).
Proof.
  unfold gated_complete_ap. cbv zeta. destruct (_ && _); [|apply grown_complete]. cbn [uptime_ms].
  eapply grown_trans; [apply grown_enter|]. eapply grown_trans; [apply grown_emit|apply grown_on_sess].
Qed.

End Grown.
