(* ===== verification/ReaderGrant.v ===== *)
(** * The credential reader: who is let in

    What it takes to be granted access, stated on the state before a message and
    the message, and what one message can do to the session it belongs to. *)

From Stdlib Require Import ZArith Lia Bool.
From stdpp Require Import base list numbers option sets.
From S2P Require Import Prelude Wire CredCrypto Device CredTlv CredApdu Prov RssiGate Cbor StepupParse StepupWire Stepup ReaderState Reader ReaderFacts.

Local Open Scope Z_scope.
Local Open Scope uwl_scope.

Section Evidence.
Context `{G : Gcm, E : Ec, W : World, C : reader_cfg, P : stepup_cfg}.

(** ** The evidence *)

(** The cryptogram opens under the fast-path key of anchor [k], in this very
    transaction; [block] are the keys it yields. *)
Definition fast_proof (st : reader) (s : session) (cryptogram : list Z) (k : nat) (block : list Z) : Prop :=
  Z.of_nat k < ts_count (trust st) /\ has_bit (ts_kp_valid (trust st)) k = true /\
  exists salt plain,
    session_salt SALT_CRYPTOGRAM st s (Some (pub_x (row [] (ts_cred_pub (trust st)) k))) = Some salt /\
    derive_block (row [] (ts_kpersistent (trust st)) k) salt (pub_x (se_device_pub s)) = Some block /\
    verify_cryptogram (sub_bytes block CRYPTOGRAM_SK_OFFSET 32) cryptogram = Some plain.

(** The response is encrypted under the keys of this key agreement, and [pub]
    verifies the signature in it over the transcript of this transaction. *)
Definition auth1_proof (st : reader) (s : session) (pl : list Z) (block pub : list Z) (r : auth1_response) : Prop :=
  exists body pt td,
    response_body pl = Some body /\ GCM_TAG_LEN <= zlen body /\
    session_block st s = Some block /\
    (secchan_open (secchan_init (crypto_split block true).1.1 (crypto_split block true).1.2) []
       (sub_bytes body 0 (zlen body - GCM_TAG_LEN)) (sub_bytes body (zlen body - GCM_TAG_LEN) GCM_TAG_LEN)).2 = Some pt /\
    apdu_parse_auth1_response pt = Some r /\ pub = default (se_device_pub s) (a1_device_pub r) /\
    session_authdata AUTH_DEVICE st s = Some td /\ ec_verify pub td (a1_device_sig r) = true.

(** The collected document is one a stored issuer signed over [pub]. *)
Definition document_proof (st : reader) (s : session) (pl : list Z) (pub : list Z) : Prop :=
  exists body sd plain doc c issuer,
    apdu_strip_sw pl = Some (body, SW_OK) /\ dc_owner (rd_docs st) = se_conn s /\
    unwrap_do53 (dc_sd (rd_docs st) ++ body) = STEPUP_OK sd /\
    (stepup_open_sessiondata (se_stepup_sc s) sd CFG_STEPUP_SD_MAX).2 = Some plain /\
    parse_response (zlen plain) (mem_of plain) = Ok doc c /\
    In issuer (issuer_keys st) /\
    sv_valid (stepup_verify (mem_of plain) (without_x5chain doc) (learn_ctx st (mem_of plain) (without_x5chain doc) issuer)) = true /\
    sd_device_key doc = Some pub.

Definition payload (data : list Z) : list Z := ev_payload (message_of data).

(** A key that is not trusted has proved itself, and its document is awaited. *)
Definition presented (st : reader) (i : nat) (data : list Z) (pub ursk : list Z) : Prop :=
  se_phase (sess st i) = PH_SENT_AUTH1 /\ CFG_STEPUP = true /\ 0 < ts_issuer_count (trust st) /\
  exists block r, auth1_proof st (sess st i) (payload data) block pub r /\ a1_device_pub r = Some pub /\ ursk = ursk_from_block block.

(** Access on the strength of this message alone. *)
Inductive admitted (st : reader) (i : nat) (data : list Z) : list Z -> list Z -> Prop :=
  | admit_fast body r cryptogram k block :
      se_phase (sess st i) = PH_SENT_AUTH0 -> se_exp_phase (sess st i) = 0x01 ->
      response_body (payload data) = Some body -> apdu_parse_auth0_response body = Some r -> a0_cryptogram r = Some cryptogram ->
      fast_proof st ((sess st i) <| se_device_pub := a0_device_eph_pub r |>) cryptogram k block ->
      admitted st i data (row [] (ts_cred_pub (trust st)) k) (ursk_from_block block)
  | admit_standard block pub r :
      se_phase (sess st i) = PH_SENT_AUTH1 -> auth1_proof st (sess st i) (payload data) block pub r ->
      prov_trust_check (trust st) pub = 0 -> admitted st i data pub (ursk_from_block block)
  | admit_dev block pub r :
      se_phase (sess st i) = PH_SENT_AUTH1 -> auth1_proof st (sess st i) (payload data) block pub r ->
      CFG_DEV_TRUST = true -> rid_is_dev (ident st) = true -> pv_state (rd_prov st) = PROVISIONING_EMPTY -> ts_count (trust st) = 0 ->
      admitted st i data pub (ursk_from_block block).

(** Access on the strength of an Access Document, for the key of [presented];
    the store that holds it has been written. *)
Definition vouched (st : reader) (i : nat) (data : list Z) (st' : reader) (pub : list Z) : Prop :=
  se_phase (sess st i) = PH_SENT_STEPUP /\ se_learn_pending (sess st i) = true /\ pub = se_learn_pub (sess st i) /\
  document_proof st (sess st i) (payload data) pub /\
  In (EvStore (ident st) (trust st') 0) (rd_log st') /\ 0 <= prov_trust_find (trust st') pub.

(** ** One message *)

(** The session of slot [i] alone is changed, and left in phase [ph]. *)
Record touched (i : nat) (ph : txn_phase) (st st' : reader) : Prop := {
  tc_table : table_ok st';
  tc_others j : j <> i -> fixed (sess st' j) = fixed (sess st j) /\ se_phase (sess st' j) = se_phase (sess st j) /\
                           se_disconnect (sess st' j) = se_disconnect (sess st j);
  tc_phase : se_phase (sess st' i) = ph;
  tc_live : ph <> PH_FAILED -> live st' i;
}.

Definition failed (i : nat) (st st' : reader) : Prop := touched i PH_FAILED st st' /\ auth_view st' = auth_view st.

(** Where a session may go without a grant. *)
Definition advance (from : txn_phase) (pending : bool) (to : txn_phase) : Prop :=
  from = to \/ (from = PH_IDLE /\ to = PH_SENT_AUTH0) \/ (from = PH_SENT_AUTH0 /\ to = PH_SENT_AUTH1) \/
  (from = PH_SENT_EXCHANGE /\ to = PH_SENT_STEPUP /\ (CFG_STEPUP_BENCH = true \/ pending = true)) \/
  ((from = PH_SENT_EXCHANGE \/ from = PH_SENT_STEPUP) /\ pending = false /\ (to = PH_GATE_HOLD \/ to = PH_ESTABLISHED)).

Definition granted_view (pub : list Z) (v : option (list Z) * Z * list event) : option (list Z) * Z * list event :=
  (Some pub, u32 (v.1.2 + 1), EvAccess true :: v.2).

Inductive outcome (st : reader) (i : nat) (data : list Z) (st' : reader) : Prop :=
  | out_failed : failed i st st' -> outcome st i data st'
  | out_moved ph : moved i ph st st' -> advance (se_phase (sess st i)) (se_learn_pending (sess st i)) ph -> outcome st i data st'
  | out_presented pub ursk : touched i PH_SENT_EXCHANGE st st' -> auth_view st' = auth_view st ->
      fixed (sess st' i) = (true, se_conn (sess st i), true, pub, ursk, false) -> presented st i data pub ursk -> outcome st i data st'
  | out_granted ph pub : touched i ph st st' -> ph ∈ [PH_SENT_EXCHANGE; PH_GATE_HOLD; PH_ESTABLISHED; PH_FAILED] ->
      (ph <> PH_FAILED -> se_learn_pending (sess st' i) = false) -> stranded (sess st' i) = false ->
      auth_view st' = granted_view pub (auth_view st) ->
      admitted st i data pub (se_ursk (sess st' i)) \/ vouched st i data st' pub /\ se_ursk (sess st' i) = se_ursk (sess st i) ->
      outcome st i data st'.

(** *** Composition *)

Section Slot.
Context (i : nat) (Hi : (i < MAX_SESSIONS)%nat).

Lemma moved_touched ph st st' : moved i ph st st' -> touched i ph st st'.
Proof. intros [H1 H2 _ H4 H5 _]. by constructor. Qed.

Lemma touched_trans ph1 ph2 st1 st2 st3 : touched i ph1 st1 st2 -> touched i ph2 st2 st3 -> touched i ph2 st1 st3.
Proof.
  intros [A1 A2 _ _] [B1 B2 B3 B4]. constructor; [done| |done|done].
  intros j Hj. destruct (A2 j Hj) as (?&?&?), (B2 j Hj) as (?&?&?). split_and!; congruence.
Qed.

Lemma touched_moved ph1 ph2 st1 st2 st3 : touched i ph1 st1 st2 -> moved i ph2 st2 st3 -> touched i ph2 st1 st3.
Proof. intros H1 H2. eapply touched_trans; [exact H1|]. by apply moved_touched. Qed.

Lemma touched_ready ph st st' : touched i ph st st' -> ph <> PH_FAILED -> ready i st'.
Proof. intros [H1 _ H3 H4] Hn. unfold ready. rewrite H3. split; [done|]. split; [by apply H4|done]. Qed.

Lemma touched_sess st f : ready i st ->
  (forall s, se_active (f s) = se_active s /\ se_phase (f s) = se_phase s /\ se_disconnect (f s) = se_disconnect s) ->
  touched i (se_phase (sess st i)) st (on_sess i f st).
Proof.
  intros (Ht & [Hl1 Hl2] & _) Hf. destruct (Hf (sess st i)) as (F1 & F2 & F3).
  constructor; [by apply table_set| | |].
  - intros j Hj. by rewrite sess_on_sess, decide_False by done.
  - by rewrite sess_on_sess, decide_True by done.
  - intros _. unfold live. rewrite sess_on_sess, decide_True by done. by rewrite F1, F3.
Qed.

Lemma touched_same st st' : ready i st -> rd_sessions st' = rd_sessions st -> touched i (se_phase (sess st i)) st st'.
Proof.
  intros (Ht & Hl & _) Hs. assert (forall j, sess st' j = sess st j) as E' by (intros; unfold sess; by rewrite Hs).
  constructor; unfold live; intros; rewrite ?E'; try done. unfold table_ok. by rewrite Hs.
Qed.

Lemma failed_terminate st : ready i st -> failed i st (session_terminate i st).
Proof. intros (Ht & Hl & _). pose proof (moved_terminate i Hi st Ht Hl) as H. split; [by apply moved_touched|apply (mv_auth _ _ _ _ H)]. Qed.

Lemma touched_failed ph st1 st2 st3 : touched i ph st1 st2 -> auth_view st2 = auth_view st1 -> failed i st2 st3 -> failed i st1 st3.
Proof. intros H Ha [H1 H2]. split; [by eapply touched_trans|congruence]. Qed.

(** *** The phases *)

Lemma fresh_kept st : ready i st -> kept i st (fresh_ephemeral i st).1.
Proof.
  intros Hr. pose proof Hr as (Ht & Hl & _). unfold fresh_ephemeral, take_spare. destruct (pv_spare _) as [sp|]; cbn [fst].
  - eapply kept_trans; [by apply (kept_sess i Hi _ (fun s => s <| se_eph_priv := sp_priv sp |> <| se_eph_pub := sp_pub sp |> <| se_txid := sp_txid sp |>) Hr)|].
    apply kept_same; try done; [by apply table_set|]. unfold live. rewrite sess_on_sess, decide_True by done. exact Hl.
  - cbn. assert (kept i st (emit EvDraw st)) as H1 by by apply kept_emit.
    set (st1 := emit EvDraw st) in *. clearbody st1. pose proof (kept_ready _ _ _ Hr H1) as Hr1.
    destruct (ec_keygen _) as [[priv pub]|]; cbn [fst]; [|done].
    assert (kept i st1 (on_sess i (fun s => s <| se_eph_priv := priv |> <| se_eph_pub := pub |>) st1)) as H2 by by apply kept_sess.
    set (st2 := on_sess i _ st1) in *. clearbody st2. pose proof (kept_ready _ _ _ Hr1 H2) as Hr2.
    assert (kept i st2 (emit EvDraw st2)) as H3 by by (destruct Hr2 as (? & ? & _); apply kept_emit).
    destruct (w_random _); cbn [fst]; (eapply kept_trans; [exact H1|]; eapply kept_trans; [exact H2|]); [|done].
    eapply kept_trans; [exact H3|]. apply kept_sess; [done|by eapply kept_ready|done].
Qed.

Lemma arm_kept st : ready i st -> se_learn_pending (sess st i) = false -> kept i st (arm_phase i st).
Proof.
  intros Hr Hp. unfold arm_phase.
  set (st1 := on_sess i _ st). assert (kept i st st1) as H1 by by apply kept_sess.
  pose proof (kept_ready _ _ _ Hr H1) as Hr1.
  assert (se_learn_pending (sess st1 i) = false) as Hp1.
  { pose proof (mv_fixed _ _ _ _ H1) as Hf. unfold fixed in Hf. rewrite Hp in Hf. by injection Hf. }
  clearbody st1. destruct (CFG_STEPUP_BENCH && _) eqn:Hb; [|done]. apply andb_true_iff in Hb as [Hb _]. eapply kept_trans; [exact H1|].
  assert (kept i st1 (on_docs (fun c => c <| dc_armed := false |>) st1)) as H2 by by (destruct Hr1 as (? & ? & _); apply kept_on_docs).
  eapply kept_trans; [exact H2|]. pose proof (kept_ready _ _ _ Hr1 H2) as (? & ? & _).
  apply kept_on_sess; try done. unfold fixed, stranded. change (sess (on_docs _ st1) i) with (sess st1 i). cbn. by rewrite Hp1, Hb.
Qed.

Lemma start_auth_ends st : ready i st -> se_learn_pending (sess st i) = false -> ends i [PH_FAILED; PH_SENT_AUTH0] st (start_auth i st).
Proof.
  intros Hr Hp. unfold start_auth. destruct (negb _); [apply ends_terminate; done || set_solver|].
  pose proof (fresh_kept st Hr) as H1. destruct (fresh_ephemeral i st) as [st1 ok]. cbn [fst] in H1.
  eapply ends_kept; [exact H1|]. pose proof (kept_ready _ _ _ Hr H1) as Hr1.
  destruct (negb ok); [apply ends_terminate; done || set_solver|].
  assert (kept i st1 (arm_phase i st1)) as H2.
  { apply arm_kept; [done|]. pose proof (mv_fixed _ _ _ _ H1) as Hf. unfold fixed in Hf. rewrite Hp in Hf. by injection Hf. }
  eapply ends_kept; [exact H2|]. pose proof (kept_ready _ _ _ Hr1 H2) as Hr2. set (st2 := arm_phase i st1) in *. clearbody st2. cbv zeta.
  destruct (apdu_build_auth0 _ _ _ _ _ _ _) as [apdu|]; [|apply ends_terminate; done || set_solver].
  pose proof (kept_command i (se_conn (sess st2 i)) INS_AUTH0 apdu st2 Hr2) as H3.
  destruct (send_ap_command _ _ _ _) as [st3 rc]. cbn [fst] in H3. eapply ends_kept; [exact H3|].
  pose proof (kept_ready _ _ _ Hr2 H3) as Hr3.
  destruct (negb _); [apply ends_terminate|apply ends_enter]; done || set_solver.
Qed.
Ltac end_it := first [apply ends_terminate | apply ends_enter]; done || set_solver.

Lemma standard_ends st : ready i st -> ends i [PH_FAILED; PH_SENT_AUTH1] st (standard_phase i st).
Proof.
  intros Hr. unfold standard_phase. cbv zeta. destruct (ec_ecdh _ _) as [shared|]; [|end_it].
  set (st1 := on_sess i _ st). assert (kept i st st1) as H1 by by apply kept_sess.
  eapply ends_kept; [exact H1|]. pose proof (kept_ready _ _ _ Hr H1) as Hr1. clearbody st1.
  destruct (session_authdata _ _ _) as [td|]; [|end_it]. cbn [draw].
  assert (kept i st1 (emit EvDraw st1)) as H2 by by (destruct Hr1 as (? & ? & _); apply kept_emit).
  eapply ends_kept; [exact H2|]. pose proof (kept_ready _ _ _ Hr1 H2) as Hr2. set (st2 := emit EvDraw st1) in *.
  destruct (ec_sign _ _ _) as [sig|]; [|end_it]. clearbody st2. destruct (apdu_build_auth1 _ _ _) as [apdu|]; [|end_it].
  pose proof (kept_command i (se_conn (sess st2 i)) INS_AUTH1 apdu st2 Hr2) as H3.
  destruct (send_ap_command _ _ _ _) as [st3 rc]. cbn [fst] in H3. eapply ends_kept; [exact H3|].
  pose proof (kept_ready _ _ _ Hr2 H3) as Hr3. destruct (negb _); end_it.
Qed.

Lemma send_exchange_spec st : ready i st ->
  let '(st', sent) := send_exchange i st in moved i (if sent then PH_SENT_EXCHANGE else PH_FAILED) st st'.
Proof.
  intros Hr. pose proof Hr as (Ht & Hl & _). unfold send_exchange.
  destruct (apdu_build_exchange _ _ _ _) as [ex|]; [|by apply moved_terminate].
  destruct (secchan_seal _ _ _) as [sc sealed]. set (st1 := on_sess i _ st).
  assert (kept i st st1) as H1 by by apply kept_sess. pose proof (kept_ready _ _ _ Hr H1) as Hr1. pose proof Hr1 as (Ht1 & Hl1 & _).
  clearbody st1. destruct sealed as [[ct tag]|]; [|eapply kept_moved; [exact H1|by apply moved_terminate]].
  pose proof (kept_command i (se_conn (sess st1 i)) INS_EXCHANGE (ct ++ tag) st1 Hr1) as H2.
  destruct (send_ap_command _ _ _ _) as [st2 rc]. cbn [fst] in H2. pose proof (kept_ready _ _ _ Hr1 H2) as (Ht2 & Hl2 & _).
  destruct (negb _); (eapply kept_moved; [exact H1|]; eapply kept_moved; [exact H2|]); [by apply moved_terminate|by apply moved_enter].
Qed.

Lemma arm_replay_kept st : ready i st -> kept i st (arm_replay st).
Proof. intros Hr. pose proof Hr as (Ht & Hl & _). unfold arm_replay. destruct (wl_undelivered _); [by apply kept_same|by apply kept_refl]. Qed.

Lemma complete_ends st : ready i st -> ends i [PH_FAILED; PH_ESTABLISHED] st (complete_ap_and_range i st).
Proof.
  intros Hr. unfold complete_ap_and_range. destruct (msg_seal _ _ _) as [sc sealed]. set (st1 := on_sess i _ st).
  assert (kept i st st1) as H1 by by apply kept_sess. eapply ends_kept; [exact H1|]. pose proof (kept_ready _ _ _ Hr H1) as Hr1.
  clearbody st1. destruct sealed as [wire|]; [|end_it].
  pose proof (kept_send i (se_conn (sess st1 i)) wire st1 Hr1) as H2. destruct (ble_send _ _ _) as [st2 rc]. cbn [fst] in H2.
  eapply ends_kept; [exact H2|]. pose proof (kept_ready _ _ _ Hr1 H2) as Hr2. destruct (negb _); [end_it|]. cbv zeta.
  pose proof (kept_ranging_start i (se_conn (sess st2 i)) (ranging_sid (se_txid (sess st2 i))) (se_ursk (sess st2 i)) i st2 Hr2) as H3.
  destruct (ranging_start _ _ _ _ _) as [st3 rc3]. cbn [fst] in H3. eapply ends_kept; [exact H3|].
  pose proof (kept_ready _ _ _ Hr2 H3) as Hr3. destruct (negb _); [end_it|].
  pose proof Hr3 as (Ht3 & Hl3 & _). exists PH_ESTABLISHED. split; [set_solver|].
  pose proof (moved_enter i Hi PH_ESTABLISHED st3 Ht3 Hl3) as H4. eapply moved_kept; [exact H4|].
  apply arm_replay_kept. by eapply moved_ready.
Qed.

Lemma gated_ends st : ready i st -> ends i [PH_FAILED; PH_GATE_HOLD; PH_ESTABLISHED] st (gated_complete_ap i st).
Proof.
  intros Hr. unfold gated_complete_ap. cbv zeta.
  destruct (_ && _); [|eapply ends_weaken; [|by apply complete_ends];
    intros x Hx; apply elem_of_cons in Hx as [->|Hx]; [left|right; right; exact Hx]]. cbn [uptime_ms].
  pose proof Hr as (Ht & Hl & _). exists PH_GATE_HOLD. split; [set_solver|].
  pose proof (moved_enter i Hi PH_GATE_HOLD st Ht Hl) as H1. eapply moved_kept; [exact H1|].
  assert (ready i (session_enter_phase i PH_GATE_HOLD st)) as Hr1 by by eapply moved_ready.
  set (st1 := session_enter_phase i PH_GATE_HOLD st) in *. clearbody st1.
  assert (kept i st1 (emit EvClock st1)) as H2 by by (destruct Hr1 as (? & ? & _); apply kept_emit).
  eapply kept_trans; [exact H2|]. apply kept_sess; [done|by eapply kept_ready|done].
Qed.

Lemma release_kept conn st : ready i st -> kept i st (stepup_sd_release conn st).
Proof. intros Hr. unfold stepup_sd_release. destruct (_ =? _); [|by apply kept_refl]. destruct Hr as (? & ? & _). by apply kept_on_docs. Qed.

Lemma learn_reject_failed st : ready i st -> failed i st (learn_reject i st).
Proof.
  intros Hr. unfold learn_reject. set (st1 := on_sess i _ st).
  assert (touched i (se_phase (sess st i)) st st1) as H1 by by apply touched_sess.
  eapply touched_failed; [exact H1|done|]. pose proof (touched_ready _ _ _ H1 (proj2 (proj2 Hr))) as Hr1. clearbody st1.
  pose proof (release_kept (se_conn (sess st1 i)) st1 Hr1) as H2. pose proof (kept_ready _ _ _ Hr1 H2) as Hr2.
  set (st2 := stepup_sd_release _ st1) in *. clearbody st2.
  assert (kept i st2 (emit (EvAccess false) st2)) as H3 by by (destruct Hr2 as (? & ? & _); apply kept_emit).
  eapply touched_failed; [apply moved_touched; exact H2|apply (mv_auth _ _ _ _ H2)|].
  eapply touched_failed; [apply moved_touched; exact H3|done|]. apply failed_terminate. by eapply kept_ready.
Qed.

(** The outcomes that are neither a grant nor the beginning of one. *)
Definition ungranted (st st' : reader) (l : list txn_phase) : Prop := failed i st st' \/ ends i l st st'.

Lemma give_up_ends release st : ready i st ->
  failed i st (without_document release i st) \/
  (se_learn_pending (sess st i) = false /\ ends i [PH_FAILED; PH_GATE_HOLD; PH_ESTABLISHED] st (without_document release i st)).
Proof.
  intros Hr. unfold without_document, stepup_is_learn. destruct CFG_STEPUP_BENCH eqn:Hb; [|left; by apply learn_reject_failed].
  destruct (se_learn_pending (sess st i)) eqn:Hp; [left; by apply learn_reject_failed|]. right. split; [done|].
  set (st1 := on_sess i _ st). pose proof Hr as (Ht & Hl & _).
  assert (kept i st st1) as H1.
  { apply kept_on_sess; try done. unfold fixed, stranded. cbn. by rewrite Hp, Hb. }
  eapply ends_kept; [exact H1|]. pose proof (kept_ready _ _ _ Hr H1) as Hr1. clearbody st1.
  destruct release; [|by apply gated_ends].
  pose proof (release_kept (se_conn (sess st1 i)) st1 Hr1) as H2. eapply ends_kept; [exact H2|]. apply gated_ends. by eapply kept_ready.
Qed.

Lemma request_ends st : ready i st ->
  let st' := stepup_send_request i st in
  failed i st st' \/ ends i [PH_FAILED; PH_SENT_STEPUP] st st' \/
  (se_learn_pending (sess st i) = false /\ ends i [PH_FAILED; PH_GATE_HOLD; PH_ESTABLISHED] st st').
Proof.
  intros Hr. unfold stepup_send_request. cbv zeta.
  destruct (_ && _); [destruct (give_up_ends false st Hr); tauto|].
  set (st1 := on_docs _ st). pose proof Hr as (Ht & Hl & _). assert (kept i st st1) as H1 by by apply kept_on_docs.
  pose proof (kept_ready _ _ _ Hr H1) as Hr1. destruct (envelope_apdu _) as [sc apdu].
  set (st2 := on_sess i _ st1). assert (kept i st1 st2) as H2 by by apply kept_sess.
  pose proof (kept_trans _ _ _ _ H1 H2) as H3. pose proof (kept_ready _ _ _ Hr H3) as Hr2.
  assert (se_learn_pending (sess st2 i) = se_learn_pending (sess st i)) as Hp.
  { pose proof (mv_fixed _ _ _ _ H3) as Hf. unfold fixed in Hf. by injection Hf. }
  clearbody st2. destruct apdu as [apdu|].
  - right. left. pose proof (kept_raw i (se_conn (sess st i)) apdu st2 Hr2) as H4. destruct (send_ap_raw _ _ _) as [st3 rc].
    cbn [fst] in H4. eapply ends_kept; [exact H3|]. eapply ends_kept; [exact H4|]. pose proof (kept_ready _ _ _ Hr2 H4).
    destruct (negb _); end_it.
  - destruct (give_up_ends true st2 Hr2) as [Hf|[Hl2 He]]; [left|right; right].
    + eapply touched_failed; [apply moved_touched; exact H3|apply (mv_auth _ _ _ _ H3)|done].
    + split; [congruence|]. by eapply ends_kept.
Qed.

(** *** The fast phase *)

Lemma fast_search_found st s c order k block : fast_search st s c order = Some (k, block) ->
  In k order /\ fast_trial st s c k = Some block.
Proof.
  induction order as [|j order IH]; cbn; [done|]. destruct (fast_trial st s c j) as [b|] eqn:Ht.
  - intros [= <- <-]. auto.
  - intros H. destruct (IH H) as [H1 H2]. auto.
Qed.

Lemma fast_order_occupied p k : In k (fast_order p) -> Z.of_nat k < ts_count (pv_trust p).
Proof.
  unfold fast_order. rewrite in_app_iff. intros [H|H].
  - destruct (_ && _) eqn:Hb; [|done]. destruct H as [<-|[]]. apply andb_true_iff in Hb as [H1 H2]. lia.
  - apply filter_In in H as [H _]. unfold slots in H. apply in_seq in H. lia.
Qed.

Lemma fast_trial_proof st s c k block : In k (fast_order (rd_prov st)) -> fast_trial st s c k = Some block -> fast_proof st s c k block.
Proof.
  intros Hin H. unfold fast_trial in H. destruct (has_bit _ _) eqn:Hb; [|discriminate H]. cbn [negb] in H.
  apply bind_Some in H as (salt & Hs & H). apply bind_Some in H as (b & Hd & H). apply bind_Some in H as (plain & Hv & H).
  apply Some_inj in H as ->. split; [by apply fast_order_occupied|]. split; [exact Hb|].
  exists salt, plain. split; [exact Hs|]. split; [exact Hd|exact Hv].
Qed.

Lemma sess_here f st : ready i st -> sess (on_sess i f st) i = f (sess st i).
Proof. intros (Ht & _). by rewrite sess_on_sess, decide_True. Qed.

(** Installing the keys of a block in a session. *)
Definition with_keys (ursk : list Z) (sc sc_ble : secchan) (s : session) : session :=
  s <| se_ursk := ursk |> <| se_sc := sc |> <| se_sc_ble := sc_ble |>.

Lemma keys_touched ursk sc sc_ble st : ready i st ->
  let st' := on_sess i (with_keys ursk sc sc_ble) st in
  touched i (se_phase (sess st i)) st st' /\ ready i st' /\
  sess st' i = with_keys ursk sc sc_ble (sess st i) /\ rd_prov st' = rd_prov st /\ auth_view st' = auth_view st.
Proof.
  intros Hr st'. assert (touched i (se_phase (sess st i)) st st') as H by by apply touched_sess.
  split; [done|]. split; [eapply touched_ready; [exact H|apply Hr]|]. split; [by apply sess_here|]. done.
Qed.

Lemma on_sess_twice f g st : table_ok st -> on_sess i g (on_sess i f st) = on_sess i (fun s => g (f s)) st.
Proof.
  intros Ht. assert (sess (on_sess i f st) i = f (sess st i)) as E1 by by rewrite sess_on_sess, decide_True.
  unfold on_sess at 1. rewrite E1. unfold on_sess, set_sess. cbn. by rewrite list_insert_insert_eq.
Qed.

Lemma exchange_granted pub mru st st' : ready i st -> moved i PH_SENT_EXCHANGE st st' ->
  let st'' := emit (EvAccess true) (authenticated pub mru st') in
  touched i PH_SENT_EXCHANGE st st'' /\ fixed (sess st'' i) = fixed (sess st i) /\ auth_view st'' = granted_view pub (auth_view st).
Proof.
  intros Hr Hm st''. assert (sess st'' i = sess st' i) as Es by done. rewrite Es. split; [|split].
  - eapply touched_trans; [by apply moved_touched|]. rewrite <- (mv_phase _ _ _ _ Hm).
    apply touched_same; [by eapply moved_ready|done].
  - apply (mv_fixed _ _ _ _ Hm).
  - rewrite <- (mv_auth _ _ _ _ Hm). done.
Qed.

Lemma fast_spec c st : ready i st -> se_learn_pending (sess st i) = false ->
  let '(st', consumed) := try_fast_auth i c st in
  if consumed then
    failed i st st' \/
    exists k block, fast_proof st (sess st i) c k block /\ touched i PH_SENT_EXCHANGE st st' /\
      se_learn_pending (sess st' i) = false /\ stranded (sess st' i) = stranded (sess st i) /\
      se_ursk (sess st' i) = ursk_from_block block /\ auth_view st' = granted_view (row [] (ts_cred_pub (trust st)) k) (auth_view st)
  else st' = st.
Proof.
  intros Hr Hp. unfold try_fast_auth. destruct (pv_have_group_x _); [|done]. cbn [negb].
  destruct (fast_search _ _ _ _) as [[k block]|] eqn:Hs; [|done].
  apply fast_search_found in Hs as [Hin Htr]. pose proof (fast_trial_proof _ _ _ _ _ Hin Htr) as Hpf. clear Hin Htr.
  set (pub := row [] (ts_cred_pub (trust st)) k). unfold crypto_split. set (st1 := on_prov _ st).
  assert (kept i st st1) as H1 by (destruct Hr as (? & ? & _); by apply kept_on_prov). pose proof (kept_ready _ _ _ Hr H1) as Hr1.
  assert (sess st1 i = sess st i) as Es by done. assert (trust st1 = trust st) as Et by done. clearbody st1.
  change (sub_bytes block URSK_OFFSET URSK_LEN) with (ursk_from_block block).
  set (enc := sub_bytes block _ _). set (dec := sub_bytes block _ _). set (sc := secchan_init enc dec). clearbody sc enc dec.
  set (f := fun s : session => _). assert (ready i (on_sess i f st1)) as Hr2.
  { eapply touched_ready; [by apply (touched_sess st1 f)|apply Hr1]. }
  unfold init_ble_channel. destruct (derive_ble_keys _ _) as [[ble_r ble_d]|]; cbn [mbind option_bind].
  2: { left. eapply touched_failed; [apply moved_touched; exact H1|apply (mv_auth _ _ _ _ H1)|].
       eapply touched_failed; [by apply (touched_sess st1 f)|done|by apply failed_terminate]. }
  set (sb := secchan_init ble_r ble_d). clearbody sb.
  change (set_sess i _ (on_sess i f st1)) with (on_sess i (fun s => s <| se_sc_ble := sb |>) (on_sess i f st1)).
  rewrite on_sess_twice by apply Hr1. destruct (keys_touched (ursk_from_block block) sc sb st1 Hr1) as (K1 & K2 & K3 & K4 & K5).
  change (on_sess i (fun s => _) st1) with (on_sess i (with_keys (ursk_from_block block) sc sb) st1).
  set (st3 := on_sess i (with_keys _ _ _) st1) in *. clearbody st3.
  pose proof (send_exchange_spec st3 K2) as H4. destruct (send_exchange i st3) as [st4 sent]. pose proof (moved_touched _ _ _ H1) as T1.
  assert (touched i (se_phase (sess st1 i)) st st3) as T3 by by eapply touched_trans.
  destruct sent; [right|left; eapply touched_failed; [exact T3|by rewrite K5; apply (mv_auth _ _ _ _ H1)|split; [by apply moved_touched|apply (mv_auth _ _ _ _ H4)]]].
  exists k, block. split; [done|]. destruct (exchange_granted pub (Some (i8 (prov_trust_find (trust st4) pub))) st3 st4 K2 H4) as (X1 & X2 & X3).
  split; [by eapply touched_trans|]. set (st5 := emit _ _) in *. clearbody st5. rewrite K3 in X2. unfold fixed in X2. injection X2 as _ _ F1 _ F2 F3.
  split; [by rewrite F1, <- Hp, <- Es|]. split; [by rewrite <- Es; exact F3|]. split; [done|]. rewrite X3, K5. by rewrite (mv_auth _ _ _ _ H1).
Qed.

Lemma ends_outcome l data st st' : ends i l st st' ->
  (forall ph, ph ∈ l -> ph = PH_FAILED \/ advance (se_phase (sess st i)) (se_learn_pending (sess st i)) ph) -> outcome st i data st'.
Proof.
  intros (ph & Hin & Hm) Hl. destruct (Hl ph Hin) as [->|Ha]; [|by eapply out_moved].
  apply out_failed. split; [by apply moved_touched|apply (mv_auth _ _ _ _ Hm)].
Qed.

Ltac each_phase := let ph := fresh in let Hin := fresh in
  intros ph Hin; repeat (apply elem_of_cons in Hin as [->|Hin]; [unfold advance; tauto|]); by apply elem_of_nil in Hin.

Lemma auth0_outcome data st : ready i st -> se_phase (sess st i) = PH_SENT_AUTH0 -> se_learn_pending (sess st i) = false ->
  stranded (sess st i) = false -> outcome st i data (on_auth0_response i (payload data) st).
Proof.
  intros Hr Hph Hp Hst. unfold on_auth0_response.
  destruct (response_body (payload data)) as [body|] eqn:Hb; [|apply out_failed; by apply failed_terminate]. cbn [mbind option_bind].
  destruct (apdu_parse_auth0_response body) as [r|] eqn:Hpr; [|apply out_failed; by apply failed_terminate].
  set (f := fun s : session => s <| se_device_pub := a0_device_eph_pub r |>). set (st1 := on_sess i f st).
  assert (kept i st st1) as H1 by by apply kept_sess. pose proof (kept_ready _ _ _ Hr H1) as Hr1.
  assert (sess st1 i = f (sess st i)) as Es by by apply sess_here.
  assert (rd_prov st1 = rd_prov st) as Ep by done. clearbody st1.
  assert (outcome st i data (standard_phase i st1)) as Hstd.
  { eapply ends_outcome; [eapply ends_kept; [exact H1|by apply standard_ends]|]. rewrite Hph. each_phase. }
  destruct (a0_cryptogram r) as [c|] eqn:Hc; [|done].
  destruct (negb CFG_STEPUP_FORCE && _) eqn:Hx; [|done]. apply andb_true_iff in Hx as [_ Hx].
  pose proof (fast_spec c st1 Hr1) as Hf. rewrite Es in Hf. specialize (Hf Hp). destruct (try_fast_auth i c st1) as [st2 consumed].
  destruct consumed; [|by subst]. destruct Hf as [Hf|(k & block & F1 & F2 & F3 & Fs & F4 & F5)].
  - apply out_failed. exact (touched_failed _ _ _ _ (moved_touched _ _ _ H1) (mv_auth _ _ _ _ H1) Hf).
  - eapply (out_granted _ _ _ _ PH_SENT_EXCHANGE (row [] (ts_cred_pub (trust st1)) k)).
    + exact (touched_trans _ _ _ _ _ (moved_touched _ _ _ H1) F2).
    + set_solver.
    + done.
    + rewrite Fs. exact Hst.
    + rewrite F5. by rewrite (mv_auth _ _ _ _ H1).
    + left. rewrite F4. unfold trust. rewrite Ep. apply (admit_fast st i data body r c k block Hph); [|exact Hb|exact Hpr|exact Hc|].
      * rewrite Es in Hx. by apply Z.eqb_eq.
      * destruct F1 as (G1 & G2 & salt & plain & G3). unfold session_salt, trust, ident in *. rewrite Ep in G1, G2, G3.
        split; [exact G1|]. split; [exact G2|]. exists salt, plain. exact G3.
Qed.

(** *** The standard phase *)

(** The session has its keys from [block]; nothing else is different. *)
Record prepared (block : list Z) (st st1 : reader) : Prop := {
  pp_touched : touched i (se_phase (sess st i)) st st1;
  pp_prov : rd_prov st1 = rd_prov st;
  pp_auth : auth_view st1 = auth_view st;
  pp_fixed : fixed (sess st1 i) = fixed ((sess st i) <| se_ursk := ursk_from_block block |>);
  pp_tx : se_txid (sess st1 i) = se_txid (sess st i) /\ se_eph_pub (sess st1 i) = se_eph_pub (sess st i) /\
          se_device_pub (sess st1 i) = se_device_pub (sess st i);
}.

Lemma prepared_ready block st st1 : ready i st -> prepared block st st1 -> ready i st1.
Proof. intros Hr H. eapply touched_ready; [apply (pp_touched _ _ _ H)|apply Hr]. Qed.

Lemma prepared_authdata block which st st1 : prepared block st st1 ->
  session_authdata which st1 (sess st1 i) = session_authdata which st (sess st i).
Proof. intros [_ Hp _ _ (T1 & T2 & T3)]. unfold session_authdata, ident. by rewrite Hp, T1, T2, T3. Qed.

Definition quiet_update (f : session -> session) : Prop := forall s,
  fixed (f s) = fixed s /\ se_phase (f s) = se_phase s /\ se_disconnect (f s) = se_disconnect s /\
  se_txid (f s) = se_txid s /\ se_eph_pub (f s) = se_eph_pub s /\ se_device_pub (f s) = se_device_pub s.

Lemma prepared_step block f st st1 : ready i st -> quiet_update f -> prepared block st st1 -> prepared block st (on_sess i f st1).
Proof.
  intros Hr Hf H. pose proof (prepared_ready _ _ _ Hr H) as Hr1. destruct H as [H1 H2 H3 H4 (T1 & T2 & T3)].
  assert (kept i st1 (on_sess i f st1)) as Hk by (apply kept_sess; [done|done|]; intros s; destruct (Hf s) as (?&?&?&?); done).
  assert (sess (on_sess i f st1) i = f (sess st1 i)) as Es by by apply sess_here.
  constructor; rewrite ?Es.
  - eapply touched_trans; [exact H1|]. rewrite <- (tc_phase _ _ _ _ H1). by apply moved_touched.
  - done.
  - done.
  - destruct (Hf (sess st1 i)) as (-> & _). done.
  - destruct (Hf (sess st1 i)) as (_ & _ & _ & -> & -> & ->). done.
Qed.

Lemma install_prepared block st : ready i st ->
  prepared block st (install_keys i block st) /\
  se_sc (sess (install_keys i block st) i) = secchan_init (crypto_split block true).1.1 (crypto_split block true).1.2.
Proof.
  intros Hr. unfold install_keys, crypto_split. cbn [fst snd].
  change (sub_bytes block URSK_OFFSET URSK_LEN) with (ursk_from_block block).
  set (enc := sub_bytes block _ _). set (dec := sub_bytes block _ _). set (sc := secchan_init enc dec). clearbody sc enc dec.
  set (f := fun s : session => _). assert (sess (on_sess i f st) i = f (sess st i)) as Es by by apply sess_here.
  assert (prepared block st (on_sess i f st)) as H.
  { constructor; rewrite ?Es; [by apply (touched_sess st f)|done..]. }
  assert (se_sc (sess (on_sess i f st) i) = sc) as Hsc by by rewrite Es.
  set (st1 := on_sess i f st) in *. clearbody st1. destruct (CFG_STEPUP && se_stepup_active (sess st1 i)); [|done].
  destruct (stepup_derive_keys block) as [[skr skd]|]; [|done].
  set (g := fun s : session => _). split; [by apply (prepared_step _ g)|]. rewrite sess_here by (by eapply prepared_ready). exact Hsc.
Qed.

Lemma open_auth1_spec body block st st1 : ready i st -> prepared block st st1 ->
  se_sc (sess st1 i) = secchan_init (crypto_split block true).1.1 (crypto_split block true).1.2 ->
  let '(st2, r) := open_auth1 i body st1 in
  prepared block st st2 /\
  forall r', r = Some r' -> GCM_TAG_LEN <= zlen body /\ exists pt,
    (secchan_open (secchan_init (crypto_split block true).1.1 (crypto_split block true).1.2) []
       (sub_bytes body 0 (zlen body - GCM_TAG_LEN)) (sub_bytes body (zlen body - GCM_TAG_LEN) GCM_TAG_LEN)).2 = Some pt /\
    apdu_parse_auth1_response pt = Some r'.
Proof.
  intros Hr Hp Hsc. unfold open_auth1. rewrite Hsc.
  destruct (Z.ltb_spec (zlen body) GCM_TAG_LEN) as [|Hlen]; [done|]. destruct (256 <? _); [done|].
  destruct (secchan_open _ _ _ _) as [sc pt] eqn:Ho. split; [by apply prepared_step|].
  intros r' Hpt. split; [done|]. apply bind_Some in Hpt as (p & -> & Hpt). by exists p.
Qed.

Lemma commit_kept staged pub st : ready i st -> kept i st (commit_kp staged pub st).
Proof.
  intros Hr. unfold commit_kp. destruct staged as [[ki kp]|]; [|by apply kept_refl]. cbv zeta.
  destruct (_ <? 0); [by apply kept_refl|]. destruct (prov_kpersistent_set _ _ _) as [ts rc].
  destruct (_ =? _); [|by apply kept_refl]. destruct Hr as (? & ? & _). by apply kept_on_prov.
Qed.

Lemma check_verdict st pub : trust_verdict st pub = 0 -> prov_trust_check (trust st) pub = 0.
Proof. unfold trust_verdict. destruct (CFG_STEPUP_FORCE && _); [done|]. done. Qed.

Lemma dev_verdict st pub : dev_accepts st (trust_verdict st pub) = true ->
  CFG_DEV_TRUST = true /\ rid_is_dev (ident st) = true /\ pv_state (rd_prov st) = PROVISIONING_EMPTY /\ ts_count (trust st) = 0.
Proof.
  unfold dev_accepts. intros H. apply andb_true_iff in H as [H H4]. apply andb_true_iff in H as [H H3]. apply andb_true_iff in H as [H1 H2].
  apply bool_decide_eq_true in H4. split_and!; [done|done|done|]. apply Z.eqb_eq in H1. revert H1. unfold trust_verdict, prov_trust_check.
  destruct (Z.eqb_spec (ts_count (trust st)) 0); [done|]. destruct (List.find _ _); destruct (_ && _); lia.
Qed.

Lemma begin_learn_spec block pub r st st' : ready i st -> begin_learn i block pub r st = Some st' ->
  CFG_STEPUP = true /\ 0 < ts_issuer_count (trust st) /\ is_Some (a1_device_pub r) /\
  touched i (se_phase (sess st i)) st st' /\ rd_prov st' = rd_prov st /\ auth_view st' = auth_view st /\
  fixed (sess st' i) = (se_active (sess st i), se_conn (sess st i), true, pub, se_ursk (sess st i), false).
Proof.
  intros Hr H. unfold begin_learn in H. destruct (_ || _) eqn:Hc; [discriminate H|].
  apply orb_false_iff in Hc as [Hc _]. apply orb_false_iff in Hc as [Hc H3]. apply orb_false_iff in Hc as [H1 H2].
  apply negb_false_iff in H1, H2, H3. apply bool_decide_eq_true in H3.
  apply bind_Some in H as ([skr skd] & _ & H). apply Some_inj in H as <-.
  split; [done|]. split; [lia|]. split; [done|]. set (f := fun s : session => _).
  split; [by apply (touched_sess st f)|]. split; [done|]. split; [done|]. rewrite sess_here by done.
  unfold fixed, stranded, f. cbn. by rewrite H1, andb_false_r.
Qed.

Lemma decide_outcome data block pub r st st1 : ready i st -> se_phase (sess st i) = PH_SENT_AUTH1 ->
  se_learn_pending (sess st i) = false -> stranded (sess st i) = false -> prepared block st st1 ->
  auth1_proof st (sess st i) (payload data) block pub r -> outcome st i data (decide_auth1 i block pub r st1).
Proof.
  intros Hr Hph Hp Hst Hpp Hpf. unfold decide_auth1. cbv zeta. pose proof (prepared_ready _ _ _ Hr Hpp) as Hr1.
  set (st2 := on_prov _ st1). assert (kept i st1 st2) as K2 by (destruct Hr1 as (? & ? & _); by apply kept_on_prov).
  pose proof (kept_ready _ _ _ Hr1 K2) as Hr2. assert (sess st2 i = sess st1 i) as Es2 by done.
  assert (trust st2 = trust st) as Et by (unfold trust; by rewrite <- (pp_prov _ _ _ Hpp)).
  assert (ident st2 = ident st) as Ei by (unfold ident; by rewrite <- (pp_prov _ _ _ Hpp)).
  assert (pv_state (rd_prov st2) = pv_state (rd_prov st)) as Estate by by rewrite <- (pp_prov _ _ _ Hpp).
  assert (touched i PH_SENT_AUTH1 st st2) as T2.
  { rewrite <- Hph. eapply touched_trans; [apply (pp_touched _ _ _ Hpp)|]. rewrite <- (tc_phase _ _ _ _ (pp_touched _ _ _ Hpp)).
    exact (moved_touched _ _ _ K2). }
  assert (auth_view st2 = auth_view st) as A2 by (rewrite (mv_auth _ _ _ _ K2); apply (pp_auth _ _ _ Hpp)).
  assert (fixed (sess st2 i) = fixed ((sess st i) <| se_ursk := ursk_from_block block |>)) as F2 by (rewrite Es2; apply (pp_fixed _ _ _ Hpp)).
  clearbody st2. unfold fixed in F2. injection F2 as Fa Fc Fp _ Fu Fs.
  set (tv := trust_verdict st2 pub). destruct ((tv =? 0) || dev_accepts st2 tv) eqn:Hadm.
  - assert (admitted st i data pub (ursk_from_block block)) as Hev.
    { apply orb_true_iff in Hadm as [H0|Hd].
      - apply Z.eqb_eq in H0. apply check_verdict in H0. rewrite Et in H0. by eapply admit_standard.
      - apply dev_verdict in Hd as (D1 & D2 & D3 & D4). rewrite Et in D4. rewrite Ei in D2. rewrite Estate in D3. by eapply admit_dev. }
    pose proof (send_exchange_spec st2 Hr2) as H3. destruct (send_exchange i st2) as [st3 sent]. destruct sent; cbn [negb].
    2: { apply out_failed. split; [exact (touched_moved _ _ _ _ _ T2 H3)|]. rewrite (mv_auth _ _ _ _ H3). exact A2. }
    assert (ready i st3) as Hr3 by by eapply moved_ready.
    pose proof (moved_kept _ _ _ _ _ H3 (commit_kept (stage_kp st2 (sess st2 i) tv pub) pub st3 Hr3)) as H4.
    set (st4 := commit_kp _ pub st3) in *. clearbody st4. pose proof (mv_fixed _ _ _ _ H4) as F4. unfold fixed in F4.
    injection F4 as _ _ F4p _ F4u _. assert (se_learn_pending (sess st4 i) = false) as Hp4 by (rewrite F4p, Fp; exact Hp).
    rewrite Hp4, andb_false_r. destruct (exchange_granted pub (if tv =? 0 then Some (i8 (prov_trust_find (trust st4) pub)) else None) st2 st4 Hr2 H4) as (X1 & X2 & X3).
    set (st5 := emit _ _) in *. clearbody st5. unfold fixed in X2. injection X2 as _ _ Xp _ Xu Xs.
    eapply (out_granted _ _ _ _ PH_SENT_EXCHANGE pub).
    + exact (touched_trans _ _ _ _ _ T2 X1).
    + set_solver.
    + intros _. rewrite Xp, Fp. exact Hp.
    + rewrite Xs, Fs. exact Hst.
    + by rewrite X3, A2.
    + left. by rewrite Xu, Fu.
  - destruct (begin_learn i block pub r st2) as [st3|] eqn:Hbl.
    2: { apply out_failed. eapply touched_failed; [exact T2|exact A2|].
         assert (kept i st2 (emit (EvAccess false) st2)) as K3 by (destruct Hr2 as (? & ? & _); by apply kept_emit).
         eapply touched_failed; [exact (moved_touched _ _ _ K3)|done|]. apply failed_terminate. by eapply kept_ready. }
    apply begin_learn_spec in Hbl as (B1 & B2 & [pub' B3] & B4 & B5 & B6 & B7); [|done].
    rewrite (tc_phase _ _ _ _ T2) in B4. assert (ready i st3) as Hr3 by by eapply touched_ready.
    pose proof (send_exchange_spec st3 Hr3) as H4. destruct (send_exchange i st3) as [st4 sent].
    pose proof (touched_trans _ _ _ _ _ T2 B4) as T3. destruct sent; cbn [negb].
    2: { apply out_failed. split; [exact (touched_moved _ _ _ _ _ T3 H4)|]. by rewrite (mv_auth _ _ _ _ H4), B6. }
    assert (ready i st4) as Hr4 by by eapply moved_ready.
    pose proof (moved_kept _ _ _ _ _ H4 (commit_kept (stage_kp st3 (sess st3 i) tv pub) pub st4 Hr4)) as H5.
    set (st5 := commit_kp _ pub st4) in *. clearbody st5. pose proof (mv_fixed _ _ _ _ H5) as F5. rewrite B7 in F5.
    assert (se_learn_pending (sess st5 i) = true) as Hp5 by (unfold fixed in F5; by injection F5).
    rewrite Hp5, B1. cbn [andb]. eapply (out_presented _ _ _ _ pub (ursk_from_block block)).
    + exact (touched_moved _ _ _ _ _ T3 H5).
    + by rewrite (mv_auth _ _ _ _ H5), B6.
    + rewrite F5, Fa, Fc, Fu. destruct Hr as (_ & [Hact _] & _). by rewrite <- Hact.
    + split; [exact Hph|]. split; [exact B1|]. split; [by rewrite <- Et|]. exists block, r. split; [exact Hpf|]. split; [|done].
      destruct Hpf as (? & ? & ? & _ & _ & _ & _ & _ & Hpub & _). rewrite B3 in Hpub |- *. cbn in Hpub. by rewrite Hpub.
Qed.

Lemma auth1_outcome data st : ready i st -> se_phase (sess st i) = PH_SENT_AUTH1 -> se_learn_pending (sess st i) = false ->
  stranded (sess st i) = false -> outcome st i data (on_auth1_response i (payload data) st).
Proof.
  intros Hr Hph Hp Hst. unfold on_auth1_response.
  destruct (response_body (payload data)) as [body|] eqn:Hb; [|apply out_failed; by apply failed_terminate].
  destruct (session_block st (sess st i)) as [block|] eqn:Hblk; [|apply out_failed; by apply failed_terminate].
  destruct (install_prepared block st Hr) as [P1 Hsc]. set (st1 := install_keys i block st) in *. clearbody st1.
  pose proof (prepared_ready _ _ _ Hr P1) as Hr1.
  assert (forall st', prepared block st st' -> outcome st i data (session_terminate i st')) as Hterm.
  { intros st' H. apply out_failed. eapply touched_failed; [apply (pp_touched _ _ _ H)|apply (pp_auth _ _ _ H)|].
    apply failed_terminate. exact (prepared_ready _ _ _ Hr H). }
  unfold init_ble_channel. destruct (derive_ble_keys _ _) as [[ble_r ble_d]|]; cbn [mbind option_bind]; [|by apply Hterm].
  set (sb := secchan_init ble_r ble_d). clearbody sb.
  change (set_sess i _ st1) with (on_sess i (fun s => s <| se_sc_ble := sb |>) st1).
  assert (prepared block st (on_sess i (fun s => s <| se_sc_ble := sb |>) st1)) as P2 by (apply prepared_step; [exact Hr|done|exact P1]).
  assert (se_sc (sess (on_sess i (fun s => s <| se_sc_ble := sb |>) st1) i) =
    secchan_init (crypto_split block true).1.1 (crypto_split block true).1.2) as Hsc2 by (rewrite sess_here by exact Hr1; exact Hsc).
  set (st2 := on_sess i _ st1) in *. clearbody st2.
  pose proof (open_auth1_spec body block st st2 Hr P2 Hsc2) as Ho. destruct (open_auth1 i body st2) as [st3 [r|]]; destruct Ho as [P3 Ho]; [|by apply Hterm].
  destruct (Ho r eq_refl) as (Hlen & pt & Hpt & Hr').
  rewrite (prepared_authdata _ _ _ _ P3). destruct (pp_tx _ _ _ P3) as (_ & _ & ->).
  destruct (session_authdata AUTH_DEVICE st (sess st i)) as [td|] eqn:Htd; [|by apply Hterm].
  destruct (ec_verify _ _ _) eqn:Hv; cbn [negb]; [|by apply Hterm].
  apply decide_outcome; [done|done|done|done|done|]. exists body, pt, td. split_and!; [exact Hb|exact Hlen|exact Hblk|exact Hpt|exact Hr'|reflexivity|exact Htd|exact Hv].
Qed.

(** *** The step-up phase *)

Lemma pick_found st m doc pubs v pub v' : pick_issuer st m doc pubs v = (Some pub, v') ->
  In pub pubs /\ sv_valid (stepup_verify m doc (learn_ctx st m doc pub)) = true.
Proof.
  revert v. induction pubs as [|p pubs IH]; intros v H; cbn [pick_issuer] in H; [discriminate H|]. cbv zeta in H.
  destruct (sv_valid (stepup_verify m doc (learn_ctx st m doc p))) eqn:Hv; [injection H as <- _; split; [by left|done]|].
  destruct (sv_sig_ok (stepup_verify m doc (learn_ctx st m doc p))); [discriminate H|].
  destruct (IH _ H) as [H1 H2]. split; [by right|done].
Qed.

(** What the search for an issuer has established. *)
Definition verified (st : reader) (s : session) (issuer : list Z) : Prop :=
  exists plain doc c, dc_owner (rd_docs st) = se_conn s /\
    (stepup_open_sessiondata (se_stepup_sc s) (dc_sd (rd_docs st)) CFG_STEPUP_SD_MAX).2 = Some plain /\
    parse_response (zlen plain) (mem_of plain) = Ok doc c /\ In issuer (issuer_keys st) /\
    sv_valid (stepup_verify (mem_of plain) (without_x5chain doc) (learn_ctx st (mem_of plain) (without_x5chain doc) issuer)) = true /\
    sd_device_key doc = Some (se_learn_pub s).

Lemma learn_verify_spec st : ready i st ->
  let '(st', issuer, v) := learn_verify i st in
  kept i st st' /\ grown st st' /\ forall pub, issuer = Some pub -> verified st (sess st i) pub.
Proof.
  intros Hr. unfold learn_verify. cbv zeta. pose proof (kept_refl i st Hr) as K0. pose proof (grown_refl st) as G0.
  destruct (_ || _) eqn:Hg; [split; [exact K0|]; split; [exact G0|discriminate]|].
  apply orb_false_iff in Hg as [_ Hown]. apply negb_false_iff, Z.eqb_eq in Hown.
  destruct (stepup_open_sessiondata _ _ _) as [sc plain] eqn:Ho. set (st1 := on_sess i _ st).
  assert (kept i st st1) as K1 by (apply kept_sess; done). pose proof (grown_on_sess i (fun s => s <| se_stepup_sc := sc |>) st) as G1. fold st1 in G1.
  destruct plain as [plain|]; [|split; [exact K1|]; split; [exact G1|discriminate]].
  destruct (parse_response (zlen plain) (mem_of plain)) as [doc c| |] eqn:Hp; try (split; [exact K1|]; split; [exact G1|discriminate]).
  destruct (pick_issuer _ _ _ _ _) as [picked v] eqn:Hpick. case_bool_decide as Hk; (split; [exact K1|]; split; [exact G1|]); [|discriminate].
  intros pub ->. apply pick_found in Hpick as [Hin Hv]. exists plain, doc, c.
  split; [exact Hown|]. split; [by rewrite Ho|]. split; [exact Hp|]. split; [exact Hin|]. split; [exact Hv|exact Hk].
Qed.

Lemma find_congr ts ts' pub : ts_cred_pub ts' = ts_cred_pub ts -> ts_count ts' = ts_count ts ->
  prov_trust_find ts' pub = prov_trust_find ts pub.
Proof. unfold prov_trust_find, slots. by intros -> ->. Qed.

Lemma learn_candidate_holds st s issuer cand slot index user :
  learn_candidate st s issuer = Some (cand, slot, index, user) -> 0 <= prov_trust_find cand (se_learn_pub s).
Proof.
  unfold learn_candidate. cbv zeta. destruct (_ <? 0); [discriminate|]. destruct (prov_trust_add _ _) as [c1 add].
  destruct (add <? 0); [discriminate|]. destruct (Z.ltb_spec (prov_trust_find c1 (se_learn_pub s)) 0) as [|H0]; [discriminate|].
  assert (forall i0 a b u, prov_trust_find (prov_cred_bind_set c1 i0 a b u).1 (se_learn_pub s) = prov_trust_find c1 (se_learn_pub s)) as Hb.
  { intros. unfold prov_cred_bind_set. by destruct (_ || _). }
  assert (forall c2 i0 k, prov_trust_find (prov_anchor_issuer_set c2 i0 k).1 (se_learn_pub s) = prov_trust_find c2 (se_learn_pub s)) as Ha.
  { intros. unfold prov_anchor_issuer_set. by destruct (_ || _). }
  assert (forall c2 i0 k, prov_trust_find (prov_kpersistent_set c2 i0 k).1 (se_learn_pub s) = prov_trust_find c2 (se_learn_pub s)) as Hk.
  { intros. unfold prov_kpersistent_set. by destruct (_ || _). }
  destruct (add =? 1); destruct (session_kp _ _ _); intros H; apply Some_inj in H; injection H as <- _ _ _; rewrite ?Hk, ?Ha, ?Hb; exact H0.
Qed.

Lemma learn_commit_spec issuer st : ready i st ->
  let '(st', learned) := learn_commit i issuer st in
  if learned then rd_sessions st' = rd_sessions st /\
    auth_view (emit (EvAccess true) st') = granted_view (se_learn_pub (sess st i)) (auth_view st) /\
    In (EvStore (ident st) (trust st') 0) (rd_log st') /\ 0 <= prov_trust_find (trust st') (se_learn_pub (sess st i))
  else kept i st st'.
Proof.
  intros Hr. unfold learn_commit. cbv zeta. destruct (learn_candidate _ _ _) as [[[[cand slot] index] user]|] eqn:Hc; [|by apply kept_refl].
  apply learn_candidate_holds in Hc. unfold prov_store. cbv zeta. destruct (Z.eqb_spec (w_store (rd_log st)) 0) as [H0|]; cbn [negb].
  - rewrite H0. split; [done|]. split; [done|]. split; [right; left; done|exact Hc].
  - destruct Hr as (? & ? & _). by apply kept_emit.
Qed.

(** The grant at the end of a step-up phase. *)
Lemma learned_granted data st st1 st2 : ready i st -> se_phase (sess st i) = PH_SENT_STEPUP ->
  kept i st st1 -> rd_sessions st2 = rd_sessions st1 ->
  auth_view (emit (EvAccess true) st2) = granted_view (se_learn_pub (sess st i)) (auth_view st1) ->
  vouched st i data st2 (se_learn_pub (sess st i)) ->
  forall f, let st4 := on_sess i (fun s => s <| se_stepup_active := false |> <| se_learn_pending := false |>) (on_docs f st2) in
  outcome st i data (gated_complete_ap i (emit (EvAccess true) st4)).
Proof.
  intros Hr Hph K1 Hs Ha Hv f st4. pose proof (kept_ready _ _ _ Hr K1) as Hr1.
  assert (forall j, sess (on_docs f st2) j = sess st1 j) as Es by (intros; unfold sess, on_docs; cbn; by rewrite Hs).
  assert (ready i (on_docs f st2)) as Hr2.
  { destruct Hr1 as (H1 & H2 & H3). unfold ready, live, table_ok in *. rewrite Es. cbn. by rewrite Hs. }
  set (g := fun s : session => s <| se_stepup_active := false |> <| se_learn_pending := false |>).
  assert (touched i PH_SENT_STEPUP st (emit (EvAccess true) st4)) as T4.
  { rewrite <- Hph. eapply touched_trans; [exact (moved_touched _ _ _ K1)|]. rewrite <- (mv_phase _ _ _ _ K1).
    eapply touched_trans; [apply (touched_same st1 (on_docs f st2) Hr1); exact Hs|]. rewrite <- (Es i).
    eapply touched_trans; [by apply (touched_sess (on_docs f st2) g)|].
    pose proof (touched_ready _ _ _ (touched_sess (on_docs f st2) g Hr2 ltac:(done)) (proj2 (proj2 Hr2))) as Hr4.
    replace (se_phase (sess (on_docs f st2) i)) with (se_phase (sess st4 i)); [by apply touched_same|].
    unfold st4. by rewrite sess_here. }
  assert (ready i (emit (EvAccess true) st4)) as Hr4 by by eapply touched_ready.
  assert (auth_view (emit (EvAccess true) st4) = granted_view (se_learn_pub (sess st i)) (auth_view st)) as A4.
  { rewrite <- (mv_auth _ _ _ _ K1), <- Ha. done. }
  assert (sess (emit (EvAccess true) st4) i = g (sess st1 i)) as Es4.
  { change (sess st4 i = g (sess st1 i)). unfold st4. rewrite sess_here by done. by rewrite Es. }
  assert (rd_prov (emit (EvAccess true) st4) = rd_prov st2 /\ exists es, rd_log (emit (EvAccess true) st4) = es ++ rd_log st2) as G4.
  { split; [done|]. by exists [EvAccess true]. }
  set (st5 := emit (EvAccess true) st4) in *. clearbody st5. clear st4.
  destruct (gated_ends st5 Hr4) as (ph & Hin & Hm). pose proof (grown_trans _ _ _ G4 (grown_gated i st5)) as G6.
  set (st6 := gated_complete_ap i st5) in *. clearbody st6.
  pose proof (mv_fixed _ _ _ _ Hm) as F6. rewrite Es4 in F6. unfold fixed in F6. injection F6 as _ _ F1 _ F2 F3.
  eapply (out_granted _ _ _ _ ph (se_learn_pub (sess st i))).
  - exact (touched_moved _ _ _ _ _ T4 Hm).
  - clear - Hin. revert Hin. rewrite !elem_of_cons, elem_of_nil. tauto.
  - intros _. by rewrite F1.
  - rewrite F3. cbn. by rewrite andb_false_r.
  - by rewrite (mv_auth _ _ _ _ Hm), A4.
  - right. split.
    + destruct Hv as (V1 & V2 & V3 & V4 & V5 & V6). assert (trust st6 = trust st2) as Et by (unfold trust; by rewrite (proj1 G6)).
      split; [done|]. split; [done|]. split; [done|]. split; [done|]. rewrite Et. split; [by eapply grown_in|done].
    + rewrite F2. pose proof (mv_fixed _ _ _ _ K1) as F0. unfold fixed in F0. by injection F0.
Qed.

End Slot.
End Evidence.
