(* ===== verification/ReaderFeed.v ===== *)
(** * The credential reader: what one message can do

    Every branch of the transaction machine is one of the outcomes of
    [ReaderGrant]: it gives up, moves on without a grant, notes a key that awaits
    its document, or grants access on evidence. *)

From Stdlib Require Import ZArith Lia Bool.
From stdpp Require Import base list numbers option.
From S2P Require Import Prelude Wire CredCrypto Device CredTlv CredApdu Prov RssiGate Cbor StepupParse StepupWire Stepup ReaderState Reader ReaderFacts ReaderGrant.

Local Open Scope Z_scope.
Local Open Scope uwl_scope.

Section Feed.
Context `{G : Gcm, E : Ec, W : World, C : reader_cfg, P : stepup_cfg}.

(** A key waits for its document only while the document is being asked for, and
    but for the bench a document is asked for only then. *)
Record sound_session (s : session) : Prop := {
  ss_stranded : stranded s = false;
  ss_pending : se_learn_pending s = true -> se_phase s = PH_SENT_EXCHANGE \/ se_phase s = PH_SENT_STEPUP \/ se_phase s = PH_FAILED;
  ss_request : se_phase s = PH_SENT_STEPUP -> CFG_STEPUP_BENCH = true \/ se_learn_pending s = true;
}.

Ltac each_phase := let ph := fresh in let Hin := fresh in
  intros ph Hin; repeat (apply elem_of_cons in Hin as [->|Hin]; [unfold advance; tauto|]); by apply elem_of_nil in Hin.

Context (i : nat) (Hi : (i < MAX_SESSIONS)%nat).

(** ** Composition *)

Lemma failed_kept st st1 st' : kept i st st1 -> failed i st1 st' -> failed i st st'.
Proof. intros H. exact (touched_failed _ _ _ _ _ (moved_touched _ _ _ _ H) (mv_auth _ _ _ _ H)). Qed.

Lemma kept_outcome data st st' : kept i st st' -> outcome st i data st'.
Proof. intros H. eapply out_moved; [exact H|by left]. Qed.

Lemma moved_same ph st st1 st2 : moved i ph st st1 -> rd_sessions st2 = rd_sessions st1 -> auth_view st2 = auth_view st1 -> moved i ph st st2.
Proof.
  intros [H1 H2 H3 H4 H5 H6] Hs Ha. assert (forall j, sess st2 j = sess st1 j) as Es by (intros; unfold sess; by rewrite Hs).
  constructor; unfold live in *; intros; rewrite ?Es; auto; [|congruence]. unfold table_ok. by rewrite Hs.
Qed.

Lemma moved_sess ph st st1 f : moved i ph st st1 -> fixed (f (sess st1 i)) = fixed (sess st1 i) ->
  se_phase (f (sess st1 i)) = se_phase (sess st1 i) -> se_disconnect (f (sess st1 i)) = se_disconnect (sess st1 i) ->
  moved i ph st (on_sess i f st1).
Proof.
  intros [H1 H2 H3 H4 H5 H6] Hf Hp Hd.
  assert (forall j, sess (on_sess i f st1) j = if decide (j = i) then f (sess st1 i) else sess st1 j) as Es by (intros; by apply sess_on_sess).
  constructor; [by apply table_set| | | | |exact H6].
  - intros j Hj. rewrite Es, decide_False by done. by apply H2.
  - rewrite Es, decide_True by done. congruence.
  - rewrite Es, decide_True by done. congruence.
  - intros Hn. destruct (H5 Hn) as [L1 L2]. unfold live. rewrite Es, decide_True by done. rewrite Hd. split; [|done].
    unfold fixed in Hf. injection Hf as -> _ _ _ _ _. done.
Qed.

(** ** The first message, and ranging *)

Lemma first_outcome data st : ready i st -> se_phase (sess st i) = PH_IDLE -> se_learn_pending (sess st i) = false ->
  outcome st i data (on_first_message i (payload data) st).
Proof.
  intros Hr Hph Hp.
  assert (forall a5, outcome st i data (start_auth i (on_sess i (fun s => s <| se_a5 := a5 |>) st))) as Hs.
  { intros a5. set (f := fun s : session => _). assert (kept i st (on_sess i f st)) as H1 by (by apply (kept_sess i Hi st f)).
    pose proof (kept_ready _ _ _ Hr H1) as Hr1. eapply ends_outcome; [eapply ends_kept; [exact H1|apply (start_auth_ends i Hi); [exact Hr1|]]|].
    - pose proof (mv_fixed _ _ _ _ H1) as Hf. unfold fixed in Hf. rewrite Hp in Hf. by injection Hf.
    - rewrite Hph. each_phase. }
  unfold on_first_message. destruct (capture_a5_tlv _ _); [apply Hs|apply out_failed; by apply failed_terminate|apply Hs].
Qed.

Lemma ranging_outcome data st : ready i st -> outcome st i data (on_ranging_sdu i data st).
Proof.
  intros Hr. unfold on_ranging_sdu. destruct (msg_open _ _ _) as [sc plain]. set (st1 := on_sess i _ st).
  assert (kept i st st1) as H1 by (by apply (kept_sess i Hi)). pose proof (kept_ready _ _ _ Hr H1) as Hr1. clearbody st1.
  destruct plain as [plain|]; [|apply out_failed; eapply failed_kept; [exact H1|by apply failed_terminate]].
  pose proof (kept_feed i Hi (se_conn (sess st1 i)) plain st1 Hr1) as H2. destruct (ranging_feed _ _ _) as [st2 rc]. cbn [fst] in H2.
  pose proof (kept_trans _ _ _ _ H1 H2) as H3. destruct (negb _); [|by apply kept_outcome].
  apply out_failed. eapply failed_kept; [exact H3|]. apply failed_terminate; [done|]. by eapply kept_ready.
Qed.

(** ** EXCHANGE *)

Lemma exchange_outcome data st : ready i st -> se_phase (sess st i) = PH_SENT_EXCHANGE -> stranded (sess st i) = false ->
  outcome st i data (on_exchange_response i (payload data) st).
Proof.
  intros Hr Hph Hst. unfold on_exchange_response.
  destruct (response_body _) as [r|]; [|apply out_failed; by apply failed_terminate]. cbv zeta.
  destruct (_ || _); [apply out_failed; by apply failed_terminate|]. destruct (secchan_open _ _ _ _) as [sc body].
  set (f := fun s : session => _). set (st1 := on_sess i f st).
  assert (kept i st st1) as H1 by (by apply (kept_sess i Hi)). pose proof (kept_ready _ _ _ Hr H1) as Hr1.
  assert (se_learn_pending (sess st1 i) = se_learn_pending (sess st i) /\ se_stepup_active (sess st1 i) = se_stepup_active (sess st i)) as [Ep Ea].
  { unfold st1. by rewrite (sess_here i Hi). }
  clearbody st1. destruct body as [body|]; [|apply out_failed; eapply failed_kept; [exact H1|by apply failed_terminate]].
  destruct (negb _); [apply out_failed; eapply failed_kept; [exact H1|by apply failed_terminate]|].
  apply orb_false_iff in Hst as [S1 S2]. destruct (CFG_STEPUP && se_stepup_active (sess st1 i)) eqn:Hs.
  - apply andb_true_iff in Hs as [_ Ha]. rewrite Ea in Ha. rewrite Ha, andb_true_r in S2.
    destruct (request_ends i Hi st1 Hr1) as [Hf|[He|[Hp He]]].
    + apply out_failed. by eapply failed_kept.
    + eapply ends_outcome; [by eapply ends_kept|]. rewrite Hph.
      assert (CFG_STEPUP_BENCH = true \/ se_learn_pending (sess st i) = true).
      { destruct CFG_STEPUP_BENCH; [by left|]. right. by destruct (se_learn_pending (sess st i)). }
      each_phase.
    + eapply ends_outcome; [by eapply ends_kept|]. rewrite Hph. rewrite Ep in Hp. each_phase.
  - rewrite Ea in Hs. rewrite Hs, andb_true_r in S1.
    eapply ends_outcome; [eapply ends_kept; [exact H1|by apply gated_ends]|]. rewrite Hph. each_phase.
Qed.

(** ** The step-up phase *)

Lemma learn_outcome data st f : ready i st -> se_phase (sess st i) = PH_SENT_STEPUP -> se_learn_pending (sess st i) = true ->
  (forall issuer, verified (on_docs f st) (sess st i) issuer -> document_proof st (sess st i) (payload data) (se_learn_pub (sess st i))) ->
  outcome st i data (learn_decide i (on_docs f st)).
Proof.
  intros Hr Hph Hp Hdoc. assert (kept i st (on_docs f st)) as H0 by (destruct Hr as (? & ? & _); by apply kept_on_docs).
  pose proof (grown_on_docs f st) as G0. change (sess st i) with (sess (on_docs f st) i) in Hdoc at 1.
  pose proof (kept_ready _ _ _ Hr H0) as Hr0. set (st0 := on_docs f st) in *. clearbody st0. unfold learn_decide.
  pose proof (learn_verify_spec i Hi st0 Hr0) as Hv. destruct (learn_verify i st0) as [[st1 issuer] v]. destruct Hv as (K1 & G1 & Hv).
  pose proof (kept_ready _ _ _ Hr0 K1) as Hr1. set (st2 := on_docs _ st1).
  assert (kept i st1 st2) as K2 by (destruct Hr1 as (? & ? & _); by apply kept_on_docs). pose proof (kept_ready _ _ _ Hr1 K2) as Hr2.
  pose proof (release_kept i (se_conn (sess st1 i)) st2 Hr2) as K3. set (st3 := stepup_sd_release _ st2) in *.
  assert (grown st st3) as G3.
  { eapply grown_trans; [exact G0|]. eapply grown_trans; [exact G1|]. eapply grown_trans; [apply grown_on_docs|].
    unfold st3, stepup_sd_release. destruct (_ =? _); [apply grown_on_docs|apply grown_refl]. }
  pose proof (kept_trans _ _ _ _ (kept_trans _ _ _ _ (kept_trans _ _ _ _ H0 K1) K2) K3) as K4. pose proof (kept_ready _ _ _ Hr K4) as Hr4.
  clearbody st3. clear st2 K2 Hr2 K3. destruct issuer as [pub|]; [|apply out_failed; eapply failed_kept; [exact K4|by apply learn_reject_failed]].
  pose proof (learn_commit_spec i pub st3 Hr4) as Hc. destruct (learn_commit i pub st3) as [st5 learned]. destruct learned; cbn [negb].
  2: { apply out_failed. eapply failed_kept; [exact K4|]. eapply failed_kept; [exact Hc|]. apply learn_reject_failed; [done|]. by eapply kept_ready. }
  destruct Hc as (C1 & C2 & C3 & C4). cbv zeta.
  assert (se_learn_pub (sess st3 i) = se_learn_pub (sess st i)) as El.
  { pose proof (mv_fixed _ _ _ _ K4) as F. unfold fixed in F. by injection F. }
  rewrite El in C2, C4. eapply (learned_granted i Hi data st st3 st5); [exact Hr|exact Hph|exact K4|exact C1|exact C2|].
  split; [exact Hph|]. split; [exact Hp|]. split; [done|]. split; [apply (Hdoc pub); by apply Hv|].
  unfold ident in *. rewrite (proj1 G3) in C3. by split.
Qed.

Lemma collect_spec body st st1 : stepup_collect i body st = Some st1 -> exists f, st1 = on_docs f st /\
  (stepup_is_learn (se_learn_pending (sess st i)) = true ->
   dc_sd (f (rd_docs st)) = dc_sd (rd_docs st) ++ body /\ dc_owner (f (rd_docs st)) = dc_owner (rd_docs st) /\
   dc_time (f (rd_docs st)) = dc_time (rd_docs st)).
Proof.
  unfold stepup_collect. destruct (Z.eqb_spec (zlen body) 0) as [H0|_].
  - intros [= <-]. exists (fun c => c). split; [by destruct st|]. intros _. split; [|done].
    unfold zlen in H0. destruct body; [by rewrite app_nil_r|cbn in H0; lia].
  - destruct (_ && _); [intros [= <-]; by eexists|]. destruct (stepup_is_learn _) eqn:Hl; [discriminate|].
    intros [= <-]. unfold stepup_sd_release. destruct (_ =? _); [by eexists|].
    exists (fun c => c). split; [by destruct st|done].
Qed.

Lemma finish_learn_outcome data body sw st f : ready i st -> se_phase (sess st i) = PH_SENT_STEPUP ->
  se_learn_pending (sess st i) = true -> apdu_strip_sw (payload data) = Some (body, sw) ->
  dc_sd (f (rd_docs st)) = dc_sd (rd_docs st) ++ body -> dc_owner (f (rd_docs st)) = dc_owner (rd_docs st) ->
  dc_time (f (rd_docs st)) = dc_time (rd_docs st) ->
  outcome st i data (finish_learn i sw (on_docs f st)).
Proof.
  intros Hr Hph Hp Hs F1 F2 F3. assert (kept i st (on_docs f st)) as H0 by (destruct Hr as (? & ? & _); by apply kept_on_docs).
  pose proof (kept_ready _ _ _ Hr H0) as Hr0.
  assert (outcome st i data (learn_reject i (on_docs f st))) as Hrej by (apply out_failed; eapply failed_kept; [exact H0|by apply learn_reject_failed]).
  unfold finish_learn. destruct (_ || _) eqn:Hg; [exact Hrej|]. apply orb_false_iff in Hg as [Hsw _].
  apply negb_false_iff, Z.eqb_eq in Hsw. subst sw. change (dc_sd (rd_docs (on_docs f st))) with (dc_sd (f (rd_docs st))). rewrite F1.
  destruct (unwrap_do53 _) as [sd|] eqn:Hu; [|exact Hrej].
  change (on_docs (fun c => c <| dc_sd := sd |>) (on_docs f st)) with (on_docs (fun c => (f c) <| dc_sd := sd |>) st).
  apply learn_outcome; [exact Hr|exact Hph|exact Hp|].
  intros issuer (plain & doc & c & V1 & V2 & V3 & V4 & V5 & V6). cbn in V1, V2. rewrite F2 in V1.
  exists body, sd, plain, doc, c, issuer. split; [exact Hs|]. split; [exact V1|]. split; [exact Hu|]. split; [exact V2|]. split; [exact V3|].
  split; [exact V4|]. split; [|exact V6]. revert V5. unfold learn_ctx. cbn. rewrite F3. trivial.
Qed.

Lemma bench_outcome data st f : ready i st -> se_phase (sess st i) = PH_SENT_STEPUP -> CFG_STEPUP_BENCH = true ->
  se_learn_pending (sess st i) = false -> outcome st i data (finish_bench i (on_docs f st)).
Proof.
  intros Hr Hph Hb Hp. assert (kept i st (on_docs f st)) as H0 by (destruct Hr as (? & ? & _); by apply kept_on_docs).
  pose proof (kept_ready _ _ _ Hr H0) as Hr0. destruct (ends_kept i _ _ _ _ H0 (gated_ends i Hi _ Hr0)) as (ph & Hin & Hm).
  eapply ends_outcome; [exists ph; split; [exact Hin|]|rewrite Hph; each_phase].
  unfold finish_bench. set (st1 := gated_complete_ap i _) in *. clearbody st1. clear - Hm Hb Hp Hi.
  assert (forall conn st2, moved i ph st st2 -> moved i ph st (stepup_sd_release conn st2)) as Hrel.
  { intros conn st2 H. unfold stepup_sd_release. destruct (_ =? _); [|done]. by eapply moved_same. }
  assert (forall st2, moved i ph st st2 -> moved i ph st (on_sess i (fun s => s <| se_stepup_active := false |>) st2)) as Hoff.
  { intros st2 H. apply moved_sess; try done. pose proof (mv_fixed _ _ _ _ H) as F. unfold fixed in F. rewrite Hp in F. injection F as _ _ F _ _ _.
    unfold fixed, stranded. cbn. by rewrite F, Hb. }
  cbv zeta. destruct (_ && _); [|by apply Hrel, Hoff]. destruct (unwrap_do53 _) as [sd|]; [|by apply Hrel, Hoff].
  unfold stepup_submit_job. apply Hrel, Hoff. by eapply (moved_same ph st st1).
Qed.

Lemma stepup_outcome data st : ready i st -> se_phase (sess st i) = PH_SENT_STEPUP ->
  CFG_STEPUP_BENCH = true \/ se_learn_pending (sess st i) = true ->
  outcome st i data (on_stepup_response i (payload data) st).
Proof.
  intros Hr Hph Hm. unfold on_stepup_response. destruct (apdu_strip_sw _) as [[body sw]|] eqn:Hs.
  2: { destruct (give_up_ends i Hi true st Hr) as [Hf|[Hp He]]; [by apply out_failed|].
       eapply ends_outcome; [exact He|]. rewrite Hph. each_phase. }
  destruct (stepup_collect i body st) as [st1|] eqn:Hc; [|apply out_failed; by apply learn_reject_failed].
  apply collect_spec in Hc as (f & -> & Hf). assert (kept i st (on_docs f st)) as H0 by (destruct Hr as (? & ? & _); by apply kept_on_docs).
  pose proof (kept_ready _ _ _ Hr H0) as Hr0. destruct (_ =? 0x6100).
  - destruct (stepup_build_get_response _ _) as [apdu|]; [|by apply kept_outcome].
    pose proof (kept_raw i (se_conn (sess (on_docs f st) i)) apdu _ Hr0) as H1. destruct (send_ap_raw _ _ _) as [st2 rc]. cbn [fst] in H1.
    pose proof (kept_trans _ _ _ _ H0 H1) as H2. destruct (negb _); [|by apply kept_outcome].
    apply out_failed. eapply failed_kept; [exact H2|]. apply failed_terminate; [done|]. by eapply kept_ready.
  - change (se_learn_pending (sess (on_docs f st) i)) with (se_learn_pending (sess st i)).
    destruct (stepup_is_learn (se_learn_pending (sess st i))) eqn:Hl.
    + destruct (Hf eq_refl) as (F1 & F2 & F3). apply finish_learn_outcome with (body := body); try done.
      unfold stepup_is_learn in Hl. destruct CFG_STEPUP_BENCH; [done|]. by destruct Hm.
    + unfold stepup_is_learn in Hl. destruct CFG_STEPUP_BENCH eqn:Hb; [|discriminate]. by apply bench_outcome.
Qed.

(** ** Every message *)

(** Counting a message is not seen by what it may do. *)
Lemma outcome_counted n data st st' : ready i st ->
  outcome (on_sess i (fun s => s <| se_msgs_rx := n |>) st) i data st' -> outcome st i data st'.
Proof.
  intros Hr H. set (f := fun s : session => _) in H. assert (kept i st (on_sess i f st)) as H1 by (by apply (kept_sess i Hi)).
  assert (sess (on_sess i f st) i = f (sess st i)) as Es by (by apply sess_here).
  assert (auth_view (on_sess i f st) = auth_view st) as Ea by done.
  destruct H as [H|ph H Ha|pub ursk Ht Hv Hf Hp|ph pub Ht Hin Hl Hs Hv Hev].
  - apply out_failed. by eapply failed_kept.
  - rewrite Es in Ha. by eapply out_moved; [eapply kept_moved|].
  - apply (out_presented _ _ _ _ pub ursk).
    + exact (touched_trans _ _ _ _ _ _ (moved_touched _ _ _ _ H1) Ht).
    + by rewrite Hv.
    + rewrite Hf, Es. done.
    + unfold presented in *. rewrite Es in Hp. exact Hp.
  - apply (out_granted _ _ _ _ ph pub).
    + exact (touched_trans _ _ _ _ _ _ (moved_touched _ _ _ _ H1) Ht).
    + exact Hin.
    + exact Hl.
    + exact Hs.
    + by rewrite Hv, Ea.
    + destruct Hev as [Hadm|[Hvo Hu]].
      * left. revert Hadm. generalize (se_ursk (sess st' i)). intros ursk Hadm. clear - Hadm Es.
        destruct Hadm as [body r c k block A1 A2 A3 A4 A5 A6|block pub r A1 A2 A3|block pub r A1 A2 A3 A4 A5 A6]; rewrite Es in A1, A2.
        -- rewrite Es in A6. exact (admit_fast st i data body r c k block A1 A2 A3 A4 A5 A6).
        -- exact (admit_standard st i data block pub r A1 A2 A3).
        -- exact (admit_dev st i data block pub r A1 A2 A3 A4 A5 A6).
      * right. unfold vouched in *. rewrite Es in Hvo, Hu. split; [exact Hvo|exact Hu].
Qed.

Theorem feed_outcome data st : ready i st -> sound_session (sess st i) -> outcome st i data (transaction_feed i data st).
Proof.
  intros Hr [S1 S2 S3]. unfold transaction_feed. set (n := u32 (se_msgs_rx (sess st i) + 1)). apply (outcome_counted n); [done|].
  set (f := fun s : session => s <| se_msgs_rx := n |>).
  change (on_sess i (fun s => s <| se_msgs_rx := u32 (se_msgs_rx s + 1) |>) st) with (on_sess i f st).
  assert (kept i st (on_sess i f st)) as H1 by (by apply (kept_sess i Hi)). pose proof (kept_ready _ _ _ Hr H1) as Hr1.
  assert (sess (on_sess i f st) i = f (sess st i)) as Es by (by apply sess_here).
  assert (stranded (sess (on_sess i f st) i) = false) as T1 by (by rewrite Es).
  assert (se_phase (sess (on_sess i f st) i) = se_phase (sess st i)) as T2 by (by rewrite Es).
  assert (se_learn_pending (sess (on_sess i f st) i) = se_learn_pending (sess st i)) as T3 by (by rewrite Es).
  set (st1 := on_sess i f st) in *. clearbody st1. clear f Es H1. fold (payload data). rewrite <- T2, <- T3 in *.
  cbv zeta. destruct (_ && _).
  { destruct (is_general_error _); [apply out_failed; by apply failed_terminate|apply kept_outcome; by apply kept_refl]. }
  assert (forall ph, se_phase (sess st1 i) = ph -> ph <> PH_SENT_EXCHANGE -> ph <> PH_SENT_STEPUP -> ph <> PH_FAILED ->
    se_learn_pending (sess st1 i) = false) as Hp.
  { intros ph Hph N1 N2 N3. destruct (se_learn_pending _) eqn:Hl; [|done]. destruct (S2 eq_refl) as [?|[?|?]]; congruence. }
  destruct (se_phase (sess st1 i)) eqn:Hph.
  - apply first_outcome; [done|done|by apply (Hp _ eq_refl)].
  - apply auth0_outcome; [done|done|done|by apply (Hp _ eq_refl)|done].
  - apply auth1_outcome; [done|done|done|by apply (Hp _ eq_refl)|done].
  - by apply exchange_outcome.
  - apply stepup_outcome; [done|done|by apply S3].
  - apply kept_outcome. by apply kept_refl.
  - by apply ranging_outcome.
  - apply kept_outcome. by apply kept_refl.
Qed.

End Feed.
