(* ===== verification/ReaderCalm.v ===== *)
(** * The credential reader: the operations that let nobody in

    Everything the reader does but for the handling of a message leaves a session
    as it was, ends it, or completes what was already granted; and leaves the
    record of who has authenticated as it was, or forgets it. *)

From Stdlib Require Import ZArith Lia Bool.
From stdpp Require Import base list numbers option.
From S2P Require Import Prelude Wire CredCrypto Device CredTlv CredApdu Prov RssiGate Cbor StepupParse StepupWire Stepup ReaderState Reader ReaderHost ReaderFacts ReaderGrant.

Local Open Scope Z_scope.
Local Open Scope uwl_scope.

Section Calm.
Context `{G : Gcm, E : Ec, W : World, C : reader_cfg}.

(** What becomes of a session. *)
Inductive rest (s s' : session) : Prop :=
  | rest_same : fixed s' = fixed s -> se_phase s' = se_phase s -> se_disconnect s' = se_disconnect s -> rest s s'
  | rest_open : fixed s' = fixed s -> se_phase s = PH_GATE_HOLD -> se_phase s' = PH_ESTABLISHED -> se_disconnect s' = se_disconnect s -> rest s s'
  | rest_failed : se_phase s' = PH_FAILED -> rest s s'
  | rest_gone : se_active s' = false -> rest s s'.

(** What becomes of the record of who has authenticated. *)
Definition forgets (v v' : option (list Z) * Z * list event) : Prop := v' = v \/ v' = (None, v.1.2, v.2).

Record calm (st st' : reader) : Prop := {
  cm_table : table_ok st';
  cm_rest j : rest (sess st j) (sess st' j);
  cm_view : forgets (auth_view st) (auth_view st');
}.

(** A session that has not failed may still send. *)
Definition alive (st : reader) : Prop := forall j, se_active (sess st j) = true -> se_phase (sess st j) <> PH_FAILED -> se_disconnect (sess st j) = false.

Lemma fixed_active s s' : fixed s' = fixed s -> se_active s' = se_active s.
Proof. unfold fixed. intros H. by injection H. Qed.

Lemma rest_trans s1 s2 s3 : rest s1 s2 -> rest s2 s3 -> rest s1 s3.
Proof.
  intros H1 H2. destruct H2 as [B1 B2 B3|B1 B2 B3 B4|B|B]; [| |by apply rest_failed|by apply rest_gone].
  - destruct H1 as [A1 A2 A3|A1 A2 A3 A4|A|A]; [apply rest_same|apply rest_open|apply rest_failed|apply rest_gone]; try congruence.
    rewrite (fixed_active _ _ B1). exact A.
  - destruct H1 as [A1 A2 A3|A1 A2 A3 A4|A|A]; try congruence; [apply rest_open; congruence|].
    apply rest_gone. rewrite (fixed_active _ _ B1). exact A.
Qed.

Lemma calm_trans st1 st2 st3 : calm st1 st2 -> calm st2 st3 -> calm st1 st3.
Proof.
  intros [A1 A2 A3] [B1 B2 B3]. constructor; [done|intros j; by eapply rest_trans|].
  unfold forgets in *. destruct A3 as [A3|A3]; rewrite A3 in B3; cbn in B3; destruct B3 as [B3|B3]; auto.
Qed.

Lemma calm_same st st' : table_ok st -> rd_sessions st' = rd_sessions st -> forgets (auth_view st) (auth_view st') -> calm st st'.
Proof.
  intros Ht Hs Ha. constructor; [unfold table_ok; by rewrite Hs| |done].
  intros j. assert (sess st' j = sess st j) as -> by (unfold sess; by rewrite Hs). by apply rest_same.
Qed.

Lemma calm_refl st : table_ok st -> calm st st.
Proof. intros. apply calm_same; [done|done|by left]. Qed.

Lemma calm_emit e st : table_ok st -> is_grant e = false -> calm st (emit e st).
Proof. intros Ht He. apply calm_same; [done|done|]. left. unfold auth_view. cbn. by rewrite He. Qed.

Lemma calm_moved i ph st st' : moved i ph st st' -> rest (sess st i) (sess st' i) -> calm st st'.
Proof.
  intros [H1 H2 _ _ _ H6] Hr. constructor; [done| |by left].
  intros j. destruct (decide (j = i)) as [->|Hj]; [done|]. destruct (H2 j Hj) as (?&?&?). by apply rest_same.
Qed.

Lemma calm_failed i st st' : moved i PH_FAILED st st' -> calm st st'.
Proof. intros H. eapply calm_moved; [exact H|]. apply rest_failed, (mv_phase _ _ _ _ H). Qed.

Lemma calm_kept i st st' : live st i -> se_phase (sess st i) <> PH_FAILED -> kept i st st' -> calm st st'.
Proof.
  intros [L1 L2] Hn H. eapply calm_moved; [exact H|]. destruct (mv_live _ _ _ _ H Hn) as [M1 M2].
  apply rest_same; [apply (mv_fixed _ _ _ _ H)|apply (mv_phase _ _ _ _ H)|congruence].
Qed.

Lemma calm_sess i f st : table_ok st -> (i < MAX_SESSIONS)%nat ->
  (forall s, fixed (f s) = fixed s /\ se_phase (f s) = se_phase s /\ se_disconnect (f s) = se_disconnect s) -> calm st (on_sess i f st).
Proof.
  intros Ht Hi Hf. constructor; [by apply table_set| |by left]. intros j. rewrite sess_on_sess by done.
  destruct (decide (j = i)) as [->|]; [|by apply rest_same]. destruct (Hf (sess st i)) as (?&?&?). by apply rest_same.
Qed.

(** ** Ending a session *)

Lemma calm_terminate i st : table_ok st -> (i < MAX_SESSIONS)%nat -> calm st (session_terminate i st).
Proof.
  intros Ht Hi. destruct (se_active (sess st i)) eqn:Ha; [destruct (se_disconnect (sess st i)) eqn:Hd|].
  - unfold session_terminate. rewrite Ha, Hd. by apply calm_refl.
  - apply (calm_failed i). apply moved_terminate; [done|done|by split].
  - unfold session_terminate. rewrite Ha. by apply calm_refl.
Qed.

Lemma enter_sessions i ph st : rd_sessions (session_enter_phase i ph st) =
    <[i := sess (session_enter_phase i ph st) i]> (rd_sessions st) \/ ~ (i < length (rd_sessions st))%nat.
Proof.
  destruct (decide (i < length (rd_sessions st))%nat) as [Hi|]; [left|by right].
  assert (forall g st1, rd_sessions st1 = rd_sessions st -> rd_sessions (on_sess i g st1) = <[i := sess (on_sess i g st1) i]> (rd_sessions st)) as H.
  { intros g st1 E1. unfold on_sess, set_sess, sess. cbn. rewrite E1. f_equal. rewrite !nth_lookup, list_lookup_insert_eq by done. done. }
  unfold session_enter_phase. destruct (phase_awaits_peer ph); [cbn [monotonic_ms]|]; apply H; repeat case_bool_decide; done.
Qed.

Lemma enter_view i ph st : auth_view (session_enter_phase i ph st) = auth_view st.
Proof.
  unfold session_enter_phase. destruct (phase_awaits_peer ph); cbn [monotonic_ms]; repeat case_bool_decide; done.
Qed.

Lemma enter_others i ph st j : j <> i -> sess (session_enter_phase i ph st) j = sess st j.
Proof.
  intros Hj. destruct (enter_sessions i ph st) as [H|H].
  - unfold sess at 1. rewrite H, nth_lookup, list_lookup_insert_ne by done. by rewrite <- nth_lookup.
  - assert (forall g st1, rd_sessions st1 = rd_sessions st -> sess (on_sess i g st1) j = sess st j) as Hs.
    { intros g st1 E1. unfold sess, on_sess, set_sess. cbn. rewrite E1, list_insert_ge by lia. done. }
    unfold session_enter_phase. destruct (phase_awaits_peer ph); [cbn [monotonic_ms]|]; apply Hs; repeat case_bool_decide; done.
Qed.

Lemma enter_table i ph st : table_ok st -> table_ok (session_enter_phase i ph st).
Proof.
  intros Ht. unfold session_enter_phase. destruct (phase_awaits_peer ph); [cbn [monotonic_ms]|]; apply table_set; repeat case_bool_decide; done.
Qed.

(** ** Connections *)

Lemma find_spec conn st i : session_find conn st = Some i -> (i < MAX_SESSIONS)%nat /\ se_active (sess st i) = true /\ se_conn (sess st i) = conn.
Proof.
  unfold session_find. intros H. apply List.find_some in H as [Hin H]. apply in_seq in Hin. apply andb_true_iff in H as [H1 H2].
  split; [lia|]. split; [done|by apply Z.eqb_eq].
Qed.

Lemma stop_sessions conn st : rd_sessions (ranging_stop conn st) = rd_sessions st /\ auth_view (ranging_stop conn st) = auth_view st.
Proof. unfold ranging_stop. destruct (rg_active _) as [[c k]|]; [|done]. by destruct (_ =? _). Qed.

Lemma calm_stop conn st : table_ok st -> calm st (ranging_stop conn st).
Proof. intros Ht. destruct (stop_sessions conn st) as [Hs Ha]. apply calm_same; [done|done|by left]. Qed.

Lemma calm_disconnected conn st : table_ok st -> calm st (on_disconnected conn st).
Proof.
  intros Ht. unfold on_disconnected. cbv zeta.
  assert (forall st1, calm st st1 -> calm st (let st1 := if CFG_STEPUP then stepup_sd_release conn st1 else st1 in
    let st1 := if ps_wait (rd_presence st1) && negb (any_session_active st1) then presence_checkpoint_ready st1 else st1 in
    housekeeping_schedule (Z.lor HOUSEKEEPING_REFILL HOUSEKEEPING_STORE) st1)) as Htail.
  { intros st1 H1. assert (calm st1 (if CFG_STEPUP then stepup_sd_release conn st1 else st1)) as H2.
    { pose proof (cm_table _ _ H1). destruct CFG_STEPUP; [|by apply calm_refl]. unfold stepup_sd_release. destruct (_ =? _); [|by apply calm_refl].
      apply calm_same; [done|done|by left]. }
    pose proof (calm_trans _ _ _ H1 H2) as H3. cbv zeta. set (st2 := if CFG_STEPUP then _ else _) in *. clearbody st2.
    eapply calm_trans; [exact H3|]. pose proof (cm_table _ _ H3). destruct (_ && _); (apply calm_same; [done|done|by left]). }
  apply Htail. destruct (session_find conn st) as [i|] eqn:Hf; [|by apply calm_stop].
  apply find_spec in Hf as (Hi & _ & _). set (st1 := st <| rd_last_close := _ |>).
  set (st2 := session_enter_phase i PH_FAILED st1). assert (table_ok st2) as T2 by by apply enter_table.
  set (st3 := on_sess i _ st2). assert (table_ok st3) as T3 by by apply table_set.
  destruct (stop_sessions conn st3) as [Es Ea]. assert (table_ok (ranging_stop conn st3)) as T4 by (unfold table_ok; by rewrite Es).
  constructor; [by apply table_set| |left; change (auth_view (ranging_stop conn st3) = auth_view st); rewrite Ea; apply (enter_view i PH_FAILED st1)].
  intros j. rewrite sess_set_sess by done. destruct (decide (j = i)) as [->|Hj]; [by apply rest_gone|].
  assert (sess (ranging_stop conn st3) j = sess st j) as ->; [|by apply rest_same].
  unfold sess at 1. rewrite Es. change (sess st3 j = sess st j). unfold st3. rewrite sess_on_sess, decide_False by done.
  unfold st2. by rewrite enter_others.
Qed.

(** A connection has a fresh session or none. *)
Lemma connected_spec conn st : table_ok st ->
  match (session_alloc conn st).2 with
  | None => on_connected conn st = st
  | Some i => (i < MAX_SESSIONS)%nat /\ se_active (sess st i) = false /\ table_ok (on_connected conn st) /\ auth_view (on_connected conn st) = auth_view st /\
      (forall j, j <> i -> sess (on_connected conn st) j = sess st j) /\
      se_phase (sess (on_connected conn st) i) = PH_IDLE /\ se_disconnect (sess (on_connected conn st) i) = false /\
      fixed (sess (on_connected conn st) i) = (true, conn, false, zeros 65, zeros 32, false)
  end.
Proof.
  intros Ht. unfold on_connected, session_alloc. destruct (List.find _ _) as [i|] eqn:Hf; [|done]. cbn [monotonic_ms fst snd].
  apply List.find_some in Hf as [Hin Ha]. apply in_seq in Hin. apply negb_true_iff in Ha. assert (i < MAX_SESSIONS)%nat as Hi by lia.
  set (s0 := session_zero <| se_active := true |> <| se_conn := conn |>). set (st1 := emit EvClock (set_sess i s0 st)).
  assert (table_ok st1) as T1 by by apply (table_set i s0 st). assert (forall j, sess st1 j = if decide (j = i) then s0 else sess st j) as E1 by (intros; by apply (sess_set_sess i s0 st j)).
  set (f := fun s : session => _). set (st2 := on_sess i f st1). assert (table_ok st2) as T2 by by apply table_set.
  assert (forall j, sess st2 j = if decide (j = i) then f s0 else sess st j) as E2.
  { intros j. unfold st2. rewrite sess_on_sess by done. destruct (decide (j = i)) as [->|]; [by rewrite E1, decide_True|by rewrite E1, decide_False]. }
  split; [done|]. split; [done|]. split; [by apply enter_table|]. split; [apply (enter_view i PH_IDLE st2)|].
  split; [intros j Hj; rewrite enter_others by done; by rewrite E2, decide_False|].
  assert (live st2 i) as Hl by (unfold live; rewrite E2, decide_True by done; done).
  pose proof (moved_enter i Hi PH_IDLE st2 T2 Hl) as Hm. split; [apply (mv_phase _ _ _ _ Hm)|].
  split; [by apply (mv_live _ _ _ _ Hm)|]. rewrite (mv_fixed _ _ _ _ Hm), E2, decide_True by done.
  unfold fixed, stranded, f, s0. cbn. by rewrite andb_false_r.
Qed.

(** ** Status, deadlines, the power gate *)

Lemma alive_live st i : alive st -> se_active (sess st i) = true -> se_phase (sess st i) <> PH_FAILED -> live st i.
Proof. intros H Ha Hn. split; [done|by apply H]. Qed.

Lemma calm_status_send i unsecured st : table_ok st -> (i < MAX_SESSIONS)%nat -> live st i -> se_phase (sess st i) <> PH_FAILED ->
  calm st (reader_status_send i unsecured st).
Proof.
  intros Ht Hi Hl Hn. unfold reader_status_send. destruct (msg_seal _ _ _) as [sc sealed]. set (st1 := on_sess i _ st).
  assert (calm st st1) as H1 by by apply calm_sess. pose proof (cm_table _ _ H1) as T1. clearbody st1.
  eapply calm_trans; [exact H1|]. destruct sealed as [wire|]; [|by apply calm_terminate]. unfold ble_send.
  set (st2 := emit _ st1). assert (calm st1 st2) as H2 by by apply calm_emit. clearbody st2. eapply calm_trans; [exact H2|].
  pose proof (cm_table _ _ H2) as T2. destruct (negb _); [|apply calm_same; [done|done|by left]].
  destruct unsecured; [by apply calm_terminate|].
  eapply (calm_trans _ (on_wallet (fun w => w <| wl_undelivered := true |>) st2)); [apply calm_same; [done|done|by left]|].
  by apply calm_terminate.
Qed.

Lemma find_established st i : List.find (is_established st) all_slots = Some i ->
  (i < MAX_SESSIONS)%nat /\ se_active (sess st i) = true /\ se_phase (sess st i) = PH_ESTABLISHED.
Proof.
  intros H. apply List.find_some in H as [Hin H]. apply in_seq in Hin. apply andb_true_iff in H as [H1 H2].
  apply bool_decide_eq_true in H2. split; [lia|by split].
Qed.

Lemma calm_status unsecured st : table_ok st -> alive st -> calm st (reader_status_send_on_host unsecured st).
Proof.
  intros Ht Hal. unfold reader_status_send_on_host. destruct (_ && _); [by apply calm_refl|].
  destruct (List.find _ _) as [i|] eqn:Hf.
  - apply find_established in Hf as (Hi & Ha & Hp). apply calm_status_send; [done|done| |by rewrite Hp].
    apply alive_live; [done|done|by rewrite Hp].
  - destruct unsecured; [by apply calm_refl|apply calm_same; [done|done|by left]].
Qed.

Lemma calm_tick_session now st i : table_ok st -> (i < MAX_SESSIONS)%nat -> calm st (tick_session now st i).
Proof.
  intros Ht Hi. unfold tick_session. destruct (negb _); [by apply calm_refl|].
  assert (calm st (session_idle_extend now i st)) as H1.
  { unfold session_idle_extend. destruct (se_overall_deadline (sess st i)), (w_range_age (rd_log st)); try by apply calm_refl.
    destruct (_ && _); [|by apply calm_refl]. cbv zeta. destruct (0 <? _); [by apply calm_sess|by apply calm_refl]. }
  set (st1 := session_idle_extend now i st) in *. clearbody st1. pose proof (cm_table _ _ H1). eapply calm_trans; [exact H1|].
  cbv zeta. destruct (_ || _); [by apply calm_terminate|by apply calm_refl].
Qed.

Lemma calm_fold (f : reader -> nat -> reader) l st : (forall st i, In i l -> table_ok st -> calm st (f st i)) -> table_ok st -> calm st (fold_left f l st).
Proof.
  intros Hf. revert st. induction l as [|i l IH]; intros st Ht; cbn; [by apply calm_refl|].
  assert (calm st (f st i)) as H1 by (apply Hf; [by left|done]). eapply calm_trans; [exact H1|].
  apply IH; [intros; apply Hf; [by right|done]|apply (cm_table _ _ H1)].
Qed.

Lemma calm_tick now st : table_ok st -> calm st (reader_tick_on_host now st).
Proof.
  intros Ht. unfold reader_tick_on_host. set (st1 := fold_left _ _ st).
  assert (calm st st1) as H1.
  { apply calm_fold; [|done]. intros st0 i Hin T0. apply in_seq in Hin. apply calm_tick_session; [done|lia]. }
  clearbody st1. pose proof (cm_table _ _ H1) as T1. eapply calm_trans; [exact H1|]. cbv zeta. destruct (_ || _); [by apply calm_refl|].
  assert (calm st1 (on_wallet (fun w => w <| wl_replay_at := 0 |>) st1)) as H2 by (apply calm_same; [done|done|by left]).
  destruct (_ || _); [exact H2|]. eapply calm_trans; [exact H2|]. apply calm_emit; [apply (cm_table _ _ H2)|done].
Qed.

Lemma calm_rssi conn dbm st : table_ok st -> alive st -> calm st (reader_rssi_sample conn dbm st).
Proof.
  intros Ht Hal. unfold reader_rssi_sample. destruct (session_find conn st) as [i|] eqn:Hf; [|by apply calm_refl].
  apply find_spec in Hf as (Hi & Ha & _). cbn [uptime_ms]. set (st1 := emit EvClock st).
  assert (calm st st1) as H1 by by apply calm_emit. destruct (rssi_gate_feed _ _ _ _) as [g open].
  set (f := fun s : session => _). set (st2 := on_sess i f st1). pose proof (cm_table _ _ H1) as T1.
  assert (calm st1 st2) as H2 by by apply calm_sess. pose proof (calm_trans _ _ _ H1 H2) as H3. pose proof (cm_table _ _ H3) as T2.
  assert (sess st2 i = f (sess st i)) as Es by (unfold st2; rewrite sess_on_sess by done; by rewrite decide_True).
  assert (se_phase (sess st2 i) <> PH_FAILED -> live st2 i) as Hlive.
  { intros Hn. rewrite Es in Hn. split; rewrite Es; [exact Ha|]. by apply Hal. }
  clearbody st2. destruct (open && _) eqn:Hg; [|destruct (_ && _ && _) eqn:Hc; [|exact H3]].
  - apply andb_true_iff in Hg as [_ Hg]. apply bool_decide_eq_true in Hg. eapply calm_trans; [exact H3|].
    assert (ready i st2) as Hr by (split; [done|]; split; [apply Hlive; by rewrite Hg|by rewrite Hg]).
    destruct (complete_ends i Hi st2 Hr) as (ph & Hin & Hm). apply elem_of_cons in Hin as [->|Hin]; [by eapply calm_failed|].
    apply elem_of_cons in Hin as [->|Hin]; [|by apply elem_of_nil in Hin]. eapply calm_moved; [exact Hm|].
    apply rest_open; [apply (mv_fixed _ _ _ _ Hm)|exact Hg|apply (mv_phase _ _ _ _ Hm)|].
    destruct (mv_live _ _ _ _ Hm) as [_ ->]; [done|]. destruct Hr as (_ & [_ ->] & _). done.
  - apply andb_true_iff in Hc as [_ Hc]. apply bool_decide_eq_true in Hc. destruct (stop_sessions conn st2) as [Es2 Ea2].
    set (st3 := ranging_stop conn st2) in *. pose proof (calm_same st2 st3 T2 Es2 (or_introl Ea2)) as H4.
    assert (sess st3 i = sess st2 i) as Es3 by (unfold sess; by rewrite Es2). clearbody st3.
    assert (calm st3 (if wl_last_unsecured (rd_wallet st3) then reader_status_send i false st3 else st3)) as H5.
    { pose proof (cm_table _ _ H4). destruct (wl_last_unsecured _); [|by apply calm_refl].
      apply calm_status_send; [done|done| |by rewrite Es3, Hc]. unfold live. rewrite Es3. apply Hlive. by rewrite Hc. }
    eapply calm_trans; [exact H3|]. eapply calm_trans; [exact H4|]. eapply calm_trans; [exact H5|].
    apply calm_emit; [apply (cm_table _ _ H5)|done].
Qed.

Lemma calm_admit conn st : table_ok st -> calm st (on_data_admit conn st).1.
Proof.
  intros Ht. unfold on_data_admit. destruct (session_find conn st) as [i|] eqn:Hf; [|by apply calm_refl].
  apply find_spec in Hf as (Hi & _ & _). cbn [monotonic_ms]. set (st1 := emit EvClock st).
  assert (calm st st1) as H1 by by apply calm_emit. pose proof (cm_table _ _ H1) as T1. clearbody st1. eapply calm_trans; [exact H1|].
  cbv zeta. case_bool_decide; cbn [fst].
  - destruct (se_overall_deadline _); [by apply calm_sess|by apply calm_refl].
  - destruct (_ || _); cbn [fst]; [by apply calm_terminate|by apply calm_refl].
Qed.

Lemma calm_sweep st : table_ok st -> calm st (fold_left disconnect_slot all_slots st).
Proof.
  intros Ht. apply calm_fold; [|done]. intros st0 i _ T0. unfold disconnect_slot.
  destruct (se_active _); [by apply calm_emit|by apply calm_refl].
Qed.

Lemma calm_presence_reset st : table_ok st -> calm st (presence_reset_on_host st).
Proof.
  intros Ht. unfold presence_reset_on_host. set (st1 := on_presence _ st).
  assert (calm st st1) as H1 by (apply calm_same; [done|done|by left]). pose proof (cm_table _ _ H1) as T1. clearbody st1.
  pose proof (calm_sweep st1 T1) as H2. cbv zeta. set (st2 := fold_left _ _ st1) in *. clearbody st2.
  eapply calm_trans; [exact H1|]. eapply calm_trans; [exact H2|]. pose proof (cm_table _ _ H2).
  destruct (any_session_active _); [by apply calm_refl|apply calm_same; [done|done|by left]].
Qed.

(** ** Beside the host task

    An operation that does not see the sessions. *)

Definition aside (st st' : reader) : Prop := rd_sessions st' = rd_sessions st /\ forgets (auth_view st) (auth_view st').

Lemma aside_calm st st' : table_ok st -> aside st st' -> calm st st'.
Proof. intros Ht [H1 H2]. by apply calm_same. Qed.

Lemma aside_refl st : aside st st.
Proof. split; [done|by left]. Qed.

Lemma aside_trans st1 st2 st3 : aside st1 st2 -> aside st2 st3 -> aside st1 st3.
Proof.
  intros [A1 A2] [B1 B2]. split; [congruence|]. unfold forgets in *.
  destruct A2 as [A2|A2]; rewrite A2 in B2; cbn in B2; destruct B2 as [B2|B2]; auto.
Qed.

Lemma aside_same st st' : rd_sessions st' = rd_sessions st -> auth_view st' = auth_view st -> aside st st'.
Proof. intros H1 H2. split; [done|by left]. Qed.

Ltac aside := apply aside_same; [done|reflexivity].

Lemma aside_group st : aside st (compute_reader_group_x st).
Proof. unfold compute_reader_group_x. destruct (if w_crypto _ then _ else _); aside. Qed.

Lemma aside_loaded st : aside st (loaded st).
Proof.
  unfold loaded, load_provisioning. cbv zeta. destruct (_ && _); [apply aside_refl|]. destruct (w_load _) as [rc [id ts]]. cbn [fst].
  eapply aside_trans; [|apply aside_same; [done|reflexivity]]. eapply aside_trans; [|apply aside_group]. aside.
Qed.

Lemma aside_refill st : aside st (spare_eph_refill st).1.
Proof.
  unfold spare_eph_refill. destruct (pv_spare _); [apply aside_refl|]. cbn [draw]. destruct (ec_keygen _) as [[priv pub]|]; [|aside].
  cbn [random_txid]. destruct (w_random _); aside.
Qed.

Lemma aside_flush st : aside st (flush_pending_store st).1.
Proof. unfold flush_pending_store. destruct (negb _); [apply aside_refl|]. unfold prov_store. cbv zeta. destruct (negb _); aside. Qed.

Lemma aside_housekeeping st : aside st (housekeeping_run_once st).1.
Proof.
  unfold housekeeping_run_once. cbv zeta. set (st1 := on_prov _ st). assert (aside st st1) as H1 by aside.
  assert (exists st2 r, (if negb (Z.land (pv_reasons (rd_prov st)) HOUSEKEEPING_REFILL =? 0)
    then let '(st, ok) := spare_eph_refill st1 in (st, if ok then 0 else HOUSEKEEPING_REFILL) else (st1, 0)) = (st2, r) /\ aside st st2) as (st2 & r & -> & H2).
  { destruct (negb _); [|eexists _, _; split; [reflexivity|exact H1]]. pose proof (aside_refill st1) as H. destruct (spare_eph_refill st1) as [st2 ok].
    eexists _, _. split; [reflexivity|]. exact (aside_trans _ _ _ H1 H). }
  assert (exists st3 r', (if negb (Z.land (pv_reasons (rd_prov st)) HOUSEKEEPING_STORE =? 0)
    then let '(st, rc) := flush_pending_store st2 in (st, if rc =? 0 then r else Z.lor r HOUSEKEEPING_STORE) else (st2, r)) = (st3, r') /\ aside st st3) as (st3 & r' & -> & H3).
  { destruct (negb _); [|eexists _, _; split; [reflexivity|exact H2]]. pose proof (aside_flush st2) as H. destruct (flush_pending_store st2) as [st3 rc].
    eexists _, _. split; [reflexivity|]. exact (aside_trans _ _ _ H2 H). }
  cbn [fst]. destruct (r' =? 0); [done|]. eapply aside_trans; [exact H3|]. aside.
Qed.

Lemma aside_persist st : aside st (persist_removal st).1.
Proof. unfold persist_removal, prov_store. cbv zeta. cbn [fst]. destruct (_ =? 0); aside. Qed.

Lemma aside_aftermath removed st : aside st (revoke_aftermath removed st).
Proof.
  split; [done|]. unfold revoke_aftermath, forgets, auth_view. cbn. unfold unlatch.
  destruct (pv_auth_cred _) as [pub|]; [|by left]. destruct (names _ _); [by right|by left].
Qed.

Lemma aside_retry done_ st : aside st (retry_pending done_ st).1.
Proof. unfold retry_pending. pose proof (aside_flush st) as H. by destruct (flush_pending_store st). Qed.

Lemma aside_adopt adopt id ts done_ st : (forall st, aside st (adopt st)) -> aside st (store_then_adopt adopt id ts done_ st).1.
Proof.
  intros Ha. unfold store_then_adopt, prov_store. cbv zeta. destruct (_ =? 0); cbn [fst]; [|aside].
  eapply aside_trans; [|apply Ha]. aside.
Qed.

Lemma aside_advertise st : aside st (reader_refresh_adv st).
Proof. unfold reader_refresh_adv, apply_provisioned_adv_params. destruct (existsb _ _); aside. Qed.

Lemma aside_removal ts removed st : aside st (let '(st1, rc) := persist_removal (mru_reset (on_trust ts st)) in (revoke_aftermath removed st1, rc)).1.
Proof.
  pose proof (aside_persist (mru_reset (on_trust ts st))) as H. destruct (persist_removal _) as [st1 rc]. cbn [fst] in *.
  eapply aside_trans; [|apply aside_aftermath]. eapply aside_trans; [|exact H]. aside.
Qed.

End Calm.
