(* ===== verification/ReaderRun.v ===== *)
(** * The credential reader: every run

    The reader as a machine whose moves are its callbacks and operations, in any
    order: connections and disconnections, received data taken apart into the
    check of the deadlines and the messages, samples of the power gate, status
    notifications, ticks, presence, housekeeping and administration.  Whatever
    the order, a session that ranges was granted access on evidence of that very
    session, and nobody is recorded as authenticated without it. *)

From Stdlib Require Import ZArith Lia Bool.
From stdpp Require Import base list numbers option.
From S2P Require Import Prelude Wire CredCrypto Device CredTlv CredApdu Prov ProvBlob RssiGate Cbor StepupParse StepupWire Stepup ReaderState Reader ReaderHost ReaderFacts ReaderGrant ReaderFeed ReaderCalm.

Local Open Scope Z_scope.
Local Open Scope uwl_scope.

Inductive admin_op :=
  | ATrustLast | ATrustClear | AStepupArm
  | AIdentity (reader_id sign_priv grk : list Z) | AClear | AImport (blob : list Z)
  | AAddTrust (pub : list Z) (cred_type cred_index user_index : Z) | AAddIssuer (pub : list Z) (cred_index user_index : Z)
  | ARemoveIssuer (cred_index : Z) | ARemoveTrust (cred_type cred_index : Z) | ARemoveType (cred_type : Z) | ARemoveUser (user_index : Z)
  | ARefreshAdv | AQuery.

Inductive move :=
  | MConnected (conn : Z) | MDisconnected (conn : Z)
  | MAdmit (conn : Z) | MFeed (i : nat) (data : list Z)
  | MRssi (conn dbm : Z) | MStatus (unsecured : bool) | MTick (now_ms : Z)
  | MPresenceReset | MSweep
  | MPresenceRestart | MNotify (unsecured : bool) | MHousekeeping
  | MAdmin (op : admin_op).

Section Run.
Context `{G : Gcm, E : Ec, W : World, C : reader_cfg, P : stepup_cfg}.

(** Reading anything loads the store; the answer is dropped. *)
Definition run_admin (op : admin_op) (st : reader) : reader :=
  match op with
  | ATrustLast => (reader_trust_last st).1
  | ATrustClear => (reader_trust_clear st).1
  | AStepupArm => reader_stepup_arm st
  | AIdentity reader_id sign_priv grk => (reader_provision_identity reader_id sign_priv grk st).1
  | AClear => (reader_provision_clear st).1
  | AImport blob => (reader_import_blob blob st).1
  | AAddTrust pub t c u => (reader_provision_add_trust pub t c u st).1
  | AAddIssuer pub c u => (reader_provision_add_issuer pub c u st).1
  | ARemoveIssuer c => (reader_provision_remove_issuer c st).1
  | ARemoveTrust t c => (reader_provision_remove_trust t c st).1
  | ARemoveType t => (reader_provision_remove_type t st).1
  | ARemoveUser u => (reader_provision_remove_user u st).1
  | ARefreshAdv => reader_refresh_adv st
  | AQuery => loaded st
  end.

Definition run_move (m : move) (st : reader) : reader :=
  match m with
  | MConnected conn => on_connected conn st
  | MDisconnected conn => on_disconnected conn st
  | MAdmit conn => (on_data_admit conn st).1
  | MFeed i data => transaction_feed i data st
  | MRssi conn dbm => reader_rssi_sample conn dbm st
  | MStatus unsecured => reader_status_send_on_host unsecured st
  | MTick now_ms => reader_tick_on_host now_ms st
  | MPresenceReset => presence_reset_on_host st
  | MSweep => revoke_sweep_on_host st
  | MPresenceRestart => (reader_presence_restart st).1
  | MNotify unsecured => reader_notify_unlock unsecured st
  | MHousekeeping => (housekeeping_run_once st).1
  | MAdmin op => run_admin op st
  end.

(** A message is fed to a session that exists. *)
Definition allowed (m : move) (st : reader) : bool :=
  match m with MFeed i _ => (i <? MAX_SESSIONS)%nat && se_active (sess st i) | _ => true end.

(** A history, newest first: the state before each move, and the move. *)
Local Notation history := (list (reader * move)).

Definition initial (st : reader) : Prop := rd_sessions st = replicate MAX_SESSIONS session_zero.

Inductive reach : history -> reader -> Prop :=
  | reach_init st : initial st -> reach [] st
  | reach_move h st m : reach h st -> allowed m st = true -> reach ((st, m) :: h) (run_move m st).

(** The messages of the session that now has slot [i], newest first. *)
Fixpoint in_session (i : nat) (h : history) : list (reader * list Z) :=
  match h with
  | [] => []
  | (st, m) :: h =>
      match m with
      | MConnected conn => if bool_decide ((session_alloc conn st).2 = Some i) then [] else in_session i h
      | MFeed j data => if bool_decide (j = i) then (st, data) :: in_session i h else in_session i h
      | _ => in_session i h
      end
  end.

(** The evidence on which message [data] lets [pub] in: the message itself, or a
    document for a key that presented itself earlier in the session. *)
Definition grant_evidence (st : reader) (i : nat) (data : list Z) (before : list (reader * list Z)) (pub ursk : list Z) : Prop :=
  admitted st i data pub ursk \/
  vouched st i data (transaction_feed i data st) pub /\ exists st0 data0, In (st0, data0) before /\ presented st0 i data0 pub ursk.

Definition granted (l : list (reader * list Z)) (i : nat) (pub ursk : list Z) : Prop :=
  exists after st data before, l = after ++ (st, data) :: before /\ grant_evidence st i data before pub ursk.

Definition past_auth : list txn_phase := [PH_SENT_EXCHANGE; PH_SENT_STEPUP; PH_GATE_HOLD; PH_ESTABLISHED].

Record backed (l : list (reader * list Z)) (i : nat) (s : session) : Prop := {
  bk_granted : se_phase s ∈ past_auth -> se_learn_pending s = false -> exists pub, granted l i pub (se_ursk s);
  bk_presented : se_learn_pending s = true -> exists st data, In (st, data) l /\ presented st i data (se_learn_pub s) (se_ursk s);
}.

Record good (l : list (reader * list Z)) (i : nat) (s : session) : Prop := {
  gd_live : se_disconnect s = false;
  gd_sound : sound_session s;
  gd_backed : backed l i s;
}.

Definition inv (h : history) (st : reader) : Prop :=
  table_ok st /\ forall i, (i < MAX_SESSIONS)%nat -> se_active (sess st i) = true -> se_phase (sess st i) <> PH_FAILED ->
    good (in_session i h) i (sess st i).

(** ** Keeping the invariant *)

Lemma inv_alive h st : inv h st -> alive st.
Proof.
  intros [Ht H] j Ha Hn. destruct (decide (j < MAX_SESSIONS)%nat) as [Hj|Hj]; [apply (gd_live _ _ _ (H j Hj Ha Hn))|].
  exfalso. revert Ha. unfold sess. rewrite nth_overflow by (rewrite Ht; lia). done.
Qed.

Lemma fixed_eq s s' : fixed s' = fixed s ->
  se_active s' = se_active s /\ se_learn_pending s' = se_learn_pending s /\ se_learn_pub s' = se_learn_pub s /\
  se_ursk s' = se_ursk s /\ stranded s' = stranded s.
Proof. unfold fixed. intros H. injection H as -> _ -> -> -> ->. done. Qed.

Lemma good_same l i s s' : fixed s' = fixed s -> se_phase s' = se_phase s -> se_disconnect s' = se_disconnect s -> good l i s -> good l i s'.
Proof.
  intros Hf Hp Hd [G1 [S1 S2 S3] [B1 B2]]. apply fixed_eq in Hf as (F1 & F2 & F3 & F4 & F5).
  constructor; [congruence|constructor|constructor]; rewrite ?F2, ?F3, ?F4, ?F5, ?Hp; done.
Qed.

Lemma good_open l i s s' : fixed s' = fixed s -> se_phase s = PH_GATE_HOLD -> se_phase s' = PH_ESTABLISHED -> se_disconnect s' = se_disconnect s ->
  good l i s -> good l i s'.
Proof.
  intros Hf Hp Hp' Hd [G1 [S1 S2 S3] [B1 B2]]. apply fixed_eq in Hf as (F1 & F2 & F3 & F4 & F5).
  assert (se_learn_pending s = false) as Hn.
  { destruct (se_learn_pending s) eqn:Hl; [|done]. destruct (S2 eq_refl) as [?|[?|?]]; congruence. }
  constructor; [congruence|constructor|constructor]; rewrite ?F2, ?F3, ?F4, ?F5, ?Hp', ?Hn; try done.
  intros _ _. apply B1; [rewrite Hp; unfold past_auth; rewrite !elem_of_cons; tauto|done].
Qed.

Lemma inv_calm h st m : inv h st -> calm st (run_move m st) ->
  (forall i, (i < MAX_SESSIONS)%nat -> in_session i ((st, m) :: h) = in_session i h) -> inv ((st, m) :: h) (run_move m st).
Proof.
  intros [Ht H] Hc Hl. split; [apply (cm_table _ _ Hc)|]. intros i Hi Ha Hn. rewrite Hl by done.
  destruct (cm_rest _ _ Hc i) as [R1 R2 R3|R1 R2 R3 R4|R|R]; try congruence.
  - eapply good_same; [exact R1|exact R2|exact R3|]. apply H; [done| |congruence]. by rewrite <- (fixed_active _ _ R1).
  - eapply good_open; [exact R1|exact R2|exact R3|exact R4|]. apply H; [done| |congruence]. by rewrite <- (fixed_active _ _ R1).
Qed.

Lemma aside_removal_if (b : bool) ts d removed st :
  aside st (if b then retry_pending d (on_trust ts st)
            else let '(st1, rc) := persist_removal (mru_reset (on_trust ts st)) in (revoke_aftermath removed st1, rc)).1.
Proof.
  destruct b; [|apply aside_removal]. eapply aside_trans; [|apply aside_retry]. by apply aside_same.
Qed.

Lemma aside_revoke ih ah st : aside st (revoke_matching ih ah st).1.
Proof.
  unfold revoke_matching. destruct (drop_matching _ _ _) as [ts removed].
  pose proof (aside_removal_if (removed =? 0) ts 0 None st) as H. destruct (removed =? 0); [exact H|].
  destruct (persist_removal _) as [st1 rc]. exact H.
Qed.

Ltac aside := by apply aside_same.

Lemma aside_admin op st : aside st (run_admin op st).
Proof.
  destruct op; cbn [run_admin];
    try (unfold reader_trust_last, reader_trust_clear, reader_stepup_arm, reader_provision_identity, reader_provision_clear, reader_import_blob,
           reader_provision_add_trust, reader_provision_add_issuer, reader_provision_remove_issuer, reader_provision_remove_trust,
           reader_provision_remove_type, reader_provision_remove_user); cbv zeta;
    try (pose proof (aside_loaded st) as H0; set (st0 := loaded st) in *; clearbody st0; eapply aside_trans; [exact H0|]; clear H0 st).
  - destruct (pv_last_cred _) as [last|]; [|apply aside_refl]. destruct (prov_trust_add _ _) as [cand add].
    destruct (add =? 1); [apply aside_refl|]. destruct (add <? 0); [apply aside_refl|]. apply aside_adopt. intros; aside.
  - destruct (ts_count _ =? 0); [apply aside_refl|]. apply aside_removal.
  - destruct CFG_STEPUP_BENCH; [|apply aside_refl]. eapply aside_trans; [apply aside_loaded|aside].
  - unfold prov_store. cbv zeta. destruct (negb _); cbn [fst]; [aside|]. eapply aside_trans; [|apply aside_advertise].
    eapply aside_trans; [|apply aside_group]. aside.
  - destruct prov_dev_default as [id ts]. unfold prov_store. cbv zeta. destruct (negb _); cbn [fst]; [aside|].
    eapply aside_trans; [|apply aside_aftermath]. eapply aside_trans; [|apply aside_group]. aside.
  - destruct (prov_deserialize blob) as [[id ts]|]; [|apply aside_refl]. unfold prov_store. cbv zeta. destruct (negb _); cbn [fst]; [aside|].
    eapply aside_trans; [|apply aside_advertise]. eapply aside_trans; [|apply aside_group]. aside.
  - destruct (prov_trust_add _ _) as [cand add]. destruct (add <? 0); [apply aside_refl|]. destruct (_ && _); [apply aside_refl|].
    apply aside_adopt. intros; aside.
  - destruct (prov_issuer_add _ _ _ _) as [cand add]. destruct (add <? 0); [apply aside_refl|]. destruct (_ && _); [apply aside_refl|].
    apply aside_adopt. intros; aside.
  - destruct (_ <? 0); [apply aside_retry|]. apply aside_removal.
  - destruct (remove_cred_loop _ _ _ _ _ _) as [[ts found] removed]. apply (aside_removal_if (found =? 0)).
  - apply aside_revoke.
  - apply aside_revoke.
  - apply aside_advertise.
  - apply aside_refl.
Qed.

(** Any move but a connection and a message. *)
Lemma other_calm h st m : inv h st -> (forall conn, m <> MConnected conn) -> (forall i data, m <> MFeed i data) -> calm st (run_move m st).
Proof.
  intros Hv Hc Hf. pose proof (inv_alive _ _ Hv) as Hal. destruct Hv as [Ht _].
  destruct m as [conn|conn|conn|i data|conn dbm|u|now| | | |u| |op]; cbn [run_move].
  - by destruct (Hc conn).
  - by apply calm_disconnected.
  - by apply calm_admit.
  - by destruct (Hf i data).
  - by apply calm_rssi.
  - by apply calm_status.
  - by apply calm_tick.
  - by apply calm_presence_reset.
  - by apply calm_sweep.
  - apply aside_calm; [done|]. eapply aside_trans; [apply aside_loaded|]. aside.
  - apply aside_calm; [done|]. aside.
  - apply aside_calm; [done|]. apply aside_housekeeping.
  - apply aside_calm; [done|]. apply aside_admin.
Qed.

Lemma inv_connected h st conn : inv h st -> inv ((st, MConnected conn) :: h) (on_connected conn st).
Proof.
  intros [Ht H]. pose proof (connected_spec conn st Ht) as Hs. destruct (session_alloc conn st).2 as [k|] eqn:Ha.
  - destruct Hs as (Hk & _ & T & _ & Ho & Hp & Hd & Hf). split; [done|]. intros i Hi Hact Hn. cbn [in_session]. rewrite Ha.
    case_bool_decide as Hik.
    + injection Hik as ->. unfold fixed in Hf. injection Hf as _ _ F1 F2 F3 F4.
      constructor; [done|constructor|constructor]; rewrite ?F1, ?F4, ?Hp; try done.
      intros Hin. exfalso. revert Hin. unfold past_auth. rewrite !elem_of_cons, elem_of_nil. intuition discriminate.
    + assert (i <> k) as Hne by congruence. rewrite Ho in Hact, Hn |- * by done. by apply H.
  - split; [by rewrite Hs|]. rewrite Hs. intros i Hi Hact Hn. cbn [in_session]. rewrite Ha, bool_decide_eq_false_2 by done. by apply H.
Qed.

(** A message to a session that has failed changes nothing that matters. *)
Lemma failed_feed i data st : table_ok st -> (i < MAX_SESSIONS)%nat -> se_phase (sess st i) = PH_FAILED -> calm st (transaction_feed i data st).
Proof.
  intros Ht Hi Hp. unfold transaction_feed. set (f := fun s : session => s <| se_msgs_rx := _ |>).
  assert (calm st (on_sess i f st)) as H1 by by apply calm_sess.
  assert (se_phase (sess (on_sess i f st) i) = PH_FAILED) as Hp1 by (rewrite sess_on_sess, decide_True by done; exact Hp).
  set (st1 := on_sess i f st) in *. clearbody st1. cbv zeta. rewrite Hp1. eapply calm_trans; [exact H1|]. pose proof (cm_table _ _ H1).
  destruct (_ && _); [|by apply calm_refl]. destruct (is_general_error _); [by apply calm_terminate|by apply calm_refl].
Qed.

Lemma in_past ph : ph ∈ past_auth <-> ph = PH_SENT_EXCHANGE \/ ph = PH_SENT_STEPUP \/ ph = PH_GATE_HOLD \/ ph = PH_ESTABLISHED.
Proof. unfold past_auth. rewrite !elem_of_cons, elem_of_nil. tauto. Qed.

Lemma granted_cons x l i pub ursk : granted l i pub ursk -> granted (x :: l) i pub ursk.
Proof. intros (after & st & data & before & -> & He). by exists (x :: after), st, data, before. Qed.

Lemma good_moved l i x s s' ph : fixed s' = fixed s -> se_phase s' = ph -> se_disconnect s' = false ->
  advance (se_phase s) (se_learn_pending s) ph -> good l i s -> good (x :: l) i s'.
Proof.
  intros Hf Hp Hd Ha [G1 [S1 S2 S3] [B1 B2]]. apply fixed_eq in Hf as (F1 & F2 & F3 & F4 & F5).
  constructor; [done|constructor|constructor]; rewrite ?F2, ?F3, ?F4, ?F5, ?Hp.
  - done.
  - intros Hl. specialize (S2 Hl). unfold advance in Ha. rewrite Hl in Ha. destruct S2 as [S|[S|S]]; rewrite S in Ha; intuition (subst; auto; discriminate).
  - intros ->. destruct Ha as [Ha|[[_ ?]|[[_ ?]|[(_ & _ & Ha)|(_ & _ & [?|?])]]]]; try discriminate; [by apply S3|exact Ha].
  - intros Hin Hl. assert (se_phase s ∈ past_auth) as Hin'.
    { apply in_past. apply in_past in Hin. unfold advance in Ha. intuition congruence. }
    destruct (B1 Hin' Hl) as [pub Hg]. exists pub. by apply granted_cons.
  - intros Hl. destruct (B2 Hl) as (st & data & Hin & Hpr). exists st, data. split; [by right|done].
Qed.

Lemma feed_good l i data st : (i < MAX_SESSIONS)%nat -> table_ok st -> se_active (sess st i) = true -> se_phase (sess st i) <> PH_FAILED ->
  good l i (sess st i) -> se_phase (sess (transaction_feed i data st) i) <> PH_FAILED ->
  good ((st, data) :: l) i (sess (transaction_feed i data st) i).
Proof.
  intros Hi Ht Ha Hn Hg. assert (ready i st) as Hr by (split; [done|]; split; [split; [done|apply (gd_live _ _ _ Hg)]|done]).
  pose proof (feed_outcome i Hi data st Hr (gd_sound _ _ _ Hg)) as Ho.
  assert (forall pub ursk, vouched st i data (transaction_feed i data st) pub -> ursk = se_ursk (sess st i) ->
    grant_evidence st i data l pub ursk) as Hvouch.
  { intros pub ursk Hv ->. right. split; [done|]. destruct Hv as (_ & V2 & -> & _). exact (bk_presented _ _ _ (gd_backed _ _ _ Hg) V2). }
  set (st' := transaction_feed i data st) in *. clearbody st'. intros Hn'.
  destruct Ho as [[Hf _]|ph Hm Hadv|pub ursk Htc _ Hf Hp|ph pub Htc Hin Hl Hs _ Hev].
  - by destruct (Hn' (tc_phase _ _ _ _ Hf)).
  - rewrite (mv_phase _ _ _ _ Hm) in Hn'. destruct (mv_live _ _ _ _ Hm Hn') as [_ L2].
    by apply (good_moved l i (st, data) (sess st i) _ ph (mv_fixed _ _ _ _ Hm) (mv_phase _ _ _ _ Hm) L2).
  - pose proof (tc_phase _ _ _ _ Htc) as Hph. destruct (tc_live _ _ _ _ Htc) as [_ L2]; [done|].
    unfold fixed in Hf. injection Hf as _ _ F1 F2 F3 F4.
    constructor; [done|constructor|constructor]; rewrite ?F1, ?F2, ?F3, ?F4, ?Hph; try done; [by left|].
    intros _. exists st, data. split; [by left|done].
  - pose proof (tc_phase _ _ _ _ Htc) as Hph. rewrite Hph in Hn'. destruct (tc_live _ _ _ _ Htc Hn') as [_ L2]. specialize (Hl Hn').
    constructor; [done|constructor|constructor]; rewrite ?Hl, ?Hs, ?Hph; try done.
    + intros ->. exfalso. revert Hin. rewrite !elem_of_cons, elem_of_nil. intuition discriminate.
    + intros _ _. exists pub, [], st, data, l. split; [done|]. destruct Hev as [Hadm|[Hv Hu]]; [by left|by apply Hvouch].
Qed.

Lemma reader_inv_feed h st i data : inv h st -> (i < MAX_SESSIONS)%nat -> se_active (sess st i) = true -> inv ((st, MFeed i data) :: h) (transaction_feed i data st).
Proof.
  intros Hv Hi Ha. pose proof Hv as [Ht H]. destruct (decide (se_phase (sess st i) = PH_FAILED)) as [Hp|Hp].
  - pose proof (failed_feed i data st Ht Hi Hp) as Hc. split; [apply (cm_table _ _ Hc)|]. intros j Hj Hja Hjn. cbn [in_session].
    destruct (cm_rest _ _ Hc j) as [R1 R2 R3|R1 R2 R3 R4|R|R]; try congruence; case_bool_decide as Hij; subst; try congruence.
    + eapply good_same; [exact R1|exact R2|exact R3|]. apply H; [done| |congruence]. by rewrite <- (fixed_active _ _ R1).
    + eapply good_open; [exact R1|exact R2|exact R3|exact R4|]. apply H; [done| |congruence]. by rewrite <- (fixed_active _ _ R1).
  - pose proof (H i Hi Ha Hp) as Hg. assert (ready i st) as Hr by (split; [done|]; split; [split; [done|apply (gd_live _ _ _ Hg)]|done]).
    pose proof (feed_outcome i Hi data st Hr (gd_sound _ _ _ Hg)) as Ho.
    assert (exists ph, touched i ph st (transaction_feed i data st)) as [ph [T1 T2 _ _]].
    { destruct Ho as [[Hf _]|ph Hm _|pub ursk Htc _ _ _|ph pub Htc _ _ _ _ _]; eauto using moved_touched. }
    split; [done|]. intros j Hj Hja Hjn. cbn [in_session]. case_bool_decide as Hij.
    + subst j. by apply feed_good.
    + destruct (T2 j) as (F1 & F2 & F3); [congruence|]. eapply good_same; [exact F1|exact F2|exact F3|].
      apply H; [done| |congruence]. by rewrite <- (fixed_active _ _ F1).
Qed.

Lemma reader_reach_inv h st : reach h st -> inv h st.
Proof.
  induction 1 as [st Hi|h st m Hr IH Ha].
  - split; [unfold table_ok; by rewrite Hi|]. intros i Hl Hact. exfalso. revert Hact. unfold sess. rewrite Hi.
    unfold MAX_SESSIONS in *. destruct i as [|[|i]]; [done|done|lia].
  - destruct m as [conn| | |i data| | | | | | | | |]; cbn [run_move]; [by apply inv_connected| | | | | | | | | | | |];
      try (apply (inv_calm h st); [done|by eapply other_calm|done]).
    unfold allowed in Ha. apply andb_true_iff in Ha as [Hi Hact]. apply Nat.ltb_lt in Hi. by apply reader_inv_feed.
Qed.

(** ** Received data

    is the check of the deadlines and then the messages in it. *)

Lemma feed_loop_reach fuel i data h st : (i < MAX_SESSIONS)%nat -> se_active (sess st i) = true -> reach h st ->
  exists ms, reach (ms ++ h) (feed_loop fuel i data st) /\ Forall (fun e => exists d, e.2 = MFeed i d) ms.
Proof.
  intros Hi. revert data h st. induction fuel as [|fuel IH]; intros data h st Ha Hr; cbn [feed_loop]; [by exists []|].
  destruct (_ =? 0); [by exists []|]. cbv zeta. set (sdu := match ble_unframe data with Some _ => _ | None => _ end). clearbody sdu.
  assert (reach ((st, MFeed i (sub_bytes data 0 sdu)) :: h) (transaction_feed i (sub_bytes data 0 sdu) st)) as Hr1.
  { apply (reach_move h st (MFeed i _)); [done|]. unfold allowed. rewrite Ha, andb_true_r. by apply Nat.ltb_lt. }
  destruct (negb _ || _) eqn:Hx.
  - eexists [_]. split; [exact Hr1|]. constructor; [by eexists|done].
  - apply orb_false_iff in Hx as [Hx _]. apply negb_false_iff in Hx.
    destruct (IH (drop (Z.to_nat sdu) data) _ _ Hx Hr1) as (ms & Hm & Hf). exists (ms ++ [(st, MFeed i (sub_bytes data 0 sdu))]).
    split; [by rewrite <- app_assoc|]. apply Forall_app. split; [done|]. constructor; [by eexists|done].
Qed.

Lemma admit_active conn st st' i : on_data_admit conn st = (st', Some i) -> table_ok st ->
  (i < MAX_SESSIONS)%nat /\ se_active (sess st' i) = true.
Proof.
  unfold on_data_admit. destruct (session_find conn st) as [k|] eqn:Hf; [|discriminate]. apply find_spec in Hf as (Hk & Ha & _).
  cbn [monotonic_ms]. cbv zeta. intros H Ht. destruct (bool_decide _); [|destruct (_ || _)]; try discriminate; injection H as <- <-; split; try done.
  destruct (se_overall_deadline _); [|done]. by rewrite sess_on_sess, decide_True by done.
Qed.

Lemma on_data_reach conn data h st : reach h st ->
  exists ms, reach (ms ++ (st, MAdmit conn) :: h) (on_data conn data st) /\ Forall (fun e => exists i d, e.2 = MFeed i d) ms.
Proof.
  intros Hr. unfold on_data. pose proof (reach_move h st (MAdmit conn) Hr eq_refl) as Hr1. cbn [run_move] in Hr1.
  destruct (on_data_admit conn st) as [st1 slot] eqn:Hs. cbn [fst] in Hr1. destruct slot as [i|]; [|by exists []].
  destruct (admit_active conn st st1 i Hs (proj1 (reader_reach_inv _ _ Hr))) as [Hi Ha].
  destruct (feed_loop_reach (length data) i data _ _ Hi Ha Hr1) as (ms & Hm & Hf). exists ms. split; [done|].
  eapply list.Forall_impl; [exact Hf|]. intros e [d He]. by exists i, d.
Qed.

(** ** What a run shows *)

Lemma established_granted h st i : reach h st -> (i < MAX_SESSIONS)%nat -> se_active (sess st i) = true -> se_phase (sess st i) = PH_ESTABLISHED ->
  exists pub, granted (in_session i h) i pub (se_ursk (sess st i)).
Proof.
  intros Hr Hi Ha Hp. destruct (reader_reach_inv _ _ Hr) as [_ H]. destruct (H i Hi Ha) as [_ [_ S2 _] [B1 _]]; [by rewrite Hp|].
  apply B1; [apply in_past; tauto|]. destruct (se_learn_pending _) eqn:Hl; [|done]. destruct (S2 eq_refl) as [?|[?|?]]; congruence.
Qed.

Lemma grant_steps h st m : reach h st -> allowed m st = true ->
  forgets (auth_view st) (auth_view (run_move m st)) \/
  exists i data pub ursk, m = MFeed i data /\ auth_view (run_move m st) = granted_view pub (auth_view st) /\
    grant_evidence st i data (in_session i h) pub ursk /\ se_ursk (sess (run_move m st) i) = ursk.
Proof.
  intros Hr Ha. pose proof (reader_reach_inv _ _ Hr) as Hv. pose proof Hv as [Ht H].
  destruct m as [conn| | |i data| | | | | | | | |]; try (left; eapply cm_view, other_calm; [exact Hv|done|done]).
  - left. cbn [run_move]. pose proof (connected_spec conn st Ht) as Hs. left.
    destruct (session_alloc conn st).2; [apply Hs|by rewrite Hs].
  - unfold allowed in Ha. apply andb_true_iff in Ha as [Hi Hact]. apply Nat.ltb_lt in Hi. cbn [run_move].
    destruct (decide (se_phase (sess st i) = PH_FAILED)) as [Hp|Hp]; [left; by eapply cm_view, failed_feed|].
    pose proof (H i Hi Hact Hp) as Hg. assert (ready i st) as Hrd by (split; [done|]; split; [split; [done|apply (gd_live _ _ _ Hg)]|done]).
    pose proof (feed_outcome i Hi data st Hrd (gd_sound _ _ _ Hg)) as Ho.
    destruct Ho as [[_ Hf]|ph Hm _|pub ursk _ Hf _ _|ph pub _ _ _ _ Hf Hev]; try (left; left; done).
    + left. left. apply (mv_auth _ _ _ _ Hm).
    + right. exists i, data, pub, (se_ursk (sess (transaction_feed i data st) i)). split; [done|]. split; [done|]. split; [|done].
      destruct Hev as [Hadm|[Hvo Hu]]; [by left|]. right. split; [done|]. rewrite Hu. destruct Hvo as (_ & V2 & -> & _).
      exact (bk_presented _ _ _ (gd_backed _ _ _ Hg) V2).
Qed.

End Run.
