(* ===== verification/Handshake.v ===== *)
(** * Reader and device together

    The reader of [Reader] and the device of [Device], joined over the ranging
    channel's link: what one side sends last is what the other answers.  A
    handshake between a provisioned reader and a device it trusts comes to its
    end, whatever either side draws. *)

From Stdlib Require Import ZArith Lia Bool Strings.String.
From stdpp Require Import base list numbers option.
From S2P Require Import Prelude Wire Hash CredCrypto Device CredTlv CredApdu Prov RssiGate Cbor StepupParse StepupWire Stepup ReaderState Reader ReaderHost ReaderFacts.

Local Open Scope Z_scope.
Local Open Scope uwl_scope.

(** ** Derivations that do not fail *)

(** As a rewrite rule: conversion would look into the hash functions. *)
Lemma bind_some {A B} (f : A -> option B) x : (Some x ≫= f) = f x.
Proof. reflexivity. Qed.

Lemma hkdf_blocks_len prk info n : forall t c, length (hkdf_blocks prk info t n c) = (32 * n)%nat.
Proof. induction n as [|n IH]; intros t c; cbn [hkdf_blocks]; [done|]. rewrite length_app, hmac_len, IH. lia. Qed.

Lemma hkdf_total salt ikm info n : 0 <= n <= 255 * 32 -> exists out, hkdf salt ikm info n = Some out /\ zlen out = n.
Proof.
  intros Hn. rewrite hkdf_exact by lia. rewrite (proj2 (Z.leb_le n (255 * 32))) by lia. eexists. split; [done|].
  unfold hkdf_spec, zlen. rewrite length_take, hkdf_blocks_len. pose proof (Z.div_mod (n + 31) 32). pose proof (Z.mod_pos_bound (n + 31) 32). lia.
Qed.

Lemma zlen_sub p off n : 0 <= off -> 0 <= n -> off + n <= zlen p -> zlen (sub_bytes p off n) = n.
Proof. unfold sub_bytes, zlen. intros. rewrite length_take, length_drop. lia. Qed.

Lemma salt_fold_fits parts : forall out,
  zlen (out ++ concat parts) <= SALT_MAX -> fold_left (salt_append SALT_MAX) parts (out, false) = (out ++ concat parts, false).
Proof.
  induction parts as [|p parts IH]; intros out H; cbn [fold_left concat] in *; [by rewrite app_nil_r|].
  rewrite app_assoc in H. unfold salt_append at 2. rewrite zlen_app in H. pose proof (zlen_nonneg (concat parts)).
  rewrite zlen_app in H. destruct (Z.ltb_spec SALT_MAX (zlen out + zlen p)); [lia|]. rewrite IH by (rewrite !zlen_app; lia).
  by rewrite <- app_assoc.
Qed.

(** The salt of a standard phase. *)
Lemma session_salt_total txid span rv rid iface version phase policy a5 :
  zlen txid = 16 -> zlen span = 32 -> zlen rv = 32 -> zlen rid = 32 -> zlen a5 <= 64 ->
  is_Some (salt_build SALT_SESSION txid span rv rid iface version phase policy None (Some a5)).
Proof.
  intros H1 H2 H3 H4 H5. unfold salt_build. rewrite salt_fold_fits; [by eexists|].
  unfold SALT_MAX. pose proof (zlen_put_be 2 version). pose proof (zlen_nonneg a5).
  assert (zlen (sub_bytes salt_label (salt_type_code SALT_SESSION * 12) 12) = 12) by done. assert (zlen salt_const = 2) by done.
  match goal with |- zlen ([] ++ concat ?p) <= _ => set (parts := p) end. assert (zlen (concat parts) = 99 + zlen a5 + 32); [|cbn [app]; lia].
  unfold parts. rewrite !concat_app. cbn [concat]. rewrite !zlen_app, !zlen_cons. change (zlen []) with 0.
  destruct (Z.ltb_spec 0 (zlen a5)); cbn [concat]; rewrite ?zlen_app; change (zlen []) with 0; lia.
Qed.

(** The keys of a block: both channels. *)
Lemma block_keys block : zlen block = 160 ->
  exists enc dec ursk ble_r ble_d, crypto_split block true = (enc, dec, ursk) /\
    derive_ble_keys block reader_ble_salt = Some (ble_r, ble_d) /\
    length enc = 32%nat /\ length dec = 32%nat /\ length ble_r = 32%nat /\ length ble_d = 32%nat.
Proof.
  intros Hb. unfold crypto_split, derive_ble_keys, SESSION_KEY_LEN.
  destruct (hkdf_total reader_ble_salt (sub_bytes block BLESK_OFFSET 32) (text "BleSKReader") 32) as (r & -> & Hr); [lia|].
  destruct (hkdf_total reader_ble_salt (sub_bytes block BLESK_OFFSET 32) (text "BleSKDevice") 32) as (d & -> & Hd); [lia|].
  do 5 eexists. split; [done|]. split; [done|].
  pose proof (zlen_sub block 0 32). pose proof (zlen_sub block (0 + 32) 32). unfold zlen in *. split_and!; lia.
Qed.

(** ** The link *)

(** What a reader sent last. *)
Fixpoint last_frame (log : list event) : list Z :=
  match log with [] => [] | EvSend _ frame _ :: _ => frame | _ :: log => last_frame log end.

Section Link.
Context `{G : Gcm, E : Ec}.

(** The device takes the command out of the reader's last envelope and puts its
    answer into one. *)
Definition peer_answer (rnd : list Z) (st : reader) (d : device) : device * list Z :=
  let cmd := match ble_unframe (last_frame (rd_log st)) with Some e => ev_payload e | None => [] end in
  let '(d, resp) := device_on_command d rnd cmd 512 in
  (d, default [] (resp ≫= fun r => ble_frame PROTO_ACCESS AP_OP_RESPONSE r 600)).

End Link.

Lemma unframe_access apdu : zlen apdu <= 0xffff ->
  ble_unframe (access_frame apdu) = Some {| ev_type := PROTO_ACCESS; ev_opcode := AP_OP_COMMAND; ev_payload := apdu |}.
Proof.
  intros H. apply (unframe_frame PROTO_ACCESS AP_OP_COMMAND apdu (4 + zlen apdu)). unfold ble_frame, ENVELOPE_HDR.
  destruct (Z.ltb_spec 0xffff (zlen apdu)); [lia|]. by destruct (Z.ltb_spec (4 + zlen apdu) (4 + zlen apdu)); [lia|].
Qed.

Lemma wrap_ok ins tlv : 0 < zlen tlv <= 250 ->
  exists apdu, apdu_wrap ins tlv 256 = Some apdu /\ zlen apdu <= 256 /\ apdu_unwrap apdu = Some (ins, tlv).
Proof.
  intros H. destruct (apdu_wrap ins tlv 256) as [apdu|] eqn:W.
  - exists apdu. split; [done|]. split; [|by eapply unwrap_wrap]. revert W. unfold apdu_wrap. destruct (_ || _); [done|]. intros [= <-].
    rewrite !zlen_cons, !zlen_app. change (zlen [0]) with 1. cbn [app]. lia.
  - exfalso. revert W. unfold apdu_wrap. destruct (Z.eqb_spec (zlen tlv) 0); [lia|]. destruct (Z.ltb_spec 255 (zlen tlv)); [lia|].
    by destruct (Z.ltb_spec 256 (6 + zlen tlv)); [lia|].
Qed.

Lemma fits_ok cap l : zlen (enc_items l) <= cap -> fits cap l = Some (enc_items l).
Proof. intros H. unfold fits. by destruct (Z.ltb_spec cap (zlen (enc_items l))); [lia|]. Qed.

(** The device's answer with its status word, in the reader's hands. *)
Lemma answered resp : zlen resp + 2 <= 512 ->
  exists data full, apdu_append_sw resp 512 DEV_SW_OK = Some full /\ ble_frame PROTO_ACCESS AP_OP_RESPONSE full 600 = Some data /\
    message_of data = {| ev_type := PROTO_ACCESS; ev_opcode := AP_OP_RESPONSE; ev_payload := full |} /\ response_body full = Some resp.
Proof.
  intros H. pose proof (zlen_nonneg resp). assert (exists full, apdu_append_sw resp 512 DEV_SW_OK = Some full /\ zlen full <= 512) as (full & Hf & Hl).
  { unfold apdu_append_sw. destruct (Z.ltb_spec 512 (zlen resp + 2)); [lia|]. eexists. split; [done|]. rewrite zlen_app. change (zlen [_; _]) with 2. lia. }
  pose proof (zlen_nonneg full). assert (exists data, ble_frame PROTO_ACCESS AP_OP_RESPONSE full 600 = Some data) as [data Hd].
  { unfold ble_frame, ENVELOPE_HDR. destruct (Z.ltb_spec 0xffff (zlen full)); [lia|]. destruct (Z.ltb_spec 600 (4 + zlen full)); [lia|]. by eexists. }
  exists data, full. split; [done|]. split; [done|]. split.
  - unfold message_of. by rewrite (unframe_frame _ _ _ _ _ Hd).
  - unfold response_body. by rewrite (strip_append resp 512 DEV_SW_OK full).
Qed.

(** ** The reader's steps when nothing fails *)

(** The surroundings answer: every send is taken, keys and identifiers are drawn,
    the engine creates its session. *)
Class Friendly `{E : Ec, W : World} : Prop := {
  fr_send log : w_send log = 0;
  fr_random log : exists t, w_random log = Some t /\ zlen t = 16;
  fr_keygen rnd : is_Some (ec_keygen rnd);
  fr_engine log : w_engine log = true;
}.

(** Everything but the sessions, the spare key pair, the counts and the log is as
    before, and no verdict is given. *)
Record beside (st st' : reader) : Prop := {
  be_table : table_ok st';
  be_prov : (rd_prov st') <| pv_spare := None |> = (rd_prov st) <| pv_spare := None |>;
  be_docs : rd_docs st' = rd_docs st;
  be_ranging : rd_ranging st' = rd_ranging st;
  be_grants : List.filter is_grant (rd_log st') = List.filter is_grant (rd_log st);
}.

Lemma besides_trans st1 st2 st3 : beside st1 st2 -> beside st2 st3 -> beside st1 st3.
Proof. intros [] []. constructor; congruence || done. Qed.

Lemma beside_fields st st' : beside st st' ->
  ident st' = ident st /\ trust st' = trust st /\ pv_group_x (rd_prov st') = pv_group_x (rd_prov st) /\
  pv_have_group_x (rd_prov st') = pv_have_group_x (rd_prov st) /\ pv_state (rd_prov st') = pv_state (rd_prov st) /\
  pv_auth_generation (rd_prov st') = pv_auth_generation (rd_prov st).
Proof. intros [_ H _ _ _]. unfold ident, trust. split_and!; [by apply (f_equal pv_id) in H|by apply (f_equal pv_trust) in H|by apply (f_equal pv_group_x) in H|by apply (f_equal pv_have_group_x) in H|by apply (f_equal pv_state) in H|by apply (f_equal pv_auth_generation) in H]. Qed.

Section Steps.
Context `{E : Ec, EL : !EcLaws E, W : World, F : !Friendly} (i : nat) (Hi : (i < MAX_SESSIONS)%nat).

Lemma beside_on_sess f st : table_ok st -> beside st (on_sess i f st) /\ sess (on_sess i f st) i = f (sess st i).
Proof.
  intros Ht. split; [constructor; try done; by apply table_set|]. rewrite sess_on_sess by done. by rewrite decide_True.
Qed.

Lemma beside_emit e st : table_ok st -> is_grant e = false -> beside st (emit e st).
Proof. intros Ht He. constructor; try done. cbn. by rewrite He. Qed.

Lemma beside_enter ph st : table_ok st ->
  beside st (session_enter_phase i ph st) /\ last_frame (rd_log (session_enter_phase i ph st)) = last_frame (rd_log st) /\
  exists dl, sess (session_enter_phase i ph st) i = (sess st i) <| se_phase := ph |> <| se_phase_deadline := dl |>.
Proof.
  intros Ht. unfold session_enter_phase. set (st1 := if bool_decide (se_phase (sess st i) = ph) then st else _).
  assert (beside st st1 /\ sess st1 i = sess st i /\ last_frame (rd_log st1) = last_frame (rd_log st)) as (B1 & E1 & L1)
    by (unfold st1; repeat case_bool_decide; done).
  clearbody st1. rewrite <- E1, <- L1. destruct (phase_awaits_peer ph); cbn [monotonic_ms].
  - pose proof (besides_trans _ _ _ B1 (beside_emit EvClock st1 (be_table _ _ B1) eq_refl)) as B2.
    destruct (beside_on_sess (fun s => s <| se_phase := ph |> <| se_phase_deadline := Some (u32 (u32 (w_clock (rd_log st1)) + PHASE_TIMEOUT_MS)) |>)
      (emit EvClock st1) (be_table _ _ B2)) as [B3 E3].
    split; [by eapply besides_trans|]. split; [done|]. eexists. exact E3.
  - destruct (beside_on_sess (fun s => s <| se_phase := ph |> <| se_phase_deadline := None |>) st1 (be_table _ _ B1)) as [B3 E3].
    split; [by eapply besides_trans|]. split; [done|]. eexists. exact E3.
Qed.

Lemma sent_command conn ins tlv st : 0 < zlen tlv <= 250 ->
  exists apdu, apdu_unwrap apdu = Some (ins, tlv) /\ zlen apdu <= 256 /\
    send_ap_command conn ins tlv st = (emit (EvSend conn (access_frame apdu) 0) st, 0).
Proof.
  intros H. destruct (wrap_ok ins tlv H) as (apdu & Hw & Hl & Hu). exists apdu. split; [done|]. split; [done|].
  unfold send_ap_command, ble_send. by rewrite Hw, fr_send.
Qed.

Lemma command_ok conn ins tlv ph st : table_ok st -> 0 < zlen tlv <= 250 ->
  exists apdu st1, send_ap_command conn ins tlv st = (st1, 0) /\ apdu_unwrap apdu = Some (ins, tlv) /\ zlen apdu <= 256 /\
    beside st (session_enter_phase i ph st1) /\ last_frame (rd_log (session_enter_phase i ph st1)) = access_frame apdu /\
    exists dl, sess (session_enter_phase i ph st1) i = (sess st i) <| se_phase := ph |> <| se_phase_deadline := dl |>.
Proof.
  intros Ht H. destruct (sent_command conn ins tlv st H) as (apdu & Hu & Hl & E1). eexists apdu, _. split; [exact E1|].
  split; [done|]. split; [done|]. set (st1 := emit _ st). assert (beside st st1) as B1 by by apply beside_emit.
  destruct (beside_enter ph st1 (be_table _ _ B1)) as (B2 & L2 & dl & E2). split; [by eapply besides_trans|]. split; [by rewrite L2|].
  by exists dl.
Qed.

Lemma fresh_ok st : table_ok st ->
  match pv_spare (rd_prov st) with Some sp => ec_pub_from_priv (sp_priv sp) = Some (sp_pub sp) /\ zlen (sp_txid sp) = 16 | None => True end ->
  exists st' priv pub txid, fresh_ephemeral i st = (st', true) /\ ec_pub_from_priv priv = Some pub /\ zlen txid = 16 /\ beside st st' /\
    sess st' i = (sess st i) <| se_eph_priv := priv |> <| se_eph_pub := pub |> <| se_txid := txid |>.
Proof.
  intros Ht Hs. unfold fresh_ephemeral. destruct (pv_spare (rd_prov st)) as [sp|] eqn:Esp.
  - destruct Hs as [H1 H2]. exists (take_spare i sp st), (sp_priv sp), (sp_pub sp), (sp_txid sp).
    destruct (beside_on_sess (fun s => s <| se_eph_priv := sp_priv sp |> <| se_eph_pub := sp_pub sp |> <| se_txid := sp_txid sp |>) st Ht) as [B1 E1].
    split_and!; [done|done|done| |exact E1]. eapply besides_trans; [exact B1|]. destruct B1. done.
  - cbn [draw random_txid]. destruct (fr_keygen (w_draw (rd_log st))) as [[priv pub] Hk]. rewrite Hk.
    destruct (beside_on_sess (fun s => s <| se_eph_priv := priv |> <| se_eph_pub := pub |>) (emit EvDraw st) Ht) as [B1 E1].
    set (st1 := on_sess i _ _) in *. destruct (fr_random (rd_log st1)) as (txid & -> & Hx).
    destruct (beside_on_sess (fun s => s <| se_txid := txid |>) (emit EvDraw st1) (be_table _ _ B1)) as [B2 E2].
    eexists _, priv, pub, txid. split_and!; [done|by eapply ec_keygen_pair|done| |].
    + assert (beside st1 (emit EvDraw st1)) as B3 by (destruct B1; done). assert (beside st (emit EvDraw st)) as B0 by done.
      exact (besides_trans _ _ _ (besides_trans _ _ _ B0 B1) (besides_trans _ _ _ B3 B2)).
    + rewrite E2. change (sess (emit EvDraw st1) i) with (sess st1 i). rewrite E1. done.
Qed.

End Steps.

(** ** The two sides between messages *)

(** The command the peer is to answer. *)
Definition asks (ins : Z) (tlv : list Z) (st : reader) : Prop :=
  exists apdu, last_frame (rd_log st) = access_frame apdu /\ apdu_unwrap apdu = Some (ins, tlv) /\ zlen apdu <= 256.

Section Reader.
Context `{G : Gcm, GL : !GcmLaws G, E : Ec, EL : !EcLaws E, W : World, F : !Friendly, C : reader_cfg}.

(** A provisioned reader that trusts the credential. *)
Record trusting (rpub cred_pub : list Z) (st : reader) : Prop := {
  tr_usable : provisioning_usable st = true;
  tr_key : ec_pub_from_priv (rid_sign_priv (ident st)) = Some rpub;
  tr_id : zlen (rid_reader_id (ident st)) = 32;
  tr_have : pv_have_group_x (rd_prov st) = true;
  tr_group : pv_group_x (rd_prov st) = pub_x rpub;
  tr_trust : prov_trust_check (trust st) cred_pub = 0;
  tr_adapter : rg_adapter (rd_ranging st) = true;
  tr_armed : CFG_STEPUP_BENCH && dc_armed (rd_docs st) = false;
  tr_force : CFG_STEPUP_FORCE = false;
}.

Lemma trusting_beside rpub cred_pub st st' : beside st st' -> trusting rpub cred_pub st -> trusting rpub cred_pub st'.
Proof.
  intros B []. destruct (beside_fields _ _ B) as (E1 & E2 & E3 & E4 & E5 & _). pose proof (be_docs _ _ B) as E6. pose proof (be_ranging _ _ B) as E7.
  constructor; unfold provisioning_usable; rewrite ?E1, ?E2, ?E3, ?E4, ?E5, ?E6, ?E7; done.
Qed.

(** A session on the plain path: no document is asked for, no hold of the gate. *)
Record plain (s : session) : Prop := {
  pl_live : se_active s = true /\ se_disconnect s = false;
  pl_stepup : se_stepup_active s = false /\ se_learn_pending s = false;
  pl_gate : CFG_RSSI_GATE && primed (se_gate s) && negb (rssi_gate_is_open (se_gate s)) = false;
  pl_a5 : session_a5 s = k_a5_csa_v1;
}.

(** What the session needs of its own key pair and identifier. *)
Definition keyed (s : session) : Prop := ec_pub_from_priv (se_eph_priv s) = Some (se_eph_pub s) /\ zlen (se_txid s) = 16.

Definition auth0_items (s : session) (rid : list Z) : list CredApdu.item :=
  [(TAG_EXP_PHASE, [se_exp_phase s]); (TAG_USER_POL, [0x01]); (TAG_VERSION, put_be 2 PROTO_VERSION); (TAG_READER_EPH, se_eph_pub s);
   (TAG_TXID, se_txid s); (TAG_READER_ID, rid)].

Lemma zlen_item t v : zlen v < 0x80 -> zlen (enc_item (t, v)) = 2 + zlen v.
Proof. intros H. unfold enc_item. cbn [fst snd]. unfold put_length. destruct (Z.ltb_spec (zlen v) 0x80); [|lia]. rewrite zlen_cons, zlen_app. change (zlen [_]) with 1. lia. Qed.

(** The reader after the first message. *)
Record at_auth0 (st0 st : reader) (i : nat) : Prop := {
  q0_beside : beside st0 st;
  q0_plain : plain (sess st i);
  q0_keyed : keyed (sess st i);
  q0_phase : se_phase (sess st i) = PH_SENT_AUTH0;
  q0_asks : asks INS_AUTH0 (enc_items (auth0_items (sess st i) (rid_reader_id (ident st)))) st;
}.

Lemma start_ok (i : nat) (Hi : (i < MAX_SESSIONS)%nat) rpub cred_pub st :
  table_ok st -> trusting rpub cred_pub st -> plain (sess st i) ->
  match pv_spare (rd_prov st) with Some sp => ec_pub_from_priv (sp_priv sp) = Some (sp_pub sp) /\ zlen (sp_txid sp) = 16 | None => True end ->
  at_auth0 st (start_auth i st) i.
Proof.
  intros Ht T P Hs. unfold start_auth. rewrite (tr_usable _ _ _ T). cbn [negb].
  destruct (fresh_ok i Hi st Ht Hs) as (st1 & priv & pub & txid & -> & Hk & Hx & B1 & E1). cbn [negb].
  pose proof (trusting_beside _ _ _ _ B1 T) as T1. unfold arm_phase.
  set (e := if negb (ts_kp_valid (trust st1) =? 0) then 0x01 else 0x00).
  destruct (beside_on_sess i Hi (fun s => s <| se_exp_phase := e |>) st1 (be_table _ _ B1)) as [B2 E2].
  set (st2 := on_sess i _ st1) in *. pose proof (trusting_beside _ _ _ _ B2 T1) as T2. rewrite (tr_armed _ _ _ T2).
  assert (zlen (se_eph_pub (sess st2 i)) = 65 /\ zlen (se_txid (sess st2 i)) = 16) as [Z1 Z2].
  { rewrite E2, E1. split; [by eapply ec_pub_size|done]. }
  rewrite built_auth0 by done. set (items := [_; _; _; _; _; _]).
  assert (zlen (enc_items items) = 129) as Hz.
  { unfold items, enc_items. cbn [map concat]. rewrite !zlen_app, !zlen_item by (rewrite ?zlen_put_be, ?(tr_id _ _ _ T2), ?Z1, ?Z2; done).
    rewrite zlen_put_be, (tr_id _ _ _ T2), Z1, Z2. done. }
  rewrite fits_ok by lia.
  destruct (command_ok i Hi (se_conn (sess st2 i)) INS_AUTH0 (enc_items items) PH_SENT_AUTH0 st2 (be_table _ _ B2)) as (apdu & st3 & -> & Hu & Hl & B3 & L3 & dl & E3); [lia|].
  cbn [negb Z.eqb]. pose proof (besides_trans _ _ _ (besides_trans _ _ _ B1 B2) B3) as B.
  set (st4 := session_enter_phase i PH_SENT_AUTH0 st3) in *. assert (sess st4 i = (sess st2 i) <| se_phase := PH_SENT_AUTH0 |> <| se_phase_deadline := dl |>) as E4 by exact E3.
  rewrite E2, E1 in E4. destruct P as [P1 P2 P3 P4]. constructor; [exact B|by rewrite E4|by rewrite E4|by rewrite E4|].
  exists apdu. split; [exact L3|]. split; [|done]. rewrite Hu. do 2 f_equal. unfold auth0_items, items. rewrite E4, E2, E1.
  destruct (beside_fields _ _ B3) as (-> & _). done.
Qed.


(** ** The device's turns *)

(** A device set up for this reader. *)
Record aligned (rid rpub cred_pub : list Z) (d : device) : Prop := {
  al_id : dv_reader_id d = rid;
  al_verif : dv_reader_verif_pub d = rpub;
  al_group : dv_reader_group_x d = pub_x rpub;
  al_cred : ec_pub_from_priv (dv_cred_priv d) = Some cred_pub /\ dv_cred_pub d = cred_pub;
  al_salt : dv_blesk_salt d = reader_ble_salt;
  al_a5 : dv_a5 d = k_a5_csa_v1;
}.

Lemma device_init_aligned cred_priv rid rpub cred_pub : ec_pub_from_priv cred_priv = Some cred_pub ->
  exists d, device_init cred_priv rid rpub = Some d /\ aligned rid rpub cred_pub d.
Proof. intros H. unfold device_init. rewrite H. eexists. split; [done|]. by constructor. Qed.

(** The device knows the session's transaction and has a key pair for it. *)
Record met (s : session) (d : device) : Prop := {
  me_eph : dv_reader_eph_pub d = se_eph_pub s;
  me_txid : dv_txid d = se_txid s;
  me_phase : dv_exp_phase d = se_exp_phase s;
  me_key : ec_pub_from_priv (dv_eph_priv d) = Some (dv_eph_pub d);
}.

(** The device answers a command in its own way. *)
Lemma peer_command ins tlv st d rnd : asks ins tlv st ->
  peer_answer rnd st d =
  let '(d, resp) := (if ins =? INS_AUTH0 then on_auth0 d rnd tlv 512
                     else if ins =? INS_AUTH1 then on_auth1 d rnd tlv 512
                     else if ins =? INS_EXCHANGE then on_exchange d tlv 512 else dev_fail d) in
  (d, default [] (resp ≫= fun r => ble_frame PROTO_ACCESS AP_OP_RESPONSE r 600)).
Proof. intros (apdu & Hf & Hu & Hl). unfold peer_answer, device_on_command. rewrite Hf, unframe_access by lia. cbn [ev_payload]. by rewrite Hu. Qed.

(** A response of the device on its way, and the body the reader takes out. *)
Definition response (data body : list Z) : Prop :=
  exists full, message_of data = {| ev_type := PROTO_ACCESS; ev_opcode := AP_OP_RESPONSE; ev_payload := full |} /\ response_body full = Some body.

Lemma dev_auth0_ok rid rpub cred_pub s d st rnd :
  asks INS_AUTH0 (enc_items (auth0_items s rid)) st -> keyed s -> zlen rid = 32 -> aligned rid rpub cred_pub d ->
  exists d' data, peer_answer rnd st d = (d', data) /\ aligned rid rpub cred_pub d' /\ met s d' /\
    response data (enc_items [(TAG_DEVICE_PUBX, dv_eph_pub d')]).
Proof.
  intros Ha [Hk Hx] Hr A. rewrite (peer_command _ _ _ _ _ Ha). cbn [Z.eqb INS_AUTH0 Pos.eqb]. unfold on_auth0.
  pose proof (ec_pub_size _ _ Hk) as Hz.
  set (c := {| c0_exp_phase := se_exp_phase s; c0_user_policy := 0x01; c0_version := PROTO_VERSION; c0_reader_eph_pub := se_eph_pub s;
               c0_txid := se_txid s; c0_reader_id := rid |}).
  assert (dev_parse_auth0_cmd (enc_items (auth0_items s rid)) = Some c) as ->.
  { apply (auth0_cmd_understood c 1000); [done|done|]. rewrite built_auth0 by done. apply fits_ok.
    unfold c, auth0_items, enc_items. cbn [map concat c0_exp_phase c0_user_policy c0_version c0_reader_eph_pub c0_txid c0_reader_id].
    rewrite !zlen_app, !zlen_item by (rewrite ?zlen_put_be, ?Hr, ?Hz, ?Hx; done). rewrite zlen_put_be, Hr, Hz, Hx. done. }
  change (c0_reader_id c) with rid. rewrite (al_id _ _ _ _ A), bool_decide_eq_true_2 by done. cbn [negb].
  destruct (fr_keygen rnd) as [[priv pub] Hg]. rewrite Hg. pose proof (ec_keygen_pair _ _ _ Hg) as Hp. pose proof (ec_pub_size _ _ Hp) as Hz'.
  set (items := [(TAG_DEVICE_PUBX, pub)]). assert (zlen (enc_items items) = 67) as Hi.
  { unfold items, enc_items. cbn [map concat]. rewrite zlen_app, zlen_item by lia. rewrite Hz'. done. }
  rewrite built_auth0_resp by done. rewrite fits_ok by (fold items; lia). fold items. cbn [mbind option_bind].
  destruct (answered (enc_items items)) as (data & full & -> & Hd & Hm & Hb); [lia|]. cbn [mbind option_bind]. rewrite Hd.
  eexists _, data. split; [done|]. destruct A. split; [by constructor|]. split; [by constructor|]. by exists full.
Qed.


(** ** The reader's turns *)

Context `{P : stepup_cfg} (i : nat) (Hi : (i < MAX_SESSIONS)%nat).

(** A response reaches the handler of the phase. *)
Lemma feed_response data body st : table_ok st -> response data body ->
  exists st1 full, beside st st1 /\ (exists n, sess st1 i = (sess st i) <| se_msgs_rx := n |>) /\ response_body full = Some body /\
    transaction_feed i data st =
      match se_phase (sess st i) with
      | PH_IDLE => on_first_message i full st1
      | PH_SENT_AUTH0 => on_auth0_response i full st1
      | PH_SENT_AUTH1 => on_auth1_response i full st1
      | PH_SENT_EXCHANGE => on_exchange_response i full st1
      | PH_SENT_STEPUP => on_stepup_response i full st1
      | PH_ESTABLISHED => on_ranging_sdu i data st1
      | PH_GATE_HOLD | PH_FAILED => st1
      end.
Proof.
  intros Ht (full & Hm & Hb). destruct (beside_on_sess i Hi (fun s => s <| se_msgs_rx := u32 (se_msgs_rx s + 1) |>) st Ht) as [B E1].
  eexists _, full. split; [exact B|]. split; [eexists; exact E1|]. split; [done|]. unfold transaction_feed. rewrite Hm, E1.
  cbn [ev_type ev_opcode ev_payload se_phase field_set]. by rewrite andb_false_r.
Qed.

(** Both sides sign and verify over the same transcript. *)
Lemma transcript rid rpub cred_pub which st s d :
  aligned rid rpub cred_pub d -> met s d -> keyed s -> rid_reader_id (ident st) = rid -> zlen rid = 32 -> se_device_pub s = dv_eph_pub d ->
  exists td, session_authdata which st s = Some td /\ dev_authdata d which = Some td.
Proof.
  intros A M [K1 K2] Hr Hz Hd. unfold session_authdata, dev_authdata. rewrite (al_id _ _ _ _ A), (me_eph _ _ M), (me_txid _ _ M), Hr, Hd.
  pose proof (pub_x_size _ (ec_pub_size _ _ K1)). pose proof (pub_x_size _ (ec_pub_size _ _ (me_key _ _ M))).
  rewrite authdata_exact by done. by eexists.
Qed.

(** The reader has signed, and agreed a secret with the device's key. *)
Record at_auth1 (rpub : list Z) (d : device) (st0 st : reader) : Prop := {
  q1_beside : beside st0 st;
  q1_plain : plain (sess st i);
  q1_keyed : keyed (sess st i);
  q1_met : met (sess st i) d;
  q1_phase : se_phase (sess st i) = PH_SENT_AUTH1;
  q1_device : se_device_pub (sess st i) = dv_eph_pub d;
  q1_secret : exists x, ec_ecdh (dv_eph_priv d) (se_eph_pub (sess st i)) = Some x /\ se_z (sess st i) = derive_z x (se_txid (sess st i));
  q1_asks : exists sig td, asks INS_AUTH1 (enc_items [(TAG_EXP_PHASE, [0x01]); (TAG_SIG, sig)]) st /\ zlen sig = 64 /\
              session_authdata AUTH_READER st (sess st i) = Some td /\ ec_verify rpub td sig = true;
}.

Lemma standard_ok rid rpub cred_pub d st0 st :
  beside st0 st -> plain (sess st i) -> keyed (sess st i) -> met (sess st i) d -> se_device_pub (sess st i) = dv_eph_pub d ->
  trusting rpub cred_pub st -> aligned rid rpub cred_pub d -> rid = rid_reader_id (ident st) ->
  at_auth1 rpub d st0 (standard_phase i st).
Proof.
  intros B Pl K M Hd T A Hr. unfold standard_phase. destruct K as [K1 K2].
  destruct (ec_ecdh_agree _ _ _ _ K1 (me_key _ _ M)) as (x & Hx1 & Hx2 & _). rewrite Hd, Hx1.
  destruct (beside_on_sess i Hi (fun s => s <| se_z := derive_z x (se_txid s) |>) st (be_table _ _ B)) as [B1 E1].
  set (st1 := on_sess i _ st) in *. set (s1 := sess st1 i) in *. pose proof (trusting_beside _ _ _ _ B1 T) as T1.
  assert (keyed s1 /\ met s1 d /\ se_device_pub s1 = dv_eph_pub d) as (K' & M' & D') by (rewrite E1; destruct M; by repeat split).
  assert (rid_reader_id (ident st1) = rid) as Hr1 by (destruct (beside_fields _ _ B1) as (-> & _); done).
  destruct (transcript rid rpub cred_pub AUTH_READER st1 s1 d A M' K' Hr1) as (td & Htd & _); [|exact D'|].
  { rewrite <- Hr1. apply (tr_id _ _ _ T1). }
  rewrite Htd. cbn [draw]. destruct (ec_sign_verifies (w_draw (rd_log st1)) _ _ td (tr_key _ _ _ T1)) as (sig & Hs & Hz & Hv).
  change (ident (emit EvDraw st1)) with (ident st1). rewrite Hs. rewrite built_auth1 by done.
  set (items := [_; _]). assert (zlen (enc_items items) = 69) as Hl.
  { unfold items, enc_items. cbn [map concat]. rewrite !zlen_app, !zlen_item by (rewrite ?Hz; done). rewrite Hz. done. }
  rewrite fits_ok by lia. pose proof (beside_emit EvDraw st1 (be_table _ _ B1) eq_refl) as B2.
  destruct (command_ok i Hi (se_conn (sess (emit EvDraw st1) i)) INS_AUTH1 (enc_items items) PH_SENT_AUTH1 (emit EvDraw st1) (be_table _ _ B2))
    as (apdu & st3 & -> & Hu & Hap & B3 & L3 & dl & E3); [lia|]. cbn [negb Z.eqb].
  set (st4 := session_enter_phase i PH_SENT_AUTH1 st3) in *. change (sess (emit EvDraw st1) i) with s1 in E3.
  assert (session_authdata AUTH_READER st4 (sess st4 i) = Some td) as Htd4.
  { rewrite <- Htd. unfold session_authdata. destruct (beside_fields _ _ B3) as (-> & _). rewrite E3. done. }
  pose proof (besides_trans _ _ _ B (besides_trans _ _ _ B1 (besides_trans _ _ _ B2 B3))) as B4.
  destruct Pl. constructor; rewrite ?E3; try done; try (rewrite E1; done).
  - destruct M'. by constructor.
  - exists x. rewrite E1. by split.
  - exists sig, td. rewrite <- E3. split; [exists apdu; by split|]. by split.
Qed.

Lemma auth0_turn rid rpub cred_pub d st0 st data :
  at_auth0 st0 st i -> met (sess st i) d -> trusting rpub cred_pub st -> aligned rid rpub cred_pub d -> rid = rid_reader_id (ident st) ->
  response data (enc_items [(TAG_DEVICE_PUBX, dv_eph_pub d)]) ->
  at_auth1 rpub d st0 (transaction_feed i data st).
Proof.
  intros [B Pl K Ph _] M T A Hr Hd. destruct (feed_response _ _ _ (be_table _ _ B) Hd) as (st1 & full & B1 & [n E1] & Hb & ->). rewrite Ph.
  unfold on_auth0_response. rewrite Hb. cbn [mbind option_bind]. pose proof (ec_pub_size _ _ (me_key _ _ M)) as Hz.
  rewrite (auth0_resp_understood (dv_eph_pub d) None 67) by (done || (rewrite built_auth0_resp by done; apply fits_ok;
    unfold enc_items; cbn [map concat]; rewrite zlen_app, zlen_item, Hz by lia; done)).
  cbn [a0_cryptogram a0_device_eph_pub].
  destruct (beside_on_sess i Hi (fun s => s <| se_device_pub := dv_eph_pub d |>) st1 (be_table _ _ B1)) as [B2 E2].
  set (st2 := on_sess i _ st1) in *. pose proof (besides_trans _ _ _ B1 B2) as B12. rewrite E1 in E2.
  destruct (beside_fields _ _ B12) as (Ei & _). destruct Pl, M. eapply standard_ok; rewrite ?E2.
  - by eapply besides_trans.
  - by constructor.
  - done.
  - by constructor.
  - done.
  - by eapply trusting_beside.
  - exact A.
  - by rewrite Ei.
Qed.

(** *** Raw messages of a channel *)

Lemma d2r_raw r d pt : paired r d -> sc_dec_ctr r <> 0xffffffff ->
  exists ct tag d' r', dev_secchan_seal d pt = (d', Some (ct, tag)) /\ zlen ct = zlen pt /\ zlen tag = GCM_TAG_LEN /\
    secchan_open r [] ct tag = (r', Some pt) /\ paired r' d' /\ sc_enc_ctr r' = sc_enc_ctr r /\ sc_dec_ctr r' = u32 (sc_dec_ctr r + 1).
Proof.
  intros [[K1 C1] [K2 C2] [L1 L2] [R1 R2]] Hc. destruct (gcm_total (ds_s1 d) (gcm_nonce 1 (ds_ctr_d2r d)) [] pt L2 (nonce_len _ _)) as (ct & tag & He & Hl & Ht).
  unfold dev_secchan_seal, secchan_open. rewrite He, K2, C2. do 4 eexists. split; [done|]. split; [unfold zlen; lia|]. split; [done|].
  rewrite (proj2 (Z.eqb_neq _ _)) by congruence. rewrite (proj2 (gcm_exact _ _ _ _ _ _) He). split; [done|]. split; [|by split].
  constructor; cbn; try done; split; try done; try apply wrap_range; lia.
Qed.

Lemma r2d_raw r d pt : paired r d -> sc_enc_ctr r <> 0xffffffff ->
  exists ct tag d' r', secchan_seal r [] pt = (r', Some (ct, tag)) /\ zlen ct = zlen pt /\ zlen tag = GCM_TAG_LEN /\
    dev_secchan_open d ct tag = (d', Some pt) /\ paired r' d' /\ sc_dec_ctr r' = sc_dec_ctr r.
Proof.
  intros [[K1 C1] [K2 C2] [L1 L2] [R1 R2]] Hc. destruct (gcm_total (ds_s0 d) (gcm_nonce 0 (ds_ctr_r2d d)) [] pt L1 (nonce_len _ _)) as (ct & tag & He & Hl & Ht).
  unfold dev_secchan_open, secchan_seal. rewrite (proj2 (Z.eqb_neq _ _)) by done. rewrite K1, C1, He. do 4 eexists. split; [done|]. split; [unfold zlen; lia|]. split; [done|].
  rewrite (proj2 (gcm_exact _ _ _ _ _ _) He). split; [done|]. split; [|done].
  constructor; cbn; try done; split; try done; try apply wrap_range; lia.
Qed.

(** *** AUTH1 on the device *)

Lemma session_block_run st s salt z block :
  pv_have_group_x (rd_prov st) = true -> session_salt SALT_SESSION st s None = Some salt -> se_z s = z ->
  derive_block z salt (pub_x (se_device_pub s)) = Some block -> session_block st s = Some block.
Proof. intros H1 H2 H3 H4. unfold session_block. rewrite H1, H2, H3. exact H4. Qed.

Lemma device_session_run x txid gx rx rid ph a5 dx salt z block enc dec ursk :
  salt_build SALT_SESSION txid gx rx rid IFACE_BLE DEV_VERSION ph 0x01 None (Some a5) = Some salt -> derive_z x txid = z ->
  derive_block z salt dx = Some block -> crypto_split block true = (enc, dec, ursk) ->
  device_derive_session x txid gx rx rid ph a5 dx = Some (dev_secchan_init enc dec, ursk, block).
Proof. intros H1 H2 H3 H4. unfold device_derive_session. rewrite H1, H2, bind_some, H3, bind_some, H4. reflexivity. Qed.

(** Both sides derive the same block. *)
Lemma shared_block rid rpub cred_pub d st0 st x :
  at_auth1 rpub d st0 st -> trusting rpub cred_pub st -> aligned rid rpub cred_pub d -> rid_reader_id (ident st) = rid ->
  se_z (sess st i) = derive_z x (se_txid (sess st i)) ->
  exists block, session_block st (sess st i) = Some block /\ zlen block = 160 /\
    forall enc dec ursk, crypto_split block true = (enc, dec, ursk) ->
    device_derive_session x (dv_txid d) (dv_reader_group_x d) (pub_x (dv_reader_eph_pub d)) (dv_reader_id d) (dv_exp_phase d) (dv_a5 d)
      (pub_x (dv_eph_pub d)) = Some (dev_secchan_init enc dec, ursk, block).
Proof.
  intros Q T A Hr Hx. pose proof (q1_keyed _ _ _ _ Q) as [K1 K2]. pose proof (q1_met _ _ _ _ Q) as [M1 M2 M3 M4].
  destruct (session_salt_total (se_txid (sess st i)) (pub_x rpub) (pub_x (se_eph_pub (sess st i))) rid IFACE_BLE PROTO_VERSION
    (se_exp_phase (sess st i)) 0x01 k_a5_csa_v1) as [salt Hs]; [done|apply pub_x_size; by eapply ec_pub_size, (tr_key _ _ _ T)
    |apply pub_x_size; by eapply ec_pub_size| |done|].
  { rewrite <- Hr. apply (tr_id _ _ _ T). }
  destruct (hkdf_total salt (derive_z x (se_txid (sess st i))) (pub_x (dv_eph_pub d)) 160) as (block & Hk & Hz); [lia|].
  exists block. split; [|split; [exact Hz|]].
  - apply (session_block_run st (sess st i) salt (derive_z x (se_txid (sess st i))) block); [apply (tr_have _ _ _ T)| |exact Hx|].
    + unfold session_salt. by rewrite (tr_group _ _ _ T), Hr, (pl_a5 _ (q1_plain _ _ _ _ Q)).
    + rewrite (q1_device _ _ _ _ Q). exact Hk.
  - intros enc dec ursk Hsp. apply (device_session_run x _ _ _ _ _ _ _ salt (derive_z x (se_txid (sess st i))) block); [| | |exact Hsp].
    + rewrite (al_id _ _ _ _ A), (al_group _ _ _ _ A), (al_a5 _ _ _ _ A), M1, M2, M3. exact Hs.
    + by rewrite M2.
    + exact Hk.
Qed.

(** The device's AUTH1 response, and what the reader will make of it. *)
Record device_auth1 (rid rpub cred_pub : list Z) (st : reader) (d' : device) (data : list Z) : Prop := {
  r1_aligned : aligned rid rpub cred_pub d';
  r1_keys : exists block enc dec ble_r ble_d, session_block st (sess st i) = Some block /\
    crypto_split block true = (enc, dec, dv_ursk d') /\ derive_ble_keys block reader_ble_salt = Some (ble_r, ble_d) /\
    length ble_r = 32%nat /\ length ble_d = 32%nat /\ dv_sc_ble d' = dev_secchan_init ble_r ble_d /\
    exists ct tag sc plain sig td, response data (ct ++ tag) /\ zlen ct <= 256 /\ zlen tag = GCM_TAG_LEN /\
      secchan_open (secchan_init enc dec) [] ct tag = (sc, Some plain) /\ paired sc (dv_sc d') /\ sc_enc_ctr sc = 1 /\ sc_dec_ctr sc = 2 /\
      apdu_parse_auth1_response plain = Some {| a1_device_pub := Some cred_pub; a1_device_sig := sig; a1_signaling := 0 |} /\
      session_authdata AUTH_DEVICE st (sess st i) = Some td /\ ec_verify cred_pub td sig = true;
}.

(** The body of the handler, once its parts are known. *)
Lemma on_auth1_run d rnd tlv sig td td2 x enc dec ursk block ble sig2 plain ct tag sc full :
  dev_parse_auth1_cmd tlv = Some {| c1_cred_type := 0x01; c1_reader_sig := sig |} ->
  dev_authdata d AUTH_READER = Some td -> ec_verify (dv_reader_verif_pub d) td sig = true ->
  ec_ecdh (dv_eph_priv d) (dv_reader_eph_pub d) = Some x ->
  device_derive_session x (dv_txid d) (dv_reader_group_x d) (pub_x (dv_reader_eph_pub d)) (dv_reader_id d) (dv_exp_phase d) (dv_a5 d)
    (pub_x (dv_eph_pub d)) = Some (dev_secchan_init enc dec, ursk, block) ->
  zlen (dv_blesk_salt d) <> 0 -> dev_blesk_init block (dv_blesk_salt d) = Some ble ->
  dev_authdata d AUTH_DEVICE = Some td2 -> ec_sign rnd (dv_cred_priv d) td2 = Some sig2 ->
  dev_build_auth1_resp sig2 (Some (dv_cred_pub d)) 160 = Some plain -> zlen plain <= 400 ->
  dev_secchan_seal (dev_secchan_init enc dec) plain = (sc, Some (ct, tag)) -> apdu_append_sw (ct ++ tag) 512 DEV_SW_OK = Some full ->
  on_auth1 d rnd tlv 512 =
  (d <| dv_sc := sc |> <| dv_ursk := ursk |> <| dv_sc_ble := ble |> <| dv_phase := DEV_SENT_AUTH1_RESP |>, Some full).
Proof.
  intros H1 H2 H3 H4 H5 H6 H7 H8 H9 H10 H11 H12 H13. unfold on_auth1. rewrite H1, H2. cbn [c1_reader_sig]. rewrite H3. cbn [negb].
  rewrite H4. cbn [mbind option_bind]. rewrite H5. cbv zeta.
  change (dv_blesk_salt (d <| dv_sc := dev_secchan_init enc dec |> <| dv_ursk := ursk |>)) with (dv_blesk_salt d).
  rewrite (proj2 (Z.eqb_neq _ _) H6), H7.
  match goal with |- context [dev_authdata ?e AUTH_DEVICE] => change (dev_authdata e AUTH_DEVICE) with (dev_authdata d AUTH_DEVICE) end.
  rewrite H8. cbn [mbind option_bind].
  match goal with |- context [dv_cred_priv ?e] => change (dv_cred_priv e) with (dv_cred_priv d); change (dv_cred_pub e) with (dv_cred_pub d) end.
  rewrite H9. cbn [mbind option_bind]. rewrite H10. unfold GCM_TAG_LEN. destruct (Z.ltb_spec 512 (zlen plain + 16 + 2)); [lia|].
  match goal with |- context [dev_secchan_seal (dv_sc ?e)] => change (dv_sc e) with (dev_secchan_init enc dec) end.
  rewrite H12. cbn [mbind option_bind]. rewrite H13. done.
Qed.

Lemma dev_auth1_ok rid rpub cred_pub d st0 st rnd :
  at_auth1 rpub d st0 st -> trusting rpub cred_pub st -> aligned rid rpub cred_pub d -> rid_reader_id (ident st) = rid ->
  exists d' data, peer_answer rnd st d = (d', data) /\ device_auth1 rid rpub cred_pub st d' data.
Proof.
  intros Q T A Hr. destruct (q1_asks _ _ _ _ Q) as (sig & td & Ha & Hz & Htd & Hv). destruct (q1_secret _ _ _ _ Q) as (x & Hx & Hsz).
  assert (zlen rid = 32) as Hrz by (rewrite <- Hr; apply (tr_id _ _ _ T)).
  pose proof (transcript rid rpub cred_pub AUTH_READER st _ d A (q1_met _ _ _ _ Q) (q1_keyed _ _ _ _ Q) Hr Hrz (q1_device _ _ _ _ Q)) as (td' & Htd' & Hd1).
  pose proof (transcript rid rpub cred_pub AUTH_DEVICE st _ d A (q1_met _ _ _ _ Q) (q1_keyed _ _ _ _ Q) Hr Hrz (q1_device _ _ _ _ Q)) as (td2 & Htd2 & Hd2).
  assert (td' = td) as -> by congruence.
  destruct (shared_block _ _ _ _ _ _ x Q T A Hr Hsz) as (block & Hb & Hbz & Hds).
  destruct (block_keys block Hbz) as (enc & dec & ursk & ble_r & ble_d & Hsp & Hbk & L1 & L2 & L3 & L4). apply Hds in Hsp as Hds'.
  pose proof (al_cred _ _ _ _ A) as [A4 A5]. destruct (ec_sign_verifies rnd _ _ td2 A4) as (sig2 & Hs2 & Hz2 & Hv2).
  pose proof (ec_pub_size _ _ A4) as Hcz. set (items := [(TAG_SIG, sig2); (TAG_DEVICE_PUB, cred_pub)]).
  assert (zlen (enc_items items) = 133) as Hl.
  { unfold items, enc_items. cbn [map concat]. rewrite !zlen_app, !zlen_item by (rewrite ?Hz2, ?Hcz; done). rewrite Hz2, Hcz. done. }
  destruct (d2r_raw (secchan_init enc dec) (dev_secchan_init enc dec) (enc_items items) (paired_init _ _ L1 L2)) as (ct & tag & sc' & r' & Hse & Zc & Zt & Ho & Hp & He & He'); [done|].
  destruct (answered (ct ++ tag)) as (data & full & Hfu & Hdt & Hm & Hbo); [rewrite zlen_app, Zc, Zt, Hl; unfold GCM_TAG_LEN; lia|].
  rewrite (peer_command _ _ _ _ _ Ha). change (INS_AUTH1 =? INS_AUTH0) with false. change (INS_AUTH1 =? INS_AUTH1) with true. cbv iota.
  rewrite (on_auth1_run d rnd _ sig td td2 x enc dec ursk block (dev_secchan_init ble_r ble_d) sig2 (enc_items items) ct tag sc' full).
  - cbn [mbind option_bind]. rewrite Hdt. eexists _, data. split; [reflexivity|]. destruct A as [B1 B2 B3 B4 B6 B7]. constructor; [by constructor|].
    exists block, enc, dec, ble_r, ble_d. split; [exact Hb|]. split; [exact Hsp|]. split; [exact Hbk|]. split; [exact L3|]. split; [exact L4|]. split; [reflexivity|].
    exists ct, tag, r', (enc_items items), sig2, td2. split; [exact (ex_intro _ full (conj Hm Hbo))|]. split; [lia|]. split; [exact Zt|]. split; [exact Ho|].
    split; [exact Hp|]. split; [exact He|]. split; [exact He'|]. split; [|split; [exact Htd2|exact Hv2]].
    apply (auth1_resp_understood sig2 (Some cred_pub) 133); [done|done|done|]. rewrite built_auth1_resp by done. apply fits_ok. fold items. lia.
  - apply (auth1_cmd_understood 0x01 sig 100); [done|done|]. rewrite built_auth1 by done. apply fits_ok. unfold enc_items. cbn [map concat].
    rewrite !zlen_app, !zlen_item by (rewrite ?Hz; done). rewrite Hz. done.
  - exact Hd1.
  - by rewrite (al_verif _ _ _ _ A).
  - by rewrite (me_eph _ _ (q1_met _ _ _ _ Q)).
  - exact Hds'.
  - by rewrite (al_salt _ _ _ _ A).
  - rewrite (al_salt _ _ _ _ A). unfold dev_blesk_init. by rewrite Hbk.
  - exact Hd2.
  - exact Hs2.
  - rewrite A5, built_auth1_resp by done. apply fits_ok. fold items. lia.
  - lia.
  - exact Hse.
  - exact Hfu.
Qed.

(** *** AUTH1 on the reader *)

(** As [beside], with the credential last seen and the fast-path keys free. *)
Record near (st st' : reader) : Prop := {
  ne_table : table_ok st';
  ne_ident : ident st' = ident st;
  ne_docs : rd_docs st' = rd_docs st;
  ne_ranging : rd_ranging st' = rd_ranging st;
  ne_generation : pv_auth_generation (rd_prov st') = pv_auth_generation (rd_prov st);
  ne_grants : List.filter is_grant (rd_log st') = List.filter is_grant (rd_log st);
}.

Lemma near_trans st1 st2 st3 : near st1 st2 -> near st2 st3 -> near st1 st3.
Proof. intros [] []. constructor; congruence || done. Qed.

Lemma beside_near st st' : beside st st' -> near st st'.
Proof. intros B. destruct (beside_fields _ _ B) as (E1 & _ & _ & _ & _ & E2). destruct B. by constructor. Qed.

Lemma commit_near staged pub st : table_ok st ->
  near st (commit_kp staged pub st) /\ rd_sessions (commit_kp staged pub st) = rd_sessions st /\ rd_log (commit_kp staged pub st) = rd_log st.
Proof.
  intros Ht. unfold commit_kp. destruct staged as [[ki kp]|]; [|done]. destruct (_ <? 0); [done|].
  destruct (prov_kpersistent_set _ _ _) as [ts rc]. destruct (rc =? 0); [|done]. split; [by constructor|done].
Qed.

(** EXCHANGE goes out under the next counter. *)
Lemma exchange_ok st dsc : table_ok st -> paired (se_sc (sess st i)) dsc -> sc_enc_ctr (se_sc (sess st i)) <> 0xffffffff ->
  exists st' ct tag dsc' ex sc dl, send_exchange i st = (st', true) /\ beside st st' /\
    asks INS_EXCHANGE (ct ++ tag) st' /\ zlen ct <= 64 /\ zlen tag = GCM_TAG_LEN /\
    dev_secchan_open dsc ct tag = (dsc', Some ex) /\ paired sc dsc' /\ sc_dec_ctr sc = sc_dec_ctr (se_sc (sess st i)) /\
    sess st' i = (sess st i) <| se_sc := sc |> <| se_phase := PH_SENT_EXCHANGE |> <| se_phase_deadline := dl |>.
Proof.
  intros Ht Hp Hc. unfold send_exchange. rewrite built_exchange by done. change (fits 16 _) with (Some [TAG_URSK_READY; 0]). cbv iota.
  destruct (r2d_raw _ dsc [TAG_URSK_READY; 0] Hp Hc) as (ct & tag & dsc' & sc & -> & Zc & Zt & Ho & Hp' & Hd).
  destruct (beside_on_sess i Hi (fun s => s <| se_sc := sc |>) st Ht) as [B1 E1]. set (st1 := on_sess i _ st) in *.
  change (zlen [TAG_URSK_READY; 0]) with 2 in Zc.
  destruct (command_ok i Hi (se_conn (sess st1 i)) INS_EXCHANGE (ct ++ tag) PH_SENT_EXCHANGE st1 (be_table _ _ B1)) as (apdu & st3 & -> & Hu & Hap & B3 & L3 & dl & E3).
  { rewrite zlen_app, Zc, Zt. unfold GCM_TAG_LEN. lia. }
  cbn [negb Z.eqb]. exists (session_enter_phase i PH_SENT_EXCHANGE st3), ct, tag, dsc', [TAG_URSK_READY; 0], sc, dl. split; [done|].
  split; [by eapply besides_trans|]. split; [by exists apdu|]. split; [lia|]. split; [done|]. split; [done|]. split; [done|]. split; [done|].
  rewrite E3, E1. done.
Qed.

(** The reader has let the credential in and waits for EXCHANGE. *)
Record at_exchange (cred_pub : list Z) (d : device) (st0 st : reader) : Prop := {
  qx_table : table_ok st;
  qx_ranging : rd_ranging st = rd_ranging st0;
  qx_view : auth_view st = (Some cred_pub, u32 (pv_auth_generation (rd_prov st0) + 1), EvAccess true :: List.filter is_grant (rd_log st0));
  qx_plain : plain (sess st i);
  qx_phase : se_phase (sess st i) = PH_SENT_EXCHANGE;
  qx_ursk : se_ursk (sess st i) = dv_ursk d;
  qx_ble : exists ble_r ble_d, se_sc_ble (sess st i) = secchan_init ble_r ble_d /\ dv_sc_ble d = dev_secchan_init ble_r ble_d /\
             length ble_r = 32%nat /\ length ble_d = 32%nat;
  qx_asks : exists ct tag dsc ex, asks INS_EXCHANGE (ct ++ tag) st /\ zlen ct <= 64 /\ zlen tag = GCM_TAG_LEN /\
              dev_secchan_open (dv_sc d) ct tag = (dsc, Some ex) /\ paired (se_sc (sess st i)) dsc /\
              sc_dec_ctr (se_sc (sess st i)) <> 0xffffffff;
}.

Lemma decide_ok rpub cred_pub d block r st0 st ble_r ble_d :
  beside st0 st -> trusting rpub cred_pub st -> plain (sess st i) ->
  paired (se_sc (sess st i)) (dv_sc d) -> sc_enc_ctr (se_sc (sess st i)) = 1 -> sc_dec_ctr (se_sc (sess st i)) = 2 ->
  se_ursk (sess st i) = dv_ursk d ->
  se_sc_ble (sess st i) = secchan_init ble_r ble_d -> dv_sc_ble d = dev_secchan_init ble_r ble_d -> length ble_r = 32%nat -> length ble_d = 32%nat ->
  at_exchange cred_pub d st0 (decide_auth1 i block cred_pub r st).
Proof.
  intros B T Pl Hp He Hd Hu Hb1 Hb2 L1 L2. unfold decide_auth1. set (st1 := on_prov _ st).
  assert (near st0 st1 /\ sess st1 i = sess st i) as [N1 E1].
  { split; [|done]. eapply near_trans; [by apply beside_near|]. destruct B. by constructor. }
  assert (trust_verdict st1 cred_pub = 0) as Ht.
  { unfold trust_verdict. change (trust st1) with (trust st). by rewrite (tr_trust _ _ _ T), (tr_force _ _ _ T). }
  rewrite Ht. cbn [Z.eqb orb]. set (staged := stage_kp st1 _ 0 cred_pub). clearbody staged. rewrite <- E1 in *.
  destruct (exchange_ok st1 (dv_sc d) (ne_table _ _ N1) Hp) as (st2 & ct & tag & dsc & ex & sc & dl & -> & B2 & Ha & Zc & Zt & Ho & Hp' & Hd' & E2); [by rewrite He|].
  cbn [negb]. destruct (commit_near staged cred_pub st2 (be_table _ _ B2)) as (N3 & S3 & L3). set (st3 := commit_kp staged cred_pub st2) in *.
  assert (sess st3 i = sess st2 i) as E3 by (unfold sess; by rewrite S3). pose proof Pl as [P1 [P2 P2'] P3 P4].
  assert (CFG_STEPUP && se_learn_pending (sess st3 i) = false) as Hl by (rewrite E3, E2; change (CFG_STEPUP && se_learn_pending (sess st1 i) = false); rewrite P2'; by destruct CFG_STEPUP).
  rewrite Hl. set (mru := Some (i8 _)). clearbody mru.
  pose proof (near_trans _ _ _ N1 (near_trans _ _ _ (beside_near _ _ B2) N3)) as N. destruct N as [Nt Ni Nd Nr Ng Nl].
  assert (sess (emit (EvAccess true) (authenticated cred_pub mru st3)) i = sess st2 i) as E4 by exact E3.
  constructor; rewrite ?E4, ?E2; try done.
  - unfold auth_view. cbn. by rewrite Ng, Nl.
  - by exists ble_r, ble_d.
  - exists ct, tag, dsc, ex. split; [|split_and!; try done; cbn; by rewrite Hd', Hd].
    destruct Ha as (apdu & Hf & Hr). exists apdu. split; [|exact Hr]. rewrite <- Hf. cbn. by rewrite L3.
Qed.

Lemma session_block_beside st st1 n : beside st st1 -> sess st1 i = (sess st i) <| se_msgs_rx := n |> ->
  session_block st1 (sess st1 i) = session_block st (sess st i).
Proof.
  intros B E1. destruct (beside_fields _ _ B) as (H1 & _ & H2 & H3 & _). unfold session_block, session_salt. rewrite H1, H2, H3, E1. reflexivity.
Qed.

Lemma install_ok block enc dec ursk st : table_ok st -> crypto_split block true = (enc, dec, ursk) -> se_stepup_active (sess st i) = false ->
  beside st (install_keys i block st) /\
  sess (install_keys i block st) i = (sess st i) <| se_ursk := ursk |> <| se_sc := secchan_init enc dec |>.
Proof.
  intros Ht Hs Ha. unfold install_keys. rewrite Hs.
  destruct (beside_on_sess i Hi (fun s => s <| se_ursk := ursk |> <| se_sc := secchan_init enc dec |>) st Ht) as [B1 E1].
  set (st1 := on_sess i _ st) in *. assert (CFG_STEPUP && se_stepup_active (sess st1 i) = false) as ->; [|by split].
  rewrite E1. change (CFG_STEPUP && se_stepup_active (sess st i) = false). rewrite Ha. by destruct CFG_STEPUP.
Qed.

Lemma open_ok ct tag sc plain r st : table_ok st -> zlen ct <= 256 -> zlen tag = GCM_TAG_LEN ->
  secchan_open (se_sc (sess st i)) [] ct tag = (sc, Some plain) -> apdu_parse_auth1_response plain = Some r ->
  exists st', open_auth1 i (ct ++ tag) st = (st', Some r) /\ beside st st' /\ sess st' i = (sess st i) <| se_sc := sc |>.
Proof.
  intros Ht Zc Zt Ho Hp. destruct (beside_on_sess i Hi (fun s => s <| se_sc := sc |>) st Ht) as [B1 E1].
  eexists. split; [|split; [exact B1|exact E1]]. unfold open_auth1. rewrite zlen_app, Zt. pose proof (zlen_nonneg ct).
  destruct (Z.ltb_spec (zlen ct + GCM_TAG_LEN) GCM_TAG_LEN); [lia|]. replace (zlen ct + GCM_TAG_LEN - GCM_TAG_LEN) with (zlen ct) by lia.
  destruct (Z.ltb_spec 256 (zlen ct)); [lia|]. rewrite <- Zt, sub_bytes_head, sub_bytes_tail, Ho.
  f_equal. rewrite bind_some. exact Hp.
Qed.

Lemma auth1_turn rid rpub cred_pub d st0 st d' data :
  at_auth1 rpub d st0 st -> trusting rpub cred_pub st -> device_auth1 rid rpub cred_pub st d' data ->
  at_exchange cred_pub d' st0 (transaction_feed i data st).
Proof.
  intros Q T [A (block & enc & dec & ble_r & ble_d & Hblk & Hsp & Hbk & L1 & L2 & Hble & ct & tag & sc & pt & sig & td & Hresp & Zc & Zt & Ho & Hp & He & Hd & Hpa & Htd & Hv)].
  destruct Q as [B Pl K M Ph Hdev Hsec _]. destruct (feed_response _ _ _ (be_table _ _ B) Hresp) as (st1 & full & B1 & [n E1] & Hb & ->). rewrite Ph.
  unfold on_auth1_response. rewrite Hb, (session_block_beside _ _ _ B1 E1), Hblk.
  pose proof Pl as [P1 [P2 P2'] P3 P4]. assert (se_stepup_active (sess st1 i) = false) as Hst by (rewrite E1; exact P2).
  destruct (install_ok block enc dec (dv_ursk d') st1 (be_table _ _ B1) Hsp Hst) as [B2 E2]. set (st2 := install_keys i block st1) in *.
  assert (init_ble_channel block (sess st2 i) = Some ((sess st2 i) <| se_sc_ble := secchan_init ble_r ble_d |>)) as ->.
  { unfold init_ble_channel. by rewrite Hbk, bind_some. }
  destruct (beside_on_sess i Hi (fun _ => (sess st2 i) <| se_sc_ble := secchan_init ble_r ble_d |>) st2 (be_table _ _ B2)) as [B3 E3].
  change (on_sess i (fun _ => ?s) st2) with (set_sess i s st2) in B3, E3. set (st3 := set_sess i _ st2) in *.
  destruct (open_ok ct tag sc pt {| a1_device_pub := Some cred_pub; a1_device_sig := sig; a1_signaling := 0 |} st3 (be_table _ _ B3) Zc Zt) as (st4 & -> & B4 & E4); [by rewrite E3, E2|exact Hpa|].
  cbn [a1_device_pub a1_device_sig default].
  pose proof (besides_trans _ _ _ B1 (besides_trans _ _ _ B2 (besides_trans _ _ _ B3 B4))) as B14.
  assert (session_authdata AUTH_DEVICE st4 (sess st4 i) = Some td) as ->.
  { rewrite <- Htd. unfold session_authdata. destruct (beside_fields _ _ B14) as (-> & _). rewrite E4, E3, E2, E1. reflexivity. }
  match goal with |- context [ec_verify ?p td _] => change p with cred_pub end. rewrite Hv. cbn [negb].
  apply (decide_ok rpub cred_pub d' block _ st0 st4 ble_r ble_d).
  - exact (besides_trans _ _ _ B B14).
  - exact (trusting_beside _ _ _ _ B14 T).
  - rewrite E4, E3, E2, E1. constructor; [exact P1|exact (conj P2 P2')|exact P3|exact P4].
  - rewrite E4. exact Hp.
  - rewrite E4. exact He.
  - rewrite E4. exact Hd.
  - rewrite E4, E3, E2. reflexivity.
  - rewrite E4, E3. reflexivity.
  - exact Hble.
  - exact L1.
  - exact L2.
Qed.

(** *** EXCHANGE *)

Lemma dev_exchange_ok cred_pub d st0 st rnd : at_exchange cred_pub d st0 st ->
  exists d' data ct tag sc, peer_answer rnd st d = (d', data) /\ dv_phase d' = DEV_ESTABLISHED /\ dv_ursk d' = dv_ursk d /\
    dv_sc_ble d' = dv_sc_ble d /\ response data (ct ++ tag) /\ zlen ct = 4 /\ zlen tag = GCM_TAG_LEN /\
    secchan_open (se_sc (sess st i)) [] ct tag = (sc, Some [0x00; 0x02; 0x00; 0x00]).
Proof.
  intros Q. destruct (qx_asks _ _ _ _ Q) as (ct & tag & dsc & ex & Ha & Zc & Zt & Ho & Hp & Hd).
  destruct (d2r_raw _ dsc [0x00; 0x02; 0x00; 0x00] Hp Hd) as (ct' & tag' & dsc' & r' & Hs & Zc' & Zt' & Ho' & _).
  destruct (answered (ct' ++ tag')) as (data & full & Hfu & Hdt & Hm & Hbo); [rewrite zlen_app, Zc', Zt'; done|].
  rewrite (peer_command _ _ _ _ _ Ha). change (INS_EXCHANGE =? INS_AUTH0) with false. change (INS_EXCHANGE =? INS_AUTH1) with false.
  change (INS_EXCHANGE =? INS_EXCHANGE) with true. cbv iota. unfold on_exchange. rewrite zlen_app, Zt. pose proof (zlen_nonneg ct).
  destruct (Z.ltb_spec (zlen ct + GCM_TAG_LEN) GCM_TAG_LEN); [lia|]. replace (zlen ct + GCM_TAG_LEN - GCM_TAG_LEN) with (zlen ct) by lia.
  destruct (Z.ltb_spec 64 (zlen ct)); [lia|]. rewrite <- Zt, sub_bytes_head, sub_bytes_tail, Ho, Zt.
  change (dev_build_exchange_resp 0 8) with (Some [0x00; 0x02; 0x00; 0x00]). cbv iota beta.
  change (512 <? zlen [0x00; 0x02; 0x00; 0x00] + GCM_TAG_LEN + 2) with false. cbv iota beta.
  change (dv_sc (d <| dv_sc := dsc |>)) with dsc. rewrite Hs, bind_some, Hfu. cbv iota beta. rewrite bind_some, Hdt. eexists _, data, ct', tag', r'. split; [reflexivity|]. split; [reflexivity|]. split; [reflexivity|]. split; [reflexivity|].
  split; [exact (ex_intro _ full (conj Hm Hbo))|]. by split.
Qed.

Lemma ranging_started conn sid ursk st : rg_adapter (rd_ranging st) = true ->
  exists st', ranging_start conn sid ursk i st = (st', 0) /\ rd_sessions st' = rd_sessions st /\ rd_prov st' = rd_prov st /\
    last_frame (rd_log st') = last_frame (rd_log st) /\ List.filter is_grant (rd_log st') = List.filter is_grant (rd_log st) /\
    rg_active (rd_ranging st') = Some (conn, i).
Proof.
  intros Ha. unfold ranging_start. rewrite Ha. cbn [negb].
  set (st1 := match rg_active (rd_ranging st) with Some (c, _) => ranging_stop c st | None => st end).
  assert (rd_sessions st1 = rd_sessions st /\ rd_prov st1 = rd_prov st /\ last_frame (rd_log st1) = last_frame (rd_log st) /\
    List.filter is_grant (rd_log st1) = List.filter is_grant (rd_log st)) as (S1 & P1 & L1 & F1).
  { unfold st1, ranging_stop. destruct (rg_active (rd_ranging st)) as [[c k]|]; [|done]. by destruct (c =? c). }
  clearbody st1. rewrite fr_engine. cbn [negb]. eexists. split; [done|]. by split_and!.
Qed.

(** Both sides are through. *)
Record through (cred_pub : list Z) (d : device) (st0 st : reader) : Prop := {
  th_device : dv_phase d = DEV_ESTABLISHED;
  th_reader : se_active (sess st i) = true /\ se_phase (sess st i) = PH_ESTABLISHED;
  th_ursk : se_ursk (sess st i) = dv_ursk d;
  th_ranging : rg_active (rd_ranging st) = Some (se_conn (sess st i), i);
  th_view : auth_view st = (Some cred_pub, u32 (pv_auth_generation (rd_prov st0) + 1), EvAccess true :: List.filter is_grant (rd_log st0));
  th_ble : exists ble, dev_ble_open (dv_sc_ble d) (last_frame (rd_log st)) 64 = (ble, Some k_ap_completed_plain) /\ paired (se_sc_ble (sess st i)) ble;
}.

Lemma completed cred_pub d st0 st ble_r ble_d :
  table_ok st -> dv_phase d = DEV_ESTABLISHED -> se_active (sess st i) = true -> se_ursk (sess st i) = dv_ursk d ->
  se_sc_ble (sess st i) = secchan_init ble_r ble_d -> dv_sc_ble d = dev_secchan_init ble_r ble_d -> length ble_r = 32%nat -> length ble_d = 32%nat ->
  rg_adapter (rd_ranging st) = true ->
  auth_view st = (Some cred_pub, u32 (pv_auth_generation (rd_prov st0) + 1), EvAccess true :: List.filter is_grant (rd_log st0)) ->
  through cred_pub d st0 (complete_ap_and_range i st).
Proof.
  intros Ht Hd Ha Hu Hb1 Hb2 L1 L2 Hr Hv. unfold complete_ap_and_range. rewrite Hb1.
  destruct (r2d_frame (secchan_init ble_r ble_d) (dev_secchan_init ble_r ble_d) k_ap_completed_plain 64 64 (paired_init _ _ L1 L2))
    as (sc & wire & ble & Hs & Ho & Hp); [split; [apply bytes_all; by vm_compute|by split]|done|done|done|done|].
  rewrite Hs. destruct (beside_on_sess i Hi (fun s => s <| se_sc_ble := sc |>) st Ht) as [B1 E1]. set (st1 := on_sess i _ st) in *.
  unfold ble_send. rewrite fr_send. cbn [negb Z.eqb]. set (st2 := emit _ st1).
  assert (beside st1 st2) as B2 by (apply beside_emit; [apply (be_table _ _ B1)|done]).
  assert (rg_adapter (rd_ranging st2) = true) as Hr2 by (change (rg_adapter (rd_ranging st) = true); exact Hr).
  destruct (ranging_started (se_conn (sess st2 i)) (ranging_sid (se_txid (sess st2 i))) (se_ursk (sess st2 i)) st2 Hr2) as (st3 & -> & S3 & P3 & F3 & G3 & R3).
  cbn [negb Z.eqb]. assert (table_ok st3) as T3 by (unfold table_ok; rewrite S3; apply (be_table _ _ B2)).
  destruct (beside_enter i Hi PH_ESTABLISHED st3 T3) as (B4 & F4 & dl & E4). set (st4 := session_enter_phase i PH_ESTABLISHED st3) in *.
  assert (rd_sessions (arm_replay st4) = rd_sessions st4 /\ rd_prov (arm_replay st4) = rd_prov st4 /\ rd_ranging (arm_replay st4) = rd_ranging st4 /\
    last_frame (rd_log (arm_replay st4)) = last_frame (rd_log st4) /\ List.filter is_grant (rd_log (arm_replay st4)) = List.filter is_grant (rd_log st4)) as (S5 & P5 & R5 & F5 & G5).
  { unfold arm_replay. by destruct (wl_undelivered (rd_wallet st4)). }
  assert (sess (arm_replay st4) i = (sess st i) <| se_sc_ble := sc |> <| se_phase := PH_ESTABLISHED |> <| se_phase_deadline := dl |>) as E5.
  { rewrite <- E1. unfold sess in *. rewrite S5. unfold sess in E4. rewrite E4, S3. reflexivity. }
  constructor; rewrite ?E5; try done.
  - rewrite R5, (be_ranging _ _ B4), R3. change (sess st2 i) with (sess st1 i). rewrite E1. reflexivity.
  - rewrite <- Hv. unfold auth_view. rewrite P5, G5, (be_grants _ _ B4), G3, (be_grants _ _ B2), (be_grants _ _ B1).
    pose proof (be_prov _ _ B4) as Q4. rewrite P3 in Q4. change (rd_prov st2) with (rd_prov st) in Q4.
    pose proof (f_equal pv_auth_cred Q4 : pv_auth_cred (rd_prov st4) = pv_auth_cred (rd_prov st)) as Q5.
    pose proof (f_equal pv_auth_generation Q4 : pv_auth_generation (rd_prov st4) = pv_auth_generation (rd_prov st)) as Q6. by rewrite Q5, Q6.
  - exists ble. rewrite F5, F4, F3, Hb2. by split.
Qed.

Lemma exchange_turn cred_pub d d' st0 st data ct tag sc :
  at_exchange cred_pub d st0 st -> rg_adapter (rd_ranging st0) = true -> dv_phase d' = DEV_ESTABLISHED -> dv_ursk d' = dv_ursk d ->
  dv_sc_ble d' = dv_sc_ble d -> response data (ct ++ tag) -> zlen ct = 4 -> zlen tag = GCM_TAG_LEN ->
  secchan_open (se_sc (sess st i)) [] ct tag = (sc, Some [0x00; 0x02; 0x00; 0x00]) ->
  through cred_pub d' st0 (transaction_feed i data st).
Proof.
  intros Q Hr Hp Hu Hb Hresp Zc Zt Ho. destruct Q as [Ht Hrg Hv Pl Ph Hurs (ble_r & ble_d & B1' & B2' & L1 & L2) _].
  destruct (feed_response _ _ _ Ht Hresp) as (st1 & full & B1 & [n E1] & Hbo & ->). rewrite Ph. unfold on_exchange_response. rewrite Hbo.
  rewrite zlen_app, Zt, Zc. change (GCM_TAG_LEN <=? 4 + GCM_TAG_LEN) with true. cbv iota. change (4 + GCM_TAG_LEN - GCM_TAG_LEN) with 4.
  change ((4 =? 0) || (16 <? 4)) with false. cbv iota. rewrite <- Zt, <- Zc at 1. rewrite sub_bytes_head. rewrite <- Zc at 1. rewrite sub_bytes_tail.
  assert (se_sc (sess st1 i) = se_sc (sess st i)) as -> by (rewrite E1; reflexivity). rewrite Ho.
  destruct (beside_on_sess i Hi (fun s => s <| se_sc := sc |>) st1 (be_table _ _ B1)) as [B2 E2]. set (st2 := on_sess i _ st1) in *.
  change (negb (exchange_accepted _)) with false. cbv iota. pose proof Pl as [P1 [P2 P2'] P3 P4].
  assert (CFG_STEPUP && se_stepup_active (sess st2 i) = false) as ->.
  { rewrite E2, E1. change (CFG_STEPUP && se_stepup_active (sess st i) = false). rewrite P2. by destruct CFG_STEPUP. }
  unfold gated_complete_ap. assert (se_gate (sess st2 i) = se_gate (sess st i)) as -> by (rewrite E2, E1; reflexivity). rewrite P3.
  pose proof (besides_trans _ _ _ B1 B2) as B. pose proof (be_prov _ _ B) as Q4.
  apply (completed cred_pub d' st0 st2 ble_r ble_d); rewrite ?Hu, ?Hb; rewrite ?E2, ?E1.
  - apply (be_table _ _ B).
  - exact Hp.
  - apply P1.
  - exact Hurs.
  - exact B1'.
  - exact B2'.
  - exact L1.
  - exact L2.
  - by rewrite (be_ranging _ _ B), Hrg.
  - rewrite <- Hv. unfold auth_view. rewrite (be_grants _ _ B).
    pose proof (f_equal pv_auth_cred Q4 : pv_auth_cred (rd_prov st2) = pv_auth_cred (rd_prov st)) as Q5.
    pose proof (f_equal pv_auth_generation Q4 : pv_auth_generation (rd_prov st2) = pv_auth_generation (rd_prov st)) as Q6. by rewrite Q5, Q6.
Qed.

(** *** From the connection on *)

Lemma through_base cred_pub d st0 st1 st : beside st0 st1 -> through cred_pub d st1 st -> through cred_pub d st0 st.
Proof.
  intros B [T1 T2 T3 T4 T5 T6]. destruct (beside_fields _ _ B) as (_ & _ & _ & _ & _ & Hg). constructor; try done.
  by rewrite T5, Hg, (be_grants _ _ B).
Qed.

(** The phone's first message: no default of its own but the one of version 1.0. *)
Definition opening (hello : list Z) : Prop :=
  ev_type (message_of hello) <> PROTO_NOTIFICATION \/ ev_opcode (message_of hello) <> NOTIF_EVENT.

Definition greeting (hello : list Z) : Prop :=
  opening hello /\
  (capture_a5_tlv (ev_payload (message_of hello)) 64 = A5_NONE \/
   capture_a5_tlv (ev_payload (message_of hello)) 64 = A5_TLV k_a5_csa_v1).

Definition spare_ok (st : reader) : Prop :=
  match pv_spare (rd_prov st) with Some sp => ec_pub_from_priv (sp_priv sp) = Some (sp_pub sp) /\ zlen (sp_txid sp) = 16 | None => True end.

Lemma greeted rpub cred_pub st hello :
  table_ok st -> trusting rpub cred_pub st -> plain (sess st i) -> spare_ok st -> se_phase (sess st i) = PH_IDLE -> greeting hello ->
  at_auth0 st (transaction_feed i hello st) i.
Proof.
  intros Ht T Pl Hs Ph [Hn Ha]. unfold transaction_feed.
  destruct (beside_on_sess i Hi (fun s => s <| se_msgs_rx := u32 (se_msgs_rx s + 1) |>) st Ht) as [B1 E1]. set (st1 := on_sess i _ st) in *.
  assert (se_phase (sess st1 i) = PH_IDLE) as -> by (rewrite E1; exact Ph).
  assert ((ev_type (message_of hello) =? PROTO_NOTIFICATION) && (ev_opcode (message_of hello) =? NOTIF_EVENT) = false) as Hf.
  { apply andb_false_iff. destruct Hn as [H|H]; [left|right]; by apply Z.eqb_neq. }
  rewrite <- andb_assoc, Hf, andb_false_r. unfold on_first_message.
  assert (forall a5, a5 = [] \/ a5 = k_a5_csa_v1 -> at_auth0 st (start_auth i (on_sess i (fun s => s <| se_a5 := a5 |>) st1)) i) as H.
  { intros a5 H5. destruct (beside_on_sess i Hi (fun s => s <| se_a5 := a5 |>) st1 (be_table _ _ B1)) as [B2 E2]. set (st2 := on_sess i _ st1) in *.
    pose proof (besides_trans _ _ _ B1 B2) as B. destruct Pl as [P1 P2 P3 P4].
    destruct (start_ok i Hi rpub cred_pub st2 (be_table _ _ B)) as [Q1 Q2 Q3 Q4 Q5].
    - by eapply trusting_beside.
    - rewrite E2, E1. constructor; [exact P1|exact P2|exact P3|]. by destruct H5 as [-> | ->].
    - exact Hs.
    - constructor; [by eapply besides_trans|done..]. }
  destruct Ha as [-> | ->]; apply H; [by left|by right].
Qed.

Lemma connected_ok conn st : table_ok st -> List.find (fun i => negb (se_active (sess st i))) (seq 0 MAX_SESSIONS) = Some i ->
  beside st (on_connected conn st) /\ plain (sess (on_connected conn st) i) /\ se_phase (sess (on_connected conn st) i) = PH_IDLE.
Proof.
  intros Ht Hf. unfold on_connected, session_alloc. rewrite Hf. cbn [monotonic_ms].
  destruct (beside_on_sess i Hi (fun _ => session_zero <| se_active := true |> <| se_conn := conn |>) st Ht) as [B1 E1].
  change (on_sess i (fun _ => ?s) st) with (set_sess i s st) in B1, E1. set (st1 := set_sess i _ st) in *.
  pose proof (beside_emit EvClock st1 (be_table _ _ B1) eq_refl) as B2. set (dl := u32 _).
  destruct (beside_on_sess i Hi (fun s => s <| se_overall_deadline := Some dl |>) (emit EvClock st1) (be_table _ _ B2)) as [B3 E3].
  set (st3 := on_sess i _ (emit EvClock st1)) in *. change (sess (emit EvClock st1) i) with (sess st1 i) in E3. rewrite E1 in E3.
  destruct (beside_enter i Hi PH_IDLE st3 (be_table _ _ B3)) as (B4 & _ & dl' & E4). cbn [fst]. rewrite E3 in E4.
  split; [exact (besides_trans _ _ _ B1 (besides_trans _ _ _ B2 (besides_trans _ _ _ B3 B4)))|]. rewrite E4. split; [|done].
  constructor; try done. by destruct CFG_RSSI_GATE.
Qed.

End Reader.

(** One turn: the device answers, the reader takes the answer. *)
Definition turn `{G : Gcm, E : Ec, W : World, C : reader_cfg, P : stepup_cfg} (i : nat) (rnd : list Z) (x : reader * device) : reader * device :=
  let '(d, data) := peer_answer rnd x.1 x.2 in (transaction_feed i data x.1, d).

(** The handshake of a connection on slot [i]: the phone's first message, and the
    three turns that follow it. *)
Definition handshake `{G : Gcm, E : Ec, W : World, C : reader_cfg, P : stepup_cfg} (i : nat) (hello r1 r2 r3 : list Z) (st : reader) (d : device) :
    reader * device :=
  turn i r3 (turn i r2 (turn i r1 (transaction_feed i hello st, d))).

Section Completes.
Context `{G : Gcm, GL : !GcmLaws G, E : Ec, EL : !EcLaws E, W : World, F : !Friendly, C : reader_cfg, P : stepup_cfg}.

Lemma connected_prov conn st : rd_prov (on_connected conn st) = rd_prov st.
Proof.
  unfold on_connected, session_alloc. destruct (List.find _ _) as [k|]; [|done]. cbn [monotonic_ms fst].
  by destruct (grown_enter k PH_IDLE (on_sess k (fun s => s <| se_overall_deadline := Some (u32 (u32 (w_clock (rd_log (set_sess k (session_zero <| se_active := true |> <| se_conn := conn |>) st))) + SESSION_TIMEOUT_MS)) |>)
    (emit EvClock (set_sess k (session_zero <| se_active := true |> <| se_conn := conn |>) st)))) as [-> _].
Qed.

(** C6: a reader and a device it trusts always come through a handshake.  Given a
    provisioned reader that holds the device's credential as an anchor, a free
    slot, a device set up with the reader's identifier and key, a first message
    that asks for a transaction, and surroundings that answer (sends are taken,
    keys are drawn), three turns leave the device established and the reader's
    session established, with the same ranging key on both sides, the ranging
    engine started for this connection, exactly one verdict given, the credential
    recorded under the next generation, the AP-Completed message last on the link
    one the device opens, and channels in step for what follows.  It holds for
    every key, identifier and random draw of either side, with a stored spare key
    pair or without, whatever the fast-path keys of the store. *)
Theorem handshake_completes st conn i rpub cred_priv cred_pub d hello r1 r2 r3 :
  table_ok st -> List.find (fun i => negb (se_active (sess st i))) (seq 0 MAX_SESSIONS) = Some i ->
  trusting rpub cred_pub st -> spare_ok st ->
  ec_pub_from_priv cred_priv = Some cred_pub -> device_init cred_priv (rid_reader_id (ident st)) rpub = Some d ->
  greeting hello ->
  let x := handshake i hello r1 r2 r3 (on_connected conn st) d in
  through i cred_pub x.2 st x.1.
Proof.
  intros Ht Hf T Hs Hc Hd Hg. assert (i < MAX_SESSIONS)%nat as Hi by (apply List.find_some in Hf as [H%in_seq _]; lia).
  destruct (device_init_aligned _ (rid_reader_id (ident st)) rpub _ Hc) as (d' & Hd' & A). assert (d' = d) as -> by congruence. clear Hd'.
  destruct (connected_ok i Hi conn st Ht Hf) as (B & Pl & Ph). set (st1 := on_connected conn st) in *.
  pose proof (trusting_beside _ _ _ _ B T) as T1.
  assert (spare_ok st1) as Hs1 by (unfold spare_ok, st1; by rewrite connected_prov).
  unfold handshake. set (st2 := transaction_feed i hello st1).
  pose proof (greeted i Hi rpub cred_pub st1 hello (be_table _ _ B) T1 Pl Hs1 Ph Hg) as Q0. fold st2 in Q0.
  pose proof (besides_trans _ _ _ B (q0_beside _ _ _ Q0)) as B2. pose proof (trusting_beside _ _ _ _ B2 T) as T2. destruct (beside_fields _ _ B2) as (E2 & _).
  destruct (dev_auth0_ok _ rpub cred_pub _ d st2 r1 (q0_asks _ _ _ Q0) (q0_keyed _ _ _ Q0)) as (d1 & data1 & Hp1 & A1 & M1 & R1);
    [apply (tr_id _ _ _ T2)|by rewrite E2|].
  pose proof (auth0_turn i Hi _ rpub cred_pub d1 st1 st2 data1 Q0 M1 T2 A1 eq_refl R1) as Q1.
  set (st3 := transaction_feed i data1 st2) in *. pose proof (besides_trans _ _ _ B (q1_beside _ _ _ _ _ Q1)) as B3.
  pose proof (trusting_beside _ _ _ _ B3 T) as T3. destruct (beside_fields _ _ B3) as (E3 & _).
  destruct (dev_auth1_ok i Hi _ rpub cred_pub d1 st1 st3 r2 Q1 T3 A1) as (d2 & data2 & Hp2 & R2); [by rewrite E3, E2|].
  pose proof (auth1_turn i Hi _ rpub cred_pub d1 st1 st3 d2 data2 Q1 T3 R2) as Q2. set (st4 := transaction_feed i data2 st3) in *.
  destruct (dev_exchange_ok i Hi cred_pub d2 st1 st4 r3 Q2) as (d3 & data3 & ct & tag & sc & Hp3 & Hd3 & Hu3 & Hb3 & R3 & Zc & Zt & Ho).
  assert (turn i r1 (st2, d) = (st3, d1)) as -> by (unfold turn; cbn [fst snd]; by rewrite Hp1).
  assert (turn i r2 (st3, d1) = (st4, d2)) as -> by (unfold turn; cbn [fst snd]; by rewrite Hp2).
  assert (turn i r3 (st4, d2) = (transaction_feed i data3 st4, d3)) as -> by (unfold turn; cbn [fst snd]; by rewrite Hp3).
  cbn [fst snd]. apply (through_base _ _ _ _ _ _ B).
  exact (exchange_turn i Hi cred_pub d2 d3 st1 st4 data3 ct tag sc Q2 (tr_adapter _ _ _ T1) Hd3 Hu3 Hb3 R3 Zc Zt Ho).
Qed.

End Completes.

(** ** A demonstration *)

#[export] Instance demo_cfg : reader_cfg := {|
  CFG_DEV_TRUST := false; CFG_STEPUP := true; CFG_STEPUP_BENCH := false; CFG_STEPUP_FORCE := false; CFG_RSSI_GATE := false;
  CFG_STEPUP_SD_MAX := 1536; CFG_GATE := mk_gate_cfg (-78) (-88) 5000 2 6 3000 8000 |}.

#[export] Instance demo_documents : stepup_cfg := {| STEPUP_MAX_DIGESTS := 24; STEPUP_MAX_ITEMS := 16; STEPUP_LEAN := true |}.

#[export] Instance demo_world : World := {|
  w_send _ := 0; w_draw log := toy_word (5 + zlen log); w_random _ := Some (replicate 16 9); w_clock _ := 0; w_uptime _ := 0;
  w_store _ := 0; w_load _ := (PROV_LOAD_EMPTY, prov_dev_default); w_crypto _ := true; w_engine _ := true;
  w_handle _ := ([], true); w_range_age _ := None |}.

Definition demo_identity : reader_identity :=
  {| rid_reader_id := replicate 32 3; rid_sign_priv := toy_word 7; rid_grk := zeros 16; rid_is_dev := false |}.

(** The device's credential is the one anchor. *)
Definition demo_key : list Z := toy_word 11.

Definition demo_start : reader :=
  {| rd_prov := {| pv_loaded := true; pv_id := demo_identity; pv_trust := (prov_trust_add ts_zero (toy_pub demo_key)).1;
                   pv_state := PROVISIONING_READY; pv_group_x := pub_x (toy_pub (toy_word 7)); pv_have_group_x := true;
                   pv_last_cred := None; pv_auth_cred := None; pv_auth_generation := 0; pv_fast_mru := -1; pv_kp_dirty := false;
                   pv_spare := None; pv_reasons := 0 |};
     rd_wallet := {| wl_undelivered := true; wl_replay_at := 0; wl_last_unsecured := false; wl_peer_unknown := false |};
     rd_docs := {| dc_armed := false; dc_sd := []; dc_owner := STEPUP_SD_FREE; dc_time := 0 |};
     rd_presence := {| ps_request := 0; ps_ready := 0; ps_ready_generation := 0; ps_wait := false |};
     rd_ranging := {| rg_adapter := true; rg_active := None; rg_failed := false |};
     rd_established := 0; rd_last_close := false; rd_sessions := replicate MAX_SESSIONS session_zero; rd_log := [] |}.

(** The device of that credential. *)
Definition demo_device : device :=
  default {| dv_cred_priv := []; dv_cred_pub := []; dv_reader_id := []; dv_reader_verif_pub := []; dv_reader_group_x := [];
             dv_eph_priv := []; dv_eph_pub := []; dv_reader_eph_pub := []; dv_txid := []; dv_exp_phase := 0; dv_version := 0;
             dv_ursk := []; dv_sc := secchan_zero; dv_sc_ble := secchan_zero; dv_blesk_salt := []; dv_a5 := []; dv_phase := DEV_FAILED |}
    (device_init demo_key (replicate 32 3) (toy_pub (toy_word 7))).

#[export] Instance demo_friendly : Friendly.
Proof.
  split; [done| |by eexists|done]. intros log. by exists (replicate 16 9).
Qed.

Lemma demo_trusting : trusting (toy_pub (toy_word 7)) (toy_pub demo_key) demo_start.
Proof. constructor; vm_compute; reflexivity. Qed.

Definition demo_handshake : reader * device := handshake 0 [2; 5; 0; 0] (toy_word 13) (toy_word 13) (toy_word 13) (on_connected 1 demo_start) demo_device.

Lemma handshake_completes_witness : through 0 (toy_pub demo_key) demo_handshake.2 demo_start demo_handshake.1.
Proof.
  apply (handshake_completes demo_start 1 0 (toy_pub (toy_word 7)) demo_key (toy_pub demo_key)).
  - reflexivity.
  - reflexivity.
  - exact demo_trusting.
  - exact I.
  - reflexivity.
  - vm_compute. reflexivity.
  - split; [right; vm_compute; discriminate|left; vm_compute; reflexivity].
Defined.
