(* ===== verification/ReaderRevoke.v ===== *)
(** * The credential reader: revocation

    A removal is in force in memory before it is written, whatever the store
    answers, and takes with it everything outside the trust store that still names
    the key. *)

From Stdlib Require Import ZArith Lia Bool.
From stdpp Require Import base list numbers option.
From S2P Require Import Prelude Wire CredCrypto Device Prov ProvProps ProvBlob RssiGate ReaderState Reader ReaderHost StepupParse Stepup Handshake.

Local Open Scope Z_scope.
Local Open Scope uwl_scope.

(** ** Taking out every match *)

Lemma first_at_split {A} (P : A -> bool) l i : first_at P l = Some i ->
  exists l1 x l2, l = l1 ++ x :: l2 /\ i = length l1 /\ P x = true /\ List.filter P l1 = [].
Proof.
  unfold first_at. destruct (list_find _ l) as [[j x]|] eqn:E; [|done]. intros [= <-].
  apply list_find_Some in E as (Hl & Hp & Hn). exists (take j l), x, (drop (S j) l).
  split; [by rewrite take_drop_middle|]. apply lookup_lt_Some in Hl as Hj. split; [rewrite length_take; lia|]. split; [done|].
  assert (forall y, In y (take j l) -> P y = false) as Hf.
  { intros y Hy. apply list_elem_of_In, list_elem_of_lookup in Hy as [k Hk]. apply lookup_take_Some in Hk as [Hk Hkj].
    apply not_true_iff_false. by eapply Hn. }
  clear - Hf. induction (take j l) as [|y k IH]; [done|]. cbn. rewrite Hf by by left. apply IH. intros z Hz. apply Hf. by right.
Qed.

Definition addressed (cred_type cred_index : Z) (a : anchor) : bool := (an_type a =? cred_type) && (an_cred_index a =? cred_index).
Definition spared (cred_type cred_index : Z) (a : anchor) : bool := negb (addressed cred_type cred_index a).

(** The public key of the last of them. *)
Definition last_pub (removed : list Z) (l : list anchor) : list Z := fold_left (fun _ a => an_pub a) l removed.

Lemma filter_spared_nil ct ci l : List.filter (addressed ct ci) l = [] -> List.filter (spared ct ci) l = l.
Proof.
  induction l as [|x l IH]; [done|]. cbn. unfold spared at 1. destruct (addressed ct ci x); [done|]. cbn. intros H. by rewrite IH.
Qed.

Lemma filter_none ct ci l : existsb (addressed ct ci) l = false -> List.filter (addressed ct ci) l = [].
Proof. induction l as [|x l IH]; [done|]. cbn. destruct (addressed ct ci x); [done|]. exact IH. Qed.

Lemma remove_loop_spec ct ci : ct <> 0 -> ci <> 0 -> forall fuel ts found removed, wf ts -> ts_count ts < Z.of_nat fuel ->
  let '(ts', found', removed') := remove_cred_loop fuel ct ci ts found removed in
  let gone := List.filter (addressed ct ci) (a_anchors (abs ts)) in
  wf ts' /\ a_anchors (abs ts') = List.filter (spared ct ci) (a_anchors (abs ts)) /\ a_issuers (abs ts') = a_issuers (abs ts) /\
  found' = found + zlen gone /\ removed' = last_pub removed gone /\ (gone = [] -> ts' = ts).
Proof.
  intros Hct Hci. induction fuel as [|fuel IH]; intros ts found removed W Hf; [pose proof (wf_count _ W); lia|].
  cbn [remove_cred_loop]. rewrite find_cred_index_spec by done. rewrite (proj2 (Z.eqb_neq ct 0)), (proj2 (Z.eqb_neq ci 0)) by done. cbn [orb].
  change (fun a => (an_type a =? ct) && (an_cred_index a =? ci)) with (addressed ct ci).
  rewrite slot_code_neg. case_bool_decide as E.
  - apply first_at_None, filter_none in E. rewrite E, filter_spared_nil by done. change (zlen []) with 0. split_and!; try done. lia.
  - destruct (first_at (addressed ct ci) (a_anchors (abs ts))) as [i|] eqn:Ei; [|done]. clear E. cbn [slot_code].
    apply first_at_split in Ei as (l1 & x & l2 & Hl & -> & Hx & H1). pose proof (zlen_anchors ts W) as Hz. rewrite Hl, zlen_app, zlen_cons in Hz.
    pose proof (zlen_nonneg l2). pose proof (zlen_nonneg l1). unfold zlen in Hz.
    destruct (remove_at_refines ts (Z.of_nat (length l1)) W) as (W' & Ha & Hrc). unfold a_remove_at in Ha, Hrc.
    rewrite occupied_anchors in Ha, Hrc by done. destruct (Z.ltb_spec (Z.of_nat (length l1)) 0); [lia|].
    destruct (Z.leb_spec (ts_count ts) (Z.of_nat (length l1))); [lia|]. cbn [orb negb fst snd] in Ha, Hrc. rewrite Nat2Z.id, Hl in Ha.
    assert (row [] (ts_cred_pub ts) (Z.to_nat (Z.of_nat (length l1))) = an_pub x) as ->.
    { assert (a_anchors (abs ts) !! length l1 = Some x) as Hx1 by (rewrite Hl; by rewrite list_lookup_middle).
      unfold abs in Hx1. cbn [a_anchors] in Hx1. rewrite lookup_map_seq in Hx1. case_decide; [|done]. injection Hx1 as <-. by rewrite Nat2Z.id. }
    destruct (prov_trust_remove_at ts (Z.of_nat (length l1))) as [ts1 rc]. cbn [fst snd] in *. subst rc. cbn [Z.eqb negb].
    assert (a_anchors (abs ts1) = l1 ++ l2) as Ha1 by (rewrite Ha; cbn; by rewrite delete_middle).
    assert (a_issuers (abs ts1) = a_issuers (abs ts)) as Hi1 by by rewrite Ha.
    pose proof (zlen_anchors ts1 W') as Hz1. rewrite Ha1, zlen_app in Hz1. unfold zlen in Hz1.
    specialize (IH ts1 (found + 1) (an_pub x) W' ltac:(lia)). destruct (remove_cred_loop fuel ct ci ts1 (found + 1) (an_pub x)) as [[ts' found'] removed'].
    rewrite Ha1 in IH. destruct IH as (I1 & I2 & I3 & I4 & I5 & _). rewrite Hl.
    assert (List.filter (addressed ct ci) (l1 ++ x :: l2) = x :: List.filter (addressed ct ci) l2) as ->.
    { rewrite List.filter_app, H1. cbn. by rewrite Hx. }
    rewrite List.filter_app, H1 in I4, I5. cbn [app] in I4, I5. rewrite I4, I5, I2, I3, Hi1, zlen_cons. split_and!; try done; [|lia].
    rewrite !List.filter_app. cbn. unfold spared at 4. rewrite Hx. done.
Qed.

(** ** In force, whatever the store answers *)

Lemma unlatch_names removed latch pub : latch = Some pub -> unlatch (Some removed) latch = Some pub -> pub <> removed.
Proof. intros -> H ->. cbn in H. by rewrite bool_decide_eq_true_2 in H. Qed.

Lemma last_pub_one (l : list anchor) removed a : In a l -> zlen l = 1 -> last_pub removed l = an_pub a.
Proof. destruct l as [|x [|y l]]; unfold zlen; cbn; intros H Hl; try lia. by destruct H as [-> |]. Qed.

Lemma untrusted_after ts ts' (P : anchor -> bool) a : wf ts -> wf ts' -> NoDup (map an_pub (a_anchors (abs ts))) ->
  a_anchors (abs ts') = List.filter (fun b => negb (P b)) (a_anchors (abs ts)) -> In a (a_anchors (abs ts)) -> P a = true ->
  prov_trust_check ts' (an_pub a) <> 0.
Proof.
  intros W W' Hnd Hf Ha Hp. rewrite trust_check_spec by done. destruct (a_anchors (abs ts')) as [|x l] eqn:El; [done|].
  destruct (existsb (has_pub (an_pub a)) (x :: l)) eqn:Ee; [|done]. apply existsb_exists in Ee as (b & Hb & Hpub).
  unfold has_pub in Hpub. apply bool_decide_eq_true in Hpub. rewrite Hf in Hb. apply filter_In in Hb as [Hb Hn].
  apply list_elem_of_In, list_elem_of_lookup in Ha as [j Ha]. apply list_elem_of_In, list_elem_of_lookup in Hb as [k Hb].
  assert (j = k) as ->.
  { apply (list.NoDup_lookup (map an_pub (a_anchors (abs ts))) _ _ (an_pub a) Hnd); rewrite list_lookup_fmap; [by rewrite Ha|rewrite Hb; cbn; by rewrite Hpub]. }
  rewrite Ha in Hb. injection Hb as <-. by rewrite Hp in Hn.
Qed.

Section Revoke.
Context `{E : Ec, W : World, C : reader_cfg}.

(** The last entries of the log after a removal: the write, the sweep. *)
Definition persisted (st' : reader) : Prop :=
  exists log, rd_log st' = EvPost POST_SWEEP :: EvStore (ident st') (trust st') 0 :: log.

Lemma removal_run ts removed st st' rc :
  (let '(st, rc) := persist_removal (mru_reset (on_trust ts st)) in (revoke_aftermath removed st, rc)) = (st', rc) ->
  trust st' = ts /\ ident st' = ident st /\
  pv_auth_cred (rd_prov st') = unlatch removed (pv_auth_cred (rd_prov st)) /\
  pv_last_cred (rd_prov st') = unlatch removed (pv_last_cred (rd_prov st)) /\
  rd_sessions st' = rd_sessions st /\ pv_fast_mru (rd_prov st') = -1 /\
  (rc = 0 -> persisted st') /\ (rc <> 0 -> pv_kp_dirty (rd_prov st') = true) /\ head (rd_log st') = Some (EvPost POST_SWEEP).
Proof.
  unfold persist_removal, prov_store. cbv zeta. set (rc0 := w_store _). destruct (Z.eqb_spec rc0 0) as [E0|E0]; intros [= <- <-].
  - split_and!; try done. intros _. eexists. rewrite <- E0. reflexivity.
  - split_and!; done.
Qed.

Lemma sweep_all (st : reader) : forall l i, i ∈ l -> se_active (sess st i) = true ->
  In (EvDisconnect (se_conn (sess st i))) (rd_log (fold_left disconnect_slot l st)).
Proof.
  assert (forall l st, rd_sessions (fold_left disconnect_slot l st) = rd_sessions st /\ exists es, rd_log (fold_left disconnect_slot l st) = es ++ rd_log st) as Hk.
  { induction l as [|j l IH]; intros st0; [split; [done|by exists []]|]. cbn [fold_left]. destruct (IH (disconnect_slot st0 j)) as [H1 [es H2]].
    rewrite H1, H2. unfold disconnect_slot. destruct (se_active _); [|split; [done|by exists es]]. split; [done|]. eexists (es ++ [_]). by rewrite <- app_assoc. }
  intros l i Hin Ha. apply list_elem_of_split in Hin as (l1 & l2 & ->). rewrite fold_left_app. cbn [fold_left].
  destruct (Hk l1 st) as [H1 _]. set (st1 := fold_left disconnect_slot l1 st) in *. assert (sess st1 i = sess st i) as E1 by (unfold sess; by rewrite H1).
  destruct (Hk l2 (disconnect_slot st1 i)) as [_ [es ->]]. apply in_app_iff. right. unfold disconnect_slot. rewrite E1, Ha. by left.
Qed.

(** C7: a revoked credential stops opening the door at once, even when the store
    cannot be written.  Removing the credential filed under a type and an index
    from a well-formed store with distinct keys takes out every anchor under that
    address, and no other anchor or issuer; none of those keys is trusted any
    longer, neither latch names one of them, the most recent fast-path match is
    forgotten, the sweep that ends the live links is posted, and it asks the
    transport to drop every one of them.  The result says whether it is also
    written: 0 only if the very store now in force is the last thing written,
    otherwise the write is owed.  When nothing is filed there, nothing changes but
    that an owed write is tried again. *)
Theorem revocation_fails_closed st ct ci st' rc :
  wf (trust (loaded st)) -> NoDup (map an_pub (a_anchors (abs (trust (loaded st))))) -> ct <> 0 -> ci <> 0 ->
  reader_provision_remove_trust ct ci st = (st', rc) ->
  let before := a_anchors (abs (trust (loaded st))) in
  let gone := List.filter (addressed ct ci) before in
  wf (trust st') /\ a_anchors (abs (trust st')) = List.filter (spared ct ci) before /\
  a_issuers (abs (trust st')) = a_issuers (abs (trust (loaded st))) /\
  (forall i, (i < MAX_SESSIONS)%nat -> se_active (sess st' i) = true ->
     In (EvDisconnect (se_conn (sess st' i))) (rd_log (revoke_sweep_on_host st'))) /\
  match gone with
  | [] => trust st' = trust (loaded st) /\ (pv_kp_dirty (rd_prov st') = false -> rc = 1)
  | _ =>
      (forall a, In a gone -> prov_trust_check (trust st') (an_pub a) <> 0 /\
         pv_auth_cred (rd_prov st') <> Some (an_pub a) /\ pv_last_cred (rd_prov st') <> Some (an_pub a)) /\
      pv_fast_mru (rd_prov st') = -1 /\ head (rd_log st') = Some (EvPost POST_SWEEP) /\
      (rc = 0 -> persisted st') /\ (rc <> 0 -> pv_kp_dirty (rd_prov st') = true)
  end.
Proof.
  intros Wf Hnd Hct Hci Hr before gone. unfold reader_provision_remove_trust in Hr. cbv zeta in Hr. set (st0 := loaded st) in *.
  pose proof (remove_loop_spec ct ci Hct Hci (S (Z.to_nat (ts_count (trust st0)))) (trust st0) 0 [] Wf) as Hl.
  destruct (remove_cred_loop _ ct ci (trust st0) 0 []) as [[ts found] removed]. pose proof (wf_count _ Wf). destruct Hl as (W' & Ha & Hi & Hfo & Hre & Hsame); [lia|].
  fold before gone in Ha, Hfo, Hre, Hsame. assert (forall i, (i < MAX_SESSIONS)%nat -> se_active (sess st' i) = true ->
    In (EvDisconnect (se_conn (sess st' i))) (rd_log (revoke_sweep_on_host st'))) as Hsw.
  { intros i Hlt Hac. apply sweep_all; [|done]. unfold all_slots. apply list_elem_of_In, in_seq. lia. }
  destruct gone as [|x gone'] eqn:Eg.
  - change (zlen []) with 0 in Hfo. rewrite Z.add_0_r in Hfo. subst found. cbn [Z.eqb] in Hr. rewrite (Hsame eq_refl) in *.
    revert Hr. unfold retry_pending, flush_pending_store, prov_store. cbv zeta. destruct (negb (pv_kp_dirty _)) eqn:Ed.
    + cbn [Z.eqb]. intros [= <- <-]. by split_and!.
    + set (rc0 := w_store _). destruct (Z.eqb_spec rc0 0) as [E0|E0]; cbn [negb].
      * cbn [Z.eqb]. intros [= <- <-]. by split_and!.
      * intros [= <- <-]. by split_and!.
  - rewrite zlen_cons in Hfo. pose proof (zlen_nonneg gone'). rewrite (proj2 (Z.eqb_neq found 0)) in Hr by lia.
    apply removal_run in Hr as (Ht & Hid & Hau & Hla & Hse & Hm & Hw & Hd & Hh). rewrite Ht. split_and!; try done.
    intros a Hin. assert (In a before /\ addressed ct ci a = true) as [Hb Hadd] by (apply filter_In; change (In a gone); rewrite Eg; exact Hin).
    split; [by apply (untrusted_after (trust st0) ts (addressed ct ci))|].
    assert (forall latch, unlatch (if 1 <? found then None else Some removed) latch <> Some (an_pub a)) as Hun.
    { intros [pub|]; [|done]. destruct (Z.ltb_spec 1 found); [done|]. cbn. case_bool_decide as Ep; [done|]. intros [= ->]. apply Ep.
      rewrite Hre. symmetry. apply last_pub_one; [exact Hin|]. rewrite zlen_cons. lia. }
    rewrite Hau, Hla. split; apply Hun.
Qed.

(** ** Where a removal stops short *)

(** The console's clear looks at the anchors alone: issuer keys stay. *)
Lemma trust_clear_keeps_issuers st : ts_count (trust (loaded st)) = 0 -> reader_trust_clear st = (loaded st, 1).
Proof. intros H. unfold reader_trust_clear. by rewrite H. Qed.

(** An import replaces every key and leaves the sessions and both latches. *)
Lemma import_keeps_sessions buf st :
  let st' := (reader_import_blob buf st).1 in
  rd_sessions st' = rd_sessions (loaded st) /\ pv_auth_cred (rd_prov st') = pv_auth_cred (rd_prov (loaded st)) /\
  pv_last_cred (rd_prov st') = pv_last_cred (rd_prov (loaded st)).
Proof.
  unfold reader_import_blob. cbv zeta. destruct (prov_deserialize buf) as [[id ts]|]; [|done]. unfold prov_store. cbv zeta.
  destruct (negb _); [done|]. cbn [fst]. unfold reader_refresh_adv, apply_provisioned_adv_params, compute_reader_group_x.
  destruct (if w_crypto _ then _ else _); destruct (existsb _ _); done.
Qed.

End Revoke.

(** ** A removal that cannot be written *)

Definition broken_store : World := {|
  w_send _ := 0; w_draw _ := []; w_random _ := None; w_clock _ := 0; w_uptime _ := 0; w_store _ := -5;
  w_load _ := (PROV_LOAD_EMPTY, prov_dev_default); w_crypto _ := true; w_engine _ := true; w_handle _ := ([], true); w_range_age _ := None |}.

(** The demonstration's anchor, filed under type 3 and index 7, and latched. *)
Definition filed : reader :=
  on_prov (fun p => p <| pv_trust := (prov_cred_bind_set (pv_trust p) 0 3 7 2).1 |> <| pv_auth_cred := Some (toy_pub demo_key) |>) demo_start.

Definition revoked : reader * Z := @reader_provision_remove_trust _ broken_store 3 7 filed.

Lemma revoked_run : @reader_provision_remove_trust _ broken_store 3 7 filed = (revoked.1, revoked.2).
Proof. unfold revoked. apply surjective_pairing. Qed.

Lemma filed_store : trust (@loaded _ broken_store filed) = (prov_cred_bind_set (trust demo_start) 0 3 7 2).1.
Proof. vm_compute. reflexivity. Qed.

Lemma filed_wf : wf (trust (@loaded _ broken_store filed)).
Proof.
  rewrite filed_store. apply (bind_refines (trust demo_start) 0 3 7 2).
  change (trust demo_start) with (prov_trust_add ts_zero (toy_pub demo_key)).1. apply (add_refines ts_zero), wf_zero.
Qed.

Lemma filed_keys : map an_pub (a_anchors (abs (trust (@loaded _ broken_store filed)))) = [toy_pub demo_key].
Proof. vm_compute. reflexivity. Qed.

Lemma filed_distinct : NoDup (map an_pub (a_anchors (abs (trust (@loaded _ broken_store filed))))).
Proof. rewrite filed_keys. apply NoDup_singleton. Qed.

Lemma filed_gone : exists a, List.filter (addressed 3 7) (a_anchors (abs (trust (@loaded _ broken_store filed)))) = [a] /\ an_pub a = toy_pub demo_key.
Proof. eexists. split; vm_compute; reflexivity. Qed.

Lemma revoked_code : revoked.2 <> 0.
Proof. vm_compute. discriminate. Qed.

Lemma listed {A} (l : list A) x l' (P Q : Prop) : l = x :: l' -> match l with [] => P | _ => Q end -> Q.
Proof. by intros ->. Qed.

Lemma revocation_fails_closed_witness :
  prov_trust_check (trust revoked.1) (toy_pub demo_key) <> 0 /\ pv_auth_cred (rd_prov revoked.1) <> Some (toy_pub demo_key) /\
  pv_kp_dirty (rd_prov revoked.1) = true.
Proof.
  destruct filed_gone as (a & Hg & <-).
  pose proof (@revocation_fails_closed _ broken_store filed 3 7 revoked.1 revoked.2 filed_wf filed_distinct ltac:(lia) ltac:(lia) revoked_run) as (_ & _ & _ & _ & H).
  apply (listed _ _ _ _ _ Hg) in H. destruct H as (H1 & _ & _ & _ & H2). destruct (H1 a) as (Ha & Hb & _); [rewrite Hg; left; reflexivity|].
  split; [exact Ha|]. split; [exact Hb|]. exact (H2 revoked_code).
Defined.
