(* ===== verification/ReaderProps.v ===== *)
(** * The credential reader: properties

    Who may range and who is recorded as authenticated, over every run, with a
    run of reader and device as the witness. *)

From Stdlib Require Import ZArith Lia Bool.
From stdpp Require Import base list numbers option.
From S2P Require Import Prelude Wire CredCrypto Device CredTlv CredApdu Prov ProvBlob RssiGate Cbor StepupParse StepupWire Stepup ReaderState Reader ReaderHost ReaderFacts ReaderGrant ReaderFeed ReaderCalm ReaderRun Handshake.

Local Open Scope Z_scope.
Local Open Scope uwl_scope.

Section Claims.
Context `{G : Gcm, E : Ec, W : World, C : reader_cfg, P : stepup_cfg}.

(** C1: A session that ranges was let in.  In every state the reader can reach, by
    any order of connections, messages, power-gate samples, ticks, notifications
    and administration and with any answers of the radio, the store, the clocks
    and the random source, an established session was granted access during that
    very session: a message of it proved a fast-path key of a stored anchor, or a
    signature by a trusted key (or any key, on an unprovisioned development
    reader), or brought a document in which a stored issuer vouches for a key
    that had signed this transaction earlier; and the ranging key of the session
    is the one that message's key agreement yields. *)
Theorem reader_established_granted h st i :
  reach h st -> (i < MAX_SESSIONS)%nat -> se_active (sess st i) = true -> se_phase (sess st i) = PH_ESTABLISHED ->
  exists pub, granted (in_session i h) i pub (se_ursk (sess st i)).
Proof. apply established_granted. Qed.

(** C5: Nobody is recorded as authenticated without evidence.  One move of a
    reachable reader leaves the authenticated credential, the generation and the
    verdicts given as they were, or forgets the credential, or is a message that
    carries the evidence for exactly the credential it records, adding one to the
    generation and one verdict. *)
Theorem reader_grants_evidenced h st m :
  reach h st -> allowed m st = true ->
  forgets (auth_view st) (auth_view (run_move m st)) \/
  exists i data pub ursk, m = MFeed i data /\ auth_view (run_move m st) = granted_view pub (auth_view st) /\
    grant_evidence st i data (in_session i h) pub ursk /\ se_ursk (sess (run_move m st) i) = ursk.
Proof. apply grant_steps. Qed.

End Claims.

(** ** A run of reader and device

    The demonstration of [Handshake], message by message. *)

Definition demo_answer (st : reader) (d : device) : device * list Z := peer_answer (toy_word 13) st d.

Definition demo_turn (x : list (reader * move) * reader * device) : list (reader * move) * reader * device :=
  let '(h, st, d) := x in
  let '(d, data) := demo_answer st d in
  ((st, MFeed 0 data) :: h, run_move (MFeed 0 data) st, d).

(** The phone opens; three answers follow. *)
Definition demo_open : list (reader * move) * reader * device :=
  let m1 := MConnected 1 in
  let st1 := run_move m1 demo_start in
  let m2 := MFeed 0 [2; 5; 0; 0] in
  ([(st1, m2); (demo_start, m1)], run_move m2 st1, demo_device).

Definition demo_auth1 : list (reader * move) * reader * device := demo_turn demo_open.
Definition demo_exchange : list (reader * move) * reader * device := demo_turn demo_auth1.
Definition demo_end : list (reader * move) * reader * device := demo_turn demo_exchange.

Lemma demo_turn_reach x : reach x.1.1 x.1.2 -> se_active (sess x.1.2 0) = true -> reach (demo_turn x).1.1 (demo_turn x).1.2.
Proof.
  destruct x as [[h st] d]. cbn [fst snd]. intros Hr Ha. unfold demo_turn. destruct (demo_answer st d) as [d' data]. cbn [fst snd].
  apply reach_move; [exact Hr|]. unfold allowed. by rewrite Ha.
Qed.

Lemma demo_open_reach : reach demo_open.1.1 demo_open.1.2.
Proof.
  unfold demo_open. cbn [fst snd]. apply reach_move; [|vm_compute; reflexivity].
  apply (reach_move [] demo_start (MConnected 1)); [by apply reach_init|reflexivity].
Qed.

Lemma demo_auth1_reach : reach demo_auth1.1.1 demo_auth1.1.2.
Proof. apply demo_turn_reach; [apply demo_open_reach|vm_compute; reflexivity]. Qed.

Lemma demo_end_reach : reach demo_end.1.1 demo_end.1.2.
Proof.
  apply demo_turn_reach; [apply demo_turn_reach; [apply demo_auth1_reach|vm_compute; reflexivity]|vm_compute; reflexivity].
Qed.

(** Both sides are established, with one ranging key. *)
Lemma demo_end_established : se_active (sess demo_end.1.2 0) = true /\ se_phase (sess demo_end.1.2 0) = PH_ESTABLISHED /\
  dv_phase demo_end.2 = DEV_ESTABLISHED /\ dv_ursk demo_end.2 = se_ursk (sess demo_end.1.2 0).
Proof. vm_compute. split_and!; reflexivity. Qed.

Lemma reader_established_granted_witness :
  exists h st, reach h st /\ se_phase (sess st 0) = PH_ESTABLISHED /\ exists pub, granted (in_session 0 h) 0 pub (se_ursk (sess st 0)).
Proof.
  exists demo_end.1.1, demo_end.1.2. destruct demo_end_established as (Ha & Hp & _).
  split; [exact demo_end_reach|]. split; [exact Hp|].
  exact (reader_established_granted _ _ 0 demo_end_reach (Nat.lt_0_succ 1) Ha Hp).
Defined.

(** The message that lets the demonstration's credential in. *)
Definition demo_signed : list Z := (demo_answer demo_auth1.1.2 demo_auth1.2).2.

Lemma demo_allowed : allowed (MFeed 0 demo_signed) demo_auth1.1.2 = true.
Proof. vm_compute. reflexivity. Qed.

Lemma demo_generation : (auth_view (run_move (MFeed 0 demo_signed) demo_auth1.1.2)).1.2 = 1 /\ (auth_view demo_auth1.1.2).1.2 = 0.
Proof. vm_compute. split; reflexivity. Qed.

(** A record that was let in has moved the generation, and a feed is one feed. *)
Lemma generation_moved v v' : forgets v v' -> v'.1.2 = 1 -> v.1.2 = 0 -> False.
Proof. intros [->| ->]; cbn; congruence. Qed.

Lemma evidence_of_feed st h data (R : list Z -> Prop) (Q : nat -> list Z -> Prop) :
  (exists i data' pub ursk, MFeed 0 data = MFeed i data' /\ R pub /\ grant_evidence st i data' (in_session i h) pub ursk /\ Q i ursk) ->
  exists pub ursk, grant_evidence st 0 data (in_session 0 h) pub ursk.
Proof. intros (i & data' & pub & ursk & [= -> ->] & _ & H & _). by exists pub, ursk. Qed.

Lemma reader_grants_evidenced_witness :
  exists pub ursk, grant_evidence demo_auth1.1.2 0 demo_signed (in_session 0 demo_auth1.1.1) pub ursk.
Proof.
  destruct (reader_grants_evidenced _ _ _ demo_auth1_reach demo_allowed) as [H|H].
  - exact (match generation_moved _ _ H (proj1 demo_generation) (proj2 demo_generation) with end).
  - exact (evidence_of_feed _ _ _ (fun pub => auth_view (run_move (MFeed 0 demo_signed) demo_auth1.1.2) = granted_view pub (auth_view demo_auth1.1.2))
      (fun i ursk => se_ursk (sess (run_move (MFeed 0 demo_signed) demo_auth1.1.2) i) = ursk) H).
Defined.
