(* ===== verification/UwbMsg.v ===== *)
(** * Messages of the UWB ranging service

    Models [modules/ultrawidelock_uwb/src/cred/ultrawidelock_uwb_msg_parser.c],
    [ultrawidelock_uwb_msg_builder.c] and the framing constants of
    [include/ultrawidelock_uwb_msg_spec.h].  A message is its valid bytes: a
    header (protocol, identifier, big-endian payload length) and attributes
    (identifier, length, value).  The [while] loop over the attributes has the
    message's length as fuel; [for_attributes_over] of [UwbMsg.v] shows that this is enough
    whatever the bytes.  The reference reading of a payload is [attributes]. *)

From Stdlib Require Import ZArith Lia Bool.
From stdpp Require Import base list numbers option.
From S2P Require Import Prelude Wire.

Local Open Scope Z_scope.

(** ** Framing *)

Definition HEADER_LENGTH : Z := 4.
Definition ATTRIBUTE_HEADER_LENGTH : Z := 2.

Definition PROTOCOL_RANGING_SERVICE : Z := 0x01.
Definition PROTOCOL_NOTIFICATION : Z := 0x02.
Definition PROTOCOL_SUPPLEMENTARY_SERVICE : Z := 0x03.

Definition SETUP_M1 : Z := 0x00.
Definition SETUP_M2 : Z := 0x01.
Definition SETUP_M3 : Z := 0x02.
Definition SETUP_M4 : Z := 0x03.
Definition SUSPEND_REQUEST : Z := 0x04.
Definition SUSPEND_RESPONSE : Z := 0x05.
Definition RESUME_REQUEST : Z := 0x06.
Definition RESUME_RESPONSE : Z := 0x07.

Definition ATTR_CONFIGURATION_IDENTIFIER : Z := 0x00.
Definition ATTR_PULSE_SHAPE_COMBO : Z := 0x01.
Definition ATTR_SESSION_IDENTIFIER : Z := 0x02.
Definition ATTR_CHANNEL_BITMASK : Z := 0x03.
Definition ATTR_RAN_MULTIPLIER : Z := 0x04.
Definition ATTR_SLOT_BITMASK : Z := 0x05.
Definition ATTR_SYNC_CODE_INDEX_BITMASK : Z := 0x06.
Definition ATTR_SYNC_CODE_INDEX : Z := 0x07.
Definition ATTR_HOPPING_CONFIGURATION_BITMASK : Z := 0x08.
Definition ATTR_NUMBER_CHAPS_PER_SLOT : Z := 0x09.
Definition ATTR_NUMBER_RESPONDERS_NODES : Z := 0x0A.
Definition ATTR_NUMBER_SLOTS_PER_ROUND : Z := 0x0B.
Definition ATTR_STS_INDEX0 : Z := 0x0C.
Definition ATTR_UWB_TIME0 : Z := 0x0D.
Definition ATTR_HOP_MODE_KEY : Z := 0x0E.
Definition ATTR_MAC_MODE : Z := 0x0F.
Definition ATTR_VENDOR_SPECIFIC : Z := 0x10.
Definition ATTR_STATUS : Z := 0x11.
Definition ATTR_MAX : Z := 0x12.

Definition CHANNEL_BITMASK_CH5 : Z := 0x01.
Definition CHANNEL_BITMASK_CH9 : Z := 0x02.

Definition STATUS_ACCEPT : Z := 0.
Definition STATUS_REJECT : Z := 1.
Definition STATUS_UNKNOWN : Z := 0xFF.

Definition NOTIFICATION_EVENT : Z := 0x00.
Definition NOTIFICATION_RANGING : Z := 0x01.
Definition NOTIFICATION_READER_STATUS_CHANGED : Z := 0x02.
Definition NOTIFICATION_READER_STATUS_AP : Z := 0x03.

Definition EVENT_ATTR_GENERAL_ERROR : Z := 0x01.

Definition GENERAL_ERROR_UNKNOWN : Z := 0.

Definition RANGING_ATTR_INIT_RANGING : Z := 0x00.
Definition RANGING_ATTR_INIT_RANGING_RESUME : Z := 0x01.
Definition RANGING_ATTR_INIT_RANGING_SETUP_LATER : Z := 0x02.
Definition RANGING_ATTR_INIT_RANGING_RESUME_LATER : Z := 0x03.
Definition RANGING_ATTR_RANGING_SUSPENDED : Z := 0x05.

(** The header accessors. *)
Definition protocol_header (bytes : list Z) : Z := byte_at bytes 0.

Definition message_id (bytes : list Z) : Z := byte_at bytes 1.

Definition payload_length (bytes : list Z) : Z :=
  u16 (Z.lor (Z.shiftl (byte_at bytes 2) 8) (byte_at bytes 3)).

(** ** The parser *)

Record attribute := { at_id : Z; at_value : list Z }.

Definition at_length (a : attribute) : Z := zlen (at_value a).

(** [parser->length] is the length of the data. *)
Record msg_parser := { ps_data : list Z; ps_offset : Z }.

Definition PARSER_INIT (msg : list Z) : msg_parser :=
  {| ps_data := msg; ps_offset := HEADER_LENGTH |}.

Definition next_attribute (p : msg_parser) : msg_parser * option attribute :=
  let len := zlen (ps_data p) in
  if len <? ps_offset p + ATTRIBUTE_HEADER_LENGTH then (p, None)
  else
    let n := byte_at (ps_data p) (ps_offset p + 1) in
    let off := ps_offset p + ATTRIBUTE_HEADER_LENGTH + n in
    if len <? off then ({| ps_data := ps_data p; ps_offset := len |}, None)
    else
      ({| ps_data := ps_data p; ps_offset := off |},
       Some {| at_id := byte_at (ps_data p) (ps_offset p);
               at_value := take (Z.to_nat n)
                             (drop (Z.to_nat (ps_offset p + ATTRIBUTE_HEADER_LENGTH)) (ps_data p)) |}).

(** [while ((attr = next_attribute(&parser)))] with a body that goes on or
    returns. *)
Fixpoint each_attribute {S E} (fuel : nat) (p : msg_parser)
    (body : attribute -> S -> S * option E) (s : S) : S * option E :=
  match fuel with
  | O => (s, None)
  | Datatypes.S f =>
      match next_attribute p with
      | (_, None) => (s, None)
      | (p', Some a) =>
          match body a s with
          | (s', None) => each_attribute f p' body s'
          | (s', Some e) => (s', Some e)
          end
      end
  end.

Definition for_attributes {S E} (msg : list Z) (body : attribute -> S -> S * option E) (s : S)
    : S * option E :=
  each_attribute (length msg) (PARSER_INIT msg) body s.

Definition read_be (a : attribute) (width : Z) : option Z :=
  if at_length a =? width then Some (get_be (at_value a)) else None.

Definition read_u8 (a : attribute) : option Z := u8 <$> read_be a 1.
Definition read_u16 (a : attribute) : option Z := u16 <$> read_be a 2.
Definition read_u32 (a : attribute) : option Z := u32 <$> read_be a 4.
Definition read_u64 (a : attribute) : option Z := read_be a 8.

(** ** The builder *)

Record msg_builder := { mb_data : list Z; mb_capacity : Z }.

(** [room]: the allocation succeeds. *)
Definition builder_init (room : bool) (payload_len : Z) : option msg_builder :=
  if room then Some {| mb_data := []; mb_capacity := HEADER_LENGTH + u16 payload_len |} else None.

Definition builder_header (b : msg_builder) (protocol id plen : Z) : msg_builder :=
  {| mb_data := mb_data b ++ [protocol; id; u8 (Z.shiftr (u16 plen) 8); u8 (u16 plen)];
     mb_capacity := mb_capacity b |}.

Definition add_attribute (id len : Z) (value : list Z) (b : msg_builder) : option msg_builder :=
  if mb_capacity b <? zlen (mb_data b) + ATTRIBUTE_HEADER_LENGTH + len then None
  else Some {| mb_data := mb_data b ++ [id; len] ++ take (Z.to_nat len) value;
               mb_capacity := mb_capacity b |}.

Definition add_u8 (id v : Z) : msg_builder -> option msg_builder := add_attribute id 1 [v].
Definition add_u16 (id v : Z) : msg_builder -> option msg_builder := add_attribute id 2 (put_be 2 v).
Definition add_u32 (id v : Z) : msg_builder -> option msg_builder := add_attribute id 4 (put_be 4 v).
Definition add_u64 (id v : Z) : msg_builder -> option msg_builder := add_attribute id 8 (put_be 8 v).

(** The length of the local buffer is converted to [uint8_t]. *)
Definition add_u16_array (id : Z) (values : list Z) (b : msg_builder) : option msg_builder :=
  if zlen values =? 0 then None
  else
    let buf := values ≫= put_be 2 in
    add_attribute id (u8 (zlen buf)) buf b.

Definition add_bytes (id : Z) (values : list Z) : msg_builder -> option msg_builder :=
  add_attribute id (u8 (zlen values)) values.

(** What every builder of a message does: room for the payload, the header,
    the attributes. *)
Definition build_message (room : bool) (protocol id plen : Z)
    (fill : msg_builder -> option msg_builder) : option (list Z) :=
  b ← builder_init room plen;
  b ← fill (builder_header b protocol id plen);
  Some (mb_data b).

(** ** The reference reading of a payload *)

Fixpoint attributes_from (fuel : nat) (p : list Z) : list attribute :=
  match fuel, p with
  | S f, id :: n :: rest =>
      if n <=? zlen rest then
        {| at_id := id; at_value := take (Z.to_nat n) rest |} ::
        attributes_from f (drop (Z.to_nat n) rest)
      else []
  | _, _ => []
  end.

Definition attributes (payload : list Z) : list attribute :=
  attributes_from (length payload) payload.

Definition attribute_bytes (a : attribute) : list Z := at_id a :: at_length a :: at_value a.

(** The loop of a body over a list. *)
Fixpoint over_attributes {A S E} (body : A -> S -> S * option E) (l : list A) (s : S) : S * option E :=
  match l with
  | [] => (s, None)
  | a :: rest =>
      match body a s with
      | (s', None) => over_attributes body rest s'
      | (s', Some e) => (s', Some e)
      end
  end.

(** * The framing of the UWB messages

    The loop over the attributes reads what [attributes] reads, with fuel to
    spare, and a message put together by the builder is read back. *)

Local Open Scope Z_scope.

(** ** The loop *)

(** What is left behind the parser's offset. *)
Definition unread (p : msg_parser) : list Z := drop (Z.to_nat (ps_offset p)) (ps_data p).

Lemma byte_at_cons (p : list Z) k x l : drop k p = x :: l -> byte_at p (Z.of_nat k) = x.
Proof.
  intros H. unfold byte_at. rewrite Nat2Z.id. rewrite nth_lookup.
  replace (p !! k) with (drop k p !! 0%nat) by (rewrite lookup_drop; f_equal; lia). rewrite H. done.
Qed.

Lemma drop_cons_tail {A} (p : list A) k x l : drop k p = x :: l -> drop (S k) p = l.
Proof. intros H. replace (S k) with (k + 1)%nat by lia. rewrite <- drop_drop, H. done. Qed.

Lemma length_unread p : 0 <= ps_offset p -> Z.of_nat (length (unread p)) = Z.max 0 (zlen (ps_data p) - ps_offset p).
Proof. intros H. unfold unread, zlen. rewrite length_drop. lia. Qed.

(** One step of the parser is one step of the reference reading. *)
Lemma next_attribute_spec p : 0 <= ps_offset p ->
  match unread p with
  | id :: n :: rest =>
      0 <= n ->
      if n <=? zlen rest then
        exists q, next_attribute p = (q, Some {| at_id := id; at_value := take (Z.to_nat n) rest |})
                  /\ 0 <= ps_offset q /\ unread q = drop (Z.to_nat n) rest
      else (next_attribute p).2 = None
  | _ => (next_attribute p).2 = None
  end.
Proof.
  intros Ho. pose proof (length_unread p Ho) as Hl. unfold next_attribute, ATTRIBUTE_HEADER_LENGTH.
  destruct (unread p) as [|id [|n rest]] eqn:E; cbn [length] in Hl; try (rewrite (proj2 (Z.ltb_lt _ _)) by lia; done).
  rewrite (proj2 (Z.ltb_ge _ _)) by lia. intros Hn.
  unfold unread in E. assert (E1 := drop_cons_tail _ _ _ _ E). assert (E2 := drop_cons_tail _ _ _ _ E1).
  assert (B0 : byte_at (ps_data p) (ps_offset p) = id).
  { rewrite <- (Z2Nat.id (ps_offset p) Ho) at 1. exact (byte_at_cons _ _ _ _ E). }
  assert (B1 : byte_at (ps_data p) (ps_offset p + 1) = n).
  { replace (ps_offset p + 1) with (Z.of_nat (S (Z.to_nat (ps_offset p)))) by lia. exact (byte_at_cons _ _ _ _ E1). }
  rewrite B0, B1. replace (Z.to_nat (ps_offset p + 2)) with (S (S (Z.to_nat (ps_offset p)))) by lia. rewrite E2.
  destruct (Z.leb_spec n (zlen rest)) as [H|H]; unfold zlen in *.
  - rewrite (proj2 (Z.ltb_ge _ _)) by lia. eexists. split; [reflexivity|]. cbn. split; [lia|].
    unfold unread. cbn. rewrite <- E2. rewrite drop_drop. f_equal. lia.
  - rewrite (proj2 (Z.ltb_lt _ _)) by lia. done.
Qed.

Lemma each_attribute_spec {St Er} (body : attribute -> St -> St * option Er) fuel f p s :
  0 <= ps_offset p -> Forall byte_ok (unread p) ->
  (length (unread p) <= fuel)%nat -> (length (unread p) <= f)%nat ->
  each_attribute (S fuel) p body s = over_attributes body (attributes_from f (unread p)) s.
Proof.
  revert f p s. induction fuel as [|fuel IH]; intros f p s Ho Hb Hf Hg;
    pose proof (next_attribute_spec p Ho) as N; destruct (unread p) as [|id [|n rest]] eqn:E;
    try (cbn [each_attribute]; destruct (next_attribute p) as [q o] eqn:Q; cbn in N; subst o; destruct f; done).
  - cbn in Hf. lia.
  - destruct f as [|f]; [cbn in Hg; lia|].
    apply list.Forall_cons in Hb as [_ Hb]. apply list.Forall_cons in Hb as [Hn Hb]. specialize (N (proj1 Hn)).
    cbn [attributes_from]. destruct (n <=? zlen rest) eqn:L.
    + destruct N as [q [N [Hq U]]].
      assert (Hd : (length (drop (Z.to_nat n) rest) <= length rest)%nat) by (rewrite length_drop; lia).
      cbn [length] in Hf, Hg.
      change (each_attribute (S (S fuel)) p body s) with
        (match next_attribute p with
         | (_, None) => (s, None)
         | (p', Some a) => match body a s with
                           | (s', None) => each_attribute (S fuel) p' body s'
                           | (s', Some e) => (s', Some e)
                           end
         end).
      rewrite N. cbn [over_attributes]. destruct (body _ s) as [s' [e|]]; [done|].
      rewrite <- U in Hd |- *. apply IH; [done| |lia|lia]. rewrite U. by apply Forall_drop.
    + cbn [each_attribute]. destruct (next_attribute p) as [q o] eqn:Q. cbn in N. subst o. done.
Qed.

Lemma attributes_from_fuel f g p : (length p <= f)%nat -> (length p <= g)%nat ->
  attributes_from f p = attributes_from g p.
Proof.
  revert g p. induction f as [|f IH]; intros g p Hf Hg.
  - destruct p; [|cbn in Hf; lia]. destruct g; done.
  - destruct p as [|id [|n rest]]; [destruct g; done|destruct g; done|].
    destruct g as [|g]; [cbn in Hg; lia|]. cbn [attributes_from]. cbn [length] in *.
    destruct (n <=? zlen rest); [|done]. f_equal.
    apply IH; rewrite length_drop; lia.
Qed.

(** The payload of a message. *)
Definition payload_of (msg : list Z) : list Z := drop (Z.to_nat HEADER_LENGTH) msg.

Lemma for_attributes_over {St Er} (body : attribute -> St -> St * option Er) msg s : Forall byte_ok msg ->
  for_attributes msg body s = over_attributes body (attributes (payload_of msg)) s.
Proof.
  intros Hb. unfold for_attributes. assert (U : unread (PARSER_INIT msg) = payload_of msg) by done.
  destruct msg as [|x msg]; [done|]. cbn [length].
  rewrite (each_attribute_spec body (length msg) (length (payload_of (x :: msg))) (PARSER_INIT (x :: msg)));
    rewrite ?U; [done|done|by apply Forall_drop| |lia].
  unfold payload_of. rewrite length_drop. change (Z.to_nat HEADER_LENGTH) with 4%nat. cbn [length]. lia.
Qed.

(** ** Round trips *)

Definition attribute_ok (a : attribute) : Prop :=
  byte_ok (at_id a) /\ Forall byte_ok (at_value a) /\ zlen (at_value a) < 256.

Lemma attributes_step f id n rest : attributes_from (S f) (id :: n :: rest) =
  if n <=? zlen rest then {| at_id := id; at_value := take (Z.to_nat n) rest |} :: attributes_from f (drop (Z.to_nat n) rest)
  else [].
Proof. reflexivity. Qed.

Lemma attributes_cons a l : attributes (attribute_bytes a ++ l) = a :: attributes l.
Proof.
  destruct a as [id v]. unfold attributes, attribute_bytes, at_length. cbn [at_id at_value app length].
  rewrite attributes_step, zlen_app. unfold zlen.
  rewrite (proj2 (Z.leb_le _ _)) by lia. rewrite Nat2Z.id, take_app_length, drop_app_length. f_equal.
  apply attributes_from_fuel; rewrite ?length_app; lia.
Qed.

Lemma attributes_bytes l : attributes (l ≫= attribute_bytes) = l.
Proof. induction l as [|a l IH]; [done|]. cbn [mbind list_bind]. by rewrite attributes_cons, IH. Qed.

(** An attribute that fits. *)
Lemma add_attribute_fits id len v b : zlen v = len -> zlen (mb_data b) + 2 + len <= mb_capacity b ->
  add_attribute id len v b = Some {| mb_data := mb_data b ++ attribute_bytes {| at_id := id; at_value := v |};
                                      mb_capacity := mb_capacity b |}.
Proof.
  intros Hl Hc. unfold add_attribute, ATTRIBUTE_HEADER_LENGTH. rewrite (proj2 (Z.ltb_ge _ _)) by lia.
  unfold attribute_bytes, at_length. cbn. rewrite Hl. unfold zlen in Hl.
  replace (Z.to_nat len) with (length v) by lia. by rewrite firstn_all.
Qed.

Lemma zlen_entries values : zlen (values ≫= put_be 2) = 2 * zlen values.
Proof.
  induction values as [|x l IH]; [done|]. cbn [mbind list_bind]. rewrite zlen_app, zlen_cons, IH, zlen_put_be. lia.
Qed.

Lemma add_u16_array_fits id values b :
  values <> [] -> 2 * zlen values < 256 -> zlen (mb_data b) + 2 + 2 * zlen values <= mb_capacity b ->
  add_u16_array id values b = Some {| mb_data := mb_data b ++ attribute_bytes {| at_id := id; at_value := values ≫= put_be 2 |};
                                      mb_capacity := mb_capacity b |}.
Proof.
  intros Hn H1 H2. unfold add_u16_array. pose proof (zlen_entries values) as L. pose proof (zlen_nonneg values).
  rewrite (proj2 (Z.eqb_neq _ _)) by (destruct values; [done|]; rewrite zlen_cons; pose proof (zlen_nonneg values); lia).
  rewrite wrap_id by (unfold in_u; lia). apply add_attribute_fits; lia.
Qed.

Lemma add_bytes_fits id values b :
  zlen values < 256 -> zlen (mb_data b) + 2 + zlen values <= mb_capacity b ->
  add_bytes id values b = Some {| mb_data := mb_data b ++ attribute_bytes {| at_id := id; at_value := values |};
                                  mb_capacity := mb_capacity b |}.
Proof.
  intros H1 H2. unfold add_bytes. pose proof (zlen_nonneg values).
  rewrite wrap_id by (unfold in_u; lia). by apply add_attribute_fits.
Qed.

Lemma attribute_bytes_ok a : attribute_ok a -> Forall byte_ok (attribute_bytes a).
Proof.
  intros (H1 & H2 & H3). unfold attribute_bytes, at_length. pose proof (zlen_nonneg (at_value a)).
  repeat constructor; try apply H1; try (unfold byte_ok; lia). done.
Qed.

Lemma attributes_bytes_ok l : Forall attribute_ok l -> Forall byte_ok (l ≫= attribute_bytes).
Proof.
  induction 1 as [|a l Ha _ IH]; [constructor|]. cbn [mbind list_bind]. apply list.Forall_app. split; [|done].
  by apply attribute_bytes_ok.
Qed.

(** A message with a header and the bytes of attributes. *)
Definition message (protocol id plen : Z) (l : list attribute) : list Z :=
  [protocol; id; u8 (Z.shiftr (u16 plen) 8); u8 (u16 plen)] ++ (l ≫= attribute_bytes).

Lemma payload_of_message protocol id plen l : payload_of (message protocol id plen l) = l ≫= attribute_bytes.
Proof. done. Qed.

Lemma message_ok protocol id plen l : byte_ok protocol -> byte_ok id -> Forall attribute_ok l ->
  Forall byte_ok (message protocol id plen l).
Proof.
  intros H1 H2 H3. unfold message. apply list.Forall_app. split; [|by apply attributes_bytes_ok].
  repeat constructor; try apply H1; try apply H2; apply (wrap_range 8); lia.
Qed.

Lemma message_payload_length protocol id plen l : 0 <= plen < 65536 ->
  payload_length (message protocol id plen l) = plen.
Proof.
  intros H. unfold payload_length, message, byte_at. change (Z.to_nat 2) with 2%nat. change (Z.to_nat 3) with 3%nat.
  cbn [nth app].
  rewrite (wrap_id 16 plen) by (unfold in_u; lia).
  rewrite (lor_shiftl_add _ _ 8); [|lia|apply (wrap_range 8); lia].
  rewrite Z.shiftr_div_pow2 by lia. unfold wrap. change (2 ^ 8) with 256. change (2 ^ 16) with 65536.
  rewrite (Z.mod_small (plen / 256)) by zdiv. rewrite Z.mod_small; zdiv.
Qed.

(** The loop over a message that is the bytes of attributes. *)
Lemma for_attributes_message {St Er} (body : attribute -> St -> St * option Er) protocol id plen l s :
  byte_ok protocol -> byte_ok id -> Forall attribute_ok l ->
  for_attributes (message protocol id plen l) body s = over_attributes body l s.
Proof.
  intros H1 H2 H3. rewrite for_attributes_over by (by apply message_ok).
  by rewrite payload_of_message, attributes_bytes.
Qed.

(** * The device's side of the ranging setup

    Models [modules/ultrawidelock_uwb/src/cred/ultrawidelock_device_uwb.c]: the
    parsers of the reader's M1 and M3, the device's choice, and the builders of
    M2 and M4.  A parsed structure is built up field by field as the attributes
    come; a result of -1 is [None]. *)

Local Open Scope Z_scope.
Local Open Scope uwl_scope.

Definition DEV_UWB_MAX_CONFIGS : nat := 8.
Definition DEV_UWB_MAX_COMBOS : nat := 8.

Record dev_uwb_m1 := {
  m1_config_ids : list Z;
  m1_pulse_shape_combos : list Z;
  m1_channel_bitmask : Z;
  m1_session_id : Z;
}.

#[export] Instance dev_uwb_m1_eta : Eta dev_uwb_m1 := fun m =>
  {| m1_config_ids := m1_config_ids m; m1_pulse_shape_combos := m1_pulse_shape_combos m;
     m1_channel_bitmask := m1_channel_bitmask m; m1_session_id := m1_session_id m |}.

Record dev_uwb_m3 := {
  m3_ran_multiplier : Z;
  m3_chaps_per_slot : Z;
  m3_num_responders : Z;
  m3_slots_per_round : Z;
  m3_sync_code_index_bitmask : Z;
  m3_hopping_config_bitmask : Z;
  m3_mac_mode : Z;
}.

#[export] Instance dev_uwb_m3_eta : Eta dev_uwb_m3 := fun m =>
  {| m3_ran_multiplier := m3_ran_multiplier m; m3_chaps_per_slot := m3_chaps_per_slot m;
     m3_num_responders := m3_num_responders m; m3_slots_per_round := m3_slots_per_round m;
     m3_sync_code_index_bitmask := m3_sync_code_index_bitmask m;
     m3_hopping_config_bitmask := m3_hopping_config_bitmask m; m3_mac_mode := m3_mac_mode m |}.

Record dev_uwb_m2_params := {
  m2_config_id : Z;
  m2_pulse_shape_combo : Z;
  m2_channel_bitmask : Z;
  m2_ran_multiplier : Z;
  m2_slot_bitmask : Z;
  m2_sync_code_index_bitmask : Z;
  m2_hopping_config_bitmask : Z;
}.

Record dev_uwb_m4_params := {
  m4_sts_index0 : Z;
  m4_uwb_time0 : Z;
  m4_hop_mode_key : Z;
  m4_sync_code_index : Z;
}.

(** The guard both parsers start with. *)
Definition ranging_message (id : Z) (msg : list Z) : bool :=
  negb (zlen msg <? HEADER_LENGTH) && (protocol_header msg =? PROTOCOL_RANGING_SERVICE)
  && (message_id msg =? id).

(** ** M1 *)

(** The big-endian 16-bit entries, as many as the array still takes. *)
Fixpoint config_entries (room : nat) (v : list Z) : list Z :=
  match room, v with
  | S r, hi :: lo :: rest => u16 (Z.lor (Z.shiftl hi 8) lo) :: config_entries r rest
  | _, _ => []
  end.

Record m1_progress := { mp_m1 : dev_uwb_m1; mp_have_channel : bool; mp_have_session : bool }.

#[export] Instance m1_progress_eta : Eta m1_progress := fun m =>
  {| mp_m1 := mp_m1 m; mp_have_channel := mp_have_channel m; mp_have_session := mp_have_session m |}.

Definition parse_m1_attribute (a : attribute) (s : m1_progress) : m1_progress * option unit :=
  let m := mp_m1 s in
  if at_id a =? ATTR_CONFIGURATION_IDENTIFIER then
    let room := (DEV_UWB_MAX_CONFIGS - length (m1_config_ids m))%nat in
    (s <| mp_m1 := m <| m1_config_ids := m1_config_ids m ++ config_entries room (at_value a) |> |>, None)
  else if at_id a =? ATTR_PULSE_SHAPE_COMBO then
    let room := (DEV_UWB_MAX_COMBOS - length (m1_pulse_shape_combos m))%nat in
    (s <| mp_m1 := m <| m1_pulse_shape_combos := m1_pulse_shape_combos m ++ take room (at_value a) |> |>, None)
  else if at_id a =? ATTR_CHANNEL_BITMASK then
    match read_u8 a with
    | None => (s, Some tt)
    | Some v => (s <| mp_m1 := m <| m1_channel_bitmask := v |> |> <| mp_have_channel := true |>, None)
    end
  else if at_id a =? ATTR_SESSION_IDENTIFIER then
    match read_u32 a with
    | None => (s, Some tt)
    | Some v => (s <| mp_m1 := m <| m1_session_id := v |> |> <| mp_have_session := true |>, None)
    end
  else (s, None).

Definition m1_start : m1_progress :=
  {| mp_m1 := {| m1_config_ids := []; m1_pulse_shape_combos := []; m1_channel_bitmask := 0; m1_session_id := 0 |};
     mp_have_channel := false; mp_have_session := false |}.

Definition dev_uwb_parse_m1 (msg : list Z) : option dev_uwb_m1 :=
  if ranging_message SETUP_M1 msg then
    match for_attributes msg parse_m1_attribute m1_start with
    | (_, Some _) => None
    | (s, None) =>
        if mp_have_channel s && mp_have_session s && (0 <? zlen (m1_config_ids (mp_m1 s)))
        then Some (mp_m1 s) else None
    end
  else None.

(** ** M3 *)

Definition m3_field (set : Z -> dev_uwb_m3 -> dev_uwb_m3) (read : attribute -> option Z) (a : attribute)
    (s : dev_uwb_m3 * Z) : dev_uwb_m3 * Z * option unit :=
  match read a with
  | None => (s, Some tt)
  | Some v => ((set v s.1, Z.lor s.2 (Z.shiftl 1 (at_id a))), None)
  end.

Definition parse_m3_attribute (a : attribute) (s : dev_uwb_m3 * Z) : dev_uwb_m3 * Z * option unit :=
  if at_id a =? ATTR_RAN_MULTIPLIER then
    m3_field (fun v m => m <| m3_ran_multiplier := v |>) read_u8 a s
  else if at_id a =? ATTR_NUMBER_CHAPS_PER_SLOT then
    m3_field (fun v m => m <| m3_chaps_per_slot := v |>) read_u8 a s
  else if at_id a =? ATTR_NUMBER_RESPONDERS_NODES then
    m3_field (fun v m => m <| m3_num_responders := v |>) read_u8 a s
  else if at_id a =? ATTR_NUMBER_SLOTS_PER_ROUND then
    m3_field (fun v m => m <| m3_slots_per_round := v |>) read_u8 a s
  else if at_id a =? ATTR_SYNC_CODE_INDEX_BITMASK then
    m3_field (fun v m => m <| m3_sync_code_index_bitmask := v |>) read_u32 a s
  else if at_id a =? ATTR_HOPPING_CONFIGURATION_BITMASK then
    m3_field (fun v m => m <| m3_hopping_config_bitmask := v |>) read_u8 a s
  else if at_id a =? ATTR_MAC_MODE then
    m3_field (fun v m => m <| m3_mac_mode := v |>) read_u8 a s
  else (s, None).

(** Bit [i] is set for every listed attribute [i]. *)
Definition mask_of (ids : list Z) : Z := fold_left (fun m i => Z.lor m (Z.shiftl 1 i)) ids 0.

Definition m3_need : Z :=
  mask_of [ATTR_RAN_MULTIPLIER; ATTR_NUMBER_CHAPS_PER_SLOT; ATTR_NUMBER_RESPONDERS_NODES;
           ATTR_NUMBER_SLOTS_PER_ROUND; ATTR_MAC_MODE].

Definition m3_start : dev_uwb_m3 :=
  {| m3_ran_multiplier := 0; m3_chaps_per_slot := 0; m3_num_responders := 0; m3_slots_per_round := 0;
     m3_sync_code_index_bitmask := 0; m3_hopping_config_bitmask := 0; m3_mac_mode := 0 |}.

Definition dev_uwb_parse_m3 (msg : list Z) : option dev_uwb_m3 :=
  if ranging_message SETUP_M3 msg then
    match for_attributes msg parse_m3_attribute (m3_start, 0) with
    | (_, Some _) => None
    | ((m, seen), None) => if Z.land seen m3_need =? m3_need then Some m else None
    end
  else None.

(** ** M2 and M4 *)

Definition dev_uwb_select_m2 (m1 : dev_uwb_m1) : dev_uwb_m2_params :=
  let offers bit := negb (Z.land (m1_channel_bitmask m1) bit =? 0) in
  {| m2_config_id := match m1_config_ids m1 with c :: _ => c | [] => 0x0001 end;
     m2_pulse_shape_combo := match m1_pulse_shape_combos m1 with c :: _ => c | [] => 0x00 end;
     m2_channel_bitmask :=
       if offers CHANNEL_BITMASK_CH5 && negb (offers CHANNEL_BITMASK_CH9)
       then CHANNEL_BITMASK_CH5 else CHANNEL_BITMASK_CH9;
     m2_ran_multiplier := 4;
     m2_slot_bitmask := 0x01;
     m2_sync_code_index_bitmask := 0x00000005;
     m2_hopping_config_bitmask := 0xFF |}.

Definition dev_uwb_build_m2 (room : bool) (p : dev_uwb_m2_params) : option (list Z) :=
  build_message room PROTOCOL_RANGING_SERVICE SETUP_M2 (2 + 1 + 1 + 1 + 1 + 4 + 1 + 7 * ATTRIBUTE_HEADER_LENGTH)
    (fun b =>
       b ← add_u16 ATTR_CONFIGURATION_IDENTIFIER (m2_config_id p) b;
       b ← add_u8 ATTR_PULSE_SHAPE_COMBO (m2_pulse_shape_combo p) b;
       b ← add_u8 ATTR_CHANNEL_BITMASK (m2_channel_bitmask p) b;
       b ← add_u8 ATTR_RAN_MULTIPLIER (m2_ran_multiplier p) b;
       b ← add_u8 ATTR_SLOT_BITMASK (m2_slot_bitmask p) b;
       b ← add_u32 ATTR_SYNC_CODE_INDEX_BITMASK (m2_sync_code_index_bitmask p) b;
       add_u8 ATTR_HOPPING_CONFIGURATION_BITMASK (m2_hopping_config_bitmask p) b).

Definition dev_uwb_build_m4 (room : bool) (p : dev_uwb_m4_params) : option (list Z) :=
  build_message room PROTOCOL_RANGING_SERVICE SETUP_M4 (4 + 8 + 4 + 1 + 4 * ATTRIBUTE_HEADER_LENGTH)
    (fun b =>
       b ← add_u32 ATTR_STS_INDEX0 (m4_sts_index0 p) b;
       b ← add_u64 ATTR_UWB_TIME0 (m4_uwb_time0 p) b;
       b ← add_u32 ATTR_HOP_MODE_KEY (m4_hop_mode_key p) b;
       add_u8 ATTR_SYNC_CODE_INDEX (m4_sync_code_index p) b).
