(* ===== verification/CccKdf.v ===== *)
(** * The UWB key schedule and the SP0 frame cipher

    Models [modules/ultrawidelock_uwb/src/ccc/ccc_kdf.c]: AES-CMAC, the
    counter-mode key derivation, every key and address derived from the URSK,
    and AES-CCM* of the data frames.  The AES block function is
    [crypto_aes_ecb_encrypt], the class [BlockCipher] of MatterCrypto.v;
    [key_bits] is eight times the length of the key.  A non-zero return is
    [None], except for [ccc_sp0_decrypt], whose caller is told apart a bad MIC
    and a bad length.  The counter-mode loop over a frame is [ctr_loop] of
    MatterCrypto.v: the counter block holds the low 16 bits of the index. *)

From Stdlib Require Import ZArith Lia Bool.
From stdpp Require Import base list numbers option.
From S2P Require Import Prelude Wire MatterCrypto.

Local Open Scope Z_scope.

Definition CMAC_RB : Z := 0x87.
Definition KDF_INPUT_MAX : Z := 48.
Definition CCC_SP0_MIC_LEN : nat := 8.
Definition SP0_SEC_LEVEL : Z := 0x06.
Definition CCM_SCRATCH_MAX : Z := 128.

Definition LBL_UPSK : list Z := [0x55; 0x50; 0x53; 0x4B].
Definition LBL_URSK : list Z := [0x55; 0x52; 0x53; 0x4B].
Definition LBL_UDSK : list Z := [0x55; 0x44; 0x53; 0x4B].
Definition LBL_SALT : list Z := [0x53; 0x41; 0x4C; 0x54].
Definition LBL_URSK_KT : list Z := [0x55; 0x52; 0x53; 0x4B; 0x5F; 0x4B; 0x54].
Definition LBL_UAD : list Z := [0x55; 0x41; 0x44].
Definition CTX_ZERO3 : list Z := [0x00; 0x00; 0x00].
Definition L_UPSK : Z := 0x00000180.
Definition L_256BIT : Z := 0x00000100.
Definition L_128BIT : Z := 0x00000080.

(** ** AES-CMAC *)

(** One-bit left shift, from the last byte to the first: the bit shifted
    out and the shifted block. *)
Fixpoint block_lshift1 (b : list Z) : Z * list Z :=
  match b with
  | [] => (0, [])
  | x :: r =>
      let shifted := block_lshift1 r in
      (u8 (Z.shiftr x 7), u8 (Z.lor (Z.shiftl x 1) shifted.1) :: shifted.2)
  end.

Definition cmac_subkey (l : list Z) : list Z :=
  let shifted := block_lshift1 l in
  let mask := u8 (0 - Z.land shifted.1 1) in
  alter (fun c => Z.lxor c (Z.land CMAC_RB mask)) (AES_BLOCK - 1)%nat shifted.2.

Definition cmac_pad (rest : list Z) : list Z :=
  rest ++ 0x80 :: replicate (AES_BLOCK - 1 - length rest) 0.

Definition be32 (v : Z) : list Z := put_be 4 (u32 v).

Section Kdf.
Context `{C : BlockCipher}.

(** The whole blocks but the last. *)
Fixpoint cmac_chain (full : nat) (key x msg : list Z) : option (list Z) :=
  match full with
  | O => Some x
  | S n => x ← aes_ecb key (xor_bytes x (take AES_BLOCK msg)); cmac_chain n key x (drop AES_BLOCK msg)
  end.

Definition ccc_aes_cmac (key msg : list Z) : option (list Z) :=
  l ← aes_ecb key (replicate AES_BLOCK 0);
  let k1 := cmac_subkey l in
  let k2 := cmac_subkey k1 in
  let full := match msg with [] => O | _ => ((length msg - 1) / AES_BLOCK)%nat end in
  x ← cmac_chain full key (replicate AES_BLOCK 0) msg;
  let rest := drop (full * AES_BLOCK) msg in
  let last :=
    if (length rest =? AES_BLOCK)%nat then xor_bytes rest k1 else xor_bytes (cmac_pad rest) k2 in
  aes_ecb key (xor_bytes x last).

(** ** Counter-mode derivation *)

Definition kdf_input (counter : Z) (label context : list Z) (l_bits : Z) : list Z :=
  be32 counter ++ label ++ [0x00] ++ context ++ be32 l_bits.

Definition kdf108_block (kdk : list Z) (counter : Z) (label context : list Z) (l_bits : Z) : option (list Z) :=
  if KDF_INPUT_MAX <? 4 + zlen label + 1 + zlen context + 4 then None
  else ccc_aes_cmac kdk (kdf_input counter label context l_bits).

(** Two blocks, under consecutive counters. *)
Definition kdf108_pair (kdk : list Z) (counter : Z) (label context : list Z) (l_bits : Z) : option (list Z) :=
  a ← kdf108_block kdk counter label context l_bits;
  b ← kdf108_block kdk (counter + 1) label context l_bits;
  Some (a ++ b).

Definition ccc_derive_mupsk1 (ursk : list Z) : option (list Z) :=
  kdf108_block ursk 1 LBL_UPSK CTX_ZERO3 L_UPSK.

Definition ccc_derive_mupsk2 (ursk : list Z) : option (list Z) :=
  kdf108_pair ursk 2 LBL_UPSK CTX_ZERO3 L_UPSK.

Definition ccc_derive_mursk (ursk : list Z) : option (list Z) :=
  kdf108_pair ursk 1 LBL_URSK CTX_ZERO3 L_256BIT.

Definition ccc_derive_salted_hash (ursk ranging_config : list Z) : option (list Z) :=
  salt ← kdf108_block ursk 1 LBL_SALT CTX_ZERO3 L_128BIT;
  ccc_aes_cmac (replicate 16 0 ++ salt) ranging_config.

(** The bits of the index, most significant first, a byte each. *)
Definition sts_index_bits (sts_index : Z) : list Z :=
  map (fun b => Z.land (Z.shiftr sts_index (31 - Z.of_nat b)) 1) (seq 0 32).

Definition ccc_derive_ursk_kt (mursk : list Z) (sts_index : Z) : option (list Z) :=
  kdf108_pair mursk 1 LBL_URSK_KT (sts_index_bits sts_index) L_256BIT.

Definition derive_dkey (ursk_kt label salted_hash : list Z) : option (list Z) :=
  kdf108_block ursk_kt 1 label (salted_hash ++ CTX_ZERO3) L_128BIT.

Definition ccc_derive_dursk (ursk_kt salted_hash : list Z) : option (list Z) :=
  derive_dkey ursk_kt LBL_URSK salted_hash.

Definition ccc_derive_dudsk (ursk_kt salted_hash : list Z) : option (list Z) :=
  derive_dkey ursk_kt LBL_UDSK salted_hash.

(** Bytes 8 to 11 advance by the index, modulo [2^32]. *)
Definition ccc_derive_sts_v (salted_hash : list Z) (sts_index : Z) : list Z :=
  take 8 salted_hash ++ be32 (get_be (take 4 (drop 8 salted_hash)) + sts_index) ++ drop 12 salted_hash.

Definition ccc_derive_uad (mupsk2 : list Z) (sts_index0 : Z) : option (list Z) :=
  kdf108_block mupsk2 1 LBL_UAD (be32 sts_index0) L_128BIT.

(** ** The UWB addresses *)

Definition remap_if_reserved (addr : list Z) : list Z :=
  let reserved :=
    if (length addr =? 2)%nat then (byte_at addr 0 =? 0xFF) && (0xFE <=? byte_at addr 1)
    else forallb (fun c => c =? 0xFF) addr in
  let m := if reserved then 0xFF else 0x00 in
  alter (fun c => Z.land c (Z.lxor 0xFF (Z.land m 0x80))) 0%nat addr.

(** [ccc_uad_addresses]: the key source, the destination's short address and
    the source's long address. *)
Definition ccc_uad_addresses (uad : list Z) : list Z * list Z * list Z :=
  let ks_low := remap_if_reserved (take 2 uad) in
  let ks_high := remap_if_reserved (take 2 (drop 2 uad)) in
  (ks_high ++ ks_low, remap_if_reserved (take 2 (drop 4 uad)), remap_if_reserved (take 8 (drop 6 uad))).

(** ** The SP0 frame cipher *)

Definition sp0_nonce (src_long_addr : list Z) (frame_counter : Z) : list Z :=
  src_long_addr ++ be32 frame_counter ++ [SP0_SEC_LEVEL].

Definition sp0_b0 (nonce : list Z) (payload_len : Z) : list Z :=
  [u8 (Z.lor (Z.lor 0x40 (Z.shiftl ((Z.of_nat CCC_SP0_MIC_LEN - 2) / 2) 3)) (CCM_L - 1))]
  ++ nonce ++ [u8 (Z.shiftr payload_len 8); u8 payload_len].

(** The blocks of a section, the last zero-padded. *)
Fixpoint sp0_section (fuel : nat) (key tag data : list Z) : option (list Z) :=
  match fuel, data with
  | S f, _ :: _ =>
      let blk := take AES_BLOCK data in
      tag ← aes_ecb key (xor_bytes tag (blk ++ replicate (AES_BLOCK - length blk) 0));
      sp0_section f key tag (drop AES_BLOCK data)
  | _, _ => Some tag
  end.

Definition sp0_cbc_mac (key nonce mhr payload : list Z) : option (list Z) :=
  tag ← aes_ecb key (sp0_b0 nonce (zlen payload));
  tag ← (if 0 <? zlen mhr then
           let aad := [u8 (Z.shiftr (zlen mhr) 8); u8 (zlen mhr)] ++ mhr in
           sp0_section (length aad) key tag aad
         else Some tag);
  sp0_section (length payload) key tag payload.

(** The key stream over the data, and [S0]. *)
Definition sp0_ctr (key nonce data : list Z) : option (list Z * list Z) :=
  s0 ← aes_ecb key (ctr_block nonce 0);
  out ← ctr_loop (length data) key nonce 1 data;
  Some (out, s0).

Inductive sp0_result := SP0_OK (payload : list Z) | SP0_EBADMSG | SP0_E2BIG | SP0_ECIPHER.

Definition sp0_too_big (mhr data : list Z) : bool :=
  (0xFF00 <=? zlen mhr) || (CCM_SCRATCH_MAX <? zlen mhr) || (CCM_SCRATCH_MAX <? zlen data).

Definition ccc_sp0_encrypt (key src_long_addr : list Z) (frame_counter : Z) (mhr payload : list Z)
    : option (list Z * list Z) :=
  if sp0_too_big mhr payload then None
  else
    let nonce := sp0_nonce src_long_addr frame_counter in
    x ← sp0_cbc_mac key nonce mhr payload;
    c ← sp0_ctr key nonce payload;
    Some (c.1, xor_bytes (take CCC_SP0_MIC_LEN x) c.2).

Definition ccc_sp0_decrypt (key src_long_addr : list Z) (frame_counter : Z) (mhr ciphertext mic : list Z)
    : sp0_result :=
  if sp0_too_big mhr ciphertext then SP0_E2BIG
  else
    let nonce := sp0_nonce src_long_addr frame_counter in
    match sp0_ctr key nonce ciphertext with
    | None => SP0_ECIPHER
    | Some (payload, s0) =>
        match sp0_cbc_mac key nonce mhr payload with
        | None => SP0_ECIPHER
        | Some x =>
            if tag_equal (xor_bytes (take CCC_SP0_MIC_LEN x) s0) mic then SP0_OK payload else SP0_EBADMSG
        end
    end.
End Kdf.

(** * From STS indices to STS keys

    Models [modules/ultrawidelock_uwb/src/ccc/ccc_shim.c]: the key material a
    ranging session is bound to, the derivation of the key and the vector of
    one frame from its STS index, with the one-deep caches of the per-cycle
    keys, and the calibration of the radio blob's own index.  A valid flag with
    its base and its key is an option; an error return is [None]. *)

Local Open Scope Z_scope.
Local Open Scope uwl_scope.

Record ccc_shim := {
  sh_active : bool;
  sh_sts_index0 : Z;
  sh_n_slot_per_round : Z;
  sh_mursk : list Z;
  sh_salted_hash : list Z;
  sh_cache : option (Z * list Z);
  sh_cache_dudsk : option (Z * list Z);
  sh_calib : Z;
  sh_blob_origin : Z;
  sh_blob_stride : Z;
  sh_pinned : bool;
  sh_pin_index : Z;
  sh_suspend : bool;
}.

#[export] Instance ccc_shim_eta : Eta ccc_shim := fun g =>
  {| sh_active := sh_active g; sh_sts_index0 := sh_sts_index0 g; sh_n_slot_per_round := sh_n_slot_per_round g;
     sh_mursk := sh_mursk g; sh_salted_hash := sh_salted_hash g; sh_cache := sh_cache g;
     sh_cache_dudsk := sh_cache_dudsk g; sh_calib := sh_calib g; sh_blob_origin := sh_blob_origin g;
     sh_blob_stride := sh_blob_stride g; sh_pinned := sh_pinned g; sh_pin_index := sh_pin_index g;
     sh_suspend := sh_suspend g |}.

(** [ccc_shim_unbind]: every field zero. *)
Definition ccc_shim_unbound : ccc_shim :=
  {| sh_active := false; sh_sts_index0 := 0; sh_n_slot_per_round := 0; sh_mursk := replicate 32 0;
     sh_salted_hash := replicate 16 0; sh_cache := None; sh_cache_dudsk := None; sh_calib := 0;
     sh_blob_origin := 0; sh_blob_stride := 0; sh_pinned := false; sh_pin_index := 0; sh_suspend := false |}.

Definition ccc_shim_bind (mursk salted_hash : list Z) (sts_index0 n_slot_per_round : Z) (g : ccc_shim)
    : option ccc_shim :=
  if n_slot_per_round =? 0 then None
  else
    Some (g <| sh_mursk := mursk |> <| sh_salted_hash := salted_hash |> <| sh_sts_index0 := sts_index0 |>
            <| sh_n_slot_per_round := n_slot_per_round |> <| sh_cache := None |> <| sh_cache_dudsk := None |>
            <| sh_calib := 0 |> <| sh_active := true |>).

Definition ccc_shim_active (g : ccc_shim) : bool := sh_active g && negb (sh_suspend g).

Definition ccc_shim_suspend (suspend : bool) (g : ccc_shim) : ccc_shim := g <| sh_suspend := suspend |>.

(** The first index of the ranging cycle an index falls into. *)
Definition cycle_base (g : ccc_shim) (sts_index : Z) : Z :=
  u32 (sts_index - u32 (sts_index - sh_sts_index0 g) mod sh_n_slot_per_round g).

Section Shim.
Context `{C : BlockCipher}.

Definition ccc_shim_bind_from_ursk (ursk ranging_config : list Z) (sts_index0 n_slot_per_round : Z) (g : ccc_shim)
    : option ccc_shim :=
  mursk ← ccc_derive_mursk ursk;
  salted_hash ← ccc_derive_salted_hash ursk ranging_config;
  ccc_shim_bind mursk salted_hash sts_index0 n_slot_per_round g.

(** The key of the cycle that starts at [base], from the cache or anew. *)
Definition cycle_key (derive : list Z -> list Z -> option (list Z)) (cache : option (Z * list Z))
    (g : ccc_shim) (base : Z) : option (list Z) :=
  match cache with
  | Some (b, k) => if b =? base then Some k else
      (kt ← ccc_derive_ursk_kt (sh_mursk g) base; derive kt (sh_salted_hash g))
  | None => kt ← ccc_derive_ursk_kt (sh_mursk g) base; derive kt (sh_salted_hash g)
  end.

Definition ccc_shim_sts_for_index (sts_index : Z) (g : ccc_shim) : ccc_shim * option (list Z * list Z) :=
  if negb (sh_active g) then (g, None)
  else
    let base := cycle_base g sts_index in
    match cycle_key ccc_derive_dursk (sh_cache g) g base with
    | None => (g, None)
    | Some k => (g <| sh_cache := Some (base, k) |>, Some (k, ccc_derive_sts_v (sh_salted_hash g) sts_index))
    end.

Definition ccc_shim_dudsk_for_index (sts_index : Z) (g : ccc_shim) : ccc_shim * option (list Z) :=
  if negb (sh_active g) then (g, None)
  else
    let base := cycle_base g sts_index in
    match cycle_key ccc_derive_dudsk (sh_cache_dudsk g) g base with
    | None => (g, None)
    | Some k => (g <| sh_cache_dudsk := Some (base, k) |>, Some k)
    end.

Definition ccc_shim_sts_for_slot (slot : Z) (g : ccc_shim) : ccc_shim * option (list Z * list Z) :=
  if negb (sh_active g) then (g, None)
  else ccc_shim_sts_for_index (u32 (sh_sts_index0 g + slot)) g.
End Shim.

(** ** The blob's own index *)

(** Bytes 7 to 4, most significant first. *)
Definition ccc_shim_index_from_iv (iv16 : list Z) : Z :=
  Z.lor (Z.lor (Z.lor (Z.shiftl (byte_at iv16 7) 24) (Z.shiftl (byte_at iv16 6) 16))
           (Z.shiftl (byte_at iv16 5) 8)) (byte_at iv16 4).

(** The first two indices give the origin and the stride. *)
Definition calibrate (blob_idx : Z) (g : ccc_shim) : ccc_shim :=
  if sh_calib g =? 0 then g <| sh_blob_origin := blob_idx |> <| sh_calib := 1 |>
  else if (sh_calib g =? 1) && negb (blob_idx =? sh_blob_origin g) then
    g <| sh_blob_stride := u32 (blob_idx - sh_blob_origin g) |> <| sh_calib := 2 |>
  else g.

(** The schedule's index, the block and the offset in the block. *)
Definition ccc_shim_blob_to_ccc_index (blob_idx : Z) (g : ccc_shim) : ccc_shim * (Z * Z * Z) :=
  let g := calibrate blob_idx g in
  let rel := u32 (blob_idx - sh_blob_origin g) in
  let blk := if sh_blob_stride g =? 0 then 0 else rel / sh_blob_stride g in
  let off := if sh_blob_stride g =? 0 then rel else rel mod sh_blob_stride g in
  (g, (if sh_pinned g then sh_pin_index g
       else u32 (sh_sts_index0 g + u32 (blk * sh_n_slot_per_round g) + off), blk, off)).

Definition ccc_shim_pin_index (ccc_index : Z) (g : ccc_shim) : ccc_shim :=
  g <| sh_pin_index := ccc_index |> <| sh_pinned := true |>.

Definition ccc_shim_unpin (g : ccc_shim) : ccc_shim := g <| sh_pinned := false |>.
