(* ===== verification/CccMac.v ===== *)
(** * The UWB MAC: hopping, frames, schedule and two-way ranging

    Models [modules/ultrawidelock_uwb/src/ccc/ccc_mac.c], [ccc_session.c] and
    [src/fira/ds_twr.c].  The array of responder records and its count are a
    list; an error return is [None]. *)

From Stdlib Require Import ZArith Lia Bool.
From stdpp Require Import base list numbers option.
From S2P Require Import Prelude Wire MatterCrypto CccKdf.

Local Open Scope Z_scope.

(** ** Hopping *)

Definition CCC_HOP_MODULUS : Z := 65521.

Definition ccc_hop_round_index (block_index hop_key_rw n_round : Z) : Z :=
  let t := Z.land (u32 (block_index + hop_key_rw)) 0xFFFF in
  let t := (t * t) mod CCC_HOP_MODULUS in
  u16 (Z.shiftr (t * n_round) 16).

(** ** SP0 frames *)

Definition CCC_MHR_LEN : Z := 23.
Definition CCC_PRE_POLL_LEN : Z := 13.
Definition CCC_FINAL_DATA_HDR_LEN : Z := 18.
Definition CCC_RESPONDER_LEN : Z := 7.
Definition CCC_MAX_RESPONDERS : Z := 10.
Definition CCC_MSG_ID_PRE_POLL : Z := 0x01.
Definition CCC_MSG_ID_FINAL_DATA : Z := 0x02.

Definition MHR_FRAME_CONTROL : Z := 0x2B49.
Definition MHR_SEC_CONTROL : Z := 0x16.
Definition MHR_KEY_INDEX : Z := 0xAA.
Definition MHR_VENDOR_IE_HDR : Z := 0x0005.
Definition MHR_VENDOR_OUI : Z := 0x04DF69.
Definition MHR_VENDOR_OUI_CRED : Z := 0x4A191B.
Definition MHR_HT2_IE : Z := 0x3F80.

Record ccc_mhr_fields := {
  mhr_dest_short_addr : Z;
  mhr_frame_counter : Z;
  mhr_key_source : list Z;
  mhr_msg_id : Z;
  mhr_payload_len : Z;
}.

Definition mhr_vendor_oui_ok (p : list Z) : bool :=
  let oui := Z.lor (Z.lor (byte_at p 0) (Z.shiftl (byte_at p 1) 8)) (Z.shiftl (byte_at p 2) 16) in
  (oui =? MHR_VENDOR_OUI) || (oui =? MHR_VENDOR_OUI_CRED).

Definition ccc_build_mhr (f : ccc_mhr_fields) : list Z :=
  put_le 2 MHR_FRAME_CONTROL ++ put_le 2 (mhr_dest_short_addr f) ++ [MHR_SEC_CONTROL]
  ++ put_le 4 (mhr_frame_counter f) ++ mhr_key_source f ++ [MHR_KEY_INDEX] ++ put_le 2 MHR_VENDOR_IE_HDR
  ++ [u8 MHR_VENDOR_OUI; u8 (Z.shiftr MHR_VENDOR_OUI 8); u8 (Z.shiftr MHR_VENDOR_OUI 16)]
  ++ [mhr_msg_id f; mhr_payload_len f] ++ put_le 2 MHR_HT2_IE.

Definition ccc_parse_mhr (p : list Z) : option ccc_mhr_fields :=
  if negb (field 2 p 0 =? MHR_FRAME_CONTROL) || negb (byte_at p 4 =? MHR_SEC_CONTROL)
     || negb (byte_at p 13 =? MHR_KEY_INDEX) || negb (field 2 p 14 =? MHR_VENDOR_IE_HDR)
     || negb (mhr_vendor_oui_ok (drop 16 p)) || negb (field 2 p 21 =? MHR_HT2_IE)
  then None
  else
    Some {| mhr_dest_short_addr := field 2 p 2; mhr_frame_counter := field 4 p 5;
            mhr_key_source := take 4 (drop 9 p); mhr_msg_id := byte_at p 19;
            mhr_payload_len := byte_at p 20 |}.

Record ccc_pre_poll := {
  pp_uwb_session_id : Z;
  pp_poll_sts_index : Z;
  pp_ranging_block : Z;
  pp_hop_flag : Z;
  pp_round_index : Z;
}.

Definition ccc_pre_poll_pack (p : ccc_pre_poll) : list Z :=
  put_le 4 (pp_uwb_session_id p) ++ put_le 4 (pp_poll_sts_index p) ++ put_le 2 (pp_ranging_block p)
  ++ [pp_hop_flag p] ++ put_le 2 (pp_round_index p).

Definition ccc_pre_poll_parse (p : list Z) : ccc_pre_poll :=
  {| pp_uwb_session_id := field 4 p 0; pp_poll_sts_index := field 4 p 4; pp_ranging_block := field 2 p 8;
     pp_hop_flag := byte_at p 10; pp_round_index := field 2 p 11 |}.

Record ccc_responder_ts := {
  rt_responder_index : Z;
  rt_timestamp : Z;
  rt_timestamp_uncertainty : Z;
  rt_ranging_status : Z;
}.

Record ccc_final_data := {
  fd_uwb_session_id : Z;
  fd_ranging_block : Z;
  fd_hop_flag : Z;
  fd_round_index : Z;
  fd_final_sts_index : Z;
  fd_ranging_ts_final_tx : Z;
  fd_responders : list ccc_responder_ts;
}.

Definition fd_num_responders (f : ccc_final_data) : Z := zlen (fd_responders f).

Definition responder_bytes (r : ccc_responder_ts) : list Z :=
  [rt_responder_index r] ++ put_le 4 (rt_timestamp r)
  ++ [rt_timestamp_uncertainty r; rt_ranging_status r].

Definition ccc_final_data_pack (f : ccc_final_data) (cap : Z) : option (list Z) :=
  let n := CCC_FINAL_DATA_HDR_LEN + fd_num_responders f * CCC_RESPONDER_LEN in
  if (CCC_MAX_RESPONDERS <? fd_num_responders f) || (cap <? n) then None
  else
    Some (put_le 4 (fd_uwb_session_id f) ++ put_le 2 (fd_ranging_block f) ++ [fd_hop_flag f]
          ++ put_le 2 (fd_round_index f) ++ put_le 4 (fd_final_sts_index f)
          ++ put_le 4 (fd_ranging_ts_final_tx f) ++ [fd_num_responders f]
          ++ (fd_responders f ≫= responder_bytes)).

(** The record at [&in[off]]. *)
Definition responder_at (p : list Z) (off : Z) : ccc_responder_ts :=
  {| rt_responder_index := byte_at p off; rt_timestamp := field 4 p (off + 1);
     rt_timestamp_uncertainty := byte_at p (off + 5); rt_ranging_status := byte_at p (off + 6) |}.

Definition ccc_final_data_parse (p : list Z) : option ccc_final_data :=
  if zlen p <? CCC_FINAL_DATA_HDR_LEN then None
  else
    let n := byte_at p 17 in
    if (CCC_MAX_RESPONDERS <? n) || negb (zlen p =? CCC_FINAL_DATA_HDR_LEN + n * CCC_RESPONDER_LEN) then None
    else
      Some {| fd_uwb_session_id := field 4 p 0; fd_ranging_block := field 2 p 4;
              fd_hop_flag := byte_at p 6; fd_round_index := field 2 p 7;
              fd_final_sts_index := field 4 p 9; fd_ranging_ts_final_tx := field 4 p 13;
              fd_responders :=
                map (fun i => responder_at p (CCC_FINAL_DATA_HDR_LEN + Z.of_nat i * CCC_RESPONDER_LEN))
                    (seq 0 (Z.to_nat n)) |}.

(** ** The ranging schedule *)

Inductive ccc_hop_mode := CCC_HOP_NONE | CCC_HOP_CONTINUOUS.

Inductive ccc_slot :=
  CCC_SLOT_PRE_POLL | CCC_SLOT_POLL | CCC_SLOT_RESPONSE | CCC_SLOT_FINAL | CCC_SLOT_FINAL_DATA.

Record ccc_ran_params := {
  rp_sts_index0 : Z;
  rp_n_slot_per_round : Z;
  rp_n_round : Z;
  rp_n_responder : Z;
  rp_hop_key_rw : Z;
  rp_hop_mode : ccc_hop_mode;
}.

Definition slot_offset (p : ccc_ran_params) (slot : ccc_slot) (responder : Z) : Z :=
  match slot with
  | CCC_SLOT_PRE_POLL => 0
  | CCC_SLOT_POLL => 1
  | CCC_SLOT_RESPONSE => 2 + responder
  | CCC_SLOT_FINAL => rp_n_responder p + 2
  | CCC_SLOT_FINAL_DATA => rp_n_responder p + 3
  end.

Definition ccc_block_round (p : ccc_ran_params) (block : Z) : Z :=
  match rp_hop_mode p with
  | CCC_HOP_NONE => 0
  | CCC_HOP_CONTINUOUS =>
      if block =? 0 then 0 else ccc_hop_round_index block (rp_hop_key_rw p) (rp_n_round p)
  end.

Definition ccc_slot_sts_index (p : ccc_ran_params) (block round : Z) (slot : ccc_slot) (responder : Z) : Z :=
  let base := u32 (rp_sts_index0 p + u32 (block * u32 (rp_n_slot_per_round p * rp_n_round p))
                   + u32 (round * rp_n_slot_per_round p)) in
  u32 (base + slot_offset p slot responder).

(** The hop flag and the round index written into the Final_Data. *)
Definition ccc_initiator_next_hop (p : ccc_ran_params) (block : Z) : Z * Z :=
  match rp_hop_mode p with
  | CCC_HOP_CONTINUOUS => (1, ccc_hop_round_index (u32 (block + 1)) (rp_hop_key_rw p) (rp_n_round p))
  | CCC_HOP_NONE => (0, 0)
  end.

Definition CCC_STS_INDEX_MAX : Z := 0x7FFFFFFF.

Definition ccc_ursk_exhausted (p : ccc_ran_params) (block : Z) : bool :=
  let span := rp_n_slot_per_round p * rp_n_round p in
  let highest_plus1 := wrap 64 (rp_sts_index0 p + u32 (block + 1) * span) in
  CCC_STS_INDEX_MAX + 1 <? highest_plus1.

(** ** From a session to its schedule *)

Record ccc_ran_session := {
  rs_sts_index0 : Z;
  rs_hop_key_rw : Z;
  rs_n_ran_s : Z;
  rs_n_chap_per_slot : Z;
  rs_n_responder : Z;
  rs_n_slot_per_round : Z;
  rs_hop_mode : ccc_hop_mode;
}.

Definition ccc_session_n_round (s : ccc_ran_session) : Z :=
  let denom := rs_n_chap_per_slot s * rs_n_slot_per_round s in
  if denom =? 0 then 0 else u16 (288 * rs_n_ran_s s / denom).

Definition ccc_session_to_ran_params (s : ccc_ran_session) : option ccc_ran_params :=
  if rs_n_slot_per_round s <? rs_n_responder s + 4 then None
  else
    let n_round := ccc_session_n_round s in
    if n_round =? 0 then None
    else
      Some {| rp_sts_index0 := rs_sts_index0 s; rp_n_slot_per_round := rs_n_slot_per_round s;
              rp_n_round := n_round; rp_n_responder := rs_n_responder s;
              rp_hop_key_rw := rs_hop_key_rw s; rp_hop_mode := rs_hop_mode s |}.

(** ** Double-sided two-way ranging *)

Record ds_twr := { t_round1 : Z; t_reply1 : Z; t_round2 : Z; t_reply2 : Z }.

(** The products are formed in [uint64_t] and converted; their difference is
    taken in [int64_t].  Where that subtraction overflows ([ds_twr_overflow]
    below) the C leaves the result open and the definition gives the
    two's-complement one; [ds_twr_in_range] says where it does not. *)
Definition ds_twr_tof_signed (t : ds_twr) : Z :=
  let p1 := i64 (wrap 64 (t_round1 t * t_round2 t)) in
  let p2 := i64 (wrap 64 (t_reply1 t * t_reply2 t)) in
  let num := i64 (p1 - p2) in
  let den := t_round1 t + t_round2 t + t_reply1 t + t_reply2 t in
  if negb (den =? 0) then swrap 32 (num ÷ den) else 0.

(** The tags are distinct and in range; [seen] is a bit per tag. *)
Fixpoint tags_usable (seen : Z) (rs : list ccc_responder_ts) : bool :=
  match rs with
  | [] => true
  | r :: rest =>
      let tag := rt_responder_index r in
      if (CCC_MAX_RESPONDERS <=? tag) || negb (Z.land seen (u16 (Z.shiftl 1 tag)) =? 0) then false
      else tags_usable (Z.lor seen (u16 (Z.shiftl 1 tag))) rest
  end.

Definition fd_record_for (fd : ccc_final_data) (responder : Z) : option ccc_responder_ts :=
  if tags_usable 0 (fd_responders fd) then
    List.find (fun r => rt_responder_index r =? responder) (fd_responders fd)
  else if responder <? fd_num_responders fd then fd_responders fd !! Z.to_nat responder
  else None.

Definition ccc_responder_ds_twr (fd : ccc_final_data) (responder t_reply1 t_round2 : Z) : option ds_twr :=
  if (CCC_MAX_RESPONDERS <=? responder) || (fd_num_responders fd =? 0)
     || (CCC_MAX_RESPONDERS <? fd_num_responders fd) then None
  else
    rec ← fd_record_for fd responder;
    Some {| t_round1 := rt_timestamp rec; t_reply1 := t_reply1; t_round2 := t_round2;
            t_reply2 := u32 (fd_ranging_ts_final_tx fd - rt_timestamp rec) |}.

(** * The ranging frames, sent and read back

    The SP0 cipher is exact, and the header, the Pre-POLL and the Final_Data of
    the initiator are the ones the responder reads. *)

Local Open Scope Z_scope.

(** ** Fields by offset *)

Lemma field_skip n p q off : Z.of_nat (length p) <= off ->
  field n (p ++ q) off = field n q (off - Z.of_nat (length p)).
Proof.
  intros H. unfold field. rewrite drop_app_ge by lia. do 2 f_equal. f_equal. lia.
Qed.

Lemma field_here n v q : in_u (8 * Z.of_nat n) v -> field n (put_le n v ++ q) 0 = v.
Proof. intros H. by apply (field_app n v []). Qed.

Lemma byte_at_skip p q off : Z.of_nat (length p) <= off -> byte_at (p ++ q) off = byte_at q (off - Z.of_nat (length p)).
Proof. intros H. unfold byte_at. rewrite app_nth2 by lia. f_equal. lia. Qed.

Lemma drop_skip {A} (p q : list A) n : (length p <= n)%nat -> drop n (p ++ q) = drop (n - length p) q.
Proof. intros H. by rewrite drop_app_ge. Qed.

(** Walks to the field a reader asks for. *)
Ltac walk :=
  repeat first
    [ rewrite field_skip by (rewrite ?length_put_le; cbn [length]; lia)
    | rewrite byte_at_skip by (rewrite ?length_put_le; cbn [length]; lia) ];
  rewrite ?length_put_le; cbn [length Z.of_nat Pos.of_succ_nat Pos.succ Z.sub Z.add Z.opp Z.pos_sub Pos.pred_double Pos.sub Pos.sub_mask Pos.double_mask Pos.double_pred_mask Pos.succ_double_mask Pos.pred_mask Z.pred_double Z.succ_double Z.double].

Record mhr_ok (f : ccc_mhr_fields) : Prop := {
  mo_dest : in_u 16 (mhr_dest_short_addr f);
  mo_counter : in_u 32 (mhr_frame_counter f);
  mo_source : length (mhr_key_source f) = 4%nat /\ Forall byte_ok (mhr_key_source f);
  mo_id : byte_ok (mhr_msg_id f);
  mo_len : byte_ok (mhr_payload_len f);
}.

Lemma length_mhr f : length (mhr_key_source f) = 4%nat -> length (ccc_build_mhr f) = 23%nat.
Proof. intros H. unfold ccc_build_mhr. rewrite !length_app, H. done. Qed.

Lemma mhr_roundtrip f rest : mhr_ok f -> ccc_parse_mhr (ccc_build_mhr f ++ rest) = Some f.
Proof.
  intros [H1 H2 [H3 H3'] H4 H5]. destruct f as [dest ctr ks id len]. cbn in H1, H2, H3, H3', H4, H5.
  destruct ks as [|k0 [|k1 [|k2 [|k3 [|]]]]]; try done.
  set (m := ccc_build_mhr _ ++ rest).
  assert (Fdest : field 2 m 2 = dest) by (unfold m, ccc_build_mhr; rewrite <- !app_assoc; walk; by apply field_here).
  assert (Fctr : field 4 m 5 = ctr) by (unfold m, ccc_build_mhr; rewrite <- !app_assoc; walk; by apply field_here).
  assert (E : m = [0x49; 0x2B] ++ put_le 2 dest ++ [0x16] ++ put_le 4 ctr
    ++ [k0; k1; k2; k3; 0xAA; 0x05; 0x00; 0x69; 0xDF; 0x04; id; len; 0x80; 0x3F] ++ rest) by (unfold m, ccc_build_mhr; rewrite <- !app_assoc; reflexivity).
  clearbody m. unfold ccc_parse_mhr. rewrite Fdest, Fctr.
  cbn [put_le app] in E. subst m. cbn -[Z.modulo Z.div]. reflexivity.
Qed.

Record pre_poll_ok (p : ccc_pre_poll) : Prop := {
  po_id : in_u 32 (pp_uwb_session_id p);
  po_index : in_u 32 (pp_poll_sts_index p);
  po_block : in_u 16 (pp_ranging_block p);
  po_round : in_u 16 (pp_round_index p);
}.

Lemma pre_poll_roundtrip p : pre_poll_ok p -> ccc_pre_poll_parse (ccc_pre_poll_pack p) = p.
Proof.
  intros [H1 H2 H3 H4]. destruct p as [id index block hop round]. cbn in H1, H2, H3, H4.
  unfold ccc_pre_poll_parse, ccc_pre_poll_pack. cbn [pp_uwb_session_id pp_poll_sts_index pp_ranging_block pp_hop_flag pp_round_index].
  f_equal; walk; try (by apply field_here); try reflexivity.
  rewrite <- (app_nil_r (put_le 2 round)). by apply field_here.
Qed.

(** ** Final_Data *)

Record responder_ok (r : ccc_responder_ts) : Prop := {
  ro_index : byte_ok (rt_responder_index r);
  ro_time : in_u 32 (rt_timestamp r);
}.

Record final_data_ok (f : ccc_final_data) : Prop := {
  fo_id : in_u 32 (fd_uwb_session_id f);
  fo_block : in_u 16 (fd_ranging_block f);
  fo_round : in_u 16 (fd_round_index f);
  fo_index : in_u 32 (fd_final_sts_index f);
  fo_time : in_u 32 (fd_ranging_ts_final_tx f);
  fo_responders : Forall responder_ok (fd_responders f);
  fo_count : fd_num_responders f <= CCC_MAX_RESPONDERS;
}.

Lemma length_responder r : length (responder_bytes r) = 7%nat.
Proof. reflexivity. Qed.

Lemma responder_roundtrip r p q : responder_ok r -> responder_at (p ++ responder_bytes r ++ q) (Z.of_nat (length p)) = r.
Proof.
  intros [H1 H2]. destruct r as [tag ts unc st]. cbn in H1, H2. unfold responder_at, responder_bytes.
  cbn [rt_responder_index rt_timestamp rt_timestamp_uncertainty rt_ranging_status].
  assert (B : forall k r', byte_at (p ++ r') (Z.of_nat (length p) + k) = byte_at r' k \/ k < 0).
  { intros k r'. destruct (Z.ltb_spec k 0); [by right|]. left. rewrite byte_at_skip by lia. f_equal. lia. }
  set (body := ([tag] ++ put_le 4 ts ++ [unc; st]) ++ q).
  f_equal.
  - destruct (B 0 body) as [E|E]; [|lia]. rewrite Z.add_0_r in E. by rewrite E.
  - rewrite field_skip by lia. replace (Z.of_nat (length p) + 1 - Z.of_nat (length p)) with 1 by lia.
    unfold body. rewrite <- !app_assoc. walk. by apply field_here.
  - destruct (B 5 body) as [E|E]; [|lia]. by rewrite E.
  - destruct (B 6 body) as [E|E]; [|lia]. by rewrite E.
Qed.

Lemma responders_roundtrip rs p : Forall responder_ok rs ->
  map (fun i => responder_at (p ++ (rs ≫= responder_bytes)) (Z.of_nat (length p) + Z.of_nat i * CCC_RESPONDER_LEN))
    (seq 0 (length rs)) = rs.
Proof.
  intros H. revert p. induction H as [|r rs Hr _ IH]; intros p; [done|].
  cbn [length seq map mbind list_bind]. f_equal.
  - rewrite Z.add_0_r. by apply responder_roundtrip.
  - rewrite <- seq_shift, map_map. rewrite app_assoc. rewrite <- (IH (p ++ responder_bytes r)) at 2.
    apply map_ext. intros i. f_equal. rewrite length_app, length_responder. unfold CCC_RESPONDER_LEN. lia.
Qed.

Lemma zlen_responders rs : zlen (rs ≫= responder_bytes) = zlen rs * CCC_RESPONDER_LEN.
Proof.
  induction rs as [|r rs IH]; [done|]. cbn [mbind list_bind]. rewrite zlen_app, IH, zlen_cons. unfold CCC_RESPONDER_LEN.
  change (zlen (responder_bytes r)) with 7. lia.
Qed.

Lemma final_data_roundtrip f cap p : final_data_ok f -> ccc_final_data_pack f cap = Some p ->
  ccc_final_data_parse p = Some f
  /\ zlen p = CCC_FINAL_DATA_HDR_LEN + fd_num_responders f * CCC_RESPONDER_LEN.
Proof.
  intros [H1 H2 H3 H4 H5 H6 H7] P. unfold ccc_final_data_pack in P. destruct (_ || _); [done|]. apply (inj Some) in P as <-.
  set (head := put_le 4 (fd_uwb_session_id f) ++ put_le 2 (fd_ranging_block f) ++ [fd_hop_flag f]
          ++ put_le 2 (fd_round_index f) ++ put_le 4 (fd_final_sts_index f)
          ++ put_le 4 (fd_ranging_ts_final_tx f) ++ [fd_num_responders f]).
  assert (E : put_le 4 (fd_uwb_session_id f) ++ put_le 2 (fd_ranging_block f) ++ [fd_hop_flag f]
          ++ put_le 2 (fd_round_index f) ++ put_le 4 (fd_final_sts_index f)
          ++ put_le 4 (fd_ranging_ts_final_tx f) ++ [fd_num_responders f]
          ++ (fd_responders f ≫= responder_bytes) = head ++ (fd_responders f ≫= responder_bytes)).
  { unfold head. by rewrite <- !app_assoc. }
  rewrite E. clear E. pose proof (zlen_nonneg (fd_responders f)) as Hn. fold (fd_num_responders f) in Hn.
  assert (L : zlen (head ++ (fd_responders f ≫= responder_bytes))
              = CCC_FINAL_DATA_HDR_LEN + fd_num_responders f * CCC_RESPONDER_LEN).
  { rewrite zlen_app, zlen_responders. done. }
  split; [|exact L]. set (m := head ++ _) in *.
  assert (F1 : field 4 m 0 = fd_uwb_session_id f) by (unfold m, head; rewrite <- !app_assoc; by apply field_here).
  assert (F2 : field 2 m 4 = fd_ranging_block f) by (unfold m, head; rewrite <- !app_assoc; walk; by apply field_here).
  assert (F3 : byte_at m 6 = fd_hop_flag f) by (unfold m, head; rewrite <- !app_assoc; walk; done).
  assert (F4 : field 2 m 7 = fd_round_index f) by (unfold m, head; rewrite <- !app_assoc; walk; by apply field_here).
  assert (F5 : field 4 m 9 = fd_final_sts_index f) by (unfold m, head; rewrite <- !app_assoc; walk; by apply field_here).
  assert (F6 : field 4 m 13 = fd_ranging_ts_final_tx f) by (unfold m, head; rewrite <- !app_assoc; walk; by apply field_here).
  assert (F7 : byte_at m 17 = fd_num_responders f) by (unfold m, head; rewrite <- !app_assoc; walk; done).
  unfold ccc_final_data_parse. rewrite L, F1, F2, F3, F4, F5, F6, F7, Z.eqb_refl. cbv zeta.
  unfold CCC_FINAL_DATA_HDR_LEN, CCC_RESPONDER_LEN, CCC_MAX_RESPONDERS in *.
  rewrite (proj2 (Z.ltb_ge _ _)) by lia. rewrite (proj2 (Z.ltb_ge _ _)) by lia. cbn [orb negb].
  assert (R : map (fun i => responder_at m (18 + Z.of_nat i * 7)) (seq 0 (Z.to_nat (fd_num_responders f))) = fd_responders f).
  { unfold fd_num_responders, zlen. rewrite Nat2Z.id. change 18 with (Z.of_nat (length head)). by apply (responders_roundtrip _ head). }
  rewrite R. by destruct f.
Qed.

(** ** The SP0 cipher *)

Section Sp0.
Context `{L : BlockCipherLaws}.

Lemma sp0_ctr_twice key nonce p c s0 : sp0_ctr key nonce p = Some (c, s0) ->
  length c = length p /\ (Forall byte_ok p -> Forall byte_ok c) /\ length s0 = 16%nat /\ Forall byte_ok s0
  /\ sp0_ctr key nonce c = Some (p, s0).
Proof.
  unfold sp0_ctr. destruct (aes_ecb key (ctr_block nonce 0)) as [s|] eqn:E; [|done]. cbn [mbind option_bind].
  destruct (ctr_loop (length p) key nonce 1 p) as [out|] eqn:R; [|done]. cbn [mbind option_bind]. intros [= <- <-].
  destruct (aes_block _ _ _ E) as [H1 H2].
  destruct (ctr_loop_twice _ _ _ _ _ _ (Nat.le_refl _) R) as (H3 & H4 & H5).
  split; [done|]. split; [done|]. split; [done|]. split; [done|]. rewrite H3, H5. done.
Qed.

Lemma sp0_mac_length key nonce mhr p x : sp0_cbc_mac key nonce mhr p = Some x ->
  length x = 16%nat /\ Forall byte_ok x.
Proof.
  assert (S : forall fuel tag data x, length tag = 16%nat /\ Forall byte_ok tag -> sp0_section fuel key tag data = Some x ->
            length x = 16%nat /\ Forall byte_ok x).
  { induction fuel as [|fuel IH]; intros tag data y Ht; [by intros [= <-]|].
    destruct data as [|b data]; [by intros [= <-]|]. cbn [sp0_section].
    destruct (aes_ecb _ _) as [z|] eqn:E; [|done]. cbn [mbind option_bind]. apply IH. by apply aes_block in E. }
  unfold sp0_cbc_mac. destruct (aes_ecb _ _) as [t|] eqn:E; [|done]. cbn [mbind option_bind]. apply aes_block in E.
  destruct (0 <? zlen mhr).
  - destruct (sp0_section _ key t _) as [t'|] eqn:E2; [|done]. cbn [mbind option_bind]. apply S. by eapply S.
  - cbn [mbind option_bind]. by apply S.
Qed.

Lemma sp0_open key src ctr mhr c mic p : Forall byte_ok c -> Forall byte_ok mic -> length mic = CCC_SP0_MIC_LEN ->
  ccc_sp0_decrypt key src ctr mhr c mic = SP0_OK p <-> ccc_sp0_encrypt key src ctr mhr p = Some (c, mic) /\ Forall byte_ok p.
Proof.
  intros Hc Hm Hl. unfold ccc_sp0_decrypt, ccc_sp0_encrypt. set (nonce := sp0_nonce src ctr).
  assert (T : forall x s0, sp0_cbc_mac key nonce mhr p = Some x -> length s0 = 16%nat -> Forall byte_ok s0 ->
     tag_equal (xor_bytes (take CCC_SP0_MIC_LEN x) s0) mic = true <-> xor_bytes (take CCC_SP0_MIC_LEN x) s0 = mic).
  { intros x s0 Hx Hs Hsb. destruct (sp0_mac_length _ _ _ _ _ Hx) as [Hxl Hxb].
    apply tag_equal_spec; [apply xor_bytes_ok; [by apply Forall_take|done]|done|].
    rewrite xor_bytes_length, length_take, Hxl, Hs, Hl. done. }
  split.
  - destruct (sp0_too_big mhr c) eqn:B; [done|]. destruct (sp0_ctr key nonce c) as [[q s0]|] eqn:E; [|done].
    destruct (sp0_ctr_twice _ _ _ _ _ E) as (H1 & H2 & H3 & H4 & H5).
    destruct (sp0_cbc_mac key nonce mhr q) as [x|] eqn:X; [|done].
    destruct (tag_equal _ mic) eqn:Q; [|done]. intros [= ->].
    assert (B2 : sp0_too_big mhr p = false) by (unfold sp0_too_big, zlen in *; by rewrite H1).
    split; [|by apply H2]. rewrite B2, X. cbn [mbind option_bind]. rewrite H5. cbn [mbind option_bind fst snd].
    apply T in Q; [|done..]. by rewrite Q.
  - intros [He Hp]. destruct (sp0_too_big mhr p) eqn:B; [done|].
    destruct (sp0_cbc_mac key nonce mhr p) as [x|] eqn:X; [|done]. cbn [mbind option_bind] in He.
    destruct (sp0_ctr key nonce p) as [[out s0]|] eqn:E; [|done]. cbn [mbind option_bind fst snd] in He.
    apply (inj Some) in He. injection He as -> Hmic.
    destruct (sp0_ctr_twice _ _ _ _ _ E) as (H1 & H2 & H3 & H4 & H5).
    assert (B2 : sp0_too_big mhr c = false) by (unfold sp0_too_big, zlen in *; by rewrite H1).
    rewrite B2, H5, X. by rewrite (proj2 (T x s0 eq_refl H3 H4) Hmic).
Qed.
End Sp0.
