(* ===== verification/FiraRange.v ===== *)
(** * The range store and its integrity gate

    Models [modules/ultrawidelock_uwb/src/fira/fira_session.c] with
    [CONFIG_ULTRAWIDELOCK_CRED]: the stashed URSK and session identifier, the
    last range, the plausibility band, the consensus of consecutive ranges, the
    STS evidence behind it, and the generation of accepted ranges.  The clock is
    an argument; a call of the range listener is the second result of the
    latch. *)

From Stdlib Require Import ZArith Lia Bool.
From stdpp Require Import base list numbers option.
From S2P Require Import Prelude Wire.

Local Open Scope Z_scope.
Local Open Scope uwl_scope.

Definition FIRA_RANGE_NEG_TOL_CM : Z := 30.
Definition FIRA_RANGE_MAX_CM : Z := 3000.
Definition FIRA_RANGE_SPREAD_CM : Z := 50.

(** [CONFIG_ULTRAWIDELOCK_RANGE_TRUST_K] and
    [CONFIG_ULTRAWIDELOCK_STS_QUALITY_MIN], with their defaults. *)
Class fira_cfg := { FIRA_RANGE_TRUST_K : Z; FIRA_STS_QUALITY_MIN : Z }.

Definition fira_defaults : fira_cfg := {| FIRA_RANGE_TRUST_K := 3; FIRA_STS_QUALITY_MIN := 0 |}.

Record fira_session := {
  fi_ursk : option (list Z);
  fi_session_id : Z;
  fi_have_range : bool;
  fi_last_range_cm : Z;
  fi_last_range_block : Z;
  fi_last_range_ms : Z;
  fi_range_trust : Z;
  fi_pending_sts : option (bool * Z);
  fi_sts_good_run : Z;
  fi_sts_quality_min : Z;
  fi_range_generation : Z;
}.

#[export] Instance fira_session_eta : Eta fira_session := fun f =>
  {| fi_ursk := fi_ursk f; fi_session_id := fi_session_id f; fi_have_range := fi_have_range f;
     fi_last_range_cm := fi_last_range_cm f; fi_last_range_block := fi_last_range_block f;
     fi_last_range_ms := fi_last_range_ms f; fi_range_trust := fi_range_trust f;
     fi_pending_sts := fi_pending_sts f; fi_sts_good_run := fi_sts_good_run f;
     fi_sts_quality_min := fi_sts_quality_min f; fi_range_generation := fi_range_generation f |}.

(** The state at reset of the processor. *)
Definition fira_zero : fira_session :=
  {| fi_ursk := None; fi_session_id := 0; fi_have_range := false; fi_last_range_cm := 0;
     fi_last_range_block := 0; fi_last_range_ms := 0; fi_range_trust := 0; fi_pending_sts := None;
     fi_sts_good_run := 0; fi_sts_quality_min := 0; fi_range_generation := 0 |}.

Definition fira_session_set_provisioned_ursk (ursk : option (list Z)) (f : fira_session) : fira_session :=
  f <| fi_ursk := ursk |>.

Definition fira_session_set_id (id : Z) (f : fira_session) : fira_session := f <| fi_session_id := id |>.

(** The distance, the block and the age. *)
Definition fira_session_last_range (now : Z) (f : fira_session) : option (Z * Z * Z) :=
  if fi_have_range f then Some (fi_last_range_cm f, fi_last_range_block f, now - fi_last_range_ms f) else None.

Definition fira_session_range_plausible (cm : Z) : bool :=
  (- FIRA_RANGE_NEG_TOL_CM <=? cm) && (cm <=? FIRA_RANGE_MAX_CM).

Definition fira_session_reset_ranges (f : fira_session) : fira_session :=
  f <| fi_have_range := false |> <| fi_range_trust := 0 |> <| fi_pending_sts := None |>
    <| fi_sts_good_run := 0 |> <| fi_sts_quality_min := 0 |>.

Section Gate.
Context `{F : fira_cfg}.

Definition fira_session_sts_quality_ok (driver_verdict quality_index : Z) : bool :=
  (0 <=? driver_verdict) && (FIRA_STS_QUALITY_MIN <=? quality_index).

Definition fira_session_range_trusted (f : fira_session) : bool := FIRA_RANGE_TRUST_K <=? fi_range_trust f.

Definition fira_session_set_ccc_range_sts (driver_verdict quality_index : Z) (f : fira_session) : fira_session :=
  f <| fi_pending_sts := Some (fira_session_sts_quality_ok driver_verdict quality_index, quality_index) |>.

(** [sts_ok], [sts_quality] and [trust_level] of the latched range. *)
Definition fira_session_last_range_integrity (f : fira_session) : option (bool * Z * Z) :=
  if fi_have_range f
  then Some (FIRA_RANGE_TRUST_K <=? fi_sts_good_run f, fi_sts_quality_min f, fi_range_trust f)
  else None.

(** Layer 4: the run of agreeing ranges. *)
Definition count_consensus (cm : Z) (f : fira_session) : fira_session :=
  let delta := if fi_last_range_cm f <=? cm then cm - fi_last_range_cm f else fi_last_range_cm f - cm in
  if fi_have_range f && (delta <=? FIRA_RANGE_SPREAD_CM) then
    if fi_range_trust f <? FIRA_RANGE_TRUST_K then f <| fi_range_trust := u8 (fi_range_trust f + 1) |> else f
  else f <| fi_range_trust := 1 |> <| fi_sts_good_run := 0 |>.

(** Layer 2: the run of ranges with a good STS, and its worst quality. *)
Definition count_sts (sts_ok : bool) (sts_quality : Z) (f : fira_session) : fira_session :=
  if negb sts_ok then f <| fi_sts_good_run := 0 |> <| fi_sts_quality_min := sts_quality |>
  else
    let f := if (fi_sts_good_run f =? 0) || (sts_quality <? fi_sts_quality_min f)
             then f <| fi_sts_quality_min := sts_quality |> else f in
    if fi_sts_good_run f <? FIRA_RANGE_TRUST_K then f <| fi_sts_good_run := u8 (fi_sts_good_run f + 1) |> else f.

(** The generation skips zero. *)
Definition next_generation (g : Z) : Z := if u32 (g + 1) =? 0 then 1 else u32 (g + 1).

Definition fira_session_set_ccc_range_cm (now cm block : Z) (f : fira_session) : fira_session * bool :=
  let sts_ok := match fi_pending_sts f with Some (ok, _) => ok | None => false end in
  let sts_quality := match fi_pending_sts f with Some (_, q) => q | None => 0 end in
  let f := f <| fi_pending_sts := None |> in
  if negb (fira_session_range_plausible cm) then (f <| fi_range_trust := 0 |> <| fi_sts_good_run := 0 |>, false)
  else
    let cm := if cm <? 0 then 0 else cm in
    let f := count_sts sts_ok sts_quality (count_consensus cm f) in
    (f <| fi_have_range := true |> <| fi_last_range_cm := cm |> <| fi_last_range_block := block |>
       <| fi_last_range_ms := now |> <| fi_range_generation := next_generation (fi_range_generation f) |>, true).

(** The accessors of the facade that the unlock decision and the presence
    assertion use. *)
Definition trusted_range (now : Z) (f : fira_session) : option (Z * Z * Z) :=
  if fira_session_range_trusted f then fira_session_last_range now f else None.

Definition trusted_range_after (now after : Z) (f : fira_session) : option Z :=
  if 0 <? swrap 32 (wrap 32 (fi_range_generation f - after)) then
    match trusted_range now f with Some (cm, _, _) => Some cm | None => None end
  else None.

Definition trusted_range_after_checked (now after : Z) (f : fira_session) : option (Z * (bool * Z * Z)) :=
  cm ← trusted_range_after now after f;
  Some (cm, default (false, 0, 0) (fira_session_last_range_integrity f)).
End Gate.

(** * What a trusted range means

    The counters of the range store against a reference that reads the whole
    history: the level of trust is the number of latest ranges that are
    plausible and agree one with the next, and the STS evidence is the number of
    those whose ciphered preambles were good, both up to the level that is asked
    for. *)

Local Open Scope Z_scope.
Local Open Scope uwl_scope.

(** One range as the responder latches it. *)
Record measurement := { me_now : Z; me_cm : Z; me_block : Z; me_verdict : Z; me_quality : Z }.

Section Trust.
Context `{F : fira_cfg}.

Definition measure (f : fira_session) (m : measurement) : fira_session :=
  (fira_session_set_ccc_range_cm (me_now m) (me_cm m) (me_block m)
     (fira_session_set_ccc_range_sts (me_verdict m) (me_quality m) f)).1.

(** ** The reference, newest range first *)

Definition plausible (m : measurement) : bool := fira_session_range_plausible (me_cm m).

Definition distance (m : measurement) : Z := Z.max 0 (me_cm m).

(** A range that continues the run of the ones before it. *)
Definition continues (m : measurement) (before : list measurement) : bool :=
  match before with
  | p :: _ => plausible p && (Z.abs (distance m - distance p) <=? FIRA_RANGE_SPREAD_CM)
  | [] => false
  end.

Fixpoint agreeing_run (l : list measurement) : Z :=
  match l with
  | [] => 0
  | m :: before => if plausible m then if continues m before then 1 + agreeing_run before else 1 else 0
  end.

Fixpoint sts_agreeing (l : list measurement) : Z :=
  match l with
  | [] => 0
  | m :: before =>
      if plausible m && fira_session_sts_quality_ok (me_verdict m) (me_quality m)
      then if continues m before then 1 + sts_agreeing before else 1 else 0
  end.

Lemma agreeing_run_nonneg l : 0 <= agreeing_run l.
Proof. induction l as [|m l IH]; cbn; [lia|]. repeat case_match; lia. Qed.

Lemma sts_agreeing_nonneg l : 0 <= sts_agreeing l.
Proof. induction l as [|m l IH]; cbn; [lia|]. repeat case_match; lia. Qed.

(** ** The store keeps the reference's counts *)

Hypothesis HK : 1 <= FIRA_RANGE_TRUST_K <= 255.

(** The store after a history. *)
Record tracks (f : fira_session) (l : list measurement) : Prop := {
  tr_trust : fi_range_trust f = Z.min FIRA_RANGE_TRUST_K (agreeing_run l);
  tr_sts : fi_sts_good_run f = Z.min FIRA_RANGE_TRUST_K (sts_agreeing l);
  tr_last : match l with
            | m :: _ => plausible m = true -> fi_have_range f = true /\ fi_last_range_cm f = distance m
            | [] => fi_have_range f = false
            end;
}.

Lemma bump k n : 1 <= k <= 255 -> 0 <= n ->
  (if Z.min k n <? k then u8 (Z.min k n + 1) else Z.min k n) = Z.min k (1 + n).
Proof.
  intros Hk Hn. destruct (Z.ltb_spec (Z.min k n) k); [|lia]. rewrite wrap_id; [lia|]. unfold in_u. lia.
Qed.

Lemma abs_delta a b : (if b <=? a then a - b else b - a) = Z.abs (a - b).
Proof. destruct (Z.leb_spec b a); lia. Qed.

Lemma clamp_max cm : (if cm <? 0 then 0 else cm) = Z.max 0 cm.
Proof. destruct (Z.ltb_spec cm 0); lia. Qed.

(** The two counters after the consensus of a plausible range. *)
Lemma consensus_tracks f l m : tracks f l -> plausible m = true ->
  let f' := count_consensus (distance m) f in
  fi_range_trust f' = Z.min FIRA_RANGE_TRUST_K (agreeing_run (m :: l))
  /\ fi_sts_good_run f' = (if continues m l then Z.min FIRA_RANGE_TRUST_K (sts_agreeing l) else 0).
Proof.
  intros [T1 T2 T3] Hm f'. cbn [agreeing_run]. rewrite Hm. unfold f', count_consensus. rewrite abs_delta.
  pose proof (agreeing_run_nonneg l) as HA. pose proof (sts_agreeing_nonneg l) as HS.
  unfold continues. destruct l as [|p l].
  - rewrite T3. cbn -[Z.min]. split; lia.
  - destruct (plausible p) eqn:P; cbn [andb].
    + destruct (T3 eq_refl) as [-> ->]. cbn [andb]. destruct (_ <=? FIRA_RANGE_SPREAD_CM).
      * rewrite T1. rewrite <- (bump FIRA_RANGE_TRUST_K (agreeing_run (p :: l))) by lia.
        destruct (_ <? _); split; (reflexivity || exact T1 || exact T2).
      * cbn -[Z.min]. split; lia.
    + assert (A0 : agreeing_run (p :: l) = 0) by (cbn; by rewrite P).
      assert (S0 : sts_agreeing (p :: l) = 0) by (cbn; by rewrite P).
      rewrite A0 in T1. rewrite S0 in T2. destruct (fi_have_range f && _).
      * rewrite T1. rewrite (proj2 (Z.ltb_lt _ _)) by lia. cbn -[Z.min]. rewrite T2.
        rewrite Z.min_r, Z.min_r by lia. done.
      * cbn -[Z.min]. split; lia.
Qed.

Lemma measure_tracks f l m : tracks f l -> tracks (measure f m) (m :: l).
Proof.
  intros H. unfold measure, fira_session_set_ccc_range_cm. cbn [fi_pending_sts].
  change (fi_pending_sts (fira_session_set_ccc_range_sts (me_verdict m) (me_quality m) f)) with
    (Some (fira_session_sts_quality_ok (me_verdict m) (me_quality m), me_quality m)).
  cbv zeta. set (f0 := (fira_session_set_ccc_range_sts (me_verdict m) (me_quality m) f) <| fi_pending_sts := None |>).
  assert (H0 : tracks f0 l) by (destruct H as [T1 T2 T3]; split; [exact T1|exact T2|exact T3]).
  destruct (plausible m) eqn:P; unfold plausible in P; rewrite P; cbn [negb fst].
  - rewrite clamp_max. fold (distance m).
    destruct (consensus_tracks f0 l m H0 P) as [C1 C2]. set (f1 := count_consensus _ f0) in *.
    pose proof (sts_agreeing_nonneg l) as HS. unfold count_sts.
    destruct (fira_session_sts_quality_ok _ _) eqn:Q; cbn [negb].
    + set (f2 := if _ || _ then _ else f1).
      assert (E2 : fi_range_trust f2 = fi_range_trust f1 /\ fi_sts_good_run f2 = fi_sts_good_run f1)
        by (unfold f2; by destruct (_ || _)).
      destruct E2 as [E2 E3]. rewrite E3, C2. split.
      * rewrite <- C1, <- E2. by destruct ((if continues m l then _ else _) <? FIRA_RANGE_TRUST_K).
      * cbn [sts_agreeing]. unfold plausible. rewrite P, Q. cbn [andb].
        destruct (continues m l).
        -- rewrite <- bump by lia. destruct (Z.min FIRA_RANGE_TRUST_K (sts_agreeing l) <? FIRA_RANGE_TRUST_K); [reflexivity|]. transitivity (fi_sts_good_run f2); [reflexivity|congruence].
        -- rewrite (proj2 (Z.ltb_lt 0 _)) by lia. transitivity 1; [reflexivity|lia].
      * intros _. cbn. done.
    + split; cbn -[Z.min agreeing_run]; [exact C1| |done]. unfold plausible. rewrite P, Q. cbn. lia.
  - split; cbn -[Z.min]; unfold plausible; rewrite P; cbn -[Z.min]; (lia || done).
Qed.

Lemma history_tracks f l ms : tracks f l -> tracks (fold_left measure ms f) (rev ms ++ l).
Proof.
  revert f l. induction ms as [|m ms IH]; intros f l H; [done|]. cbn [fold_left rev].
  rewrite <- app_assoc. apply IH. by apply measure_tracks.
Qed.

(** C15: a session's range is trusted exactly when its latest
    [FIRA_RANGE_TRUST_K] ranges are plausible and each agrees with the one before
    it, and the STS evidence reported with it is good exactly when the ciphered
    preambles of all of these were; the distance a client gets is the latest one. *)
Theorem trust_is_agreement f ms :
  let h := rev ms in
  let g := fold_left measure ms (fira_session_reset_ranges f) in
  fi_range_trust g = Z.min FIRA_RANGE_TRUST_K (agreeing_run h)
  /\ fi_sts_good_run g = Z.min FIRA_RANGE_TRUST_K (sts_agreeing h)
  /\ (forall now, trusted_range now g <> None <-> FIRA_RANGE_TRUST_K <= agreeing_run h)
  /\ (forall now cm block age, trusted_range now g = Some (cm, block, age) ->
        exists m rest, h = m :: rest /\ plausible m = true /\ cm = distance m).
Proof.
  intros h g.
  assert (T : tracks g h).
  { unfold h, g. rewrite <- (app_nil_r (rev ms)). apply history_tracks. split; cbn; try done; lia. }
  clearbody g h. destruct T as [T1 T2 T3]. split; [done|]. split; [done|].
  assert (P : FIRA_RANGE_TRUST_K <= agreeing_run h ->
            exists m rest, h = m :: rest /\ plausible m = true /\ fi_have_range g = true /\ fi_last_range_cm g = distance m).
  { intros H. destruct h as [|m rest]; [cbn in H; lia|]. cbn in H. destruct (plausible m) eqn:Pm; [|lia].
    exists m, rest. destruct (T3 eq_refl) as [T4 T5]. done. }
  unfold trusted_range, fira_session_range_trusted, fira_session_last_range. rewrite T1.
  destruct (Z.leb_spec FIRA_RANGE_TRUST_K (Z.min FIRA_RANGE_TRUST_K (agreeing_run h))) as [L|L].
  - destruct P as (m & rest & -> & Pm & E1 & E2); [lia|]. rewrite E1, E2. split.
    + intros now. split; [lia|done].
    + intros now cm block age [= <- _ _]. by exists m, rest.
  - split; [|done]. intros now. split; [done|lia].
Qed.
End Trust.

Lemma trust_is_agreement_witness :
  let ms := map (fun cm => {| me_now := 0; me_cm := cm; me_block := 0; me_verdict := 0; me_quality := 5 |}) [300; 120; 140; 110] in
  fi_range_trust (fold_left (measure (F := fira_defaults)) ms (fira_session_reset_ranges fira_zero)) = 3.
Proof.
  intros ms. assert (HK : 1 <= FIRA_RANGE_TRUST_K (fira_cfg := fira_defaults) <= 255) by (cbn; lia).
  rewrite (proj1 (trust_is_agreement (F := fira_defaults) HK fira_zero ms)). vm_compute. reflexivity.
Defined.
