(* ===== verification/CccRx.v ===== *)
(** * The responder's receive path

    Models [modules/ultrawidelock_uwb/src/ccc/ccc_shim_rx.c] of the nRF builds:
    the Pre-POLL and Final_Data decoders with their context, replay and evidence
    checks, the deferral of the decode, and the three radio callbacks that walk
    one ranging round.

    The radio is what it reports and what it is told.  A callback gets the
    registers it reads ([rx_done_event], [tx_event]); whether the radio accepts the
    delayed windows and the transmission it is asked for is part of them.  What
    it is told is the list of [radio_cmd].  The cycle counters, the latency
    histograms and the traces are left out, and so are the branches of
    [ESP_PLATFORM] and of [CCC_RX_LOCK_SWEEP]. *)

From Stdlib Require Import ZArith Lia Bool.
From stdpp Require Import base list numbers option.
From S2P Require Import Prelude Wire MatterCrypto CccKdf CccMac FiraRange.

Local Open Scope Z_scope.
Local Open Scope uwl_scope.

(** [cred_round_config.h] and the build options of the receive path. *)
Class rx_cfg := {
  NUM_RESPONDERS : Z;
  RESPONDER_INDEX : Z;
  BLOCK_PARITY : Z;
  FINAL_SNAPSHOT : bool;
  RANGE_GATE_STRICT : bool;
  RANGE_BIAS_MM : Z;
}.

Definition rx_defaults : rx_cfg :=
  {| NUM_RESPONDERS := 1; RESPONDER_INDEX := 0; BLOCK_PARITY := -1; FINAL_SNAPSHOT := false;
     RANGE_GATE_STRICT := false; RANGE_BIAS_MM := 0 |}.

(** What an uninitialised buffer holds, by its length. *)
Class Residue := residue : nat -> list Z.

Definition CCC_SP0_FINAL_DATA_MAX_LEN : Z :=
  CCC_MHR_LEN + CCC_FINAL_DATA_HDR_LEN + CCC_MAX_RESPONDERS * CCC_RESPONDER_LEN + Z.of_nat CCC_SP0_MIC_LEN + 2.
Definition CCC_SP0_PHY_MAX_LEN : Z := 127.
Definition CCC_SP0_STASH_LEN : Z := Z.max CCC_SP0_FINAL_DATA_MAX_LEN CCC_SP0_PHY_MAX_LEN.
Definition CCC_SLOT_NOMINAL_HI32 : Z := 499200.
Definition CCC_RESP_ANT_DLY_HI32 : Z := 62.
Definition CCC_RESP_SLOT_HI32 : Z := CCC_SLOT_NOMINAL_HI32 - CCC_RESP_ANT_DLY_HI32.

(** ** State *)

Record rx_stats := {
  st_prepoll_ok : Z; st_warm_fail : Z; st_poll_arm : Z; st_arm_fail : Z; st_poll_ok : Z; st_poll_fail : Z;
  st_resp_tx : Z; st_final_data : Z; st_range : Z; st_last_poll_st : Z;
}.

#[export] Instance rx_stats_eta : Eta rx_stats := fun s =>
  {| st_prepoll_ok := st_prepoll_ok s; st_warm_fail := st_warm_fail s; st_poll_arm := st_poll_arm s;
     st_arm_fail := st_arm_fail s; st_poll_ok := st_poll_ok s; st_poll_fail := st_poll_fail s;
     st_resp_tx := st_resp_tx s; st_final_data := st_final_data s; st_range := st_range s;
     st_last_poll_st := st_last_poll_st s |}.

Definition rx_stats_zero : rx_stats := Build_rx_stats 0 0 0 0 0 0 0 0 0 0.

(** The per-session decrypt constants. *)
Record sp0_keys := { uk_mupsk1 : list Z; uk_src_long : list Z; uk_keysource : list Z; uk_dest : list Z }.

(** The key and the vector of one frame. *)
Definition sts : Type := list Z * list Z.

Record ccc_rx := {
  rx_poll_sts_index : option Z;
  rx_await_poll : bool;
  rx_armed_index : Z;
  rx_prepoll_ip : Z;
  rx_poll_stride : Z;
  rx_warm_valid : bool;
  rx_warm_index : Z;
  rx_warm : sts;
  rx_warm_resp : sts;
  rx_warm_final : sts;
  rx_armed_resp : sts;
  rx_armed_final : sts;
  rx_await_final : bool;
  rx_poll_ip_for_final : Z;
  rx_t_poll_rx : Z;
  rx_t_resp_tx : Z;
  rx_t_final_rx : Z;
  rx_final_round : option (Z * Z);
  rx_final_sts : Z * Z;
  rx_evidence : option (Z * Z);
  rx_prepoll_counter : option Z;
  rx_final_counter : option Z;
  rx_session_block : option Z;
  rx_uad : option sp0_keys;
  rx_mupsk1 : list Z;
  rx_stash : list Z;
  rx_pending : bool;
  rx_stat : rx_stats;
  rx_listen_gate : bool;
}.

#[export] Instance ccc_rx_eta : Eta ccc_rx := fun r =>
  {| rx_poll_sts_index := rx_poll_sts_index r; rx_await_poll := rx_await_poll r; rx_armed_index := rx_armed_index r;
     rx_prepoll_ip := rx_prepoll_ip r; rx_poll_stride := rx_poll_stride r; rx_warm_valid := rx_warm_valid r;
     rx_warm_index := rx_warm_index r; rx_warm := rx_warm r; rx_warm_resp := rx_warm_resp r;
     rx_warm_final := rx_warm_final r; rx_armed_resp := rx_armed_resp r; rx_armed_final := rx_armed_final r;
     rx_await_final := rx_await_final r; rx_poll_ip_for_final := rx_poll_ip_for_final r;
     rx_t_poll_rx := rx_t_poll_rx r; rx_t_resp_tx := rx_t_resp_tx r; rx_t_final_rx := rx_t_final_rx r;
     rx_final_round := rx_final_round r; rx_final_sts := rx_final_sts r; rx_evidence := rx_evidence r;
     rx_prepoll_counter := rx_prepoll_counter r; rx_final_counter := rx_final_counter r;
     rx_session_block := rx_session_block r; rx_uad := rx_uad r; rx_mupsk1 := rx_mupsk1 r; rx_stash := rx_stash r;
     rx_pending := rx_pending r; rx_stat := rx_stat r; rx_listen_gate := rx_listen_gate r |}.

(** The engine: the range store, the bound key material, the receive path and
    the count of successful starts. *)
Record uwb_engine := {
  en_fira : fira_session;
  en_shim : ccc_shim;
  en_rx : ccc_rx;
  en_start_gen : Z;
}.

#[export] Instance uwb_engine_eta : Eta uwb_engine := fun e =>
  {| en_fira := en_fira e; en_shim := en_shim e; en_rx := en_rx e; en_start_gen := en_start_gen e |}.

Definition up_rx (f : ccc_rx -> ccc_rx) (e : uwb_engine) : uwb_engine := e <| en_rx := f (en_rx e) |>.

Definition up_stat (f : rx_stats -> rx_stats) (r : ccc_rx) : ccc_rx := r <| rx_stat := f (rx_stat r) |>.

(** [ccc_shim_rx_log_reset]: a new session forgets the round in progress, the
    counters, the evidence and the cached constants; the timestamps, the packed
    keys and the gate stay. *)
Definition ccc_shim_rx_log_reset (r : ccc_rx) : ccc_rx :=
  r <| rx_stat := rx_stats_zero |> <| rx_poll_sts_index := None |> <| rx_await_poll := false |>
    <| rx_armed_index := 0 |> <| rx_prepoll_ip := 0 |> <| rx_poll_stride := 0 |> <| rx_warm_valid := false |>
    <| rx_uad := None |> <| rx_pending := false |> <| rx_await_final := false |>
    <| rx_poll_ip_for_final := 0 |> <| rx_final_sts := (-1, 0) |> <| rx_evidence := None |>
    <| rx_prepoll_counter := None |> <| rx_final_counter := None |> <| rx_session_block := None |>
    <| rx_final_round := None |>.

Definition ccc_rx_zero : ccc_rx :=
  {| rx_poll_sts_index := None; rx_await_poll := false; rx_armed_index := 0; rx_prepoll_ip := 0;
     rx_poll_stride := 0; rx_warm_valid := false; rx_warm_index := 0; rx_warm := ([], []); rx_warm_resp := ([], []);
     rx_warm_final := ([], []); rx_armed_resp := ([], []); rx_armed_final := ([], []); rx_await_final := false;
     rx_poll_ip_for_final := 0; rx_t_poll_rx := 0; rx_t_resp_tx := 0; rx_t_final_rx := 0; rx_final_round := None;
     rx_final_sts := (-1, 0); rx_evidence := None; rx_prepoll_counter := None; rx_final_counter := None;
     rx_session_block := None; rx_uad := None; rx_mupsk1 := replicate 16 0; rx_stash := []; rx_pending := false;
     rx_stat := rx_stats_zero; rx_listen_gate := false |}.

Definition engine_zero : uwb_engine :=
  {| en_fira := fira_zero; en_shim := ccc_shim_unbound; en_rx := ccc_rx_zero; en_start_gen := 0 |}.

(** ** Context and replay *)

Definition counter_newer (next previous : Z) : bool := 0 <? swrap 32 (wrap 32 (next - previous)).

(** [g_have_x && !counter_newer(next, g_x)] *)
Definition stale (previous : option Z) (next : Z) : bool :=
  match previous with Some p => negb (counter_newer next p) | None => false end.

Definition mhr_context_ok (k : sp0_keys) (mhr : ccc_mhr_fields) : bool :=
  let dest := Z.lor (Z.shiftl (byte_at (uk_dest k) 0) 8) (byte_at (uk_dest k) 1) in
  (mhr_dest_short_addr mhr =? dest)
  && forallb (fun i => byte_at (mhr_key_source mhr) (Z.of_nat i)
                       =? byte_at (uk_keysource k) (zlen (uk_keysource k) - 1 - Z.of_nat i))
       (seq 0 (length (uk_keysource k))).

Section Rx.
Context `{C : BlockCipher} `{F : fira_cfg} `{K : rx_cfg} `{G : Residue}.

Definition FINAL_SLOT_OFFSET : Z := NUM_RESPONDERS + 1.

(** Whether this anchor answers the block whose POLL is being handled. *)
Definition ccc_block_is_ours (r : ccc_rx) : bool :=
  if BLOCK_PARITY <? 0 then true
  else match rx_session_block r with
       | Some b => rx_pending r && (Z.land (b + 1) 1 =? BLOCK_PARITY)
       | None => false
       end.

(** The constants of the session; the results of the derivations are not
    looked at. *)
Definition derive_sp0_keys (ursk : list Z) (sts_index0 : Z) (r : ccc_rx) : ccc_rx :=
  let mupsk1 := default (rx_mupsk1 r) (ccc_derive_mupsk1 ursk) in
  let mupsk2 := default (residue 32) (ccc_derive_mupsk2 ursk) in
  let uad := default (residue 16) (ccc_derive_uad mupsk2 sts_index0) in
  let '(keysource, dest, src_long) := ccc_uad_addresses uad in
  r <| rx_mupsk1 := mupsk1 |>
    <| rx_uad := Some {| uk_mupsk1 := mupsk1; uk_src_long := src_long; uk_keysource := keysource; uk_dest := dest |} |>.

(** The payload and the MIC behind the header of an SP0 frame. *)
Definition sp0_payload (n : Z) (frame : list Z) : list Z :=
  take (Z.to_nat n) (drop (Z.to_nat CCC_MHR_LEN) frame).

Definition sp0_mic (n : Z) (frame : list Z) : list Z :=
  take CCC_SP0_MIC_LEN (drop (Z.to_nat (CCC_MHR_LEN + n)) frame).

(** A window of the session's keys: the three frames of the round that starts
    at [widx].  What an earlier derivation has written stays when a later one
    fails. *)
Definition warm_next (widx : Z) (e : uwb_engine) : uwb_engine :=
  let fail (e : uwb_engine) := up_rx (up_stat (fun s => s <| st_warm_fail := u32 (st_warm_fail s + 1) |>)) e in
  match ccc_shim_sts_for_index widx (en_shim e) with
  | (g, None) => fail (e <| en_shim := g |>)
  | (g, Some poll) =>
      let e := up_rx (fun r => r <| rx_warm := poll |>) (e <| en_shim := g |>) in
      match ccc_shim_sts_for_index (u32 (widx + 1 + RESPONDER_INDEX)) (en_shim e) with
      | (g, None) => fail (e <| en_shim := g |>)
      | (g, Some resp) =>
          let e := up_rx (fun r => r <| rx_warm_resp := resp |>) (e <| en_shim := g |>) in
          match ccc_shim_sts_for_index (u32 (widx + FINAL_SLOT_OFFSET)) (en_shim e) with
          | (g, None) => fail (e <| en_shim := g |>)
          | (g, Some final) =>
              up_rx (fun r => r <| rx_warm_final := final |> <| rx_warm_index := widx |> <| rx_warm_valid := true |>)
                (e <| en_shim := g |>)
          end
      end
  end.

(** An accepted Pre-POLL. *)
Definition accept_prepoll (counter : Z) (pp : ccc_pre_poll) (e : uwb_engine) : uwb_engine :=
  let e := up_rx (fun r =>
    let r := up_stat (fun s => s <| st_prepoll_ok := u32 (st_prepoll_ok s + 1) |>)
               (r <| rx_prepoll_counter := Some counter |>) in
    let r := r <| rx_session_block := Some (pp_ranging_block pp) |> in
    let r := match rx_poll_sts_index r with
             | Some i => r <| rx_poll_stride := u32 (pp_poll_sts_index pp - i) |>
             | None => r
             end in
    r <| rx_poll_sts_index := Some (pp_poll_sts_index pp) |>) e in
  if rx_poll_stride (en_rx e) =? 0 then e
  else warm_next (u32 (pp_poll_sts_index pp + rx_poll_stride (en_rx e))) e.

Definition prepoll_decode (frame : list Z) (e : uwb_engine) : uwb_engine :=
  if zlen frame <? CCC_MHR_LEN + CCC_PRE_POLL_LEN + Z.of_nat CCC_SP0_MIC_LEN then e
  else
  match ccc_parse_mhr frame with
  | None => e
  | Some mhr =>
      if negb (mhr_msg_id mhr =? CCC_MSG_ID_PRE_POLL) then e
      else if negb (mhr_payload_len mhr =? CCC_PRE_POLL_LEN)
              || (zlen frame <? CCC_MHR_LEN + mhr_payload_len mhr + Z.of_nat CCC_SP0_MIC_LEN) then e
      else
      match fi_ursk (en_fira e) with
      | None => e
      | Some ursk =>
          let e := match rx_uad (en_rx e) with
                   | Some _ => e
                   | None => up_rx (derive_sp0_keys ursk (sh_sts_index0 (en_shim e))) e
                   end in
          match rx_uad (en_rx e) with
          | None => e
          | Some k =>
              if negb (mhr_context_ok k mhr) then e
              else
              match ccc_sp0_decrypt (uk_mupsk1 k) (uk_src_long k) (mhr_frame_counter mhr)
                      (take (Z.to_nat CCC_MHR_LEN) frame) (sp0_payload (mhr_payload_len mhr) frame)
                      (sp0_mic (mhr_payload_len mhr) frame) with
              | SP0_OK plain =>
                  let pp := ccc_pre_poll_parse plain in
                  if negb (pp_uwb_session_id pp =? fi_session_id (en_fira e))
                     || stale (rx_prepoll_counter (en_rx e)) (mhr_frame_counter mhr)
                     || stale (rx_poll_sts_index (en_rx e)) (pp_poll_sts_index pp)
                  then e
                  else accept_prepoll (mhr_frame_counter mhr) pp e
              | _ => e
              end
          end
      end
  end.

(** ** Final_Data *)

(** Five bytes, least significant first. *)
Definition ts5_to_u64 (t : list Z) : Z := get_le (take 5 t).

Definition PLAIN_MAX : Z := CCC_FINAL_DATA_HDR_LEN + CCC_MAX_RESPONDERS * CCC_RESPONDER_LEN.

(** The responder's own two intervals, and whether there are any. *)
Definition round_times (r : ccc_rx) : option (Z * Z) :=
  if FINAL_SNAPSHOT then rx_final_round r
  else Some (u32 (rx_t_resp_tx r - rx_t_poll_rx r), u32 (rx_t_final_rx r - rx_t_resp_tx r)).

(** [(int)(((int64_t)tof * 4692) / 1000)] narrows the quotient to 32 bits before
    the board's bias is added. *)
Definition distance_mm (tof : Z) : Z := i32 (i32 ((tof * 4692) ÷ 1000) + RANGE_BIAS_MM).

(** One Final_Data consumes the capture it matched. *)
Definition consume_evidence (r : ccc_rx) : ccc_rx :=
  let r := r <| rx_evidence := None |> <| rx_final_sts := (-1, 0) |> in
  if FINAL_SNAPSHOT then r <| rx_final_round := None |> else r.

(** The distance of an authenticated Final_Data, into the range store. *)
Definition latch_range (now : Z) (fd : ccc_final_data) (e : uwb_engine) : uwb_engine * bool :=
  match round_times (en_rx e) with
  | None => (e, false)
  | Some (reply1, round2) =>
      match ccc_responder_ds_twr fd RESPONDER_INDEX reply1 round2 with
      | None => (e, false)
      | Some tw =>
          let d_mm := distance_mm (ds_twr_tof_signed tw) in
          let '(verdict, quality) := rx_final_sts (en_rx e) in
          let sts_ok := fira_session_sts_quality_ok verdict quality in
          let e := e <| en_fira := fira_session_set_ccc_range_sts verdict quality (en_fira e) |> in
          if RANGE_GATE_STRICT && negb sts_ok then (e, false)
          else
            let e := up_rx (up_stat (fun s => s <| st_range := u32 (st_range s + 1) |>)) e in
            let '(f, woken) := fira_session_set_ccc_range_cm now (d_mm ÷ 10) (fd_ranging_block fd) (en_fira e) in
            (e <| en_fira := f |>, woken)
      end
  end.

Definition final_data_decode (now : Z) (frame : list Z) (e : uwb_engine) : uwb_engine * bool :=
  let e := up_rx (up_stat (fun s => s <| st_final_data := u32 (st_final_data s + 1) |>)) e in
  match ccc_parse_mhr frame with
  | None => (e, false)
  | Some mhr =>
      if negb (mhr_msg_id mhr =? CCC_MSG_ID_FINAL_DATA) then (e, false)
      else
      match rx_uad (en_rx e) with
      | None => (e, false)
      | Some k =>
          if negb (mhr_context_ok k mhr) then (e, false)
          else if (PLAIN_MAX <? mhr_payload_len mhr)
                  || (zlen frame <? CCC_MHR_LEN + mhr_payload_len mhr + Z.of_nat CCC_SP0_MIC_LEN) then (e, false)
          else
          match rx_evidence (en_rx e) with
          | None => (e, false)
          | Some (evidence_index, evidence_poll_index) =>
              match ccc_shim_dudsk_for_index evidence_poll_index (en_shim e) with
              | (g, None) => (e <| en_shim := g |>, false)
              | (g, Some dudsk) =>
                  let e := e <| en_shim := g |> in
                  match ccc_sp0_decrypt dudsk (uk_src_long k) (mhr_frame_counter mhr)
                          (take (Z.to_nat CCC_MHR_LEN) frame) (sp0_payload (mhr_payload_len mhr) frame)
                          (sp0_mic (mhr_payload_len mhr) frame) with
                  | SP0_OK plain =>
                      match ccc_final_data_parse plain with
                      | None => (e, false)
                      | Some fd =>
                          if fd_num_responders fd =? 0 then (e, false)
                          else if negb (fd_uwb_session_id fd =? fi_session_id (en_fira e))
                                  || negb (fd_final_sts_index fd =? evidence_index)
                                  || stale (rx_final_counter (en_rx e)) (mhr_frame_counter mhr)
                          then (e, false)
                          else
                            let e := up_rx (fun r => r <| rx_final_counter := Some (mhr_frame_counter mhr) |>) e in
                            let '(e, woken) := latch_range now fd e in
                            (up_rx consume_evidence e, woken)
                      end
                  | _ => (e, false)
                  end
              end
          end
      end
  end.

(** ** The dispatch of an SP0 frame *)

(** [data]: the bytes read from the radio's buffer, [datalength] of them. *)
Definition ccc_shim_rx_try_prepoll (now : Z) (data : list Z) (e : uwb_engine) : uwb_engine * bool :=
  if negb (ccc_shim_active (en_shim e)) || (zlen data =? 0) then (e, false)
  else if CCC_SP0_STASH_LEN <? zlen data then (e, false)
  else
    let e := if rx_pending (en_rx e)
             then prepoll_decode (rx_stash (en_rx e)) (up_rx (fun r => r <| rx_pending := false |>) e) else e in
    let e := up_rx (fun r => r <| rx_stash := data |>) e in
    let final :=
      if CCC_MHR_LEN <=? zlen data then
        match ccc_parse_mhr data with Some m => mhr_msg_id m =? CCC_MSG_ID_FINAL_DATA | None => false end
      else false in
    if final then final_data_decode now data e
    else if negb (rx_warm_valid (en_rx e)) then (prepoll_decode data e, false)
    else (up_rx (fun r => r <| rx_pending := true |>) e, false).
End Rx.

(** * One ranging round: the radio callbacks

    Models the callbacks of [modules/ultrawidelock_uwb/src/ccc/ccc_shim_rx.c]
    ([prepoll_rx_rearm], [resp_tx_done] and the functions that arm a window),
    the start and stop of the listener, the interception of the callbacks in
    [src/driver/uwb_rxdiag.c], and the start and stop of a session in
    [src/facade/ultrawidelock_uwb_facade.c].

    What a callback reads of the radio is [rx_done_event]: the status word, the
    40-bit receive timestamp, the frame buffer and its length, the STS quality,
    the system time, and whether the radio accepts the window or the
    transmission it is asked for.  What the radio is told is the list of
    [radio_cmd], in order. *)

Local Open Scope Z_scope.
Local Open Scope uwl_scope.

Definition INT_CIADONE : Z := 0x400.
Definition INT_RXPHD : Z := 0x800.
Definition INT_RXFCG : Z := 0x4000.
Definition STATUS_CPER : Z := 0x10000000.

Definition CCC_RX_SLOT_HI32 : Z := 499000.
Definition CCC_RX_POLL_LEAD : Z := 40000.
Definition CCC_FDRX_OPEN_HI32 : Z := 25000.
Definition CCC_FDRX_MIN_AHEAD : Z := 50000.

Record rx_done_event := {
  ev_status : Z;
  ev_ts : list Z;
  ev_data : list Z;
  ev_len : Z;
  ev_quality : Z * Z;
  ev_sys : Z;
  ev_accepts : bool;
  ev_now : Z;
}.

Record tx_event := { tx_ts : list Z; tx_accepts : bool }.

Inductive radio_cmd :=
  | CmdSts (s : sts)
  | CmdListen
  | CmdOff
  | CmdRxAt (at_ : Z)
  | CmdRxSp0At (at_ : Z)
  | CmdTxAt (at_ : Z).

Definition bit_set (st mask : Z) : bool := negb (Z.land st mask =? 0).

Section Radio.
Context `{C : BlockCipher} `{F : fira_cfg} `{K : rx_cfg} `{G : Residue}.

(** [gated_rxenable] of a plain listen and of a delayed window: nothing is
    armed once the gate is closed. *)
Definition listen (e : uwb_engine) : list radio_cmd :=
  if rx_listen_gate (en_rx e) then [CmdListen] else [].

Definition gated (e : uwb_engine) (accepts : bool) : bool := rx_listen_gate (en_rx e) && accepts.

Definition revert_to_sp0_listen (e : uwb_engine) : list radio_cmd := CmdOff :: listen e.

Definition arm_poll_sp3 (ip : Z) (accepts : bool) (e : uwb_engine) : uwb_engine * list radio_cmd * bool :=
  let r := en_rx e in
  let e := e <| en_rx := r <| rx_armed_resp := rx_warm_resp r |> <| rx_armed_final := rx_warm_final r |>
                           <| rx_prepoll_ip := ip |> |> in
  (e, CmdSts (rx_warm r) ::
      (if gated e accepts then [CmdRxAt (u32 (ip + CCC_RX_SLOT_HI32 - CCC_RX_POLL_LEAD))] else []),
   gated e accepts).

(** The transmission is not gated. *)
Definition tx_response_sp3 (poll_ip : Z) (accepts : bool) (e : uwb_engine) : list radio_cmd :=
  CmdSts (rx_armed_resp (en_rx e)) ::
  (if accepts then [CmdTxAt (u32 (poll_ip + CCC_RESP_SLOT_HI32 + RESPONDER_INDEX * CCC_SLOT_NOMINAL_HI32))] else []).

Definition arm_final_sp3 (poll_ip : Z) (accepts : bool) (e : uwb_engine) : list radio_cmd :=
  CmdSts (rx_armed_final (en_rx e)) ::
  (if gated e accepts
   then [CmdRxAt (u32 (poll_ip + FINAL_SLOT_OFFSET * CCC_RX_SLOT_HI32 - CCC_RX_POLL_LEAD))] else []).

Definition arm_final_data_sp0 (final_ip sys : Z) (accepts : bool) (e : uwb_engine) : list radio_cmd * bool :=
  let dx := u32 (final_ip + CCC_FDRX_OPEN_HI32) in
  let margin := swrap 32 (wrap 32 (dx - sys)) in
  let dx := if margin <? CCC_FDRX_MIN_AHEAD then u32 (sys + CCC_FDRX_MIN_AHEAD) else dx in
  (CmdOff :: (if gated e accepts then [CmdRxSp0At dx] else []), gated e accepts).

(** The deferred decode of the stashed Pre-POLL. *)
Definition flush_pending (e : uwb_engine) : uwb_engine :=
  if rx_pending (en_rx e)
  then prepoll_decode (rx_stash (en_rx e)) (up_rx (fun r => r <| rx_pending := false |>) e) else e.

(** ** The receive callback *)

(** The 40-bit timestamp, zero when the radio has none, and its upper bits. *)
Definition ev_ip40 (ev : rx_done_event) : Z := if bit_set (ev_status ev) INT_CIADONE then ts5_to_u64 (ev_ts ev) else 0.

Definition ev_ip (ev : rx_done_event) : Z := u32 (Z.shiftr (ev_ip40 ev) 8).

Definition ev_cper (ev : rx_done_event) : bool := bit_set (ev_status ev) STATUS_CPER.

(** A cleanly received Pre-POLL header. *)
Definition ev_is_pp (ev : rx_done_event) : bool :=
  bit_set (ev_status ev) INT_RXPHD && bit_set (ev_status ev) INT_RXFCG && (CCC_MHR_LEN <=? ev_len ev)
  && match ccc_parse_mhr (take (Z.to_nat CCC_MHR_LEN) (ev_data ev)) with
     | Some m => mhr_msg_id m =? CCC_MSG_ID_PRE_POLL
     | None => false
     end.

(** The capture of the Final: its timestamp, its STS verdict and the indices
    that its Final_Data has to match. *)
Definition capture_final (ev : rx_done_event) (r : ccc_rx) : ccc_rx :=
  let r := r <| rx_await_final := false |> in
  if ev_ip ev =? 0 then r
  else
    let r := r <| rx_t_final_rx := ev_ip40 ev |> in
    let r := if FINAL_SNAPSHOT
             then r <| rx_final_round := Some (u32 (rx_t_resp_tx r - rx_t_poll_rx r),
                                               u32 (rx_t_final_rx r - rx_t_resp_tx r)) |> else r in
    r <| rx_final_sts := (if ev_cper ev then -1 else (ev_quality ev).1, (ev_quality ev).2) |>
      <| rx_evidence := match rx_session_block r with
                        | Some _ => Some (u32 (rx_armed_index r + FINAL_SLOT_OFFSET), rx_armed_index r)
                        | None => None
                        end |>.

Definition on_final (ev : rx_done_event) (e : uwb_engine) : uwb_engine * list radio_cmd :=
  let e := up_rx (capture_final ev) e in
  if FINAL_SNAPSHOT then
    let cmds :=
      if ev_ip ev =? 0 then revert_to_sp0_listen e
      else
        let '(cmds, armed) := arm_final_data_sp0 (ev_ip ev) (ev_sys ev) (ev_accepts ev) e in
        if armed then cmds else cmds ++ revert_to_sp0_listen e in
    (flush_pending e, cmds)
  else (e, revert_to_sp0_listen e).

(** The result of a POLL window. *)
Definition on_poll (ev : rx_done_event) (e : uwb_engine) : uwb_engine * list radio_cmd :=
  let e := up_rx (fun r => r <| rx_await_poll := false |>) e in
  let good := negb (ev_cper ev) && negb (ev_ip ev =? 0) && ccc_block_is_ours (en_rx e) in
  let e := up_rx (up_stat (fun s =>
    let s := s <| st_last_poll_st := ev_status ev |> in
    if good then s <| st_poll_ok := u32 (st_poll_ok s + 1) |>
    else s <| st_poll_fail := u32 (st_poll_fail s + 1) |>)) e in
  if good then
    let e := up_rx (fun r => r <| rx_poll_ip_for_final := ev_ip ev |> <| rx_t_poll_rx := ev_ip40 ev |>) e in
    let cmds := tx_response_sp3 (ev_ip ev) (ev_accepts ev) e in
    if ev_accepts ev then (up_rx (up_stat (fun s => s <| st_resp_tx := u32 (st_resp_tx s + 1) |>)) e, cmds)
    else (flush_pending e, cmds ++ revert_to_sp0_listen e)
  else (flush_pending e, revert_to_sp0_listen e).

(** A Pre-POLL with a warm index that has not been armed. *)
Definition on_prepoll (ev : rx_done_event) (e : uwb_engine) : uwb_engine * list radio_cmd :=
  let e := up_rx (fun r => r <| rx_armed_index := rx_warm_index r |>) e in
  let '(e, cmds, armed) := arm_poll_sp3 (ev_ip ev) (ev_accepts ev) e in
  if armed then
    (up_rx (fun r => up_stat (fun s => s <| st_poll_arm := u32 (st_poll_arm s + 1) |>) (r <| rx_await_poll := true |>)) e,
     cmds)
  else
    (up_rx (up_stat (fun s => s <| st_arm_fail := u32 (st_arm_fail s + 1) |>)) e, cmds ++ listen e).

Definition prepoll_rx_rearm (ev : rx_done_event) (e : uwb_engine) : uwb_engine * list radio_cmd :=
  let r := en_rx e in
  if rx_await_final r then on_final ev e
  else if rx_await_poll r then on_poll ev e
  else if ev_is_pp ev && rx_warm_valid r && negb (ev_ip ev =? 0) && negb (rx_warm_index r =? rx_armed_index r)
  then on_prepoll ev e
  else (e, listen e).

(** The response has left the antenna. *)
Definition resp_tx_done (tx : tx_event) (e : uwb_engine) : uwb_engine * list radio_cmd :=
  let e := up_rx (fun r => r <| rx_t_resp_tx := ts5_to_u64 (tx_ts tx) |>) e in
  let cmds := arm_final_sp3 (rx_poll_ip_for_final (en_rx e)) (tx_accepts tx) e in
  let armed := gated e (tx_accepts tx) in
  let e' := if armed then up_rx (fun r => r <| rx_await_final := true |>) e else e in
  let cmds := if armed then cmds else cmds ++ revert_to_sp0_listen e in
  (if FINAL_SNAPSHOT then e' else flush_pending e', cmds).

(** ** The interception of the callbacks *)

(** [shim_rxok]: the callback first, then the frame, but for the event of a
    POLL window. *)
Definition shim_rxok (ev : rx_done_event) (e : uwb_engine) : uwb_engine * list radio_cmd * bool :=
  let await := rx_await_poll (en_rx e) in
  let '(e, cmds) := prepoll_rx_rearm ev e in
  if await then (e, cmds, false)
  else
    let '(e, woken) := ccc_shim_rx_try_prepoll (ev_now ev) (take (Z.to_nat (ev_len ev)) (ev_data ev)) e in
    (e, cmds, woken).

(** ** The listener *)

(** [ccc_prepoll_listen], when [prepoll_apply_phy] succeeds. *)
Definition ccc_prepoll_listen (e : uwb_engine) : uwb_engine :=
  up_rx (fun r => ccc_shim_rx_log_reset r <| rx_listen_gate := true |>) e.

Definition ccc_prepoll_stop (e : uwb_engine) : uwb_engine :=
  up_rx (fun r =>
    let r := r <| rx_listen_gate := false |> in
    if negb (st_prepoll_ok (rx_stat r) =? 0) || negb (st_poll_arm (rx_stat r) =? 0)
    then r <| rx_stat := rx_stats_zero |> else r) e.

(** ** The facade *)

Record cred_cfg := {
  cc_session_id : Z;
  cc_channel : Z;
  cc_sync_code_index : Z;
  cc_slot_duration_rstu : Z;
  cc_block_duration_ms : Z;
  cc_slot_per_round : Z;
  cc_sts_index0 : Z;
  cc_uwb_time_us : Z;
  cc_ursk : list Z;
  cc_ranging_config : list Z;
}.

(** The stash of the URSK and the session identifier, emptied. *)
Definition forget_session (e : uwb_engine) : uwb_engine :=
  e <| en_fira := fira_session_set_id 0 (fira_session_set_provisioned_ursk None (en_fira e)) |>.

Definition ultrawidelock_uwb_stop (e : uwb_engine) : uwb_engine :=
  ccc_prepoll_stop (forget_session (e <| en_shim := ccc_shim_unbound |>)).

(** [radio]: [prepoll_apply_phy] brings the radio up on the channel and the
    preamble code. *)
Definition ultrawidelock_uwb_start_cred (radio : Z -> Z -> bool) (c : cred_cfg) (e : uwb_engine)
    : uwb_engine * bool :=
  let f := fira_session_set_id (cc_session_id c)
             (fira_session_set_provisioned_ursk (Some (cc_ursk c)) (fira_session_reset_ranges (en_fira e))) in
  let e := e <| en_fira := f |> in
  let config := match cc_ranging_config c with [] => cc_ursk c | rc => rc end in
  let n_slot := if cc_slot_per_round c =? 0 then 1 else cc_slot_per_round c in
  match ccc_shim_bind_from_ursk (cc_ursk c) config (cc_sts_index0 c) n_slot (en_shim e) with
  | None => (forget_session e, false)
  | Some g =>
      let e := up_rx ccc_shim_rx_log_reset (e <| en_shim := g |>) in
      if radio (cc_channel c) (cc_sync_code_index c) then
        (ccc_prepoll_listen e <| en_start_gen := u32 (en_start_gen e + 1) |>, true)
      else (forget_session (e <| en_shim := ccc_shim_unbound |>), false)
  end.
End Radio.
