(* ===== verification/CccRxProps.v ===== *)
(** * Distances come from authenticated rounds

    A distance is latched only from a Final_Data that the holder of the round's
    key encrypted for this session and this round, and at most one per response
    sent; an honest Final_Data is accepted and gives the time of flight. *)

From Stdlib Require Import ZArith Lia Bool.
From stdpp Require Import base list numbers option.
From S2P Require Import Prelude Wire MatterCrypto CccKdf CccMac FiraRange CccRx.

Local Open Scope Z_scope.
Local Open Scope uwl_scope.

(** ** Ranging arithmetic *)

(** Two consistent round trips give the time of flight exactly. *)
Lemma ds_twr_exact tof a b : 0 <= tof < 2 ^ 30 -> 0 <= a -> 0 <= b -> 0 < tof + a + b ->
  2 * tof + a < 2 ^ 31 -> 2 * tof + b < 2 ^ 31 ->
  ds_twr_tof_signed {| t_round1 := 2 * tof + a; t_reply1 := a; t_round2 := 2 * tof + b; t_reply2 := b |} = tof.
Proof.
  intros H1 H2 H3 H4 H5 H6. unfold ds_twr_tof_signed. cbn [t_round1 t_reply1 t_round2 t_reply2].
  assert (P1 : 0 <= (2 * tof + a) * (2 * tof + b) < 2 ^ 62) by nia.
  assert (P2 : 0 <= a * b < 2 ^ 62) by nia.
  cbv zeta. rewrite !(swrap_wrap 64) by (unfold in_i; lia).
  rewrite (swrap_id 64 (_ - _)) by (unfold in_i; lia).
  replace ((2 * tof + a) * (2 * tof + b) - a * b) with (tof * (2 * (2 * tof + a + b))) by ring.
  replace (2 * tof + a + (2 * tof + b) + a + b) with (2 * (2 * tof + a + b)) by ring.
  rewrite (proj2 (Z.eqb_neq _ _)) by lia. cbn [negb]. rewrite Z.quot_mul by lia.
  apply swrap_id; [lia|]. unfold in_i. lia.
Qed.

(** Round trips below 2^31 ticks (34 ms) never overflow the subtraction, ... *)
Lemma ds_twr_in_range t : 0 <= t_round1 t < 2 ^ 31 -> 0 <= t_round2 t < 2 ^ 31 ->
  0 <= t_reply1 t < 2 ^ 31 -> 0 <= t_reply2 t < 2 ^ 31 ->
  let num := t_round1 t * t_round2 t - t_reply1 t * t_reply2 t in
  let den := t_round1 t + t_round2 t + t_reply1 t + t_reply2 t in
  in_i 64 num /\ ds_twr_tof_signed t = (if den =? 0 then 0 else num ÷ den).
Proof.
  intros A1 A2 A3 A4 num den.
  assert (P1 : 0 <= t_round1 t * t_round2 t < 2 ^ 62) by nia.
  assert (P2 : 0 <= t_reply1 t * t_reply2 t < 2 ^ 62) by nia.
  assert (N : in_i 64 num) by (subst num; unfold in_i; lia). split; [done|].
  unfold ds_twr_tof_signed. cbv zeta. rewrite !(swrap_wrap 64) by (unfold in_i; lia).
  fold num den. rewrite (swrap_id 64 num) by (done || lia).
  destruct (den =? 0) eqn:D; [done|]. cbn [negb]. apply Z.eqb_neq in D. apply swrap_id; [lia|].
  assert (Hd : 0 < den) by (subst den; lia).
  assert (Hn : Z.abs num <= 2 ^ 31 * den - 1) by (subst num den; nia).
  assert (Q : Z.abs (num ÷ den) < 2 ^ 31).
  { rewrite <- Z.quot_abs by lia. rewrite (Z.abs_eq den) by lia. apply Z.quot_lt_upper_bound; lia. }
  unfold in_i. lia.
Qed.

(** ... and longer ones do: the exact difference leaves the 64-bit range. *)
Lemma ds_twr_overflow :
  let t := {| t_round1 := 2 ^ 31; t_round2 := 2 ^ 31; t_reply1 := 0xC0000000; t_reply2 := 0xC0000000 |} in
  ~ in_i 64 (i64 (wrap 64 (t_round1 t * t_round2 t)) - i64 (wrap 64 (t_reply1 t * t_reply2 t))).
Proof. intros t [_ H]. vm_compute in H. discriminate H. Qed.

(** The distance of a time of flight, with nothing narrowed. *)
Definition true_mm (bias tof : Z) : Z := (tof * 4692) ÷ 1000 + bias.

(** The bias Kconfig admits. *)
Definition bias_ok (bias : Z) : Prop := -1000 <= bias <= 1000.

Section Rx.
Context `{C : BlockCipher} `{F : fira_cfg} `{K : rx_cfg} `{G : Residue}.

(** ** What the callbacks leave as it is *)

(** The range store and the capture of the round. *)
Definition round_of (e : uwb_engine) : fira_session * option (Z * Z) * bool :=
  (en_fira e, rx_evidence (en_rx e), rx_await_final (en_rx e)).

Lemma round_up_rx f e : rx_evidence (f (en_rx e)) = rx_evidence (en_rx e) ->
  rx_await_final (f (en_rx e)) = rx_await_final (en_rx e) -> round_of (up_rx f e) = round_of e.
Proof. intros H1 H2. unfold round_of. cbn. by rewrite H1, H2. Qed.

Lemma round_shim g e : round_of (e <| en_shim := g |>) = round_of e.
Proof. reflexivity. Qed.

Lemma warm_next_round widx e : round_of (warm_next widx e) = round_of e.
Proof. unfold warm_next. repeat case_match; reflexivity. Qed.

Lemma accept_prepoll_round c pp e : round_of (accept_prepoll c pp e) = round_of e.
Proof.
  unfold accept_prepoll. set (e1 := up_rx _ e).
  assert (B : round_of e1 = round_of e) by (apply round_up_rx; cbv zeta; by case_match).
  case_match; [done|]. by rewrite warm_next_round.
Qed.

Lemma derive_sp0_round u i e : round_of (up_rx (derive_sp0_keys u i) e) = round_of e.
Proof. apply round_up_rx; unfold derive_sp0_keys; cbv zeta; by destruct (ccc_uad_addresses _) as [[? ?] ?]. Qed.

Lemma prepoll_decode_round frame e : round_of (prepoll_decode frame e) = round_of e.
Proof.
  unfold prepoll_decode. repeat (case_match; try done); rewrite ?accept_prepoll_round; try done; apply derive_sp0_round.
Qed.

Lemma flush_pending_round e : round_of (flush_pending e) = round_of e.
Proof. unfold flush_pending. case_match; by rewrite ?prepoll_decode_round. Qed.

(** The deferred Pre-POLL of the dispatch. *)
Definition settled (data : list Z) (e : uwb_engine) : uwb_engine :=
  up_rx (fun r => r <| rx_stash := data |>) (flush_pending e).

Lemma settled_round data e : round_of (settled data e) = round_of e.
Proof. rewrite <- (flush_pending_round e). reflexivity. Qed.

(** ** Which frames are believed *)

(** What makes a frame a Final_Data of the round that engine [e] has captured. *)
Record authentic_final (e : uwb_engine) (frame : list Z) (mhr : ccc_mhr_fields) (fd : ccc_final_data) : Prop := {
  au_header : ccc_parse_mhr frame = Some mhr /\ mhr_msg_id mhr = CCC_MSG_ID_FINAL_DATA
    /\ CCC_MHR_LEN + mhr_payload_len mhr + Z.of_nat CCC_SP0_MIC_LEN <= zlen frame;
  au_sealed : exists ks index poll dudsk plain,
    rx_uad (en_rx e) = Some ks /\ mhr_context_ok ks mhr = true
    /\ rx_evidence (en_rx e) = Some (index, poll)
    /\ (ccc_shim_dudsk_for_index poll (en_shim e)).2 = Some dudsk
    /\ ccc_sp0_decrypt dudsk (uk_src_long ks) (mhr_frame_counter mhr) (take (Z.to_nat CCC_MHR_LEN) frame)
         (sp0_payload (mhr_payload_len mhr) frame) (sp0_mic (mhr_payload_len mhr) frame) = SP0_OK plain
    /\ ccc_final_data_parse plain = Some fd /\ fd_final_sts_index fd = index;
  au_session : fd_uwb_session_id fd = fi_session_id (en_fira e);
  au_fresh : stale (rx_final_counter (en_rx e)) (mhr_frame_counter mhr) = false;
}.

(** A Final_Data that is not believed leaves the round as it is; one that is
    consumes it. *)
Lemma final_data_cases now frame e :
  (exists mhr fd, authentic_final e frame mhr fd /\ rx_evidence (en_rx (final_data_decode now frame e).1) = None
     /\ rx_await_final (en_rx (final_data_decode now frame e).1) = rx_await_final (en_rx e)
     /\ rx_final_counter (en_rx (final_data_decode now frame e).1) = Some (mhr_frame_counter mhr))
  \/ round_of (final_data_decode now frame e).1 = round_of e.
Proof.
  unfold final_data_decode. cbv zeta. set (e0 := up_rx _ e).
  assert (B : round_of e0 = round_of e) by done.
  assert (A : forall mhr fd, authentic_final e0 frame mhr fd -> authentic_final e frame mhr fd) by (by intros ? ? []; split).
  rewrite <- B. change (rx_await_final (en_rx e)) with (rx_await_final (en_rx e0)). clearbody e0. clear B.
  destruct (ccc_parse_mhr frame) as [mhr|] eqn:Em; [|by right].
  destruct (mhr_msg_id mhr =? CCC_MSG_ID_FINAL_DATA) eqn:Ei; cbn [negb]; [|by right]. apply Z.eqb_eq in Ei.
  destruct (rx_uad (en_rx e0)) as [ks|] eqn:Eu; [|by right].
  destruct (mhr_context_ok ks mhr) eqn:Ec; cbn [negb]; [|by right].
  destruct ((PLAIN_MAX <? mhr_payload_len mhr) || _) eqn:El; [by right|].
  destruct (rx_evidence (en_rx e0)) as [[index poll]|] eqn:Ee; [|by right].
  destruct (ccc_shim_dudsk_for_index poll (en_shim e0)) as [g [dudsk|]] eqn:Ed; [|by right].
  destruct (ccc_sp0_decrypt _ _ _ _ _ _) as [plain| | |] eqn:Es; try (by right).
  destruct (ccc_final_data_parse plain) as [fd|] eqn:Ef; [|by right].
  destruct (fd_num_responders fd =? 0); [by right|].
  destruct (negb (fd_uwb_session_id fd =? fi_session_id (en_fira (e0 <| en_shim := g |>))) || _ || _) eqn:Ex; [by right|].
  left. exists mhr, fd. apply orb_false_iff in Ex as [Ex Ex3]. apply orb_false_iff in Ex as [Ex1 Ex2].
  apply negb_false_iff, Z.eqb_eq in Ex1, Ex2. apply orb_false_iff in El as [_ El]. apply Z.ltb_ge in El.
  split.
  { apply A. split; [done| |done|done]. exists ks, index, poll, dudsk, plain. rewrite Ed. repeat (split; [done|]).
    done. }
  set (e1 := e0 <| en_shim := g |>). set (e2 := up_rx _ e1).
  assert (L : rx_await_final (en_rx (latch_range now fd e2).1) = rx_await_final (en_rx e2)
              /\ rx_final_counter (en_rx (latch_range now fd e2).1) = rx_final_counter (en_rx e2)).
  { unfold latch_range. repeat (case_match; try done). }
  destruct (latch_range now fd e2) as [e3 w]. cbn [fst] in L |- *. destruct L as [L1 L2].
  unfold consume_evidence. destruct FINAL_SNAPSHOT; (split; [reflexivity|split; [exact L1|exact L2]]).
Qed.

Lemma on_final_round ev e :
  round_of (on_final ev e).1 = (en_fira e,
    if ev_ip ev =? 0 then rx_evidence (en_rx e)
    else match rx_session_block (en_rx e) with
         | Some _ => Some (u32 (rx_armed_index (en_rx e) + FINAL_SLOT_OFFSET), rx_armed_index (en_rx e))
         | None => None end, false).
Proof.
  assert (A : round_of (up_rx (capture_final ev) e) = (en_fira e,
    if ev_ip ev =? 0 then rx_evidence (en_rx e)
    else match rx_session_block (en_rx e) with
         | Some _ => Some (u32 (rx_armed_index (en_rx e) + FINAL_SLOT_OFFSET), rx_armed_index (en_rx e))
         | None => None end, false)).
  { unfold capture_final. cbv zeta. unfold round_of. cbn [en_fira up_rx]. destruct (ev_ip ev =? 0), FINAL_SNAPSHOT; done. }
  unfold on_final. destruct FINAL_SNAPSHOT; cbn [fst]; [by rewrite flush_pending_round|exact A].
Qed.

Lemma rearm_round ev e : rx_await_final (en_rx e) = false -> round_of (prepoll_rx_rearm ev e).1 = round_of e.
Proof.
  intros Ha. unfold prepoll_rx_rearm, on_poll, on_prepoll, arm_poll_sp3. rewrite Ha. cbv zeta.
  repeat case_match; cbn [fst]; rewrite ?flush_pending_round; simplify_eq; try done.
Qed.

Lemma try_prepoll_cases now frame e :
  (exists mhr fd, authentic_final (settled frame e) frame mhr fd
     /\ rx_evidence (en_rx (ccc_shim_rx_try_prepoll now frame e).1) = None
     /\ rx_await_final (en_rx (ccc_shim_rx_try_prepoll now frame e).1) = rx_await_final (en_rx e)
     /\ rx_final_counter (en_rx (ccc_shim_rx_try_prepoll now frame e).1) = Some (mhr_frame_counter mhr))
  \/ round_of (ccc_shim_rx_try_prepoll now frame e).1 = round_of e.
Proof.
  unfold ccc_shim_rx_try_prepoll. destruct (_ || _); [by right|]. destruct (_ <? _); [by right|]. cbv zeta.
  change (if rx_pending (en_rx e) then prepoll_decode _ _ else e) with (flush_pending e). fold (settled frame e).
  pose proof (settled_round frame e) as B.
  set (final := if CCC_MHR_LEN <=? zlen frame then _ else false). clearbody final. destruct final.
  - destruct (final_data_cases now frame (settled frame e)) as [(mhr & fd & H1 & H2 & H3 & H4)|H].
    + left. exists mhr, fd. split; [done|]. split; [done|]. split; [|done]. rewrite H3. by injection B.
    + right. by rewrite H.
  - right. destruct (negb (rx_warm_valid _)); cbn [fst]; [by rewrite prepoll_decode_round|]. by rewrite <- B.
Qed.

(** ** Runs *)

Inductive rx_step := RxFrame (ev : rx_done_event) | RxSent (tx : tx_event).

Definition rx_do (st : rx_step) (e : uwb_engine) : uwb_engine :=
  match st with RxFrame ev => (shim_rxok ev e).1.1 | RxSent tx => (resp_tx_done tx e).1 end.

(** Whether a step latched or refused a distance, and whether it reported the
    end of a response. *)
Definition latches (st : rx_step) (e : uwb_engine) : bool :=
  negb (bool_decide (fi_range_generation (en_fira (rx_do st e)) = fi_range_generation (en_fira e))).

Definition is_sent (st : rx_step) : bool := match st with RxSent _ => true | _ => false end.

Fixpoint rx_run (steps : list rx_step) (e : uwb_engine) : uwb_engine :=
  match steps with [] => e | st :: rest => rx_run rest (rx_do st e) end.

Fixpoint latched_count (steps : list rx_step) (e : uwb_engine) : Z :=
  match steps with [] => 0 | st :: rest => Z.b2z (latches st e) + latched_count rest (rx_do st e) end.

Fixpoint responses (steps : list rx_step) : Z :=
  match steps with [] => 0 | st :: rest => Z.b2z (is_sent st) + responses rest end.

(** What a round still owes: a Final that is awaited, or one that was captured. *)
Definition owed (e : uwb_engine) : Z :=
  Z.b2z (rx_await_final (en_rx e)) + (match rx_evidence (en_rx e) with Some _ => 1 | None => 0 end).

Definition owed_of (r : fira_session * option (Z * Z) * bool) : Z :=
  Z.b2z r.2 + (match r.1.2 with Some _ => 1 | None => 0 end).

Lemma owed_round e : owed e = owed_of (round_of e).
Proof. reflexivity. Qed.

Lemma resp_tx_done_round tx e : exists a, round_of (resp_tx_done tx e).1 = (en_fira e, rx_evidence (en_rx e), a).
Proof.
  unfold resp_tx_done. cbv zeta. set (e1 := up_rx _ e).
  assert (exists a, round_of (if gated e1 (tx_accepts tx) then up_rx (fun r => r <| rx_await_final := true |>) e1 else e1)
            = (en_fira e, rx_evidence (en_rx e), a)) as [a H] by (destruct (gated e1 _); by eexists).
  exists a. destruct FINAL_SNAPSHOT; cbn [fst]; [exact H|]. by rewrite flush_pending_round.
Qed.

Lemma rearm_owed ev e : en_fira (prepoll_rx_rearm ev e).1 = en_fira e /\ owed (prepoll_rx_rearm ev e).1 <= owed e.
Proof.
  destruct (rx_await_final (en_rx e)) eqn:A.
  - assert (E : prepoll_rx_rearm ev e = on_final ev e) by (unfold prepoll_rx_rearm; by rewrite A).
    rewrite E, !owed_round. pose proof (on_final_round ev e) as R. split; [by injection R|].
    rewrite R. unfold owed_of, round_of. rewrite A. cbn [fst snd Z.b2z]. repeat case_match; lia.
  - pose proof (rearm_round ev e A) as R. rewrite !owed_round, R. split; [by injection R|lia].
Qed.

Lemma dispatch_owed now frame e :
  let e' := (ccc_shim_rx_try_prepoll now frame e).1 in
  en_fira e' = en_fira e /\ owed e' = owed e \/ owed e' + 1 <= owed e.
Proof.
  cbv zeta. destruct (try_prepoll_cases now frame e) as [(mhr & fd & H1 & H2 & H3 & _)|H].
  - right. destruct H1 as [_ (ks & index & poll & dudsk & plain & _ & _ & E & _) _ _].
    pose proof (settled_round frame e) as B. unfold owed. rewrite H2, H3.
    assert (rx_evidence (en_rx e) = Some (index, poll)) as -> by (rewrite <- E; by injection B). lia.
  - left. rewrite !owed_round, H. split; [by injection H|done].
Qed.

Lemma owed_step st e : Z.b2z (latches st e) + owed (rx_do st e) <= owed e + Z.b2z (is_sent st).
Proof.
  assert (S : forall e', en_fira e' = en_fira e -> bool_decide (fi_range_generation (en_fira e') = fi_range_generation (en_fira e)) = true)
    by (intros e' ->; by apply bool_decide_true).
  unfold latches. destruct st as [ev|tx]; cbn [rx_do is_sent].
  - unfold shim_rxok. pose proof (rearm_owed ev e) as [R1 R2]. destruct (prepoll_rx_rearm ev e) as [e1 cmds]. cbn [fst] in R1, R2.
    destruct (rx_await_poll (en_rx e)); [cbn [fst]; rewrite S by done; cbn [negb Z.b2z]; lia|].
    pose proof (dispatch_owed (ev_now ev) (take (Z.to_nat (ev_len ev)) (ev_data ev)) e1) as D. cbv zeta in D.
    destruct (ccc_shim_rx_try_prepoll _ _ e1) as [e2 w]. cbn [fst] in D |- *. destruct D as [[D1 D2]|D].
    + rewrite S by congruence. cbn [negb Z.b2z]. lia.
    + destruct (bool_decide _); cbn [negb Z.b2z]; lia.
  - destruct (resp_tx_done_round tx e) as [a R]. rewrite S by (by injection R). rewrite !owed_round, R.
    unfold owed_of, round_of. cbn [fst snd negb Z.b2z]. destruct a, (rx_await_final (en_rx e)); cbn [Z.b2z]; lia.
Qed.

Lemma owed_nonneg e : 0 <= owed e.
Proof. unfold owed. destruct (rx_await_final _); repeat case_match; cbn; lia. Qed.

Lemma believed_bound steps e : latched_count steps e <= responses steps + owed e.
Proof.
  revert e. induction steps as [|st steps IH]; intros e; cbn [latched_count responses]; [pose proof (owed_nonneg e); lia|].
  pose proof (owed_step st e). pose proof (IH (rx_do st e)). lia.
Qed.

(** C4: a distance enters the range store only from a frame that the holder of
    the round's own key made: the frame is a Final_Data for this session and for
    the Final that was captured, its counter is fresh, its MIC and payload are
    what SP0 encryption under the DUDSK of that round yields, and it uses the
    capture up.  Over a whole run, from the start of a session, the responder
    believes at most one distance per response it has sent. *)
Theorem range_needs_final_data `{L : !BlockCipherLaws C} :
  (forall ev e, Forall byte_ok (ev_data ev) ->
     let frame := take (Z.to_nat (ev_len ev)) (ev_data ev) in
     let e1 := settled frame (prepoll_rx_rearm ev e).1 in
     let e2 := rx_do (RxFrame ev) e in
     en_fira e2 <> en_fira e ->
     exists mhr fd ks index poll dudsk plain,
       ccc_parse_mhr frame = Some mhr /\ mhr_msg_id mhr = CCC_MSG_ID_FINAL_DATA
       /\ rx_uad (en_rx e1) = Some ks /\ mhr_context_ok ks mhr = true
       /\ stale (rx_final_counter (en_rx e1)) (mhr_frame_counter mhr) = false
       /\ rx_evidence (en_rx e1) = Some (index, poll)
       /\ (ccc_shim_dudsk_for_index poll (en_shim e1)).2 = Some dudsk
       /\ ccc_final_data_parse plain = Some fd /\ fd_final_sts_index fd = index
       /\ fd_uwb_session_id fd = fi_session_id (en_fira e)
       /\ ccc_sp0_encrypt dudsk (uk_src_long ks) (mhr_frame_counter mhr) (take (Z.to_nat CCC_MHR_LEN) frame) plain
          = Some (sp0_payload (mhr_payload_len mhr) frame, sp0_mic (mhr_payload_len mhr) frame)
       /\ rx_evidence (en_rx e2) = None /\ rx_final_counter (en_rx e2) = Some (mhr_frame_counter mhr))
  /\ (forall steps e, latched_count steps (up_rx ccc_shim_rx_log_reset e) <= responses steps).
Proof.
  split.
  - intros ev e Hb frame e1 e2 Hne. unfold e2, rx_do, shim_rxok in *. clear e2.
    pose proof (rearm_owed ev e) as [R1 _]. destruct (prepoll_rx_rearm ev e) as [ea cmds]. cbn [fst] in R1, e1.
    destruct (rx_await_poll (en_rx e)); [done|]. fold frame in Hne |- *.
    pose proof (try_prepoll_cases (ev_now ev) frame ea) as T. fold e1 in T.
    destruct (ccc_shim_rx_try_prepoll (ev_now ev) frame ea) as [eb w]. cbn [fst] in *.
    destruct T as [(mhr & fd & [[H1 [H2 H3]] H4 H5 H6] & H7 & _ & H8)|T]; [|exfalso; apply Hne; rewrite <- R1; by injection T].
    destruct H4 as (ks & index & poll & dudsk & plain & A1 & A2 & A3 & A4 & A5 & A6 & A7).
    exists mhr, fd, ks, index, poll, dudsk, plain. repeat (split; [done|]). split.
    { rewrite H5, <- R1. pose proof (settled_round frame ea) as B. fold e1 in B. f_equal. by injection B. }
    split; [|done]. assert (Hf : Forall byte_ok frame) by (by apply Forall_take).
    apply sp0_open in A5 as [A5 _]; [exact A5|..].
    + by apply Forall_take, Forall_drop.
    + by apply Forall_take, Forall_drop.
    + unfold sp0_mic. rewrite length_take, length_drop. unfold zlen in H3.
      assert (0 <= mhr_payload_len mhr).
      { unfold ccc_parse_mhr in H1. destruct (_ || _); [done|]. injection H1 as <-. apply (byte_at_ok frame 20 Hf). }
      unfold CCC_MHR_LEN, CCC_SP0_MIC_LEN in *. lia.
  - intros steps e. pose proof (believed_bound steps (up_rx ccc_shim_rx_log_reset e)) as H.
    change (owed (up_rx ccc_shim_rx_log_reset e)) with 0 in H. lia.
Qed.

(** ** An honest round *)

Section Honest.
Context `{L : !BlockCipherLaws C}.

Lemma sp0_encrypt_shape key src ctr mhr p ct mic : Forall byte_ok p ->
  ccc_sp0_encrypt key src ctr mhr p = Some (ct, mic) ->
  length ct = length p /\ length mic = CCC_SP0_MIC_LEN /\ Forall byte_ok ct /\ Forall byte_ok mic.
Proof.
  intros Hp. unfold ccc_sp0_encrypt. destruct (sp0_too_big mhr p); [done|].
  destruct (sp0_cbc_mac _ _ mhr p) as [x|] eqn:X; [|done]. cbn [mbind option_bind].
  destruct (sp0_ctr _ _ p) as [[out s0]|] eqn:E; [|done]. cbn [mbind option_bind fst snd]. intros H.
  apply (inj Some) in H. injection H as -> <-. destruct (sp0_mac_length _ _ _ _ _ X) as [X1 X2].
  destruct (sp0_ctr_twice _ _ _ _ _ E) as (H1 & H2 & H3 & H4 & _).
  split; [done|]. split; [rewrite xor_bytes_length, length_take, X1, H3; done|]. split; [by apply H2|].
  apply xor_bytes_ok; [by apply Forall_take|done].
Qed.

(** The parts of a frame put together. *)
Lemma frame_parts mhr ct mic : mhr_ok mhr -> length mic = CCC_SP0_MIC_LEN ->
  let frame := ccc_build_mhr mhr ++ ct ++ mic in
  take (Z.to_nat CCC_MHR_LEN) frame = ccc_build_mhr mhr /\ sp0_payload (zlen ct) frame = ct
  /\ sp0_mic (zlen ct) frame = mic /\ zlen frame = CCC_MHR_LEN + zlen ct + Z.of_nat CCC_SP0_MIC_LEN.
Proof.
  intros H Hm frame. pose proof (length_mhr mhr (proj1 (mo_source mhr H))) as Hl. unfold frame, sp0_payload, sp0_mic.
  change (Z.to_nat CCC_MHR_LEN) with 23%nat. split; [by rewrite <- Hl, take_app_length|]. split; [|split].
  - rewrite <- Hl, drop_app_length. unfold zlen. by rewrite Nat2Z.id, take_app_length.
  - replace (Z.to_nat (CCC_MHR_LEN + zlen ct)) with (23 + length ct)%nat by (unfold CCC_MHR_LEN, zlen; lia).
    rewrite <- drop_drop, <- Hl, drop_app_length, drop_app_length. rewrite <- Hm. by rewrite firstn_all.
  - rewrite !zlen_app. unfold zlen at 1 3. rewrite Hl, Hm. unfold CCC_MHR_LEN. lia.
Qed.

(** A true distance of at most 30 m survives the narrowing ... *)
Lemma distance_mm_true tof : bias_ok RANGE_BIAS_MM -> fira_session_range_plausible (true_mm RANGE_BIAS_MM tof ÷ 10) = true ->
  distance_mm tof = true_mm RANGE_BIAS_MM tof.
Proof.
  unfold bias_ok, true_mm, distance_mm, fira_session_range_plausible, FIRA_RANGE_NEG_TOL_CM, FIRA_RANGE_MAX_CM.
  intros B P.
  set (q := tof * 4692 ÷ 1000) in *. apply andb_true_iff in P as [P1 P2].
  pose proof (Z.quot_rem' (q + RANGE_BIAS_MM) 10) as E. pose proof (Z.rem_bound_abs (q + RANGE_BIAS_MM) 10 ltac:(lia)) as M.
  rewrite (swrap_id 32 q) by (unfold in_i; lia). apply swrap_id; unfold in_i; lia.
Qed.

(** What the initiator and the responder of a round have to share. *)
Record honest_round (e : uwb_engine) (mhr : ccc_mhr_fields) (fd : ccc_final_data) (dudsk plain ct mic : list Z)
    (ks : sp0_keys) (poll : Z) : Prop := {
  hr_active : ccc_shim_active (en_shim e) = true /\ rx_pending (en_rx e) = false;
  hr_keys : rx_uad (en_rx e) = Some ks /\ (ccc_shim_dudsk_for_index poll (en_shim e)).2 = Some dudsk;
  hr_round : rx_evidence (en_rx e) = Some (fd_final_sts_index fd, poll) /\ fd_uwb_session_id fd = fi_session_id (en_fira e);
  hr_header : mhr_ok mhr /\ mhr_msg_id mhr = CCC_MSG_ID_FINAL_DATA /\ mhr_payload_len mhr = zlen plain
              /\ mhr_context_ok ks mhr = true /\ stale (rx_final_counter (en_rx e)) (mhr_frame_counter mhr) = false;
  hr_plain : final_data_ok fd /\ 0 < fd_num_responders fd /\ ccc_final_data_pack fd PLAIN_MAX = Some plain
             /\ Forall byte_ok plain;
  hr_sealed : ccc_sp0_encrypt dudsk (uk_src_long ks) (mhr_frame_counter mhr) (ccc_build_mhr mhr) plain = Some (ct, mic);
}.

Lemma honest_decoded now e mhr fd dudsk plain ct mic ks poll :
  honest_round e mhr fd dudsk plain ct mic ks poll ->
  let frame := ccc_build_mhr mhr ++ ct ++ mic in
  exists e1, en_fira e1 = en_fira e /\ round_times (en_rx e1) = round_times (en_rx e)
    /\ rx_final_sts (en_rx e1) = rx_final_sts (en_rx e)
    /\ ccc_shim_rx_try_prepoll now frame e
       = (up_rx consume_evidence (latch_range now fd e1).1, (latch_range now fd e1).2).
Proof.
  intros [[A1 A2] [K1 K2] [R1 R2] (M1 & M2 & M3 & M4 & M5) (P1 & P2 & P3 & P4) S] frame.
  destruct (sp0_encrypt_shape _ _ _ _ _ _ _ P4 S) as (L1 & L2 & L3 & L4).
  destruct (frame_parts mhr ct mic M1 L2) as (F1 & F2 & F3 & F4). fold frame in F1, F2, F3, F4.
  destruct (final_data_roundtrip fd PLAIN_MAX plain P1 P3) as [D1 D2].
  assert (Lp : mhr_payload_len mhr = zlen ct) by (rewrite M3; unfold zlen; by rewrite L1).
  assert (Hn : zlen ct <= PLAIN_MAX).
  { rewrite <- Lp, M3, D2. pose proof (fo_count fd P1). unfold PLAIN_MAX, CCC_RESPONDER_LEN. lia. }
  pose proof (mhr_roundtrip mhr (ct ++ mic) M1) as Hp. fold frame in Hp. pose proof (zlen_nonneg ct) as H0.
  assert (Hd : ccc_sp0_decrypt dudsk (uk_src_long ks) (mhr_frame_counter mhr) (ccc_build_mhr mhr) ct mic = SP0_OK plain)
    by (by apply sp0_open).
  unfold ccc_shim_rx_try_prepoll. rewrite A1, A2, F4. cbn [negb orb].
  unfold CCC_MHR_LEN, CCC_SP0_MIC_LEN, PLAIN_MAX, CCC_FINAL_DATA_HDR_LEN, CCC_MAX_RESPONDERS, CCC_RESPONDER_LEN in *.
  rewrite (proj2 (Z.eqb_neq _ 0)) by lia. rewrite (proj2 (Z.ltb_ge CCC_SP0_STASH_LEN _)); cycle 1.
  { change CCC_SP0_STASH_LEN with 127. lia. }
  rewrite (proj2 (Z.leb_le 23 _)) by lia. rewrite Hp, M2. cbn [Z.eqb CCC_MSG_ID_FINAL_DATA Pos.eqb]. cbv zeta.
  unfold final_data_decode. rewrite Hp, M2. cbn [Z.eqb CCC_MSG_ID_FINAL_DATA Pos.eqb negb]. cbv zeta.
  set (e0 := up_rx (up_stat _) (up_rx _ e)).
  assert (U : rx_uad (en_rx e0) = Some ks) by exact K1. rewrite U, M4. cbn [negb].
  rewrite Lp. unfold PLAIN_MAX, CCC_MHR_LEN, CCC_SP0_MIC_LEN, CCC_FINAL_DATA_HDR_LEN, CCC_MAX_RESPONDERS, CCC_RESPONDER_LEN.
  rewrite F4. rewrite (proj2 (Z.ltb_ge _ (zlen ct))) by lia. rewrite (proj2 (Z.ltb_ge _ _)) by lia. cbn [orb].
  assert (V : rx_evidence (en_rx e0) = Some (fd_final_sts_index fd, poll)) by exact R1. rewrite V.
  change (en_shim e0) with (en_shim e). destruct (ccc_shim_dudsk_for_index poll (en_shim e)) as [g k]. cbn [snd] in K2. subst k.
  rewrite F1, F2, F3, Hd, D1.
  rewrite (proj2 (Z.eqb_neq (fd_num_responders fd) 0)) by lia.
  change (fi_session_id (en_fira (e0 <| en_shim := g |>))) with (fi_session_id (en_fira e)). rewrite R2, !Z.eqb_refl.
  change (rx_final_counter (en_rx (e0 <| en_shim := g |>))) with (rx_final_counter (en_rx e)). rewrite M5. cbn [negb orb].
  set (e1 := up_rx _ (e0 <| en_shim := g |>)). exists e1. split; [done|]. split; [done|]. split; [done|].
  destruct (latch_range now fd e1) as [e2 w]. reflexivity.
Qed.

(** C13: an honest round gives the true distance.  When the initiator of the
    responder's session packs its timestamps into a Final_Data for the Final the
    responder captured, seals it under the key of that round and sends it with a
    fresh counter, the responder accepts it and latches the distance of the
    signal's time of flight [tof], computed without any narrowing
    ([true_mm]).  The two reply times [a] and [b] are free as long as each round
    trip stays below 2^31 ticks (34 ms); the bias is in the range Kconfig gives
    it, the true distance is between -30 cm and 30 m, and a build with the strict
    gate needs a good STS.  [far_tof_reads_near] shows what the 32-bit distance
    does beyond that. *)
Theorem honest_round_measured now e mhr fd dudsk plain ct mic ks poll rec tof a b :
  honest_round e mhr fd dudsk plain ct mic ks poll ->
  RESPONDER_INDEX < CCC_MAX_RESPONDERS -> fd_record_for fd RESPONDER_INDEX = Some rec ->
  round_times (en_rx e) = Some (a, 2 * tof + b) ->
  rt_timestamp rec = 2 * tof + a -> u32 (fd_ranging_ts_final_tx fd - rt_timestamp rec) = b ->
  0 <= tof < 2 ^ 30 -> 0 <= a -> 0 <= b -> 0 < tof + a + b -> 2 * tof + a < 2 ^ 31 -> 2 * tof + b < 2 ^ 31 ->
  RANGE_GATE_STRICT = false \/ fira_session_sts_quality_ok (rx_final_sts (en_rx e)).1 (rx_final_sts (en_rx e)).2 = true ->
  bias_ok RANGE_BIAS_MM -> fira_session_range_plausible (true_mm RANGE_BIAS_MM tof ÷ 10) = true ->
  exists e', ccc_shim_rx_try_prepoll now (ccc_build_mhr mhr ++ ct ++ mic) e = (e', true)
    /\ forall later, fira_session_last_range later (en_fira e')
         = Some (Z.max 0 (true_mm RANGE_BIAS_MM tof ÷ 10), fd_ranging_block fd, later - now).
Proof.
  intros H Hi Hr Ht Hts Hb B1 B2 B3 B4 B5 B6 Hg Hc Hp.
  destruct (honest_decoded now e mhr fd dudsk plain ct mic ks poll H) as (e1 & E1 & E2 & E3 & E).
  rewrite E. destruct (hr_plain _ _ _ _ _ _ _ _ _ H) as (P1 & P2 & _).
  assert (T : ccc_responder_ds_twr fd RESPONDER_INDEX a (2 * tof + b)
            = Some {| t_round1 := 2 * tof + a; t_reply1 := a; t_round2 := 2 * tof + b; t_reply2 := b |}).
  { unfold ccc_responder_ds_twr. rewrite (proj2 (Z.leb_gt _ _)) by done. rewrite (proj2 (Z.eqb_neq _ _)) by lia.
    rewrite (proj2 (Z.ltb_ge _ _)) by apply P1. cbn [orb]. rewrite Hr. cbn [mbind option_bind]. rewrite Hb, Hts. done. }
  unfold latch_range. rewrite E2, Ht, T, ds_twr_exact, distance_mm_true by done. rewrite E3.
  destruct (rx_final_sts (en_rx e)) as [v q]. cbn [fst snd] in Hg. cbv zeta.
  assert (S : RANGE_GATE_STRICT && negb (fira_session_sts_quality_ok v q) = false).
  { destruct Hg as [->| ->]; [done|]. by rewrite andb_false_r. }
  rewrite S. unfold fira_session_set_ccc_range_cm. rewrite Hp. cbn [negb]. cbv zeta. cbn [fst snd].
  eexists. split; [reflexivity|]. intros later. unfold fira_session_last_range. cbn. f_equal.
  by destruct (Z.ltb_spec (true_mm RANGE_BIAS_MM tof ÷ 10) 0); f_equal; f_equal; lia.
Qed.
End Honest.
End Rx.

(** ** A concrete round *)

Definition demo_block : BlockCipher := fun k b => Some (replicate 16 0).

#[export] Instance demo_block_laws : BlockCipherLaws demo_block.
Proof. split. intros k b o [= <-]. split; [done|]. by repeat constructor. Qed.

Definition demo_keys : sp0_keys :=
  {| uk_mupsk1 := replicate 16 0; uk_src_long := replicate 8 0; uk_keysource := [1; 2; 3; 4]; uk_dest := [5; 6] |}.

Definition demo_engine : uwb_engine :=
  {| en_fira := fira_session_set_id 7 fira_zero;
     en_shim := ccc_shim_unbound <| sh_active := true |> <| sh_n_slot_per_round := 12 |>;
     en_rx := ccc_rx_zero <| rx_uad := Some demo_keys |> <| rx_evidence := Some (1002, 1000) |>
                <| rx_t_poll_rx := 1000 |> <| rx_t_resp_tx := 51000 |> <| rx_t_final_rx := 101400 |>;
     en_start_gen := 1 |}.

Definition demo_mhr : ccc_mhr_fields :=
  {| mhr_dest_short_addr := 0x0506; mhr_frame_counter := 1; mhr_key_source := [4; 3; 2; 1];
     mhr_msg_id := CCC_MSG_ID_FINAL_DATA; mhr_payload_len := 25 |}.

Definition demo_final_data : ccc_final_data :=
  {| fd_uwb_session_id := 7; fd_ranging_block := 3; fd_hop_flag := 0; fd_round_index := 0; fd_final_sts_index := 1002;
     fd_ranging_ts_final_tx := 100400;
     fd_responders := [{| rt_responder_index := 0; rt_timestamp := 50400; rt_timestamp_uncertainty := 0; rt_ranging_status := 0 |}] |}.

Definition demo_plain : list Z := default [] (ccc_final_data_pack demo_final_data PLAIN_MAX).

Lemma demo_round : honest_round (C := demo_block) demo_engine demo_mhr demo_final_data (replicate 16 0) demo_plain demo_plain
  (replicate 8 0) demo_keys 1000.
Proof.
  split; [by split|by split|by split|..].
  - split; [by repeat split; repeat constructor|]. by split.
  - split; [|by repeat split; apply bytes_all].
    split; try done. repeat constructor; done.
  - reflexivity.
Qed.

Lemma honest_round_measured_witness : exists e',
  ccc_shim_rx_try_prepoll (C := demo_block) (F := fira_defaults) (K := rx_defaults) (G := fun n => replicate n 0) 50
    (ccc_build_mhr demo_mhr ++ demo_plain ++ replicate 8 0) demo_engine = (e', true)
  /\ forall later, fira_session_last_range later (en_fira e') = Some (93, 3, later - 50).
Proof.
  apply (honest_round_measured (C := demo_block) (F := fira_defaults) (K := rx_defaults) (G := fun n => replicate n 0)
    50 demo_engine demo_mhr demo_final_data _ _ _ _ _ _ {| rt_responder_index := 0; rt_timestamp := 50400; rt_timestamp_uncertainty := 0; rt_ranging_status := 0 |}
    200 50000 50000 demo_round); try done. by left.
Defined.


(** ... and a time of flight of 915380925 ticks, 4295 km, reads as 0 cm: round
    trips of 1830761850 ticks (29 ms) with no reply time give it. *)
Lemma far_tof_reads_near :
  let t := {| t_round1 := 1830761850; t_reply1 := 0; t_round2 := 1830761850; t_reply2 := 0 |} in
  ds_twr_tof_signed t = 915380925 /\ true_mm 0 915380925 = 4294967300
  /\ distance_mm (K := rx_defaults) 915380925 = 4
  /\ fira_session_range_plausible (true_mm 0 915380925 ÷ 10) = false
  /\ fira_session_range_plausible (distance_mm (K := rx_defaults) 915380925 ÷ 10) = true.
Proof. vm_compute. auto. Qed.

Definition demo_frame : list Z := ccc_build_mhr demo_mhr ++ demo_plain ++ replicate 8 0.

Definition demo_event : rx_done_event :=
  {| ev_status := 0; ev_ts := replicate 5 0; ev_data := demo_frame; ev_len := 56; ev_quality := (0, 0); ev_sys := 0;
     ev_accepts := true; ev_now := 50 |}.

Lemma range_needs_final_data_witness :
  (exists mhr fd, ccc_parse_mhr demo_frame = Some mhr /\ fd_uwb_session_id fd = 7)
  /\ latched_count (C := demo_block) (F := fira_defaults) (K := rx_defaults) (G := fun n => replicate n 0)
       [RxFrame demo_event; RxFrame demo_event] (up_rx ccc_shim_rx_log_reset demo_engine) <= 0.
Proof.
  pose proof (range_needs_final_data (C := demo_block) (F := fira_defaults) (K := rx_defaults) (G := fun n => replicate n 0)) as [H1 H2].
  split; [|exact (H2 [RxFrame demo_event; RxFrame demo_event] demo_engine)].
  destruct (H1 demo_event demo_engine) as (mhr & fd & ks & index & poll & dudsk & plain & A1 & _ & _ & _ & _ & _ & _ & _ & _ & A2 & _).
  - apply bytes_all. vm_compute. reflexivity.
  - intros E. apply (f_equal fi_range_generation) in E. vm_compute in E. discriminate E.
  - exists mhr, fd. split; [exact A1|exact A2].
Defined.
