(* ===== verification/CccKeyProps.v ===== *)
(** * One STS per slot, one key per cycle

    Within a session no two slots share an STS index, and the keys that the
    responder's caches hand out are the ones a derivation from the session's URSK
    gives. *)

From Stdlib Require Import ZArith Lia Bool.
From stdpp Require Import base list numbers option.
From S2P Require Import Prelude Wire MatterCrypto CccKdf CccMac CccRx.

Local Open Scope Z_scope.
Local Open Scope uwl_scope.

(** ** The schedule *)

(** A slot of a session: its block, round, kind and responder. *)
Record slot_of_session := { sl_block : Z; sl_round : Z; sl_kind : ccc_slot; sl_responder : Z }.

Definition index_of (p : ccc_ran_params) (s : slot_of_session) : Z :=
  ccc_slot_sts_index p (sl_block s) (sl_round s) (sl_kind s) (sl_responder s).

(** A slot of a block that [ccc_ursk_exhausted] lets through; only a response has
    a responder. *)
Definition in_schedule (p : ccc_ran_params) (s : slot_of_session) : Prop :=
  in_u 32 (sl_block s) /\ 0 <= sl_round s < rp_n_round p
  /\ (match sl_kind s with CCC_SLOT_RESPONSE => 0 <= sl_responder s < rp_n_responder p | _ => sl_responder s = 0 end)
  /\ ccc_ursk_exhausted p (sl_block s) = false.

Record params_ok (p : ccc_ran_params) : Prop := {
  pk_index : 0 <= rp_sts_index0 p;
  pk_slots : rp_n_responder p + 4 <= rp_n_slot_per_round p < 2 ^ 8;
  pk_responders : 0 <= rp_n_responder p;
  pk_rounds : 0 < rp_n_round p < 2 ^ 16;
  pk_start : rp_sts_index0 p < 2 ^ 32;
}.

Lemma offset_range p s : params_ok p -> in_schedule p s ->
  0 <= slot_offset p (sl_kind s) (sl_responder s) < rp_n_slot_per_round p.
Proof.
  intros H (_ & _ & Hr & _). pose proof (pk_slots p H). pose proof (pk_responders p H).
  unfold slot_offset. destruct (sl_kind s); lia.
Qed.

(** [block + 1] wraps for the last block number, which [ccc_ursk_exhausted] lets
    through ([exhaustion_wraps]): its indices are those of a block -1. *)
Definition signed_block (s : slot_of_session) : Z := if sl_block s =? 2 ^ 32 - 1 then -1 else sl_block s.

(** The slot's place in the session, counted from its first slot. *)
Definition slot_number (p : ccc_ran_params) (s : slot_of_session) : Z :=
  (signed_block s * rp_n_round p + sl_round s) * rp_n_slot_per_round p + slot_offset p (sl_kind s) (sl_responder s).

(** The 32-bit sums of the index are one sum modulo 2^32. *)
Lemma index_mod p s : index_of p s = wrap 32 (rp_sts_index0 p + slot_number p s).
Proof.
  unfold index_of, ccc_slot_sts_index, slot_number. set (o := slot_offset _ _ _).
  set (n := rp_n_slot_per_round p). set (m := rp_n_round p). set (i := rp_sts_index0 p). set (r := sl_round s).
  assert (B : exists k, sl_block s = signed_block s + k * 2 ^ 32).
  { unfold signed_block. destruct (Z.eqb_spec (sl_block s) (2 ^ 32 - 1)) as [->|]; [by exists 1|exists 0; lia]. }
  destruct B as [k ->]. set (b := signed_block s). cbv zeta. unfold wrap.
  rewrite Zplus_mod_idemp_l, Zmult_mod_idemp_r.
  replace (i + _ mod 2 ^ 32 + (r * n) mod 2 ^ 32 + o)
    with ((r * n) mod 2 ^ 32 + (((b + k * 2 ^ 32) * (n * m)) mod 2 ^ 32 + (i + o))) by ring.
  rewrite Zplus_mod_idemp_l.
  replace (r * n + (((b + k * 2 ^ 32) * (n * m)) mod 2 ^ 32 + (i + o)))
    with (((b + k * 2 ^ 32) * (n * m)) mod 2 ^ 32 + (r * n + i + o)) by ring.
  rewrite Zplus_mod_idemp_l.
  replace ((b + k * 2 ^ 32) * (n * m) + (r * n + i + o)) with (i + ((b * m + r) * n + o) + (k * (n * m)) * 2 ^ 32) by ring.
  apply Z_mod_plus_full.
Qed.

(** Until it is exhausted, the schedule stays in a part of the index space that
    does not go round. *)
Lemma slot_number_range p s : params_ok p -> in_schedule p s ->
  - 2 ^ 24 < rp_sts_index0 p + slot_number p s < 2 ^ 31.
Proof.
  intros H Hs. pose proof (offset_range p s H Hs) as Ho. destruct Hs as (Hb & Hr & _ & Hx).
  destruct H as [K1 K2 K3 K4 K5]. unfold slot_number. set (o := slot_offset _ _ _) in *. unfold in_u in Hb.
  unfold ccc_ursk_exhausted in Hx. cbv zeta in Hx. apply Z.ltb_ge in Hx. unfold CCC_STS_INDEX_MAX in Hx.
  set (n := rp_n_slot_per_round p) in *. set (m := rp_n_round p) in *. set (r := sl_round s) in *.
  assert (Hn : 4 <= n < 2 ^ 8) by lia.
  assert (Hnm : 0 < n * m < 2 ^ 24).
  { split; [apply Z.mul_pos_pos; lia|]. change (2 ^ 24) with (2 ^ 8 * 2 ^ 16). apply Z.mul_lt_mono_nonneg; lia. }
  assert (E : u32 (sl_block s + 1) = signed_block s + 1 /\ -1 <= signed_block s < 2 ^ 32 - 1).
  { unfold signed_block. destruct (Z.eqb_spec (sl_block s) (2 ^ 32 - 1)) as [->|]; [by split|].
    rewrite wrap_id by (unfold in_u; lia). lia. }
  destruct E as [E Hsb]. rewrite E in Hx. set (b := signed_block s) in *.
  assert (Hsp : 0 <= (b + 1) * (n * m) < 2 ^ 56).
  { split; [apply Z.mul_nonneg_nonneg; lia|]. change (2 ^ 56) with (2 ^ 32 * 2 ^ 24). apply Z.mul_lt_mono_nonneg; lia. }
  rewrite (wrap_id 64) in Hx by (unfold in_u; lia).
  assert (S1 : (b * m + r) * n + o < (b + 1) * (n * m)) by nia.
  assert (S0 : - (n * m) <= (b * m + r) * n) by nia. lia.
Qed.

Lemma offset_inj p s s' : params_ok p -> in_schedule p s -> in_schedule p s' ->
  slot_offset p (sl_kind s) (sl_responder s) = slot_offset p (sl_kind s') (sl_responder s') ->
  sl_kind s = sl_kind s' /\ sl_responder s = sl_responder s'.
Proof.
  intros H (_ & _ & H1 & _) (_ & _ & H2 & _) E. pose proof (pk_responders p H). unfold slot_offset in E.
  destruct (sl_kind s), (sl_kind s'); split; try done; lia.
Qed.

Lemma signed_block_inj s s' : in_u 32 (sl_block s) -> in_u 32 (sl_block s') ->
  signed_block s = signed_block s' -> sl_block s = sl_block s'.
Proof.
  unfold in_u, signed_block. intros H1 H2.
  destruct (Z.eqb_spec (sl_block s) (2 ^ 32 - 1)), (Z.eqb_spec (sl_block s') (2 ^ 32 - 1)); lia.
Qed.

(** C22: no STS index is used for two slots of a session, as long as
    [ccc_ursk_exhausted] does not report the blocks as exhausted: two slots with
    the same index are the same slot of the same round of the same block.  This
    includes the last block number, 2^32 - 1, which the check lets through
    because its sum wraps. *)
Theorem sts_indices_distinct rs p s s' : ccc_session_to_ran_params rs = Some p ->
  in_u 32 (rs_sts_index0 rs) -> 0 <= rs_n_responder rs -> in_u 8 (rs_n_slot_per_round rs) -> 0 <= rs_n_ran_s rs ->
  0 <= rs_n_chap_per_slot rs ->
  in_schedule p s -> in_schedule p s' -> index_of p s = index_of p s' -> s = s'.
Proof.
  intros E Hi Hr Hn Hran Hchap Hs Hs' Hx.
  assert (H : params_ok p).
  { unfold ccc_session_to_ran_params in E. destruct (Z.ltb_spec (rs_n_slot_per_round rs) (rs_n_responder rs + 4)) as [L|L]; [done|].
    cbv zeta in E. destruct (Z.eqb_spec (ccc_session_n_round rs) 0) as [Z0|Z0]; [done|]. injection E as <-.
    unfold in_u in *. assert (R : 0 <= ccc_session_n_round rs < 2 ^ 16).
    { unfold ccc_session_n_round. destruct (_ =? 0); [lia|]. apply (wrap_range 16). lia. }
    split; cbn; lia. }
  pose proof (offset_range p s H Hs) as O1. pose proof (offset_range p s' H Hs') as O2.
  pose proof (slot_number_range p s H Hs) as N1. pose proof (slot_number_range p s' H Hs') as N2.
  rewrite !index_mod in Hx. assert (N : slot_number p s = slot_number p s').
  { unfold wrap in Hx. zdiv. }
  unfold slot_number in N. pose proof (pk_slots p H). pose proof (pk_responders p H).
  set (n := rp_n_slot_per_round p) in *. set (o := slot_offset p (sl_kind s) _) in *. set (o' := slot_offset p (sl_kind s') _) in *.
  assert (Q : signed_block s * rp_n_round p + sl_round s = signed_block s' * rp_n_round p + sl_round s' /\ o = o').
  { apply (Z.div_mod_unique n); [left; lia|left; lia|lia]. }
  destruct Q as [Q1 Q2]. destruct (offset_inj p s s' H Hs Hs' Q2) as [K1 K2].
  assert (B : signed_block s = signed_block s' /\ sl_round s = sl_round s').
  { destruct Hs as (_ & Hr1 & _), Hs' as (_ & Hr2 & _). apply (Z.div_mod_unique (rp_n_round p)); [left; lia|left; lia|lia]. }
  destruct B as [B1 B2]. apply signed_block_inj in B1; [|apply Hs|apply Hs']. destruct s, s'. cbn in *. congruence.
Qed.

(** The last block is never seen as exhausted: the number of the next wraps. *)
Lemma exhaustion_wraps p : 0 <= rp_sts_index0 p <= CCC_STS_INDEX_MAX + 1 -> ccc_ursk_exhausted p (2 ^ 32 - 1) = false.
Proof.
  intros H. unfold ccc_ursk_exhausted. cbv zeta. change (u32 (2 ^ 32 - 1 + 1)) with 0. rewrite Z.mul_0_l, Z.add_0_r.
  unfold CCC_STS_INDEX_MAX in *. rewrite wrap_id by (unfold in_u; lia). apply Z.ltb_ge. lia.
Qed.

(** ** The caches *)

Section Keys.
Context `{C : BlockCipher}.

(** The keys of a slot without any cache. *)
Definition slot_keys (derive : list Z -> list Z -> option (list Z)) (g : ccc_shim) (index : Z) : option (list Z) :=
  kt ← ccc_derive_ursk_kt (sh_mursk g) (cycle_base g index); derive kt (sh_salted_hash g).

(** The bound material: what a request does not change. *)
Definition bound (g : ccc_shim) : list Z * list Z * Z * Z * bool :=
  (sh_mursk g, sh_salted_hash g, sh_sts_index0 g, sh_n_slot_per_round g, sh_active g).

(** A cached key is the one of its cycle. *)
Definition cache_ok (derive : list Z -> list Z -> option (list Z)) (g : ccc_shim) (c : option (Z * list Z)) : Prop :=
  match c with
  | Some (base, k) => (kt ← ccc_derive_ursk_kt (sh_mursk g) base; derive kt (sh_salted_hash g)) = Some k
  | None => True
  end.

Definition caches_ok (g : ccc_shim) : Prop :=
  cache_ok ccc_derive_dursk g (sh_cache g) /\ cache_ok ccc_derive_dudsk g (sh_cache_dudsk g).

Lemma cycle_key_eq derive c g index : cache_ok derive g c ->
  cycle_key derive c g (cycle_base g index) = slot_keys derive g index.
Proof.
  intros H. unfold cycle_key, slot_keys. destruct c as [[base k]|]; [|done].
  destruct (Z.eqb_spec base (cycle_base g index)) as [->|]; [|done]. symmetry. exact H.
Qed.

Inductive key_request := AskSts (index : Z) | AskDudsk (index : Z).

Definition answer (q : key_request) (g : ccc_shim) : ccc_shim * option (list Z * list Z) :=
  match q with
  | AskSts i => ccc_shim_sts_for_index i g
  | AskDudsk i => let '(g, k) := ccc_shim_dudsk_for_index i g in (g, (fun k => (k, [])) <$> k)
  end.

Definition derived (q : key_request) (g : ccc_shim) : option (list Z * list Z) :=
  if negb (sh_active g) then None
  else
    match q with
    | AskSts i => (fun k => (k, ccc_derive_sts_v (sh_salted_hash g) i)) <$> slot_keys ccc_derive_dursk g i
    | AskDudsk i => (fun k => (k, [])) <$> slot_keys ccc_derive_dudsk g i
    end.

Lemma answer_spec q g : caches_ok g ->
  (answer q g).2 = derived q g /\ caches_ok (answer q g).1 /\ bound (answer q g).1 = bound g.
Proof.
  intros [H1 H2]. destruct q as [i|i]; unfold answer, derived, ccc_shim_sts_for_index, ccc_shim_dudsk_for_index.
  - destruct (sh_active g) eqn:A; cbn [negb]; [|by repeat split]. rewrite cycle_key_eq by done.
    destruct (slot_keys ccc_derive_dursk g i) as [k|] eqn:E; [|by repeat split].
    split; [done|]. split; [split; [exact E|exact H2]|done].
  - destruct (sh_active g) eqn:A; cbn [negb]; [|by repeat split]. rewrite cycle_key_eq by done.
    destruct (slot_keys ccc_derive_dudsk g i) as [k|] eqn:E; [|by repeat split].
    split; [done|]. split; [split; [exact H1|exact E]|done].
Qed.

Fixpoint answers (qs : list key_request) (g : ccc_shim) : list (option (list Z * list Z)) :=
  match qs with [] => [] | q :: rest => (answer q g).2 :: answers rest (answer q g).1 end.

Lemma derived_bound q g g' : bound g = bound g' -> derived q g = derived q g'.
Proof. unfold bound. intros [= E1 E2 E3 E4 E5]. unfold derived, slot_keys, cycle_base. by rewrite E1, E2, E3, E4, E5. Qed.

(** C19: the caches are invisible.  Whatever keys the receive path asks for after
    a session has been bound, in whatever order, every answer is the key that the
    derivation from the session's URSK, the RangingConfiguration and the slot's
    index gives, with nothing remembered. *)
Theorem sts_keys_uncached ursk config i n g0 g qs :
  ccc_shim_bind_from_ursk ursk config i n g0 = Some g -> answers qs g = map (fun q => derived q g) qs.
Proof.
  intros E.
  assert (H : caches_ok g).
  { unfold ccc_shim_bind_from_ursk in E. destruct (ccc_derive_mursk ursk); [|done]. cbn [mbind option_bind] in E.
    destruct (ccc_derive_salted_hash ursk config); [|done]. cbn [mbind option_bind] in E.
    unfold ccc_shim_bind in E. destruct (_ =? 0); [done|]. apply (inj Some) in E as <-. done. }
  clear E. assert (G : forall h, caches_ok h -> bound h = bound g -> answers qs h = map (fun q => derived q g) qs).
  { induction qs as [|q qs IH]; intros h Hh Hb; [done|]. cbn [answers map].
    destruct (answer_spec q h Hh) as (A1 & A2 & A3). rewrite A1, (derived_bound q h g Hb). f_equal. apply IH; [done|congruence]. }
  by apply G.
Qed.
End Keys.

Lemma sts_indices_distinct_witness :
  let p := {| rp_sts_index0 := 1000; rp_n_slot_per_round := 12; rp_n_round := 8; rp_n_responder := 1; rp_hop_key_rw := 0;
              rp_hop_mode := CCC_HOP_NONE |} in
  index_of p {| sl_block := 2; sl_round := 1; sl_kind := CCC_SLOT_POLL; sl_responder := 0 |}
  <> index_of p {| sl_block := 2; sl_round := 1; sl_kind := CCC_SLOT_RESPONSE; sl_responder := 0 |}.
Proof.
  intros p E.
  assert (X := sts_indices_distinct {| rs_sts_index0 := 1000; rs_hop_key_rw := 0; rs_n_ran_s := 1; rs_n_chap_per_slot := 3;
    rs_n_responder := 1; rs_n_slot_per_round := 12; rs_hop_mode := CCC_HOP_NONE |} p
    {| sl_block := 2; sl_round := 1; sl_kind := CCC_SLOT_POLL; sl_responder := 0 |}
    {| sl_block := 2; sl_round := 1; sl_kind := CCC_SLOT_RESPONSE; sl_responder := 0 |}).
  assert (Z1 : {| sl_block := 2; sl_round := 1; sl_kind := CCC_SLOT_POLL; sl_responder := 0 |}
             = {| sl_block := 2; sl_round := 1; sl_kind := CCC_SLOT_RESPONSE; sl_responder := 0 |}).
  { apply X; try exact E; try reflexivity; unfold in_schedule, in_u; cbn; repeat split; try lia; reflexivity. }
  discriminate Z1.
Defined.

Lemma sts_keys_uncached_witness :
  exists g, ccc_shim_bind_from_ursk (C := fun k b => Some (replicate 16 0)) (replicate 32 1) [1; 0] 0 12 ccc_shim_unbound = Some g
    /\ answers (C := fun k b => Some (replicate 16 0)) [AskSts 3; AskDudsk 4] g
       = map (fun q => derived (C := fun k b => Some (replicate 16 0)) q g) [AskSts 3; AskDudsk 4].
Proof.
  eexists. split; [vm_compute; reflexivity|].
  apply (sts_keys_uncached (C := fun k b => Some (replicate 16 0)) (replicate 32 1) [1; 0] 0 12 ccc_shim_unbound).
  vm_compute. reflexivity.
Defined.
