(* ===== verification/UwbCherry.v ===== *)
(** * The UWB session and the engine beneath it

    The data of [modules/ultrawidelock_uwb/src/cred/ultrawidelock_uwb_internal.h]
    and the seam [src/ccc/cherry_ccc_shim.c], with the callback by which the
    seam reports to the session ([ultrawidelock_ccc_cb]) and the setup messages'
    builders of [ultrawidelock_uwb_msg.c].

    The heap holds two objects: the session and the seam's own session object.
    Either can be gone, and the session's pointer to the second one can outlive
    it.  A computation of type [M A] that reads or writes an object that is gone
    has no result: C gives it no meaning.  Whether an allocation succeeds, and
    whether the radio comes up, is answered by two lists of the state; an
    exhausted list answers yes.  What leaves the module (messages to the peer,
    events to the client, the handoff) is the log, oldest first.  The client's
    callbacks do not call back into the session, as those of
    [ultrawidelock_ranging.c] do not. *)

From Stdlib Require Import ZArith Lia Bool.
From stdpp Require Import base list numbers option.
From S2P Require Import Prelude Wire MatterCrypto CccKdf FiraRange CccRx UwbMsg.

Local Open Scope Z_scope.
Local Open Scope uwl_scope.

Inductive uwb_err :=
  | ERR_NONE | ERR_INVALID_PARAMETER | ERR_UWBS_TIMEOUT | ERR_INTERNAL | ERR_SESSION_INIT | ERR_SESSION_ACTIVE
  | ERR_SESSION_CONFIG | ERR_MESSAGE_UNSUPPORTED | ERR_MESSAGE_STATE | ERR_INVALID_STATE | ERR_MSG_MALFORMED.

Inductive cherry_err :=
  | CHERRY_NONE | CHERRY_INVALID_PARAMETER | CHERRY_UWBS_TIMEOUT | CHERRY_INTERNAL | CHERRY_SESSION_INIT
  | CHERRY_SESSION_ACTIVE | CHERRY_SESSION_CONFIG | CHERRY_SESSION_TYPE_NOT_SUPPORTED.

Definition cherry_err_to_ultrawidelock (err : cherry_err) : uwb_err :=
  match err with
  | CHERRY_NONE => ERR_NONE
  | CHERRY_INVALID_PARAMETER => ERR_INVALID_PARAMETER
  | CHERRY_UWBS_TIMEOUT => ERR_UWBS_TIMEOUT
  | CHERRY_INTERNAL => ERR_INTERNAL
  | CHERRY_SESSION_INIT => ERR_SESSION_INIT
  | CHERRY_SESSION_ACTIVE => ERR_SESSION_ACTIVE
  | CHERRY_SESSION_CONFIG => ERR_SESSION_CONFIG
  | CHERRY_SESSION_TYPE_NOT_SUPPORTED => ERR_INTERNAL
  end.

Inductive hopping_mode :=
  HOPPING_DISABLE | HOPPING_ENABLED | HOPPING_CONTINUOUS_AES | HOPPING_CONTINUOUS_DEFAULT
  | HOPPING_ADAPTATIVE_AES | HOPPING_ADAPTATIVE_DEFAULT.

Inductive ccc_state := STATE_INIT | STATE_DEINIT | STATE_ACTIVE | STATE_IDLE.

(** The negotiated parameters. *)
Record session_config := {
  cg_session_id : Z;
  cg_uwb_config_id : Z;
  cg_pulse_shape_combo : Z;
  cg_channel : Z;
  cg_sync_code_index : Z;
  cg_ranging_duration_ms : Z;
  cg_slot_per_rr : Z;
  cg_slot_duration : Z;
  cg_hopping_mode : hopping_mode;
  cg_hopping_config_bitmask : Z;
  cg_hop_mode_key : list Z;
  cg_sts_index : Z;
  cg_mac_mode : Z;
  cg_uwb_time_us : Z;
}.

#[export] Instance session_config_eta : Eta session_config := fun c =>
  {| cg_session_id := cg_session_id c; cg_uwb_config_id := cg_uwb_config_id c;
     cg_pulse_shape_combo := cg_pulse_shape_combo c; cg_channel := cg_channel c;
     cg_sync_code_index := cg_sync_code_index c; cg_ranging_duration_ms := cg_ranging_duration_ms c;
     cg_slot_per_rr := cg_slot_per_rr c; cg_slot_duration := cg_slot_duration c;
     cg_hopping_mode := cg_hopping_mode c; cg_hopping_config_bitmask := cg_hopping_config_bitmask c;
     cg_hop_mode_key := cg_hop_mode_key c; cg_sts_index := cg_sts_index c; cg_mac_mode := cg_mac_mode c;
     cg_uwb_time_us := cg_uwb_time_us c |}.

Definition session_config_zero : session_config :=
  {| cg_session_id := 0; cg_uwb_config_id := 0; cg_pulse_shape_combo := 0; cg_channel := 0;
     cg_sync_code_index := 0; cg_ranging_duration_ms := 0; cg_slot_per_rr := 0; cg_slot_duration := 0;
     cg_hopping_mode := HOPPING_DISABLE; cg_hopping_config_bitmask := 0; cg_hop_mode_key := [0; 0; 0; 0];
     cg_sts_index := 0; cg_mac_mode := 0; cg_uwb_time_us := 0 |}.

(** ** The adapter *)

Record ccc_capabilities := {
  cap_slot_bitmask : Z;
  cap_sync_code_index_bitmask : Z;
  cap_hopping_config_bitmask : Z;
  cap_channel_bitmask : Z;
  cap_protocol_versions : list Z;
  cap_uwb_configs : list Z;
  cap_pulse_shape_combos : list Z;
  cap_minimum_ran_multiplier : Z;
}.

Record reader_config := {
  rc_min_ran_multiplier : Z;
  rc_preferred_hopping : list hopping_mode;
  rc_mac_mode : Z;
  rc_r1_antennas : Z * Z;
  rc_r2_antennas : Z * Z;
}.

Record uwb_adapter := {
  ad_config : reader_config;
  ad_ccc_caps : ccc_capabilities;
  ad_min_ran_multiplier : Z;
  ad_diag_config : bool;
}.

Definition PREFERRED_HOP_CONFIG_MAX : Z := 3.

Definition reader_config_valid (c : reader_config) : bool :=
  negb ((zlen (rc_preferred_hopping c) =? 0) || (PREFERRED_HOP_CONFIG_MAX <? zlen (rc_preferred_hopping c)))
  && existsb (fun h => match h with
                       | HOPPING_ADAPTATIVE_DEFAULT | HOPPING_CONTINUOUS_DEFAULT => true
                       | _ => false end) (rc_preferred_hopping c).

(** [room]: the four allocations succeed. *)
Definition adapter_create_reader (room : bool) (caps : option ccc_capabilities) (config : reader_config)
    : option uwb_adapter :=
  if negb (reader_config_valid config) then None
  else
    match caps with
    | Some caps =>
        if room then
          Some {| ad_config := config; ad_ccc_caps := caps;
                  ad_min_ran_multiplier :=
                    if cap_minimum_ran_multiplier caps <? rc_min_ran_multiplier config
                    then rc_min_ran_multiplier config else cap_minimum_ran_multiplier caps;
                  ad_diag_config := false |}
        else None
    | None => None
    end.

(** ** The two objects *)

Inductive session_state := CREATED | M1_SENT | M3_SENT | RANGING | SUSPEND_REQ_SENT | SUSPENDED | RESUME_REQ_SENT.

#[export] Instance session_state_eq_dec : EqDecision session_state.
Proof. solve_decision. Defined.

#[export] Instance uwb_err_eq_dec : EqDecision uwb_err.
Proof. solve_decision. Defined.

(** [us_ccc]: the session's pointer to the seam's object is not null. *)
Record uwb_session := {
  us_session_id : Z;
  us_ursk : option (list Z);
  us_time_offset : Z;
  us_selected_protocol_version : Z;
  us_ccc : bool;
  us_config : session_config;
  us_state : session_state;
}.

#[export] Instance uwb_session_eta : Eta uwb_session := fun s =>
  {| us_session_id := us_session_id s; us_ursk := us_ursk s; us_time_offset := us_time_offset s;
     us_selected_protocol_version := us_selected_protocol_version s; us_ccc := us_ccc s;
     us_config := us_config s; us_state := us_state s |}.

(** The seam's object; it borrows the session's parameters. *)
Record ccc_session := { cs_ursk : option (list Z); cs_state : ccc_state }.

#[export] Instance ccc_session_eta : Eta ccc_session := fun s =>
  {| cs_ursk := cs_ursk s; cs_state := cs_state s |}.

Inductive uwb_event :=
  | UwbSend (msg : list Z) (timeout : bool)
  | UwbStatus (st : ccc_state)
  | UwbError (err : cherry_err)
  | UwbHandoff (ursk rcfg : list Z) (channel sync_code_index : Z).

Record uwb := {
  u_session : option uwb_session;
  u_object : option ccc_session;
  u_engine : uwb_engine;
  u_heap : list bool;
  u_radio : list bool;
  u_log : list uwb_event;
}.

#[export] Instance uwb_eta : Eta uwb := fun u =>
  {| u_session := u_session u; u_object := u_object u; u_engine := u_engine u; u_heap := u_heap u;
     u_radio := u_radio u; u_log := u_log u |}.

(** ** Computations *)

Definition M (A : Type) : Type := uwb -> option (A * uwb).

#[export] Instance M_ret : MRet M := fun A a u => Some (a, u).

#[export] Instance M_bind : MBind M := fun A B k m u =>
  match m u with Some (a, u) => k a u | None => None end.

Definition the_world : M uwb := fun u => Some (u, u).

Definition modify (f : uwb -> uwb) : M unit := fun u => Some (tt, f u).

Definition log (ev : uwb_event) : M unit := modify (fun u => u <| u_log := u_log u ++ [ev] |>).

(** The next answer of a list. *)
Definition alloc : M bool := fun u =>
  match u_heap u with
  | [] => Some (true, u)
  | a :: rest => Some (a, u <| u_heap := rest |>)
  end.

Definition radio_up : M bool := fun u =>
  match u_radio u with
  | [] => Some (true, u)
  | a :: rest => Some (a, u <| u_radio := rest |>)
  end.

Definition the_session : M uwb_session := fun u =>
  match u_session u with Some s => Some (s, u) | None => None end.

Definition up_session (f : uwb_session -> uwb_session) : M unit := fun u =>
  match u_session u with Some s => Some (tt, u <| u_session := Some (f s) |>) | None => None end.

Definition free_session : M unit := fun u =>
  match u_session u with Some _ => Some (tt, u <| u_session := None |>) | None => None end.

Definition the_object : M ccc_session := fun u =>
  match u_object u with Some s => Some (s, u) | None => None end.

Definition up_object (f : ccc_session -> ccc_session) : M unit := fun u =>
  match u_object u with Some s => Some (tt, u <| u_object := Some (f s) |>) | None => None end.

Definition free_object : M unit := fun u =>
  match u_object u with Some _ => Some (tt, u <| u_object := None |>) | None => None end.

Definition up_engine (f : uwb_engine -> uwb_engine) : M unit := modify (fun u => u <| u_engine := f (u_engine u) |>).

Definition up_config (f : session_config -> session_config) : M unit :=
  up_session (fun s => s <| us_config := f (us_config s) |>).

Definition set_state (st : session_state) : M unit := up_session (fun s => s <| us_state := st |>).

Definition transmit (msg : list Z) (timeout : bool) : M unit := log (UwbSend msg timeout).

(** ** Reports of the seam *)

Definition build_general_error (error_code : Z) : M (option (list Z)) :=
  room ← alloc;
  mret (build_message room PROTOCOL_NOTIFICATION NOTIFICATION_EVENT (1 + ATTRIBUTE_HEADER_LENGTH)
         (add_u8 EVENT_ATTR_GENERAL_ERROR error_code)).

Definition notify_error : M uwb_err :=
  m ← build_general_error GENERAL_ERROR_UNKNOWN;
  match m with
  | None => mret ERR_INTERNAL
  | Some msg => transmit msg false;; mret ERR_NONE
  end.

(** [ultrawidelock_ccc_cb] for the two kinds of events the seam emits. *)
Definition ccc_cb (ev : uwb_event) : M unit :=
  the_session;;
  wrapped ← alloc;
  if negb wrapped then mret tt
  else
    match ev with
    | UwbError _ => notify_error;; mret tt
    | UwbStatus STATE_DEINIT => free_session
    | _ => mret tt
    end;;
    log ev.

Definition emit_status (st : ccc_state) : M unit :=
  ev ← alloc;
  status ← alloc;
  if negb ev || negb status then mret tt
  else up_object (fun o => o <| cs_state := st |>);; ccc_cb (UwbStatus st).

Definition emit_error (err : cherry_err) : M unit :=
  ev ← alloc;
  e ← alloc;
  if negb ev || negb e then mret tt
  else the_object;; ccc_cb (UwbError err).

(** ** Operations of the seam *)

(** [cherry_ccc_session_create_ultrawidelock_responder]: whether there is an
    object. *)
Definition new_object : M unit :=
  modify (fun u => u <| u_object := Some {| cs_ursk := None; cs_state := STATE_INIT |} |>).

Definition cherry_session_create : M bool :=
  room ← alloc;
  if (room : bool) then new_object;; mret true else mret false.

Definition cherry_session_set_ursk (ursk : list Z) : M cherry_err :=
  up_object (fun o => o <| cs_ursk := Some ursk |>);; mret CHERRY_NONE.

(** The protocol version, the antennas and the diagnostics are accepted and
    ignored. *)
Definition cherry_session_accepts : M cherry_err := the_object;; mret CHERRY_NONE.

Definition cherry_session_set_sts_index (i : Z) : M cherry_err :=
  the_object;; up_config (fun c => c <| cg_sts_index := i |>);; mret CHERRY_NONE.

Definition cherry_session_set_initiation_time (t : Z) : M cherry_err :=
  the_object;; up_config (fun c => c <| cg_uwb_time_us := t |>);; mret CHERRY_NONE.

Section Seam.
Context `{C : BlockCipher} `{K : rx_cfg}.

(** The serialized RangingConfiguration. *)
Definition ranging_config (c : session_config) : list Z :=
  [0x01; 0x00] ++ put_be 2 (cg_uwb_config_id c) ++ put_be 4 (cg_session_id c) ++ put_be 4 (cg_sts_index c)
  ++ [u8 NUM_RESPONDERS; u8 (cg_ranging_duration_ms c / 96); cg_slot_per_rr c; u8 (cg_slot_duration c / 400);
      cg_pulse_shape_combo c].

Definition start_params (c : session_config) (ursk : list Z) : cred_cfg :=
  {| cc_session_id := cg_session_id c; cc_channel := cg_channel c; cc_sync_code_index := cg_sync_code_index c;
     cc_slot_duration_rstu := cg_slot_duration c; cc_block_duration_ms := cg_ranging_duration_ms c;
     cc_slot_per_round := cg_slot_per_rr c; cc_sts_index0 := cg_sts_index c; cc_uwb_time_us := cg_uwb_time_us c;
     cc_ursk := ursk; cc_ranging_config := ranging_config c |}.

Definition cherry_session_start : M cherry_err :=
  o ← the_object;
  match cs_ursk o with
  | None => mret CHERRY_SESSION_CONFIG
  | Some ursk =>
      s ← the_session;
      let p := start_params (us_config s) ursk in
      log (UwbHandoff ursk (cc_ranging_config p) (cc_channel p) (cc_sync_code_index p));;
      up ← radio_up;
      u ← the_world;
      let started := ultrawidelock_uwb_start_cred (fun _ _ => up) p (u_engine u) in
      up_engine (fun _ => started.1);;
      if started.2 then
        emit_status STATE_IDLE;; emit_status STATE_ACTIVE;; mret CHERRY_NONE
      else emit_error CHERRY_SESSION_INIT;; mret CHERRY_SESSION_INIT
  end.

Definition cherry_session_stop : M cherry_err :=
  the_object;;
  up_engine ultrawidelock_uwb_stop;;
  emit_status STATE_IDLE;;
  mret CHERRY_NONE.

Definition cherry_session_destroy : M unit :=
  the_object;;
  up_engine ultrawidelock_uwb_stop;;
  emit_status STATE_DEINIT;;
  free_object.
End Seam.
