(* ===== verification/UwbSession.v ===== *)
(** * UWB sessions: setup messages and lifecycle

    Models [modules/ultrawidelock_uwb/src/cred/ultrawidelock_uwb_msg.c] (the
    builders, the attribute parsers that fold a message into the negotiated
    parameters, the handlers) and [ultrawidelock_uwb_session.c] (the lifecycle),
    over the objects and computations of UwbCherry.v.  The parameters of the
    functions are never null: the callers hold the session. *)

From Stdlib Require Import ZArith Lia Bool.
From stdpp Require Import base list numbers option.
From S2P Require Import Prelude Wire MatterCrypto CccKdf FiraRange CccRx UwbMsg UwbCherry.

Local Open Scope Z_scope.
Local Open Scope uwl_scope.

Definition SLOTS_PER_ROUND_DEFAULT : Z := 12.

(** The capability bits of the hopping modes and sequences. *)
Definition HOP_CAP_DEFAULT : Z := Z.shiftl 1 1.
Definition HOP_CAP_ADAPTIVE : Z := Z.shiftl 1 2.
Definition HOP_CAP_CONTINUOUS : Z := Z.shiftl 1 3.
Definition HOP_CAP_NO_HOPPING : Z := Z.shiftl 1 4.

(** The attribute sets of the messages. *)
Definition M2_ATTR_MASK : Z :=
  mask_of [ATTR_CONFIGURATION_IDENTIFIER; ATTR_PULSE_SHAPE_COMBO; ATTR_CHANNEL_BITMASK; ATTR_SYNC_CODE_INDEX_BITMASK;
           ATTR_RAN_MULTIPLIER; ATTR_SLOT_BITMASK; ATTR_HOPPING_CONFIGURATION_BITMASK].
Definition M2_ATTR_MASK_VENDOR : Z := Z.lor M2_ATTR_MASK (mask_of [ATTR_VENDOR_SPECIFIC]).
Definition M4_ATTR_MASK : Z := mask_of [ATTR_STS_INDEX0; ATTR_UWB_TIME0; ATTR_HOP_MODE_KEY; ATTR_SYNC_CODE_INDEX].
Definition M4_ATTR_MASK_VENDOR : Z := Z.lor M4_ATTR_MASK (mask_of [ATTR_VENDOR_SPECIFIC]).
Definition SUSPEND_REQUEST_ATTR_MASK : Z := mask_of [ATTR_SESSION_IDENTIFIER].
Definition SUSPEND_RESPONSE_ATTR_MASK : Z := mask_of [ATTR_STATUS].
Definition RESUME_RESPONSE_ATTR_MASK : Z := mask_of [ATTR_STS_INDEX0; ATTR_UWB_TIME0].

(** ** Attribute parsers *)

Section Parsers.
Variable ad : uwb_adapter.

Definition with_config (s : uwb_session) (f : session_config -> session_config) : uwb_session :=
  s <| us_config := f (us_config s) |>.

(** A value that is read and folded in; one that cannot be read is malformed. *)
Definition folded (v : option Z) (f : Z -> session_config -> session_config) (s : uwb_session)
    : uwb_session * uwb_err :=
  match v with Some v => (with_config s (f v), ERR_NONE) | None => (s, ERR_MSG_MALFORMED) end.

Definition parse_config_id (s : uwb_session) (a : attribute) : uwb_session * uwb_err :=
  folded (read_u16 a) (fun v c => c <| cg_uwb_config_id := v |>) s.

Definition parse_pulse_shape (s : uwb_session) (a : attribute) : uwb_session * uwb_err :=
  folded (read_u8 a) (fun v c => c <| cg_pulse_shape_combo := v |>) s.

Definition parse_session_id (s : uwb_session) (a : attribute) : uwb_session * uwb_err :=
  match read_u32 a with
  | None => (s, ERR_MSG_MALFORMED)
  | Some v => (s, if v =? us_session_id s then ERR_NONE else ERR_INVALID_PARAMETER)
  end.

Definition parse_channel (s : uwb_session) (a : attribute) : uwb_session * uwb_err :=
  match read_u8 a with
  | None => (s, ERR_MSG_MALFORMED)
  | Some v =>
      if v =? CHANNEL_BITMASK_CH5 then (with_config s (fun c => c <| cg_channel := 5 |>), ERR_NONE)
      else if v =? CHANNEL_BITMASK_CH9 then (with_config s (fun c => c <| cg_channel := 9 |>), ERR_NONE)
      else (s, ERR_INVALID_PARAMETER)
  end.

Definition parse_ran_multiplier (s : uwb_session) (a : attribute) : uwb_session * uwb_err :=
  folded (read_u8 a) (fun v c =>
    let selected := if ad_min_ran_multiplier ad <? v then v else ad_min_ran_multiplier ad in
    c <| cg_ranging_duration_ms := 96 * selected |>) s.

(** The lowest bit of the first seven. *)
Definition lowest_slot_bit (common : Z) : option Z :=
  List.find (fun i => Z.land (Z.shiftr common i) 1 =? 1) [0; 1; 2; 3; 4; 5; 6].

Definition chaps_per_slot (common : Z) : Z :=
  match lowest_slot_bit common with
  | Some 0 => 3 | Some 1 => 4 | Some 2 => 6 | Some 3 => 8 | Some 4 => 9 | Some 5 => 12 | Some 6 => 24
  | _ => common
  end.

Definition parse_slot_bitmask (s : uwb_session) (a : attribute) : uwb_session * uwb_err :=
  folded (read_u8 a) (fun v c =>
    let common := Z.land v (cap_slot_bitmask (ad_ccc_caps ad)) in
    c <| cg_slot_duration := u16 (400 * chaps_per_slot common) |>) s.

Definition parse_sync_code_bitmask (s : uwb_session) (a : attribute) : uwb_session * uwb_err :=
  folded (read_u32 a) (fun _ c => c) s.

Definition parse_sync_code_index (s : uwb_session) (a : attribute) : uwb_session * uwb_err :=
  folded (read_u8 a) (fun v c => c <| cg_sync_code_index := v |>) s.

Definition hop_combo (h : hopping_mode) : Z :=
  match h with
  | HOPPING_DISABLE => HOP_CAP_NO_HOPPING
  | HOPPING_CONTINUOUS_DEFAULT => Z.lor HOP_CAP_CONTINUOUS HOP_CAP_DEFAULT
  | HOPPING_ADAPTATIVE_DEFAULT => Z.lor HOP_CAP_ADAPTIVE HOP_CAP_DEFAULT
  | _ => 0
  end.

(** The first preference that both sides fully support. *)
Definition select_hopping (common : Z) : option hopping_mode :=
  List.find (fun h => negb (hop_combo h =? 0) && (Z.land common (hop_combo h) =? hop_combo h))
    (rc_preferred_hopping (ad_config ad)).

Definition parse_hopping_bitmask (s : uwb_session) (a : attribute) : uwb_session * uwb_err :=
  match read_u8 a with
  | None => (s, ERR_MSG_MALFORMED)
  | Some peer_caps =>
      let common := Z.land (Z.shiftr peer_caps 3) (cap_hopping_config_bitmask (ad_ccc_caps ad)) in
      match select_hopping common with
      | None => (s, ERR_MSG_MALFORMED)
      | Some h =>
          (with_config s (fun c => c <| cg_hopping_mode := h |>
                                     <| cg_hopping_config_bitmask := u8 (Z.shiftl (hop_combo h) 3) |>), ERR_NONE)
      end
  end.

Definition parse_sts_index0 (s : uwb_session) (a : attribute) : uwb_session * uwb_err :=
  folded (read_u32 a) (fun v c => c <| cg_sts_index := v |>) s.

Definition parse_uwb_time0 (s : uwb_session) (a : attribute) : uwb_session * uwb_err :=
  folded (read_u64 a) (fun v c => c <| cg_uwb_time_us := v |>) s.

(** The word is stored in the processor's byte order. *)
Definition parse_hop_mode_key (s : uwb_session) (a : attribute) : uwb_session * uwb_err :=
  folded (read_u32 a) (fun v c => c <| cg_hop_mode_key := put_le 4 v |>) s.

Definition parse_session_attribute (a : attribute) (s : uwb_session) : uwb_session * uwb_err :=
  let i := at_id a in
  if i =? ATTR_CONFIGURATION_IDENTIFIER then parse_config_id s a
  else if i =? ATTR_PULSE_SHAPE_COMBO then parse_pulse_shape s a
  else if i =? ATTR_SESSION_IDENTIFIER then parse_session_id s a
  else if i =? ATTR_CHANNEL_BITMASK then parse_channel s a
  else if i =? ATTR_RAN_MULTIPLIER then parse_ran_multiplier s a
  else if i =? ATTR_SLOT_BITMASK then parse_slot_bitmask s a
  else if i =? ATTR_SYNC_CODE_INDEX_BITMASK then parse_sync_code_bitmask s a
  else if i =? ATTR_SYNC_CODE_INDEX then parse_sync_code_index s a
  else if i =? ATTR_HOPPING_CONFIGURATION_BITMASK then parse_hopping_bitmask s a
  else if i =? ATTR_STS_INDEX0 then parse_sts_index0 s a
  else if i =? ATTR_UWB_TIME0 then parse_uwb_time0 s a
  else if i =? ATTR_HOP_MODE_KEY then parse_hop_mode_key s a
  else (s, ERR_NONE).

(** What the loop of [parse_ranging] works on. *)
Record ranging_progress := { rg_session : uwb_session; rg_mask : Z; rg_status : Z }.

Definition returned (e : uwb_err) : option uwb_err := match e with ERR_NONE => None | _ => Some e end.

Definition parse_ranging_attribute (a : attribute) (p : ranging_progress) : ranging_progress * option uwb_err :=
  let mask := if at_id a <? ATTR_MAX then Z.lor (rg_mask p) (Z.shiftl 1 (at_id a)) else rg_mask p in
  if at_id a =? ATTR_STATUS then
    match read_u8 a with
    | Some v => ({| rg_session := rg_session p; rg_mask := mask; rg_status := v |}, None)
    | None => ({| rg_session := rg_session p; rg_mask := mask; rg_status := rg_status p |}, Some ERR_MSG_MALFORMED)
    end
  else
    let '(s, e) := parse_session_attribute a (rg_session p) in
    ({| rg_session := s; rg_mask := mask; rg_status := rg_status p |}, returned e).

Definition parse_ranging (msg : list Z) (s : uwb_session) : ranging_progress * uwb_err :=
  let '(p, e) := for_attributes msg parse_ranging_attribute {| rg_session := s; rg_mask := 0; rg_status := STATUS_UNKNOWN |} in
  (p, default ERR_NONE e).
End Parsers.

(** ** Builders *)

Section Session.
Context `{C : BlockCipher} `{K : rx_cfg}.
Variable ad : uwb_adapter.

Definition build_m1 (s : uwb_session) : M (option (list Z)) :=
  let caps := ad_ccc_caps ad in
  let plen := u16 (zlen (cap_uwb_configs caps) * 2 + zlen (cap_pulse_shape_combos caps) * 1 + 1 + 4
                   + 4 * ATTRIBUTE_HEADER_LENGTH) in
  room ← alloc;
  mret (build_message room PROTOCOL_RANGING_SERVICE SETUP_M1 plen (fun b =>
    b ← add_u16_array ATTR_CONFIGURATION_IDENTIFIER (cap_uwb_configs caps) b;
    b ← add_bytes ATTR_PULSE_SHAPE_COMBO (cap_pulse_shape_combos caps) b;
    b ← add_u8 ATTR_CHANNEL_BITMASK (cap_channel_bitmask caps) b;
    add_u32 ATTR_SESSION_IDENTIFIER (us_session_id s) b)).

(** The reader's choices are committed once there is room for the message. *)
Definition build_m3 : M (option (list Z)) :=
  room ← alloc;
  if negb room then mret None
  else
    up_config (fun c => c <| cg_slot_per_rr := SLOTS_PER_ROUND_DEFAULT |> <| cg_mac_mode := rc_mac_mode (ad_config ad) |>);;
    s ← the_session;
    let c := us_config s in
    mret (build_message room PROTOCOL_RANGING_SERVICE SETUP_M3 (1 + 1 + 1 + 1 + 4 + 1 + 1 + 7 * ATTRIBUTE_HEADER_LENGTH)
      (fun b =>
         b ← add_u8 ATTR_RAN_MULTIPLIER (u8 (cg_ranging_duration_ms c / 96)) b;
         b ← add_u8 ATTR_NUMBER_CHAPS_PER_SLOT (u8 (cg_slot_duration c / 400)) b;
         b ← add_u8 ATTR_NUMBER_RESPONDERS_NODES (u8 NUM_RESPONDERS) b;
         b ← add_u8 ATTR_NUMBER_SLOTS_PER_ROUND (cg_slot_per_rr c) b;
         b ← add_u32 ATTR_SYNC_CODE_INDEX_BITMASK (cap_sync_code_index_bitmask (ad_ccc_caps ad)) b;
         b ← add_u8 ATTR_HOPPING_CONFIGURATION_BITMASK (cg_hopping_config_bitmask c) b;
         add_u8 ATTR_MAC_MODE (rc_mac_mode (ad_config ad)) b)).

Definition build_suspend_resume_request (s : uwb_session) (suspend : bool) : M (option (list Z)) :=
  room ← alloc;
  mret (build_message room PROTOCOL_RANGING_SERVICE (if suspend then SUSPEND_REQUEST else RESUME_REQUEST)
         (4 + ATTRIBUTE_HEADER_LENGTH) (add_u32 ATTR_SESSION_IDENTIFIER (us_session_id s))).

Definition build_suspend_response (status : Z) : M (option (list Z)) :=
  if negb (status =? STATUS_ACCEPT) && negb (status =? STATUS_REJECT) then mret None
  else
    room ← alloc;
    mret (build_message room PROTOCOL_RANGING_SERVICE SUSPEND_RESPONSE (1 + ATTRIBUTE_HEADER_LENGTH)
           (add_u8 ATTR_STATUS status)).

(** ** Lifecycle *)

Definition session_close : M unit :=
  s ← the_session;
  if us_ccc s then cherry_session_destroy else free_session.

(** The steps of [session_init] up to the start, as long as they succeed. *)
Fixpoint in_turn (steps : list (M cherry_err)) : M cherry_err :=
  match steps with
  | [] => mret CHERRY_NONE
  | m :: rest => e ← m; match e with CHERRY_NONE => in_turn rest | _ => mret e end
  end.

Definition session_init_steps (s : uwb_session) : list (M cherry_err) :=
  let r := ad_config ad in
  let any (p : Z * Z) := negb (p.1 =? 0) || negb (p.2 =? 0) in
  (match us_ursk s with Some k => [cherry_session_set_ursk k] | None => [] end)
  ++ (if us_selected_protocol_version s =? 0 then [] else [cherry_session_accepts])
  ++ (if any (rc_r1_antennas r) then [cherry_session_accepts] else [])
  ++ (if any (rc_r2_antennas r) then [cherry_session_accepts] else [])
  ++ (if ad_diag_config ad then [cherry_session_accepts] else [])
  ++ [cherry_session_start].

Definition session_init : M uwb_err :=
  created ← cherry_session_create;
  up_session (fun s => s <| us_ccc := created |>);;
  if negb created then mret ERR_INTERNAL
  else
    s ← the_session;
    e ← in_turn (session_init_steps s);
    match e with
    | CHERRY_NONE => mret ERR_NONE
    | _ => session_close;; mret (cherry_err_to_ultrawidelock e)
    end.

(** A call of the seam on the session's object; a null object is refused. *)
Definition on_object (m : M cherry_err) : M cherry_err :=
  s ← the_session;
  if us_ccc s then m else mret CHERRY_INVALID_PARAMETER.

Definition session_start : M uwb_err :=
  e ← on_object cherry_session_start;
  match e with
  | CHERRY_NONE => mret ERR_NONE
  | _ => session_close;; mret (cherry_err_to_ultrawidelock e)
  end.

Definition session_stop : M uwb_err :=
  e ← on_object cherry_session_stop;
  match e with
  | CHERRY_NONE => set_state SUSPENDED;; mret ERR_NONE
  | _ => session_close;; mret (cherry_err_to_ultrawidelock e)
  end.

(** [ultrawidelock_uwb_session_create]: whether there is a session. *)
Definition allocate_session (session_id : Z) : M unit :=
  modify (fun u => u <| u_session := Some
    {| us_session_id := session_id; us_ursk := None; us_time_offset := 0; us_selected_protocol_version := 0;
       us_ccc := false; us_config := session_config_zero; us_state := CREATED |} |>).

Definition session_create (session_id : Z) : M bool :=
  room ← alloc;
  if (room : bool) then allocate_session session_id;; mret true else mret false.

Definition session_destroy : M unit :=
  up_session (fun s => s <| us_ursk := None |>);;
  session_close.

Definition session_set_ursk (ursk : list Z) : M uwb_err :=
  room ← alloc;
  if (room : bool) then up_session (fun s => s <| us_ursk := Some (take 32 ursk) |>);; mret ERR_NONE
  else up_session (fun s => s <| us_ursk := None |>);; mret ERR_INTERNAL.

Definition session_set_protocol_version (v : Z) : M uwb_err :=
  up_session (fun s => s <| us_selected_protocol_version := v |>);; mret ERR_NONE.

Definition session_set_time_offset (t : Z) : M uwb_err :=
  up_session (fun s => s <| us_time_offset := t |>);; mret ERR_NONE.

Definition session_init_setup : M uwb_err :=
  s ← the_session;
  if negb (bool_decide (us_state s = CREATED)) then mret ERR_INVALID_STATE
  else
    up_config (fun c => c <| cg_session_id := us_session_id s |>);;
    m1 ← build_m1 s;
    match m1 with
    | None => mret ERR_INTERNAL
    | Some m1 => transmit m1 true;; set_state M1_SENT;; mret ERR_NONE
    end.

(** Suspend and resume: from the state the request may be made in. *)
Definition session_request (suspend : bool) (from to : session_state) : M uwb_err :=
  s ← the_session;
  if negb (us_ccc s) then mret ERR_INVALID_STATE
  else if negb (bool_decide (us_state s = from)) then mret ERR_INVALID_STATE
  else
    request ← build_suspend_resume_request s suspend;
    match request with
    | None => mret ERR_INTERNAL
    | Some request => transmit request true;; set_state to;; mret ERR_NONE
    end.

Definition session_suspend : M uwb_err := session_request true RANGING SUSPEND_REQ_SENT.

Definition session_resume : M uwb_err := session_request false SUSPENDED RESUME_REQ_SENT.

Definition session_forced_suspend : M uwb_err :=
  s ← the_session;
  if negb (us_ccc s) then mret ERR_INVALID_STATE
  else
    e ← cherry_session_stop;
    match e with CHERRY_NONE => set_state SUSPENDED | _ => mret tt end;;
    mret (cherry_err_to_ultrawidelock e).

(** ** Handlers *)

(** Without a time offset the ranging starts as soon as possible. *)
Definition compute_initiation_time : M unit :=
  s ← the_session;
  up_config (fun c => c <| cg_uwb_time_us :=
    if us_time_offset s =? 0 then 0 else wrap 64 (cg_uwb_time_us c + us_time_offset s) |>).

Definition set_resume_params : M uwb_err :=
  s ← the_session;
  e ← on_object (cherry_session_set_sts_index (cg_sts_index (us_config s)));
  match e with
  | CHERRY_NONE =>
      e ← on_object (cherry_session_set_initiation_time (cg_uwb_time_us (us_config s)));
      mret (match e with CHERRY_NONE => ERR_NONE | _ => ERR_INTERNAL end)
  | _ => mret ERR_INTERNAL
  end.

(** What every handler starts with: the attributes are folded into the
    parameters, then their set and the state are looked at. *)
Definition ranging_handler (msg : list Z) (masks : list Z) (expected : session_state) (k : Z -> M uwb_err) : M uwb_err :=
  s ← the_session;
  let '(p, e) := parse_ranging ad msg s in
  up_session (fun _ => rg_session p);;
  match e with
  | ERR_NONE =>
      if negb (existsb (Z.eqb (rg_mask p)) masks) then mret ERR_MSG_MALFORMED
      else if negb (bool_decide (us_state s = expected)) then mret ERR_INVALID_STATE
      else k (rg_status p)
  | _ => mret e
  end.

Definition handle_m2 (msg : list Z) : M uwb_err :=
  ranging_handler msg [M2_ATTR_MASK; M2_ATTR_MASK_VENDOR] M1_SENT (fun _ =>
    m3 ← build_m3;
    match m3 with
    | None => mret ERR_INTERNAL
    | Some m3 => transmit m3 true;; set_state M3_SENT;; mret ERR_NONE
    end).

Definition handle_m4 (msg : list Z) : M uwb_err :=
  ranging_handler msg [M4_ATTR_MASK; M4_ATTR_MASK_VENDOR] M3_SENT (fun _ =>
    compute_initiation_time;;
    e ← session_init;
    match e with
    | ERR_NONE => set_state RANGING;; mret ERR_NONE
    | _ => mret e
    end).

Definition handle_suspend_request (msg : list Z) : M uwb_err :=
  ranging_handler msg [SUSPEND_REQUEST_ATTR_MASK] RANGING (fun _ =>
    e ← session_stop;
    response ← build_suspend_response (match e with ERR_NONE => STATUS_ACCEPT | _ => STATUS_REJECT end);
    match response with
    | None => mret ERR_INTERNAL
    | Some response => the_session;; transmit response false;; mret ERR_NONE
    end).

Definition handle_suspend_response (msg : list Z) : M uwb_err :=
  ranging_handler msg [SUSPEND_RESPONSE_ATTR_MASK] SUSPEND_REQ_SENT (fun status =>
    if negb (status =? STATUS_ACCEPT) then set_state RANGING;; mret ERR_NONE
    else session_stop).

Definition handle_resume_response (msg : list Z) : M uwb_err :=
  ranging_handler msg [RESUME_RESPONSE_ATTR_MASK] RESUME_REQ_SENT (fun _ =>
    compute_initiation_time;;
    e ← set_resume_params;
    match e with
    | ERR_NONE =>
        e ← session_start;
        match e with
        | ERR_NONE => set_state RANGING;; mret ERR_NONE
        | _ => mret e
        end
    | _ => mret e
    end).

Definition process_ranging (msg : list Z) : M uwb_err :=
  let i := message_id msg in
  if i =? SETUP_M2 then handle_m2 msg
  else if i =? SETUP_M4 then handle_m4 msg
  else if i =? SUSPEND_REQUEST then handle_suspend_request msg
  else if i =? SUSPEND_RESPONSE then handle_suspend_response msg
  else if i =? RESUME_RESPONSE then handle_resume_response msg
  else mret ERR_MESSAGE_UNSUPPORTED.

(** ** Notifications *)

(** From one state to another, or an error. *)
Definition moved_from (from to : session_state) : M uwb_err :=
  s ← the_session;
  if bool_decide (us_state s = from) then set_state to;; mret ERR_NONE else mret ERR_INVALID_STATE.

Definition handle_init_ranging_later : M uwb_err := moved_from M1_SENT CREATED.

Definition handle_resume_later : M uwb_err := moved_from RESUME_REQ_SENT SUSPENDED.

Definition handle_ranging_suspended : M uwb_err :=
  s ← the_session;
  if negb (bool_decide (us_state s = RANGING)) then mret ERR_INVALID_STATE else session_stop.

Definition parse_event_notification (msg : list Z) : uwb_err :=
  default ERR_NONE
    (for_attributes msg (fun a (_ : unit) =>
       (tt, if (at_id a =? EVENT_ATTR_GENERAL_ERROR) && negb (at_length a =? 1)
            then Some ERR_MSG_MALFORMED else None)) tt).2.

Definition ranging_notification_attribute (a : attribute) : M uwb_err :=
  let i := at_id a in
  if i =? RANGING_ATTR_INIT_RANGING then session_init_setup
  else if i =? RANGING_ATTR_INIT_RANGING_RESUME then session_resume
  else if i =? RANGING_ATTR_INIT_RANGING_SETUP_LATER then handle_init_ranging_later
  else if i =? RANGING_ATTR_INIT_RANGING_RESUME_LATER then handle_resume_later
  else if i =? RANGING_ATTR_RANGING_SUSPENDED then handle_ranging_suspended
  else mret ERR_NONE.

(** The loop over the attributes, each handled by a computation; [None] for
    one without a result. *)
Definition parse_ranging_notification (msg : list Z) : M uwb_err := fun u =>
  let body a (u : option uwb) :=
    match u ≫= ranging_notification_attribute a with
    | None => (None, Some ERR_INTERNAL)
    | Some (e, u) => (Some u, returned e)
    end in
  match for_attributes msg body (Some u) with
  | (None, _) => None
  | (Some u, e) => Some (default ERR_NONE e, u)
  end.

Definition process_notification (msg : list Z) : M uwb_err :=
  let i := message_id msg in
  if i =? NOTIFICATION_EVENT then mret (parse_event_notification msg)
  else if i =? NOTIFICATION_RANGING then parse_ranging_notification msg
  else mret ERR_NONE.

(** Supplementary-service messages are only logged. *)
Definition session_message_handle (msg : list Z) : M uwb_err :=
  if zlen msg <? HEADER_LENGTH then mret ERR_MSG_MALFORMED
  else if negb (payload_length msg =? zlen msg - HEADER_LENGTH) then mret ERR_MSG_MALFORMED
  else
    let protocol := protocol_header msg in
    if protocol =? PROTOCOL_RANGING_SERVICE then process_ranging msg
    else if protocol =? PROTOCOL_NOTIFICATION then process_notification msg
    else if protocol =? PROTOCOL_SUPPLEMENTARY_SERVICE then mret ERR_NONE
    else mret ERR_MESSAGE_UNSUPPORTED.
End Session.
