(* ===== verification/UwbRun.v ===== *)
(** * Sessions and the engine: the invariant and the seam

    Postconditions of the computations of UwbCherry.v, the invariant that ties
    the session, the seam's object and the radio together, what a message and a
    radio callback cannot change, and the operations of the seam as equations on
    worlds in which allocations succeed. *)

From Stdlib Require Import ZArith Lia Bool.
From stdpp Require Import base list numbers option relations.
From S2P Require Import Prelude Wire MatterCrypto CccKdf CccMac FiraRange CccRx UwbMsg UwbCherry UwbSession.

Local Open Scope Z_scope.
Local Open Scope uwl_scope.

(** ** Postconditions of computations *)

Definition runs {A} (m : M A) (Q : A -> uwb -> Prop) (u : uwb) : Prop :=
  match m u with Some (a, u') => Q a u' | None => False end.

Lemma runs_bind {A B} (m : M A) (k : A -> M B) (Q : B -> uwb -> Prop) u :
  runs m (fun a => runs (k a) Q) u -> runs (m ≫= k) Q u.
Proof. unfold runs, mbind, M_bind. destruct (m u) as [[a u']|]; done. Qed.

Lemma runs_ret {A} (a : A) (Q : A -> uwb -> Prop) u : Q a u -> runs (mret a) Q u.
Proof. done. Qed.

Lemma runs_weaken {A} (m : M A) (Q R : A -> uwb -> Prop) u :
  runs m Q u -> (forall a u', Q a u' -> R a u') -> runs m R u.
Proof. unfold runs. destruct (m u) as [[a u']|]; [|done]. auto. Qed.

Lemma bind_step {A B} (m : M A) (k : A -> M B) u a u' : m u = Some (a, u') -> (m ≫= k) u = k a u'.
Proof. intros H. unfold mbind, M_bind. by rewrite H. Qed.

(** ** The invariant *)

(** The states with an object of the seam, and those with the radio on. *)
Definition has_object (st : session_state) : bool :=
  match st with RANGING | SUSPEND_REQ_SENT | SUSPENDED | RESUME_REQ_SENT => true | _ => false end.

Definition on_air (st : session_state) : bool :=
  match st with RANGING | SUSPEND_REQ_SENT => true | _ => false end.

Definition radio_quiet (e : uwb_engine) : Prop :=
  rx_listen_gate (en_rx e) = false /\ fi_ursk (en_fira e) = None /\ sh_active (en_shim e) = false.

Definition radio_on (ursk : list Z) (id : Z) (e : uwb_engine) : Prop :=
  rx_listen_gate (en_rx e) = true /\ fi_ursk (en_fira e) = Some ursk /\ fi_session_id (en_fira e) = id
  /\ sh_active (en_shim e) = true.

Definition seam_ok (s : uwb_session) (o : option ccc_session) (e : uwb_engine) : Prop :=
  us_ccc s = has_object (us_state s)
  /\ (us_state s <> CREATED -> cg_session_id (us_config s) = us_session_id s)
  /\ match o with
     | None => has_object (us_state s) = false /\ radio_quiet e
     | Some o =>
         has_object (us_state s) = true
         /\ if on_air (us_state s)
            then cs_state o = STATE_ACTIVE /\ exists k, cs_ursk o = Some k /\ radio_on k (us_session_id s) e
            else cs_state o = STATE_IDLE /\ is_Some (cs_ursk o) /\ radio_quiet e
     end.

Definition coherent (u : uwb) : Prop :=
  u_heap u = [] /\
  match u_session u with
  | None => u_object u = None /\ radio_quiet (u_engine u)
  | Some s => seam_ok s (u_object u) (u_engine u)
  end.

(** The changes of state a session makes. *)
Definition edge (a b : session_state) : bool :=
  match a, b with
  | CREATED, M1_SENT | M1_SENT, M3_SENT | M3_SENT, RANGING => true
  | M1_SENT, CREATED | RESUME_REQ_SENT, SUSPENDED => true
  | RANGING, SUSPEND_REQ_SENT | SUSPEND_REQ_SENT, RANGING => true
  | RANGING, SUSPENDED | SUSPEND_REQ_SENT, SUSPENDED => true
  | SUSPENDED, RESUME_REQ_SENT | RESUME_REQ_SENT, RANGING => true
  | _, _ => bool_decide (a = b)
  end.

(** ** What a message cannot change *)

(** The loop keeps what its body keeps. *)
Lemma for_attributes_keep {St Er} (P : St -> Prop) (body : attribute -> St -> St * option Er) msg s :
  (forall a s, P s -> P (body a s).1) -> P s -> P (for_attributes msg body s).1.
Proof.
  intros Hb. unfold for_attributes. generalize (length msg) (PARSER_INIT msg). intros f. revert s.
  induction f as [|f IH]; intros s p H; [done|]. cbn [each_attribute].
  destruct (next_attribute p) as [p' [a|]]; [|done].
  specialize (Hb a s H). destruct (body a s) as [s' [e|]]; [done|]. by apply IH.
Qed.

(** Everything but the parameters, and the parameters' session identifier. *)
Definition same_session (s s' : uwb_session) : Prop :=
  s' = s <| us_config := us_config s' |> /\ cg_session_id (us_config s') = cg_session_id (us_config s).

Lemma same_core_refl s : same_session s s.
Proof. split; [by destruct s|done]. Qed.

Lemma same_core_config s s' f : (forall c, cg_session_id (f c) = cg_session_id c) ->
  same_session s s' -> same_session s (with_config s' f).
Proof. intros Hf [H1 H2]. split; cbn; [|by rewrite Hf]. rewrite H1. reflexivity. Qed.

Section Parse.
Variable ad : uwb_adapter.

Lemma folded_core s v f s' : (forall v c, cg_session_id (f v c) = cg_session_id c) ->
  same_session s s' -> same_session s (folded v f s').1.
Proof. intros Hf H. unfold folded. destruct v; [|done]. by apply same_core_config. Qed.

Lemma parse_session_attribute_core s a s' : same_session s s' -> same_session s (parse_session_attribute ad a s').1.
Proof.
  intros H. unfold parse_session_attribute.
  unfold parse_config_id, parse_pulse_shape, parse_ran_multiplier, parse_slot_bitmask, parse_sync_code_bitmask,
    parse_sync_code_index, parse_sts_index0, parse_uwb_time0, parse_hop_mode_key, parse_session_id, parse_channel,
    parse_hopping_bitmask.
  repeat case_match; cbn [fst]; try done; try (by apply folded_core); by apply same_core_config.
Qed.

Lemma parse_ranging_core msg s : same_session s (rg_session (parse_ranging ad msg s).1).
Proof.
  unfold parse_ranging.
  pose proof (for_attributes_keep (fun p => same_session s (rg_session p)) (parse_ranging_attribute ad) msg
    {| rg_session := s; rg_mask := 0; rg_status := STATUS_UNKNOWN |}) as H.
  destruct (for_attributes _ _ _) as [p e]. cbn in H |- *. apply H; [|apply same_core_refl].
  clear. intros a p H. unfold parse_ranging_attribute.
  pose proof (parse_session_attribute_core s a (rg_session p) H) as C.
  destruct (parse_session_attribute ad a (rg_session p)) as [s' e]. repeat case_match; cbn in *; try done; by simplify_eq.
Qed.
End Parse.

(** ** The engine *)

Section Run.
Context `{C : BlockCipher} `{F : fira_cfg} `{K : rx_cfg} `{G : Residue}.
Variable ad : uwb_adapter.

Lemma stop_quiet e : radio_quiet (ultrawidelock_uwb_stop e).
Proof. unfold ultrawidelock_uwb_stop, ccc_prepoll_stop, radio_quiet. cbn. by case_match. Qed.

(** A start from a quiet engine is on the air or quiet. *)
Lemma start_cred_spec radio c e : radio_quiet e ->
  let r := ultrawidelock_uwb_start_cred radio c e in
  if r.2 then radio_on (cc_ursk c) (cc_session_id c) r.1 else radio_quiet r.1.
Proof.
  intros (Hg & Hu & Ha). unfold ultrawidelock_uwb_start_cred. cbv zeta.
  destruct (ccc_shim_bind_from_ursk _ _ _ _ _) as [g|] eqn:B; cbn [fst snd]; [|done].
  assert (sh_active g = true).
  { unfold ccc_shim_bind_from_ursk in B.
    destruct (ccc_derive_mursk _); [|done]. destruct (ccc_derive_salted_hash _ _); [|done].
    cbn [mbind option_bind] in B. unfold ccc_shim_bind in B. destruct (_ =? 0); [done|]. by injection B as <-. }
  destruct (radio _ _); cbn [fst snd]; [|done]. by repeat split.
Qed.

(** What the callbacks of the radio leave as it is. *)
Definition binding (e : uwb_engine) : bool * option (list Z) * Z * bool :=
  (rx_listen_gate (en_rx e), fi_ursk (en_fira e), fi_session_id (en_fira e), sh_active (en_shim e)).

Lemma binding_up_rx f e : rx_listen_gate (f (en_rx e)) = rx_listen_gate (en_rx e) -> binding (up_rx f e) = binding e.
Proof. intros H. unfold binding. cbn. by rewrite H. Qed.

Lemma binding_shim g e : sh_active g = sh_active (en_shim e) -> binding (e <| en_shim := g |>) = binding e.
Proof. intros H. unfold binding. cbn. by rewrite H. Qed.

Lemma sts_for_index_active i g : sh_active (ccc_shim_sts_for_index i g).1 = sh_active g.
Proof. unfold ccc_shim_sts_for_index. by repeat case_match. Qed.

Lemma dudsk_for_index_active i g : sh_active (ccc_shim_dudsk_for_index i g).1 = sh_active g.
Proof. unfold ccc_shim_dudsk_for_index. by repeat case_match. Qed.

Lemma warm_next_binding widx e : binding (warm_next widx e) = binding e.
Proof.
  unfold warm_next.
  assert (A : forall i e, binding (e <| en_shim := (ccc_shim_sts_for_index i (en_shim e)).1 |>) = binding e).
  { intros i e'. apply binding_shim, sts_for_index_active. }
  pose proof (A widx e) as A1. destruct (ccc_shim_sts_for_index widx (en_shim e)) as [g [p|]]; cbn [fst] in A1;
    [|by rewrite binding_up_rx].
  set (e1 := up_rx _ (e <| en_shim := g |>)). assert (B1 : binding e1 = binding e) by (by rewrite <- A1).
  pose proof (A (u32 (widx + 1 + RESPONDER_INDEX)) e1) as A2.
  destruct (ccc_shim_sts_for_index _ (en_shim e1)) as [g2 [p2|]]; cbn [fst] in A2; [|rewrite binding_up_rx by done; congruence].
  set (e2 := up_rx _ (e1 <| en_shim := g2 |>)). assert (B2 : binding e2 = binding e) by (rewrite <- B1, <- A2; done).
  pose proof (A (u32 (widx + FINAL_SLOT_OFFSET)) e2) as A3.
  destruct (ccc_shim_sts_for_index _ (en_shim e2)) as [g3 [p3|]]; cbn [fst] in A3; rewrite binding_up_rx by done; congruence.
Qed.

Lemma derive_sp0_gate u i r : rx_listen_gate (derive_sp0_keys u i r) = rx_listen_gate r.
Proof. unfold derive_sp0_keys. cbv zeta. by destruct (ccc_uad_addresses _) as [[? ?] ?]. Qed.

Lemma accept_prepoll_binding c pp e : binding (accept_prepoll c pp e) = binding e.
Proof.
  unfold accept_prepoll. set (e1 := up_rx _ e).
  assert (B : binding e1 = binding e) by (apply binding_up_rx; cbv zeta; by case_match).
  case_match; [done|]. by rewrite warm_next_binding.
Qed.

Lemma prepoll_decode_binding frame e : binding (prepoll_decode frame e) = binding e.
Proof.
  unfold prepoll_decode. repeat (case_match; try done); rewrite ?accept_prepoll_binding; try done;
    apply binding_up_rx, derive_sp0_gate.
Qed.

Lemma set_range_sts_binding v q e :
  binding (e <| en_fira := fira_session_set_ccc_range_sts v q (en_fira e) |>) = binding e.
Proof. reflexivity. Qed.

Lemma set_range_fixed now cm block f :
  fi_ursk (fira_session_set_ccc_range_cm now cm block f).1 = fi_ursk f
  /\ fi_session_id (fira_session_set_ccc_range_cm now cm block f).1 = fi_session_id f.
Proof.
  unfold fira_session_set_ccc_range_cm, count_sts, count_consensus. cbv zeta.
  repeat case_match; done.
Qed.

Lemma latch_range_binding now fd e : binding (latch_range now fd e).1 = binding e.
Proof.
  unfold latch_range. destruct (round_times (en_rx e)) as [[a b]|]; [|done].
  destruct (ccc_responder_ds_twr fd RESPONDER_INDEX a b) as [tw|]; [|done].
  destruct (rx_final_sts (en_rx e)) as [v q]. cbv zeta. case_match; [done|].
  set (e1 := up_rx _ _). assert (B : binding e1 = binding e) by done. clearbody e1.
  pose proof (set_range_fixed now (distance_mm (ds_twr_tof_signed tw) ÷ 10) (fd_ranging_block fd) (en_fira e1)) as [H1 H2].
  destruct (fira_session_set_ccc_range_cm _ _ _ (en_fira e1)) as [f w]. cbn [fst] in *. rewrite <- B.
  unfold binding. cbn. by rewrite H1, H2.
Qed.

Lemma final_data_binding now frame e : binding (final_data_decode now frame e).1 = binding e.
Proof.
  unfold final_data_decode. cbv zeta. set (e0 := up_rx _ e). assert (B : binding e0 = binding e) by done.
  rewrite <- B. clearbody e0. clear B e. rename e0 into e.
  destruct (ccc_parse_mhr frame) as [mhr|]; [|done]. case_match; [done|].
  destruct (rx_uad (en_rx e)) as [ks|]; [|done]. case_match; [done|]. case_match; [done|].
  destruct (rx_evidence (en_rx e)) as [[a b]|]; [|done].
  pose proof (binding_shim _ e (dudsk_for_index_active b (en_shim e))) as B.
  destruct (ccc_shim_dudsk_for_index b (en_shim e)) as [g [k|]]; cbn [fst] in B; [|done].
  rewrite <- B. set (e1 := e <| en_shim := g |>). clearbody e1.
  destruct (ccc_sp0_decrypt _ _ _ _ _ _); try done. destruct (ccc_final_data_parse _) as [fd|]; [|done].
  case_match; [done|]. case_match; [done|].
  set (e2 := up_rx _ e1). assert (B2 : binding e2 = binding e1) by done. rewrite <- B2. clearbody e2.
  pose proof (latch_range_binding now fd e2) as L. destruct (latch_range now fd e2) as [e3 w]. cbn [fst] in *.
  rewrite <- L. unfold binding. cbn. unfold consume_evidence. by case_match.
Qed.

Lemma try_prepoll_binding now data e : binding (ccc_shim_rx_try_prepoll now data e).1 = binding e.
Proof.
  unfold ccc_shim_rx_try_prepoll. case_match; [done|]. case_match; [done|]. cbv zeta.
  set (e1 := if rx_pending (en_rx e) then _ else e).
  assert (B : binding e1 = binding e) by (subst e1; destruct (rx_pending (en_rx e)); rewrite ?prepoll_decode_binding; reflexivity).
  clearbody e1. set (e2 := up_rx _ e1). assert (B2 : binding e2 = binding e) by (by rewrite <- B). clearbody e2.
  set (final := if CCC_MHR_LEN <=? zlen data then _ else false). clearbody final.
  destruct final; [by rewrite final_data_binding|].
  destruct (negb (rx_warm_valid (en_rx e2))); cbn [fst]; [by rewrite prepoll_decode_binding|]. by rewrite <- B2.
Qed.

Lemma flush_pending_binding e : binding (flush_pending e) = binding e.
Proof. unfold flush_pending. case_match; by rewrite ?prepoll_decode_binding. Qed.

Lemma rearm_binding ev e : binding (prepoll_rx_rearm ev e).1 = binding e.
Proof.
  unfold prepoll_rx_rearm, on_final, on_poll, on_prepoll, arm_poll_sp3. cbv zeta.
  assert (CF : binding (up_rx (capture_final ev) e) = binding e).
  { apply binding_up_rx. unfold capture_final. cbv zeta. repeat case_match; done. }
  repeat case_match; cbn [fst]; rewrite ?flush_pending_binding; try done; try (by rewrite CF);
    simplify_eq; try done; unfold binding; cbn; repeat case_match; done.
Qed.

Lemma rxok_binding ev e : binding (shim_rxok ev e).1.1 = binding e.
Proof.
  unfold shim_rxok. pose proof (rearm_binding ev e) as H. destruct (prepoll_rx_rearm ev e) as [e1 cmds]. cbn [fst] in H.
  case_match; [done|]. pose proof (try_prepoll_binding (ev_now ev) (take (Z.to_nat (ev_len ev)) (ev_data ev)) e1) as T.
  destruct (ccc_shim_rx_try_prepoll _ _ e1) as [e2 w]. cbn [fst] in *. congruence.
Qed.

Lemma tx_done_binding tx e : binding (resp_tx_done tx e).1 = binding e.
Proof. unfold resp_tx_done. cbv zeta. repeat case_match; cbn [fst]; by rewrite ?flush_pending_binding. Qed.

Lemma binding_quiet e e' : binding e' = binding e -> radio_quiet e -> radio_quiet e'.
Proof. unfold radio_quiet. intros [= -> -> _ ->]. done. Qed.

Lemma binding_on k id e e' : binding e' = binding e -> radio_on k id e -> radio_on k id e'.
Proof. unfold radio_on. intros [= -> -> -> ->]. done. Qed.

(** ** The seam *)

(** A world in which every allocation succeeds. *)
Definition world (s : option uwb_session) (o : option ccc_session) (e : uwb_engine) (r : list bool)
    (l : list uwb_event) : uwb :=
  {| u_session := s; u_object := o; u_engine := e; u_heap := []; u_radio := r; u_log := l |}.

Lemma emit_status_eq st s o e r l :
  emit_status st (world (Some s) (Some o) e r l)
  = Some (tt, world (match st with STATE_DEINIT => None | _ => Some s end) (Some (o <| cs_state := st |>)) e r
                (l ++ [UwbStatus st])).
Proof. by destruct st. Qed.

(** What an error of the seam leaves in the log. *)
Definition error_reported (err : cherry_err) : list uwb_event :=
  [UwbSend [PROTOCOL_NOTIFICATION; NOTIFICATION_EVENT; 0; 3; EVENT_ATTR_GENERAL_ERROR; 1; GENERAL_ERROR_UNKNOWN] false;
   UwbError err].

Lemma emit_error_eq err s o e r l :
  emit_error err (world (Some s) (Some o) e r l)
  = Some (tt, world (Some s) (Some o) e r (l ++ error_reported err)).
Proof.
  unfold error_reported. change (?a :: ?b :: nil) with ([a] ++ [b]). rewrite app_assoc. reflexivity.
Qed.

Lemma session_stop_eq s o e r l :
  cherry_session_stop (world (Some s) (Some o) e r l)
  = Some (CHERRY_NONE, world (Some s) (Some (o <| cs_state := STATE_IDLE |>)) (ultrawidelock_uwb_stop e) r
                         (l ++ [UwbStatus STATE_IDLE])).
Proof. reflexivity. Qed.

Lemma session_destroy_eq s o e r l :
  cherry_session_destroy (world (Some s) (Some o) e r l)
  = Some (tt, world None None (ultrawidelock_uwb_stop e) r (l ++ [UwbStatus STATE_DEINIT])).
Proof. reflexivity. Qed.

(** A start hands the key and the parameters over, and reports what came of
    it. *)
Definition start_log (p : cred_cfg) (ok : bool) : list uwb_event :=
  UwbHandoff (cc_ursk p) (cc_ranging_config p) (cc_channel p) (cc_sync_code_index p) ::
  (if ok then [UwbStatus STATE_IDLE; UwbStatus STATE_ACTIVE] else error_reported CHERRY_SESSION_INIT).

Lemma session_start_eq s o k e r l : cs_ursk o = Some k ->
  let p := start_params (us_config s) k in
  let started := ultrawidelock_uwb_start_cred (fun _ _ => hd true r) p e in
  cherry_session_start (world (Some s) (Some o) e r l)
  = Some (if started.2 then CHERRY_NONE else CHERRY_SESSION_INIT,
          world (Some s) (Some (if started.2 then o <| cs_state := STATE_ACTIVE |> else o)) started.1 (tl r)
            (l ++ start_log p started.2)).
Proof.
  intros Hk p started. unfold cherry_session_start.
  erewrite (bind_step the_object) by reflexivity. rewrite Hk.
  erewrite (bind_step the_session) by reflexivity. cbv zeta. fold p.
  erewrite (bind_step (log _)) by reflexivity.
  rewrite (bind_step radio_up _ _ (hd true r) (world (Some s) (Some o) e (tl r)
    (l ++ [UwbHandoff k (cc_ranging_config p) (cc_channel p) (cc_sync_code_index p)]))) by (by destruct r).
  erewrite (bind_step the_world) by reflexivity. cbn [u_engine world]. fold started.
  erewrite (bind_step (up_engine _)) by reflexivity.
  clearbody started. destruct started as [e' []]; cbn [fst snd].
  - erewrite bind_step by apply emit_status_eq. erewrite bind_step by apply emit_status_eq.
    cbn [u_log u_radio world]. rewrite <- !app_assoc. reflexivity.
  - erewrite bind_step by apply emit_error_eq. cbn [u_log u_radio world]. rewrite <- !app_assoc. reflexivity.
Qed.
End Run.

(** * Runs of a UWB session

    What the client, the peer and the radio can make a session do, one
    operation at a time, and the invariant of every run in which allocations
    succeed: the two objects, the radio and the session's state agree.  A client
    that has no session only creates one, as [ultrawidelock_ranging.c] does; the
    radio's callbacks come at any time. *)

Local Open Scope Z_scope.
Local Open Scope uwl_scope.

Section Run.
Context `{C : BlockCipher} `{F : fira_cfg} `{K : rx_cfg} `{G : Residue}.
Variable ad : uwb_adapter.

(** ** The lifecycle *)

(** What an operation of a session leaves: a coherent world, and a state the
    session may move to. *)
Definition ok_after (s : uwb_session) (u : uwb) : Prop :=
  coherent u /\ forall s', u_session u = Some s' -> edge (us_state s) (us_state s') = true.

Lemma edge_refl st : edge st st = true.
Proof. by destruct st. Qed.

Lemma ok_after_gone s e r l : radio_quiet e -> ok_after s (world None None e r l).
Proof. done. Qed.

Lemma ok_after_some s s' o e r l : seam_ok s' o e -> edge (us_state s) (us_state s') = true ->
  ok_after s (world (Some s') o e r l).
Proof. intros H1 H2. split; [done|]. intros s'' [= <-]. done. Qed.

Lemma close_object s o e r l : us_ccc s = true ->
  session_close (world (Some s) (Some o) e r l)
  = Some (tt, world None None (ultrawidelock_uwb_stop e) r (l ++ [UwbStatus STATE_DEINIT])).
Proof.
  intros H. unfold session_close. erewrite (bind_step the_session) by reflexivity. rewrite H.
  apply session_destroy_eq.
Qed.

(** Steps that are accepted and change nothing. *)
Lemma in_turn_same xs rest u : Forall (fun m : M cherry_err => m u = Some (CHERRY_NONE, u)) xs ->
  in_turn (xs ++ rest) u = in_turn rest u.
Proof. induction 1 as [|m xs H _ IH]; [done|]. cbn [app in_turn]. by rewrite (bind_step _ _ _ _ _ H). Qed.

Lemma accepts_eq s o e r l :
  cherry_session_accepts (world s (Some o) e r l) = Some (CHERRY_NONE, world s (Some o) e r l).
Proof. reflexivity. Qed.

(** The accepted steps of [session_init], on any world with an object. *)
Lemma session_init_steps_eq s s' o e r l :
  in_turn (session_init_steps ad s) (world s' (Some o) e r l)
  = in_turn [cherry_session_start]
      (world s' (Some (match us_ursk s with Some k => o <| cs_ursk := Some k |> | None => o end)) e r l).
Proof.
  set (rest := [cherry_session_start]).
  assert (A : forall xs u, Forall (fun m => m = cherry_session_accepts) xs ->
            cherry_session_accepts u = Some (CHERRY_NONE, u) -> in_turn (xs ++ rest) u = in_turn rest u).
  { intros xs u Hx Hu. apply in_turn_same. eapply list.Forall_impl; [exact Hx|]. by intros m ->. }
  unfold session_init_steps. fold rest.
  destruct (us_ursk s) as [k|].
  - change (in_turn (([cherry_session_set_ursk k]) ++ ?xs)) with (in_turn (cherry_session_set_ursk k :: xs)). cbn [in_turn].
    rewrite (bind_step (cherry_session_set_ursk k) _ _ CHERRY_NONE (world s' (Some (o <| cs_ursk := Some k |>)) e r l)) by reflexivity.
    rewrite !app_assoc. apply A; [|apply accepts_eq].
    rewrite !list.Forall_app. repeat case_match; repeat split; repeat constructor.
  - rewrite app_nil_l, !app_assoc. apply A; [|apply accepts_eq].
    rewrite !list.Forall_app. repeat case_match; repeat split; repeat constructor.
Qed.

Lemma session_start_no_key s o e r l : cs_ursk o = None ->
  cherry_session_start (world s (Some o) e r l) = Some (CHERRY_SESSION_CONFIG, world s (Some o) e r l).
Proof. intros H. unfold cherry_session_start. erewrite (bind_step the_object) by reflexivity. by rewrite H. Qed.

(** Creating the object and handing it the key is where [session_init] gets
    to before the start. *)
Lemma init_first s e r l :
  session_init ad (world (Some s) None e r l)
  = (e0 ← in_turn [cherry_session_start];
     match e0 with CHERRY_NONE => mret ERR_NONE | _ => session_close;; mret (cherry_err_to_ultrawidelock e0) end)
      (world (Some (s <| us_ccc := true |>)) (Some {| cs_ursk := us_ursk s; cs_state := STATE_INIT |}) e r l).
Proof.
  set (s' := s <| us_ccc := true |>). unfold session_init.
  rewrite (bind_step cherry_session_create _ _ true (world (Some s) (Some {| cs_ursk := None; cs_state := STATE_INIT |}) e r l)) by reflexivity.
  rewrite (bind_step (up_session _) _ _ tt (world (Some s') (Some {| cs_ursk := None; cs_state := STATE_INIT |}) e r l)) by reflexivity.
  cbn [negb]. erewrite (bind_step the_session) by reflexivity.
  unfold mbind, M_bind at 1. rewrite session_init_steps_eq. change (us_ursk s') with (us_ursk s).
  unfold mbind, M_bind at 1. by destruct (us_ursk s).
Qed.

(** A session without an object is given one and goes on the air, or it is
    closed. *)
Lemma session_init_eq s k e r l : us_ursk s = Some k ->
  let p := start_params (us_config s) k in
  let started := ultrawidelock_uwb_start_cred (fun _ _ => hd true r) p e in
  session_init ad (world (Some s) None e r l)
  = Some (if started.2
          then (ERR_NONE, world (Some (s <| us_ccc := true |>)) (Some {| cs_ursk := Some k; cs_state := STATE_ACTIVE |})
                            started.1 (tl r) (l ++ start_log p true))
          else (ERR_SESSION_INIT, world None None (ultrawidelock_uwb_stop started.1) (tl r)
                                    ((l ++ start_log p false) ++ [UwbStatus STATE_DEINIT]))).
Proof.
  intros Hk p started. rewrite init_first, Hk. cbn [in_turn].
  pose proof (session_start_eq (s <| us_ccc := true |>) {| cs_ursk := Some k; cs_state := STATE_INIT |} k e r l eq_refl) as Q.
  cbv zeta in Q. change (us_config (s <| us_ccc := true |>)) with (us_config s) in Q. fold p in Q. fold started in Q.
  clearbody started. destruct started as [e' []]; cbn [fst snd] in *; unfold mbind, M_bind; rewrite Q; [reflexivity|].
  cbn [mret M_ret]. rewrite close_object by done. reflexivity.
Qed.

Lemma session_init_no_key s e r l : us_ursk s = None ->
  session_init ad (world (Some s) None e r l)
  = Some (ERR_SESSION_CONFIG, world None None (ultrawidelock_uwb_stop e) r (l ++ [UwbStatus STATE_DEINIT])).
Proof.
  intros Hk. rewrite init_first, Hk. cbn [in_turn]. unfold mbind, M_bind. rewrite session_start_no_key by done.
  cbn [mret M_ret]. rewrite close_object by done. reflexivity.
Qed.

(** The same for a session that has its object already. *)
Lemma session_start_spec s o k e r l : us_ccc s = true -> cs_ursk o = Some k -> radio_quiet e ->
  exists e' r' l' err,
    session_start (world (Some s) (Some o) e r l)
    = Some (err, if bool_decide (err = ERR_NONE)
                 then world (Some s) (Some (o <| cs_state := STATE_ACTIVE |>)) e' r' l'
                 else world None None e' r' l')
    /\ if bool_decide (err = ERR_NONE) then radio_on k (cg_session_id (us_config s)) e' else radio_quiet e'.
Proof.
  intros Hc Hk He. unfold session_start, on_object.
  pose proof (start_cred_spec (fun _ _ => hd true r) (start_params (us_config s) k) e He) as S. cbv zeta in S.
  pose proof (session_start_eq s o k e r l Hk) as Q. cbv zeta in Q.
  destruct (ultrawidelock_uwb_start_cred _ _ _) as [e' ok]. cbn [fst snd] in S, Q.
  assert (B : (s0 ← the_session; if us_ccc s0 then cherry_session_start else mret CHERRY_INVALID_PARAMETER)
                (world (Some s) (Some o) e r l) = cherry_session_start (world (Some s) (Some o) e r l)).
  { erewrite (bind_step the_session) by reflexivity. by rewrite Hc. }
  destruct ok.
  - exists e', (tl r), (l ++ start_log (start_params (us_config s) k) true), ERR_NONE.
    split; [|done]. rewrite Q in B. by rewrite (bind_step _ _ _ _ _ B).
  - exists (ultrawidelock_uwb_stop e'), (tl r),
      ((l ++ start_log (start_params (us_config s) k) false) ++ [UwbStatus STATE_DEINIT]), ERR_SESSION_INIT.
    split; [|apply stop_quiet]. rewrite Q in B. rewrite (bind_step _ _ _ _ _ B).
    erewrite bind_step by (by apply close_object). reflexivity.
Qed.

Lemma session_stop_spec s o e r l : us_ccc s = true ->
  session_stop (world (Some s) (Some o) e r l)
  = Some (ERR_NONE, world (Some (s <| us_state := SUSPENDED |>)) (Some (o <| cs_state := STATE_IDLE |>))
                      (ultrawidelock_uwb_stop e) r (l ++ [UwbStatus STATE_IDLE])).
Proof.
  intros H. unfold session_stop, on_object.
  rewrite (bind_step _ _ _ CHERRY_NONE (world (Some s) (Some (o <| cs_state := STATE_IDLE |>)) (ultrawidelock_uwb_stop e) r
                         (l ++ [UwbStatus STATE_IDLE]))); [reflexivity|].
  erewrite (bind_step the_session) by reflexivity. rewrite H. apply session_stop_eq.
Qed.

(** ** The client's operations *)

Definition does {A} (m : M A) : Prop := forall s o e r l, seam_ok s o e ->
  runs m (fun _ u => ok_after s u) (world (Some s) o e r l).

(** An operation that does not end the session. *)
Definition still_there (s : uwb_session) (u : uwb) : Prop := ok_after s u /\ is_Some (u_session u).

Definition keeps_session {A} (m : M A) : Prop := forall s o e r l, seam_ok s o e ->
  runs m (fun _ u => still_there s u) (world (Some s) o e r l).

Lemma kept_some s s' o e r l : seam_ok s' o e -> edge (us_state s) (us_state s') = true ->
  still_there s (world (Some s') o e r l).
Proof. intros H1 H2. split; [by apply ok_after_some|by eexists]. Qed.

Lemma keeps_does {A} (m : M A) : keeps_session m -> does m.
Proof. intros H s o e r l Hs. eapply runs_weaken; [by apply H|]. intros a u Hk. apply Hk. Qed.

Lemma seam_ok_up s o e f :
  us_ccc (f s) = us_ccc s -> us_state (f s) = us_state s -> us_session_id (f s) = us_session_id s ->
  cg_session_id (us_config (f s)) = cg_session_id (us_config s) -> seam_ok s o e -> seam_ok (f s) o e.
Proof. unfold seam_ok. intros -> -> -> ->. done. Qed.

Lemma does_up f :
  (forall s, us_ccc (f s) = us_ccc s /\ us_state (f s) = us_state s /\ us_session_id (f s) = us_session_id s
             /\ cg_session_id (us_config (f s)) = cg_session_id (us_config s)) ->
  does (up_session f).
Proof.
  intros H s o e r l Hs. destruct (H s) as (H1 & H2 & H3 & H4).
  apply (ok_after_some s (f s)); [by apply seam_ok_up|]. rewrite H2. apply edge_refl.
Qed.

Lemma keeps_ret {A} (a : A) : keeps_session (mret a).
Proof. intros s o e r l Hs. by apply kept_some, edge_refl. Qed.

Lemma does_ret {A} (a : A) : does (mret a).
Proof. apply keeps_does, keeps_ret. Qed.

Lemma does_set_ursk k : does (session_set_ursk k).
Proof. intros s o e r l Hs. apply (ok_after_some s); [|apply edge_refl]. by apply (seam_ok_up s). Qed.

Lemma does_set_version v : does (session_set_protocol_version v).
Proof. intros s o e r l Hs. apply (ok_after_some s); [|apply edge_refl]. by apply (seam_ok_up s). Qed.

Lemma does_set_time_offset t : does (session_set_time_offset t).
Proof. intros s o e r l Hs. apply (ok_after_some s); [|apply edge_refl]. by apply (seam_ok_up s). Qed.

Lemma does_destroy : does session_destroy.
Proof.
  intros s o e r l (Hc & _ & Ho). unfold session_destroy.
  apply runs_bind. unfold runs at 1. cbn [up_session u_session world].
  destruct o as [o|].
  - destruct Ho as [Ho _]. unfold runs. fold (world (Some s) (Some o) e r l).
    change (field_set _ _ _) with (world (Some (s <| us_ursk := None |>)) (Some o) e r l).
    rewrite close_object by (cbn; congruence). apply ok_after_gone, stop_quiet.
  - destruct Ho as [Ho He]. unfold session_close. apply runs_bind. cbn. rewrite Hc, Ho. by apply ok_after_gone.
Qed.

(** A builder that finds room leaves the world alone. *)
Lemma build_m1_runs s w o e r l : exists m, build_m1 ad s (world w o e r l) = Some (m, world w o e r l).
Proof. eexists. reflexivity. Qed.

Lemma build_request_runs s b w o e r l : exists m,
  build_suspend_resume_request s b (world w o e r l) = Some (m, world w o e r l).
Proof. eexists. reflexivity. Qed.

Lemma build_response_runs st w o e r l : exists m,
  build_suspend_response st (world w o e r l) = Some (m, world w o e r l).
Proof. unfold build_suspend_response. case_match; eexists; reflexivity. Qed.

Lemma build_m3_runs s o e r l : exists m c, cg_session_id c = cg_session_id (us_config s) /\
  build_m3 ad (world (Some s) o e r l) = Some (m, world (Some (s <| us_config := c |>)) o e r l).
Proof.
  unfold build_m3. eexists _, _. split; cycle 1.
  - erewrite (bind_step alloc) by reflexivity. cbn [negb].
    erewrite (bind_step (up_config _) _ _ tt (world _ o e r l)) by reflexivity.
    erewrite (bind_step the_session) by reflexivity. cbv zeta. reflexivity.
  - reflexivity.
Qed.

(** What a message that was built is for: it is sent and the state moves. *)
Lemma send_and_move m t to s o e r l :
  (transmit m t;; set_state to;; mret ERR_NONE) (world (Some s) o e r l)
  = Some (ERR_NONE, world (Some (s <| us_state := to |>)) o e r (l ++ [UwbSend m t])).
Proof. reflexivity. Qed.

Lemma keeps_init_setup : keeps_session (session_init_setup ad).
Proof.
  intros s o e r l Hs. unfold session_init_setup. unfold runs. erewrite (bind_step the_session) by reflexivity.
  destruct (us_state s) eqn:S; try (by apply kept_some, edge_refl).
  pose proof Hs as (Hc & Hi & Ho). rewrite S in Hc, Ho. change (negb (bool_decide (CREATED = CREATED))) with false.
  cbv beta iota. set (s' := s <| us_config := (us_config s) <| cg_session_id := us_session_id s |> |>).
  rewrite (bind_step (up_config _) _ _ tt (world (Some s') o e r l)) by reflexivity.
  destruct (build_m1_runs s (Some s') o e r l) as [m E]. rewrite (bind_step _ _ _ _ _ E).
  destruct o as [o|]; [by destruct Ho|]. destruct Ho as [_ He].
  assert (seam_ok s' None e) by (split; [cbn; by rewrite S|split; [done|]]; split; [cbn; by rewrite S|done]).
  destruct m as [m|].
  - rewrite send_and_move. apply kept_some; [|by rewrite S]. split; [exact Hc|split; [done|by split]].
  - apply kept_some; [done|cbn; by rewrite S].
Qed.

Lemma keeps_request b from to :
  has_object from = true -> has_object to = true -> on_air from = on_air to -> edge from to = true -> to <> CREATED ->
  keeps_session (session_request b from to).
Proof.
  intros Lf Lt Ha Hed Hto s o e r l Hs. unfold session_request. unfold runs. erewrite (bind_step the_session) by reflexivity.
  destruct (us_ccc s) eqn:C1; [|by apply kept_some, edge_refl]. cbn [negb].
  destruct (bool_decide_reflect (us_state s = from)) as [S|S]; [|by apply kept_some, edge_refl]. cbn [negb].
  destruct (build_request_runs s b (Some s) o e r l) as [m E]. rewrite (bind_step _ _ _ _ _ E).
  destruct m as [m|]; [|by apply kept_some, edge_refl].
  rewrite send_and_move. apply kept_some; [|by rewrite S].
  destruct Hs as (Hc & Hi & Ho). rewrite S in Hc, Hi, Ho. split; [|split]; cbn.
  - congruence.
  - intros _. apply Hi. intros ->. done.
  - rewrite Lf in Ho. rewrite Lt, <- Ha. exact Ho.
Qed.

(** The session's state set by the client's suspension or the peer's. *)
Lemma suspended_ok s o e : seam_ok s (Some o) e -> us_state s <> CREATED ->
  seam_ok (s <| us_state := SUSPENDED |>) (Some (o <| cs_state := STATE_IDLE |>)) (ultrawidelock_uwb_stop e).
Proof.
  intros (Hc & Hi & Hl & Ho) Hn. rewrite Hl in Hc.
  split; [exact Hc|split; [intros _; by apply Hi|split; [done|split; [done|split; [|apply stop_quiet]]]]].
  change (is_Some (cs_ursk o)). destruct (on_air (us_state s)); [|apply Ho].
  destruct Ho as (_ & k & Hk & _). rewrite Hk. by eexists.
Qed.

Lemma live_suspends st : has_object st = true -> st <> RESUME_REQ_SENT -> edge st SUSPENDED = true.
Proof. by destruct st. Qed.

Lemma keeps_stop s o e r l : us_ccc s = true -> seam_ok s o e ->
  runs session_stop (fun _ u => still_there s u) (world (Some s) o e r l).
Proof.
  intros Hc Hs. pose proof Hs as (Hc' & _ & Ho). rewrite Hc in Hc'.
  destruct o as [o|]; [|destruct Ho; congruence].
  unfold runs. rewrite session_stop_spec by done. apply kept_some; [apply suspended_ok; [done|]|];
    cbn; destruct (us_state s); done.
Qed.

Lemma does_forced_suspend : does session_forced_suspend.
Proof.
  intros s o e r l Hs. unfold session_forced_suspend, runs. erewrite (bind_step the_session) by reflexivity.
  destruct (us_ccc s) eqn:C1; [|by apply ok_after_some, edge_refl]. cbn [negb].
  pose proof Hs as (Hc & _ & Ho). rewrite C1 in Hc. destruct o as [o|]; [|destruct Ho; congruence].
  rewrite (bind_step _ _ _ _ _ (session_stop_eq s o e r l)).
  change ((set_state SUSPENDED;; mret (cherry_err_to_ultrawidelock CHERRY_NONE)) ?u) with
    (Some (ERR_NONE, world (Some (s <| us_state := SUSPENDED |>)) (Some (o <| cs_state := STATE_IDLE |>))
       (ultrawidelock_uwb_stop e) r (l ++ [UwbStatus STATE_IDLE]))).
  cbv beta iota. apply ok_after_some; [apply suspended_ok; [done|]|]; cbn; destruct (us_state s); done.
Qed.

(** ** The peer's messages *)

Lemma same_core_fields s s' : same_session s s' ->
  us_ccc s' = us_ccc s /\ us_state s' = us_state s /\ us_session_id s' = us_session_id s /\ us_ursk s' = us_ursk s
  /\ cg_session_id (us_config s') = cg_session_id (us_config s).
Proof. intros [H1 H2]. rewrite H1. done. Qed.

Lemma same_core_ok s s' o e : same_session s s' -> seam_ok s o e -> seam_ok s' o e.
Proof. intros H. destruct (same_core_fields _ _ H) as (H1 & H2 & H3 & _ & H4). unfold seam_ok. by rewrite H1, H2, H3, H4. Qed.

(** A refused message leaves its parameters behind and nothing else. *)
Lemma handler_spec msg masks expected k s o e r l : seam_ok s o e ->
  (forall st s1, same_session s s1 -> us_state s1 = expected -> seam_ok s1 o e ->
     runs (k st) (fun _ u => ok_after s1 u) (world (Some s1) o e r l)) ->
  runs (ranging_handler ad msg masks expected k) (fun _ u => ok_after s u) (world (Some s) o e r l).
Proof.
  intros Hs Hk. unfold ranging_handler, runs. erewrite (bind_step the_session) by reflexivity.
  pose proof (parse_ranging_core ad msg s) as Hc. destruct (parse_ranging ad msg s) as [p err]. cbn [fst] in Hc.
  rewrite (bind_step (up_session _) _ _ tt (world (Some (rg_session p)) o e r l)) by reflexivity.
  pose proof (same_core_ok _ _ _ _ Hc Hs) as Hs1. destruct (same_core_fields _ _ Hc) as (_ & HS & _).
  assert (R : forall er, runs (mret er) (fun (_ : uwb_err) u => ok_after s u) (world (Some (rg_session p)) o e r l)).
  { intros er. apply ok_after_some; [done|]. rewrite HS. apply edge_refl. }
  destruct err; try apply R. destruct (existsb _ masks); cbn [negb]; [|apply R].
  destruct (bool_decide_reflect (us_state s = expected)) as [S|S]; [|apply R]. cbn [negb].
  assert (S1 : us_state (rg_session p) = expected) by congruence.
  pose proof (Hk (rg_status p) _ Hc S1 Hs1) as H. unfold runs in H.
  destruct (k (rg_status p) _) as [[a u']|]; [|done]. destruct H as [H1 H2]. split; [done|]. by rewrite <- HS.
Qed.

Lemma does_m2 msg : does (handle_m2 ad msg).
Proof.
  intros s o e r l Hs. apply handler_spec; [done|]. intros _ s1 _ S Hs1. clear s Hs. rename s1 into s, Hs1 into Hs. unfold runs.
  destruct (build_m3_runs s o e r l) as (m & c & Hc & E). rewrite (bind_step _ _ _ _ _ E).
  assert (Hs1 : seam_ok (s <| us_config := c |>) o e) by (by apply (seam_ok_up s)).
  destruct m as [m|]; [|by apply ok_after_some, edge_refl].
  rewrite send_and_move. apply ok_after_some; [|cbn; by rewrite S].
  destruct Hs1 as (H1 & H2 & H3). cbn in H1, H2, H3. rewrite S in H1, H2, H3.
  split; [exact H1|split; [intros _; by apply H2|exact H3]].
Qed.

(** The initiation time is another parameter. *)
Lemma initiation_time_runs s o e r l : exists c, cg_session_id c = cg_session_id (us_config s) /\
  cg_sts_index c = cg_sts_index (us_config s) /\
  compute_initiation_time (world (Some s) o e r l) = Some (tt, world (Some (s <| us_config := c |>)) o e r l).
Proof.
  exists ((us_config s) <| cg_uwb_time_us :=
    if us_time_offset s =? 0 then 0 else wrap 64 (cg_uwb_time_us (us_config s) + us_time_offset s) |>).
  split; [reflexivity|]. split; [reflexivity|]. unfold compute_initiation_time.
  erewrite (bind_step the_session) by reflexivity. reflexivity.
Qed.

Lemma set_state_ret to s o e r l :
  (set_state to;; mret ERR_NONE) (world (Some s) o e r l) = Some (ERR_NONE, world (Some (s <| us_state := to |>)) o e r l).
Proof. reflexivity. Qed.

Lemma does_m4 msg : does (handle_m4 ad msg).
Proof.
  intros s o e r l Hs. apply handler_spec; [done|]. intros _ s1 _ S Hs1. clear s Hs. rename s1 into s, Hs1 into Hs. unfold runs.
  destruct (initiation_time_runs s o e r l) as (c & Hc & _ & E). rewrite (bind_step _ _ _ _ _ E).
  destruct Hs as (H1 & H2 & H3). rewrite S in H1, H2, H3. destruct o as [o|]; [by destruct H3|]. destruct H3 as [_ He].
  set (s1 := s <| us_config := c |>). destruct (us_ursk s) as [k|] eqn:U.
  - pose proof (session_init_eq s1 k e r l U) as Q.
    pose proof (start_cred_spec (fun _ _ => hd true r) (start_params (us_config s1) k) e He) as S1. cbv zeta in S1, Q.
    destruct (ultrawidelock_uwb_start_cred _ _ _) as [e' []]; cbn [fst snd] in S1, Q; rewrite (bind_step _ _ _ _ _ Q).
    + rewrite set_state_ret. apply ok_after_some; [|cbn; by rewrite S].
      split; [done|split; [intros _; cbn; rewrite Hc; by apply H2|split; [done|split; [done|]]]].
      exists k. split; [done|]. cbn. cbn in S1. rewrite Hc, H2 in S1 by done. exact S1.
    + apply ok_after_gone, stop_quiet.
  - rewrite (bind_step _ _ _ _ _ (session_init_no_key s1 e r l U)). apply ok_after_gone, stop_quiet.
Qed.

Lemma does_suspend_request msg : does (handle_suspend_request ad msg).
Proof.
  intros s o e r l Hs. apply handler_spec; [done|]. intros _ s1 _ S Hs1. clear s Hs. rename s1 into s, Hs1 into Hs. unfold runs.
  pose proof Hs as (Hc & _ & Ho). rewrite S in Hc. destruct o as [o|]; [|destruct Ho as [Ho _]; rewrite S in Ho; done].
  rewrite (bind_step _ _ _ _ _ (session_stop_spec s o e r l Hc)).
  destruct (build_response_runs STATUS_ACCEPT (Some (s <| us_state := SUSPENDED |>)) (Some (o <| cs_state := STATE_IDLE |>))
              (ultrawidelock_uwb_stop e) r (l ++ [UwbStatus STATE_IDLE])) as [m E].
  rewrite (bind_step _ _ _ _ _ E).
  assert (seam_ok (s <| us_state := SUSPENDED |>) (Some (o <| cs_state := STATE_IDLE |>)) (ultrawidelock_uwb_stop e))
    by (apply suspended_ok; [done|]; by rewrite S).
  destruct m as [m|]; apply ok_after_some; try done; cbn; by rewrite S.
Qed.

Lemma back_on_air s o e : seam_ok s o e -> us_state s = SUSPEND_REQ_SENT -> seam_ok (s <| us_state := RANGING |>) o e.
Proof.
  intros (H1 & H2 & H3) S. rewrite S in H1, H2, H3. split; [exact H1|split; [intros _; by apply H2|exact H3]].
Qed.

Lemma does_suspend_response msg : does (handle_suspend_response ad msg).
Proof.
  intros s o e r l Hs. apply handler_spec; [done|]. intros st s1 _ S Hs1. clear s Hs. rename s1 into s, Hs1 into Hs. unfold runs.
  destruct (st =? STATUS_ACCEPT); cbn [negb]; cycle 1.
  - rewrite set_state_ret. apply ok_after_some; [by apply back_on_air|cbn; by rewrite S].
  - apply (runs_weaken _ (fun _ u => still_there s u)); [|intros a u Hk; apply Hk].
    apply keeps_stop; [|done]. destruct Hs as (Hc & _). by rewrite S in Hc.
Qed.

Lemma resume_params_runs s o e r l : us_ccc s = true -> exists c, cg_session_id c = cg_session_id (us_config s) /\
  set_resume_params (world (Some s) (Some o) e r l) = Some (ERR_NONE, world (Some (s <| us_config := c |>)) (Some o) e r l).
Proof.
  intros H. unfold set_resume_params, on_object. eexists. split; cycle 1.
  - erewrite (bind_step the_session) by reflexivity.
    rewrite (bind_step _ _ _ CHERRY_NONE (world (Some (s <| us_config := (us_config s) <| cg_sts_index := cg_sts_index (us_config s) |> |>))
               (Some o) e r l)); cycle 1.
    { erewrite (bind_step the_session) by reflexivity. rewrite H. reflexivity. }
    rewrite (bind_step _ _ _ CHERRY_NONE (world (Some (s <| us_config := (us_config s) <| cg_sts_index := cg_sts_index (us_config s) |>
               <| cg_uwb_time_us := cg_uwb_time_us (us_config s) |> |>)) (Some o) e r l)); cycle 1.
    { erewrite (bind_step the_session) by reflexivity. cbn [us_ccc]. change (us_ccc (field_set _ _ s)) with (us_ccc s).
      rewrite H. reflexivity. }
    reflexivity.
  - reflexivity.
Qed.

Lemma does_resume_response msg : does (handle_resume_response ad msg).
Proof.
  intros s o e r l Hs. apply handler_spec; [done|]. intros _ s1 _ S Hs1. clear s Hs. rename s1 into s, Hs1 into Hs. unfold runs.
  destruct (initiation_time_runs s o e r l) as (c & Hc & _ & E). rewrite (bind_step _ _ _ _ _ E).
  destruct Hs as (H1 & H2 & H3). rewrite S in H1, H2, H3. destruct o as [o|]; [|by destruct H3].
  destruct H3 as (_ & _ & [k Hk] & He).
  set (s1 := s <| us_config := c |>). destruct (resume_params_runs s1 o e r l H1) as (c' & Hc' & E1).
  rewrite (bind_step _ _ _ _ _ E1). set (s2 := s1 <| us_config := c' |>).
  assert (Hid : cg_session_id (us_config s2) = us_session_id s).
  { cbn. rewrite Hc'. cbn. rewrite Hc. by apply H2. }
  destruct (session_start_spec s2 o k e r l H1 Hk He) as (e' & r' & l' & err & E2 & H).
  rewrite (bind_step _ _ _ _ _ E2). clear E E1 E2.
  destruct err; try (by apply ok_after_gone).
  change (bool_decide (ERR_NONE = ERR_NONE)) with true in H |- *. cbv beta iota in H |- *.
  rewrite set_state_ret. apply ok_after_some; [|cbn; by rewrite S].
  split; [exact H1|split; [intros _; exact Hid|split; [done|split; [done|]]]].
  exists k. split; [exact Hk|]. rewrite Hid in H. exact H.
Qed.

Lemma does_process_ranging msg : does (process_ranging ad msg).
Proof.
  unfold process_ranging. cbv zeta. repeat case_match; auto using does_m2, does_m4, does_suspend_request,
    does_suspend_response, does_resume_response, does_ret.
Qed.

(** ** Notifications *)

Lemma keeps_moved_from from to :
  has_object from = has_object to -> on_air from = on_air to -> edge from to = true -> (from = CREATED -> to = CREATED) ->
  keeps_session (moved_from from to).
Proof.
  intros Hl Ha He Hc s o e r l Hs. unfold moved_from, runs. erewrite (bind_step the_session) by reflexivity.
  destruct (bool_decide_reflect (us_state s = from)) as [S|S]; [|by apply kept_some, edge_refl].
  rewrite set_state_ret. apply kept_some; [|by rewrite S].
  destruct Hs as (H1 & H2 & H3). rewrite S in H1, H2, H3.
  split; [cbn; congruence|split; [|cbn; by rewrite <- Hl, <- Ha]].
  intros Ht. apply H2. intros ->. by apply Ht, Hc.
Qed.

Lemma keeps_ranging_suspended : keeps_session handle_ranging_suspended.
Proof.
  intros s o e r l Hs. unfold handle_ranging_suspended, runs. erewrite (bind_step the_session) by reflexivity.
  destruct (bool_decide_reflect (us_state s = RANGING)) as [S|S]; [|by apply kept_some, edge_refl]. cbn [negb].
  apply (keeps_stop s); [|done]. destruct Hs as (Hc & _). by rewrite S in Hc.
Qed.

Lemma keeps_suspend : keeps_session session_suspend.
Proof. by apply keeps_request. Qed.

Lemma keeps_resume : keeps_session session_resume.
Proof. by apply keeps_request. Qed.

Lemma keeps_notification_attribute a : keeps_session (ranging_notification_attribute ad a).
Proof.
  unfold ranging_notification_attribute. cbv zeta.
  repeat case_match; auto using keeps_init_setup, keeps_resume, keeps_ranging_suspended, keeps_ret;
    by apply keeps_moved_from.
Qed.

(** The states a session goes through. *)
Definition went_through (a b : session_state) : Prop := rtc (fun a b => edge a b = true) a b.

Definition moves_after (s : uwb_session) (u : uwb) : Prop :=
  coherent u /\ forall s', u_session u = Some s' -> went_through (us_state s) (us_state s').

Lemma after_moves s u : ok_after s u -> moves_after s u.
Proof. intros [H1 H2]. split; [done|]. intros s' Hs. by apply rtc_once, H2. Qed.

(** The coherent worlds of a session. *)
Lemma coherent_world u s : coherent u -> u_session u = Some s ->
  u = world (Some s) (u_object u) (u_engine u) (u_radio u) (u_log u) /\ seam_ok s (u_object u) (u_engine u).
Proof. destruct u. intros [H1 H2] H3. cbn in *. subst. done. Qed.

Lemma does_ranging_notification msg s o e r l : seam_ok s o e ->
  runs (parse_ranging_notification ad msg) (fun _ u => moves_after s u) (world (Some s) o e r l).
Proof.
  intros Hs. unfold runs, parse_ranging_notification. set (body := fun a u => _).
  set (P := fun w : option uwb => exists u s', w = Some u /\ coherent u /\ u_session u = Some s'
     /\ went_through (us_state s) (us_state s')).
  assert (H : P (for_attributes msg body (Some (world (Some s) o e r l))).1).
  { apply for_attributes_keep.
    - intros a w (u' & s' & -> & Hc & Hu & Hm). destruct (coherent_world _ _ Hc Hu) as [E Hs'].
      pose proof (keeps_notification_attribute a s' _ _ (u_radio u') (u_log u') Hs') as R. rewrite <- E in R.
      unfold runs in R. unfold body. cbn [mbind option_bind].
      destruct (ranging_notification_attribute ad a u') as [[e1 u1]|]; [|done].
      destruct R as [[R1 R2] [s1 R3]]. exists u1, s1. split; [done|]. split; [done|]. split; [done|].
      eapply rtc_r; [exact Hm|]. by apply R2.
    - exists (world (Some s) o e r l), s. split; [done|]. split; [by split|]. split; [done|]. apply rtc_refl. }
  destruct (for_attributes msg body _) as [[u|] er]; destruct H as (u' & s' & H & Hc & Hu & Hm); [|done].
  injection H as <-. split; [done|]. intros s'' Hs''. by simplify_eq.
Qed.

Lemma does_message msg s o e r l : seam_ok s o e ->
  runs (session_message_handle ad msg) (fun _ u => moves_after s u) (world (Some s) o e r l).
Proof.
  intros Hs.
  assert (D : forall m : M uwb_err, does m -> runs m (fun _ u => moves_after s u) (world (Some s) o e r l)).
  { intros m H. eapply runs_weaken; [by apply H|]. intros a u. apply after_moves. }
  unfold session_message_handle, process_notification. cbv zeta.
  repeat case_match; auto using does_ret, does_process_ranging, does_ranging_notification.
Qed.

(** ** Runs *)

Inductive uwb_op :=
  | OpCreate (session_id : Z)
  | OpSetUrsk (ursk : list Z)
  | OpSetVersion (v : Z)
  | OpSetTimeOffset (t : Z)
  | OpInitSetup
  | OpMessage (msg : list Z)
  | OpSuspend
  | OpResume
  | OpForcedSuspend
  | OpDestroy
  | OpFrame (ev : rx_done_event)
  | OpSent (tx : tx_event).

(** An operation of a session, when there is one. *)
Definition on_session {A} (m : M A) : M unit := fun u =>
  match u_session u with Some _ => (m;; mret tt) u | None => Some (tt, u) end.

Definition uwb_do (op : uwb_op) : M unit :=
  match op with
  | OpCreate id => fun u => match u_session u with Some _ => Some (tt, u) | None => (session_create id;; mret tt) u end
  | OpSetUrsk k => on_session (session_set_ursk k)
  | OpSetVersion v => on_session (session_set_protocol_version v)
  | OpSetTimeOffset t => on_session (session_set_time_offset t)
  | OpInitSetup => on_session (session_init_setup ad)
  | OpMessage msg => on_session (session_message_handle ad msg)
  | OpSuspend => on_session session_suspend
  | OpResume => on_session session_resume
  | OpForcedSuspend => on_session session_forced_suspend
  | OpDestroy => on_session session_destroy
  | OpFrame ev => up_engine (fun e => (shim_rxok ev e).1.1)
  | OpSent tx => up_engine (fun e => (resp_tx_done tx e).1)
  end.

Fixpoint uwb_run (ops : list uwb_op) : M unit :=
  match ops with [] => mret tt | op :: rest => uwb_do op;; uwb_run rest end.

(** A message may carry several notifications; everything else moves the state
    once at most. *)
Definition step_of (op : uwb_op) (a b : session_state) : Prop :=
  match op with OpMessage _ => went_through a b | _ => edge a b = true end.

Definition steps_to (op : uwb_op) (u u' : uwb) : Prop :=
  coherent u' /\
  forall s s', u_session u = Some s -> u_session u' = Some s' -> step_of op (us_state s) (us_state s').

(** The callbacks of the radio keep a world coherent. *)
Lemma engine_step f u : (forall e, binding (f e) = binding e) -> coherent u ->
  runs (up_engine f) (fun _ u' => coherent u' /\ u_session u' = u_session u) u.
Proof.
  intros Hf [Hh Hc]. split; [|done]. split; [exact Hh|]. cbn. destruct (u_session u) as [s|].
  - destruct Hc as (H1 & H2 & H3). split; [done|split; [done|]]. specialize (Hf (u_engine u)).
    destruct (u_object u) as [o|].
    + destruct H3 as [H3 H4]. split; [done|]. destruct (on_air (us_state s)).
      * destruct H4 as (H4 & k & H5 & H6). split; [done|]. exists k. split; [done|]. by apply (binding_on _ _ (u_engine u)).
      * destruct H4 as (H4 & H5 & H6). split; [done|]. split; [done|]. by apply (binding_quiet (u_engine u)).
    + destruct H3 as [H3 H4]. split; [done|]. by apply (binding_quiet (u_engine u)).
  - destruct Hc as [H1 H2]. split; [done|]. apply (binding_quiet (u_engine u)); auto.
Qed.

Lemma on_session_step {A} op (m : M A) u : coherent u ->
  (forall s o e r l, seam_ok s o e ->
     runs m (fun _ u => coherent u /\ forall s', u_session u = Some s' -> step_of op (us_state s) (us_state s'))
       (world (Some s) o e r l)) ->
  (forall st, step_of op st st) ->
  runs (on_session m) (fun _ u' => steps_to op u u') u.
Proof.
  intros Hc Hm Hr. unfold runs, on_session. destruct (u_session u) as [s|] eqn:S.
  - destruct (coherent_world u s Hc S) as [E Hs]. specialize (Hm s _ _ (u_radio u) (u_log u) Hs). rewrite <- E in Hm.
    unfold runs in Hm. unfold mbind, M_bind. destruct (m u) as [[a u']|]; [|done]. destruct Hm as [H1 H2].
    split; [done|]. intros s1 s2 H3 H4. rewrite S in H3. injection H3 as <-. by apply H2.
  - split; [done|]. intros s1 s2 H3. by rewrite S in H3.
Qed.

Lemma uwb_do_spec op u : coherent u -> runs (uwb_do op) (fun _ u' => steps_to op u u') u.
Proof.
  intros Hc.
  assert (D : forall A (m : M A), does m -> (forall a b, edge a b = true -> step_of op a b) ->
            runs (on_session m) (fun _ u' => steps_to op u u') u).
  { intros A m Hm He. apply on_session_step; [done| |intros st; apply He, edge_refl].
    intros s o e r l Hs. eapply runs_weaken; [by apply Hm|]. intros a u' [H1 H2]. split; auto. }
  assert (N : forall f, (forall e, binding (f e) = binding e) -> (forall st, step_of op st st) ->
            runs (up_engine f) (fun _ u' => steps_to op u u') u).
  { intros f Hf Hr. eapply runs_weaken; [by apply engine_step|]. intros a u' [H1 H2]. split; [done|].
    intros s s' H3 H4. rewrite H2, H3 in H4. injection H4 as <-. apply Hr. }
  destruct op; cbn [uwb_do]; try (apply D; [|done]).
  - unfold runs. destruct (u_session u) as [s|] eqn:S.
    + split; [done|]. intros s1 s2 H1 H2. rewrite H1 in H2. injection H2 as <-. apply edge_refl.
    + destruct u as [us o e h r l]. cbn in S. subst us. destruct Hc as [Hh [Ho He]]. cbn in Hh, Ho, He. subst.
      cbn. split; [|done]. split; [done|]. split; [done|split; [done|by split]].
  - apply does_set_ursk.
  - apply does_set_version.
  - apply does_set_time_offset.
  - apply keeps_does, keeps_init_setup.
  - apply on_session_step; [done| |intros st; apply rtc_refl]. intros s o e r l Hs. by apply does_message.
  - apply keeps_does, keeps_suspend.
  - apply keeps_does, keeps_resume.
  - apply does_forced_suspend.
  - apply does_destroy.
  - apply N; [apply rxok_binding|intros st; apply edge_refl].
  - apply N; [apply tx_done_binding|intros st; apply edge_refl].
Qed.

Lemma uwb_run_spec ops u : coherent u -> runs (uwb_run ops) (fun _ u' => coherent u') u.
Proof.
  revert u. induction ops as [|op ops IH]; intros u Hc; [done|]. cbn [uwb_run]. apply runs_bind.
  eapply runs_weaken; [by apply uwb_do_spec|]. intros a u' [H _]. by apply IH.
Qed.

(** C8: no run of the client's calls, the peer's messages and the radio's
    callbacks makes a session touch an object that is gone, as long as
    allocations succeed.  After every run the seam's object exists exactly in
    the states from the start of the ranging on, the radio listens under the
    session's identifier exactly while the session is ranging or has only asked
    to suspend, and the next operation moves the state along the session's
    transitions. *)
Theorem uwb_session_sound ops r l :
  exists u, uwb_run ops (world None None engine_zero r l) = Some (tt, u) /\ coherent u /\
    forall op, exists u', uwb_do op u = Some (tt, u') /\ steps_to op u u'.
Proof.
  pose proof (uwb_run_spec ops (world None None engine_zero r l)) as H. unfold runs in H.
  destruct (uwb_run ops _) as [[[] u]|]; [|by exfalso; apply H].
  exists u. split; [done|]. assert (Hc : coherent u) by (by apply H). split; [done|]. intros op.
  pose proof (uwb_do_spec op u Hc) as S. unfold runs in S. destruct (uwb_do op u) as [[[] u']|]; [|done]. by exists u'.
Qed.

(** When the event of its end cannot be allocated, a session stays behind whose
    pointer to the seam's object dangles. *)
Lemma destroy_without_room s o e r l rest : us_ccc s = true ->
  exists u, session_close ((world (Some s) (Some o) e r l) <| u_heap := false :: rest |>) = Some (tt, u)
    /\ u_session u = Some s /\ u_object u = None /\ session_forced_suspend u = None.
Proof.
  intros H. unfold session_close. erewrite (bind_step the_session) by reflexivity. rewrite H.
  destruct rest; (eexists; split; [reflexivity|split; [reflexivity|split; [reflexivity|]]];
    unfold session_forced_suspend; erewrite (bind_step the_session) by reflexivity; by rewrite H).
Qed.
End Run.
