(* ===== verification/UwbSetup.v ===== *)
(** * The setup of a ranging session, both sides

    The reader's M1 and M3 and the device's M2 and M4 are lists of attributes
    that the other side reads back; a session that goes through them is on the
    air with the parameters the device derives from the same messages. *)

From Stdlib Require Import ZArith Lia Bool.
From stdpp Require Import base list numbers option relations.
From S2P Require Import Prelude Wire MatterCrypto CccKdf FiraRange CccRx UwbMsg UwbCherry UwbSession UwbRun.

Local Open Scope Z_scope.
Local Open Scope uwl_scope.

(** ** Messages as lists of attributes *)

Fixpoint payload_size (l : list attribute) : Z :=
  match l with [] => 0 | a :: rest => 2 + zlen (at_value a) + payload_size rest end.

Lemma payload_size_app l k : payload_size (l ++ k) = payload_size l + payload_size k.
Proof. induction l as [|a l IH]; cbn; lia. Qed.

Lemma zlen_attributes l : zlen (l ≫= attribute_bytes) = payload_size l.
Proof.
  induction l as [|a l IH]; [done|]. cbn [mbind list_bind payload_size]. rewrite zlen_app, IH.
  unfold attribute_bytes. rewrite !zlen_cons. lia.
Qed.

Definition built (protocol id plen : Z) (l : list attribute) : msg_builder :=
  {| mb_data := message protocol id plen l; mb_capacity := HEADER_LENGTH + plen |}.

Lemma built_size protocol id plen l : zlen (mb_data (built protocol id plen l)) = 4 + payload_size l.
Proof. unfold built, message. cbn [mb_data]. rewrite zlen_app, zlen_attributes. done. Qed.

Lemma message_snoc protocol id plen l a :
  message protocol id plen l ++ attribute_bytes a = message protocol id plen (l ++ [a]).
Proof. unfold message. rewrite bind_app. cbn [mbind list_bind]. by rewrite app_nil_r, <- app_assoc. Qed.

Lemma add_built protocol id plen l at_ len v : zlen v = len -> payload_size l + 2 + len <= plen ->
  add_attribute at_ len v (built protocol id plen l)
  = Some (built protocol id plen (l ++ [{| at_id := at_; at_value := v |}])).
Proof.
  intros H1 H2. rewrite add_attribute_fits; [|done|rewrite built_size; cbn; unfold HEADER_LENGTH; lia].
  unfold built. cbn [mb_data mb_capacity]. by rewrite message_snoc.
Qed.

Lemma add_u8_built protocol id plen l at_ v : payload_size l + 3 <= plen ->
  add_u8 at_ v (built protocol id plen l) = Some (built protocol id plen (l ++ [{| at_id := at_; at_value := [v] |}])).
Proof. intros H. apply add_built; [done|lia]. Qed.

Lemma add_u16_built protocol id plen l at_ v : payload_size l + 4 <= plen ->
  add_u16 at_ v (built protocol id plen l) = Some (built protocol id plen (l ++ [{| at_id := at_; at_value := put_be 2 v |}])).
Proof. intros H. apply add_built; [apply zlen_put_be|lia]. Qed.

Lemma add_u32_built protocol id plen l at_ v : payload_size l + 6 <= plen ->
  add_u32 at_ v (built protocol id plen l) = Some (built protocol id plen (l ++ [{| at_id := at_; at_value := put_be 4 v |}])).
Proof. intros H. apply add_built; [apply zlen_put_be|lia]. Qed.

Lemma add_u64_built protocol id plen l at_ v : payload_size l + 10 <= plen ->
  add_u64 at_ v (built protocol id plen l) = Some (built protocol id plen (l ++ [{| at_id := at_; at_value := put_be 8 v |}])).
Proof. intros H. apply add_built; [apply zlen_put_be|lia]. Qed.

Lemma add_u16_array_built protocol id plen l at_ v :
  v <> [] -> 2 * zlen v < 256 -> payload_size l + 2 + 2 * zlen v <= plen ->
  add_u16_array at_ v (built protocol id plen l)
  = Some (built protocol id plen (l ++ [{| at_id := at_; at_value := v ≫= put_be 2 |}])).
Proof.
  intros H1 H2 H3. rewrite add_u16_array_fits; [|done|done|rewrite built_size; cbn; unfold HEADER_LENGTH; lia].
  unfold built. cbn [mb_data mb_capacity]. by rewrite message_snoc.
Qed.

Lemma add_bytes_built protocol id plen l at_ v :
  zlen v < 256 -> payload_size l + 2 + zlen v <= plen ->
  add_bytes at_ v (built protocol id plen l)
  = Some (built protocol id plen (l ++ [{| at_id := at_; at_value := v |}])).
Proof.
  intros H1 H2. rewrite add_bytes_fits; [|done|rewrite built_size; cbn; unfold HEADER_LENGTH; lia].
  unfold built. cbn [mb_data mb_capacity]. by rewrite message_snoc.
Qed.

Lemma build_message_built protocol id plen fill l : 0 <= plen < 65536 ->
  fill (built protocol id plen []) = Some (built protocol id plen l) ->
  build_message true protocol id plen fill = Some (message protocol id plen l).
Proof.
  intros Hp Hf. unfold build_message, builder_init. cbn [mbind option_bind].
  change (builder_header _ protocol id plen) with
    {| mb_data := message protocol id plen []; mb_capacity := HEADER_LENGTH + u16 plen |}.
  rewrite wrap_id by (unfold in_u; lia).
  change {| mb_data := _; mb_capacity := _ |} with (built protocol id plen []). by rewrite Hf.
Qed.

(** ** Values read back *)

Lemma read_u8_value i v : byte_ok v -> read_u8 {| at_id := i; at_value := [v] |} = Some v.
Proof. intros H. change (Some (u8 v) = Some v). by rewrite wrap_id. Qed.

Lemma read_be_value i n v : in_u (8 * Z.of_nat n) v ->
  read_be {| at_id := i; at_value := put_be n v |} (Z.of_nat n) = Some v.
Proof.
  intros H. unfold read_be, at_length. cbn [at_value]. rewrite zlen_put_be, Z.eqb_refl. by rewrite get_put_be_id.
Qed.

Lemma read_u16_value i v : in_u 16 v -> read_u16 {| at_id := i; at_value := put_be 2 v |} = Some v.
Proof. intros H. unfold read_u16. rewrite (read_be_value i 2) by done. change (Some (u16 v) = Some v). by rewrite wrap_id. Qed.

Lemma read_u32_value i v : in_u 32 v -> read_u32 {| at_id := i; at_value := put_be 4 v |} = Some v.
Proof. intros H. unfold read_u32. rewrite (read_be_value i 4) by done. change (Some (u32 v) = Some v). by rewrite wrap_id. Qed.

Lemma read_u64_value i v : in_u 64 v -> read_u64 {| at_id := i; at_value := put_be 8 v |} = Some v.
Proof. intros H. by apply (read_be_value i 8). Qed.

Lemma attribute_ok_u8 i v : byte_ok i -> byte_ok v -> attribute_ok {| at_id := i; at_value := [v] |}.
Proof. intros H1 H2. split; [done|]. split; [by constructor|done]. Qed.

Lemma attribute_ok_be i n v : byte_ok i -> (n < 256)%nat -> attribute_ok {| at_id := i; at_value := put_be n v |}.
Proof. intros H1 H2. split; [done|]. split; [apply put_be_bytes|]. cbn [at_value]. rewrite zlen_put_be. lia. Qed.

(** A message with its payload's length in the header passes the framing. *)
Lemma message_framed protocol id l : payload_size l < 65536 ->
  let m := message protocol id (payload_size l) l in
  (zlen m <? HEADER_LENGTH) = false /\ (payload_length m =? zlen m - HEADER_LENGTH) = true
  /\ protocol_header m = protocol /\ message_id m = id.
Proof.
  intros H m. assert (Z0 : 0 <= payload_size l) by (rewrite <- zlen_attributes; apply zlen_nonneg).
  assert (L : zlen m = 4 + payload_size l) by (unfold m; rewrite <- (built_size protocol id (payload_size l)); done).
  unfold HEADER_LENGTH. rewrite L. subst m. rewrite message_payload_length by lia.
  split; [apply Z.ltb_ge; lia|]. split; [apply Z.eqb_eq; lia|]. done.
Qed.

(** ** The four messages *)

Section Setup.
Context `{C : BlockCipher} `{F : fira_cfg} `{K : rx_cfg} `{G : Residue}.
Variable ad : uwb_adapter.

(** Capabilities that fit the messages. *)
Record caps_ok : Prop := {
  co_configs : cap_uwb_configs (ad_ccc_caps ad) <> [] /\ (length (cap_uwb_configs (ad_ccc_caps ad)) <= DEV_UWB_MAX_CONFIGS)%nat
               /\ Forall (in_u 16) (cap_uwb_configs (ad_ccc_caps ad));
  co_combos : (length (cap_pulse_shape_combos (ad_ccc_caps ad)) <= DEV_UWB_MAX_COMBOS)%nat
              /\ Forall byte_ok (cap_pulse_shape_combos (ad_ccc_caps ad));
  co_channel : byte_ok (cap_channel_bitmask (ad_ccc_caps ad));
  co_sync : in_u 32 (cap_sync_code_index_bitmask (ad_ccc_caps ad));
  co_ran : byte_ok (ad_min_ran_multiplier ad);
  co_mac : byte_ok (rc_mac_mode (ad_config ad));
}.

Definition m1_attributes (id : Z) : list attribute :=
  [{| at_id := ATTR_CONFIGURATION_IDENTIFIER; at_value := cap_uwb_configs (ad_ccc_caps ad) ≫= put_be 2 |};
   {| at_id := ATTR_PULSE_SHAPE_COMBO; at_value := cap_pulse_shape_combos (ad_ccc_caps ad) |};
   {| at_id := ATTR_CHANNEL_BITMASK; at_value := [cap_channel_bitmask (ad_ccc_caps ad)] |};
   {| at_id := ATTR_SESSION_IDENTIFIER; at_value := put_be 4 id |}].

Definition setup_message (id : Z) (l : list attribute) : list Z :=
  message PROTOCOL_RANGING_SERVICE id (payload_size l) l.

Lemma m1_size id : caps_ok -> payload_size (m1_attributes id) =
  zlen (cap_uwb_configs (ad_ccc_caps ad)) * 2 + zlen (cap_pulse_shape_combos (ad_ccc_caps ad)) * 1 + 1 + 4 + 8
  /\ payload_size (m1_attributes id) < 256.
Proof.
  intros H. destruct (co_configs H) as (_ & H1 & _). destruct (co_combos H) as (H2 & _).
  unfold DEV_UWB_MAX_CONFIGS, DEV_UWB_MAX_COMBOS in *.
  cbn [m1_attributes payload_size at_value]. rewrite zlen_entries, zlen_put_be. unfold zlen. cbn [length]. lia.
Qed.

Lemma build_m1_eq s w o e r l : caps_ok ->
  build_m1 ad s (world w o e r l) = Some (Some (setup_message SETUP_M1 (m1_attributes (us_session_id s))), world w o e r l).
Proof.
  intros H. unfold build_m1, setup_message. destruct (m1_size (us_session_id s) H) as [Hs Hl].
  cbv zeta. change (4 * ATTRIBUTE_HEADER_LENGTH) with 8. rewrite <- Hs.
  assert (P : 0 <= payload_size (m1_attributes (us_session_id s))) by (rewrite <- zlen_attributes; apply zlen_nonneg).
  erewrite (bind_step alloc) by reflexivity. rewrite wrap_id by (unfold in_u; lia).
  unfold mret, M_ret. f_equal. f_equal. apply build_message_built; [lia|].
  destruct (co_configs H) as (H0 & H1 & _). destruct (co_combos H) as (H2 & _).
  unfold DEV_UWB_MAX_CONFIGS, DEV_UWB_MAX_COMBOS in *. set (plen := payload_size _) in *.
  pose proof (zlen_nonneg (cap_uwb_configs (ad_ccc_caps ad))). pose proof (zlen_nonneg (cap_pulse_shape_combos (ad_ccc_caps ad))).
  rewrite add_u16_array_built; [|done|unfold zlen; lia|cbn [payload_size]; lia]. cbn [mbind option_bind app].
  rewrite add_bytes_built; [|unfold zlen; lia|cbn [payload_size at_value]; rewrite zlen_entries; lia]. cbn [mbind option_bind app].
  rewrite add_u8_built; [|cbn [payload_size at_value]; rewrite zlen_entries; lia]. cbn [mbind option_bind app].
  rewrite add_u32_built; [reflexivity|cbn [payload_size at_value]; rewrite zlen_entries; unfold zlen at 3; cbn [length]; lia].
Qed.

Lemma config_entries_put room v : (length v <= room)%nat -> Forall (in_u 16) v -> config_entries room (v ≫= put_be 2) = v.
Proof.
  revert room. induction v as [|x v IH]; intros room Hr Hv; [by destruct room|].
  apply list.Forall_cons in Hv as [Hx Hv]. destruct room as [|room]; [cbn in Hr; lia|].
  cbn [mbind list_bind]. destruct (put_be 2 x) as [|hi [|lo [|y l]]] eqn:P;
    try (pose proof (length_put_be 2 x) as L; rewrite P in L; done).
  cbn [app config_entries]. rewrite IH; [|cbn in Hr; lia|done]. f_equal.
  assert (G2 : get_be [hi; lo] = x) by (rewrite <- P; by apply get_put_be_id).
  transitivity (u16 (get_be [hi; lo])); [reflexivity|]. rewrite G2. by apply wrap_id.
Qed.

Lemma m1_attributes_ok id : caps_ok -> Forall attribute_ok (m1_attributes id).
Proof.
  intros H. destruct (co_configs H) as (_ & H1 & H1'). destruct (co_combos H) as (H2 & H2').
  unfold DEV_UWB_MAX_CONFIGS, DEV_UWB_MAX_COMBOS in *.
  assert (E : Forall byte_ok (cap_uwb_configs (ad_ccc_caps ad) ≫= put_be 2)).
  { clear. induction (cap_uwb_configs (ad_ccc_caps ad)) as [|x l IH]; [constructor|]. cbn [mbind list_bind].
    apply list.Forall_app. split; [apply put_be_bytes|exact IH]. }
  unfold m1_attributes. repeat (apply list.Forall_cons; split); [| | | |constructor].
  - split; [done|]. split; [exact E|]. cbn [at_value]. rewrite zlen_entries. unfold zlen. lia.
  - split; [done|]. split; [exact H2'|]. cbn [at_value]. unfold zlen. lia.
  - by apply attribute_ok_u8, co_channel.
  - apply attribute_ok_be; [done|lia].
Qed.

Lemma parse_m1_eq id : caps_ok -> in_u 32 id ->
  dev_uwb_parse_m1 (setup_message SETUP_M1 (m1_attributes id))
  = Some {| m1_config_ids := cap_uwb_configs (ad_ccc_caps ad); m1_pulse_shape_combos := cap_pulse_shape_combos (ad_ccc_caps ad);
            m1_channel_bitmask := cap_channel_bitmask (ad_ccc_caps ad); m1_session_id := id |}.
Proof.
  intros H Hid. unfold dev_uwb_parse_m1. destruct (m1_size id H) as [_ Hl].
  destruct (message_framed PROTOCOL_RANGING_SERVICE SETUP_M1 (m1_attributes id)) as (F1 & _ & F2 & F3); [lia|].
  unfold ranging_message, setup_message. rewrite F1, F2, F3. cbn [negb andb Z.eqb PROTOCOL_RANGING_SERVICE SETUP_M1 Pos.eqb].
  rewrite for_attributes_message; [|done|done|by apply m1_attributes_ok].
  destruct (co_configs H) as (H0 & H1 & H1'). destruct (co_combos H) as (H2 & H2').
  unfold m1_attributes. cbn [over_attributes].
  unfold parse_m1_attribute. cbn [at_id at_value]. cbn -[read_u8 read_u32 config_entries put_be mbind DEV_UWB_MAX_CONFIGS DEV_UWB_MAX_COMBOS take].
  rewrite read_u8_value by apply H. cbn -[read_u32 config_entries put_be mbind DEV_UWB_MAX_CONFIGS DEV_UWB_MAX_COMBOS take].
  rewrite read_u32_value by done. cbn -[config_entries put_be mbind DEV_UWB_MAX_CONFIGS DEV_UWB_MAX_COMBOS take].
  rewrite !Nat.sub_0_r, config_entries_put, take_ge by done.
  destruct (cap_uwb_configs (ad_ccc_caps ad)); [done|]. reflexivity.
Qed.

Definition m2_attributes (p : dev_uwb_m2_params) : list attribute :=
  [{| at_id := ATTR_CONFIGURATION_IDENTIFIER; at_value := put_be 2 (m2_config_id p) |};
   {| at_id := ATTR_PULSE_SHAPE_COMBO; at_value := [m2_pulse_shape_combo p] |};
   {| at_id := ATTR_CHANNEL_BITMASK; at_value := [m2_channel_bitmask p] |};
   {| at_id := ATTR_RAN_MULTIPLIER; at_value := [m2_ran_multiplier p] |};
   {| at_id := ATTR_SLOT_BITMASK; at_value := [m2_slot_bitmask p] |};
   {| at_id := ATTR_SYNC_CODE_INDEX_BITMASK; at_value := put_be 4 (m2_sync_code_index_bitmask p) |};
   {| at_id := ATTR_HOPPING_CONFIGURATION_BITMASK; at_value := [m2_hopping_config_bitmask p] |}].

Lemma build_m2_eq p : dev_uwb_build_m2 true p = Some (setup_message SETUP_M2 (m2_attributes p)).
Proof.
  unfold dev_uwb_build_m2, setup_message. change (payload_size (m2_attributes p)) with 25.
  apply build_message_built; [done|].
  rewrite add_u16_built by done. cbn [mbind option_bind app]. rewrite !add_u8_built by done. cbn [mbind option_bind app].
  rewrite add_u8_built by done. cbn [mbind option_bind app]. rewrite add_u8_built by done. cbn [mbind option_bind app].
  rewrite add_u8_built by done. cbn [mbind option_bind app]. rewrite add_u32_built by done. cbn [mbind option_bind app].
  by rewrite add_u8_built.
Qed.

Definition m4_attributes (p : dev_uwb_m4_params) : list attribute :=
  [{| at_id := ATTR_STS_INDEX0; at_value := put_be 4 (m4_sts_index0 p) |};
   {| at_id := ATTR_UWB_TIME0; at_value := put_be 8 (m4_uwb_time0 p) |};
   {| at_id := ATTR_HOP_MODE_KEY; at_value := put_be 4 (m4_hop_mode_key p) |};
   {| at_id := ATTR_SYNC_CODE_INDEX; at_value := [m4_sync_code_index p] |}].

Lemma build_m4_eq p : dev_uwb_build_m4 true p = Some (setup_message SETUP_M4 (m4_attributes p)).
Proof.
  unfold dev_uwb_build_m4, setup_message. change (payload_size (m4_attributes p)) with 25.
  apply build_message_built; [done|].
  rewrite add_u32_built by done. cbn [mbind option_bind app]. rewrite add_u64_built by done. cbn [mbind option_bind app].
  rewrite add_u32_built by done. cbn [mbind option_bind app]. by rewrite add_u8_built.
Qed.

(** What the reader makes of the device's choice. *)
Definition chosen (p : dev_uwb_m2_params) (h : hopping_mode) (c : session_config) : session_config :=
  c <| cg_uwb_config_id := m2_config_id p |> <| cg_pulse_shape_combo := m2_pulse_shape_combo p |>
    <| cg_channel := if m2_channel_bitmask p =? CHANNEL_BITMASK_CH5 then 5 else 9 |>
    <| cg_ranging_duration_ms := 96 * Z.max (ad_min_ran_multiplier ad) (m2_ran_multiplier p) |>
    <| cg_slot_duration := u16 (400 * chaps_per_slot (Z.land (m2_slot_bitmask p) (cap_slot_bitmask (ad_ccc_caps ad)))) |>
    <| cg_hopping_mode := h |> <| cg_hopping_config_bitmask := u8 (Z.shiftl (hop_combo h) 3) |>.

Record m2_ok (p : dev_uwb_m2_params) : Prop := {
  ok_config : in_u 16 (m2_config_id p);
  ok_combo : byte_ok (m2_pulse_shape_combo p);
  ok_channel : m2_channel_bitmask p = CHANNEL_BITMASK_CH5 \/ m2_channel_bitmask p = CHANNEL_BITMASK_CH9;
  ok_ran : byte_ok (m2_ran_multiplier p);
  ok_slot : byte_ok (m2_slot_bitmask p);
  ok_sync : in_u 32 (m2_sync_code_index_bitmask p);
  ok_hop : byte_ok (m2_hopping_config_bitmask p);
}.

Lemma m2_attributes_ok p : m2_ok p -> Forall attribute_ok (m2_attributes p).
Proof.
  intros H. unfold m2_attributes. repeat (apply list.Forall_cons; split); try (by constructor);
    try (apply attribute_ok_be; [done|lia]); apply attribute_ok_u8; try done; try apply H.
  destruct (ok_channel p H) as [->| ->]; done.
Qed.

(** A run over attributes that are folded one after the other. *)
Lemma over_folded i v l s s' mask st : (i <? ATTR_MAX) = true -> (i =? ATTR_STATUS) = false ->
  parse_session_attribute ad {| at_id := i; at_value := v |} s = (s', ERR_NONE) ->
  over_attributes (parse_ranging_attribute ad) ({| at_id := i; at_value := v |} :: l) {| rg_session := s; rg_mask := mask; rg_status := st |}
  = over_attributes (parse_ranging_attribute ad) l {| rg_session := s'; rg_mask := Z.lor mask (Z.shiftl 1 i); rg_status := st |}.
Proof. intros H1 H2 H3. cbn [over_attributes]. unfold parse_ranging_attribute at 1. cbn [at_id rg_mask rg_session rg_status]. by rewrite H1, H2, H3. Qed.

Lemma folded_value v f s : folded (Some v) f s = (with_config s (f v), ERR_NONE).
Proof. reflexivity. Qed.

Lemma parse_m2_eq p h s : m2_ok p ->
  select_hopping ad (Z.land (Z.shiftr (m2_hopping_config_bitmask p) 3) (cap_hopping_config_bitmask (ad_ccc_caps ad))) = Some h ->
  parse_ranging ad (setup_message SETUP_M2 (m2_attributes p)) s
  = ({| rg_session := s <| us_config := chosen p h (us_config s) |>; rg_mask := M2_ATTR_MASK; rg_status := STATUS_UNKNOWN |},
     ERR_NONE).
Proof.
  intros H Hh. unfold parse_ranging, setup_message.
  rewrite for_attributes_message; [|done|done|by apply m2_attributes_ok].
  unfold m2_attributes.
  erewrite over_folded; [|done|done|cbn -[read_u16 put_be]; unfold parse_config_id; rewrite read_u16_value by apply H; apply folded_value].
  erewrite over_folded; [|done|done|cbn -[read_u8]; unfold parse_pulse_shape; rewrite read_u8_value by apply H; apply folded_value].
  erewrite (over_folded ATTR_CHANNEL_BITMASK _ _ _ (with_config _ (fun c => c <| cg_channel := if m2_channel_bitmask p =? CHANNEL_BITMASK_CH5 then 5 else 9 |>)));
    [|done|done|]; cycle 1.
  { cbn -[read_u8]. unfold parse_channel. destruct (ok_channel p H) as [->| ->]; reflexivity. }
  erewrite over_folded; [|done|done|cbn -[read_u8]; unfold parse_ran_multiplier; rewrite read_u8_value by apply H; apply folded_value].
  erewrite over_folded; [|done|done|cbn -[read_u8]; unfold parse_slot_bitmask; rewrite read_u8_value by apply H; apply folded_value].
  erewrite over_folded; [|done|done|cbn -[read_u32 put_be]; unfold parse_sync_code_bitmask; rewrite read_u32_value by apply H; apply folded_value].
  erewrite over_folded; [|done|done|]; cycle 1.
  { cbn -[read_u8]. unfold parse_hopping_bitmask. rewrite read_u8_value by apply H. cbv zeta. rewrite Hh. reflexivity. }
  unfold chosen. replace (Z.max (ad_min_ran_multiplier ad) (m2_ran_multiplier p))
    with (if ad_min_ran_multiplier ad <? m2_ran_multiplier p then m2_ran_multiplier p else ad_min_ran_multiplier ad)
    by (destruct (Z.ltb_spec (ad_min_ran_multiplier ad) (m2_ran_multiplier p)); lia).
  reflexivity.
Qed.

Definition timed (p : dev_uwb_m4_params) (c : session_config) : session_config :=
  c <| cg_sts_index := m4_sts_index0 p |> <| cg_uwb_time_us := m4_uwb_time0 p |>
    <| cg_hop_mode_key := put_le 4 (m4_hop_mode_key p) |> <| cg_sync_code_index := m4_sync_code_index p |>.

Record m4_ok (p : dev_uwb_m4_params) : Prop := {
  ok_sts : in_u 32 (m4_sts_index0 p);
  ok_time : in_u 64 (m4_uwb_time0 p);
  ok_key : in_u 32 (m4_hop_mode_key p);
  ok_code : byte_ok (m4_sync_code_index p);
}.

Lemma m4_attributes_ok p : m4_ok p -> Forall attribute_ok (m4_attributes p).
Proof.
  intros H. unfold m4_attributes. repeat (apply list.Forall_cons; split); try (by constructor);
    try (apply attribute_ok_be; [done|lia]); apply attribute_ok_u8; try done; apply H.
Qed.

Lemma parse_m4_eq p s : m4_ok p ->
  parse_ranging ad (setup_message SETUP_M4 (m4_attributes p)) s
  = ({| rg_session := s <| us_config := timed p (us_config s) |>; rg_mask := M4_ATTR_MASK; rg_status := STATUS_UNKNOWN |},
     ERR_NONE).
Proof.
  intros H. unfold parse_ranging, setup_message.
  rewrite for_attributes_message; [|done|done|by apply m4_attributes_ok].
  unfold m4_attributes.
  erewrite over_folded; [|done|done|cbn -[read_u32 put_be]; unfold parse_sts_index0; rewrite read_u32_value by apply H; apply folded_value].
  erewrite over_folded; [|done|done|cbn -[read_u64 put_be]; unfold parse_uwb_time0; rewrite read_u64_value by apply H; apply folded_value].
  erewrite over_folded; [|done|done|cbn -[read_u32 put_be]; unfold parse_hop_mode_key; rewrite read_u32_value by apply H; apply folded_value].
  erewrite over_folded; [|done|done|cbn -[read_u8]; unfold parse_sync_code_index; rewrite read_u8_value by apply H; apply folded_value].
  reflexivity.
Qed.

(** M3 states the reader's choices, and the device reads them. *)
Definition m3_attributes (c : session_config) : list attribute :=
  [{| at_id := ATTR_RAN_MULTIPLIER; at_value := [u8 (cg_ranging_duration_ms c / 96)] |};
   {| at_id := ATTR_NUMBER_CHAPS_PER_SLOT; at_value := [u8 (cg_slot_duration c / 400)] |};
   {| at_id := ATTR_NUMBER_RESPONDERS_NODES; at_value := [u8 NUM_RESPONDERS] |};
   {| at_id := ATTR_NUMBER_SLOTS_PER_ROUND; at_value := [cg_slot_per_rr c] |};
   {| at_id := ATTR_SYNC_CODE_INDEX_BITMASK; at_value := put_be 4 (cap_sync_code_index_bitmask (ad_ccc_caps ad)) |};
   {| at_id := ATTR_HOPPING_CONFIGURATION_BITMASK; at_value := [cg_hopping_config_bitmask c] |};
   {| at_id := ATTR_MAC_MODE; at_value := [rc_mac_mode (ad_config ad)] |}].

Definition m3_committed (c : session_config) : session_config :=
  c <| cg_slot_per_rr := SLOTS_PER_ROUND_DEFAULT |> <| cg_mac_mode := rc_mac_mode (ad_config ad) |>.

Lemma build_m3_eq s o e r l :
  build_m3 ad (world (Some s) o e r l)
  = Some (Some (setup_message SETUP_M3 (m3_attributes (m3_committed (us_config s)))),
          world (Some (s <| us_config := m3_committed (us_config s) |>)) o e r l).
Proof.
  unfold build_m3. erewrite (bind_step alloc) by reflexivity. cbn [negb].
  set (s1 := s <| us_config := m3_committed (us_config s) |>).
  erewrite (bind_step (up_config _) _ _ tt (world (Some s1) o e r l)) by reflexivity.
  erewrite (bind_step the_session) by reflexivity. reflexivity.
Qed.

Record m3_fields_ok (c : session_config) : Prop := {
  ok_slots : byte_ok (cg_slot_per_rr c);
  ok_hopping : byte_ok (cg_hopping_config_bitmask c);
}.

Lemma parse_m3_eq c : caps_ok -> m3_fields_ok c ->
  dev_uwb_parse_m3 (setup_message SETUP_M3 (m3_attributes c))
  = Some {| m3_ran_multiplier := u8 (cg_ranging_duration_ms c / 96);
            m3_chaps_per_slot := u8 (cg_slot_duration c / 400);
            m3_num_responders := u8 NUM_RESPONDERS; m3_slots_per_round := cg_slot_per_rr c;
            m3_sync_code_index_bitmask := cap_sync_code_index_bitmask (ad_ccc_caps ad);
            m3_hopping_config_bitmask := cg_hopping_config_bitmask c; m3_mac_mode := rc_mac_mode (ad_config ad) |}.
Proof.
  intros H Hc. unfold dev_uwb_parse_m3.
  destruct (message_framed PROTOCOL_RANGING_SERVICE SETUP_M3 (m3_attributes c)) as (F1 & _ & F2 & F3); [done|].
  unfold ranging_message. fold (setup_message SETUP_M3 (m3_attributes c)) in F1, F2, F3. rewrite F1, F2, F3. clear F1 F2 F3.
  cbn [negb andb Z.eqb PROTOCOL_RANGING_SERVICE SETUP_M3 Pos.eqb]. unfold setup_message.
  assert (U : forall v, byte_ok (u8 v)) by (intros v; apply (wrap_range 8); lia).
  rewrite for_attributes_message; [|done|done|]; cycle 1.
  { unfold m3_attributes. repeat (apply list.Forall_cons; split); try (by constructor);
      try (apply attribute_ok_be; [done|lia]); apply attribute_ok_u8; try done; try apply U; try apply H; apply Hc. }
  unfold m3_attributes. cbn [over_attributes]. unfold parse_m3_attribute, m3_field.
  cbn -[read_u8 read_u32 put_be wrap Z.div].
  rewrite !read_u8_value by (apply U || apply Hc || apply H). rewrite read_u32_value by apply H.
  reflexivity.
Qed.

(** ** The reader's steps *)

Lemma ranging_message_eq id l : payload_size l < 65536 ->
  session_message_handle ad (setup_message id l) = 
  process_ranging ad (setup_message id l) /\ message_id (setup_message id l) = id.
Proof.
  intros Hl. destruct (message_framed PROTOCOL_RANGING_SERVICE id l Hl) as (F1 & F2 & F3 & F4).
  fold (setup_message id l) in F1, F2, F3, F4. split; [|done].
  unfold session_message_handle. rewrite F1, F2. cbv zeta. rewrite F3. reflexivity.
Qed.

Lemma handler_eq msg masks expected k p s o e r l :
  parse_ranging ad msg s = (p, ERR_NONE) -> existsb (Z.eqb (rg_mask p)) masks = true -> us_state s = expected ->
  ranging_handler ad msg masks expected k (world (Some s) o e r l) = k (rg_status p) (world (Some (rg_session p)) o e r l).
Proof.
  intros H1 H2 H3. unfold ranging_handler. erewrite (bind_step the_session) by reflexivity. rewrite H1, H2.
  rewrite (bind_step (up_session _) _ _ tt (world (Some (rg_session p)) o e r l)) by reflexivity.
  by rewrite bool_decide_true.
Qed.

(** The parameters after the reader's M3. *)
Definition negotiated (p : dev_uwb_m2_params) (h : hopping_mode) (c : session_config) : session_config :=
  m3_committed (chosen p h c).

Lemma message_m2 p h s o e r l : m2_ok p ->
  select_hopping ad (Z.land (Z.shiftr (m2_hopping_config_bitmask p) 3) (cap_hopping_config_bitmask (ad_ccc_caps ad))) = Some h ->
  us_state s = M1_SENT ->
  session_message_handle ad (setup_message SETUP_M2 (m2_attributes p)) (world (Some s) o e r l)
  = Some (ERR_NONE, world (Some (s <| us_config := negotiated p h (us_config s) |> <| us_state := M3_SENT |>)) o e r
      (l ++ [UwbSend (setup_message SETUP_M3 (m3_attributes (negotiated p h (us_config s)))) true])).
Proof.
  intros H Hh S. destruct (ranging_message_eq SETUP_M2 (m2_attributes p)) as [-> E]; [done|].
  unfold process_ranging. rewrite E. cbn [Z.eqb SETUP_M2 Pos.eqb]. unfold handle_m2.
  rewrite (handler_eq _ _ _ _ _ s _ _ _ _ (parse_m2_eq p h s H Hh)) by done. cbn [rg_session].
  rewrite (bind_step _ _ _ _ _ (build_m3_eq _ o e r l)). apply send_and_move.
Qed.

(** The same message out of turn is refused, but the parameters of a session
    that is ranging have become its. *)
Lemma refused_m2_changes_session p h s o e r l : m2_ok p ->
  select_hopping ad (Z.land (Z.shiftr (m2_hopping_config_bitmask p) 3) (cap_hopping_config_bitmask (ad_ccc_caps ad))) = Some h ->
  us_state s = RANGING ->
  session_message_handle ad (setup_message SETUP_M2 (m2_attributes p)) (world (Some s) o e r l)
  = Some (ERR_INVALID_STATE, world (Some (s <| us_config := chosen p h (us_config s) |>)) o e r l).
Proof.
  intros H Hh S. destruct (ranging_message_eq SETUP_M2 (m2_attributes p)) as [-> E]; [done|].
  unfold process_ranging. rewrite E. cbn [Z.eqb SETUP_M2 Pos.eqb]. unfold handle_m2, ranging_handler.
  erewrite (bind_step the_session) by reflexivity. rewrite (parse_m2_eq p h s H Hh). 
  erewrite (bind_step (up_session _)) by reflexivity. by rewrite S.
Qed.

(** Without a common slot duration the session gets one that does not exist. *)
Lemma no_common_slot : chaps_per_slot 0 = 0 /\ chaps_per_slot 0x80 = 0x80.
Proof. split; reflexivity. Qed.

(** A start with a cipher that computes and a radio that comes up. *)
Hypothesis Hcipher : forall k b, is_Some (aes_ecb k b).

Lemma cmac_total k m : is_Some (ccc_aes_cmac k m).
Proof.
  unfold ccc_aes_cmac. destruct (Hcipher k (replicate AES_BLOCK 0)) as [x ->]. cbn [mbind option_bind]. cbv zeta.
  assert (T : forall n y m', is_Some (cmac_chain n k y m')).
  { induction n as [|n IH]; intros y m'; [by eexists|]. cbn [cmac_chain].
    destruct (Hcipher k (xor_bytes y (take AES_BLOCK m'))) as [z ->]. apply IH. }
  destruct (T (match m with [] => 0%nat | _ => ((length m - 1) / AES_BLOCK)%nat end) (replicate AES_BLOCK 0) m) as [y ->].
  apply Hcipher.
Qed.

Lemma kdf_block_total k i label context bits : 4 + zlen label + 1 + zlen context + 4 <= KDF_INPUT_MAX ->
  is_Some (kdf108_block k i label context bits).
Proof. intros H. unfold kdf108_block. rewrite (proj2 (Z.ltb_ge _ _)) by done. apply cmac_total. Qed.

Lemma bind_total ursk config i n g : n <> 0 -> is_Some (ccc_shim_bind_from_ursk ursk config i n g).
Proof.
  intros Hn. unfold ccc_shim_bind_from_ursk, ccc_derive_mursk, ccc_derive_salted_hash, kdf108_pair.
  destruct (kdf_block_total ursk 1 LBL_URSK CTX_ZERO3 L_256BIT) as [a ->]; [done|]. cbn [mbind option_bind].
  destruct (kdf_block_total ursk (1 + 1) LBL_URSK CTX_ZERO3 L_256BIT) as [b ->]; [done|]. cbn [mbind option_bind].
  destruct (kdf_block_total ursk 1 LBL_SALT CTX_ZERO3 L_128BIT) as [c ->]; [done|]. cbn [mbind option_bind].
  destruct (cmac_total (replicate 16 0 ++ c) config) as [d ->]. cbn [mbind option_bind].
  unfold ccc_shim_bind. rewrite (proj2 (Z.eqb_neq _ _)) by done. by eexists.
Qed.

Lemma start_cred_total c e : (ultrawidelock_uwb_start_cred (fun _ _ => true) c e).2 = true.
Proof.
  unfold ultrawidelock_uwb_start_cred. cbv zeta.
  destruct (bind_total (cc_ursk c) (match cc_ranging_config c with [] => cc_ursk c | rc => rc end) (cc_sts_index0 c)
    (if cc_slot_per_round c =? 0 then 1 else cc_slot_per_round c) (en_shim e)) as [g E].
  - destruct (Z.eqb_spec (cc_slot_per_round c) 0); lia.
  - cbn [en_shim]. change (en_shim (field_set _ _ e)) with (en_shim e). rewrite E. reflexivity.
Qed.

Lemma message_m4 p s k e l : m4_ok p -> us_state s = M3_SENT -> us_ursk s = Some k -> us_time_offset s = 0 ->
  let c := (timed p (us_config s)) <| cg_uwb_time_us := 0 |> in
  let started := ultrawidelock_uwb_start_cred (fun _ _ => true) (start_params c k) e in
  session_message_handle ad (setup_message SETUP_M4 (m4_attributes p)) (world (Some s) None e [] l)
  = Some (ERR_NONE, world (Some (s <| us_config := c |> <| us_ccc := true |> <| us_state := RANGING |>))
      (Some {| cs_ursk := Some k; cs_state := STATE_ACTIVE |}) started.1 [] (l ++ start_log (start_params c k) true)).
Proof.
  intros H S U T c started. destruct (ranging_message_eq SETUP_M4 (m4_attributes p)) as [-> E]; [done|].
  unfold process_ranging. rewrite E. cbn [Z.eqb SETUP_M2 SETUP_M4 Pos.eqb]. unfold handle_m4.
  rewrite (handler_eq _ _ _ _ _ s _ _ _ _ (parse_m4_eq p s H)) by done. cbn [rg_session].
  set (s1 := s <| us_config := timed p (us_config s) |>). set (s2 := s <| us_config := c |>).
  rewrite (bind_step compute_initiation_time _ _ tt (world (Some s2) None e [] l)); cycle 1.
  { unfold compute_initiation_time. erewrite (bind_step the_session) by reflexivity.
    change (us_time_offset s1) with (us_time_offset s). rewrite T. reflexivity. }
  pose proof (session_init_eq ad s2 k e [] l U) as Q. cbv zeta in Q. change (us_config s2) with c in Q.
  cbn [hd tl] in Q. fold started in Q. pose proof (start_cred_total (start_params c k) e) as Ht. fold started in Ht.
  rewrite Ht in Q. rewrite (bind_step _ _ _ _ _ Q). reflexivity.
Qed.

Lemma on_session_eq {A} (m : M A) s o e h r l a u' :
  m {| u_session := Some s; u_object := o; u_engine := e; u_heap := h; u_radio := r; u_log := l |} = Some (a, u') ->
  on_session m {| u_session := Some s; u_object := o; u_engine := e; u_heap := h; u_radio := r; u_log := l |} = Some (tt, u').
Proof. intros H. unfold on_session. cbn [u_session]. by rewrite (bind_step _ _ _ _ _ H). Qed.

(** The RangingConfiguration as the device puts it together: the session it was
    told in M1, its own M2 and M4, and the reader's M3. *)
Definition device_ranging_config (d : dev_uwb_m1) (p : dev_uwb_m2_params) (q : dev_uwb_m3) (t : dev_uwb_m4_params) : list Z :=
  [0x01; 0x00] ++ put_be 2 (m2_config_id p) ++ put_be 4 (m1_session_id d) ++ put_be 4 (m4_sts_index0 t)
  ++ [m3_num_responders q; m3_ran_multiplier q; m3_slots_per_round q; m3_chaps_per_slot q; m2_pulse_shape_combo p].

Lemma select_m2_ok d : Forall (in_u 16) (m1_config_ids d) -> Forall byte_ok (m1_pulse_shape_combos d) ->
  m2_ok (dev_uwb_select_m2 d).
Proof.
  intros H1 H2. split; cbn; try done.
  - destruct (m1_config_ids d); [done|]. by apply list.Forall_cons in H1 as [H1 _].
  - destruct (m1_pulse_shape_combos d); [done|]. by apply list.Forall_cons in H2 as [H2 _].
  - destruct (_ && _); auto.
Qed.

Definition started_session (id : Z) (ursk : list Z) : uwb_session :=
  {| us_session_id := id; us_ursk := Some (take 32 ursk); us_time_offset := 0; us_selected_protocol_version := 0;
     us_ccc := false; us_config := session_config_zero; us_state := CREATED |}.

Lemma init_setup_eq s e r l : caps_ok -> us_state s = CREATED ->
  session_init_setup ad (world (Some s) None e r l)
  = Some (ERR_NONE, world (Some (s <| us_config := (us_config s) <| cg_session_id := us_session_id s |> |> <| us_state := M1_SENT |>))
      None e r (l ++ [UwbSend (setup_message SETUP_M1 (m1_attributes (us_session_id s))) true])).
Proof.
  intros H S. unfold session_init_setup. erewrite (bind_step the_session) by reflexivity.
  rewrite bool_decide_true by done. cbn [negb].
  set (s1 := s <| us_config := (us_config s) <| cg_session_id := us_session_id s |> |>).
  rewrite (bind_step (up_config _) _ _ tt (world (Some s1) None e r l)) by reflexivity.
  rewrite (bind_step _ _ _ _ _ (build_m1_eq s (Some s1) None e r l H)). apply send_and_move.
Qed.

Lemma chaps_of_first common : Z.land common 1 = 1 -> chaps_per_slot common = 3.
Proof. intros H. unfold chaps_per_slot, lowest_slot_bit. cbn [List.find]. by rewrite Z.shiftr_0_r, H. Qed.

(** The parameters the session starts with. *)
Definition agreed_config (id : Z) (p : dev_uwb_m2_params) (h : hopping_mode) (t : dev_uwb_m4_params) : session_config :=
  (timed t (negotiated p h (session_config_zero <| cg_session_id := id |>))) <| cg_uwb_time_us := 0 |>.

Lemma setup_run id ursk t h :
  let d := {| m1_config_ids := cap_uwb_configs (ad_ccc_caps ad); m1_pulse_shape_combos := cap_pulse_shape_combos (ad_ccc_caps ad);
              m1_channel_bitmask := cap_channel_bitmask (ad_ccc_caps ad); m1_session_id := id |} in
  let p := dev_uwb_select_m2 d in
  let c := negotiated p h (session_config_zero <| cg_session_id := id |>) in
  let start := start_params (agreed_config id p h t) (take 32 ursk) in
  caps_ok -> m4_ok t ->
  select_hopping ad (Z.land (Z.shiftr (m2_hopping_config_bitmask p) 3) (cap_hopping_config_bitmask (ad_ccc_caps ad))) = Some h ->
  uwb_run ad [OpCreate id; OpSetUrsk ursk; OpInitSetup;
              OpMessage (setup_message SETUP_M2 (m2_attributes p)); OpMessage (setup_message SETUP_M4 (m4_attributes t))]
    (world None None engine_zero [] [])
  = Some (tt, world (Some ((started_session id ursk) <| us_config := agreed_config id p h t |> <| us_ccc := true |> <| us_state := RANGING |>))
      (Some {| cs_ursk := Some (take 32 ursk); cs_state := STATE_ACTIVE |})
      (ultrawidelock_uwb_start_cred (fun _ _ => true) start engine_zero).1 []
      ([UwbSend (setup_message SETUP_M1 (m1_attributes id)) true;
        UwbSend (setup_message SETUP_M3 (m3_attributes c)) true] ++ start_log start true)).
Proof.
  intros d p c start H Ht Hh. assert (Hp : m2_ok p) by (apply select_m2_ok; apply H). cbn [uwb_run uwb_do].
  set (s0 := started_session id ursk). unfold world at 1.
  rewrite (bind_step _ _ _ tt (world (Some (s0 <| us_ursk := None |>)) None engine_zero [] [])) by reflexivity.
  rewrite (bind_step _ _ _ tt (world (Some s0) None engine_zero [] [])) by reflexivity.
  erewrite bind_step by (eapply on_session_eq; by apply init_setup_eq).
  erewrite bind_step by (eapply on_session_eq; by apply message_m2).
  erewrite bind_step by (eapply on_session_eq; by apply message_m4). reflexivity.
Qed.

(** C10: the setup completes, and both sides hold the same session.  Whatever the
    reader's capabilities (within the sizes of the messages, with the first slot
    bit and a hopping preference the device supports), the device reads the
    reader's M1, answers with M2, reads the reader's M3 and answers with M4; the
    reader's session is then ranging, the radio is on under the session's URSK
    and identifier, and the RangingConfiguration handed over, which keys the
    whole session, is byte for byte the one the device makes out of the messages
    it has seen. *)
Theorem uwb_setup_agrees id ursk t h :
  caps_ok -> in_u 32 id -> m4_ok t ->
  Z.land 1 (cap_slot_bitmask (ad_ccc_caps ad)) = 1 ->
  select_hopping ad (Z.land (Z.shiftr 0xFF 3) (cap_hopping_config_bitmask (ad_ccc_caps ad))) = Some h ->
  exists m1 d m2 m3 q m4 u s,
    dev_uwb_parse_m1 m1 = Some d /\ m1_session_id d = id
    /\ dev_uwb_build_m2 true (dev_uwb_select_m2 d) = Some m2
    /\ dev_uwb_parse_m3 m3 = Some q
    /\ m3_ran_multiplier q = Z.max (ad_min_ran_multiplier ad) 4 /\ m3_chaps_per_slot q = 3
    /\ dev_uwb_build_m4 true t = Some m4
    /\ uwb_run ad [OpCreate id; OpSetUrsk ursk; OpInitSetup; OpMessage m2; OpMessage m4]
         (world None None engine_zero [] []) = Some (tt, u)
    /\ u_log u =
         [UwbSend m1 true; UwbSend m3 true;
          UwbHandoff (take 32 ursk) (device_ranging_config d (dev_uwb_select_m2 d) q t)
            (if m2_channel_bitmask (dev_uwb_select_m2 d) =? CHANNEL_BITMASK_CH5 then 5 else 9) (m4_sync_code_index t);
          UwbStatus STATE_IDLE; UwbStatus STATE_ACTIVE]
    /\ u_session u = Some s /\ us_state s = RANGING
    /\ radio_on (take 32 ursk) id (u_engine u).
Proof.
  intros H Hid Ht Hslot Hh.
  set (d := {| m1_config_ids := cap_uwb_configs (ad_ccc_caps ad); m1_pulse_shape_combos := cap_pulse_shape_combos (ad_ccc_caps ad);
              m1_channel_bitmask := cap_channel_bitmask (ad_ccc_caps ad); m1_session_id := id |}).
  set (c := negotiated (dev_uwb_select_m2 d) h (session_config_zero <| cg_session_id := id |>)).
  assert (Hc : m3_fields_ok c) by (split; cbn -[wrap]; [done|apply (wrap_range 8); lia]).
  pose proof (parse_m3_eq c H Hc) as P3.
  exists (setup_message SETUP_M1 (m1_attributes id)), d, (setup_message SETUP_M2 (m2_attributes (dev_uwb_select_m2 d))),
    (setup_message SETUP_M3 (m3_attributes c)). eexists _, (setup_message SETUP_M4 (m4_attributes t)), _, _.
  split; [by apply parse_m1_eq|]. split; [done|]. split; [apply build_m2_eq|]. split; [exact P3|].
  split; [|split]; [| |split; [apply build_m4_eq|split; [by apply (setup_run id ursk t h)|split; [|split; [reflexivity|split; [reflexivity|]]]]]].
  - cbn [m3_ran_multiplier]. change (cg_ranging_duration_ms c) with (96 * Z.max (ad_min_ran_multiplier ad) 4).
    rewrite Z.mul_comm, Z.div_mul by done. apply wrap_id. pose proof (co_ran H). unfold byte_ok, in_u in *. lia.
  - cbn [m3_chaps_per_slot].
    change (cg_slot_duration c) with (u16 (400 * chaps_per_slot (Z.land 1 (cap_slot_bitmask (ad_ccc_caps ad))))).
    rewrite chaps_of_first; [reflexivity|by rewrite Hslot].
  - reflexivity.
  - cbn [u_engine world].
    pose proof (start_cred_spec (fun _ _ => true) (start_params (agreed_config id (dev_uwb_select_m2 d) h t) (take 32 ursk)) engine_zero) as S.
    cbv zeta in S. rewrite start_cred_total in S. apply S. done.
Qed.
End Setup.

(** ** A concrete setup *)

Definition demo_cipher : BlockCipher := fun k b => Some (replicate 16 0).

Definition demo_caps : ccc_capabilities :=
  {| cap_slot_bitmask := 0x7F; cap_sync_code_index_bitmask := 0xFF; cap_hopping_config_bitmask := 0x1E; cap_channel_bitmask := 3;
     cap_protocol_versions := [0x0100]; cap_uwb_configs := [1; 0]; cap_pulse_shape_combos := [0x00];
     cap_minimum_ran_multiplier := 2 |}.

Definition demo_adapter : uwb_adapter :=
  {| ad_config := {| rc_min_ran_multiplier := 1; rc_preferred_hopping := [HOPPING_ADAPTATIVE_DEFAULT; HOPPING_DISABLE];
                     rc_mac_mode := 0; rc_r1_antennas := (0, 0); rc_r2_antennas := (0, 0) |};
     ad_ccc_caps := demo_caps; ad_min_ran_multiplier := 2; ad_diag_config := false |}.

Lemma uwb_setup_agrees_witness : exists m2 m4 u s,
  uwb_run (C := demo_cipher) (F := fira_defaults) (K := rx_defaults) (G := fun n => replicate n 0) demo_adapter
    [OpCreate 7; OpSetUrsk (replicate 32 9); OpInitSetup; OpMessage m2; OpMessage m4]
    (world None None engine_zero [] []) = Some (tt, u)
  /\ u_session u = Some s /\ us_state s = RANGING.
Proof.
  assert (H : caps_ok demo_adapter).
  { split; try done; split; try done; try (split; [cbn; unfold DEV_UWB_MAX_CONFIGS; lia|]); try (cbn; unfold DEV_UWB_MAX_COMBOS; lia);
      repeat constructor; done. }
  assert (Ht : m4_ok {| m4_sts_index0 := 1000; m4_uwb_time0 := 5; m4_hop_mode_key := 77; m4_sync_code_index := 9 |}) by (by split).
  destruct (uwb_setup_agrees (C := demo_cipher) (F := fira_defaults) (K := rx_defaults) (G := fun n => replicate n 0) demo_adapter
    (fun k b => ex_intro _ _ eq_refl) 7 (replicate 32 9) _ HOPPING_ADAPTATIVE_DEFAULT H ltac:(by split) Ht eq_refl eq_refl)
    as (m1 & d & m2 & m3 & q & m4 & u & s & _ & _ & _ & _ & _ & _ & _ & E & _ & S & R & _).
  exists m2, m4, u, s. split; [exact E|]. split; [exact S|exact R].
Defined.
