(* ===== verification/SatJoin.v ===== *)
(** * A satellite joins the lock's session

    Models [sat_join_apply] of [apps/satellite/src/main.c]: the second anchor
    takes the session from the seventeen bytes of the RangingConfiguration that
    the lock hands over.  Both anchors then hold the same keys. *)

From Stdlib Require Import ZArith Lia Bool.
From stdpp Require Import base list numbers option.
From S2P Require Import Prelude Wire MatterCrypto CccKdf CccMac FiraRange CccRx CccKeyProps UwbCherry.

Local Open Scope Z_scope.
Local Open Scope uwl_scope.

Section Join.
Context `{C : BlockCipher} `{K : rx_cfg}.

(** A big-endian word put together from its bytes. *)
Definition be32_at (p : list Z) (i : Z) : Z :=
  Z.lor (Z.lor (Z.lor (Z.shiftl (byte_at p i) 24) (Z.shiftl (byte_at p (i + 1)) 16)) (Z.shiftl (byte_at p (i + 2)) 8))
    (byte_at p (i + 3)).

Definition sat_cfg (ursk rcfg : list Z) (channel sync_code_index : Z) : cred_cfg :=
  {| cc_session_id := be32_at rcfg 4; cc_channel := channel; cc_sync_code_index := sync_code_index;
     cc_slot_duration_rstu := u16 (byte_at rcfg 15 * 400); cc_block_duration_ms := byte_at rcfg 13 * 96;
     cc_slot_per_round := byte_at rcfg 14; cc_sts_index0 := be32_at rcfg 8; cc_uwb_time_us := 0;
     cc_ursk := ursk; cc_ranging_config := rcfg |}.

(** The session's identifier, when the satellite has joined it. *)
Definition sat_join_apply (radio : Z -> Z -> bool) (ursk rcfg : list Z) (channel sync_code_index : Z) (e : uwb_engine)
    : uwb_engine * option Z :=
  if negb (byte_at rcfg 12 =? NUM_RESPONDERS) then (e, None)
  else
    let cfg := sat_cfg ursk rcfg channel sync_code_index in
    let '(e, ok) := ultrawidelock_uwb_start_cred radio cfg (ultrawidelock_uwb_stop e) in
    (e, if ok then Some (cc_session_id cfg) else None).

(** ** The parameters come across *)

(** A session's parameters, in the units of the RangingConfiguration. *)
Record in_units (c : session_config) : Prop := {
  iu_id : in_u 32 (cg_session_id c);
  iu_index : in_u 32 (cg_sts_index c);
  iu_ran : exists r, byte_ok r /\ cg_ranging_duration_ms c = 96 * r;
  iu_slots : byte_ok (cg_slot_per_rr c);
  iu_chaps : exists n, 0 <= n < 164 /\ cg_slot_duration c = 400 * n;
}.

Lemma be32_of_bytes a b c d : byte_ok a -> byte_ok b -> byte_ok c -> byte_ok d ->
  Z.lor (Z.lor (Z.lor (Z.shiftl a 24) (Z.shiftl b 16)) (Z.shiftl c 8)) d = get_be [a; b; c; d].
Proof.
  unfold byte_ok. intros Ha Hb Hc Hd. unfold get_be. cbn [fold_left]. rewrite Z.shiftl_0_l, Z.lor_0_l.
  rewrite !Z.shiftl_lor, !Z.shiftl_shiftl by lia. reflexivity.
Qed.

Lemma be32_at_app p v q : in_u 32 v -> be32_at (p ++ put_be 4 v ++ q) (zlen p) = v.
Proof.
  intros Hv. unfold be32_at.
  assert (B : forall k r, 0 <= k -> byte_at (p ++ r) (zlen p + k) = byte_at r k).
  { intros k r Hk. rewrite byte_at_skip by (unfold zlen; lia). f_equal. unfold zlen. lia. }
  rewrite <- (Z.add_0_r (zlen p)) at 1. rewrite !B by lia.
  pose proof (get_put_be_id 4 v Hv) as G. pose proof (put_be_bytes 4 v) as Hb.
  destruct (put_be 4 v) as [|b0 [|b1 [|b2 [|b3 [|]]]]] eqn:E; try (pose proof (length_put_be 4 v) as L; rewrite E in L; done).
  repeat (apply list.Forall_cons in Hb as [? Hb]).
  change (byte_at _ 0) with b0. change (byte_at _ 1) with b1. change (byte_at _ 2) with b2. change (byte_at _ 3) with b3.
  by rewrite be32_of_bytes.
Qed.

Lemma sat_cfg_eq c k : in_units c -> byte_ok NUM_RESPONDERS ->
  byte_at (ranging_config c) 12 = NUM_RESPONDERS
  /\ sat_cfg k (ranging_config c) (cg_channel c) (cg_sync_code_index c)
     = let p := start_params c k in
       {| cc_session_id := cc_session_id p; cc_channel := cc_channel p; cc_sync_code_index := cc_sync_code_index p;
          cc_slot_duration_rstu := cc_slot_duration_rstu p; cc_block_duration_ms := cc_block_duration_ms p;
          cc_slot_per_round := cc_slot_per_round p; cc_sts_index0 := cc_sts_index0 p; cc_uwb_time_us := 0;
          cc_ursk := k; cc_ranging_config := cc_ranging_config p |}.
Proof.
  intros [H1 H2 (r & Hr & H3) H4 (n & Hn & H5)] HN.
  set (m := ranging_config c).
  assert (Em : m = ([0x01; 0x00] ++ put_be 2 (cg_uwb_config_id c)) ++ put_be 4 (cg_session_id c) ++ put_be 4 (cg_sts_index c)
    ++ [NUM_RESPONDERS; r; cg_slot_per_rr c; n; cg_pulse_shape_combo c]).
  { unfold m, ranging_config. rewrite <- app_assoc. do 4 f_equal. rewrite H3, H5.
    rewrite (Z.mul_comm 96), (Z.mul_comm 400), !Z.div_mul by done.
    rewrite (wrap_id 8 NUM_RESPONDERS) by done. rewrite (wrap_id 8 r) by done. rewrite (wrap_id 8 n) by (unfold in_u; lia). done. }
  assert (T : forall i, 0 <= i -> byte_at m (12 + i) = byte_at [NUM_RESPONDERS; r; cg_slot_per_rr c; n; cg_pulse_shape_combo c] i).
  { intros i Hi. rewrite Em. rewrite byte_at_skip by (rewrite length_app, length_put_be; cbn [length]; lia).
    rewrite byte_at_skip by (rewrite length_app, !length_put_be; cbn [length]; lia).
    rewrite byte_at_skip by (rewrite length_app, !length_put_be; cbn [length]; lia).
    f_equal. rewrite length_app, !length_put_be. cbn [length]. lia. }
  split; [exact (T 0 (Z.le_refl 0))|].
  assert (E1 : be32_at m 4 = cg_session_id c).
  { rewrite Em. by apply (be32_at_app ([0x01; 0x00] ++ put_be 2 (cg_uwb_config_id c))). }
  assert (E2 : be32_at m 8 = cg_sts_index c).
  { rewrite Em, app_assoc. by apply (be32_at_app (([0x01; 0x00] ++ put_be 2 (cg_uwb_config_id c)) ++ put_be 4 (cg_session_id c))). }
  pose proof (T 1 ltac:(lia)) as T1. pose proof (T 2 ltac:(lia)) as T2. pose proof (T 3 ltac:(lia)) as T3.
  unfold sat_cfg, start_params. fold m. cbv zeta.
  cbn [cc_session_id cc_channel cc_sync_code_index cc_slot_duration_rstu cc_block_duration_ms cc_slot_per_round cc_sts_index0 cc_ranging_config].
  rewrite E1, E2. change (12 + 1) with 13 in T1. change (12 + 2) with 14 in T2. change (12 + 3) with 15 in T3. rewrite T1, T2, T3.
  change (byte_at _ 1) with r. change (byte_at _ 2) with (cg_slot_per_rr c). change (byte_at _ 3) with n.
  rewrite H3, H5, wrap_id by (unfold in_u; lia). f_equal; lia.
Qed.

(** What a start binds. *)
Lemma start_bound radio p e e' : ultrawidelock_uwb_start_cred radio p e = (e', true) ->
  exists mursk salt, ccc_derive_mursk (cc_ursk p) = Some mursk
    /\ ccc_derive_salted_hash (cc_ursk p) (match cc_ranging_config p with [] => cc_ursk p | rc => rc end) = Some salt
    /\ bound (en_shim e') = (mursk, salt, cc_sts_index0 p, (if cc_slot_per_round p =? 0 then 1 else cc_slot_per_round p), true)
    /\ caches_ok (en_shim e').
Proof.
  unfold ultrawidelock_uwb_start_cred. cbv zeta.
  destruct (ccc_shim_bind_from_ursk _ _ _ _ _) as [g|] eqn:B; [|done]. destruct (radio _ _); [|done].
  intros H. injection H as <-.
  unfold ccc_shim_bind_from_ursk in B. destruct (ccc_derive_mursk (cc_ursk p)) as [mursk|]; [|done]. cbn [mbind option_bind] in B.
  destruct (ccc_derive_salted_hash (cc_ursk p) _) as [salt|]; [|done]. cbn [mbind option_bind] in B.
  unfold ccc_shim_bind in B. destruct (_ =? 0); [done|]. apply (inj Some) in B as <-.
  exists mursk, salt. split; [done|]. split; [done|]. split; [reflexivity|done].
Qed.

Lemma answers_bound qs g g' : caches_ok g -> caches_ok g' -> bound g = bound g' -> answers qs g = answers qs g'.
Proof.
  revert g g'. induction qs as [|q qs IH]; intros g g' H H' Hb; [done|]. cbn [answers].
  destruct (answer_spec q g H) as (A1 & A2 & A3). destruct (answer_spec q g' H') as (B1 & B2 & B3).
  rewrite A1, B1, (derived_bound q g g' Hb). f_equal. apply IH; [done|done|congruence].
Qed.

(** C20: the satellite and the lock range in the same session.  When the lock
    starts a session and the satellite joins it with what the lock handed over,
    both have the same session identifier, and from then on both compute the same
    key and the same STS for every index that either of them asks for. *)
Theorem satellite_shares_session radio radio' c k el el' es es' id :
  in_units c -> byte_ok NUM_RESPONDERS ->
  ultrawidelock_uwb_start_cred radio (start_params c k) el = (el', true) ->
  sat_join_apply radio' k (ranging_config c) (cg_channel c) (cg_sync_code_index c) es = (es', Some id) ->
  id = cg_session_id c /\ fi_session_id (en_fira es') = fi_session_id (en_fira el')
  /\ forall qs, answers qs (en_shim es') = answers qs (en_shim el').
Proof.
  intros Hc HN Hl Hs. destruct (sat_cfg_eq c k Hc HN) as [E1 E2].
  unfold sat_join_apply in Hs. rewrite E1, Z.eqb_refl in Hs. cbn [negb] in Hs. rewrite E2 in Hs. cbv zeta in Hs.
  destruct (ultrawidelock_uwb_start_cred radio' _ _) as [e2 ok] eqn:S. destruct ok; [|done].
  injection Hs as <- <-. split; [done|].
  destruct (start_bound _ _ _ _ Hl) as (m1 & s1 & A1 & A2 & A3 & A4).
  destruct (start_bound _ _ _ _ S) as (m2 & s2 & B1 & B2 & B3 & B4).
  cbn [cc_ursk cc_ranging_config cc_sts_index0 cc_slot_per_round start_params] in *.
  rewrite A1 in B1. injection B1 as <-. rewrite A2 in B2. injection B2 as <-.
  split; [|intros qs; apply answers_bound; [done|done|congruence]].
  assert (I : forall radio p e e', ultrawidelock_uwb_start_cred radio p e = (e', true) -> fi_session_id (en_fira e') = cc_session_id p).
  { clear. intros radio p e e'. unfold ultrawidelock_uwb_start_cred. cbv zeta.
    destruct (ccc_shim_bind_from_ursk _ _ _ _ _) as [g|]; [|done]. destruct (radio _ _); [|done]. intros H. by injection H as <-. }
  rewrite (I _ _ _ _ S), (I _ _ _ _ Hl). reflexivity.
Qed.
End Join.

Definition demo_config : session_config :=
  session_config_zero <| cg_session_id := 7 |> <| cg_sts_index := 1000 |> <| cg_ranging_duration_ms := 384 |>
    <| cg_slot_per_rr := 12 |> <| cg_slot_duration := 1200 |> <| cg_channel := 9 |> <| cg_sync_code_index := 9 |>.

Lemma satellite_shares_session_witness : exists el' es' id,
  sat_join_apply (C := fun k b => Some (replicate 16 0)) (K := rx_defaults) (fun _ _ => true) (replicate 32 1)
    (ranging_config (K := rx_defaults) demo_config) 9 9 engine_zero = (es', Some id)
  /\ id = 7 /\ fi_session_id (en_fira es') = fi_session_id (en_fira el').
Proof.
  assert (Hc : in_units demo_config).
  { split; try done; [exists 4|exists 3]; split; done. }
  destruct (ultrawidelock_uwb_start_cred (C := fun k b => Some (replicate 16 0)) (fun _ _ => true)
    (start_params (K := rx_defaults) demo_config (replicate 32 1)) engine_zero) as [el' ok] eqn:El.
  destruct (sat_join_apply (C := fun k b => Some (replicate 16 0)) (K := rx_defaults) (fun _ _ => true) (replicate 32 1)
    (ranging_config (K := rx_defaults) demo_config) 9 9 engine_zero) as [es' oid] eqn:Es.
  assert (ok = true) as -> by (change ok with (el', ok).2; rewrite <- El; vm_compute; reflexivity).
  destruct oid as [id|]; [|exfalso; apply (f_equal snd) in Es; vm_compute in Es; discriminate Es].
  exists el', es', id. split; [reflexivity|].
  destruct (satellite_shares_session (C := fun k b => Some (replicate 16 0)) (K := rx_defaults) (fun _ _ => true) (fun _ _ => true)
    demo_config (replicate 32 1) engine_zero el' engine_zero es' id Hc ltac:(done) El Es) as (H1 & H2 & _).
  split; [exact H1|exact H2].
Defined.
